(* ===== verification/_CoqProject ===== *)
-Q . S2P
Prelude.v
Records.v
GoLib.v
AuthTypes.v
AuthCheck.v
AuthLogic.v
AuthTheorems.v
Regex.v
Files.v
Util.v
GoNum.v
Validator.v
Facts.v
Filters.v
DemoLibs.v
Backoff.v
Submission.v
Election.v
Governor.v
Transport.v
SecureMessages.v
DemoJSON.v
Security.v
Federation.v
Connection.v
Message.v
AgentManager.v
DDL.v
Machine.v
Watchers.v
ExecWatcher.v
NagiosWatcher.v
KVWatcher.v
FileWatcher.v
ExpressionWatcher.v
ScheduleWatcher.v
TimerWatcher.v
Tree.v
Sha256Sums.v
ArchiveWatcher.v
PluginsWatcher.v
FilterTheorems.v
ActionPolicy.v
Rpc.v
Processor.v
DemoServer.v
ServerTheorems.v
AgentsTheorems.v
Lifecycle.v
Tally.v
RpcOptions.v
RpcClient.v
RpcClientTheorems.v
Framework.v
FileSecurity.v
Enrollment.v
BasicClient.v
AAgent.v
Confkey.v
Discovery.v
Adapter.v
Config.v
Provision.v
ExternalAgents.v
WrittenConfig.v
DiscoveryTheorems.v
Execution.v
HttpSwitch.v
GossipWatcher.v
MetricWatcher.v
Registration.v
Instance.v
MachinesWatcher.v
DataPlugins.v
Resolvers.v
BuiltinAgents.v
ProtocolV1.v
HttpServer.v
AuditLog.v
Signers.v
