(* ===== verification/Prelude.v ===== *)
(** * go-choria: verification development

    Choria is an orchestration system: clients sign requests, a network of brokers
    carries them, servers whose properties match a request's filter verify, authorize
    and run it with one of their agents, and reply. Beside that, servers host autonomous
    agents (finite state machines with watchers), spool messages of other programs for
    publishing, take part in leader elections and share concurrency limits (governors).
    The program is Go; it lies under src/, and file names below are relative to it.

    ** How the code is modelled

    A Go function that can fail returns an [outcome]: a value, an error or a run-time
    panic; code that changes a shared object runs in [ST], the state monad below, whose
    state survives errors and panics as a Go object does. Integers are [Z] with the wrap
    around of 64 bits written out where the code can reach it ([wrap64]), byte strings
    are [string], maps are [gmap], slices lists (with nil kept apart where the code tells
    it from empty). Goroutines, timers and connections become explicit steps: step
    relations on the state (elections, governors, the broker of a federation, dispatched
    requests, the manager of agents) or an argument with what the environment answers.
    Loops without a structural measure take fuel, and a theorem says how much is enough
    (Backoff.v, Governor.v). What is not under src/ is a class of operations with the
    laws the theorems need as a second class, instantiated by concrete functions in the
    Demo files and the witnesses: the token library ([TokenLib]), crypto and platform
    ([Platform], [KeyStore]), JSON ([TransportJSON], [MessageJSON], [RpcJSON],
    [FactLib]), the rego engine ([OPA]), the expression engine ([ExprLib]), run time
    regular expressions ([Regexp]), X.509 ([X509Lib]), the FSM library, the
    key-value buckets ([KeyValue]) and streams of NATS. Logging, metrics that nothing reads back and mutexes that are
    held for a whole operation are left out; a mutex that can stay locked is modelled
    (Election.v).

    ** The parts

    Foundations
    - Prelude: outcomes, state passing, tactics, lemmas on lists; Records: updates of
      records; GoLib: strings, strconv, hex, base64 and paths with the lemmas on them;
      GoNum: addresses, integers and 64 bit floats of Go; Regex: the matcher behind the
      fixed patterns of the code; Files: a file system of flat files; Tree: directories as
      maps from clean paths with the calls on them; DemoLibs, DemoJSON, DemoServer:
      concrete instances for witnesses.
    - Util: internal/util/util.go. Validator: validator/. Backoff: backoff/backoff.go.
      Sha256Sums: internal/util/sha256sum.go, the checksum files of directories.

    Who may connect to a broker
    - AuthTypes, AuthCheck: broker/network/choria_auth.go, the whole of [ChoriaAuth]. AuthLogic: the specification of acceptable tokens and connections, a
      program logic for the authenticator (what a handler may register) and its run over
      every handler. AuthTheorems states the results: [Check] refines a specification of
      authorised users, the system and provisioning accounts are guarded, permissions are
      those of the roles of the token.

    The life of a request
    - Transport, SecureMessages: protocol/, protocol/v1/, protocol/v2/ and
      choria/protocol.go, with the laws of every message that can be federated.
      ProtocolV1: the first version as its package writes it, with envelopes behind
      pointers; requests of the two versions answer alike, and reading its messages
      refines SecureMessages but for requests and replies without an envelope, which panic.
    - Security: providers/security/choria/choria_security.go and
      internal/util/ed25519.go. A secure request is accepted exactly when it is authentic
      (an independent definition), whatever bytes arrive; what a client signs is accepted;
      signatures of replies are checked by no one. Signers: providers/signers/, requests
      signed by a service for a client are accepted as well.
    - FileSecurity: providers/security/filesec/, requests signed by keys with X.509
      certificates. Enrollment: providers/security/puppetsec/ and certmanagersec/, how a
      program gets its key and certificates.
    - Message: message/message.go. Connection: publishing and subjects of
      choria/connection.go, directed messages cover their targets. Federation:
      broker/federation/, its workers and channels: a federated request and its reply
      reach their targets once, the broker conserves messages.
    - Filters: protocol/filter.go and filter/. Facts: filter/facts/. FilterTheorems:
      a filter selects exactly the servers it describes.
    - AgentManager: server/agents/agents.go with the subscriptions it makes. Rpc:
      providers/agent/mcorpc/ (agents, actions, authorization by token and by rego
      policy), opa/. ActionPolicy: authz_actionpolicy.go. Processor: server/processor.go,
      server/discovery/ and the dispatcher.
    - ServerTheorems composes these: on a secure server that verifies requests nothing
      happens unless a request is authentic, selected, in time and authorized; the reply
      goes to who asked; dispatchers leave one reply each, unless nobody takes it;
      the counters add up.
      AgentsTheorems: known agents are subscribed where they should be.
    - AuditLog: providers/agent/mcorpc/audit/ and its call by agents, which it does not
      influence: the log is the history of what ran.
    - DDL: providers/agent/mcorpc/ddl/ (types of inputs, their conversion on clients and
      validation on servers, defaults, lookup of DDL files) and
      providers/agent/mcorpc/aggregate/: a server accepts exactly the data its DDL
      describes, and what a client converts is among it once JSON carried it, but for
      hashes and arrays given as null and the largest integers; what aggregation counts.
      Resolvers: providers/ddlresolver/ and the registry agent, where DDLs come from.
    - DataPlugins: providers/data/ and the plugins of the program, what filters and
      requests get from them.
    - BuiltinAgents: the agents rpcutil, choria_util and discovery under
      providers/agent/mcorpc/golang/ and Scout's under scout/agent/: what they answer, which
      checks a request moves, what a goss request may run.

    The client
    - BasicClient: client/client/client.go and client/discovery/broadcast/, a request as the
      interleaved steps of its publisher, receivers and handlers: it ends, and no reply is
      handled twice.
    - RpcOptions, RpcClient: providers/agent/mcorpc/client/: statistics, options, batches,
      discovery and what becomes of each reply. RpcClientTheorems: a request reaches every
      target once, the statistics account for every target and every reply.
    - Discovery: providers/discovery/ (flatfile, inventory, puppetdb, external).
      DiscoveryTheorems: of a filter with one compound filter at most, and no groups,
      an inventory finds the nodes whose servers would answer.

    Settings
    - Confkey: confkey/, settings of structures by key. Config: config/, how the files of a
      configuration are found, parsed and completed. WrittenConfig: what provisioning
      writes is what the parser reads. Framework: srvcache/ and choria/framework.go, which
      servers, tokens and seeds a program uses, provisioning mode, queries of PuppetDB.

    A server and what it runs
    - Instance: server/, how servers and hosts of services are put together, connected,
      started and stopped: a server starts whole or not at all. Registration:
      server/registration/ and providers/registration/.
    - Provision: providers/agent/mcorpc/golang/provision/, what a server lets a provisioner
      do, and how long provisioners keep each other out.
    - ExternalAgents: providers/agent/mcorpc/external/, external programs run only for
      requests that were authorized and validated; the provider against the agents on disk.
    - Execution: providers/execution/ and golang/executor/, the life of a supervised
      process, what it leaves behind, who can signal it.
    - Submission: submission/ (messages, the directory spool, the publishing loop): order,
      what stays in the spool, its bounds.
    - Election: providers/election/streams/. Governor: providers/governor/streams/.
    - Lifecycle: lifecycle/, events and their formats. Tally: lifecycle/tally/.
    - Adapter: broker/adapter/, messages taken from the network into streams.

    Autonomous agents
    - Machine: aagent/machine/, the state machine. Watchers: aagent/watchers/watchers.go and
      aagent/watchers/watcher/, with what a machine offers its watchers, an interface with
      laws that the machine of Machine implements; the watchers are written and proved
      against it. AAgent: aagent/aagent.go, the machines of a directory.
    - ExecWatcher, NagiosWatcher (with statistics/instance.go), KVWatcher, FileWatcher,
      ExpressionWatcher, ScheduleWatcher, TimerWatcher, ArchiveWatcher, PluginsWatcher,
      MachinesWatcher, HttpSwitch, GossipWatcher, MetricWatcher: one per directory of aagent/watchers/. The
      loops of the watchers with goroutines of their own (schedule, timer, gossip, HTTP
      switch) are step relations, the others are the operations their loops call. Their
      theorems say that executions give back what they took, that checks are recorded,
      that polls bring the machine's data in line with the bucket, that files end with
      their content, that archives stay inside their directory and are deployed only when
      verified, that unsigned lists of plugins and machines change nothing, that both
      deploy alike and purge only what is not wanted, that timers and gossip stop
      with their state, which presses of a switch can block its machine for ever, and
      that the file of the metrics holds the latest of every watcher.
    - HttpServer: aagent/http/, the tables of exposed switches and what requests do to them.

    ** Bounds and fuel

    The retry loop of Backoff.v has fuel: [for_until_success] says that one more than
    the number of failures is enough. [start_loop] of Governor.v takes the ticks of its
    ticker as a list, [slot_lifecycle] holds for every such list. The search for the
    configuration files of projects has the length of a path plus one, which
    [project_files_enough] proves enough; the nested events of Lifecycle.v have the length
    of the message, an encapsulated event being shorter than what holds it. The matcher of
    Regex.v has the length of its input as measure. Other recursion is structural. Numbers
    of replies in statistics and times are not wrapped; sizes, counters and durations that
    code can overflow are.

    ** Not modelled

    Generated code (the clients under client/, the mocks under inter/imocks/ and
    aagent/model/), the command line (cmd/, scout/cmd/, providers/appbuilder/), the
    generators of code and documents, packaging, documentation and integration tests; code
    that only calls a library (starting the embedded NATS server, TLS configurations, HTTP
    listeners, tokens on hardware, metrics, rendering of replies as text); logging. What is
    left out of a component that is modelled only partly, and the components that are left
    out, are in the manifest with their reasons. *)
From Stdlib Require Export Ascii ZArith Lia.
From Stdlib Require Export (notations) String.
From stdpp Require Export base gmap strings list fin_maps sets pretty.

#[export] Set Warnings "-register-all".


(** ** Outcomes of Go functions

    A Go function returning [(T, error)] is modelled by [outcome E T]: [Ok]
    for a nil error, [Err] for a non-nil one and [Panic] for a run-time panic
    (nil dereference, index out of range, write to a nil map). *)

Inductive outcome (E A : Type) : Type :=
| Ok (a : A)
| Err (e : E)
| Panic (why : string).
Arguments Ok {E A} _.
Arguments Err {E A} _.
Arguments Panic {E A} _.

(** Errors built with [fmt.Errorf] are represented by their message. *)
Abbreviation res := (outcome string).

#[export] Instance outcome_ret {E} : MRet (outcome E) := λ A a, Ok a.
#[export] Instance outcome_bind {E} : MBind (outcome E) := λ A B f m,
  match m with
  | Ok a => f a
  | Err e => Err e
  | Panic w => Panic w
  end.

Definition is_ok {E A} (o : outcome E A) : bool :=
  match o with Ok _ => true | _ => false end.

Lemma is_ok_Ok {E A} (o : outcome E A) : is_ok o = true → ∃ a, o = Ok a.
Proof. destruct o as [a| |]; [by exists a|discriminate..]. Qed.

Definition is_panic {E A} (o : outcome E A) : bool :=
  match o with Panic _ => true | _ => false end.

(** [if err != nil { return nil, wrap(err) }] *)
Definition map_err {E F A} (f : E → F) (o : outcome E A) : outcome F A :=
  match o with
  | Ok a => Ok a
  | Err e => Err (f e)
  | Panic w => Panic w
  end.

(** ** State passing

    Operations that change a shared object take it as a state [W] and return
    the new state next to the outcome; the state survives errors and panics,
    as it does in the program. *)

Definition ST (W E A : Type) : Type := W → W * outcome E A.

#[export] Instance ST_ret {W E} : MRet (ST W E) := λ A a w, (w, Ok a).
#[export] Instance ST_bind {W E} : MBind (ST W E) := λ A B f m w,
  match m w with
  | (w', Ok a) => f a w'
  | (w', Err e) => (w', Err e)
  | (w', Panic p) => (w', Panic p)
  end.

Definition lift {W E A} (o : outcome E A) : ST W E A := λ w, (w, o).
Definition throw {W E A} (e : E) : ST W E A := λ w, (w, Err e).
Definition panic {W E A} (p : string) : ST W E A := λ w, (w, Panic p).
Definition gets {W E A} (f : W → A) : ST W E A := λ w, (w, Ok (f w)).
Definition modify {W E} (f : W → W) : ST W E () := λ w, (f w, Ok tt).

(** Runs [m] and hands its error, if any, to the continuation as a value: the
    [v, err := m()] of Go code that goes on after an error. *)
Definition attempt {W E F A} (m : ST W E A) : ST W F (A + E) := λ w,
  match m w with
  | (w', Ok a) => (w', Ok (inl a))
  | (w', Err e) => (w', Ok (inr e))
  | (w', Panic p) => (w', Panic p)
  end.

(** [defer]: [cleanup] runs however [m] ends. *)
Definition deferred {W E A} (cleanup : W → W) (m : ST W E A) : ST W E A := λ w,
  let '(w', o) := m w in (cleanup w', o).

(** A sequence that returns: what its first part returned, and the rest from there. *)
Lemma ST_bind_Ok {W E A B} (m : ST W E A) (f : A → ST W E B) w w' b :
  (m ≫= f) w = (w', Ok b) → ∃ w1 a, m w = (w1, Ok a) ∧ f a w1 = (w', Ok b).
Proof. unfold mbind, ST_bind. destruct (m w) as [w1 [a|e|p]]; [|intros [= ]..]. intros H. by exists w1, a. Qed.

Lemma outcome_bind_Ok {E A B} (o : outcome E A) (f : A → outcome E B) b :
  (o ≫= f) = Ok b → ∃ a, o = Ok a ∧ f a = Ok b.
Proof. destruct o as [a|e|p]; [|intros [= ]..]. intros H. by exists a. Qed.

Lemma map_err_inv {E F A} (f : E → F) (o : outcome E A) a : map_err f o = Ok a → o = Ok a.
Proof. by destruct o as [x|e|p]; [intros [= ->]|..]. Qed.

(** ** Tactics *)

(** Case analysis on the innermost [match]/[if] of the goal or a hypothesis. *)
Ltac dmatch :=
  match goal with
  | |- context [match ?x with _ => _ end] =>
      lazymatch x with
      | context [match _ with _ => _ end] => fail
      | _ => destruct x eqn:?
      end
  end.

Ltac dmatch_in H :=
  match type of H with
  | context [match ?x with _ => _ end] =>
      lazymatch x with
      | context [match _ with _ => _ end] => fail
      | _ => destruct x eqn:?
      end
  end.

(** Turns the boolean tests of the code into propositions. *)
Ltac bprop :=
  repeat match goal with
  | H : _ && _ = true |- _ => apply andb_true_iff in H as [? ?]
  | H : _ || _ = false |- _ => apply orb_false_iff in H as [? ?]
  | H : negb _ = true |- _ => apply negb_true_iff in H
  | H : negb _ = false |- _ => apply negb_false_iff in H
  | H : String.eqb _ _ = true |- _ => apply String.eqb_eq in H
  | H : String.eqb _ _ = false |- _ => apply String.eqb_neq in H
  | H : Nat.eqb _ _ = true |- _ => apply Nat.eqb_eq in H
  | H : Nat.eqb _ _ = false |- _ => apply Nat.eqb_neq in H
  | H : Nat.ltb _ _ = true |- _ => apply Nat.ltb_lt in H
  | H : Nat.ltb _ _ = false |- _ => apply Nat.ltb_ge in H
  | H : Z.eqb _ _ = true |- _ => apply Z.eqb_eq in H
  | H : Z.eqb _ _ = false |- _ => apply Z.eqb_neq in H
  | H : Z.ltb _ _ = true |- _ => apply Z.ltb_lt in H
  | H : Z.ltb _ _ = false |- _ => apply Z.ltb_ge in H
  | H : Z.leb _ _ = true |- _ => apply Z.leb_le in H
  | H : Z.leb _ _ = false |- _ => apply Z.leb_gt in H
  | H : bool_decide _ = true |- _ => apply bool_decide_eq_true in H
  | H : bool_decide _ = false |- _ => apply bool_decide_eq_false in H
  end.

(** ** Lists *)

(** [for _, x := range l { if x == v { return true } }; return false] *)
Definition elem {A} `{EqDecision A} (v : A) (l : list A) : bool :=
  existsb (λ x, bool_decide (x = v)) l.

Create HintDb gochoria.
Create Rewrite HintDb gochoria.

Lemma elem_true {A} `{EqDecision A} (v : A) l : elem v l = true ↔ v ∈ l.
Proof.
  unfold elem. rewrite existsb_exists. split.
  - intros (x & Hin & Hx). bprop. subst. by apply list_elem_of_In.
  - intros Hin. exists v. rewrite bool_decide_eq_true.
    by split; [apply list_elem_of_In|].
Qed.

Lemma elem_false {A} `{EqDecision A} (v : A) l : elem v l = false ↔ v ∉ l.
Proof. rewrite <- elem_true. by destruct (elem v l). Qed.

Lemma existsb_elem_of {A} (f : A → bool) l :
  existsb f l = true ↔ ∃ x, x ∈ l ∧ f x = true.
Proof.
  rewrite existsb_exists. by setoid_rewrite list_elem_of_In.
Qed.

Lemma existsb_false {A} (f : A → bool) l :
  existsb f l = false ↔ ∀ x, x ∈ l → f x = false.
Proof.
  split.
  - intros H x Hx. destruct (f x) eqn:E; [|done].
    assert (existsb f l = true) as H' by (apply existsb_elem_of; eauto). congruence.
  - intros H. destruct (existsb f l) eqn:E; [|done].
    apply existsb_elem_of in E as (x & Hx & Hf). rewrite (H x Hx) in Hf. done.
Qed.

Lemma forallb_elem_of {A} (f : A → bool) l :
  forallb f l = true ↔ ∀ x, x ∈ l → f x = true.
Proof.
  rewrite forallb_forall. by setoid_rewrite list_elem_of_In.
Qed.

#[export] Hint Rewrite @elem_true @elem_false : gochoria.

(** ** Maps *)

Lemma size_pos_ne_empty {A} (m : gmap string A) : 0 < size m → m ≠ ∅.
Proof. intros Hm ->. rewrite map_size_empty in Hm. lia. Qed.

Lemma size_zero_empty {A} (m : gmap string A) : size m ≤ 0 → m = ∅.
Proof. intros Hm. apply map_size_empty_iff. lia. Qed.

#[export] Hint Resolve size_pos_ne_empty size_zero_empty : gochoria.

(** ** omap *)

Lemma list_omap_ext_in {A B} (f g : A → option B) (l : list A) :
  (∀ x, x ∈ l → f x = g x) → omap f l = omap g l.
Proof.
  induction l as [|x l IH]; intros H; [done|].
  assert (omap f l = omap g l) as Hl by (apply IH; intros y Hy; apply H; by apply elem_of_cons; right).
  unfold omap in *. simpl. by rewrite (H x), Hl by (by apply elem_of_cons; left).
Qed.
