(* ===== verification/Records.v ===== *)
(** * Updates of records

    [r <| field := v |>] is the record [r] with another value of a field. *)
From S2P Require Import Prelude.
From coqutil Require Export Datatypes.RecordSetters.
Export TriangleBracketNotations.

Arguments constant {E} newValue _ /.
