(* ===== verification/GoLib.v ===== *)
(** * The Go standard library functions the modelled code uses

    [strings], [strconv], [encoding/hex], [encoding/base64] and
    [path/filepath] (unix), on byte strings.  Case folding and white space are
    those of ASCII: a byte outside ASCII is left alone. *)
From S2P Require Import Prelude.

(** ** Package strings *)

Definition has_prefix (s p : string) : bool := String.prefix p s.

Fixpoint has_suffix (s p : string) : bool :=
  String.eqb s p ||
  match s with
  | EmptyString => false
  | String _ s' => has_suffix s' p
  end.

Fixpoint drop_bytes (n : nat) (s : string) : string :=
  match n, s with
  | O, _ => s
  | S n', String _ s' => drop_bytes n' s'
  | S _, EmptyString => EmptyString
  end.

Fixpoint take_bytes (n : nat) (s : string) : string :=
  match n, s with
  | S n', String c s' => String c (take_bytes n' s')
  | _, _ => EmptyString
  end.

(** [strings.TrimPrefix] *)
Definition trim_prefix (s p : string) : string :=
  if has_prefix s p then drop_bytes (String.length p) s else s.

(** [strings.TrimSuffix] *)
Definition trim_suffix (s p : string) : string :=
  if has_suffix s p then take_bytes (String.length s - String.length p) s else s.

(** [strings.Contains] *)
Fixpoint str_contains (s p : string) : bool :=
  has_prefix s p ||
  match s with
  | EmptyString => false
  | String _ s' => str_contains s' p
  end.

(** [strings.Split(s, sep)] for a one byte separator. *)
Fixpoint split_go (sep : ascii) (cur : string) (s : string) : list string :=
  match s with
  | EmptyString => [cur]
  | String c s' =>
      if Ascii.eqb c sep then cur :: split_go sep "" s'
      else split_go sep (cur +:+ String c "") s'
  end.
Definition split (s : string) (sep : ascii) : list string := split_go sep "" s.

(** [strings.Join] *)
Fixpoint join (l : list string) (sep : string) : string :=
  match l with
  | [] => ""
  | [x] => x
  | x :: l' => x +:+ sep +:+ join l' sep
  end.

Definition ascii_lower (c : ascii) : ascii :=
  let n := nat_of_ascii c in
  if (65 <=? n)%nat && (n <=? 90)%nat then ascii_of_nat (n + 32) else c.

Fixpoint str_map (f : ascii → ascii) (s : string) : string :=
  match s with
  | EmptyString => EmptyString
  | String c s' => String (f c) (str_map f s')
  end.

(** [strings.ToLower] *)
Definition to_lower : string → string := str_map ascii_lower.

(** [strings.EqualFold] *)
Definition equal_fold (a b : string) : bool := String.eqb (to_lower a) (to_lower b).

Definition is_space (c : ascii) : bool :=
  existsb (Nat.eqb (nat_of_ascii c)) [9; 10; 11; 12; 13; 32]%nat.

Fixpoint trim_left (f : ascii → bool) (s : string) : string :=
  match s with
  | String c s' => if f c then trim_left f s' else s
  | EmptyString => EmptyString
  end.

Definition rev_string (s : string) : string :=
  String.string_of_list_ascii (rev (String.list_ascii_of_string s)).

Definition trim_right (f : ascii → bool) (s : string) : string :=
  rev_string (trim_left f (rev_string s)).

(** The white space of Unicode outside ASCII, in UTF-8: U+0085 and U+00A0, and U+1680,
    U+2000 to U+200A, U+2028, U+2029, U+202F, U+205F and U+3000. *)
Definition space_rune2 (a b : ascii) : bool :=
  Nat.eqb (nat_of_ascii a) 194 && existsb (Nat.eqb (nat_of_ascii b)) [133; 160]%nat.

Definition space_rune3 (a b c : ascii) : bool :=
  existsb (λ '(x, y, z), Nat.eqb (nat_of_ascii a) x && Nat.eqb (nat_of_ascii b) y && existsb (Nat.eqb (nat_of_ascii c)) z)
    [(225, 154, [128]); (226, 128, seq 128 11 ++ [168; 169; 175]); (226, 129, [159]); (227, 128, [128])]%nat.

(** How many bytes the white space takes that a string starts with; the order of the
    bytes of a rune is that of the string, or the reverse of it. *)
Definition space_width (rune2 : ascii → ascii → bool) (rune3 : ascii → ascii → ascii → bool) (s : string) : nat :=
  match s with
  | "" => 0
  | String a r =>
      if is_space a then 1
      else match r with
           | "" => 0
           | String b r =>
               if rune2 a b then 2
               else match r with "" => 0 | String c _ => if rune3 a b c then 3 else 0 end
           end
  end%nat.

Definition left_width : string → nat := space_width space_rune2 space_rune3.
Definition right_width : string → nat := space_width (λ b a, space_rune2 a b) (λ c b a, space_rune3 a b c).

Fixpoint trim_runes (width : string → nat) (n : nat) (s : string) : string :=
  match n with
  | O => s
  | S n => match width s with O => s | k => trim_runes width n (drop_bytes k s) end
  end.

Definition trim_left_space (s : string) : string := trim_runes left_width (String.length s) s.
Definition trim_right_space (s : string) : string := rev_string (trim_runes right_width (String.length s) (rev_string s)).

(** [strings.TrimSpace] *)
Definition trim_space (s : string) : string := trim_right_space (trim_left_space s).

(** The order on strings of the Go comparison operators: bytewise. *)
Definition str_leb (a b : string) : bool := String.leb a b.
Definition str_ltb (a b : string) : bool := String.ltb a b.

(** ** Package strconv *)

(** [int] is 64 bits wide. *)
Definition int64_min : Z := - 2 ^ 63.
Definition int64_max : Z := 2 ^ 63 - 1.

(** Two's complement wrap-around of 64 bit arithmetic. *)
Definition wrap64 (z : Z) : Z := (z + 2 ^ 63) `mod` 2 ^ 64 - 2 ^ 63.

Definition digit_val (c : ascii) : option Z :=
  let n := Z.of_nat (nat_of_ascii c) in
  if (48 <=? n)%Z && (n <=? 57)%Z then Some (n - 48)%Z else None.

Fixpoint digits_val (acc : Z) (s : string) : option Z :=
  match s with
  | EmptyString => Some acc
  | String c s' =>
      match digit_val c with
      | Some d => digits_val (acc * 10 + d)%Z s'
      | None => None
      end
  end.

(** [strconv.Atoi]: an optional sign and decimal digits, in range. *)
Definition atoi (s : string) : option Z :=
  let unsigned (t : string) :=
    match t with EmptyString => None | _ => digits_val 0 t end in
  let v :=
    match s with
    | String "-" t => Z.opp <$> unsigned t
    | String "+" t => unsigned t
    | _ => unsigned s
    end in
  v ≫= λ z, if (int64_min <=? z)%Z && (z <=? int64_max)%Z then Some z else None.

(** [strconv.Itoa] *)
Definition itoa (z : Z) : string := pretty z.

(** [strconv.ParseBool] *)
Definition parse_bool (s : string) : option bool :=
  if elem s ["1"; "t"; "T"; "TRUE"; "true"; "True"] then Some true
  else if elem s ["0"; "f"; "F"; "FALSE"; "false"; "False"] then Some false
  else None.

(** ** Packages encoding/hex and encoding/base64 *)

Definition hex_digit (c : ascii) : option N :=
  let n := N_of_ascii c in
  if (48 <=? n)%N && (n <=? 57)%N then Some (n - 48)%N
  else if (97 <=? n)%N && (n <=? 102)%N then Some (n - 87)%N
  else if (65 <=? n)%N && (n <=? 70)%N then Some (n - 55)%N
  else None.

(** [hex.DecodeString]: pairs of digits, an odd length is an error. *)
Fixpoint hex_decode (s : string) : option string :=
  match s with
  | EmptyString => Some EmptyString
  | String a (String b s') =>
      match hex_digit a, hex_digit b, hex_decode s' with
      | Some x, Some y, Some t => Some (String (ascii_of_N (16 * x + y)) t)
      | _, _, _ => None
      end
  | String _ EmptyString => None
  end.

Definition hex_char (n : N) : ascii :=
  if (n <? 10)%N then ascii_of_N (48 + n) else ascii_of_N (87 + n).

(** [hex.EncodeToString], and the [%x] verb on bytes. *)
Fixpoint hex_encode (s : string) : string :=
  match s with
  | EmptyString => EmptyString
  | String c s' =>
      String (hex_char (N_of_ascii c / 16))
        (String (hex_char (N_of_ascii c mod 16)) (hex_encode s'))
  end.

Definition b64url_digit (c : ascii) : option N :=
  let n := N_of_ascii c in
  if (65 <=? n)%N && (n <=? 90)%N then Some (n - 65)%N
  else if (97 <=? n)%N && (n <=? 122)%N then Some (n - 71)%N
  else if (48 <=? n)%N && (n <=? 57)%N then Some (n + 4)%N
  else if (n =? 45)%N then Some 62%N
  else if (n =? 95)%N then Some 63%N
  else None.

Fixpoint b64_quads (l : list N) : option string :=
  match l with
  | a :: b :: c :: d :: l' =>
      let v := (a * 262144 + b * 4096 + c * 64 + d)%N in
      t ← b64_quads l';
      Some (String (ascii_of_N (v / 65536))
             (String (ascii_of_N ((v / 256) mod 256))
               (String (ascii_of_N (v mod 256)) t)))
  | [a; b; c] =>
      let v := (a * 4096 + b * 64 + c)%N in
      Some (String (ascii_of_N (v / 1024)) (String (ascii_of_N ((v / 4) mod 256)) ""))
  | [a; b] => Some (String (ascii_of_N ((a * 64 + b) / 16)%N) "")
  | [_] => None
  | [] => Some EmptyString
  end.

(** [base64.RawURLEncoding.DecodeString]: no padding, line breaks skipped,
    unused trailing bits ignored. *)
Definition b64_raw_url_decode (s : string) : option string :=
  let cs := List.filter (λ c, negb (existsb (Nat.eqb (nat_of_ascii c)) [10; 13]%nat))
              (String.list_ascii_of_string s) in
  mapM b64url_digit cs ≫= b64_quads.

(** ** Package path/filepath (unix) *)

Definition slash : ascii := "/"%char.

(** The element stack of [filepath.Clean]: ["."] and empty elements vanish,
    [".."] pops an element, is dropped at the root and kept otherwise. *)
Definition clean_step (rooted : bool) (stack : list string) (e : string) : list string :=
  if String.eqb e "" || String.eqb e "." then stack
  else if String.eqb e ".." then
    match stack with
    | x :: rest => if String.eqb x ".." then e :: stack else rest
    | [] => if rooted then [] else [e]
    end
  else e :: stack.

Definition path_clean (p : string) : string :=
  if String.eqb p "" then "."
  else
    let rooted := has_prefix p "/" in
    let body := join (rev (fold_left (clean_step rooted) (split p slash) [])) "/" in
    if rooted then "/" +:+ body
    else if String.eqb body "" then "." else body.

(** [filepath.Ext] *)
Fixpoint path_ext_from (s : string) (ext : option string) : string :=
  match s with
  | "" => default "" ext
  | String c rest => path_ext_from rest (if Ascii.eqb c slash then None else if Ascii.eqb c "." then Some s else ext)
  end.
Definition path_ext (s : string) : string := path_ext_from s None.

(** [filepath.Join] skips empty elements. *)
Definition path_join (l : list string) : string :=
  match List.filter (λ e, negb (String.eqb e "")) l with
  | [] => ""
  | l' => path_clean (join l' "/")
  end.

(** [filepath.Dir] *)
Definition path_dir (p : string) : string :=
  let r := trim_left (λ c, negb (Ascii.eqb c slash)) (rev_string p) in
  path_clean (rev_string r).

(** [filepath.Base] *)
Definition path_base (p : string) : string :=
  if String.eqb p "" then "."
  else
    let q := trim_right (Ascii.eqb slash) p in
    if String.eqb q "" then "/"
    else List.last (split q slash) "".

(** * Lemmas on machine integers

    Facts about the wrap-around of 64 bit arithmetic of GoLib. *)

Lemma wrap64_mod z : wrap64 z = ((z + 9223372036854775808) mod 18446744073709551616 - 9223372036854775808)%Z.
Proof. reflexivity. Qed.

Lemma wrap64_range z : (-9223372036854775808 ≤ wrap64 z < 9223372036854775808)%Z.
Proof. rewrite wrap64_mod. pose proof (Z.mod_pos_bound (z + 9223372036854775808) 18446744073709551616). lia. Qed.

Lemma wrap64_small z : (-9223372036854775808 ≤ z < 9223372036854775808)%Z → wrap64 z = z.
Proof. intros Hz. rewrite wrap64_mod, Z.mod_small; lia. Qed.

Lemma wrap64_congr z : ∃ k, (wrap64 z = z + k * 18446744073709551616)%Z.
Proof.
  rewrite wrap64_mod. exists (- ((z + 9223372036854775808) / 18446744073709551616))%Z.
  pose proof (Z.div_mod (z + 9223372036854775808) 18446744073709551616). lia.
Qed.

Lemma wrap64_opp_mul a b : wrap64 (wrap64 (- a) * b) = wrap64 (- (a * b)).
Proof.
  destruct (wrap64_congr (- a)) as [k Hk]. rewrite Hk, !wrap64_mod. f_equal.
  replace ((- a + k * 18446744073709551616) * b + 9223372036854775808)%Z
    with (- (a * b) + 9223372036854775808 + (k * b) * 18446744073709551616)%Z by lia.
  apply Z_mod_plus_full.
Qed.

Lemma wrap64_opp z : wrap64 (- z) = if Z.eqb (wrap64 z) (-9223372036854775808) then wrap64 z else (- wrap64 z)%Z.
Proof.
  destruct (wrap64_congr z) as [k Hk]. destruct (wrap64_congr (- z)) as [k' Hk'].
  pose proof (wrap64_range z). pose proof (wrap64_range (- z)). destruct (Z.eqb_spec (wrap64 z) (-9223372036854775808)); lia.
Qed.

(** * Packages encoding/base64 and encoding/hex

    [StdEncoding]: encoding, decoding and the round trip; the round trip of hex. *)

Definition b64_digit (c : ascii) : option N :=
  let n := N_of_ascii c in
  if (65 <=? n)%N && (n <=? 90)%N then Some (n - 65)%N
  else if (97 <=? n)%N && (n <=? 122)%N then Some (n - 71)%N
  else if (48 <=? n)%N && (n <=? 57)%N then Some (n + 4)%N
  else if (n =? 43)%N then Some 62%N
  else if (n =? 47)%N then Some 63%N
  else None.

Definition b64_char (n : N) : ascii :=
  ascii_of_N (if (n <? 26)%N then n + 65
              else if (n <? 52)%N then n + 71
              else if (n <? 62)%N then n - 4
              else if (n =? 62)%N then 43 else 47)%N.

Definition b64_pad : ascii := "=".

(** The characters of three, two and one bytes. *)
Fixpoint b64_encode_bytes (l : list N) : string :=
  match l with
  | a :: b :: c :: l' =>
      let v := (a * 65536 + b * 256 + c)%N in
      String (b64_char (v / 262144)) (String (b64_char ((v / 4096) mod 64))
        (String (b64_char ((v / 64) mod 64)) (String (b64_char (v mod 64)) (b64_encode_bytes l'))))
  | [a; b] =>
      let v := (a * 256 + b)%N in
      String (b64_char (v / 1024)) (String (b64_char ((v / 16) mod 64))
        (String (b64_char ((v mod 16) * 4)) (String b64_pad "")))
  | [a] => String (b64_char (a / 4)) (String (b64_char ((a mod 4) * 16)) (String b64_pad (String b64_pad "")))
  | [] => ""
  end.

(** [base64.StdEncoding.EncodeToString] *)
Definition b64_encode (s : string) : string := b64_encode_bytes (map N_of_ascii (String.list_ascii_of_string s)).

(** The last quantum is padded, and nothing follows the padding. *)
Fixpoint b64_decode_quads (l : list ascii) : option string :=
  match l with
  | [] => Some ""
  | a :: b :: c :: d :: l' =>
      if Ascii.eqb d b64_pad then
        match l' with
        | [] =>
            if Ascii.eqb c b64_pad then mapM b64_digit [a; b] ≫= b64_quads
            else mapM b64_digit [a; b; c] ≫= b64_quads
        | _ => None
        end
      else
        q ← mapM b64_digit [a; b; c; d] ≫= b64_quads;
        t ← b64_decode_quads l';
        Some (q +:+ t)
  | _ => None
  end.

Definition is_newline (c : ascii) : bool := existsb (Nat.eqb (nat_of_ascii c)) [10; 13]%nat.

(** [base64.StdEncoding.DecodeString]: line breaks skipped, unused trailing bits ignored. *)
Definition b64_decode (s : string) : option string :=
  b64_decode_quads (List.filter (λ c, negb (is_newline c)) (String.list_ascii_of_string s)).

(** ** Round trip *)

Lemma forallb_seq (f : nat → bool) (k : nat) : forallb f (seq 0 k) = true → ∀ i, i < k → f i = true.
Proof. intros H i Hi. rewrite forallb_forall in H. apply H, in_seq. lia. Qed.

(** The digits of the 64 characters, none of which is padding or skipped. *)
Definition b64_char_good (i : nat) : bool :=
  bool_decide (b64_digit (b64_char (N.of_nat i)) = Some (N.of_nat i)) &&
  negb (is_newline (b64_char (N.of_nat i))) && negb (Ascii.eqb (b64_char (N.of_nat i)) b64_pad).

Lemma b64_chars_good : forallb b64_char_good (seq 0 64) = true.
Proof. vm_compute. reflexivity. Qed.

Lemma b64_char_ok n : (n < 64)%N →
  b64_digit (b64_char n) = Some n ∧ is_newline (b64_char n) = false ∧ Ascii.eqb (b64_char n) b64_pad = false.
Proof.
  intros Hn. pose proof (forallb_seq _ _ b64_chars_good (N.to_nat n)) as H.
  unfold b64_char_good in H. rewrite N2Nat.id in H. specialize (H ltac:(lia)). bprop. auto.
Qed.

Lemma list_three_ind {A} (P : list A → Prop) :
  P [] → (∀ a, P [a]) → (∀ a b, P [a; b]) → (∀ a b c l, P l → P (a :: b :: c :: l)) → ∀ l, P l.
Proof.
  intros H0 H1 H2 H3 l. enough (P l ∧ (∀ a, P (a :: l)) ∧ ∀ a b, P (a :: b :: l)) as [? _]; [done|].
  induction l as [|x l (IH & IH1 & IH2)]; [auto|]. split_and!; auto.
Qed.

Ltac N_digits := zify; Z.to_euclidean_division_equations; lia.

Lemma ascii_of_N_eq c n : n = N_of_ascii c → ascii_of_N n = c.
Proof. intros ->. apply ascii_N_embedding. Qed.

(** The digits of one, two and three bytes and the bytes they stand for. *)
Lemma digits_one a : (a < 256)%N →
  (a / 4 < 64)%N ∧ (a mod 4 * 16 < 64)%N ∧ ((a / 4 * 64 + a mod 4 * 16) / 16 = a)%N.
Proof. intros Ha. split_and!; N_digits. Qed.

Lemma digits_two a b : (a < 256)%N → (b < 256)%N → let v := (a * 256 + b)%N in
  (v / 1024 < 64)%N ∧ ((v / 16) mod 64 < 64)%N ∧ (v mod 16 * 4 < 64)%N ∧
  (v / 1024 * 4096 + (v / 16) mod 64 * 64 + v mod 16 * 4 = 4 * v)%N ∧
  (4 * v / 1024 = a)%N ∧ ((4 * v / 4) mod 256 = b)%N.
Proof. intros Ha Hb v. unfold v. split_and!; N_digits. Qed.

Lemma digits_three a b c : (a < 256)%N → (b < 256)%N → (c < 256)%N → let v := (a * 65536 + b * 256 + c)%N in
  (v / 262144 < 64)%N ∧ ((v / 4096) mod 64 < 64)%N ∧ ((v / 64) mod 64 < 64)%N ∧ (v mod 64 < 64)%N ∧
  (v / 262144 * 262144 + (v / 4096) mod 64 * 4096 + (v / 64) mod 64 * 64 + v mod 64 = v)%N ∧
  (v / 65536 = a)%N ∧ ((v / 256) mod 256 = b)%N ∧ (v mod 256 = c)%N.
Proof. intros Ha Hb Hc v. unfold v. split_and!; N_digits. Qed.

Ltac use_char H := let D := fresh "D" in let L := fresh "L" in let P := fresh "P" in
  apply b64_char_ok in H as (D & L & P).

Lemma b64_bytes_roundtrip (l : list ascii) :
  List.filter (λ c, negb (is_newline c)) (String.list_ascii_of_string (b64_encode_bytes (map N_of_ascii l))) =
    String.list_ascii_of_string (b64_encode_bytes (map N_of_ascii l)) ∧
  b64_decode_quads (String.list_ascii_of_string (b64_encode_bytes (map N_of_ascii l))) =
    Some (String.string_of_list_ascii l).
Proof.
  induction l as [|a|a b|a b c l [IH1 IH2]] using list_three_ind; [done|..].
  - destruct (digits_one (N_of_ascii a) (N_ascii_bounded a)) as (H1 & H2 & Ha).
    use_char H1. use_char H2. cbn -[N.mul N.div N.modulo N.add is_newline b64_char b64_digit]. rewrite L, L0.
    split; [done|]. rewrite D, D0. cbn -[N.mul N.div N.modulo N.add].
    by rewrite (ascii_of_N_eq a _ Ha).
  - destruct (digits_two (N_of_ascii a) (N_of_ascii b) (N_ascii_bounded a) (N_ascii_bounded b))
      as (H1 & H2 & H3 & Hv & Ha & Hb).
    use_char H1. use_char H2. use_char H3. cbn -[N.mul N.div N.modulo N.add is_newline b64_char b64_digit]. rewrite L, L0, L1, P1.
    split; [done|]. rewrite D, D0, D1. cbn -[N.mul N.div N.modulo N.add is_newline b64_char b64_digit].
    by rewrite Hv, (ascii_of_N_eq a _ Ha), (ascii_of_N_eq b _ Hb).
  - destruct (digits_three (N_of_ascii a) (N_of_ascii b) (N_of_ascii c) (N_ascii_bounded a) (N_ascii_bounded b)
      (N_ascii_bounded c)) as (H1 & H2 & H3 & H4 & Hv & Ha & Hb & Hc).
    use_char H1. use_char H2. use_char H3. use_char H4. cbn -[N.mul N.div N.modulo N.add is_newline b64_char b64_digit].
    rewrite L, L0, L1, L2, P2, D, D0, D1, D2. cbn -[N.mul N.div N.modulo N.add is_newline b64_char b64_digit].
    rewrite IH1, IH2, Hv, (ascii_of_N_eq a _ Ha), (ascii_of_N_eq b _ Hb), (ascii_of_N_eq c _ Hc). done.
Qed.

Lemma b64_roundtrip s : b64_decode (b64_encode s) = Some s.
Proof.
  unfold b64_decode, b64_encode. destruct (b64_bytes_roundtrip (String.list_ascii_of_string s)) as [H1 H2].
  by rewrite H1, H2, String.string_of_list_ascii_of_string.
Qed.

Lemma b64_encode_inj s t : b64_encode s = b64_encode t → s = t.
Proof. intros H. pose proof (b64_roundtrip s) as Hs. rewrite H, b64_roundtrip in Hs. congruence. Qed.

#[export] Hint Rewrite b64_roundtrip : gochoria.

(** ** Hex *)

Definition hex_char_good (i : nat) : bool := bool_decide (hex_digit (hex_char (N.of_nat i)) = Some (N.of_nat i)).

Lemma hex_chars_good : forallb hex_char_good (seq 0 16) = true.
Proof. vm_compute. reflexivity. Qed.

Lemma hex_char_ok n : (n < 16)%N → hex_digit (hex_char n) = Some n.
Proof.
  intros Hn. pose proof (forallb_seq _ _ hex_chars_good (N.to_nat n)) as H.
  unfold hex_char_good in H. rewrite N2Nat.id in H. specialize (H ltac:(lia)). by bprop.
Qed.

Lemma hex_digits_of a : (a < 256)%N → (a / 16 < 16)%N ∧ (a mod 16 < 16)%N ∧ (16 * (a / 16) + a mod 16 = a)%N.
Proof. intros Ha. split_and!; N_digits. Qed.

Lemma hex_roundtrip s : hex_decode (hex_encode s) = Some s.
Proof.
  induction s as [|c s IH]; [done|]. cbn -[N.mul N.div N.modulo N.add hex_digit hex_char].
  destruct (hex_digits_of (N_of_ascii c) (N_ascii_bounded c)) as (H1 & H2 & H3).
  by rewrite (hex_char_ok _ H1), (hex_char_ok _ H2), IH, (ascii_of_N_eq c _ H3).
Qed.

#[export] Hint Rewrite hex_roundtrip : gochoria.

(** * Lemmas on strings

    Facts about the string functions of GoLib that several components use:
    appending and taking apart, bytes that do not occur, decimal numbers. *)

(** ** Appending *)

Lemma append_assoc' (a b c : string) : (a +:+ b) +:+ c = a +:+ (b +:+ c).
Proof. induction a as [|x a IH]; [done|]. unfold String.app in *. simpl. by rewrite IH. Qed.

Lemma append_nil_r (a : string) : a +:+ "" = a.
Proof. induction a as [|x a IH]; [done|]. unfold String.app in *. simpl. by rewrite IH. Qed.

Lemma text_concat_cons x l : String.concat "" (x :: l) = x +:+ String.concat "" l.
Proof. destruct l; [|done]. by rewrite append_nil_r. Qed.

Lemma text_concat_app l1 l2 : String.concat "" (l1 ++ l2) = String.concat "" l1 +:+ String.concat "" l2.
Proof. induction l1 as [|x l IH]; [done|]. by rewrite <- app_comm_cons, !text_concat_cons, IH, append_assoc'. Qed.

Lemma append_cons x (a b : string) : String x a +:+ b = String x (a +:+ b).
Proof. done. Qed.

Lemma length_append (a b : string) :
  String.length (a +:+ b) = (String.length a + String.length b)%nat.
Proof. induction a as [|x a IH]; [done|]. rewrite append_cons. simpl. by rewrite IH. Qed.

Lemma take_bytes_append (a b : string) : take_bytes (String.length a) (a +:+ b) = a.
Proof.
  induction a as [|x a IH]; [by destruct b|]. rewrite append_cons. simpl. by rewrite IH.
Qed.

Lemma drop_bytes_append (a b : string) : drop_bytes (String.length a) (a +:+ b) = b.
Proof. induction a as [|x a IH]; [by destruct b|]. rewrite append_cons. simpl. done. Qed.

Lemma take_bytes_all (a : string) : take_bytes (String.length a) a = a.
Proof. induction a as [|x a IH]; [done|]. simpl. by rewrite IH. Qed.

Lemma has_prefix_append (a b : string) : has_prefix (a +:+ b) a = true.
Proof.
  induction a as [|x a IH]; [by destruct b|]. rewrite append_cons. unfold has_prefix in *.
  simpl. by destruct (ascii_dec x x).
Qed.

Lemma has_suffix_append (a b : string) : has_suffix (a +:+ b) b = true.
Proof.
  induction a as [|x a IH].
  - change ("" +:+ b) with b. destruct b; [done|]. cbn [has_suffix]. by rewrite String.eqb_refl.
  - rewrite append_cons. cbn [has_suffix]. by rewrite IH, orb_true_r.
Qed.

Lemma string_length_zero (a : string) : String.length a = 0 ↔ a = "".
Proof. by destruct a. Qed.

(** ** Bytes that do not occur *)

Definition no_byte (c : ascii) (s : string) : Prop := c ∉ String.list_ascii_of_string s.

Lemma no_byte_cons c a s : no_byte c (String a s) ↔ c ≠ a ∧ no_byte c s.
Proof. unfold no_byte. simpl. rewrite not_elem_of_cons. done. Qed.

Lemma no_byte_nil c : no_byte c "".
Proof. unfold no_byte. simpl. apply not_elem_of_nil. Qed.
#[export] Hint Resolve no_byte_nil : gochoria.


Lemma no_byte_append c a b : no_byte c (a +:+ b) ↔ no_byte c a ∧ no_byte c b.
Proof.
  induction a as [|x a IH].
  - change ("" +:+ b) with b. split; [auto using no_byte_nil|by intros []].
  - rewrite append_cons, !no_byte_cons, IH. tauto.
Qed.

Lemma has_prefix_nil s : has_prefix s "" = true.
Proof. by destruct s. Qed.

Lemma has_prefix_cons a s b p :
  has_prefix (String a s) (String b p) = bool_decide (b = a) && has_prefix s p.
Proof.
  unfold has_prefix. simpl. destruct (ascii_dec b a) as [->|].
  - by rewrite bool_decide_true.
  - by rewrite bool_decide_false.
Qed.

Lemma has_prefix_single c s : has_prefix s (String c "") = match s with
  | String a _ => bool_decide (a = c) | EmptyString => false end.
Proof.
  destruct s as [|a s]; [done|]. unfold has_prefix. simpl.
  destruct (ascii_dec c a) as [->|]; [rewrite bool_decide_true by done; by destruct s|].
  by rewrite bool_decide_false by done.
Qed.

Lemma str_contains_no_byte c s : no_byte c s → str_contains s (String c "") = false.
Proof.
  induction s as [|a s IH]; intros Hn; [done|]. apply no_byte_cons in Hn as [Ha Hn].
  change (has_prefix (String a s) (String c "") || str_contains s (String c "") = false).
  rewrite has_prefix_single, bool_decide_false by done. by apply IH.
Qed.

(** ** Decimal numbers *)

Lemma digit_val_char n : (n < 10)%N → digit_val (pretty_N_char n) = Some (Z.of_N n).
Proof.
  intros Hn. assert (n = 0 ∨ n = 1 ∨ n = 2 ∨ n = 3 ∨ n = 4 ∨ n = 5 ∨ n = 6 ∨ n = 7 ∨ n = 8
                     ∨ n = 9)%N as Hc by lia.
  by repeat destruct Hc as [->|Hc]; [..|subst].
Qed.

Lemma digits_val_pretty x s : digits_val 0 (pretty_N_go x s) = digits_val (Z.of_N x) s.
Proof.
  revert s. induction (N.lt_wf_0 x) as [x _ IH]; intros s.
  destruct (decide (x = 0)%N) as [->|Hx]; [done|].
  rewrite pretty_N_go_step, IH by (try apply N.div_lt; lia). simpl.
  rewrite digit_val_char by (apply N.mod_lt; lia). f_equal.
  rewrite (N.div_mod x 10) at 3 by done. lia.
Qed.

Definition is_digit (c : ascii) : bool := bool_decide (is_Some (digit_val c)).

Lemma pretty_N_go_digits x s :
  Forall (λ c, is_digit c = true) (String.list_ascii_of_string s) →
  Forall (λ c, is_digit c = true) (String.list_ascii_of_string (pretty_N_go x s)).
Proof.
  revert s. induction (N.lt_wf_0 x) as [x _ IH]; intros s Hs.
  destruct (decide (x = 0)%N) as [->|Hx]; [done|].
  rewrite pretty_N_go_step by lia. apply IH; [apply N.div_lt; lia|].
  simpl. constructor; [|done]. unfold is_digit.
  rewrite digit_val_char by (apply N.mod_lt; lia). by apply bool_decide_eq_true.
Qed.

Lemma pretty_pos_digits (p : positive) :
  Forall (λ c, is_digit c = true) (String.list_ascii_of_string (pretty p)).
Proof. apply pretty_N_go_digits. constructor. Qed.

Lemma digits_no_byte c s : is_digit c = false →
  Forall (λ c, is_digit c = true) (String.list_ascii_of_string s) → no_byte c s.
Proof.
  intros Hc Hs Hin. rewrite Forall_forall in Hs. apply Hs in Hin. congruence.
Qed.

Lemma itoa_no_byte c z : is_digit c = false → c ≠ "-"%char → no_byte c (itoa z).
Proof.
  intros Hc Hd. unfold itoa, pretty, pretty_Z. destruct z as [|p|p].
  - apply no_byte_cons. split; [by intros ->|apply no_byte_nil].
  - apply digits_no_byte; [done|]. apply pretty_pos_digits.
  - apply no_byte_append. split.
    + apply no_byte_cons. split; [done|apply no_byte_nil].
    + apply digits_no_byte; [done|]. apply pretty_pos_digits.
Qed.

Lemma pretty_pos_cons (p : positive) : ∃ c s, pretty p = String c s ∧ is_digit c = true ∧
  digits_val 0 (pretty p) = Some (Zpos p).
Proof.
  assert (digits_val 0 (pretty p) = Some (Zpos p)) as Hv by apply (digits_val_pretty (Npos p) "").
  pose proof (pretty_pos_digits p) as Hd. rewrite Hv. destruct (pretty p) as [|c s]; [done|].
  exists c, s. split_and!; [done| |done]. by apply Forall_inv in Hd.
Qed.

(** [Atoi] reads back what [Itoa] prints. *)
Lemma atoi_itoa z : (int64_min ≤ z ≤ int64_max)%Z → atoi (itoa z) = Some z.
Proof.
  intros [H1 H2].
  assert (((int64_min <=? z)%Z && (z <=? int64_max)%Z) = true) as Hr.
  { apply andb_true_iff. by split; apply Z.leb_le. }
  destruct z as [|p|p]; [done|..]; unfold itoa, pretty, pretty_Z.
  - destruct (pretty_pos_cons p) as (c & s & Hs & Hd & Hv). rewrite Hs in *. unfold atoi.
    destruct c as [[] [] [] [] [] [] [] []]; try done; rewrite Hv; unfold mbind, option_bind; by rewrite Hr.
  - destruct (pretty_pos_cons p) as (c & s & Hs & Hd & Hv). rewrite Hs in *. unfold atoi.
    change ("-" +:+ String c s) with (String "-" (String c s)). cbv iota beta zeta.
    rewrite Hv. unfold mbind, option_bind, fmap, option_fmap, option_map.
    change (Z.opp (Z.pos p)) with (Z.neg p). by rewrite Hr.
Qed.
