(* ===== verification/AuthTypes.v ===== *)
(** * Broker authentication: data

    The state of [ChoriaAuth] (broker/network/choria_auth.go), the connection
    the NATS server hands to [Check] and the users it registers, and the
    libraries the authenticator calls as classes of operations. *)
From S2P Require Import Prelude GoLib.

(** ** Data of nats-server the code reads and builds *)

(** A [*server.Account]: the code only compares these pointers, [None] is nil. *)
Abbreviation account := (option positive).

Record SubjectPermission := {
  Allow : list string;
  Deny : list string;
}.

Record Permissions := {
  Publish : option SubjectPermission;
  Subscribe : option SubjectPermission;
}.

Record User := {
  Username : string;
  Password : string;
  Account : account;
  UserPermissions : Permissions;
}.

Inductive ConnKind := CLIENT | OTHER_KIND (k : nat).

Record ClientOpts := {
  OptUsername : string;
  OptPassword : string;
  OptToken : string;
  OptSig : string;
}.

(** [tls.ConnectionState]: the number of verified chains and the subjects of
    the peer certificates. *)
Record TLSState := {
  VerifiedChains : nat;
  PeerCertificates : list string;
}.

(** [server.ClientAuthentication]; the remote address is its [String()]. *)
Record ClientAuthentication := {
  RemoteAddress : option string;
  GetTLSConnectionState : option TLSState;
  GetOpts : ClientOpts;
  GetNonce : string;
  Kind : ConnKind;
}.

(** ** Claims of choria-io/tokens *)

Record ClientPermissions := {
  StreamsAdmin : bool;
  StreamsUser : bool;
  EventsViewer : bool;
  ElectionUser : bool;
  ClientGovernor : bool;
  OrgAdmin : bool;
  SystemUser : bool;
  FleetManagement : bool;
  SignedFleetManagement : bool;
  ServerProvisioner : bool;
  AuthenticationDelegator : bool;
}.

Record ClientIDClaims := {
  CallerID : string;
  ClientOU : string;
  ClientPublicKey : string;
  ClientPerms : option ClientPermissions;
  ClientAddPub : list string;
  ClientAddSub : list string;
  AllowedAgents : list string;
  OPAPolicy : string;
}.

Record ServerPermissions := {
  Submission : bool;
  Streams : bool;
  ServerGovernor : bool;
  ServiceHost : bool;
}.

Record ServerClaims := {
  ChoriaIdentity : string;
  Collectives : list string;
  ServerPublicKey : string;
  ServerOU : string;
  ServerPerms : option ServerPermissions;
  ServerAddPub : list string;
}.

Inductive Purpose := ClientIDPurpose | ServerPurpose | OtherPurpose (p : string).

(** The errors the code tells apart with [errors.Is], and all others. *)
Inductive TokenError :=
| ErrTokenExpired
| ErrNotAServerToken
| ErrNotAClientToken
| ErrInvalidClientCallerID
| ErrToken (msg : string).

Definition token_error_text (e : TokenError) : string :=
  match e with
  | ErrTokenExpired => "token is expired"
  | ErrNotAServerToken => "not a server token"
  | ErrNotAClientToken => "not a client token"
  | ErrInvalidClientCallerID => "invalid caller id in token"
  | ErrToken msg => msg
  end.

(** The ["ou"] entry of an unverified claims map. *)
Inductive ou_claim := OuString (s : string) | OuOther.

(** choria-io/tokens: parsing verifies the signature against a public key or a
    key file. *)
Class TokenLib := {
  TokenPurpose : string → Purpose;
  TokenSigningAlgorithm : string → string + TokenError;
  ParseTokenUnverified : string → option ou_claim + TokenError;
  ParseServerToken : string → string → ServerClaims + TokenError;
  ParseServerTokenWithKeyfile : string → string → ServerClaims + TokenError;
  ParseClientIDToken : string → string → bool → ClientIDClaims + TokenError;
  ParseClientIDTokenUnverified : string → ClientIDClaims + TokenError;
  ParseClientIDTokenWithKeyfile : string → string → bool → ClientIDClaims + TokenError;
  ParseProvisioningToken : string → string → () + TokenError;
  ParseProvisioningTokenWithKeyfile : string → string → () + TokenError;
  IsEncodedEd25519KeyString : string → bool;
}.

(** The cryptographic primitives, the build mode, the file system and the
    address parsing the authenticator uses. *)
Class Platform := {
  fips140_Enabled : bool;
  md5_Sum : string → string;
  sha256_Sum256 : string → string;
  ed25519_Verify : string → string → string → bool;
  FileExist : string → bool;
  SplitHostPort : string → option string;
  IPNet : Type;
  ParseCIDR : string → option IPNet;
  IPNet_Contains : IPNet → string → bool;
}.

(** ** The authenticator *)

Record ChoriaAuth := {
  clientAllowList : list string;
  isTLS : bool;
  denyServers : bool;
  provisioningTokenSigner : string;
  clientJwtSigners : list string;
  serverJwtSigners : list string;
  allowIssuerBasedTLSAccess : bool;
  issuerTokens : gmap string string;
  choriaAccount : account;
  systemAccount : account;
  provisioningAccount : account;
  provPass : string;
  provWithoutToken : bool;
  systemUser : string;
  systemPass : string;
}.

(** What [Check] changes: the cache of decoded keys, and the users registered
    with the server on behalf of this connection, latest first. *)
Record AuthState := {
  tokenCache : gmap string string;
  registered : list User;
}.

Abbreviation AuthM := (ST AuthState string).

Definition provisioningUser : string := "provisioner".
Definition edDSASigningMethod : string := "EdDSA".
Definition allSubjects : list string := [">"].

Definition RegisterUser (u : User) : AuthM () :=
  modify (λ w, {| tokenCache := tokenCache w; registered := u :: registered w |}).

Definition set_account (u : User) (a : account) : User :=
  {| Username := Username u; Password := Password u; Account := a;
     UserPermissions := UserPermissions u |}.

Definition set_username (u : User) (n : string) : User :=
  {| Username := n; Password := Password u; Account := Account u;
     UserPermissions := UserPermissions u |}.

Definition set_permissions (u : User) (pub sub : SubjectPermission) : User :=
  {| Username := Username u; Password := Password u; Account := Account u;
     UserPermissions := {| Publish := Some pub; Subscribe := Some sub |} |}.

(** * Broker authentication: token and nonce verification

    The key cache, the nonce check and the parsing of server and client JWTs
    against signers or organization issuers
    (broker/network/choria_auth.go). *)

Section Tokens.
Context `{TL : TokenLib} `{PF : Platform}.

(** The decoded form of a hex key, remembered after the first use. *)
Definition cachedEd25519Token (token : string) : AuthM string := λ w,
  match tokenCache w !! token with
  | Some pk => (w, Ok pk)
  | None =>
      match hex_decode token with
      | None => (w, Err "invalid hex")
      | Some tok =>
          ({| tokenCache := <[token := tok]> (tokenCache w); registered := registered w |},
           Ok tok)
      end
  end.

Definition ed25519PublicKeySize : nat := 32.

Definition ed25519Verify (publicKey message sig : string) : res bool :=
  if Nat.eqb (String.length publicKey) ed25519PublicKeySize
  then Ok (ed25519_Verify publicKey message sig)
  else Err ("invalid public key length " +:+ pretty (String.length publicKey)).

Definition verifyNonceSignature (nonce sig pks : string) : res bool :=
  if String.eqb sig "" then Err "connection nonce was not signed"
  else if String.eqb pks "" then Err "no public key found in the JWT to verify nonce signature"
  else if String.eqb nonce "" then Err "server did not generate a nonce to verify"
  else
    match hex_decode pks with
    | None => Err "invalid nonce signature"
    | Some pubK =>
        match b64_raw_url_decode sig with
        | None => Err "invalid url encoded signature"
        | Some sigBytes =>
            match ed25519Verify pubK nonce sigBytes with
            | Err e => Err ("could not verify nonce signature: " +:+ e)
            | Panic p => Panic p
            | Ok false => Err "nonce signature did not verify using pub key in the jwt"
            | Ok true => Ok true
            end
        end
    end.

(** ** Trying the configured signers in turn

    [parseServerJWTWithSigners] and [parseClientJWTWithSigners] are the same
    loop over different parsers and fatal errors; [err] is the error of the
    previous signer, the result is the claims of the first signer that parses
    the token, [None] when there was no signer at all. *)

Section SignersLoop.
Context {C : Type}.
Variable parse_key parse_file : string → C + TokenError.
Variable fatal : TokenError → bool.
Variable generic : string.
Variable nsigners : nat.

Fixpoint signersLoop (signers : list string) (err : option string) : AuthM (option C) :=
  match signers with
  | [] => match err with Some _ => throw generic | None => mret None end
  | s :: rest =>
      let check (r : C + TokenError) : AuthM (option C) :=
        match r with
        | inl claims => mret (Some claims)
        | inr e =>
            if Nat.eqb nsigners 1 then throw (token_error_text e)
            else if fatal e then throw (token_error_text e)
            else signersLoop rest (Some (token_error_text e))
        end in
      if IsEncodedEd25519KeyString s then
        r ← attempt (cachedEd25519Token s);
        match r with
        | inr e => signersLoop rest (Some e)
        | inl pk => check (parse_key pk)
        end
      else check (parse_file s)
  end.
End SignersLoop.

Definition server_fatal (e : TokenError) : bool :=
  match e with ErrTokenExpired | ErrNotAServerToken => true | _ => false end.

Definition client_fatal (e : TokenError) : bool :=
  match e with
  | ErrTokenExpired | ErrNotAClientToken | ErrInvalidClientCallerID => true
  | _ => false
  end.

Definition parseServerJWTWithSigners (a : ChoriaAuth) (jwts : string) : AuthM (option ServerClaims) :=
  signersLoop (ParseServerToken jwts) (ParseServerTokenWithKeyfile jwts) server_fatal
    ("could not parse server token with any of " +:+ pretty (length (serverJwtSigners a))
       +:+ " signer identities")
    (length (serverJwtSigners a)) (serverJwtSigners a) None.

Definition parseClientJWTWithSigners (a : ChoriaAuth) (jwts : string) : AuthM (option ClientIDClaims) :=
  signersLoop (λ pk, ParseClientIDToken jwts pk true)
    (λ f, ParseClientIDTokenWithKeyfile jwts f true) client_fatal
    ("could not parse client token with any of " +:+ pretty (length (clientJwtSigners a))
       +:+ " signer identities")
    (length (clientJwtSigners a)) (clientJwtSigners a) None.

(** The public key of the issuer for the organization named in the token. *)
Definition issuerKey (a : ChoriaAuth) (jwts : string) (invalid_ou : string)
    (unknown : string → string) : AuthM (string * string) :=
  match ParseTokenUnverified jwts with
  | inr e => throw (token_error_text e)
  | inl None => throw "no ou claim in token"
  | inl (Some OuOther) => throw invalid_ou
  | inl (Some (OuString ous)) =>
      match issuerTokens a !! ous with
      | None => throw (unknown ous)
      | Some issuer =>
          r ← attempt (cachedEd25519Token issuer);
          match r with
          | inr e => throw ("invalid issuer public key: " +:+ e)
          | inl pk => mret (ous, pk)
          end
      end
  end.

Definition parseServerJWTWithIssuer (a : ChoriaAuth) (jwts : string) : AuthM (option ServerClaims) :=
  '(ous, pk) ← issuerKey a jwts "invalid ou in token" (λ ou, "no issuer found for ou " +:+ ou);
  match ParseServerToken jwts pk with
  | inr e => throw ("failed to parse token issued by the " +:+ ous +:+ " chain: " +:+ token_error_text e)
  | inl claims => mret (Some claims)
  end.

Definition parseClientIDJWTWithIssuer (a : ChoriaAuth) (jwts : string) : AuthM (option ClientIDClaims) :=
  '(ous, pk) ← issuerKey a jwts "invalid ou in token"
    (λ ou, "no issuer configured for ou '" +:+ ou +:+ "'");
  match ParseClientIDToken jwts pk true with
  | inr e => throw ("failed to parse client token issued by the " +:+ ous +:+ " chain: " +:+ token_error_text e)
  | inl claims => mret (Some claims)
  end.

Definition nil_dereference {A} : AuthM A := panic "nil pointer dereference".

Definition parseServerJWT (a : ChoriaAuth) (jwts : string) : AuthM ServerClaims :=
  if Nat.eqb (length (serverJwtSigners a)) 0 && Nat.eqb (size (issuerTokens a)) 0
  then throw "no Server JWT signer or Organization Issuer set, denying all servers"
  else if String.eqb jwts "" then throw "no JWT received"
  else
    r ← (if Nat.ltb 0 (size (issuerTokens a))
         then parseServerJWTWithIssuer a jwts
         else parseServerJWTWithSigners a jwts);
    match r with
    | None => nil_dereference
    | Some claims =>
        if String.eqb (ChoriaIdentity claims) "" then throw "identity not in claims"
        else if String.eqb (ServerPublicKey claims) "" then throw "no public key in claims"
        else mret claims
    end.

Definition parseClientIDJWT (a : ChoriaAuth) (jwts : string) : AuthM ClientIDClaims :=
  if Nat.eqb (length (clientJwtSigners a)) 0 && Nat.eqb (size (issuerTokens a)) 0
  then throw "no Client JWT signer or Organization Issuer set, denying all clients"
  else if String.eqb jwts "" then throw "no JWT received"
  else
    r ← (if Nat.ltb 0 (size (issuerTokens a))
         then parseClientIDJWTWithIssuer a jwts
         else parseClientJWTWithSigners a jwts);
    match r with
    | None => nil_dereference
    | Some claims =>
        if String.eqb (CallerID claims) "" then throw "no callerid in claims"
        else if String.eqb (ClientPublicKey claims) "" then throw "no public key in claims"
        else mret claims
    end.

Definition verifyServerJWTBasedAuth (a : ChoriaAuth) (remote : option string)
    (jwts nonce sig : string) : AuthM ServerClaims :=
  match remote with
  | None => throw "remote client information is required in anonymous TLS or JWT signing modes"
  | Some _ =>
      r ← attempt (parseServerJWT a jwts);
      match r with
      | inr _ => throw "invalid JWT token"
      | inl claims =>
          match verifyNonceSignature nonce sig (ServerPublicKey claims) with
          | Ok _ => mret claims
          | Err _ => throw "invalid nonce signature"
          | Panic p => panic p
          end
      end
  end.

Definition verifyClientJWTBasedAuth (a : ChoriaAuth) (remote : option string)
    (jwts nonce sig : string) : AuthM ClientIDClaims :=
  match remote with
  | None => throw "remote client information is required in anonymous TLS or JWT signing modes"
  | Some _ =>
      r ← attempt (parseClientIDJWT a jwts);
      match r with
      | inr _ => throw "invalid JWT token"
      | inl claims =>
          match verifyNonceSignature nonce sig (ClientPublicKey claims) with
          | Ok _ => mret claims
          | Err _ => throw "invalid nonce signature"
          | Panic p => panic p
          end
      end
  end.

End Tokens.
