(* ===== verification/AuthCheck.v ===== *)
(** * Broker authentication: subject permissions

    The publish and subscribe permissions [ChoriaAuth] computes for clients,
    servers and provisioning servers (broker/network/choria_auth.go).  The Go
    functions thread [subs] and [pubs] and return the extended slices. *)
From S2P Require Import Prelude GoLib AuthTypes.

Section Perms.
Context `{PF : Platform}.
Variable a : ChoriaAuth.

Abbreviation subspubs := (list string * list string)%type.

(** [user.Account == a.choriaAccount]: pointer equality, nil equals nil. *)
Definition in_account (user : User) (acct : account) : bool :=
  bool_decide (Account user = acct).

Definition setClientFleetManagementPermissions (sp : subspubs) : subspubs :=
  (sp.1, sp.2 ++ ["*.broadcast.agent.>"; "*.broadcast.service.>"; "*.node.>";
                  "choria.federation.*.federation"]).

Definition reply_subject (hash : string) : string := "*.reply." +:+ hash +:+ ".>".

Definition setMinimalClientPermissions (caller : string) (sp : subspubs) : subspubs :=
  let subs :=
    if String.eqb caller "" then ["*.reply.>"]
    else if fips140_Enabled then [reply_subject (hex_encode (sha256_Sum256 caller))]
    else [reply_subject (hex_encode (md5_Sum caller));
          reply_subject (hex_encode (sha256_Sum256 caller))] in
  (sp.1 ++ subs, sp.2 ++ ["$SYS.REQ.USER.INFO"]).

Definition setStreamsAdminPermissions (user : User) (sp : subspubs) : subspubs :=
  if negb (in_account user (choriaAccount a)) then sp
  else (sp.1 ++ ["$JS.EVENT.>"], sp.2 ++ ["$JS.>"]).

Definition streams_user_pubs : list string :=
  [ "$JS.API.INFO";
    "$JS.API.STREAM.NAMES";
    "$JS.API.STREAM.LIST";
    "$JS.API.STREAM.INFO.*";
    "$JS.API.STREAM.MSG.GET.*";
    "$JS.API.STREAM.MSG.DELETE.*";
    "$JS.API.DIRECT.GET.*";
    "$JS.API.DIRECT.GET.*.>";
    "$JS.API.CONSUMER.CREATE.*";
    "$JS.API.CONSUMER.CREATE.*.>";
    "$JS.API.CONSUMER.DURABLE.CREATE.*.*";
    "$JS.API.CONSUMER.DELETE.*.*";
    "$JS.API.CONSUMER.NAMES.*";
    "$JS.API.CONSUMER.LIST.*";
    "$JS.API.CONSUMER.INFO.*.*";
    "$JS.API.CONSUMER.MSG.NEXT.*.*";
    "$JS.ACK.>";
    "$JS.FC.>";
    "$KV.>";
    "$O.>" ].

Definition setStreamsUserPermissions (user : User) (org : string) (sp : subspubs) : subspubs :=
  if negb (in_account user (choriaAccount a)) then sp
  else (sp.1 ++ [org +:+ ".republish.>"], sp.2 ++ streams_user_pubs).

Definition setEventsViewerPermissions (user : User) (sp : subspubs) : subspubs :=
  if in_account user (choriaAccount a) then
    (sp.1 ++ ["choria.lifecycle.event.>"; "choria.machine.watcher.>";
              "choria.machine.transition"], sp.2)
  else if in_account user (provisioningAccount a) then
    (sp.1 ++ ["choria.lifecycle.event.*.provision_mode_server"], sp.2)
  else sp.

Definition setClientGovernorPermissions (user : User) (sp : subspubs) : subspubs :=
  if negb (in_account user (choriaAccount a)) then sp
  else (sp.1, (sp.2 ++ ["*.governor.*"]) ++ ["choria.lifecycle.event.governor.>"]).

Definition setElectionPermissions (user : User) (sp : subspubs) : subspubs :=
  if in_account user (choriaAccount a) then
    (sp.1, sp.2 ++ ["$JS.API.STREAM.INFO.KV_CHORIA_LEADER_ELECTION";
                    "$KV.CHORIA_LEADER_ELECTION.>"])
  else if in_account user (provisioningAccount a) then
    (sp.1, sp.2 ++ ["choria.streams.STREAM.INFO.KV_CHORIA_LEADER_ELECTION";
                    "$KV.CHORIA_LEADER_ELECTION.provisioner"])
  else sp.

(** The result of [setClientTokenPermissions]. *)
Record ClientPermResult := {
  cp_pubs : list string;
  cp_subs : list string;
  cp_pubsDeny : list string;
  cp_subsDeny : list string;
}.

(** One [if perms.X { matched = true; subs, pubs = ... }] block. *)
Definition grant (cond : bool) (f : subspubs → subspubs) (st : bool * subspubs) : bool * subspubs :=
  if cond then (true, f st.2) else st.

Definition grantPermissions (user : User) (org : string) (perms : ClientPermissions)
    (sp : subspubs) : bool * subspubs :=
  let st0 := (false, sp) in
  let st1 := grant (StreamsAdmin perms) (setStreamsAdminPermissions user) st0 in
  let st2 := grant (StreamsUser perms) (setStreamsUserPermissions user org) st1 in
  let st3 := grant (EventsViewer perms) (setEventsViewerPermissions user) st2 in
  let st4 := grant (ElectionUser perms) (setElectionPermissions user) st3 in
  let st5 := grant (ClientGovernor perms && (StreamsUser perms || StreamsAdmin perms))
               (setClientGovernorPermissions user) st4 in
  grant (FleetManagement perms || SignedFleetManagement perms)
    setClientFleetManagementPermissions st5.

Definition deny_if_empty (allow deny : list string) : list string :=
  if Nat.eqb (length allow) 0 then allSubjects else deny.

Definition setClientTokenPermissions (user : User) (caller : string)
    (client : option ClientIDClaims) : ClientPermResult :=
  let perms := client ≫= ClientPerms in
  let org := from_option ClientOU "" client in
  if from_option OrgAdmin false perms then
    {| cp_pubs := allSubjects; cp_subs := allSubjects; cp_pubsDeny := []; cp_subsDeny := [] |}
  else
    let sp := setMinimalClientPermissions caller ([], []) in
    let sp := match client with
              | Some cl => (sp.1 ++ ClientAddSub cl, sp.2 ++ ClientAddPub cl)
              | None => sp
              end in
    let '(matched, (subs, pubs)) :=
      match perms with
      | Some p => grantPermissions user org p sp
      | None => (true, sp)
      end in
    let subsDeny := if matched then [] else deny_if_empty subs [] in
    let pubsDeny := if matched then [] else deny_if_empty pubs [] in
    if in_account user (choriaAccount a) then
      {| cp_pubs := pubs; cp_subs := subs;
         cp_pubsDeny := deny_if_empty pubs pubsDeny;
         cp_subsDeny := deny_if_empty subs subsDeny |}
    else
      {| cp_pubs := pubs; cp_subs := subs; cp_pubsDeny := pubsDeny; cp_subsDeny := subsDeny |}.

Definition setClientPermissions (user : User) (caller : string)
    (client : option ClientIDClaims) : User :=
  let r := setClientTokenPermissions user caller client in
  set_permissions user
    {| Allow := cp_pubs r; Deny := cp_pubsDeny r |}
    {| Allow := cp_subs r; Deny := cp_subsDeny r |}.

(** ** Servers *)

Definition setDenyServersPermissions (user : User) : User :=
  set_permissions user {| Allow := []; Deny := allSubjects |}
                       {| Allow := []; Deny := allSubjects |}.

(** The subjects one collective of the claims adds, publish first. *)
Definition collective_subjects (claims : ServerClaims) (c : string) : subspubs :=
  let hash h := c +:+ ".reply." +:+ hex_encode h +:+ ".>" in
  let perm f := from_option f false (ServerPerms claims) in
  ([c +:+ ".broadcast.agent.>"; c +:+ ".node." +:+ ChoriaIdentity claims]
     ++ (if fips140_Enabled then [hash (sha256_Sum256 (ChoriaIdentity claims))]
         else [hash (md5_Sum (ChoriaIdentity claims)); hash (sha256_Sum256 (ChoriaIdentity claims))])
     ++ (if perm ServiceHost then [c +:+ ".broadcast.service.>"] else []),
   [c +:+ ".reply.>"; c +:+ ".broadcast.agent.registration";
    "choria.federation." +:+ c +:+ ".collective"]
     ++ (if perm Submission then [c +:+ ".submission.in.>"] else [])
     ++ (if perm ServerGovernor && perm Streams then [c +:+ ".governor.*"] else [])).

Definition server_stream_pubs (prefix : string) : list string :=
  [ prefix +:+ ".STREAM.INFO.*";
    prefix +:+ ".STREAM.MSG.GET.*";
    prefix +:+ ".STREAM.MSG.DELETE.*";
    prefix +:+ ".DIRECT.GET.*";
    prefix +:+ ".DIRECT.GET.*.>";
    prefix +:+ ".CONSUMER.CREATE.*";
    prefix +:+ ".CONSUMER.CREATE.*.>";
    prefix +:+ ".CONSUMER.DURABLE.CREATE.*.*";
    prefix +:+ ".CONSUMER.INFO.*.*";
    prefix +:+ ".CONSUMER.MSG.NEXT.*.*";
    "$JS.ACK.>";
    "$JS.FC.>" ].

Definition server_base_pubs : list string :=
  ["choria.lifecycle.>"; "choria.machine.transition"; "choria.machine.watcher.>"].

Definition setClaimsBasedServerPermissions (user : User) (claims : ServerClaims) : User :=
  if Nat.eqb (length (Collectives claims)) 0 then setDenyServersPermissions user
  else
    let pub0 := server_base_pubs ++ ServerAddPub claims in
    let '(sub1, pub1) :=
      fold_left (λ sp c, (sp.1 ++ (collective_subjects claims c).1,
                          sp.2 ++ (collective_subjects claims c).2))
        (Collectives claims) ([], pub0) in
    let '(sub2, pub2) :=
      if from_option Streams false (ServerPerms claims) then
        let prefix := if negb (String.eqb (ServerOU claims) "choria")
                      then "choria.streams" else "$JS.API" in
        (sub1 ++ [ServerOU claims +:+ ".republish.>"], pub1 ++ server_stream_pubs prefix)
      else (sub1, pub1) in
    set_permissions user {| Allow := pub2; Deny := [] |} {| Allow := sub2; Deny := [] |}.

Definition setDefaultServerPermissions (user : User) : User :=
  set_permissions user
    {| Allow := allSubjects;
       Deny := ["*.broadcast.agent.>"; "*.broadcast.service.>"; "*.node.>";
                "choria.federation.*.federation"] |}
    {| Allow := [];
       Deny := ["*.reply.>"; "choria.federation.>"; "choria.lifecycle.>"] |}.

Definition pubsub_denied : list string :=
  ["*.broadcast.>"; "*.node.>"; "*.reply.>"; "choria.federation.>";
   "choria.lifecycle.>"; "choria.machine.>"].

Definition setPubSubPermissions (user : User) : User :=
  set_permissions user
    {| Allow := allSubjects; Deny := pubsub_denied |}
    {| Allow := allSubjects; Deny := pubsub_denied |}.

Definition setServerPermissions (user : User) (claims : option ServerClaims) : User :=
  if denyServers a then setDenyServersPermissions user
  else
    match claims with
    | Some cl => setClaimsBasedServerPermissions user cl
    | None => setDefaultServerPermissions user
    end.

Definition setProvisioningServerPermissions (user : User) : User :=
  set_permissions user
    {| Allow := ["choria.lifecycle.>"; "provisioning.reply.>"; "provisioning.registration.>"];
       Deny := [] |}
    {| Allow := ["provisioning.node.>"; "provisioning.broadcast.agent.discovery";
                 "provisioning.broadcast.agent.rpcutil";
                 "provisioning.broadcast.agent.choria_util";
                 "provisioning.broadcast.agent.choria_provision"];
       Deny := [] |}.

End Perms.

(** * Broker authentication: the decision procedure

    [Check] and its connection handlers (broker/network/choria_auth.go): which
    connections the broker accepts and which user it registers for them. *)

Section Handlers.
Context `{TL : TokenLib} `{PF : Platform}.
Variable a : ChoriaAuth.

Definition createUser (c : ClientAuthentication) : User :=
  {| Username := OptUsername (GetOpts c);
     Password := OptPassword (GetOpts c);
     Account := choriaAccount a;
     UserPermissions := {| Publish := None; Subscribe := None |} |}.

Definition isProvisionUser (c : ClientAuthentication) : bool :=
  String.eqb (OptUsername (GetOpts c)) provisioningUser.

Definition isSystemUser (c : ClientAuthentication) : bool :=
  if String.eqb (systemUser a) "" then false
  else String.eqb (OptUsername (GetOpts c)) (systemUser a).

Definition remoteInClientAllowList (remote : option string) : bool :=
  if Nat.eqb (length (clientAllowList a)) 0 then true
  else
    match remote with
    | None => false
    | Some r =>
        match SplitHostPort r with
        | None => false
        | Some host =>
            existsb (λ allowed,
              String.eqb host allowed
              || (if str_contains allowed "/" then
                    match ParseCIDR allowed with
                    | None => false
                    | Some ipnet => IPNet_Contains ipnet host
                    end
                  else false)) (clientAllowList a)
        end
    end.

(** ** System account *)

Definition handleVerifiedSystemAccount (c : ClientAuthentication) : AuthM bool :=
  if String.eqb (systemUser a) "" then throw "system user is required"
  else if String.eqb (systemPass a) "" then throw "system password is required"
  else if bool_decide (systemAccount a = None) then throw "system account is not set"
  else if negb (String.eqb (OptUsername (GetOpts c)) (systemUser a))
          || negb (String.eqb (OptPassword (GetOpts c)) (systemPass a))
  then throw "invalid system credentials"
  else
    RegisterUser (set_account (createUser c) (systemAccount a));; mret true.

Definition handleUnverifiedSystemAccount (c : ClientAuthentication) (conn : option TLSState) :
    AuthM bool :=
  match conn with
  | None => throw "requires TLS"
  | Some _ =>
      let jwts := OptToken (GetOpts c) in
      if String.eqb jwts "" then throw "no JWT token received"
      else
        match TokenPurpose jwts with
        | ClientIDPurpose =>
            match Kind c with
            | CLIENT =>
                r ← attempt (parseClientIDJWT a jwts);
                match r with
                | inr _ =>
                    (* the error is logged with remote.String() *)
                    match RemoteAddress c with
                    | None => nil_dereference
                    | Some _ => throw "invalid JWT token"
                    end
                | inl claims =>
                    if negb (from_option (λ p, SystemUser p || OrgAdmin p) false (ClientPerms claims))
                    then throw "no system_user or org_admin claim"
                    else
                      match verifyNonceSignature (GetNonce c) (OptSig (GetOpts c))
                              (ClientPublicKey claims) with
                      | Err _ => throw "invalid nonce signature"
                      | Panic p => panic p
                      | Ok _ => handleVerifiedSystemAccount c
                      end
                end
            | OTHER_KIND _ => throw "a client JWT was presented by another kind of connection"
            end
        | _ => throw "client token required"
        end
  end.

(** ** Provisioning *)

Definition handleProvisioningUserConnectionWithIssuer (c : ClientAuthentication) : AuthM bool :=
  let token := OptToken (GetOpts c) in
  if String.eqb token "" && negb (provWithoutToken a) then throw "no token provided in connection"
  else
    (if negb (String.eqb token "") then
       claims ← parseClientIDJWTWithIssuer a token;
       match claims with
       | None => nil_dereference
       | Some cl =>
           if negb (from_option ServerProvisioner false (ClientPerms cl))
           then throw ("provisioner claim is false in token with caller id '" +:+ CallerID cl +:+ "'")
           else mret tt
       end
     else mret tt);;
    RegisterUser (set_account (createUser c) (provisioningAccount a));; mret true.

Definition handleProvisioningUserConnectionWithTLS (c : ClientAuthentication) (tlsVerified : bool) :
    AuthM bool :=
  if negb tlsVerified then throw "provisioning user is only allowed over verified TLS connections"
  else if negb (isTLS a) then throw "provisioning user access requires TLS"
  else
    match GetTLSConnectionState c with
    | None => throw "provisioning user can only connect over tls"
    | Some _ =>
        RegisterUser (set_account (createUser c) (provisioningAccount a));; mret true
    end.

Definition handleProvisioningUserConnection (c : ClientAuthentication) (tlsVerified : bool) :
    AuthM bool :=
  if String.eqb (provPass a) "" then throw "provisioning user password not enabled"
  else if bool_decide (provisioningAccount a = None) then throw "provisioning account is not set"
  else if String.eqb (OptPassword (GetOpts c)) "" then throw "password required"
  else if negb (String.eqb (provPass a) (OptPassword (GetOpts c)))
  then throw "invalid provisioner password supplied"
  else if Nat.ltb 0 (size (issuerTokens a)) then handleProvisioningUserConnectionWithIssuer c
  else handleProvisioningUserConnectionWithTLS c tlsVerified.

(** Both log the remote address before they register the user. *)
Definition registerProvisioningServer (c : ClientAuthentication) : AuthM bool :=
  match RemoteAddress c with
  | None => nil_dereference
  | Some _ =>
      RegisterUser (setProvisioningServerPermissions
                      (set_account (createUser c) (provisioningAccount a)));;
      mret true
  end.

Definition handleUnverifiedProvisioningConnectionWithIssuer (c : ClientAuthentication) : AuthM bool :=
  if String.eqb (provPass a) "" then throw "provisioning is not enabled"
  else
    '(ous, pk) ← issuerKey a (OptToken (GetOpts c)) "invald ou in token"
                   (λ ou, "no issuer found for ou " +:+ ou);
    match ParseProvisioningToken (OptToken (GetOpts c)) pk with
    | inr e => throw (token_error_text e)
    | inl _ => registerProvisioningServer c
    end.

Definition handleUnverifiedProvisioningConnectionWithTLS (c : ClientAuthentication) : AuthM bool :=
  if String.eqb (provisioningTokenSigner a) "" then throw "provisioning is not enabled"
  else if negb (FileExist (provisioningTokenSigner a))
  then throw ("provisioning signer certificate " +:+ provisioningTokenSigner a +:+ " does not exist")
  else
    match ParseProvisioningTokenWithKeyfile (OptToken (GetOpts c)) (provisioningTokenSigner a) with
    | inr e => throw (token_error_text e)
    | inl _ => registerProvisioningServer c
    end.

Definition handleUnverifiedProvisioningConnection (c : ClientAuthentication) : AuthM bool :=
  if bool_decide (provisioningAccount a = None) then throw "provisioning account is not set"
  else if String.eqb (OptUsername (GetOpts c)) provisioningUser
  then throw "provisioning user requires a verified connection"
  else if String.eqb (OptToken (GetOpts c)) "" then throw "provisioning requires a token"
  else
    match TokenSigningAlgorithm (OptToken (GetOpts c)) with
    | inr e => throw ("could not determine token algorithm: " +:+ token_error_text e)
    | inl alg =>
        if String.eqb alg edDSASigningMethod && Nat.ltb 0 (size (issuerTokens a))
        then handleUnverifiedProvisioningConnectionWithIssuer c
        else handleUnverifiedProvisioningConnectionWithTLS c
    end.

(** ** Every other connection *)

(** What the token says about a default connection: the variables
    [handleDefaultConnection] fills before it chooses permissions. *)
Record DefaultAuth := {
  da_user : User;
  da_caller : string;
  da_clientClaims : option ClientIDClaims;
  da_serverClaims : option ServerClaims;
  da_setClientPerms : bool;
  da_setServerPerms : bool;
}.

Definition jwtBasedAuth (c : ClientAuthentication) (user : User) : AuthM DefaultAuth :=
  let jwts := OptToken (GetOpts c) in
  match TokenPurpose jwts with
  | ClientIDPurpose =>
      match Kind c with
      | CLIENT =>
          r ← attempt (verifyClientJWTBasedAuth a (RemoteAddress c) jwts (GetNonce c)
                         (OptSig (GetOpts c)));
          match r with
          | inr _ => throw "invalid nonce signature or jwt token"
          | inl claims =>
              mret {| da_user := set_username user (CallerID claims);
                      da_caller := CallerID claims;
                      da_clientClaims := Some claims; da_serverClaims := None;
                      da_setClientPerms := true; da_setServerPerms := false |}
          end
      | OTHER_KIND _ => throw "a client JWT was presented by another kind of connection"
      end
  | ServerPurpose =>
      match Kind c with
      | CLIENT =>
          r ← attempt (verifyServerJWTBasedAuth a (RemoteAddress c) jwts (GetNonce c)
                         (OptSig (GetOpts c)));
          match r with
          | inr _ => throw "invalid nonce signature or jwt token"
          | inl claims =>
              mret {| da_user := set_username user (ChoriaIdentity claims);
                      da_caller := "";
                      da_clientClaims := None; da_serverClaims := Some claims;
                      da_setClientPerms := false; da_setServerPerms := true |}
          end
      | OTHER_KIND _ => throw "a server JWT was presented by another kind of connection"
      end
  | OtherPurpose p => throw ("do not know how to handle " +:+ p +:+ " purpose token")
  end.

Definition handleDefaultConnection (c : ClientAuthentication) (conn : option TLSState)
    (tlsVerified : bool) : AuthM bool :=
  let user := createUser c in
  match RemoteAddress c with
  | None => nil_dereference
  | Some remote =>
      let pipeConnection := String.eqb remote "pipe" in
      let jwts := OptToken (GetOpts c) in
      let shouldPerformJWTBasedAuth := negb (String.eqb jwts "") && bool_decide (is_Some conn) in
      if tlsVerified && bool_decide (conn = None) then nil_dereference
      else
        d ← (if shouldPerformJWTBasedAuth then jwtBasedAuth c user
             else mret {| da_user := user; da_caller := "";
                          da_clientClaims := None; da_serverClaims := None;
                          da_setClientPerms := false; da_setServerPerms := false |});
        let register (u : User) : AuthM bool := RegisterUser u;; mret true in
        if negb shouldPerformJWTBasedAuth && negb tlsVerified && negb pipeConnection
        then throw "unverified connection without JWT token"
        else if da_setClientPerms d
                || (negb (da_setServerPerms d) && negb (String.eqb (da_caller d) "")
                    && remoteInClientAllowList (Some remote))
        then register (setClientPermissions a (da_user d) (da_caller d) (da_clientClaims d))
        else if da_setServerPerms d || Nat.ltb 0 (length (clientAllowList a))
        then register (setServerPermissions a (da_user d) (da_serverClaims d))
        else if pipeConnection then register (da_user d)
        else if tlsVerified && allowIssuerBasedTLSAccess a
        then register (setPubSubPermissions (da_user d))
        else if Nat.ltb 0 (size (issuerTokens a))
        then throw "unknown connection received in issuer mode"
        else register (da_user d)
  end.

(** [verified, err = handler(c)] of [Check]: a handler's error denies. *)
Definition verdict (m : AuthM bool) : AuthM bool :=
  r ← attempt m;
  match r with
  | inl v => mret v
  | inr _ => mret false
  end.

Definition AuthCheck (c : ClientAuthentication) : AuthM bool :=
  let pipeConnection :=
    match RemoteAddress c with Some r => String.eqb r "pipe" | None => false end in
  let tlsc := GetTLSConnectionState c in
  let tlsVerified :=
    match tlsc with Some t => Nat.ltb 0 (VerifiedChains t) | None => false end in
  if negb pipeConnection && isTLS a && bool_decide (tlsc = None) then mret false
  else
    let sysUser := isSystemUser c in
    if isProvisionUser c then verdict (handleProvisioningUserConnection c tlsVerified)
    else if sysUser && (tlsVerified || pipeConnection)
    then verdict (handleVerifiedSystemAccount c)
    else if sysUser && bool_decide (tlsc = None) then mret false
    else if sysUser && negb tlsVerified
    then verdict (handleUnverifiedSystemAccount c tlsc)
    else
      v ← verdict (handleDefaultConnection c tlsc tlsVerified);
      if negb v && isTLS a && negb tlsVerified
      then verdict (handleUnverifiedProvisioningConnection c)
      else mret v.

End Handlers.
