(* ===== verification/AuthLogic.v ===== *)
(** * Broker authentication: specification and program logic

    When a token, a nonce signature or a connection is acceptable, stated
    without the monad, the cache or the order of the checks; and a small Hoare
    logic for the authenticator's state monad, used by the proofs. *)
From S2P Require Import Prelude GoLib AuthTypes AuthCheck.

Create HintDb auth.

(** ** Program logic *)

(** The key cache only ever holds decoded keys. *)
Definition cache_ok (w : AuthState) : Prop :=
  ∀ t pk, tokenCache w !! t = Some pk → hex_decode t = Some pk.

(** [m] registers nobody, keeps the cache correct, returns values in [Q] and
    panics only under [pan]. *)
Definition quiet {A} (pan : Prop) (m : AuthM A) (Q : A → Prop) : Prop :=
  ∀ w, cache_ok w →
    cache_ok (m w).1 ∧ registered (m w).1 = registered w ∧
    match (m w).2 with Ok x => Q x | Err _ => True | Panic _ => pan end.

(** [m] accepts exactly when it registers one user, who is then in [Q]. *)
Definition decides (pan : Prop) (m : AuthM bool) (Q : User → Prop) : Prop :=
  ∀ w, cache_ok w →
    cache_ok (m w).1 ∧
    match (m w).2 with
    | Ok true => ∃ u, registered (m w).1 = u :: registered w ∧ Q u
    | Ok false | Err _ => registered (m w).1 = registered w
    | Panic _ => registered (m w).1 = registered w ∧ pan
    end.

Section Logic.
Variable pan : Prop.

Lemma quiet_ret {A} (x : A) (Q : A → Prop) : Q x → quiet pan (mret x) Q.
Proof. by intros HQ w Hw. Qed.

Lemma quiet_throw {A} e (Q : A → Prop) : quiet pan (throw e) Q.
Proof. by intros w Hw. Qed.

Lemma quiet_panic {A} p (Q : A → Prop) : pan → quiet pan (panic p) Q.
Proof. by intros HQ w Hw. Qed.

Lemma quiet_bind {A B} (m : AuthM A) (f : A → AuthM B) Q Q' :
  quiet pan m Q → (∀ x, Q x → quiet pan (f x) Q') → quiet pan (m ≫= f) Q'.
Proof.
  intros Hm Hf w Hw. destruct (Hm w Hw) as (Hc & Hr & Ho).
  unfold mbind, ST_bind. destruct (m w) as [w' [x|e|p]]; simpl in *; [|done..].
  destruct (Hf x Ho w' Hc) as (? & ? & ?). split_and!; [done|congruence|done].
Qed.

Lemma quiet_attempt {A} (m : AuthM A) Q :
  quiet pan m Q →
  quiet pan (attempt (F:=string) m)
    (λ r, match r with inl x => Q x | inr _ => True end).
Proof.
  intros Hm w Hw. destruct (Hm w Hw) as (Hc & Hr & Ho).
  unfold attempt. by destruct (m w) as [w' [x|e|p]].
Qed.

Lemma quiet_weaken {A} (m : AuthM A) (Q Q' : A → Prop) :
  quiet pan m Q → (∀ x, Q x → Q' x) → quiet pan m Q'.
Proof.
  intros Hm HQ w Hw. destruct (Hm w Hw) as (? & ? & ?).
  split_and!; [done..|]. destruct (m w).2; eauto.
Qed.

Lemma decides_throw e Q : decides pan (throw e) Q.
Proof. by intros w Hw. Qed.

Lemma decides_panic p Q : pan → decides pan (panic p) Q.
Proof. by intros HQ w Hw. Qed.

Lemma decides_false Q : decides pan (mret false) Q.
Proof. by intros w Hw. Qed.

Lemma decides_register u (Q : User → Prop) : Q u → decides pan (RegisterUser u;; mret true) Q.
Proof. intros HQ w Hw. split; [done|]. by exists u. Qed.

Lemma decides_bind {A} (m : AuthM A) (f : A → AuthM bool) P Q :
  quiet pan m P → (∀ x, P x → decides pan (f x) Q) → decides pan (m ≫= f) Q.
Proof.
  intros Hm Hf w Hw. destruct (Hm w Hw) as (Hc & Hr & Ho).
  unfold mbind, ST_bind. destruct (m w) as [w' [x|e|p]]; simpl in *; [|done..].
  specialize (Hf x Ho w' Hc). by rewrite Hr in Hf.
Qed.

Lemma decides_ret_bind {A} (x : A) (f : A → AuthM bool) Q :
  decides pan (f x) Q → decides pan (mret x ≫= f) Q.
Proof. intros Hf w. exact (Hf w). Qed.

Lemma decides_verdict m Q : decides pan m Q → decides pan (verdict m) Q.
Proof.
  intros Hm w Hw. specialize (Hm w Hw). revert Hm.
  unfold verdict, attempt, mbind, ST_bind, mret, ST_ret.
  by destruct (m w) as [w' [[]|e|p]].
Qed.

(** The fallback of [Check]: [k] runs only when [m] denied. *)
Lemma decides_fallback m (f : bool → AuthM bool) Q :
  decides pan m Q → f true = mret true → decides pan (f false) Q →
  decides pan (m ≫= f) Q.
Proof.
  intros Hm Ht Hf w Hw. specialize (Hm w Hw). revert Hm.
  unfold mbind, ST_bind. destruct (m w) as [w' [[]|e|p]]; simpl.
  - rewrite Ht. by intros (? & ?).
  - intros (Hc & Hr). specialize (Hf w' Hc). by rewrite Hr in Hf.
  - done.
  - done.
Qed.

Lemma decides_weaken m (Q Q' : User → Prop) :
  decides pan m Q → (∀ u, Q u → Q' u) → decides pan m Q'.
Proof.
  intros Hm HQ w Hw. destruct (Hm w Hw) as (? & Ho). split; [done|].
  destruct (m w).2 as [[]| |]; naive_solver.
Qed.

End Logic.

#[export] Hint Resolve quiet_ret quiet_throw decides_throw decides_false
  decides_register decides_verdict : auth.

(** One step of a proof that a handler [decides]: split the outermost test. *)
Ltac auth_step :=
  match goal with
  | |- decides _ (match ?x with _ => _ end) _ => destruct x eqn:?
  | |- quiet _ (match ?x with _ => _ end) _ => destruct x eqn:?
  end.

(** ** Specification *)

Section Spec.
Context `{TL : TokenLib} `{PF : Platform}.
Variable a : ChoriaAuth.

(** The claims a token carries when [s], a hex key or a key file, signed it. *)
Definition signed_by {C} (parse_key parse_file : string → C + TokenError) (s : string)
    (claims : C) : Prop :=
  if IsEncodedEd25519KeyString s
  then ∃ pk, hex_decode s = Some pk ∧ parse_key pk = inl claims
  else parse_file s = inl claims.

(** The key of the issuer configured for the organization the token names. *)
Definition issuer_key (jwts ou pk : string) : Prop :=
  ParseTokenUnverified jwts = inl (Some (OuString ou)) ∧
  ∃ issuer, issuerTokens a !! ou = Some issuer ∧ hex_decode issuer = Some pk.

Definition issued_client (jwts : string) (claims : ClientIDClaims) : Prop :=
  ∃ ou pk, issuer_key jwts ou pk ∧ ParseClientIDToken jwts pk true = inl claims.

Definition issued_server (jwts : string) (claims : ServerClaims) : Prop :=
  ∃ ou pk, issuer_key jwts ou pk ∧ ParseServerToken jwts pk = inl claims.

Definition valid_client_token (jwts : string) (claims : ClientIDClaims) : Prop :=
  CallerID claims ≠ "" ∧ ClientPublicKey claims ≠ "" ∧
  if Nat.ltb 0 (size (issuerTokens a)) then issued_client jwts claims
  else ∃ s, s ∈ clientJwtSigners a ∧
         signed_by (λ pk, ParseClientIDToken jwts pk true)
           (λ f, ParseClientIDTokenWithKeyfile jwts f true) s claims.

Definition valid_server_token (jwts : string) (claims : ServerClaims) : Prop :=
  ChoriaIdentity claims ≠ "" ∧ ServerPublicKey claims ≠ "" ∧
  if Nat.ltb 0 (size (issuerTokens a)) then issued_server jwts claims
  else ∃ s, s ∈ serverJwtSigners a ∧
         signed_by (ParseServerToken jwts) (ParseServerTokenWithKeyfile jwts) s claims.

(** The connection proved it holds the private key of [pks]. *)
Definition nonce_signed (c : ClientAuthentication) (pks : string) : Prop :=
  GetNonce c ≠ "" ∧
  ∃ pubK sig, hex_decode pks = Some pubK ∧
    String.length pubK = ed25519PublicKeySize ∧
    b64_raw_url_decode (OptSig (GetOpts c)) = Some sig ∧
    ed25519_Verify pubK (GetNonce c) sig = true.

Definition tls_verified (c : ClientAuthentication) : Prop :=
  ∃ t, GetTLSConnectionState c = Some t ∧ 0 < VerifiedChains t.

Definition over_pipe (c : ClientAuthentication) : Prop := RemoteAddress c = Some "pipe".

Definition has_token (c : ClientAuthentication) : Prop :=
  OptToken (GetOpts c) ≠ "" ∧ is_Some (GetTLSConnectionState c).

(** How the system account may be reached. *)
Inductive system_access (c : ClientAuthentication) : Prop :=
| system_over_mtls : tls_verified c → system_access c
| system_over_pipe : over_pipe c → system_access c
| system_with_token claims p :
    has_token c → Kind c = CLIENT →
    valid_client_token (OptToken (GetOpts c)) claims →
    ClientPerms claims = Some p → SystemUser p = true ∨ OrgAdmin p = true →
    nonce_signed c (ClientPublicKey claims) →
    system_access c.

(** How the provisioner user may enter the provisioning account. *)
Inductive provisioner_access (c : ClientAuthentication) : Prop :=
| provisioner_issued claims p :
    issuerTokens a ≠ ∅ → OptToken (GetOpts c) ≠ "" →
    issued_client (OptToken (GetOpts c)) claims →
    ClientPerms claims = Some p → ServerProvisioner p = true →
    provisioner_access c
| provisioner_tokenless :
    issuerTokens a ≠ ∅ → OptToken (GetOpts c) = "" → provWithoutToken a = true →
    provisioner_access c
| provisioner_mtls :
    issuerTokens a = ∅ → isTLS a = true → tls_verified c →
    provisioner_access c.

(** How a server without a verified certificate may ask to be provisioned. *)
Inductive unprovisioned_access (c : ClientAuthentication) : Prop :=
| unprovisioned_issued ou pk :
    provPass a ≠ "" → issuer_key (OptToken (GetOpts c)) ou pk →
    ParseProvisioningToken (OptToken (GetOpts c)) pk = inl tt →
    unprovisioned_access c
| unprovisioned_signed :
    provisioningTokenSigner a ≠ "" → FileExist (provisioningTokenSigner a) = true →
    ParseProvisioningTokenWithKeyfile (OptToken (GetOpts c)) (provisioningTokenSigner a) = inl tt →
    unprovisioned_access c.

(** The users [Check] may register for a connection. *)
Inductive authorised (c : ClientAuthentication) : User → Prop :=
| auth_system :
    systemUser a ≠ "" → systemPass a ≠ "" → systemAccount a ≠ None →
    OptUsername (GetOpts c) = systemUser a → OptPassword (GetOpts c) = systemPass a →
    system_access c →
    authorised c (set_account (createUser a c) (systemAccount a))
| auth_provisioner :
    provPass a ≠ "" → provisioningAccount a ≠ None →
    OptUsername (GetOpts c) = provisioningUser → OptPassword (GetOpts c) = provPass a →
    provisioner_access c →
    authorised c (set_account (createUser a c) (provisioningAccount a))
| auth_unprovisioned :
    isTLS a = true → ¬ tls_verified c → provisioningAccount a ≠ None →
    OptUsername (GetOpts c) ≠ provisioningUser → OptToken (GetOpts c) ≠ "" →
    unprovisioned_access c →
    authorised c (setProvisioningServerPermissions
                    (set_account (createUser a c) (provisioningAccount a)))
| auth_client claims :
    has_token c → Kind c = CLIENT → valid_client_token (OptToken (GetOpts c)) claims →
    nonce_signed c (ClientPublicKey claims) →
    authorised c (setClientPermissions a (set_username (createUser a c) (CallerID claims))
                    (CallerID claims) (Some claims))
| auth_server claims :
    has_token c → Kind c = CLIENT → valid_server_token (OptToken (GetOpts c)) claims →
    nonce_signed c (ServerPublicKey claims) →
    authorised c (setServerPermissions a (set_username (createUser a c) (ChoriaIdentity claims))
                    (Some claims))
| auth_legacy_server :
    ¬ has_token c → tls_verified c ∨ over_pipe c → clientAllowList a ≠ [] →
    authorised c (setServerPermissions a (createUser a c) None)
| auth_pipe :
    ¬ has_token c → over_pipe c → clientAllowList a = [] →
    authorised c (createUser a c)
| auth_pubsub :
    ¬ has_token c → tls_verified c → ¬ over_pipe c → clientAllowList a = [] →
    allowIssuerBasedTLSAccess a = true →
    authorised c (setPubSubPermissions (createUser a c))
| auth_legacy :
    ¬ has_token c → tls_verified c → ¬ over_pipe c → clientAllowList a = [] →
    allowIssuerBasedTLSAccess a = false → issuerTokens a = ∅ →
    authorised c (createUser a c).

End Spec.

(** * Broker authentication: theorems

    [Check] against its specification, and what follows for the accounts and
    the subjects a connection can reach. *)

Section TokenProofs.
Context `{TL : TokenLib} `{PF : Platform}.
Variable a : ChoriaAuth.
Variable pan : Prop.

Lemma cached_quiet t :
  quiet pan (cachedEd25519Token t) (λ pk, hex_decode t = Some pk).
Proof.
  intros w Hw. unfold cachedEd25519Token.
  destruct (tokenCache w !! t) eqn:E; [simpl; auto|].
  destruct (hex_decode t) as [tok|] eqn:H; [|done]. simpl. split_and!; [|done..].
  intros t' pk. simpl. rewrite lookup_insert. case_decide; naive_solver.
Qed.

Lemma signersLoop_quiet {C} (pk pf : string → C + TokenError) fatal gen n signers :
  ∀ err, quiet pan (signersLoop pk pf fatal gen n signers err)
    (λ r, match r with
          | Some claims => ∃ s, s ∈ signers ∧ signed_by pk pf s claims
          | None => signers = [] ∧ err = None
          end).
Proof.
  induction signers as [|s rest IH]; intros err; simpl.
  - destruct err; eauto with auth.
  - assert (∀ e, quiet pan (signersLoop pk pf fatal gen n rest (Some e))
      (λ r, match r with
            | Some claims => ∃ s', s' ∈ s :: rest ∧ signed_by pk pf s' claims
            | None => s :: rest = [] ∧ err = None
            end)) as Hrest.
    { intros e. eapply quiet_weaken; [apply IH|]. intros [claims|]; [|naive_solver].
      intros (s' & ? & ?). exists s'. split; [by right|done]. }
    destruct (IsEncodedEd25519KeyString s) eqn:Enc.
    + eapply quiet_bind; [apply quiet_attempt, cached_quiet|].
      intros [k|e]; [intros Hk|eauto].
      destruct (pk k) eqn:?; repeat auth_step; auto with auth.
      apply quiet_ret. exists s. split; [by left|]. unfold signed_by. rewrite Enc. eauto.
    + destruct (pf s) eqn:?; repeat auth_step; auto with auth.
      apply quiet_ret. exists s. split; [by left|]. unfold signed_by. by rewrite Enc.
Qed.

Lemma issuerKey_quiet jwts m1 m2 :
  quiet pan (issuerKey a jwts m1 m2) (λ r, issuer_key a jwts r.1 r.2).
Proof.
  unfold issuerKey. destruct (ParseTokenUnverified jwts) as [[[ou|]|]|] eqn:E; auto with auth.
  destruct (issuerTokens a !! ou) as [issuer|] eqn:Hi; [|auto with auth].
  eapply quiet_bind; [apply quiet_attempt, cached_quiet|].
  intros [k|e] Hk; [|auto with auth]. apply quiet_ret. split; [done|]. eauto.
Qed.

Lemma parseServerJWTWithIssuer_quiet jwts :
  quiet pan (parseServerJWTWithIssuer a jwts)
    (λ r, ∃ claims, r = Some claims ∧ issued_server a jwts claims).
Proof.
  unfold parseServerJWTWithIssuer. eapply quiet_bind; [apply issuerKey_quiet|].
  intros [ou pk] Hk. auth_step; [|auto with auth]. apply quiet_ret.
  eexists; split; [done|]. exists ou, pk. eauto.
Qed.

Lemma parseClientIDJWTWithIssuer_quiet jwts :
  quiet pan (parseClientIDJWTWithIssuer a jwts)
    (λ r, ∃ claims, r = Some claims ∧ issued_client a jwts claims).
Proof.
  unfold parseClientIDJWTWithIssuer. eapply quiet_bind; [apply issuerKey_quiet|].
  intros [ou pk] Hk. auth_step; [|auto with auth]. apply quiet_ret.
  eexists; split; [done|]. exists ou, pk. eauto.
Qed.

Lemma parseServerJWT_quiet jwts :
  quiet pan (parseServerJWT a jwts) (valid_server_token a jwts).
Proof.
  unfold parseServerJWT. auth_step; [auto with auth|]. auth_step; [auto with auth|].
  eapply (quiet_bind _ _ _ (λ r, ∃ claims, r = Some claims ∧
    if Nat.ltb 0 (size (issuerTokens a)) then issued_server a jwts claims
    else ∃ s, s ∈ serverJwtSigners a ∧
      signed_by (ParseServerToken jwts) (ParseServerTokenWithKeyfile jwts) s claims)).
  - auth_step; [apply parseServerJWTWithIssuer_quiet|].
    eapply quiet_weaken; [apply signersLoop_quiet|].
    intros [claims|]; [naive_solver|]. intros [Hn _].
    by rewrite Hn in *; destruct (size (issuerTokens a)).
  - intros ? (claims & -> & H). repeat auth_step; auto with auth.
    bprop. apply quiet_ret. by repeat split.
Qed.

Lemma parseClientIDJWT_quiet jwts :
  quiet pan (parseClientIDJWT a jwts) (valid_client_token a jwts).
Proof.
  unfold parseClientIDJWT. auth_step; [auto with auth|]. auth_step; [auto with auth|].
  eapply (quiet_bind _ _ _ (λ r, ∃ claims, r = Some claims ∧
    if Nat.ltb 0 (size (issuerTokens a)) then issued_client a jwts claims
    else ∃ s, s ∈ clientJwtSigners a ∧
      signed_by (λ pk, ParseClientIDToken jwts pk true)
        (λ f, ParseClientIDTokenWithKeyfile jwts f true) s claims)).
  - auth_step; [apply parseClientIDJWTWithIssuer_quiet|].
    eapply quiet_weaken; [apply signersLoop_quiet|].
    intros [claims|]; [naive_solver|]. intros [Hn _].
    by rewrite Hn in *; destruct (size (issuerTokens a)).
  - intros ? (claims & -> & H). repeat auth_step; auto with auth.
    bprop. apply quiet_ret. by repeat split.
Qed.

Lemma verifyNonceSignature_ok c pks :
  match verifyNonceSignature (GetNonce c) (OptSig (GetOpts c)) pks with
  | Ok _ => nonce_signed c pks
  | Err _ => True
  | Panic _ => False
  end.
Proof.
  unfold verifyNonceSignature, ed25519Verify.
  repeat (dmatch; simplify_eq/=; try done). bprop. split; [done|]. eauto 10.
Qed.

Lemma verifyServer_quiet c :
  quiet pan (verifyServerJWTBasedAuth a (RemoteAddress c) (OptToken (GetOpts c)) (GetNonce c)
               (OptSig (GetOpts c)))
    (λ claims, valid_server_token a (OptToken (GetOpts c)) claims ∧
               nonce_signed c (ServerPublicKey claims)).
Proof.
  unfold verifyServerJWTBasedAuth. auth_step; [|auto with auth].
  eapply quiet_bind; [apply quiet_attempt, parseServerJWT_quiet|].
  intros [claims|]; [intros Hv|auto with auth].
  pose proof (verifyNonceSignature_ok c (ServerPublicKey claims)) as Hn.
  auth_step; [|auto with auth|done]. by apply quiet_ret.
Qed.

Lemma verifyClient_quiet c :
  quiet pan (verifyClientJWTBasedAuth a (RemoteAddress c) (OptToken (GetOpts c)) (GetNonce c)
               (OptSig (GetOpts c)))
    (λ claims, valid_client_token a (OptToken (GetOpts c)) claims ∧
               nonce_signed c (ClientPublicKey claims)).
Proof.
  unfold verifyClientJWTBasedAuth. auth_step; [|auto with auth].
  eapply quiet_bind; [apply quiet_attempt, parseClientIDJWT_quiet|].
  intros [claims|]; [intros Hv|auto with auth].
  pose proof (verifyNonceSignature_ok c (ClientPublicKey claims)) as Hn.
  auth_step; [|auto with auth|done]. by apply quiet_ret.
Qed.
End TokenProofs.

(** ** The handlers *)

(** The only panic: a nil remote address. *)
Definition no_remote (c : ClientAuthentication) : Prop := RemoteAddress c = None.

Section HandlerProofs.
Context `{TL : TokenLib} `{PF : Platform}.
Variable a : ChoriaAuth.
Variable c : ClientAuthentication.
Abbreviation pan := (no_remote c).

Lemma verified_system_decides :
  system_access a c →
  OptUsername (GetOpts c) = systemUser a →
  decides pan (handleVerifiedSystemAccount a c) (authorised a c).
Proof.
  intros Hsys Hu. unfold handleVerifiedSystemAccount.
  repeat (auth_step; [by auto with auth|]). bprop.
  apply decides_register, auth_system; auto.
Qed.

Lemma unverified_system_decides :
  OptUsername (GetOpts c) = systemUser a →
  decides pan (handleUnverifiedSystemAccount a c (GetTLSConnectionState c)) (authorised a c).
Proof.
  intros Hu. unfold handleUnverifiedSystemAccount.
  auth_step; [|auto with auth]. auth_step; [auto with auth|].
  destruct (TokenPurpose _) eqn:?; auto with auth.
  destruct (Kind c) eqn:?; auto with auth.
  eapply decides_bind; [apply quiet_attempt, parseClientIDJWT_quiet|].
  intros [claims|]; [intros Hv|intros _; auth_step; auto with auth].
  - destruct (ClientPerms claims) as [p|] eqn:Hp; simpl; [|auto with auth].
    destruct (SystemUser p || OrgAdmin p) eqn:Hadm; simpl; [|auto with auth].
    pose proof (verifyNonceSignature_ok c (ClientPublicKey claims)) as Hn.
    auth_step; [|auto with auth|done].
    apply verified_system_decides; [|done].
    bprop. eapply system_with_token; eauto; [|by apply orb_true_iff in Hadm].
    split; [done|]. by rewrite Heqo.
  - by apply decides_panic.
Qed.

Lemma provisioner_issuer_decides :
  issuerTokens a ≠ ∅ → provPass a ≠ "" → provisioningAccount a ≠ None →
  OptUsername (GetOpts c) = provisioningUser → OptPassword (GetOpts c) = provPass a →
  decides pan (handleProvisioningUserConnectionWithIssuer a c) (authorised a c).
Proof.
  intros ?????. unfold handleProvisioningUserConnectionWithIssuer.
  auth_step; [auto with auth|].
  eapply (decides_bind _ _ _ (λ _, provisioner_access a c)).
  - auth_step.
    + eapply quiet_bind; [apply parseClientIDJWTWithIssuer_quiet|].
      intros ? (claims & -> & Hi).
      destruct (ClientPerms claims) as [p|] eqn:?; simpl; [|auto with auth].
      destruct (ServerProvisioner p) eqn:?; simpl; [|auto with auth].
      bprop. apply quiet_ret. by eapply provisioner_issued.
    + bprop. apply quiet_ret, provisioner_tokenless; [done..|].
      destruct (provWithoutToken a); [done|]. simpl in *.
      rewrite Heqb0 in Heqb. done.
  - intros _ Hp. apply decides_register, auth_provisioner; done.
Qed.

Lemma provisioner_decides tlsVerified :
  (tlsVerified = true → tls_verified c) →
  OptUsername (GetOpts c) = provisioningUser →
  decides pan (handleProvisioningUserConnection a c tlsVerified) (authorised a c).
Proof.
  intros Htls Hu. unfold handleProvisioningUserConnection.
  do 4 (auth_step; [by auto with auth|]). bprop.
  auth_step; bprop.
  - apply provisioner_issuer_decides; auto with gochoria.
  - assert (issuerTokens a = ∅) by auto with gochoria.
    unfold handleProvisioningUserConnectionWithTLS.
    repeat (auth_step; [by auto with auth|]). auth_step; [|auto with auth]. bprop.
    apply decides_register, auth_provisioner; [done..|].
    apply provisioner_mtls; auto.
Qed.

Lemma provisioning_server_decides :
  isTLS a = true → ¬ tls_verified c → provisioningAccount a ≠ None →
  OptUsername (GetOpts c) ≠ provisioningUser → OptToken (GetOpts c) ≠ "" →
  unprovisioned_access a c →
  decides pan (registerProvisioningServer a c) (authorised a c).
Proof.
  intros. unfold registerProvisioningServer. auth_step; [|by apply decides_panic].
  apply decides_register. by constructor.
Qed.

Lemma unverified_provisioning_decides :
  isTLS a = true → ¬ tls_verified c →
  decides pan (handleUnverifiedProvisioningConnection a c) (authorised a c).
Proof.
  intros Ht Hv. unfold handleUnverifiedProvisioningConnection.
  do 3 (auth_step; [by auto with auth|]). auth_step; [|auto with auth]. bprop.
  auth_step.
  - unfold handleUnverifiedProvisioningConnectionWithIssuer. auth_step; [auto with auth|].
    eapply decides_bind; [apply issuerKey_quiet|].
    intros [ou pk] Hk. destruct (ParseProvisioningToken _ _) as [[]|] eqn:?; [|auto with auth].
    apply provisioning_server_decides; try done. bprop. by eapply unprovisioned_issued.
  - unfold handleUnverifiedProvisioningConnectionWithTLS. auth_step; [auto with auth|].
    auth_step; [auto with auth|].
    destruct (ParseProvisioningTokenWithKeyfile _ _) as [[]|] eqn:?; [|auto with auth].
    apply provisioning_server_decides; try done. bprop. by apply unprovisioned_signed.
Qed.

(** What [jwtBasedAuth] leaves behind. *)
Definition jwt_result (d : DefaultAuth) : Prop :=
  (∃ claims, valid_client_token a (OptToken (GetOpts c)) claims ∧
     nonce_signed c (ClientPublicKey claims) ∧ Kind c = CLIENT ∧
     d = {| da_user := set_username (createUser a c) (CallerID claims);
            da_caller := CallerID claims;
            da_clientClaims := Some claims; da_serverClaims := None;
            da_setClientPerms := true; da_setServerPerms := false |}) ∨
  (∃ claims, valid_server_token a (OptToken (GetOpts c)) claims ∧
     nonce_signed c (ServerPublicKey claims) ∧ Kind c = CLIENT ∧
     d = {| da_user := set_username (createUser a c) (ChoriaIdentity claims);
            da_caller := "";
            da_clientClaims := None; da_serverClaims := Some claims;
            da_setClientPerms := false; da_setServerPerms := true |}).

Lemma jwtBasedAuth_quiet :
  quiet pan (jwtBasedAuth a c (createUser a c)) jwt_result.
Proof.
  unfold jwtBasedAuth. destruct (TokenPurpose _); [| |auto with auth].
  - destruct (Kind c) eqn:?; [|auto with auth].
    eapply quiet_bind; [apply quiet_attempt, verifyClient_quiet|].
    intros [claims|]; [|auto with auth]. intros [? ?]. apply quiet_ret. left. eauto 10.
  - destruct (Kind c) eqn:?; [|auto with auth].
    eapply quiet_bind; [apply quiet_attempt, verifyServer_quiet|].
    intros [claims|]; [|auto with auth]. intros [? ?]. apply quiet_ret. right. eauto 10.
Qed.

(** A connection that presented no token. *)
Lemma no_token_decides tlsVerified :
  (tlsVerified = true → tls_verified c) → (tlsVerified = false → ¬ tls_verified c) →
  ¬ has_token c → is_Some (RemoteAddress c) → OptToken (GetOpts c) = "" ∨ GetTLSConnectionState c = None →
  decides pan (handleDefaultConnection a c (GetTLSConnectionState c) tlsVerified) (authorised a c).
Proof.
  intros Hv1 Hv0 Hno [remote Hr] Hdis. unfold handleDefaultConnection. rewrite Hr.
  assert (negb (String.eqb (OptToken (GetOpts c)) "")
          && bool_decide (is_Some (GetTLSConnectionState c)) = false) as ->.
  { destruct Hdis as [->| ->]; [done|]. apply andb_false_r. }
  destruct (tlsVerified && bool_decide (GetTLSConnectionState c = None)) eqn:Hn.
  { exfalso. apply andb_true_iff in Hn as [Hn1 Hn2]. destruct (Hv1 Hn1) as (t & Ht & _).
    bprop. congruence. }
  apply decides_ret_bind. simpl.
  destruct (negb tlsVerified && negb (String.eqb remote "pipe")) eqn:Hrej;
    [auto with auth|].
  assert (tls_verified c ∨ over_pipe c) as Hin.
  { destruct tlsVerified; [eauto|]. simpl in Hrej. right. bprop. unfold over_pipe. by subst. }
  destruct (clientAllowList a) as [|x l] eqn:Hal.
  2: { apply decides_register, auth_legacy_server; try done. by rewrite Hal. }
  simpl. destruct (String.eqb remote "pipe") eqn:Hp; bprop.
  { apply decides_register, auth_pipe; try done. unfold over_pipe. by subst. }
  assert (tlsVerified = true) as -> by (by destruct tlsVerified).
  assert (¬ over_pipe c) by (unfold over_pipe; congruence).
  destruct (allowIssuerBasedTLSAccess a) eqn:?; simpl.
  { apply decides_register, auth_pubsub; auto. }
  auth_step; [auto with auth|]. bprop.
  apply decides_register, auth_legacy; auto with gochoria.
Qed.

Lemma token_decides tlsVerified :
  (tlsVerified = true → tls_verified c) → has_token c →
  decides pan (handleDefaultConnection a c (GetTLSConnectionState c) tlsVerified) (authorised a c).
Proof.
  intros Hv [Htok Htls]. unfold handleDefaultConnection.
  destruct (RemoteAddress c) as [remote|] eqn:Hr; [|by apply decides_panic].
  destruct (String.eqb (OptToken (GetOpts c)) "") eqn:He; [by bprop|].
  rewrite (bool_decide_eq_true_2 _ Htls).
  rewrite (bool_decide_eq_false_2 (GetTLSConnectionState c = None))
    by (intros Hn; rewrite Hn in Htls; by destruct Htls).
  rewrite andb_false_r. simpl.
  eapply decides_bind; [apply jwtBasedAuth_quiet|].
  intros d [(claims & ? & ? & ? & ->)|(claims & ? & ? & ? & ->)]; simpl.
  - by apply decides_register, auth_client.
  - by apply decides_register, auth_server.
Qed.

Lemma default_decides tlsVerified :
  (tlsVerified = true → tls_verified c) → (tlsVerified = false → ¬ tls_verified c) →
  decides pan (handleDefaultConnection a c (GetTLSConnectionState c) tlsVerified) (authorised a c).
Proof.
  intros Hv1 Hv0.
  destruct (RemoteAddress c) as [remote|] eqn:Hr.
  2: { unfold handleDefaultConnection. rewrite Hr. by apply decides_panic. }
  destruct (decide (OptToken (GetOpts c) = "")) as [He|He].
  { apply no_token_decides; try done; [|by left]. by intros []. }
  destruct (GetTLSConnectionState c) as [t|] eqn:Ht.
  - rewrite <- Ht. apply token_decides; [done|]. split; [done|]. by rewrite Ht.
  - rewrite <- Ht. apply no_token_decides; try done; [|by right].
    intros [_ Hs]. rewrite Ht in Hs. by destruct Hs.
Qed.

Lemma check_decides : decides pan (AuthCheck a c) (authorised a c).
Proof.
  unfold AuthCheck.
  set (tv := match GetTLSConnectionState c with
             | Some t => Nat.ltb 0 (VerifiedChains t) | None => false end).
  assert (tv = true → tls_verified c) as Hv1.
  { unfold tv. destruct (GetTLSConnectionState c) as [t|] eqn:?; [|done].
    intros; bprop. by exists t. }
  assert (tv = false → ¬ tls_verified c) as Hv0.
  { unfold tv. intros Hf (t & Ht & Hc). rewrite Ht in Hf. bprop. lia. }
  auth_step; [auto with auth|].
  destruct (isProvisionUser c) eqn:Hp.
  { apply decides_verdict, provisioner_decides; [done|]. by apply String.eqb_eq. }
  destruct (isSystemUser a c) eqn:Hs; simpl.
  - assert (OptUsername (GetOpts c) = systemUser a) as Hu.
    { unfold isSystemUser in Hs. destruct (String.eqb (systemUser a) ""); [done|].
      by apply String.eqb_eq. }
    destruct tv eqn:Htv; simpl.
    { apply decides_verdict, verified_system_decides; [|done]. apply system_over_mtls. auto. }
    match goal with |- context [if ?b then verdict _ else _] => destruct b eqn:Hpipe end.
    { apply decides_verdict, verified_system_decides; [|done]. apply system_over_pipe.
      unfold over_pipe. destruct (RemoteAddress c); [|done]. bprop. by subst. }
    auth_step; [auto with auth|]. by apply decides_verdict, unverified_system_decides.
  - apply decides_fallback.
    + by apply decides_verdict, default_decides.
    + done.
    + simpl. destruct (isTLS a && negb tv) eqn:Ht; [|auto with auth].
      apply andb_true_iff in Ht as [Ht Htv]. bprop.
      apply decides_verdict, unverified_provisioning_decides; auto.
Qed.

End HandlerProofs.
