(* ===== verification/AuthTheorems.v ===== *)
(** * Broker authentication: properties of the program

    The statements a reader of broker/network/choria_auth.go relies on, each
    with a concrete connection it applies to. *)
From S2P Require Import Prelude GoLib AuthTypes AuthCheck AuthLogic.

(** ** Helpers *)

(** The same authenticator with another [plugin.choria.network.client_hosts]. *)
Definition with_allow_list (a : ChoriaAuth) (l : list string) : ChoriaAuth :=
  {| clientAllowList := l; isTLS := isTLS a; denyServers := denyServers a;
     provisioningTokenSigner := provisioningTokenSigner a;
     clientJwtSigners := clientJwtSigners a; serverJwtSigners := serverJwtSigners a;
     allowIssuerBasedTLSAccess := allowIssuerBasedTLSAccess a;
     issuerTokens := issuerTokens a; choriaAccount := choriaAccount a;
     systemAccount := systemAccount a; provisioningAccount := provisioningAccount a;
     provPass := provPass a; provWithoutToken := provWithoutToken a;
     systemUser := systemUser a; systemPass := systemPass a |}.

Section Helpers.
Context `{TL : TokenLib} `{PF : Platform}.

Lemma verdict_no_err m w : ∀ e, (verdict m w).2 ≠ Err e.
Proof.
  intros e. unfold verdict, attempt, mbind, ST_bind, mret, ST_ret.
  by destruct (m w) as [w' [x|e'|p]].
Qed.

Lemma check_no_err a c w : ∀ e, (AuthCheck a c w).2 ≠ Err e.
Proof.
  intros e. unfold AuthCheck.
  repeat match goal with
  | |- (verdict _ _).2 ≠ _ => apply verdict_no_err
  | |- ((if ?b then _ else _) _).2 ≠ _ => destruct b
  | |- ((mret _) _).2 ≠ _ => done
  end.
  unfold mbind, ST_bind. pose proof (verdict_no_err
    (handleDefaultConnection a c (GetTLSConnectionState c)
       match GetTLSConnectionState c with
       | Some t => Nat.ltb 0 (VerifiedChains t) | None => false end) w) as Hv.
  destruct (verdict _ w) as [w' [v|e'|p]]; simpl in *; [|naive_solver|done].
  destruct (negb v && _ && _); [apply verdict_no_err|done].
Qed.

(** The outcome of [Check], from [check_decides]. *)
Lemma check_outcome a c w : cache_ok w →
  match AuthCheck a c w with
  | (w', Ok true) => cache_ok w' ∧ ∃ u, registered w' = u :: registered w ∧ authorised a c u
  | (w', Ok false) => cache_ok w' ∧ registered w' = registered w
  | (_, Err _) => False
  | (w', Panic _) => registered w' = registered w ∧ RemoteAddress c = None
  end.
Proof.
  intros Hw. pose proof (check_decides a c w Hw) as [Hc Ho].
  pose proof (check_no_err a c w) as He.
  destruct (AuthCheck a c w) as [w' [[]|e|p]]; simpl in *; naive_solver.
Qed.

Lemma server_account a u claims : Account (setServerPermissions a u claims) = Account u.
Proof.
  unfold setServerPermissions, setClaimsBasedServerPermissions.
  destruct (denyServers a), claims as [cl|]; try done.
  destruct (Nat.eqb _ _); [done|]. repeat dmatch; done.
Qed.

(** The account of an authorised user tells how it was authorised. *)
Lemma authorised_account a c u : authorised a c u →
  Account u = choriaAccount a ∨
  (Account u = systemAccount a ∧ OptUsername (GetOpts c) = systemUser a ∧
     OptPassword (GetOpts c) = systemPass a ∧ systemPass a ≠ "" ∧ system_access a c) ∨
  (Account u = provisioningAccount a ∧
     ((OptUsername (GetOpts c) = provisioningUser ∧ OptPassword (GetOpts c) = provPass a ∧
       provPass a ≠ "" ∧ provisioner_access a c) ∨
      (u = setProvisioningServerPermissions (set_account (createUser a c) (provisioningAccount a)) ∧
       isTLS a = true ∧ OptToken (GetOpts c) ≠ "" ∧ unprovisioned_access a c))).
Proof.
  intros H; inversion H; subst; rewrite ?server_account; auto 10.
Qed.

Lemma jwt_caller_client a c u w w' d :
  jwtBasedAuth a c u w = (w', Ok d) → da_setClientPerms d = true ∨ da_caller d = "".
Proof.
  unfold jwtBasedAuth, mbind, ST_bind, mret, ST_ret, attempt, throw. intros H.
  destruct (TokenPurpose _), (Kind c); simplify_eq.
  - destruct (verifyClientJWTBasedAuth _ _ _ _ _ w) as [? [?|?|?]]; simplify_eq/=; auto.
  - destruct (verifyServerJWTBasedAuth _ _ _ _ _ w) as [? [?|?|?]]; simplify_eq/=; auto.
Qed.

Lemma default_allow_list a l c conn v w :
  l ≠ [] → clientAllowList a ≠ [] →
  handleDefaultConnection (with_allow_list a l) c conn v w = handleDefaultConnection a c conn v w.
Proof.
  intros Hl Ha. unfold handleDefaultConnection.
  destruct (RemoteAddress c) as [remote|]; [|done].
  destruct (v && _); [done|]. unfold mbind, ST_bind.
  assert (Nat.ltb 0 (length l) = Nat.ltb 0 (length (clientAllowList a))) as Hlen.
  { by destruct l, (clientAllowList a). }
  destruct (negb _ && bool_decide (is_Some conn)).
  - change (jwtBasedAuth (with_allow_list a l) c (createUser (with_allow_list a l) c) w)
      with (jwtBasedAuth a c (createUser a c) w).
    destruct (jwtBasedAuth a c (createUser a c) w) as [w' [d|e|p]] eqn:E; [|done..].
    apply jwt_caller_client in E as [-> | ->]; [reflexivity|].
    simpl. rewrite !andb_false_r. by rewrite Hlen.
  - simpl. by rewrite Hlen.
Qed.
End Helpers.

(** ** A concrete authenticator

    An organization issuer that signed one client, one server and one
    provisioning token, for the concrete instances of the theorems. *)

Definition demo_key : string := "0000000000000000000000000000000000000000000000000000000000000000".

Definition demo_client_perms (system fleet : bool) : ClientPermissions :=
  {| StreamsAdmin := false; StreamsUser := true; EventsViewer := false; ElectionUser := false;
     ClientGovernor := true; OrgAdmin := false; SystemUser := system; FleetManagement := fleet;
     SignedFleetManagement := false; ServerProvisioner := system;
     AuthenticationDelegator := false |}.

Definition demo_client : ClientIDClaims :=
  {| CallerID := "choria=bob"; ClientOU := "choria"; ClientPublicKey := demo_key;
     ClientPerms := Some (demo_client_perms true false); ClientAddPub := []; ClientAddSub := [];
     AllowedAgents := []; OPAPolicy := "" |}.

Definition demo_server : ServerClaims :=
  {| ChoriaIdentity := "node1"; Collectives := ["choria"]; ServerPublicKey := demo_key;
     ServerOU := "choria"; ServerPerms := None; ServerAddPub := [] |}.

#[local] Instance demo_tokens : TokenLib := {|
  TokenPurpose t := if String.eqb t "client" then ClientIDPurpose
                    else if String.eqb t "server" then ServerPurpose else OtherPurpose t;
  TokenSigningAlgorithm t := inl edDSASigningMethod;
  ParseTokenUnverified t := inl (Some (OuString "choria"));
  ParseServerToken t pk := if String.eqb t "server" then inl demo_server else inr ErrNotAServerToken;
  ParseServerTokenWithKeyfile t f := inr (ErrToken "no file");
  ParseClientIDToken t pk _ := if String.eqb t "client" then inl demo_client else inr ErrNotAClientToken;
  ParseClientIDTokenUnverified t := if String.eqb t "client" then inl demo_client else inr ErrNotAClientToken;
  ParseClientIDTokenWithKeyfile t f _ := inr (ErrToken "no file");
  ParseProvisioningToken t pk := if String.eqb t "prov" then inl tt else inr (ErrToken "not a provisioning token");
  ParseProvisioningTokenWithKeyfile t f := inr (ErrToken "no file");
  IsEncodedEd25519KeyString k := Nat.eqb (String.length k) 64;
|}.

#[local] Instance demo_platform : Platform := {|
  fips140_Enabled := false;
  md5_Sum s := s;
  sha256_Sum256 s := s;
  ed25519_Verify pk m sig := String.eqb sig "signed";
  FileExist f := false;
  SplitHostPort s := Some s;
  IPNet := string;
  ParseCIDR s := None;
  IPNet_Contains n ip := false;
|}.

Definition demo_auth : ChoriaAuth :=
  {| clientAllowList := ["192.0.2.1"]; isTLS := true; denyServers := false;
     provisioningTokenSigner := ""; clientJwtSigners := []; serverJwtSigners := [];
     allowIssuerBasedTLSAccess := false; issuerTokens := {["choria" := demo_key]};
     choriaAccount := Some 1%positive; systemAccount := Some 2%positive;
     provisioningAccount := Some 3%positive; provPass := "s3cret"; provWithoutToken := false;
     systemUser := "system"; systemPass := "sysp4ss" |}.

Definition demo_conn (user pass token : string) : ClientAuthentication :=
  {| RemoteAddress := Some "192.0.2.9:1000";
     GetTLSConnectionState := Some {| VerifiedChains := 0; PeerCertificates := [] |};
     GetOpts := {| OptUsername := user; OptPassword := pass; OptToken := token;
                   OptSig := "c2lnbmVk" |};
     GetNonce := "nonce"; Kind := CLIENT |}.

Definition demo_state : AuthState := {| tokenCache := ∅; registered := [] |}.

(** The user and the verdict of a run. *)
Definition run_check (c : ClientAuthentication) : list User * outcome string bool :=
  let '(w, o) := AuthCheck demo_auth c demo_state in (registered w, o).

Lemma demo_cache_ok : cache_ok demo_state.
Proof. intros t pk H. simpl in H. by rewrite lookup_empty in H. Qed.

(** ** Theorems *)

(** C1. [Check] refines its specification: it accepts a connection exactly when
    it registers one user, that user is authorised for the connection, and a
    refused connection registers nobody; it never returns an error, keeps the key
    cache correct, and panics only on a nil remote address. *)
Theorem check_refines_spec {TL : TokenLib} {PF : Platform} a c w :
  cache_ok w →
  match AuthCheck a c w with
  | (w', Ok true) => cache_ok w' ∧ ∃ u, registered w' = u :: registered w ∧ authorised a c u
  | (w', Ok false) => cache_ok w' ∧ registered w' = registered w
  | (_, Err _) => False
  | (w', Panic _) => registered w' = registered w ∧ RemoteAddress c = None
  end.
Proof. apply check_outcome. Qed.

Lemma check_refines_spec_witness :
  cache_ok demo_state ∧
  match AuthCheck demo_auth (demo_conn "" "" "client") demo_state with
  | (w', Ok true) =>
      cache_ok w' ∧ ∃ u, registered w' = u :: registered demo_state ∧
                         authorised demo_auth (demo_conn "" "" "client") u
  | (w', Ok false) => cache_ok w' ∧ registered w' = registered demo_state
  | (_, Err _) => False
  | (w', Panic _) =>
      registered w' = registered demo_state ∧ RemoteAddress (demo_conn "" "" "client") = None
  end.
Proof. split; [exact demo_cache_ok|]. apply (check_refines_spec demo_auth), demo_cache_ok. Defined.

(** Only the configured system user with the configured password enters the
    system account, and only over verified TLS, over an in-process pipe, or with a
    valid client token that grants [system_user] or [org_admin] and whose private
    key signed the connection nonce. *)
Theorem system_account_guarded {TL : TokenLib} {PF : Platform} a c w u :
  cache_ok w →
  systemAccount a ≠ choriaAccount a → systemAccount a ≠ provisioningAccount a →
  (AuthCheck a c w).2 = Ok true → registered (AuthCheck a c w).1 = u :: registered w →
  Account u = systemAccount a →
  OptUsername (GetOpts c) = systemUser a ∧ OptPassword (GetOpts c) = systemPass a ∧
  systemPass a ≠ "" ∧ system_access a c.
Proof.
  intros Hw Hc Hp Hr Hu Ha. pose proof (check_outcome a c w Hw) as Ho.
  destruct (AuthCheck a c w) as [w' o]; simpl in Hr, Hu; subst o.
  destruct Ho as (_ & u' & Hu' & Haut). rewrite Hu in Hu'. simplify_eq.
  destruct (authorised_account _ _ _ Haut) as [?|[(_ & ?)|(? & _)]]; [congruence|done|congruence].
Qed.

Lemma system_account_guarded_witness :
  OptUsername (GetOpts (demo_conn "system" "sysp4ss" "client")) = systemUser demo_auth ∧
  OptPassword (GetOpts (demo_conn "system" "sysp4ss" "client")) = systemPass demo_auth ∧
  systemPass demo_auth ≠ "" ∧ system_access demo_auth (demo_conn "system" "sysp4ss" "client").
Proof.
  apply (system_account_guarded demo_auth (demo_conn "system" "sysp4ss" "client") demo_state
    (set_account (createUser demo_auth (demo_conn "system" "sysp4ss" "client")) (Some 2%positive)));
    [exact demo_cache_ok|by intros [=]|by intros [=]|by vm_compute|by vm_compute|reflexivity].
Defined.

(** The provisioning account is entered only by the provisioner user with the
    provisioning password and the access the mode asks for, or by a connection that
    presented a valid provisioning token, which then can use nothing but the
    provisioning subjects. *)
Theorem provisioning_account_guarded {TL : TokenLib} {PF : Platform} a c w u :
  cache_ok w →
  provisioningAccount a ≠ choriaAccount a → provisioningAccount a ≠ systemAccount a →
  (AuthCheck a c w).2 = Ok true → registered (AuthCheck a c w).1 = u :: registered w →
  Account u = provisioningAccount a →
  (OptUsername (GetOpts c) = provisioningUser ∧ OptPassword (GetOpts c) = provPass a ∧
     provPass a ≠ "" ∧ provisioner_access a c) ∨
  (u = setProvisioningServerPermissions (set_account (createUser a c) (provisioningAccount a)) ∧
     isTLS a = true ∧ OptToken (GetOpts c) ≠ "" ∧ unprovisioned_access a c).
Proof.
  intros Hw Hc Hp Hr Hu Ha. pose proof (check_outcome a c w Hw) as Ho.
  destruct (AuthCheck a c w) as [w' o]; simpl in Hr, Hu; subst o.
  destruct Ho as (_ & u' & Hu' & Haut). rewrite Hu in Hu'. simplify_eq.
  destruct (authorised_account _ _ _ Haut) as [?|[(? & _)|(_ & ?)]]; [congruence..|done].
Qed.

Lemma provisioning_account_guarded_witness :
  let c := demo_conn "" "" "prov" in
  let u := setProvisioningServerPermissions (set_account (createUser demo_auth c) (Some 3%positive)) in
  (OptUsername (GetOpts c) = provisioningUser ∧ OptPassword (GetOpts c) = provPass demo_auth ∧
     provPass demo_auth ≠ "" ∧ provisioner_access demo_auth c) ∨
  (u = setProvisioningServerPermissions
         (set_account (createUser demo_auth c) (provisioningAccount demo_auth)) ∧
     isTLS demo_auth = true ∧ OptToken (GetOpts c) ≠ "" ∧ unprovisioned_access demo_auth c).
Proof.
  intros c u. apply (provisioning_account_guarded demo_auth c demo_state u);
    [exact demo_cache_ok|by intros [=]|by intros [=]|by vm_compute|by vm_compute|reflexivity].
Defined.

(** A connection without a token, without a verified certificate and not over
    a pipe is refused, whatever its user name and password, except for a
    provisioner that may connect without a token. *)
Theorem unverified_is_refused {TL : TokenLib} {PF : Platform} a c w :
  cache_ok w → is_Some (RemoteAddress c) →
  OptToken (GetOpts c) = "" → ¬ tls_verified c → ¬ over_pipe c →
  (OptUsername (GetOpts c) = provisioningUser → provWithoutToken a = false) →
  ∃ w', AuthCheck a c w = (w', Ok false) ∧ registered w' = registered w.
Proof.
  intros Hw [r Hr] Ht Hv Hp Hn. pose proof (check_outcome a c w Hw) as Ho.
  destruct (AuthCheck a c w) as [w' [[]|e|p]]; [|naive_solver|done|naive_solver].
  exfalso. destruct Ho as (_ & u & _ & Haut).
  assert (¬ has_token c) as Hno by (by intros [? _]).
  inversion Haut as [????? Hs|???? Hs| | | | | | | ]; subst; try done; [| |naive_solver].
  - inversion Hs; naive_solver.
  - inversion Hs; naive_solver congruence.
Qed.

Lemma unverified_is_refused_witness :
  ∃ w', AuthCheck demo_auth (demo_conn "system" "sysp4ss" "") demo_state = (w', Ok false) ∧
        registered w' = [].
Proof.
  apply (unverified_is_refused demo_auth (demo_conn "system" "sysp4ss" "") demo_state);
    [apply demo_cache_ok|by eexists|done| |by intros|done].
  intros (t & Ht & Hv). simpl in Ht. simplify_eq/=. lia.
Defined.

(** Where [client_hosts] is configured, its contents make no difference: the
    address of a connection is never matched against the list, since by the time the
    list is consulted a caller is known only for clients that are already
    restricted. *)
Theorem client_hosts_never_consulted {TL : TokenLib} {PF : Platform} a l c w :
  l ≠ [] → clientAllowList a ≠ [] →
  AuthCheck (with_allow_list a l) c w = AuthCheck a c w.
Proof.
  intros Hl Ha. unfold AuthCheck.
  change (isSystemUser (with_allow_list a l) c) with (isSystemUser a c).
  change (isTLS (with_allow_list a l)) with (isTLS a).
  do 5 match goal with |- (if ?b then _ else _) w = _ => destruct b; [reflexivity|] end.
  unfold mbind, ST_bind, verdict, attempt, mbind, ST_bind.
  simpl. by rewrite default_allow_list.
Qed.

Lemma client_hosts_never_consulted_witness :
  AuthCheck (with_allow_list demo_auth ["198.51.100.0/24"]) (demo_conn "" "" "client") demo_state =
  AuthCheck demo_auth (demo_conn "" "" "client") demo_state.
Proof. by apply (client_hosts_never_consulted demo_auth ["198.51.100.0/24"]). Defined.

(** ** Subjects of clients and servers *)

Section Subjects.
Context `{PF : Platform}.
Variable a : ChoriaAuth.

(** [f] appends [subs] and [pubs]. *)
Definition appends (f : list string * list string → list string * list string)
    (subs pubs : list string) : Prop :=
  ∀ sp, f sp = (sp.1 ++ subs, sp.2 ++ pubs).

Lemma grant_pubs cond f subs pubs st s : appends f subs pubs →
  s ∈ (grant cond f st).2.2 ↔ s ∈ st.2.2 ∨ (cond = true ∧ s ∈ pubs).
Proof.
  intros Hf. unfold grant. destruct cond; simpl; [|naive_solver].
  rewrite Hf. simpl. rewrite elem_of_app. naive_solver.
Qed.

Lemma grant_subs cond f subs pubs st s : appends f subs pubs →
  s ∈ (grant cond f st).2.1 ↔ s ∈ st.2.1 ∨ (cond = true ∧ s ∈ subs).
Proof.
  intros Hf. unfold grant. destruct cond; simpl; [|naive_solver].
  rewrite Hf. simpl. rewrite elem_of_app. naive_solver.
Qed.

Definition in_choria (user : User) (l : list string) : list string :=
  if in_account user (choriaAccount a) then l else [].

Definition events_subs (user : User) : list string :=
  if in_account user (choriaAccount a) then
    ["choria.lifecycle.event.>"; "choria.machine.watcher.>"; "choria.machine.transition"]
  else if in_account user (provisioningAccount a) then
    ["choria.lifecycle.event.*.provision_mode_server"]
  else [].

Definition election_pubs (user : User) : list string :=
  if in_account user (choriaAccount a) then
    ["$JS.API.STREAM.INFO.KV_CHORIA_LEADER_ELECTION"; "$KV.CHORIA_LEADER_ELECTION.>"]
  else if in_account user (provisioningAccount a) then
    ["choria.streams.STREAM.INFO.KV_CHORIA_LEADER_ELECTION";
     "$KV.CHORIA_LEADER_ELECTION.provisioner"]
  else [].

Definition fleet_pubs : list string :=
  ["*.broadcast.agent.>"; "*.broadcast.service.>"; "*.node.>"; "choria.federation.*.federation"].

Lemma appends_all user org :
  appends (setStreamsAdminPermissions a user) (in_choria user ["$JS.EVENT.>"]) (in_choria user ["$JS.>"]) ∧
  appends (setStreamsUserPermissions a user org) (in_choria user [org +:+ ".republish.>"])
    (in_choria user streams_user_pubs) ∧
  appends (setEventsViewerPermissions a user) (events_subs user) [] ∧
  appends (setElectionPermissions a user) [] (election_pubs user) ∧
  appends (setClientGovernorPermissions a user) []
    (in_choria user ["*.governor.*"; "choria.lifecycle.event.governor.>"]) ∧
  appends setClientFleetManagementPermissions [] fleet_pubs.
Proof.
  unfold appends, setStreamsAdminPermissions, setStreamsUserPermissions, setEventsViewerPermissions,
    setElectionPermissions, setClientGovernorPermissions, setClientFleetManagementPermissions,
    in_choria, events_subs, election_pubs.
  split_and!; intros [x y]; repeat case_match; simpl in *;
    rewrite ?app_nil_r, <- ?app_assoc; try done; by destruct (in_account _ _).
Qed.

(** The publish subjects a client's claims grant, role by role. *)
Definition client_publishes (user : User) (cl : ClientIDClaims) (p : ClientPermissions) (s : string) : Prop :=
  s = "$SYS.REQ.USER.INFO" ∨ s ∈ ClientAddPub cl ∨
  (StreamsAdmin p = true ∧ s ∈ in_choria user ["$JS.>"]) ∨
  (StreamsUser p = true ∧ s ∈ in_choria user streams_user_pubs) ∨
  (ElectionUser p = true ∧ s ∈ election_pubs user) ∨
  (ClientGovernor p && (StreamsUser p || StreamsAdmin p) = true ∧
     s ∈ in_choria user ["*.governor.*"; "choria.lifecycle.event.governor.>"]) ∨
  (FleetManagement p || SignedFleetManagement p = true ∧ s ∈ fleet_pubs).

(** The subscribe subjects, role by role. *)
Definition client_subscribes (user : User) (caller : string) (cl : ClientIDClaims)
    (p : ClientPermissions) (s : string) : Prop :=
  s ∈ (setMinimalClientPermissions caller ([], [])).1 ∨ s ∈ ClientAddSub cl ∨
  (StreamsAdmin p = true ∧ s ∈ in_choria user ["$JS.EVENT.>"]) ∨
  (StreamsUser p = true ∧ s ∈ in_choria user [ClientOU cl +:+ ".republish.>"]) ∨
  (EventsViewer p = true ∧ s ∈ events_subs user).

Lemma client_perms_eq user caller cl p :
  ClientPerms cl = Some p → OrgAdmin p = false →
  ∃ st, st = grantPermissions a user (ClientOU cl) p
               ((setMinimalClientPermissions caller ([], [])).1 ++ ClientAddSub cl,
                "$SYS.REQ.USER.INFO" :: ClientAddPub cl) ∧
  cp_pubs (setClientTokenPermissions a user caller (Some cl)) = st.2.2 ∧
  cp_subs (setClientTokenPermissions a user caller (Some cl)) = st.2.1.
Proof.
  intros Hp Ho. eexists; split; [done|]. unfold setClientTokenPermissions. simpl.
  rewrite Hp. simpl. rewrite Ho.
  destruct (grantPermissions _ _ _ _ _) as [m [x y]]. simpl. by case_match.
Qed.
End Subjects.

(** C21. The publish and subscribe subjects of a client that is not an organization
    admin are exactly those of the roles its token carries: no role adds a subject
    another role should grant, and none is lost. *)
Theorem client_permissions_by_role {PF : Platform} a user caller cl p s :
  ClientPerms cl = Some p → OrgAdmin p = false →
  (s ∈ cp_pubs (setClientTokenPermissions a user caller (Some cl)) ↔ client_publishes a user cl p s) ∧
  (s ∈ cp_subs (setClientTokenPermissions a user caller (Some cl)) ↔
     client_subscribes a user caller cl p s).
Proof.
  intros Hp Ho. destruct (client_perms_eq a user caller cl p Hp Ho) as (st & -> & -> & ->).
  destruct (appends_all a user (ClientOU cl)) as (H1 & H2 & H3 & H4 & H5 & H6).
  unfold grantPermissions, client_publishes, client_subscribes. cbv zeta. split.
  - rewrite (grant_pubs _ _ _ _ _ _ H6), (grant_pubs _ _ _ _ _ _ H5), (grant_pubs _ _ _ _ _ _ H4),
      (grant_pubs _ _ _ _ _ _ H3), (grant_pubs _ _ _ _ _ _ H2), (grant_pubs _ _ _ _ _ _ H1).
    simpl. rewrite elem_of_cons, elem_of_nil. tauto.
  - rewrite (grant_subs _ _ _ _ _ _ H6), (grant_subs _ _ _ _ _ _ H5), (grant_subs _ _ _ _ _ _ H4),
      (grant_subs _ _ _ _ _ _ H3), (grant_subs _ _ _ _ _ _ H2), (grant_subs _ _ _ _ _ _ H1).
    simpl. rewrite elem_of_app, elem_of_nil. tauto.
Qed.

Lemma client_permissions_by_role_witness :
  let u := createUser demo_auth (demo_conn "" "" "client") in
  ("*.governor.*" ∈ cp_pubs (setClientTokenPermissions demo_auth u "choria=bob" (Some demo_client)) ↔
     client_publishes demo_auth u demo_client (demo_client_perms true false) "*.governor.*") ∧
  ("*.governor.*" ∈ cp_subs (setClientTokenPermissions demo_auth u "choria=bob" (Some demo_client)) ↔
     client_subscribes demo_auth u "choria=bob" demo_client (demo_client_perms true false) "*.governor.*").
Proof. intros u. by apply client_permissions_by_role. Defined.
