(* ===== verification/Regex.v ===== *)
(** * Regular expressions of package regexp

    The literal patterns of the modelled code are values of [re] and run by a
    backtracking matcher with the leftmost-first semantics package regexp
    documents; patterns that arrive as data go through the [Regexp] class. *)
From S2P Require Import Prelude GoLib.

(** Matching of a pattern that is only known at run time: [None] when it does
    not compile. *)
Class Regexp := {
  regexp_match : string → string → option bool;
}.

(** [match, _ := regexp.MatchString(pattern, s)] *)
Definition MatchString `{Regexp} (pattern s : string) : bool :=
  from_option id false (regexp_match pattern s).

Inductive re :=
| Eps
| Chr (f : ascii → bool)
| Seq (a b : re)
| Alt (a b : re)
| Star (greedy : bool) (a : re)
| Group (n : nat) (a : re)
| Bol
| Eol.

(** Submatches, the latest first. *)
Abbreviation captures := (list (nat * string)).
Abbreviation cont := (nat → string → captures → option captures).

Definition or_else {A} (x y : option A) : option A :=
  match x with Some _ => x | None => y end.

Section Matcher.

(** The iterations of a star: at most one per remaining byte, since an
    iteration that consumes nothing is refused. *)
Definition star_loop (greedy : bool) (m : nat → string → captures → cont → option captures)
    (k : cont) : nat → cont :=
  fix loop n p s c :=
    match n with
    | O => k p s c
    | S n' =>
        let more := m p s c (λ p' s' c', if Nat.eqb p' p then None else loop n' p' s' c') in
        if greedy then or_else more (k p s c) else or_else (k p s c) more
    end.

(** [mt r p s c k]: match [r] at offset [p], where [s] is left of the text. *)
Fixpoint mt (r : re) (p : nat) (s : string) (c : captures) (k : cont) {struct r} :
    option captures :=
  match r with
  | Eps => k p s c
  | Chr f =>
      match s with
      | String a s' => if f a then k (S p) s' c else None
      | EmptyString => None
      end
  | Seq a b => mt a p s c (λ p' s' c', mt b p' s' c' k)
  | Alt a b => or_else (mt a p s c k) (mt b p s c k)
  | Star g a => star_loop g (mt a) k (String.length s) p s c
  | Group n a => mt a p s c (λ p' s' c', k p' s' ((n, take_bytes (p' - p) s) :: c'))
  | Bol => if Nat.eqb p 0 then k p s c else None
  | Eol => match s with EmptyString => k p s c | _ => None end
  end.

Definition accept : cont := λ _ _ c, Some c.

(** The leftmost match, trying every offset in turn. *)
Fixpoint search_at (r : re) (p : nat) (s : string) : option captures :=
  or_else (mt r p s [] accept)
    match s with
    | EmptyString => None
    | String _ s' => search_at r (S p) s'
    end.
End Matcher.

Definition re_search (r : re) (s : string) : option captures := search_at r 0 s.
Definition re_match (r : re) (s : string) : bool := bool_decide (is_Some (re_search r s)).

(** [FindStringSubmatch(s)[n]]: [""] for a group that took no part. *)
Definition submatch (c : captures) (n : nat) : string :=
  match List.find (λ x, Nat.eqb x.1 n) c with Some (_, v) => v | None => "" end.

(** ** Patterns *)

Definition is_byte (c : ascii) : ascii → bool := Ascii.eqb c.
Definition chr (c : ascii) : re := Chr (is_byte c).

Fixpoint lit (s : string) : re :=
  match s with
  | EmptyString => Eps
  | String c EmptyString => chr c
  | String c s' => Seq (chr c) (lit s')
  end.

Definition newline : ascii := ascii_of_nat 10.
Definition tab : ascii := ascii_of_nat 9.

(** [.], [\w] and [\s] *)
Definition any_char : re := Chr (λ c, negb (Ascii.eqb c newline)).
Definition is_word (c : ascii) : bool :=
  let n := nat_of_ascii c in
  ((48 <=? n)%nat && (n <=? 57)%nat) || ((65 <=? n)%nat && (n <=? 90)%nat)
  || ((97 <=? n)%nat && (n <=? 122)%nat) || Nat.eqb n 95.
Definition word_char : re := Chr is_word.
Definition is_re_space (c : ascii) : bool :=
  existsb (Nat.eqb (nat_of_ascii c)) [9; 10; 12; 13; 32]%nat.
Definition space_char : re := Chr is_re_space.

Definition Plus (greedy : bool) (a : re) : re := Seq a (Star greedy a).
Definition Opt (a : re) : re := Alt a Eps.

Fixpoint alts (l : list re) : re :=
  match l with
  | [] => Chr (λ _, false)
  | [r] => r
  | r :: l' => Alt r (alts l')
  end.

Definition anchored (r : re) : re := Seq Bol (Seq r Eol).

(** ** Lemmas *)

Lemma is_byte_false c a : c ≠ a → is_byte c a = false.
Proof. apply Ascii.eqb_neq. Qed.

Lemma is_byte_refl c : is_byte c c = true.
Proof. apply Ascii.eqb_refl. Qed.

Lemma re_search_bol r s : re_search (Seq Bol r) s = mt r 0 s [] accept.
Proof.
  unfold re_search. destruct s as [|a s]; simpl.
  - by destruct (mt r 0 "" [] accept).
  - assert (∀ s p, search_at (Seq Bol r) (S p) s = None) as Hn.
    { intros t. induction t as [|b t IH]; intros p; [done|]. simpl. apply IH. }
    rewrite Hn. by destruct (mt r 0 _ [] accept).
Qed.

Lemma re_match_search r s : re_match r s = true ↔ is_Some (re_search r s).
Proof. unfold re_match. apply bool_decide_eq_true. Qed.

(** The equations of the matcher. *)
Lemma mt_seq a b p s c k : mt (Seq a b) p s c k = mt a p s c (λ p' s' c', mt b p' s' c' k).
Proof. done. Qed.

Lemma mt_star g a p s c k :
  mt (Star g a) p s c k = star_loop g (mt a) k (String.length s) p s c.
Proof. done. Qed.

Lemma mt_group n a p s c k :
  mt (Group n a) p s c k = mt a p s c (λ p' s' c', k p' s' ((n, take_bytes (p' - p) s) :: c')).
Proof. done. Qed.

Lemma star_loop_S g m k n p s c :
  star_loop g m k (S n) p s c =
  let more := m p s c (λ p' s' c', if Nat.eqb p' p then None else star_loop g m k n p' s' c') in
  if g then or_else more (k p s c) else or_else (k p s c) more.
Proof. done. Qed.

Lemma mt_chr_eq a p s c k : mt (chr a) p (String a s) c k = k (S p) s c.
Proof. unfold chr. cbn [mt]. by rewrite is_byte_refl. Qed.

Lemma mt_chr_ne a b p s c k : a ≠ b → mt (chr a) p (String b s) c k = None.
Proof. intros Hab. unfold chr. cbn [mt]. by rewrite is_byte_false. Qed.

Lemma mt_any a p s c k : a ≠ newline → mt any_char p (String a s) c k = k (S p) s c.
Proof.
  intros Ha. unfold any_char. cbn [mt]. by rewrite (proj2 (Ascii.eqb_neq a newline)).
Qed.
