(* ===== verification/Files.v ===== *)
(** * Files and line scanners

    The files the modelled code reads (package os), bufio.Scanner with its
    default split function and limit, and sort.Strings. *)
From S2P Require Import Prelude GoLib.

(** A path that exists: its content, or [None] when it cannot be read. *)
Abbreviation filesystem := (gmap string (option string)).

(** [util.FileExist] *)
Definition FileExistIn (fs : filesystem) (path : string) : bool :=
  if String.eqb path "" then false else bool_decide (is_Some (fs !! path)).

(** [os.Open] and reading. *)
Definition os_Open (fs : filesystem) (path : string) : res string :=
  match fs !! path with
  | Some (Some content) => Ok content
  | Some None => Err ("open " +:+ path +:+ ": permission denied")
  | None => Err ("open " +:+ path +:+ ": no such file or directory")
  end.

(** ** bufio.Scanner *)

Definition ErrTooLong : string := "bufio.Scanner: token too long".

Definition newline_char : ascii := ascii_of_nat 10.
Definition cr_char : ascii := ascii_of_nat 13.

Definition drop_cr (s : string) : string := trim_suffix s (String cr_char "").

(** The lines of [s] without their terminators; no line after a final one. *)
Definition raw_lines (s : string) : list string :=
  let l := split s newline_char in
  if String.eqb (List.last l "") "" then removelast l else l.

Definition too_long (line : string) : bool :=
  (65536 <=? Z.of_nat (String.length line))%Z.

(** The lines [Scan] yields before it stops, and [scanner.Err()]: a line that
    does not fit the buffer ends the scan with an error. *)
Fixpoint scan_tokens (l : list string) : list string * option string :=
  match l with
  | [] => ([], None)
  | x :: l' =>
      if too_long x then ([], Some ErrTooLong)
      else let '(ts, e) := scan_tokens l' in (drop_cr x :: ts, e)
  end.

Definition scan_lines (s : string) : list string * option string := scan_tokens (raw_lines s).

(** ** sort.Strings *)

Fixpoint insert_sorted (x : string) (l : list string) : list string :=
  match l with
  | [] => [x]
  | y :: l' => if str_leb x y then x :: l else y :: insert_sorted x l'
  end.

Definition sort_strings (l : list string) : list string := foldr insert_sorted [] l.

Lemma insert_sorted_elem x y l : x ∈ insert_sorted y l ↔ x = y ∨ x ∈ l.
Proof.
  induction l as [|z l IH]; simpl; [set_solver|]. case_match; set_solver.
Qed.

Lemma sort_strings_elem x l : x ∈ sort_strings l ↔ x ∈ l.
Proof.
  induction l as [|y l IH]; simpl; [done|]. rewrite insert_sorted_elem. set_solver.
Qed.

Lemma insert_sorted_perm x l : Permutation (insert_sorted x l) (x :: l).
Proof.
  induction l as [|y l IH]; simpl; [done|]. case_match; [done|]. rewrite IH. apply perm_swap.
Qed.

Lemma sort_strings_perm l : Permutation (sort_strings l) l.
Proof. induction l as [|x l IH]; simpl; [done|]. by rewrite insert_sorted_perm, IH. Qed.
