(* ===== verification/Util.v ===== *)
(** * Shared utilities

    The string, list, time and boolean helpers of internal/util/util.go that
    the other components call.  Callbacks are modelled by the list of the
    arguments they are called with. *)
From S2P Require Import Prelude GoLib Regex Files.

Definition GovernorSubject (name collective : string) : string :=
  collective +:+ ".governor." +:+ name.

(** [MatchAnyRegex] *)
Definition MatchAnyRegex `{RX : Regexp} (str : string) (regex : list string) : bool :=
  existsb (λ reg, MatchString reg str) regex.

Definition StringInList (l : list string) (m : string) : bool := existsb (λ i, String.eqb i m) l.

Definition HasPrefix (s : string) (prefixes : list string) : bool :=
  existsb (λ p, has_prefix s p) prefixes.

(** [util.StrToBool]; the anchored alternations are lists of words. *)
Definition StrToBool (s : string) : res bool :=
  let clean := trim_space s in
  if elem (to_lower clean) ["1"; "yes"; "true"; "y"; "t"] then Ok true
  else if elem (to_lower clean) ["0"; "no"; "false"; "n"; "f"] then Ok false
  else Err ("cannot convert string value '" +:+ clean +:+ "' into a boolean").

(** [header.Get] of the five republish headers. *)
Definition republish_headers : list string :=
  ["Nats-Stream"; "Nats-Subject"; "Nats-Sequence"; "Nats-Time-Stamp"; "Nats-Last-Sequence"].

Definition IsNATSRepublishHeaders (header : option (string → string)) : bool :=
  match header with
  | None => false
  | Some get => forallb (λ h, negb (String.eqb (get h) "")) republish_headers
  end.

(** ** Lists of strings *)

(** The early return of the code: the cap is returned once exceeded. *)
Fixpoint longest_loop (l : list string) (max longest : Z) : Z :=
  match l with
  | [] => longest
  | i :: rest =>
      let n := Z.of_nat (String.length i) in
      let longest := if (longest <? n)%Z then n else longest in
      if negb (max =? 0)%Z && (max <? longest)%Z then max else longest_loop rest max longest
  end.

Definition LongestString (l : list string) (max : Z) : Z := longest_loop l max 0.

(** [keys] is the set of the strings seen so far. *)
Fixpoint unique_loop (items : list string) (keys : gset string) : list string :=
  match items with
  | [] => []
  | i :: rest =>
      if bool_decide (i ∈ keys) then unique_loop rest keys
      else i :: unique_loop rest ({[i]} ∪ keys)
  end.

Definition UniqueStrings (items : list string) (shouldSort : bool) : list string :=
  let result := unique_loop items ∅ in
  if shouldSort then sort_strings result else result.

(** The padding both group functions append: one element more than missing. *)
Definition group_padding (input : list string) (size : Z) : list string :=
  let padding := (size - Z.rem (Z.of_nat (length input)) size)%Z in
  if (padding =? size)%Z then input else input ++ replicate (Z.to_nat (padding + 1)) "".

Definition group_count (input : list string) (size : Z) : nat :=
  Z.to_nat (Z.quot (Z.of_nat (length input)) size).

Definition SliceGroups (input : list string) (size : Z) : res (list (list string)) :=
  if (size =? 0)%Z then Panic "integer divide by zero"
  else
    let input := group_padding input size in
    let n := Z.to_nat size in
    Ok (map (λ i, take n (drop (i * n) input)) (seq 0 (group_count input size))).

Definition SliceVerticalGroups (input : list string) (size : Z) : res (list (list string)) :=
  if (size =? 0)%Z then Panic "integer divide by zero"
  else
    let input := group_padding input size in
    let count := group_count input size in
    Ok (map (λ i, map (λ s, List.nth (i + s * count) input "") (seq 0 (Z.to_nat size)))
          (seq 0 count)).

(** [fmt.Sprintf] with a width: at least one blank. *)
Definition ParagraphPadding (paragraph : string) (padding : nat) : string :=
  let ps := String.string_of_list_ascii (replicate (max 1 padding) " "%char) in
  join (map (λ p, ps +:+ p) (split paragraph newline_char)) (String newline_char "").

(** ** Durations in nanoseconds *)

Definition Second : Z := 1000000000.
Definition Minute : Z := 60 * Second.
Definition Hour : Z := 60 * Minute.

(** Floats and the duration syntax of package time. *)
Class TimeLib := {
  float32 : Type;
  ParseFloat32 : string → option float32;
  (** [time.Duration(val*h)] *)
  f32_hours : float32 → Z → Z;
  time_ParseDuration : string → option Z;
  Sprintf_2f_seconds : Z → string;
}.

Section Durations.
Context `{TimeLib}.

Definition parse_hours (number : string) (hours : Z) : res Z :=
  match ParseFloat32 number with
  | None => Err ("strconv.ParseFloat: parsing " +:+ number)
  | Some val => Ok (wrap64 (f32_hours val hours * Hour))
  end.

Definition ParseDuration (dstr : string) : res Z :=
  let dstr := trim_space dstr in
  if Nat.eqb (String.length dstr) 0 then Ok 0%Z
  else
    let di := (String.length dstr - 1)%nat in
    let unit := drop_bytes di dstr in
    let number := take_bytes di dstr in
    if elem unit ["w"; "W"] then parse_hours number (7 * 24)
    else if elem unit ["d"; "D"] then parse_hours number 24
    else if elem unit ["M"] then parse_hours number (24 * 30)
    else if elem unit ["Y"; "y"] then parse_hours number (24 * 365)
    else if elem unit ["s"; "S"; "m"; "h"; "H"] then
      match time_ParseDuration dstr with
      | None => Err ("time: invalid duration " +:+ dstr)
      | Some d => Ok d
      end
    else Err ("invalid time unit " +:+ unit).

Definition RenderDuration (d : Z) : string :=
  if (d =? int64_max)%Z then "never"
  else if (d =? 0)%Z then "forever"
  else
    let tsecs := Z.quot d Second in
    let tmins := Z.quot tsecs 60 in
    let thrs := Z.quot tmins 60 in
    let tdays := Z.quot thrs 24 in
    let tyrs := Z.quot tdays 365 in
    let ms := itoa (Z.rem tmins 60) +:+ "m" +:+ itoa (Z.rem tsecs 60) +:+ "s" in
    if (0 <? tyrs)%Z then
      itoa tyrs +:+ "y" +:+ itoa (Z.rem tdays 365) +:+ "d" +:+ itoa (Z.rem thrs 24) +:+ "h" +:+ ms
    else if (0 <? tdays)%Z then itoa tdays +:+ "d" +:+ itoa (Z.rem thrs 24) +:+ "h" +:+ ms
    else if (0 <? thrs)%Z then itoa thrs +:+ "h" +:+ ms
    else if (0 <? tmins)%Z then itoa tmins +:+ "m" +:+ itoa (Z.rem tsecs 60) +:+ "s"
    else Sprintf_2f_seconds d +:+ "s".

End Durations.

(** ** Lemmas *)

Lemma unique_loop_spec items keys x :
  x ∈ unique_loop items keys ↔ x ∈ items ∧ x ∉ keys.
Proof.
  revert keys. induction items as [|i items IH]; intros keys; simpl; [set_solver|].
  case_bool_decide; [|rewrite elem_of_cons]; rewrite IH.
  - set_solver.
  - destruct (decide (x = i)); set_solver.
Qed.

Lemma unique_loop_NoDup items keys : NoDup (unique_loop items keys).
Proof.
  revert keys. induction items as [|i items IH]; intros keys; simpl; [constructor|].
  case_bool_decide; [done|]. constructor; [|done]. rewrite unique_loop_spec. set_solver.
Qed.

Lemma StringInList_true l m : StringInList l m = true ↔ m ∈ l.
Proof.
  unfold StringInList. rewrite existsb_elem_of. setoid_rewrite String.eqb_eq. naive_solver.
Qed.

(** [tail] of the groups: what is cut into [k] pieces of [n] elements. *)
Lemma concat_chunks {A} (l : list A) n k : (k * n ≤ length l)%nat →
  concat (map (λ i, take n (drop (i * n) l)) (seq 0 k)) = take (k * n) l.
Proof.
  induction k as [|k IH]; intros Hk; [done|].
  rewrite seq_S, map_app, concat_app, IH by lia. simpl.
  rewrite app_nil_r, take_take_drop. f_equal. lia.
Qed.

(** How [group_padding] completes the last group. *)
Lemma group_padding_spec input size : (0 < size)%Z →
  ∃ pad extra, (pad < Z.to_nat size)%nat ∧
    group_padding input size = (input ++ replicate pad "") ++ replicate extra "" ∧
    length (input ++ replicate pad "") =
      (group_count (group_padding input size) size * Z.to_nat size)%nat.
Proof.
  intros Hs. set (n := Z.of_nat (length input)).
  pose proof (Z.rem_bound_pos n size ltac:(lia) Hs) as Hr.
  pose proof (Z.quot_rem' n size) as Hd.
  pose proof (Z.quot_pos n size ltac:(lia) Hs) as Hq.
  unfold group_padding, group_count. fold n. destruct (Z.eqb_spec (size - Z.rem n size) size) as [Hp|Hp].
  - exists 0%nat, 0%nat. split_and!; [lia|by rewrite !app_nil_r|]. simpl. rewrite app_nil_r. fold n. nia.
  - exists (Z.to_nat (size - Z.rem n size)), 1%nat. split_and!; [lia| |].
    + rewrite <- app_assoc, <- replicate_add. do 2 f_equal. lia.
    + rewrite !length_app, !length_replicate.
      replace (Z.of_nat (length input + Z.to_nat (size - Z.rem n size + 1)))
        with ((Z.quot n size + 1) * size + 1)%Z by lia.
      rewrite Z.add_comm, Z.quot_add by lia. rewrite (Z.quot_small 1 size) by lia. nia.
Qed.

Lemma SliceGroups_spec input size : (0 < size)%Z →
  ∃ groups pad, SliceGroups input size = Ok groups ∧
    concat groups = input ++ replicate pad "" ∧ (pad < Z.to_nat size)%nat ∧
    Forall (λ g, length g = Z.to_nat size) groups.
Proof.
  intros Hs. destruct (group_padding_spec input size Hs) as (pad & extra & Hpad & Heq & Hlen).
  unfold SliceGroups. rewrite (proj2 (Z.eqb_neq size 0)) by lia. eexists _, pad; split; [done|].
  set (l := group_padding input size) in *. set (k := group_count l size) in *.
  assert (k * Z.to_nat size ≤ length l)%nat as Hle by (rewrite Heq, length_app; lia).
  split_and!; [|done|].
  - rewrite concat_chunks by done. rewrite Heq, <- Hlen. by rewrite take_app_length.
  - apply Forall_forall. intros g Hg. apply list_elem_of_In, in_map_iff in Hg as (i & <- & Hi).
    apply in_seq in Hi. rewrite length_take, length_drop. nia.
Qed.

(** [SliceGroups] cuts its input into groups of the requested size that
    together are the input, with less than one group of empty strings added. *)
Theorem slice_groups_partition input size : (0 < size)%Z →
  ∃ groups pad, SliceGroups input size = Ok groups ∧
    concat groups = input ++ replicate pad "" ∧ (pad < Z.to_nat size)%nat ∧
    Forall (λ g, length g = Z.to_nat size) groups.
Proof. apply SliceGroups_spec. Qed.

Lemma slice_groups_partition_witness :
  ∃ groups pad, SliceGroups ["a"; "b"; "c"; "d"; "e"] 3 = Ok groups ∧
    concat groups = ["a"; "b"; "c"; "d"; "e"] ++ replicate pad "" ∧ (pad < Z.to_nat 3)%nat ∧
    Forall (λ g, length g = Z.to_nat 3) groups.
Proof. apply slice_groups_partition. lia. Defined.
