(* ===== verification/GoNum.v ===== *)
(** * Addresses of package net

    [net.ParseIP] and [IP.To4], on the eight 16 bit groups of an address; an IPv4
    address is the last two groups of the address it is mapped to. *)
From S2P Require Import Prelude GoLib.

Definition dot_char : ascii := ".".
Definition colon_char : ascii := ":".
Definition percent_char : ascii := "%".

(** Digits without a leading zero, at most 255. *)
Definition parse_octet (s : string) : option Z :=
  match s with
  | EmptyString => None
  | String c rest =>
      if Ascii.eqb c "0" && negb (String.eqb rest "") then None
      else match digits_val 0 s with
           | Some v => if (v <=? 255)%Z then Some v else None
           | None => None
           end
  end.

Definition parse_ipv4 (s : string) : option (list Z) :=
  match split s dot_char with
  | [a; b; c; d] =>
      match parse_octet a, parse_octet b, parse_octet c, parse_octet d with
      | Some a, Some b, Some c, Some d => Some [a * 256 + b; c * 256 + d]%Z
      | _, _, _, _ => None
      end
  | _ => None
  end.

(** The hexadecimal digits a string starts with: their number, value and what follows. *)
Fixpoint hex_run (n : nat) (acc : Z) (s : string) : nat * Z * string :=
  match s with
  | EmptyString => (n, acc, s)
  | String c rest =>
      match hex_digit c with
      | Some d => hex_run (S n) (acc * 16 + Z.of_N d) rest
      | None => (n, acc, s)
      end
  end.

(** The groups before and after an ellipsis, its place, and what is left. *)
Fixpoint v6_groups (room : nat) (s : string) (acc : list Z) (ellipsis : option nat) :
    option (list Z * option nat * string) :=
  match room with
  | O => Some (acc, ellipsis, s)
  | S room =>
      let '(off, v, rest) := hex_run 0 0 s in
      if Nat.eqb off 0 || Nat.ltb 4 off then None
      else
        match rest with
        | EmptyString => Some (acc ++ [v], ellipsis, "")
        | String c rest =>
            if Ascii.eqb c dot_char then
              if (match ellipsis with None => negb (Nat.eqb (length acc) 6) | Some _ => false end)
                 || Nat.ltb 6 (length acc) then None
              else match parse_ipv4 s with
                   | Some v4 => Some (acc ++ v4, ellipsis, "")
                   | None => None
                   end
            else if negb (Ascii.eqb c colon_char) then None
            else
              match rest with
              | EmptyString => None
              | String c' rest' =>
                  if Ascii.eqb c' colon_char then
                    match ellipsis with
                    | Some _ => None
                    | None =>
                        let acc := acc ++ [v] in
                        if String.eqb rest' "" then Some (acc, Some (length acc), "")
                        else v6_groups room rest' acc (Some (length acc))
                    end
                  else v6_groups room rest (acc ++ [v]) ellipsis
              end
        end
  end.

Definition expand_groups (acc : list Z) (ellipsis : option nat) : option (list Z) :=
  match ellipsis with
  | None => if Nat.eqb (length acc) 8 then Some acc else None
  | Some e =>
      if Nat.ltb (length acc) 8 then Some (take e acc ++ replicate (8 - length acc) 0%Z ++ drop e acc) else None
  end.

Definition parse_ipv6 (s : string) : option (list Z) :=
  let '(s', ellipsis) := if has_prefix s "::" then (drop_bytes 2 s, Some 0) else (s, None) in
  if match ellipsis with Some _ => String.eqb s' "" | None => false end then Some (replicate 8 0%Z)
  else
    match v6_groups 8 s' [] ellipsis with
    | Some (acc, ellipsis, "") => expand_groups acc ellipsis
    | _ => None
    end.

(** The first of [.], [:] and [%] decides; an address with a zone is none. *)
Fixpoint first_separator (s : string) : option ascii :=
  match s with
  | EmptyString => None
  | String c rest =>
      if Ascii.eqb c dot_char || Ascii.eqb c colon_char || Ascii.eqb c percent_char then Some c
      else first_separator rest
  end.

Definition ParseIP (s : string) : option (list Z) :=
  match first_separator s with
  | None => None
  | Some c =>
      if Ascii.eqb c dot_char
      then match parse_ipv4 s with Some v4 => Some ([0; 0; 0; 0; 0; 65535]%Z ++ v4) | None => None end
      else if Ascii.eqb c percent_char || str_contains s "%" then None
      else parse_ipv6 s
  end.

Definition To4 (ip : list Z) : option (list Z) :=
  if bool_decide (take 6 ip = [0; 0; 0; 0; 0; 65535]%Z) then Some (drop 6 ip) else None.

Example ip1 : ParseIP "1.2.3.4" = Some [0; 0; 0; 0; 0; 65535; 258; 772]%Z.
Proof. reflexivity. Qed.
Example ip2 : ParseIP "2a00:1450:4003:807::200e" = Some [0x2a00; 0x1450; 0x4003; 0x807; 0; 0; 0; 0x200e]%Z.
Proof. reflexivity. Qed.
Example ip3 : map ParseIP ["::"; "1::"; "::1"; "::ffff:1.2.3.4"; "1:2:3:4:5:6:7:8"] =
  [Some [0;0;0;0;0;0;0;0]; Some [1;0;0;0;0;0;0;0]; Some [0;0;0;0;0;0;0;1]; Some [0;0;0;0;0;65535;258;772];
   Some [1;2;3;4;5;6;7;8]]%Z.
Proof. reflexivity. Qed.
Example ip4 : map ParseIP [""; "1"; "1.2.3"; "1.2.3.04"; "256.1.1.1"; "1.2.3.4.5"; "1..2.3"; "1:2"; "1::2::3";
    "1:2:3:4:5:6:7:8:9"; "1:2:3:4:5:6:7::8"; "fe80::1%eth0"; ":1"; "12345::"; "1.2.3.4::"; "::1.2.3.4.5"] =
  [None; None; None; None; None; None; None; None; None; None; None; None; None; None; None; None].
Proof. reflexivity. Qed.

(** * Floating point numbers and durations

    [float64] is IEEE 754 binary64, executable with the Standard Library's
    [SpecFloat]; [time.Duration] is a number of nanoseconds. *)
From S2P Require Import Util.
From Stdlib Require Import Floats.SpecFloat.

Abbreviation float64 := spec_float.

Definition f64_prec : Z := 53.
Definition f64_emax : Z := 1024.

(** [float64(z)] *)
Definition f64_of_Z (z : Z) : float64 := binary_normalize f64_prec f64_emax z 0 false.
Definition f64_add : float64 → float64 → float64 := SFadd f64_prec f64_emax.
Definition f64_sub : float64 → float64 → float64 := SFsub f64_prec f64_emax.
Definition f64_mul : float64 → float64 → float64 := SFmul f64_prec f64_emax.
Definition f64_div : float64 → float64 → float64 := SFdiv f64_prec f64_emax.
Definition f64_eqb : float64 → float64 → bool := SFeqb.
Definition f64_ltb : float64 → float64 → bool := SFltb.

(** [int64(f)] truncates towards zero; out of range and not a number it is the
    smallest integer, what amd64 answers. *)
Definition f64_trunc (f : float64) : Z :=
  match f with
  | S754_finite s m e =>
      let a := if (0 <=? e)%Z then (Z.pos m * 2 ^ e)%Z else (Z.pos m / 2 ^ (- e))%Z in
      let z := if s then (- a)%Z else a in
      if (int64_min <=? z)%Z && (z <=? int64_max)%Z then z else int64_min
  | S754_zero _ => 0%Z
  | _ => int64_min
  end.

(** [Duration.Seconds] *)
Definition Seconds (d : Z) : float64 :=
  f64_add (f64_of_Z (Z.quot d Second))
          (f64_div (f64_of_Z (Z.rem d Second)) (f64_of_Z 1000000000)).

(** ** Decimal literals *)

Fixpoint scan_digits (m : Z) (n : nat) (s : string) : Z * nat * string :=
  match s with
  | String c r =>
      match digit_val c with
      | Some d => scan_digits (10 * m + d) (S n) r
      | None => (m, n, s)
      end
  | EmptyString => (m, n, s)
  end.

(** [m * 10^-k], rounded once: 64 bits of the quotient, then whether any follow. *)
Definition decimal_round (neg : bool) (m : Z) (k : nat) : float64 :=
  if (m =? 0)%Z then S754_zero neg
  else
    let p := (10 ^ Z.of_nat k)%Z in
    let s := (64 + Z.log2 p)%Z in
    let n := (m * 2 ^ s)%Z in
    let q := (2 * (n / p) + if (n mod p =? 0)%Z then 0 else 1)%Z in
    binary_normalize f64_prec f64_emax (if neg then (- q)%Z else q) (- (s + 1)) neg.

(** [strconv.ParseFloat(s, 64)] of a literal without an exponent; out of range is an
    error. *)
Definition ParseDecimal (s : string) : option float64 :=
  let '(neg, s) := match s with
                   | String c r => if Ascii.eqb c "-" then (true, r) else if Ascii.eqb c "+" then (false, r) else (false, s)
                   | _ => (false, s)
                   end in
  let '(m, n, rest) := scan_digits 0 0 s in
  let '(m, k, rest) := match rest with
                       | String c r => if Ascii.eqb c "." then scan_digits m 0 r else (m, O, rest)
                       | _ => (m, O, rest)
                       end in
  if negb (String.eqb rest "") || Nat.eqb (n + k) 0 then None
  else match decimal_round neg m k with
       | S754_infinity _ => None
       | f => Some f
       end.

Example decimal_tenth : ParseDecimal "0.1" = Some (f64_div (f64_of_Z 1) (f64_of_Z 10)).
Proof. vm_compute. reflexivity. Qed.
Example decimal_negative : ParseDecimal "-2.50" = Some (f64_div (f64_of_Z (-5)) (f64_of_Z 2)).
Proof. vm_compute. reflexivity. Qed.
Example decimal_refused : (ParseDecimal "1.2.3", ParseDecimal "*", ParseDecimal "") = (None, None, None).
Proof. vm_compute. reflexivity. Qed.

(** * Unsigned integers of package strconv

    [strconv.ParseUint] in base ten and in the base a prefix names. *)

(** The value of a digit in any base up to 36. *)
Definition base_digit (c : ascii) : option Z :=
  let n := Z.of_nat (nat_of_ascii c) in
  if (48 <=? n)%Z && (n <=? 57)%Z then Some (n - 48)%Z
  else if (97 <=? n)%Z && (n <=? 122)%Z then Some (n - 87)%Z
  else if (65 <=? n)%Z && (n <=? 90)%Z then Some (n - 55)%Z
  else None.

Inductive num_error := ErrSyntax | ErrRange.

(** The digits of [s] in [base]; in base 0 underscores are skipped here. *)
Fixpoint digits_in (base : Z) (base0 : bool) (max acc : Z) (s : string) : outcome num_error Z :=
  match s with
  | EmptyString => Ok acc
  | String c r =>
      if base0 && Ascii.eqb c "_" then digits_in base base0 max acc r
      else
        match base_digit c with
        | None => Err ErrSyntax
        | Some d =>
            if (base <=? d)%Z then Err ErrSyntax
            else
              let n := (acc * base + d)%Z in
              if (max <? n)%Z then Err ErrRange else digits_in base base0 max n r
        end
  end.

(** What the last character was, for the placement of underscores. *)
Inductive underscore_seen := SeenStart | SeenDigit | SeenUnderscore | SeenOther.

Fixpoint underscores_go (hex : bool) (last : underscore_seen) (s : string) : bool :=
  match s with
  | EmptyString => match last with SeenUnderscore => false | _ => true end
  | String c r =>
      let digit := match base_digit c with
                   | Some d => (d <? 10)%Z || hex && (d <? 16)%Z
                   | None => false
                   end in
      if digit then underscores_go hex SeenDigit r
      else if Ascii.eqb c "_" then
        match last with SeenDigit => underscores_go hex SeenUnderscore r | _ => false end
      else match last with SeenUnderscore => false | _ => underscores_go hex SeenOther r end
  end.

Definition lower_is (c : ascii) (x : ascii) : bool := Ascii.eqb (ascii_lower c) x.

Definition underscoreOK (s : string) : bool :=
  match s with
  | String z (String b r) =>
      if Ascii.eqb z "0" && (lower_is b "b" || lower_is b "o" || lower_is b "x")
      then underscores_go (lower_is b "x") SeenDigit r
      else underscores_go false SeenStart s
  | _ => underscores_go false SeenStart s
  end.

(** The base a prefix names, and what follows it. *)
Definition base_prefix (s : string) : Z * string :=
  match s with
  | String z r =>
      if Ascii.eqb z "0" then
        match r with
        | String b (String c r') =>
            if lower_is b "b" then (2, String c r')%Z
            else if lower_is b "o" then (8, String c r')%Z
            else if lower_is b "x" then (16, String c r')%Z
            else (8, r)%Z
        | _ => (8, r)%Z
        end
      else (10, s)%Z
  | EmptyString => (10, s)%Z
  end.

(** [strconv.ParseUint(s, base, bits)] for bases 0 and 10. *)
Definition ParseUint (s : string) (base bits : Z) : outcome num_error Z :=
  if String.eqb s "" then Err ErrSyntax
  else
    let max := (2 ^ bits - 1)%Z in
    if (base =? 0)%Z then
      let '(b, digits) := base_prefix s in
      match digits_in b true max 0 digits with
      | Ok n => if str_contains s "_" && negb (underscoreOK s) then Err ErrSyntax else Ok n
      | o => o
      end
    else digits_in base false max 0 s.

Example parse_modes :
  map (λ s, ParseUint s 0 32) ["0755"; "755"; "0x1F"; "0b101"; "0o17"; "0"; "1_000"; "_1"; "0899"; ""; "4294967296"] =
  [Ok 493; Ok 755; Ok 31; Ok 5; Ok 15; Ok 0; Ok 1000; Err ErrSyntax; Err ErrSyntax; Err ErrSyntax; Err ErrRange]%Z.
Proof. vm_compute. reflexivity. Qed.
