(* ===== verification/Validator.v ===== *)
(** * Validators

    validator/: the single validators, one Module per package, and the validation of
    structures by their tags (validator.go).  [reflect] values become [field_value]. *)
From S2P Require Import Prelude GoLib GoNum Regex Util.

(** What is wrong with a value; no message when it is valid. *)
Module shellsafe.

Definition badchars : list string := ["`"; "$"; ";"; "|"; "&&"; ">"; "<"].

Fixpoint check (l : list string) (input : string) : res () :=
  match l with
  | [] => Ok tt
  | c :: rest =>
      if str_contains input c then Err ("may not contain '" +:+ c +:+ "'") else check rest input
  end.

Definition Validate (input : string) : res () := check badchars input.

End shellsafe.

Module ipaddress.

Definition ValidateString (input : string) : res () :=
  match ParseIP input with
  | None => Err (input +:+ " is not an IP address")
  | Some _ => Ok tt
  end.

End ipaddress.

Module ipv4.

Definition ValidateString (input : string) : res () :=
  match ParseIP input ≫= To4 with
  | None => Err (input +:+ " is not an IPv4 address")
  | Some _ => Ok tt
  end.

End ipv4.

Module ipv6.

Definition ValidateString (input : string) : res () :=
  match ParseIP input with
  | None => Err (input +:+ " is not an IPv6 address")
  | Some ip =>
      match To4 ip with
      | Some _ => Err (input +:+ " is not an IPv6 address")
      | None => Ok tt
      end
  end.

End ipv6.

Module duration.

Definition ValidateString `{TimeLib} (input : string) : res () :=
  match time_ParseDuration input with
  | None => Err ("time: invalid duration " +:+ input)
  | Some _ => Ok tt
  end.

End duration.

Module maxlength.

Definition ValidateString (input : string) (max : Z) : res () :=
  let l := Z.of_nat (String.length input) in
  if (max <? l)%Z then Err (itoa l +:+ " characters, max allowed " +:+ itoa max) else Ok tt.

End maxlength.

Module regex.

Definition ValidateString `{Regexp} (input regex : string) : res () :=
  match regexp_match regex input with
  | None => Err ("invalid regex '" +:+ regex +:+ "'")
  | Some false => Err ("input does not match '" +:+ regex +:+ "'")
  | Some true => Ok tt
  end.

End regex.

Module enum.

Definition not_allowed (target : string) (valid : list string) : string :=
  "'" +:+ target +:+ "' is not in the allowed list: " +:+ join valid ", ".

Definition ValidateString (target : string) (valid : list string) : res () :=
  if existsb (λ e, String.eqb e target) valid then Ok tt else Err (not_allowed target valid).

Fixpoint ValidateSlice (target valid : list string) : res () :=
  match target with
  | [] => Ok tt
  | item :: rest =>
      if is_ok (ValidateString item valid) then ValidateSlice rest valid else Err (not_allowed item valid)
  end.

End enum.

(** ** Structures *)

(** A string, a slice of strings, a slice of other values by its length, a structure, or
    a value of another kind. *)
Inductive field_value :=
| FString (s : string)
| FStrings (l : list string)
| FSlice (n : nat)
| FStruct (fields : list field)
| FKind (kind : string)
(** Name, [validate] tag and value. *)
with field := Field (name tag : string) (v : field_value).

Definition field_name (f : field) : string := let 'Field n _ _ := f in n.

Definition kind_of (v : field_value) : string :=
  match v with
  | FString _ => "string" | FStrings _ | FSlice _ => "slice" | FStruct _ => "struct" | FKind k => k
  end.

(** [^enum=(.+,*?)+$], [^maxlength=(\d+)$] and [^regex=(.+)$] *)
Definition is_digit (c : ascii) : bool := bool_decide (is_Some (digit_val c)).
Definition enumRe : re :=
  Seq Bol (Seq (lit "enum=")
    (Seq (Plus true (Group 1 (Seq (Plus true any_char) (Star false (chr ","))))) Eol)).
Definition maxlengthRe : re := anchored (Seq (lit "maxlength=") (Group 1 (Plus true (Chr is_digit)))).
Definition regexRe : re := anchored (Seq (lit "regex=") (Group 1 (Plus true any_char))).

Definition comma : ascii := ",".

Definition enum_field (v : field_value) (tag : string) : res () :=
  match re_search enumRe tag with
  | None => Err ("invalid tag '" +:+ tag +:+ "', must be enum=v1,v2,v3")
  | Some c =>
      let evs := split (submatch c 1) comma in
      match v with
      | FStrings l => enum.ValidateSlice l evs
      | FSlice _ => Err "only []string slices can be validated for enums"
      | FString s => enum.ValidateString s evs
      | _ => Err ("cannot valid data of type " +:+ kind_of v +:+ " for enums")
      end
  end.

(** A number that is out of range counts as the largest. *)
Definition maxlength_field (v : field_value) (tag : string) : res () :=
  match re_search maxlengthRe tag with
  | None => Err ("invalid tag '" +:+ tag +:+ "', must be maxlength=n")
  | Some c =>
      let max := default int64_max (atoi (submatch c 1)) in
      let slice (n : nat) :=
        if (max <? Z.of_nat n)%Z then Err (itoa (Z.of_nat n) +:+ " values, max allowed " +:+ itoa max) else Ok tt in
      match v with
      | FString s => maxlength.ValidateString s max
      | FStrings l => slice (length l)
      | FSlice n => slice n
      | _ => Err ("cannot check length of " +:+ kind_of v +:+ " type")
      end
  end.

Section Struct.
Context `{Regexp} `{TimeLib}.

Definition regex_field (v : field_value) (tag : string) : res () :=
  match re_search regexRe tag with
  | None => Err ("invalid tag '" +:+ tag +:+ "', must be in the form regex=^hello.+world$")
  | Some c =>
      match v with
      | FString s => regex.ValidateString s (submatch c 1)
      | _ => Err "only strings can be regex validated"
      end
  end.

Definition string_field (err : string) (f : string → res ()) (v : field_value) : res () :=
  match v with FString s => f s | _ => Err err end.

Definition validate_tag (name : string) (v : field_value) (validation : string) : res () :=
  let failed what := map_err (λ e, name +:+ " " +:+ what +:+ " validation failed: " +:+ e) in
  if String.eqb validation "" then Ok tt
  else if String.eqb validation "shellsafe"
  then failed "shellsafe" (string_field "should be a string" shellsafe.Validate v)
  else if String.eqb validation "ipv4"
  then failed "IPv4" (string_field "only strings can be IPv4 validated" ipv4.ValidateString v)
  else if String.eqb validation "ipv6"
  then failed "IPv6" (string_field "only strings can be IPv6 validated" ipv6.ValidateString v)
  else if String.eqb validation "ipaddress"
  then failed "IP address" (string_field "only strings can be IPv6 validated" ipaddress.ValidateString v)
  else if has_prefix validation "regex" then failed "regular expression" (regex_field v validation)
  else if has_prefix validation "maxlength" then failed "maxlength" (maxlength_field v validation)
  else if has_prefix validation "enum" then failed "enum" (enum_field v validation)
  else if has_prefix validation "duration"
  then failed "duration" (string_field "only strings can be Duration validated" duration.ValidateString v)
  else Ok tt.

(** [validateStructField] and [validateStructValue]: the fields of a structure before
    its own tag, the first field that is not valid ends it. *)
Fixpoint validate_value (name tag : string) (v : field_value) {struct v} : res () :=
  (match v with
   | FStruct fields =>
       (fix go (l : list field) : res () :=
          match l with
          | [] => Ok tt
          | Field n t w :: rest => validate_value n (trim_space t) w;; go rest
          end) fields
   | _ => Ok tt
   end);;
  validate_tag name v tag.

Fixpoint validateStructValue (fields : list field) : res () :=
  match fields with
  | [] => Ok tt
  | Field n t w :: rest => validate_value n (trim_space t) w;; validateStructValue rest
  end.

Definition ValidateStruct (fields : list field) : res () := validateStructValue fields.

Definition ValidateStructField (fields : list field) (name : string) : res () :=
  match list_find (λ f, field_name f = name) fields with
  | None => Err ("unknown field " +:+ name)
  | Some (_, Field n t v) => validate_value n (trim_space t) v
  end.

End Struct.
