(* ===== verification/Facts.v ===== *)
(** * Facts: matchers, fact files and fact filter strings

    filter/facts/facts.go and filter/facts/matchers.go.  JSON documents, their
    lookup (gjson) and float parsing are operations of the [FactLib] class;
    logging is left out. *)
From S2P Require Import Prelude GoLib Regex Files.

(** ** What gjson returns *)

(** [gjson.Result] by type; a number carries its [Int()] and [Float()]. *)
Inductive fact_value (F : Type) :=
| FactNull
| FactFalse
| FactNumber (int : Z) (float : F)
| FactString (s : string)
| FactTrue
| FactJSON.
Arguments FactNull {F}.
Arguments FactFalse {F}.
Arguments FactNumber {F} _ _.
Arguments FactString {F} _.
Arguments FactTrue {F}.
Arguments FactJSON {F}.

Definition fact_type {F} (v : fact_value F) : string :=
  match v with
  | FactNull => "Null" | FactFalse => "False" | FactNumber _ _ => "Number"
  | FactString _ => "String" | FactTrue => "True" | FactJSON => "JSON"
  end.

Class FactLib := {
  (** 64 bit floats *)
  float64 : Type;
  ParseFloat : string → option float64;
  f64_leb : float64 → float64 → bool;
  f64_ltb : float64 → float64 → bool;
  f64_eqb : float64 → float64 → bool;
  Sprintf_4f : float64 → string;
  (** JSON documents: [gjson.GetBytes] is [None] when the path does not exist *)
  json_doc : Type;
  gjson_Get : json_doc → string → option (fact_value float64);
  (** decoding to a map of members, its members and encoding *)
  json_member : Type;
  json_Unmarshal : string → option (gmap string json_member);
  YAMLToJSON : string → option string;
  json_Marshal : gmap string json_member → json_doc;
  json_empty : json_doc;
}.

(** A [[3]string]: fact, operator, value. *)
Abbreviation fact_filter := (string * string * string)%type.

Section Facts.
Context `{FL : FactLib} `{RX : Regexp}.

(** ** Matchers *)

Definition truthy (value : string) : bool := from_option id false (parse_bool value).
Definition falsey (value : string) : bool := negb (truthy value).

Definition slash_trimmed (p : string) : string :=
  trim_right (Ascii.eqb "/") (trim_left (Ascii.eqb "/") p).

Definition regexMatch (value pattern : string) : res bool :=
  match regexp_match ("(?i)" +:+ slash_trimmed pattern) value with
  | Some b => Ok b
  | None => Err "error parsing regexp"
  end.

Definition type_error {F} (fact : fact_value F) : res bool :=
  Err ("do not know how to evaluate data of type " +:+ fact_type fact).

Definition float_syntax (value : string) : string :=
  "strconv.ParseFloat: parsing " +:+ value.

Definition atoi_syntax (value : string) : string := "strconv.Atoi: parsing " +:+ value.

(** The float branch shared by the numeric matchers: a value with a dot. *)
Definition with_float (value : string) (f : float64 → bool) : res bool :=
  match ParseFloat value with
  | None => Err (float_syntax value)
  | Some v => Ok (f v)
  end.

Definition with_int (value : string) (f : Z → bool) : res bool :=
  match atoi value with
  | None => Err (atoi_syntax value)
  | Some v => Ok (f v)
  end.

Definition eqMatch (fact : fact_value float64) (value : string) : res bool :=
  match fact with
  | FactString s => Ok (equal_fold s value)
  | FactNumber i f =>
      if str_contains value "." then with_float value (λ v, f64_eqb f v)
      else Ok (String.eqb (itoa i) value)
  | FactTrue => Ok (truthy value)
  | FactFalse => Ok (falsey value)
  | FactNull => Ok false
  | FactJSON => Ok false
  end.

Definition reMatch (fact : fact_value float64) (value : string) : res bool :=
  match fact with
  | FactString s => regexMatch s value
  | FactNumber i f =>
      if str_contains value "." then regexMatch (Sprintf_4f f) value
      else regexMatch (itoa i) value
  | FactTrue => Ok (truthy (to_lower value))
  | FactFalse => Ok (falsey (to_lower value))
  | FactNull => Ok false
  | FactJSON => Ok false
  end.

Definition leMatch (fact : fact_value float64) (value : string) : res bool :=
  match fact with
  | FactString s => Ok (str_leb (to_lower s) (to_lower value))
  | FactNumber i f =>
      if str_contains value "." then with_float value (λ v, f64_leb f v)
      else with_int value (λ v, (i <=? v)%Z)
  | _ => type_error fact
  end.

Definition geMatch (fact : fact_value float64) (value : string) : res bool :=
  match fact with
  | FactString s => Ok (str_leb (to_lower value) (to_lower s))
  | FactNumber i f =>
      if str_contains value "." then with_float value (λ v, f64_leb v f)
      else with_int value (λ v, (v <=? i)%Z)
  | _ => type_error fact
  end.

Definition ltMatch (fact : fact_value float64) (value : string) : res bool :=
  match fact with
  | FactString s => Ok (str_ltb (to_lower s) (to_lower value))
  | FactNumber i f =>
      if str_contains value "." then with_float value (λ v, f64_ltb f v)
      else with_int value (λ v, (i <? v)%Z)
  | _ => type_error fact
  end.

(** The float branch compares with [>=], as the code does. *)
Definition gtMatch (fact : fact_value float64) (value : string) : res bool :=
  match fact with
  | FactString s => Ok (str_ltb (to_lower value) (to_lower s))
  | FactNumber i f =>
      if str_contains value "." then with_float value (λ v, f64_leb v f)
      else with_int value (λ v, (v <? i)%Z)
  | _ => type_error fact
  end.

(** The [False] branch is [falsey], as the code has it. *)
Definition neMatch (fact : fact_value float64) (value : string) : res bool :=
  match fact with
  | FactString s => Ok (negb (equal_fold s value))
  | FactNumber i f =>
      if str_contains value "." then with_float value (λ v, negb (f64_eqb v f))
      else Ok (negb (String.eqb (itoa i) value))
  | FactTrue => Ok (negb (truthy (to_lower value)))
  | FactFalse => Ok (falsey (to_lower value))
  | FactNull => Ok false
  | FactJSON => Ok false
  end.

Definition HasFactJSON (fact operator value : string) (facts : json_doc) : res bool :=
  match gjson_Get facts fact with
  | None => Ok false
  | Some result =>
      if String.eqb operator "==" then eqMatch result value
      else if String.eqb operator "=~" then reMatch result value
      else if String.eqb operator "<=" then leMatch result value
      else if String.eqb operator ">=" then geMatch result value
      else if String.eqb operator "<" then ltMatch result value
      else if String.eqb operator ">" then gtMatch result value
      else if String.eqb operator "!=" then neMatch result value
      else Err ("unknown fact matching operator " +:+ operator
                  +:+ " while looking for fact " +:+ fact)
  end.

Fixpoint MatchFacts_loop (filters : list fact_filter) (facts : json_doc) (matched : bool) : bool :=
  match filters with
  | [] => matched
  | (f, op, v) :: rest =>
      match HasFactJSON f op v facts with
      | Err _ | Panic _ => false
      | Ok false => false
      | Ok true => MatchFacts_loop rest facts true
      end
  end.

Definition MatchFacts (filters : list fact_filter) (facts : json_doc) : bool :=
  MatchFacts_loop filters facts false.

(** ** Fact files *)

(** What one file adds to [out]; a file that is missing or does not parse adds
    nothing.  [m ∪ out] prefers the members of [m]. *)
Definition merge_fact_file (fs : filesystem) (out : gmap string json_member) (f : string) :
    gmap string json_member :=
  if String.eqb f "" then out
  else if negb (FileExistIn fs f) then out
  else
    match os_Open fs f with
    | Ok content =>
        match (if has_suffix f "yaml" then YAMLToJSON content else Some content) with
        | None => out
        | Some j =>
            match json_Unmarshal j with
            | None => out
            | Some facts => facts ∪ out
            end
        end
    | _ => out
    end.

Definition path_list_separator : ascii := ":".

Definition JSON (fs : filesystem) (file : string) : res json_doc :=
  let out := fold_left (merge_fact_file fs) (split file path_list_separator) ∅ in
  if Nat.eqb (size out) 0 then Err ("no facts were found in " +:+ file)
  else Ok (json_Marshal out).

Definition MatchFile (fs : filesystem) (filters : list fact_filter) (file : string) : bool :=
  match JSON fs file with
  | Ok facts => MatchFacts filters facts
  | _ => false
  end.

Definition HasFact (fs : filesystem) (fact operator value file : string) : res bool :=
  j ← JSON fs file; HasFactJSON fact operator value j.

Definition GetFact (fs : filesystem) (fact file : string) :
    res (json_doc * option (fact_value float64)) :=
  j ← JSON fs file; mret (j, gjson_Get j fact).

(** ** Fact filter strings *)

(** [validOperators]: the alternatives in order, [={1,2}] is greedy. *)
Definition validOperators : list string :=
  ["<="; ">="; "=>"; "=<"; "<"; ">"; "!="; "=~"; "=="; "="].

(** The alternative that matches at the start of [s]. *)
Definition operator_at (s : string) : option string := List.find (has_prefix s) validOperators.

(** [FindAllStringIndex(f, -1)]: non overlapping matches from the left, as
    offset and operator; [skip] bytes belong to the previous match. *)
Fixpoint find_operators (pos skip : nat) (s : string) : list (nat * string) :=
  match s with
  | EmptyString => []
  | String _ s' =>
      match skip with
      | S k => find_operators (S pos) k s'
      | O =>
          match operator_at s with
          | Some op => (pos, op) :: find_operators (S pos) (String.length op - 1) s'
          | None => find_operators (S pos) 0 s'
          end
      end
  end.

Definition has_operator (s : string) : bool :=
  match find_operators 0 0 s with [] => false | _ => true end.

Definition first_byte (s : string) : string := take_bytes 1 s.
Definition last_byte (s : string) : string := drop_bytes (String.length s - 1) s.

Definition filter_format_error (f : string) : string :=
  "could not parse fact " +:+ f +:+ " it does not appear to be in a valid format".

Definition canonical_operator (op : string) : string :=
  if String.eqb op "=" then "=="
  else if String.eqb op "=<" then "<="
  else if String.eqb op "=>" then ">="
  else op.

Definition ParseFactFilterString (f : string) : res fact_filter :=
  match last (find_operators 0 0 f) with
  | None => Err (filter_format_error f)
  | Some (pos, op) =>
      let leftOp := trim_space (take_bytes pos f) in
      let rightOp := trim_space (drop_bytes (pos + String.length op) f) in
      if Nat.eqb (String.length leftOp) 0 || Nat.eqb (String.length rightOp) 0
      then Err (filter_format_error f)
      else if has_operator (first_byte leftOp) || has_operator (last_byte rightOp)
      then Err (filter_format_error f)
      else
        let op := canonical_operator op in
        let op := if String.eqb (first_byte rightOp) "/" && String.eqb (last_byte rightOp) "/"
                  then "=~" else op in
        Ok (leftOp, op, rightOp)
  end.

End Facts.
