(* ===== verification/Filters.v ===== *)
(** * Request filters

    filter/agents, filter/classes, filter/identity, filter/compound,
    protocol/filter.go and filter/filter.go: which requests a server acts on
    and how clients build filters.  The expr language is a class. *)
From S2P Require Import Prelude GoLib Regex Files Facts.

(** ** Agents, classes and identities *)

Definition is_regex_needle (needle : string) : bool :=
  has_prefix needle "/" && has_suffix needle "/".

Definition unslash (needle : string) : string := trim_suffix (trim_prefix needle "/") "/".

(** The loop of both [Match] functions with its two counters. *)
Fixpoint match_all (found : string → bool) (needles : list string) (matched failed : Z) : bool :=
  match needles with
  | [] => (failed =? 0)%Z && (0 <? matched)%Z
  | needle :: rest =>
      if found needle then match_all found rest (matched + 1) failed
      else match_all found rest matched (failed + 1)
  end.

Module Agents.
Section Agents_matching.
Context `{RX : Regexp}.

Definition hasAgentMatching (needle : string) (stack : list string) : bool :=
  existsb (λ agent, MatchString needle agent) stack.

Definition hasAgent (needle : string) (stack : list string) : bool :=
  existsb (λ agent, String.eqb agent needle) stack.

Definition Match (needles known : list string) : bool :=
  match_all (λ needle,
    if is_regex_needle needle then hasAgentMatching (unslash needle) known
    else hasAgent needle known) needles 0 0.

End Agents_matching.
End Agents.

Module Classes.
Section Classes_matching.
Context `{RX : Regexp}.

Definition hasClassMatching (needle : string) (stack : list string) : bool :=
  existsb (λ class, MatchString needle class) stack.

Definition hasClass (needle : string) (stack : list string) : bool :=
  let lneedle := to_lower needle in
  existsb (λ class, String.eqb class lneedle) stack.

Definition Match (needles classes : list string) : bool :=
  match_all (λ needle,
    if is_regex_needle needle then hasClassMatching ("(?i)" +:+ unslash needle) classes
    else hasClass needle classes) needles 0 0.

(** The scanner's error is not looked at: an oversized line ends the list. *)
Definition ReadClasses (fs : filesystem) (file : string) : res (list string) :=
  fh ← os_Open fs file; mret (sort_strings (scan_lines fh).1).

Definition MatchFile (fs : filesystem) (needles : list string) (source : string) : bool :=
  match ReadClasses fs source with
  | Ok classes => Match needles classes
  | _ => false
  end.

End Classes_matching.
End Classes.

Module Identity.
Section Identity_matching.
Context `{RX : Regexp}.

Definition match_one (certname filter : string) : bool :=
  if is_regex_needle filter && MatchString (unslash filter) certname then true
  else String.eqb certname filter.

Definition Match (filters : list string) (certname : string) : bool :=
  existsb (λ filter, match_one certname filter) filters.

Definition FilterNodes (nodes : list string) (f : string) : list string :=
  List.filter (λ n, match_one n f) nodes.

End Identity_matching.
End Identity.

(** ** Compound filters *)

(** What [expr.Run] gives back. *)
Inductive expr_value := ExprBool (b : bool) | ExprOther.

(** The environment of a program; [include] and [semver] are calls into
    libraries and belong to [expr_Run]. *)
Record expr_env `{FL : FactLib} (FuncMap : Type) := {
  env_classes : list string;
  env_agents : list string;
  env_facts : json_doc;
  env_with : string → bool;
  env_fact : string → option (fact_value float64);
  env_data : FuncMap;
}.

Class ExprLib `{FL : FactLib} := {
  expr_program : Type;
  ddl_FuncMap : Type;
  nil_FuncMap : ddl_FuncMap;
  expr_Compile : string → ddl_FuncMap → option expr_program;
  expr_Run : expr_program → expr_env ddl_FuncMap → res expr_value;
}.

Abbreviation compound_filter := (list (gmap string string)).

Section Compound.
Context `{FL : FactLib} `{RX : Regexp} `{EL : !ExprLib}.

Definition matchFunc (facts : json_doc) (classes agents : list string) (query : string) : bool :=
  match ParseFactFilterString query with
  | Ok pf => MatchFacts [pf] facts
  | _ => if Classes.Match [query] classes then true else Agents.Match [query] agents
  end.

Definition MatchExprProgram (prog : expr_program) (facts : json_doc)
    (classes knownAgents : list string) (df : ddl_FuncMap) : res bool :=
  let env := {| env_classes := classes; env_agents := knownAgents; env_facts := facts;
                env_with := matchFunc facts classes knownAgents;
                env_fact := gjson_Get facts; env_data := df |} in
  match expr_Run prog env with
  | Err e => Err ("could not execute compound query: " +:+ e)
  | Panic p => Panic p
  | Ok (ExprBool b) => Ok b
  | Ok ExprOther => Err "compound query returned non boolean"
  end.

(** A query that does not hold takes one away from [matched]. *)
Fixpoint MatchExprString_loop (queries : list compound_filter) (facts : json_doc)
    (classes knownAgents : list string) (df : ddl_FuncMap) (matched failed : Z) : bool :=
  match queries with
  | [] => (failed =? 0)%Z && (0 <? matched)%Z
  | cf :: rest =>
      let next := MatchExprString_loop rest facts classes knownAgents df in
      match cf with
      | [m] =>
          match m !! "expr" with
          | None => false
          | Some query =>
              match expr_Compile query df with
              | None => next matched (failed + 1)%Z
              | Some prog =>
                  match MatchExprProgram prog facts classes knownAgents df with
                  | Ok true => next (matched + 1)%Z failed
                  | Ok false => next (matched - 1)%Z failed
                  | _ => next matched (failed + 1)%Z
                  end
              end
          end
      | _ => false
      end
  end.

Definition MatchExprString (queries : list compound_filter) (facts : json_doc)
    (classes knownAgents : list string) (df : ddl_FuncMap) : bool :=
  MatchExprString_loop queries facts classes knownAgents df 0 0.

Definition MatchExprStringFiles (fs : filesystem) (queries : list compound_filter)
    (factFile classesFile : string) (knownAgents : list string) : bool :=
  match Classes.ReadClasses fs classesFile with
  | Ok c =>
      match JSON fs factFile with
      | Ok f => MatchExprString queries f c knownAgents nil_FuncMap
      | _ => false
      end
  | _ => false
  end.

End Compound.

(** ** protocol.Filter *)

(** A Go slice: [None] is nil, which [len], [range] and [append] treat as empty. *)
Abbreviation slice A := (option (list A)).
Definition elems {A} (s : slice A) : list A := from_option id [] s.
Definition append {A} (s : slice A) (x : A) : slice A := Some (elems s ++ [x]).
Definition is_nil {A} (s : slice A) : bool := match s with None => true | Some _ => false end.
Definition slice_len {A} (s : slice A) : nat := length (elems s).

Record FactFilter := {
  ff_Fact : string;
  ff_Operator : string;
  ff_Value : string;
}.

Record Filter := {
  Fact : slice FactFilter;
  Class_ : slice string;
  Agent : slice string;
  Identity_ : slice string;
  Compound_ : slice compound_filter;
}.

Definition NewFilter : Filter :=
  {| Fact := Some []; Class_ := Some []; Agent := Some []; Identity_ := Some [];
     Compound_ := Some [] |}.

Definition Empty (f : Filter) : bool :=
  if is_nil (Fact f) && is_nil (Class_ f) && is_nil (Agent f) && is_nil (Identity_ f)
       && is_nil (Compound_ f) then true
  else if Nat.eqb (slice_len (Fact f)) 0 && Nat.eqb (slice_len (Class_ f)) 0
            && Nat.eqb (slice_len (Agent f)) 0 && Nat.eqb (slice_len (Identity_ f)) 0
            && Nat.eqb (slice_len (Compound_ f)) 0 then true
  else false.

Definition CompoundFilters (f : Filter) : list compound_filter := elems (Compound_ f).
Definition IdentityFilters (f : Filter) : list string := elems (Identity_ f).
Definition AgentFilters (f : Filter) : list string := elems (Agent f).
Definition ClassFilters (f : Filter) : list string := elems (Class_ f).
Definition FactFilters (f : Filter) : list fact_filter :=
  map (λ x, (ff_Fact x, ff_Operator x, ff_Value x)) (elems (Fact f)).

Definition contains (needle : string) (haystack : list string) : bool :=
  existsb (λ i, String.eqb i needle) haystack.

Definition with_Compound (f : Filter) (x : slice compound_filter) : Filter :=
  {| Fact := Fact f; Class_ := Class_ f; Agent := Agent f; Identity_ := Identity_ f;
     Compound_ := x |}.
Definition with_Identity (f : Filter) (x : slice string) : Filter :=
  {| Fact := Fact f; Class_ := Class_ f; Agent := Agent f; Identity_ := x;
     Compound_ := Compound_ f |}.
Definition with_Agent (f : Filter) (x : slice string) : Filter :=
  {| Fact := Fact f; Class_ := Class_ f; Agent := x; Identity_ := Identity_ f;
     Compound_ := Compound_ f |}.
Definition with_Class (f : Filter) (x : slice string) : Filter :=
  {| Fact := Fact f; Class_ := x; Agent := Agent f; Identity_ := Identity_ f;
     Compound_ := Compound_ f |}.
Definition with_Fact (f : Filter) (x : slice FactFilter) : Filter :=
  {| Fact := x; Class_ := Class_ f; Agent := Agent f; Identity_ := Identity_ f;
     Compound_ := Compound_ f |}.

Definition AddCompoundFilter (query : string) (f : Filter) : Filter :=
  if String.eqb query "" then f
  else with_Compound f (append (Compound_ f) [{["expr" := query]}]).

Definition AddIdentityFilter (id : string) (f : Filter) : Filter :=
  if contains id (elems (Identity_ f)) then f else with_Identity f (append (Identity_ f) id).

Definition AddAgentFilter (agent : string) (f : Filter) : Filter :=
  if String.eqb agent "" then f
  else if contains agent (elems (Agent f)) then f else with_Agent f (append (Agent f) agent).

Definition AddClassFilter (class : string) (f : Filter) : Filter :=
  if contains class (elems (Class_ f)) then f else with_Class f (append (Class_ f) class).

Definition fact_operators : list string := [">="; "<="; "<"; ">"; "!="; "=="; "=~"].

Definition AddFactFilter (fact operator value : string) (f : Filter) : Filter * res () :=
  if negb (contains operator fact_operators)
  then (f, Err (operator +:+ " is not a valid fact operator"))
  else (with_Fact f (append (Fact f) {| ff_Fact := fact; ff_Operator := operator; ff_Value := value |}),
        Ok tt).

(** ** Matching a request *)

Record ServerInfoSource `{ExprLib} := {
  si_Classes : list string;
  si_Facts : json_doc;
  si_Identity : string;
  si_KnownAgents : list string;
  si_DataFuncMap : option ddl_FuncMap;
}.

Section MatchRequest.
Context `{FL : FactLib} `{RX : Regexp} `{EL : !ExprLib}.

Definition FilterMatchFacts (f : Filter) (facts : json_doc) : bool := MatchFacts (FactFilters f) facts.
Definition FilterMatchFactsFile (f : Filter) (fs : filesystem) (file : string) : bool :=
  MatchFile fs (FactFilters f) file.
Definition MatchAgents (f : Filter) (known : list string) : bool := Agents.Match (AgentFilters f) known.
Definition MatchIdentity (f : Filter) (ident : string) : bool := Identity.Match (IdentityFilters f) ident.
Definition MatchClasses (f : Filter) (known : list string) : bool := Classes.Match (ClassFilters f) known.
Definition MatchClassesFile (f : Filter) (fs : filesystem) (file : string) : bool :=
  Classes.MatchFile fs (ClassFilters f) file.
Definition MatchCompound (f : Filter) (facts : json_doc) (classes agents : list string)
    (fm : ddl_FuncMap) : bool :=
  MatchExprString (CompoundFilters f) facts classes agents fm.
Definition MatchCompoundFiles (f : Filter) (fs : filesystem) (factsFile classesFile : string)
    (agents : list string) : bool :=
  MatchExprStringFiles fs (CompoundFilters f) factsFile classesFile agents.

(** One [if len(...) > 0 { if matches { passed++ } else { return false } }]. *)
Definition check_section (len : nat) (matches : bool) (passed : nat) (k : nat → bool) : bool :=
  if Nat.ltb 0 len then (if matches then k (S passed) else false) else k passed.

Definition MatchServerRequest (filter : Filter) (si : ServerInfoSource) : bool :=
  if Empty filter then true
  else
    check_section (length (IdentityFilters filter)) (MatchIdentity filter (si_Identity si)) 0 (λ passed,
    check_section (length (AgentFilters filter)) (MatchAgents filter (si_KnownAgents si)) passed (λ passed,
    check_section (length (ClassFilters filter)) (MatchClasses filter (si_Classes si)) passed (λ passed,
    check_section (length (FactFilters filter)) (FilterMatchFacts filter (si_Facts si)) passed (λ passed,
    check_section (length (CompoundFilters filter))
      (MatchCompound filter (si_Facts si) (si_Classes si) (si_KnownAgents si)
         (default nil_FuncMap (si_DataFuncMap si))) passed (λ passed,
    Nat.ltb 0 passed))))).

End MatchRequest.

(** ** Building filters from strings (filter/filter.go) *)

Module Build.

(** [Filter func(f *protocol.Filter) error] *)
Abbreviation builder := (Filter → Filter * res ()).

Definition skip_empty (add : string → Filter → Filter) (fs : list string) : builder := λ pf,
  (fold_left (λ pf f, if String.eqb f "" then pf else add f pf) fs pf, Ok tt).

Definition AgentFilter : list string → builder := skip_empty AddAgentFilter.
Definition ClassFilter : list string → builder := skip_empty AddClassFilter.
Definition IdentityFilter : list string → builder := skip_empty AddIdentityFilter.
Definition CompoundFilter : list string → builder := skip_empty AddCompoundFilter.

Definition ParseFactFilterString (f : string) : res FactFilter :=
  '(l, op, r) ← Facts.ParseFactFilterString f;
  if String.eqb l "" || String.eqb op "" || String.eqb r "" then Err (filter_format_error f)
  else Ok {| ff_Fact := l; ff_Operator := op; ff_Value := r |}.

Fixpoint FactFilter (fs : list string) : builder := λ pf,
  match fs with
  | [] => (pf, Ok tt)
  | f :: rest =>
      if String.eqb f "" then FactFilter rest pf
      else
        match ParseFactFilterString f with
        | Err e => (pf, Err e)
        | Panic p => (pf, Panic p)
        | Ok ff =>
            match AddFactFilter (ff_Fact ff) (ff_Operator ff) (ff_Value ff) pf with
            | (pf', Ok _) => FactFilter rest pf'
            | (pf', e) => (pf', e)
            end
        end
  end.

Definition combined_part (pf : Filter) (part : string) : Filter :=
  if String.eqb part "" then pf
  else
    match ParseFactFilterString part with
    | Ok ff => (AddFactFilter (ff_Fact ff) (ff_Operator ff) (ff_Value ff) pf).1
    | _ => AddClassFilter part pf
    end.

Definition space : ascii := " ".

Definition CombinedFilter (fs : list string) : builder := λ pf,
  (fold_left (λ pf f, fold_left combined_part (split f space) pf) fs pf, Ok tt).

Fixpoint apply_all (fs : list builder) (f : Filter) : Filter * res () :=
  match fs with
  | [] => (f, Ok tt)
  | b :: rest =>
      match b f with
      | (f', Ok _) => apply_all rest f'
      | r => r
      end
  end.

(** On an error the filter built so far is returned beside it. *)
Definition NewFilter (fs : list builder) : Filter * res () := apply_all fs Filters.NewFilter.

End Build.
