(* ===== verification/DemoLibs.v ===== *)
(** * Concrete libraries for the witnesses

    Small implementations of the library classes: documents of one member per
    file, [name=value], floats in tenths and patterns that match as substrings. *)
From S2P Require Import Prelude GoLib Regex Files Util Facts.

Definition demo_document (content : string) : option (gmap string string) :=
  match split content "=" with
  | [k; v] => Some {[k := v]}
  | _ => None
  end.

#[export] Instance demo_fact_lib : FactLib := {|
  float64 := Z;
  ParseFloat := λ s, match split s "." with
                     | [i; d] => x ← atoi i; y ← atoi d; Some (10 * x + y)%Z
                     | _ => None end;
  f64_leb := Z.leb; f64_ltb := Z.ltb; f64_eqb := Z.eqb; Sprintf_4f := itoa;
  json_doc := gmap string (fact_value Z);
  gjson_Get := λ d k, d !! k;
  json_member := string;
  json_Unmarshal := demo_document;
  YAMLToJSON := λ s, Some s;
  json_Marshal := λ m, FactString <$> m;
  json_empty := ∅;
|}.

#[export] Instance demo_regexp : Regexp := {| regexp_match := λ p s, Some (str_contains s p) |}.

#[export] Instance demo_time : TimeLib := {|
  float32 := Z; ParseFloat32 := atoi; f32_hours := λ v h, (v * h)%Z;
  time_ParseDuration := λ s, v ← atoi (take_bytes (String.length s - 1) s); Some (v * Second)%Z;
  Sprintf_2f_seconds := λ d, itoa (Z.quot d Second);
|}.
