(* ===== verification/Backoff.v ===== *)
(** * Backoff policies

    backoff/backoff.go.  Random numbers are arguments: [rnd n] is what
    [rand.N(n)] returned, a number below [n]. *)
From S2P Require Import Prelude GoLib Util.

Abbreviation Policy := (list Z).

Definition FiveSecStartGrace : Policy :=
  [0; 25; 50; 75; 100; 125; 150; 200; 250; 500; 750; 1000; 1500; 2000; 2500; 3000; 3500; 4000;
   4500; 5000]%Z.

Definition FiveSec : Policy :=
  [500; 750; 1000; 1500; 2000; 2500; 3000; 3500; 4000; 4500; 5000]%Z.

Definition TwentySec : Policy :=
  [500; 750; 1000; 1500; 2000; 2500; 3000; 3500; 4000; 4500; 5000;
   5500; 5750; 6000; 6500; 7000; 7500; 8000; 8500; 9000; 9500; 10000;
   10500; 10750; 11000; 11500; 12000; 12500; 13000; 13500; 14000; 14500; 15000;
   15500; 15750; 16000; 16500; 17000; 17500; 18000; 18500; 19000; 19500; 20000]%Z.

Definition Millisecond : Z := 1000000.

(** [rand.N] panics on a bound that is not positive. *)
Definition jitter (rnd : Z → Z) (millis : Z) : res Z :=
  if (millis =? 0)%Z then Ok 0%Z
  else if (millis <? 0)%Z then Panic "invalid argument to N"
  else Ok (Z.quot millis 2 + rnd millis)%Z.

Definition Duration (rnd : Z → Z) (b : Policy) (n : Z) : res Z :=
  let n := if (Z.of_nat (length b) <=? n)%Z then (Z.of_nat (length b) - 1)%Z else n in
  if (n <? 0)%Z then Panic "index out of range"
  else
    match b !! Z.to_nat n with
    | None => Panic "index out of range"
    | Some m => j ← jitter rnd m; Ok (wrap64 (j * Millisecond))
    end.

(** [Sleep] ends with an error when the context is cancelled first. *)
Definition Sleep (interrupted : bool) (t : Z) : res () :=
  if interrupted then Err "context canceled" else Ok tt.

Definition TrySleep (rnd : Z → Z) (b : Policy) (interrupted : bool) (n : Z) : res () :=
  d ← Duration rnd b n; Sleep interrupted d.

(** [For]: [cb i] is whether the i-th call succeeds, [cancelled i] whether the
    context is done before it and [interrupted i] whether the sleep after it is cut
    short.  The result carries the number of calls made; [None] is out of fuel. *)
Section For.
Variable rnd : Z → Z.
Variable b : Policy.
Variable cb cancelled interrupted : nat → bool.

Fixpoint For_loop (fuel tries : nat) : option (nat * res ()) :=
  match fuel with
  | O => None
  | S fuel' =>
      if cancelled (S tries) then Some (tries, Err "context canceled")
      else
        let tries := S tries in
        if cb tries then Some (tries, Ok tt)
        else
          match TrySleep rnd b (interrupted tries) (Z.of_nat tries) with
          | Ok _ => For_loop fuel' tries
          | e => Some (tries, e)
          end
  end.

Definition For (fuel : nat) : option (nat * res ()) := For_loop fuel 0.

End For.

(** ** Properties *)

(** Random numbers in range. *)
Definition random (rnd : Z → Z) : Prop := ∀ n, (0 < n)%Z → (0 ≤ rnd n < n)%Z.

(** A policy of at least one wait, none of them negative or beyond a day. *)
Definition sane (b : Policy) : Prop := b ≠ [] ∧ Forall (λ m, (0 ≤ m ≤ 86400000)%Z) b.

(** The wait of the n-th try: the last of the policy once it is used up. *)
Definition wait (b : Policy) (n : nat) : Z := nth (min n (length b - 1)) b 0%Z.

Lemma jitter_bounds rnd m : random rnd → (0 ≤ m ≤ 86400000)%Z →
  ∃ j, jitter rnd m = Ok j ∧ (m / 2 ≤ j)%Z ∧ (j ≤ m + m / 2)%Z ∧ (0 < m → j < m / 2 + m)%Z.
Proof.
  intros Hr Hm. unfold jitter. destruct (Z.eqb_spec m 0) as [->|Hz].
  - exists 0%Z. split_and!; [done|done|done|lia].
  - rewrite (proj2 (Z.ltb_ge m 0)) by lia. specialize (Hr m ltac:(lia)).
    rewrite Z.quot_div_nonneg by lia. eexists; split_and!; [done|lia..].
Qed.

Lemma duration_wait rnd b n : random rnd → sane b →
  ∃ d, Duration rnd b (Z.of_nat n) = Ok d ∧
    (wait b n / 2 * Millisecond ≤ d ≤ (wait b n + wait b n / 2) * Millisecond)%Z.
Proof.
  intros Hr [Hb Hf]. assert (0 < length b)%nat as Hl by (destruct b; [done|simpl; lia]).
  unfold Duration.
  assert ((if (Z.of_nat (length b) <=? Z.of_nat n)%Z then (Z.of_nat (length b) - 1)%Z else Z.of_nat n)
          = Z.of_nat (min n (length b - 1))) as ->.
  { destruct (Z.leb_spec (Z.of_nat (length b)) (Z.of_nat n)); lia. }
  rewrite (proj2 (Z.ltb_ge _ 0)), Nat2Z.id by lia.
  destruct (lookup_lt_is_Some_2 b (min n (length b - 1)) ltac:(lia)) as [m Hm].
  rewrite Hm. assert (wait b n = m) as Hw by (by apply nth_lookup_Some).
  rewrite Forall_lookup in Hf. specialize (Hf _ _ Hm). simpl in Hf.
  destruct (jitter_bounds rnd m Hr Hf) as (j & -> & H1 & H2 & H3). rewrite Hw.
  eexists; split; [done|]. unfold Millisecond.
  change int64_min with (-9223372036854775808)%Z in *. rewrite wrap64_small; [lia|].
  change int64_min with (-9223372036854775808)%Z. change int64_max with 9223372036854775807%Z.
  Z.to_euclidean_division_equations. lia.
Qed.

(** The wait before every try is within half and one and a half times the
    configured one, the last configured wait once the policy is used up; it never
    panics, whatever the number of tries. *)
Theorem backoff_duration_bounds rnd b n : random rnd → sane b →
  ∃ d, Duration rnd b (Z.of_nat n) = Ok d ∧
    (wait b n / 2 * Millisecond ≤ d ≤ (wait b n + wait b n / 2) * Millisecond)%Z.
Proof. apply duration_wait. Qed.

Lemma demo_random : random (λ n, n / 2)%Z.
Proof. intros n Hn. split; [apply Z.div_pos; lia|apply Z.div_lt; lia]. Qed.

Lemma backoff_duration_bounds_witness :
  ∃ d, Duration (λ n, n / 2)%Z FiveSecStartGrace (Z.of_nat 100) = Ok d ∧
    (5000 / 2 * Millisecond ≤ d ≤ (5000 + 5000 / 2) * Millisecond)%Z.
Proof.
  apply (backoff_duration_bounds (λ n, n / 2)%Z FiveSecStartGrace 100); [exact demo_random|].
  split; [done|]. repeat constructor; lia.
Defined.

(** [For] calls its function until it first succeeds: when that is call [k] and
    the context lives that long, exactly [k] calls are made and no error is
    returned; when the context ends first, the calls stop there with its error. *)
Theorem for_until_success rnd b cb cancelled interrupted k fuel :
  random rnd → sane b → (k ≤ fuel)%nat → (0 < k)%nat →
  (∀ i, (0 < i < k)%nat → cb i = false ∧ cancelled i = false ∧ interrupted i = false) →
  (cancelled k = false → cb k = true →
     For rnd b cb cancelled interrupted fuel = Some (k, Ok tt)) ∧
  (cancelled k = true →
     For rnd b cb cancelled interrupted fuel = Some (k - 1, Err "context canceled")%nat) ∧
  (cancelled k = false → cb k = false → interrupted k = true →
     For rnd b cb cancelled interrupted fuel = Some (k, Err "context canceled")).
Proof.
  intros Hr Hb Hf Hk Hpre.
  enough (∀ j f, (j < k)%nat → (k - j ≤ f)%nat →
    (cancelled k = false → cb k = true →
       For_loop rnd b cb cancelled interrupted f j = Some (k, Ok tt)) ∧
    (cancelled k = true →
       For_loop rnd b cb cancelled interrupted f j = Some (k - 1, Err "context canceled")%nat) ∧
    (cancelled k = false → cb k = false → interrupted k = true →
       For_loop rnd b cb cancelled interrupted f j = Some (k, Err "context canceled"))) as H.
  { apply H; lia. }
  intros j f. revert j. induction f as [|f IH]; intros j Hj Hjf; [lia|]. simpl.
  assert (∀ i, ∃ d, Duration rnd b (Z.of_nat i) = Ok d) as Hd.
  { intros i. destruct (duration_wait rnd b i Hr Hb) as (d & ? & _). eauto. }
  unfold TrySleep. destruct (Hd (S j)) as [d Hd']. simpl in Hd'. rewrite Hd'. simpl.
  destruct (decide (S j = k)) as [<-|Hne].
  - split_and!; [intros Hc Hs; by rewrite Hc, Hs|intros Hc; rewrite Hc; do 2 f_equal; lia|].
    intros Hc Hs Hi. by rewrite Hc, Hs, Hi.
  - destruct (Hpre (S j) ltac:(lia)) as (-> & -> & ->). simpl. apply IH; lia.
Qed.

Lemma for_until_success_witness :
  let cb i := Nat.eqb i 3 in let no := λ _ : nat, false in
  (no 3 = false → cb 3 = true → For (λ n, n / 2)%Z FiveSec cb no no 10 = Some (3, Ok tt)) ∧
  (no 3 = true → For (λ n, n / 2)%Z FiveSec cb no no 10 = Some (3 - 1, Err "context canceled")%nat) ∧
  (no 3 = false → cb 3 = false → no 3 = true →
     For (λ n, n / 2)%Z FiveSec cb no no 10 = Some (3, Err "context canceled")).
Proof.
  intros cb no. apply for_until_success; [exact demo_random|split; [done|repeat constructor; lia]|lia|lia|].
  intros i Hi. assert (i = 1 ∨ i = 2)%nat as [->| ->] by lia; done.
Defined.
