(* ===== verification/Submission.v ===== *)
(** * Message submission: messages, the directory spool and its publisher

    submission/msg.go, submission/disk_spool.go and submission/spool.go: what a
    valid message is, the files of a spool, and the handler that publishes them.
    Time, random numbers, generated ids and the answers of the network are
    arguments; signatures and the JSON of messages are the classes
    [SubmissionLib] and [MessageJSON]. *)
From S2P Require Import Prelude GoLib Regex Files Util GoNum Backoff.

(** Signing; [None] is an error. *)
Class SubmissionLib := {
  Ed25519SignWithSeedFile : string → string → option string;
}.

Inductive StoreType := Unknown | Directory.

(** A file of the spool: the priority of its directory and its name. *)
Abbreviation spool_path := (Z * string)%type.

Section Messages.
Context `{SL : SubmissionLib}.

(** Times are nanoseconds, [None] is the zero time. *)
Record Message := {
  m_ID : string;
  m_Subject : string;
  m_Payload : string;
  m_Reliable : bool;
  m_Priority : Z;
  m_Created : option Z;
  m_TTL : float64;
  m_MaxTries : Z;
  m_Tries : Z;
  m_NextTry : option Z;
  m_Sender : string;
  m_Identity : string;
  m_Sign : bool;
  m_Headers : gmap string string;
  m_st : StoreType;
  (** the file of a message that was read from the spool *)
  m_sm : option spool_path;
}.

Definition defaultTTL : Z := 7 * 24 * Hour.
Definition maxTTL : Z := 31 * 24 * Hour.

Definition newMessage (id : string) (now : Z) (sender : string) : Message :=
  {| m_ID := id; m_Subject := ""; m_Payload := ""; m_Reliable := false; m_Priority := 0;
     m_Created := Some now; m_TTL := Seconds defaultTTL; m_MaxTries := 500;
     m_Tries := 0; m_NextTry := None; m_Sender := sender; m_Identity := ""; m_Sign := false;
     m_Headers := ∅; m_st := Unknown; m_sm := None |}.

Inductive msg_error :=
| ErrMessageExpired
| ErrMessageMaxTries
| ErrSeedFileNotSet
| ErrSeedFileNotFound
| ErrSignatureFailed (why : string)
| ErrReservedHeaderName
| ErrMessage (why : string).

Definition reserved_header (k : string) : bool :=
  has_prefix (to_lower k) "choria" || has_prefix (to_lower k) "nats".

Definition msg_Validate (now : Z) (m : Message) : outcome msg_error () :=
  if String.eqb (m_Subject m) "" then Err (ErrMessage "subject is required")
  else if Nat.eqb (String.length (m_Payload m)) 0 then Err (ErrMessage "payload is required")
  else if (4 <? m_Priority m)%Z then Err (ErrMessage "priority must be 0...4")
  else
    match m_Created m with
    | None => Err (ErrMessage "created time is zero")
    | Some created =>
        if f64_eqb (m_TTL m) (f64_of_Z 0) then Err (ErrMessage "ttl may not be 0")
        else if f64_ltb (Seconds maxTTL) (m_TTL m)
        then Err (ErrMessage "ttl exceeds maximum")
        else if String.eqb (m_Sender m) "" then Err (ErrMessage "sender is required")
        else if (wrap64 (f64_trunc (m_TTL m) * Second) <? now - created)%Z then Err ErrMessageExpired
        else if existsb (λ x, reserved_header x.1) (map_to_list (m_Headers m))
        then Err ErrReservedHeaderName
        else Ok tt
    end.

(** [nats.Msg]: subject, headers in the order they were added, data. *)
Record NatsMsg := {
  nm_Subject : string;
  nm_Header : list (string * string);
  nm_Data : string;
}.

(** The headers and checks of a signed message. *)
Definition sign_headers (fs : filesystem) (seed token data : string) :
    outcome msg_error (list (string * string)) :=
  if String.eqb seed "" then Err ErrSeedFileNotSet
  else if negb (FileExistIn fs seed) then Err ErrSeedFileNotFound
  else
    match Ed25519SignWithSeedFile seed data with
    | None => Err (ErrSignatureFailed "")
    | Some sig =>
        let sighdr := ("Choria-Signature", hex_encode sig) in
        if negb (String.eqb token "") && FileExistIn fs token then
          match os_Open fs token with
          | Ok t => Ok [("Choria-Token", t); sighdr]
          | Err e => Err (ErrSignatureFailed e)
          | Panic p => Panic p
          end
        else Ok [sighdr]
    end.

Definition NatsMessage (fs : filesystem) (now : Z) (prefix seed token : string) (m : Message) :
    outcome msg_error NatsMsg :=
  msg_Validate now m;;
  if (m_MaxTries m <=? m_Tries m)%Z then Err ErrMessageMaxTries
  else
    let hdrs :=
      map_to_list (m_Headers m) ++
      [("Nats-Msg-Id", m_ID m); ("Choria-Priority", itoa (m_Priority m));
       ("Choria-Created", itoa (default 0%Z (m_Created m))); ("Choria-Sender", m_Sender m)] ++
      (if m_Reliable m then [("Choria-Reliable", "1")] else []) ++
      (if (0 <? m_Tries m)%Z then [("Choria-Tries", itoa (m_Tries m))] else []) ++
      (if negb (String.eqb (m_Identity m) "") then [("Choria-Identity", m_Identity m)] else []) in
    signed ← (if m_Sign m then sign_headers fs seed token (m_Payload m) else Ok []);
    Ok {| nm_Subject := prefix +:+ m_Subject m; nm_Header := hdrs ++ signed;
          nm_Data := m_Payload m |}.

End Messages.

(** ** The directory spool *)

(** A file: its content, unless it cannot be read, and what may be done to it. *)
Record spool_file := {
  sf_content : option string;
  sf_removable : bool;
  sf_writable : bool;
}.

(** JSON of messages; the store's own fields are not encoded. *)
Class MessageJSON `{SubmissionLib} := {
  msg_Marshal : Message → option string;
  msg_Unmarshal : string → option Message;
}.

Record DirectorySpool := {
  sp_directory : string;
  sp_started : bool;
  sp_bo : Policy;
  sp_spoolMax : Z;
  sp_identity : string;
  (** the skip list of a priority, nil before its worker started *)
  sp_skipList : gmap Z (gset string);
  (** the files of each priority's directory *)
  sp_dirs : gmap Z (gmap string spool_file);
  (** files can be created in the spool directory *)
  sp_can_create : bool;
}.

Definition set_skip (s : gmap Z (gset string)) (d : DirectorySpool) : DirectorySpool :=
  {| sp_directory := sp_directory d; sp_started := sp_started d; sp_bo := sp_bo d;
     sp_spoolMax := sp_spoolMax d; sp_identity := sp_identity d; sp_skipList := s;
     sp_dirs := sp_dirs d; sp_can_create := sp_can_create d |}.

Definition set_dirs (x : gmap Z (gmap string spool_file)) (d : DirectorySpool) : DirectorySpool :=
  {| sp_directory := sp_directory d; sp_started := sp_started d; sp_bo := sp_bo d;
     sp_spoolMax := sp_spoolMax d; sp_identity := sp_identity d; sp_skipList := sp_skipList d;
     sp_dirs := x; sp_can_create := sp_can_create d |}.

Definition set_started (d : DirectorySpool) : DirectorySpool :=
  {| sp_directory := sp_directory d; sp_started := true; sp_bo := sp_bo d;
     sp_spoolMax := sp_spoolMax d; sp_identity := sp_identity d; sp_skipList := sp_skipList d;
     sp_dirs := sp_dirs d; sp_can_create := sp_can_create d |}.

Abbreviation SpoolM := (ST DirectorySpool string).

(** The path of a file, [filepath.Join] of a clean directory and names. *)
Definition render (d : DirectorySpool) (path : spool_path) : string :=
  sp_directory d +:+ "/P" +:+ itoa path.1 +:+ "/" +:+ path.2.

Definition find_file (d : DirectorySpool) (path : spool_path) : option spool_file :=
  files ← sp_dirs d !! path.1; files !! path.2.

Definition put_file (path : spool_path) (f : spool_file) (d : DirectorySpool) : DirectorySpool :=
  set_dirs (<[path.1 := <[path.2 := f]> (default ∅ (sp_dirs d !! path.1))]> (sp_dirs d)) d.

Definition drop_file (path : spool_path) (d : DirectorySpool) : DirectorySpool :=
  set_dirs (<[path.1 := delete path.2 (default ∅ (sp_dirs d !! path.1))]> (sp_dirs d)) d.

(** [os.Remove]: whether it worked. *)
Definition os_Remove (path : spool_path) (d : DirectorySpool) : DirectorySpool * bool :=
  match find_file d path with
  | None => (d, false)
  | Some f => if sf_removable f then (drop_file path d, true) else (d, false)
  end.

Section Spool.
Context `{SL : SubmissionLib} `{MJ : !MessageJSON}.

Definition NewDirectorySpool (dir : string) (maxSize : Z) (id : string) (can_create : bool) :
    res DirectorySpool :=
  if String.eqb dir "" then Err "spool is not configured"
  else if (maxSize <? 1)%Z then Err "spool size is too small"
  else if negb can_create then Err "could not create spool"
  else Ok {| sp_directory := dir; sp_started := false; sp_bo := FiveSec; sp_spoolMax := maxSize;
             sp_identity := id; sp_skipList := ∅;
             sp_dirs := list_to_map (map (λ i, (Z.of_nat i, ∅)) (seq 0 5));
             sp_can_create := can_create |}.

(** A file that cannot be removed goes on the skip list; writing to a nil map
    panics. *)
Definition removeCompletedWithSkip (p : Z) (path : spool_path) : SpoolM () := λ d,
  if String.eqb (render d path) "" then (d, Ok tt)
  else
    match os_Remove path d with
    | (d', true) => (d', Ok tt)
    | (d', false) =>
        match sp_skipList d' !! p with
        | None => (d', Panic "assignment to entry in nil map")
        | Some sl => (set_skip (<[p := {[render d' path]} ∪ sl]> (sp_skipList d')) d', Ok tt)
        end
    end.

Definition compactSkipList (p : Z) (known : gset string) (d : DirectorySpool) : DirectorySpool :=
  match sp_skipList d !! p with
  | None => d
  | Some sl => set_skip (<[p := filter (λ k, k ∈ known) sl]> (sp_skipList d)) d
  end.

Definition Discard (m : Message) : SpoolM () :=
  match m_st m with
  | Unknown => throw "not a disk spool message"
  | Directory =>
      match m_sm m with
      | None => panic "interface conversion: interface is nil, not string"
      | Some path => removeCompletedWithSkip (m_Priority m) path
      end
  end.

Definition Complete : Message → SpoolM () := Discard.

Definition set_tries (tries : Z) (next : option Z) (m : Message) : Message :=
  {| m_ID := m_ID m; m_Subject := m_Subject m; m_Payload := m_Payload m;
     m_Reliable := m_Reliable m; m_Priority := m_Priority m; m_Created := m_Created m;
     m_TTL := m_TTL m; m_MaxTries := m_MaxTries m; m_Tries := tries; m_NextTry := next;
     m_Sender := m_Sender m; m_Identity := m_Identity m; m_Sign := m_Sign m;
     m_Headers := m_Headers m; m_st := m_st m; m_sm := m_sm m |}.

Definition set_store (path : spool_path) (m : Message) : Message :=
  {| m_ID := m_ID m; m_Subject := m_Subject m; m_Payload := m_Payload m;
     m_Reliable := m_Reliable m; m_Priority := m_Priority m; m_Created := m_Created m;
     m_TTL := m_TTL m; m_MaxTries := m_MaxTries m; m_Tries := m_Tries m; m_NextTry := m_NextTry m;
     m_Sender := m_Sender m; m_Identity := m_Identity m; m_Sign := m_Sign m;
     m_Headers := m_Headers m; m_st := Directory; m_sm := Some path |}.

Definition wrapu64 (z : Z) : Z := (z `mod` 2 ^ 64)%Z.

(** The file is rewritten in place; one that cannot be written is removed. *)
Definition IncrementTries (rnd : Z → Z) (now : Z) (m : Message) : SpoolM () := λ d,
  match m_st m with
  | Unknown => (d, Err "not a disk spool message")
  | Directory =>
      let tries := wrapu64 (m_Tries m + 1) in
      match Backoff.Duration rnd (sp_bo d) (wrap64 tries) with
      | Err e => (d, Err e)
      | Panic p => (d, Panic p)
      | Ok wait =>
          let m := set_tries tries (Some (now + wait)%Z) m in
          if (m_MaxTries m <=? m_Tries m)%Z then Discard m d
          else
            match msg_Marshal m with
            | None => (d, Err "json: unsupported value")
            | Some j =>
                match m_sm m with
                | None => Discard m d
                | Some path =>
                    match find_file d path, sp_dirs d !! path.1 with
                    | Some f, _ =>
                        if sf_writable f
                        then (put_file path {| sf_content := Some j; sf_removable := sf_removable f;
                                               sf_writable := true |} d, Ok tt)
                        else Discard m d
                    | None, Some _ =>
                        (put_file path {| sf_content := Some j; sf_removable := true;
                                          sf_writable := true |} d, Ok tt)
                    | None, None => Discard m d
                    end
                end
            end
      end
  end.

Definition NewMessage (id : string) (now : Z) (d : DirectorySpool) : Message :=
  let m := newMessage id now (sp_identity d) in
  {| m_ID := m_ID m; m_Subject := m_Subject m; m_Payload := m_Payload m;
     m_Reliable := m_Reliable m; m_Priority := m_Priority m; m_Created := m_Created m;
     m_TTL := m_TTL m; m_MaxTries := m_MaxTries m; m_Tries := m_Tries m; m_NextTry := m_NextTry m;
     m_Sender := m_Sender m; m_Identity := sp_identity d; m_Sign := m_Sign m;
     m_Headers := m_Headers m; m_st := Directory; m_sm := None |}.

Definition readMessage (path : spool_path) (f : spool_file) : option Message :=
  j ← sf_content f; m ← msg_Unmarshal j; Some (set_store path m).

(** The message files of a priority in the order of their names. *)
Definition entries (p : Z) (d : DirectorySpool) : res (list (string * spool_file)) :=
  match sp_dirs d !! p with
  | None => Err "no such file or directory"
  | Some files =>
      let names := sort_strings (map fst (map_to_list files)) in
      Ok (omap (λ n, if has_suffix n ".msg" then f ← files !! n; Some (n, f) else None) names)
  end.

Definition countEntries (p : Z) (d : DirectorySpool) : nat :=
  match entries p d with Ok l => length l | _ => 0%nat end.

(** The loop of [processDir] over the entries found, collecting the messages to
    hand over. *)
Fixpoint process_entries (now p : Z) (es : list (string * spool_file)) (msgs : list Message) :
    SpoolM (list Message) :=
  match es with
  | [] => mret msgs
  | (name, f) :: rest =>
      d ← gets id;
      let path := (p, name) in
      if bool_decide (render d path ∈ default ∅ (sp_skipList d !! p)) then
        modify (λ d, (os_Remove path d).1);; process_entries now p rest msgs
      else
        match readMessage path f with
        | None => removeCompletedWithSkip p path;; process_entries now p rest msgs
        | Some m =>
            if (m_MaxTries m <=? m_Tries m)%Z
            then removeCompletedWithSkip p path;; process_entries now p rest msgs
            else if (0 <? m_Tries m)%Z && match m_NextTry m with Some t => (now <? t)%Z | None => false end
            then process_entries now p rest msgs
            else process_entries now p rest (msgs ++ [m])
        end
  end.

(** [processDir] without the handler: the messages it is called with. *)
Definition collect (now p : Z) : SpoolM (list Message) := λ d,
  match entries p d with
  | Err e => (d, Err e)
  | Panic w => (d, Panic w)
  | Ok es =>
      match process_entries now p es [] d with
      | (d', Ok msgs) => (compactSkipList p (list_to_set (map fst es)) d', Ok msgs)
      | r => r
      end
  end.

(** The handler answers with the log of what it published. *)
Definition processDir {A} (now p : Z) (handler : list Message → SpoolM (list A)) : SpoolM (list A) :=
  msgs ← collect now p;
  if Nat.eqb (length msgs) 0 then mret [] else handler msgs.

(** [StartPoll] resets the skip list of every priority when its worker starts. *)
Definition StartPoll : SpoolM () := λ d,
  if sp_started d then (d, Err "already started")
  else (set_skip (list_to_map (map (λ i, (Z.of_nat i, ∅)) (seq 0 5)) ∪ sp_skipList d) (set_started d), Ok tt).

Definition newMsgName (now : Z) (uid : string) : string := itoa now +:+ "-" +:+ uid +:+ ".msg".

Definition spool_Submit (now : Z) (uid : string) (m : Message) : SpoolM () := λ d,
  match msg_Validate now m with
  | Err _ => (d, Err "invalid message")
  | Panic p => (d, Panic p)
  | Ok _ =>
      if (sp_spoolMax d <? Z.of_nat (countEntries (m_Priority m) d))%Z then (d, Err "spool is full")
      else
        match msg_Marshal m with
        | None => (d, Err "json: unsupported value")
        | Some j =>
            if negb (sp_can_create d) then (d, Err "could not create file")
            else
              match sp_dirs d !! m_Priority m with
              | None => (d, Err "no such file or directory")
              | Some _ =>
                  (put_file (m_Priority m, newMsgName now uid)
                     {| sf_content := Some j; sf_removable := true; sf_writable := true |} d, Ok tt)
              end
        end
  end.

(** ** Publishing *)

(** How one publish turns out: the answer of an unreliable one is only whether it
    was sent. *)
Inductive publish_result := Published | RequestFailed | InvalidAck | AckError.

Inductive attempt_kind := Unreliable | ReliableTry.

Record attempted := {
  at_kind : attempt_kind;
  at_message : Message;
  at_result : publish_result;
}.

Record spool_opts := {
  so_prefix : string;
  so_seedFile : string;
  so_tokenFile : string;
}.

Definition new_prefix (collective : string) : string := collective +:+ ".submission.in.".

Variable fs : filesystem.
Variable o : spool_opts.
Variable rnd : Z → Z.
Variable now : Z.
(** the answer of the network to each message *)
Variable net : Message → publish_result.

(** [publishReliable]: a message is discarded once its acknowledgement arrived. *)
Definition publishReliable (m : Message) : SpoolM publish_result :=
  match net m with
  | Published => attempt (F:=string) (Discard m);; mret Published
  | r => mret r
  end.

(** The handler [Run] polls with; [skipReliable] is set by the first reliable
    message that fails. The log lists what was published, in order. *)
Fixpoint handle (msgs : list Message) (skipReliable : bool) (log : list attempted) :
    SpoolM (list attempted) :=
  match msgs with
  | [] => mret log
  | m :: rest =>
      match NatsMessage fs now (so_prefix o) (so_seedFile o) (so_tokenFile o) m with
      | Panic p => panic p
      | Err _ => attempt (F:=string) (Discard m);; handle rest skipReliable log
      | Ok _ =>
          if negb (m_Reliable m) then
            attempt (F:=string) (Discard m);;
            handle rest skipReliable
              (log ++ [{| at_kind := Unreliable; at_message := m; at_result := net m |}])
          else if skipReliable then handle rest skipReliable log
          else
            r ← publishReliable m;
            let log := log ++ [{| at_kind := ReliableTry; at_message := m; at_result := r |}] in
            match r with
            | Published => handle rest skipReliable log
            | _ => attempt (F:=string) (IncrementTries rnd now m);; handle rest true log
            end
      end
  end.

End Spool.

(** * Message submission: properties

    Ordering of reliable messages, what stays in the spool, its size and its skip
    list. *)

Section Proofs.
Context `{SL : SubmissionLib} `{MJ : !MessageJSON}.

(** ** Files *)

Lemma find_put path f d path' :
  find_file (put_file path f d) path' = if decide (path = path') then Some f else find_file d path'.
Proof.
  destruct path as [p n], path' as [p' n']. unfold find_file, put_file. simpl.
  destruct (decide (p = p')) as [<-|Hp].
  - rewrite lookup_insert_eq. simpl. destruct (decide (n = n')) as [<-|Hn].
    + by rewrite lookup_insert_eq, decide_True.
    + rewrite lookup_insert_ne, decide_False by congruence. by destruct (sp_dirs d !! p).
  - by rewrite lookup_insert_ne, decide_False by congruence.
Qed.

Lemma find_drop path d path' :
  find_file (drop_file path d) path' = if decide (path = path') then None else find_file d path'.
Proof.
  destruct path as [p n], path' as [p' n']. unfold find_file, drop_file. simpl.
  destruct (decide (p = p')) as [<-|Hp].
  - rewrite lookup_insert_eq. simpl. destruct (decide (n = n')) as [<-|Hn].
    + by rewrite lookup_delete_eq, decide_True.
    + rewrite lookup_delete_ne, decide_False by congruence. by destruct (sp_dirs d !! p).
  - by rewrite lookup_insert_ne, decide_False by congruence.
Qed.

(** The parts of a spool no operation on a message changes. *)
Definition same_spool (d d' : DirectorySpool) : Prop :=
  sp_directory d' = sp_directory d ∧ sp_bo d' = sp_bo d ∧ sp_spoolMax d' = sp_spoolMax d ∧
  dom (sp_skipList d') = dom (sp_skipList d).

Lemma same_spool_refl d : same_spool d d.
Proof. by repeat split. Qed.

Lemma same_spool_trans d1 d2 d3 : same_spool d1 d2 → same_spool d2 d3 → same_spool d1 d3.
Proof. unfold same_spool. intuition congruence. Qed.

(** [m] only touches the file at [path]. *)
Definition only (path : spool_path) (d d' : DirectorySpool) : Prop :=
  same_spool d d' ∧ ∀ path', path' ≠ path → find_file d' path' = find_file d path'.

Lemma only_refl path d : only path d d.
Proof. split; [apply same_spool_refl|done]. Qed.

Lemma os_Remove_only path d : only path d (os_Remove path d).1.
Proof.
  unfold os_Remove. destruct (find_file d path) as [f|]; [|apply only_refl].
  destruct (sf_removable f); [|apply only_refl]. split; [by repeat split|].
  intros path' Hp. simpl. rewrite find_drop. by rewrite decide_False by done.
Qed.

Lemma remove_only p path d : is_Some (sp_skipList d !! p) →
  ∃ d', removeCompletedWithSkip p path d = (d', Ok tt) ∧ only path d d'.
Proof.
  intros Hs. unfold removeCompletedWithSkip. case_match; [exists d; split; [done|apply only_refl]|].
  pose proof (os_Remove_only path d) as Ho. destruct (os_Remove path d) as [d' []]; simpl in Ho;
    [by exists d'|]. destruct Ho as [(Hd & Hb & Hm & Hdom) Hf].
  assert (is_Some (sp_skipList d' !! p)) as [sl Hsl].
  { apply elem_of_dom. rewrite Hdom. by apply elem_of_dom. }
  rewrite Hsl. eexists; split; [done|]. split; [|exact Hf]. repeat split; [done..|]. simpl.
  rewrite dom_insert_L. rewrite <- Hdom. apply elem_of_dom_2 in Hsl. set_solver.
Qed.

(** A message a poll collected. *)
Definition from_spool (d : DirectorySpool) (m : Message) (path : spool_path) : Prop :=
  m_st m = Directory ∧ m_sm m = Some path ∧ is_Some (sp_skipList d !! m_Priority m).

Lemma discard_only d m path : from_spool d m path →
  ∃ d', Discard m d = (d', Ok tt) ∧ only path d d'.
Proof.
  intros (Hst & Hsm & Hs). unfold Discard. rewrite Hst, Hsm. by apply remove_only.
Qed.

Lemma from_spool_same d d' m path : same_spool d d' → from_spool d m path → from_spool d' m path.
Proof.
  intros (_ & _ & _ & Hdom) (Hst & Hsm & Hs). split_and!; [done..|].
  apply elem_of_dom. rewrite Hdom. by apply elem_of_dom.
Qed.

Lemma increment_only rnd now d m path : random rnd → sane (sp_bo d) → (0 ≤ m_Tries m < 2 ^ 63 - 1)%Z →
  from_spool d m path →
  ∃ d', (attempt (F:=string) (IncrementTries rnd now m) d).1 = d' ∧
    (∃ r, (attempt (F:=string) (IncrementTries rnd now m) d).2 = Ok r) ∧ only path d d'.
Proof.
  intros Hr Hb Ht Hf. eexists; split; [done|]. unfold attempt, IncrementTries.
  pose proof Hf as (Hst & Hsm & Hs). rewrite Hst.
  assert (wrap64 (wrapu64 (m_Tries m + 1)) = Z.of_nat (Z.to_nat (m_Tries m + 1))) as ->.
  { unfold wrapu64. change (2 ^ 63)%Z with 9223372036854775808%Z in Ht.
    rewrite Z.mod_small by (change (2 ^ 64)%Z with 18446744073709551616%Z; lia).
    rewrite wrap64_small; [lia|]. change int64_min with (-9223372036854775808)%Z.
    change int64_max with 9223372036854775807%Z. lia. }
  destruct (duration_wait rnd (sp_bo d) (Z.to_nat (m_Tries m + 1)) Hr Hb) as (w & -> & _).
  set (m' := set_tries _ _ m).
  assert (from_spool d m' path) as Hf' by done.
  destruct (discard_only d m' path Hf') as (d1 & Hd & Hod).
  assert (∀ P : DirectorySpool * outcome string () → Prop, P (d1, Ok tt) → P (Discard m' d)) as Hdisc
    by by rewrite Hd.
  assert (∀ f, only path d (put_file path f d)) as Hput.
  { intros f. split; [by repeat split|]. intros path' Hp. rewrite find_put. by rewrite decide_False. }
  destruct (m_MaxTries m' <=? m_Tries m')%Z; [rewrite Hd; simpl; eauto|].
  destruct (msg_Marshal m') as [j|]; [|simpl; split; [eauto|apply only_refl]].
  change (m_sm m') with (m_sm m). rewrite Hsm.
  destruct (find_file d path) as [f|]; [destruct (sf_writable f)|destruct (sp_dirs d !! path.1)];
    rewrite ?Hd; simpl; eauto.
Qed.

(** ** One batch *)

Variable fs : filesystem.
Variable o : spool_opts.
Variable rnd : Z → Z.
Variable now : Z.
Variable net : Message → publish_result.

Definition publishable (m : Message) : bool :=
  is_ok (NatsMessage fs now (so_prefix o) (so_seedFile o) (so_tokenFile o) m).

(** The reliable messages of a batch that can be published. *)
Definition sendable (msgs : list Message) : list Message :=
  List.filter (λ m, publishable m && m_Reliable m) msgs.

Definition is_published (r : publish_result) : bool :=
  match r with Published => true | _ => false end.

(** In order, up to and with the first one that fails. *)
Fixpoint tries (l : list Message) : list Message :=
  match l with
  | [] => []
  | m :: rest => m :: (if is_published (net m) then tries rest else [])
  end.

Definition reliable_log (log : list attempted) : list (Message * publish_result) :=
  omap (λ a, match at_kind a with ReliableTry => Some (at_message a, at_result a) | _ => None end) log.

(** What a poll hands over: messages of distinct files. *)
Definition batch (d : DirectorySpool) (msgs : list Message) : Prop :=
  NoDup (map m_sm msgs) ∧
  ∀ m, m ∈ msgs → ∃ path, from_spool d m path ∧ (0 ≤ m_Tries m < 2 ^ 63 - 1)%Z.

Lemma batch_same d d' msgs : same_spool d d' → batch d msgs → batch d' msgs.
Proof.
  intros Hs [Hn Hb]. split; [done|]. intros m Hm. destruct (Hb m Hm) as (path & Hf & ?).
  exists path. split; [by eapply from_spool_same|done].
Qed.

Lemma batch_cons d m msgs : batch d (m :: msgs) →
  batch d msgs ∧ ∃ path, from_spool d m path ∧ (0 ≤ m_Tries m < 2 ^ 63 - 1)%Z ∧
    ∀ m', m' ∈ msgs → m_sm m' ≠ Some path.
Proof.
  intros [Hn Hb]. simpl in Hn. apply NoDup_cons in Hn as [Hm Hn].
  destruct (Hb m) as (path & Hf & Ht); [by apply elem_of_cons; left|]. split.
  - split; [done|]. intros m' Hm'. apply Hb. by apply elem_of_cons; right.
  - exists path. split; [done|]. split; [done|]. intros m' Hm' Heq. apply Hm.
    destruct Hf as (_ & -> & _). rewrite <- Heq. by apply list_elem_of_fmap_2.
Qed.

Lemma os_Open_no_panic path p : os_Open fs path ≠ Panic p.
Proof. unfold os_Open. by repeat case_match. Qed.

Lemma sign_headers_no_panic seed token data p : sign_headers fs seed token data ≠ Panic p.
Proof.
  unfold sign_headers. pose proof (os_Open_no_panic token) as Ho.
  destruct (os_Open fs token) as [t|e|q]; [..|by destruct (Ho q)]; by repeat case_match.
Qed.

Lemma NatsMessage_no_panic m p :
  NatsMessage fs now (so_prefix o) (so_seedFile o) (so_tokenFile o) m ≠ Panic p.
Proof.
  unfold NatsMessage. unfold mbind, outcome_bind.
  assert (∀ q, msg_Validate now m ≠ Panic q) as Hv by (intros q; unfold msg_Validate; by repeat case_match).
  destruct (msg_Validate now m) as [?|e|q]; [|done|by destruct (Hv q)].
  destruct (_ <=? _)%Z; [done|]. destruct (m_Sign m); [|done].
  pose proof (sign_headers_no_panic (so_seedFile o) (so_tokenFile o) (m_Payload m)) as Hs.
  destruct (sign_headers _ _ _ _) as [?|e|q]; [done|done|by destruct (Hs q)].
Qed.

(** The handler keeps what is not the file of a message it acts on. *)
Definition keeps_others (msgs acted : list Message) (d d' : DirectorySpool) : Prop :=
  (∀ path, (∀ m, m ∈ msgs → m_sm m ≠ Some path) → find_file d' path = find_file d path) ∧
  (∀ m path, m ∈ msgs → m_sm m = Some path → publishable m = true → m_Reliable m = true →
     m ∉ acted → find_file d' path = find_file d path).

Lemma keeps_others_step m path msgs acted acted' d d1 d2 :
  m_sm m = Some path → (∀ m', m' ∈ msgs → m_sm m' ≠ Some path) → only path d d1 →
  (publishable m = true → m_Reliable m = true → m ∈ acted ∨ find_file d1 path = find_file d path) →
  (∀ x, x ∈ acted' → x ∈ acted) →
  keeps_others msgs acted' d1 d2 → keeps_others (m :: msgs) acted d d2.
Proof.
  intros Hsm Hdist [_ Honly] Hm Hsub [Hout Hkeep]. split.
  - intros path' Hp. rewrite Hout, Honly; [done| |].
    + intros ->. by apply (Hp m); [apply elem_of_cons; left|].
    + intros m' Hm'. apply Hp. by apply elem_of_cons; right.
  - intros m' path' [->|Hm']%elem_of_cons Hsm' Hpub Hrel Hnot.
    + rewrite Hsm in Hsm'. injection Hsm' as <-. rewrite Hout by done.
      destruct (Hm Hpub Hrel); [done|done].
    + rewrite (Hkeep m' path'); [|done..|by intros ?%Hsub]. apply Honly. intros ->. by apply (Hdist m').
Qed.

(** The handler on a message it publishes reliably. *)
Lemma handle_reliable m msgs log d :
  publishable m = true → m_Reliable m = true →
  handle fs o rnd now net (m :: msgs) false log d =
  (if is_published (net m)
   then attempt (F:=string) (Discard m);;
        handle fs o rnd now net msgs false
          (log ++ [{| at_kind := ReliableTry; at_message := m; at_result := net m |}])
   else attempt (F:=string) (IncrementTries rnd now m);;
        handle fs o rnd now net msgs true
          (log ++ [{| at_kind := ReliableTry; at_message := m; at_result := net m |}])) d.
Proof.
  unfold publishable. cbn [handle]. destruct (NatsMessage _ _ _ _ _ m); [|done..]. intros _ ->.
  cbn [negb]. unfold publishReliable, mbind, ST_bind.
  destruct (net m); cbn [is_published]; unfold mret, ST_ret; [|done..].
  by destruct (attempt (Discard m) d) as [d' [?|?|?]].
Qed.

(** Any other message: discarded or left. *)
Lemma handle_other m msgs skip log d path : from_spool d m path →
  (publishable m && m_Reliable m = false ∨ skip = true) →
  ∃ d1 l, handle fs o rnd now net (m :: msgs) skip log d =
            handle fs o rnd now net msgs skip (log ++ l) d1 ∧
    only path d d1 ∧ reliable_log l = [] ∧
    (publishable m = true → m_Reliable m = true → d1 = d).
Proof.
  intros Hf Hm. destruct (discard_only d m path Hf) as (d1 & Hd & Hod).
  unfold publishable in *. cbn [handle]. pose proof (NatsMessage_no_panic m) as Hnp.
  unfold mbind, ST_bind, attempt.
  destruct (NatsMessage _ _ _ _ _ m) as [nm|e|p]; [|..|by destruct (Hnp p)]; cbn [is_ok andb] in *.
  - destruct (m_Reliable m); cbn [negb].
    + destruct Hm as [?| ->]; [done|]. exists d, []. rewrite app_nil_r.
      split_and!; [done|apply only_refl|done|done].
    + rewrite Hd. eexists d1, [_]. by split_and!.
  - rewrite Hd. exists d1, []. rewrite app_nil_r. by split_and!.
Qed.

Lemma handle_spec msgs skip log d : random rnd → sane (sp_bo d) → batch d msgs →
  ∃ d' log', handle fs o rnd now net msgs skip log d = (d', Ok (log ++ log')) ∧ same_spool d d' ∧
    reliable_log log' = map (λ m, (m, net m)) (if skip then [] else tries (sendable msgs)) ∧
    keeps_others msgs (if skip then [] else tries (sendable msgs)) d d'.
Proof.
  intros Hr. revert skip log d. induction msgs as [|m msgs IH]; intros skip log d Hbo Hb.
  - exists d, []. rewrite app_nil_r. split_and!; [done|apply same_spool_refl|by destruct skip|].
    split; [done|]. intros ? ? Hm. by apply elem_of_nil in Hm.
  - destruct (batch_cons _ _ _ Hb) as (Hb' & path & Hf & Ht & Hdist). pose proof Hf as (_ & Hsm & _).
    assert (∀ d1, only path d d1 → sane (sp_bo d1) ∧ batch d1 msgs) as Hnext.
    { intros d0 [Hs _]. split; [by destruct Hs as (_ & -> & _)|by eapply batch_same]. }
    destruct (decide (publishable m && m_Reliable m = false ∨ skip = true)) as [Hm|Hm].
    + destruct (handle_other m msgs skip log d path Hf Hm) as (d1 & l & -> & Hod & Hl & Hsame).
      destruct (Hnext d1 Hod) as [Hbo1 Hb1].
      destruct (IH skip (log ++ l) d1 Hbo1 Hb1) as (d' & l' & -> & Hs & Hl' & Hk).
      assert ((if skip then [] else tries (sendable (m :: msgs))) =
              (if skip then [] else tries (sendable msgs))) as ->.
      { destruct skip; [done|]. unfold sendable. simpl. destruct Hm as [->|?]; done. }
      exists d', (l ++ l'). rewrite <- app_assoc. split_and!; [done| | |].
      * eapply same_spool_trans; [apply Hod|done].
      * unfold reliable_log in *. by rewrite omap_app, Hl, Hl'.
      * eapply keeps_others_step; [done|done|exact Hod| |done|exact Hk].
        intros Hp Hrel. right. by rewrite (Hsame Hp Hrel).
    + destruct skip; [tauto|].
      assert (publishable m = true ∧ m_Reliable m = true) as [Hp Hrel]
        by (destruct (publishable m), (m_Reliable m); tauto).
      rewrite handle_reliable by done. unfold sendable. cbn [List.filter]. rewrite Hp, Hrel.
      cbn [andb tries]. fold (sendable msgs).
      assert (∀ d1 sk, only path d d1 → (sk = negb (is_published (net m))) →
        ∃ d' log', handle fs o rnd now net msgs sk
            (log ++ [{| at_kind := ReliableTry; at_message := m; at_result := net m |}]) d1 =
            (d', Ok (log ++ log')) ∧ same_spool d d' ∧
          reliable_log log' = map (λ m, (m, net m))
            (m :: (if is_published (net m) then tries (sendable msgs) else [])) ∧
          keeps_others (m :: msgs) (m :: (if is_published (net m) then tries (sendable msgs) else [])) d d') as Hgo.
      { intros d1 sk Hod ->. destruct (Hnext d1 Hod) as [Hbo1 Hb1].
        edestruct (IH (negb (is_published (net m)))) as (d' & l & -> & Hs & Hl & Hk); [done|done|].
        eexists d', (_ :: l). rewrite <- app_assoc. split_and!; [done| | |].
        - eapply same_spool_trans; [apply Hod|done].
        - match goal with |- reliable_log (?x :: l) = _ => change (reliable_log (x :: l)) with ((m, net m) :: reliable_log l) end. rewrite Hl.
          by destruct (is_published (net m)).
        - eapply keeps_others_step; [done|done|exact Hod|intros; left; by apply elem_of_cons; left| |exact Hk].
          intros x Hx. apply elem_of_cons. right. by destruct (is_published (net m)). }
      destruct (is_published (net m)) eqn:Hnet; unfold mbind, ST_bind.
      * destruct (discard_only d m path Hf) as (d1 & Hd & Hod). unfold attempt. rewrite Hd. by apply Hgo.
      * destruct (increment_only rnd now d m path Hr Hbo Ht Hf) as (d1 & Hd1 & [r Hr1] & Hod).
        destruct (attempt (IncrementTries rnd now m) d) as [d2 o2]. simpl in Hd1, Hr1. subst. by apply Hgo.
Qed.

Lemma tries_split l : ∃ acked rest, l = acked ++ rest ∧
  (∀ m, m ∈ acked → net m = Published) ∧ tries l = acked ++ take 1 rest ∧
  (∀ m, head rest = Some m → net m ≠ Published).
Proof.
  induction l as [|m l (acked & rest & -> & Ha & Ht & Hh)].
  - exists [], []. split_and!; [done| |done|done]. by intros m ?%elem_of_nil.
  - simpl. destruct (net m) eqn:Hn; simpl.
    + exists (m :: acked), rest. split_and!; [done| |by rewrite Ht|done].
      by intros x [->|?]%elem_of_cons; [|apply Ha].
    + exists [], (m :: acked ++ rest). split_and!; [done|by intros x ?%elem_of_nil|done|].
      intros x [= <-]. congruence.
    + exists [], (m :: acked ++ rest). split_and!; [done|by intros x ?%elem_of_nil|done|].
      intros x [= <-]. congruence.
    + exists [], (m :: acked ++ rest). split_and!; [done|by intros x ?%elem_of_nil|done|].
      intros x [= <-]. congruence.
Qed.

Lemma sendable_distinct msgs : NoDup (map m_sm msgs) → NoDup (sendable msgs).
Proof.
  induction msgs as [|m msgs IH]; intros Hn; [constructor|]. simpl in Hn.
  apply NoDup_cons in Hn as [Hm Hn]. unfold sendable. cbn [List.filter]. fold (sendable msgs).
  destruct (_ && _); [|auto]. constructor; [|auto]. intros Hin. apply Hm.
  apply list_elem_of_In, List.filter_In in Hin as [Hin _]. apply list_elem_of_In in Hin.
  by apply list_elem_of_fmap_2.
Qed.

Lemma sendable_elem m msgs : m ∈ sendable msgs → m ∈ msgs ∧ publishable m = true ∧ m_Reliable m = true.
Proof.
  unfold sendable. rewrite list_elem_of_In, List.filter_In, andb_true_iff, <- list_elem_of_In. tauto.
Qed.

(** ** The size of the spool *)

Lemma countEntries_spec p d files : sp_dirs d !! p = Some files →
  countEntries p d = length (List.filter (λ n, has_suffix n ".msg") (map fst (map_to_list files))).
Proof.
  intros Hd. unfold countEntries, entries. rewrite Hd.
  assert (∀ l, (∀ n, n ∈ l → is_Some (files !! n)) →
    length (omap (λ n, if has_suffix n ".msg" then f ← files !! n; Some (n, f) else None) l) =
    length (List.filter (λ n, has_suffix n ".msg") l)) as Hl.
  { induction l as [|n l IH]; intros Hin; [done|]. simpl.
    destruct (Hin n ltac:(by apply elem_of_cons; left)) as [f Hf].
    assert (∀ n, n ∈ l → is_Some (files !! n)) as Hin' by (intros; apply Hin; by apply elem_of_cons; right).
    destruct (has_suffix n ".msg"); simpl; [rewrite Hf; simpl; f_equal|]; by apply IH. }
  rewrite Hl.
  - apply Permutation_length. generalize (sort_strings_perm (map fst (map_to_list files))).
    generalize (sort_strings (map fst (map_to_list files))). intros l Hp.
    induction Hp as [|x l l' Hp IH|x y l|l1 l2 l3 _ IH1 _ IH2]; simpl.
    + done.
    + destruct (has_suffix x ".msg"); [by constructor|done].
    + destruct (has_suffix x ".msg"), (has_suffix y ".msg"); try done. by constructor.
    + by etransitivity.
  - intros n Hn. apply sort_strings_elem, list_elem_of_fmap in Hn as ([n' f] & -> & Hn).
    apply elem_of_map_to_list in Hn. by exists f.
Qed.
(** ** Polls *)

(** What a poll makes of a file: the message to hand over, if any. *)
Definition select (d : DirectorySpool) (p : Z) (e : string * spool_file) : option Message :=
  if bool_decide (render d (p, e.1) ∈ default ∅ (sp_skipList d !! p)) then None
  else
    m ← readMessage (p, e.1) e.2;
    if (m_MaxTries m <=? m_Tries m)%Z then None
    else if (0 <? m_Tries m)%Z && match m_NextTry m with Some t => (now <? t)%Z | None => false end
    then None else Some m.

(** [m] leaves the skip lists as they are, but for the path of one file. *)
Definition only_skips (path : spool_path) (d d' : DirectorySpool) : Prop :=
  ∀ p sl sl', sp_skipList d !! p = Some sl → sp_skipList d' !! p = Some sl' →
    ∀ x, x ≠ render d path → (x ∈ sl' ↔ x ∈ sl).

Lemma remove_skips p path d d' r : removeCompletedWithSkip p path d = (d', r) → only_skips path d d'.
Proof.
  unfold removeCompletedWithSkip, os_Remove. intros H q sl sl' Hsl Hsl' x Hx.
  assert (∀ d1 : DirectorySpool, sp_skipList d1 = sp_skipList d → sp_directory d1 = sp_directory d →
    match sp_skipList d1 !! p with
    | None => (d1, Panic (E:=string) (A:=()) "assignment to entry in nil map")
    | Some sl => (set_skip (<[p := {[render d1 path]} ∪ sl]> (sp_skipList d1)) d1, Ok tt)
    end = (d', r) → x ∈ sl' ↔ x ∈ sl) as Hgo.
  { intros d1 Hs Hd. rewrite Hs. assert (render d1 path = render d path) as -> by (unfold render; by rewrite Hd).
    destruct (sp_skipList d !! p) as [sl0|] eqn:Hp; intros [= <- <-]; [|rewrite Hs in Hsl'; set_solver].
    simpl in Hsl'. destruct (decide (p = q)) as [<-|]; [rewrite lookup_insert_eq in Hsl'
      |rewrite lookup_insert_ne in Hsl' by done]; simplify_eq; set_solver. }
  destruct (String.eqb _ _); [simplify_eq; set_solver|].
  destruct (find_file d path) as [f|]; [|by eapply (Hgo d)].
  destruct (sf_removable f); [simplify_eq; simpl in Hsl'; set_solver|by eapply (Hgo d)].
Qed.

Lemma render_inj d p n n' : render d (p, n) = render d (p, n') → n = n'.
Proof. unfold render. cbn [fst snd]. intros H. by do 4 apply (inj (String.append _)) in H. Qed.

Lemma readMessage_path path f m : readMessage path f = Some m → m_st m = Directory ∧ m_sm m = Some path.
Proof.
  unfold readMessage. intros (j & _ & H)%bind_Some. apply bind_Some in H as (m' & _ & [= <-]). done.
Qed.

Definition dom_skips (p : Z) (d : DirectorySpool) : Prop := is_Some (sp_skipList d !! p).

(** One file that is not handed over. *)
Lemma process_step p n f es msgs d : dom_skips p d → select d p (n, f) = None →
  ∃ d1, process_entries now p ((n, f) :: es) msgs d = process_entries now p es msgs d1 ∧
    only (p, n) d d1 ∧ only_skips (p, n) d d1.
Proof.
  intros Hs Hsel. cbn [process_entries]. unfold gets, id, mbind, ST_bind, modify.
  unfold select in Hsel. cbn [fst snd] in Hsel.
  assert (only_skips (p, n) d d) as Hrefl by (intros q sl sl' ???; simplify_eq; done).
  destruct (remove_only p (p, n) d Hs) as (d2 & Hd2 & Ho2).
  destruct (bool_decide _).
  - eexists. split; [done|]. split; [apply os_Remove_only|].
    intros q sl sl' Hsl Hsl' x _. unfold os_Remove in Hsl'.
    destruct (find_file d (p, n)) as [g|]; [destruct (sf_removable g)|]; simpl in Hsl'; by simplify_eq.
  - destruct (readMessage (p, n) f) as [m|]; simpl in Hsel.
    + destruct (m_MaxTries m <=? m_Tries m)%Z.
      * exists d2. rewrite Hd2. split; [done|]. split; [done|]. by eapply remove_skips.
      * destruct (_ && _); [|done]. exists d. split; [done|]. by split; [apply only_refl|].
    + exists d2. rewrite Hd2. split; [done|]. split; [done|]. by eapply remove_skips.
Qed.

Lemma process_take p n f es msgs d m : select d p (n, f) = Some m →
  process_entries now p ((n, f) :: es) msgs d = process_entries now p es (msgs ++ [m]) d.
Proof.
  intros Hsel. cbn [process_entries]. unfold gets, id, mbind, ST_bind, modify.
  unfold select in Hsel. cbn [fst snd] in Hsel. destruct (bool_decide _); [done|].
  destruct (readMessage (p, n) f) as [m'|]; simpl in Hsel; [|done].
  destruct (_ <=? _)%Z; [done|]. destruct (_ && _); [done|]. by injection Hsel as <-.
Qed.

(** Removing one file does not change what happens to the others. *)
Lemma select_other p n d d1 e : dom_skips p d → only (p, n) d d1 → only_skips (p, n) d d1 →
  e.1 ≠ n → select d1 p e = select d p e.
Proof.
  intros [sl Hsl] [(Hdir & _ & _ & Hdom) _] Hskip He. unfold select.
  assert (render d1 (p, e.1) = render d (p, e.1)) as Hr by (unfold render; by rewrite Hdir).
  assert (is_Some (sp_skipList d1 !! p)) as [sl1 Hsl1]
    by (apply elem_of_dom; rewrite Hdom; by eapply elem_of_dom_2).
  rewrite Hr, Hsl, Hsl1. simpl.
  rewrite (bool_decide_ext _ (render d (p, e.1) ∈ sl)); [done|].
  apply (Hskip p sl sl1 Hsl Hsl1). by intros ?%render_inj.
Qed.

Lemma process_spec p es msgs d : dom_skips p d → NoDup (map fst es) →
  ∃ d', process_entries now p es msgs d = (d', Ok (msgs ++ omap (select d p) es)) ∧ same_spool d d' ∧
    (∀ path, (∀ e, e ∈ es → path = (p, e.1) → is_Some (select d p e)) →
       find_file d' path = find_file d path) ∧
    (∀ sl sl', sp_skipList d !! p = Some sl → sp_skipList d' !! p = Some sl' →
       ∀ x, x ∈ sl' → x ∈ sl ∨ ∃ e, e ∈ es ∧ x = render d (p, e.1)).
Proof.
  revert msgs d. induction es as [|[n f] es IH]; intros msgs d Hs Hn.
  - exists d. rewrite app_nil_r. split_and!; [done|apply same_spool_refl|done|].
    intros sl sl' ? ? x; simplify_eq; tauto.
  - simpl in Hn. apply NoDup_cons in Hn as [Hni Hn].
    assert (∀ e, e ∈ es → e.1 ≠ n) as Hne by (intros e He <-; by apply Hni, list_elem_of_fmap_2).
    destruct (select d p (n, f)) as [m|] eqn:Hsel.
    + rewrite (process_take _ _ _ _ _ _ _ Hsel). simpl. rewrite Hsel. simpl.
      destruct (IH (msgs ++ [m]) d Hs Hn) as (d' & -> & Hsame & Hf & Hsk).
      exists d'. rewrite <- app_assoc. split_and!; [done|done| |].
      * intros path Hp. apply Hf. intros e He. apply Hp. by apply elem_of_cons; right.
      * intros sl sl' Hsl Hsl' x Hx. destruct (Hsk sl sl' Hsl Hsl' x Hx) as [?|(e & He & ->)]; [by left|].
        right. exists e. split; [by apply elem_of_cons; right|done].
    + destruct (process_step p n f es msgs d Hs Hsel) as (d1 & -> & Ho & Hos).
      pose proof Ho as [(Hdir & Hb1 & Hm1 & Hdom) Hof].
      assert (dom_skips p d1) as Hs1 by (apply elem_of_dom; rewrite Hdom; by apply elem_of_dom).
      destruct (IH msgs d1 Hs1 Hn) as (d' & -> & Hsame & Hf & Hsk).
      assert (∀ e, e ∈ es → select d1 p e = select d p e) as Hsels
        by (intros e He; by eapply select_other, Hne).
      exists d'. simpl. rewrite Hsel. split_and!.
      * by rewrite (list_omap_ext_in (select d1 p) (select d p)) by exact Hsels.
      * eapply same_spool_trans; [apply Ho|done].
      * intros path Hp. rewrite Hf.
        -- apply Hof. intros ->. destruct (Hp (n, f)) as [m Hm]; [by apply elem_of_cons; left|done|congruence].
        -- intros e He Hpe. rewrite Hsels by done. apply Hp; [by apply elem_of_cons; right|done].
      * intros sl sl' Hsl Hsl' x Hx. destruct Hs1 as [sl1 Hsl1].
        assert (render d (p, n) = render d1 (p, n)) as Hr by (unfold render; by rewrite Hdir).
        destruct (Hsk sl1 sl' Hsl1 Hsl' x Hx) as [Hx1|(e & He & ->)].
        -- destruct (decide (x = render d (p, n))) as [->|Hxn].
           ++ right. exists (n, f). split; [by apply elem_of_cons; left|done].
           ++ left. by apply (Hos p sl sl1 Hsl Hsl1).
        -- right. exists e. split; [by apply elem_of_cons; right|]. unfold render. by rewrite Hdir.
Qed.

(** The message files of a priority, in the order of their names. *)
Definition spooled (files : gmap string spool_file) : list (string * spool_file) :=
  omap (λ n, if has_suffix n ".msg" then f ← files !! n; Some (n, f) else None)
    (sort_strings (map fst (map_to_list files))).

Lemma entries_spec p d files : sp_dirs d !! p = Some files → entries p d = Ok (spooled files).
Proof. unfold entries. by intros ->. Qed.

Lemma spooled_elem files n f : (n, f) ∈ spooled files ↔ files !! n = Some f ∧ has_suffix n ".msg" = true.
Proof.
  unfold spooled. rewrite list_elem_of_omap. split.
  - intros (x & _ & Hx). destruct (has_suffix x ".msg") eqn:E; [|done].
    apply bind_Some in Hx as (g & Hg & Heq). injection Heq as -> ->. done.
  - intros [Hf Hn]. exists n. rewrite Hn, Hf. split; [|done].
    apply sort_strings_elem, list_elem_of_fmap. exists (n, f). split; [done|]. by apply elem_of_map_to_list.
Qed.

Lemma spooled_names files :
  map fst (spooled files) = List.filter (λ n, has_suffix n ".msg") (sort_strings (map fst (map_to_list files))).
Proof.
  unfold spooled.
  assert (∀ n, n ∈ sort_strings (map fst (map_to_list files)) → is_Some (files !! n)) as Hin.
  { intros n Hn. apply sort_strings_elem, list_elem_of_fmap in Hn as ([n' f] & -> & Hn).
    apply elem_of_map_to_list in Hn. by exists f. }
  revert Hin. generalize (sort_strings (map fst (map_to_list files))).
  intros l. induction l as [|n l IH]; intros Hin; [done|]. simpl.
  destruct (Hin n ltac:(by apply elem_of_cons; left)) as [f Hf].
  destruct (has_suffix n ".msg"); simpl; [rewrite Hf; simpl; f_equal|]; apply IH;
    intros; apply Hin; by apply elem_of_cons; right.
Qed.

Lemma spooled_nodup files : NoDup (map fst (spooled files)).
Proof.
  rewrite spooled_names. apply NoDup_ListNoDup, List.NoDup_filter, NoDup_ListNoDup.
  rewrite sort_strings_perm. apply NoDup_fst_map_to_list.
Qed.

(** A poll up to the handler. *)
Lemma collect_spec_aux p d files : sp_dirs d !! p = Some files → dom_skips p d →
  ∃ d', collect now p d = (d', Ok (omap (select d p) (spooled files))) ∧ same_spool d d' ∧
    (∀ path, (∀ e, e ∈ spooled files → path = (p, e.1) → is_Some (select d p e)) →
       find_file d' path = find_file d path) ∧
    (∀ sl sl', sp_skipList d !! p = Some sl → sp_skipList d' !! p = Some sl' → ∀ x, x ∈ sl' →
       x ∈ map fst (spooled files) ∧ (x ∈ sl ∨ ∃ e, e ∈ spooled files ∧ x = render d (p, e.1))).
Proof.
  intros Hd Hs. unfold collect. rewrite (entries_spec _ _ _ Hd).
  destruct (process_spec p (spooled files) [] d Hs (spooled_nodup files)) as (d1 & -> & Hsame & Hf & Hsk).
  eexists. split; [done|]. unfold compactSkipList.
  assert (dom_skips p d1) as [sl1 Hsl1].
  { destruct Hsame as (_ & _ & _ & Hdom). apply elem_of_dom. rewrite Hdom. by apply elem_of_dom. }
  rewrite Hsl1. split_and!.
  - destruct Hsame as (? & ? & ? & Hdom). split_and!; [done..|]. simpl. rewrite dom_insert_L.
    apply elem_of_dom_2 in Hsl1. set_solver.
  - exact Hf.
  - intros sl sl' Hsl Hsl' x Hx. simpl in Hsl'. rewrite lookup_insert_eq in Hsl'.
    injection Hsl' as <-. apply elem_of_filter in Hx as [Hk Hx]. split; [by apply elem_of_list_to_set in Hk|].
    by apply (Hsk sl sl1).
Qed.

(** ** What a poll hands over *)

Lemma select_path d p e m : select d p e = Some m → m_st m = Directory ∧ m_sm m = Some (p, e.1).
Proof.
  unfold select. case_bool_decide; [done|]. intros (m' & Hm & Hr)%bind_Some.
  apply readMessage_path in Hm. repeat case_match; by simplify_eq.
Qed.

Lemma select_paths d p l :
  map m_sm (omap (select d p) l) `sublist_of` map (λ n, Some (p, n)) (map fst l).
Proof.
  induction l as [|e l IH]; [done|]. simpl. destruct (select d p e) as [m|] eqn:E; simpl.
  - destruct (select_path _ _ _ _ E) as [_ ->]. by constructor.
  - by constructor.
Qed.

Lemma select_sublist d p files :
  map m_sm (omap (select d p) (spooled files)) `sublist_of`
  map (λ n, Some (p, n)) (sort_strings (map fst (map_to_list files))).
Proof.
  etransitivity; [apply select_paths|]. rewrite spooled_names.
  generalize (sort_strings (map fst (map_to_list files))). intros l.
  induction l as [|n l IH]; simpl; [done|]. destruct (has_suffix n ".msg"); simpl; by constructor.
Qed.

(** What a decoded message needs for its priority and its number of tries. *)
Definition decodes (p : Z) (files : gmap string spool_file) (d : DirectorySpool) : Prop :=
  ∀ n f m, files !! n = Some f → readMessage (p, n) f = Some m →
    is_Some (sp_skipList d !! m_Priority m) ∧ (0 ≤ m_Tries m < 2 ^ 63 - 1)%Z.

Lemma select_read d p e m : select d p e = Some m → readMessage (p, e.1) e.2 = Some m.
Proof.
  unfold select. case_bool_decide; [done|]. intros (m' & Hm & Hr)%bind_Some.
  repeat case_match; by simplify_eq.
Qed.

Lemma collect_batch d p files d' : decodes p files d → same_spool d d' →
  batch d' (omap (select d p) (spooled files)).
Proof.
  intros Hdec (_ & _ & _ & Hdom). split.
  - eapply sublist_NoDup; [|apply select_sublist]. rewrite sort_strings_perm.
    apply NoDup_fmap_2_strong; [by intros x y _ _ [=]|]. apply NoDup_fst_map_to_list.
  - intros m ([n f] & Hin & Hsel)%list_elem_of_omap.
    destruct (select_path _ _ _ _ Hsel) as [Hst Hsm]. apply select_read in Hsel. simpl in *.
    apply spooled_elem in Hin as [Hf _]. destruct (Hdec n f m Hf Hsel) as [Hs Ht].
    exists (p, n). split; [|done]. split_and!; [done..|]. apply elem_of_dom. rewrite Hdom. by apply elem_of_dom.
Qed.

Lemma unsent {A} (acked rest : list A) m : NoDup (acked ++ rest) → m ∈ tail rest → m ∉ acked ++ take 1 rest.
Proof.
  destruct rest as [|x rest]; simpl; [by intros _ ?%elem_of_nil|].
  intros (_ & Hdis & [Hx _]%NoDup_cons)%NoDup_app Hm.
  intros [Hma| ->%list_elem_of_singleton]%elem_of_app; [|done].
  apply (Hdis m Hma). by apply elem_of_cons; right.
Qed.

Lemma sort_count_insert (files : gmap string spool_file) n f : files !! n = None →
  has_suffix n ".msg" = true →
  length (List.filter (λ n, has_suffix n ".msg") (map fst (map_to_list (<[n:=f]> files)))) =
  S (length (List.filter (λ n, has_suffix n ".msg") (map fst (map_to_list files)))).
Proof.
  intros Hn Hs. pose proof (map_to_list_insert files n f Hn) as Hp.
  assert (∀ l l' : list string, Permutation l l' →
    length (List.filter (λ n, has_suffix n ".msg") l) = length (List.filter (λ n, has_suffix n ".msg") l')) as Hperm.
  { induction 1 as [|x l l' _ IH|x y l|? ? ? _ IH1 _ IH2]; simpl; [done|..|congruence].
    - destruct (has_suffix x ".msg"); simpl; congruence.
    - by destruct (has_suffix x ".msg"), (has_suffix y ".msg"). }
  rewrite (Hperm _ _ (Permutation_map fst Hp)). simpl. by rewrite Hs.
Qed.
End Proofs.

(** ** A small library, for the witnesses *)

#[export] Instance demo_submission_lib : SubmissionLib := {| Ed25519SignWithSeedFile := λ _ _, None |}.

Definition demo_message (id : string) (reliable : bool) (tries : Z) : Message :=
  {| m_ID := id; m_Subject := "s"; m_Payload := "p"; m_Reliable := reliable; m_Priority := 0;
     m_Created := Some 0%Z; m_TTL := Seconds (1000 * Second); m_MaxTries := 500; m_Tries := tries;
     m_NextTry := (if (0 <? tries)%Z then Some 1000%Z else None); m_Sender := "me"; m_Identity := ""; m_Sign := false; m_Headers := ∅;
     m_st := Directory; m_sm := None |}.

(** The id says whether the message is reliable. *)
#[export] Instance demo_message_json : MessageJSON := {|
  msg_Marshal := λ m, Some (m_ID m +:+ ":" +:+ itoa (m_Tries m));
  msg_Unmarshal := λ s, match split s ":" with
                        | [id; t] => demo_message id (has_prefix id "r") <$> atoi t
                        | _ => None end;
|}.

Definition demo_file (content : string) : spool_file :=
  {| sf_content := Some content; sf_removable := true; sf_writable := true |}.

Definition demo_files : gmap string spool_file :=
  list_to_map [("1.msg", demo_file "r1:0"); ("2.msg", demo_file "u2:0"); ("3.msg", demo_file "r3:0");
               ("4.msg", demo_file "r4:0"); ("5.tmp", demo_file "r5:0")].

Definition demo_spool (files : gmap string spool_file) : DirectorySpool :=
  {| sp_directory := "/spool"; sp_started := true; sp_bo := FiveSec; sp_spoolMax := 1;
     sp_identity := "node1"; sp_skipList := {[0%Z := ∅]}; sp_dirs := {[0%Z := files]};
     sp_can_create := true |}.

Definition demo_opts : spool_opts := {| so_prefix := ""; so_seedFile := ""; so_tokenFile := "" |}.

(** [r3] is not acknowledged. *)
Definition demo_net (m : Message) : publish_result :=
  if String.eqb (m_ID m) "r3" then RequestFailed else Published.

Lemma FiveSec_sane : sane FiveSec.
Proof. split; [done|]. unfold FiveSec. repeat constructor; lia. Qed.

Lemma demo_read path f m : readMessage path f = Some m →
  m_Priority m = 0%Z ∧ ∃ id t, msg_Unmarshal (default "" (sf_content f)) = Some (demo_message id (has_prefix id "r") t) ∧
    m_Tries m = t.
Proof.
  unfold readMessage. destruct (sf_content f) as [j|]; [|done]. simpl.
  destruct (split j ":") as [|id [|t [|]]]; try done. destruct (atoi t) as [z|]; [|done].
  intros [= <-]. split; [done|]. by exists id, z.
Qed.

(** ** Reliable messages *)

(** C26. In one poll of a priority, the reliable messages that the spool hands over and
    that can be published are sent in the order of their file names: they are
    [acked ++ rest], where every one of [acked] is acknowledged, the first of [rest] is
    not, and no other is sent; the files of those are left as they are.  What is handed
    over is what [select] leaves: a failed message that waits for its next try is passed
    over, and later ones are published before it. *)
Theorem reliable_in_order `{SL : SubmissionLib} `{MJ : !MessageJSON} fs o rnd now net p d files :
  random rnd → sane (sp_bo d) → sp_dirs d !! p = Some files → is_Some (sp_skipList d !! p) →
  decodes p files d →
  ∃ d' log acked rest,
    processDir now p (λ msgs, handle fs o rnd now net msgs false []) d = (d', Ok log) ∧
    sendable fs o now (omap (select now d p) (spooled files)) = acked ++ rest ∧
    (∀ m, m ∈ acked → net m = Published) ∧ (∀ m, head rest = Some m → net m ≠ Published) ∧
    reliable_log log = map (λ m, (m, net m)) (acked ++ take 1 rest) ∧
    (∀ m path, m ∈ tail rest → m_sm m = Some path → find_file d' path = find_file d path).
Proof.
  intros Hr Hbo Hd Hs Hdec.
  destruct (collect_spec_aux rnd now p d files Hd Hs) as (d1 & Hc & Hsame & Hfiles & _).
  set (msgs := omap (select now d p) (spooled files)) in *.
  pose proof (collect_batch now d p files d1 Hdec Hsame) as Hb. fold msgs in Hb.
  destruct (tries_split net (sendable fs o now msgs)) as (acked & rest & Heq & Ha & Ht & Hh).
  assert (sane (sp_bo d1)) as Hbo1 by (by destruct Hsame as (_ & -> & _)).
  destruct (handle_spec fs o rnd now net msgs false [] d1 Hr Hbo1 Hb) as (d' & log & Hrun & _ & Hlog & Hkeep).
  rewrite Ht in Hlog, Hkeep.
  assert (processDir now p (λ msgs, handle fs o rnd now net msgs false []) d = (d', Ok log)) as Hp.
  { unfold processDir, mbind, ST_bind. rewrite Hc. destruct msgs; [|exact Hrun].
    simpl in Hrun. unfold mret, ST_ret in *. by injection Hrun as <- <-. }
  exists d', log, acked, rest. split_and!; [done..|]. intros m path Hm Hsm.
  assert (m ∈ sendable fs o now msgs) as Hin.
  { rewrite Heq. apply elem_of_app. right. destruct rest; [done|]. by apply elem_of_cons; right. }
  pose proof (sendable_elem fs o rnd now net _ _ Hin) as (Hmsgs & Hpub & Hrel).
  destruct Hb as [Hnd _]. destruct Hkeep as [_ Hkeep].
  assert (m ∉ acked ++ take 1 rest) as Hfresh
    by (eapply unsent; [|done]; rewrite <- Heq; by apply sendable_distinct).
  rewrite (Hkeep m path) by done.
  apply Hfiles. intros e He ->. unfold msgs in Hmsgs.
  apply list_elem_of_omap in Hmsgs as ([n f] & Hnf & Hsel).
  destruct (select_path _ _ _ _ _ Hsel) as [_ Hsm']. rewrite Hsm in Hsm'. injection Hsm' as Hne.
  destruct e as [n' f']. simpl in Hne. subst n'. apply spooled_elem in Hnf as [Hf1 _], He as [Hf2 _].
  simplify_eq. by exists m.
Qed.

(** The ids of what was published, in order. *)
Definition logged (r : DirectorySpool * outcome string (list attempted)) : list string :=
  match r.2 with Ok log => map (λ a, m_ID (at_message a)) log | _ => [] end.

Definition demo_poll (p : Z) (net : Message → publish_result) (d : DirectorySpool) :
    DirectorySpool * outcome string (list attempted) :=
  processDir 0 p (λ msgs, handle ∅ demo_opts (λ n, n / 2)%Z 0 net msgs false []) d.

Lemma demo_decodes files :
  (∀ n f, files !! n = Some f → ∀ id t, msg_Unmarshal (default "" (sf_content f)) =
     Some (demo_message id (has_prefix id "r") t) → t = 0%Z) →
  decodes 0 files (demo_spool files).
Proof.
  intros Ht n f m Hf Hm. apply demo_read in Hm as (-> & id & t & Hj & <-).
  rewrite (Ht n f Hf id _ Hj). split; [by eexists|]. split; [done|]. reflexivity.
Qed.

Lemma reliable_in_order_witness :
  logged (demo_poll 0 demo_net (demo_spool demo_files)) = ["r1"; "u2"; "r3"] ∧
  ∃ d' log acked rest,
    demo_poll 0 demo_net (demo_spool demo_files) = (d', Ok log) ∧
    sendable ∅ demo_opts 0 (omap (select 0 (demo_spool demo_files) 0) (spooled demo_files)) = acked ++ rest ∧
    (∀ m, m ∈ acked → demo_net m = Published) ∧ (∀ m, head rest = Some m → demo_net m ≠ Published) ∧
    reliable_log log = map (λ m, (m, demo_net m)) (acked ++ take 1 rest) ∧
    (∀ m path, m ∈ tail rest → m_sm m = Some path →
       find_file d' path = find_file (demo_spool demo_files) path).
Proof.
  split; [vm_compute; reflexivity|].
  apply (reliable_in_order ∅ demo_opts (λ n, n / 2)%Z 0 demo_net 0 (demo_spool demo_files) demo_files);
    [apply demo_random|apply FiveSec_sane|done|by eexists|].
  apply demo_decodes. intros n f Hf%elem_of_map_to_list id t Hj.
  vm_compute in Hf. repeat (apply elem_of_cons in Hf as [[= -> ->]|Hf]; [by injection Hj|]).
  by apply elem_of_nil in Hf.
Defined.

(** ** Polls *)

(** A poll hands over, in the order of their file names and each at most once,
    exactly the messages whose file ends in .msg, is not on the skip list, can be
    read and decoded, has tries left and whose next try, if it has been tried, is
    not in the future: a message waiting for its next try does not hold back those
    behind it. *)
Theorem poll_selects `{SL : SubmissionLib} `{MJ : !MessageJSON} now p d files :
  sp_dirs d !! p = Some files → is_Some (sp_skipList d !! p) →
  ∃ d' msgs, collect now p d = (d', Ok msgs) ∧
    map m_sm msgs `sublist_of`
      map (λ n, Some (p, n)) (sort_strings (map fst (map_to_list files))) ∧
    (∀ m, m ∈ msgs ↔ ∃ n f, files !! n = Some f ∧ has_suffix n ".msg" = true ∧
       (∀ sl, sp_skipList d !! p = Some sl → render d (p, n) ∉ sl) ∧
       readMessage (p, n) f = Some m ∧ (m_Tries m < m_MaxTries m)%Z ∧
       ((m_Tries m ≤ 0)%Z ∨ ∀ t, m_NextTry m = Some t → (t ≤ now)%Z)).
Proof.
  intros Hd Hs. destruct (collect_spec_aux (λ x, x) now p d files Hd Hs) as (d' & Hc & _).
  eexists _, _. split; [exact Hc|]. split; [apply select_sublist|].
  intros m. rewrite list_elem_of_omap. destruct Hs as [sl Hsl].
  assert (∀ n f, select now d p (n, f) = Some m ↔
    ¬ (render d (p, n) ∈ sl) ∧ readMessage (p, n) f = Some m ∧ (m_Tries m < m_MaxTries m)%Z ∧
    ((m_Tries m ≤ 0)%Z ∨ ∀ t, m_NextTry m = Some t → (t ≤ now)%Z)) as Hsel.
  { intros n f. unfold select. cbn [fst snd]. rewrite Hsl. simpl.
    case_bool_decide as Hin; [by split; [|tauto]|].
    destruct (readMessage (p, n) f) as [x|]; simpl; [|split; [done|intros (_ & ? & _); done]].
    destruct (m_MaxTries x <=? m_Tries x)%Z eqn:E1; [split; [done|]; intros (_ & [= ->] & ? & _); lia|].
    destruct (0 <? m_Tries x)%Z eqn:E2; simpl; [|split; [intros [= ->]|intros (_ & [= ->] & _); done]].
    - destruct (m_NextTry x) as [t|] eqn:En.
      + destruct (now <? t)%Z eqn:E3; split; try done.
        * intros (_ & [= ->] & _ & [?|Ht]); [lia|]. specialize (Ht t En). lia.
        * intros [= ->]. split_and!; [done..|lia|]. right. intros t' Ht'. simplify_eq. lia.
        * by intros (_ & [= ->] & _).
      + split; [|by intros (_ & [= ->] & _)]. intros [= ->]. split_and!; [done..|lia|]. right. by rewrite En.
    - split_and!; [done..|lia|]. left. lia. }
  split.
  - intros ([n f] & [Hf Hn]%spooled_elem & H). apply Hsel in H as (? & ? & ? & ?).
    exists n, f. split_and!; [done..| |done|done|done]. intros sl' ?. by simplify_eq.
  - intros (n & f & Hf & Hn & Hskip & H). exists (n, f). split; [by apply spooled_elem|].
    apply Hsel. by split; [apply Hskip|].
Qed.

(** [r3] failed in the first poll and waits in the second, which hands over the
    message behind it. *)
Lemma poll_selects_witness :
  let d := fst (demo_poll 0 demo_net (demo_spool demo_files)) in
  ∃ d' msgs, collect 0 0 d = (d', Ok msgs) ∧ map m_ID msgs = ["r4"].
Proof.
  intros d.
  assert (is_Some (sp_dirs d !! 0%Z)) as [files Hf] by (vm_compute; by eexists).
  destruct (poll_selects 0 0 d files Hf) as (d' & msgs & Hc & _ & _); [vm_compute; by eexists|].
  exists d', msgs. split; [exact Hc|]. vm_compute in Hc. injection Hc as _ <-. reflexivity.
Defined.

(** ** The skip list *)

(** The skip list of a priority does not survive a poll: it holds full paths
    and is compacted with the names of the files found, and no full path is one. *)
Theorem skip_list_forgotten `{SL : SubmissionLib} `{MJ : !MessageJSON} now p d files sl :
  sp_dirs d !! p = Some files → sp_skipList d !! p = Some sl →
  (∀ n, n ∈ dom files → no_byte "/" n) → (∀ x, x ∈ sl → ∃ path, x = render d path) →
  ∃ d' msgs, collect now p d = (d', Ok msgs) ∧ sp_skipList d' !! p = Some ∅.
Proof.
  intros Hd Hsl Hnames Hpaths.
  destruct (collect_spec_aux (λ x, x) now p d files Hd) as (d' & Hc & (_ & _ & _ & Hdom) & _ & Hsk); [by eexists|].
  eexists d', _. split; [exact Hc|].
  assert (is_Some (sp_skipList d' !! p)) as [sl' Hsl'] by (apply elem_of_dom; rewrite Hdom; by eapply elem_of_dom_2).
  rewrite Hsl'. f_equal. apply set_eq. intros x. split; [|set_solver]. intros Hx.
  destruct (Hsk sl sl' Hsl Hsl' x Hx) as [Hn Hr]. apply list_elem_of_fmap in Hn as ([n f] & -> & Hnf).
  apply spooled_elem in Hnf as [Hf _]. apply elem_of_dom_2, Hnames in Hf. simpl in *.
  assert (∃ path, n = render d path) as [path Heq].
  { destruct Hr as [?|(e & _ & ?)]; [by apply Hpaths|by eexists]. }
  rewrite Heq in Hf. unfold render in Hf. apply no_byte_append in Hf as [_ Hf].
  change ("/P" +:+ ?x) with (String "/" ("P" +:+ x)) in Hf. apply no_byte_cons in Hf. tauto.
Qed.

(** A reliable message whose file cannot be removed: published in the first poll,
    skipped in the second, published again in the third. *)
Definition stuck_spool : DirectorySpool :=
  demo_spool {["1.msg" := {| sf_content := Some "r1:0"; sf_removable := false; sf_writable := true |}]}.

Lemma skip_list_forgotten_witness :
  let poll := demo_poll 0 (λ _, Published) in
  let p1 := poll stuck_spool in
  let p2 := poll (fst p1) in
  logged p1 = ["r1"] ∧ logged p2 = [] ∧ logged (poll (fst p2)) = ["r1"] ∧
  ∃ d' msgs, collect 0 0 (fst p1) = (d', Ok msgs) ∧ sp_skipList d' !! 0%Z = Some ∅.
Proof.
  intros poll p1 p2. split; [vm_compute; reflexivity|]. split; [vm_compute; reflexivity|].
  split; [vm_compute; reflexivity|].
  apply (skip_list_forgotten 0 0 (fst p1)
           {["1.msg" := {| sf_content := Some "r1:0"; sf_removable := false; sf_writable := true |}]}
           {[ "/spool/P0/1.msg" ]}); [vm_compute; reflexivity..| |].
  - intros n Hn. rewrite dom_singleton in Hn. apply elem_of_singleton in Hn as ->.
    change "1.msg" with (String "1" (String "." (String "m" (String "s" (String "g" ""))))).
    repeat (apply no_byte_cons; split; [discriminate|]). apply no_byte_nil.
  - intros x ->%elem_of_singleton. by exists (0%Z, "1.msg").
Defined.

(** ** Submitting *)

(** Submit stores a valid message in a new file of its priority when the
    priority holds no more messages than the configured size, so one more than that
    fits, and refuses it without a change when it holds more: a priority never grows
    beyond the configured size plus one. *)
Theorem submit_bound `{SL : SubmissionLib} `{MJ : !MessageJSON} now uid m d files j :
  let p := m_Priority m in let n := newMsgName now uid in
  msg_Validate now m = Ok tt → msg_Marshal m = Some j → sp_can_create d = true →
  sp_dirs d !! p = Some files → files !! n = None →
  let r := spool_Submit now uid m d in
  let stored := {| sf_content := Some j; sf_removable := true; sf_writable := true |} in
  if (sp_spoolMax d <? Z.of_nat (countEntries p d))%Z then r = (d, Err "spool is full")
  else r.2 = Ok tt ∧
    (∀ path, find_file r.1 path = if decide ((p, n) = path) then Some stored else find_file d path) ∧
    countEntries p r.1 = S (countEntries p d) ∧
    (Z.of_nat (countEntries p r.1) ≤ sp_spoolMax d + 1)%Z.
Proof.
  intros p n Hv Hj Hc Hd Hn r stored.
  assert (r = if (sp_spoolMax d <? Z.of_nat (countEntries p d))%Z then (d, Err "spool is full")
    else (put_file (p, n) stored d, Ok tt)) as ->.
  { unfold r, spool_Submit. rewrite Hv. fold p. destruct (_ <? _)%Z; [done|]. by rewrite Hj, Hc, Hd. }
  destruct (sp_spoolMax d <? Z.of_nat (countEntries p d))%Z eqn:Hfull; [done|]. simpl.
  split; [done|]. split; [apply find_put|].
  assert (has_suffix n ".msg" = true) as Hs.
  { unfold n, newMsgName. rewrite <- !append_assoc'. apply has_suffix_append. }
  assert (countEntries p (put_file (p, n) stored d) = S (countEntries p d)) as ->; [|split; [done|lia]].
  rewrite (countEntries_spec p d files Hd).
  rewrite (countEntries_spec p (put_file (p, n) stored d) (<[n:=stored]> files)).
  - by apply sort_count_insert.
  - unfold put_file. simpl. by rewrite Hd, lookup_insert_eq.
Qed.

Lemma submit_bound_witness :
  let d := demo_spool {["1.msg" := demo_file "r1:0"]} in
  let m := demo_message "u2" false 0 in
  let r := spool_Submit 0 "x" m d in
  sp_spoolMax d = 1%Z ∧ countEntries 0 d = 1 ∧ r.2 = Ok tt ∧ countEntries 0 r.1 = 2 ∧
  (spool_Submit 1 "y" m r.1).2 = Err "spool is full".
Proof.
  intros d m r.
  assert ((sp_spoolMax d <? Z.of_nat (countEntries (m_Priority m) d))%Z = false) as Hroom
    by (vm_compute; reflexivity).
  pose proof (submit_bound 0 "x" m d {["1.msg" := demo_file "r1:0"]} "u2:0") as H.
  cbv zeta in H. rewrite Hroom in H.
  destruct H as (H1 & _ & H2 & _); [vm_compute; reflexivity..|].
  split; [reflexivity|]. split; [vm_compute; reflexivity|]. split; [exact H1|].
  change 0%Z with (m_Priority m) at 1. unfold r. rewrite H2.
  split; vm_compute; reflexivity.
Defined.

(** ** Headers *)

Lemma filter_all {A} (f : A → bool) l : (∀ x, x ∈ l → f x = true) → List.filter f l = l.
Proof.
  induction l as [|x l IH]; intros Hf; [done|]. simpl. rewrite (Hf x) by (by apply elem_of_cons; left).
  f_equal. apply IH. intros y Hy. apply Hf. by apply elem_of_cons; right.
Qed.

Lemma filter_none {A} (f : A → bool) l : (∀ x, x ∈ l → f x = false) → List.filter f l = [].
Proof.
  induction l as [|x l IH]; intros Hf; [done|]. simpl. rewrite (Hf x) by (by apply elem_of_cons; left).
  apply IH. intros y Hy. apply Hf. by apply elem_of_cons; right.
Qed.

(** The headers every message carries. *)
Lemma computed_reserved `{SL : SubmissionLib} (m : Message) x :
  x ∈ [("Nats-Msg-Id", m_ID m); ("Choria-Priority", itoa (m_Priority m));
       ("Choria-Created", itoa (default 0%Z (m_Created m))); ("Choria-Sender", m_Sender m)] ++
      (if m_Reliable m then [("Choria-Reliable", "1")] else []) ++
      (if (0 <? m_Tries m)%Z then [("Choria-Tries", itoa (m_Tries m))] else []) ++
      (if negb (String.eqb (m_Identity m) "") then [("Choria-Identity", m_Identity m)] else []) →
  reserved_header x.1 = true.
Proof.
  assert (∀ k, k ∈ ["Nats-Msg-Id"; "Choria-Priority"; "Choria-Created"; "Choria-Sender"; "Choria-Reliable";
    "Choria-Tries"; "Choria-Identity"] → reserved_header k = true) as Hc
    by (apply forallb_elem_of; reflexivity).
  assert (∀ k v, k ∈ ["Nats-Msg-Id"; "Choria-Priority"; "Choria-Created"; "Choria-Sender"; "Choria-Reliable";
    "Choria-Tries"; "Choria-Identity"] → x = (k, v) → reserved_header x.1 = true) as Hx
    by (intros k v Hk ->; by apply Hc).
  intros [Hin|[Hin|[Hin|Hin]%elem_of_app]%elem_of_app]%elem_of_app;
    [|destruct (m_Reliable m)|destruct (0 <? m_Tries m)%Z|destruct (negb _)];
    try (by apply elem_of_nil in Hin);
    rewrite !elem_of_cons, elem_of_nil in Hin; [destruct Hin as [?|[?|[?|[?|[]]]]]|destruct Hin as [?|[]]..];
    (eapply Hx; [|eassumption]; rewrite !elem_of_cons; tauto).
Qed.

(** A message that is sent was valid, has tries left and carries the headers of
    its own besides those Choria computes: of the reserved names, those that start
    with choria or nats in any case, only the computed headers are there. *)
Theorem reserved_headers_computed `{SL : SubmissionLib} fs now prefix seed token m nm :
  NatsMessage fs now prefix seed token m = Ok nm →
  msg_Validate now m = Ok tt ∧ (m_Tries m < m_MaxTries m)%Z ∧
  nm_Subject nm = prefix +:+ m_Subject m ∧ nm_Data nm = m_Payload m ∧
  List.filter (λ h, negb (reserved_header h.1)) (nm_Header nm) = map_to_list (m_Headers m) ∧
  ∃ signed, (if m_Sign m then sign_headers fs seed token (m_Payload m) else Ok []) = Ok signed ∧
    List.filter (λ h, reserved_header h.1) (nm_Header nm) =
      [("Nats-Msg-Id", m_ID m); ("Choria-Priority", itoa (m_Priority m));
       ("Choria-Created", itoa (default 0%Z (m_Created m))); ("Choria-Sender", m_Sender m)] ++
      (if m_Reliable m then [("Choria-Reliable", "1")] else []) ++
      (if (0 <? m_Tries m)%Z then [("Choria-Tries", itoa (m_Tries m))] else []) ++
      (if negb (String.eqb (m_Identity m) "") then [("Choria-Identity", m_Identity m)] else []) ++ signed.
Proof.
  unfold NatsMessage, mbind, outcome_bind. destruct (msg_Validate now m) as [[]|e|q] eqn:Hv; [|done..].
  destruct (m_MaxTries m <=? m_Tries m)%Z eqn:Ht; [done|].
  destruct (if m_Sign m then _ else _) as [signed|e|q] eqn:Hs; [|done..]. intros [= <-].
  assert (∀ x, x ∈ map_to_list (m_Headers m) → reserved_header x.1 = false) as Hown.
  { apply existsb_false. unfold msg_Validate in Hv. repeat (case_match; try done). }
  assert (∀ x, x ∈ signed → reserved_header x.1 = true) as Hsigned.
  { destruct (m_Sign m); [|injection Hs as <-; by intros x ?%elem_of_nil].
    unfold sign_headers in Hs. repeat (case_match; try done); simplify_eq;
      intros x; rewrite ?elem_of_cons, elem_of_nil; naive_solver. }
  split; [done|]. split; [lia|]. split; [done|]. split; [done|].
  pose proof (computed_reserved m) as Hcomp. cbn [nm_Header]. split.
  - rewrite !List.filter_app, (filter_all _ (map_to_list _)) by (intros x Hx; by rewrite Hown).
    rewrite (filter_none _ signed) by (intros x Hx; by rewrite Hsigned).
    rewrite filter_none by (intros x Hx; by rewrite (Hcomp x Hx)).
    by rewrite !app_nil_r.
  - exists signed. split; [done|]. rewrite List.filter_app, (filter_all _ signed) by done.
    rewrite List.filter_app, (filter_none _ (map_to_list _)), filter_all by done.
    cbn [app]. by rewrite <- !app_assoc.
Qed.

Lemma reserved_headers_computed_witness :
  ∃ nm, NatsMessage ∅ 0 "choria." "" "" (demo_message "r1" true 0) = Ok nm ∧
    nm_Subject nm = "choria.s" ∧ nm_Data nm = "p".
Proof.
  destruct (NatsMessage ∅ 0 "choria." "" "" (demo_message "r1" true 0)) as [nm| |] eqn:E; [|done..].
  exists nm. split; [done|].
  by destruct (reserved_headers_computed ∅ 0 "choria." "" "" (demo_message "r1" true 0) nm E)
    as (_ & _ & ? & ? & _).
Defined.
