(* ===== verification/Election.v ===== *)
(** * Leader election

    providers/election/streams/election.go.  The bucket is the class [KeyValue];
    its time is an argument of every operation.  The mutex is part of the state:
    locking it while it is locked by the same call never returns. *)
From S2P Require Import Prelude GoLib Util GoNum Backoff.

(** A KV bucket: [Create] and [Update] at a time, [None] when they fail; the
    revision and time of the last write of a key; the latest revision of any. *)
Class KeyValue := {
  kv : Type;
  kv_Create : kv → Z → string → string → kv * option Z;
  kv_Update : kv → Z → string → string → Z → kv * option Z;
  kv_last : kv → string → option (Z * Z);
  kv_revision : kv → Z;
}.

(** What the election relies on: a key is only created when it has no entry younger
    than the TTL, only updated at its last revision, and revisions increase. *)
Class LawfulKeyValue `{KeyValue} (ttl : Z) := {
  create_ok : ∀ b t k v b' r, kv_Create b t k v = (b', Some r) →
    (∀ r0 t0, kv_last b k = Some (r0, t0) → t0 + ttl ≤ t)%Z ∧
    kv_last b' k = Some (r, t) ∧ (kv_revision b < r)%Z ∧ kv_revision b' = r;
  create_fails : ∀ b t k v b', kv_Create b t k v = (b', None) →
    (∀ k', kv_last b' k' = kv_last b k') ∧ kv_revision b' = kv_revision b;
  update_ok : ∀ b t k v rev b' r, kv_Update b t k v rev = (b', Some r) →
    (∃ t0, kv_last b k = Some (rev, t0)) ∧
    kv_last b' k = Some (r, t) ∧ (kv_revision b < r)%Z ∧ kv_revision b' = r;
  update_fails : ∀ b t k v rev b', kv_Update b t k v rev = (b', None) →
    (∀ k', kv_last b' k' = kv_last b k') ∧ kv_revision b' = kv_revision b;
}.

Inductive State := UnknownState | CandidateState | LeaderState.

#[export] Instance State_eq_dec : EqDecision State.
Proof. solve_decision. Defined.

(** The callbacks that were called. *)
Inductive callback := WonCb | LostCb | CampaignCb (s : State).

Record options := {
  opt_name : string;
  opt_key : string;
  opt_ttl : Z;
  opt_cInterval : Z;
  (** the callbacks that are set *)
  opt_wonCb : bool;
  opt_lostCb : bool;
  opt_campaignCb : bool;
  (** the duration of the n-th wait *)
  opt_bo : option (Z → Z);
}.

Record election := {
  opts : options;
  state : State;
  started : bool;
  (** the context of the last start was cancelled *)
  cancelled : bool;
  lastSeq : Z;
  tries : Z;
  notifyNext : bool;
  locked : bool;
  calls : list callback;
}.

Definition MaxUint64 : Z := 2 ^ 64 - 1.

Definition NewElection (o : options) : election :=
  {| opts := o; state := UnknownState; started := false; cancelled := false; lastSeq := MaxUint64;
     tries := 0; notifyNext := false; locked := false; calls := [] |}.

Definition upd_opts (x : options) (e : election) : election :=
  {| opts := x; state := state e; started := started e; cancelled := cancelled e;
     lastSeq := lastSeq e; tries := tries e; notifyNext := notifyNext e; locked := locked e;
     calls := calls e |}.

Definition upd_state (s : State) (seq : Z) (e : election) : election :=
  {| opts := opts e; state := s; started := started e; cancelled := cancelled e;
     lastSeq := seq; tries := tries e; notifyNext := notifyNext e; locked := locked e;
     calls := calls e |}.

Definition upd_tries (t : Z) (e : election) : election :=
  {| opts := opts e; state := state e; started := started e; cancelled := cancelled e;
     lastSeq := lastSeq e; tries := t; notifyNext := notifyNext e; locked := locked e;
     calls := calls e |}.

Definition upd_notify (b : bool) (e : election) : election :=
  {| opts := opts e; state := state e; started := started e; cancelled := cancelled e;
     lastSeq := lastSeq e; tries := tries e; notifyNext := b; locked := locked e;
     calls := calls e |}.

Definition upd_locked (b : bool) (e : election) : election :=
  {| opts := opts e; state := state e; started := started e; cancelled := cancelled e;
     lastSeq := lastSeq e; tries := tries e; notifyNext := notifyNext e; locked := b;
     calls := calls e |}.

Definition upd_started (s c : bool) (e : election) : election :=
  {| opts := opts e; state := state e; started := s; cancelled := c;
     lastSeq := lastSeq e; tries := tries e; notifyNext := notifyNext e; locked := locked e;
     calls := calls e |}.

Definition called (b : bool) (c : callback) (e : election) : election :=
  {| opts := opts e; state := state e; started := started e; cancelled := cancelled e;
     lastSeq := lastSeq e; tries := tries e; notifyNext := notifyNext e; locked := locked e;
     calls := if b then calls e ++ [c] else calls e |}.

Definition set_interval (ttl i : Z) (o : options) : options :=
  {| opt_name := opt_name o; opt_key := opt_key o; opt_ttl := ttl; opt_cInterval := i;
     opt_wonCb := opt_wonCb o; opt_lostCb := opt_lostCb o; opt_campaignCb := opt_campaignCb o;
     opt_bo := opt_bo o |}.

(** An election and the bucket it campaigns in. *)
Abbreviation EM := (ST (election * kv) string).

(** A call that blocks for ever. *)
Definition blocked : string := "deadlock".

Section Election.
Context `{KV : KeyValue}.

Definition on_election (f : election → election) : EM () := modify (λ s, (f s.1, s.2)).

Definition mu_Lock : EM () := λ s,
  if locked s.1 then (s, Panic blocked) else ((upd_locked true s.1, s.2), Ok tt).

Definition mu_Unlock : EM () := on_election (upd_locked false).

(** [defer e.mu.Unlock()]: also when the body fails. *)
Definition with_lock {A} (m : EM A) : EM A :=
  mu_Lock;;
  r ← attempt m;
  mu_Unlock;;
  match r with inl v => mret v | inr e => throw e end.

(** [backoff.Default.For] on the status of the bucket: [status n] is its TTL at
    the n-th try. *)
Definition bucket_status (rnd : Z → Z) (cancelled interrupted : nat → bool) (fuel : nat)
    (status : nat → option Z) : option (res Z) :=
  match For rnd FiveSec (λ n, bool_decide (is_Some (status n))) cancelled interrupted fuel with
  | None => None
  | Some (n, Ok _) => Some (Ok (default 0%Z (status n)))
  | Some (_, Err e) => Some (Err e)
  | Some (_, Panic p) => Some (Panic p)
  end.

Definition three_quarters (ttl : Z) : Z :=
  f64_trunc (f64_mul (f64_of_Z ttl) (f64_div (f64_of_Z 3) (f64_of_Z 4))).

(** [configure], after the status of the bucket. *)
Definition configure (skipValidate : bool) (status : res Z) (o : options) : res options :=
  ttl ← status;
  let o := set_interval ttl (if (opt_cInterval o =? 0)%Z then three_quarters ttl else opt_cInterval o) o in
  if skipValidate then Ok o
  else if (ttl <? Second)%Z then Err "bucket TTL should be 1 second or more"
  else if (3600 * Second <? ttl)%Z then Err "bucket TTL should be less than or equal to 1 hour"
  else if f64_ltb (Seconds (opt_cInterval o)) (f64_of_Z 1) then Err "campaign interval too small"
  else if f64_ltb (f64_sub (Seconds ttl) (Seconds (opt_cInterval o))) (f64_of_Z 1)
  then Err "campaign interval is too close to bucket ttl"
  else Ok o.

Definition campaignForLeadership (now : Z) : EM () := λ '(e, b),
  match kv_Create b now (opt_key (opts e)) (opt_name (opts e)) with
  | (b, None) => ((upd_tries (tries e + 1) e, b), Ok tt)
  | (b, Some seq) => ((upd_notify true (upd_tries 0 (upd_state LeaderState seq e)), b), Ok tt)
  end.

Definition maintainLeadership (now : Z) : EM () := λ '(e, b),
  match kv_Update b now (opt_key (opts e)) (opt_name (opts e)) (lastSeq e) with
  | (b, None) =>
      ((called (opt_lostCb (opts e)) LostCb (upd_state CandidateState MaxUint64 e), b),
       Err "key update failed")
  | (b, Some seq) =>
      let e := upd_state (state e) seq e in
      if notifyNext e
      then ((called (opt_wonCb (opts e)) WonCb (upd_notify false e), b), Ok tt)
      else ((e, b), Ok tt)
  end.

(** [try], called at [now]. *)
Definition try (now : Z) : EM () :=
  with_lock (
    e ← gets fst;
    on_election (called (opt_campaignCb (opts e)) (CampaignCb (state e)));;
    match state e with
    | LeaderState => maintainLeadership now
    | CandidateState => campaignForLeadership now
    | UnknownState => throw "campaigned while in unknown state"
    end).

(** [IsLeader] and [State] *)
Definition leading (e : election) : bool :=
  bool_decide (state e = LeaderState) && negb (notifyNext e).

Definition IsLeader : EM bool := with_lock (gets (λ s, leading s.1)).
Definition get_State : EM State := with_lock (gets (λ s, state s.1)).

(** [stop] *)
Definition stop : EM () :=
  mu_Lock;;
  on_election (λ e, upd_state CandidateState MaxUint64 (upd_started false true e));;
  mu_Unlock.

(** The duration until the next campaign. *)
Definition interval (e : election) : Z :=
  match opt_bo (opts e) with
  | Some f => f (tries e)
  | None => opt_cInterval (opts e)
  end.

(** The start of [campaign], before it sleeps. *)
Definition campaign_begin : EM () :=
  mu_Lock;; on_election (λ e, upd_state CandidateState (lastSeq e) e);; mu_Unlock.

(** [tick]: an error of [try] is only logged. *)
Definition tick (now : Z) : EM () := attempt (F:=string) (try now);; mret tt.

(** The end of [campaign], when the context is done. *)
Definition campaign_end : EM () :=
  stop;;
  e ← gets fst;
  if opt_lostCb (opts e) then
    l ← IsLeader;
    if (l : bool) then on_election (called true LostCb) else mret tt
  else mret tt.

Fixpoint ticks (times : list Z) : EM () :=
  match times with
  | [] => mret tt
  | t :: rest => tick t;; ticks rest
  end.

(** [campaign]: [splay_cancelled] is whether the context ended during the splay,
    [times] when the ticker fired until the context ended. *)
Definition campaign (splay_cancelled : bool) (times : list Z) : EM () :=
  campaign_begin;;
  if splay_cancelled then throw "context canceled"
  else ticks times;; campaign_end.

(** The part of [Start] before [campaign]. *)
Definition start_begin (skipValidate : bool) (status : res Z) : EM () :=
  mu_Lock;;
  e ← gets fst;
  if started e then mu_Unlock;; throw "already running"
  else
    match configure skipValidate status (opts e) with
    | Err err => throw err
    | Panic p => panic p
    | Ok o =>
        on_election (λ e, upd_started true false (upd_opts o e));; mu_Unlock
    end.

Definition Start (skipValidate : bool) (status : res Z) (splay_cancelled : bool) (times : list Z) :
    EM () :=
  start_begin skipValidate status;;
  r ← attempt (F:=string) (campaign splay_cancelled times);
  match r with
  | inl _ => mret tt
  | inr e => stop;; throw e
  end.

(** [Stop] calls [stop] while it holds the mutex. *)
Definition Stop : EM () :=
  with_lock (
    e ← gets fst;
    if negb (started e) then mret tt
    else on_election (upd_started (started e) true);; stop).

(** ** Elections that share a bucket *)

Record world := {
  w_now : Z;
  w_kv : kv;
  w_election : nat → election;
  (** when each last campaigned *)
  w_last : nat → Z;
}.

Definition upd_election (i : nat) (e : election) (f : nat → election) : nat → election :=
  λ j, if decide (j = i) then e else f j.

(** One call of [m] by the i-th election. *)
Definition runs (i : nat) (m : EM ()) (w : world) (last : nat → Z) : world :=
  let '((e, b), _) := m (w_election w i, w_kv w) in
  {| w_now := w_now w; w_kv := b; w_election := upd_election i e (w_election w); w_last := last |}.

Definition campaigned (i : nat) (w : world) : nat → Z :=
  λ j, if decide (j = i) then w_now w else w_last w j.

(** Whether time may pass: a leader campaigns again no later than [late] after its
    interval, if there is a bound. *)
Definition in_time (late : option Z) (d : Z) (w : world) : Prop :=
  match late with
  | None => True
  | Some late => ∀ i, state (w_election w i) = LeaderState →
      (w_now w + d ≤ w_last w i + interval (w_election w i) + late)%Z
  end.

(** The steps of any number of elections that were started: they campaign, end,
    are started again, and time passes. *)
Inductive step (late : option Z) : world → world → Prop :=
| step_tick i w : step late w (runs i (tick (w_now w)) w (campaigned i w))
| step_end i w : step late w (runs i campaign_end w (w_last w))
| step_begin i w : step late w (runs i campaign_begin w (w_last w))
| step_pass d w : (0 ≤ d)%Z → in_time late d w →
    step late w {| w_now := w_now w + d; w_kv := w_kv w; w_election := w_election w;
                   w_last := w_last w |}.

(** Elections of one key that were not started; [i] is their interval. *)
Definition initial (k : string) (i : Z) (w : world) : Prop :=
  ∀ n, let e := w_election w n in
    state e = UnknownState ∧ locked e = false ∧ opt_key (opts e) = k ∧
    opt_cInterval (opts e) = i ∧ opt_bo (opts e) = None.

End Election.

(** * Leader election: properties

    At most one leader, when leadership is announced, and the calls that never
    return. *)

Section Proofs.
Context `{KV : KeyValue}.

(** The election with its mutex free and no callbacks counted. *)
Definition free (e : election) : Prop := locked e = false.

(** What one tick does. *)
Inductive ticked (now : Z) (e : election) (b : kv) (e' : election) (b' : kv) : Prop :=
| ticked_unknown : state e = UnknownState → state e' = UnknownState → b' = b → ticked now e b e' b'
| ticked_lost : state e = CandidateState → state e' = CandidateState → notifyNext e' = notifyNext e →
    kv_Create b now (opt_key (opts e)) (opt_name (opts e)) = (b', None) → ticked now e b e' b'
| ticked_won : state e = CandidateState → state e' = LeaderState → notifyNext e' = true →
    kv_Create b now (opt_key (opts e)) (opt_name (opts e)) = (b', Some (lastSeq e')) → ticked now e b e' b'
| ticked_kept : state e = LeaderState → state e' = LeaderState → notifyNext e' = false →
    kv_Update b now (opt_key (opts e)) (opt_name (opts e)) (lastSeq e) = (b', Some (lastSeq e')) →
    ticked now e b e' b'
| ticked_resigned : state e = LeaderState → state e' = CandidateState → notifyNext e' = notifyNext e →
    kv_Update b now (opt_key (opts e)) (opt_name (opts e)) (lastSeq e) = (b', None) → ticked now e b e' b'.

(** The callbacks of a tick. *)
Definition tick_calls (e e' : election) : list callback :=
  (if opt_campaignCb (opts e) then [CampaignCb (state e)] else []) ++
  match state e, state e' with
  | LeaderState, LeaderState => if notifyNext e && opt_wonCb (opts e) then [WonCb] else []
  | LeaderState, _ => if opt_lostCb (opts e) then [LostCb] else []
  | _, _ => []
  end.

Lemma tick_spec now e b : free e →
  ∃ e' b', tick now (e, b) = ((e', b'), Ok tt) ∧ free e' ∧ opts e' = opts e ∧ ticked now e b e' b' ∧
    calls e' = calls e ++ tick_calls e e'.
Proof.
  intros Hf. unfold free in Hf. unfold tick, try, with_lock, mu_Lock, mu_Unlock, on_election, modify, gets,
    attempt, mbind, ST_bind, mret, ST_ret, throw. cbn [fst snd]. rewrite Hf. cbn.
  destruct (state e) eqn:Hs; cbn.
  - eexists _, _. split; [done|]. split; [done|]. split; [done|]. split; [by apply ticked_unknown|].
    unfold tick_calls. cbn. rewrite Hs. by destruct (opt_campaignCb (opts e)); rewrite ?app_nil_r.
  - unfold campaignForLeadership. cbn. destruct (kv_Create _ _ _ _) as [b' [seq|]] eqn:Hc; cbn.
    + eexists _, _. split; [done|]. split; [done|]. split; [done|]. split; [by apply ticked_won|].
      unfold tick_calls. cbn. rewrite Hs. by destruct (opt_campaignCb (opts e)); rewrite ?app_nil_r.
    + eexists _, _. split; [done|]. split; [done|]. split; [done|]. split; [by apply ticked_lost|].
      unfold tick_calls. cbn. rewrite Hs. by destruct (opt_campaignCb (opts e)); rewrite ?app_nil_r.
  - unfold maintainLeadership. cbn. destruct (kv_Update _ _ _ _ _) as [b' [seq|]] eqn:Hc; cbn.
    + destruct (notifyNext e) eqn:Hn; cbn; eexists _, _; (split; [done|]); (split; [done|]);
        (split; [done|]); (split; [by apply ticked_kept|]); unfold tick_calls; cbn; rewrite Hs, Hn; cbn;
        destruct (opt_campaignCb (opts e)), (opt_wonCb (opts e)); by rewrite <- ?app_assoc, ?app_nil_r.
    + eexists _, _. split; [done|]. split; [done|]. split; [done|]. split; [by apply ticked_resigned|].
      unfold tick_calls; cbn; rewrite Hs; cbn.
      destruct (opt_campaignCb (opts e)), (opt_lostCb (opts e)); by rewrite <- ?app_assoc, ?app_nil_r.
Qed.

Lemma begin_spec e b : free e →
  campaign_begin (e, b) = ((upd_locked false (upd_state CandidateState (lastSeq e) e), b), Ok tt).
Proof.
  intros Hf. unfold free in Hf. unfold campaign_begin, mu_Lock, mbind, ST_bind. cbn [fst snd]. by rewrite Hf.
Qed.

Definition stopped (e : election) : election :=
  upd_locked false (upd_state CandidateState MaxUint64 (upd_started false true e)).

Lemma stop_spec e b : free e → stop (e, b) = ((stopped e, b), Ok tt).
Proof.
  intros Hf. unfold free in Hf. unfold stop, mu_Lock, mbind, ST_bind. cbn [fst snd]. by rewrite Hf.
Qed.

(** The election is no leader when the callback for its end is considered. *)
Lemma end_spec e b : free e → campaign_end (e, b) = ((stopped e, b), Ok tt).
Proof.
  intros Hf. unfold campaign_end, mbind, ST_bind. rewrite stop_spec by done. cbn.
  by destruct (opt_lostCb (opts e)).
Qed.

(** ** One leader *)

Variable k : string.
Variable i ttl : Z.
Context `{LKV : !LawfulKeyValue ttl}.

Definition well_configured (e : election) : Prop :=
  free e ∧ opt_key (opts e) = k ∧ opt_cInterval (opts e) = i ∧ opt_bo (opts e) = None.

Variable late : Z.
Hypothesis Hi : (0 ≤ i + late < ttl)%Z.

(** A leader's last write is the last write of the key and still alive. *)
Definition election_inv (w : world) : Prop :=
  (∀ n, well_configured (w_election w n)) ∧
  (∀ n, state (w_election w n) = LeaderState →
     kv_last (w_kv w) k = Some (lastSeq (w_election w n), w_last w n) ∧
     (w_last w n ≤ w_now w ≤ w_last w n + i + late)%Z) ∧
  (∀ n m, state (w_election w n) = LeaderState → state (w_election w m) = LeaderState → n = m).


(** The i-th election changes to one that is no leader, the bucket stays. *)
Lemma inv_demote w n e' b' last : election_inv w → well_configured e' → state e' ≠ LeaderState →
  kv_last b' k = kv_last (w_kv w) k → (∀ m, m ≠ n → last m = w_last w m) →
  election_inv {| w_now := w_now w; w_kv := b'; w_election := upd_election n e' (w_election w); w_last := last |}.
Proof.
  intros (Hc & Hl & Hu) He Hs Hb Hlast. unfold election_inv, upd_election. cbn. split_and!.
  - intros m. by destruct (decide (m = n)).
  - intros m Hm. destruct (decide (m = n)); [done|]. rewrite Hb, Hlast by done. by apply Hl.
  - intros m m' Hm Hm'. destruct (decide (m = n)), (decide (m' = n)); try done. by apply Hu.
Qed.

(** The n-th election writes the key while no other is a leader. *)
Lemma inv_write w n e' b' : election_inv w → well_configured e' →
  kv_last b' k = Some (lastSeq e', w_now w) →
  (∀ m, m ≠ n → state (w_election w m) ≠ LeaderState) →
  election_inv {| w_now := w_now w; w_kv := b'; w_election := upd_election n e' (w_election w);
                  w_last := campaigned n w |}.
Proof.
  intros (Hc & Hl & Hu) He Hb Hm0. unfold election_inv, upd_election, campaigned. cbn. split_and!.
  - intros m. by destruct (decide (m = n)).
  - intros m Hm. destruct (decide (m = n)) as [->|Hn]; [|by destruct (Hm0 m Hn)]. split; [done|lia].
  - intros m m' Hm Hm'. destruct (decide (m = n)) as [->|Hn]; [|by destruct (Hm0 m Hn)].
    destruct (decide (m' = n)) as [->|Hn]; [done|by destruct (Hm0 m' Hn)].
Qed.

Lemma inv_tick w n : election_inv w → election_inv (runs n (tick (w_now w)) w (campaigned n w)).
Proof.
  intros Hinv. pose proof Hinv as (Hc & Hl & Hu). destruct (Hc n) as (Hf & Hk & Hi' & Hbo).
  destruct (tick_spec (w_now w) (w_election w n) (w_kv w) Hf) as (e' & b' & Ht & Hf' & Ho & Hcase & _).
  unfold runs. rewrite Ht.
  assert (well_configured e') as Hwc by (unfold well_configured; by rewrite Ho).
  assert (∀ m, m ≠ n → campaigned n w m = w_last w m) as Hlast
    by (intros m Hm; unfold campaigned; by rewrite decide_False).
  destruct Hcase as [Hs Hs' ->|Hs Hs' _ Hop|Hs Hs' _ Hop|Hs Hs' _ Hop|Hs Hs' _ Hop].
  all: try rewrite Hk in Hop.
  - apply inv_demote; [done|done|by rewrite Hs'|done|done].
  - apply inv_demote; [done|done|by rewrite Hs'| |done]. by apply (create_fails _ _ _ _ _ Hop).
  - destruct (create_ok _ _ _ _ _ _ Hop) as (Hold & Hnew & _). apply inv_write; [done..|].
    intros m Hm Hlead. destruct (Hl m Hlead) as [Hkm Hlive]. specialize (Hold _ _ Hkm). lia.
  - destruct (update_ok _ _ _ _ _ _ _ Hop) as (_ & Hnew & _ & _). apply inv_write; [done..|].
    intros m Hm Hlead. by apply Hm, Hu.
  - apply inv_demote; [done|done|by rewrite Hs'| |done]. by apply (update_fails _ _ _ _ _ _ Hop).
Qed.

Lemma inv_step w w' : step (Some late) w w' → election_inv w → election_inv w'.
Proof.
  intros Hstep Hinv. pose proof Hinv as (Hc & Hl & Hu). destruct Hstep as [n w|n w|n w|d w Hd Hpass].
  - by apply inv_tick.
  - destruct (Hc n) as (Hf & Hcfg). unfold runs. rewrite end_spec by done. by apply inv_demote.
  - destruct (Hc n) as (Hf & Hcfg). unfold runs. rewrite begin_spec by done. by apply inv_demote.
  - split_and!; [done| |done]. cbn. intros n Hn. destruct (Hl n Hn) as [Hk Hlive]. split; [done|].
    specialize (Hpass n Hn). destruct (Hc n) as (_ & _ & Hci & Hbo). unfold interval in Hpass.
    rewrite Hbo, Hci in Hpass. lia.
Qed.

Lemma inv_reachable w w' : initial k i w → rtc (step (Some late)) w w' → election_inv w'.
Proof.
  intros Hinit Hr. assert (election_inv w) as H0.
  { split_and!.
    - intros n. destruct (Hinit n) as (_ & ? & ? & ? & ?). done.
    - intros n Hn. destruct (Hinit n) as (Hs & _). congruence.
    - intros n m Hn. destruct (Hinit n) as (Hs & _). congruence. }
  clear Hinit. induction Hr as [|w1 w2 w3 Hs _ IH]; [done|]. by eapply IH, inv_step.
Qed.

(** ** Superseded leaders *)

(** Leaders have revisions of their own. *)
Definition revision_inv (w : world) : Prop :=
  (∀ n, well_configured (w_election w n)) ∧
  (∀ n, state (w_election w n) = LeaderState → (lastSeq (w_election w n) ≤ kv_revision (w_kv w))%Z) ∧
  (∀ n m, state (w_election w n) = LeaderState → state (w_election w m) = LeaderState →
     lastSeq (w_election w n) = lastSeq (w_election w m) → n = m).

Lemma revision_change w n e' b' last : revision_inv w → well_configured e' →
  (kv_revision (w_kv w) ≤ kv_revision b')%Z →
  (state e' = LeaderState → (kv_revision (w_kv w) < lastSeq e' ≤ kv_revision b')%Z) →
  revision_inv {| w_now := w_now w; w_kv := b'; w_election := upd_election n e' (w_election w); w_last := last |}.
Proof.
  intros (Hc & Hl & Hu) He Hb Hlead. unfold revision_inv, upd_election. cbn. split_and!.
  - intros m. by destruct (decide (m = n)).
  - intros m Hm. destruct (decide (m = n)); [by apply Hlead|]. specialize (Hl m Hm). lia.
  - intros m m' Hm Hm'. destruct (decide (m = n)) as [->|], (decide (m' = n)) as [->|]; [done|..|by apply Hu].
    + specialize (Hl m' Hm'). specialize (Hlead Hm). lia.
    + specialize (Hl m Hm). specialize (Hlead Hm'). lia.
Qed.

Lemma revision_step l w w' : step l w w' → revision_inv w → revision_inv w'.
Proof.
  intros Hstep Hinv. pose proof Hinv as (Hc & Hl & Hu). destruct Hstep as [n w|n w|n w|d w Hd _].
  - destruct (Hc n) as (Hf & Hk & Hcfg).
    destruct (tick_spec (w_now w) (w_election w n) (w_kv w) Hf) as (e' & b' & Ht & Hf' & Ho & Hcase & _).
    unfold runs. rewrite Ht.
    assert (well_configured e') as Hwc by (unfold well_configured; by rewrite Ho).
    destruct Hcase as [Hs Hs' ->|Hs Hs' _ Hop|Hs Hs' _ Hop|Hs Hs' _ Hop|Hs Hs' _ Hop].
    + by apply revision_change; rewrite ?Hs'.
    + destruct (create_fails _ _ _ _ _ Hop) as [_ Hr]. apply revision_change; rewrite ?Hs'; [done..|lia|done].
    + destruct (create_ok _ _ _ _ _ _ Hop) as (_ & _ & Hlt & Hr). apply revision_change; [done..|lia|lia].
    + destruct (update_ok _ _ _ _ _ _ _ Hop) as (_ & _ & Hlt & Hr). apply revision_change; [done..|lia|lia].
    + destruct (update_fails _ _ _ _ _ _ Hop) as [_ Hr]. apply revision_change; rewrite ?Hs'; [done..|lia|done].
  - destruct (Hc n) as (Hf & Hcfg). unfold runs. rewrite end_spec by done. by apply revision_change.
  - destruct (Hc n) as (Hf & Hcfg). unfold runs. rewrite begin_spec by done. by apply revision_change.
  - done.
Qed.

Lemma revision_reachable l w w' : initial k i w → rtc (step l) w w' → revision_inv w'.
Proof.
  intros Hinit Hr. assert (revision_inv w) as H0.
  { split_and!.
    - intros n. by destruct (Hinit n) as (_ & ? & ? & ? & ?).
    - intros n Hn. destruct (Hinit n) as (Hs & _). congruence.
    - intros n m Hn. destruct (Hinit n) as (Hs & _). congruence. }
  clear Hinit. induction Hr as [|w1 w2 w3 Hs _ IH]; [done|]. by eapply IH, revision_step.
Qed.

End Proofs.

(** ** A small bucket, for the witnesses *)

Definition demo_ttl : Z := 30 * Second.

(** Entries with their revision and time, and the last revision used. *)
Definition demo_write (b : gmap string (Z * Z) * Z) (t : Z) (k : string) :
    (gmap string (Z * Z) * Z) * option Z :=
  let r := (b.2 + 1)%Z in ((<[k := (r, t)]> b.1, r), Some r).

#[export] Instance demo_bucket : KeyValue := {|
  kv := gmap string (Z * Z) * Z;
  kv_Create := λ b t k _, match b.1 !! k with
                          | Some (_, t0) => if (t <? t0 + demo_ttl)%Z then (b, None) else demo_write b t k
                          | None => demo_write b t k
                          end;
  kv_Update := λ b t k _ rev, match b.1 !! k with
                              | Some (r, t0) => if (t0 + demo_ttl <=? t)%Z || negb (r =? rev)%Z
                                                then (b, None) else demo_write b t k
                              | None => (b, None)
                              end;
  kv_last := λ b k, b.1 !! k;
  kv_revision := snd;
|}.

#[export] Instance demo_bucket_lawful : LawfulKeyValue demo_ttl.
Proof.
  split; simpl.
  - intros [m n] t k _ [m' n'] r. simpl. destruct (m !! k) as [[r0 t0]|] eqn:Hk; simpl.
    + destruct (t <? t0 + demo_ttl)%Z eqn:Ht; [done|]. intros [= <- <- <-].
      split; [intros r1 t1 [= <- <-]; lia|]. rewrite lookup_insert_eq. split; [done|]. lia.
    + intros [= <- <- <-]. rewrite lookup_insert_eq. split; [done|]. split; [done|]. lia.
  - intros [m n] t k _ [m' n']. simpl. destruct (m !! k) as [[r0 t0]|]; [destruct (_ <? _)%Z|]; [|done..].
    by intros [= <- <-].
  - intros [m n] t k _ rev [m' n'] r. simpl. destruct (m !! k) as [[r0 t0]|] eqn:Hk; [|done].
    destruct (_ <=? _)%Z, (r0 =? rev)%Z eqn:Hr; simpl; try done. intros [= <- <- <-].
    rewrite lookup_insert_eq. split; [exists t0; do 2 f_equal; lia|]. split; [done|]. lia.
  - intros [m n] t k _ rev [m' n']. simpl. destruct (m !! k) as [[r0 t0]|]; [|by intros [= <- <-]].
    destruct (_ || _); [|done]. by intros [= <- <-].
Qed.

Definition demo_empty : kv := (∅, 0%Z).

Definition demo_options : options :=
  {| opt_name := "node"; opt_key := "task"; opt_ttl := 0; opt_cInterval := 0; opt_wonCb := true;
     opt_lostCb := true; opt_campaignCb := false; opt_bo := None |}.

(** The options after the election configured itself. *)
Definition demo_configured : options :=
  match configure false (Ok demo_ttl) demo_options with Ok o => o | _ => demo_options end.

Definition demo_world : world :=
  {| w_now := 0; w_kv := (∅, 0%Z); w_election := λ _, NewElection demo_configured; w_last := λ _, 0%Z |}.

Lemma demo_initial : initial "task" 22500000000 demo_world.
Proof. intros n. cbv zeta. by repeat split; vm_compute. Qed.

(** Both campaign at once. *)
Definition demo_began : world :=
  let w := runs 0 campaign_begin demo_world (w_last demo_world) in runs 1 campaign_begin w (w_last w).

Definition demo_campaigned : world :=
  let w := runs 0 (tick (w_now demo_began)) demo_began (campaigned 0 demo_began) in
  runs 1 (tick (w_now w)) w (campaigned 1 w).

Definition demo_later (d : Z) : world :=
  {| w_now := w_now demo_campaigned + d; w_kv := w_kv demo_campaigned;
     w_election := w_election demo_campaigned; w_last := w_last demo_campaigned |}.

Lemma demo_leader n : state (w_election demo_campaigned n) = LeaderState → n = 0.
Proof. destruct n as [|[|n]]; [done|..]; intros H; vm_compute in H; discriminate. Qed.

Lemma demo_reachable l d : (0 ≤ d)%Z → match l with Some late => (d ≤ 22500000000 + late)%Z | None => True end →
  rtc (step l) demo_world (demo_later d).
Proof.
  intros Hd Hl. unfold demo_later.
  assert (rtc (step l) demo_world demo_began) as H1
    by (eapply rtc_l; [apply (step_begin l 0)|apply rtc_once, (step_begin l 1)]).
  assert (rtc (step l) demo_began demo_campaigned) as H2
    by (eapply rtc_l; [apply (step_tick l 0)|apply rtc_once, (step_tick l 1)]).
  eapply rtc_r; [etransitivity; [exact H1|exact H2]|]. apply step_pass; [done|].
  destruct l as [late|]; [|done]. intros n Hn. apply demo_leader in Hn as ->.
  assert (w_now demo_campaigned = 0%Z ∧ w_last demo_campaigned 0 = 0%Z ∧
    interval (w_election demo_campaigned 0) = 22500000000%Z) as (-> & -> & ->) by (vm_compute; done). lia.
Qed.

(** ** Leadership *)

(** C5. When every leader campaigns again within the life of its entry, the
    interval and the delay of its timer together shorter than the TTL of the bucket,
    no reachable state of any number of elections for a key has two leaders. *)
Theorem at_most_one_leader `{KV : KeyValue} ttl `{LKV : !LawfulKeyValue ttl} k i late w w' n m :
  (0 ≤ i + late < ttl)%Z → initial k i w → rtc (step (Some late)) w w' →
  state (w_election w' n) = LeaderState → state (w_election w' m) = LeaderState → n = m.
Proof.
  intros Hi Hinit Hr. by destruct (inv_reachable k i ttl late Hi w w' Hinit Hr) as (_ & _ & Hu); apply Hu.
Qed.

Lemma at_most_one_leader_witness :
  let w := demo_later (25 * Second) in
  opt_cInterval demo_configured = 22500000000%Z ∧ leading (w_election w 0) = false ∧
  state (w_election w 0) = LeaderState ∧
  ∀ n, state (w_election w n) = LeaderState → n = 0.
Proof.
  intros w. split; [vm_compute; reflexivity|]. split; [vm_compute; reflexivity|].
  split; [vm_compute; reflexivity|]. intros n Hn.
  apply (at_most_one_leader demo_ttl "task" 22500000000 2500000000 demo_world w).
  - unfold demo_ttl, Second. lia.
  - exact demo_initial.
  - apply demo_reachable; vm_compute; discriminate.
  - exact Hn.
  - vm_compute. reflexivity.
Defined.

(** Whatever the timing, of two leaders that are left by a late timer only the
    one that wrote the key last can stay: when another campaigns its update is
    refused, it becomes a candidate and its lost callback is called. *)
Theorem superseded_leader_resigns `{KV : KeyValue} ttl `{LKV : !LawfulKeyValue ttl} k i w w' n m t b' e' r :
  initial k i w → rtc (step None) w w' → n ≠ m →
  state (w_election w' n) = LeaderState → state (w_election w' m) = LeaderState →
  kv_last (w_kv w') k = Some (lastSeq (w_election w' n), t) →
  tick (w_now w') (w_election w' m, w_kv w') = ((e', b'), r) →
  state e' = CandidateState ∧ kv_last b' k = Some (lastSeq (w_election w' n), t) ∧
  (opt_lostCb (opts (w_election w' m)) = true → last (calls e') = Some LostCb).
Proof.
  intros Hinit Hr Hnm Hn Hm Hlast Ht.
  destruct (revision_reachable k i ttl None w w' Hinit Hr) as (Hc & _ & Hu).
  destruct (Hc m) as (Hf & Hk & _).
  destruct (tick_spec (w_now w') (w_election w' m) (w_kv w') Hf) as (e & b & Ht' & _ & Ho & Hcase & Hcalls).
  rewrite Ht' in Ht. injection Ht as -> -> _.
  destruct Hcase as [Hs|Hs|Hs|Hs Hs' _ Hop|Hs Hs' _ Hop]; try congruence; rewrite Hk in Hop.
  - destruct (update_ok _ _ _ _ _ _ _ Hop) as ((t0 & Hl) & _).
    destruct Hnm. apply Hu; [done..|]. congruence.
  - destruct (update_fails _ _ _ _ _ _ Hop) as [Hl _]. split; [done|]. split; [by rewrite Hl|].
    intros Hcb. rewrite Hcalls. unfold tick_calls. rewrite Hm, Hs', Hcb.
    destruct (opt_campaignCb _); [|apply last_snoc]. by rewrite app_assoc, last_snoc.
Qed.

(** The first leader is 30 seconds late: the other takes over. *)
Definition demo_late : world :=
  let w := demo_later (30 * Second) in runs 1 (tick (w_now w)) w (campaigned 1 w).

Lemma superseded_leader_resigns_witness :
  state (w_election demo_late 0) = LeaderState ∧ state (w_election demo_late 1) = LeaderState ∧
  ∃ e' b', (tick (w_now demo_late) (w_election demo_late 0, w_kv demo_late)).1 = (e', b') ∧
    state e' = CandidateState.
Proof.
  split; [vm_compute; reflexivity|]. split; [vm_compute; reflexivity|].
  destruct (tick (w_now demo_late) (w_election demo_late 0, w_kv demo_late)) as [[e' b'] r] eqn:Ht.
  exists e', b'. split; [reflexivity|].
  apply (superseded_leader_resigns demo_ttl "task" 22500000000 demo_world demo_late 1 0 (30 * Second) b' e' r).
  - exact demo_initial.
  - eapply rtc_r; [apply (demo_reachable None (30 * Second)); [vm_compute; discriminate|done]|apply (step_tick _ 1)].
  - done.
  - vm_compute. reflexivity.
  - vm_compute. reflexivity.
  - vm_compute. reflexivity.
  - exact Ht.
Defined.

(** ** The mutex and the end of a campaign *)

(** Stop of a running election never returns, since it locks the mutex it
    holds; a Start that cannot configure the election returns its error with the
    mutex locked.  After either every call of the election blocks. *)
Theorem mutex_stays_locked `{KV : KeyValue} e b sv status :
  locked e = false →
  (started e = true →
     (Stop (e, b)).2 = Panic blocked ∧ locked (Stop (e, b)).1.1 = true) ∧
  (started e = false → ∀ err, configure sv status (opts e) = Err err →
     (start_begin sv status (e, b)).2 = Err err ∧ locked (start_begin sv status (e, b)).1.1 = true) ∧
  (∀ e', locked e' = true → ∀ now, (IsLeader (e', b)).2 = Panic blocked ∧
     (get_State (e', b)).2 = Panic blocked ∧ (try now (e', b)).2 = Panic blocked ∧
     (Stop (e', b)).2 = Panic blocked ∧ (Start sv status false [] (e', b)).2 = Panic blocked).
Proof.
  intros Hf. split; [|split].
  - intros Hs. unfold Stop, with_lock, stop, mu_Lock, mu_Unlock, on_election, modify, gets, attempt, mbind,
      ST_bind, mret, ST_ret. cbn [fst snd]. rewrite Hf. cbn. by rewrite Hs.
  - intros Hs err Herr. unfold start_begin, mu_Lock, gets, mbind, ST_bind, throw. cbn [fst snd].
    rewrite Hf. cbn. by rewrite Hs, Herr.
  - intros e' Hl now. unfold IsLeader, get_State, try, Stop, Start, start_begin, with_lock, mu_Lock, mbind,
      ST_bind. cbn [fst snd]. by rewrite Hl.
Qed.

Lemma mutex_stays_locked_witness :
  let e := NewElection demo_configured in
  let started_election := (start_begin false (Ok demo_ttl) (e, demo_empty)).1 in
  let failed := (start_begin false (Ok 1%Z) (e, demo_empty)).1 in
  locked started_election.1 = false ∧ (Stop started_election).2 = Panic blocked ∧
  locked failed.1 = true ∧ (IsLeader failed).2 = Panic blocked.
Proof.
  intros e s f. split; [reflexivity|].
  destruct (mutex_stays_locked s.1 s.2 false (Ok 1%Z)) as (H1 & _ & _); [reflexivity|].
  destruct (mutex_stays_locked e demo_empty false (Ok 1%Z)) as (_ & H2 & H3); [reflexivity|].
  destruct (H2 eq_refl "bucket TTL should be 1 second or more") as [_ Hl]; [vm_compute; reflexivity|].
  split; [by apply H1|]. split; [exact Hl|]. by apply (H3 f.1 Hl 0%Z).
Defined.

(** The callbacks of consecutive ticks, with the states before and after each. *)
Inductive runs_ticks `{KV : KeyValue} : list Z → election → kv → election → kv → list callback → Prop :=
| runs_ticks_nil e b : runs_ticks [] e b e b []
| runs_ticks_cons t ts e b e1 b1 e2 b2 cs : tick t (e, b) = ((e1, b1), Ok tt) →
    ticked t e b e1 b1 → opts e1 = opts e → runs_ticks ts e1 b1 e2 b2 cs →
    runs_ticks (t :: ts) e b e2 b2 (tick_calls e e1 ++ cs).

Lemma ticks_spec `{KV : KeyValue} ts e b : free e →
  ∃ e' b' cs, ticks ts (e, b) = ((e', b'), Ok tt) ∧ free e' ∧ runs_ticks ts e b e' b' cs ∧
    calls e' = calls e ++ cs.
Proof.
  revert e b. induction ts as [|t ts IH]; intros e b Hf.
  - exists e, b, []. rewrite app_nil_r. split_and!; [done|done|constructor|done].
  - destruct (tick_spec t e b Hf) as (e1 & b1 & Ht & Hf1 & Ho & Htk & Hc).
    destruct (IH e1 b1 Hf1) as (e2 & b2 & cs & Hts & Hf2 & Hr & Hc2).
    exists e2, b2, (tick_calls e e1 ++ cs). cbn [ticks]. unfold mbind, ST_bind. rewrite Ht.
    split_and!; [done|done|by econstructor|]. by rewrite Hc2, Hc, app_assoc.
Qed.

(** Start of an election that is not running, on a bucket that suits it, runs
    until its context ends and returns without an error: it begins as a candidate,
    its callbacks are exactly those of its campaigns, so a leader that is shut down
    never calls its lost callback, and it leaves the bucket as its last campaign did,
    its entry included. *)
Theorem start_runs `{KV : KeyValue} e b sv status o times :
  locked e = false → started e = false → configure sv status (opts e) = Ok o →
  ∃ e1 b1 cs e2,
    runs_ticks times (upd_locked false (upd_state CandidateState (lastSeq e)
                        (upd_locked false (upd_started true false (upd_opts o e))))) b e1 b1 cs ∧
    Start sv status false times (e, b) = ((e2, b1), Ok tt) ∧
    state e2 = CandidateState ∧ started e2 = false ∧ locked e2 = false ∧ calls e2 = calls e ++ cs.
Proof.
  intros Hf Hs Ho.
  set (e0 := upd_locked false (upd_started true false (upd_opts o (upd_locked true e)))).
  assert (start_begin sv status (e, b) = ((e0, b), Ok tt)) as Hb.
  { unfold start_begin, mu_Lock, mu_Unlock, on_election, modify, gets, mbind, ST_bind. cbn [fst snd].
    rewrite Hf. cbn. by rewrite Hs, Ho. }
  set (ec := upd_locked false (upd_state CandidateState (lastSeq e) e0)).
  destruct (ticks_spec times ec b) as (e1 & b1 & cs & Ht & Hf1 & Hr & Hc); [done|].
  exists e1, b1, cs, (stopped e1). split; [exact Hr|]. split; [|by split_and!; [..|exact Hc]].
  unfold Start, mbind, ST_bind. rewrite Hb. unfold attempt, campaign, mbind, ST_bind.
  rewrite begin_spec by done. change (upd_locked false (upd_state CandidateState (lastSeq e0) e0)) with ec.
  by rewrite Ht, end_spec.
Qed.

Lemma start_runs_witness :
  let e := NewElection demo_options in
  let r := Start false (Ok demo_ttl) false [0; 22500000000]%Z (e, demo_empty) in
  r.2 = Ok tt ∧ calls r.1.1 = [WonCb] ∧
  ∃ b1 e2, Start false (Ok demo_ttl) false [0; 22500000000]%Z (e, demo_empty) = ((e2, b1), Ok tt) ∧
    state e2 = CandidateState.
Proof.
  intros e r. split; [vm_compute; reflexivity|]. split; [vm_compute; reflexivity|].
  destruct (start_runs e demo_empty false (Ok demo_ttl) demo_configured [0; 22500000000]%Z)
    as (e1 & b1 & cs & e2 & _ & Hr & Hs & _); [reflexivity..|vm_compute; reflexivity|].
  exists b1, e2. by split.
Defined.
