(* ===== verification/Governor.v ===== *)
(** * The governor

    providers/governor/streams/governor.go: taking a slot of a stream of limited
    size and releasing it.  The stream is the class [GovernorStream].  [Start] holds
    the mutex of its governor until it returns, so the calls on one governor are
    sequential; governors of several processes share the stream. *)
From S2P Require Import Prelude GoLib Util Backoff.

(** How the stream answers a message: stored with a sequence, refused because it
    is full (error 10077), or any other error, after which it may be stored. *)
Inductive pub_result := PubAck (seq : Z) | PubFull | PubError (why : string).

Class GovernorStream := {
  gs : Type;
  gs_Publish : gs → string → gs * pub_result;
  gs_Delete : gs → Z → gs * bool;
  gs_entries : gs → gset Z;
  gs_last : gs → Z;
}.

(** A stream that keeps at most [limit] messages and discards new ones, and never gives a
    sequence twice. *)
Class LawfulStream `{GovernorStream} (limit : nat) := {
  publish_ack : ∀ s d s' q, gs_Publish s d = (s', PubAck q) →
    (0 < q)%Z ∧ (gs_last s < q)%Z ∧ gs_entries s' = {[q]} ∪ gs_entries s;
  publish_last : ∀ s d s' r, gs_Publish s d = (s', r) → (gs_last s ≤ gs_last s')%Z;
  entries_last : ∀ s q, q ∈ gs_entries s → (q ≤ gs_last s)%Z;
  publish_keeps : ∀ s d s' r q, gs_Publish s d = (s', r) → q ∈ gs_entries s → q ∈ gs_entries s';
  publish_limit : ∀ s d s' r, gs_Publish s d = (s', r) → size (gs_entries s) ≤ limit →
    size (gs_entries s') ≤ limit;
  delete_last : ∀ s q s' ok, gs_Delete s q = (s', ok) → (gs_last s ≤ gs_last s')%Z;
  delete_ok : ∀ s q s', gs_Delete s q = (s', true) → gs_entries s' = gs_entries s ∖ {[q]};
  delete_fails : ∀ s q s', gs_Delete s q = (s', false) → gs_entries s' = gs_entries s;
}.

Record jsGMgr := {
  g_name : string;
  g_stream : string;
  g_subj : string;
  g_running : bool;
  g_noLeave : bool;
  g_cint : Z;
  g_bo : option Policy;
}.

Definition StreamName (governor : string) : string := "GOVERNOR_" +:+ governor.

Definition streamSubject (name subj : string) : string :=
  if negb (String.eqb subj "") then subj else "$GOVERNOR.campaign." +:+ name.

Definition DefaultInterval : Z := 250 * Millisecond.

(** [New] with its options: the subject if one is given, whether entries are left
    behind, the interval if one is given and the backoff policy. *)
Definition New (name subj : string) (noLeave : bool) (cint : option Z) (bo : option Policy) : jsGMgr :=
  {| g_name := name; g_stream := StreamName name; g_subj := streamSubject name subj;
     g_running := false; g_noLeave := noLeave; g_cint := default DefaultInterval cint; g_bo := bo |}.

Definition set_running (b : bool) (g : jsGMgr) : jsGMgr :=
  {| g_name := g_name g; g_stream := g_stream g; g_subj := g_subj g; g_running := b;
     g_noLeave := g_noLeave g; g_cint := g_cint g; g_bo := g_bo g |}.

Abbreviation GM := (ST (jsGMgr * gs) string).

Section Governor.
Context `{GS : GovernorStream}.

(** [try] of [Start]: the sequence of the slot; the error [None] is [errRetry]. *)
Definition try_slot (name : string) : ST (jsGMgr * gs) (option string) Z := λ '(g, s),
  match gs_Publish s name with
  | (s, PubAck seq) => ((g, s), Ok seq)
  | (s, PubFull) => ((g, s), Err None)
  | (s, PubError e) => ((g, s), Err (Some e))
  end.

(** A slot, or [None] when the campaign goes on. *)
Definition retryable (r : outcome (option string) Z) : res (option Z) :=
  match r with
  | Ok seq => Ok (Some seq)
  | Err None => Ok None
  | Err (Some e) => Err e
  | Panic p => Panic p
  end.

(** The [Finisher] of a slot. *)
Definition closer (seq : Z) : GM () := λ '(g, s),
  if (seq =? 0)%Z then ((g, s), Ok tt)
  else if negb (g_running g) then ((g, s), Ok tt)
  else
    let g := set_running false g in
    if g_noLeave g then ((g, s), Ok tt)
    else
      match gs_Delete s seq with
      | (s, true) => ((g, s), Ok tt)
      | (s, false) => ((g, s), Err "could not remove seq")
      end.

(** One tick of the campaign. *)
Definition start_tick (name : string) : GM (option Z) := λ w,
  let '(w, r) := try_slot name w in (w, retryable r).

(** The part of [Start] before it waits. *)
Definition start_first (name : string) : GM (option Z) := λ '(g, s),
  if g_running g then ((g, s), Err "already running")
  else start_tick name (set_running true g, s).

(** The wait before the next tick, after [tries] of them. *)
Definition next_delay (rnd : Z → Z) (tries : Z) (g : jsGMgr) : res Z :=
  match g_bo g with
  | None => Ok (g_cint g)
  | Some p => Backoff.Duration rnd p tries
  end.

(** The loop of [Start] on a ticker that fires [n] times before the context ends;
    the stream is changed by others, [others i], before the i-th tick. *)
Fixpoint start_loop (name : string) (others : nat → gs → gs) (n : nat) : GM Z :=
  match n with
  | O => throw "context deadline exceeded"
  | S n' =>
      modify (λ w, (w.1, others n' w.2));;
      r ← start_tick name;
      match r with
      | Some seq => mret seq
      | None => start_loop name others n'
      end
  end.

(** [Start]: the sequence of the slot, for which [closer] is the finisher. *)
Definition GovernorStart (name : string) (others : nat → gs → gs) (n : nat) : GM Z :=
  r ← start_first name;
  match r with
  | Some seq => mret seq
  | None => start_loop name others n
  end.

(** ** Processes that share a stream *)

Inductive phase := Idle | Campaigning | Holding (seq : Z) | Gone.

Record world := {
  w_gov : nat → jsGMgr;
  w_phase : nat → phase;
  w_stream : gs;
  (** the entries that left the stream by their age, or because they were evicted *)
  w_evicted : gset Z;
}.

Definition upd_process (i : nat) (g : jsGMgr) (p : phase) (s : gs) (w : world) : world :=
  {| w_gov := λ j, if decide (j = i) then g else w_gov w j;
     w_phase := λ j, if decide (j = i) then p else w_phase w j; w_stream := s;
     w_evicted := w_evicted w |}.

(** What a process does after a part of [Start]. *)
Definition outcome_phase (r : res (option Z)) : phase :=
  match r with
  | Ok (Some seq) => Holding seq
  | Ok None => Campaigning
  | _ => Gone
  end.

(** Processes start, campaign, give up and finish, and any entry can leave the stream by
    its age or be evicted, also one of a process that still works. *)
Inductive step (name : nat → string) : world → world → Prop :=
| step_start i w g s r : w_phase w i = Idle →
    start_first (name i) (w_gov w i, w_stream w) = ((g, s), r) →
    step name w (upd_process i g (outcome_phase r) s w)
| step_campaign i w g s r : w_phase w i = Campaigning →
    start_tick (name i) (w_gov w i, w_stream w) = ((g, s), r) →
    step name w (upd_process i g (outcome_phase r) s w)
| step_give_up i w : w_phase w i = Campaigning →
    step name w (upd_process i (w_gov w i) Gone (w_stream w) w)
| step_finish i w seq g s r : w_phase w i = Holding seq →
    closer seq (w_gov w i, w_stream w) = ((g, s), r) →
    step name w (upd_process i g Gone s w)
| step_restart i w : w_phase w i = Gone → step name w (upd_process i (w_gov w i) Idle (w_stream w) w)
| step_evict w s q : gs_entries s = gs_entries (w_stream w) ∖ {[q]} → (gs_last (w_stream w) ≤ gs_last s)%Z →
    step name w {| w_gov := w_gov w; w_phase := w_phase w; w_stream := s; w_evicted := {[q]} ∪ w_evicted w |}.

End Governor.

(** * The governor: properties

    The limit on concurrent work and the life of a slot. *)

Section Proofs.
Context `{GS : GovernorStream} (limit : nat) `{LGS : !LawfulStream limit}.

(** What a try to get a slot does. *)
Lemma start_tick_spec name g s g' s' r : start_tick name (g, s) = ((g', s'), r) →
  g' = g ∧ (∀ q, q ∈ gs_entries s → q ∈ gs_entries s') ∧ (gs_last s ≤ gs_last s')%Z ∧
  (size (gs_entries s) ≤ limit → size (gs_entries s') ≤ limit) ∧
  (∀ q, outcome_phase r = Holding q → (0 < q)%Z ∧ (gs_last s < q)%Z ∧ q ∈ gs_entries s').
Proof.
  unfold start_tick, try_slot. destruct (gs_Publish s name) as [s1 [q| |e]] eqn:Hp; simpl;
    intros [= <- <- <-]; (split; [done|]); (split; [by intros; eapply publish_keeps|]); (split; [by eapply publish_last|]);
    (split; [by eapply publish_limit|]); [|done..].
  intros q' [= <-]. destruct (publish_ack _ _ _ _ Hp) as (? & ? & ->). set_solver.
Qed.

Lemma start_first_spec name g s g' s' r : start_first name (g, s) = ((g', s'), r) →
  (∀ q, q ∈ gs_entries s → q ∈ gs_entries s') ∧ (gs_last s ≤ gs_last s')%Z ∧
  (size (gs_entries s) ≤ limit → size (gs_entries s') ≤ limit) ∧
  (∀ q, outcome_phase r = Holding q → (0 < q)%Z ∧ (gs_last s < q)%Z ∧ q ∈ gs_entries s') ∧
  g_running g' = true.
Proof.
  unfold start_first. destruct (g_running g) eqn:Hr; [intros [= <- <- <-]; split_and!; [done|lia|done..]|].
  intros Ht. destruct (start_tick_spec _ _ _ _ _ _ Ht) as (-> & ? & ? & ? & ?). done.
Qed.

Lemma closer_spec q g s g' s' r : closer q (g, s) = ((g', s'), r) →
  (gs_entries s' = gs_entries s ∨ gs_entries s' = gs_entries s ∖ {[q]}) ∧ (gs_last s ≤ gs_last s')%Z.
Proof.
  unfold closer. destruct (q =? 0)%Z; [intros [= <- <- <-]; split; [by left|lia]|].
  destruct (negb _); [intros [= <- <- <-]; split; [by left|lia]|].
  destruct (g_noLeave _); [intros [= <- <- <-]; split; [by left|lia]|].
  destruct (gs_Delete s q) as [s1 []] eqn:Hd; intros [= <- <- <-]; (split; [|by eapply delete_last]).
  - right. by eapply delete_ok.
  - left. by eapply delete_fails.
Qed.

(** ** The limit *)

(** Slots are entries of the stream, each of one process, but for those that were evicted. *)
Definition slots_inv (w : world) : Prop :=
  (∀ i q, w_phase w i = Holding q → (q ≤ gs_last (w_stream w))%Z ∧ (q ∈ gs_entries (w_stream w) ∨ q ∈ w_evicted w)) ∧
  (∀ i j q, w_phase w i = Holding q → w_phase w j = Holding q → i = j) ∧
  size (gs_entries (w_stream w)) ≤ limit.

(** A process gets a slot, or none, while the entries stay. *)
Lemma slots_gain w i g p s : slots_inv w →
  (∀ q, q ∈ gs_entries (w_stream w) → q ∈ gs_entries s) → (gs_last (w_stream w) ≤ gs_last s)%Z →
  size (gs_entries s) ≤ limit →
  (∀ q, p = Holding q → (gs_last (w_stream w) < q)%Z ∧ q ∈ gs_entries s) →
  slots_inv (upd_process i g p s w).
Proof.
  intros (Hh & Hu & _) Hkeep Hlast Hsize Hnew.
  assert (∀ j q, p = Holding q → w_phase w j ≠ Holding q) as Hfresh.
  { intros j q Hp Hj. destruct (Hnew q Hp) as [Hq _]. destruct (Hh j q Hj) as [Hle _]. lia. }
  split_and!; cbn.
  - intros j q. case_decide.
    + intros Hq. destruct (Hnew q Hq) as [_ Hin]. split; [by apply entries_last|by left].
    + intros Hq. destruct (Hh j q Hq) as [Hle Hin]. split; [lia|]. destruct Hin; [left; by apply Hkeep|by right].
  - intros j j' q. do 2 case_decide; subst; try done.
    + intros Hq Hq'. by destruct (Hfresh j' q Hq).
    + intros Hq Hq'. by destruct (Hfresh j q Hq').
    + apply Hu.
  - done.
Qed.

(** A process leaves, and at most its entry with it. *)
Lemma slots_leave w i g p s : slots_inv w → (∀ q, p ≠ Holding q) → (gs_last (w_stream w) ≤ gs_last s)%Z →
  gs_entries s = gs_entries (w_stream w) ∨
  (∃ q, w_phase w i = Holding q ∧ gs_entries s = gs_entries (w_stream w) ∖ {[q]}) →
  slots_inv (upd_process i g p s w).
Proof.
  intros (Hh & Hu & Hsize) Hp Hlast Hs. split_and!; cbn.
  - intros j q. case_decide; [intros Hq; by destruct (Hp q)|]. intros Hq. destruct (Hh j q Hq) as [Hle Hin].
    split; [lia|]. destruct Hin as [Hin|Hin]; [left|by right].
    destruct Hs as [->|(q0 & Hq0 & ->)]; [done|]. apply elem_of_difference. split; [done|].
    intros ->%elem_of_singleton. by pose proof (Hu j i q0 Hq Hq0).
  - intros j j' q. do 2 case_decide; subst; try done; try (intros Hq; by destruct (Hp q)).
    + intros _ Hq. by destruct (Hp q).
    + apply Hu.
  - destruct Hs as [->|(q0 & _ & ->)]; [done|]. etransitivity; [|exact Hsize].
    apply subseteq_size. set_solver.
Qed.

Lemma slots_step name w w' : step name w w' → slots_inv w → slots_inv w'.
Proof.
  intros Hstep Hinv. pose proof Hinv as (Hh & Hu & Hsize).
  destruct Hstep as [i w g s r Hp Hs|i w g s r Hp Hs|i w Hp|i w q g s r Hp Hs|i w Hp|w s q Hs Hlast].
  - destruct (start_first_spec _ _ _ _ _ _ Hs) as (Hk & Hla & Hl & Hn & _).
    apply slots_gain; [done|done|done|auto|]. intros q Hq. by destruct (Hn q Hq).
  - destruct (start_tick_spec _ _ _ _ _ _ Hs) as (_ & Hk & Hla & Hl & Hn).
    apply slots_gain; [done|done|done|auto|]. intros q Hq. by destruct (Hn q Hq).
  - apply slots_leave; [done|done|lia|by left].
  - destruct (closer_spec _ _ _ _ _ _ Hs) as [He Hla]. apply slots_leave; [done|done|done|].
    destruct He; [by left|right]. by exists q.
  - apply slots_leave; [done|done|lia|by left].
  - split_and!; cbn; [|done|].
    + intros i q' Hi. destruct (Hh i q' Hi) as [Hle Hin]. split; [lia|]. rewrite Hs.
      destruct (decide (q' = q)) as [->|Hne]; [right; set_solver|]. destruct Hin; [left|right]; set_solver.
    + rewrite Hs. etransitivity; [apply subseteq_size|exact Hsize]. set_solver.
Qed.

(** The processes that hold slots, by the entries they hold. *)
Lemma holders_bound w l : slots_inv w → NoDup l → (∀ i, i ∈ l → ∃ q, w_phase w i = Holding q ∧ q ∉ w_evicted w) →
  length l ≤ limit.
Proof.
  intros (Hh & Hu & Hsize) Hn Hl. etransitivity; [|exact Hsize].
  set (slot i := match w_phase w i with Holding q => q | _ => 0%Z end).
  assert (∀ i, i ∈ l → w_phase w i = Holding (slot i) ∧ slot i ∉ w_evicted w) as Hslot
    by (intros i Hi; unfold slot; by destruct (Hl i Hi) as (q & -> & ?)).
  assert (NoDup (map slot l)) as Hs.
  { apply NoDup_fmap_2_strong; [|done]. intros i j Hi Hj Heq. apply (Hu i j (slot i)); [by apply Hslot|].
    rewrite Heq. by apply Hslot. }
  rewrite <- (length_map slot l), <- (size_list_to_set (C:=gset Z) _ Hs).
  apply subseteq_size. intros q Hq%elem_of_list_to_set.
  apply list_elem_of_fmap in Hq as (i & -> & Hi). destruct (Hslot i Hi) as [Hp He]. by destruct (Hh i _ Hp) as [_ [|]].
Qed.

Lemma slots_reachable name w w' : (∀ i, w_phase w i = Idle) → size (gs_entries (w_stream w)) ≤ limit →
  rtc (step name) w w' → slots_inv w'.
Proof.
  intros Hidle Hsize Hr. assert (slots_inv w) as H0.
  { split_and!; [|..|done]; intros i; intros; by rewrite Hidle in *. }
  clear Hidle Hsize. induction Hr as [|w1 w2 w3 Hs _ IH]; [done|]. by eapply IH, slots_step.
Qed.

End Proofs.

(** ** A small stream, for the witnesses *)

(** The entries, the last sequence and whether the connection works. *)
Record demo_stream := { ds_entries : gset Z; ds_seq : Z; ds_up : bool }.

Definition demo_limit : nat := 2.

#[export] Instance demo_governor_stream : GovernorStream := {|
  gs := demo_stream;
  gs_Publish := λ s _,
    if negb (ds_up s) then (s, PubError "timeout")
    else if Nat.leb demo_limit (size (ds_entries s)) then (s, PubFull)
    else
      let q := (ds_seq s `max` set_fold Z.max 0 (ds_entries s) + 1)%Z in
      ({| ds_entries := {[q]} ∪ ds_entries s; ds_seq := q; ds_up := ds_up s |}, PubAck q);
  gs_Delete := λ s q,
    ({| ds_entries := ds_entries s ∖ {[q]}; ds_seq := (ds_seq s `max` set_fold Z.max 0 (ds_entries s))%Z; ds_up := ds_up s |}, true);
  gs_entries := ds_entries;
  gs_last := λ s, (ds_seq s `max` set_fold Z.max 0 (ds_entries s))%Z;
|}.

Lemma fold_max_bound (X : gset Z) : (0 ≤ set_fold Z.max 0 X)%Z ∧ ∀ q, q ∈ X → (q ≤ set_fold Z.max 0 X)%Z.
Proof.
  apply (set_fold_ind_L (λ r X, (0 ≤ r)%Z ∧ ∀ q, q ∈ X → (q ≤ r)%Z)).
  - split; [done|]. intros q Hq. set_solver.
  - intros x Y r Hx [Hr Hq]. split; [lia|]. intros q [->%elem_of_singleton|Hin]%elem_of_union; [lia|].
    specialize (Hq q Hin). lia.
Qed.

#[export] Instance demo_stream_lawful : LawfulStream demo_limit.
Proof.
  assert (∀ s : demo_stream, (0 ≤ gs_last s)%Z) as H0 by (intros s; cbn; pose proof (proj1 (fold_max_bound (ds_entries s))); lia).
  assert (∀ (s : demo_stream) q, q ∈ ds_entries s → (q ≤ gs_last s)%Z) as Hlast.
  { intros s q Hq. cbn. apply (proj2 (fold_max_bound (ds_entries s))) in Hq. lia. }
  assert (∀ (s : demo_stream) d, gs_Publish s d = (s, PubError "timeout") ∨ gs_Publish s d = (s, PubFull) ∨
    (size (ds_entries s) < demo_limit ∧
     gs_Publish s d = ({| ds_entries := {[(gs_last s + 1)%Z]} ∪ ds_entries s; ds_seq := (gs_last s + 1)%Z; ds_up := ds_up s |}, PubAck (gs_last s + 1)))) as Hp.
  { intros s d. cbn [gs_Publish demo_governor_stream]. destruct (ds_up s); [|by left]. cbn [negb].
    destruct (Nat.leb_spec demo_limit (size (ds_entries s))); [by right; left|]. right; right. by split. }
  split.
  - intros s d s' q H. destruct (Hp s d) as [E|[E|[_ E]]]; rewrite E in H; [done..|]. injection H as <- <-.
    specialize (H0 s). cbn [gs_last demo_governor_stream] in *. split_and!; [lia|lia|done].
  - intros s d s' r H. destruct (Hp s d) as [E|[E|[_ E]]]; rewrite E in H; injection H as <- _; [done..|].
    apply Z.le_trans with (gs_last s + 1)%Z; [lia|apply Z.le_max_l].
  - apply Hlast.
  - intros s d s' r q H Hq. destruct (Hp s d) as [E|[E|[_ E]]]; rewrite E in H; injection H as <- _; [done..|]. cbn [gs_entries demo_governor_stream ds_entries] in *. set_solver.
  - intros s d s' r H. destruct (Hp s d) as [E|[E|[Hlt E]]]; rewrite E in H; injection H as <- _; [done..|]. intros _.
    cbn [gs_entries demo_governor_stream ds_entries]. rewrite size_union_alt, size_singleton.
    match goal with |- context [ds_entries s ∖ ?x] => pose proof (subseteq_size (ds_entries s ∖ x) (ds_entries s) ltac:(set_solver)) end. lia.
  - intros s q s' ok [= <- <-]. apply Z.le_max_l.
  - by intros s q s' [= <-].
  - done.
Qed.

Definition demo_gov (running : bool) : jsGMgr := set_running running (New "cron" "" false None None).

Definition demo_start : world :=
  {| w_gov := λ _, demo_gov false; w_phase := λ _, Idle;
     w_stream := {| ds_entries := ∅; ds_seq := 0; ds_up := true |}; w_evicted := ∅ |}.

(** Processes 0, 1 and 2 start; the third waits. *)
Definition demo_try (i : nat) (w : world) : world :=
  let '((g, s), r) := start_first "worker" (w_gov w i, w_stream w) in
  upd_process i g (outcome_phase r) s w.

Lemma demo_try_step i w : w_phase w i = Idle → step (λ _, "worker") w (demo_try i w).
Proof.
  intros Hi. unfold demo_try. destruct (start_first _ _) as [[g s] r] eqn:Hs. by eapply step_start.
Qed.

(** ** The limit *)

(** C36. However many processes start, campaign, give up, finish and start again, and
    whatever entries age or are evicted, in any order: a process that holds a slot has its
    entry in the stream, unless that entry was evicted, since no other process takes it
    away; no two hold the same; and those whose entry was not evicted are no more than the
    messages that the stream keeps. *)
Theorem governor_limit `{GS : GovernorStream} limit `{LGS : !LawfulStream limit} name w w' :
  (∀ i, w_phase w i = Idle) → size (gs_entries (w_stream w)) ≤ limit → rtc (step name) w w' →
  (∀ i q, w_phase w' i = Holding q → q ∈ gs_entries (w_stream w') ∨ q ∈ w_evicted w') ∧
  (∀ i j q, w_phase w' i = Holding q → w_phase w' j = Holding q → i = j) ∧
  ∀ l, NoDup l → (∀ i, i ∈ l → ∃ q, w_phase w' i = Holding q ∧ q ∉ w_evicted w') → length l ≤ limit.
Proof.
  intros Hidle Hsize Hr. pose proof (slots_reachable limit _ _ _ Hidle Hsize Hr) as Hinv. split_and!.
  - intros i q Hq. by destruct Hinv as [H _]; destruct (H i q Hq).
  - by destruct Hinv as (_ & H & _).
  - intros l. by apply (holders_bound limit).
Qed.

(** An entry of a process that works ages, and another process takes its place. *)
Definition demo_age (q : Z) (w : world) : world :=
  {| w_gov := w_gov w; w_phase := w_phase w; w_stream := (gs_Delete (w_stream w) q).1; w_evicted := {[q]} ∪ w_evicted w |}.

Lemma demo_age_step q w : step (λ _, "worker") w (demo_age q w).
Proof. unfold demo_age. apply step_evict; cbn; [done|lia]. Qed.

Example aged_slots_exceed_the_limit :
  let w := demo_try 2 (demo_age 1 (demo_try 1 (demo_try 0 demo_start))) in
  map (w_phase w) [0; 1; 2] = [Holding 1; Holding 2; Holding 3].
Proof. vm_compute. reflexivity. Qed.

Lemma governor_limit_witness :
  let w := demo_try 2 (demo_age 1 (demo_try 1 (demo_try 0 demo_start))) in
  w_phase w 0 = Holding 1 ∧ w_evicted w = {[1%Z]} ∧ length [1; 2] ≤ demo_limit.
Proof.
  intros w. split; [vm_compute; reflexivity|]. split; [vm_compute; reflexivity|].
  apply (governor_limit demo_limit (λ _, "worker") demo_start w).
  - done.
  - vm_compute. repeat constructor.
  - eapply rtc_l; [by apply (demo_try_step 0)|]. eapply rtc_l; [by apply (demo_try_step 1)|].
    eapply rtc_l; [by apply (demo_age_step 1)|]. apply rtc_once. by apply (demo_try_step 2).
  - repeat constructor; set_solver.
  - intros i [->|[->|[]%elem_of_nil]%elem_of_cons]%elem_of_cons; [exists 2%Z|exists 3%Z];
      (split; [vm_compute; reflexivity|apply (bool_decide_unpack _); vm_compute; exact I]).
Defined.

(** ** A slot *)

Lemma start_loop_spec `{GS : GovernorStream} limit `{LGS : !LawfulStream limit} name others n g s g' s' r :
  start_loop name others n (g, s) = ((g', s'), r) →
  g' = g ∧ ∀ q, r = Ok q → (0 < q)%Z ∧ q ∈ gs_entries s'.
Proof.
  revert s. induction n as [|n IH]; intros s; cbn [start_loop]; [by intros [= <- <- <-]|].
  unfold modify, mbind, ST_bind. cbn [fst snd].
  destruct (start_tick name (g, others n s)) as [[g1 s1] r1] eqn:Ht.
  destruct (start_tick_spec limit _ _ _ _ _ _ Ht) as (-> & _ & _ & _ & Hq).
  destruct r1 as [[q|]|e|p]; [|apply IH|by intros [= <- <- <-]..].
  intros [= <- <- <-]. split; [done|]. intros q' [= <-]. destruct (Hq q eq_refl) as (? & _ & ?). done.
Qed.

Lemma start_tick_no_panic `{GS : GovernorStream} name w w' p : start_tick name w ≠ (w', Panic p).
Proof. destruct w as [g s]. unfold start_tick, try_slot. by destruct (gs_Publish s name) as [? []]. Qed.

Lemma start_loop_no_panic `{GS : GovernorStream} name others n w w' p : start_loop name others n w ≠ (w', Panic p).
Proof.
  revert w. induction n as [|n IH]; intros w; [done|]. cbn [start_loop]. unfold modify, mbind, ST_bind.
  pose proof (start_tick_no_panic name (w.1, others n w.2)) as Hp. cbn.
  destruct (start_tick _ _) as [w1 [[q|]|e|q]]; [done|apply IH|done|by destruct (Hp w1 q)].
Qed.

Lemma governor_start_spec `{GS : GovernorStream} limit `{LGS : !LawfulStream limit} name others n g s g' s' r :
  g_running g = false → GovernorStart name others n (g, s) = ((g', s'), r) →
  g' = set_running true g ∧ (∀ p, r ≠ Panic p) ∧ ∀ q, r = Ok q → (0 < q)%Z ∧ q ∈ gs_entries s'.
Proof.
  intros Hr. unfold GovernorStart, mbind, ST_bind. cbn [start_first]. rewrite Hr.
  destruct (start_tick name (set_running true g, s)) as [[g1 s1] r1] eqn:Ht.
  destruct (start_tick_spec limit _ _ _ _ _ _ Ht) as (-> & _ & _ & _ & Hq).
  destruct r1 as [[q|]|e|p].
  - intros [= <- <- <-]. split; [done|]. split; [done|]. intros q' [= <-].
    destruct (Hq q eq_refl) as (? & _ & ?). done.
  - intros Hloop. destruct (start_loop_spec limit _ _ _ _ _ _ _ _ Hloop) as [-> Hq'].
    split; [done|]. split; [|exact Hq']. intros p ->. by apply start_loop_no_panic in Hloop.
  - by intros [= <- <- <-].
  - by destruct (start_tick_no_panic _ _ _ _ Ht).
Qed.

(** Start either gets an entry of its own in the stream, and then its finisher
    removes that entry and no other, leaves the governor ready to start again and
    does nothing when called again; or it fails, and then every later Start of that
    governor fails, since it stays running. *)
Theorem slot_lifecycle `{GS : GovernorStream} limit `{LGS : !LawfulStream limit} name others n g s g' s' r :
  g_running g = false → g_noLeave g = false →
  GovernorStart name others n (g, s) = ((g', s'), r) →
  match r with
  | Ok q => q ∈ gs_entries s' ∧
      ∀ later after, gs_Delete later q = (after, true) →
        closer q (g', later) = ((g, after), Ok tt) ∧
        gs_entries after = gs_entries later ∖ {[q]} ∧
        closer q (g, after) = ((g, after), Ok tt)
  | Err _ => ∀ name' others' n' later,
      GovernorStart name' others' n' (g', later) = ((g', later), Err "already running")
  | Panic _ => False
  end.
Proof.
  intros Hr Hl Hs. destruct (governor_start_spec limit _ _ _ _ _ _ _ _ Hr Hs) as (-> & Hnp & Hq).
  destruct r as [q|e|p]; [|done|by destruct (Hnp p)].
  destruct (Hq q eq_refl) as [Hpos Hin]. split; [done|]. intros later after Hd.
  assert (set_running false (set_running true g) = g) as Hg by (destruct g; simpl in *; by rewrite Hr).
  assert ((q =? 0)%Z = false) as Hq0 by lia.
  unfold closer. rewrite Hq0, Hr. cbn [g_running set_running negb g_noLeave]. rewrite Hl, Hd.
  split; [by rewrite <- Hg at 2|]. split; [by apply delete_ok|done].
Qed.

Lemma slot_lifecycle_witness :
  let ok := {| ds_entries := ∅; ds_seq := 0; ds_up := true |} in
  let down := {| ds_entries := ∅; ds_seq := 0; ds_up := false |} in
  let started := GovernorStart "worker" (λ _ s, s) 3 (demo_gov false, ok) in
  let failed := GovernorStart "worker" (λ _ s, s) 3 (demo_gov false, down) in
  started.2 = Ok 1%Z ∧ (closer 1 started.1).2 = Ok tt ∧
  failed.2 = Err "timeout" ∧
  GovernorStart "worker" (λ _ s, s) 3 (failed.1.1, ok) = ((failed.1.1, ok), Err "already running").
Proof.
  intros ok down started failed.
  pose proof (slot_lifecycle demo_limit "worker" (λ _ s, s) 3 (demo_gov false) ok started.1.1 started.1.2
    (Ok 1%Z) eq_refl eq_refl ltac:(vm_compute; reflexivity)) as [_ H1].
  pose proof (slot_lifecycle demo_limit "worker" (λ _ s, s) 3 (demo_gov false) down failed.1.1 failed.1.2
    (Err "timeout") eq_refl eq_refl ltac:(vm_compute; reflexivity)) as H2.
  split; [vm_compute; reflexivity|]. split; [|split; [vm_compute; reflexivity|apply H2]].
  destruct (gs_Delete started.1.2 1) as [after b] eqn:Hd. assert (b = true) as -> by (vm_compute in Hd; congruence).
  destruct (H1 _ _ Hd) as [Hc _].
  change started.1 with (started.1.1, started.1.2). by rewrite Hc.
Defined.
