(* ===== verification/Transport.v ===== *)
(** * Transport messages, requests and replies

    protocol/protocol.go, protocol/v1 and protocol/v2 (transport.go, request.go,
    reply.go) and protocol/federation.go: the headers a message travels with, and
    the interface [Federable] through which federation data is copied from one
    message to the next.  The packages of the two versions declare the same types
    under different JSON keys, so each is one record here with the package it comes
    from, and the methods they share are one definition.  Their mutex serves each
    method on its own and is left out; JSON is the class [TransportJSON]. *)
From S2P Require Import Prelude GoLib Regex Files Facts Filters Util.

(** The package that declares the type of a message. *)
Inductive proto_version := V1 | V2.

#[export] Instance proto_version_eq_dec : EqDecision proto_version.
Proof. solve_decision. Defined.

(** An element of the trace. *)
Abbreviation hop := (string * string * string)%type.

Record FederationTransportHeader := {
  ft_RequestID : string;
  ft_ReplyTo : string;
  ft_Targets : list string;
}.

Definition empty_federation : FederationTransportHeader :=
  {| ft_RequestID := ""; ft_ReplyTo := ""; ft_Targets := [] |}.

Definition set_ft_RequestID (id : string) (f : FederationTransportHeader) :=
  {| ft_RequestID := id; ft_ReplyTo := ft_ReplyTo f; ft_Targets := ft_Targets f |}.
Definition set_ft_ReplyTo (reply : string) (f : FederationTransportHeader) :=
  {| ft_RequestID := ft_RequestID f; ft_ReplyTo := reply; ft_Targets := ft_Targets f |}.
Definition set_ft_Targets (targets : list string) (f : FederationTransportHeader) :=
  {| ft_RequestID := ft_RequestID f; ft_ReplyTo := ft_ReplyTo f; ft_Targets := targets |}.

Record TransportHeaders := {
  th_ReplyTo : string;
  th_Sender : string;
  th_SeenBy : list hop;
  th_Federation : option FederationTransportHeader;
}.

Definition empty_headers : TransportHeaders :=
  {| th_ReplyTo := ""; th_Sender := ""; th_SeenBy := []; th_Federation := None |}.

Record TransportMessage := {
  tm_Type : proto_version;
  tm_Protocol : string;
  tm_Data : string;
  (** a pointer *)
  tm_Headers : option TransportHeaders;
}.

Definition RequestV1 : string := "choria:request:1".
Definition ReplyV1 : string := "choria:reply:1".
Definition SecureRequestV1 : string := "choria:secure:request:1".
Definition SecureReplyV1 : string := "choria:secure:reply:1".
Definition TransportV1 : string := "choria:transport:1".
Definition RequestV2 : string := "io.choria.protocol.v2.request".
Definition ReplyV2 : string := "io.choria.protocol.v2.reply".
Definition SecureRequestV2 : string := "io.choria.protocol.v2.secure_request".
Definition SecureReplyV2 : string := "io.choria.protocol.v2.secure_reply".
Definition TransportV2 : string := "io.choria.protocol.v2.transport".
Definition Unknown : string := "io.choria.protocol.unknown".
Definition RemoteSigningAgent : string := "aaa_signer".
Definition RegistrationAgent : string := "registration".

Definition protocol_versions : list string :=
  [RequestV1; ReplyV1; SecureRequestV1; SecureReplyV1; TransportV1;
   RequestV2; ReplyV2; SecureRequestV2; SecureReplyV2; TransportV2].

(** [ProtocolVersion.UnmarshalJSON] of a JSON string. *)
Definition ProtocolVersion_UnmarshalJSON (rp : string) : string :=
  if elem rp protocol_versions then rp else Unknown.

Definition IsRemoteSignerAgent (agent : string) : bool := String.eqb agent RemoteSigningAgent.
Definition IsRegistrationAgent (agent : string) : bool := String.eqb agent RegistrationAgent.

(** The envelope of version 1 is a pointer that the schema of requests requires; the
    two tokens are fields of version 2 only. *)
Record Request := {
  rq_Type : proto_version;
  rq_Protocol : string;
  rq_MessageBody : string;
  rq_RequestID : string;
  rq_SenderID : string;
  rq_CallerID : string;
  rq_Collective : string;
  rq_Agent : string;
  rq_TTL : Z;
  rq_Time : Z;
  (** a pointer *)
  rq_Filter : option Filter;
  rq_callerJWT : string;
  rq_signerJWT : string;
  rq_seenBy : list hop;
  rq_federation : option FederationTransportHeader;
}.

Record Reply := {
  rp_Type : proto_version;
  rp_Protocol : string;
  rp_MessageBody : string;
  rp_Request : string;
  rp_Sender : string;
  rp_SendingAgent : string;
  rp_TimeStamp : Z;
  rp_seenBy : list hop;
  rp_federation : option FederationTransportHeader;
}.

(** ** The interface *)

(** [protocol.Federable] with [RecordNetworkHop] and [NetworkHops]. *)
Class Federable (M : Type) := {
  SetFederationRequestID : string → M → res M;
  SetFederationReplyTo : string → M → res M;
  SetFederationTargets : list string → M → res M;
  SetUnfederated : M → res M;
  FederationRequestID : M → res (option string);
  FederationReplyTo : M → res (option string);
  FederationTargets : M → res (option (list string));
  IsFederated : M → res bool;
  RecordNetworkHop : hop → M → res M;
  NetworkHops : M → res (list hop);
}.

(** What a message of any kind keeps for the interface. *)
Abbreviation fed_view := (option FederationTransportHeader * list hop)%type.

Section FederableOf.
Context {M : Type} (get : M → res fed_view) (set : fed_view → M → M).

Definition read_view {A} (f : fed_view → A) (m : M) : res A := v ← get m; Ok (f v).

Definition write_view (f : fed_view → fed_view) (m : M) : res M := v ← get m; Ok (set (f v) m).

(** [if m.federation == nil { m.federation = &FederationTransportHeader{} }] first *)
Definition write_federation (f : FederationTransportHeader → FederationTransportHeader) : M → res M :=
  write_view (λ v, (Some (f (default empty_federation v.1)), v.2)).

(** The methods, which the three kinds of messages implement alike. *)
Definition federable_of : Federable M :=
  {| SetFederationRequestID := λ id, write_federation (set_ft_RequestID id);
     SetFederationReplyTo := λ reply, write_federation (set_ft_ReplyTo reply);
     SetFederationTargets := λ targets, write_federation (set_ft_Targets targets);
     SetUnfederated := write_view (λ v, (None, v.2));
     FederationRequestID := read_view (λ v, ft_RequestID <$> v.1);
     FederationReplyTo := read_view (λ v, ft_ReplyTo <$> v.1);
     FederationTargets := read_view (λ v, ft_Targets <$> v.1);
     IsFederated := read_view (λ v, bool_decide (is_Some v.1));
     RecordNetworkHop := λ h, write_view (λ v, (v.1, v.2 ++ [h]));
     NetworkHops := read_view snd |}.

End FederableOf.

Definition nil_headers {A} : res A := Panic "invalid memory address or nil pointer dereference".

Definition tm_get (m : TransportMessage) : res fed_view :=
  match tm_Headers m with
  | None => nil_headers
  | Some h => Ok (th_Federation h, th_SeenBy h)
  end.

Definition tm_update (f : TransportHeaders → TransportHeaders) (m : TransportMessage) : TransportMessage :=
  {| tm_Type := tm_Type m; tm_Protocol := tm_Protocol m; tm_Data := tm_Data m;
     tm_Headers := f <$> tm_Headers m |}.

Definition tm_set (v : fed_view) : TransportMessage → TransportMessage :=
  tm_update (λ h, {| th_ReplyTo := th_ReplyTo h; th_Sender := th_Sender h; th_SeenBy := v.2;
                     th_Federation := v.1 |}).

#[export] Instance TransportMessage_federable : Federable TransportMessage := federable_of tm_get tm_set.

Definition rq_set (v : fed_view) (r : Request) : Request :=
  {| rq_Type := rq_Type r; rq_Protocol := rq_Protocol r; rq_MessageBody := rq_MessageBody r;
     rq_RequestID := rq_RequestID r; rq_SenderID := rq_SenderID r; rq_CallerID := rq_CallerID r;
     rq_Collective := rq_Collective r; rq_Agent := rq_Agent r; rq_TTL := rq_TTL r; rq_Time := rq_Time r;
     rq_Filter := rq_Filter r; rq_callerJWT := rq_callerJWT r; rq_signerJWT := rq_signerJWT r;
     rq_seenBy := v.2; rq_federation := v.1 |}.

#[export] Instance Request_federable : Federable Request :=
  federable_of (λ r, Ok (rq_federation r, rq_seenBy r)) rq_set.

Definition rp_set (v : fed_view) (r : Reply) : Reply :=
  {| rp_Type := rp_Type r; rp_Protocol := rp_Protocol r; rp_MessageBody := rp_MessageBody r; rp_Request := rp_Request r;
     rp_Sender := rp_Sender r; rp_SendingAgent := rp_SendingAgent r; rp_TimeStamp := rp_TimeStamp r;
     rp_seenBy := v.2; rp_federation := v.1 |}.

#[export] Instance Reply_federable : Federable Reply :=
  federable_of (λ r, Ok (rp_federation r, rp_seenBy r)) rp_set.

(** [if v, ok := from.X(); ok { to.SetX(v) }] *)
Definition copy_field {A M} (v : option A) (set : A → M → res M) (m : M) : res M :=
  match v with Some a => set a m | None => Ok m end.

Fixpoint record_hops `{Federable M} (hops : list hop) (m : M) : res M :=
  match hops with
  | [] => Ok m
  | h :: rest => m ← RecordNetworkHop h m; record_hops rest m
  end.

Definition CopyFederationData `{Federable A} `{Federable B} (from : A) (to : B) : res B :=
  fed ← IsFederated from;
  if negb fed then SetUnfederated to
  else
    reply ← FederationReplyTo from;
    to ← copy_field reply SetFederationReplyTo to;
    req ← FederationRequestID from;
    to ← copy_field req SetFederationRequestID to;
    targets ← FederationTargets from;
    to ← copy_field targets SetFederationTargets to;
    hops ← NetworkHops from;
    record_hops hops to.

(** ** Transport messages *)

(** Methods of the transport that are not in the interface. *)
Definition with_headers {A} (m : TransportMessage) (f : TransportHeaders → A) : res A :=
  match tm_Headers m with None => nil_headers | Some h => Ok (f h) end.

Definition SetReplyTo (reply : string) (m : TransportMessage) : res TransportMessage :=
  with_headers m (λ _, tm_update (λ h,
    {| th_ReplyTo := reply; th_Sender := th_Sender h; th_SeenBy := th_SeenBy h;
       th_Federation := th_Federation h |}) m).

Definition SetSender (sender : string) (m : TransportMessage) : res TransportMessage :=
  with_headers m (λ _, tm_update (λ h,
    {| th_ReplyTo := th_ReplyTo h; th_Sender := sender; th_SeenBy := th_SeenBy h;
       th_Federation := th_Federation h |}) m).

Definition ReplyTo (m : TransportMessage) : res string := with_headers m th_ReplyTo.
Definition SenderID (m : TransportMessage) : res string := with_headers m th_Sender.
Definition SeenBy (m : TransportMessage) : res (list hop) := with_headers m th_SeenBy.

Definition SetData (data : string) (m : TransportMessage) : TransportMessage :=
  {| tm_Type := tm_Type m; tm_Protocol := tm_Protocol m; tm_Data := data; tm_Headers := tm_Headers m |}.

Definition TransportVersion (v : proto_version) : string :=
  match v with V1 => TransportV1 | V2 => TransportV2 end.

Definition NewTransportMessage (v : proto_version) (sender : string) : res TransportMessage :=
  SetSender sender {| tm_Type := v; tm_Protocol := TransportVersion v; tm_Data := "";
                      tm_Headers := Some empty_headers |}.

(** JSON: the validation and encoding of transports.  [json_protocol] is the string
    under the key [protocol] of a document, [None] when the document or that value
    does not decode and [Some None] when it has none.  [transport_Unmarshal] decodes
    over a message of some version, whose headers a document without any leaves in
    place and one with null headers sets to nil. *)
Class TransportJSON := {
  ClientStrictValidation : bool;
  (** the errors of the schema; [None] when the document could not be validated *)
  schemaValidate : string → string → option (list string);
  json_protocol : string → option (option string);
  transport_Unmarshal : string → TransportMessage → option TransportMessage;
  transport_Marshal : TransportMessage → option string;
}.

Section JSON.
Context `{TransportJSON}.

(** [schemaValidate] and the test of its errors *)
Definition passes_schema (schema data : string) : res () :=
  match schemaValidate schema data with
  | None => Err "could not validate JSON data"
  | Some errors =>
      if negb (Nat.eqb (length errors) 0) then Err "supplied JSON document does not pass schema validation"
      else Ok tt
  end.

Definition IsValidJSON (v : proto_version) (data : string) : res () :=
  if negb ClientStrictValidation then Ok tt else passes_schema (TransportVersion v) data.

(** [NewTransportFromJSON] of the package of a version. *)
Definition new_transport_from_json (v : proto_version) (data : string) : res TransportMessage :=
  IsValidJSON v data;;
  match transport_Unmarshal data
          {| tm_Type := v; tm_Protocol := ""; tm_Data := ""; tm_Headers := Some empty_headers |} with
  | None => Err "invalid json"
  | Some m =>
      Ok {| tm_Type := v; tm_Protocol := tm_Protocol m; tm_Data := tm_Data m; tm_Headers := tm_Headers m |}
  end.

Definition VersionFromJSON (data : string) : string :=
  match json_protocol data with
  | None => Unknown
  | Some None => ""
  | Some (Some rp) => ProtocolVersion_UnmarshalJSON rp
  end.

(** [Framework.NewTransportFromJSON] *)
Definition NewTransportFromJSON (data : string) : res TransportMessage :=
  let v := VersionFromJSON data in
  if String.eqb v TransportV1 then new_transport_from_json V1 data
  else if String.eqb v TransportV2 then new_transport_from_json V2 data
  else Err "do not know how to create a TransportMessage from an expected JSON format message".

Definition transport_JSON (m : TransportMessage) : res string :=
  match transport_Marshal m with
  | None => Err "json"
  | Some j => IsValidJSON (tm_Type m) j;; Ok j
  end.

End JSON.

(** * Lawful messages

    What a federable message promises, the messages that keep it, and the effect of
    copying federation data from one to another. *)

(** ** The interface *)

(** A federable type is lawful when its methods read and write one view. *)
Class LawfulFederable (M : Type) `{Federable M} := {
  view : M → res fed_view;
  set_view : fed_view → M → M;
  view_set : ∀ v v' m, view m = Ok v → view (set_view v' m) = Ok v';
  set_set : ∀ v v' m, set_view v (set_view v' m) = set_view v m;
  methods : ∀ m v, view m = Ok v →
    (∀ id, SetFederationRequestID id m = write_federation view set_view (set_ft_RequestID id) m) ∧
    (∀ r, SetFederationReplyTo r m = write_federation view set_view (set_ft_ReplyTo r) m) ∧
    (∀ t, SetFederationTargets t m = write_federation view set_view (set_ft_Targets t) m) ∧
    SetUnfederated m = Ok (set_view (None, v.2) m) ∧
    FederationRequestID m = Ok (ft_RequestID <$> v.1) ∧
    FederationReplyTo m = Ok (ft_ReplyTo <$> v.1) ∧
    FederationTargets m = Ok (ft_Targets <$> v.1) ∧
    IsFederated m = Ok (bool_decide (is_Some v.1)) ∧
    (∀ h, RecordNetworkHop h m = Ok (set_view (v.1, v.2 ++ [h]) m)) ∧
    NetworkHops m = Ok v.2;
}.

#[export] Instance TransportMessage_lawful : LawfulFederable TransportMessage.
Proof.
  refine {| view := tm_get; set_view := tm_set |}.
  - intros v v' m. unfold tm_get, tm_set, tm_update. destruct (tm_Headers m); [by destruct v'|done].
  - intros v v' [y p d [h|]]; done.
  - intros m v Hv. repeat split; intros; cbn; unfold read_view, write_view; by rewrite Hv.
Defined.

#[export] Instance Request_lawful : LawfulFederable Request.
Proof.
  refine {| view := λ r, Ok (rq_federation r, rq_seenBy r); set_view := rq_set |}.
  - by intros v [] m.
  - done.
  - by intros m v [= <-].
Defined.

#[export] Instance Reply_lawful : LawfulFederable Reply.
Proof.
  refine {| view := λ r, Ok (rp_federation r, rp_seenBy r); set_view := rp_set |}.
  - by intros v [] m.
  - done.
  - by intros m v [= <-].
Defined.

Lemma record_hops_spec `{LawfulFederable M} hops m v : view m = Ok v → hops ≠ [] →
  record_hops hops m = Ok (set_view (v.1, v.2 ++ hops) m).
Proof.
  revert m v. induction hops as [|h hops IH]; intros m v Hv Hne; [done|]. cbn [record_hops].
  destruct (methods m v Hv) as (_ & _ & _ & _ & _ & _ & _ & _ & -> & _). unfold mbind, outcome_bind.
  destruct hops as [|h' hops]; [done|]. rewrite (IH _ (v.1, v.2 ++ [h])); [|by eapply view_set|done].
  rewrite set_set. cbn [fst snd]. by rewrite <- app_assoc.
Qed.

(** The copy has the federation header of the source and, if it is federated, its
    trace after its own. *)
Lemma copy_federation_spec `{LawfulFederable A} `{LawfulFederable B} (from : A) (to : B) va vb :
  view from = Ok va → view to = Ok vb →
  CopyFederationData from to =
    Ok (set_view (va.1, match va.1 with Some _ => vb.2 ++ va.2 | None => vb.2 end) to).
Proof.
  intros Hva Hvb. unfold CopyFederationData.
  destruct (methods from va Hva) as (_ & _ & _ & _ & -> & -> & -> & -> & _ & ->).
  destruct va as [[f|] ha]; cbn [fst snd]; unfold mbind, outcome_bind; cbn.
  - destruct (methods to vb Hvb) as (_ & -> & _).
    unfold write_federation, write_view, mbind, outcome_bind. rewrite Hvb.
    set (f1 := set_ft_ReplyTo (ft_ReplyTo f) (default empty_federation vb.1)).
    assert (view (set_view (Some f1, vb.2) to) = Ok (Some f1, vb.2)) as Hv1 by by eapply view_set.
    destruct (methods _ _ Hv1) as (-> & _). unfold write_federation, write_view, mbind, outcome_bind.
    rewrite Hv1. cbn [fst snd]. rewrite set_set.
    set (f2 := set_ft_RequestID (ft_RequestID f) (default empty_federation (Some f1))).
    assert (view (set_view (Some f2, vb.2) to) = Ok (Some f2, vb.2)) as Hv2 by by eapply view_set.
    destruct (methods _ _ Hv2) as (_ & _ & -> & _). unfold write_federation, write_view, mbind, outcome_bind.
    rewrite Hv2. cbn [fst snd]. rewrite set_set.
    set (f3 := set_ft_Targets (ft_Targets f) (default empty_federation (Some f2))).
    assert (f3 = f) as -> by by destruct f.
    destruct ha as [|h ha]; [by rewrite app_nil_r|].
    erewrite record_hops_spec; [|by eapply view_set|done]. by rewrite set_set.
  - by destruct (methods to vb Hvb) as (_ & _ & _ & -> & _).
Qed.

(** What is copied to a request is its header and its trace. *)
Lemma copy_to_request `{Federable A} (from : A) (to : Request) req :
  CopyFederationData from to = Ok req → ∃ v, req = rq_set v to.
Proof.
  assert (∀ (f : fed_view → fed_view) m m', (∃ v, m = rq_set v to) →
    write_view (λ r, Ok (rq_federation r, rq_seenBy r)) rq_set f m = Ok m' → ∃ v, m' = rq_set v to) as Hw.
  { intros f m m' [v ->] [= <-]. by eexists. }
  assert (∃ v, to = rq_set v to) as H0 by (exists (rq_federation to, rq_seenBy to); by destruct to).
  assert (∀ hops m m', (∃ v, m = rq_set v to) → record_hops hops m = Ok m' → ∃ v, m' = rq_set v to) as Hr.
  { induction hops as [|h hops IH]; intros m m' Hm; [by intros [= <-]|]. cbn -[write_view].
    unfold mbind, outcome_bind. destruct (write_view _ _ _ m) as [m1|e|p] eqn:E; [|done..].
    apply IH. by eapply Hw. }
  unfold CopyFederationData, mbind, outcome_bind.
  destruct (IsFederated from) as [[]|e|p]; [|cbn -[write_view]; by apply Hw|done..].
  cbn [negb].
  destruct (FederationReplyTo from) as [reply|e|p]; [|done..].
  destruct (copy_field reply SetFederationReplyTo to) as [m1|e|p] eqn:E1; [|done..].
  destruct (FederationRequestID from) as [id|e|p]; [|done..].
  destruct (copy_field id SetFederationRequestID m1) as [m2|e|p] eqn:E2; [|done..].
  destruct (FederationTargets from) as [targets|e|p]; [|done..].
  destruct (copy_field targets SetFederationTargets m2) as [m3|e|p] eqn:E3; [|done..].
  destruct (NetworkHops from) as [hops|e|p]; [|done..]. apply Hr.
  assert (∀ {X} (x : option X) (set : X → Request → res Request) m m', (∃ v, m = rq_set v to) →
    (∀ y, ∃ f, set y = write_view (λ r, Ok (rq_federation r, rq_seenBy r)) rq_set f) →
    copy_field x set m = Ok m' → ∃ v, m' = rq_set v to) as Hf.
  { intros X [x|] set m m' Hm Hs; cbn; [|by intros [= <-]]. destruct (Hs x) as [f ->]. by apply Hw. }
  eapply Hf; [|intros y; by eexists|exact E3]. eapply Hf; [|intros y; by eexists|exact E2].
  eapply Hf; [exact H0|intros y; by eexists|exact E1].
Qed.
