(* ===== verification/SecureMessages.v ===== *)
(** * Requests, replies and their secure envelopes

    protocol/v1 (constructors.go, security_request.go, security_reply.go),
    protocol/v2 (request.go, reply.go, secure_request.go, secure_reply.go) and the
    functions of choria/protocol.go that choose between the two: the security
    provider they call is the class [SecurityProvider] (inter/security_provider.go).
    A record stands for the type of both versions, [sr_Caller] being the certificate
    of version 1 and the token of version 2; the operations the versions do not share
    take the version they belong to in their name. *)
From S2P Require Import Prelude GoLib Regex Files Facts Filters Util Transport.

Record SecureRequest := {
  sr_Type : proto_version;
  sr_Protocol : string;
  sr_MessageBody : string;
  sr_Signature : string;
  (** [PublicCertificate], [CallerJWT] *)
  sr_Caller : string;
  sr_SignerJWT : string;
}.

Record SecureReply := {
  sp_Type : proto_version;
  sp_Protocol : string;
  sp_MessageBody : string;
  sp_Hash : string;
  sp_Signature : string;
  sp_SenderJWT : string;
}.

Definition RequestVersion (v : proto_version) : string := match v with V1 => RequestV1 | V2 => RequestV2 end.
Definition ReplyVersion (v : proto_version) : string := match v with V1 => ReplyV1 | V2 => ReplyV2 end.
Definition SecureRequestVersion (v : proto_version) : string :=
  match v with V1 => SecureRequestV1 | V2 => SecureRequestV2 end.
Definition SecureReplyVersion (v : proto_version) : string :=
  match v with V1 => SecureReplyV1 | V2 => SecureReplyV2 end.

Inductive SecurityTechnology := SecurityTechnologyX509 | SecurityTechnologyED25519JWT.

#[export] Instance SecurityTechnology_eq_dec : EqDecision SecurityTechnology.
Proof. solve_decision. Defined.

(** [inter.SecurityProvider], as far as messages use it; a provider that panics in
    [ShouldAllowCaller] takes the caller with it. *)
Class SecurityProvider := {
  BackingTechnology : SecurityTechnology;
  CallerIdentity : string → res string;
  SignBytes : string → res string;
  VerifySignatureBytes : string → string → list string → res (bool * string);
  RemoteSignRequest : string → res string;
  IsRemoteSigning : bool;
  ChecksumBytes : string → string;
  PublicCertBytes : res string;
  TokenBytes : res string;
  ShouldSignReplies : bool;
  ShouldAllowCaller : string → list string → res bool;
}.

(** JSON of the other messages: an encoding, and decoding over a message, whose
    unexported fields it leaves alone. *)
Class MessageJSON := {
  request_Marshal : Request → option string;
  request_Unmarshal : string → Request → option Request;
  reply_Marshal : Reply → option string;
  reply_Unmarshal : string → Reply → option Reply;
  secure_request_Marshal : SecureRequest → option string;
  secure_request_Unmarshal : string → SecureRequest → option SecureRequest;
  secure_reply_Marshal : SecureReply → option string;
  secure_reply_Unmarshal : string → SecureReply → option SecureReply;
}.

(** [protocol.Secure], set when the program is built. *)
Class BuildFlags := { Secure : string }.

Definition IsSecure `{BuildFlags} : bool := String.eqb Secure "true".

Definition decoded {A} (o : option A) : res A := match o with Some a => Ok a | None => Err "json" end.

Section Messages.
Context `{TJ : TransportJSON} `{MJ : MessageJSON}.

(** ** Requests *)

(** [time.Now()] in nanoseconds; version 1 counts seconds. *)
Definition request_time (v : proto_version) (now : Z) : Z :=
  match v with V1 => now / Second | V2 => now end.

Definition NewRequest (v : proto_version) (now : Z) (agent sender caller : string) (ttl : Z)
    (id collective : string) : Request :=
  {| rq_Type := v; rq_Protocol := RequestVersion v; rq_MessageBody := ""; rq_RequestID := id;
     rq_SenderID := sender; rq_CallerID := caller; rq_Collective := collective; rq_Agent := agent;
     rq_TTL := ttl; rq_Time := request_time v now; rq_Filter := Some NewFilter; rq_callerJWT := "";
     rq_signerJWT := ""; rq_seenBy := []; rq_federation := None |}.

(** [time.Unix] of what the envelope holds, in nanoseconds. *)
Definition rq_Time_ns (r : Request) : Z :=
  match rq_Type r with V1 => rq_Time r * Second | V2 => rq_Time r end.

Definition rq_set_filter (f : option Filter) (r : Request) : Request :=
  {| rq_Type := rq_Type r; rq_Protocol := rq_Protocol r; rq_MessageBody := rq_MessageBody r;
     rq_RequestID := rq_RequestID r; rq_SenderID := rq_SenderID r; rq_CallerID := rq_CallerID r;
     rq_Collective := rq_Collective r; rq_Agent := rq_Agent r; rq_TTL := rq_TTL r; rq_Time := rq_Time r;
     rq_Filter := f; rq_callerJWT := rq_callerJWT r; rq_signerJWT := rq_signerJWT r;
     rq_seenBy := rq_seenBy r; rq_federation := rq_federation r |}.

Definition rq_set_message (body : string) (r : Request) : Request :=
  {| rq_Type := rq_Type r; rq_Protocol := rq_Protocol r; rq_MessageBody := body;
     rq_RequestID := rq_RequestID r; rq_SenderID := rq_SenderID r; rq_CallerID := rq_CallerID r;
     rq_Collective := rq_Collective r; rq_Agent := rq_Agent r; rq_TTL := rq_TTL r; rq_Time := rq_Time r;
     rq_Filter := rq_Filter r; rq_callerJWT := rq_callerJWT r; rq_signerJWT := rq_signerJWT r;
     rq_seenBy := rq_seenBy r; rq_federation := rq_federation r |}.

(** [Request.Filter]: version 2 gives a request without a filter a new one, version 1
    reads through the nil pointer. *)
Definition rq_get_filter (r : Request) : res (Filter * Request) :=
  match rq_Filter r, rq_Type r with
  | Some f, _ => Ok (f, r)
  | None, V2 => Ok (NewFilter, rq_set_filter (Some NewFilter) r)
  | None, V1 => nil_headers
  end.

Definition request_JSON (r : Request) : res string :=
  j ← decoded (request_Marshal r);
  passes_schema (RequestVersion (rq_Type r)) j;;
  Ok j.

(** ** Replies *)

Definition new_reply (v : proto_version) (now : Z) (request : Request) (sender : string) : res Reply :=
  if negb (String.eqb (rq_Protocol request) (RequestVersion v))
  then Err ("cannot create a Reply from a " +:+ rq_Protocol request +:+ " request")
  else
    rep ← CopyFederationData request
            {| rp_Type := v; rp_Protocol := ReplyVersion v; rp_MessageBody := "";
               rp_Request := rq_RequestID request; rp_Sender := sender; rp_SendingAgent := rq_Agent request;
               rp_TimeStamp := request_time v now; rp_seenBy := []; rp_federation := None |};
    j ← map_err (λ _, "could not turn Request into a JSON document") (request_JSON request);
    Ok {| rp_Type := rp_Type rep; rp_Protocol := rp_Protocol rep; rp_MessageBody := j;
          rp_Request := rp_Request rep; rp_Sender := rp_Sender rep; rp_SendingAgent := rp_SendingAgent rep;
          rp_TimeStamp := rp_TimeStamp rep; rp_seenBy := rp_seenBy rep; rp_federation := rp_federation rep |}.

(** [Framework.NewReply] of a server with an identity. *)
Definition NewReply (now : Z) (identity : string) (request : Request) : res Reply :=
  if String.eqb (rq_Protocol request) RequestV1 then new_reply V1 now request identity
  else if String.eqb (rq_Protocol request) RequestV2 then new_reply V2 now request identity
  else Err ("do not know how to create a Reply version " +:+ rq_Protocol request).

Definition SetMessage (body : string) (rep : Reply) : Reply :=
  {| rp_Type := rp_Type rep; rp_Protocol := rp_Protocol rep; rp_MessageBody := body;
     rp_Request := rp_Request rep; rp_Sender := rp_Sender rep; rp_SendingAgent := rp_SendingAgent rep;
     rp_TimeStamp := rp_TimeStamp rep; rp_seenBy := rp_seenBy rep; rp_federation := rp_federation rep |}.

(** The schema of replies is for strict clients. *)
Definition strict_schema (schema data : string) : res () :=
  if negb ClientStrictValidation then Ok tt else passes_schema schema data.

Definition reply_JSON (r : Reply) : res string :=
  j ← decoded (reply_Marshal r);
  strict_schema (ReplyVersion (rp_Type r)) j;;
  Ok j.

(** ** Secure requests and replies *)

Definition secure_request_JSON (r : SecureRequest) : res string :=
  j ← decoded (secure_request_Marshal r);
  passes_schema (SecureRequestVersion (sr_Type r)) j;;
  Ok j.

Definition secure_reply_JSON (r : SecureReply) : res string :=
  j ← decoded (secure_reply_Marshal r);
  strict_schema (SecureReplyVersion (sp_Type r)) j;;
  Ok j.

Definition empty_secure_request (v : proto_version) (protocol caller : string) : SecureRequest :=
  {| sr_Type := v; sr_Protocol := protocol; sr_MessageBody := ""; sr_Signature := ""; sr_Caller := caller;
     sr_SignerJWT := "" |}.

Definition empty_secure_reply (v : proto_version) : SecureReply :=
  {| sp_Type := v; sp_Protocol := SecureReplyVersion v; sp_MessageBody := ""; sp_Hash := "";
     sp_Signature := ""; sp_SenderJWT := "" |}.

Definition empty_reply (v : proto_version) : Reply :=
  {| rp_Type := v; rp_Protocol := ReplyVersion v; rp_MessageBody := ""; rp_Request := ""; rp_Sender := "";
     rp_SendingAgent := ""; rp_TimeStamp := 0; rp_seenBy := []; rp_federation := None |}.

Definition unmarshal_secure_request (data : string) (r : SecureRequest) : res SecureRequest :=
  r' ← decoded (secure_request_Unmarshal data r);
  Ok {| sr_Type := sr_Type r; sr_Protocol := sr_Protocol r'; sr_MessageBody := sr_MessageBody r';
        sr_Signature := sr_Signature r'; sr_Caller := sr_Caller r'; sr_SignerJWT := sr_SignerJWT r' |}.

(** The decoded request keeps its type and what JSON does not reach. *)
Definition unmarshal_request (data : string) (r : Request) : res Request :=
  r' ← decoded (request_Unmarshal data r);
  Ok {| rq_Type := rq_Type r; rq_Protocol := rq_Protocol r'; rq_MessageBody := rq_MessageBody r';
        rq_RequestID := rq_RequestID r'; rq_SenderID := rq_SenderID r'; rq_CallerID := rq_CallerID r';
        rq_Collective := rq_Collective r'; rq_Agent := rq_Agent r'; rq_TTL := rq_TTL r'; rq_Time := rq_Time r';
        rq_Filter := rq_Filter r'; rq_callerJWT := rq_callerJWT r; rq_signerJWT := rq_signerJWT r;
        rq_seenBy := rq_seenBy r; rq_federation := rq_federation r |}.

Definition empty_request (v : proto_version) (callerJWT signerJWT : string) : Request :=
  {| rq_Type := v; rq_Protocol := RequestVersion v; rq_MessageBody := ""; rq_RequestID := "";
     rq_SenderID := ""; rq_CallerID := ""; rq_Collective := ""; rq_Agent := ""; rq_TTL := 0; rq_Time := 0;
     rq_Filter := None; rq_callerJWT := callerJWT; rq_signerJWT := signerJWT; rq_seenBy := [];
     rq_federation := None |}.

(** [NewRequestFromSecureRequest] of the package of a version; version 2 asserts that
    the secure request is its own. *)
Definition request_from_secure (v : proto_version) (sr : SecureRequest) : res Request :=
  if negb (String.eqb (sr_Protocol sr) (SecureRequestVersion v))
  then Err ("cannot create a SecureRequest from a " +:+ sr_Protocol sr +:+ " SecureRequest")
  else
    req ← match v with
          | V1 => Ok (empty_request V1 "" "")
          | V2 => if decide (sr_Type sr = V2) then Ok (empty_request V2 (sr_Caller sr) (sr_SignerJWT sr))
                  else Panic "interface conversion"
          end;
    map_err (λ e, "the JSON body from the SecureRequest is not a valid Request message: " +:+ e)
      (passes_schema (RequestVersion v) (sr_MessageBody sr));;
    unmarshal_request (sr_MessageBody sr) req.

(** [Framework.NewRequestFromSecureRequest] *)
Definition NewRequestFromSecureRequest (sr : SecureRequest) : res Request :=
  if String.eqb (sr_Protocol sr) SecureRequestV1 then request_from_secure V1 sr
  else if String.eqb (sr_Protocol sr) SecureRequestV2 then request_from_secure V2 sr
  else Err ("do not know how to create a Reply version " +:+ sr_Protocol sr).

Definition unmarshal_reply (data : string) (r : Reply) : res Reply :=
  r' ← decoded (reply_Unmarshal data r);
  Ok {| rp_Type := rp_Type r; rp_Protocol := rp_Protocol r'; rp_MessageBody := rp_MessageBody r';
        rp_Request := rp_Request r'; rp_Sender := rp_Sender r'; rp_SendingAgent := rp_SendingAgent r';
        rp_TimeStamp := rp_TimeStamp r'; rp_seenBy := rp_seenBy r; rp_federation := rp_federation r |}.

Definition reply_from_secure (v : proto_version) (sr : SecureReply) : res Reply :=
  if negb (String.eqb (sp_Protocol sr) (SecureReplyVersion v))
  then Err ("cannot create a Reply from a " +:+ sp_Protocol sr +:+ " SecureReply")
  else
    strict_schema (ReplyVersion v) (sp_MessageBody sr);;
    unmarshal_reply (sp_MessageBody sr) (empty_reply v).

Definition NewReplyFromSecureReply (sr : SecureReply) : res Reply :=
  if String.eqb (sp_Protocol sr) SecureReplyV1 then reply_from_secure V1 sr
  else if String.eqb (sp_Protocol sr) SecureReplyV2 then reply_from_secure V2 sr
  else Err ("do not know how to create a Reply version " +:+ sp_Protocol sr).

Section Provider.
Context `{BF : BuildFlags} `{SP : SecurityProvider}.

(** The technology each version is for. *)
Definition technology (v : proto_version) : SecurityTechnology :=
  match v with V1 => SecurityTechnologyX509 | V2 => SecurityTechnologyED25519JWT end.

Definition check_technology (v : proto_version) : res () :=
  if decide (BackingTechnology = technology v) then Ok tt else Err "incorrect protocol for this security system".

(** [SecureRequest.SetMessage].  Version 1 lets a registration request that cannot be
    signed go unsigned. *)
Definition request_signature (v : proto_version) (agent j : string) : res string :=
  if negb (IsSecure && negb (IsRemoteSignerAgent agent)) then Ok "insecure"
  else
    match v with
    | V2 => SignBytes j
    | V1 =>
        match SignBytes j with
        | Ok sig => Ok (b64_encode sig)
        | Err e =>
            if IsRegistrationAgent agent then Ok (b64_encode "insecure registration")
            else Err ("could not sign message string: " +:+ e)
        | Panic p => Panic p
        end
    end.

Definition sr_SetMessage (request : Request) (r : SecureRequest) : res SecureRequest :=
  j ← map_err (λ _, "could not JSON encode reply message to store it in the Secure Request")
        (request_JSON request);
  sig ← request_signature (sr_Type r) (rq_Agent request) j;
  Ok {| sr_Type := sr_Type r; sr_Protocol := sr_Protocol r; sr_MessageBody := j; sr_Signature := sig;
        sr_Caller := sr_Caller r; sr_SignerJWT := sr_SignerJWT r |}.

(** The certificate or token a request of a client carries. *)
Definition request_caller (v : proto_version) (agent : string) : res string :=
  match v with
  | V1 =>
      if negb (IsSecure && negb (IsRemoteSignerAgent agent)) then Ok "insecure"
      else
        match PublicCertBytes with
        | Ok pub => Ok pub
        | Err e =>
            if IsRegistrationAgent agent then Ok "insecure registration"
            else Err ("could not retrieve Public Certificate from the security subsystem: " +:+ e)
        | Panic p => Panic p
        end
  | V2 => if IsSecure then TokenBytes else Ok ""
  end.

Definition new_secure_request (v : proto_version) (request : Request) : res SecureRequest :=
  check_technology v;;
  pub ← request_caller v (rq_Agent request);
  sr_SetMessage request (empty_secure_request v (SecureRequestVersion v) pub).

(** Version 2 asks for the token of the signer and adds the token of the caller. *)
Definition NewRemoteSignedSecureRequest (v : proto_version) (request : Request) : res SecureRequest :=
  check_technology v;;
  if negb IsSecure || IsRemoteSignerAgent (rq_Agent request) then new_secure_request v request
  else
    reqj ← request_JSON request;
    secj ← RemoteSignRequest reqj;
    secure ← map_err (λ e, "could not parse signed request: " +:+ e)
      (unmarshal_secure_request secj (empty_secure_request v (SecureRequestVersion v) ""));
    match v with
    | V1 => Ok secure
    | V2 =>
        if String.eqb (sr_SignerJWT secure) "" then Err "remote signer did not set a signer JWT"
        else
          token ← TokenBytes;
          Ok {| sr_Type := sr_Type secure; sr_Protocol := sr_Protocol secure;
                sr_MessageBody := sr_MessageBody secure; sr_Signature := sr_Signature secure;
                sr_Caller := token; sr_SignerJWT := sr_SignerJWT secure |}
    end.

(** An error of [f] is logged and makes the request invalid. *)
Definition valid_if {A} (o : res A) (f : A → res bool) : res bool :=
  match o with Ok a => f a | Err _ => Ok false | Panic p => Panic p end.

Definition Valid1 (r : SecureRequest) : res bool :=
  valid_if (request_from_secure V1 r) (λ req,
  valid_if (CallerIdentity (rq_CallerID req)) (λ certname,
  valid_if (ShouldAllowCaller certname [sr_Caller r]) (λ _,
  valid_if (decoded (b64_decode (sr_Signature r))) (λ sig,
  r' ← VerifySignatureBytes (sr_MessageBody r) sig [sr_Caller r];
  Ok r'.1)))).

Definition Valid2 (r : SecureRequest) : res bool :=
  let jwts := sr_Caller r :: (if String.eqb (sr_SignerJWT r) "" then [] else [sr_SignerJWT r]) in
  r' ← VerifySignatureBytes (sr_MessageBody r) (sr_Signature r) jwts;
  if negb r'.1 then Ok false
  else
    valid_if (request_from_secure V2 r) (λ req,
    valid_if (ShouldAllowCaller (rq_CallerID req) jwts) (λ _, Ok true)).

Definition sr_Valid (r : SecureRequest) : res bool :=
  if negb IsSecure then Ok true
  else match sr_Type r with V1 => Valid1 r | V2 => Valid2 r end.

Definition new_secure_request_from_transport (v : proto_version) (message : TransportMessage)
    (skipvalidate : bool) : res SecureRequest :=
  check_technology v;;
  let data := tm_Data message in
  map_err (λ e, "the JSON body from the TransportMessage is not a valid SecureRequest: " +:+ e)
    (passes_schema (SecureRequestVersion v) data);;
  secure ← unmarshal_secure_request data
    (empty_secure_request v (match v with V1 => "" | V2 => SecureRequestV2 end) "");
  if skipvalidate then Ok secure
  else
    valid ← sr_Valid secure;
    if negb valid
    then Err "secure request messages created from Transport Message did not pass security validation"
    else Ok secure.

(** [SecureReply.SetMessage]: only version 2 signs. *)
Definition sp_SetMessage (reply : Reply) (r : SecureReply) : res SecureReply :=
  j ← map_err (λ _, "could not JSON encode reply") (reply_JSON reply);
  auth ← match sp_Type r with
         | V1 => Ok (sp_SenderJWT r, sp_Signature r)
         | V2 =>
             if ShouldSignReplies then
               jwt ← map_err (λ e, "could not read caller token: " +:+ e) TokenBytes;
               sig ← SignBytes j;
               Ok (jwt, sig)
             else Ok (sp_SenderJWT r, sp_Signature r)
         end;
  Ok {| sp_Type := sp_Type r; sp_Protocol := sp_Protocol r; sp_MessageBody := j;
        sp_Hash := b64_encode (ChecksumBytes j); sp_Signature := auth.2; sp_SenderJWT := auth.1 |}.

Definition sp_Valid (r : SecureReply) : bool :=
  String.eqb (b64_encode (ChecksumBytes (sp_MessageBody r))) (sp_Hash r).

Definition new_secure_reply (v : proto_version) (reply : Reply) : res SecureReply :=
  check_technology v;;
  map_err (λ e, "could not set message on SecureReply structure: " +:+ e)
    (sp_SetMessage reply (empty_secure_reply v)).

Definition unmarshal_secure_reply (data : string) (r : SecureReply) : res SecureReply :=
  r' ← decoded (secure_reply_Unmarshal data r);
  Ok {| sp_Type := sp_Type r; sp_Protocol := sp_Protocol r'; sp_MessageBody := sp_MessageBody r';
        sp_Hash := sp_Hash r'; sp_Signature := sp_Signature r'; sp_SenderJWT := sp_SenderJWT r' |}.

Definition new_secure_reply_from_transport (v : proto_version) (message : TransportMessage)
    (skipvalidate : bool) : res SecureReply :=
  check_technology v;;
  let data := tm_Data message in
  map_err (λ e, "the JSON body from the TransportMessage is not a valid SecureReply message: " +:+ e)
    (strict_schema (SecureReplyVersion v) data);;
  secure ← unmarshal_secure_reply data (empty_secure_reply v);
  if negb skipvalidate && negb (sp_Valid secure)
  then Err "SecureReply message created from the Transport Message is not valid"
  else Ok secure.

(** ** The framework: choria/protocol.go *)

Definition NewSecureReply (reply : Reply) : res SecureReply :=
  if String.eqb (rp_Protocol reply) ReplyV1 then new_secure_reply V1 reply
  else if String.eqb (rp_Protocol reply) ReplyV2 then new_secure_reply V2 reply
  else Err ("do not know how to create a SecureReply based on a Reply version " +:+ rp_Protocol reply).

Definition NewSecureReplyFromTransport (message : TransportMessage) (skipvalidate : bool) : res SecureReply :=
  if String.eqb (tm_Protocol message) TransportV1 then new_secure_reply_from_transport V1 message skipvalidate
  else if String.eqb (tm_Protocol message) TransportV2 then new_secure_reply_from_transport V2 message skipvalidate
  else Err ("do not know how to create a SecureReply version " +:+ tm_Protocol message).

Definition NewSecureRequest (request : Request) : res SecureRequest :=
  let make := if IsRemoteSigning then NewRemoteSignedSecureRequest else new_secure_request in
  if String.eqb (rq_Protocol request) RequestV1 then make V1 request
  else if String.eqb (rq_Protocol request) RequestV2 then make V2 request
  else Err ("do not know how to create a SecureReply from a Request with version " +:+ rq_Protocol request).

Definition NewSecureRequestFromTransport (message : TransportMessage) (skipvalidate : bool) : res SecureRequest :=
  if String.eqb (tm_Protocol message) TransportV1
  then new_secure_request_from_transport V1 message skipvalidate
  else if String.eqb (tm_Protocol message) TransportV2
  then new_secure_request_from_transport V2 message skipvalidate
  else Err ("do not know how to create a SecureReply from a TransportMessage version " +:+ tm_Protocol message).

Definition NewTransportForSecureRequest (identity : string) (request : SecureRequest) : res TransportMessage :=
  message ← (if String.eqb (sr_Protocol request) SecureRequestV1 then NewTransportMessage V1 identity
             else if String.eqb (sr_Protocol request) SecureRequestV2 then NewTransportMessage V2 identity
             else Err ("co not know how to create a Transport message for SecureRequest version "
                         +:+ sr_Protocol request));
  j ← map_err (λ e, "could not JSON encode the Request structure for transport: " +:+ e)
        (secure_request_JSON request);
  Ok (SetData j message).

(** The error of [SetReplyData] is dropped: the transport then has no data. *)
Definition NewTransportForSecureReply (identity : string) (reply : SecureReply) : res TransportMessage :=
  message ← (if String.eqb (sp_Protocol reply) SecureReplyV1 then NewTransportMessage V1 identity
             else if String.eqb (sp_Protocol reply) SecureReplyV2 then NewTransportMessage V2 identity
             else Err ("do not know how to create a Transport message for SecureRequest version "
                         +:+ sp_Protocol reply));
  match secure_reply_JSON reply with
  | Ok j => Ok (SetData j message)
  | Err _ => Ok message
  | Panic p => Panic p
  end.

(** Of a message with a payload. *)
Definition NewReplyTransportForMessage (now : Z) (identity payload : string) (request : Request) :
    res TransportMessage :=
  reply ← map_err (λ e, "could not create Reply: " +:+ e) (NewReply now identity request);
  sreply ← map_err (λ e, "could not create Secure Reply: " +:+ e) (NewSecureReply (SetMessage payload reply));
  transport ← map_err (λ e, "could not create Transport: " +:+ e) (NewTransportForSecureReply identity sreply);
  CopyFederationData request transport.

Definition NewReplyFromTransportJSON (payload : string) (skipvalidate : bool) : res Reply :=
  transport ← NewTransportFromJSON payload;
  sreply ← NewSecureReplyFromTransport transport skipvalidate;
  reply ← NewReplyFromSecureReply sreply;
  CopyFederationData transport reply.

Definition NewRequestFromTransportJSON (payload : string) (skipvalidate : bool) : res Request :=
  transport ← NewTransportFromJSON payload;
  sreq ← NewSecureRequestFromTransport transport skipvalidate;
  req ← NewRequestFromSecureRequest sreq;
  CopyFederationData transport req.

End Provider.
End Messages.
