(* ===== verification/DemoJSON.v ===== *)
(** * A concrete encoding, for the witnesses

    A message is written as the list of its fields: texts as they are, with a mark
    before each character, and the others as the binary numeral of a code of them.
    Both are decoded again without loss. *)
From S2P Require Import Prelude GoLib Regex Files Facts Filters Util Transport SecureMessages.

Fixpoint pos_encode (p : positive) : string :=
  match p with
  | xH => "1"
  | xO q => String "a" (pos_encode q)
  | xI q => String "b" (pos_encode q)
  end.

Fixpoint pos_decode (s : string) : option positive :=
  match s with
  | EmptyString => None
  | String c EmptyString => if Ascii.eqb c "1" then Some xH else None
  | String c s' =>
      if Ascii.eqb c "a" then xO <$> pos_decode s'
      else if Ascii.eqb c "b" then xI <$> pos_decode s' else None
  end.

Lemma pos_roundtrip p : pos_decode (pos_encode p) = Some p.
Proof.
  induction p as [p IH|p IH|]; [..|done]; cbn [pos_encode pos_decode];
    (destruct (pos_encode p) eqn:E; [by destruct p|]); rewrite IH; done.
Qed.

Definition demo_marshal {A} `{Countable A} (a : A) : string := pos_encode (encode a).
Definition demo_unmarshal {A} `{Countable A} (s : string) : option A := p ← pos_decode s; decode p.

Lemma demo_roundtrip {A} `{Countable A} (a : A) : demo_unmarshal (demo_marshal a) = Some a.
Proof. unfold demo_unmarshal, demo_marshal. rewrite pos_roundtrip. apply decode_encode. Qed.

(** ** Lists of texts *)

Fixpoint text_encode (s rest : string) : string :=
  match s with
  | EmptyString => String "." rest
  | String c s' => String "-" (String c (text_encode s' rest))
  end.

Definition fields_encode (l : list string) : string := foldr text_encode "" l.

Fixpoint fields_decode (s : string) : option (list string) :=
  match s with
  | EmptyString => Some []
  | String m s' =>
      if Ascii.eqb m "." then cons "" <$> fields_decode s'
      else
        match s' with
        | EmptyString => None
        | String c s'' =>
            match fields_decode s'' with
            | Some (f :: l) => Some (String c f :: l)
            | _ => None
            end
        end
  end.

Lemma fields_roundtrip l : fields_decode (fields_encode l) = Some l.
Proof.
  induction l as [|f l IH]; [done|]. cbn [fields_encode foldr]. fold (fields_encode l).
  induction f as [|c f IHf]; cbn [text_encode]; [by cbn; rewrite IH|].
  cbn. by rewrite IHf.
Qed.

(** ** The fields of the messages *)

Abbreviation fed_fields := (option (string * string * list string)).

Definition fed_of (f : option FederationTransportHeader) : fed_fields :=
  (λ f, (ft_RequestID f, ft_ReplyTo f, ft_Targets f)) <$> f.
Definition of_fed (x : fed_fields) : option FederationTransportHeader :=
  (λ x, {| ft_RequestID := x.1.1; ft_ReplyTo := x.1.2; ft_Targets := x.2 |}) <$> x.

Definition headers_of (h : option TransportHeaders) :=
  (λ h, (th_ReplyTo h, th_Sender h, th_SeenBy h, fed_of (th_Federation h))) <$> h.
Definition of_headers (x : option (string * string * list hop * fed_fields)) : option TransportHeaders :=
  (λ x, let '(r, s, b, f) := x in
        {| th_ReplyTo := r; th_Sender := s; th_SeenBy := b; th_Federation := of_fed f |}) <$> x.

Lemma of_fed_of f : of_fed (fed_of f) = f.
Proof. by destruct f as [[]|]. Qed.

Lemma of_headers_of h : of_headers (headers_of h) = h.
Proof. destruct h as [[r s b f]|]; [|done]. cbn. by rewrite of_fed_of. Qed.

Definition demo_transport_marshal (m : TransportMessage) : option string :=
  Some (fields_encode [tm_Protocol m; tm_Data m; demo_marshal (headers_of (tm_Headers m))]).

Definition demo_transport_unmarshal (s : string) (m0 : TransportMessage) : option TransportMessage :=
  l ← fields_decode s;
  match l with
  | [p; d; h] =>
      h ← demo_unmarshal h;
  Some {| tm_Type := tm_Type m0; tm_Protocol := p; tm_Data := d; tm_Headers := of_headers h |}
  | _ => None
  end.

#[export] Instance demo_transport_json : TransportJSON := {|
  ClientStrictValidation := false;
  schemaValidate := λ _ _, Some [];
  json_protocol := λ s,
    l ← fields_decode s; Some (head l);
  transport_Unmarshal := demo_transport_unmarshal;
  transport_Marshal := demo_transport_marshal;
|}.

Abbreviation filter_fields := (option (option (list (string * string * string)) * option (list string)
  * option (list string) * option (list string))).

(** Filters without their compound filters. *)
Definition filter_of (f : option Filter) : filter_fields :=
  (λ f, (map (λ x, (ff_Fact x, ff_Operator x, ff_Value x)) <$> Fact f, Class_ f, Filters.Agent f, Identity_ f)) <$> f.
Definition of_filter (x : filter_fields) : option Filter :=
  (λ x, let '(f, c, a, i) := x in
        {| Fact := map (λ y, {| ff_Fact := y.1.1; ff_Operator := y.1.2; ff_Value := y.2 |}) <$> f;
           Class_ := c; Filters.Agent := a; Identity_ := i; Compound_ := Some [] |}) <$> x.

Abbreviation request_fields := (Z * Z * filter_fields)%type.

Definition demo_request_marshal (r : Request) : option string :=
  Some (fields_encode
    [rq_Protocol r; rq_MessageBody r; rq_RequestID r; rq_SenderID r; rq_CallerID r; rq_Collective r; rq_Agent r;
     demo_marshal (A := request_fields) (rq_TTL r, rq_Time r, filter_of (rq_Filter r))]).

Definition demo_request_unmarshal (s : string) (r0 : Request) : option Request :=
  l ← fields_decode s;
  match l with
  | [p; m; i; se; c; co; a; rest] =>
      '(ttl, time, f) ← demo_unmarshal (A := request_fields) rest;
      Some {| rq_Type := rq_Type r0; rq_Protocol := p; rq_MessageBody := m; rq_RequestID := i;
              rq_SenderID := se; rq_CallerID := c; rq_Collective := co; rq_Agent := a; rq_TTL := ttl;
              rq_Time := time; rq_Filter := of_filter f; rq_callerJWT := rq_callerJWT r0;
              rq_signerJWT := rq_signerJWT r0; rq_seenBy := rq_seenBy r0; rq_federation := rq_federation r0 |}
  | _ => None
  end.

Definition demo_reply_marshal (r : Reply) : option string :=
  Some (fields_encode [rp_Protocol r; rp_MessageBody r; rp_Request r; rp_Sender r; rp_SendingAgent r;
                       demo_marshal (rp_TimeStamp r)]).

Definition demo_reply_unmarshal (s : string) (r0 : Reply) : option Reply :=
  l ← fields_decode s;
  match l with
  | [p; m; i; se; a; t] =>
      t ← demo_unmarshal t;
      Some {| rp_Type := rp_Type r0; rp_Protocol := p; rp_MessageBody := m; rp_Request := i; rp_Sender := se;
              rp_SendingAgent := a; rp_TimeStamp := t; rp_seenBy := rp_seenBy r0;
              rp_federation := rp_federation r0 |}
  | _ => None
  end.

Definition demo_secure_request_marshal (r : SecureRequest) : option string :=
  Some (fields_encode [sr_Protocol r; sr_MessageBody r; sr_Signature r; sr_Caller r; sr_SignerJWT r]).

Definition demo_secure_request_unmarshal (s : string) (r0 : SecureRequest) : option SecureRequest :=
  l ← fields_decode s;
  match l with
  | [p; m; g; c; j] =>
      Some {| sr_Type := sr_Type r0; sr_Protocol := p; sr_MessageBody := m; sr_Signature := g; sr_Caller := c;
              sr_SignerJWT := j |}
  | _ => None
  end.

Definition demo_secure_reply_marshal (r : SecureReply) : option string :=
  Some (fields_encode [sp_Protocol r; sp_MessageBody r; sp_Hash r; sp_Signature r; sp_SenderJWT r]).

Definition demo_secure_reply_unmarshal (s : string) (r0 : SecureReply) : option SecureReply :=
  l ← fields_decode s;
  match l with
  | [p; m; h; g; j] =>
      Some {| sp_Type := sp_Type r0; sp_Protocol := p; sp_MessageBody := m; sp_Hash := h; sp_Signature := g;
              sp_SenderJWT := j |}
  | _ => None
  end.

#[export] Instance demo_message_json : MessageJSON := {|
  request_Marshal := demo_request_marshal;
  request_Unmarshal := demo_request_unmarshal;
  reply_Marshal := demo_reply_marshal;
  reply_Unmarshal := demo_reply_unmarshal;
  secure_request_Marshal := demo_secure_request_marshal;
  secure_request_Unmarshal := demo_secure_request_unmarshal;
  secure_reply_Marshal := demo_secure_reply_marshal;
  secure_reply_Unmarshal := demo_secure_reply_unmarshal;
|}.

#[export] Instance demo_build : BuildFlags := {| Secure := "true" |}.

(** A provider that signs by prefixing and trusts one token. *)
#[export] Instance demo_provider : SecurityProvider := {|
  BackingTechnology := SecurityTechnologyED25519JWT;
  CallerIdentity := λ c, Ok c;
  SignBytes := λ b, Ok "signed";
  VerifySignatureBytes := λ dat sig public, Ok (String.eqb sig "signed", "");
  RemoteSignRequest := λ _, Err "remote signing not configured";
  IsRemoteSigning := false;
  ChecksumBytes := λ s, s;
  PublicCertBytes := Err "no certificates configured";
  TokenBytes := Ok "token";
  ShouldSignReplies := false;
  ShouldAllowCaller := λ _ _, Ok false;
|}.
