(* ===== verification/Security.v ===== *)
(** * The Choria security provider

    providers/security/choria/choria_security.go with internal/util/ed25519.go: who
    signs and verifies the bytes of requests, based on ed25519 keys and JWTs issued
    by an organization.  Tokens, signatures and hashes are the classes of the broker
    authenticator, files and seeds the class [KeyStore]; logging is left out. *)
From S2P Require Import Prelude GoLib Regex Files Facts Filters Util AuthTypes Transport SecureMessages.

(** Files, and [ed25519.NewKeyFromSeed] followed by [Sign] and by [Public]. *)
Class KeyStore := {
  ReadFile : string → res string;
  ed25519_Sign : string → string → string;
  ed25519_Public : string → string;
}.

Record Config := {
  sc_Identity : string;
  sc_SeedFile : string;
  sc_TokenFile : string;
  sc_Issuers : gmap string string;
  sc_TrustedTokenSigners : list string;
  (** the [Sign] of the remote signer *)
  sc_RemoteSigner : option (string → res string);
  sc_Certificate : string;
  sc_Key : string;
  sc_SignedReplies : bool;
  sc_InitiatedByServer : bool;
}.

(** [^[a-z]+=([\w\.\-]+)] *)
Definition is_lower (c : ascii) : bool :=
  let n := nat_of_ascii c in (97 <=? n)%nat && (n <=? 122)%nat.
Definition is_name_char (c : ascii) : bool := is_word c || is_byte "." c || is_byte "-" c.
Definition callerIDRe : re :=
  Seq Bol (Seq (Plus true (Chr is_lower)) (Seq (chr "=") (Group 1 (Plus true (Chr is_name_char))))).

(** ** internal/util/ed25519.go *)

Section Ed25519.
Context `{PF : Platform} `{KS : KeyStore}.

Definition Ed25519Verify (pk msg sig : string) : res bool :=
  if negb (Nat.eqb (String.length pk) 32) then Err "invalid public key size"
  else Ok (ed25519_Verify pk msg sig).

(** The seed of a key pair, the only state of it. *)
Definition Ed25519KeyPairFromSeed (seed : string) : res string :=
  if negb (Nat.eqb (String.length seed) 32) then Err "invalid seed length" else Ok seed.

Definition Ed25519KeyPairFromSeedFile (f : string) : res string :=
  ss ← ReadFile f;
  match hex_decode ss with
  | None => Err "invalid hex"
  | Some seed => Ed25519KeyPairFromSeed seed
  end.

Definition Ed25519SignWithSeedFile (f msg : string) : res string :=
  seed ← Ed25519KeyPairFromSeedFile f;
  Ok (ed25519_Sign seed msg).

End Ed25519.

(** ** The provider *)

(** An error wrapping [errPermissionDenied], and any other. *)
Inductive check_error := Denied | CheckFailed.

Section Provider.
Context `{TL : TokenLib} `{PF : Platform} `{KS : KeyStore}.
Variable conf : Config.

Definition Validate : list string :=
  (if String.eqb (sc_Identity conf) ""
   then ["identity could not be determine automatically via Choria or was not supplied"] else []) ++
  (if String.eqb (sc_TokenFile conf) "" then ["the path to the JWT token is not configured"] else []) ++
  (if String.eqb (sc_SeedFile conf) "" then ["the path to the ed25519 seed is not configured"] else []) ++
  (if sc_InitiatedByServer conf then
     (if Nat.eqb (length (sc_TrustedTokenSigners conf)) 0 && Nat.eqb (size (sc_Issuers conf)) 0
      then ["no trusted token signers or issuers configured"] else []) ++
     (if Nat.ltb 0 (length (sc_TrustedTokenSigners conf)) && Nat.ltb 0 (size (sc_Issuers conf))
      then ["can only configure one of trusted token signers or issuers"] else [])
   else []).

Definition CallerName : string := "choria=" +:+ sc_Identity conf.

Definition caller_identity (caller : string) : res string :=
  match re_search callerIDRe caller with
  | None => Err ("could not find a valid caller identity name in " +:+ caller)
  | Some c => Ok (submatch c 1)
  end.

Definition sign_bytes (b : string) : res string := Ed25519SignWithSeedFile (sc_SeedFile conf) b.

(** The key of the organization a token names, unverified. *)
Definition orgPkForToken (token : string) : res string :=
  match ParseTokenUnverified token with
  | inr e => Err (token_error_text e)
  | inl None => Err "no ou found in client token"
  | inl (Some OuOther) => Err "empty ou found in client token"
  | inl (Some (OuString ous)) =>
      match sc_Issuers conf !! ous with
      | None => Err ("no issuer found for " +:+ ous +:+ " ou")
      | Some issuer => Ok issuer
      end
  end.

Definition has_permission (f : ClientPermissions → bool) (c : ClientIDClaims) : bool :=
  match ClientPerms c with None => false | Some p => f p end.

Definition checkDelegate (caller delegate signer : string) : (string * string) + check_error :=
  match ParseClientIDToken delegate signer true with
  | inr _ => inr CheckFailed
  | inl st =>
      if negb (has_permission AuthenticationDelegator st) then inr Denied
      else
        match ParseClientIDToken caller signer true with
        | inr _ => inr Denied
        | inl ct =>
            if negb (has_permission (λ p, FleetManagement p || SignedFleetManagement p) ct) then inr Denied
            else if String.eqb (ClientPublicKey st) "" then inr Denied
            else inl (ClientPublicKey st, CallerID st)
        end
  end.

Definition checkClient (token signer : string) : (string * string) + check_error :=
  match ParseClientIDToken token signer true with
  | inr _ => inr CheckFailed
  | inl t =>
      if has_permission SignedFleetManagement t then inr Denied
      else if negb (has_permission FleetManagement t) then inr Denied
      else if String.eqb (ClientPublicKey t) "" then inr Denied
      else inl (ClientPublicKey t, CallerID t)
  end.

(** A server token without a public key is passed over as one that does not parse is. *)
Definition checkServer (token signer : string) : (string * string) + check_error :=
  match ParseServerToken token signer with
  | inr _ => inr CheckFailed
  | inl t =>
      if String.eqb (ServerPublicKey t) "" then inr CheckFailed
      else inl (ServerPublicKey t, ChoriaIdentity t)
  end.

(** Permission denied ends the search, another error goes on to the next signer. *)
Fixpoint try_signers (check : string → (string * string) + check_error) (signers : list string) :
    option (string * string) :=
  match signers with
  | [] => None
  | s :: rest =>
      match check s with
      | inl found => Some found
      | inr Denied => None
      | inr CheckFailed => try_signers check rest
      end
  end.

(** The public key and name of the signer of a message, from its token. *)
Definition signer_of (check : string → (string * string) + check_error) (token : string) :
    option (string * string) :=
  if Nat.ltb 0 (size (sc_Issuers conf)) then
    match orgPkForToken token with
    | Ok issuer => match check issuer with inl found => Some found | inr _ => None end
    | _ => None
    end
  else try_signers check (sc_TrustedTokenSigners conf).

Definition verify_with (signer : option (string * string)) (dat sig : string) : bool * string :=
  match signer with
  | None => (false, "")
  | Some (pks, name) =>
      match hex_decode pks with
      | None => (false, "")
      | Some pk =>
          match Ed25519Verify pk dat sig with
          | Ok ok => (ok, name)
          | _ => (false, "")
          end
      end
  end.

Definition verifyByteSignatureByDelegation (dat sig caller delegate : string) : bool * string :=
  if String.eqb delegate "" then (false, "")
  else
    match TokenPurpose delegate with
    | ClientIDPurpose => verify_with (signer_of (checkDelegate caller delegate) delegate) dat sig
    | _ => (false, "")
    end.

Definition verifyByteSignatureByCaller (dat sig token : string) : bool * string :=
  if String.eqb token "" then (false, "")
  else
    match TokenPurpose token with
    | ServerPurpose => verify_with (signer_of (checkServer token) token) dat sig
    | ClientIDPurpose => verify_with (signer_of (checkClient token) token) dat sig
    | OtherPurpose _ => (false, "")
    end.

Definition verify_signature_bytes (dat sig : string) (public : list string) : bool * string :=
  match public with
  | [token] => verifyByteSignatureByCaller dat sig token
  | [caller; delegate] => verifyByteSignatureByDelegation dat sig caller delegate
  | _ => (false, "")
  end.

(** Permissions that are nil fail the test of fleet management access, after which the
    code reads through them. *)
Definition shouldAllowCallerUnsigned (name caller : string) : res bool :=
  match ParseClientIDTokenUnverified caller with
  | inr e => Err (token_error_text e)
  | inl token =>
      if negb (has_permission (λ p, SignedFleetManagement p || FleetManagement p) token) then
        match ClientPerms token with
        | None => nil_headers
        | Some p =>
            if SignedFleetManagement p then Err "requires signed fleet management access"
            else Err "does not have fleet management access"
        end
      else if negb (String.eqb (CallerID token) name) then Err "caller name does not match token"
      else Ok false
  end.

Definition shouldAllowSignedCaller (caller signer : string) : res bool :=
  match ParseClientIDTokenUnverified signer with
  | inr e => Err ("invalid signer token: " +:+ token_error_text e)
  | inl signerT =>
      if negb (has_permission AuthenticationDelegator signerT)
      then Err "signer token does not have delegator permission"
      else
        match ParseClientIDTokenUnverified caller with
        | inr e => Err ("invalid caller token: " +:+ token_error_text e)
        | inl callerT =>
            if negb (has_permission (λ p, SignedFleetManagement p || FleetManagement p) callerT)
            then Err "caller does not have fleet management access"
            else Ok true
        end
  end.

Definition should_allow_caller (name : string) (callers : list string) : res bool :=
  match callers with
  | [caller] => shouldAllowCallerUnsigned name caller
  | [caller; signer] => shouldAllowSignedCaller caller signer
  | _ => Err "invalid caller data provided"
  end.

Definition remote_sign_request (request : string) : res string :=
  match sc_RemoteSigner conf with
  | None => Err "remote signing not configured"
  | Some sign => sign request
  end.

Definition RemoteSignerToken : res string :=
  if String.eqb (sc_TokenFile conf) "" then Err "no token file defined"
  else map_err (λ e, "could not read token file: " +:+ e) (ReadFile (sc_TokenFile conf)).

Definition public_cert_bytes : res string :=
  if String.eqb (sc_Key conf) "" || String.eqb (sc_Certificate conf) "" then Err "no certificates configured"
  else ReadFile (sc_Certificate conf).

Definition ChoriaSecurity : SecurityProvider :=
  {| BackingTechnology := SecurityTechnologyED25519JWT;
     CallerIdentity := caller_identity;
     SignBytes := sign_bytes;
     VerifySignatureBytes := λ dat sig public, Ok (verify_signature_bytes dat sig public);
     RemoteSignRequest := remote_sign_request;
     IsRemoteSigning := bool_decide (is_Some (sc_RemoteSigner conf));
     ChecksumBytes := sha256_Sum256;
     PublicCertBytes := public_cert_bytes;
     TokenBytes := ReadFile (sc_TokenFile conf);
     ShouldSignReplies := sc_SignedReplies conf;
     ShouldAllowCaller := should_allow_caller |}.

End Provider.

(** * The security of requests: properties

    Which secure requests of version 2 a server with the Choria security provider
    takes as valid, and the way of a request from the client that signs it to the
    server that reads it. *)
From S2P Require Import DemoJSON.

(** ** What the libraries promise *)

(** A token that verifies against a key is read the same without verifying it, and
    only client tokens are read as such. *)
Class LawfulTokens `{TokenLib} := {
  verified_is_unverified token key c :
    ParseClientIDToken token key true = inl c → ParseClientIDTokenUnverified token = inl c;
  unverified_is_client token c :
    ParseClientIDTokenUnverified token = inl c → TokenPurpose token = ClientIDPurpose;
}.

(** Ed25519: the signature of a seed verifies under its public key. *)
Class LawfulKeys `{Platform} `{KeyStore} := {
  public_length seed : String.length seed = 32 → String.length (ed25519_Public seed) = 32;
  sign_verifies seed msg : String.length seed = 32 →
    ed25519_Verify (ed25519_Public seed) msg (ed25519_Sign seed msg) = true;
}.

Section Security.
Context `{TL : TokenLib} `{PF : Platform} `{KS : KeyStore} `{LT : !LawfulTokens}.
Variable conf : Config.

(** ** Specification *)

Definition parses (token key : string) : bool :=
  match ParseClientIDToken token key true with inl _ => true | inr _ => false end.

(** The trusted key a client token is read with: that of its organization, or the
    first of the signers it verifies against. *)
Definition token_key (token : string) : option string :=
  if Nat.ltb 0 (size (sc_Issuers conf)) then
    match orgPkForToken conf token with
    | Ok key => if parses token key then Some key else None
    | _ => None
    end
  else List.find (parses token) (sc_TrustedTokenSigners conf).

Definition signed_by (pks dat sig : string) : Prop :=
  ∃ pk, hex_decode pks = Some pk ∧ String.length pk = 32 ∧ ed25519_Verify pk dat sig = true.

Definition fleet (c : ClientIDClaims) : bool :=
  has_permission (λ p, FleetManagement p || SignedFleetManagement p) c.

(** Signed by the caller itself, who may manage the fleet without delegation. *)
Definition authentic_caller (r : SecureRequest) (req : Request) : Prop :=
  sr_SignerJWT r = "" ∧
  ∃ key c, token_key (sr_Caller r) = Some key ∧ ParseClientIDToken (sr_Caller r) key true = inl c ∧
    sr_Caller r ≠ "" ∧ has_permission FleetManagement c = true ∧ has_permission SignedFleetManagement c = false ∧
    CallerID c = rq_CallerID req ∧ ClientPublicKey c ≠ "" ∧
    signed_by (ClientPublicKey c) (sr_MessageBody r) (sr_Signature r).

(** Signed by a delegator the same issuer trusts, for a caller with access to the fleet. *)
Definition authentic_delegated (r : SecureRequest) : Prop :=
  sr_SignerJWT r ≠ "" ∧
  ∃ key d c, token_key (sr_SignerJWT r) = Some key ∧ ParseClientIDToken (sr_SignerJWT r) key true = inl d ∧
    ParseClientIDToken (sr_Caller r) key true = inl c ∧
    has_permission AuthenticationDelegator d = true ∧ fleet c = true ∧ ClientPublicKey d ≠ "" ∧
    signed_by (ClientPublicKey d) (sr_MessageBody r) (sr_Signature r).

(** ** The provider *)

Lemma parses_true token key : parses token key = true ↔ ∃ c, ParseClientIDToken token key true = inl c.
Proof.
  unfold parses. destruct (ParseClientIDToken token key true) as [c|e].
  - split; [by eexists|done].
  - split; [done|by intros [c ?]].
Qed.

(** A check that fails only on tokens that do not parse picks the key of the token. *)
Lemma signer_of_spec check token :
  (∀ key, check key = inr CheckFailed ↔ parses token key = false) →
  signer_of conf check token =
    match token_key token with
    | None => None
    | Some key => match check key with inl found => Some found | inr _ => None end
    end.
Proof.
  intros Hc. unfold signer_of, token_key. destruct (Nat.ltb 0 _).
  - destruct (orgPkForToken conf token) as [key|e|p]; [|done..].
    destruct (parses token key) eqn:Hp; [done|]. by rewrite (proj2 (Hc key) Hp).
  - generalize (sc_TrustedTokenSigners conf). intros l. induction l as [|s l IH]; [done|]. cbn.
    destruct (parses token s) eqn:Hp.
    + destruct (check s) as [x|[]] eqn:E; [done..|]. apply Hc in E. congruence.
    + by rewrite (proj2 (Hc s) Hp).
Qed.

Lemma checkClient_failed token key : checkClient token key = inr CheckFailed ↔ parses token key = false.
Proof. unfold checkClient, parses. repeat (dmatch; try (split; congruence)). Qed.

Lemma checkDelegate_failed caller token key :
  checkDelegate caller token key = inr CheckFailed ↔ parses token key = false.
Proof. unfold checkDelegate, parses. repeat (dmatch; try (split; congruence)). Qed.

Lemma verify_with_true o dat sig :
  (verify_with o dat sig).1 = true ↔ ∃ pks name, o = Some (pks, name) ∧ signed_by pks dat sig.
Proof.
  unfold verify_with, signed_by, Ed25519Verify. destruct o as [[pks name]|]; [|by split; [|intros (? & ? & ? & _)]].
  destruct (hex_decode pks) as [pk|] eqn:Hd.
  - destruct (Nat.eqb_spec (String.length pk) 32) as [Hl|Hl]; cbn; split.
    + intros H. by exists pks, name; split; [|exists pk].
    + intros (? & ? & [= <- <-] & ? & H & _ & ?). rewrite Hd in H. by injection H as <-.
    + done.
    + intros (? & ? & [= <- <-] & ? & H & ? & _). rewrite Hd in H. by injection H as <-.
  - split; [done|]. intros (? & ? & [= <- <-] & ? & H & _). by rewrite Hd in H.
Qed.

(** ** Signatures *)

Lemma verify_caller_client dat sig token : TokenPurpose token = ClientIDPurpose →
  (verifyByteSignatureByCaller conf dat sig token).1 = true ↔
  token ≠ "" ∧ ∃ key c, token_key token = Some key ∧ ParseClientIDToken token key true = inl c ∧
    has_permission FleetManagement c = true ∧ has_permission SignedFleetManagement c = false ∧
    ClientPublicKey c ≠ "" ∧ signed_by (ClientPublicKey c) dat sig.
Proof.
  intros Hp. unfold verifyByteSignatureByCaller. rewrite Hp. destruct (String.eqb_spec token "") as [->|Hne].
  { by split; [|intros [? _]]. }
  rewrite verify_with_true, (signer_of_spec _ _ (checkClient_failed token)). split.
  - intros (pks & name & Hs & Hsig). split; [done|]. destruct (token_key token) as [key|]; [|done].
    unfold checkClient in Hs. destruct (ParseClientIDToken token key true) as [c|e] eqn:Hc; [|done].
    exists key, c. destruct (has_permission SignedFleetManagement c); [done|].
    destruct (has_permission FleetManagement c); [|done]. cbn in Hs.
    destruct (String.eqb_spec (ClientPublicKey c) ""); [done|]. by injection Hs as <- <-.
  - intros (_ & key & c & -> & Hc & Hf & Hsf & Hk & Hsig). exists (ClientPublicKey c), (CallerID c).
    split; [|done]. unfold checkClient. rewrite Hc, Hf, Hsf. cbn.
    by destruct (String.eqb_spec (ClientPublicKey c) "").
Qed.

Lemma verify_delegation dat sig caller token :
  (verifyByteSignatureByDelegation conf dat sig caller token).1 = true ↔
  token ≠ "" ∧ TokenPurpose token = ClientIDPurpose ∧ ∃ key d c, token_key token = Some key ∧
    ParseClientIDToken token key true = inl d ∧ ParseClientIDToken caller key true = inl c ∧
    has_permission AuthenticationDelegator d = true ∧ fleet c = true ∧
    ClientPublicKey d ≠ "" ∧ signed_by (ClientPublicKey d) dat sig.
Proof.
  unfold verifyByteSignatureByDelegation. destruct (String.eqb_spec token "") as [->|Hne].
  { by split; [|intros [? _]]. }
  destruct (TokenPurpose token) as [| |o]; [|split; [done|by intros (_ & ? & _)]..].
  rewrite verify_with_true, (signer_of_spec _ _ (checkDelegate_failed caller token)). split.
  - intros (pks & name & Hs & Hsig). split_and!; [done..|]. destruct (token_key token) as [key|]; [|done].
    unfold checkDelegate in Hs. destruct (ParseClientIDToken token key true) as [d|e] eqn:Hd; [|done].
    destruct (has_permission AuthenticationDelegator d) eqn:Ha; [|done]. cbn in Hs.
    destruct (ParseClientIDToken caller key true) as [c|e] eqn:Hc; [|done].
    exists key, d, c. fold (fleet c) in Hs. destruct (fleet c); [|done]. cbn in Hs.
    destruct (String.eqb_spec (ClientPublicKey d) ""); [done|]. by injection Hs as <- <-.
  - intros (_ & _ & key & d & c & -> & Hd & Hc & Ha & Hf & Hk & Hsig).
    exists (ClientPublicKey d), (CallerID d). split; [|done].
    unfold checkDelegate. rewrite Hd, Ha, Hc. cbn. fold (fleet c). rewrite Hf. cbn.
    by destruct (String.eqb_spec (ClientPublicKey d) "").
Qed.

Lemma parsed_client token key c : ParseClientIDToken token key true = inl c →
  TokenPurpose token = ClientIDPurpose.
Proof. intros H. by eapply unverified_is_client, verified_is_unverified. Qed.

(** ** Callers *)

Lemma fleet_either c :
  has_permission (λ p, SignedFleetManagement p || FleetManagement p) c = fleet c.
Proof. unfold fleet, has_permission. destruct (ClientPerms c); [|done]. apply orb_comm. Qed.

Lemma fleet_of_permission c : has_permission FleetManagement c = true → fleet c = true.
Proof. unfold fleet, has_permission. destruct (ClientPerms c); [|done]. by intros ->. Qed.

Lemma allow_caller_unsigned name token c :
  ParseClientIDTokenUnverified token = inl c → fleet c = true →
  should_allow_caller name [token] =
    if String.eqb (CallerID c) name then Ok false else Err "caller name does not match token".
Proof.
  intros Hc Hf. cbn. unfold shouldAllowCallerUnsigned. rewrite Hc, fleet_either, Hf. cbn.
  by destruct (String.eqb _ _).
Qed.

Lemma allow_caller_signed name caller signer c d :
  ParseClientIDTokenUnverified caller = inl c → ParseClientIDTokenUnverified signer = inl d →
  has_permission AuthenticationDelegator d = true → fleet c = true →
  should_allow_caller name [caller; signer] = Ok true.
Proof.
  intros Hc Hd Ha Hf. cbn. unfold shouldAllowSignedCaller. by rewrite Hc, Hd, Ha, fleet_either, Hf.
Qed.

(** ** Secure requests *)

Context `{TJ : TransportJSON} `{MJ : MessageJSON} `{BF : BuildFlags}.
#[local] Instance provider : SecurityProvider := ChoriaSecurity conf.

Definition authentic (r : SecureRequest) (req : Request) : Prop :=
  authentic_caller r req ∨ authentic_delegated r.

Lemma passes_schema_total schema data : is_panic (passes_schema schema data) = false.
Proof. unfold passes_schema. repeat (dmatch; try done). Qed.

Lemma request_from_secure_total r : sr_Type r = V2 → is_panic (request_from_secure V2 r) = false.
Proof.
  intros Ht. unfold request_from_secure. destruct (negb _); [done|]. rewrite decide_True by done. cbn.
  pose proof (passes_schema_total RequestV2 (sr_MessageBody r)) as Hs.
  destruct (passes_schema _ _); [cbn|done|done]. unfold unmarshal_request, decoded.
  by destruct (request_Unmarshal _ _).
Qed.

(** One case of [Valid]: nothing is valid unless the signature verifies. *)
Lemma valid_caller r : sr_Type r = V2 → sr_SignerJWT r = "" →
  ∃ b, Valid2 r = Ok b ∧ (b = true ↔ ∃ req, request_from_secure V2 r = Ok req ∧ authentic_caller r req).
Proof.
  intros Ht Hs. unfold Valid2, authentic_caller. rewrite Hs. cbn.
  pose proof (verify_caller_client (sr_MessageBody r) (sr_Signature r) (sr_Caller r)) as Hv.
  pose proof (request_from_secure_total r Ht) as Hn.
  destruct (TokenPurpose (sr_Caller r)) as [| |o] eqn:Hp.
  - specialize (Hv eq_refl).
    destruct (verifyByteSignatureByCaller conf (sr_MessageBody r) (sr_Signature r) (sr_Caller r)).1; cbn.
    + destruct (proj1 Hv eq_refl) as (Hne & key & c & Hk & Hc & Hf & Hsf & Hpk & Hsig).
      destruct (request_from_secure V2 r) as [req|e|p]; cbn; [..|done].
      * pose proof (allow_caller_unsigned (rq_CallerID req) (sr_Caller r) c
          (verified_is_unverified _ _ _ Hc) (fleet_of_permission c Hf)) as Ha. cbn in Ha. rewrite Ha.
        destruct (String.eqb_spec (CallerID c) (rq_CallerID req)) as [Hid|Hid]; eexists; (split; [reflexivity|]).
        -- split; [intros _|done]. exists req. split; [done|]. split; [done|]. by exists key, c.
        -- split; [done|]. intros (req' & [= <-] & _ & key' & c' & Hk' & Hc' & _ & _ & _ & Hid' & _).
           rewrite Hk in Hk'. injection Hk' as <-. rewrite Hc in Hc'. by injection Hc' as <-.
      * exists false. split; [done|]. split; [done|]. by intros (? & ? & _).
    + exists false. split; [done|]. split; [done|].
      intros (req & _ & _ & key & c & Hk & Hc & Hne & Hf & Hsf & _ & Hpk & Hsig). apply Hv.
      split; [done|]. by exists key, c.
  - assert (∀ req, ¬ authentic_caller r req) as Hno.
    { intros req (_ & key & c & _ & Hc & _). apply parsed_client in Hc. congruence. }
    unfold authentic_caller in Hno. rewrite Hs in Hno.
    destruct (verifyByteSignatureByCaller _ _ _ _).1; cbn.
    + destruct (request_from_secure V2 r) as [req|e|p]; cbn; [..|done].
      * unfold shouldAllowCallerUnsigned.
        destruct (ParseClientIDTokenUnverified (sr_Caller r)) as [c|e] eqn:Hc.
        { apply unverified_is_client in Hc. congruence. }
        exists false. split; [done|]. split; [done|]. intros (req' & _ & Ha). by destruct (Hno req').
      * exists false. split; [done|]. split; [done|]. by intros (? & ? & _).
    + exists false. split; [done|]. split; [done|]. intros (req' & _ & Ha). by destruct (Hno req').
  - unfold verifyByteSignatureByCaller. rewrite Hp. exists false.
    destruct (String.eqb _ _); (split; [done|]); (split; [done|]);
      intros (req & _ & _ & key & c & _ & Hc & _); apply parsed_client in Hc; congruence.
Qed.

Lemma valid_delegated r : sr_Type r = V2 → sr_SignerJWT r ≠ "" →
  ∃ b, Valid2 r = Ok b ∧ (b = true ↔ ∃ req, request_from_secure V2 r = Ok req ∧ authentic_delegated r).
Proof.
  intros Ht Hs. unfold Valid2, authentic_delegated. rewrite (proj2 (String.eqb_neq _ _) Hs). cbn -[should_allow_caller].
  pose proof (verify_delegation (sr_MessageBody r) (sr_Signature r) (sr_Caller r) (sr_SignerJWT r)) as Hv.
  pose proof (request_from_secure_total r Ht) as Hn.
  destruct (verifyByteSignatureByDelegation conf (sr_MessageBody r) (sr_Signature r) (sr_Caller r) (sr_SignerJWT r)).1;
    cbn -[should_allow_caller].
  - destruct (proj1 Hv eq_refl) as (_ & _ & key & d & c & Hk & Hd & Hc & Ha & Hf & Hpk & Hsig).
    destruct (request_from_secure V2 r) as [req|e|p]; cbn -[should_allow_caller]; [..|done].
    + rewrite (allow_caller_signed _ _ _ c d); [|by eapply verified_is_unverified..|done|done].
      exists true. split; [done|]. split; [|done]. intros _. exists req. split; [done|]. split; [done|].
      by exists key, d, c.
    + exists false. split; [done|]. split; [done|]. by intros (? & ? & _).
  - exists false. split; [done|]. split; [done|].
    intros (req & _ & _ & key & d & c & Hk & Hd & Hc & Ha & Hf & Hpk & Hsig). apply Hv.
    split; [done|]. split; [by eapply parsed_client|]. by exists key, d, c.
Qed.

Lemma valid_spec r : sr_Type r = V2 → IsSecure = true →
  ∃ b, sr_Valid r = Ok b ∧ (b = true ↔ ∃ req, request_from_secure V2 r = Ok req ∧ authentic r req).
Proof.
  intros Ht Hsec. unfold sr_Valid, authentic. rewrite Hsec, Ht. cbn [negb].
  destruct (String.eqb_spec (sr_SignerJWT r) "") as [Hs|Hs].
  - destruct (valid_caller r Ht Hs) as (b & -> & Hb). exists b. split; [done|]. rewrite Hb.
    split; intros (req & Hr & H); exists req; (split; [done|]); [by left|]. by destruct H as [H|[? _]].
  - destruct (valid_delegated r Ht Hs) as (b & -> & Hb). exists b. split; [done|]. rewrite Hb.
    split; intros (req & Hr & H); exists req; (split; [done|]); [by right|]. by destruct H as [[? _]|H].
Qed.

Lemma only_version_2 m skip r : NewSecureRequestFromTransport m skip = Ok r →
  tm_Protocol m = TransportV2 ∧ sr_Type r = V2 ∧ (skip = false → sr_Valid r = Ok true).
Proof.
  unfold NewSecureRequestFromTransport, new_secure_request_from_transport, mbind, outcome_bind.
  destruct (String.eqb _ TransportV1); [done|].
  destruct (String.eqb_spec (tm_Protocol m) TransportV2) as [->|]; [|done]. cbn [check_technology].
  unfold check_technology. rewrite decide_True by done.
  destruct (map_err _ (passes_schema _ _)); [|done..].
  unfold unmarshal_secure_request, mbind, outcome_bind. destruct (decoded _) as [r'|e|p]; [|done..].
  destruct skip; [by intros [= <-]|]. destruct (sr_Valid _) as [[]|e|p] eqn:Hv; [|done..].
  intros [= <-]. split_and!; [done|done|intros _; exact Hv].
Qed.

Lemma request_from_secure_tokens r req : request_from_secure V2 r = Ok req →
  sr_Protocol r = SecureRequestV2 ∧ rq_Type req = V2 ∧ rq_callerJWT req = sr_Caller r ∧
  rq_signerJWT req = sr_SignerJWT r.
Proof.
  unfold request_from_secure, mbind, outcome_bind. 
  destruct (String.eqb_spec (sr_Protocol r) (SecureRequestVersion V2)); [cbn|by cbn].
  destruct (decide _); [|done]. cbn. destruct (map_err _ _); [|done..].
  unfold unmarshal_request, mbind, outcome_bind. destruct (decoded _); [|done..]. by intros [= <-].
Qed.

Lemma accepted_secure_request m r req : IsSecure = true →
  NewSecureRequestFromTransport m false = Ok r → NewRequestFromSecureRequest r = Ok req →
  request_from_secure V2 r = Ok req ∧ authentic r req.
Proof.
  intros Hsec Hr Hq. destruct (only_version_2 _ _ _ Hr) as (_ & Ht & Hv). specialize (Hv eq_refl).
  destruct (valid_spec r Ht Hsec) as (b & Hb & Hiff). rewrite Hb in Hv. injection Hv as ->.
  destruct (proj1 Hiff eq_refl) as (req' & Hreq & Ha).
  destruct (request_from_secure_tokens _ _ Hreq) as (Hp & _). unfold NewRequestFromSecureRequest in Hq.
  rewrite Hp in Hq. cbn in Hq. rewrite Hreq in Hq. by injection Hq as <-.
Qed.

End Security.

(** ** A client and a server

    An organization that issued a token to one client and one delegator. *)

Definition demo_seed : string := "0123456789abcdef0123456789abcdef".

Definition demo_perms (fleet signed delegator : bool) : ClientPermissions :=
  {| StreamsAdmin := false; StreamsUser := false; EventsViewer := false; ElectionUser := false;
     ClientGovernor := false; OrgAdmin := false; SystemUser := false; FleetManagement := fleet;
     SignedFleetManagement := signed; ServerProvisioner := false; AuthenticationDelegator := delegator |}.

Definition demo_claims (name : string) (p : ClientPermissions) : ClientIDClaims :=
  {| CallerID := name; ClientOU := "choria"; ClientPublicKey := hex_encode demo_seed; ClientPerms := Some p;
     ClientAddPub := []; ClientAddSub := []; AllowedAgents := []; OPAPolicy := "" |}.

Definition demo_client_of (token : string) : ClientIDClaims + TokenError :=
  if String.eqb token "token-bob" then inl (demo_claims "choria=bob" (demo_perms true false false))
  else if String.eqb token "token-aaa" then inl (demo_claims "aaa=login" (demo_perms false false true))
  else if String.eqb token "token-ann" then inl (demo_claims "choria=ann" (demo_perms false true false))
  else inr ErrNotAClientToken.

#[export] Instance demo_tokens : TokenLib := {|
  TokenPurpose t := match demo_client_of t with inl _ => ClientIDPurpose | inr _ => OtherPurpose t end;
  TokenSigningAlgorithm t := inl "EdDSA";
  ParseTokenUnverified t := inl (Some (OuString "choria"));
  ParseServerToken t pk := inr ErrNotAServerToken;
  ParseServerTokenWithKeyfile t f := inr ErrNotAServerToken;
  ParseClientIDToken t pk _ := if String.eqb pk "issuer" then demo_client_of t else inr (ErrToken "bad signature");
  ParseClientIDTokenUnverified t := demo_client_of t;
  ParseClientIDTokenWithKeyfile t f _ := inr ErrNotAClientToken;
  ParseProvisioningToken t pk := inr (ErrToken "not a provisioning token");
  ParseProvisioningTokenWithKeyfile t f := inr (ErrToken "not a provisioning token");
  IsEncodedEd25519KeyString k := Nat.eqb (String.length k) 64;
|}.

#[export] Instance demo_platform : Platform := {|
  fips140_Enabled := false;
  md5_Sum s := s;
  sha256_Sum256 s := s;
  ed25519_Verify pk m sig := String.eqb sig (pk +:+ m);
  FileExist f := false;
  SplitHostPort s := Some s;
  IPNet := string;
  ParseCIDR s := None;
  IPNet_Contains n ip := false;
|}.

#[export] Instance demo_keys : KeyStore := {|
  ReadFile f := if String.eqb f "seed" then Ok (hex_encode demo_seed) else Ok f;
  ed25519_Sign seed msg := seed +:+ msg;
  ed25519_Public seed := seed;
|}.

#[export] Instance demo_lawful_tokens : LawfulTokens.
Proof.
  split; cbn.
  - intros token key c. by destruct (String.eqb key "issuer").
  - intros token c H. by rewrite H.
Defined.

#[export] Instance demo_lawful_keys : LawfulKeys.
Proof. split; cbn; [done|]. intros seed msg _. apply String.eqb_refl. Defined.

Definition demo_config (token : string) : Config :=
  {| sc_Identity := "example.net"; sc_SeedFile := "seed"; sc_TokenFile := token; sc_Issuers := ∅;
     sc_TrustedTokenSigners := ["other"; "issuer"]; sc_RemoteSigner := None; sc_Certificate := "";
     sc_Key := ""; sc_SignedReplies := true; sc_InitiatedByServer := true |}.

(** ** Properties *)

Section Properties.
Context `{TL : TokenLib} `{PF : Platform} `{KS : KeyStore} `{LT : !LawfulTokens}.
Context `{TJ : TransportJSON} `{MJ : MessageJSON} `{BF : BuildFlags}.

(** C3. Checking a secure request never panics and accepts exactly the authentic ones:
    those whose body is signed with the key of the token of the caller, when a trusted
    issuer gave that token fleet management that does not require delegation and the
    name the request carries, and those signed with the key of a delegator, when the
    issuer of its token also issued the token of the caller, with fleet management. *)
Theorem valid_iff_authentic (conf : Config) (r : SecureRequest) :
  sr_Type r = V2 → IsSecure = true →
  let SP := ChoriaSecurity conf in
  ∃ b, sr_Valid r = Ok b ∧ (b = true ↔ ∃ req, request_from_secure V2 r = Ok req ∧ authentic conf r req).
Proof. apply valid_spec. Qed.

(** C7. Whatever bytes arrive, the request a secure server reads out of them is the body
    of an authentic secure request, with the tokens that were verified and the name of
    the caller that was checked; what the transport adds is its federation data. *)
Theorem accepted_requests_are_authentic (conf : Config) (payload : string) (req : Request) :
  IsSecure = true →
  let SP := ChoriaSecurity conf in
  NewRequestFromTransportJSON payload false = Ok req →
  ∃ r req0, request_from_secure V2 r = Ok req0 ∧ authentic conf r req0 ∧
    req = rq_set (rq_federation req, rq_seenBy req) req0 ∧
    rq_callerJWT req = sr_Caller r ∧ rq_signerJWT req = sr_SignerJWT r ∧ rq_CallerID req = rq_CallerID req0.
Proof.
  intros Hsec SP. unfold NewRequestFromTransportJSON, mbind, outcome_bind.
  destruct (NewTransportFromJSON payload) as [m|e|p]; [|done..].
  destruct (NewSecureRequestFromTransport m false) as [r|e|p] eqn:Hr; [|done..].
  destruct (NewRequestFromSecureRequest r) as [req0|e|p] eqn:Hq; [|done..]. intros Hc.
  destruct (accepted_secure_request conf m r req0 Hsec Hr Hq) as [Hreq Ha].
  apply copy_to_request in Hc as [v ->]. apply request_from_secure_tokens in Hreq as Ht.
  exists r, req0. destruct Ht as (_ & _ & Hj & Hs). by split_and!.
Qed.

(** The JSON of a message is accepted by the schema and decodes to the message. *)
Definition secure_request_travels (r : SecureRequest) : Prop :=
  ∃ j, secure_request_Marshal r = Some j ∧ schemaValidate (SecureRequestVersion (sr_Type r)) j = Some [] ∧
    secure_request_Unmarshal j (empty_secure_request (sr_Type r) (SecureRequestVersion (sr_Type r)) "") = Some r.

(** A request as the one who decodes it sees it: with the tokens of the secure request
    and without federation data. *)
Definition received (callerJWT signerJWT : string) (req : Request) : Request :=
  {| rq_Type := rq_Type req; rq_Protocol := rq_Protocol req; rq_MessageBody := rq_MessageBody req;
     rq_RequestID := rq_RequestID req; rq_SenderID := rq_SenderID req; rq_CallerID := rq_CallerID req;
     rq_Collective := rq_Collective req; rq_Agent := rq_Agent req; rq_TTL := rq_TTL req; rq_Time := rq_Time req;
     rq_Filter := rq_Filter req; rq_callerJWT := callerJWT; rq_signerJWT := signerJWT; rq_seenBy := [];
     rq_federation := None |}.

Definition request_travels (req : Request) : Prop :=
  ∃ j, request_Marshal req = Some j ∧ schemaValidate (RequestVersion (rq_Type req)) j = Some [] ∧
    ∀ c s, request_Unmarshal j (empty_request (rq_Type req) c s) = Some (received c s req).

Lemma passes_schema_ok schema j : schemaValidate schema j = Some [] → passes_schema schema j = Ok tt.
Proof. unfold passes_schema. by intros ->. Qed.

(** What a client with a seed and a token makes of a request. *)
Lemma new_secure_request_spec cc req seed token j : IsSecure = true →
  sc_RemoteSigner cc = None → ReadFile (sc_SeedFile cc) = Ok (hex_encode seed) → String.length seed = 32 →
  ReadFile (sc_TokenFile cc) = Ok token → rq_Type req = V2 → rq_Protocol req = RequestV2 →
  IsRemoteSignerAgent (rq_Agent req) = false →
  request_Marshal req = Some j → schemaValidate RequestV2 j = Some [] →
  NewSecureRequest (SP := ChoriaSecurity cc) req =
    Ok {| sr_Type := V2; sr_Protocol := SecureRequestV2; sr_MessageBody := j;
          sr_Signature := ed25519_Sign seed j; sr_Caller := token; sr_SignerJWT := "" |}.
Proof.
  intros Hsec Hrs Hseed Hlen Htok Hty Hpr Hag Hj Hsch.
  unfold NewSecureRequest. rewrite Hpr. cbn [IsRemoteSigning ChoriaSecurity]. rewrite Hrs.
  rewrite bool_decide_eq_false_2 by (by intros [? ?]).
  change (String.eqb RequestV2 RequestV1) with false. rewrite String.eqb_refl.
  unfold new_secure_request, check_technology. rewrite decide_True by done.
  unfold request_caller, mbind, outcome_bind. rewrite Hsec. cbn [TokenBytes ChoriaSecurity]. rewrite Htok.
  unfold sr_SetMessage, request_JSON, mbind, outcome_bind. rewrite Hj. cbn [decoded]. rewrite Hty. cbn [RequestVersion].
  rewrite (passes_schema_ok _ _ Hsch). cbn [map_err sr_Type]. unfold request_signature. rewrite Hsec, Hag.
  cbn. unfold sign_bytes, Ed25519SignWithSeedFile, Ed25519KeyPairFromSeedFile, Ed25519KeyPairFromSeed, mbind, outcome_bind.
  rewrite Hseed, hex_roundtrip, Hlen. done.
Qed.

(** C16. A request signed by a client reaches the server: when the client signs with the
    seed whose public key is in its token, a trusted issuer gave that token fleet
    management without delegation and the request carries the name of the token, the
    server accepts the secure request of the transport message and reads the request
    as it was made, with the token of the client. *)
Theorem signed_request_roundtrip `{LK : !LawfulKeys} (cc cs : Config) (identity : string) (req : Request)
    (seed token key : string) (c : ClientIDClaims) :
  IsSecure = true →
  sc_RemoteSigner cc = None → ReadFile (sc_SeedFile cc) = Ok (hex_encode seed) → String.length seed = 32 →
  ReadFile (sc_TokenFile cc) = Ok token → token ≠ "" →
  rq_Type req = V2 → rq_Protocol req = RequestV2 → IsRemoteSignerAgent (rq_Agent req) = false →
  token_key cs token = Some key → ParseClientIDToken token key true = inl c →
  has_permission FleetManagement c = true → has_permission SignedFleetManagement c = false →
  ClientPublicKey c = hex_encode (ed25519_Public seed) → CallerID c = rq_CallerID req →
  request_travels req → (∀ r, NewSecureRequest (SP := ChoriaSecurity cc) req = Ok r → secure_request_travels r) →
  ∃ r m, NewSecureRequest (SP := ChoriaSecurity cc) req = Ok r ∧
    NewTransportForSecureRequest identity r = Ok m ∧
    NewSecureRequestFromTransport (SP := ChoriaSecurity cs) m false = Ok r ∧
    NewRequestFromSecureRequest r = Ok (received token "" req).
Proof.
  intros Hsec Hrs Hseed Hlen Htok Hne Hty Hpr Hag Hk Hc Hf Hsf Hpk Hid (j & Hj & Hsch & Hun) Htr.
  pose proof Hsch as Hsch'. rewrite Hty in Hsch'.
  pose proof (new_secure_request_spec cc req seed token j Hsec Hrs Hseed Hlen Htok Hty Hpr Hag Hj Hsch') as Hnew.
  destruct (Htr _ Hnew) as (sj & Hsj & Hssch & Hsun). cbn [sr_Type SecureRequestVersion] in Hssch, Hsun.
  set (r := {| sr_Type := V2; sr_Caller := token |}) in *.
  assert (request_from_secure V2 r = Ok (received token "" req)) as Hreq.
  { unfold request_from_secure. rewrite String.eqb_refl. cbn [negb].
    rewrite decide_True by done. cbn [mbind outcome_bind sr_MessageBody r]. rewrite (passes_schema_ok _ _ Hsch'). cbn.
    unfold unmarshal_request. rewrite Hty in Hun. rewrite Hun. cbn. unfold received. by rewrite Hty. }
  assert (sr_Valid (SP := ChoriaSecurity cs) r = Ok true) as Hv.
  { destruct (valid_spec cs r eq_refl Hsec) as (b & Hb & Hiff).
    etransitivity; [exact Hb|]. f_equal. apply Hiff.
    eexists. split; [exact Hreq|]. left. split; [done|]. exists key, c. split_and!; [done..| |].
    - rewrite Hpk. intros H. pose proof (hex_roundtrip (ed25519_Public seed)) as Hx. rewrite H in Hx.
      pose proof (public_length seed Hlen) as Hl. injection Hx as Hx. by rewrite <- Hx in Hl.
    - rewrite Hpk. exists (ed25519_Public seed). split_and!; [apply hex_roundtrip|by apply public_length|].
      by apply sign_verifies. }
  exists r. eexists. split; [exact Hnew|]. split; [|split].
  - unfold NewTransportForSecureRequest, secure_request_JSON, mbind, outcome_bind. cbn -[passes_schema]. rewrite Hsj. cbn -[passes_schema].
    by rewrite (passes_schema_ok _ _ Hssch).
  - unfold NewSecureRequestFromTransport, new_secure_request_from_transport, check_technology, mbind, outcome_bind.
    cbn -[passes_schema]. rewrite (passes_schema_ok _ _ Hssch). cbn -[passes_schema]. unfold unmarshal_secure_request, mbind, outcome_bind.
    cbn in Hsun. rewrite Hsun. cbn [decoded]. 
    match goal with |- context [sr_Valid ?x] => change x with r end. by rewrite Hv.
  - unfold NewRequestFromSecureRequest. cbn. exact Hreq.
Qed.

(** The signature of a reply is checked by no one: a client that gets a secure reply
    decides by the hash of the body alone, whatever the signature and the token of the
    sender, so a reply with any body is accepted once its hash is computed. *)
Theorem reply_signature_is_not_checked `{SP : SecurityProvider} (m : TransportMessage) (r : SecureReply) :
  BackingTechnology = SecurityTechnologyED25519JWT → tm_Protocol m = TransportV2 → ClientStrictValidation = false →
  secure_reply_Unmarshal (tm_Data m) (empty_secure_reply V2) = Some r → sp_Type r = V2 →
  NewSecureReplyFromTransport m false =
    if String.eqb (b64_encode (ChecksumBytes (sp_MessageBody r))) (sp_Hash r) then Ok r
    else Err "SecureReply message created from the Transport Message is not valid".
Proof.
  intros Hb Hm Hst Hun Hty. unfold NewSecureReplyFromTransport. rewrite Hm.
  change (String.eqb TransportV2 TransportV1) with false. rewrite String.eqb_refl.
  unfold new_secure_reply_from_transport, check_technology, strict_schema, unmarshal_secure_reply, mbind, outcome_bind.
  rewrite decide_True by (by rewrite Hb). rewrite Hst. cbn. rewrite Hun. cbn. unfold sp_Valid.
  destruct r as [t p b h g j]. cbn in *. subst t. by destruct (String.eqb _ h).
Qed.

(** A reply made by a server and put in its transport message is read back by the
    client with the same content, whether or not it is signed. *)
Theorem reply_roundtrip `{SP : SecurityProvider} (identity : string) (reply : Reply) (sr : SecureReply) (j sj : string) :
  BackingTechnology = SecurityTechnologyED25519JWT → ClientStrictValidation = false →
  rp_Type reply = V2 → rp_Protocol reply = ReplyV2 → rp_seenBy reply = [] → rp_federation reply = None →
  reply_Marshal reply = Some j → reply_Unmarshal j (empty_reply V2) = Some reply →
  NewSecureReply reply = Ok sr →
  secure_reply_Marshal sr = Some sj → secure_reply_Unmarshal sj (empty_secure_reply V2) = Some sr →
  ∃ m, NewTransportForSecureReply identity sr = Ok m ∧ NewSecureReplyFromTransport m false = Ok sr ∧
    NewReplyFromSecureReply sr = Ok reply.
Proof.
  intros Hb Hst Hty Hpr Hseen Hfed Hj Hun Hsr Hsj Hsun.
  assert (sp_Type sr = V2 ∧ sp_Protocol sr = SecureReplyV2 ∧ sp_MessageBody sr = j ∧
    sp_Hash sr = b64_encode (ChecksumBytes j)) as (H1 & H2 & H3 & H4).
  { revert Hsr. unfold NewSecureReply, new_secure_reply, check_technology, sp_SetMessage, reply_JSON, strict_schema,
      mbind, outcome_bind. rewrite Hpr, Hj, Hst. cbn. rewrite decide_True by (by rewrite Hb).
    destruct (if ShouldSignReplies then _ else _) as [[]|e|p]; [|done..]. by intros [= <-]. }
  eexists. split; [|split].
  - unfold NewTransportForSecureReply, secure_reply_JSON, strict_schema, mbind, outcome_bind.
    rewrite H2, Hsj, Hst. cbn. reflexivity.
  - unfold NewSecureReplyFromTransport, new_secure_reply_from_transport, check_technology, strict_schema,
      unmarshal_secure_reply, mbind, outcome_bind. cbn. rewrite decide_True by (by rewrite Hb).
    rewrite Hst, Hsun. cbn. unfold sp_Valid. destruct sr as [t p b h g k]. cbn in *. subst. by rewrite String.eqb_refl.
  - unfold NewReplyFromSecureReply, reply_from_secure, strict_schema, unmarshal_reply, mbind, outcome_bind.
    rewrite H2, Hst, H3. change (String.eqb SecureReplyV2 SecureReplyV1) with false. rewrite String.eqb_refl.
    cbn. rewrite Hun. destruct reply. cbn in *. by subst.
Qed.

End Properties.

(** ** Concrete instances *)

Definition demo_request_of (caller : string) : Request :=
  NewRequest V2 0 "rpcutil" "client" caller 60 "42" "mcollective".

Definition demo_body (caller : string) : string := default "" (request_Marshal (demo_request_of caller)).

(** A request of [ann], who needs a delegator, signed by the delegator. *)
Definition demo_delegated : SecureRequest :=
  {| sr_Type := V2; sr_Protocol := SecureRequestV2; sr_MessageBody := demo_body "choria=ann";
     sr_Signature := demo_seed +:+ demo_body "choria=ann"; sr_Caller := "token-ann"; sr_SignerJWT := "token-aaa" |}.

Lemma valid_iff_authentic_witness : ∃ req, rq_CallerID req = "choria=ann" ∧
  (authentic_caller (demo_config "token-ann") demo_delegated req ∨
   authentic_delegated (demo_config "token-ann") demo_delegated).
Proof.
  destruct (valid_iff_authentic (demo_config "token-ann") demo_delegated) as (b & Hb & H); [done|done|].
  assert (b = true) as ->.
  { vm_compute in Hb. by injection Hb as <-. }
  destruct (proj1 H eq_refl) as (req & Hreq & Ha). exists req. split; [|exact Ha].
  vm_compute in Hreq. by injection Hreq as <-.
Defined.

(** What [bob] sends, as it travels. *)
Definition demo_sent : SecureRequest :=
  match NewSecureRequest (SP := ChoriaSecurity (demo_config "token-bob")) (demo_request_of "choria=bob") with
  | Ok r => r | _ => demo_delegated end.

Definition demo_payload : string :=
  match NewTransportForSecureRequest "client" demo_sent with
  | Ok m => default "" (transport_Marshal m) | _ => "" end.

Definition demo_accepted : Request := received "token-bob" "" (demo_request_of "choria=bob").

Lemma accepted_requests_are_authentic_witness :
  ∃ r req0, request_from_secure V2 r = Ok req0 ∧ authentic (demo_config "token-bob") r req0 ∧
    rq_CallerID req0 = "choria=bob" ∧ sr_Caller r = "token-bob".
Proof.
  destruct (accepted_requests_are_authentic (demo_config "token-bob") demo_payload demo_accepted)
    as (r & req0 & H1 & H2 & _ & H3 & _ & H4); [done|vm_compute; reflexivity|].
  exists r, req0. split; [exact H1|]. split; [exact H2|]. split; [by rewrite <- H4|by rewrite <- H3].
Defined.

Lemma demo_request_travels : request_travels (demo_request_of "choria=bob").
Proof.
  exists (demo_body "choria=bob"). split; [done|]. split; [done|]. intros c s. vm_compute. reflexivity.
Qed.

Lemma signed_request_roundtrip_witness : ∃ r m,
  NewSecureRequest (SP := ChoriaSecurity (demo_config "token-bob")) (demo_request_of "choria=bob") = Ok r ∧
  NewTransportForSecureRequest "client" r = Ok m ∧
  NewSecureRequestFromTransport (SP := ChoriaSecurity (demo_config "token-srv")) m false = Ok r ∧
  NewRequestFromSecureRequest r = Ok demo_accepted.
Proof.
  apply (signed_request_roundtrip (demo_config "token-bob") (demo_config "token-srv") "client"
    (demo_request_of "choria=bob") demo_seed "token-bob" "issuer"
    (demo_claims "choria=bob" (demo_perms true false false))); try done.
  - apply demo_request_travels.
  - intros r Hr. vm_compute in Hr. injection Hr as <-. eexists. split; [vm_compute; reflexivity|].
    split; [done|vm_compute; reflexivity].
Defined.

Definition demo_reply : Reply :=
  {| rp_Type := V2; rp_Protocol := ReplyV2; rp_MessageBody := "pong"; rp_Request := "42"; rp_Sender := "node1";
     rp_SendingAgent := "rpcutil"; rp_TimeStamp := 0; rp_seenBy := []; rp_federation := None |}.

(** A reply no server signed. *)
Definition demo_forged : SecureReply :=
  {| sp_Type := V2; sp_Protocol := SecureReplyV2; sp_MessageBody := "anything";
     sp_Hash := b64_encode "anything"; sp_Signature := "not a signature"; sp_SenderJWT := "not a token" |}.

Definition demo_forged_transport : TransportMessage :=
  {| tm_Type := V2; tm_Protocol := TransportV2; tm_Data := default "" (secure_reply_Marshal demo_forged);
     tm_Headers := None |}.

Lemma reply_signature_is_not_checked_witness :
  NewSecureReplyFromTransport (SP := ChoriaSecurity (demo_config "token-bob"))
    demo_forged_transport false = Ok demo_forged.
Proof.
  rewrite (reply_signature_is_not_checked (SP := ChoriaSecurity (demo_config "token-bob"))
    demo_forged_transport demo_forged); [vm_compute; reflexivity|done..].
Defined.

Definition demo_secure_reply : SecureReply :=
  match NewSecureReply (SP := ChoriaSecurity (demo_config "token-bob")) demo_reply with
  | Ok r => r | _ => demo_forged end.

Lemma reply_roundtrip_witness : ∃ m,
  NewTransportForSecureReply "node1" demo_secure_reply = Ok m ∧
  NewSecureReplyFromTransport (SP := ChoriaSecurity (demo_config "token-bob")) m false
    = Ok demo_secure_reply ∧
  NewReplyFromSecureReply demo_secure_reply = Ok demo_reply.
Proof.
  apply (reply_roundtrip (SP := ChoriaSecurity (demo_config "token-bob")) "node1"
    demo_reply demo_secure_reply (default "" (demo_reply_marshal demo_reply))
    (default "" (demo_secure_reply_marshal demo_secure_reply))); try done;
    vm_compute; reflexivity.
Defined.
