(* ===== verification/Federation.v ===== *)
(** * The federation broker

    broker/federation: the workers that take messages from one network, rewrite
    their headers and publish them on the other, and the channels between them.
    A handler answers what it sends on, [None] when it drops the message. *)
From S2P Require Import Prelude GoLib Util Transport.

Record chainmessage := {
  cm_Targets : list string;
  cm_RequestID : string;
  cm_Message : TransportMessage;
  cm_Seen : list string;
}.

Inductive mode := Unconnected | FederationMode | Collective.

(** The subject and queue group an ingest worker listens on. *)
Definition ingest_subject (m : mode) (broker : string) : string * string :=
  match m with
  | FederationMode => ("choria.federation." +:+ broker +:+ ".federation", broker +:+ "_federation")
  | Collective => ("choria.federation." +:+ broker +:+ ".collective", broker +:+ "_collective")
  | Unconnected => ("", "")
  end.

Definition worker_id (name : string) (i : nat) : string := name +:+ ":" +:+ itoa (Z.of_nat i).

Section Handlers.
Context `{TransportJSON}.

(** [NewChoriaNatsIngest], worker [i] on [server]. *)
Definition ingest_handler (server : string) (i : nat) (data : string) : res (option chainmessage) :=
  match NewTransportFromJSON data with
  | Err _ => Ok None
  | Panic p => Panic p
  | Ok message =>
      reqid ← FederationRequestID message;
      match reqid with
      | None => Ok None
      | Some reqid =>
          Ok (Some {| cm_Targets := []; cm_RequestID := reqid; cm_Message := message;
                      cm_Seen := [server; worker_id "choria_nats_ingest" i] |})
      end
  end.

(** [NewChoriaRequestTransformer] *)
Definition request_transformer (broker : string) (i : nat) (cm : chainmessage) :
    res (option chainmessage) :=
  req ← FederationRequestID (cm_Message cm);
  match req with
  | None => Ok None
  | Some req =>
      targets ← FederationTargets (cm_Message cm);
      let targets := default [] targets in
      if Nat.eqb (length targets) 0 then Ok None
      else
        replyto ← ReplyTo (cm_Message cm);
        if String.eqb replyto "" then Ok None
        else
          m ← SetFederationTargets [] (cm_Message cm);
          m ← SetFederationReplyTo replyto m;
          m ← SetReplyTo ("choria.federation." +:+ broker +:+ ".collective") m;
          Ok (Some {| cm_Targets := targets; cm_RequestID := req; cm_Message := m;
                      cm_Seen := cm_Seen cm ++ [worker_id "choria_request_transformer" i] |})
  end.

(** [NewChoriaReplyTransformer] *)
Definition reply_transformer (i : nat) (cm : chainmessage) : res (option chainmessage) :=
  req ← FederationRequestID (cm_Message cm);
  match req with
  | None => Ok None
  | Some req =>
      replyto ← FederationReplyTo (cm_Message cm);
      let replyto := default "" replyto in
      if String.eqb replyto "" then Ok None
      else
        m ← SetUnfederated (cm_Message cm);
        Ok (Some {| cm_Targets := [replyto]; cm_RequestID := req; cm_Message := m;
                    cm_Seen := cm_Seen cm ++ [worker_id "choria_reply_transformer" i] |})
  end.

(** The hop [NewChoriaNatsEgest] records. *)
Definition network_hop (identity : string) (seen : list string) : option hop :=
  if Nat.leb 3 (length seen)
  then Some (default "" (head seen),
             identity +:+ " (" +:+ join (take (length seen - 2) (tail seen)) ", " +:+ ")",
             default "" (last seen))
  else None.

(** [NewChoriaNatsEgest]: what is published, the targets and the message. *)
Definition egest_handler (identity server : string) (i : nat) (pub_ok : string → bool)
    (cm : chainmessage) : res (list (string * TransportMessage)) :=
  if Nat.eqb (length (cm_Targets cm)) 0 then Ok []
  else
    let seen := cm_Seen cm ++ [worker_id "choria_nats_egest" i; server] in
    m ← (match network_hop identity seen with
         | Some h => RecordNetworkHop h (cm_Message cm)
         | None => Ok (cm_Message cm)
         end);
    match transport_JSON m with
    | Err _ => Ok []
    | Panic p => Panic p
    | Ok _ => Ok (map (λ t, (t, m)) (List.filter pub_ok (cm_Targets cm)))
    end.

(** The way of one message through the three workers of a direction. *)
Definition forward (transform : chainmessage → res (option chainmessage)) (identity in_server out_server : string)
    (i j : nat) (data : string) : res (list (string * TransportMessage)) :=
  cm ← ingest_handler in_server i data;
  match cm with
  | None => Ok []
  | Some cm =>
      cm ← transform cm;
      match cm with
      | None => Ok []
      | Some cm => egest_handler identity out_server j (λ _, true) cm
      end
  end.

(** ** The channels *)

(** One direction of the broker: what was received and not yet read, the channels
    of the transformer and of the egest workers, and what was published. *)
Record chain := {
  ch_received : list string;
  ch_transform : list chainmessage;
  ch_egest : list chainmessage;
  ch_published : list (string * TransportMessage);
}.

Definition transform_capacity : Z := 1000.
Definition egest_capacity : Z := 10000.

Definition opt_list {A} (o : option A) : list A := match o with Some a => [a] | None => [] end.

(** The directions of [FederationBroker.Start]: requests from the federation and
    replies from the collective, each with its transformer. *)
Inductive direction := Requests | Replies.

Definition transformer (broker : string) (d : direction) : nat → chainmessage → res (option chainmessage) :=
  match d with
  | Requests => request_transformer broker
  | Replies => reply_transformer
  end.

(** Any worker of a kind takes the oldest message of its channel and sends on what
    its handler answers, when there is room; messages are received in any order.
    [fails] is whether publishing can fail. *)
Inductive chain_step (broker identity : string) (d : direction) (fails : bool) : chain → chain → Prop :=
| step_ingest c l1 data l2 server i r : ch_received c = l1 ++ data :: l2 →
    (Z.of_nat (length (ch_transform c)) < transform_capacity)%Z → ingest_handler server i data = Ok r →
    chain_step broker identity d fails c
      {| ch_received := l1 ++ l2; ch_transform := ch_transform c ++ opt_list r;
         ch_egest := ch_egest c; ch_published := ch_published c |}
| step_transform c cm q i r : ch_transform c = cm :: q →
    (Z.of_nat (length (ch_egest c)) < egest_capacity)%Z → transformer broker d i cm = Ok r →
    chain_step broker identity d fails c
      {| ch_received := ch_received c; ch_transform := q;
         ch_egest := ch_egest c ++ opt_list r; ch_published := ch_published c |}
| step_egest c cm q server i pub_ok l : ch_egest c = cm :: q →
    (fails = false → ∀ t, pub_ok t = true) → egest_handler identity server i pub_ok cm = Ok l →
    chain_step broker identity d fails c
      {| ch_received := ch_received c; ch_transform := ch_transform c; ch_egest := q;
         ch_published := ch_published c ++ l |}.

Definition new_chain (received : list string) : chain :=
  {| ch_received := received; ch_transform := []; ch_egest := []; ch_published := [] |}.

End Handlers.

(** * Federation: properties

    What is copied between messages, the way of a request and its reply through a
    broker, and what its channels keep. *)
From S2P Require Import SecureMessages DemoJSON.

(** ** The way of a message *)

Section Handlers.
Context `{TJ : TransportJSON}.


Lemma ingest_spec server i data m h f : NewTransportFromJSON data = Ok m → tm_Headers m = Some h →
  th_Federation h = Some f →
  ingest_handler server i data =
    Ok (Some {| cm_Targets := []; cm_RequestID := ft_RequestID f; cm_Message := m;
                cm_Seen := [server; worker_id "choria_nats_ingest" i] |}).
Proof.
  intros Hd Hh Hf. unfold ingest_handler. rewrite Hd. cbn. unfold read_view, tm_get. rewrite Hh. cbn.
  by rewrite Hf.
Qed.

(** The request a broker passes on. *)
Definition forwarded_request (broker : string) (m : TransportMessage) (h : TransportHeaders)
    (f : FederationTransportHeader) : TransportMessage :=
  {| tm_Type := tm_Type m; tm_Protocol := tm_Protocol m; tm_Data := tm_Data m;
     tm_Headers := Some {| th_ReplyTo := "choria.federation." +:+ broker +:+ ".collective";
                           th_Sender := th_Sender h; th_SeenBy := th_SeenBy h;
                           th_Federation := Some {| ft_RequestID := ft_RequestID f;
                                                    ft_ReplyTo := th_ReplyTo h; ft_Targets := [] |} |} |}.

Lemma request_transformer_spec broker i cm h f : tm_Headers (cm_Message cm) = Some h →
  th_Federation h = Some f →
  request_transformer broker i cm =
    Ok (if Nat.eqb (length (ft_Targets f)) 0 || String.eqb (th_ReplyTo h) "" then None
        else Some {| cm_Targets := ft_Targets f; cm_RequestID := ft_RequestID f;
                     cm_Message := forwarded_request broker (cm_Message cm) h f;
                     cm_Seen := cm_Seen cm ++ [worker_id "choria_request_transformer" i] |}).
Proof.
  destruct cm as [ts rid [p d hd] seen], h as [r s sb fd]. cbn. intros -> ->.
  unfold request_transformer. cbn. destruct (Nat.eqb _ 0); [done|]. cbn. by destruct (String.eqb _ "").
Qed.

(** The reply a broker passes on. *)
Definition forwarded_reply (m : TransportMessage) (h : TransportHeaders) : TransportMessage :=
  {| tm_Type := tm_Type m; tm_Protocol := tm_Protocol m; tm_Data := tm_Data m;
     tm_Headers := Some {| th_ReplyTo := th_ReplyTo h; th_Sender := th_Sender h; th_SeenBy := th_SeenBy h;
                           th_Federation := None |} |}.

Lemma reply_transformer_spec i cm h f : tm_Headers (cm_Message cm) = Some h →
  th_Federation h = Some f →
  reply_transformer i cm =
    Ok (if String.eqb (ft_ReplyTo f) "" then None
        else Some {| cm_Targets := [ft_ReplyTo f]; cm_RequestID := ft_RequestID f;
                     cm_Message := forwarded_reply (cm_Message cm) h;
                     cm_Seen := cm_Seen cm ++ [worker_id "choria_reply_transformer" i] |}).
Proof.
  destruct cm as [ts rid [p d hd] seen], h as [r s sb fd]. cbn. intros -> ->.
  unfold reply_transformer. cbn. by destruct (String.eqb _ "").
Qed.

(** A message with one more hop. *)
Definition add_hops (hs : list hop) (m : TransportMessage) : TransportMessage :=
  tm_update (λ h, {| th_ReplyTo := th_ReplyTo h; th_Sender := th_Sender h; th_SeenBy := th_SeenBy h ++ hs;
                     th_Federation := th_Federation h |}) m.

Lemma egest_spec identity server i pub_ok cm h : tm_Headers (cm_Message cm) = Some h →
  ∃ hs, egest_handler identity server i pub_ok cm =
    if Nat.eqb (length (cm_Targets cm)) 0 then Ok []
    else match transport_JSON (add_hops hs (cm_Message cm)) with
         | Ok _ => Ok (map (λ t, (t, add_hops hs (cm_Message cm))) (List.filter pub_ok (cm_Targets cm)))
         | Err _ => Ok []
         | Panic p => Panic p
         end.
Proof.
  intros Hh. unfold egest_handler.
  exists (opt_list (network_hop identity (cm_Seen cm ++ [worker_id "choria_nats_egest" i; server]))).
  destruct (Nat.eqb _ 0); [done|].
  assert (match network_hop identity (cm_Seen cm ++ [worker_id "choria_nats_egest" i; server]) with
          | Some x => RecordNetworkHop x (cm_Message cm)
          | None => Ok (cm_Message cm) end =
          Ok (add_hops (opt_list (network_hop identity (cm_Seen cm ++ [worker_id "choria_nats_egest" i; server])))
                (cm_Message cm))) as ->.
  { destruct (network_hop _ _) as [x|]; cbn.
    - unfold write_view, tm_get. rewrite Hh. cbn. unfold tm_set, add_hops, tm_update. by rewrite Hh.
    - unfold add_hops, tm_update. destruct (cm_Message cm) as [p d hd]. simpl in *. rewrite Hh. simpl.
      by destruct h as [r s sb fd]; rewrite app_nil_r. }
  unfold mbind, outcome_bind. done.
Qed.

Lemma filter_all_true {A} (l : list A) : List.filter (λ _, true) l = l.
Proof. induction l as [|x l IH]; [done|]. simpl. by rewrite IH. Qed.

Lemma egest_all identity server i cm : (∀ m, is_ok (transport_JSON m) = true) →
  is_Some (tm_Headers (cm_Message cm)) →
  ∃ hs, egest_handler identity server i (λ _, true) cm =
    Ok (map (λ t, (t, add_hops hs (cm_Message cm))) (cm_Targets cm)).
Proof.
  intros Hj [h Hh]. destruct (egest_spec identity server i (λ _, true) cm h Hh) as (hs & ->). exists hs.
  destruct (Nat.eqb_spec (length (cm_Targets cm)) 0) as [Hn|_]; [by destruct (cm_Targets cm)|].
  specialize (Hj (add_hops hs (cm_Message cm))). destruct (transport_JSON _); [|done..].
  by rewrite filter_all_true.
Qed.

(** ** What a broker owes *)

(** A message without its trace. *)
Definition erase (m : TransportMessage) : TransportMessage :=
  tm_update (λ h, {| th_ReplyTo := th_ReplyTo h; th_Sender := th_Sender h; th_SeenBy := [];
                     th_Federation := th_Federation h |}) m.

(** What is to be published for a message: a federated request to each of its
    targets, with the broker to reply to; a federated reply to the one who asked. *)
Definition message_due (broker : string) (d : direction) (m : TransportMessage) :
    list (string * TransportMessage) :=
  match tm_Headers m with
  | Some h =>
      match th_Federation h, d with
      | None, _ => []
      | Some f, Requests =>
          if String.eqb (th_ReplyTo h) "" then []
          else map (λ t, (t, erase (forwarded_request broker m h f))) (ft_Targets f)
      | Some f, Replies =>
          if String.eqb (ft_ReplyTo f) "" then [] else [(ft_ReplyTo f, erase (forwarded_reply m h))]
      end
  | None => []
  end.

Definition due (broker : string) (d : direction) (data : string) : list (string * TransportMessage) :=
  match NewTransportFromJSON data with
  | Ok m => message_due broker d m
  | _ => []
  end.

Definition egest_due (cm : chainmessage) : list (string * TransportMessage) :=
  map (λ t, (t, erase (cm_Message cm))) (cm_Targets cm).

Definition federated (cm : chainmessage) : Prop :=
  ∃ h f, tm_Headers (cm_Message cm) = Some h ∧ th_Federation h = Some f.

Definition has_headers (cm : chainmessage) : Prop := is_Some (tm_Headers (cm_Message cm)).

Lemma erase_add_hops hs m : erase (add_hops hs m) = erase m.
Proof. unfold erase, add_hops, tm_update. by destruct m as [y p d [h|]]. Qed.

Lemma ingest_due server i data r broker d : ingest_handler server i data = Ok r →
  Forall federated (opt_list r) ∧
  concat (map (λ cm, message_due broker d (cm_Message cm)) (opt_list r)) = due broker d data.
Proof.
  unfold ingest_handler, due. destruct (NewTransportFromJSON data) as [m|e|p]; [|by intros [= <-]|done].
  cbn. unfold read_view, tm_get. destruct (tm_Headers m) as [h|] eqn:Hh; [|done]. cbn.
  destruct (th_Federation h) as [f|] eqn:Hf; cbn; intros [= <-]; cbn.
  - split; [|by rewrite app_nil_r]. constructor; [|constructor]. by exists h, f.
  - split; [constructor|]. unfold message_due. by rewrite Hh, Hf.
Qed.

Lemma transform_due broker d i cm r : federated cm → transformer broker d i cm = Ok r →
  Forall has_headers (opt_list r) ∧ concat (map egest_due (opt_list r)) = message_due broker d (cm_Message cm).
Proof.
  intros (h & f & Hh & Hf). unfold message_due. rewrite Hh, Hf. destruct d; cbn [transformer].
  - rewrite (request_transformer_spec broker i cm h f Hh Hf). intros [= <-].
    destruct (ft_Targets f) as [|t ts] eqn:Ht; cbn; [split; [constructor|]; by destruct (String.eqb _ _)|].
    destruct (String.eqb _ _); cbn; [by split; [constructor|]|].
    split; [constructor; [by eexists|constructor]|]. by rewrite app_nil_r.
  - rewrite (reply_transformer_spec i cm h f Hh Hf). intros [= <-].
    destruct (String.eqb _ _); cbn; [by split; [constructor|]|].
    by split; [constructor; [by eexists|constructor]|].
Qed.

(** What egest publishes is part of what is due, and all of it when nothing fails. *)
Lemma egest_published identity server i pub_ok cm l : has_headers cm →
  egest_handler identity server i pub_ok cm = Ok l →
  ∃ lost, Permutation (egest_due cm) (map (λ x, (x.1, erase x.2)) l ++ lost) ∧
    ((∀ t, pub_ok t = true) → (∀ m, is_ok (transport_JSON m) = true) → lost = []).
Proof.
  intros [h Hh] He. destruct (egest_spec identity server i pub_ok cm h Hh) as (hs & Heq). rewrite Heq in He.
  unfold egest_due. destruct (Nat.eqb_spec (length (cm_Targets cm)) 0) as [Hn|_].
  - injection He as <-. destruct (cm_Targets cm); [by exists []|done].
  - destruct (transport_JSON _) as [j|e|p] eqn:Hj; [|..|done].
    + injection He as <-. rewrite map_map. cbn. rewrite erase_add_hops.
      exists (map (λ t, (t, erase (cm_Message cm))) (List.filter (λ t, negb (pub_ok t)) (cm_Targets cm))).
      rewrite <- map_app. split.
      * apply Permutation_map. generalize (cm_Targets cm). intros ts. induction ts as [|t ts IH]; [done|]. simpl.
        destruct (pub_ok t); simpl; [by constructor|]. rewrite <- Permutation_middle. by constructor.
      * intros Hok _. generalize (cm_Targets cm). intros ts. induction ts as [|t ts IH]; [done|]. simpl.
        by rewrite Hok.
    + injection He as <-. eexists. split; [cbn; reflexivity|]. intros _ Hok. specialize (Hok (add_hops hs (cm_Message cm))).
      by rewrite Hj in Hok.
Qed.

(** What was received is published, lost or on its way. *)
Definition chain_inv (broker : string) (d : direction) (fails : bool) (received : list string) (c : chain) : Prop :=
  Forall federated (ch_transform c) ∧ Forall has_headers (ch_egest c) ∧
  ∃ lost, Permutation (concat (map (due broker d) received))
    (concat (map (due broker d) (ch_received c)) ++
     concat (map (λ cm, message_due broker d (cm_Message cm)) (ch_transform c)) ++
     concat (map egest_due (ch_egest c)) ++ map (λ x, (x.1, erase x.2)) (ch_published c) ++ lost) ∧
    (fails = false → (∀ m, is_ok (transport_JSON m) = true) → lost = []).

Lemma chain_inv_step broker identity d fails received c c' :
  chain_step broker identity d fails c c' → chain_inv broker d fails received c → chain_inv broker d fails received c'.
Proof.
  intros Hstep (Ht & He & lost & Hp & Hl).
  destruct Hstep as [c l1 data l2 server i r Hr _ Hi|c cm q i r Hq _ Htr|c cm q server i pub_ok l Hq Hok Heg].
  - destruct (ingest_due server i data r broker d Hi) as [Hfed Hdue]. split_and!; cbn.
    + by apply Forall_app.
    + done.
    + exists lost. split; [|done]. rewrite Hp, Hr, map_app, concat_app. cbn. rewrite <- Hdue, !map_app, !concat_app.
      solve_Permutation.
  - rewrite Hq in Ht. apply Forall_cons in Ht as [Hfed Ht].
    destruct (transform_due broker d i cm r Hfed Htr) as [Hh Hdue]. split_and!; cbn.
    + done.
    + by apply Forall_app.
    + exists lost. split; [|done]. rewrite Hp, Hq. cbn. rewrite <- Hdue, !map_app, !concat_app.
      solve_Permutation.
  - rewrite Hq in He. apply Forall_cons in He as [Hh He].
    destruct (egest_published identity server i pub_ok cm l Hh Heg) as (lost' & Hdue & Hlost). split_and!; cbn.
    + done.
    + done.
    + exists (lost' ++ lost). split; [|].
      * rewrite Hp, Hq. cbn. rewrite Hdue, map_app. solve_Permutation.
      * intros Hf Hj. by rewrite Hlost, Hl by auto.
Qed.

Lemma chain_inv_reachable broker identity d fails received c :
  rtc (chain_step broker identity d fails) (new_chain received) c → chain_inv broker d fails received c.
Proof.
  intros Hr. assert (chain_inv broker d fails received (new_chain received)) as H0.
  { split; [constructor|]. split; [constructor|]. exists []. split; [|done]. cbn. by rewrite !app_nil_r. }
  revert Hr H0. generalize (new_chain received) as c0. intros c0 Hr H0.
  induction Hr as [|c1 c2 c3 Hs _ IH]; [done|]. by eapply IH, chain_inv_step.
Qed.

End Handlers.

(** ** A small encoding, for the witnesses *)

Definition demo_transport (reply sender data : string) (hops : list hop) (fed_reply : string)
    (targets : list string) : TransportMessage :=
  {| tm_Type := V2; tm_Protocol := TransportV2; tm_Data := data;
     tm_Headers := Some {| th_ReplyTo := reply; th_Sender := sender; th_SeenBy := hops;
       th_Federation := Some {| ft_RequestID := "42"; ft_ReplyTo := fed_reply; ft_Targets := targets |} |} |}.

Definition demo_hop : hop :=
  ("nats1", "broker1 (choria_nats_ingest:0, choria_request_transformer:0, choria_nats_egest:0)", "nats2").

(** What a broker receives: a federated request, the reply of a server to it and a
    message with null headers. *)
Definition demo_encode (m : TransportMessage) : string := default "" (transport_Marshal m).

Definition demo_request_transport : TransportMessage :=
  demo_transport "reply.bob" "bob" "ping" [] "" ["node.a"; "node.b"].
Definition demo_null_transport : TransportMessage :=
  {| tm_Type := V2; tm_Protocol := TransportV2; tm_Data := ""; tm_Headers := None |}.

Definition demo_request : Request :=
  NewRequest V2 0 "rpcutil" "client" "choria=bob" 60 "42" "mcollective".

(** ** Federation *)

(** A new transport is not federated. *)
Lemma transport_for_secure_reply_view `{TJ : TransportJSON} `{MJ : MessageJSON} identity sr t :
  NewTransportForSecureReply identity sr = Ok t → view t = Ok (None, []).
Proof.
  unfold NewTransportForSecureReply, mbind, outcome_bind, NewTransportMessage, SetSender, with_headers.
  destruct (String.eqb _ SecureReplyV1); [|destruct (String.eqb _ SecureReplyV2); [|done]]; cbn [tm_Headers];
    destruct (secure_reply_JSON sr); intros [= <-]; done.
Qed.

(** What a server answers to a request of a broker. *)
Lemma reply_transport_spec `{TJ : TransportJSON} `{MJ : MessageJSON} `{SP : SecurityProvider}
    now identity payload t h rq0 rq rt :
  tm_Headers t = Some h → CopyFederationData t rq0 = Ok rq →
  NewReplyTransportForMessage now identity payload rq = Ok rt →
  ∃ h', tm_Headers rt = Some h' ∧ th_Federation h' = th_Federation h.
Proof.
  intros Hh Hc.
  assert (view t = Ok (th_Federation h, th_SeenBy h)) as Hv by (cbn; unfold tm_get; by rewrite Hh).
  assert (∀ r : Request, view r = Ok (rq_federation r, rq_seenBy r)) as Hrv by done.
  rewrite (copy_federation_spec t rq0 _ _ Hv (Hrv rq0)) in Hc.
  injection Hc as <-. unfold NewReplyTransportForMessage, mbind, outcome_bind.
  destruct (NewReply _ _ _) as [rep|e|p]; [|done..]. cbn [map_err].
  destruct (NewSecureReply _) as [sr|e|p]; [|done..]. cbn [map_err].
  destruct (NewTransportForSecureReply _ _) as [tr|e|p] eqn:Htr; [|done..]. cbn [map_err].
  apply transport_for_secure_reply_view in Htr.
  match goal with |- CopyFederationData ?r _ = _ → _ => rewrite (copy_federation_spec r tr _ _ (Hrv r) Htr) end.
  intros [= <-]. unfold view, TransportMessage_lawful, tm_get in Htr.
  destruct (tm_Headers tr) as [ht|] eqn:Hht; [|done]. cbn. unfold tm_set, tm_update. rewrite Hht. by eexists.
Qed.

(** A federated request reaches exactly its targets and the reply exactly the one
    who asked.  The broker publishes a request with targets and a reply-to once to
    each target, its data unchanged and its reply-to the broker's own subject; when a
    server answers it with the federation data of the request, the broker publishes
    that reply once, to the reply-to of the original request, its data unchanged and
    no longer federated. *)
Theorem federated_roundtrip `{TJ : TransportJSON} `{MJ : MessageJSON} `{SP : SecurityProvider} broker identity s1 s2 i j data m h f published
    t t1 rq0 rq now server payload rt data' :
  (∀ m, is_ok (transport_JSON m) = true) →
  NewTransportFromJSON data = Ok m → tm_Headers m = Some h → th_Federation h = Some f →
  ft_Targets f ≠ [] → th_ReplyTo h ≠ "" →
  forward (request_transformer broker i) identity s1 s2 i j data = Ok published → (t, t1) ∈ published →
  CopyFederationData t1 rq0 = Ok rq →
  NewReplyTransportForMessage now server payload rq = Ok rt → NewTransportFromJSON data' = Ok rt →
  map fst published = ft_Targets f ∧ tm_Data t1 = tm_Data m ∧
  ReplyTo t1 = Ok (ingest_subject Collective broker).1 ∧
  ∃ t2, forward (reply_transformer i) identity s2 s1 i j data' = Ok [(th_ReplyTo h, t2)] ∧
    tm_Data t2 = tm_Data rt ∧ IsFederated t2 = Ok false.
Proof.
  intros Hj Hd Hh Hf Hts Hr Hfw Hin Hc Hrt Hd'. unfold forward, mbind, outcome_bind in Hfw.
  rewrite (ingest_spec s1 i data m h f Hd Hh Hf) in Hfw.
  erewrite request_transformer_spec in Hfw; [|exact Hh|exact Hf].
  assert (Nat.eqb (length (ft_Targets f)) 0 = false) as Hn by (by destruct (ft_Targets f)).
  assert (String.eqb (th_ReplyTo h) "" = false) as Hrs by (by apply String.eqb_neq).
  rewrite Hn, Hrs in Hfw. cbn [orb] in Hfw.
  match type of Hfw with egest_handler _ _ _ _ ?cm = _ =>
    destruct (egest_all identity s2 j cm Hj) as (hs & He); [by eexists|rewrite He in Hfw] end.
  injection Hfw as <-. apply list_elem_of_fmap in Hin as (x & [= -> ->] & Hx).
  split; [by rewrite map_map, map_id|]. split; [done|]. split; [done|].
  edestruct reply_transport_spec as (h' & Hh' & Hf'); [|exact Hc|exact Hrt|]; [reflexivity|].
  unfold forward, mbind, outcome_bind. rewrite (ingest_spec s2 i data' rt h' _ Hd' Hh' Hf').
  erewrite reply_transformer_spec; [|exact Hh'|exact Hf']. cbn [ft_ReplyTo]. rewrite Hrs.
  match goal with |- context [egest_handler _ _ _ _ ?cm] =>
    destruct (egest_all identity s1 j cm Hj) as (hs' & He'); [by eexists|rewrite He'] end.
  eexists. split; [reflexivity|]. done.
Qed.

Definition demo_published : list (string * TransportMessage) :=
  match forward (request_transformer "fed" 0) "broker1" "nats1" "nats2" 0 0 (demo_encode demo_request_transport)
  with Ok l => l | _ => [] end.

Definition demo_request_sent : TransportMessage :=
  default (demo_transport "" "" "" [] "" []) (snd <$> head demo_published).

(** The request a server makes of it, and its reply. *)
Definition demo_request_received : Request :=
  match CopyFederationData demo_request_sent demo_request with Ok rq => rq | _ => demo_request end.

Definition demo_reply_transport : TransportMessage :=
  match NewReplyTransportForMessage 0 "a" "pong" demo_request_received with
  | Ok rt => rt | _ => demo_null_transport end.

Definition demo_federation : FederationTransportHeader :=
  {| ft_RequestID := "42"; ft_ReplyTo := ""; ft_Targets := ["node.a"; "node.b"] |}.

Lemma federated_roundtrip_witness :
  map fst demo_published = ["node.a"; "node.b"] ∧
  ReplyTo demo_request_sent = Ok "choria.federation.fed.collective" ∧
  ∃ t2, forward (reply_transformer 0) "broker1" "nats2" "nats1" 0 0 (demo_encode demo_reply_transport)
          = Ok [("reply.bob", t2)] ∧
    tm_Data t2 = tm_Data demo_reply_transport ∧ IsFederated t2 = Ok false.
Proof.
  destruct (federated_roundtrip "fed" "broker1" "nats1" "nats2" 0 0 (demo_encode demo_request_transport)
    demo_request_transport
    {| th_ReplyTo := "reply.bob"; th_Sender := "bob"; th_SeenBy := []; th_Federation := Some demo_federation |}
    demo_federation demo_published "node.a"
    demo_request_sent demo_request demo_request_received 0 "a" "pong" demo_reply_transport
    (demo_encode demo_reply_transport)) as (H1 & _ & H2 & t2 & H3 & H4 & H5);
    [done|vm_compute; reflexivity|reflexivity|reflexivity|discriminate|discriminate
    |vm_compute; reflexivity|vm_compute; by apply elem_of_cons; left|vm_compute; reflexivity
    |vm_compute; reflexivity|vm_compute; reflexivity|].
  split; [exact H1|]. split; [exact H2|]. exists t2. split; [exact H3|]. split; [exact H4|exact H5].
Defined.

(** C6. Whatever the order in which the workers of a broker act, what it publishes,
    traces apart, is among what is due for the messages it received, each message at
    most once to each of its targets; and when no publish fails and its channels are
    empty it is exactly that. *)
Theorem broker_conserves `{TJ : TransportJSON} broker identity d fails received c :
  rtc (chain_step broker identity d fails) (new_chain received) c →
  let published := map (λ x, (x.1, erase x.2)) (ch_published c) in
  let owed := concat (map (due broker d) received) in
  published ⊆+ owed ∧
  (fails = false → (∀ m, is_ok (transport_JSON m) = true) →
   ch_received c = [] → ch_transform c = [] → ch_egest c = [] → Permutation published owed).
Proof.
  intros Hr published owed.
  destruct (chain_inv_reachable broker identity d fails received c Hr) as (_ & _ & lost & Hp & Hl). split.
  - unfold published, owed. rewrite Hp. solve_submseteq.
  - intros Hf Hj H1 H2 H3. unfold owed. rewrite Hp, H1, H2, H3, Hl by done. cbn. by rewrite app_nil_r.
Qed.

Lemma broker_conserves_witness :
  ∃ c, rtc (chain_step "fed" "broker1" Requests false) (new_chain [demo_encode demo_request_transport]) c ∧
    map fst (ch_published c) = ["node.a"; "node.b"] ∧
    Permutation (map (λ x, (x.1, erase x.2)) (ch_published c)) (concat (map (due "fed" Requests) [demo_encode demo_request_transport])).
Proof.
  assert (∃ c, rtc (chain_step "fed" "broker1" Requests false) (new_chain [demo_encode demo_request_transport]) c ∧
    map fst (ch_published c) = ["node.a"; "node.b"] ∧ ch_received c = [] ∧ ch_transform c = [] ∧ ch_egest c = [])
    as (c & Hr & Hp & H1 & H2 & H3).
  { eexists. split.
    - eapply rtc_l; [eapply (step_ingest _ _ _ _ _ [] (demo_encode demo_request_transport) [] "nats1" 0); [reflexivity|done|vm_compute; reflexivity]|].
      eapply rtc_l; [eapply (step_transform _ _ _ _ _ _ [] 0); [reflexivity|done|vm_compute; reflexivity]|].
      eapply rtc_l; [eapply (step_egest _ _ _ _ _ _ [] "nats2" 0 (λ _, true)); [reflexivity|done|vm_compute; reflexivity]|].
      apply rtc_refl.
    - split_and!; reflexivity. }
  exists c. split; [exact Hr|]. split; [exact Hp|].
  destruct (broker_conserves "fed" "broker1" Requests false [demo_encode demo_request_transport] c Hr) as [_ H].
  by apply H.
Defined.

(** A message whose headers are null is a valid transport message, and the first
    method that reads its headers panics: an ingest worker of a broker, a server that
    copies the federation data of such a request and a client that does so of such a
    reply do not survive it. *)
Theorem null_headers_panic `{TJ : TransportJSON} `{LawfulFederable M} data m server i (to : M) :
  NewTransportFromJSON data = Ok m → tm_Headers m = None →
  is_panic (ingest_handler server i data) = true ∧ is_panic (CopyFederationData m to) = true ∧
  is_panic (ReplyTo m) = true.
Proof.
  intros Hd Hh. unfold ingest_handler, CopyFederationData, ReplyTo, with_headers. rewrite Hd. cbn.
  unfold read_view, tm_get. by rewrite Hh.
Qed.

Lemma null_headers_panic_witness :
  ingest_handler "nats1" 0 (demo_encode demo_null_transport) = Panic "invalid memory address or nil pointer dereference" ∧
  is_panic (CopyFederationData demo_null_transport demo_request) = true.
Proof.
  split; [vm_compute; reflexivity|].
  apply (null_headers_panic (demo_encode demo_null_transport) _ "nats1" 0 demo_request); vm_compute; reflexivity.
Defined.
