(* ===== verification/Connection.v ===== *)
(** * Publishing messages

    choria/connection.go: the subjects a message is published to and what is
    published, directly to the collective or through federation brokers.  [pub_ok]
    is whether the network takes a message. *)
From S2P Require Import Prelude GoLib Util Transport.

Inductive message_type := RequestType | DirectRequestType | ServiceRequestType | ReplyType | OtherType.

(** What the connection asks of a message. *)
Record OutMessage := {
  msg_Type : message_type;
  msg_Collective : string;
  msg_Agent : string;
  msg_RequestID : string;
  msg_ReplyTo : string;
  msg_CustomTarget : string;
  msg_DiscoveredHosts : list string;
}.

Definition NodeDirectedTarget (collective identity : string) : string :=
  collective +:+ ".node." +:+ identity.
Definition AgentBroadcastTarget (collective agent : string) : string :=
  collective +:+ ".broadcast.agent." +:+ agent.
Definition ServiceBroadcastTarget (collective agent : string) : string :=
  collective +:+ ".broadcast.service." +:+ agent.
Definition federationTarget (federation side : string) : string :=
  "choria.federation." +:+ federation +:+ "." +:+ side.

Definition TargetForMessage (msg : OutMessage) (identity : string) : res string :=
  if negb (String.eqb (msg_CustomTarget msg) "") then Ok (msg_CustomTarget msg)
  else
    match msg_Type msg with
    | ReplyType =>
        if String.eqb (msg_ReplyTo msg) ""
        then Err "do not know how to reply, no reply-to header has been set on message"
        else Ok (msg_ReplyTo msg)
    | RequestType => Ok (AgentBroadcastTarget (msg_Collective msg) (msg_Agent msg))
    | ServiceRequestType => Ok (ServiceBroadcastTarget (msg_Collective msg) (msg_Agent msg))
    | DirectRequestType => Ok (NodeDirectedTarget (msg_Collective msg) identity)
    | OtherType => Err "do not know how to determine the target for Message"
    end.

(** The transport that is published, which the calls change, and what was published. *)
Record pub_state := {
  ps_transport : TransportMessage;
  ps_published : list (string * TransportMessage);
}.

Abbreviation PubM := (ST pub_state string).

Section Connection.
Context `{TransportJSON}.
Variable pub_ok : string → TransportMessage → bool.
(** [conn.fw.FederationCollectives()] *)
Variable federations : list string.

Definition on_transport (f : TransportMessage → res TransportMessage) : PubM () := λ s,
  match f (ps_transport s) with
  | Ok t => ({| ps_transport := t; ps_published := ps_published s |}, Ok tt)
  | Err e => (s, Err e)
  | Panic p => (s, Panic p)
  end.

Definition encode : PubM () := λ s, (s, transport_JSON (ps_transport s);; Ok tt).

Definition PublishRaw (target : string) : PubM () := λ s,
  if pub_ok target (ps_transport s)
  then ({| ps_transport := ps_transport s;
           ps_published := ps_published s ++ [(target, ps_transport s)] |}, Ok tt)
  else (s, Err "nats: connection closed").

Fixpoint publish_all (targets : list string) : PubM () :=
  match targets with
  | [] => mret tt
  | t :: rest => PublishRaw t;; publish_all rest
  end.

Definition federation_targets : list string := map (λ f, federationTarget f "federation") federations.

Fixpoint until_empty (nodes : list string) : list string :=
  match nodes with
  | [] => []
  | n :: rest => if String.eqb n "" then [] else n :: until_empty rest
  end.

(** The function called for each group of hosts. *)
Definition publish_group (msg : OutMessage) (nodes : list string) : PubM () :=
  let targets := map (NodeDirectedTarget (msg_Collective msg)) (until_empty nodes) in
  on_transport (SetFederationRequestID (msg_RequestID msg));;
  on_transport (SetFederationTargets targets);;
  encode;;
  publish_all federation_targets.

(** The error of one group is kept in a variable the next group overwrites. *)
Fixpoint publish_groups (msg : OutMessage) (groups : list (list string)) (err : option string) : PubM () :=
  match groups with
  | [] => match err with Some e => throw e | None => mret tt end
  | g :: rest =>
      r ← attempt (F:=string) (publish_group msg g);
      publish_groups msg rest (match r with inl _ => None | inr e => Some e end)
  end.

Definition publishFederatedDirect (msg : OutMessage) : PubM () :=
  match SliceGroups (msg_DiscoveredHosts msg) 200 with
  | Ok groups => publish_groups msg groups None
  | Err e => throw e
  | Panic p => panic p
  end.

Definition publishFederatedBroadcast (msg : OutMessage) : PubM () :=
  target ← lift (TargetForMessage msg "");
  on_transport (SetFederationRequestID (msg_RequestID msg));;
  on_transport (SetFederationTargets [target]);;
  encode;;
  publish_all federation_targets.

Definition publishFederated (msg : OutMessage) : PubM () :=
  match msg_Type msg with
  | DirectRequestType => publishFederatedDirect msg
  | _ => publishFederatedBroadcast msg
  end.

Definition publishConnectedBroadcast (msg : OutMessage) : PubM () :=
  encode;;
  target ← lift (TargetForMessage msg "");
  PublishRaw target.

Fixpoint publish_hosts (msg : OutMessage) (hosts : list string) : PubM () :=
  match hosts with
  | [] => mret tt
  | h :: rest =>
      target ← lift (TargetForMessage msg h);
      PublishRaw target;;
      publish_hosts msg rest
  end.

Definition publishConnectedDirect (msg : OutMessage) : PubM () :=
  encode;; publish_hosts msg (msg_DiscoveredHosts msg).

Definition publishConnected (msg : OutMessage) : PubM () :=
  match msg_Type msg with
  | DirectRequestType => publishConnectedDirect msg
  | _ => publishConnectedBroadcast msg
  end.

(** [Publish], after the transport of the message was made. *)
Definition Publish (server identity : string) (msg : OutMessage) : PubM () :=
  on_transport (RecordNetworkHop (server, identity, server));;
  if negb (String.eqb (msg_CustomTarget msg) "") then publishConnectedBroadcast msg
  else if negb (Nat.eqb (length federations) 0) then publishFederated msg
  else publishConnected msg.

End Connection.

(** * Publishing messages: properties

    Directed messages through federation brokers, and their errors. *)
From S2P Require Import SecureMessages DemoJSON Federation.

(** Groups cut from a list that was filled up with empty strings. *)
Lemma until_empty_app hosts l : Forall (λ h, h ≠ "") hosts → Forall (λ h, h = "") l →
  until_empty (hosts ++ l) = hosts.
Proof.
  intros Hh Hl. induction Hh as [|h hosts Hne _ IH]; simpl.
  - destruct Hl as [|x l -> _]; done.
  - rewrite (proj2 (String.eqb_neq _ _) Hne). by rewrite IH.
Qed.

Lemma until_empty_groups gs hosts pad : Forall (λ h, h ≠ "") hosts →
  concat gs = hosts ++ replicate pad "" → concat (map until_empty gs) = hosts.
Proof.
  revert hosts pad. induction gs as [|g gs IH]; intros hosts pad Hh Heq.
  - by destruct hosts.
  - simpl in *. assert (∀ n, Forall (λ h, h = "") (replicate n "")) as Hrep
      by (intros n; apply Forall_replicate; done).
    destruct (app_eq_inv _ _ _ _ Heq) as [(l & -> & Hl)|(l & -> & Hl)].
    + assert (Forall (λ h, h = "") l ∧ ∃ n, concat gs = replicate n "") as [Hle [n Hn]].
      { assert (Forall (λ h, h = "") (l ++ concat gs)) as Hall by (rewrite <- Hl; apply Hrep).
        apply Forall_app in Hall as [? Hc]. split; [done|]. exists (length (concat gs)).
        clear -Hc. induction Hc as [|x xs -> _ IHx]; [done|]. simpl. by rewrite <- IHx. }
      rewrite until_empty_app by done. rewrite (IH [] n); [by rewrite app_nil_r|constructor|done].
    + apply Forall_app in Hh as [Hg Hh]. rewrite (IH l pad Hh Hl).
      rewrite <- (app_nil_r g) at 1. by rewrite until_empty_app.
Qed.

Lemma until_empty_length g : length (until_empty g) ≤ length g.
Proof. induction g as [|x g IH]; simpl; [done|]. destruct (String.eqb _ _); simpl; lia. Qed.

Section Proofs.
Context `{TJ : TransportJSON}.
Variable pub_ok : string → TransportMessage → bool.
Variable federations : list string.

Lemma publish_all_ok targets s : (∀ t m, pub_ok t m = true) →
  publish_all pub_ok targets s =
    ({| ps_transport := ps_transport s;
        ps_published := ps_published s ++ map (λ t, (t, ps_transport s)) targets |}, Ok tt).
Proof.
  intros Hok. revert s. induction targets as [|t ts IH]; intros s; simpl.
  - unfold mret, ST_ret. rewrite app_nil_r. by destruct s.
  - unfold mbind, ST_bind, PublishRaw. rewrite Hok, IH. simpl. by rewrite <- app_assoc.
Qed.

(** The transport with the federation header of a group of hosts. *)
Definition group_transport (msg : OutMessage) (v : fed_view) (g : list string) (t : TransportMessage) :
    TransportMessage :=
  set_view (Some {| ft_RequestID := msg_RequestID msg;
                    ft_ReplyTo := ft_ReplyTo (default empty_federation v.1);
                    ft_Targets := map (NodeDirectedTarget (msg_Collective msg)) g |}, v.2) t.

Lemma publish_group_ok msg g s v : (∀ t m, pub_ok t m = true) →
  (∀ m, is_ok (transport_JSON m) = true) → view (ps_transport s) = Ok v →
  publish_group pub_ok federations msg g s =
    let t := group_transport msg v (until_empty g) (ps_transport s) in
    ({| ps_transport := t;
        ps_published := ps_published s ++ map (λ f, (f, t)) (federation_targets federations) |}, Ok tt).
Proof.
  intros Hok Hj Hv. unfold publish_group, mbind, ST_bind, on_transport.
  destruct (methods _ _ Hv) as (-> & _). unfold write_federation, write_view, mbind, outcome_bind.
  rewrite Hv. cbn [ps_transport ps_published].
  set (f1 := set_ft_RequestID (msg_RequestID msg) (default empty_federation v.1)).
  assert (view (set_view (Some f1, v.2) (ps_transport s)) = Ok (Some f1, v.2)) as Hv1 by by eapply view_set.
  destruct (methods _ _ Hv1) as (_ & _ & -> & _). unfold write_federation, write_view, mbind, outcome_bind.
  rewrite Hv1. cbn [ps_transport ps_published fst snd]. rewrite set_set.
  unfold encode. cbn [ps_transport].
  match goal with |- context [transport_JSON ?m] =>
    pose proof (Hj m) as Hm; destruct (transport_JSON m); [|discriminate..] end.
  unfold mbind, outcome_bind. by rewrite publish_all_ok.
Qed.

(** All groups, one after the other. *)
Lemma publish_groups_ok msg groups err s v : (∀ t m, pub_ok t m = true) →
  (∀ m, is_ok (transport_JSON m) = true) → view (ps_transport s) = Ok v →
  (groups = [] → err = None) →
  ∃ t', publish_groups pub_ok federations msg groups err s =
    ({| ps_transport := t';
        ps_published := ps_published s ++
          concat (map (λ g, map (λ f, (f, group_transport msg v (until_empty g) (ps_transport s)))
                             (federation_targets federations)) groups) |}, Ok tt).
Proof.
  intros Hok Hj. revert err s v. induction groups as [|g groups IH]; intros err s v Hv Herr.
  - exists (ps_transport s). cbn. rewrite Herr, app_nil_r by done. by destruct s.
  - cbn [publish_groups]. unfold mbind, ST_bind, attempt.
    rewrite (publish_group_ok msg g s v Hok Hj Hv). cbv zeta.
    set (t := group_transport msg v (until_empty g) (ps_transport s)).
    assert (view t = Ok (Some {| ft_RequestID := msg_RequestID msg;
      ft_ReplyTo := ft_ReplyTo (default empty_federation v.1);
      ft_Targets := map (NodeDirectedTarget (msg_Collective msg)) (until_empty g) |}, v.2)) as Hvt
      by by eapply view_set.
    destruct (IH None {| ps_transport := t; ps_published := ps_published s ++
      map (λ f, (f, t)) (federation_targets federations) |} _ Hvt) as (t' & ->); [done|].
    exists t'. cbn [ps_published ps_transport map concat]. rewrite <- app_assoc.
    match goal with |- context [group_transport msg ?v' _ t] =>
      assert (∀ g', group_transport msg v' g' t = group_transport msg v g' (ps_transport s)) as Hsame
        by (intros g'; unfold t, group_transport; by rewrite set_set) end.
    assert (∀ gs, map (λ g', map (λ f, (f, group_transport msg _ (until_empty g') t))
        (federation_targets federations)) gs = map (λ g', map (λ f, (f, group_transport msg v (until_empty g')
        (ps_transport s))) (federation_targets federations)) gs) as Hgs
      by (intros gs; apply map_ext; intros g'; apply map_ext; intros f; by rewrite Hsame).
    by rewrite Hgs.
Qed.

(** The error of a directed message is that of its last group. *)
Lemma publish_groups_last msg groups g err s s1 : 
  (publish_groups pub_ok federations msg groups err s).1 = s1 →
  is_panic (publish_groups pub_ok federations msg groups err s).2 = false →
  (publish_groups pub_ok federations msg (groups ++ [g]) err s).2 =
    match (publish_group pub_ok federations msg g s1).2 with
    | Ok _ => Ok tt
    | Err e => Err e
    | Panic p => Panic p
    end.
Proof.
  revert err s. induction groups as [|g' groups IH]; intros err s; cbn [publish_groups app].
  - unfold mbind, ST_bind, attempt. intros Hs1 _.
    assert (s1 = s) as -> by (subst; by destruct err).
    destruct (publish_group pub_ok federations msg g s) as [s2 [[]|e|p]]; done.
  - unfold mbind, ST_bind, attempt.
    destruct (publish_group pub_ok federations msg g' s) as [s2 [[]|e|p]]; [apply IH|apply IH|done].
Qed.
End Proofs.

(** ** Directed messages *)

(** A directed message that goes through federation brokers is published to every
    federation in parts of at most 200 hosts: the targets of the parts, one after the
    other, are the node subjects of all discovered hosts in their order, each exactly
    once, and every part carries the id of the request. *)
Theorem federated_direct_covers `{TJ : TransportJSON} pub_ok federations msg s v :
  (∀ t m, pub_ok t m = true) → (∀ m, is_ok (transport_JSON m) = true) →
  view (ps_transport s) = Ok v → Forall (λ h, h ≠ "") (msg_DiscoveredHosts msg) →
  ∃ parts s', publishFederatedDirect pub_ok federations msg s = (s', Ok tt) ∧
    concat parts = msg_DiscoveredHosts msg ∧ Forall (λ p, length p ≤ 200) parts ∧
    ps_published s' = ps_published s ++
      concat (map (λ p, map (λ f, (federationTarget f "federation", group_transport msg v p (ps_transport s)))
                          federations) parts) ∧
    (∀ p, FederationTargets (group_transport msg v p (ps_transport s)) =
            Ok (Some (map (NodeDirectedTarget (msg_Collective msg)) p)) ∧
          FederationRequestID (group_transport msg v p (ps_transport s)) = Ok (Some (msg_RequestID msg))).
Proof.
  intros Hok Hj Hv Hh.
  destruct (SliceGroups_spec (msg_DiscoveredHosts msg) 200) as (groups & pad & Hg & Hc & _ & Hlen); [lia|].
  destruct (publish_groups_ok pub_ok federations msg groups None s v Hok Hj Hv) as (t' & Hp); [done|].
  eexists (map until_empty groups), _. unfold publishFederatedDirect. rewrite Hg, Hp.
  split; [done|]. split; [by eapply until_empty_groups|]. split; [|split].
  - apply Forall_map. eapply Forall_impl; [exact Hlen|]. intros g Hg'. cbn in Hg'.
    pose proof (until_empty_length g). lia.
  - cbn [ps_published]. f_equal. rewrite map_map. f_equal. apply map_ext. intros g.
    unfold federation_targets. by rewrite map_map.
  - intros p. eassert (view (group_transport msg v p (ps_transport s)) = Ok (Some _, _)) as Hvp
      by by eapply view_set.
    destruct (methods _ _ Hvp) as (_ & _ & _ & _ & -> & _ & -> & _). done.
Qed.

Definition demo_message (hosts : list string) : OutMessage :=
  {| msg_Type := DirectRequestType; msg_Collective := "mc"; msg_Agent := "rpcutil"; msg_RequestID := "42";
     msg_ReplyTo := ""; msg_CustomTarget := ""; msg_DiscoveredHosts := hosts |}.

Definition demo_state : pub_state :=
  {| ps_transport := demo_transport "reply.bob" "bob" "ping" [] "" []; ps_published := [] |}.

Lemma federated_direct_covers_witness :
  ∃ parts s', publishFederatedDirect (λ _ _, true) ["fed"] (demo_message ["a"; "b"]) demo_state = (s', Ok tt) ∧
    concat parts = ["a"; "b"] ∧ map fst (ps_published s') = ["choria.federation.fed.federation"].
Proof.
  destruct (federated_direct_covers (λ _ _, true) ["fed"] (demo_message ["a"; "b"]) demo_state
    (Some {| ft_RequestID := "42"; ft_ReplyTo := ""; ft_Targets := [] |}, []))
    as (parts & s' & H1 & H2 & _ & _ & _); [done|done|reflexivity|by repeat constructor|].
  exists parts, s'. split; [exact H1|]. split; [exact H2|].
  vm_compute in H1. injection H1 as <-. reflexivity.
Defined.

(** The error of a directed message through federation brokers is that of the
    last part alone: when the parts before cannot be published and the last can, the
    message is reported as published. *)
Theorem group_errors_are_masked `{TJ : TransportJSON} pub_ok federations msg groups g s s1 r :
  publish_groups pub_ok federations msg groups None s = (s1, r) → (∀ p, r ≠ Panic p) →
  (publish_groups pub_ok federations msg (groups ++ [g]) None s).2 = Ok tt ↔
  (publish_group pub_ok federations msg g s1).2 = Ok tt.
Proof.
  intros Hg Hr. rewrite (publish_groups_last pub_ok federations msg groups g None s s1).
  - destruct (publish_group _ _ _ _ _).2 as [[]|e|p]; done.
  - by rewrite Hg.
  - rewrite Hg. destruct r as [[]|e|p]; [done|done|by destruct (Hr p)].
Qed.

(** The part of [a] is refused. *)
Definition demo_refuses (t : string) (m : TransportMessage) : bool :=
  match FederationTargets m with Ok (Some ["mc.node.a"]) => false | _ => true end.

Lemma group_errors_are_masked_witness :
  let m := demo_message ["a"; "b"] in
  (publish_groups demo_refuses ["fed"] m [["a"]] None demo_state).2 = Err "nats: connection closed" ∧
  (publish_groups demo_refuses ["fed"] m ([["a"]] ++ [["b"]]) None demo_state).2 = Ok tt.
Proof.
  intros m. split; [vm_compute; reflexivity|].
  apply (group_errors_are_masked demo_refuses ["fed"] m [["a"]] ["b"] demo_state
    (publish_groups demo_refuses ["fed"] m [["a"]] None demo_state).1 (Err "nats: connection closed"));
    [vm_compute; reflexivity|done|vm_compute; reflexivity].
Defined.
