(* ===== verification/Message.v ===== *)
(** * Messages

    message/message.go, and the functions of choria/protocol.go that turn a message
    into requests and transports: a message made from a request a server received and
    one a client publishes.  A method that changes its message returns it; [time] is
    in nanoseconds since 1970 and the zero time is that of Go. *)
From S2P Require Import Prelude GoLib Regex Files Facts Filters Util AuthTypes Transport SecureMessages.

Definition zero_time : Z := -62135596800 * Second.

Definition MessageMessageType : string := "message".
Definition RequestMessageType : string := "request".
Definition DirectRequestMessageType : string := "direct_request".
Definition ServiceRequestMessageType : string := "service_request".
Definition ReplyMessageType : string := "reply".

(** The callback and the lock are left out. *)
#[warnings="-register-all"]
Inductive Message := {
  m_payload : string;
  m_agent : string;
  m_request : option Message;
  m_filter : option Filter;
  m_ttl : Z;
  m_timeStamp : Z;
  m_senderID : string;
  m_callerID : string;
  m_requestID : string;
  m_discoveredHosts : list string;
  m_customTarget : string;
  m_expectedMessageID : string;
  m_replyTo : string;
  m_collective : string;
  m_msgType : string;
  m_req : option Request;
  m_protoVersion : string;
  m_shouldCacheTransport : bool;
  m_cachedTransport : option TransportMessage;
}.

(** What the framework knows of its configuration. *)
Record FrameworkConfig := {
  fw_Identity : string;
  fw_Collectives : list string;
  fw_TTL : Z;
  fw_CacheBatchedTransports : bool;
  fw_RequireClientFilter : bool;
  fw_CallerID : string;
}.

Definition HasCollective (fw : FrameworkConfig) (collective : string) : bool :=
  existsb (λ c, String.eqb c collective) (fw_Collectives fw).

Definition with_type (t : string) (f : option Filter) (m : Message) : Message :=
  {| m_payload := m_payload m; m_agent := m_agent m; m_request := m_request m; m_filter := f;
     m_ttl := m_ttl m; m_timeStamp := m_timeStamp m; m_senderID := m_senderID m; m_callerID := m_callerID m;
     m_requestID := m_requestID m; m_discoveredHosts := m_discoveredHosts m; m_customTarget := m_customTarget m;
     m_expectedMessageID := m_expectedMessageID m; m_replyTo := m_replyTo m; m_collective := m_collective m;
     m_msgType := t; m_req := m_req m; m_protoVersion := m_protoVersion m;
     m_shouldCacheTransport := m_shouldCacheTransport m; m_cachedTransport := m_cachedTransport m |}.

Definition with_target (agent replyTo collective : string) (request : option Message) (m : Message) : Message :=
  {| m_payload := m_payload m; m_agent := agent; m_request := request; m_filter := m_filter m;
     m_ttl := m_ttl m; m_timeStamp := m_timeStamp m; m_senderID := m_senderID m; m_callerID := m_callerID m;
     m_requestID := m_requestID m; m_discoveredHosts := m_discoveredHosts m; m_customTarget := m_customTarget m;
     m_expectedMessageID := m_expectedMessageID m; m_replyTo := replyTo; m_collective := collective;
     m_msgType := m_msgType m; m_req := m_req m; m_protoVersion := m_protoVersion m;
     m_shouldCacheTransport := m_shouldCacheTransport m; m_cachedTransport := m_cachedTransport m |}.

Definition with_payload (p : string) (m : Message) : Message :=
  {| m_payload := p; m_agent := m_agent m; m_request := m_request m; m_filter := m_filter m;
     m_ttl := m_ttl m; m_timeStamp := m_timeStamp m; m_senderID := m_senderID m; m_callerID := m_callerID m;
     m_requestID := m_requestID m; m_discoveredHosts := m_discoveredHosts m; m_customTarget := m_customTarget m;
     m_expectedMessageID := m_expectedMessageID m; m_replyTo := m_replyTo m; m_collective := m_collective m;
     m_msgType := m_msgType m; m_req := m_req m; m_protoVersion := m_protoVersion m;
     m_shouldCacheTransport := m_shouldCacheTransport m; m_cachedTransport := m_cachedTransport m |}.

Definition with_cache (should : bool) (t : option TransportMessage) (m : Message) : Message :=
  {| m_payload := m_payload m; m_agent := m_agent m; m_request := m_request m; m_filter := m_filter m;
     m_ttl := m_ttl m; m_timeStamp := m_timeStamp m; m_senderID := m_senderID m; m_callerID := m_callerID m;
     m_requestID := m_requestID m; m_discoveredHosts := m_discoveredHosts m; m_customTarget := m_customTarget m;
     m_expectedMessageID := m_expectedMessageID m; m_replyTo := m_replyTo m; m_collective := m_collective m;
     m_msgType := m_msgType m; m_req := m_req m; m_protoVersion := m_protoVersion m;
     m_shouldCacheTransport := should; m_cachedTransport := t |}.

(** The fields [NewMessageFromRequest] takes from the request. *)
Definition with_request (req : Request) (filter : Filter) (identity : string) (cache : bool) (m : Message) : Message :=
  {| m_payload := m_payload m; m_agent := m_agent m; m_request := m_request m; m_filter := Some filter;
     m_ttl := rq_TTL req; m_timeStamp := rq_Time_ns req; m_senderID := identity; m_callerID := m_callerID m;
     m_requestID := rq_RequestID req; m_discoveredHosts := m_discoveredHosts m;
     m_customTarget := m_customTarget m; m_expectedMessageID := m_expectedMessageID m;
     m_replyTo := m_replyTo m; m_collective := m_collective m; m_msgType := m_msgType m; m_req := Some req;
     m_protoVersion := m_protoVersion m; m_shouldCacheTransport := cache;
     m_cachedTransport := m_cachedTransport m |}.

Definition with_version (v : string) (m : Message) : Message :=
  {| m_payload := m_payload m; m_agent := m_agent m; m_request := m_request m; m_filter := m_filter m;
     m_ttl := m_ttl m; m_timeStamp := m_timeStamp m; m_senderID := m_senderID m; m_callerID := m_callerID m;
     m_requestID := m_requestID m; m_discoveredHosts := m_discoveredHosts m; m_customTarget := m_customTarget m;
     m_expectedMessageID := m_expectedMessageID m; m_replyTo := m_replyTo m; m_collective := m_collective m;
     m_msgType := m_msgType m; m_req := m_req m; m_protoVersion := v;
     m_shouldCacheTransport := m_shouldCacheTransport m; m_cachedTransport := m_cachedTransport m |}.

(** ** Types and collectives *)

Definition message_types : list string :=
  [MessageMessageType; RequestMessageType; DirectRequestMessageType; ReplyMessageType; ServiceRequestMessageType].

Definition request_types : list string :=
  [RequestMessageType; DirectRequestMessageType; ServiceRequestMessageType].

(** A direct request adds its agent to the filter, through the pointer it holds. *)
Definition SetType (msgType : string) (m : Message) : res Message :=
  if negb (elem msgType message_types) then Err (msgType +:+ " is not a valid message type")
  else if String.eqb msgType DirectRequestMessageType then
    if Nat.eqb (length (m_discoveredHosts m)) 0
    then Err "direct_request message type can only be set if DiscoveredHosts have been set"
    else
      match m_filter m with
      | Some f => Ok (with_type msgType (Some (AddAgentFilter (m_agent m) f)) m)
      | None => if String.eqb (m_agent m) "" then Ok (with_type msgType None m) else nil_headers
      end
  else if String.eqb msgType ServiceRequestMessageType && negb (Nat.eqb (length (m_discoveredHosts m)) 0)
  then Err "service_request message type does not support discoveredHosts"
  else Ok (with_type msgType (m_filter m) m).

Definition SetCollective (fw : FrameworkConfig) (collective : string) (m : Message) : res Message :=
  if negb (HasCollective fw collective)
  then Err ("cannot set collective to '" +:+ collective +:+ "', it is not on the list of known collectives")
  else Ok (with_target (m_agent m) (m_replyTo m) collective (m_request m) m).

Definition MessageValidate (fw : FrameworkConfig) (m : Message) : res () :=
  if String.eqb (m_agent m) "" then Err "agent has not been set"
  else if String.eqb (m_collective m) "" then Err "collective has not been set"
  else if negb (HasCollective fw (m_collective m))
  then Err ("'" +:+ m_collective m +:+ "' is not on the list of known collectives")
  else Ok tt.

Definition MessageSetReplyTo (replyTo : string) (m : Message) : res Message :=
  if negb (elem (m_msgType m) request_types) then Err "custom reply to targets can only be set for requests"
  else Ok (with_target (m_agent m) replyTo (m_collective m) (m_request m) m).

Definition SetExpectedMsgID (id : string) (m : Message) : res Message :=
  if negb (String.eqb (m_msgType m) ReplyMessageType)
  then Err "can only store expected message ID for reply messages"
  else Ok {| m_payload := m_payload m; m_agent := m_agent m; m_request := m_request m; m_filter := m_filter m;
     m_ttl := m_ttl m; m_timeStamp := m_timeStamp m; m_senderID := m_senderID m; m_callerID := m_callerID m;
     m_requestID := m_requestID m; m_discoveredHosts := m_discoveredHosts m; m_customTarget := m_customTarget m;
     m_expectedMessageID := id; m_replyTo := m_replyTo m; m_collective := m_collective m;
     m_msgType := m_msgType m; m_req := m_req m; m_protoVersion := m_protoVersion m;
     m_shouldCacheTransport := m_shouldCacheTransport m; m_cachedTransport := m_cachedTransport m |}.

Definition SetBase64Payload (payload : string) (m : Message) : res Message :=
  match b64_decode payload with
  | None => Err "could not decode supplied payload using base64"
  | Some p => Ok (with_payload p m)
  end.

Definition Base64Payload (m : Message) : string := b64_encode (m_payload m).

(** Products of a TTL in seconds, as [time.Duration] has them. *)
Definition ValidateTTL (now : Z) (m : Message) : bool :=
  let earliest := (now + wrap64 (wrap64 (- m_ttl m) * Second))%Z in
  let latest := (now + wrap64 (m_ttl m * Second))%Z in
  (m_timeStamp m <? latest)%Z && (earliest <? m_timeStamp m)%Z.

Definition isEmptyFilter (m : Message) : bool :=
  match m_filter m with
  | None => true
  | Some f =>
      if is_nil (Fact f) && is_nil (Class_ f) && is_nil (Identity_ f) && is_nil (Compound_ f) then true
      else
        let agents := slice_len (Filters.Agent f) in
        let discovery := String.eqb (m_agent m) "discovery" in
        if discovery && Nat.ltb 1 agents then false
        else
          (Nat.eqb agents 0 || discovery && Nat.eqb agents 1) && Nat.eqb (slice_len (Fact f)) 0 &&
          Nat.eqb (slice_len (Class_ f)) 0 && Nat.eqb (slice_len (Identity_ f)) 0 &&
          Nat.eqb (slice_len (Compound_ f)) 0
  end.

Definition ReplyTarget `{Platform} (m : Message) : string :=
  m_collective m +:+ ".reply." +:+
  hex_encode (if fips140_Enabled then sha256_Sum256 (m_callerID m) else md5_Sum (m_callerID m)) +:+ "." +:+
  m_requestID m.

(** ** Making messages *)

Section Make.
Variable fw : FrameworkConfig.

(** [rid] is what [NewRequestID] returned. *)
Definition newMessage (rid : res string) (payload agent collective msgType : string)
    (request : option Message) : res Message :=
  id ← rid;
  msg ← SetType msgType
    {| m_payload := payload; m_agent := ""; m_request := None; m_filter := Some NewFilter; m_ttl := fw_TTL fw;
       m_timeStamp := zero_time; m_senderID := fw_Identity fw; m_callerID := fw_CallerID fw; m_requestID := id;
       m_discoveredHosts := []; m_customTarget := ""; m_expectedMessageID := ""; m_replyTo := "";
       m_collective := ""; m_msgType := ""; m_req := None; m_protoVersion := Unknown;
       m_shouldCacheTransport := fw_CacheBatchedTransports fw; m_cachedTransport := None |};
  msg ← match request with
        | None => SetCollective fw collective (with_target agent (m_replyTo msg) (m_collective msg) None msg)
        | Some r =>
            msg ← SetType ReplyMessageType
              (with_target (m_agent r) (m_replyTo r) (m_collective msg) (Some r) msg);
            SetCollective fw (m_collective r) msg
        end;
  MessageValidate fw msg;;
  Ok msg.

Definition NewMessage `{SecurityProvider} (rid : res string) (payload agent collective msgType : string)
    (request : option Message) : res Message :=
  m ← newMessage rid payload agent collective msgType request;
  Ok (with_version (match BackingTechnology with
                    | SecurityTechnologyX509 => RequestV1
                    | SecurityTechnologyED25519JWT => RequestV2
                    end) m).

(** The payload stays as it is when it is not base64: the error is dropped. *)
Definition NewMessageFromRequest (rid1 rid2 : res string) (req : Request) (replyto : string) :
    res (Message * Request) :=
  reqm ← newMessage rid1 (rq_MessageBody req) (rq_Agent req) (rq_Collective req) RequestMessageType None;
  let reqm := if String.eqb replyto "" then reqm
              else with_target (m_agent reqm) replyto (m_collective reqm) (m_request reqm) reqm in
  msg ← newMessage rid2 (rq_MessageBody req) (rq_Agent req) (rq_Collective req) ReplyMessageType (Some reqm);
  '(filter, req) ← rq_get_filter req;
  let msg := with_request req filter (fw_Identity fw)
               (m_shouldCacheTransport msg || fw_CacheBatchedTransports fw) msg in
  match SetBase64Payload (rq_MessageBody req) msg with
  | Ok msg => Ok (msg, req)
  | Err _ => Ok (msg, req)
  | Panic p => Panic p
  end.

End Make.

(** ** Transports *)

Section Transports.
Context `{TJ : TransportJSON} `{MJ : MessageJSON} `{BF : BuildFlags} `{SP : SecurityProvider}.
Variable fw : FrameworkConfig.
(** [time.Now()] *)
Variable now : Z.

(** [Framework.NewRequest] *)
Definition fw_NewRequest (version agent senderid callerid : string) (ttl : Z) (requestid collective : string) :
    res Request :=
  if String.eqb version RequestV1 then Ok (NewRequest V1 now agent senderid callerid ttl requestid collective)
  else if String.eqb version RequestV2 then Ok (NewRequest V2 now agent senderid callerid ttl requestid collective)
  else Err ("do not know how to create a Request version " +:+ version).

Definition NewRequestFromMessage (version : string) (msg : Message) : res Request :=
  if negb (elem (m_msgType msg) request_types)
  then Err ("cannot use '" +:+ m_msgType msg +:+ "' message to construct a Request")
  else
    req ← map_err (λ e, "could not create a Request from a Message: " +:+ e)
      (fw_NewRequest version (m_agent msg) (m_senderID msg) (m_callerID msg) (m_ttl msg) (m_requestID msg)
         (m_collective msg));
    let req := rq_set_message (m_payload msg) req in
    Ok (rq_set_filter (Some (default NewFilter (m_filter msg))) req).

(** [rep.SetMessage] comes before the error of [NewReply] is looked at: it goes through
    a nil interface then. *)
Definition NewReplyFromMessage (version : string) (msg : Message) : res Reply :=
  if negb (String.eqb (m_msgType msg) ReplyMessageType)
  then Err ("cannot use '" +:+ m_msgType msg +:+ "' message to construct a Reply")
  else
    match m_request msg with
    | None => Err "cannot create a Reply from Messages without Requests"
    | Some request =>
        req ← NewRequestFromMessage version request;
        match NewReply now (fw_Identity fw) req with
        | Ok rep => Ok (SetMessage (m_payload msg) rep)
        | Err _ => nil_headers
        | Panic p => Panic p
        end
    end.

Definition NewRequestTransportForMessage (msg : Message) (version : string) : res TransportMessage :=
  req ← map_err (λ e, "could not create Request: " +:+ e) (NewRequestFromMessage version msg);
  sr ← NewSecureRequest req;
  map_err (λ e, "could not create Transport: " +:+ e) (NewTransportForSecureRequest (fw_Identity fw) sr).

Definition UncachedRequestTransport (m : Message) : res TransportMessage :=
  if String.eqb (m_protoVersion m) "" || String.eqb (m_protoVersion m) Unknown
  then Err "cannot create a Request Transport without a version, please set it using SetProtocolVersion()"
  else if String.eqb (m_replyTo m) ""
  then Err "cannot create a Transport, no reply-to was set, please use SetReplyTo()"
  else if fw_RequireClientFilter fw && isEmptyFilter m
  then Err "cannot create a Request Transport, requests without filters have been disabled"
  else
    transport ← NewRequestTransportForMessage m (m_protoVersion m);
    SetReplyTo (m_replyTo m) transport.

Definition UncachedReplyTransport (m : Message) : res TransportMessage :=
  match m_req m with
  | None => Err "cannot create a Transport, no request were stored in the message"
  | Some req => NewReplyTransportForMessage now (fw_Identity fw) (m_payload m) req
  end.

(** [Message.Transport]: the transport of a request is kept when the message says so. *)
Definition MessageTransport (m : Message) : Message * res TransportMessage :=
  match m_cachedTransport m with
  | Some t =>
      if m_shouldCacheTransport m then (m, Ok t) else
      if elem (m_msgType m) request_types then (m, UncachedRequestTransport m)
      else if String.eqb (m_msgType m) ReplyMessageType then (m, UncachedReplyTransport m)
      else (m, Err ("do not know how to make a Transport for a " +:+ m_msgType m +:+ " type Message"))
  | None =>
      if elem (m_msgType m) request_types then
        match UncachedRequestTransport m with
        | Ok t => (if m_shouldCacheTransport m then with_cache true (Some t) m else m, Ok t)
        | r => (m, r)
        end
      else if String.eqb (m_msgType m) ReplyMessageType then (m, UncachedReplyTransport m)
      else (m, Err ("do not know how to make a Transport for a " +:+ m_msgType m +:+ " type Message"))
  end.

(** [CacheTransport] and [UniqueTransport] *)
Definition CacheTransport (m : Message) : Message := with_cache true (m_cachedTransport m) m.
Definition UniqueTransport (m : Message) : Message := with_cache false None m.

Definition NewRequestMessageFromTransportJSON (rid1 rid2 : res string) (payload : string) : res Message :=
  transport ← NewTransportFromJSON payload;
  srequest ← NewSecureRequestFromTransport transport false;
  request ← NewRequestFromSecureRequest srequest;
  request ← CopyFederationData transport request;
  replyto ← ReplyTo transport;
  '(msg, _) ← NewMessageFromRequest fw rid1 rid2 request replyto;
  Ok msg.

End Transports.
