(* ===== verification/AgentManager.v ===== *)
(** * The agents of a server

    server/agents/agents.go, with the subscriptions of choria/connection.go it makes:
    registering, replacing and unregistering agents, and handing a request to one.
    The network decides whether a subscription is made, and how one is undone. *)
From S2P Require Import Prelude GoLib Files Util Connection.

Record Metadata := {
  md_Name : string;
  md_Version : string;
  md_Timeout : Z;
  md_Service : bool;
  md_Provider : string;
}.

(** [agents.Agent], what the manager asks of it. *)
Class AgentOps (A : Type) := {
  agent_Metadata : A → Metadata;
  ShouldActivate : A → bool;
  SetServerInfo : A → A;
}.

(** ** Subscriptions *)

(** A nats subscription: its subject and queue group. *)
Abbreviation nats_sub := (string * string)%type.

(** [chanSubscriptions] by name, with the nats subscription of each unless making it
    failed, and the subscriptions the network delivers messages for. *)
Record Subscriptions := {
  chanSubscriptions : gmap string (option nats_sub);
  live : list nats_sub;
}.

(** What the nats client answers: [ErrGone] is an error that means the subscription is
    not there. *)
Inductive unsub_answer := UnsubOk | ErrGone | ErrOther.

Record network := {
  ChanQueueSubscribe_ok : string → string → bool;
  Flush_ok : string → bool;
  Unsubscribe_answer : string → unsub_answer;
}.

Definition remove_one (x : nats_sub) (l : list nats_sub) : list nats_sub :=
  match list_find (λ y, y = x) l with
  | Some (i, _) => delete i l
  | None => l
  end.

Definition QueueSubscribe (net : network) (name subject group : string) (s : Subscriptions) :
    Subscriptions * res () :=
  if negb (ChanQueueSubscribe_ok net subject group)
  then ({| chanSubscriptions := <[name := None]> (chanSubscriptions s); live := live s |},
        Err ("could not subscribe to subscription " +:+ name))
  else
    let s' := {| chanSubscriptions := <[name := Some (subject, group)]> (chanSubscriptions s);
                 live := (subject, group) :: live s |} in
    if negb (Flush_ok net subject) then (s', Err ("could not subscribe to subscription " +:+ name))
    else (s', Ok tt).

Definition Unsubscribe (net : network) (name : string) (s : Subscriptions) : Subscriptions * res () :=
  match chanSubscriptions s !! name with
  | None => (s, Ok tt)
  | Some None =>
      ({| chanSubscriptions := delete name (chanSubscriptions s); live := live s |}, Ok tt)
  | Some (Some sub) =>
      match Unsubscribe_answer net name with
      | ErrOther => (s, Err ("could not unsubscribe from " +:+ name))
      | UnsubOk | ErrGone =>
          ({| chanSubscriptions := delete name (chanSubscriptions s); live := remove_one sub (live s) |}, Ok tt)
      end
  end.

(** ** The manager *)

Record Manager (A : Type) := {
  agents : gmap string A;
  subs : gmap string (list string);
  denylist : list string;
  servicesOnly : bool;
  conn : Subscriptions;
}.
Arguments agents {A}. Arguments subs {A}. Arguments denylist {A}. Arguments servicesOnly {A}.
Arguments conn {A}. Arguments Build_Manager {A}.

(** [New] and [NewServices], on a connection. *)
Definition new_manager {A} (services : bool) (c : Subscriptions) : Manager A :=
  {| agents := ∅; subs := ∅; denylist := []; servicesOnly := services; conn := c |}.

Section Manager.
Context {A : Type} `{AgentOps A}.
(** [fw.Configuration().Collectives] *)
Variable Collectives : list string.

Abbreviation M := (ST (Manager A) string).

Definition set_agents (f : gmap string A → gmap string A) (m : Manager A) : Manager A :=
  {| agents := f (agents m); subs := subs m; denylist := denylist m; servicesOnly := servicesOnly m;
     conn := conn m |}.
Definition set_subs (f : gmap string (list string) → gmap string (list string)) (m : Manager A) : Manager A :=
  {| agents := agents m; subs := f (subs m); denylist := denylist m; servicesOnly := servicesOnly m;
     conn := conn m |}.
Definition set_conn (c : Subscriptions) (m : Manager A) : Manager A :=
  {| agents := agents m; subs := subs m; denylist := denylist m; servicesOnly := servicesOnly m; conn := c |}.

Definition on_conn (f : Subscriptions → Subscriptions * res ()) : M () := λ m,
  let '(c, r) := f (conn m) in (set_conn c m, r).

Definition DenyAgent (agent : string) (m : Manager A) : Manager A :=
  {| agents := agents m; subs := subs m; denylist := denylist m ++ [agent]; servicesOnly := servicesOnly m;
     conn := conn m |}.

Definition validateAgent (agent : A) : res () :=
  let md := agent_Metadata agent in
  if (md_Timeout md <? 1)%Z then Err "timeout < 1"
  else if String.eqb (md_Name md) "" then Err "invalid metadata"
  else Ok tt.

Definition ReplaceAgent (name : string) (agent : A) : M () :=
  if String.eqb name "" then throw "agent name is required"
  else
    lift (map_err (λ e, "invalid agent: " +:+ e) (validateAgent agent));;
    if negb (ShouldActivate agent) then throw "replacement agent is not activating due to activation checks"
    else
      ca ← gets (λ m, agents m !! name);
      match ca with
      | None => throw ("agent " +:+ name +:+ " is not currently known")
      | Some ca =>
          if negb (Bool.eqb (md_Service (agent_Metadata ca)) (md_Service (agent_Metadata agent)))
          then throw "replacement agent cannot change service property"
          else modify (set_agents <[name := SetServerInfo agent]>)
      end.

Fixpoint unsubscribe_all (net : network) (names : list string) : M () :=
  match names with
  | [] => mret tt
  | sub :: rest => on_conn (Unsubscribe net sub);; unsubscribe_all net rest
  end.

(** The rewind: errors are dropped. *)
Fixpoint unsubscribe_each (net : network) (names : list string) : M () :=
  match names with
  | [] => mret tt
  | sub :: rest => attempt (F:=string) (on_conn (Unsubscribe net sub));; unsubscribe_each net rest
  end.

Definition unSubscribeAgent (net : network) (name : string) : M () :=
  names ← gets (λ m, subs m !! name);
  match names with
  | None => mret tt
  | Some names => unsubscribe_all net names;; modify (set_subs (delete name))
  end.

Definition UnregisterAgent (net : network) (name : string) : M () :=
  if String.eqb name "" then throw "agent name is required"
  else
    found ← gets (λ m, agents m !! name);
    match found with
    | None => throw "unknown agent"
    | Some _ =>
        attempt (F:=string) (unSubscribeAgent net name);;
        modify (set_agents (delete name));;
        modify (set_subs (delete name))
    end.

Definition agent_target (agent : A) (collective name : string) : nats_sub :=
  if md_Service (agent_Metadata agent) then (ServiceBroadcastTarget collective name, name)
  else (AgentBroadcastTarget collective name, "").

Definition subname (collective name : string) : string := collective +:+ "." +:+ name.

Fixpoint subscribe_loop (net : network) (name : string) (agent : A) (collectives : list string) : M () :=
  match collectives with
  | [] => mret tt
  | c :: rest =>
      let target := agent_target agent c name in
      r ← attempt (F:=string) (on_conn (QueueSubscribe net (subname c name) target.1 target.2));
      match r with
      | inr e =>
          names ← gets (λ m, default [] (subs m !! name));
          unsubscribe_each net names;;
          throw ("subscription failed: " +:+ e)
      | inl _ =>
          modify (set_subs (λ s, <[name := default [] (s !! name) ++ [subname c name]]> s));;
          subscribe_loop net name agent rest
      end
  end.

Definition subscribeAgent (net : network) (name : string) (agent : A) : M () :=
  found ← gets (λ m, subs m !! name);
  match found with
  | Some _ => throw ("could not subscribe agent " +:+ name +:+ ", it's already subscribed")
  | None =>
      modify (set_subs <[name := []]>);;
      subscribe_loop net name agent Collectives
  end.

Definition agentDenied (name : string) (m : Manager A) : bool := existsb (λ n, String.eqb n name) (denylist m).

(** An agent that is not wanted is no error. *)
Definition RegisterAgent (net : network) (name : string) (agent : A) : M () :=
  if String.eqb name "" then throw "agent name is required"
  else
    lift (map_err (λ e, "invalid agent: " +:+ e) (validateAgent agent));;
    services ← gets servicesOnly;
    if services && negb (md_Service (agent_Metadata agent)) then mret tt
    else if negb (ShouldActivate agent) then mret tt
    else
      denied ← gets (agentDenied name);
      if denied : bool then mret tt
      else
        found ← gets (λ m, agents m !! name);
        match found with
        | Some _ => throw ("agent " +:+ name +:+ " is already registered")
        | None =>
            r ← attempt (F:=string) (subscribeAgent net name (SetServerInfo agent));
            match r with
            | inr e => throw ("could not register agent " +:+ name +:+ ": " +:+ e)
            | inl _ => modify (set_agents <[name := SetServerInfo agent]>)
            end
        end.

Definition KnownAgents (m : Manager A) : list string :=
  sort_strings (map fst (map_to_list (agents m))).

Definition Get (name : string) (m : Manager A) : option A := agents m !! name.

End Manager.
