(* ===== verification/DDL.v ===== *)
(** * Agent DDLs

    providers/agent/mcorpc/ddl/: the types of inputs and outputs (common/), the actions
    of an agent (agent/action.go) and the DDL of an agent (agent/agent.go), with the type
    tests of validator/util.go.  Dynamic values are [value]; JSON and float parsing are
    the class [DDLLib], what JSON makes of the inputs on the way from a client to a server
    is [JSONCopy].  Rendering to text is left out, inputs and outputs are not null. *)
From S2P Require Import Prelude GoLib Regex Files Util GoNum Validator AgentManager.

(** ** Values *)

Inductive int_kind := KInt | KInt8 | KInt16 | KInt32 | KInt64.

(** What an [any] holds; a map or slice that is nil is not the nil value. *)
Inductive value :=
| VNil
| VBool (b : bool)
| VInt (k : int_kind) (z : Z)
| VFloat32 (f : float64)
| VFloat64 (f : float64)
| VString (s : string)
| VMap (m : list (string * value))
| VSlice (l : list value)
| VNilMap
| VNilSlice
| VOther.

Definition IsMap (v : value) : bool := match v with VMap _ | VNilMap => true | _ => false end.
Definition IsArray (v : value) : bool := match v with VSlice _ | VNilSlice => true | _ => false end.
Definition IsBool (v : value) : bool := match v with VBool _ => true | _ => false end.
Definition IsString (v : value) : bool := match v with VString _ => true | _ => false end.
Definition IsFloat32 (v : value) : bool := match v with VFloat32 _ => true | _ => false end.
Definition IsFloat64 (v : value) : bool := match v with VFloat64 _ => true | _ => false end.
Definition IsAnyFloat (v : value) : bool := IsFloat32 v || IsFloat64 v.
Definition IsAnyInt (v : value) : bool := match v with VInt _ _ => true | _ => false end.
Definition IsNumber (v : value) : bool := IsAnyInt v || IsAnyFloat v.

(** [f == float64(int(f))] *)
Definition IsIntFloat64 (v : value) : bool :=
  match v with VFloat64 f => f64_eqb f (f64_of_Z (f64_trunc f)) | _ => false end.

(** ** Inputs *)

Class DDLLib := {
  ParseFloat64 : string → option float64;
  json_Object : string → option (list (string * value));
  json_Array : string → option (list value);
}.

Record InputItem := {
  in_Prompt : string;
  in_Description : string;
  in_Type : string;
  in_Default : value;
  in_Optional : bool;
  in_Validation : string;
  in_MaxLength : Z;
  in_Enum : list string;
}.

Definition is_nil_value (v : value) : bool := match v with VNil => true | _ => false end.

Definition quoted (val rest : string) : string := "'" +:+ val +:+ "' " +:+ rest.

Definition json_space (c : ascii) : bool :=
  Ascii.eqb c " " || Ascii.eqb c "009" || Ascii.eqb c "010" || Ascii.eqb c "013".

(** Of the JSON documents, [null]: decoded into a map or slice it makes it nil. *)
Definition json_null (doc : string) : bool :=
  bool_decide (filter (λ c, json_space c = false) (String.list_ascii_of_string doc) = String.list_ascii_of_string "null").

(** [namedValidator]: [^[a-z]] *)
Definition starts_lower (s : string) : bool :=
  match s with
  | String c _ => let n := nat_of_ascii c in (97 <=? n)%nat && (n <=? 122)%nat
  | EmptyString => false
  end.

Section Inputs.
Context `{DL : DDLLib} `{RX : Regexp}.

Definition ValToDDLType (typedef val : string) : res value :=
  let t := to_lower typedef in
  if String.eqb t "integer" then
    match atoi val with
    | None => Err (quoted val "is not a valid integer")
    | Some i => Ok (VInt KInt64 i)
    end
  else if String.eqb t "float" || String.eqb t "number" then
    match ParseFloat64 val with
    | None => Err (quoted val "is not a valid float")
    | Some f => Ok (VFloat64 f)
    end
  else if String.eqb t "string" || String.eqb t "list" then Ok (VString val)
  else if String.eqb t "boolean" then
    match parse_bool val with
    | None => Err (quoted val "is not a valid boolean")
    | Some b => Ok (VBool b)
    end
  else if String.eqb t "hash" then
    match json_Object val with
    | None => Err (quoted val "is not a valid JSON string with a hash inside")
    | Some m => Ok (if json_null val then VNilMap else VMap m)
    end
  else if String.eqb t "array" then
    match json_Array val with
    | None => Err (quoted val "is not a valid JSON string with an array inside")
    | Some l => Ok (if json_null val then VNilSlice else VSlice l)
    end
  else Err ("unsupported type '" +:+ typedef +:+ "'").

Definition Required (i : InputItem) : bool := negb (in_Optional i).

Definition validateStringValidation (validation value : string) : list string * res () :=
  if String.eqb validation "shellsafe" then ([], shellsafe.Validate value)
  else if String.eqb validation "ipv4address" then ([], ipv4.ValidateString value)
  else if String.eqb validation "ipv6address" then ([], ipv6.ValidateString value)
  else if String.eqb validation "ipaddress" then ([], ipaddress.ValidateString value)
  else if starts_lower validation then (["Unsupported validator '" +:+ validation +:+ "'"], Ok tt)
  else ([], regex.ValidateString value validation).

(** A string without a maximal length is not validated any further. *)
Definition ValidateValue (i : InputItem) (val : value) : list string * res () :=
  let t := to_lower (in_Type i) in
  let test (b : bool) (e : string) : list string * res () := ([], if negb b then Err e else Ok tt) in
  if String.eqb t "integer" || String.eqb t "int" then test (IsAnyInt val || IsIntFloat64 val) "is not an integer"
  else if String.eqb t "number" then test (IsNumber val) "is not a number"
  else if String.eqb t "float" then test (IsFloat64 val) "is not a float"
  else if String.eqb t "string" then
    match val with
    | VString sval =>
        if Z.eqb (in_MaxLength i) 0 then ([], Ok tt)
        else if (in_MaxLength i <? Z.of_nat (String.length sval))%Z
        then ([], Err ("is longer than " +:+ itoa (in_MaxLength i) +:+ " characters"))
        else if negb (String.eqb (in_Validation i) "") then validateStringValidation (in_Validation i) sval
        else ([], Ok tt)
    | _ => ([], Err "is not a string")
    end
  else if String.eqb t "boolean" then test (IsBool val) "is not a boolean"
  else if String.eqb t "list" then
    if Nat.eqb (length (in_Enum i)) 0 then ([], Err "input type of list without a valid list of items in DDL")
    else
      match val with
      | VString valstr =>
          if existsb (λ valid, String.eqb valid valstr) (in_Enum i) then ([], Ok tt)
          else ([], Err ("should be one of " +:+ join (in_Enum i) ", "))
      | _ => ([], Err "should be a string")
      end
  else if String.eqb t "hash" then test (IsMap val) "is not a hash map"
  else if String.eqb t "array" then test (IsArray val) "is not an array"
  else ([], Err ("unsupported input type '" +:+ in_Type i +:+ "'")).

(** The converted value, nil when it does not convert. *)
Definition ValidateStringValue (i : InputItem) (val : string) : value * (list string * res ()) :=
  match ValToDDLType (in_Type i) val with
  | Ok converted => (converted, ValidateValue i converted)
  | Err e => (VNil, ([], Err e))
  | Panic p => (VNil, ([], Panic p))
  end.

(** ** Actions *)

Record OutputItem := {
  out_Description : string;
  out_DisplayAs : string;
  out_Default : value;
  out_Type : string;
}.

(** The arguments of an aggregation, [None] when they are no JSON array. *)
Record ActionAggregateItem := {
  agg_Function : string;
  agg_Arguments : option (list value);
}.

Record Action := {
  act_Name : string;
  act_Input : gmap string InputItem;
  act_Output : gmap string OutputItem;
  act_Display : string;
  act_Description : string;
  act_Aggregation : list ActionAggregateItem;
}.

Definition sorted_keys {A} (m : gmap string A) : list string := sort_strings (map fst (map_to_list m)).

Definition InputNames (a : Action) : list string := sorted_keys (act_Input a).
Definition OutputNames (a : Action) : list string := sorted_keys (act_Output a).

Fixpoint set_output_defaults (a : Action) (names : list string) (results : gmap string value) : gmap string value :=
  match names with
  | [] => results
  | k :: rest =>
      set_output_defaults a rest
        match results !! k, act_Output a !! k with
        | None, Some o => if is_nil_value (out_Default o) then results else <[k := out_Default o]> results
        | _, _ => results
        end
  end.

Definition SetOutputDefaults (a : Action) (results : gmap string value) : gmap string value :=
  set_output_defaults a (OutputNames a) results.

Definition RequiresInput (a : Action) (input : string) : bool :=
  match act_Input a !! input with None => false | Some i => Required i end.

Fixpoint set_defaults (a : Action) (names : list string) (inputs : gmap string value) : gmap string value :=
  match names with
  | [] => inputs
  | iname :: rest =>
      set_defaults a rest
        match inputs !! iname, act_Input a !! iname with
        | None, Some i => if is_nil_value (in_Default i) then inputs else <[iname := in_Default i]> inputs
        | _, _ => inputs
        end
  end.

Definition SetDefaults (a : Action) (inputs : gmap string value) : gmap string value :=
  set_defaults a (InputNames a) inputs.

Definition Conversion : Type := gmap string value * (list string * res ()).

(** The arguments in the order the map is ranged over, then the inputs that are missing. *)
Fixpoint convert_args (a : Action) (args : list (string * string)) (result : gmap string value)
    (warnings : list string) : Conversion :=
  match args with
  | [] => (result, (warnings, Ok tt))
  | (k, v) :: rest =>
      let kname := to_lower k in
      match act_Input a !! kname with
      | None => (result, (warnings, Err ("input '" +:+ kname +:+ "' has not been declared")))
      | Some input =>
          let '(converted, (w, err)) := ValidateStringValue input v in
          match err with
          | Err e => (result, (warnings ++ w, Err ("invalid value for '" +:+ kname +:+ "': " +:+ e)))
          | Panic p => (result, (warnings ++ w, Panic p))
          | Ok _ => convert_args a rest (<[kname := converted]> result) (warnings ++ w)
          end
      end
  end.

Fixpoint convert_missing (a : Action) (names : list string) (result : gmap string value) :
    gmap string value * res () :=
  match names with
  | [] => (result, Ok tt)
  | iname :: rest =>
      match result !! iname, act_Input a !! iname with
      | None, Some input =>
          if Required input && is_nil_value (in_Default input)
          then (result, Err ("input '" +:+ iname +:+ "' is required"))
          else convert_missing a rest
                 (if is_nil_value (in_Default input) then result else <[iname := in_Default input]> result)
      | _, _ => convert_missing a rest result
      end
  end.

Definition ValidateAndConvertToDDLTypes (a : Action) (args : list (string * string)) : Conversion :=
  match convert_args a args ∅ [] with
  | (result, (warnings, Ok _)) =>
      let '(result, r) := convert_missing a (InputNames a) result in (result, (warnings, r))
  | failed => failed
  end.

Definition ValidateInputValue (a : Action) (input : string) (val : value) : list string * res () :=
  match act_Input a !! input with
  | None => ([], Err ("unknown input '" +:+ input +:+ "'"))
  | Some i => ValidateValue i val
  end.

Definition ValidateInputString (a : Action) (input val : string) : list string * res () :=
  match act_Input a !! input with
  | None => ([], Err ("unknown input '" +:+ input +:+ "'"))
  | Some i => (ValidateStringValue i val).2
  end.

Fixpoint validate_inputs (a : Action) (names : list string) (data : gmap string value) (warnings : list string) :
    list string * res () :=
  match names with
  | [] => (warnings, Ok tt)
  | input :: rest =>
      match data !! input with
      | None =>
          if RequiresInput a input then ([], Err ("input '" +:+ input +:+ "' is required"))
          else validate_inputs a rest data warnings
      | Some val =>
          let '(warnings, err) := ValidateInputValue a input val in
          match err with
          | Ok _ => validate_inputs a rest data warnings
          | Err e => (warnings, Err ("validation failed for input '" +:+ input +:+ "': " +:+ e))
          | Panic p => (warnings, Panic p)
          end
      end
  end.

(** The data without [process_results], and the answer. *)
Definition ValidateRequestData (a : Action) (data : gmap string value) : Conversion :=
  let validNames := InputNames a in
  let data := delete "process_results" data in
  (data,
   match validate_inputs a validNames data [] with
   | (warnings, Ok _) =>
       if Nat.eqb (length validNames) 0 && Nat.ltb 0 (size data)
       then (warnings, Err "request contains inputs while none are declared in the DDL")
       else
         match List.find (λ iname, negb (elem iname validNames)) (map fst (map_to_list data)) with
         | Some iname =>
             (warnings, Err ("request contains an input '" +:+ iname +:+
                             "' that is not declared in the DDL. Valid inputs are: " +:+ join validNames ", "))
         | None => ([], Ok tt)
         end
   | failed => failed
   end).

Definition ValidateRequestJSON (a : Action) (req : string) : list string * res () :=
  match json_Object req with
  | None => ([], Err "json")
  | Some m => (ValidateRequestData a (list_to_map (rev m))).2
  end.

(** ** DDLs *)

Record DDL := {
  ddl_Schema : string;
  ddl_Metadata : Metadata;
  ddl_Actions : list Action;
  ddl_SourceLocation : string;
}.

Definition normalize_action (a : Action) : Action :=
  {| act_Name := act_Name a; act_Input := act_Input a; act_Output := act_Output a;
     act_Display := if String.eqb (act_Display a) "" then "failed" else act_Display a;
     act_Description := act_Description a; act_Aggregation := act_Aggregation a |}.

Definition normalize (d : DDL) : DDL :=
  {| ddl_Schema := ddl_Schema d; ddl_Metadata := ddl_Metadata d;
     ddl_Actions := map normalize_action (ddl_Actions d); ddl_SourceLocation := ddl_SourceLocation d |}.

Definition DDLActionNames (d : DDL) : list string := sort_strings (map act_Name (ddl_Actions d)).

Definition ActionInterface (d : DDL) (action : string) : res Action :=
  match List.find (λ act, String.eqb (act_Name act) action) (ddl_Actions d) with
  | Some act => Ok act
  | None => Err ("unknown action " +:+ md_Name (ddl_Metadata d) +:+ "#" +:+ action)
  end.

Definition HaveAction (d : DDL) (action : string) : bool := is_ok (ActionInterface d action).

Definition DDLTimeout (d : DDL) : Z :=
  if Z.eqb (md_Timeout (ddl_Metadata d)) 0 then 10 * Second else wrap64 (Second * md_Timeout (ddl_Metadata d)).

Definition DDLValidateAndConvert (d : DDL) (action : string) (args : list (string * string)) : res Conversion :=
  acti ← ActionInterface d action;
  Ok (ValidateAndConvertToDDLTypes acti args).

(** [filepath.Walk] over a directory: the files below it in its order; the decoded DDL
    of a document; the DDLs compiled in. *)
Class DDLFiles := {
  walk_files : string → list string;
  ddl_Unmarshal : string → option DDL;
  CachedDDL : string → option DDL;
}.

Context `{DF : DDLFiles}.
Variable fs : filesystem.

Definition NewFromBytes (dat : string) : res DDL :=
  match ddl_Unmarshal dat with
  | None => Err "could not parse DDL JSON data"
  | Some d => Ok (normalize d)
  end.

Definition NewDDL (file : string) : res DDL :=
  dat ← map_err (λ e, "could not load DDL data: " +:+ e) (os_Open fs file);
  d ← NewFromBytes dat;
  Ok {| ddl_Schema := ddl_Schema d; ddl_Metadata := ddl_Metadata d; ddl_Actions := ddl_Actions d;
        ddl_SourceLocation := file |}.

(** The name and path of each JSON file of a kind, as the callback sees them. *)
Definition each_file (kind : string) (libdirs : list string) : list (string * string) :=
  dir ← libdirs;
  n ← ["choria"; "mcollective"];
  path ← walk_files (path_join [dir; n; kind]);
  if has_suffix path ".json" then [(trim_suffix (path_base path) ".json", path)] else [].

(** [EachFile]: what the callback answers stops nothing. *)
Definition EachFile {S} (kind : string) (libdirs : list string) (cb : string → string → S → S * bool) (s : S) : S :=
  foldl (λ s f, (cb f.1 f.2 s).1) s (each_file kind libdirs).

(** [New] does not panic: its last case does not arise. *)
Definition find_cb (agent n f : string) (s : option DDL * option string) : (option DDL * option string) * bool :=
  if String.eqb n agent then
    (match NewDDL f with Ok d => (Some d, None) | Err e => (None, Some e) | Panic p => (None, Some p) end, true)
  else (s, false).

Definition FindLocally (agent : string) (libdirs : list string) : res DDL :=
  match CachedDDL agent with
  | Some d => Ok d
  | None =>
      match EachFile "agent" libdirs (find_cb agent) (None, None) with
      | (_, Some e) => Err ("could not load agent " +:+ agent +:+ ": " +:+ e)
      | (None, None) => Err ("could not find DDL file for agent " +:+ agent)
      | (Some d, None) => Ok d
      end
  end.

End Inputs.

(** * Aggregation of replies

    providers/agent/mcorpc/aggregate/ and providers/agent/mcorpc/ddl/agent/aggregators.go:
    summaries of the values replies have for an output.  Values reach an aggregator as
    strings, the only way [aggregateItem] hands them on; formatting, JSON encoding and
    the plot of a chart are the class [AggregateLib]. *)
From Stdlib Require Import Sorting.Sorted.

Class AggregateLib := {
  json_Encode : value → option string;
  (** [fmt.Sprintf] with [%v], with [%f], with a format and a float, and with a format,
      a string and a number *)
  Sprintf_v : value → string;
  Sprintf_f : float64 → string;
  Sprintf_float : string → float64 → string;
  Sprintf_count : string → string → nat → string;
  Plot : list float64 → string;
}.

Record SummaryAggregator := {
  s_items : gmap string nat;
  s_format : string;
  s_mapping : gmap string string;
}.

Record AverageAggregator := {
  a_sum : float64;
  a_count : Z;
  a_format : string;
}.

Inductive Aggregator :=
| Summary (s : SummaryAggregator)
| Average (a : AverageAggregator)
| Chart (items : list float64).

Definition value_lookup (k : string) (m : list (string * value)) : option value :=
  snd <$> List.find (λ kv, String.eqb kv.1 k) m.

Definition parseFormatFromArgs (args : list value) : string :=
  match args with
  | [_; VMap cfg] => match value_lookup "format" cfg with Some (VString format) => format | _ => "" end
  | _ => ""
  end.

Section Aggregate.
Context `{DL : DDLLib} `{AL : AggregateLib}.

(** Every key but [format]; [true] and [false] are their own encoding. *)
Definition parseBoolMapsFromArgs (args : list value) : gmap string string :=
  match args with
  | [_; VMap cfg] =>
      foldr (λ kv m, if String.eqb kv.1 "format" then m else <[kv.1 := Sprintf_v kv.2]> m) ∅ cfg
  | _ => ∅
  end.

Definition NewSummaryAggregator (args : list value) : SummaryAggregator :=
  {| s_items := ∅; s_format := parseFormatFromArgs args; s_mapping := parseBoolMapsFromArgs args |}.

Definition NewAverageAggregator (args : list value) : AverageAggregator :=
  {| a_sum := f64_of_Z 0; a_count := 0; a_format := parseFormatFromArgs args |}.

Definition AggregatorByType (t : string) (args : list value) : res Aggregator :=
  if String.eqb t "summary" || String.eqb t "boolean_summary" then Ok (Summary (NewSummaryAggregator args))
  else if String.eqb t "average" then Ok (Average (NewAverageAggregator args))
  else if String.eqb t "chart" then Ok (Chart [])
  else Err ("unknown aggregator '" +:+ t +:+ "'").

Definition summary_item (s : SummaryAggregator) (v : string) : string := default v (s_mapping s !! v).

Definition process_summary (v : string) (s : SummaryAggregator) : SummaryAggregator :=
  let item := summary_item s v in
  {| s_items := <[item := S (default 0 (s_items s !! item))]> (s_items s);
     s_format := s_format s; s_mapping := s_mapping s |}.

Definition process_average (v : string) (a : AverageAggregator) : AverageAggregator :=
  match ParseFloat64 v with
  | None => a
  | Some f => {| a_sum := f64_add (a_sum a) f; a_count := a_count a + 1; a_format := a_format a |}
  end.

(** An error leaves the aggregator as it was, and is dropped. *)
Definition ProcessValue (v : string) (g : Aggregator) : Aggregator :=
  match g with
  | Summary s => Summary (process_summary v s)
  | Average a => Average (process_average v a)
  | Chart items => Chart (match ParseFloat64 v with Some f => items ++ [f] | None => items end)
  end.

Definition average (a : AverageAggregator) : float64 := f64_div (a_sum a) (f64_of_Z (a_count a)).

Definition ResultStrings (g : Aggregator) : gmap string string :=
  match g with
  | Summary s => (λ n, itoa (Z.of_nat n)) <$> s_items s
  | Average a => {["Average" := Sprintf_f (average a)]}
  | Chart items => {["Chart" := Plot items]}
  end.

(** JSON has no encoding of a number that is not finite. *)
Inductive json_result := JCounts (m : gmap string nat) | JAverage (f : float64) | JChart (s : string).

Definition finite (f : float64) : bool :=
  match f with
  | Floats.SpecFloat.S754_nan | Floats.SpecFloat.S754_infinity _ => false
  | _ => true
  end.

Definition ResultJSON (g : Aggregator) : res json_result :=
  match g with
  | Summary s => Ok (JCounts (s_items s))
  | Average a => if finite (average a) then Ok (JAverage (average a)) else Err "json: unsupported value"
  | Chart items => Ok (JChart (Plot items))
  end.

Definition longest_key (s : SummaryAggregator) : nat :=
  foldr (λ kv m, max (String.length kv.1) m) 0 (map_to_list (s_items s)).

(** The order of equal counts is not determined. *)
Definition summary_order (s : SummaryAggregator) (l : list (string * nat)) : Prop :=
  l ≡ₚ map_to_list (s_items s) ∧ Sorted (λ a b, b.2 ≤ a.2) l.

Definition summary_format (s : SummaryAggregator) (format : string) : string :=
  if negb (String.eqb format "") then format
  else if negb (String.eqb (s_format s) "") then s_format s
  else "%" +:+ itoa (Z.of_nat (longest_key s)) +:+ "s: %d".

Definition average_format (a : AverageAggregator) (format : string) : string :=
  if negb (String.eqb format "") then format
  else if negb (String.eqb (a_format a) "") then a_format a else "Average: %.3f".

Inductive ResultFormattedStrings (format : string) : Aggregator → list string → Prop :=
| formatted_summary s l : summary_order s l →
    ResultFormattedStrings format (Summary s) (map (λ kv, Sprintf_count (summary_format s format) kv.1 kv.2) l)
| formatted_average a :
    ResultFormattedStrings format (Average a) [Sprintf_float (average_format a format) (average a)].

(** ** The aggregators of an action *)

(** Structural errors are passed over; an empty list of arguments is indexed. *)
Fixpoint newActionAggregators (specs : list ActionAggregateItem) (agg : gmap string Aggregator) :
    res (gmap string Aggregator) :=
  match specs with
  | [] => Ok agg
  | spec :: rest =>
      match agg_Arguments spec with
      | None => newActionAggregators rest agg
      | Some [] => Panic "index out of range [0] with length 0"
      | Some ((VString key :: _) as args) =>
          match AggregatorByType (agg_Function spec) args with
          | Ok instance => newActionAggregators rest (<[key := instance]> agg)
          | _ => newActionAggregators rest agg
          end
      | Some _ => newActionAggregators rest agg
      end
  end.

Definition OutputName (i : ActionAggregateItem) : string :=
  match agg_Arguments i with Some (VString output :: _) => output | _ => "unknown" end.

Definition item_string (val : value) : option string :=
  match val with VString s => Some s | _ => json_Encode val end.

Definition aggregateItem (item : string) (val : value) (agg : gmap string Aggregator) : gmap string Aggregator :=
  match item_string val with
  | None => agg
  | Some vs => alter (ProcessValue vs) item agg
  end.

(** The aggregators are made when the first result arrives. *)
Definition AggregateResult (a : Action) (agg : option (gmap string Aggregator)) (result : list (string * value)) :
    res (gmap string Aggregator) :=
  agg ← match agg with Some g => Ok g | None => newActionAggregators (act_Aggregation a) ∅ end;
  Ok (foldl (λ g kv, aggregateItem kv.1 kv.2 g) agg result).

Definition AggregateResultJSON (a : Action) (agg : option (gmap string Aggregator)) (jres : string) :
    res (gmap string Aggregator) :=
  match json_Object jres with
  | None => Err "could not parse result as JSON data"
  | Some res => AggregateResult a agg res
  end.

Definition resultStrings (agg : gmap string Aggregator) : gmap string (gmap string string) := ResultStrings <$> agg.

Definition resultJSON (agg : gmap string Aggregator) : gmap string json_result :=
  omap (λ g, match ResultJSON g with Ok j => Some j | _ => None end) agg.

End Aggregate.

(** ** Inputs on their way to a server

    A client encodes the converted inputs, a server decodes them into an [any]. *)

(** [utf8.ValidString] *)
Fixpoint valid_utf8 (s : string) : bool :=
  let byte (c : ascii) (lo hi : nat) : bool := (lo <=? nat_of_ascii c)%nat && (nat_of_ascii c <=? hi)%nat in
  let next (c : ascii) : bool := byte c 128 191 in
  match s with
  | EmptyString => true
  | String c r =>
      if byte c 0 127 then valid_utf8 r
      else match r with
      | String c1 r1 =>
          if byte c 194 223 && next c1 then valid_utf8 r1
          else match r1 with
          | String c2 r2 =>
              if (byte c 224 224 && byte c1 160 191 || byte c 237 237 && byte c1 128 159 ||
                  (byte c 225 236 || byte c 238 239) && next c1) && next c2 then valid_utf8 r2
              else match r2 with
              | String c3 r3 =>
                  (byte c 240 240 && byte c1 144 191 || byte c 241 243 && next c1 || byte c 244 244 && byte c1 128 143)
                  && next c2 && next c3 && valid_utf8 r3
              | EmptyString => false
              end
          | EmptyString => false
          end
      | EmptyString => false
      end
  end.

(** Values JSON carries: numbers are finite, text is UTF-8, and a document is not nested
    deeper than so many levels; the decoder has a limit of 10000. *)
Fixpoint carried (levels : nat) (v : value) : bool :=
  match levels with
  | O => false
  | S levels =>
      match v with
      | VNil | VBool _ | VNilMap | VNilSlice => true
      | VInt _ z => (int64_min <=? z)%Z && (z <=? int64_max)%Z
      | VFloat64 f => finite f && Floats.SpecFloat.valid_binary f64_prec f64_emax f
      | VString s => valid_utf8 s
      | VMap m => forallb (λ kv, valid_utf8 kv.1 && carried levels kv.2) m
      | VSlice l => forallb (carried levels) l
      | VFloat32 _ | VOther => false
      end
  end.

Definition json_levels : nat := 1000.

(** What arrives: numbers are doubles, what is nil is nil, and a map or slice stays one,
    whatever becomes of its elements. *)
Definition arrives (v v' : value) : Prop :=
  match v with
  | VNil | VNilMap | VNilSlice => v' = VNil
  | VBool b => v' = VBool b
  | VInt _ z => v' = VFloat64 (f64_of_Z z)
  | VFloat64 f => v' = VFloat64 f
  | VString s => v' = VString s
  | VMap _ => ∃ m, v' = VMap m
  | VSlice _ => ∃ l, v' = VSlice l
  | VFloat32 _ | VOther => False
  end.

Definition arrived (m m' : gmap string value) : Prop :=
  ∀ k, match m !! k, m' !! k with
       | Some v, Some v' => arrives v v'
       | None, None => True
       | _, _ => False
       end.

(** [json.Marshal] of the inputs of a request, and what [json.Unmarshal] makes of it. *)
Class JSONCopy `{DLL : DDLLib} := {
  json_Marshal : gmap string value → option string;
  marshalled_arrives m :
    map_Forall (λ k v, valid_utf8 k = true ∧ carried json_levels v = true) m →
    ∃ doc l, json_Marshal m = Some doc ∧ json_Object doc = Some l ∧ arrived m (list_to_map (rev l));
}.

(** * Agent DDLs: properties

    What the validation of inputs accepts, that what the command line converts is what
    servers accept, and what aggregators count. *)
From S2P Require Import DemoLibs.

(** ** Addresses *)

(** An address is either an IPv4 or an IPv6 address: whatever the string, the
    validator of addresses accepts it exactly when one of the other two does, and these
    never accept the same string. *)
Theorem addresses_partition (s : string) :
  is_ok (ipaddress.ValidateString s) = is_ok (ipv4.ValidateString s) || is_ok (ipv6.ValidateString s) ∧
  is_ok (ipv4.ValidateString s) && is_ok (ipv6.ValidateString s) = false.
Proof.
  unfold ipaddress.ValidateString, ipv4.ValidateString, ipv6.ValidateString.
  destruct (ParseIP s) as [ip|]; [|done]. cbn. by destruct (To4 ip).
Qed.

(** ** The inputs of a request *)

Lemma shellsafe_spec (s : string) :
  shellsafe.Validate s = Ok tt ↔ ∀ c, c ∈ shellsafe.badchars → str_contains s c = false.
Proof.
  unfold shellsafe.Validate. induction shellsafe.badchars as [|c l IH]; cbn [shellsafe.check].
  - split; [intros _ c Hc; by apply elem_of_nil in Hc|done].
  - setoid_rewrite elem_of_cons. destruct (str_contains s c) eqn:Hc.
    + split; [done|]. intros H. rewrite (H c) in Hc by auto. done.
    + rewrite IH. naive_solver.
Qed.

Section DDL.
Context `{DL : DDLLib} `{RX : Regexp}.

(** A value an input of the action declares and accepts. *)
Definition valid_entry (a : Action) (k : string) (v : value) : Prop :=
  ∃ i, act_Input a !! k = Some i ∧ (ValidateValue i v).2 = Ok tt.

Lemma sorted_keys_elem {A} (m : gmap string A) k : k ∈ sorted_keys m ↔ is_Some (m !! k).
Proof.
  unfold sorted_keys. rewrite sort_strings_elem, list_elem_of_fmap. split.
  - intros ([k' v] & -> & Hk). apply elem_of_map_to_list in Hk. by exists v.
  - intros [v Hv]. exists (k, v). split; [done|]. by apply elem_of_map_to_list.
Qed.

Lemma string_validation_no_panic v s p : (validateStringValidation v s).2 ≠ Panic p.
Proof.
  unfold validateStringValidation, ipv4.ValidateString, ipv6.ValidateString, ipaddress.ValidateString,
    regex.ValidateString.
  repeat case_match; cbn [snd]; try done. unfold shellsafe.Validate.
  induction shellsafe.badchars; cbn [shellsafe.check]; [done|]. by case_match.
Qed.

Lemma ValidateValue_no_panic i v p : (ValidateValue i v).2 ≠ Panic p.
Proof. unfold ValidateValue. repeat case_match; try done. apply string_validation_no_panic. Qed.

(** What [ValidateRequestData] looks for in the data once the inputs are checked. *)
Lemma undeclared_spec a (data : gmap string value) :
  List.find (λ iname, negb (elem iname (InputNames a))) (map fst (map_to_list data)) = None ↔
  ∀ n, is_Some (data !! n) → n ∈ InputNames a.
Proof.
  assert (∀ n, In n (map fst (map_to_list data)) ↔ is_Some (data !! n)) as Hin.
  { intros n. rewrite <- list_elem_of_In, list_elem_of_fmap. split.
    - intros ([k v] & -> & Hk). apply elem_of_map_to_list in Hk. by exists v.
    - intros [v Hv]. exists (n, v). split; [done|]. by apply elem_of_map_to_list. }
  split.
  - intros H n Hn. apply elem_true, negb_false_iff. by eapply (List.find_none _ _ H), Hin.
  - intros H. destruct (List.find _ _) as [n|] eqn:Hf; [|done]. apply List.find_some in Hf as [Hn Hf].
    apply Hin, H, elem_true in Hn. by rewrite Hn in Hf.
Qed.

Lemma validate_inputs_ok a names data w : (∀ n, n ∈ names → is_Some (act_Input a !! n)) →
  (validate_inputs a names data w).2 = Ok tt ↔
  ∀ n, n ∈ names → match data !! n with
                   | Some v => valid_entry a n v
                   | None => RequiresInput a n = false
                   end.
Proof.
  intros Hn. revert w. induction names as [|n names IH]; intros w; cbn [validate_inputs].
  { split; [intros _ n Hn'; by apply elem_of_nil in Hn'|done]. }
  assert (∀ n, n ∈ names → is_Some (act_Input a !! n)) as Hn' by (intros n' H; apply Hn; by right).
  setoid_rewrite elem_of_cons. destruct (data !! n) as [v|] eqn:Hv.
  - destruct (Hn n) as [i Hi]; [by left|]. unfold ValidateInputValue. rewrite Hi.
    destruct (ValidateValue i v) as [w' r] eqn:Hval. destruct r as [[]|e|p].
    + rewrite (IH Hn'). split; [|naive_solver]. intros H n' [->|Hin]; [|by apply H].
      rewrite Hv. exists i. by rewrite Hval.
    + split; [done|]. intros H. specialize (H n (or_introl eq_refl)). rewrite Hv in H. destruct H as (i' & Hi' & H).
      rewrite Hi in Hi'. injection Hi' as <-. by rewrite Hval in H.
    + by destruct (ValidateValue_no_panic i v p); rewrite Hval.
  - destruct (RequiresInput a n) eqn:Hr.
    + split; [done|]. intros H. specialize (H n (or_introl eq_refl)). rewrite Hv in H. congruence.
    + rewrite (IH Hn'). split; [|naive_solver]. intros H n' [->|Hin]; [by rewrite Hv|by apply H].
Qed.

(** A server accepts the data of a request exactly when, [process_results] apart,
    every required input has a value and every value is one its declared input accepts. *)
Theorem request_data_accepted (a : Action) (data : gmap string value) :
  let data' := delete "process_results" data in
  (ValidateRequestData a data).2.2 = Ok tt ↔
  (∀ n, RequiresInput a n = true → is_Some (data' !! n)) ∧ (∀ n v, data' !! n = Some v → valid_entry a n v).
Proof.
  intros data'. unfold ValidateRequestData. fold data'. cbn [snd].
  assert (∀ n, n ∈ InputNames a ↔ is_Some (act_Input a !! n)) as Hnames by apply sorted_keys_elem.
  pose proof (validate_inputs_ok a (InputNames a) data' [] (λ n, proj1 (Hnames n))) as Hspec.
  assert ((∀ n, RequiresInput a n = true → is_Some (data' !! n)) ∧ (∀ n v, data' !! n = Some v → valid_entry a n v) ↔
    (validate_inputs a (InputNames a) data' []).2 = Ok tt ∧ ∀ n, is_Some (data' !! n) → n ∈ InputNames a) as ->.
  { rewrite Hspec. setoid_rewrite Hnames. split.
    - intros [Hr Hv]. split; [|intros n [v Hn]; by destruct (Hv _ _ Hn) as (i & Hi & _); exists i].
      intros n _. destruct (data' !! n) as [v|] eqn:Hn; [by apply Hv|].
      destruct (RequiresInput a n) eqn:Hrn; [|done]. destruct (Hr _ Hrn). congruence.
    - intros [Hin Hd]. split.
      + intros n Hn. assert (is_Some (act_Input a !! n)) as Hi.
        { unfold RequiresInput in Hn. by destruct (act_Input a !! n). }
        specialize (Hin n Hi). destruct (data' !! n); [done|congruence].
      + intros n v Hn. specialize (Hin n (Hd n ltac:(by exists v))). by rewrite Hn in Hin. }
  rewrite <- undeclared_spec. clear Hspec.
  destruct (validate_inputs a (InputNames a) data' []) as [w [[]|e|p]]; cbn [snd]; [|split; [done|by intros []]..].
  destruct (Nat.eqb (length (InputNames a)) 0 && Nat.ltb 0 (size data')) eqn:Hnone; cbn [snd].
  - split; [done|]. intros [_ Hf]. exfalso. bprop. rewrite undeclared_spec in Hf.
    destruct (map_choose data') as (k & v & Hv); [by intros Hm; rewrite Hm, map_size_empty in *; lia|].
    specialize (Hf k ltac:(by exists v)). apply nil_length_inv in H. rewrite H in Hf. by apply elem_of_nil in Hf.
  - destruct (List.find _ _); cbn [snd]; naive_solver.
Qed.

(** ** From the command line *)

Definition all_valid (a : Action) (r : gmap string value) : Prop := map_Forall (valid_entry a) r.

Lemma ValidateStringValue_ok i s v w : ValidateStringValue i s = (v, (w, Ok tt)) → (ValidateValue i v).2 = Ok tt.
Proof. unfold ValidateStringValue. destruct (ValToDDLType _ _); intros [= <- H]. by rewrite H. Qed.

Lemma convert_args_valid a args r w r' w' : all_valid a r →
  convert_args a args r w = (r', (w', Ok tt)) → all_valid a r'.
Proof.
  revert r w. induction args as [|[k s] args IH]; intros r w Hr; cbn [convert_args]; [by intros [= <- _]|].
  destruct (act_Input a !! to_lower k) as [i|] eqn:Hi; [|done].
  destruct (ValidateStringValue i s) as [v [w1 [[]|e|p]]] eqn:Hv; [|done..]. apply IH.
  apply map_Forall_insert_2; [|done]. exists i. split; [done|]. by eapply ValidateStringValue_ok.
Qed.

(** The defaults an action declares are values its inputs accept. *)
Definition valid_defaults (a : Action) : Prop :=
  ∀ n i, act_Input a !! n = Some i → is_nil_value (in_Default i) = false → (ValidateValue i (in_Default i)).2 = Ok tt.

Lemma convert_missing_ok a names r r' : valid_defaults a → all_valid a r →
  convert_missing a names r = (r', Ok tt) →
  all_valid a r' ∧ r ⊆ r' ∧ ∀ n, n ∈ names → RequiresInput a n = true → is_Some (r' !! n).
Proof.
  intros Hd. revert r. induction names as [|n names IH]; intros r Hr; cbn [convert_missing].
  { intros [= <-]. split_and!; [done..|]. intros n Hn. by apply elem_of_nil in Hn. }
  assert (∀ r1, all_valid a r1 → r ⊆ r1 → (RequiresInput a n = true → is_Some (r1 !! n)) →
    convert_missing a names r1 = (r', Ok tt) → all_valid a r' ∧ r ⊆ r' ∧
    ∀ n', n' ∈ n :: names → RequiresInput a n' = true → is_Some (r' !! n')) as Hgo.
  { intros r1 Hr1 Hsub Hn Hc. destruct (IH r1 Hr1 Hc) as (H1 & H2 & H3).
    split_and!; [done|by etransitivity|]. intros n' [->|Hn']%elem_of_cons Hq; [|by apply H3].
    destruct (Hn Hq) as [v Hv]. exists v. by eapply lookup_weaken. }
  unfold RequiresInput in Hgo at 1.
  destruct (r !! n) as [v|] eqn:Hv; [apply Hgo; [done..|by eexists]|].
  destruct (act_Input a !! n) as [i|] eqn:Hi; [|by apply Hgo].
  destruct (Required i && is_nil_value (in_Default i)) eqn:Hq; [done|].
  destruct (is_nil_value (in_Default i)) eqn:Hnil; [apply Hgo; [done..|rewrite andb_true_r in Hq; congruence]|].
  apply Hgo; [|by apply insert_subseteq|by rewrite lookup_insert_eq; eexists].
  apply map_Forall_insert_2; [|done]. exists i. split; [done|]. by eapply Hd.
Qed.

Lemma conversion_ok a args r w : valid_defaults a → ValidateAndConvertToDDLTypes a args = (r, (w, Ok tt)) →
  all_valid a r ∧ ∀ n, RequiresInput a n = true → is_Some (r !! n).
Proof.
  intros Hd. unfold ValidateAndConvertToDDLTypes.
  destruct (convert_args a args ∅ []) as [r1 [w1 [[]|e|p]]] eqn:Hc; [|done..].
  destruct (convert_missing a (InputNames a) r1) as [r2 x] eqn:Hm. intros [= <- _ ->].
  apply convert_args_valid in Hc; [|by apply map_Forall_empty].
  destruct (convert_missing_ok a (InputNames a) r1 r2 Hd Hc Hm) as (H1 & _ & H3). split; [done|].
  intros n Hn. apply H3; [|done]. apply sorted_keys_elem. unfold RequiresInput in Hn. by destruct (act_Input a !! n).
Qed.

(** What is converted is fit for the validation of a request, were it passed as it is. *)
Lemma converted_validates a args r w : valid_defaults a → act_Input a !! "process_results" = None →
  ValidateAndConvertToDDLTypes a args = (r, (w, Ok tt)) →
  all_valid a r ∧ (∀ n, RequiresInput a n = true → is_Some (r !! n)) ∧ r !! "process_results" = None.
Proof.
  intros Hd Hp Hc. destruct (conversion_ok a args r w Hd Hc) as [Hv Hr]. split_and!; [done..|].
  destruct (r !! "process_results") as [v|] eqn:H; [|done]. destruct (Hv _ _ H) as (i & Hi & _). congruence.
Qed.

(** A validation that succeeds has no warnings. *)
Lemma accepted_without_warnings a data :
  (ValidateRequestData a data).2.2 = Ok tt ↔ (ValidateRequestData a data).2 = ([], Ok tt).
Proof.
  split; [|by intros ->]. unfold ValidateRequestData. cbn [snd].
  destruct (validate_inputs _ _ _ _) as [w' [[]|e|p]]; [|done..].
  destruct (_ && _); [done|]. by destruct (List.find _ _).
Qed.

(** ** To a server *)

(** What a declared input makes of a value once JSON carried it: a nil map or slice is
    refused, an integer has to be one as a double unless any number will do. *)
Definition survives (i : InputItem) (v : value) : bool :=
  match v with
  | VNilMap | VNilSlice => false
  | VInt _ z => String.eqb (to_lower (in_Type i)) "number" || IsIntFloat64 (VFloat64 (f64_of_Z z))
  | _ => true
  end.

Lemma nil_is_no_input i : (ValidateValue i VNil).2 ≠ Ok tt.
Proof. unfold ValidateValue. by repeat case_match. Qed.

Lemma integer_accepted i k z : (ValidateValue i (VInt k z)).2 = Ok tt →
  (ValidateValue i (VFloat64 (f64_of_Z z))).2 = Ok tt ↔ survives i (VInt k z) = true.
Proof.
  unfold ValidateValue, survives. change (IsAnyInt (VInt k z)) with true. change (IsNumber (VInt k z)) with true.
  change (IsAnyInt (VFloat64 (f64_of_Z z))) with false. change (IsNumber (VFloat64 (f64_of_Z z))) with true.
  change (IsFloat64 (VInt k z)) with false. cbn [orb negb].
  destruct (String.eqb _ "integer" || String.eqb _ "int") eqn:Hint.
  - intros _. assert (String.eqb (to_lower (in_Type i)) "number" = false) as ->.
    { apply orb_true_iff in Hint as [->%String.eqb_eq| ->%String.eqb_eq]; reflexivity. }
    cbn [orb]. by destruct (IsIntFloat64 _).
  - destruct (String.eqb _ "number"); [done|]. by repeat case_match.
Qed.

Lemma arrives_valid i v v' : arrives v v' → (ValidateValue i v).2 = Ok tt →
  (ValidateValue i v').2 = Ok tt ↔ survives i v = true.
Proof.
  pose proof (nil_is_no_input i) as Hnil.
  intros Ha Hok. destruct v; cbn [arrives] in Ha; [subst; done|subst; done| | |subst; done..| | | | |done].
  - subst. by apply integer_accepted.
  - done.
  - destruct Ha as [m' ->]. split; [done|intros _; exact Hok].
  - destruct Ha as [l' ->]. split; [done|intros _; exact Hok].
  - subst. by split.
  - subst. by split.
Qed.

(** The inputs of an action have names that are text, none is the reserved one, and the
    defaults are valid. *)
Record sound_inputs (a : Action) : Prop := {
  si_defaults : valid_defaults a;
  si_reserved : act_Input a !! "process_results" = None;
  si_names n : is_Some (act_Input a !! n) → valid_utf8 n = true;
}.

Section Copied.
Context `{JC : !JSONCopy}.

(** C39. What the command line converts is what servers accept: whatever strings a user
    gives and in whatever order, when they convert to the types of an action and JSON can
    carry what they convert to, the request can be encoded and the server's validation of
    what it decodes succeeds, without warnings, exactly when no hash or array was given
    as [null] and every integer is an integer still as a double. *)
Theorem converted_inputs_accepted (a : Action) (args : list (string * string)) (r : gmap string value)
    (w : list string) :
  sound_inputs a → ValidateAndConvertToDDLTypes a args = (r, (w, Ok tt)) →
  map_Forall (λ _ v, carried json_levels v = true) r →
  ∃ doc, json_Marshal r = Some doc ∧
    (ValidateRequestJSON a doc = ([], Ok tt) ↔
     ∀ n v i, r !! n = Some v → act_Input a !! n = Some i → survives i v = true).
Proof.
  intros [Hd Hp Hn] Hc Hcar. destruct (converted_validates a args r w Hd Hp Hc) as (Hv & Hr & Hnone).
  destruct (marshalled_arrives r) as (doc & l & Hdoc & Hl & Harr).
  { intros k v Hk. split; [|by eapply Hcar]. destruct (Hv _ _ Hk) as (i & Hi & _). apply Hn. by eexists. }
  exists doc. split; [done|]. unfold ValidateRequestJSON. rewrite Hl.
  set (data := list_to_map (rev l)) in *.
  rewrite <- accepted_without_warnings, request_data_accepted.
  assert (delete "process_results" data = data) as ->.
  { apply delete_id. specialize (Harr "process_results"). rewrite Hnone in Harr. by destruct (data !! _). }
  split.
  - intros [_ Hall] n v i Hnv Hi. specialize (Harr n). rewrite Hnv in Harr. destruct (data !! n) as [v'|] eqn:Hn'; [|done].
    destruct (Hv _ _ Hnv) as (i1 & Hi1 & Hok). destruct (Hall _ _ Hn') as (i2 & Hi2 & Hok').
    simplify_eq. by eapply arrives_valid.
  - intros Hs. split.
    + intros n Hq. destruct (Hr n Hq) as [v Hnv]. specialize (Harr n). rewrite Hnv in Harr. by destruct (data !! n).
    + intros n v' Hn'. specialize (Harr n). rewrite Hn' in Harr. destruct (r !! n) as [v|] eqn:Hnv; [|done].
      destruct (Hv _ _ Hnv) as (i & Hi & Hok). exists i. split; [done|].
      eapply arrives_valid; [done..|by eapply Hs].
Qed.

End Copied.

(** ** Strings *)

(** The validation an input of type string declares applies only when the input also
    declares a maximal length: without one every string is accepted, whatever shell
    meta characters it has, and with one a [shellsafe] input accepts exactly the strings
    that are not longer and have none of them. *)
Theorem string_input_accepts (i : InputItem) (s : string) :
  to_lower (in_Type i) = "string" →
  (in_MaxLength i = 0%Z → (ValidateValue i (VString s)).2 = Ok tt) ∧
  (in_MaxLength i ≠ 0%Z → in_Validation i = "shellsafe" →
   (ValidateValue i (VString s)).2 = Ok tt ↔
   (Z.of_nat (String.length s) ≤ in_MaxLength i)%Z ∧ ∀ c, c ∈ shellsafe.badchars → str_contains s c = false).
Proof.
  intros Ht. unfold ValidateValue. rewrite Ht. cbn -[validateStringValidation]. split.
  - intros ->. done.
  - intros Hm Hv. rewrite (proj2 (Z.eqb_neq _ _) Hm). destruct (Z.ltb_spec (in_MaxLength i) (Z.of_nat (String.length s))).
    + cbn. split; [done|lia].
    + rewrite Hv. cbn -[shellsafe.Validate]. rewrite shellsafe_spec. naive_solver.
Qed.

End DDL.

(** ** Structures *)

(** A field of a structure, or of a structure that is one of its fields. *)
Inductive within : list field → string → string → field_value → Prop :=
| within_here l n t v : Field n t v ∈ l → within l n t v
| within_nested l n t fields n' t' v' : Field n t (FStruct fields) ∈ l → within fields n' t' v' → within l n' t' v'.

Section Struct.
Context `{RX : Regexp} `{TLib : TimeLib}.

Lemma validate_value_eq n t v : validate_value n t v =
  ((match v with FStruct fields => validateStructValue fields | _ => Ok tt end);; validate_tag n v t).
Proof. by destruct v. Qed.

Lemma validateStructValue_ok fields : validateStructValue fields = Ok tt ↔
  ∀ n t v, Field n t v ∈ fields → validate_value n (trim_space t) v = Ok tt.
Proof.
  induction fields as [|[n t v] fields IH]; cbn [validateStructValue].
  { split; [intros _ n t v Hin; by apply elem_of_nil in Hin|done]. }
  setoid_rewrite elem_of_cons. destruct (validate_value n (trim_space t) v) as [[]|e|p] eqn:Hv; cbn [mbind outcome_bind].
  - rewrite IH. split; [|naive_solver]. intros H n' t' v' [[= -> -> ->]|Hin]; [done|by apply H].
  - split; [done|]. intros H. specialize (H n t v (or_introl eq_refl)). congruence.
  - split; [done|]. intros H. specialize (H n t v (or_introl eq_refl)). congruence.
Qed.

Fixpoint depth (v : field_value) : nat :=
  match v with
  | FStruct fields => S ((fix go (l : list field) := match l with [] => 0 | Field _ _ w :: r => max (depth w) (go r) end) fields)
  | _ => 0
  end.

Lemma depth_field n t v fields : Field n t v ∈ fields → depth v < depth (FStruct fields).
Proof.
  cbn [depth]. induction fields as [|[n' t' v'] fields IH]; intros Hin; [by apply elem_of_nil in Hin|].
  apply elem_of_cons in Hin as [[= <- <- <-]|Hin]; [lia|]. specialize (IH Hin). lia.
Qed.

(** A structure validates exactly when every field in it, however deep, is valid for
    its own tag. *)
Theorem struct_valid_iff (fields : list field) :
  ValidateStruct fields = Ok tt ↔ ∀ n t v, within fields n t v → validate_tag n v (trim_space t) = Ok tt.
Proof.
  unfold ValidateStruct. remember (depth (FStruct fields)) as d eqn:Hd. revert fields Hd.
  induction (lt_wf d) as [d _ IH]. intros fields ->. rewrite validateStructValue_ok. split.
  - intros H n t v Hw. inversion Hw as [l n1 t1 v1 Hin|l n1 t1 fields' n' t' v' Hin Hw']; subst.
    + specialize (H _ _ _ Hin). rewrite validate_value_eq in H.
      destruct v; try done. by destruct (validateStructValue _) as [[]| |].
    + specialize (H _ _ _ Hin). rewrite validate_value_eq in H. cbn in H.
      destruct (validateStructValue fields') as [[]| |] eqn:Hf; [|done..].
      by eapply (IH _ (depth_field _ _ _ _ Hin) fields' eq_refl).
  - intros H n t v Hin. rewrite validate_value_eq.
    assert ((match v with FStruct fs => validateStructValue fs | _ => Ok tt end) = Ok tt) as ->.
    { destruct v as [| | |fields'|]; try done. apply (IH _ (depth_field _ _ _ _ Hin) fields' eq_refl).
      intros n' t' v' Hw. apply H. by eapply within_nested. }
    cbn. apply H. by apply within_here.
Qed.

End Struct.

(** ** Aggregation *)

Section Aggregation.
Context `{DL : DDLLib} `{AL : AggregateLib}.

(** The values a list of results has for an output, as aggregators see them. *)
Definition output_values (out : string) (results : list (string * value)) : list string :=
  omap (λ kv : string * value, if String.eqb kv.1 out then item_string kv.2 else None) results.

Definition occurrences (s : SummaryAggregator) (item : string) (l : list string) : nat :=
  length (List.filter (λ v, String.eqb (summary_item s v) item) l).

Lemma aggregate_summary out results g s : g !! out = Some (Summary s) →
  ∃ s', foldl (λ g kv, aggregateItem kv.1 kv.2 g) g results !! out = Some (Summary s') ∧
    s_mapping s' = s_mapping s ∧
    ∀ item, default 0 (s_items s' !! item) =
            default 0 (s_items s !! item) + occurrences s item (output_values out results).
Proof.
  revert g s. induction results as [|[k v] results IH]; intros g s Hg; cbn [foldl].
  { exists s. unfold occurrences, output_values. cbn. split_and!; [done..|lia]. }
  unfold output_values. cbn. unfold aggregateItem at 2. destruct (String.eqb_spec k out) as [->|Hne].
  - destruct (item_string v) as [vs|] eqn:Hs.
    + destruct (IH (alter (ProcessValue vs) out g) (process_summary vs s)) as (s' & Hs' & Hm & Hc).
      { by rewrite lookup_alter_eq, Hg. }
      exists s'. split_and!; [done|done|]. intros item. rewrite Hc. unfold occurrences. cbn [List.filter].
      change (summary_item (process_summary vs s)) with (summary_item s). fold (output_values out results).
      cbn [process_summary s_items]. destruct (String.eqb_spec (summary_item s vs) item) as [<-|Hi].
      * rewrite lookup_insert_eq. cbn. lia.
      * rewrite lookup_insert_ne by done. done.
    + by apply IH.
  - destruct (item_string v) as [vs|] eqn:Hs; [|by apply IH].
    apply IH. by rewrite lookup_alter_ne by done.
Qed.

(** A summary counts: after any results, each item has been counted once for every
    value of its output that maps to it, in the results so far and in the new ones. *)
Theorem summary_counts (a : Action) (out : string) (results : list (string * value)) (g : gmap string Aggregator)
    (s : SummaryAggregator) :
  g !! out = Some (Summary s) →
  ∃ g' s', AggregateResult a (Some g) results = Ok g' ∧ g' !! out = Some (Summary s') ∧
    ∀ item, default 0 (s_items s' !! item) =
            default 0 (s_items s !! item) + occurrences s item (output_values out results).
Proof.
  intros Hg. destruct (aggregate_summary out results g s Hg) as (s' & Hs' & _ & Hc).
  eexists _, s'. split_and!; [done|done|done].
Qed.

(** An aggregation without arguments panics when the first result arrives. *)
Lemma empty_arguments_panic a g f rest results : act_Aggregation a = {| agg_Function := f; agg_Arguments := Some [] |} :: rest →
  g = None → is_panic (AggregateResult a g results) = true.
Proof. intros Ha ->. unfold AggregateResult. by rewrite Ha. Qed.

(** An average of no values is no number, and has no encoding. *)
Lemma empty_average args : ResultJSON (Average (NewAverageAggregator args)) = Err "json: unsupported value".
Proof. reflexivity. Qed.

End Aggregation.

(** ** Finding a DDL *)

Section Find.
Context `{DL : DDLLib} `{RX : Regexp} `{DF : DDLFiles}.

(** The search does not end at the first file of an agent, it takes the last. *)
Lemma find_locally_last fs agent libdirs pre f post :
  CachedDDL agent = None → each_file "agent" libdirs = pre ++ (agent, f) :: post →
  Forall (λ x, x.1 ≠ agent) post →
  FindLocally fs agent libdirs =
    match NewDDL fs f with
    | Ok d => Ok d
    | Err e => Err ("could not load agent " +:+ agent +:+ ": " +:+ e)
    | Panic p => Err ("could not load agent " +:+ agent +:+ ": " +:+ p)
    end.
Proof.
  intros Hc Hf Hpost. unfold FindLocally, EachFile. rewrite Hc, Hf, foldl_app. cbn [foldl fst snd].
  unfold find_cb at 2. rewrite String.eqb_refl. cbn [fst].
  assert (∀ s, foldl (λ s f, (find_cb fs agent f.1 f.2 s).1) s post = s) as ->.
  { clear Hf. induction Hpost as [|[n q] post Hn _ IH]; intros s; [done|]. cbn [foldl fst snd].
    unfold find_cb at 2. cbn in Hn. rewrite (proj2 (String.eqb_neq _ _) Hn). apply IH. }
  by destruct (NewDDL fs f).
Qed.

End Find.

(** The largest integer a user can give converts, and is refused once JSON made it a
    float. *)
Lemma largest_integer_refused :
  IsAnyInt (VInt KInt64 int64_max) = true ∧ IsIntFloat64 (VFloat64 (f64_of_Z int64_max)) = false.
Proof. split; vm_compute; reflexivity. Qed.

(** ** Concrete instances *)

(** Documents of a flat JSON: the members of an object, as numbers written in binary. *)
Definition flat_code : Type := nat * (Z * (Z * string)).

Definition float_code (f : float64) : flat_code :=
  match f with
  | Floats.SpecFloat.S754_zero s => (2, ((if s then 1 else 0)%Z, (0%Z, "")))
  | Floats.SpecFloat.S754_infinity s => (3, ((if s then 1 else 0)%Z, (0%Z, "")))
  | Floats.SpecFloat.S754_nan => (4, (0%Z, (0%Z, "")))
  | Floats.SpecFloat.S754_finite s m e => (5, ((if s then Z.neg m else Z.pos m), (e, "")))
  end.

Definition value_code (v : value) : flat_code :=
  match v with
  | VBool b => (1, ((if b then 1 else 0)%Z, (0%Z, "")))
  | VInt _ z => float_code (f64_of_Z z)
  | VFloat32 f | VFloat64 f => float_code f
  | VString s => (6, (0%Z, (0%Z, s)))
  | VMap _ => (7, (0%Z, (0%Z, "")))
  | VSlice _ => (8, (0%Z, (0%Z, "")))
  | VNil | VNilMap | VNilSlice | VOther => (0, (0%Z, (0%Z, "")))
  end.

Definition code_value (c : flat_code) : value :=
  let '(tag, (z, (e, s))) := c in
  match tag with
  | 1 => VBool (Z.eqb z 1)
  | 2 => VFloat64 (Floats.SpecFloat.S754_zero (Z.eqb z 1))
  | 3 => VFloat64 (Floats.SpecFloat.S754_infinity (Z.eqb z 1))
  | 4 => VFloat64 Floats.SpecFloat.S754_nan
  | 5 => VFloat64 (Floats.SpecFloat.S754_finite (z <? 0)%Z (Z.to_pos (Z.abs z)) e)
  | 6 => VString s
  | 7 => VMap []
  | 8 => VSlice []
  | _ => VNil
  end.

Fixpoint binary_digits (p : positive) : string :=
  match p with xH => "h" | xO p => String "0" (binary_digits p) | xI p => String "1" (binary_digits p) end.

Fixpoint parse_digits (s : string) : option positive :=
  match s with
  | String c rest =>
      if Ascii.eqb c "h" then Some xH
      else if Ascii.eqb c "0" then xO <$> parse_digits rest
      else if Ascii.eqb c "1" then xI <$> parse_digits rest else None
  | EmptyString => None
  end.

#[local] Instance demo_ddl_lib : DDLLib := {|
  ParseFloat64 := λ s, f64_of_Z <$> atoi s;
  json_Object := λ s,
    if json_null s || String.eqb s "{}" then Some []
    else p ← parse_digits s; l ← decode (A := list (string * flat_code)) p; Some (map (prod_map id code_value) l);
  json_Array := λ s, if String.eqb s "[]" || json_null s then Some [] else None;
|}.

Lemma parse_binary_spec p : parse_digits (binary_digits p) = Some p.
Proof. induction p as [p IH|p IH|]; cbn; [by rewrite IH..|done]. Qed.

Lemma binary_not_empty p : String.eqb (binary_digits p) "{}" = false.
Proof. by destruct p. Qed.

Lemma binary_not_null p : json_null (binary_digits p) = false.
Proof. unfold json_null. apply bool_decide_eq_false. by destruct p. Qed.

Lemma value_code_arrives v : carried json_levels v = true → arrives v (code_value (value_code v)).
Proof.
  assert (∀ f, code_value (float_code f) = VFloat64 f) as Hf by (intros [[]|[]| |[] m e]; reflexivity).
  destruct v as [|[]| | | | | | | | |]; cbn [value_code arrives]; intros Hc; try done; try apply Hf; by eexists.
Qed.

#[local] Program Instance demo_json_copy : JSONCopy := {|
  json_Marshal := λ m, Some (binary_digits (encode (map (prod_map id value_code) (map_to_list m))));
|}.
Next Obligation.
  intros m Hm. eexists _, (map_to_list ((λ v, code_value (value_code v)) <$> m)). split_and!; [done|..].
  - cbn. rewrite binary_not_null, binary_not_empty, parse_binary_spec. cbn. rewrite decode_encode. cbn.
    rewrite map_to_list_fmap, map_map. f_equal.
  - intros k. rewrite (list_to_map_proper _ (map_to_list ((λ v, code_value (value_code v)) <$> m))),
      list_to_map_to_list, lookup_fmap.
    + destruct (m !! k) as [v|] eqn:Hk; [|done]. apply value_code_arrives. by eapply Hm.
    + rewrite <- Permutation_rev. apply NoDup_fst_map_to_list.
    + symmetry. apply Permutation_rev.
Qed.

#[local] Instance demo_aggregate_lib : AggregateLib := {|
  json_Encode := λ v, match v with VBool true => Some "true" | VBool false => Some "false" | _ => None end;
  Sprintf_v := λ v, match v with VString s => s | _ => "value" end;
  Sprintf_f := λ _, "0.0";
  Sprintf_float := λ format _, format;
  Sprintf_count := λ _ k n, k +:+ ": " +:+ itoa (Z.of_nat n);
  Plot := λ _, "";
|}.

Definition demo_input (type : string) (default : value) (validation : string) (max : Z) : InputItem :=
  {| in_Prompt := ""; in_Description := ""; in_Type := type; in_Default := default; in_Optional := true;
     in_Validation := validation; in_MaxLength := max; in_Enum := [] |}.

Definition demo_install : Action :=
  {| act_Name := "install";
     act_Input := {["package" := demo_input "string" VNil "shellsafe" 64]} ∪
                  {["count" := demo_input "integer" (VFloat64 (f64_of_Z 1)) "" 0]};
     act_Output := ∅; act_Display := "failed"; act_Description := "";
     act_Aggregation := [] |}.

Lemma demo_install_inputs n i : act_Input demo_install !! n = Some i →
  i = demo_input "string" VNil "shellsafe" 64 ∨ i = demo_input "integer" (VFloat64 (f64_of_Z 1)) "" 0.
Proof.
  cbn. rewrite lookup_union_Some_raw, lookup_singleton_Some, !lookup_singleton_None.
  rewrite lookup_singleton_Some. naive_solver.
Qed.

Section Witnesses.
(** Any patterns will do. *)
Context `{RX : Regexp}.

Lemma demo_install_defaults : valid_defaults demo_install.
Proof. intros n i [->| ->]%demo_install_inputs Hd; [done|reflexivity]. Qed.

End Witnesses.

(** Inputs of an action with a hash. *)
Definition demo_settings : Action :=
  {| act_Name := "set"; act_Input := {["options" := demo_input "hash" VNil "" 0]}; act_Output := ∅;
     act_Display := "failed"; act_Description := ""; act_Aggregation := [] |}.

(** What a server makes of what a client sends. *)
Definition demo_request (a : Action) (args : list (string * string)) : option (res ()) :=
  match ValidateAndConvertToDDLTypes (RX := demo_regexp) a args with
  | (r, (_, Ok _)) => doc ← json_Marshal r; Some (ValidateRequestJSON (RX := demo_regexp) a doc).2
  | _ => None
  end.

(** [null] is a hash to the client only; 2^53+1 is rounded and stays an integer, as do
    those below 2^63-512, from there on they do not. *)
Example inputs_on_their_way :
  demo_request demo_settings [("options", "null")] = Some (Err "validation failed for input 'options': is not a hash map") ∧
  demo_request demo_install [("count", "9007199254740993")] = Some (Ok tt) ∧
  demo_request demo_install [("count", "9223372036854775295")] = Some (Ok tt) ∧
  demo_request demo_install [("count", "9223372036854775296")] =
    Some (Err "validation failed for input 'count': is not an integer") ∧
  demo_request demo_install [("count", "9223372036854775807")] =
    Some (Err "validation failed for input 'count': is not an integer").
Proof. split_and!; vm_compute; reflexivity. Qed.

Lemma demo_install_sound `{RX : Regexp} : sound_inputs demo_install.
Proof.
  split; [apply demo_install_defaults|reflexivity|]. intros n [i Hi]. cbn in Hi.
  rewrite lookup_union_Some_raw, !lookup_singleton_Some in Hi. by destruct Hi as [[<- _]|[_ [<- _]]].
Qed.

Lemma converted_inputs_accepted_witness :
  let args := [("Package", "nginx"); ("count", "5")] in
  let r : gmap string value := <["count" := VInt KInt64 5]> {["package" := VString "nginx"]} in
  (ValidateAndConvertToDDLTypes (RX := demo_regexp) demo_install args).1 = r ∧
  ∃ doc, json_Marshal r = Some doc ∧ ValidateRequestJSON (RX := demo_regexp) demo_install doc = ([], Ok tt).
Proof.
  split; [vm_compute; reflexivity|].
  destruct (converted_inputs_accepted (RX := demo_regexp) demo_install [("Package", "nginx"); ("count", "5")]
    (<["count" := VInt KInt64 5]> {["package" := VString "nginx"]}) []) as (doc & Hdoc & Hiff).
  - apply demo_install_sound.
  - vm_compute. reflexivity.
  - apply map_Forall_insert_2; [reflexivity|]. apply map_Forall_singleton. reflexivity.
  - exists doc. split; [exact Hdoc|]. apply Hiff. intros n v i Hn _.
    rewrite lookup_insert_Some, lookup_singleton_Some in Hn.
    destruct Hn as [[_ <-]|[_ [_ <-]]]; [|reflexivity]. unfold survives. apply orb_true_iff. right. reflexivity.
Defined.

Lemma string_input_accepts_witness :
  (ValidateValue (RX := demo_regexp) (demo_input "String" VNil "shellsafe" 0) (VString "a; rm -rf /")).2 = Ok tt ∧
  (ValidateValue (RX := demo_regexp) (demo_input "String" VNil "shellsafe" 64) (VString "a; rm -rf /")).2 ≠ Ok tt.
Proof.
  split.
  - destruct (string_input_accepts (RX := demo_regexp) (demo_input "String" VNil "shellsafe" 0) "a; rm -rf /")
      as [H _]; [reflexivity|]. apply H. reflexivity.
  - destruct (string_input_accepts (RX := demo_regexp) (demo_input "String" VNil "shellsafe" 64) "a; rm -rf /")
      as [_ H]; [reflexivity|]. intros Hv. apply H in Hv; [|discriminate|reflexivity].
    destruct Hv as [_ Hv]. specialize (Hv ";"). cbn in Hv.
    discriminate Hv. apply elem_true. reflexivity.
Defined.

Lemma summary_counts_witness : ∃ g' s',
  AggregateResult demo_install (Some {["ok" := Summary (NewSummaryAggregator [VString "ok"])]})
    [("ok", VBool true); ("other", VString "x"); ("ok", VString "true")] = Ok g' ∧
  g' !! "ok" = Some (Summary s') ∧ default 0 (s_items s' !! "true") = 2.
Proof.
  destruct (summary_counts demo_install "ok" [("ok", VBool true); ("other", VString "x"); ("ok", VString "true")]
    {["ok" := Summary (NewSummaryAggregator [VString "ok"])]} (NewSummaryAggregator [VString "ok"]))
    as (g' & s' & H1 & H2 & H3); [reflexivity|].
  exists g', s'. split_and!; [exact H1|exact H2|]. rewrite H3. reflexivity.
Defined.
