(* ===== verification/Machine.v ===== *)
(** * Autonomous agents: the state machine

    aagent/machine/machine.go, info.go and notifications.go and
    aagent/watchers/watcherdef.go: validating a machine, its transitions and the
    notifications they cause, its life cycle and its data.  The looplab/fsm
    library is a class; locks and logging are left out, every operation runs to
    its end under the machine's lock. *)
From S2P Require Import Prelude GoLib Regex Files Util Backoff.

(** ** The FSM library *)

Record EventDesc := {
  ev_Name : string;
  ev_Src : list string;
  ev_Dst : string;
}.

(** Whether the context an event runs with is done; nil before [Start]. *)
Abbreviation context := (option bool).

(** [fsm_Event] returns the source and destination the [enter_state] callback is
    called with, if it is called. *)
Class FSM := {
  fsm_t : Type;
  NewFSM : string → list EventDesc → fsm_t;
  fsm_Current : fsm_t → string;
  fsm_Can : fsm_t → string → bool;
  fsm_Event : context → fsm_t → string → fsm_t * option (string * string);
}.

(** What its documentation promises: an event moves from one of the sources of a
    description to its destination, and [enter_state] runs when the state changed;
    an event whose context is done may be refused. *)
Class FSMLaws `{FSM} := {
  fsm_events : fsm_t → list EventDesc;
  NewFSM_current i evs : fsm_Current (NewFSM i evs) = i;
  NewFSM_events i evs : fsm_events (NewFSM i evs) = evs;
  fsm_Can_spec f e : fsm_Can f e = true ↔
    ∃ d, d ∈ fsm_events f ∧ ev_Name d = e ∧ fsm_Current f ∈ ev_Src d;
  fsm_Event_events ctx f e : fsm_events (fsm_Event ctx f e).1 = fsm_events f;
  fsm_Event_spec ctx f e : fsm_Can f e = true →
    (fsm_Event ctx f e = (f, None) ∧ ctx ≠ Some false) ∨
    ∃ d, d ∈ fsm_events f ∧ ev_Name d = e ∧ fsm_Current f ∈ ev_Src d ∧
      fsm_Current (fsm_Event ctx f e).1 = ev_Dst d ∧
      (fsm_Event ctx f e).2 =
        if decide (fsm_Current f = ev_Dst d) then None
        else Some (fsm_Current f, ev_Dst d);
}.

(** ** Definitions read from machine.yaml *)

Record MachineSubscription := {
  sub_MachineName : string;
  sub_Event : string;
}.

Record Transition_ := {
  t_Name : string;
  t_From : list string;
  t_Destination : string;
  t_Subscriptions : list MachineSubscription;
}.

Record ForeignMachineState := {
  fs_MachineName : string;
  fs_MachineState : string;
}.

Record WatcherDef := {
  w_Name : string;
  w_Type : string;
  w_StateMatch : list string;
  w_ForeignStateRequired : list ForeignMachineState;
  w_FailTransition : string;
  w_SuccessTransition : string;
  w_Interval : string;
  w_AnnounceInterval : string;
  w_AnnounceDuration : Z;
}.

Section WatcherDefs.
Context `{TimeLib}.

Definition with_AnnounceDuration (w : WatcherDef) (d : Z) : WatcherDef :=
  {| w_Name := w_Name w; w_Type := w_Type w; w_StateMatch := w_StateMatch w;
     w_ForeignStateRequired := w_ForeignStateRequired w;
     w_FailTransition := w_FailTransition w; w_SuccessTransition := w_SuccessTransition w;
     w_Interval := w_Interval w; w_AnnounceInterval := w_AnnounceInterval w;
     w_AnnounceDuration := d |}.

(** The duration is assigned before it is checked. *)
Definition ParseAnnounceInterval (w : WatcherDef) : WatcherDef * res () :=
  if String.eqb (w_AnnounceInterval w) "" then (w, Ok tt)
  else
    match ParseDuration (w_AnnounceInterval w) with
    | Err e => (with_AnnounceDuration w 0,
                Err ("unknown announce interval for watcher " +:+ w_Name w +:+ ": " +:+ e))
    | Panic p => (w, Panic p)
    | Ok d =>
        let w := with_AnnounceDuration w d in
        if (d <? Minute)%Z
        then (w, Err ("announce interval is too small for watcher " +:+ w_Name w))
        else (w, Ok tt)
    end.

Fixpoint ValidateStates (w : WatcherDef) (states : list string) (valid : gset string) : res () :=
  match states with
  | [] => Ok tt
  | s :: rest =>
      if bool_decide (s ∈ valid) then ValidateStates w rest valid
      else Err ("invalid state " +:+ s +:+ " in state match for watcher " +:+ w_Name w)
  end.

Definition ValidateTransitions (w : WatcherDef) (valid : list string) : res () :=
  if negb (String.eqb (w_FailTransition w) "") && negb (elem (w_FailTransition w) valid)
  then Err ("invalid fail_transition " +:+ w_FailTransition w +:+ " specified in watcher " +:+ w_Name w)
  else if negb (String.eqb (w_SuccessTransition w) "") && negb (elem (w_SuccessTransition w) valid)
  then Err ("invalid success_transition " +:+ w_SuccessTransition w +:+ " specified in watcher " +:+ w_Name w)
  else Ok tt.

End WatcherDefs.

(** ** The machine *)

Record TransitionNotification := {
  n_Protocol : string;
  n_Identity : string;
  n_ID : string;
  n_Version : string;
  n_Timestamp : Z;
  n_Machine : string;
  n_Transition : string;
  n_FromState : string;
  n_ToState : string;
}.

(** What a machine does to others, in order. *)
Inductive effect :=
| ExternalNotified (n : TransitionNotification)
| WatchersNotified
| NotifierTold (i : nat) (n : TransitionNotification)
| ManagerDeleted
| ManagerRun.

(** Values a machine stores under its keys. *)
Class DataLib := {
  data_value : Type;
  data_Marshal : gmap string data_value → option string;
  (** the members a document assigns *)
  data_Unmarshal : string → option (gmap string data_value);
}.

Section Machine.
Context `{TL : TimeLib} `{FS : FSM} `{DL : DataLib}.

Record Machine := {
  MachineName : string;
  MachineVersion : string;
  InitialState : string;
  Transitions : list Transition_;
  WatcherDefs : list WatcherDef;
  SplayStart : Z;
  instanceID : string;
  identity : string;
  (** a notifier for transitions of other machines is registered *)
  externalMachineNotifier : bool;
  notifiers : nat;
  fsm : option fsm_t;
  knownStates : gset string;
  transitionCounter : Z;
  (** nil, or whether it is running *)
  backoffTimer : option bool;
  (** [IsZero] of the start time *)
  startTimeZero : bool;
  ctx : context;
  data : gmap string data_value;
  (** the data file, as long as the directory is writable *)
  data_file : option string;
  data_writable : bool;
  effects : list effect;
}.

Definition upd_fsm (f : option fsm_t) (m : Machine) : Machine :=
  {| MachineName := MachineName m; MachineVersion := MachineVersion m; InitialState := InitialState m;
     Transitions := Transitions m; WatcherDefs := WatcherDefs m; SplayStart := SplayStart m;
     instanceID := instanceID m; identity := identity m;
     externalMachineNotifier := externalMachineNotifier m; notifiers := notifiers m;
     fsm := f; knownStates := knownStates m; transitionCounter := transitionCounter m;
     backoffTimer := backoffTimer m; startTimeZero := startTimeZero m; ctx := ctx m; data := data m;
     data_file := data_file m; data_writable := data_writable m; effects := effects m |}.

Definition upd_defs (ws : list WatcherDef) (ks : gset string) (m : Machine) : Machine :=
  {| MachineName := MachineName m; MachineVersion := MachineVersion m; InitialState := InitialState m;
     Transitions := Transitions m; WatcherDefs := ws; SplayStart := SplayStart m;
     instanceID := instanceID m; identity := identity m;
     externalMachineNotifier := externalMachineNotifier m; notifiers := notifiers m;
     fsm := fsm m; knownStates := ks; transitionCounter := transitionCounter m;
     backoffTimer := backoffTimer m; startTimeZero := startTimeZero m; ctx := ctx m; data := data m;
     data_file := data_file m; data_writable := data_writable m; effects := effects m |}.

Definition upd_backoff (c : Z) (t : option bool) (m : Machine) : Machine :=
  {| MachineName := MachineName m; MachineVersion := MachineVersion m; InitialState := InitialState m;
     Transitions := Transitions m; WatcherDefs := WatcherDefs m; SplayStart := SplayStart m;
     instanceID := instanceID m; identity := identity m;
     externalMachineNotifier := externalMachineNotifier m; notifiers := notifiers m;
     fsm := fsm m; knownStates := knownStates m; transitionCounter := c;
     backoffTimer := t; startTimeZero := startTimeZero m; ctx := ctx m; data := data m;
     data_file := data_file m; data_writable := data_writable m; effects := effects m |}.

Definition upd_run (zero : bool) (c : context) (t : option bool) (m : Machine) : Machine :=
  {| MachineName := MachineName m; MachineVersion := MachineVersion m; InitialState := InitialState m;
     Transitions := Transitions m; WatcherDefs := WatcherDefs m; SplayStart := SplayStart m;
     instanceID := instanceID m; identity := identity m;
     externalMachineNotifier := externalMachineNotifier m; notifiers := notifiers m;
     fsm := fsm m; knownStates := knownStates m; transitionCounter := transitionCounter m;
     backoffTimer := t; startTimeZero := zero; ctx := c; data := data m;
     data_file := data_file m; data_writable := data_writable m; effects := effects m |}.

Definition upd_data (d : gmap string data_value) (f : option string) (m : Machine) : Machine :=
  {| MachineName := MachineName m; MachineVersion := MachineVersion m; InitialState := InitialState m;
     Transitions := Transitions m; WatcherDefs := WatcherDefs m; SplayStart := SplayStart m;
     instanceID := instanceID m; identity := identity m;
     externalMachineNotifier := externalMachineNotifier m; notifiers := notifiers m;
     fsm := fsm m; knownStates := knownStates m; transitionCounter := transitionCounter m;
     backoffTimer := backoffTimer m; startTimeZero := startTimeZero m; ctx := ctx m; data := d;
     data_file := f; data_writable := data_writable m; effects := effects m |}.

Definition add_effects (es : list effect) (m : Machine) : Machine :=
  {| MachineName := MachineName m; MachineVersion := MachineVersion m; InitialState := InitialState m;
     Transitions := Transitions m; WatcherDefs := WatcherDefs m; SplayStart := SplayStart m;
     instanceID := instanceID m; identity := identity m;
     externalMachineNotifier := externalMachineNotifier m; notifiers := notifiers m;
     fsm := fsm m; knownStates := knownStates m; transitionCounter := transitionCounter m;
     backoffTimer := backoffTimer m; startTimeZero := startTimeZero m; ctx := ctx m; data := data m;
     data_file := data_file m; data_writable := data_writable m; effects := effects m ++ es |}.

Abbreviation MachineM := (ST Machine string).

(** ** Info *)

Definition Identity (m : Machine) : string :=
  if String.eqb (identity m) "" then "unknown" else identity m.

Definition KnownTransitions (m : Machine) : list string := map t_Name (Transitions m).

(** The states [KnownStates] collects when nothing is cached. *)
Definition collect_states (m : Machine) : gset string :=
  fold_left (λ ks t, fold_left (λ ks e, {[e]} ∪ ks) (t_From t) ({[t_Destination t]} ∪ ks))
    (Transitions m) {[InitialState m]}.

(** The list returned is in the unspecified order of the map. *)
Definition KnownStates : MachineM (gset string) := λ m,
  if Nat.ltb 0 (size (knownStates m)) then (m, Ok (knownStates m))
  else
    let ks := collect_states m in (upd_defs (WatcherDefs m) ks m, Ok ks).

(** ** Validation and set up *)

(** The loop over the watchers; [done] are the ones already checked. *)
Fixpoint validate_watchers (done rest : list WatcherDef) : MachineM () :=
  match rest with
  | [] => mret tt
  | w :: rest' =>
      let '(w', r) := ParseAnnounceInterval w in
      modify (λ m, upd_defs (rev_append done (w' :: rest')) (knownStates m) m);;
      lift r;;
      ks ← KnownStates;
      lift (ValidateStates w' (w_StateMatch w') ks);;
      ts ← gets KnownTransitions;
      lift (ValidateTransitions w' ts);;
      validate_watchers (w' :: done) rest'
  end.

Definition Validate : MachineM () := λ m,
  if String.eqb (MachineName m) "" then (m, Err "a machine name is required")
  else if String.eqb (MachineVersion m) "" then (m, Err "a machine version is required")
  else if String.eqb (InitialState m) "" then (m, Err "an initial state is required")
  else if Nat.eqb (length (Transitions m)) 0 then (m, Err "no transitions defined")
  else if Nat.eqb (length (WatcherDefs m)) 0 then (m, Err "no watchers defined")
  else validate_watchers [] (WatcherDefs m) m.

Definition event_of (t : Transition_) : EventDesc :=
  {| ev_Name := t_Name t; ev_Src := t_From t; ev_Dst := t_Destination t |}.

Definition buildFSM : MachineM () := λ m,
  let events := map event_of (Transitions m) in
  if Nat.eqb (length events) 0 then (m, Err "no transitions found")
  else (upd_fsm (Some (NewFSM (InitialState m) events)) m, Ok tt).

Definition Setup : MachineM () := λ m,
  match Validate m with
  | (m', Err e) => (m', Err ("validation failed: " +:+ e))
  | (m', Panic p) => (m', Panic p)
  | (m', Ok _) => buildFSM m'
  end.

(** [FromYAML] refuses incomplete subscriptions after the set up. *)
Definition check_subscription (t : Transition_) (s : MachineSubscription) : res () :=
  if String.eqb (sub_MachineName s) ""
  then Err ("machine name is required on subscription for transition " +:+ t_Name t)
  else if String.eqb (sub_Event s) ""
  then Err ("event name is required on subscription for transition " +:+ t_Name t)
  else Ok tt.

Definition check_subscriptions (ts : list Transition_) : res () :=
  fold_left (λ r t, fold_left (λ r s, r ≫= λ _, check_subscription t s) (t_Subscriptions t) r)
    ts (Ok tt).

(** [initializeMachine] on a decoded definition, then the subscriptions; [data]
    is what [loadData] found. *)
Definition FromYAML : MachineM () :=
  Setup;; m ← gets id; lift (check_subscriptions (Transitions m)).

(** ** Transitions *)

(** What the outside contributes to one transition: the time, and whether the
    rate limiting sleep is cut short. *)
Record env := {
  env_now : Z;
  env_interrupted : bool;
}.

Definition notification (e : env) (m : Machine) (t src dst : string) : TransitionNotification :=
  {| n_Protocol := "io.choria.machine.v1.transition"; n_Identity := Identity m; n_ID := instanceID m;
     n_Version := MachineVersion m; n_Timestamp := env_now e; n_Machine := MachineName m;
     n_Transition := t; n_FromState := src; n_ToState := dst |}.

(** The [enter_state] callback. *)
Definition enter_state (n : TransitionNotification) (m : Machine) : list effect :=
  (if externalMachineNotifier m then [ExternalNotified n] else []) ++
  concat (map (λ i, (if Nat.eqb i 0 then [WatchersNotified] else []) ++ [NotifierTold i n])
            (seq 0 (notifiers m))).

Definition nil_pointer {A} : MachineM A := panic "nil pointer dereference".

Definition Can (t : string) : MachineM bool := λ m,
  match fsm m with
  | None => nil_pointer m
  | Some f => (m, Ok (fsm_Can f t))
  end.

Definition backoffTransition (e : env) : MachineM () := λ m,
  let timer := match backoffTimer m with None => Some true | Some r => Some r end in
  let m := upd_backoff (transitionCounter m) timer m in
  if (0 <? transitionCounter m)%Z then
    match ctx m with
    | None => nil_pointer m
    | Some _ =>
        if env_interrupted e then (m, Err "context canceled")
        else (upd_backoff (transitionCounter m + 1) (Some true) m, Ok tt)
    end
  else (upd_backoff (transitionCounter m + 1) timer m, Ok tt).

(** [m.fsm.Event(m.ctx, t)], whose error is not looked at. *)
Definition fire (e : env) (t : string) : MachineM () := λ m,
  match fsm m with
  | None => nil_pointer m
  | Some f =>
      let '(f', entered) := fsm_Event (ctx m) f t in
      let m := upd_fsm (Some f') m in
      match entered with
      | None => (m, Ok tt)
      | Some (src, dst) => (add_effects (enter_state (notification e m t src dst) m) m, Ok tt)
      end
  end.

Definition Transition (e : env) (t : string) : MachineM () :=
  if String.eqb t "" then mret tt
  else
    b ← Can t;
    if (b : bool) then backoffTransition e;; fire e t else mret tt.

(** [ExternalEventNotify]: one transition per matching subscription, in order; a
    transition that fails is only logged.  [envs i] is the world of the i-th. *)
Fixpoint external_subs (envs : nat → env) (event : TransitionNotification) (t : Transition_)
    (subs : list MachineSubscription) (i : nat) : MachineM nat :=
  match subs with
  | [] => mret i
  | s :: rest =>
      if String.eqb (sub_MachineName s) (n_Machine event)
           && String.eqb (sub_Event s) (n_Transition event)
      then
        attempt (F:=string) (Transition (envs i) (t_Name t));;
        external_subs envs event t rest (S i)
      else external_subs envs event t rest i
  end.

Fixpoint external_transitions (envs : nat → env) (event : TransitionNotification)
    (ts : list Transition_) (i : nat) : MachineM () :=
  match ts with
  | [] => mret tt
  | t :: rest =>
      i' ← external_subs envs event t (t_Subscriptions t) i;
      external_transitions envs event rest i'
  end.

Definition ExternalEventNotify (envs : nat → env) (event : TransitionNotification) : MachineM () :=
  λ m, external_transitions envs event (Transitions m) 0 m.

(** The timer fires: the counter restarts and so does the timer. *)
Definition backoffFunc : MachineM () :=
  modify (λ m, upd_backoff 0 (match backoffTimer m with None => None | Some _ => Some true end) m).

(** ** Life cycle *)

(** [Start] and the function it runs in the background: [splayed] is whether the
    context ended during the start splay, [run] the result of [manager.Run]. *)
Definition Start (splayed : bool) (run : res ()) : MachineM () := λ m,
  let m := upd_run (startTimeZero m) (Some false) (backoffTimer m) m in
  if (0 <? SplayStart m)%Z && splayed then (upd_run true (Some true) (backoffTimer m) m, Ok tt)
  else
    let m := add_effects [ManagerRun] m in
    match run with
    | Ok _ => (upd_run false (ctx m) (backoffTimer m) m, Ok tt)
    | _ => (m, Ok tt)
    end.

Definition IsStarted (m : Machine) : bool := negb (startTimeZero m).

(** Stops the timer and cancels the context. *)
Definition halt (m : Machine) : Machine :=
  upd_run true (match ctx m with None => None | Some _ => Some true end)
    (match backoffTimer m with None => None | Some _ => Some false end) m.

Definition Stop : MachineM () := modify halt.
Definition Delete : MachineM () := modify (λ m, halt (add_effects [ManagerDeleted] m)).

(** ** Data *)

Definition DataGet (key : string) (m : Machine) : option data_value := data m !! key.

(** The rename of the temporary file over the data file. *)
Definition saveData : MachineM () := λ m,
  match data_Marshal (data m) with
  | None => (m, Err "json: unsupported value")
  | Some j =>
      if data_writable m then (upd_data (data m) (Some j) m, Ok tt)
      else (m, Err "could not write data file")
  end.

Definition DataPut (key : string) (val : data_value) : MachineM () :=
  modify (λ m, upd_data (<[key := val]> (data m)) (data_file m) m);; saveData.

Definition DataDelete (key : string) : MachineM () := λ m,
  match data m !! key with
  | None => (m, Ok tt)
  | Some _ => saveData (upd_data (delete key (data m)) (data_file m) m)
  end.

(** Unmarshalling into the existing map keeps the keys the file does not have. *)
Definition loadData : MachineM () := λ m,
  match data_file m with
  | None => (m, Ok tt)
  | Some j =>
      match data_Unmarshal j with
      | None => (m, Err "invalid data file")
      | Some d => (upd_data (d ∪ data m) (data_file m) m, Ok tt)
      end
  end.

End Machine.

(** * Autonomous agents: properties of the state machine

    What a valid machine is, that its history is a path through the declared
    transitions whatever happens to it, and that its data survives. *)
From S2P Require Import DemoLibs.

Section MachineProofs.
Context `{TL : TimeLib} `{FS : FSM} `{DL : DataLib}.

(** ** Specification *)

(** A transition of the machine's definition. *)
Definition declared (ts : list Transition_) (src event dst : string) : Prop :=
  ∃ t, t ∈ ts ∧ t_Name t = event ∧ src ∈ t_From t ∧ t_Destination t = dst.

(** The transitions told to the first notifier, oldest first. *)
Definition history (es : list effect) : list TransitionNotification :=
  omap (λ e, match e with NotifierTold 0 n => Some n | _ => None end) es.

(** A walk along declared transitions that change the state. *)
Inductive path (ts : list Transition_) (s : string) : list TransitionNotification → string → Prop :=
| path_start : path ts s [] s
| path_step h n :
    path ts s h (n_FromState n) →
    declared ts (n_FromState n) (n_Transition n) (n_ToState n) →
    n_FromState n ≠ n_ToState n →
    path ts s (h ++ [n]) (n_ToState n).

(** The states a definition mentions. *)
Definition mentioned (m : Machine) (s : string) : Prop :=
  s = InitialState m ∨ ∃ t, t ∈ Transitions m ∧ (s = t_Destination t ∨ s ∈ t_From t).

Definition announce_ok (w : WatcherDef) : Prop :=
  w_AnnounceInterval w = "" ∨
  ∃ d, ParseDuration (w_AnnounceInterval w) = Ok d ∧ (Minute ≤ d)%Z.

(** A watcher a machine can have. *)
Definition watcher_ok (m : Machine) (w : WatcherDef) : Prop :=
  announce_ok w ∧ (∀ s, s ∈ w_StateMatch w → mentioned m s) ∧
  (w_FailTransition w = "" ∨ w_FailTransition w ∈ KnownTransitions m) ∧
  (w_SuccessTransition w = "" ∨ w_SuccessTransition w ∈ KnownTransitions m).

Definition valid (m : Machine) : Prop :=
  MachineName m ≠ "" ∧ MachineVersion m ≠ "" ∧ InitialState m ≠ "" ∧
  Transitions m ≠ [] ∧ WatcherDefs m ≠ [] ∧ ∀ w, w ∈ WatcherDefs m → watcher_ok m w.

(** What can happen to a machine that was set up. *)
Inductive op :=
| OpTransition (e : env) (t : string)
| OpExternal (envs : nat → env) (event : TransitionNotification)
| OpQuietPeriod
| OpStart (splayed : bool) (run : res ())
| OpStop
| OpDelete
| OpDataPut (k : string) (v : data_value)
| OpDataDelete (k : string)
| OpLoadData.

Definition run_op (m : Machine) (o : op) : Machine :=
  match o with
  | OpTransition e t => (Transition e t m).1
  | OpExternal envs event => (ExternalEventNotify envs event m).1
  | OpQuietPeriod => (backoffFunc m).1
  | OpStart s r => (Start s r m).1
  | OpStop => (Stop m).1
  | OpDelete => (Delete m).1
  | OpDataPut k v => (DataPut k v m).1
  | OpDataDelete k => (DataDelete k m).1
  | OpLoadData => (loadData m).1
  end.

(** ** States *)

Lemma collect_states_spec m s : s ∈ collect_states m ↔ mentioned m s.
Proof.
  unfold collect_states, mentioned. generalize (InitialState m). intros i.
  assert (∀ l (ks : gset string), s ∈ fold_left (λ ks e, {[e]} ∪ ks) l ks ↔ s ∈ l ∨ s ∈ ks) as Hl.
  { induction l as [|x l IH]; intros ks; simpl; [set_solver|]. rewrite IH. set_solver. }
  assert (∀ ts (ks : gset string),
    s ∈ fold_left (λ ks t, fold_left (λ ks e, {[e]} ∪ ks) (t_From t) ({[t_Destination t]} ∪ ks)) ts ks ↔
    s ∈ ks ∨ ∃ t, t ∈ ts ∧ (s = t_Destination t ∨ s ∈ t_From t)) as Ht.
  { induction ts as [|t ts IH]; intros ks; simpl.
    - split; [by left|]. intros [?|(t & Ht & _)]; [done|by apply elem_of_nil in Ht].
    - rewrite IH, Hl. setoid_rewrite elem_of_cons. set_solver. }
  rewrite Ht, elem_of_singleton. done.
Qed.

Lemma path_mentioned m h s : path (Transitions m) (InitialState m) h s → mentioned m s.
Proof.
  intros H. inversion H as [|h' n _ (t & Ht & _ & _ & Hd) _]; subst; [by left|].
  right. exists t. auto.
Qed.

(** ** Validation *)

Lemma ValidateStates_ok w l v : ValidateStates w l v = Ok tt ↔ ∀ s, s ∈ l → s ∈ v.
Proof.
  induction l as [|x l IH]; simpl; [by split; [intros _ s ?%elem_of_nil|]|].
  setoid_rewrite elem_of_cons. case_bool_decide; [|naive_solver]. rewrite IH. naive_solver.
Qed.

Lemma ValidateTransitions_ok w v : ValidateTransitions w v = Ok tt ↔
  (w_FailTransition w = "" ∨ w_FailTransition w ∈ v) ∧
  (w_SuccessTransition w = "" ∨ w_SuccessTransition w ∈ v).
Proof.
  unfold ValidateTransitions. rewrite <- !String.eqb_eq, <- !elem_true.
  destruct (String.eqb (w_FailTransition w) ""), (elem (w_FailTransition w) v),
    (String.eqb (w_SuccessTransition w) ""), (elem (w_SuccessTransition w) v); simpl; naive_solver.
Qed.

Lemma ParseAnnounce_spec w :
  (∃ d, (ParseAnnounceInterval w).1 = with_AnnounceDuration w d) ∧
  ((ParseAnnounceInterval w).2 = Ok tt ↔ announce_ok w).
Proof.
  unfold ParseAnnounceInterval, announce_ok. destruct (String.eqb_spec (w_AnnounceInterval w) "") as [->|Hne].
  - split; [|by split; [left|]]. exists (w_AnnounceDuration w). by destruct w.
  - destruct (ParseDuration _) as [d|e|p].
    + destruct (Z.ltb_spec d Minute); simpl; (split; [eauto|]).
      * split; [done|]. intros [?|(d' & [= ->] & ?)]; [done|lia].
      * split; [|done]. intros _. right. eauto.
    + split; [eauto|]. simpl. split; [done|]. intros [?|(? & ? & _)]; done.
    + split; [exists (w_AnnounceDuration w); by destruct w|]. simpl. split; [done|].
      intros [?|(? & ? & _)]; done.
Qed.

(** Only the watcher definitions and the cache of states changed. *)
Definition same_definition (m m' : Machine) : Prop :=
  MachineName m' = MachineName m ∧ MachineVersion m' = MachineVersion m ∧
  InitialState m' = InitialState m ∧ Transitions m' = Transitions m ∧
  notifiers m' = notifiers m ∧ effects m' = effects m ∧ fsm m' = fsm m.

(** Nothing was cached, or what [KnownStates] collects. *)
Definition cache_fresh (m : Machine) : Prop := knownStates m = ∅ ∨ knownStates m = collect_states m.

Lemma KnownStates_spec m : cache_fresh m →
  ∃ m', KnownStates m = (m', Ok (collect_states m)) ∧ same_definition m m' ∧
    cache_fresh m' ∧ WatcherDefs m' = WatcherDefs m.
Proof.
  intros Hc. unfold KnownStates. destruct (Nat.ltb_spec 0 (size (knownStates m))) as [Hs|Hs].
  - destruct Hc as [Hc|Hc]; [rewrite Hc, size_empty in Hs; lia|].
    exists m. rewrite Hc at 1. split_and!; [done|by repeat split|by right|done].
  - eexists; split; [done|]. split_and!; [by repeat split|by right|done].
Qed.

Lemma same_definition_trans m1 m2 m3 :
  same_definition m1 m2 → same_definition m2 m3 → same_definition m1 m3.
Proof. unfold same_definition. intuition congruence. Qed.

Lemma same_definition_collect m m' : same_definition m m' → collect_states m' = collect_states m.
Proof. intros (_ & _ & Hi & Ht & _). unfold collect_states. by rewrite Hi, Ht. Qed.

Lemma watcher_ok_same m m' w : same_definition m m' → watcher_ok m' w ↔ watcher_ok m w.
Proof.
  intros (_ & _ & Hi & Ht & _). unfold watcher_ok, mentioned, KnownTransitions. by rewrite Hi, Ht.
Qed.

Lemma watcher_ok_spec m w d :
  watcher_ok m w ↔ announce_ok w ∧
    ValidateStates (with_AnnounceDuration w d) (w_StateMatch w) (collect_states m) = Ok tt ∧
    ValidateTransitions (with_AnnounceDuration w d) (KnownTransitions m) = Ok tt.
Proof.
  unfold watcher_ok. rewrite ValidateStates_ok, ValidateTransitions_ok. simpl.
  setoid_rewrite collect_states_spec. tauto.
Qed.

(** One watcher: the checks of [validate_watchers] in order. *)
Lemma validate_step done w rest m : cache_fresh m →
  let w' := (ParseAnnounceInterval w).1 in
  ∃ m2, same_definition m m2 ∧ cache_fresh m2 ∧
  validate_watchers done (w :: rest) m =
    match ((ParseAnnounceInterval w).2;;
           ValidateStates w' (w_StateMatch w') (collect_states m);;
           ValidateTransitions w' (KnownTransitions m)) : res () with
    | Ok _ => validate_watchers (w' :: done) rest m2
    | Err e => (m2, Err e)
    | Panic p => (m2, Panic p)
    end.
Proof.
  intros Hc w'. cbn [validate_watchers]. unfold w'. clear w'.
  destruct (ParseAnnounceInterval w) as [w' r]. simpl.
  unfold mbind, ST_bind, outcome_bind, modify, lift, gets. set (m1 := upd_defs _ _ m).
  assert (same_definition m m1) as H1 by by repeat split.
  assert (cache_fresh m1) as Hc1 by exact Hc.
  destruct r as [[]|e|p]; [|by exists m1..].
  destruct (KnownStates_spec m1 Hc1) as (m2 & -> & H2 & Hc2 & _).
  assert (same_definition m m2) as H12 by by eapply same_definition_trans.
  rewrite (same_definition_collect _ _ H1).
  assert (KnownTransitions m2 = KnownTransitions m) as ->.
  { unfold KnownTransitions. by destruct H12 as (_ & _ & _ & -> & _). }
  exists m2. split; [done|]. split; [done|].
  destruct (ValidateStates w' _ _); [|done..]. by destruct (ValidateTransitions w' _).
Qed.

Lemma watcher_checks m w :
  watcher_ok m w ↔
  ((ParseAnnounceInterval w).2;;
   ValidateStates (ParseAnnounceInterval w).1 (w_StateMatch (ParseAnnounceInterval w).1) (collect_states m);;
   ValidateTransitions (ParseAnnounceInterval w).1 (KnownTransitions m)) = Ok tt.
Proof.
  destruct (ParseAnnounce_spec w) as [[d ->] Hok]. rewrite (watcher_ok_spec m w d), <- Hok.
  unfold mbind, outcome_bind.
  change (w_StateMatch (with_AnnounceDuration w d)) with (w_StateMatch w).
  destruct (ParseAnnounceInterval w).2 as [[]|e|p]; [|naive_solver..].
  destruct (ValidateStates _ _ _) as [[]|e|p]; naive_solver.
Qed.

Lemma validate_watchers_spec done rest m : cache_fresh m →
  same_definition m (validate_watchers done rest m).1 ∧
  cache_fresh (validate_watchers done rest m).1 ∧
  ((validate_watchers done rest m).2 = Ok tt ↔ ∀ w, w ∈ rest → watcher_ok m w).
Proof.
  revert done m. induction rest as [|w rest IH]; intros done m Hc.
  - split; [by repeat split|]. split; [exact Hc|]. split; [|done].
    intros _ w Hw. by apply elem_of_nil in Hw.
  - destruct (validate_step done w rest m Hc) as (m2 & H12 & Hc2 & ->).
    setoid_rewrite elem_of_cons. pose proof (watcher_checks m w) as Hw. cbv zeta.
    destruct (_ ≫= _) as [[]|e|p]; simpl; [|split; [done|]; split; [done|]; naive_solver..].
    destruct (IH ((ParseAnnounceInterval w).1 :: done) m2 Hc2) as (H3 & Hc3 & Hr).
    split; [by eapply same_definition_trans|]. split; [done|].
    rewrite Hr. setoid_rewrite (watcher_ok_same m m2); [|done]. naive_solver.
Qed.

(** ** Set up *)

Lemma Setup_spec m : cache_fresh m →
  ((Setup m).2 = Ok tt ↔ valid m) ∧
  ((Setup m).2 = Ok tt →
   Transitions (Setup m).1 = Transitions m ∧ InitialState (Setup m).1 = InitialState m ∧
   notifiers (Setup m).1 = notifiers m ∧ effects (Setup m).1 = effects m ∧
   fsm (Setup m).1 = Some (NewFSM (InitialState m) (map event_of (Transitions m)))).
Proof.
  intros Hc. unfold Setup, Validate, valid.
  destruct (String.eqb_spec (MachineName m) ""); [split; [naive_solver|done]|].
  destruct (String.eqb_spec (MachineVersion m) ""); [split; [naive_solver|done]|].
  destruct (String.eqb_spec (InitialState m) ""); [split; [naive_solver|done]|].
  destruct (Transitions m) as [|t ts] eqn:Et; [split; [naive_solver|done]|].
  destruct (WatcherDefs m) as [|w ws] eqn:Ew; [split; [naive_solver|done]|].
  destruct (validate_watchers_spec [] (w :: ws) m Hc) as (Hd & Hc' & Hr). cbn [length Nat.eqb].
  destruct (validate_watchers [] (w :: ws) m) as [m' [[]|e|p]]; simpl in Hd, Hr; [|naive_solver..].
  destruct Hd as (_ & _ & Hi & Ht & Hn & He & Hf). rewrite Et in Ht.
  unfold buildFSM. rewrite Ht. simpl. rewrite Hi. split; [naive_solver|done].
Qed.

(** ** Running *)

Context `{FL : !FSMLaws}.

(** What every operation keeps of the machine [m0] that was set up. *)
Definition keeps (m0 m : Machine) : Prop :=
  Transitions m = Transitions m0 ∧ InitialState m = InitialState m0 ∧
  notifiers m = notifiers m0 ∧
  ∃ f, fsm m = Some f ∧ fsm_events f = map event_of (Transitions m0) ∧
    path (Transitions m0) (InitialState m0) (history (effects m)) (fsm_Current f).

Lemma declared_event ts src event dst :
  (∃ d, d ∈ map event_of ts ∧ ev_Name d = event ∧ src ∈ ev_Src d ∧ ev_Dst d = dst) ↔
  declared ts src event dst.
Proof.
  unfold declared. setoid_rewrite list_elem_of_fmap. split.
  - intros (d & (t & -> & Ht) & ? & ? & ?). by exists t.
  - intros (t & ? & ? & ? & ?). exists (event_of t). eauto 10.
Qed.

Lemma history_enter_state n m h : (0 < notifiers m)%nat →
  history (h ++ enter_state n m) = history h ++ [n].
Proof.
  intros Hn. unfold history, enter_state. rewrite !omap_app. f_equal.
  assert (omap (λ e, match e with NotifierTold 0 n => Some n | _ => None end)
    (if externalMachineNotifier m then [ExternalNotified n] else []) = []) as ->
    by by destruct (externalMachineNotifier m).
  destruct (notifiers m) as [|k]; [lia|]. simpl. f_equal.
  rewrite <- seq_shift, map_map. generalize (seq 0 k). intros l.
  induction l as [|i l IH]; [done|]. simpl. exact IH.
Qed.

Lemma effects_add es m : effects (add_effects es m) = effects m ++ es.
Proof. done. Qed.

Lemma fire_keeps m0 e t m : (0 < notifiers m0)%nat → keeps m0 m →
  (∀ f, fsm m = Some f → fsm_Can f t = true) → keeps m0 (fire e t m).1.
Proof.
  intros Hn (Ht & Hi & Hno & f & Hf & Hev & Hp) Hcan. unfold fire. rewrite Hf.
  pose proof (fsm_Event_events (ctx m) f t) as Hee.
  pose proof (fsm_Event_spec (ctx m) f t (Hcan f Hf)) as Hsp.
  destruct (fsm_Event (ctx m) f t) as [f' o]. simpl in Hee, Hsp.
  destruct Hsp as [[[= -> ->] _]|(d & Hd & Hname & Hsrc & Hcur & ->)].
  - repeat split; try done. by exists f.
  - assert (declared (Transitions m0) (fsm_Current f) t (ev_Dst d)) as Hdec.
    { apply declared_event. exists d. by rewrite <- Hev. }
    case_decide as Hsame; cbn -[enter_state history notification]; (split; [done|]; split; [done|]; split; [done|]);
      exists f'; (split; [done|]; split; [congruence|]).
    + by rewrite Hcur, <- Hsame.
    + rewrite effects_add, history_enter_state by (cbn; lia). rewrite Hcur.
      set (n := notification _ _ _ _ _). change (ev_Dst d) with (n_ToState n). by apply path_step.
Qed.

(** The operations that leave the FSM and the effects alone. *)
Lemma keeps_same m0 m m' :
  Transitions m' = Transitions m → InitialState m' = InitialState m →
  notifiers m' = notifiers m → fsm m' = fsm m → history (effects m') = history (effects m) →
  keeps m0 m → keeps m0 m'.
Proof. unfold keeps. by intros -> -> -> -> ->. Qed.

Lemma backoff_keeps m0 e m : keeps m0 m → keeps m0 (backoffTransition e m).1.
Proof.
  unfold backoffTransition. intros Hk. simpl.
  destruct (0 <? _)%Z; [destruct (ctx m); [destruct (env_interrupted e)|]|];
    by apply (keeps_same m0 m).
Qed.

Lemma backoff_fsm e m : fsm (backoffTransition e m).1 = fsm m.
Proof.
  unfold backoffTransition. simpl.
  destruct (0 <? _)%Z; [destruct (ctx m); [destruct (env_interrupted e)|]|]; done.
Qed.

Lemma transition_keeps m0 e t m : (0 < notifiers m0)%nat → keeps m0 m → keeps m0 (Transition e t m).1.
Proof.
  intros Hn Hk. unfold Transition. destruct (String.eqb t ""); [done|].
  unfold mbind, ST_bind, Can. destruct (fsm m) as [f|] eqn:Hf; [|done].
  destruct (fsm_Can f t) eqn:Hc; [|done].
  pose proof (backoff_keeps m0 e m Hk) as Hb. pose proof (backoff_fsm e m) as Hbf.
  destruct (backoffTransition e m) as [m' [[]|e'|p]]; simpl in *; [|done..].
  apply fire_keeps; [done..|]. intros f' Hf'. congruence.
Qed.

Lemma external_keeps m0 envs ev m : (0 < notifiers m0)%nat → keeps m0 m →
  keeps m0 (ExternalEventNotify envs ev m).1.
Proof.
  intros Hn Hk. unfold ExternalEventNotify. generalize (Transitions m) as ts. intros ts.
  generalize 0%nat. revert m Hk.
  assert (∀ t subs i m, keeps m0 m →
    keeps m0 (external_subs envs ev t subs i m).1 ∧ is_ok (external_subs envs ev t subs i m).2 = true
    ∨ keeps m0 (external_subs envs ev t subs i m).1 ∧ is_panic (external_subs envs ev t subs i m).2 = true) as Hsubs.
  { intros t subs. induction subs as [|s subs IH]; intros i m Hk; [by left|].
    cbn [external_subs]. destruct (_ && _); [|by apply IH].
    unfold mbind, ST_bind, attempt.
    pose proof (transition_keeps m0 (envs i) (t_Name t) m Hn Hk) as Ht.
    destruct (Transition _ _ m) as [m' [[]|e|p]]; simpl in *; [by apply IH..|by right]. }
  induction ts as [|t ts IH]; intros m Hk i; [done|]. cbn [external_transitions].
  unfold mbind, ST_bind. destruct (Hsubs t (t_Subscriptions t) i m Hk) as [[Hk' _]|[Hk' _]];
    destruct (external_subs _ _ _ _ _ m) as [m' [j|e|p]]; simpl in *; auto.
Qed.

Lemma run_op_keeps m0 m o : (0 < notifiers m0)%nat → keeps m0 m → keeps m0 (run_op m o).
Proof.
  intros Hn Hk. destruct o as [e t|envs ev| |s r| | |k v|k|]; simpl.
  - by apply transition_keeps.
  - by apply external_keeps.
  - by apply (keeps_same m0 m).
  - unfold Start. destruct (_ && _); [by apply (keeps_same m0 m)|].
    destruct r; apply (keeps_same m0 m); try done; unfold history; simpl; rewrite omap_app; by rewrite app_nil_r.
  - by apply (keeps_same m0 m).
  - apply (keeps_same m0 m); try done. unfold history. simpl. rewrite omap_app. by rewrite app_nil_r.
  - unfold DataPut, mbind, ST_bind, modify, saveData. repeat case_match; simplify_eq/=; by apply (keeps_same m0 m).
  - unfold DataDelete, saveData. repeat case_match; simplify_eq/=; by apply (keeps_same m0 m).
  - unfold loadData. repeat case_match; simplify_eq/=; by apply (keeps_same m0 m).
Qed.

Lemma setup_keeps m : cache_fresh m → effects m = [] → (Setup m).2 = Ok tt → keeps m (Setup m).1.
Proof.
  intros Hc He Hok. destruct (Setup_spec m Hc) as [_ (Ht & Hi & Hn & Hef & Hf)]; [done|].
  repeat split; [done..|]. eexists; split; [exact Hf|]. rewrite NewFSM_events, NewFSM_current, Hef, He.
  split; [done|]. constructor.
Qed.
End MachineProofs.

(** A machine sets up exactly when it is valid: it has a name, a version, an
    initial state, transitions and watchers, and every watcher names known states
    and transitions and announces no more often than once a minute. *)
Theorem setup_validates `{TL : TimeLib} `{FS : FSM} `{DL : DataLib} m :
  knownStates m = ∅ → ((Setup m).2 = Ok tt ↔ valid m).
Proof. intros Hk. apply Setup_spec. by left. Qed.

(** Whatever happens to a machine after its set up, be it events of its own,
    events of other machines, rate limiting, interruptions, stops, restarts or data,
    the transitions it announced form a path through its declared transitions from
    the initial state to the current one, and that state is one it mentions. *)
Theorem history_is_a_path `{TL : TimeLib} `{FS : FSM} `{DL : DataLib} `{FL : !FSMLaws} m ops :
  knownStates m = ∅ → effects m = [] → (0 < notifiers m)%nat → (Setup m).2 = Ok tt →
  let m' := fold_left run_op ops (Setup m).1 in
  ∃ f, fsm m' = Some f ∧
    path (Transitions m) (InitialState m) (history (effects m')) (fsm_Current f) ∧
    mentioned m (fsm_Current f).
Proof.
  intros Hk He Hn Hs m'.
  assert (keeps m m') as (_ & _ & _ & f & Hf & _ & Hp).
  { pose proof (setup_keeps m (or_introl Hk) He Hs) as Hks. unfold m'. revert Hks.
    generalize (Setup m).1. induction ops as [|o ops IH]; intros m1 Hks; [done|].
    apply IH. by apply run_op_keeps. }
  exists f. split_and!; [done..|]. by eapply path_mentioned.
Qed.

(** Data that was stored survives: after a [DataPut] that reports success, a
    machine that starts from the file sees every stored value, and what it had
    that the file does not mention; a put that cannot write reports an error and
    leaves the file alone. *)
Theorem data_put_durable `{TL : TimeLib} `{FS : FSM} `{DL : DataLib} m k v :
  (∀ d j, data_Marshal d = Some j → data_Unmarshal j = Some d) →
  let '(m', r) := DataPut k v m in
  DataGet k m' = Some v ∧ (∀ k', k' ≠ k → DataGet k' m' = DataGet k' m) ∧
  match r with
  | Ok _ => ∀ m2, data_file m2 = data_file m' →
      (loadData m2).2 = Ok tt ∧ data (loadData m2).1 = data m' ∪ data m2
  | _ => data_file m' = data_file m
  end.
Proof.
  intros Hrt. unfold DataPut, mbind, ST_bind, modify, saveData, DataGet. simpl.
  destruct (data_Marshal _) as [j|] eqn:Hj; [destruct (data_writable m)|]; simpl;
    (split; [apply lookup_insert_eq|]; split; [intros k' Hk'; by apply lookup_insert_ne|]); [|done..].
  intros m2 Hm2. unfold loadData. rewrite Hm2, (Hrt _ _ Hj). done.
Qed.

(** ** Concrete libraries and machines *)

(** A finite state machine that scans its descriptions, the last one winning. *)
Record flat_fsm := { flat_current : string; flat_events : list EventDesc }.

Definition flat_find (f : flat_fsm) (e : string) : option EventDesc :=
  last (List.filter (λ d, String.eqb (ev_Name d) e && elem (flat_current f) (ev_Src d)) (flat_events f)).

#[export] Instance flat_FSM : FSM := {|
  fsm_t := flat_fsm;
  NewFSM := λ i evs, {| flat_current := i; flat_events := evs |};
  fsm_Current := flat_current;
  fsm_Can := λ f e, match flat_find f e with Some _ => true | None => false end;
  fsm_Event := λ _ f e,
    match flat_find f e with
    | None => (f, None)
    | Some d =>
        ({| flat_current := ev_Dst d; flat_events := flat_events f |},
         if decide (flat_current f = ev_Dst d) then None else Some (flat_current f, ev_Dst d))
    end;
|}.

Lemma flat_find_spec f e d : flat_find f e = Some d →
  d ∈ flat_events f ∧ ev_Name d = e ∧ flat_current f ∈ ev_Src d.
Proof.
  unfold flat_find. intros Hl. apply last_Some in Hl as [l Hl].
  assert (d ∈ List.filter (λ d, String.eqb (ev_Name d) e && elem (flat_current f) (ev_Src d)) (flat_events f)) as Hd.
  { rewrite Hl. apply elem_of_app. right. by apply list_elem_of_singleton. }
  apply list_elem_of_In, List.filter_In in Hd as [Hd Hb]. bprop.
  split; [by apply list_elem_of_In|]. split; [done|]. by apply elem_true.
Qed.

Lemma flat_find_none f e d : flat_find f e = None →
  d ∈ flat_events f → ev_Name d = e → flat_current f ∈ ev_Src d → False.
Proof.
  unfold flat_find. intros Hl Hd Hn Hs. apply last_None in Hl.
  assert (d ∈ List.filter (λ d, String.eqb (ev_Name d) e && elem (flat_current f) (ev_Src d)) (flat_events f)) as Hin.
  { apply list_elem_of_In, List.filter_In. split; [by apply list_elem_of_In|].
    rewrite Hn, String.eqb_refl. by apply elem_true. }
  rewrite Hl in Hin. by apply elem_of_nil in Hin.
Qed.

#[export, refine] Instance flat_FSMLaws : FSMLaws := {| fsm_events := flat_events |}.
Proof.
  - done.
  - done.
  - intros f e. simpl. destruct (flat_find f e) as [d|] eqn:E.
    + split; [|done]. intros _. exists d. by apply flat_find_spec.
    + split; [done|]. intros (d & ? & ? & ?). by destruct (flat_find_none f e d).
  - intros ctx f e. simpl. by destruct (flat_find f e).
  - intros ctx f e. simpl. destruct (flat_find f e) as [d|] eqn:E; [|done]. intros _. right.
    exists d. destruct (flat_find_spec _ _ _ E) as (? & ? & ?). by split_and!.
Defined.

(** A document is the number of a map, in decimal. *)
Definition demo_marshal (d : gmap string string) : string := pretty (encode d).
Definition demo_unmarshal (s : string) : option (gmap string string) :=
  z ← digits_val 0 s; match z with Zpos p => decode p | _ => None end.

Lemma demo_unmarshal_marshal d : demo_unmarshal (demo_marshal d) = Some d.
Proof.
  unfold demo_unmarshal, demo_marshal. pose proof (digits_val_pretty (Npos (encode d)) "") as Hd.
  change (pretty_N_go (Npos (encode d)) "") with (pretty (encode d)) in Hd. rewrite Hd.
  apply decode_encode.
Qed.

#[export] Instance demo_data : DataLib := {|
  data_value := string;
  data_Marshal := λ d, Some (demo_marshal d);
  data_Unmarshal := demo_unmarshal;
|}.

Definition demo_transition (n f d : string) : Transition_ :=
  {| t_Name := n; t_From := [f]; t_Destination := d; t_Subscriptions := [] |}.

Definition demo_watcher : WatcherDef :=
  {| w_Name := "check"; w_Type := "exec"; w_StateMatch := ["running"]; w_ForeignStateRequired := [];
     w_FailTransition := "stop"; w_SuccessTransition := ""; w_Interval := "1m";
     w_AnnounceInterval := "90s"; w_AnnounceDuration := 0 |}.

Definition demo_machine : Machine :=
  {| MachineName := "m"; MachineVersion := "1.0.0"; InitialState := "stopped";
     Transitions := [demo_transition "start" "stopped" "running"; demo_transition "stop" "running" "stopped"];
     WatcherDefs := [demo_watcher]; SplayStart := 0; instanceID := "id"; identity := "";
     externalMachineNotifier := true; notifiers := 2; fsm := None; knownStates := ∅;
     transitionCounter := 0; backoffTimer := None; startTimeZero := true; ctx := None; data := ∅;
     data_file := None; data_writable := true; effects := [] |}.

Lemma setup_validates_witness : (Setup demo_machine).2 = Ok tt ↔ valid demo_machine.
Proof. by apply (setup_validates demo_machine). Defined.

Definition demo_env : env := {| env_now := 0; env_interrupted := false |}.

Definition demo_ops : list op :=
  [OpStart false (Ok tt); OpTransition demo_env "start"; OpTransition demo_env "start";
   OpTransition demo_env "stop"; OpQuietPeriod; OpStop].

Lemma history_is_a_path_witness :
  let m' := fold_left run_op demo_ops (Setup demo_machine).1 in
  ∃ f, fsm m' = Some f ∧
    path (Transitions demo_machine) "stopped" (history (effects m')) (fsm_Current f) ∧
    mentioned demo_machine (fsm_Current f).
Proof.
  apply (history_is_a_path demo_machine demo_ops); [done|done|simpl; lia|by vm_compute].
Defined.

Lemma data_put_durable_witness :
  let '(m', r) := DataPut "k" "v" demo_machine in
  DataGet "k" m' = Some "v" ∧ (∀ k', k' ≠ "k" → DataGet k' m' = DataGet k' demo_machine) ∧
  match r with
  | Ok _ => ∀ m2, data_file m2 = data_file m' →
      (loadData m2).2 = Ok tt ∧ data (loadData m2).1 = data m' ∪ data m2
  | _ => data_file m' = data_file demo_machine
  end.
Proof.
  apply (data_put_durable demo_machine "k" "v").
  intros d j [= <-]. apply demo_unmarshal_marshal.
Defined.
