(* ===== verification/Watchers.v ===== *)
(** * Autonomous agents: watchers and their manager

    aagent/watchers/watcher/watcher.go, the base every watcher type embeds, and
    aagent/watchers/watchers.go, the manager that builds and runs the watchers of
    one machine.  Watcher types are constructors of the [Plugins] class; templates,
    fact files and governors are left out. *)
From S2P Require Import Prelude GoLib Regex Files Util DemoLibs Backoff Machine.

(** ** The watcher base *)

(** What a watcher sees of its machine. *)
Record machine_view := {
  mv_State : string;
  mv_LookupExternal : string → res string;
}.

Record Watcher := {
  wt_name : string;
  wt_wtype : string;
  wt_announceInterval : Z;
  (** a notification is waiting in the channel of capacity one *)
  wt_statechg : bool;
  wt_activeStates : list string;
  wt_requiredStates : list ForeignMachineState;
  wt_succEvent : string;
  wt_failEvent : string;
}.

Definition NewWatcher (name wtype : string) (announceInterval : Z) (activeStates : list string)
    (requireState : list ForeignMachineState) (has_machine : bool) (fail success : string) : res Watcher :=
  if String.eqb name "" then Err "name is required"
  else if String.eqb wtype "" then Err "watcher type is required"
  else if negb has_machine then Err "machine is required"
  else Ok {| wt_name := name; wt_wtype := wtype; wt_announceInterval := announceInterval;
             wt_statechg := false; wt_activeStates := activeStates;
             wt_requiredStates := requireState; wt_succEvent := success; wt_failEvent := fail |}.

Definition set_statechg (b : bool) (w : Watcher) : Watcher :=
  {| wt_name := wt_name w; wt_wtype := wt_wtype w; wt_announceInterval := wt_announceInterval w;
     wt_statechg := b; wt_activeStates := wt_activeStates w;
     wt_requiredStates := wt_requiredStates w; wt_succEvent := wt_succEvent w;
     wt_failEvent := wt_failEvent w |}.

(** A full channel drops the notification. *)
Definition NotifyStateChance (w : Watcher) : Watcher := set_statechg true w.

(** [<-w.StateChangeC()]: [None] blocks. *)
Definition receive_state_change (w : Watcher) : option Watcher :=
  if wt_statechg w then Some (set_statechg false w) else None.

(** The event each outcome of a watch fires, if any. *)
Definition SuccessTransition (w : Watcher) : option string :=
  if String.eqb (wt_succEvent w) "" then None else Some (wt_succEvent w).

Definition FailureTransition (w : Watcher) : option string :=
  if String.eqb (wt_failEvent w) "" then None else Some (wt_failEvent w).

(** The loop over the active states: the last assignment before a match counts. *)
Fixpoint match_active (states : list string) (current : string) (stateMatch : bool) : bool :=
  match states with
  | [] => stateMatch
  | s :: rest => if String.eqb s current then true else match_active rest current false
  end.

Fixpoint match_required (v : machine_view) (l : list ForeignMachineState) (m : bool) : bool :=
  match l with
  | [] => m
  | r :: rest =>
      if String.eqb (fs_MachineName r) "" || String.eqb (fs_MachineState r) "" then false
      else
        match mv_LookupExternal v (fs_MachineName r) with
        | Ok state => if negb (String.eqb state (fs_MachineState r)) then false
                      else match_required v rest true
        | _ => false
        end
  end.

Definition ShouldWatch (v : option machine_view) (w : Watcher) : bool :=
  match v with
  | None => false
  | Some v =>
      let stateMatch := Nat.eqb (length (wt_activeStates w)) 0 in
      let foreignStateMatch := Nat.eqb (length (wt_requiredStates w)) 0 in
      let stateMatch := if Nat.ltb 0 (length (wt_activeStates w))
                        then match_active (wt_activeStates w) (mv_State v) stateMatch
                        else stateMatch in
      stateMatch && match_required v (wt_requiredStates w) foreignStateMatch
  end.

(** ** The manager *)

(** The registered watcher types; [new] builds a watcher from its definition, and
    [None] stands for a value that is no watcher. *)
Class Plugins := {
  plugin_new : gmap string (WatcherDef → res (option Watcher));
}.

Record Manager := {
  mg_watchers : gmap string Watcher;
  mg_has_machine : bool;
  (** the watchers started, and those that announce *)
  mg_running : list string;
  mg_announcing : list string;
}.

Definition New : Manager :=
  {| mg_watchers := ∅; mg_has_machine := false; mg_running := []; mg_announcing := [] |}.

Definition SetMachine (g : Manager) : Manager :=
  {| mg_watchers := mg_watchers g; mg_has_machine := true; mg_running := mg_running g;
     mg_announcing := mg_announcing g |}.

Abbreviation ManagerM := (ST Manager string).

Definition set_watchers (ws : gmap string Watcher) (g : Manager) : Manager :=
  {| mg_watchers := ws; mg_has_machine := mg_has_machine g; mg_running := mg_running g;
     mg_announcing := mg_announcing g |}.

Section Manager.
Context `{TL : TimeLib} `{PL : Plugins}.

Definition AddWatcher (w : Watcher) : ManagerM () := λ g,
  match mg_watchers g !! wt_name w with
  | Some _ => (g, Err ("watcher " +:+ wt_name w +:+ " already exist"))
  | None => (set_watchers (<[wt_name w := w]> (mg_watchers g)) g, Ok tt)
  end.

Definition WatcherState (name : string) (g : Manager) : option Watcher := mg_watchers g !! name.

Definition creation_error (w : WatcherDef) (e : string) : string :=
  "could not create " +:+ w_Type w +:+ " watcher '" +:+ w_Name w +:+ "': " +:+ e.

Fixpoint configureWatchers (defs : list WatcherDef) : ManagerM () :=
  match defs with
  | [] => mret tt
  | w :: rest =>
      let '(w, r) := ParseAnnounceInterval w in
      match r with
      | Err e => throw (creation_error w e)
      | Panic p => panic p
      | Ok _ =>
          match plugin_new !! w_Type w with
          | None => throw ("unknown watcher '" +:+ w_Type w +:+ "'")
          | Some new =>
              match new w with
              | Err e => throw (creation_error w e)
              | Panic p => panic p
              | Ok None => throw (w_Type w +:+ " watcher is not a valid watcher")
              | Ok (Some watcher) => AddWatcher watcher;; configureWatchers rest
              end
          end
      end
  end.

(** Starts every watcher, in the unspecified order of the map. *)
Definition Run (defs : list WatcherDef) : ManagerM () := λ g,
  if negb (mg_has_machine g) then (g, Err "manager requires a machine to manage")
  else
    match configureWatchers defs g with
    | (g', Ok _) =>
        let ws := map_to_list (mg_watchers g') in
        ({| mg_watchers := mg_watchers g'; mg_has_machine := mg_has_machine g';
            mg_running := mg_running g' ++ map fst ws;
            mg_announcing := mg_announcing g' ++
              map fst (List.filter (λ x, (0 <? wt_announceInterval x.2)%Z) ws) |}, Ok tt)
    | r => r
    end.

(** Tells every watcher about a transition. *)
Definition NotifyWatchers (g : Manager) : Manager :=
  set_watchers (NotifyStateChance <$> mg_watchers g) g.

(** ** Lemmas *)

Lemma match_active_true states current : states ≠ [] →
  match_active states current (Nat.eqb (length states) 0) = true ↔ current ∈ states.
Proof.
  assert (∀ l, match_active l current false = true ↔ current ∈ l) as Hl.
  { induction l as [|s l IH]; simpl; [split; [done|by intros ?%elem_of_nil]|].
    destruct (String.eqb_spec s current) as [->|Hne]; rewrite elem_of_cons; [by split; auto|].
    rewrite IH. naive_solver. }
  destruct states; [done|]. intros _. apply Hl.
Qed.

Lemma match_required_true v l m : match_required v l m = true ↔
  (l = [] → m = true) ∧
  ∀ r, r ∈ l → fs_MachineName r ≠ "" ∧ fs_MachineState r ≠ "" ∧
    mv_LookupExternal v (fs_MachineName r) = Ok (fs_MachineState r).
Proof.
  revert m. induction l as [|r l IH]; intros m; simpl.
  - split; [intros ->; split; [done|by intros r ?%elem_of_nil]|by intros [H _]; apply H].
  - setoid_rewrite elem_of_cons.
    assert (∀ b : bool, b = false →
      ¬ (fs_MachineName r ≠ "" ∧ fs_MachineState r ≠ "" ∧
         mv_LookupExternal v (fs_MachineName r) = Ok (fs_MachineState r)) →
      b = true ↔ (r :: l = [] → m = true) ∧ ∀ x, x = r ∨ x ∈ l → fs_MachineName x ≠ "" ∧
        fs_MachineState x ≠ "" ∧ mv_LookupExternal v (fs_MachineName x) = Ok (fs_MachineState x)) as Hno.
    { intros b -> Hr. split; [done|]. intros [_ H]. by destruct Hr; apply H; left. }
    destruct (String.eqb_spec (fs_MachineName r) "") as [He|Hn]; [apply Hno; [done|tauto]|].
    destruct (String.eqb_spec (fs_MachineState r) "") as [He|Hs]; [apply Hno; [done|tauto]|]. simpl.
    destruct (mv_LookupExternal v (fs_MachineName r)) as [s|e|p] eqn:E;
      [|apply Hno; [done|]; intros (_ & _ & ?); congruence..].
    destruct (String.eqb_spec s (fs_MachineState r)) as [->|Hne]; simpl;
      [|apply Hno; [done|]; intros (_ & _ & ?); congruence].
    rewrite IH. split; [intros [_ H]; split; [done|]; intros x [->|Hx]; auto|intros [_ H]; split; auto].
Qed.

(** Watchers are only ever added. *)
Lemma configure_grows defs g :
  mg_watchers g ⊆ mg_watchers (configureWatchers defs g).1.
Proof.
  revert g. induction defs as [|w defs IH]; intros g; [done|]. cbn [configureWatchers].
  destruct (ParseAnnounceInterval w) as [w' [[]|e|p]]; [|done..].
  destruct (plugin_new !! w_Type w') as [new|]; [|done].
  destruct (new w') as [[x|]|e|p]; [|done..].
  unfold mbind, ST_bind, AddWatcher. destruct (mg_watchers g !! wt_name x) eqn:E; [done|].
  etransitivity; [|apply IH]. simpl. by apply insert_subseteq.
Qed.

(** Plugins name the watcher as its definition does. *)
Definition named_plugins : Prop :=
  ∀ t new w x, plugin_new !! t = Some new → new w = Ok (Some x) → wt_name x = w_Name w.

Lemma ParseAnnounce_name w : w_Name (ParseAnnounceInterval w).1 = w_Name w.
Proof. unfold ParseAnnounceInterval. by repeat (case_match; simpl). Qed.

Lemma configure_again w defs g : named_plugins → is_Some (mg_watchers g !! w_Name w) →
  (configureWatchers (w :: defs) g).2 ≠ Ok tt ∧ (configureWatchers (w :: defs) g).1 = g.
Proof.
  intros Hn [x Hx]. cbn [configureWatchers]. pose proof (ParseAnnounce_name w) as Hname.
  destruct (ParseAnnounceInterval w) as [w' [[]|e|p]]; [|done..]. simpl in Hname.
  destruct (plugin_new !! w_Type w') as [new|] eqn:Hp; [|done].
  destruct (new w') as [[y|]|e|p] eqn:Hw; [|done..].
  assert (wt_name y = w_Name w) as Hy by (rewrite <- Hname; by eapply Hn).
  unfold mbind, ST_bind, AddWatcher. by rewrite Hy, Hx.
Qed.
End Manager.

(** A watcher watches exactly when its machine is in one of its active states,
    or it has none, and every other machine it requires is named, known and in the
    required state. *)
Theorem should_watch_spec v w :
  ShouldWatch (Some v) w = true ↔
  (wt_activeStates w = [] ∨ mv_State v ∈ wt_activeStates w) ∧
  ∀ r, r ∈ wt_requiredStates w → fs_MachineName r ≠ "" ∧ fs_MachineState r ≠ "" ∧
    mv_LookupExternal v (fs_MachineName r) = Ok (fs_MachineState r).
Proof.
  unfold ShouldWatch. rewrite andb_true_iff, match_required_true.
  assert ((if Nat.ltb 0 (length (wt_activeStates w))
           then match_active (wt_activeStates w) (mv_State v) (Nat.eqb (length (wt_activeStates w)) 0)
           else Nat.eqb (length (wt_activeStates w)) 0) = true ↔
          wt_activeStates w = [] ∨ mv_State v ∈ wt_activeStates w) as ->.
  { destruct (wt_activeStates w) as [|s l] eqn:E; [simpl; naive_solver|].
    change (Nat.ltb 0 (length (s :: l))) with true. cbv iota. rewrite match_active_true by done.
    split; [by right|]. by intros [?|?]. }
  split; [by intros [? [_ ?]]|]. intros [? ?]. split; [done|]. split; [|done].
  intros ->. done.
Qed.

(** A manager can configure its watchers only once: when an attempt created the
    first watcher and then failed, the watcher stays, and every later attempt fails
    on it and starts nothing, although the machine keeps being restarted. *)
Theorem run_is_not_retryable `{TL : TimeLib} `{PL : Plugins} w defs g g2 :
  named_plugins → is_Some (mg_watchers (Run (w :: defs) g).1 !! w_Name w) →
  mg_watchers (Run (w :: defs) g).1 ⊆ mg_watchers g2 →
  (Run (w :: defs) g2).2 ≠ Ok tt ∧ mg_running (Run (w :: defs) g2).1 = mg_running g2.
Proof.
  intros Hn [x Hx] Hsub. unfold Run at 1 2. destruct (negb (mg_has_machine g2)); [done|].
  destruct (configure_again w defs g2 Hn) as [Ho Hg].
  { exists x. by eapply lookup_weaken. }
  destruct (configureWatchers (w :: defs) g2) as [g3 [[]|e|p]]; simpl in *; [done|by subst..].
Qed.

Definition demo_def (n t : string) : WatcherDef :=
  {| w_Name := n; w_Type := t; w_StateMatch := []; w_ForeignStateRequired := [];
     w_FailTransition := ""; w_SuccessTransition := ""; w_Interval := "";
     w_AnnounceInterval := ""; w_AnnounceDuration := 0 |}.

Definition demo_new (w : WatcherDef) : res (option Watcher) :=
  r ← NewWatcher (w_Name w) (w_Type w) (w_AnnounceDuration w) (w_StateMatch w) [] true "" ""; Ok (Some r).

#[export] Instance demo_plugins : Plugins := {| plugin_new := {["file" := demo_new]} |}.

Lemma run_is_not_retryable_witness :
  let defs := [demo_def "a" "file"; demo_def "b" "unknown"] in
  let g := (Run defs (SetMachine New)).1 in
  (Run defs g).2 ≠ Ok tt ∧ mg_running (Run defs g).1 = mg_running g.
Proof.
  intros defs g. apply (run_is_not_retryable (demo_def "a" "file") [demo_def "b" "unknown"] (SetMachine New) g).
  - intros t new w x Hp Hw.
    change (({["file" := demo_new]} : gmap string (WatcherDef → res (option Watcher))) !! t = Some new) in Hp.
    apply lookup_singleton_Some in Hp as [_ <-].
    unfold demo_new, NewWatcher in Hw. repeat (case_match; simplify_eq/=). done.
  - by eexists.
  - done.
Defined.

(** * What a watcher asks of its machine

    The interface between the types of watchers and aagent/machine/machine.go
    ([model.Machine]), its laws, and the machine of Machine.v as an instance; transitions
    as watchers fire them. *)

(** [V] are the values a machine stores. *)
Class WatcherHost (M V : Type) := {
  host_view : M → machine_view;
  host_Directory : M → string;
  host_Name : M → string;
  host_Transition : string → ST M string ();
  (** the name of a watcher and its outcome *)
  host_NotifyWatcherState : string → string → M → M;
  host_DataGet : string → M → option V;
  host_DataPut : string → V → ST M string ();
  host_DataDelete : string → ST M string ();
}.

(** The data of a machine is a map, as long as storing it works. *)
Class DataLaws (M V : Type) `{WatcherHost M V} := {
  put_get k v m m' k' : host_DataPut k v m = (m', Ok tt) →
    host_DataGet k' m' = if decide (k = k') then Some v else host_DataGet k' m;
  delete_get k m m' k' : host_DataDelete k m = (m', Ok tt) →
    host_DataGet k' m' = if decide (k = k') then None else host_DataGet k' m;
  transition_data ev m k : host_DataGet k (host_Transition ev m).1 = host_DataGet k m;
  notify_data w o m k : host_DataGet k (host_NotifyWatcherState w o m) = host_DataGet k m;
}.

Section Fire.
Context {M V : Type} `{WH : WatcherHost M V}.

(** [SuccessTransition] and [FailureTransition] on the machine: nothing without an event. *)
Definition fire_event (event : option string) : ST M string () :=
  match event with
  | None => mret tt
  | Some ev => host_Transition ev
  end.

(** [Watcher.Transition] *)
Definition fire_named (event : string) : ST M string () :=
  if String.eqb event "" then mret tt else host_Transition event.

End Fire.

Lemma fire_event_data {M V} `{DataLaws M V} ev m k : host_DataGet k (fire_event ev m).1 = host_DataGet k m.
Proof. destruct ev; [apply transition_data|done]. Qed.

(** ** The machine as a host *)

Section Host.
Context `{TL : TimeLib} `{FS : FSM} `{DL : DataLib}.
(** Where it is stored, the state of other machines, and the world of its transitions. *)
Variable directory : string.
Variable lookup_external : string → res string.
Variable e : env.

Definition machine_host : WatcherHost Machine data_value :=
  {| host_view := λ m, {| mv_State := from_option fsm_Current "" (fsm m); mv_LookupExternal := lookup_external |};
     host_Directory := λ _, directory;
     host_Name := MachineName;
     host_Transition := Transition e;
     host_NotifyWatcherState := λ _ _ m, m;
     host_DataGet := DataGet;
     host_DataPut := DataPut;
     host_DataDelete := DataDelete |}.

Lemma saveData_data m : data (saveData m).1 = data m.
Proof. unfold saveData. repeat case_match; by simplify_eq/=. Qed.

Lemma fire_keeps_data ev m : data (fire e ev m).1 = data m.
Proof. unfold fire. destruct (fsm m); [|done]. destruct (fsm_Event _ _ _) as [f2 [[src dst]|]]; done. Qed.

Lemma backoff_keeps_data m : data (backoffTransition e m).1 = data m.
Proof. unfold backoffTransition. repeat case_match; done. Qed.

Lemma transition_keeps_data ev m : data (Transition e ev m).1 = data m.
Proof.
  unfold Transition. destruct (String.eqb ev ""); [done|]. unfold mbind, ST_bind, Can.
  destruct (fsm m) as [f|]; [|done]. destruct (fsm_Can f ev); [|done].
  pose proof (backoff_keeps_data m) as Hb. destruct (backoffTransition e m) as [m' [[]|err|p]]; [|exact Hb..].
  by rewrite fire_keeps_data.
Qed.

Lemma machine_host_laws : @DataLaws Machine data_value machine_host.
Proof.
  split; cbn.
  - intros k v m m' k' Hp. unfold DataPut, mbind, ST_bind, modify in Hp. apply (f_equal fst) in Hp. cbn in Hp.
    unfold DataGet. rewrite <- Hp, saveData_data. cbn. apply lookup_insert.
  - intros k m m' k' Hd. unfold DataDelete in Hd. unfold DataGet. destruct (data m !! k) as [v|] eqn:Hv.
    + apply (f_equal fst) in Hd. cbn in Hd. rewrite <- Hd, saveData_data. cbn.
      case_decide as Hk; [subst; by rewrite lookup_delete_eq|]. by rewrite lookup_delete_ne.
    + injection Hd as <-. case_decide as Hk; [by subst|done].
  - intros ev m k. unfold DataGet. by rewrite transition_keeps_data.
  - done.
Qed.

End Host.

(** ** A small host, for the witnesses: the events it was sent and its data *)

Record demo_machine := { dm_State : string; dm_events : list string; dm_data : gmap string string }.

#[export] Instance demo_host : WatcherHost demo_machine string :=
  {| host_view := λ m, {| mv_State := dm_State m; mv_LookupExternal := λ _, Err "no external machines" |};
     host_Directory := λ _, "/etc/choria/machine/demo";
     host_Name := λ _, "demo";
     host_Transition := λ ev m,
       ({| dm_State := dm_State m; dm_events := dm_events m ++ [ev]; dm_data := dm_data m |}, Ok tt);
     host_NotifyWatcherState := λ _ _ m, m;
     host_DataGet := λ k m, dm_data m !! k;
     host_DataPut := λ k v m,
       ({| dm_State := dm_State m; dm_events := dm_events m; dm_data := <[k := v]> (dm_data m) |}, Ok tt);
     host_DataDelete := λ k m,
       ({| dm_State := dm_State m; dm_events := dm_events m; dm_data := delete k (dm_data m) |}, Ok tt) |}.

#[export] Instance demo_host_laws : DataLaws demo_machine string.
Proof.
  split; cbn.
  - intros k v m m' k' [= <-]. cbn. apply lookup_insert.
  - intros k m m' k' [= <-]. cbn. apply lookup_delete.
  - done.
  - done.
Qed.

Definition demo_watched (state : string) : demo_machine := {| dm_State := state; dm_events := []; dm_data := ∅ |}.
Definition demo_base (wtype : string) : Watcher :=
  {| wt_name := "demo"; wt_wtype := wtype; wt_announceInterval := 0; wt_statechg := false; wt_activeStates := [];
     wt_requiredStates := []; wt_succEvent := "ok"; wt_failEvent := "failed" |}.
