(* ===== verification/ExecWatcher.v ===== *)
(** * The exec watcher

    aagent/watchers/execwatcher/exec.go: runs a command on its interval and on state
    changes, optionally under a governor, and fires the event of its outcome.  What
    commands, templates, temporary files and governors answer is an argument; the
    trace records the resources it holds. *)
From S2P Require Import Prelude GoLib Files Util Machine Watchers.

Inductive State := Unknown | Skipped | Error | Success.

Definition stateNames (s : State) : string :=
  match s with Unknown => "unknown" | Skipped => "skipped" | Error => "error" | Success => "success" end.

Record Properties := {
  p_Command : string;
  p_Environment : list string;
  p_Governor : string;
  p_GovernorTimeout : Z;
  p_OutputAsData : bool;
  p_SuppressSuccessAnnounce : bool;
  p_GatherInitialState : bool;
  p_Disown : bool;
  p_Timeout : Z;
}.

Record ExecWatcher := {
  ex_base : Watcher;
  ex_properties : Properties;
  ex_interval : Z;
  ex_previous : State;
  (** never, nothing sets it *)
  ex_lastWatch : option Z;
}.

Definition set_timeouts (timeout governor : Z) (p : Properties) : Properties :=
  {| p_Command := p_Command p; p_Environment := p_Environment p; p_Governor := p_Governor p;
     p_GovernorTimeout := governor; p_OutputAsData := p_OutputAsData p;
     p_SuppressSuccessAnnounce := p_SuppressSuccessAnnounce p; p_GatherInitialState := p_GatherInitialState p;
     p_Disown := p_Disown p; p_Timeout := timeout |}.

Definition validate (p : Properties) : res Properties :=
  if String.eqb (p_Command p) "" then Err "command is required"
  else
    let timeout := if (p_Timeout p =? 0)%Z then Second else p_Timeout p in
    let governor := if negb (String.eqb (p_Governor p) "") && (p_GovernorTimeout p =? 0)%Z then (5 * Minute)%Z
                    else p_GovernorTimeout p in
    if p_Disown p && p_OutputAsData p then Err "cannot parse output as data while disowning child processes"
    else Ok (set_timeouts timeout governor p).

Definition Millisecond : Z := 1000000.

(** [rawprop] is what decoding the properties gave. *)
Definition NewExec `{TimeLib} (name : string) (states : list string) (required : list ForeignMachineState)
    (failEvent successEvent interval : string) (ai : Z) (has_machine : bool) (rawprop : res Properties) :
    res ExecWatcher :=
  base ← NewWatcher name "exec" ai states required has_machine failEvent successEvent;
  props ← map_err (λ e, "could not set properties: " +:+ e) (p ← rawprop; validate p);
  let watcher i := {| ex_base := base; ex_properties := props; ex_interval := i; ex_previous := Unknown;
                      ex_lastWatch := None |} in
  if String.eqb interval "" then Ok (watcher 0%Z)
  else
    i ← map_err (λ e, "invalid interval: " +:+ e) (ParseDuration interval);
    if (i <? 500 * Millisecond)%Z then Err ("interval " +:+ RenderDuration i +:+ " is too small")
    else Ok (watcher i).

(** ** The world of one execution *)

(** Resources as they are taken and given back, and the command that ran. *)
Inductive exec_event :=
| GovernorEntered (name : string)
| GovernorLeft (name : string)
| TempCreated (file : string)
| TempRemoved (file : string)
| Ran (argv environment : list string).

Record exec_env (V : Type) := {
  x_ProcessTemplate : string → res string;
  x_EnterGovernor : string → Z → res ();
  x_shlex_Split : string → res (list string);
  x_DataCopyFile : res string;
  x_FactsFile : res string;
  x_PATH : string;
  x_CombinedOutput : list string → res string;
  x_Start : list string → res ();
  (** the end of the child, or of the context *)
  x_Wait : res ();
  x_Unmarshal : string → res (list (string * V));
}.
Arguments x_ProcessTemplate {V}. Arguments x_EnterGovernor {V}. Arguments x_shlex_Split {V}.
Arguments x_DataCopyFile {V}. Arguments x_FactsFile {V}. Arguments x_PATH {V}. Arguments x_CombinedOutput {V}.
Arguments x_Start {V}. Arguments x_Wait {V}. Arguments x_Unmarshal {V}.

Section Exec.
Context {M V : Type} `{WH : WatcherHost M V}.
Variable x : exec_env V.

(** The machine and the trace; an early return carries a state and an error. *)
Abbreviation World := (M * list exec_event)%type.
Abbreviation WatchM := (ST World (State * option string)).

Definition log (e : exec_event) : World → World := λ w, (w.1, w.2 ++ [e]).

(** [if err != nil { return s, wrap(err) }] *)
Definition or_return {A} (s : State) (wrap : string → string) (r : res A) : WatchM A :=
  match r with
  | Ok a => mret a
  | Err e => throw (s, Some (wrap e))
  | Panic p => panic p
  end.

Definition on_machine {A} (f : ST M string A) : WatchM A := λ w,
  match f w.1 with
  | (m, Ok a) => ((m, w.2), Ok a)
  | (m, Err e) => ((m, w.2), Err (Error, Some e))
  | (m, Panic p) => ((m, w.2), Panic p)
  end.

(** A temporary file that is removed in the end. *)
Definition with_temp {A} (r : res string) (body : string → WatchM A) : WatchM A :=
  f ← or_return Error id r;
  modify (log (TempCreated f));;
  deferred (log (TempRemoved f)) (body f).

Fixpoint process_environment (l : list string) : WatchM (list string) :=
  match l with
  | [] => mret []
  | e :: rest =>
      es ← or_return Error (λ err, "could not process environment template: " +:+ err) (x_ProcessTemplate x e);
      more ← process_environment rest;
      mret (es :: more)
  end.

Fixpoint put_all (l : list (string * V)) : ST M string () :=
  match l with
  | [] => mret tt
  | (k, v) :: rest => host_DataPut k v;; put_all rest
  end.

Definition setOutputAsData (output : string) : ST M string () :=
  dat ← lift (x_Unmarshal x output); put_all dat.

(** A command that cannot be started returns the zero state. *)
Definition run_command (p : Properties) (argv env : list string) : WatchM string :=
  modify (log (Ran argv env));;
  if p_Disown p then
    or_return Unknown id (x_Start x argv);;
    or_return Error id (x_Wait x);;
    mret ""
  else or_return Error id (x_CombinedOutput x argv).

Definition run_exec (w : ExecWatcher) : WatchM State :=
  let p := ex_properties w in
  parsedCommand ← or_return Error (λ e, "could not process command template: " +:+ e)
    (x_ProcessTemplate x (p_Command p));
  splitcmd ← or_return Error id (x_shlex_Split x parsedCommand);
  if Nat.eqb (length splitcmd) 0 then throw (Error, None)
  else
    with_temp (x_DataCopyFile x) (λ df,
    with_temp (x_FactsFile x) (λ ff,
      dir ← gets (λ w, host_Directory w.1);
      name ← gets (λ w, host_Name w.1);
      let base := ["MACHINE_WATCHER_NAME=" +:+ wt_name (ex_base w); "MACHINE_NAME=" +:+ name;
                   "PATH=" +:+ x_PATH x +:+ ":" +:+ dir; "WATCHER_DATA=" +:+ df; "WATCHER_FACTS=" +:+ ff] in
      env ← process_environment (p_Environment p);
      output ← run_command p splitcmd (base ++ env);
      if p_OutputAsData p then on_machine (setOutputAsData output);; mret Success
      else mret Success)).

Definition watch (w : ExecWatcher) : WatchM State :=
  v ← gets (λ w, host_view w.1);
  if negb (ShouldWatch (Some v) (ex_base w)) then mret Skipped
  else
    let g := p_Governor (ex_properties w) in
    if String.eqb g "" then run_exec w
    else
      or_return Error id (x_EnterGovernor x g (p_GovernorTimeout (ex_properties w)));;
      modify (log (GovernorEntered g));;
      deferred (log (GovernorLeft g)) (run_exec w).

Definition set_previous (s : State) (w : ExecWatcher) : ExecWatcher :=
  {| ex_base := ex_base w; ex_properties := ex_properties w; ex_interval := ex_interval w; ex_previous := s;
     ex_lastWatch := ex_lastWatch w |}.

(** What a check does to the machine. *)
Definition handle_check (w : ExecWatcher) (s : State) : ST M string () :=
  let notify := modify (host_NotifyWatcherState (wt_name (ex_base w)) (stateNames s)) in
  match s with
  | Error => notify;; fire_event (FailureTransition (ex_base w))
  | Success =>
      (if p_SuppressSuccessAnnounce (ex_properties w) then mret tt else notify);;
      fire_event (SuccessTransition (ex_base w))
  | _ => mret tt
  end.

(** [time.Since] of a time that was never set is the longest duration. *)
Definition since (now : Z) (t : option Z) : Z := match t with None => int64_max | Some t => (now - t)%Z end.

(** The state a watch ends with, whether it returned or failed. *)
Definition watched (o : outcome (State * option string) State) : outcome string State :=
  match o with Ok s => Ok s | Err (s, _) => Ok s | Panic p => Panic p end.

(** An error of the event is only logged. *)
Definition performWatch (now : Z) (force : bool) (w : ExecWatcher) (wd : World) : ExecWatcher * World * res () :=
  if negb force && (since now (ex_lastWatch w) <? ex_interval w)%Z then (w, wd, Ok tt)
  else
    let '(wd, o) := watch w wd in
    match watched o with
    | Panic p => (w, wd, Panic p)
    | Err e => (w, wd, Ok tt)
    | Ok s =>
        let '(m, r) := handle_check w s wd.1 in
        (set_previous s w, (m, wd.2), match r with Panic p => Panic p | _ => Ok tt end)
    end.

End Exec.

(** * The exec watcher: properties

    The resources of an execution are given back however it ends; what an execution
    fires; the interval holds nothing back. *)
From S2P Require Import DemoLibs.

(** The temporary files around the command, which runs at most once. *)
Inductive file_trace : list exec_event → Prop :=
| trace_none : file_trace []
| trace_data df : file_trace [TempCreated df; TempRemoved df]
| trace_files df ff : file_trace [TempCreated df; TempCreated ff; TempRemoved ff; TempRemoved df]
| trace_ran df ff argv env :
    file_trace [TempCreated df; TempCreated ff; Ran argv env; TempRemoved ff; TempRemoved df].

(** The slot of the governor around these. *)
Inductive watch_trace (g : string) : list exec_event → Prop :=
| trace_nothing : watch_trace g []
| trace_free u : g = "" → file_trace u → watch_trace g u
| trace_governed u : g ≠ "" → file_trace u → watch_trace g (GovernorEntered g :: u ++ [GovernorLeft g]).

Section Exec.
Context {M V : Type} `{WH : WatcherHost M V}.
Variable x : exec_env V.

Lemma or_return_spec {A} s f (r : res A) (w : M * list exec_event) :
  or_return s f r w = (w, match r with Ok a => Ok a | Err e => Err (s, Some (f e)) | Panic p => Panic p end).
Proof. by destruct r. Qed.

Lemma process_environment_world l (w : M * list exec_event) : (process_environment x l w).1 = w.
Proof.
  induction l as [|e l IH]; [done|]. cbn [process_environment]. unfold mbind, ST_bind. rewrite or_return_spec.
  destruct (x_ProcessTemplate x e); [|done..]. by destruct (process_environment x l w) as [w' [?|?|?]].
Qed.

Lemma on_machine_trace {A} (f : ST M string A) (w : M * list exec_event) : (on_machine f w).1.2 = w.2.
Proof. unfold on_machine. by destruct (f w.1) as [m [?|?|?]]. Qed.

Lemma run_command_trace p argv env (w : M * list exec_event) :
  (run_command x p argv env w).1.2 = w.2 ++ [Ran argv env].
Proof.
  unfold run_command, mbind, ST_bind, modify, log. destruct (p_Disown p).
  - unfold or_return. destruct (x_Start x argv), (x_Wait x); done.
  - by rewrite or_return_spec.
Qed.

(** What a body adds to the trace, a temporary file adds its own to. *)
Lemma with_temp_trace {A} (r : res string) (body : string → ST (M * list exec_event) (State * option string) A) w
    (P Q : list exec_event → Prop) :
  Q [] → (∀ f u, P u → Q (TempCreated f :: u ++ [TempRemoved f])) →
  (∀ f w, ∃ u, (body f w).1.2 = w.2 ++ u ∧ P u) →
  ∃ u, (with_temp r body w).1.2 = w.2 ++ u ∧ Q u.
Proof.
  intros H0 HQ Hb. unfold with_temp, mbind, ST_bind. rewrite or_return_spec.
  destruct r as [f|e|p]; [|exists []; by rewrite app_nil_r..].
  unfold modify, deferred. destruct (Hb f (log (TempCreated f) w)) as (u & Hu & HP).
  destruct (body f (log (TempCreated f) w)) as [w' o]. cbn in *. exists (TempCreated f :: u ++ [TempRemoved f]).
  split; [rewrite Hu; by list_simplifier|by apply HQ].
Qed.

Lemma run_exec_trace w wd : ∃ u, (run_exec x w wd).1.2 = wd.2 ++ u ∧ file_trace u.
Proof.
  unfold run_exec. unfold mbind at 1 2, ST_bind at 1 2. rewrite or_return_spec.
  assert (∀ o : outcome (State * option string) State, ∃ u, (wd, o).1.2 = wd.2 ++ u ∧ file_trace u) as Hnone.
  { intros o. exists []. rewrite app_nil_r. by split; [|constructor]. }
  destruct (x_ProcessTemplate x _) as [cmd|e|p]; [|apply Hnone..]. rewrite or_return_spec.
  destruct (x_shlex_Split x cmd) as [argv|e|p]; [|apply Hnone..].
  destruct (Nat.eqb (length argv) 0); [apply Hnone|].
  apply (with_temp_trace _ _ wd (λ u, u = [] ∨ ∃ ff, u = [TempCreated ff; TempRemoved ff] ∨
      ∃ env, u = [TempCreated ff; Ran argv env; TempRemoved ff])).
  { constructor. }
  { intros df u [->|(ff & [->|[env ->]])]; constructor. }
  intros df w1.
  apply (with_temp_trace _ _ w1 (λ u, u = [] ∨ ∃ env, u = [Ran argv env])).
  { by left. }
  { intros ff u [->|[env ->]]; right; exists ff; [by left|right; by exists env]. }
  intros ff w2. unfold mbind, ST_bind, gets.
  pose proof (process_environment_world (p_Environment (ex_properties w)) w2) as He.
  destruct (process_environment x _ w2) as [w3 [env|e|p]]; cbn in He; subst w3;
    [|exists []; rewrite app_nil_r; by auto..].
  match goal with |- context [run_command x ?p ?a ?env w2] => pose proof (run_command_trace p a env w2) as Hr;
    destruct (run_command x p a env w2) as [w3 [out|e|q]]; cbn in Hr; [|eexists; split; [exact Hr|eauto]..] end.
  destruct (p_OutputAsData _); [|eexists; split; [exact Hr|eauto]].
  pose proof (on_machine_trace (setOutputAsData x out) w3) as Hm.
  destruct (on_machine _ w3) as [w4 [?|?|?]]; cbn in Hm; cbn; rewrite Hm, Hr; eexists; (split; [done|eauto]).
Qed.

Lemma watch_trace_spec w wd : ∃ u, (watch x w wd).1.2 = wd.2 ++ u ∧ watch_trace (p_Governor (ex_properties w)) u ∧
  (ShouldWatch (Some (host_view wd.1)) (ex_base w) = false → u = []).
Proof.
  unfold watch. unfold mbind at 1, ST_bind at 1, gets. set (g := p_Governor (ex_properties w)).
  destruct (ShouldWatch _ _); cbn [negb]; [|exists []; rewrite app_nil_r; split_and!; [done|constructor|done]].
  destruct (String.eqb_spec g "") as [Hg|Hg].
  { destruct (run_exec_trace w wd) as (u & Hu & Ht). exists u. split_and!; [done| |done]. by apply trace_free. }
  unfold mbind, ST_bind. rewrite or_return_spec. destruct (x_EnterGovernor x g _);
    [|exists []; rewrite app_nil_r; split_and!; [done|constructor|done]..].
  unfold modify, deferred. destruct (run_exec_trace w (log (GovernorEntered g) wd)) as (u & Hu & Ht).
  destruct (run_exec x w _) as [w' o]. cbn in *. exists (GovernorEntered g :: u ++ [GovernorLeft g]).
  split_and!; [rewrite Hu; by list_simplifier|by apply trace_governed|done].
Qed.

(** However an execution of an exec watcher ends, in success, an error of a
    template, a file, the governor or the command, or a panic, it gives back what it took:
    every temporary file it made is removed, in the reverse order, and the slot of its
    governor is left last. The command runs at most once, with both files in place and
    while the slot is held, and only in a state the watcher is active in. *)
Theorem exec_releases (now : Z) (force : bool) (w : ExecWatcher) (m : M) (t : list exec_event) :
  ∃ u, (performWatch x now force w (m, t)).1.2.2 = t ++ u ∧ watch_trace (p_Governor (ex_properties w)) u ∧
    (ShouldWatch (Some (host_view m)) (ex_base w) = false → u = []).
Proof.
  unfold performWatch. destruct (negb force && _).
  { exists []. rewrite app_nil_r. split_and!; [done|constructor|done]. }
  destruct (watch_trace_spec w (m, t)) as (u & Hu & Ht & Hno). exists u.
  destruct (watch x w (m, t)) as [wd o]. cbn in Hu, Hno.
  destruct (watched o) as [s|e|p]; cbn; [|done..]. by destruct (handle_check w s wd.1).
Qed.

(** ** The interval *)

Lemma performWatch_lastWatch now force w wd :
  ex_lastWatch (performWatch x now force w wd).1.1 = ex_lastWatch w.
Proof.
  unfold performWatch. destruct (negb force && _); [done|]. destruct (watch x w wd) as [wd' o].
  destruct (watched o) as [s|e|p]; [|done..]. by destruct (handle_check w s wd'.1).
Qed.

(** The interval of an exec watcher holds nothing back: nothing records when it last
    ran, so for any history of a watcher a tick runs the command exactly as a change of
    state does. *)
Theorem interval_holds_nothing_back (w w' : ExecWatcher) (runs : list (Z * bool * (M * list exec_event))) (now : Z)
    (wd : M * list exec_event) :
  ex_lastWatch w = None → (ex_interval w ≤ int64_max)%Z →
  w' = foldl (λ w r, (performWatch x r.1.1 r.1.2 w r.2).1.1) w runs →
  performWatch x now false w' wd = performWatch x now true w' wd.
Proof.
  intros Hl Hi ->. assert (∀ w0, ex_interval (foldl (λ w r, (performWatch x r.1.1 r.1.2 w r.2).1.1) w0 runs) = ex_interval w0 ∧
    ex_lastWatch (foldl (λ w r, (performWatch x r.1.1 r.1.2 w r.2).1.1) w0 runs) = ex_lastWatch w0) as Hk.
  { clear. induction runs as [|[[n f] wd] runs IH]; [done|]. intros w0. cbn [foldl fst snd].
    destruct (IH (performWatch x n f w0 wd).1.1) as [-> ->]. rewrite performWatch_lastWatch. split; [|done].
    unfold performWatch. destruct (negb f && _); [done|]. destruct (watch x w0 wd) as [wd' o].
    destruct (watched o) as [s|e|p]; [|done..]. by destruct (handle_check w0 s wd'.1). }
  destruct (Hk w) as [Hi' Hl']. unfold performWatch at 1. rewrite Hi', Hl', Hl. cbn [since negb andb].
  rewrite (proj2 (Z.ltb_ge _ _) Hi). done.
Qed.

(** A disowned command that cannot be started fires no event: its state is that of a
    watcher that never ran. *)
Lemma disowned_start_failure p argv env (w : M * list exec_event) e : p_Disown p = true → x_Start x argv = Err e →
  (run_command x p argv env w).2 = Err (Unknown, Some e).
Proof.
  intros Hd Hs. unfold run_command, mbind, ST_bind, modify. rewrite Hd, or_return_spec, Hs. done.
Qed.

End Exec.

(** ** A watcher for the witnesses *)

Definition demo_exec_env : exec_env string :=
  {| x_ProcessTemplate := λ s, Ok s; x_EnterGovernor := λ _ _, Ok tt; x_shlex_Split := λ s, Ok (split s " ");
     x_DataCopyFile := Ok "/tmp/data"; x_FactsFile := Ok "/tmp/facts"; x_PATH := "/bin";
     x_CombinedOutput := λ _, Ok "done"; x_Start := λ _, Ok tt; x_Wait := Ok tt; x_Unmarshal := λ _, Ok [] |}.

Definition demo_exec : ExecWatcher :=
  {| ex_base := demo_base "exec";
     ex_properties := {| p_Command := "true"; p_Environment := []; p_Governor := "GOV"; p_GovernorTimeout := 5;
                         p_OutputAsData := false; p_SuppressSuccessAnnounce := false; p_GatherInitialState := false;
                         p_Disown := false; p_Timeout := Second |};
     ex_interval := Minute; ex_previous := Unknown; ex_lastWatch := None |}.

(** The command runs twice within a minute. *)
Lemma interval_holds_nothing_back_witness :
  (performWatch demo_exec_env 1 false
     (performWatch demo_exec_env 0 false demo_exec (demo_watched "s", [])).1.1 (demo_watched "s", [])).1.2.1 =
  (performWatch demo_exec_env 1 true
     (performWatch demo_exec_env 0 false demo_exec (demo_watched "s", [])).1.1 (demo_watched "s", [])).1.2.1.
Proof.
  rewrite (interval_holds_nothing_back demo_exec_env demo_exec
    (performWatch demo_exec_env 0 false demo_exec (demo_watched "s", [])).1.1
    [(0%Z, false, (demo_watched "s", []))] 1); [reflexivity|reflexivity|vm_compute; congruence|reflexivity].
Defined.
