(* ===== verification/NagiosWatcher.v ===== *)
(** * The status a server writes to disk

    statistics/instance.go: loading the status file and the checks made on it. Times
    are nanoseconds since the epoch, [None] the zero time. *)
From S2P Require Import Prelude GoLib Files Util GoNum.

Record ServerStats := {
  st_Total : Z; st_Valid : Z; st_Invalid : Z; st_Passed : Z; st_Filtered : Z; st_Replies : Z; st_TTLExpired : Z;
  st_Events : Z;
}.

Record InstanceStatus := {
  is_Identity : string;
  is_Uptime : Z;
  is_ConnectedServer : string;
  (** seconds *)
  is_LastMessage : Z;
  is_Provisioning : bool;
  is_Stats : option ServerStats;
  is_CertificateExpires : option Z;
  is_TokenExpires : option Z;
  is_FileName : string;
  is_ModTime : option Z;
}.

(** What [json.Unmarshal] makes of a status file. *)
Class StatusLib := { json_InstanceStatus : string → res InstanceStatus }.

Definition with_file (f : string) (mtime : Z) (s : InstanceStatus) : InstanceStatus :=
  {| is_Identity := is_Identity s; is_Uptime := is_Uptime s; is_ConnectedServer := is_ConnectedServer s;
     is_LastMessage := is_LastMessage s; is_Provisioning := is_Provisioning s; is_Stats := is_Stats s;
     is_CertificateExpires := is_CertificateExpires s; is_TokenExpires := is_TokenExpires s;
     is_FileName := f; is_ModTime := Some mtime |}.

(** [mtime] is what [os.Stat] answers. *)
Definition LoadInstanceStatus `{StatusLib} (fs : filesystem) (mtime : string → res Z) (f : string) :
    res InstanceStatus :=
  raw ← os_Open fs f;
  status ← json_InstanceStatus raw;
  t ← mtime f;
  Ok (with_file f t status).

(** [t.Sub(u)] saturates. *)
Definition time_Sub (t u : Z) : Z := Z.max int64_min (Z.min int64_max (t - u)%Z).

(** [time.Until] *)
Definition time_Until (now t : Z) : Z := time_Sub t now.

Section Checks.
Variable now : Z.
Variable time_String : Z → string.
Variable duration_String : Z → string.

Definition check_validity (what : string) (expires : option Z) (tillExpire : Z) : res () :=
  match expires with
  | None => Ok tt
  | Some t =>
      if (time_Until now t <? tillExpire)%Z
      then Err (what +:+ " expires " +:+ time_String t +:+ " (" +:+ duration_String (time_Until now t) +:+ ")")
      else Ok tt
  end.

Definition CheckTokenValidity (i : InstanceStatus) (tillExpire : Z) : res () :=
  check_validity "token" (is_TokenExpires i) tillExpire.

Definition CheckCertValidity (i : InstanceStatus) (tillExpire : Z) : res () :=
  check_validity "certificate" (is_CertificateExpires i) tillExpire.

(** [-1 * maxAge] wraps; the zero time is before any other. *)
Definition CheckFileAge (i : InstanceStatus) (maxAge : Z) : res () :=
  let limit := (now + wrap64 (- maxAge))%Z in
  if from_option (λ t, t <? limit)%Z true (is_ModTime i) then Err ("older than " +:+ duration_String maxAge) else Ok tt.

Definition CheckLastMessage (i : InstanceStatus) (maxAge : Z) : res () :=
  let previous := (is_LastMessage i * Second)%Z in
  if (is_LastMessage i =? 0)%Z && f64_ltb (f64_of_Z (is_Uptime i)) (Seconds maxAge) then Ok tt
  else if (previous <? now + wrap64 (- maxAge))%Z then Err ("last message at " +:+ time_String previous)
  else Ok tt.

Definition CheckConnection (i : InstanceStatus) : res () :=
  if String.eqb (is_ConnectedServer i) "" then Err "not connected" else Ok tt.

End Checks.

(** * The nagios watcher

    aagent/watchers/nagioswatcher and aagent/util/nagios.go: runs a check plugin or one
    of the builtin checks, keeps its output, performance data and the last executions,
    and drives its machine and the shared metrics by the state the check found.  One
    check runs at a time; commands, templates, goss, files and clocks are arguments. *)
From S2P Require Import Regex Machine Watchers.

(** ** Performance data *)

Record PerfData := { pd_Unit : string; pd_Label : string; pd_Value : float64 }.

Definition is_perf_value (c : ascii) : bool := is_digit c || elem c (String.list_ascii_of_string "-*+.").

Definition valParse : re :=
  Seq Bol (Seq (Group 1 (Plus true (Chr is_perf_value)))
               (Star true (Group 2 (alts (map lit ["us"; "ms"; "s"; "%"; "B"; "KB"; "MB"; "TB"; "c"]))))).

(** [strings.Replace(s, " ", "_", -1)] *)
Definition underscored : string → string := str_map (λ c, if Ascii.eqb c " " then "_"%char else c).

(** One metric: nothing when it is skipped; a value the expression does not match is an
    index out of range. *)
Definition parse_metric (rawMetric : string) : res (option PerfData) :=
  let metric := trim_suffix (trim_prefix (trim_space rawMetric) "'") "'" in
  if Nat.eqb (String.length metric) 0 then Ok None
  else
    match split (List.hd "" (split metric ";")) "=" with
    | [name; val] =>
        match re_search valParse val with
        | None => Panic "index out of range [1] with length 0"
        | Some valParts =>
            Ok (match ParseDecimal (submatch valParts 1) with
                | None => None
                | Some value => Some {| pd_Unit := submatch valParts 2; pd_Label := underscored name; pd_Value := value |}
                end)
        end
    | _ => Ok None
    end.

Fixpoint parse_metrics (l : list string) : res (list PerfData) :=
  match l with
  | [] => Ok []
  | m :: rest =>
      p ← parse_metric m;
      perf ← parse_metrics rest;
      Ok (option_list p ++ perf)
  end.

Definition ParsePerfData (pd : string) : res (list PerfData) :=
  match split pd "|" with
  | [_; metrics] => parse_metrics (split (trim_space metrics) " ")
  | _ => Ok []
  end.

(** ** States *)

Inductive State := OK | WARNING | CRITICAL | UNKNOWN | SKIPPED | NOTCHECKED.
#[export] Instance State_eq_dec : EqDecision State.
Proof. solve_decision. Defined.

Definition stateNames (s : State) : string :=
  match s with
  | OK => "OK" | WARNING => "WARNING" | CRITICAL => "CRITICAL" | UNKNOWN => "UNKNOWN" | SKIPPED => "SKIPPED"
  | NOTCHECKED => "NOTCHECKED"
  end.

Definition state_code (s : State) : Z :=
  match s with OK => 0 | WARNING => 1 | CRITICAL => 2 | UNKNOWN => 3 | SKIPPED => 4 | NOTCHECKED => 5 end.

Definition intStates (c : Z) : option State :=
  List.find (λ s, Z.eqb (state_code s) c) [OK; WARNING; CRITICAL; UNKNOWN; SKIPPED; NOTCHECKED].

Definition StateName (s : Z) : string := stateNames (default UNKNOWN (intStates s)).

(** ** The shared metrics *)

Record prom_state := {
  promStates : gmap string State;
  promTimes : gmap string Z;
  promChecks : gmap string Z;
  (** the metrics file: its lines *)
  promFile : option (list string);
}.

(** The text file directory; [quote] is the verb [%q]. *)
Record prom_env := {
  pe_startTime : Z;
  pe_FileIsDir : string → bool;
  pe_CreateTemp : string → res ();
  pe_Rename : res ();
  pe_quote : string → string;
}.

(** Ranging over a Go map visits it in any order; this is one of them. *)
Definition prom_lines (e : prom_env) (p : prom_state) : list string :=
  ["# HELP choria_machine_nagios_start_time Time the Choria Machine subsystem started in unix seconds";
   "# TYPE choria_machine_nagios_start_time gauge";
   "choria_machine_nagios_start_time " +:+ itoa (pe_startTime e);
   "# HELP choria_machine_nagios_watcher_status Choria Nagios Check Status";
   "# TYPE choria_machine_nagios_watcher_status gauge"] ++
  omap (λ kv, if elem kv.2 [UNKNOWN; OK; CRITICAL; WARNING]
              then Some ("choria_machine_nagios_watcher_status{name=" +:+ pe_quote e kv.1 +:+ ",status=" +:+
                         pe_quote e (stateNames kv.2) +:+ "} " +:+ itoa (state_code kv.2))
              else None) (map_to_list (promStates p)) ++
  ["# HELP choria_machine_nagios_watcher_last_run_seconds Choria Nagios Check Time";
   "# TYPE choria_machine_nagios_watcher_last_run_seconds gauge"] ++
  map (λ kv, "choria_machine_nagios_watcher_last_run_seconds{name=" +:+ pe_quote e kv.1 +:+ "} " +:+
             itoa (kv.2 / Second)) (map_to_list (promTimes p)) ++
  ["# HELP choria_machine_nagios_watcher_checks_count Choria Nagios Check Count";
   "# TYPE choria_machine_nagios_watcher_checks_count counter"] ++
  map (λ kv, "choria_machine_nagios_watcher_checks_count{name=" +:+ pe_quote e kv.1 +:+ "} " +:+ itoa kv.2)
    (map_to_list (promChecks p)).

Definition savePromState (e : prom_env) (td : string) : ST prom_state string () :=
  if String.eqb td "" then mret tt
  else if negb (pe_FileIsDir e td) then mret tt
  else
    lift (map_err (λ err, "failed to create prometheus metric in " +:+ td +:+ ": " +:+ err) (pe_CreateTemp e td));;
    lift (pe_Rename e);;
    modify (λ p, {| promStates := promStates p; promTimes := promTimes p; promChecks := promChecks p;
                    promFile := Some (prom_lines e p) |}).

Definition updatePromState (e : prom_env) (now : Z) (name : string) (state : State) (dir : string) :
    ST prom_state string () :=
  modify (λ p, {| promStates := <[name := state]> (promStates p); promTimes := <[name := now]> (promTimes p);
                  promChecks := <[name := (default 0 (promChecks p !! name) + 1)%Z]> (promChecks p);
                  promFile := promFile p |});;
  savePromState e dir.

Definition deletePromState (e : prom_env) (name : string) (dir : string) : ST prom_state string () :=
  modify (λ p, {| promStates := delete name (promStates p); promTimes := delete name (promTimes p);
                  promChecks := delete name (promChecks p); promFile := promFile p |});;
  savePromState e dir.

(** ** The watcher *)

Record Properties := {
  p_Plugin : string;
  p_Gossfile : string;
  p_Builtin : string;
  p_Timeout : Z;
  p_LastMessage : Z;
  p_CertExpiry : Z;
  p_TokenExpiry : Z;
}.

Definition validate (p : Properties) : res Properties :=
  let b := p_Builtin p in
  if negb (String.eqb b "") && negb (String.eqb (p_Plugin p) "") then Err "cannot set plugin and builtin"
  else if String.eqb b "" && String.eqb (p_Plugin p) "" then Err "plugin or builtin is required"
  else if String.eqb b "goss" && String.eqb (p_Gossfile p) "" then
    Err "gossfile property is required for the goss builtin check"
  else if String.eqb b "choria_status" && (p_LastMessage p =? 0)%Z then
    Err "last_message property is required for the choria_status builtin check"
  else Ok (if (p_Timeout p =? 0)%Z
           then {| p_Plugin := p_Plugin p; p_Gossfile := p_Gossfile p; p_Builtin := b; p_Timeout := Second;
                   p_LastMessage := p_LastMessage p; p_CertExpiry := p_CertExpiry p; p_TokenExpiry := p_TokenExpiry p |}
           else p).

Record Execution := { xn_Executed : Z; xn_Status : Z; xn_PerfData : list PerfData }.

(** What changes while the watcher runs. *)
Record check_state := {
  previousOutput : string;
  previousPerfData : list PerfData;
  previousCheck : option Z;
  previousPlugin : string;
  previous : State;
  force : bool;
  history : list Execution;
  watching : bool;
}.

Record NagiosWatcher := {
  nw_base : Watcher;
  nw_properties : Properties;
  nw_interval : Z;
  nw_machineName : string;
  nw_textFileDir : string;
  nw_state : check_state;
}.

Definition set_previous (s : State) (c : check_state) : check_state :=
  {| previousOutput := previousOutput c; previousPerfData := previousPerfData c; previousCheck := previousCheck c;
     previousPlugin := previousPlugin c; previous := s; force := force c; history := history c;
     watching := watching c |}.
Definition set_force (b : bool) (c : check_state) : check_state :=
  {| previousOutput := previousOutput c; previousPerfData := previousPerfData c; previousCheck := previousCheck c;
     previousPlugin := previousPlugin c; previous := previous c; force := b; history := history c;
     watching := watching c |}.
Definition set_watching (b : bool) (c : check_state) : check_state :=
  {| previousOutput := previousOutput c; previousPerfData := previousPerfData c; previousCheck := previousCheck c;
     previousPlugin := previousPlugin c; previous := previous c; force := force c; history := history c;
     watching := b |}.
Definition set_previousCheck (t : Z) (c : check_state) : check_state :=
  {| previousOutput := previousOutput c; previousPerfData := previousPerfData c; previousCheck := Some t;
     previousPlugin := previousPlugin c; previous := previous c; force := force c; history := history c;
     watching := watching c |}.
Definition set_plugin (s : string) (c : check_state) : check_state :=
  {| previousOutput := previousOutput c; previousPerfData := previousPerfData c; previousCheck := previousCheck c;
     previousPlugin := s; previous := previous c; force := force c; history := history c; watching := watching c |}.
Definition set_output (s : string) (perf : list PerfData) (c : check_state) : check_state :=
  {| previousOutput := s; previousPerfData := perf; previousCheck := previousCheck c;
     previousPlugin := previousPlugin c; previous := previous c; force := force c; history := history c;
     watching := watching c |}.
Definition set_history (h : list Execution) (c : check_state) : check_state :=
  {| previousOutput := previousOutput c; previousPerfData := previousPerfData c; previousCheck := previousCheck c;
     previousPlugin := previousPlugin c; previous := previous c; force := force c; history := h;
     watching := watching c |}.

Definition with_state (c : check_state) (w : NagiosWatcher) : NagiosWatcher :=
  {| nw_base := nw_base w; nw_properties := nw_properties w; nw_interval := nw_interval w;
     nw_machineName := nw_machineName w; nw_textFileDir := nw_textFileDir w; nw_state := c |}.
Definition with_base (b : Watcher) (w : NagiosWatcher) : NagiosWatcher :=
  {| nw_base := b; nw_properties := nw_properties w; nw_interval := nw_interval w;
     nw_machineName := nw_machineName w; nw_textFileDir := nw_textFileDir w; nw_state := nw_state w |}.

Definition initial_state : check_state :=
  {| previousOutput := ""; previousPerfData := []; previousCheck := None; previousPlugin := ""; previous := NOTCHECKED;
     force := false; history := []; watching := false |}.

(** The interval of [New]. *)
Definition parse_interval `{TimeLib} (interval : string) : res Z :=
  if String.eqb interval "" then Ok 0%Z
  else
    i ← map_err (λ e, "invalid interval: " +:+ e) (ParseDuration interval);
    if (i <? 500 * 1000000)%Z then Err ("interval " +:+ RenderDuration i +:+ " is too small") else Ok i.

Definition NewNagios `{TimeLib} (e : prom_env) (now : Z) (machine textFileDir name : string) (states : list string)
    (required : list ForeignMachineState) (failEvent successEvent interval : string) (ai : Z)
    (rawprop : res Properties) : ST prom_state string NagiosWatcher :=
  base ← lift (NewWatcher name "nagios" ai states required true failEvent successEvent);
  props ← lift (map_err (λ e, "could not set properties: " +:+ e) (p ← rawprop; validate p));
  i ← lift (parse_interval interval);
  _ ← attempt (updatePromState e now machine UNKNOWN textFileDir);
  mret {| nw_base := base; nw_properties := props; nw_interval := i; nw_machineName := machine;
          nw_textFileDir := textFileDir; nw_state := initial_state |}.

Definition DeleteNagios (e : prom_env) (now : Z) (w : NagiosWatcher) : ST prom_state string NagiosWatcher :=
  _ ← attempt (deletePromState e (nw_machineName w) (nw_textFileDir w));
  mret (with_state (set_previousCheck now (nw_state w)) w).

(** [None] when sending on the full channel of a forced check blocks; the states the
    switch does not name leave the zero value. *)
Definition NotifyStateChance (e : prom_env) (now : Z) (current : string) (w : NagiosWatcher) (p : prom_state) :
    option (NagiosWatcher * prom_state) :=
  if String.eqb current "FORCE_CHECK" then
    if wt_statechg (nw_base w) then None
    else Some (with_base (set_statechg true (nw_base w)) (with_state (set_force true (nw_state w)) w), p)
  else
    let s := default OK (List.find (λ s, String.eqb (stateNames s) current) [OK; WARNING; CRITICAL; UNKNOWN]) in
    Some (with_state (set_previous s (nw_state w)) w,
          (updatePromState e now (nw_machineName w) s (nw_textFileDir w) p).1).

(** Clears a forced check. *)
Definition ShouldWatch (now : Z) (v : machine_view) (w : NagiosWatcher) : NagiosWatcher * bool :=
  let c := nw_state w in
  if force c then (with_state (set_force false c) w, true)
  else
    match previousCheck c with
    | Some t =>
        if (time_Sub now t <? nw_interval w - Second)%Z then (w, false)
        else (w, Watchers.ShouldWatch (Some v) (nw_base w))
    | None => (w, Watchers.ShouldWatch (Some v) (nw_base w))
    end.

(** ** Running checks *)

Inductive command_result :=
| Exited (code : Z) (output : string)
| NotRun (err : string).

Record goss_result := { gs_TestCount : Z; gs_Failed : Z; gs_TotalSeconds : string; gs_SummaryLine : string }.

Record check_env := {
  ce_now : Z;
  ce_PATH : string;
  ce_OverrideData : res string;
  ce_gjson_Get : string → string → option string;
  (** the template engine, with what its function [o] answers *)
  ce_template : (string → string → string) → string → res string;
  ce_shlex_Split : string → res (list string);
  ce_CombinedOutput : list string → list string → string → command_result;
  ce_goss_NewConfig : string → option string → res ();
  ce_goss_Validate : string → option string → res string;
  ce_json_goss : string → res goss_result;
  ce_ChoriaStatusFile : string * Z;
  ce_files : filesystem;
  ce_mtime : string → res Z;
  ce_time_String : Z → string;
  ce_duration_String : Z → string;
}.

Section Checks.
Context `{SL : StatusLib}.
Variable e : check_env.

(** The function [o] of templates: an override, or the default it is given. *)
Definition override_value (machine path dflt : string) : string :=
  match ce_OverrideData e with
  | Ok overrides =>
      if String.eqb overrides "" then dflt
      else default dflt (ce_gjson_Get e overrides (machine +:+ "." +:+ path))
  | _ => dflt
  end.

Definition processOverrides (machine c : string) : res string := ce_template e (override_value machine) c.

(** A check ends in a state, its output and whether there was an error. *)
Abbreviation checked := (State * string * option string)%type.

Definition watchUsingPlugin (directory : string) (w : NagiosWatcher) : res (NagiosWatcher * checked) :=
  match processOverrides (nw_machineName w) (p_Plugin (nw_properties w)) with
  | Panic p => Panic p
  | Err err => Ok (w, (UNKNOWN, "", Some err))
  | Ok plugin =>
      match ce_shlex_Split e plugin with
      | Panic p => Panic p
      | Err err => Ok (w, (UNKNOWN, "", Some err))
      | Ok [] => Panic "index out of range [0] with length 0"
      | Ok splitcmd =>
          let w := with_state (set_plugin plugin (nw_state w)) w in
          let env := ["MACHINE_WATCHER_NAME=" +:+ wt_name (nw_base w); "MACHINE_NAME=" +:+ nw_machineName w;
                      "PATH=" +:+ ce_PATH e +:+ ":" +:+ directory] in
          match ce_CombinedOutput e splitcmd env directory with
          | NotRun err =>
              Ok (with_state (set_output err (previousPerfData (nw_state w)) (nw_state w)) w, (UNKNOWN, "", Some err))
          | Exited code output => Ok (w, (default UNKNOWN (intStates code), output, None))
          end
      end
  end.

Definition builtinHeartbeat : checked := (OK, itoa (ce_now e / Second), None).

Definition watchUsingGoss (gossfile : string) : res checked :=
  let vars := match ce_OverrideData e with
              | Ok od => if String.eqb od "" then None else Some od
              | _ => None
              end in
  let unknown what err := (UNKNOWN, "UNKNOWN: goss " +:+ what +:+ ": " +:+ err, Some err) in
  match ce_goss_NewConfig e gossfile vars with
  | Panic p => Panic p
  | Err err => Ok (unknown "configuration failed" err)
  | Ok _ =>
      match ce_goss_Validate e gossfile vars with
      | Panic p => Panic p
      | Err err => Ok (unknown "validate failed" err)
      | Ok out =>
          match ce_json_goss e out with
          | Panic p => Panic p
          | Err err => Ok (unknown "output invalid" err)
          | Ok r =>
              let pd := "checks=" +:+ itoa (gs_TestCount r) +:+ ";; failed=" +:+ itoa (gs_Failed r) +:+ ";; runtime=" +:+
                        gs_TotalSeconds r +:+ "s" in
              Ok (if (0 <? gs_Failed r)%Z then (CRITICAL, "CRITICAL: " +:+ gs_SummaryLine r +:+ "|" +:+ pd, None)
                  else (OK, "OK: " +:+ gs_SummaryLine r +:+ "|" +:+ pd, None))
          end
      end
  end.

(** Whole seconds until a time, the largest integer for the zero time. *)
Definition expires_in (t : option Z) : Z :=
  match t with
  | None => int64_max
  | Some t => f64_trunc (Seconds (time_Until (ce_now e) t))
  end.

Definition status_perf (i : InstanceStatus) (s : ServerStats) : string :=
  "uptime=" +:+ itoa (is_Uptime i) +:+ ";; filtered_msgs=" +:+ itoa (st_Filtered s) +:+
  ";; invalid_msgs=" +:+ itoa (st_Invalid s) +:+ ";; passed_msgs=" +:+ itoa (st_Passed s) +:+
  ";; replies_msgs=" +:+ itoa (st_Replies s) +:+ ";; total_msgs=" +:+ itoa (st_Total s) +:+
  ";; ttlexpired_msgs=" +:+ itoa (st_TTLExpired s) +:+ ";; last_msg=" +:+ itoa (is_LastMessage i) +:+
  ";; cert_expire_seconds=" +:+ itoa (expires_in (is_CertificateExpires i)) +:+
  ";; token_expire_seconds=" +:+ itoa (expires_in (is_TokenExpires i)) +:+
  ";; events=" +:+ itoa (st_Events s) +:+ ";;".

(** The first check of the status that fails. *)
Definition status_checks (p : Properties) (freq : Z) (i : InstanceStatus) : res () :=
  CheckFileAge (ce_now e) (ce_duration_String e) i (wrap64 (wrap64 (3 * freq) * Second));;
  (if (0 <? p_CertExpiry p)%Z
   then CheckCertValidity (ce_now e) (ce_time_String e) (ce_duration_String e) i (p_CertExpiry p) else Ok tt);;
  (if (0 <? p_TokenExpiry p)%Z
   then CheckTokenValidity (ce_now e) (ce_time_String e) (ce_duration_String e) i (p_TokenExpiry p) else Ok tt);;
  CheckLastMessage (ce_now e) (ce_time_String e) i (p_LastMessage p);;
  map_err (λ _, "Not connected to any server") (CheckConnection i).

Definition watchUsingChoria (p : Properties) : res checked :=
  let '(f, freq) := ce_ChoriaStatusFile e in
  if String.eqb f "" || (freq =? 0)%Z then Ok (UNKNOWN, "Status file not configured", None)
  else
    match LoadInstanceStatus (ce_files e) (ce_mtime e) f with
    | Panic p => Panic p
    | Err err => Ok (CRITICAL, "Status file error: " +:+ err, None)
    | Ok status =>
        match is_Stats status with
        | None => Panic "invalid memory address or nil pointer dereference"
        | Some stats =>
            let perfData := status_perf status stats in
            match status_checks p freq status with
            | Panic p => Panic p
            | Err err => Ok (CRITICAL, "CRITICAL: " +:+ err +:+ "|" +:+ perfData, None)
            | Ok _ => Ok (OK, "OK: " +:+ f +:+ "|" +:+ perfData, None)
            end
        end
    end.

Definition watchUsingBuiltin (w : NagiosWatcher) : res (NagiosWatcher * checked) :=
  let p := nw_properties w in
  let b := p_Builtin p in
  let w := with_state (set_plugin b (nw_state w)) w in
  r ← (if String.eqb b "heartbeat" then Ok builtinHeartbeat
       else if has_prefix b "goss" then watchUsingGoss (p_Gossfile p)
       else if String.eqb b "choria_status" then watchUsingChoria p
       else Ok (UNKNOWN, "", Some ("unsupported builtin " +:+ b)));
  Ok (w, r).

Definition run_check (directory : string) (w : NagiosWatcher) : res (NagiosWatcher * checked) :=
  if negb (String.eqb (p_Plugin (nw_properties w)) "") then watchUsingPlugin directory w
  else if negb (String.eqb (p_Builtin (nw_properties w)) "") then watchUsingBuiltin w
  else Ok (w, (UNKNOWN, "", Some "command or builtin required")).

(** The output replaces what a failed command left. *)
Definition watch (v : machine_view) (directory : string) (w : NagiosWatcher) : res (NagiosWatcher * State) :=
  let '(w, should) := ShouldWatch (ce_now e) v w in
  if negb should then Ok (w, SKIPPED)
  else
    let w := with_state (set_previousCheck (ce_now e) (set_watching true (nw_state w))) w in
    '(w, (state, output, _)) ← run_check directory w;
    perf ← ParsePerfData output;
    Ok (with_state (set_watching false (set_output (trim_space output) perf (nw_state w))) w, state).

(** At most 15 executions are kept. *)
Definition record_execution (start : Z) (s : State) (c : check_state) : check_state :=
  let h := if (15 <=? length (history c))%nat then tail (history c) else history c in
  set_history (h ++ [{| xn_Executed := start; xn_Status := state_code s; xn_PerfData := previousPerfData c |}])
    (set_previous s c).

Context {M V : Type} `{WH : WatcherHost M V}.
Variable pe : prom_env.

Definition on_prom {A} (f : ST prom_state string A) : ST (M * prom_state) string A := λ w,
  let '(p, o) := f w.2 in ((w.1, p), o).
Definition on_host {A} (f : ST M string A) : ST (M * prom_state) string A := λ w,
  let '(m, o) := f w.1 in ((m, w.2), o).

(** The check that was made is recorded, announced and fires the event named for its
    state; errors of the metrics and of the event are only logged. *)
Definition handleCheck (start : Z) (s : State) (external : bool) (w : NagiosWatcher) :
    ST (M * prom_state) string NagiosWatcher :=
  if elem s [SKIPPED; NOTCHECKED] then mret w
  else
    let w := with_state (record_execution start s (nw_state w)) w in
    (if external then mret tt
     else on_host (modify (host_NotifyWatcherState (wt_name (nw_base w)) (stateNames s))));;
    _ ← attempt (on_prom (updatePromState pe (ce_now e) (nw_machineName w) s (nw_textFileDir w)));
    (if external then mret tt else _ ← attempt (on_host (fire_named (stateNames s))); mret tt);;
    mret w.

Definition performWatch (w : NagiosWatcher) : ST (M * prom_state) string NagiosWatcher :=
  if watching (nw_state w) then mret w
  else
    v ← gets (λ w, host_view w.1);
    directory ← gets (λ w, host_Directory w.1);
    '(w, s) ← lift (watch v directory w);
    handleCheck (ce_now e) s false w.

End Checks.

(** * The nagios watcher: properties

    What a check records, announces and fires; the exit codes of plugins. *)

(** The last [n] of a list. *)
Definition lastn {A} (n : nat) (l : list A) : list A := drop (length l - n) l.

Lemma lastn_length {A} n (l : list A) : length (lastn n l) ≤ n.
Proof. unfold lastn. rewrite length_drop. lia. Qed.

Lemma record_history start s c : length (history c) ≤ 15 →
  history (record_execution start s c) =
    lastn 15 (history c ++ [{| xn_Executed := start; xn_Status := state_code s; xn_PerfData := previousPerfData c |}]).
Proof.
  intros Hl. unfold record_execution, lastn. cbn [history set_history]. rewrite length_app. cbn [length].
  destruct (15 <=? length (history c))%nat eqn:E.
  - apply Nat.leb_le in E. replace (length (history c) + 1 - 15) with 1 by lia.
    destruct (history c); [cbn in *; lia|done].
  - apply Nat.leb_gt in E. by replace (length (history c) + 1 - 15) with 0 by lia.
Qed.

(** What running a check leaves alone. *)
Definition same_watch (w w' : NagiosWatcher) : Prop :=
  history (nw_state w') = history (nw_state w) ∧ previous (nw_state w') = previous (nw_state w) ∧
  nw_machineName w' = nw_machineName w ∧ nw_textFileDir w' = nw_textFileDir w ∧ nw_base w' = nw_base w.

Section Checks.
Context `{SL : StatusLib} {M V : Type} `{WH : WatcherHost M V}.
Variable e : check_env.
Variable pe : prom_env.

Lemma plugin_keeps dir w w' r : watchUsingPlugin e dir w = Ok (w', r) → same_watch w w'.
Proof. unfold watchUsingPlugin, same_watch. repeat case_match; intros [= <- <-]; done. Qed.

Lemma run_check_keeps dir w w' r : run_check e dir w = Ok (w', r) → same_watch w w'.
Proof.
  unfold run_check. destruct (negb (String.eqb (p_Plugin _) "")); [apply plugin_keeps|].
  destruct (negb _); [|by intros [= <- <-]]. unfold watchUsingBuiltin, mbind, outcome_bind.
  match goal with |- context [if ?b then Ok ?x else ?y] => destruct (if b then Ok x else y) end; [|done..].
  by intros [= <- <-].
Qed.

Lemma watch_keeps v dir w w' s : watch e v dir w = Ok (w', s) → watching (nw_state w) = false →
  same_watch w w' ∧ watching (nw_state w') = false.
Proof.
  unfold watch. intros Hw Hn.
  assert (same_watch w (ShouldWatch (ce_now e) v w).1 ∧
          watching (nw_state (ShouldWatch (ce_now e) v w).1) = false) as [Hs Hw1].
  { unfold ShouldWatch, same_watch. by repeat case_match. }
  destruct (ShouldWatch (ce_now e) v w) as [w1 should]. cbn in Hs, Hw1.
  destruct should; cbn [negb] in Hw.
  - unfold mbind, outcome_bind in Hw. destruct (run_check e dir _) as [[w2 [[st output] err]]|?|?] eqn:Hr; [|done..].
    destruct (ParsePerfData output) as [perf|?|?]; [|done..]. injection Hw as <- <-.
    apply run_check_keeps in Hr. unfold same_watch in *. cbn in *. intuition congruence.
  - by injection Hw as <- <-.
Qed.

Lemma save_keeps td p : promStates (savePromState pe td p).1 = promStates p ∧
  promChecks (savePromState pe td p).1 = promChecks p.
Proof.
  unfold savePromState. destruct (String.eqb td ""); [done|]. destruct (negb _); [done|].
  unfold mbind, ST_bind, lift. destruct (map_err _ _); [|done..]. by destruct (pe_Rename pe).
Qed.

Lemma update_spec now name s dir p : promStates (updatePromState pe now name s dir p).1 = <[name := s]> (promStates p) ∧
  promChecks (updatePromState pe now name s dir p).1 = <[name := (default 0 (promChecks p !! name) + 1)%Z]> (promChecks p).
Proof. apply (save_keeps dir). Qed.

(** A check of a nagios watcher either is skipped, and then changes neither the
    machine, the shared metrics nor the records, or ends in one of the four states of
    plugins. Then that one state is the watcher's, is the last of the history, which is the
    last 15 of what was recorded, is what the metrics report for the machine, whose count
    of checks grows by one, and names the event the machine is sent after the
    notification. *)
Theorem check_recorded (w w' : NagiosWatcher) (m m' : M) (p p' : prom_state) :
  watching (nw_state w) = false → length (history (nw_state w)) ≤ 15 →
  performWatch e pe w (m, p) = ((m', p'), Ok w') →
  watching (nw_state w') = false ∧ length (history (nw_state w')) ≤ 15 ∧
  ((m', p') = (m, p) ∧ history (nw_state w') = history (nw_state w) ∧ previous (nw_state w') = previous (nw_state w) ∨
   ∃ s perf, s ∈ [OK; WARNING; CRITICAL; UNKNOWN] ∧ previous (nw_state w') = s ∧
     history (nw_state w') = lastn 15 (history (nw_state w) ++
       [{| xn_Executed := ce_now e; xn_Status := state_code s; xn_PerfData := perf |}]) ∧
     promStates p' = <[nw_machineName w := s]> (promStates p) ∧
     promChecks p' = <[nw_machineName w := (default 0 (promChecks p !! nw_machineName w) + 1)%Z]> (promChecks p) ∧
     m' = (host_Transition (stateNames s) (host_NotifyWatcherState (wt_name (nw_base w)) (stateNames s) m)).1).
Proof.
  intros Hw Hl Hp. unfold performWatch in Hp. rewrite Hw in Hp. unfold gets, lift in Hp.
  unfold mbind, ST_bind in Hp. cbn [fst snd] in Hp.
  destruct (watch e (host_view m) (host_Directory m) w) as [[w1 s]|?|?] eqn:Hwatch; [|done..].
  apply watch_keeps in Hwatch as [(Hh & Hpr & Hm & Ht & Hb) Hw1]; [|done].
  unfold handleCheck in Hp. destruct (elem s [SKIPPED; NOTCHECKED]) eqn:Hs.
  { injection Hp as <- <- <-. rewrite Hh. split_and!; [done..|]. by left. }
  assert (length (history (nw_state w1)) ≤ 15) as Hl1 by by rewrite Hh.
  pose proof (record_history (ce_now e) s _ Hl1) as Hr. set (c := record_execution _ s (nw_state w1)) in *.
  unfold on_host, on_prom, attempt, modify, fire_named in Hp. unfold mbind, ST_bind in Hp. cbn [fst snd] in Hp.
  change (nw_machineName (with_state c w1)) with (nw_machineName w1) in Hp.
  change (nw_textFileDir (with_state c w1)) with (nw_textFileDir w1) in Hp.
  change (nw_base (with_state c w1)) with (nw_base w1) in Hp.
  pose proof (update_spec (ce_now e) (nw_machineName w1) s (nw_textFileDir w1) p) as [Hu Hc].
  destruct (updatePromState _ _ _ s _ p) as [p1 o1]. cbn [fst] in Hu, Hc.
  assert (String.eqb (stateNames s) "" = false) as He by by destruct s. rewrite He in Hp.
  assert (((m', p'), w') = ((host_Transition (stateNames s)
    (host_NotifyWatcherState (wt_name (nw_base w1)) (stateNames s) m)).1, p1, with_state c w1)) as Heq.
  { destruct o1; [| |done]; destruct (host_Transition _ _) as [m2 [?|?|?]]; unfold mret, ST_ret in Hp; cbn in Hp |- *; congruence. }
  injection Heq as -> -> ->. rewrite Hh in Hr. split_and!; [done| |].
  - cbn [nw_state with_state]. rewrite Hr. apply lastn_length.
  - right. exists s, (previousPerfData (nw_state w1)). cbn [nw_state with_state].
    rewrite <- Hm, <- Hb, Hr. split_and!; try done.
    destruct s; try done; set_solver.
Qed.

End Checks.

(** ** Checks on a small host *)

#[export] Instance demo_status : StatusLib := {| json_InstanceStatus := λ _, Err "unexpected end of JSON input" |}.

Definition demo_check_env (code : Z) (output : string) : check_env :=
  {| ce_now := 3600 * Second; ce_PATH := "/bin"; ce_OverrideData := Err "no overrides"; ce_gjson_Get := λ _ _, None;
     ce_template := λ _ s, Ok s; ce_shlex_Split := λ s, Ok (if String.eqb s " " then [] else split s " ");
     ce_CombinedOutput := λ _ _ _, Exited code output; ce_goss_NewConfig := λ _ _, Ok tt;
     ce_goss_Validate := λ _ _, Ok ""; ce_json_goss := λ _, Err "unexpected end of JSON input";
     ce_ChoriaStatusFile := ("", 0%Z); ce_files := ∅; ce_mtime := λ _, Err "no such file"; ce_time_String := itoa;
     ce_duration_String := itoa |}.

Definition demo_prom_env : prom_env :=
  {| pe_startTime := 0; pe_FileIsDir := λ _, true; pe_CreateTemp := λ _, Ok tt; pe_Rename := Ok tt;
     pe_quote := λ s, s |}.
Definition demo_prom : prom_state := {| promStates := ∅; promTimes := ∅; promChecks := ∅; promFile := None |}.

Definition demo_nagios (plugin : string) : NagiosWatcher :=
  {| nw_base := demo_base "nagios";
     nw_properties := {| p_Plugin := plugin; p_Gossfile := ""; p_Builtin := ""; p_Timeout := Second; p_LastMessage := 0;
                         p_CertExpiry := 0; p_TokenExpiry := 0 |};
     nw_interval := Minute; nw_machineName := "demo"; nw_textFileDir := "/var/lib/metrics"; nw_state := initial_state |}.

Definition demo_performed (code : Z) (output plugin : string) :=
  performWatch (demo_check_env code output) demo_prom_env (demo_nagios plugin) (demo_watched "OK", demo_prom).

Definition demo_warned := demo_performed 1 "WARN|load=1.5s;;" "check_load -w 1".
Definition demo_after : NagiosWatcher := match demo_warned.2 with Ok w => w | _ => demo_nagios "" end.

Lemma check_recorded_witness : previous (nw_state demo_after) = WARNING ∧
  watching (nw_state demo_after) = false ∧ length (history (nw_state demo_after)) ≤ 15.
Proof.
  assert (is_ok demo_warned.2 = true) as Hok by (vm_compute; reflexivity).
  assert (demo_warned = ((demo_warned.1.1, demo_warned.1.2), Ok demo_after)) as E.
  { unfold demo_after. destruct demo_warned as [[m p] [w|?|?]]; done. }
  split; [vm_compute; reflexivity|].
  destruct (check_recorded (demo_check_env 1 "WARN|load=1.5s;;") demo_prom_env (demo_nagios "check_load -w 1") demo_after
    (demo_watched "OK") demo_warned.1.1 demo_prom demo_warned.1.2 eq_refl ltac:(cbn; lia) E) as (H1 & H2 & _). by split.
Defined.

(** The exit codes four and five are states of the watcher itself: the check leaves no
    trace but its output. *)
Example internal_codes_are_dropped :
  (w ← (demo_performed 4 "UNREACHABLE" "check_load").2; Ok (history (nw_state w))) = Ok [].
Proof. vm_compute. reflexivity. Qed.

(** A metric without a value stops the process, and so does an empty command. *)
Example valueless_metric_panics : is_panic (demo_performed 0 "OK|load=U" "check_load").2 = true.
Proof. vm_compute. reflexivity. Qed.
Example empty_command_panics : is_panic (demo_performed 0 "" " ").2 = true.
Proof. vm_compute. reflexivity. Qed.

Example perf_data_parses :
  (l ← ParsePerfData "OK: fine|'disk=80%;90;95' time=12ms;; bad x=1=2 free=3GB"; Ok (map (λ p, (pd_Label p, pd_Unit p)) l)) =
  Ok [("disk", "%"); ("time", "ms"); ("free", "")].
Proof. vm_compute. reflexivity. Qed.
