(* ===== verification/KVWatcher.v ===== *)
(** * The key-value watcher

    aagent/watchers/kvwatcher/kv.go: keeps a value of a machine's data equal to a key of
    a key-value bucket, by polling and by listening to republished updates, and fires
    events on changes.  The bucket, templates, JSON, hiera and queries are arguments. *)
From S2P Require Import Prelude GoLib GoNum Files Util Machine Watchers.

Inductive State := Error | Changed | Unchanged | Skipped.

Definition stateNames (s : State) : string :=
  match s with Error => "error" | Changed => "changed" | Unchanged => "unchanged" | Skipped => "skipped" end.

Record Properties := {
  p_Bucket : string;
  p_Key : string;
  p_Mode : string;
  p_TransitionOnSuccessfulGet : bool;
  p_TransitionOnMatch : bool;
  p_BucketPrefix : bool;
  p_RepublishTrigger : string;
  p_HieraConfig : bool;
  p_StoreKey : string;
  p_Query : string;
}.

Definition set_mode (m : string) (p : Properties) : Properties :=
  {| p_Bucket := p_Bucket p; p_Key := p_Key p; p_Mode := m;
     p_TransitionOnSuccessfulGet := p_TransitionOnSuccessfulGet p; p_TransitionOnMatch := p_TransitionOnMatch p;
     p_BucketPrefix := p_BucketPrefix p; p_RepublishTrigger := p_RepublishTrigger p; p_HieraConfig := p_HieraConfig p;
     p_StoreKey := p_StoreKey p; p_Query := p_Query p |}.

Definition validate (p : Properties) : res Properties :=
  if String.eqb (p_Bucket p) "" then Err "bucket is required"
  else
    let p := if String.eqb (p_Mode p) "" then set_mode "poll" p else p in
    if negb (String.eqb (p_Mode p) "poll") && negb (String.eqb (p_Mode p) "watch") then
      Err "mode should be 'poll' or 'watch'"
    else if String.eqb (p_Mode p) "poll" && String.eqb (p_Key p) "" then Err "poll mode requires a key"
    else if String.eqb (p_Mode p) "watch" then Err "watch mode not supported"
    else Ok p.

(** Values of type [V], [nil] is the absence of one. *)
Record KVWatcher (V : Type) := {
  kv_base : Watcher;
  kv_properties : Properties;
  kv_interval : Z;
  kv_previousVal : option V;
  kv_previousSeq : Z;
  kv_previousState : State;
  kv_polling : bool;
  kv_lastPoll : option Z;
  (** bound to its bucket *)
  kv_bound : bool;
}.
Arguments kv_base {V}. Arguments kv_properties {V}. Arguments kv_interval {V}. Arguments kv_previousVal {V}.
Arguments kv_previousSeq {V}. Arguments kv_previousState {V}. Arguments kv_polling {V}. Arguments kv_lastPoll {V}.
Arguments kv_bound {V}.

Definition NewKV {V} `{TimeLib} (name : string) (states : list string) (required : list ForeignMachineState)
    (failEvent successEvent interval : string) (ai : Z) (has_machine : bool) (rawprop : res Properties) :
    res (KVWatcher V) :=
  i ← ParseDuration interval;
  base ← NewWatcher name "kv" ai states required has_machine failEvent successEvent;
  props ← map_err (λ e, "could not set properties: " +:+ e) (p ← rawprop; validate p);
  Ok {| kv_base := base; kv_properties := props; kv_interval := i; kv_previousVal := None; kv_previousSeq := 0;
        kv_previousState := Error; kv_polling := false; kv_lastPoll := None; kv_bound := false |}.

(** ** Values *)

Class KVLib (V : Type) := {
  (** [cmp.Equal] on values *)
  cmp_Equal : V → V → bool;
  value_string : string → V;
  (** what [json.Unmarshal] leaves in an empty map and in an empty list *)
  json_map : string → V;
  json_list : string → V;
  json_facts : string → res V;
  hiera_Resolve : V → V → res V;
  json_Marshal : V → res string;
  (** the value of a query in a document, [None] for [nil] *)
  gjson_Value : string → string → option V;
}.

(** What go-cmp documents of values of equal type. *)
Class KVLaws (V : Type) `{KVLib V} := { cmp_Equal_spec : ∀ a b, cmp_Equal a b = true ↔ a = b }.

(** What the bucket answers. *)
Inductive kv_entry :=
| Found (value : string) (revision : Z)
| KeyNotFound
| GetFailed (err : string).

Record kv_env := {
  ke_now : Z;
  ke_ProcessTemplate : string → res string;
  ke_connect : res ();
  ke_Get : string → kv_entry;
  ke_Facts : string;
}.

(** A message of a subscription, with its header. *)
Record repub_msg := { rm_Subject : string; rm_Header : string → string; rm_Data : string }.

(** [d.Round(time.Second)]: halves away from zero, the largest duration stays. *)
Definition round_second (d : Z) : Z :=
  let r := Z.rem d Second in
  if (d <? 0)%Z then
    let r := (- r)%Z in
    if (r + r <? Second)%Z then (d + r)%Z else Z.max int64_min (d - Second + r)%Z
  else if (r + r <? Second)%Z then (d - r)%Z else Z.min int64_max (d + Second - r)%Z.

Section KV.
Context {M V : Type} `{WH : WatcherHost M V} `{KL : KVLib V}.
Variable e : kv_env.

Definition resolve_hiera (v : V) : res V :=
  facts ← json_facts (ke_Facts e); hiera_Resolve v facts.

(** A document that holds nothing under the query is stored as the text it is. *)
Definition parseValue (p : Properties) (val : string) : res V :=
  let v := trim_space val in
  if has_prefix v "{" && has_suffix v "}" then
    let m := json_map v in
    m ← (if p_HieraConfig p then resolve_hiera m else Ok m);
    if String.eqb (p_Query p) "" then Ok m
    else
      j ← map_err (λ e, "could not marshal data for query: " +:+ e) (json_Marshal m);
      Ok (default (value_string val) (gjson_Value j (p_Query p)))
  else if has_prefix v "[" && has_suffix v "]" then Ok (json_list v)
  else Ok (value_string val).

Definition dataKey (p : Properties) : string :=
  let key := if String.eqb (p_StoreKey p) "" then p_Key p else p_StoreKey p in
  match ke_ProcessTemplate e key with
  | Ok parsedKey => if p_BucketPrefix p then p_Bucket p +:+ "_" +:+ parsedKey else parsedKey
  | _ => p_Key p
  end.

(** The watcher and the machine; every error is returned with the state [Error]. *)
Abbreviation World := (KVWatcher V * M)%type.
Abbreviation PollM := (ST World string).

Definition set_polling (b : bool) (w : KVWatcher V) : KVWatcher V :=
  {| kv_base := kv_base w; kv_properties := kv_properties w; kv_interval := kv_interval w;
     kv_previousVal := kv_previousVal w; kv_previousSeq := kv_previousSeq w; kv_previousState := kv_previousState w;
     kv_polling := b; kv_lastPoll := kv_lastPoll w; kv_bound := kv_bound w |}.
Definition set_bound (w : KVWatcher V) : KVWatcher V :=
  {| kv_base := kv_base w; kv_properties := kv_properties w; kv_interval := kv_interval w;
     kv_previousVal := kv_previousVal w; kv_previousSeq := kv_previousSeq w; kv_previousState := kv_previousState w;
     kv_polling := kv_polling w; kv_lastPoll := kv_lastPoll w; kv_bound := true |}.
Definition set_lastPoll (t : Z) (w : KVWatcher V) : KVWatcher V :=
  {| kv_base := kv_base w; kv_properties := kv_properties w; kv_interval := kv_interval w;
     kv_previousVal := kv_previousVal w; kv_previousSeq := kv_previousSeq w; kv_previousState := kv_previousState w;
     kv_polling := kv_polling w; kv_lastPoll := Some t; kv_bound := kv_bound w |}.
Definition set_previous (v : option V) (seq : Z) (w : KVWatcher V) : KVWatcher V :=
  {| kv_base := kv_base w; kv_properties := kv_properties w; kv_interval := kv_interval w;
     kv_previousVal := v; kv_previousSeq := seq; kv_previousState := kv_previousState w;
     kv_polling := kv_polling w; kv_lastPoll := kv_lastPoll w; kv_bound := kv_bound w |}.
Definition set_previousState (s : State) (w : KVWatcher V) : KVWatcher V :=
  {| kv_base := kv_base w; kv_properties := kv_properties w; kv_interval := kv_interval w;
     kv_previousVal := kv_previousVal w; kv_previousSeq := kv_previousSeq w; kv_previousState := s;
     kv_polling := kv_polling w; kv_lastPoll := kv_lastPoll w; kv_bound := kv_bound w |}.

Definition on_watcher (f : KVWatcher V → KVWatcher V) : PollM () := modify (λ w, (f w.1, w.2)).
Definition on_machine {A} (f : ST M string A) : PollM A := λ w,
  let '(m, o) := f w.2 in ((w.1, m), o).

(** [if w.previousVal == nil { w.previousVal, _ = w.machine.DataGet(dk) }] *)
Definition load_previous (dk : string) : PollM () := λ w,
  match kv_previousVal w.1 with
  | Some _ => (w, Ok tt)
  | None => ((set_previous (host_DataGet dk w.2) (kv_previousSeq w.1) w.1, w.2), Ok tt)
  end.

(** The cases of an update that [poll] and the republish handler share. *)
Definition key_deleted (dk : string) (seq : Z) : PollM State :=
  on_machine (host_DataDelete dk);;
  on_watcher (set_previous None seq);;
  mret Changed.

Definition same_value (prev : option V) (v : V) : bool :=
  match prev with Some u => cmp_Equal u v | None => false end.

Definition key_updated (dk : string) (v : V) (seq : Z) : PollM State :=
  w ← gets fst;
  if negb (same_value (kv_previousVal w) v) then
    on_machine (host_DataPut dk v);;
    on_watcher (set_previous (Some v) seq);;
    mret Changed
  else
    on_watcher (set_previous (kv_previousVal w) seq);;
    if p_TransitionOnMatch (kv_properties w) && (0 <? kv_previousSeq w)%Z && (kv_previousSeq w <? seq)%Z
    then mret Changed
    else mret (if p_TransitionOnSuccessfulGet (kv_properties w) then Changed else Unchanged).

(** [f] while holding the right to poll. *)
Definition exclusively (f : PollM State) : PollM State :=
  w ← gets id;
  if negb (ShouldWatch (Some (host_view w.2)) (kv_base w.1)) then mret Skipped
  else if kv_polling w.1 then mret Skipped
  else
    on_watcher (set_polling true);;
    deferred (λ w, (set_polling false w.1, w.2)) f.

Definition key_error (e : string) : string := "could not parse template for key: " +:+ e.

Definition poll_body : PollM State :=
  w ← gets fst;
  (if kv_bound w then mret tt else lift (ke_connect e);; on_watcher set_bound);;
  let since := match kv_lastPoll w with
               | None => int64_max
               | Some lp => round_second (ke_now e - lp)
               end in
  if (since <? kv_interval w)%Z then mret Skipped
  else
    on_watcher (set_lastPoll (ke_now e));;
    let p := kv_properties w in
    parsedKey ← lift (map_err key_error (ke_ProcessTemplate e (p_Key p)));
    let dk := dataKey p in
    load_previous dk;;
    match ke_Get e parsedKey with
    | Found val revision =>
        v ← lift (parseValue p val);
        key_updated dk v revision
    | KeyNotFound =>
        prev ← gets (λ w, kv_previousVal w.1);
        match prev with
        | None => mret Unchanged
        | Some _ => key_deleted dk 0
        end
    | GetFailed err => throw err
    end.

Definition poll : PollM State := exclusively poll_body.

Definition repub_body (msg : repub_msg) : PollM State :=
  w ← gets fst;
  let p := kv_properties w in
  parsedKey ← lift (map_err key_error (ke_ProcessTemplate e (p_Key p)));
  if negb (has_suffix (rm_Subject msg) parsedKey) then
    throw ("received republish message on " +:+ rm_Subject msg +:+ " that does not match expected key " +:+ parsedKey)
  else
    let dk := dataKey p in
    load_previous dk;;
    let op := rm_Header msg "KV-Operation" in
    seq ← lift (map_err (λ _, "strconv.ParseUint: parsing the sequence") (ParseUint (rm_Header msg "Nats-Sequence") 10 64));
    v ← lift (parseValue p (rm_Data msg));
    prev ← gets (λ w, kv_previousVal w.1);
    if elem op ["DEL"; "PURGE"] then
      match prev with
      | None => mret Unchanged
      | Some _ => key_deleted dk seq
      end
    else key_updated dk v seq.

Definition repubHandler (msg : repub_msg) : PollM State := exclusively (repub_body msg).

(** ** Transitions *)

Definition handleState (s : State) : PollM () :=
  on_watcher (set_previousState s);;
  w ← gets fst;
  match s with
  | Error => on_machine (fire_event (FailureTransition (kv_base w)))
  | Changed => on_machine (fire_event (SuccessTransition (kv_base w)))
  | _ => mret tt
  end.

(** [w.handleState(w.poll())]; an error of the event is dropped. *)
Definition handled (f : PollM State) : PollM () :=
  r ← attempt f;
  _ ← attempt (handleState (match r with inl s => s | inr _ => Error end));
  mret tt.

(** The subscription of the republish trigger. *)
Definition on_republish (msg : repub_msg) : PollM () :=
  if IsNATSRepublishHeaders (Some (rm_Header msg)) then handled (repubHandler msg) else mret tt.

(** The start of [pollKey], before its ticker. *)
Definition pollKey_start : PollM () :=
  w ← gets id;
  on_watcher (set_previous (host_DataGet (dataKey (kv_properties w.1)) w.2) (kv_previousSeq w.1));;
  handled poll.

End KV.

(** * The key-value watcher: properties

    The machine's data follows the bucket, as long as storing it works. *)

Section KV.
Context {M V : Type} `{DL : DataLaws M V} `{KW : KVLaws V}.
Variable e : kv_env.

(** What the watcher remembers is what the machine holds. *)
Definition synced (dk : string) (w : KVWatcher V) (m : M) : Prop :=
  kv_previousVal w = None ∨ kv_previousVal w = host_DataGet dk m.

(** What a bucket asks of the data. *)
Definition wanted (p : Properties) (entry : kv_entry) (v : option V) : Prop :=
  match entry with
  | Found val _ => ∃ u, parseValue e p val = Ok u ∧ v = Some u
  | KeyNotFound => v = None
  | GetFailed _ => False
  end.

(** An operation of a watcher with properties [p] that brings its data in line: what it
    leaves, and what its state tells. *)
Definition brings (p : Properties) (goal : option V → Prop) (f : ST (KVWatcher V * M) string State) : Prop :=
  let dk := dataKey e p in
  ∀ w m w' m' s, f (w, m) = ((w', m'), Ok s) → kv_properties w = p → synced dk w m → s ≠ Skipped →
    goal (host_DataGet dk m') ∧ synced dk w' m' ∧
    (s = Unchanged → host_DataGet dk m' = host_DataGet dk m) ∧
    ∀ k, k ≠ dk → host_DataGet k m' = host_DataGet k m.

Lemma load_previous_spec dk w m : synced dk w m →
  ∃ w1, load_previous dk (w, m) = ((w1, m), Ok tt) ∧ kv_previousVal w1 = host_DataGet dk m ∧ kv_properties w1 = kv_properties w.
Proof.
  intros Hs. unfold load_previous. cbn. destruct (kv_previousVal w) as [v|] eqn:E.
  - exists w. split_and!; [done| |done]. destruct Hs; congruence.
  - eexists. split_and!; [done..|]. done.
Qed.

Lemma key_updated_brings dk v seq w m w' m' s :
  key_updated dk v seq (w, m) = ((w', m'), Ok s) → kv_previousVal w = host_DataGet dk m →
  host_DataGet dk m' = Some v ∧ synced dk w' m' ∧ (s = Unchanged → host_DataGet dk m' = host_DataGet dk m) ∧
  ∀ k, k ≠ dk → host_DataGet k m' = host_DataGet k m.
Proof.
  unfold key_updated, on_machine, on_watcher, gets, modify. unfold mbind, ST_bind. cbn [fst snd].
  intros Hk Hp. destruct (same_value (kv_previousVal w) v) eqn:Hv; cbn [negb] in Hk.
  - assert (kv_previousVal w = Some v) as Hs.
    { unfold same_value in Hv. destruct (kv_previousVal w) as [u|]; [|done]. apply cmp_Equal_spec in Hv. congruence. }
    assert (w' = set_previous (kv_previousVal w) seq w ∧ m' = m) as [-> ->].
    { revert Hk. destruct (_ && _ && _); by intros [= <- <- _]. }
    rewrite <- Hp, Hs. split_and!; [done| |done..]. right. cbn. congruence.
  - cbn [fst snd] in Hk. destruct (host_DataPut dk v m) as [m1 [[]|?|?]] eqn:Hput; [|done..]. injection Hk as <- <- <-.
    rewrite (put_get _ _ _ _ dk Hput), decide_True by done. split_and!; [done| |done|].
    + right. cbn. by rewrite (put_get _ _ _ _ dk Hput), decide_True by done.
    + intros k Hne. by rewrite (put_get _ _ _ _ k Hput), decide_False by done.
Qed.

Lemma key_deleted_brings dk seq w m w' m' s :
  key_deleted dk seq (w, m) = ((w', m'), Ok s) →
  host_DataGet dk m' = None ∧ synced dk w' m' ∧ (s = Unchanged → host_DataGet dk m' = host_DataGet dk m) ∧
  ∀ k, k ≠ dk → host_DataGet k m' = host_DataGet k m.
Proof.
  unfold key_deleted, on_machine, on_watcher, modify. unfold mbind, ST_bind. cbn [fst snd]. intros Hk.
  cbn [fst snd] in Hk. destruct (host_DataDelete dk m) as [m1 [[]|?|?]] eqn:Hd; [|done..]. injection Hk as <- <- <-.
  split_and!; [by rewrite (delete_get _ _ _ dk Hd), decide_True|by left|done|].
  intros k Hne. by rewrite (delete_get _ _ _ k Hd), decide_False by done.
Qed.

(** Holding the right to poll changes nothing of this. *)
Lemma exclusively_brings p goal f : brings p goal f → brings p goal (exclusively f).
Proof.
  intros Hf w m w' m' s. unfold exclusively, gets, on_watcher, modify, deferred, mret, ST_ret, id. unfold mbind, ST_bind. cbn [fst snd].
  destruct (negb _); [by intros [= _ _ <-]|]. destruct (kv_polling w); [by intros [= _ _ <-]|].
  cbn [fst snd]. destruct (f (set_polling true w, m)) as [[w1 m1] o] eqn:E. intros [= <- <- ->] Hp Hs Hk.
  exact (Hf _ _ _ _ _ E Hp Hs Hk).
Qed.

(** The goal of a poll, whatever the key it asks for is. *)
Definition polled (p : Properties) (v : option V) : Prop :=
  ∃ key, ke_ProcessTemplate e (p_Key p) = Ok key ∧ wanted p (ke_Get e key) v.

Lemma poll_loaded_brings p key w m w' m' s :
  (load_previous (dataKey e p);;
   match ke_Get e key with
   | Found val revision => v ← lift (parseValue e p val); key_updated (dataKey e p) v revision
   | KeyNotFound =>
       prev ← gets (λ w, kv_previousVal w.1);
       match prev with None => mret Unchanged | Some _ => key_deleted (dataKey e p) 0 end
   | GetFailed err => throw err
   end) (w, m) = ((w', m'), Ok s) →
  synced (dataKey e p) w m →
  wanted p (ke_Get e key) (host_DataGet (dataKey e p) m') ∧ synced (dataKey e p) w' m' ∧
  (s = Unchanged → host_DataGet (dataKey e p) m' = host_DataGet (dataKey e p) m) ∧
  ∀ k, k ≠ dataKey e p → host_DataGet k m' = host_DataGet k m.
Proof.
  intros Hf Hs. destruct (load_previous_spec _ _ _ Hs) as (w1 & Hl & Hv & _).
  unfold mbind at 1, ST_bind at 1 in Hf. rewrite Hl in Hf. destruct (ke_Get e key) as [val rev| |err]; [| |done].
  - unfold lift, mbind, ST_bind in Hf. destruct (parseValue e p val) as [v|?|?] eqn:Hp; [|done..].
    apply key_updated_brings in Hf as (R1 & R2 & R3 & R4); [|done]. split_and!; [by exists v|done..].
  - unfold gets, mbind, ST_bind in Hf. cbn [fst] in Hf. destruct (kv_previousVal w1) as [v|] eqn:Hw.
    + by apply key_deleted_brings in Hf.
    + injection Hf as <- <- <-. split_and!; [done|by left|done..].
Qed.

Lemma poll_body_brings p : brings p (polled p) (poll_body e).
Proof.
  intros w m w' m' s Hf Hp Hs Hk. unfold poll_body in Hf. unfold mbind at 1, ST_bind at 1, gets in Hf. cbn [fst] in Hf.
  assert (∃ w1, (if kv_bound w then mret tt else lift (ke_connect e);; on_watcher set_bound) (w, m) = ((w1, m), Ok tt) ∧
    kv_properties w1 = p ∧ synced (dataKey e p) w1 m) as (w1 & Hb & Hp1 & Hs1).
  { unfold mbind, ST_bind, lift, on_watcher, modify in *. destruct (kv_bound w); [by exists w|].
    destruct (ke_connect e) as [[]|?|?]; [|done..]. by eexists. }
  unfold mbind at 1, ST_bind at 1 in Hf. rewrite Hb in Hf. destruct (_ <? _)%Z in Hf; [injection Hf; congruence|].
  unfold mbind at 1, ST_bind at 1, on_watcher, modify in Hf. cbn [fst snd] in Hf.
  unfold mbind at 1, ST_bind at 1, lift in Hf. rewrite Hp in Hf.
  destruct (ke_ProcessTemplate e (p_Key p)) as [key|?|?] eqn:Hkey; [|done..]. cbn [map_err] in Hf.
  apply poll_loaded_brings in Hf as (R1 & R2); [|exact Hs1]. split; [by exists key|done].
Qed.

(** As long as what the watcher remembers is what its machine holds, a poll that is
    neither skipped nor fails leaves the machine's data under the watcher's key equal to the
    value in the bucket, parsed, or without a value when the bucket has none; it reports no
    change only when the data did not change, touches no other data, and what the watcher
    remembers is again what the machine holds. *)
Theorem poll_synchronises (w w' : KVWatcher V) (m m' : M) (s : State) :
  let dk := dataKey e (kv_properties w) in
  poll e (w, m) = ((w', m'), Ok s) → s ≠ Skipped → synced dk w m →
  polled (kv_properties w) (host_DataGet dk m') ∧ synced dk w' m' ∧
  (s = Unchanged → host_DataGet dk m' = host_DataGet dk m) ∧
  ∀ k, k ≠ dk → host_DataGet k m' = host_DataGet k m.
Proof.
  intros dk Hf Hk Hs. exact (exclusively_brings _ _ _ (poll_body_brings _) _ _ _ _ _ Hf eq_refl Hs Hk).
Qed.

(** What a republished update asks of the data. *)
Definition republished (p : Properties) (msg : repub_msg) (v : option V) : Prop :=
  if elem (rm_Header msg "KV-Operation") ["DEL"; "PURGE"] then v = None
  else ∃ u, parseValue e p (rm_Data msg) = Ok u ∧ v = Some u.

(** A republished update that is neither ignored nor fails does to the machine's data
    what a poll that found the update would do. *)
Theorem republish_synchronises (w w' : KVWatcher V) (m m' : M) (msg : repub_msg) (s : State) :
  let dk := dataKey e (kv_properties w) in
  repubHandler e msg (w, m) = ((w', m'), Ok s) → s ≠ Skipped → synced dk w m →
  republished (kv_properties w) msg (host_DataGet dk m') ∧ synced dk w' m' ∧
  (s = Unchanged → host_DataGet dk m' = host_DataGet dk m) ∧
  ∀ k, k ≠ dk → host_DataGet k m' = host_DataGet k m.
Proof.
  intros dk Hr Hk Hs. refine (exclusively_brings _ _ _ _ _ _ _ _ _ Hr eq_refl Hs Hk).
  generalize (kv_properties w). clear w w' m m' s dk Hr Hk Hs. intros p w m w' m' s Hf Hp Hs _. unfold repub_body in Hf. unfold mbind at 1, ST_bind at 1, gets in Hf.
  cbn [fst] in Hf. rewrite Hp in Hf. unfold mbind at 1, ST_bind at 1, lift in Hf.
  destruct (map_err key_error _) as [key|?|?]; [|done..]. destruct (negb _); [done|].
  destruct (load_previous_spec _ _ _ Hs) as (w1 & Hl & Hv & _).
  unfold mbind at 1, ST_bind at 1 in Hf. rewrite Hl in Hf. unfold mbind at 1, ST_bind at 1 in Hf.
  destruct (map_err _ (ParseUint _ _ _)) as [seq|?|?]; [|done..]. unfold mbind at 1, ST_bind at 1 in Hf.
  destruct (parseValue e _ (rm_Data msg)) as [v|?|?] eqn:Hpv; [|done..].
  unfold mbind, ST_bind in Hf. cbn [fst] in Hf. unfold republished. destruct (elem _ _).
  - destruct (kv_previousVal w1) as [u|] eqn:Hw.
    + by apply key_deleted_brings in Hf.
    + injection Hf as <- <- <-. split_and!; [done|by left|done..].
  - apply key_updated_brings in Hf as (R1 & R2 & R3 & R4); [|done]. split_and!; [by exists v|done..].
Qed.

End KV.

(** ** A bucket for the witnesses *)

#[export] Instance demo_kv_lib : KVLib string :=
  {| cmp_Equal := String.eqb; value_string := id; json_map := id; json_list := id; json_facts := λ s, Ok s;
     hiera_Resolve := λ v _, Ok v; json_Marshal := λ v, Ok v; gjson_Value := λ _ _, None |}.
#[export] Instance demo_kv_laws : KVLaws string.
Proof. split. apply String.eqb_eq. Qed.

Definition demo_kv_env (entry : kv_entry) : kv_env :=
  {| ke_now := 0; ke_ProcessTemplate := λ s, Ok s; ke_connect := Ok tt; ke_Get := λ _, entry; ke_Facts := "{}" |}.

Definition demo_kv : KVWatcher string :=
  {| kv_base := demo_base "kv";
     kv_properties := {| p_Bucket := "CONFIG"; p_Key := "motd"; p_Mode := "poll"; p_TransitionOnSuccessfulGet := false;
                         p_TransitionOnMatch := false; p_BucketPrefix := true; p_RepublishTrigger := "";
                         p_HieraConfig := false; p_StoreKey := ""; p_Query := "" |};
     kv_interval := Minute; kv_previousVal := None; kv_previousSeq := 0; kv_previousState := Error;
     kv_polling := false; kv_lastPoll := None; kv_bound := true |}.

Lemma poll_synchronises_witness :
  ∃ w m, poll (demo_kv_env (Found "hello" 7)) (demo_kv, demo_watched "s") = ((w, m), Ok Changed) ∧
    polled (demo_kv_env (Found "hello" 7)) (kv_properties demo_kv) (host_DataGet "CONFIG_motd" m).
Proof.
  destruct (poll (demo_kv_env (Found "hello" 7)) (demo_kv, demo_watched "s")) as [[w m] o] eqn:E.
  assert (o = Ok Changed) as -> by (vm_compute in E; congruence).
  exists w, m. split; [done|].
  destruct (poll_synchronises (demo_kv_env (Found "hello" 7)) demo_kv w (demo_watched "s") m Changed E
    ltac:(discriminate) ltac:(by left)) as [H _]. exact H.
Defined.

Definition demo_update : repub_msg :=
  {| rm_Subject := "$KV.CONFIG.motd"; rm_Header := λ h, if String.eqb h "Nats-Sequence" then "8" else ""; rm_Data := "hi" |}.

Lemma republish_synchronises_witness :
  ∃ w m, repubHandler (demo_kv_env KeyNotFound) demo_update (demo_kv, demo_watched "s") = ((w, m), Ok Changed) ∧
    republished (demo_kv_env KeyNotFound) (kv_properties demo_kv) demo_update (host_DataGet "CONFIG_motd" m).
Proof.
  destruct (repubHandler (demo_kv_env KeyNotFound) demo_update (demo_kv, demo_watched "s")) as [[w m] o] eqn:E.
  assert (o = Ok Changed) as -> by (vm_compute in E; congruence).
  exists w, m. split; [done|].
  destruct (republish_synchronises (demo_kv_env KeyNotFound) demo_kv w (demo_watched "s") m demo_update Changed E
    ltac:(discriminate) ltac:(by left)) as [H _]. exact H.
Defined.

(** A machine that keeps a value it fails to store, as [DataPut] of machine.go does, is
    not brought back when the bucket returns to what the watcher remembers. *)
Definition failing_host : WatcherHost demo_machine string :=
  {| host_view := host_view; host_Directory := host_Directory; host_Name := host_Name;
     host_Transition := host_Transition; host_NotifyWatcherState := host_NotifyWatcherState;
     host_DataGet := host_DataGet; host_DataDelete := host_DataDelete;
     host_DataPut := λ k v m, ((host_DataPut k v m).1, Err "no space left on device") |}.

Definition watcher_at (t : Z) (entry : kv_entry) : kv_env :=
  {| ke_now := t; ke_ProcessTemplate := λ s, Ok s; ke_connect := Ok tt; ke_Get := λ _, entry; ke_Facts := "{}" |}.

Example failed_save_is_not_repaired :
  let w0 := (poll (watcher_at 0 (Found "old" 1)) (demo_kv, demo_watched "s")).1 in
  let w1 := (poll (WH := failing_host) (watcher_at Hour (Found "new" 2)) w0).1 in
  let r := poll (watcher_at (2 * Hour) (Found "old" 3)) w1 in
  (r.2, host_DataGet "CONFIG_motd" r.1.2) = (Ok Unchanged, Some "new").
Proof. vm_compute. reflexivity. Qed.

(** A document with nothing under the query is stored as its text. *)
Example empty_query_stores_the_document :
  parseValue (demo_kv_env KeyNotFound)
    {| p_Bucket := "CONFIG"; p_Key := "motd"; p_Mode := "poll"; p_TransitionOnSuccessfulGet := false;
       p_TransitionOnMatch := false; p_BucketPrefix := true; p_RepublishTrigger := ""; p_HieraConfig := false;
       p_StoreKey := ""; p_Query := "wanted" |} "{}" = Ok "{}".
Proof. vm_compute. reflexivity. Qed.
