(* ===== verification/FileWatcher.v ===== *)
(** * The file watcher

    aagent/watchers/filewatcher/file.go: watches the modification time of a file, or
    keeps a file at a content, mode and owner.  Templates, users, the checksum and the
    file system calls are arguments. *)
From S2P Require Import Prelude GoLib GoNum Files Util Machine Watchers.

Inductive State := Unknown | Error | Skipped | Unchanged | Changed.

Definition stateNames (s : State) : string :=
  match s with
  | Unknown => "unknown" | Error => "error" | Skipped => "skipped" | Unchanged => "unchanged" | Changed => "changed"
  end.

Record Properties := {
  p_Path : string;
  p_Initial : bool;
  p_Contents : string;
  p_Owner : string;
  p_Group : string;
  p_Mode : string;
}.

Definition set_path (path : string) (p : Properties) : Properties :=
  {| p_Path := path; p_Initial := p_Initial p; p_Contents := p_Contents p; p_Owner := p_Owner p; p_Group := p_Group p;
     p_Mode := p_Mode p |}.

Definition bad_mode : string := "invalid mode, must be a string like 0700".

Definition validate (p : Properties) : res () :=
  if String.eqb (p_Path p) "" then Err "path is required"
  else if String.eqb (p_Contents p) "" then Ok tt
  else if String.eqb (p_Owner p) "" then Err "owner is required when managing content"
  else if String.eqb (p_Group p) "" then Err "group is required when managing content"
  else if String.eqb (p_Mode p) "" then Err "mode is required when managing content"
  else _ ← map_err (λ _, bad_mode) (ParseUint (p_Mode p) 10 32); Ok tt.

Record FileWatcher := {
  fw_base : Watcher;
  fw_properties : Properties;
  fw_interval : Z;
  fw_previous : State;
  (** [None] is the zero time, before any other *)
  fw_mtime : option Z;
}.

Definition set_previous (s : State) (w : FileWatcher) : FileWatcher :=
  {| fw_base := fw_base w; fw_properties := fw_properties w; fw_interval := fw_interval w; fw_previous := s;
     fw_mtime := fw_mtime w |}.
Definition set_mtime (t : option Z) (w : FileWatcher) : FileWatcher :=
  {| fw_base := fw_base w; fw_properties := fw_properties w; fw_interval := fw_interval w;
     fw_previous := fw_previous w; fw_mtime := t |}.

Definition NewFile `{TimeLib} (directory name : string) (states : list string) (required : list ForeignMachineState)
    (failEvent successEvent interval : string) (ai : Z) (rawprop : res Properties) : res FileWatcher :=
  base ← NewWatcher name "file" ai states required true failEvent successEvent;
  props ← map_err (λ e, "could not set properties: " +:+ e) (p ← rawprop; validate p;; Ok p);
  let props := if has_prefix (p_Path props) "/" then props else set_path (path_join [directory; p_Path props]) props in
  i ← (if String.eqb interval "" then Ok (5 * Second)%Z
       else map_err (λ e, "invalid interval: " +:+ e) (ParseDuration interval));
  if (i <? 500 * 1000000)%Z then Err ("interval " +:+ RenderDuration i +:+ " is too small")
  else Ok {| fw_base := base; fw_properties := props; fw_interval := i; fw_previous := Unknown; fw_mtime := None |}.

(** ** Files *)

Record file_info := {
  fi_content : string;
  fi_mode : Z;
  fi_mtime : Z;
  (** user and group *)
  fi_owner : option (Z * Z);
}.

(** A regular file keeps the permissions and the setuid, setgid and sticky bits of
    [os.FileMode]; nothing else of a number survives [chmod]. *)
Definition chmod_bits : Z := 511 + 2 ^ 23 + 2 ^ 22 + 2 ^ 20.
Definition chmod_mode (m : Z) : Z := Z.land m chmod_bits.

(** What the system answers to one watch. *)
Record file_env := {
  fe_now : Z;
  fe_windows : bool;
  fe_ProcessTemplate : string → res string;
  (** [stat] of a path, given the file that is there *)
  fe_stat_error : option (bool * string);
  fe_CreateTemp : res ();
  fe_Chmod : res ();
  fe_Write : res ();
  fe_user_Lookup : string → res string;
  fe_LookupGroup : string → res string;
  fe_Chown : res ();
  fe_Close : res ();
  fe_Rename : res ();
  (** the second [stat] *)
  fe_restat : res ();
  fe_sha256 : string → string;
  fe_open_error : option string;
}.

Section Watch.
Context {M V : Type} `{WH : WatcherHost M V}.
Variable e : file_env.

(** The watcher and the file at its path. *)
Abbreviation World := (FileWatcher * option file_info)%type.
Abbreviation FileM := (ST World string).

(** [os.Stat]: the file, or whether it does not exist and the error. *)
Definition os_Stat (f : option file_info) : file_info + (bool * string) :=
  match fe_stat_error e, f with
  | Some err, _ => inr err
  | None, None => inr (true, "no such file or directory")
  | None, Some i => inl i
  end.

(** [t.After(mtime)] *)
Definition after (t : Z) (mtime : option Z) : bool := from_option (λ m, m <? t)%Z true mtime.

Definition set_time (t : option Z) : FileM () := modify (λ w, (set_mtime t w.1, w.2)).

Definition watchFileStat : FileM State :=
  w ← gets id;
  match os_Stat w.2 with
  | inl stat => if after (fi_mtime stat) (fw_mtime w.1) then set_time (Some (fi_mtime stat));; mret Changed
                else mret Unchanged
  | inr (notexist, err) => set_time None;; throw (if notexist then "does not exist" else err)
  end.

(** The user and group a new file gets, when both are set. *)
Definition new_owner (p : Properties) : res (option (Z * Z)) :=
  if fe_windows e then Ok None
  else
    owner ← map_err (λ err, "could not process file owner template: " +:+ err) (fe_ProcessTemplate e (p_Owner p));
    group ← map_err (λ err, "could not process file owner template: " +:+ err) (fe_ProcessTemplate e (p_Group p));
    if String.eqb owner "" || String.eqb group "" then Ok None
    else
      u ← map_err (λ err, "could not lookup user " +:+ owner +:+ ": " +:+ err) (fe_user_Lookup e owner);
      uid ← (match atoi u with Some i => Ok i | None => Err ("could not convert user id " +:+ u +:+ " to integer") end);
      g ← map_err (λ err, "could not lookup group " +:+ group +:+ ": " +:+ err) (fe_LookupGroup e group);
      gid ← (match atoi g with Some i => Ok i | None => Err ("could not convert group id " +:+ g +:+ " to integer") end);
      map_err (λ err, "could not change file ownership: " +:+ err) (fe_Chown e);;
      Ok (Some (uid, gid)).

(** The file is replaced by a complete one or not at all. *)
Definition createFile (content : string) (mode : Z) : FileM State :=
  w ← gets fst;
  lift (map_err (λ err, "could not create temporary file: " +:+ err) (fe_CreateTemp e));;
  lift (map_err (λ err, "could not change file permissions: " +:+ err) (fe_Chmod e));;
  lift (map_err (λ err, "could not write temporary file: " +:+ err) (fe_Write e));;
  owner ← lift (new_owner (fw_properties w));
  lift (map_err (λ err, "could not close temporary file: " +:+ err) (fe_Close e));;
  lift (map_err (λ err, "could not rename temporary file: " +:+ err) (fe_Rename e));;
  modify (λ w, (w.1, Some {| fi_content := content; fi_mode := chmod_mode mode; fi_mtime := fe_now e; fi_owner := owner |}));;
  (match fe_restat e with Ok _ => set_time (Some (fe_now e)) | _ => mret tt end);;
  mret Changed.

Definition watchFileContent : FileM State :=
  w ← gets id;
  let p := fw_properties w.1 in
  mode ← lift (map_err (λ err, "could not process file mode template: " +:+ err) (fe_ProcessTemplate e (p_Mode p)));
  if String.eqb mode "" then throw "mode template result is empty"
  else
    wantMode ← lift (map_err (λ _, bad_mode) (ParseUint mode 0 32));
    content ← lift (map_err (λ err, "could not process template: " +:+ err) (fe_ProcessTemplate e (p_Contents p)));
    match os_Stat w.2 with
    | inr _ => createFile content wantMode
    | inl stat =>
        if after (fi_mtime stat) (fw_mtime w.1) then createFile content wantMode
        else if negb (fi_mode stat =? wantMode)%Z then createFile content wantMode
        else
          match fe_open_error e with
          | Some err => throw ("could not hash file: " +:+ err)
          | None =>
              if negb (String.eqb (fe_sha256 e content) (fe_sha256 e (fi_content stat))) then createFile content wantMode
              else mret Unchanged
          end
    end.

Definition watch (v : machine_view) : FileM State :=
  w ← gets fst;
  if negb (ShouldWatch (Some v) (fw_base w)) then mret Skipped
  else if String.eqb (p_Contents (fw_properties w)) "" then watchFileStat
  else watchFileContent.

(** [Run] remembers the time of the file when it is asked to. *)
Definition initial_state : FileM () :=
  w ← gets id;
  if p_Initial (fw_properties w.1)
  then match os_Stat w.2 with inl stat => set_time (Some (fi_mtime stat)) | inr _ => mret tt end
  else mret tt.

(** What a check does to the machine. *)
Definition handleCheck (base : Watcher) (s : State) : ST M string () :=
  match s with
  | Error => modify (host_NotifyWatcherState (wt_name base) (stateNames s));; fire_event (FailureTransition base)
  | Changed => modify (host_NotifyWatcherState (wt_name base) (stateNames s));; fire_event (SuccessTransition base)
  | _ => mret tt
  end.

(** [None] is a panic of a template or of the event. *)
Definition performWatch (w : World) (m : M) : option (World * M) :=
  match watch (host_view m) w with
  | (_, Panic _) => None
  | (w, o) =>
      let s := match o with Ok s => s | _ => Error end in
      match handleCheck (fw_base w.1) s m with
      | (_, Panic _) => None
      | (m, _) => Some ((set_previous s w.1, w.2), m)
      end
  end.

End Watch.

(** * The file watcher: properties

    A managed file is complete or untouched; the watcher settles. *)

Section Watch.
Context {M V : Type} `{WH : WatcherHost M V}.
Variable e : file_env.

(** The content and mode a watch aims at. *)
Definition target (p : Properties) (content : string) (mode : Z) : Prop :=
  ∃ m, fe_ProcessTemplate e (p_Mode p) = Ok m ∧ m ≠ "" ∧ ParseUint m 0 32 = Ok mode ∧
    fe_ProcessTemplate e (p_Contents p) = Ok content.

Definition holds (content : string) (mode : Z) (f : option file_info) : Prop :=
  ∃ i, f = Some i ∧ fi_content i = content ∧ fi_mode i = mode.

Lemma createFile_spec content mode w f w' f' o : createFile e content mode (w, f) = ((w', f'), o) →
  match o with
  | Ok s => s = Changed ∧ holds content (chmod_mode mode) f' ∧ fw_properties w' = fw_properties w ∧
            fw_base w' = fw_base w ∧ (fe_restat e = Ok tt → fi_mtime <$> f' = fw_mtime w' ∧ is_Some f')
  | _ => (w', f') = (w, f)
  end.
Proof.
  unfold createFile, gets, lift, modify, set_time, modify, mret, ST_ret. unfold mbind, ST_bind. cbn [fst snd].
  destruct (map_err _ (fe_CreateTemp e)) as [[]|?|?]; [|by intros [= <- <- <-]..].
  destruct (map_err _ (fe_Chmod e)) as [[]|?|?]; [|by intros [= <- <- <-]..].
  destruct (map_err _ (fe_Write e)) as [[]|?|?]; [|by intros [= <- <- <-]..].
  destruct (new_owner e _) as [owner|?|?]; [|by intros [= <- <- <-]..].
  destruct (map_err _ (fe_Close e)) as [[]|?|?]; [|by intros [= <- <- <-]..].
  destruct (map_err _ (fe_Rename e)) as [[]|?|?]; [|by intros [= <- <- <-]..].
  destruct (fe_restat e) as [[]|?|?]; intros [= <- <- <-]; (split_and!; [done|by eexists|done..]).
Qed.

Lemma watchFileContent_spec w f w' f' o : watchFileContent e (w, f) = ((w', f'), o) →
  match o with
  | Ok s => ∃ content mode, target (fw_properties w) content mode ∧ (s = Changed ∨ s = Unchanged) ∧
      (s = Changed → holds content (chmod_mode mode) f' ∧ fw_properties w' = fw_properties w ∧
         fw_base w' = fw_base w ∧ (fe_restat e = Ok tt → fi_mtime <$> f' = fw_mtime w' ∧ is_Some f')) ∧
      (s = Unchanged → (w', f') = (w, f) ∧
         ∃ i, f = Some i ∧ fi_mode i = mode ∧ fe_sha256 e content = fe_sha256 e (fi_content i))
  | _ => (w', f') = (w, f)
  end.
Proof.
  unfold watchFileContent, gets, lift, throw, mret, ST_ret, id. unfold mbind, ST_bind. cbn [fst snd].
  destruct (fe_ProcessTemplate e (p_Mode (fw_properties w))) as [m|?|?] eqn:Hm; [|by intros [= <- <- <-]..].
  cbn [map_err]. destruct (String.eqb_spec m ""); [by intros [= <- <- <-]|].
  destruct (ParseUint m 0 32) as [mode|?|?] eqn:Hmode; [|by intros [= <- <- <-]..]. cbn [map_err].
  destruct (fe_ProcessTemplate e (p_Contents (fw_properties w))) as [content|?|?] eqn:Hc; [|by intros [= <- <- <-]..].
  cbn [map_err]. intros H.
  assert (target (fw_properties w) content mode) as Ht by by exists m.
  assert (createFile e content mode (w, f) = ((w', f'), o) → match o with
    | Ok s => ∃ content mode, target (fw_properties w) content mode ∧ (s = Changed ∨ s = Unchanged) ∧
        (s = Changed → holds content (chmod_mode mode) f' ∧ fw_properties w' = fw_properties w ∧
           fw_base w' = fw_base w ∧ (fe_restat e = Ok tt → fi_mtime <$> f' = fw_mtime w' ∧ is_Some f')) ∧
        (s = Unchanged → (w', f') = (w, f) ∧
           ∃ i, f = Some i ∧ fi_mode i = mode ∧ fe_sha256 e content = fe_sha256 e (fi_content i))
    | _ => (w', f') = (w, f) end) as Hcreate.
  { intros Hf. apply createFile_spec in Hf. destruct o as [s|?|?]; [|done..]. destruct Hf as [-> Hf].
    exists content, mode. split_and!; [done|by left|done|done]. }
  unfold os_Stat in H. destruct (fe_stat_error e); [by apply Hcreate|]. destruct f as [i|]; [|by apply Hcreate].
  destruct (after _ _); [by apply Hcreate|]. destruct (negb (fi_mode i =? mode)%Z) eqn:Hneq; [by apply Hcreate|].
  destruct (fe_open_error e); [by injection H as <- <- <-|].
  destruct (negb (String.eqb _ _)) eqn:Hsha; [by apply Hcreate|]. injection H as <- <- <-. bprop.
  exists content, mode. split_and!; [done|by right|done|]. intros _. split; [done|]. by exists i.
Qed.

(** A watch that manages a file's content either fails or is skipped, and then the
    file is exactly what it was, or leaves the content its template gives with the mode
    it asks for, reporting no change only when nothing was changed. *)
Theorem managed_file (v : machine_view) (w w' : FileWatcher) (f f' : option file_info) (o : outcome string State) :
  watch e v (w, f) = ((w', f'), o) → p_Contents (fw_properties w) ≠ "" →
  (∀ content mode i, target (fw_properties w) content mode → f = Some i →
     fe_sha256 e content = fe_sha256 e (fi_content i) → content = fi_content i) →
  match o with
  | Ok Skipped => f' = f ∧ ShouldWatch (Some v) (fw_base w) = false
  | Ok s => (s = Changed ∨ s = Unchanged ∧ f' = f) ∧
            ∃ content mode, target (fw_properties w) content mode ∧ (holds content mode f' ∨ holds content (chmod_mode mode) f')
  | _ => f' = f
  end.
Proof.
  unfold watch, gets. unfold mbind, ST_bind. cbn [fst]. intros H Hne Hinj.
  destruct (ShouldWatch (Some v) (fw_base w)) eqn:Hs; cbn [negb] in H; [|injection H as <- <- <-; by split].
  destruct (String.eqb_spec (p_Contents (fw_properties w)) ""); [done|].
  apply watchFileContent_spec in H. destruct o as [s|err|p]; [|congruence..].
  destruct H as (content & mode & Ht & Hs' & Hchanged & Hunchanged).
  destruct Hs' as [-> | ->].
  - split; [by left|]. exists content, mode. split; [done|]. right. by apply Hchanged.
  - destruct (Hunchanged eq_refl) as [[= -> ->] (i & -> & Hm & Hh)]. apply (Hinj content mode i Ht eq_refl) in Hh.
    split; [by right|]. exists content, mode. split; [done|]. left. by exists i.
Qed.

(** The watcher settles: after it replaced a file, and as long as nothing else
    changes, the next watch finds nothing to do, if the mode it asks for is one a file can
    have. *)
Theorem managed_file_settles (v : machine_view) (w w' : FileWatcher) (f f' : option file_info) (content : string) (mode : Z) :
  watch e v (w, f) = ((w', f'), Ok Changed) → p_Contents (fw_properties w) ≠ "" →
  target (fw_properties w) content mode → chmod_mode mode = mode →
  fe_restat e = Ok tt → fe_stat_error e = None → fe_open_error e = None →
  watch e v (w', f') = ((w', f'), Ok Unchanged).
Proof.
  unfold watch, gets. unfold mbind, ST_bind. cbn [fst]. intros H Hne Ht Hmode Hre Hstat Hopen.
  destruct (negb (ShouldWatch (Some v) (fw_base w))) eqn:Hs; [done|].
  destruct (String.eqb_spec (p_Contents (fw_properties w)) ""); [done|].
  apply watchFileContent_spec in H as (content' & mode' & Ht' & _ & Hchanged & _).
  destruct (Hchanged eq_refl) as ((i & -> & Hc & Hm) & Hp & Hb & Htime).
  assert (content' = content ∧ mode' = mode) as [-> ->].
  { destruct Ht as (m & E1 & _ & E2 & E3), Ht' as (m' & E1' & _ & E2' & E3'). rewrite E1 in E1'. simplify_eq.
    rewrite E2 in E2'. rewrite E3 in E3'. by simplify_eq. }
  destruct (Htime Hre) as [Ht2 _]. rewrite Hb, Hs, Hp, (proj2 (String.eqb_neq _ _) Hne).
  destruct Ht as (m & E1 & Hm0 & E2 & E3).
  unfold watchFileContent, gets, lift, throw, mret, ST_ret, id. unfold mbind, ST_bind. cbn [fst snd].
  rewrite Hp, E1. cbn [map_err]. rewrite (proj2 (String.eqb_neq _ _) Hm0), E2. cbn [map_err]. rewrite E3. cbn [map_err].
  unfold os_Stat. rewrite Hstat, Hopen, <- Ht2. unfold after. cbn. rewrite Z.ltb_irrefl, Hm, Hmode, Z.eqb_refl, Hc.
  by rewrite String.eqb_refl.
Qed.

End Watch.

(** ** A file for the witnesses *)

Definition demo_file_env : file_env :=
  {| fe_now := 100; fe_windows := false; fe_ProcessTemplate := λ s, Ok s; fe_stat_error := None; fe_CreateTemp := Ok tt;
     fe_Chmod := Ok tt; fe_Write := Ok tt; fe_user_Lookup := λ _, Ok "0"; fe_LookupGroup := λ _, Ok "0";
     fe_Chown := Ok tt; fe_Close := Ok tt; fe_Rename := Ok tt; fe_restat := Ok tt; fe_sha256 := id;
     fe_open_error := None |}.
Definition demo_file (mode : string) : FileWatcher :=
  {| fw_base := demo_base "file";
     fw_properties := {| p_Path := "/etc/motd"; p_Initial := false; p_Contents := "hello"; p_Owner := "root";
                         p_Group := "root"; p_Mode := mode |};
     fw_interval := 5 * Second; fw_previous := Unknown; fw_mtime := None |}.
Definition demo_view : machine_view := host_view (demo_watched "s").

Lemma managed_file_witness :
  ∃ w f, watch demo_file_env demo_view (demo_file "0644", None) = ((w, f), Ok Changed) ∧
    ∃ content mode, target demo_file_env (fw_properties (demo_file "0644")) content mode ∧
      (holds content mode f ∨ holds content (chmod_mode mode) f).
Proof.
  destruct (watch demo_file_env demo_view (demo_file "0644", None)) as [[w f] o] eqn:E.
  assert (o = Ok Changed) as -> by (vm_compute in E; congruence).
  exists w, f. split; [done|].
  destruct (managed_file demo_file_env demo_view (demo_file "0644") w None f (Ok Changed) E ltac:(done) ltac:(done)) as [_ H].
  exact H.
Defined.

Lemma managed_file_settles_witness :
  ∃ w f, watch demo_file_env demo_view (demo_file "0644", None) = ((w, f), Ok Changed) ∧
    watch demo_file_env demo_view (w, f) = ((w, f), Ok Unchanged).
Proof.
  destruct (watch demo_file_env demo_view (demo_file "0644", None)) as [[w f] o] eqn:E.
  assert (o = Ok Changed) as -> by (vm_compute in E; congruence).
  exists w, f. split; [done|].
  assert (target demo_file_env (fw_properties (demo_file "0644")) "hello" 420) as Ht by by exists "0644".
  exact (managed_file_settles demo_file_env demo_view (demo_file "0644") w None f "hello" 420 E ltac:(done) Ht
    ltac:(vm_compute; reflexivity) eq_refl eq_refl eq_refl).
Defined.

(** A setuid mode is no mode of a file as the watcher reads it: the file is replaced by
    every watch. A mode without its leading zero is decimal, one that passes the
    validation can fail later. *)
Example setuid_never_settles :
  let w1 := (watch demo_file_env demo_view (demo_file "04755", None)).1 in
  (watch demo_file_env demo_view w1).2 = Ok Changed.
Proof. vm_compute. reflexivity. Qed.
Example mode_bases :
  (is_ok (validate (fw_properties (demo_file "0899"))), ParseUint "0899" 0 32, ParseUint "755" 0 32) =
  (true, Err ErrSyntax, Ok 755%Z).
Proof. vm_compute. reflexivity. Qed.
