(* ===== verification/ExpressionWatcher.v ===== *)
(** * The expression watcher

    aagent/watchers/expressionwatcher: evaluates two expressions over the machine and
    fires an event when one starts to hold.  The expression language is an argument. *)
From S2P Require Import Prelude GoLib Files Util Machine Watchers.

Inductive State := SuccessWhen | FailWhen | NoMatch | Skipped | Error.
#[export] Instance State_eq_dec : EqDecision State.
Proof. solve_decision. Defined.

Definition stateNames (s : State) : string :=
  match s with
  | SuccessWhen => "success_when" | FailWhen => "failed_when" | NoMatch => "no_match" | Skipped => "skipped"
  | Error => "error"
  end.

Record Properties := { p_FailWhen : string; p_SuccessWhen : string }.

Record ExpressionWatcher := {
  ew_base : Watcher;
  ew_properties : Properties;
  ew_interval : Z;
  ew_previous : State;
}.

(** Made before the interval is parsed: it sees the default. *)
Definition validate (interval : Z) (p : Properties) : res () :=
  if (interval <? Second)%Z then Err ("interval should be more than 1 second: " +:+ itoa interval)
  else if String.eqb (p_FailWhen p) "" && String.eqb (p_SuccessWhen p) "" then Err "success_when or fail_when is required"
  else Ok tt.

Definition NewExpression `{TimeLib} (name : string) (states : list string) (required : list ForeignMachineState)
    (failEvent successEvent interval : string) (ai : Z) (rawprop : res Properties) : res ExpressionWatcher :=
  base ← NewWatcher name "expression" ai states required true failEvent successEvent;
  props ← map_err (λ e, "could not set properties: " +:+ e) (p ← rawprop; validate (10 * Second) p;; Ok p);
  i ← (if String.eqb interval "" then Ok (10 * Second)%Z
       else
         i ← map_err (λ e, "invalid interval: " +:+ e) (ParseDuration interval);
         if (i <? 500 * 1000000)%Z then Err ("interval " +:+ RenderDuration i +:+ " is too small") else Ok i);
  Ok {| ew_base := base; ew_properties := props; ew_interval := i; ew_previous := Skipped |}.

Definition set_previous (s : State) (w : ExpressionWatcher) : ExpressionWatcher :=
  {| ew_base := ew_base w; ew_properties := ew_properties w; ew_interval := ew_interval w; ew_previous := s |}.

(** A value of the expression language. *)
Inductive expr_value := BoolValue (b : bool) | OtherValue.

(** Compiling with the environment of the machine, and running. *)
Record expr_env := {
  xe_Compile : string → res ();
  xe_Run : string → res expr_value;
}.

Section Watch.
Context {M V : Type} `{WH : WatcherHost M V}.

Definition evaluateExpression (x : expr_env) (e : string) : res bool :=
  if String.eqb e "" then Err "invalid expression"
  else
    xe_Compile x e;;
    v ← xe_Run x e;
    match v with BoolValue b => Ok b | OtherValue => Err "match was non boolean" end.

(** An expression that is set and holds. *)
Definition holds (x : expr_env) (e : string) : res bool :=
  if String.eqb e "" then Ok false else evaluateExpression x e.

Definition watch (x : expr_env) (v : machine_view) (w : ExpressionWatcher) : res State :=
  if negb (ShouldWatch (Some v) (ew_base w)) then Ok Skipped
  else
    success ← holds x (p_SuccessWhen (ew_properties w));
    if (success : bool) then Ok SuccessWhen
    else
      fail ← holds x (p_FailWhen (ew_properties w));
      Ok (if (fail : bool) then FailWhen else NoMatch).

(** The event of a state, only when the state is new. *)
Definition edge_event (w : ExpressionWatcher) (s : State) : option string :=
  match s with
  | SuccessWhen => if decide (ew_previous w = SuccessWhen) then None else SuccessTransition (ew_base w)
  | FailWhen => if decide (ew_previous w = FailWhen) then None else FailureTransition (ew_base w)
  | _ => None
  end.

Definition handleCheck (w : ExpressionWatcher) (s : State) : ST M string ExpressionWatcher :=
  (if decide (s ∈ [SuccessWhen; FailWhen; Error])
   then modify (host_NotifyWatcherState (wt_name (ew_base w)) (stateNames s)) else mret tt);;
  _ ← attempt (E := string) (fire_event (edge_event w s));
  mret (set_previous s w).

Definition performWatch (x : expr_env) (w : ExpressionWatcher) : ST M string ExpressionWatcher :=
  v ← gets host_view;
  match watch x v w with
  | Panic p => panic p
  | Ok s => handleCheck w s
  | Err _ => handleCheck w Error
  end.

(** The states of successive watches, each in its own environment, with the events they
    ask for. *)
Fixpoint watches (xs : list expr_env) (w : ExpressionWatcher) (m : M) : list (State * option string) :=
  match xs with
  | [] => []
  | x :: rest =>
      match performWatch x w m with
      | (m', Ok w') => (ew_previous w', edge_event w (ew_previous w')) :: watches rest w' m'
      | _ => []
      end
  end.

(** The state of a watch, errors included. *)
Definition outcome_state (o : res State) : State := match o with Ok s => s | _ => Error end.

Lemma performWatch_spec x w m m' w' : performWatch x w m = (m', Ok w') →
  ew_previous w' = outcome_state (watch x (host_view m) w) ∧ ew_base w' = ew_base w ∧
  ew_properties w' = ew_properties w ∧
  m' = (fire_event (edge_event w (ew_previous w'))
          (if decide (ew_previous w' ∈ [SuccessWhen; FailWhen; Error])
           then host_NotifyWatcherState (wt_name (ew_base w)) (stateNames (ew_previous w')) m else m)).1.
Proof.
  unfold performWatch, gets. unfold mbind, ST_bind.
  assert (∀ s, handleCheck w s m = (m', Ok w') → w' = set_previous s w ∧
    m' = (fire_event (edge_event w s) (if decide (s ∈ [SuccessWhen; FailWhen; Error])
           then host_NotifyWatcherState (wt_name (ew_base w)) (stateNames s) m else m)).1) as Hh.
  { intros s. unfold handleCheck, modify, attempt, mret, ST_ret. unfold mbind, ST_bind.
    destruct (decide _); destruct (fire_event _ _) as [m2 [?|?|?]]; by intros [= <- <-]. }
  destruct (watch x (host_view m) w) as [s|?|?]; [| |done]; intros H; apply Hh in H as [-> ->]; done.
Qed.

Lemma watches_cons xs w m s ev l : watches xs w m = (s, ev) :: l →
  ∃ x xs' w' m', xs = x :: xs' ∧ performWatch x w m = (m', Ok w') ∧ ew_previous w' = s ∧ ev = edge_event w s ∧
    l = watches xs' w' m'.
Proof.
  destruct xs as [|x xs]; [done|]. cbn. destruct (performWatch x w m) as [m' [w'|?|?]] eqn:E; [|done..].
  intros [= <- <- <-]. by exists x, xs, w', m'.
Qed.

(** No event of a state that was already the one before. *)
Lemma no_event_in_block s xs w m n : s ∈ [SuccessWhen; FailWhen] → ew_previous w = s →
  (∀ i t ev, watches xs w m !! i = Some (t, ev) → i ≤ n → t = s) →
  ∀ i t ev, watches xs w m !! i = Some (t, ev) → i ≤ n → ev = None.
Proof.
  intros Hs. revert w m n. induction xs as [|x xs IH]; intros w m n Hp Hall i t ev Hi Hn; [done|].
  destruct (watches (x :: xs) w m) as [|[t0 ev0] l] eqn:E; [done|].
  pose proof (Hall 0 t0 ev0 eq_refl ltac:(lia)) as ->.
  apply watches_cons in E as (x' & xs' & w' & m' & [= <- <-] & Hw & Hp' & -> & ->).
  destruct i as [|i].
  - injection Hi as <- <-. unfold edge_event. rewrite Hp. destruct s; try done; set_solver.
  - destruct n as [|n]; [lia|]. refine (IH w' m' n Hp' _ i t ev Hi ltac:(lia)).
    intros j t' ev' Hj Hjn. apply (Hall (S j) t' ev' Hj). lia.
Qed.

(** An expression watcher fires on edges: between two events of the same outcome of
    an expression there is a watch that had another outcome, whatever else the machine
    does between the watches. *)
Theorem fires_on_edges (xs : list expr_env) (w : ExpressionWatcher) (m : M) (i j : nat) (s : State) (a b : string) :
  watches xs w m !! i = Some (s, Some a) → watches xs w m !! j = Some (s, Some b) → i < j →
  ∃ k t ev, i < k < j ∧ watches xs w m !! k = Some (t, ev) ∧ t ≠ s.
Proof.
  revert w m i j. induction xs as [|x xs IH]; intros w m i j Hi Hj Hij; [done|].
  destruct (watches (x :: xs) w m) as [|[t0 ev0] l] eqn:E; [done|].
  apply watches_cons in E as (x' & xs' & w' & m' & [= <- <-] & Hw & Hp' & -> & ->).
  destruct j as [|j]; [lia|]. destruct i as [|i].
  - injection Hi as -> Hev. change (watches xs w' m' !! j = Some (s, Some b)) in Hj.
    assert (s ∈ [SuccessWhen; FailWhen]) as Hs by (destruct s; try done; set_solver).
    destruct (decide (Exists (λ te, te.1 ≠ s) (take j (watches xs w' m')))) as [He|He].
    + apply Exists_exists in He as ([t ev] & Hin & Ht). apply list_elem_of_lookup_1 in Hin as [k Hk].
      apply lookup_take_Some in Hk as [Hk Hkj]. exists (S k), t, ev. split_and!; [lia|lia|done|done].
    + apply not_Exists_Forall in He; [|intros te; apply _].
      assert (Some b = None) as Hb; [|done].
      refine (no_event_in_block s xs w' m' j Hs Hp' _ j s (Some b) Hj ltac:(lia)).
      intros k t ev Hk Hkj. destruct (decide (k = j)) as [->|Hne]; [congruence|].
      rewrite Forall_lookup in He. specialize (He k (t, ev)). rewrite lookup_take_Some in He.
      assert (k < j) as Hlt by lia. specialize (He (conj Hk Hlt)). by apply dec_stable in He.
  - destruct (IH w' m' i j Hi Hj ltac:(lia)) as (k & t & ev & Hk & Hl & Ht).
    exists (S k), t, ev. split_and!; [lia|lia|done|done].
Qed.

End Watch.

(** ** A watcher for the witnesses: expressions that are true when named "yes" *)

Definition demo_expr (b : bool) : expr_env := {| xe_Compile := λ _, Ok tt; xe_Run := λ _, Ok (BoolValue b) |}.
Definition demo_expression : ExpressionWatcher :=
  {| ew_base := demo_base "expression"; ew_properties := {| p_FailWhen := ""; p_SuccessWhen := "data.ready" |};
     ew_interval := 10 * Second; ew_previous := Skipped |}.
Definition demo_watches := watches (map demo_expr [true; true; false; true]) demo_expression (demo_watched "s").

Lemma fires_on_edges_witness :
  demo_watches = [(SuccessWhen, Some "ok"); (SuccessWhen, None); (NoMatch, None); (SuccessWhen, Some "ok")] ∧
  ∃ k t ev, 0 < k < 3 ∧ demo_watches !! k = Some (t, ev) ∧ t ≠ SuccessWhen.
Proof.
  split; [vm_compute; reflexivity|].
  exact (fires_on_edges (WH := demo_host) (map demo_expr [true; true; false; true]) demo_expression (demo_watched "s") 0 3 SuccessWhen "ok" "ok"
    ltac:(vm_compute; reflexivity) ltac:(vm_compute; reflexivity) ltac:(lia)).
Defined.
