(* ===== verification/ScheduleWatcher.v ===== *)
(** * The schedule watcher

    aagent/watchers/schedulewatcher: cron schedules switch a counter, the machine is sent
    an event when the switch changes.  The goroutines of the items, the channel of
    capacity one between them and the counter, and the watches are the steps of a
    relation; the cron parser is an argument. *)
From S2P Require Import Prelude GoLib Files Util Machine Watchers.

Inductive State := Unknown | Off | On | Skipped.
#[export] Instance State_eq_dec : EqDecision State.
Proof. solve_decision. Defined.

Definition stateNames (s : State) : string :=
  match s with Unknown => "unknown" | Off => "off" | On => "on" | Skipped => "skipped" end.

Record Properties := {
  p_Duration : Z;
  p_StartSplay : Z;
  p_SkipTriggerOnReenter : bool;
  p_Schedules : list string;
}.

Definition set_duration (d : Z) (p : Properties) : Properties :=
  {| p_Duration := d; p_StartSplay := p_StartSplay p; p_SkipTriggerOnReenter := p_SkipTriggerOnReenter p;
     p_Schedules := p_Schedules p |}.

Definition validate (p : Properties) : res Properties :=
  let p := if (p_Duration p <? Second)%Z then set_duration Minute p else p in
  if Nat.eqb (length (p_Schedules p)) 0 then Err "no schedules defined" else Ok p.

(** Who holds the lock of an item: a check that starts it, a wait that ends it. *)
Inductive item_lock := Free | Starting | Ending.

Record scheduleItem := {
  it_spec : string;
  it_duration : Z;
  it_randomize : Z;
  it_on : bool;
  it_lock : item_lock;
  (** waits whose timer runs, and those whose timer ended *)
  it_waits : nat;
  it_ended : nat;
}.

Definition newSchedItem (parse : string → res ()) (p : Properties) (spec : string) : res scheduleItem :=
  parse spec;;
  Ok {| it_spec := spec; it_duration := p_Duration p; it_randomize := p_StartSplay p; it_on := false; it_lock := Free;
        it_waits := 0; it_ended := 0 |}.

Fixpoint make_items (parse : string → res ()) (p : Properties) (specs : list string) : res (list scheduleItem) :=
  match specs with
  | [] => Ok []
  | spec :: rest =>
      item ← map_err (λ e, "could not parse '" +:+ spec +:+ "': " +:+ e) (newSchedItem parse p spec);
      items ← make_items parse p rest;
      Ok (item :: items)
  end.

(** The items keep the duration that was given, not its default. *)
Definition setProperties (parse : string → res ()) (rawprop : res Properties) :
    res (Properties * list scheduleItem) :=
  p ← rawprop;
  items ← make_items parse p (p_Schedules p);
  if (Z.quot (p_Duration p) 2 <? p_StartSplay p)%Z then
    Err ("start splay " +:+ itoa (p_StartSplay p) +:+ " is bigger than half the duration " +:+ itoa (p_Duration p))
  else p ← validate p; Ok (p, items).

Record ScheduleWatcher := {
  sw_base : Watcher;
  sw_properties : Properties;
  sw_items : list scheduleItem;
  (** what is in the channel *)
  sw_ctrq : option Z;
  sw_ctr : Z;
  sw_triggered : bool;
  sw_state : State;
  sw_previousState : State;
}.

Definition NewSchedule (parse : string → res ()) (name : string) (states : list string)
    (required : list ForeignMachineState) (failEvent successEvent : string) (ai : Z) (rawprop : res Properties) :
    res ScheduleWatcher :=
  base ← NewWatcher name "schedule" ai states required true failEvent successEvent;
  pi ← map_err (λ e, "could not set properties: " +:+ e) (setProperties parse rawprop);
  Ok {| sw_base := base; sw_properties := pi.1; sw_items := pi.2; sw_ctrq := None; sw_ctr := 0; sw_triggered := false;
        sw_state := Unknown; sw_previousState := Unknown |}.

Definition set_items (l : list scheduleItem) (q : option Z) (w : ScheduleWatcher) : ScheduleWatcher :=
  {| sw_base := sw_base w; sw_properties := sw_properties w; sw_items := l; sw_ctrq := q; sw_ctr := sw_ctr w;
     sw_triggered := sw_triggered w; sw_state := sw_state w; sw_previousState := sw_previousState w |}.
Definition set_counter (c : Z) (s : State) (w : ScheduleWatcher) : ScheduleWatcher :=
  {| sw_base := sw_base w; sw_properties := sw_properties w; sw_items := sw_items w; sw_ctrq := None; sw_ctr := c;
     sw_triggered := sw_triggered w; sw_state := s; sw_previousState := sw_previousState w |}.
Definition setPreviousState (s : State) (w : ScheduleWatcher) : ScheduleWatcher :=
  {| sw_base := sw_base w; sw_properties := sw_properties w; sw_items := sw_items w; sw_ctrq := sw_ctrq w;
     sw_ctr := sw_ctr w; sw_triggered := sw_triggered w; sw_state := sw_state w; sw_previousState := s |}.
Definition setTriggered (b : bool) (w : ScheduleWatcher) : ScheduleWatcher :=
  {| sw_base := sw_base w; sw_properties := sw_properties w; sw_items := sw_items w; sw_ctrq := sw_ctrq w;
     sw_ctr := sw_ctr w; sw_triggered := b; sw_state := sw_state w; sw_previousState := sw_previousState w |}.

(** One round of [watchSchedule]. *)
Definition receive_counter (i : Z) (w : ScheduleWatcher) : ScheduleWatcher :=
  let ctr := (sw_ctr w + i)%Z in
  let ctr := if (ctr <? 0)%Z then 0%Z else ctr in
  set_counter ctr (if (ctr =? 0)%Z then Off else On) w.

Section Watch.
Context {M V : Type} `{WH : WatcherHost M V}.

Definition notify_state (w : ScheduleWatcher) : ST M string () :=
  modify (host_NotifyWatcherState (wt_name (sw_base w)) (stateNames (sw_state w))).

(** The watcher after a watch, and what the watch does to the machine. *)
Definition watch (v : machine_view) (w : ScheduleWatcher) : ScheduleWatcher * ST M string () :=
  if negb (ShouldWatch (Some v) (sw_base w)) then (setPreviousState Skipped w, mret tt)
  else if bool_decide (sw_previousState w = sw_state w) then (w, mret tt)
  else
    let w := setPreviousState (sw_state w) w in
    match sw_state w with
    | Off | Unknown =>
        (setTriggered false w, notify_state w;; fire_event (FailureTransition (sw_base w)))
    | On =>
        if p_SkipTriggerOnReenter (sw_properties w) && sw_triggered w then (w, mret tt)
        else (setTriggered true w, notify_state w;; fire_event (SuccessTransition (sw_base w)))
    | Skipped => (w, mret tt)
    end.

(** ** The goroutines *)

Definition set_item (it : scheduleItem) (on : bool) (l : item_lock) (waits ended : nat) : scheduleItem :=
  {| it_spec := it_spec it; it_duration := it_duration it; it_randomize := it_randomize it; it_on := on; it_lock := l;
     it_waits := waits; it_ended := ended |}.

(** [check] takes the lock, sleeps its splay, sends and lets a wait run; the wait ends,
    takes the lock and sends; the counter receives; the watcher watches while its machine
    goes its way. *)
Inductive step : ScheduleWatcher * M → ScheduleWatcher * M → Prop :=
| step_check w m k it : sw_items w !! k = Some it → it_lock it = Free →
    step (w, m) (set_items (<[k := set_item it (it_on it) Starting (it_waits it) (it_ended it)]> (sw_items w)) (sw_ctrq w) w, m)
| step_interrupted w m k it : sw_items w !! k = Some it → it_lock it = Starting →
    step (w, m) (set_items (<[k := set_item it (it_on it) Free (it_waits it) (it_ended it)]> (sw_items w)) (sw_ctrq w) w, m)
| step_start w m k it : sw_items w !! k = Some it → it_lock it = Starting → sw_ctrq w = None →
    step (w, m) (set_items (<[k := set_item it true Free (S (it_waits it)) (it_ended it)]> (sw_items w)) (Some 1%Z) w, m)
| step_expire w m k it n : sw_items w !! k = Some it → it_waits it = S n →
    step (w, m) (set_items (<[k := set_item it (it_on it) (it_lock it) n (S (it_ended it))]> (sw_items w)) (sw_ctrq w) w, m)
| step_end w m k it n : sw_items w !! k = Some it → it_lock it = Free → it_ended it = S n →
    step (w, m) (set_items (<[k := set_item it false Ending (it_waits it) n]> (sw_items w)) (sw_ctrq w) w, m)
| step_ended w m k it : sw_items w !! k = Some it → it_lock it = Ending → sw_ctrq w = None →
    step (w, m) (set_items (<[k := set_item it (it_on it) Free (it_waits it) (it_ended it)]> (sw_items w)) (Some (-1)%Z) w, m)
| step_receive w m i : sw_ctrq w = Some i → step (w, m) (receive_counter i w, m)
| step_watch w m : step (w, m) ((watch (host_view m) w).1, ((watch (host_view m) w).2 m).1)
| step_machine w m m' : step (w, m) (w, m').

(** ** The counter *)

(** The activations of an item that are not counted off yet. *)
Definition activations (it : scheduleItem) : Z :=
  Z.of_nat (it_waits it + it_ended it) + match it_lock it with Ending => 1 | _ => 0 end.
Definition active (l : list scheduleItem) : Z := foldr (λ it n, (activations it + n)%Z) 0%Z l.

Lemma activations_nonneg it : (0 ≤ activations it)%Z.
Proof. unfold activations. destruct (it_lock it); lia. Qed.

Lemma active_cons it l : active (it :: l) = (activations it + active l)%Z.
Proof. done. Qed.

Lemma active_nonneg l : (0 ≤ active l)%Z.
Proof. induction l as [|it l IH]; [done|]. rewrite active_cons. pose proof (activations_nonneg it). lia. Qed.

Lemma active_insert l k it it' : l !! k = Some it →
  active (<[k := it']> l) = (active l - activations it + activations it')%Z.
Proof.
  revert k. induction l as [|x l IH]; intros [|k] Hk; [done|done| |].
  - injection Hk as ->. change (<[0 := it']> (it :: l)) with (it' :: l). rewrite !active_cons. lia.
  - change (<[S k := it']> (x :: l)) with (x :: <[k := it']> l). rewrite !active_cons, (IH k Hk). lia.
Qed.

(** The counter and the channel hold the activations; the switch is on while the counter
    is. *)
Definition counted (w : ScheduleWatcher) : Prop :=
  (0 ≤ sw_ctr w)%Z ∧ (sw_ctr w + default 0 (sw_ctrq w) = active (sw_items w))%Z ∧
  (sw_state w = Unknown ∧ sw_ctr w = 0%Z ∨ sw_state w = if (sw_ctr w =? 0)%Z then Off else On).

Lemma watch_counted v w : counted w → counted (watch v w).1.
Proof. unfold watch. repeat case_match; done. Qed.

Lemma step_counted s s' : step s s' → counted s.1 → counted s'.1.
Proof.
  intros H. destruct H as [w m k it Hk Hl|w m k it Hk Hl|w m k it Hk Hl Hq|w m k it n Hk Hn|w m k it n Hk Hl Hn|w m k it Hk Hl Hq|w m i Hq|w m|w m m'];
    intros Hc; cbn [fst] in *; [destruct Hc as (Hp & Hsum & Hst)..|by apply watch_counted|done].
  1-6: split_and!; [done| |done]; cbn; rewrite (active_insert _ _ _ _ Hk); unfold activations; cbn;
       rewrite ?Hl, ?Hn; try rewrite Hq in Hsum; cbn in Hsum; destruct (it_lock it); try discriminate; lia.
  rewrite Hq in Hsum. change (default 0%Z (Some i)) with i in Hsum. pose proof (active_nonneg (sw_items w)) as Ha.
  unfold counted, receive_counter. rewrite (proj2 (Z.ltb_ge (sw_ctr w + i) 0)) by lia.
  cbn [sw_ctr sw_ctrq sw_items sw_state set_counter]. change (default 0%Z None) with 0%Z.
  split_and!; [lia|lia|by right].
Qed.

(** The switch of a schedule watcher follows its schedules however its goroutines
    interleave: in every reachable state the counter and the message in the channel add up
    to the activations that are not over, the counter never needs the correction below zero
    the code has for it, and when the channel is empty the switch is on exactly while an
    activation is not over, or no message ever came. *)
Theorem schedule_counter (w w' : ScheduleWatcher) (m m' : M) :
  sw_ctr w = 0%Z → sw_ctrq w = None → sw_state w = Unknown → Forall (λ it, activations it = 0%Z) (sw_items w) →
  rtc step (w, m) (w', m') →
  (0 ≤ sw_ctr w' + default 0 (sw_ctrq w'))%Z ∧ (sw_ctr w' + default 0 (sw_ctrq w') = active (sw_items w'))%Z ∧
  (sw_ctrq w' = None → sw_state w' ≠ Unknown → sw_state w' = On ↔ ∃ it, it ∈ sw_items w' ∧ activations it ≠ 0%Z).
Proof.
  intros H0 Hq Hs Hall Hr.
  assert (active (sw_items w) = 0%Z) as Ha.
  { clear -Hall. induction Hall as [|it l Hit _ IH]; [done|]. rewrite active_cons. lia. }
  assert (counted w) as Hc by (split_and!; [lia|rewrite H0, Hq, Ha; done|by left]).
  assert (counted w') as (Hp & Hsum & Hst).
  { clear -Hr Hc. assert (∀ s s', rtc step s s' → counted s.1 → counted s'.1) as Hrtc.
    { induction 1; [done|]. eauto using step_counted. }
    exact (Hrtc _ _ Hr Hc). }
  pose proof (active_nonneg (sw_items w')) as Hn. rewrite Hsum. split_and!; [done|done|].
  intros Hq' Hu. rewrite Hq' in Hsum. change (default 0%Z None) with 0%Z in Hsum. destruct Hst as [[? _]|Hst]; [done|].
  assert ((active (sw_items w') = 0)%Z ↔ ¬ ∃ it, it ∈ sw_items w' ∧ activations it ≠ 0%Z) as Hex.
  { clear. induction (sw_items w') as [|it l IH]; [|rewrite active_cons].
    - split; [|done]. intros _ (it & Hin & _). by apply not_elem_of_nil in Hin.
    - pose proof (activations_nonneg it). pose proof (active_nonneg l). split.
      + intros Hz (it' & Hin & Hit). apply elem_of_cons in Hin as [->|Hin]; [lia|].
        apply IH; [lia|by exists it'].
      + intros Hno. assert (activations it = 0%Z) by (destruct (Z.eq_dec (activations it) 0%Z); [done|]; exfalso; apply Hno; exists it; set_solver).
        assert (active l = 0%Z); [|lia]. apply IH. intros (it' & Hin & Hit). apply Hno. exists it'. set_solver. }
  rewrite Hst. destruct (Z.eqb_spec (sw_ctr w') 0) as [Hz|Hz].
  - split; [done|]. intros He. exfalso. apply Hex in He; [done|lia].
  - split; [|done]. intros _. destruct (decide (Exists (λ it, activations it ≠ 0%Z) (sw_items w'))) as [He|He].
    + by apply Exists_exists in He.
    + exfalso. apply Hz. rewrite <- (Z.add_0_r (sw_ctr w')), Hsum. apply Hex. intros He'. apply He. by apply Exists_exists.
Qed.

End Watch.

(** ** A schedule for the witnesses *)

Definition demo_schedule_properties (duration : Z) : Properties :=
  {| p_Duration := duration; p_StartSplay := 0; p_SkipTriggerOnReenter := false; p_Schedules := ["0 8 * * *"] |}.
Definition demo_item : scheduleItem :=
  {| it_spec := "0 8 * * *"; it_duration := Minute; it_randomize := 0; it_on := false; it_lock := Free; it_waits := 0;
     it_ended := 0 |}.
Definition demo_schedule : ScheduleWatcher :=
  {| sw_base := demo_base "schedule"; sw_properties := demo_schedule_properties Minute; sw_items := [demo_item];
     sw_ctrq := None; sw_ctr := 0; sw_triggered := false; sw_state := Unknown; sw_previousState := Unknown |}.

Definition started_item (l : item_lock) (waits : nat) : scheduleItem := set_item demo_item (Nat.eqb waits 1) l waits 0.
Definition demo_started : ScheduleWatcher := receive_counter 1 (set_items [started_item Free 1] (Some 1%Z) demo_schedule).

Lemma demo_reached : rtc step (demo_schedule, demo_watched "s") (demo_started, demo_watched "s").
Proof.
  eapply rtc_l; [exact (step_check demo_schedule _ 0 demo_item eq_refl eq_refl)|].
  eapply rtc_l; [exact (step_start (set_items [started_item Starting 0] None demo_schedule) _ 0 (started_item Starting 0)
    eq_refl eq_refl eq_refl)|].
  eapply rtc_l; [exact (step_receive (set_items [started_item Free 1] (Some 1%Z) demo_schedule) _ 1 eq_refl)|]. apply rtc_refl.
Defined.

Lemma schedule_counter_witness : sw_state demo_started = On ∧ (sw_ctr demo_started + 0 = active (sw_items demo_started))%Z.
Proof.
  destruct (schedule_counter demo_schedule demo_started (demo_watched "s") (demo_watched "s") eq_refl eq_refl eq_refl
    ltac:(by repeat constructor) demo_reached) as (_ & H & _). split; [reflexivity|exact H].
Defined.

(** The default duration comes after the items are made: theirs is what was given. *)
Example default_duration_misses_items :
  (r ← setProperties (λ _, Ok tt) (Ok (demo_schedule_properties 0)); Ok (p_Duration r.1, map it_duration r.2)) =
  Ok (Minute, [0%Z]).
Proof. reflexivity. Qed.
