(* ===== verification/TimerWatcher.v ===== *)
(** * The timer watcher

    aagent/watchers/timerwatcher/timer.go: a timer that runs while its machine is in a
    state and fires the failure event when it ends.  Every start is a goroutine; they and
    the watcher's own loop are the steps of a relation, one per locked section or
    blocking operation. *)
From S2P Require Import Prelude GoLib Files Util Machine Watchers.

Inductive State := Stopped | Running.

Definition stateNames (s : State) : string := match s with Running => "running" | Stopped => "stopped" end.

Record Properties := { p_Timer : Z; p_Splay : bool }.

(** [rand] is [rand.N]. *)
Definition validate (rand : Z → Z) (p : Properties) : Properties :=
  let t := if (p_Timer p <? Second)%Z then Second else p_Timer p in
  {| p_Timer := if p_Splay p then rand t else t; p_Splay := p_Splay p |}.

(** A goroutine of [timeStart]: not registered yet, in its select, past its timer with
    the event still to be sent, over. *)
Inductive phase := Spawned | Waiting | Firing | Over.
#[export] Instance phase_eq_dec : EqDecision phase.
Proof. solve_decision. Defined.

Record TimerWatcher := {
  tw_base : Watcher;
  tw_properties : Properties;
  tw_state : State;
  (** the goroutine the stored cancel function belongs to *)
  tw_cancelTimer : option nat;
  tw_goroutines : list phase;
  (** those whose context is cancelled *)
  tw_cancelled : gset nat;
  tw_terminated : bool;
}.

Definition NewTimer (rand : Z → Z) (name : string) (states : list string) (required : list ForeignMachineState)
    (failEvent successEvent : string) (ai : Z) (rawprop : res Properties) : res TimerWatcher :=
  if negb (String.eqb successEvent "") then Err "timer watcher does not support success events"
  else
    base ← NewWatcher name "timer" ai states required true failEvent successEvent;
    props ← map_err (λ e, "could not set properties: " +:+ e) (p ← rawprop; Ok (validate rand p));
    Ok {| tw_base := base; tw_properties := props; tw_state := Stopped; tw_cancelTimer := None; tw_goroutines := [];
          tw_cancelled := ∅; tw_terminated := false |}.

Definition update (s : State) (cancel : option nat) (gs : list phase) (c : gset nat) (w : TimerWatcher) : TimerWatcher :=
  {| tw_base := tw_base w; tw_properties := tw_properties w; tw_state := s; tw_cancelTimer := cancel;
     tw_goroutines := gs; tw_cancelled := c; tw_terminated := tw_terminated w |}.

(** [if cancel != nil { cancel() }] *)
Definition cancelled_with (w : TimerWatcher) : gset nat :=
  match tw_cancelTimer w with Some g => {[g]} ∪ tw_cancelled w | None => tw_cancelled w end.

Definition forceTimerStop (w : TimerWatcher) : TimerWatcher :=
  update (tw_state w) (tw_cancelTimer w) (tw_goroutines w) (cancelled_with w) w.

Definition timeStart (w : TimerWatcher) : TimerWatcher :=
  update (tw_state w) (tw_cancelTimer w) (tw_goroutines w ++ [Spawned]) (cancelled_with w) w.

Definition watch (v : machine_view) (w : TimerWatcher) : TimerWatcher :=
  if negb (ShouldWatch (Some v) (tw_base w)) then forceTimerStop w else timeStart w.

Definition Delete (w : TimerWatcher) : TimerWatcher :=
  {| tw_base := tw_base w; tw_properties := tw_properties w; tw_state := tw_state w; tw_cancelTimer := tw_cancelTimer w;
     tw_goroutines := tw_goroutines w; tw_cancelled := tw_cancelled w; tw_terminated := true |}.

(** The locked sections of a goroutine. *)
Definition registered (g : nat) (w : TimerWatcher) : TimerWatcher :=
  update Running (Some g) (<[g := Waiting]> (tw_goroutines w)) (tw_cancelled w) w.
Definition timer_ended (g : nat) (w : TimerWatcher) : TimerWatcher :=
  update Stopped None (<[g := Firing]> (tw_goroutines w)) (cancelled_with w) w.
Definition stopped (g : nat) (w : TimerWatcher) : TimerWatcher :=
  update Stopped None (<[g := Over]> (tw_goroutines w)) (tw_cancelled w) w.

(** What a step is seen to do: a start of the timer, or the event of one that ended. *)
Inductive label := Started | Fired (g : nat) | Silent.

Definition starts (l : list label) : nat := length (omap (λ a, match a with Started => Some tt | _ => None end) l).
Definition fired (l : list label) : list nat := omap (λ a, match a with Fired g => Some g | _ => None end) l.

Section Steps.
Context {M V : Type} `{WH : WatcherHost M V}.

Definition notify (s : State) (w : TimerWatcher) (m : M) : M :=
  host_NotifyWatcherState (wt_name (tw_base w)) (stateNames s) m.

(** A select with several ready cases takes any of them. *)
Inductive step : TimerWatcher * M → label → TimerWatcher * M → Prop :=
| step_watch w m : step (w, m) (if ShouldWatch (Some (host_view m)) (tw_base w) then Started else Silent) (watch (host_view m) w, m)
| step_register w m g : tw_goroutines w !! g = Some Spawned → step (w, m) Silent (registered g w, notify Running (registered g w) m)
| step_timer w m g : tw_goroutines w !! g = Some Waiting → step (w, m) Silent (timer_ended g w, notify Stopped (timer_ended g w) m)
| step_fire w m g : tw_goroutines w !! g = Some Firing →
    step (w, m) (Fired g)
      (update (tw_state w) (tw_cancelTimer w) (<[g := Over]> (tw_goroutines w)) (tw_cancelled w) w,
       (fire_event (FailureTransition (tw_base w)) m).1)
| step_cancelled w m g : tw_goroutines w !! g = Some Waiting → g ∈ tw_cancelled w →
    step (w, m) Silent (stopped g w, notify Stopped (stopped g w) m)
| step_terminated w m g : tw_goroutines w !! g = Some Waiting → tw_terminated w = true →
    step (w, m) Silent (stopped g w, m)
| step_delete w m : step (w, m) Silent (Delete w, m)
| step_machine w m m' : step (w, m) Silent (w, m').

Inductive steps : TimerWatcher * M → list label → TimerWatcher * M → Prop :=
| steps_nil s : steps s [] s
| steps_snoc s l s' a s'' : steps s l s' → step s' a s'' → steps s (l ++ [a]) s''.

(** Every goroutine is a start; those that fired are over; the timer runs while one of
    them waits. *)
Definition accounted (l : list label) (w : TimerWatcher) : Prop :=
  starts l = length (tw_goroutines w) ∧
  NoDup (fired l) ∧ Forall (λ g, tw_goroutines w !! g = Some Over) (fired l) ∧
  (tw_state w = Running → Waiting ∈ tw_goroutines w).

Lemma starts_snoc l a : starts (l ++ [a]) = (starts l + match a with Started => 1 | _ => 0 end)%nat.
Proof. unfold starts. rewrite omap_app, length_app. by destruct a. Qed.
Lemma fired_snoc l a : fired (l ++ [a]) = fired l ++ match a with Fired g => [g] | _ => [] end.
Proof. unfold fired. rewrite omap_app. by destruct a. Qed.

(** Moving a goroutine that is not over. *)
Lemma moved_over (l : list label) (gs : list phase) (g : nat) (p q : phase) : gs !! g = Some p → p ≠ Over →
  Forall (λ g, gs !! g = Some Over) (fired l) → Forall (λ g', <[g := q]> gs !! g' = Some Over) (fired l).
Proof.
  intros Hg Hp Hall. apply (Forall_impl _ _ _ Hall). intros g' Hg'.
  rewrite list_lookup_insert_ne; [done|]. intros ->. congruence.
Qed.

Lemma step_accounted s a s' l : step s a s' → accounted l s.1 → accounted (l ++ [a]) s'.1.
Proof.
  unfold accounted. rewrite starts_snoc, fired_snoc.
  intros Hstep (Hlen & Hnd & Hall & Hrun).
  destruct Hstep as [w m|w m g Hg|w m g Hg|w m g Hg|w m g Hg Hc|w m g Hg Ht|w m|w m m'];
    cbn [fst] in *; rewrite ?app_nil_r, ?Nat.add_0_r.
  - unfold watch. destruct (ShouldWatch _ _); cbn; rewrite ?app_nil_r; split_and!; try done.
    + rewrite length_app. cbn. lia.
    + apply (Forall_impl _ _ _ Hall). intros g Hg. by apply lookup_app_l_Some.
    + intros Hr. apply elem_of_app. left. by apply Hrun.
    + lia.
  - cbn. rewrite length_insert. split_and!; [done|done|by eapply moved_over|].
    intros _. apply list_elem_of_lookup. exists g. apply list_lookup_insert_eq. by apply lookup_lt_Some in Hg.
  - cbn. rewrite length_insert. split_and!; [done|done|by eapply moved_over|done].
  - cbn. rewrite length_insert. split_and!; [done| | |].
    + apply NoDup_app. split_and!; [done| |by apply NoDup_singleton].
      intros g' Hin Hg'. apply list_elem_of_singleton in Hg' as ->. rewrite Forall_forall in Hall.
      apply Hall in Hin. congruence.
    + apply Forall_app. split; [by eapply moved_over|]. constructor; [|constructor].
      apply list_lookup_insert_eq. by apply lookup_lt_Some in Hg.
    + intros Hr. apply Hrun in Hr. apply list_elem_of_lookup in Hr as [g' Hg']. apply list_elem_of_lookup. exists g'.
      rewrite list_lookup_insert_ne; [done|]. intros ->. congruence.
  - cbn. rewrite length_insert. split_and!; [done|done|by eapply moved_over|done].
  - cbn. rewrite length_insert. split_and!; [done|done|by eapply moved_over|done].
  - done.
  - done.
Qed.

(** However the goroutines of a timer watcher interleave, every start of the timer
    fires its event at most once and nothing fires without a start; and the watcher reports
    a running timer only while one of its goroutines waits for a timer. *)
Theorem timer_fires_once (rand : Z → Z) (name : string) (states : list string) (required : list ForeignMachineState)
    (failEvent successEvent : string) (ai : Z) (rawprop : res Properties) (w w' : TimerWatcher) (m m' : M) (l : list label) :
  NewTimer rand name states required failEvent successEvent ai rawprop = Ok w → steps (w, m) l (w', m') →
  NoDup (fired l) ∧ (∀ g, g ∈ fired l → g < starts l) ∧ length (fired l) ≤ starts l ∧
  (tw_state w' = Running → Waiting ∈ tw_goroutines w').
Proof.
  intros Hn Hs.
  assert (accounted [] w) as H0.
  { unfold NewTimer in Hn. destruct (negb _); [done|]. unfold mbind, outcome_bind in Hn.
    destruct (NewWatcher _ _ _ _ _ _ _ _); [|done..]. destruct (map_err _ _); [|done..]. injection Hn as <-.
    split_and!; [done|constructor|constructor|done]. }
  assert (accounted l w') as (Hlen & Hnd & Hall & Hrun).
  { assert (∀ s l s', steps s l s' → accounted [] s.1 → accounted l s'.1) as Hgen.
    { induction 1; [done|]. eauto using step_accounted. }
    exact (Hgen _ _ _ Hs H0). }
  assert (∀ g, g ∈ fired l → g < starts l) as Hlt.
  { intros g Hg. rewrite Forall_forall in Hall. apply Hall, lookup_lt_Some in Hg. by rewrite Hlen. }
  split_and!; [done|done| |done].
  rewrite <- (length_seq (starts l) 0). apply (submseteq_length (fired l)), NoDup_submseteq; [done|].
  intros g Hg. apply elem_of_seq. apply Hlt in Hg. lia.
Qed.

End Steps.

(** ** Timers for the witnesses *)

Definition demo_timer_base : Watcher :=
  {| wt_name := "timer"; wt_wtype := "timer"; wt_announceInterval := 0; wt_statechg := false;
     wt_activeStates := ["on"]; wt_requiredStates := []; wt_succEvent := ""; wt_failEvent := "expired" |}.
Definition demo_timer : TimerWatcher :=
  {| tw_base := demo_timer_base; tw_properties := {| p_Timer := Minute; p_Splay := false |}; tw_state := Stopped;
     tw_cancelTimer := None; tw_goroutines := []; tw_cancelled := ∅; tw_terminated := false |}.

Lemma timer_fires_once_witness : ∃ w m l,
  steps (demo_timer, demo_watched "on") l (w, m) ∧ fired l = [0] ∧ starts l = 1 ∧ dm_events m = ["expired"] ∧
  length (fired l) ≤ starts l.
Proof.
  assert (∃ w m l, steps (demo_timer, demo_watched "on") l (w, m) ∧ fired l = [0] ∧ starts l = 1 ∧ dm_events m = ["expired"])
    as (w & m & l & H & Hf & Hs & He).
  { eexists _, _, _. split; [|split_and!].
    - eapply steps_snoc; [eapply steps_snoc; [eapply steps_snoc; [eapply steps_snoc; [apply steps_nil|]|]|]|].
      + apply step_watch.
      + apply (step_register _ _ 0). reflexivity.
      + apply (step_timer _ _ 0). reflexivity.
      + apply (step_fire _ _ 0). reflexivity.
    - reflexivity.
    - reflexivity.
    - reflexivity. }
  exists w, m, l. split_and!; [done..|].
  exact (proj1 (proj2 (proj2 (timer_fires_once id "timer" ["on"] [] "expired" "" 0 (Ok {| p_Timer := Minute; p_Splay := false |})
    demo_timer w (demo_watched "on") m l eq_refl H)))).
Defined.

(** A goroutine that is told to stop can clear the cancel function of the timer that
    replaced its own. Then the watch that finds the machine in a state the watcher is not
    active in stops nothing, and the timer still fires its event there. *)
Theorem stale_timer_fires : ∃ w w' m',
  steps (demo_timer, demo_watched "on") [Started; Silent; Started; Silent; Silent; Silent] (w, demo_watched "off") ∧
  ShouldWatch (Some (host_view (demo_watched "off"))) (tw_base w) = false ∧
  steps (watch (host_view (demo_watched "off")) w, demo_watched "off") [Silent; Fired 1] (w', m') ∧
  dm_events m' = ["expired"].
Proof.
  eexists _, _, _. split; [|split; [|split]].
  - change [Started; Silent; Started; Silent; Silent; Silent] with
      ((((((([] ++ [Started]) ++ [Silent]) ++ [Started]) ++ [Silent]) ++ [Silent]) ++ [Silent])).
    eapply steps_snoc; [eapply steps_snoc; [eapply steps_snoc; [eapply steps_snoc; [eapply steps_snoc;
      [eapply steps_snoc; [apply steps_nil|]|]|]|]|]|].
    + exact (step_watch demo_timer (demo_watched "on")).
    + apply (step_register _ _ 0). reflexivity.
    + exact (step_watch (registered 0 (watch (host_view (demo_watched "on")) demo_timer)) (demo_watched "on")).
    + apply (step_register _ _ 1). reflexivity.
    + apply (step_cancelled _ _ 0); [reflexivity|]. vm_compute. reflexivity.
    + apply step_machine.
  - reflexivity.
  - change [Silent; Fired 1] with (([] ++ [Silent]) ++ [Fired 1]).
    eapply steps_snoc; [eapply steps_snoc; [apply steps_nil|]|].
    + apply (step_timer _ _ 1). reflexivity.
    + apply (step_fire _ _ 1). reflexivity.
  - reflexivity.
Qed.
