(* ===== verification/Tree.v ===== *)
(** * Directory trees

    Files and directories by their clean absolute path, with the calls of packages os,
    filepath and internal/util that the modelled code makes on them.  Links and
    permissions are left out. *)
From S2P Require Import Prelude GoLib Files.

Inductive node := Dir | File (content : string).
Abbreviation tree := (gmap string node).

(** [util.FileExist], [util.FileIsDir] and [util.FileIsRegular] *)
Definition FileExist (t : tree) (path : string) : bool :=
  negb (String.eqb path "") && bool_decide (is_Some (t !! path)).
Definition FileIsDir (t : tree) (path : string) : bool :=
  match t !! path with Some Dir => negb (String.eqb path "") | _ => false end.
Definition FileIsRegular (t : tree) (path : string) : bool :=
  match t !! path with Some (File _) => negb (String.eqb path "") | _ => false end.

Inductive file_error := ErrNotExist | OtherError (e : string).

Definition error_text (path : string) (e : file_error) : string :=
  match e with
  | ErrNotExist => "open " +:+ path +:+ ": no such file or directory"
  | OtherError e => e
  end.

(** Opening and reading a file. *)
Definition read_file (t : tree) (path : string) : outcome file_error string :=
  match t !! path with
  | Some (File c) => Ok c
  | Some Dir => Err (OtherError ("read " +:+ path +:+ ": is a directory"))
  | None => Err ErrNotExist
  end.

(** A path inside a directory. *)
Definition under (dir path : string) : bool :=
  has_prefix path (if String.eqb dir "/" then "/" else dir +:+ "/").

(** [os.RemoveAll] *)
Definition RemoveAll (path : string) (t : tree) : tree :=
  filter (λ kv, negb (String.eqb kv.1 path || under path kv.1) = true) t.

(** The directories [os.MkdirAll] makes for a clean path. *)
Fixpoint prefixes (dir : string) (elems : list string) : list string :=
  match elems with
  | [] => []
  | e :: rest => let d := path_join [dir; e] in d :: prefixes d rest
  end.

Fixpoint make_dirs (l : list string) (t : tree) : res tree :=
  match l with
  | [] => Ok t
  | d :: rest =>
      match t !! d with
      | Some (File _) => Err ("mkdir " +:+ d +:+ ": not a directory")
      | _ => make_dirs rest (<[d := Dir]> t)
      end
  end.

Definition MkdirAll (path : string) (t : tree) : res tree :=
  make_dirs (prefixes "/" (List.filter (λ e, negb (String.eqb e "")) (split path "/"))) t.

(** [os.WriteFile] *)
Definition WriteFile (path content : string) (t : tree) : res tree :=
  match t !! path, t !! path_dir path with
  | Some Dir, _ => Err ("open " +:+ path +:+ ": is a directory")
  | _, Some Dir => Ok (<[path := File content]> t)
  | _, _ => Err ("open " +:+ path +:+ ": no such file or directory")
  end.

(** Paths in the order [filepath.WalkDir] visits them: element by element. *)
Fixpoint elems_leb (a b : list string) : bool :=
  match a, b with
  | [], _ => true
  | _, [] => false
  | x :: a', y :: b' => if String.eqb x y then elems_leb a' b' else str_leb x y
  end.

Fixpoint insert_path (x : string * node) (l : list (string * node)) : list (string * node) :=
  match l with
  | [] => [x]
  | y :: l' => if elems_leb (split x.1 "/") (split y.1 "/") then x :: l else y :: insert_path x l'
  end.

Definition WalkDir (dir : string) (t : tree) : res (list (string * node)) :=
  match t !! dir with
  | None => Err ("lstat " +:+ dir +:+ ": no such file or directory")
  | Some _ => Ok (foldr insert_path [] (List.filter (λ kv, String.eqb kv.1 dir || under dir kv.1) (map_to_list t)))
  end.

(** The names of the directories in a directory, sorted. *)
Definition ReadDir_dirs (dir : string) (t : tree) : res (list string) :=
  match t !! dir with
  | Some Dir =>
      Ok (sort_strings (omap (λ kv, match kv.2 with
                                    | Dir => if under dir kv.1 && String.eqb (path_dir kv.1) dir then Some (path_base kv.1) else None
                                    | File _ => None
                                    end) (map_to_list t)))
  | _ => Err ("open " +:+ dir +:+ ": no such file or directory")
  end.

(** ** Lemmas *)

Lemma insert_path_elem x y l : x ∈ insert_path y l ↔ x = y ∨ x ∈ l.
Proof. induction l as [|z l IH]; simpl; [set_solver|]. case_match; set_solver. Qed.

Lemma sort_paths_elem x l : x ∈ foldr insert_path [] l ↔ x ∈ l.
Proof. induction l as [|y l IH]; simpl; [done|]. rewrite insert_path_elem. set_solver. Qed.

Lemma WalkDir_elem dir t l p n : WalkDir dir t = Ok l →
  (p, n) ∈ l ↔ t !! p = Some n ∧ (p = dir ∨ under dir p = true).
Proof.
  unfold WalkDir. destruct (t !! dir); [|done]. intros [= <-]. rewrite sort_paths_elem, list_elem_of_In, filter_In.
  rewrite <- list_elem_of_In, elem_of_map_to_list, orb_true_iff, String.eqb_eq. done.
Qed.

Lemma RemoveAll_lookup path t q :
  RemoveAll path t !! q = if String.eqb q path || under path q then None else t !! q.
Proof.
  unfold RemoveAll. destruct (t !! q) as [n|] eqn:E.
  - destruct (_ || _) eqn:Hq.
    + apply map_lookup_filter_None. right. intros n' _. cbn [fst]. by rewrite Hq.
    + apply map_lookup_filter_Some. cbn [fst]. by rewrite Hq.
  - rewrite map_lookup_filter, E. by destruct (_ || _).
Qed.

(** * Paths: lemmas

    Joining a clean directory and a name that never goes up stays in the directory. *)

Lemma append_eq_inv (a b c : string) : a +:+ b = a +:+ c → b = c.
Proof. induction a as [|x a IH]; [done|]. rewrite !append_cons. intros [= H]. by apply IH. Qed.

Lemma has_prefix_spec s p : has_prefix s p = true ↔ ∃ r, s = p +:+ r.
Proof.
  split.
  - revert s. induction p as [|b p IH]; intros s H; [by exists s|]. destruct s as [|a s]; [done|].
    rewrite has_prefix_cons in H. apply andb_true_iff in H as [Hb H]. apply bool_decide_eq_true in Hb as ->.
    destruct (IH s H) as [r ->]. exists r. by rewrite append_cons.
  - intros [r ->]. apply has_prefix_append.
Qed.

Lemma under_spec d q : d ≠ "/" → under d q = true ↔ ∃ r, q = d +:+ "/" +:+ r.
Proof.
  intros Hd. unfold under. rewrite (proj2 (String.eqb_neq d "/") Hd), has_prefix_spec.
  split; intros [r ->]; exists r; by rewrite append_assoc'.
Qed.

(** A path in a directory, or the directory. *)
Definition inside (d q : string) : bool := String.eqb q d || under d q.

Lemma inside_refl d : inside d d = true.
Proof. unfold inside. by rewrite String.eqb_refl. Qed.

Lemma inside_trans a b c : a ≠ "/" → b ≠ "/" → inside a b = true → inside b c = true → inside a c = true.
Proof.
  unfold inside. intros Ha Hb. rewrite !orb_true_iff, !String.eqb_eq, !under_spec by done.
  intros [->|[r ->]] [->|[r' ->]]; [by left|right; by exists r'|right; by exists r|].
  right. exists (r +:+ "/" +:+ r'). by rewrite !append_assoc'.
Qed.

(** ** Elements *)

Lemma str_contains_eq s p : str_contains s p = has_prefix s p || match s with
  | EmptyString => false | String _ s' => str_contains s' p end.
Proof. by destruct s. Qed.

Lemma contains_prefix s p : has_prefix s p = true → str_contains s p = true.
Proof. intros H. by rewrite str_contains_eq, H. Qed.

Lemma contains_cons a s p : str_contains s p = true → str_contains (String a s) p = true.
Proof. intros H. by rewrite str_contains_eq, H, orb_true_r. Qed.

Lemma split_go_cur sep cur s : ∃ y l, split_go sep cur s = (cur +:+ y) :: l ∧ split_go sep "" s = y :: l ∧
  has_prefix s y = true ∧ ∀ x, x ∈ l → str_contains s x = true.
Proof.
  revert cur. induction s as [|a s IH]; intros cur.
  - exists "", []. cbn. rewrite append_nil_r. split_and!; [done..|]. intros x Hx. by apply not_elem_of_nil in Hx.
  - cbn [split_go]. destruct (Ascii.eqb a sep).
    + destruct (IH "") as (y & l & H1 & _ & Hy & Hl). exists "", (y :: l). rewrite append_nil_r, H1.
      split_and!; [done|done|by rewrite has_prefix_nil|]. intros x Hx. apply contains_cons.
      apply elem_of_cons in Hx as [->|Hx]; [by apply contains_prefix|by apply Hl].
    + destruct (IH (cur +:+ String a "")) as (y & l & H1 & H2 & Hy & Hl). exists (String a y), l. rewrite H1.
      destruct (IH (String a "")) as (y' & l' & H1' & H2' & _ & _). rewrite H2 in H2'. injection H2' as <- <-.
      split_and!.
      * by rewrite append_assoc'.
      * change ("" +:+ String a "") with (String a ""). by rewrite H1'.
      * rewrite has_prefix_cons, Hy. by rewrite bool_decide_true.
      * intros x Hx. by apply contains_cons, Hl.
Qed.

Lemma split_elem_contains sep s x : x ∈ split s sep → str_contains s x = true.
Proof.
  unfold split. destruct (split_go_cur sep "" s) as (y & l & H & _ & Hy & Hl). rewrite H.
  intros [->|Hx]%elem_of_cons; [|by apply Hl]. by apply contains_prefix.
Qed.

Lemma split_go_app sep cur a b : split_go sep cur (a +:+ String sep b) = split_go sep cur a ++ split_go sep "" b.
Proof.
  revert cur. induction a as [|x a IH]; intros cur.
  - change ("" +:+ String sep b) with (String sep b). cbn. by rewrite Ascii.eqb_refl.
  - rewrite append_cons. cbn. destruct (Ascii.eqb x sep); [|by rewrite IH]. by rewrite IH.
Qed.

Lemma join_app (a b : list string) sep : a ≠ [] → b ≠ [] → join (a ++ b) sep = join a sep +:+ sep +:+ join b sep.
Proof.
  induction a as [|x a IH]; intros Ha Hb; [done|]. destruct a as [|y a].
  - destruct b as [|z b]; [done|]. done.
  - change (join ((x :: y :: a) ++ b) sep) with (x +:+ sep +:+ join ((y :: a) ++ b) sep).
    rewrite IH by done. change (join (x :: y :: a) sep) with (x +:+ sep +:+ join (y :: a) sep).
    by rewrite !append_assoc'.
Qed.

Lemma clean_steps_grow l st : ".." ∉ l → ∃ new, fold_left (clean_step true) l st = new ++ st.
Proof.
  revert st. induction l as [|x l IH]; intros st Hl; [by exists []|].
  apply not_elem_of_cons in Hl as [Hx Hl]. cbn [fold_left]. destruct (IH (clean_step true st x) Hl) as [new Hn].
  rewrite Hn. unfold clean_step. rewrite (proj2 (String.eqb_neq x "..")) by congruence.
  destruct (_ || _); [by exists new|]. exists (new ++ [x]). by rewrite <- app_assoc.
Qed.

(** A clean absolute directory other than the root. *)
Definition clean_dir (d : string) : Prop := has_prefix d "/" = true ∧ path_clean d = d ∧ d ≠ "/".

Lemma path_join_inside d name : clean_dir d → str_contains name ".." = false → inside d (path_join [d; name]) = true.
Proof.
  intros (Hp & Hc & Hr) Hn. assert (d ≠ "") as Hd by by intros ->.
  unfold path_join. cbn [List.filter]. rewrite (proj2 (String.eqb_neq d "") Hd). cbn [negb].
  destruct (String.eqb_spec name ""); cbn [negb].
  { change (join [d] "/") with d. rewrite Hc. apply inside_refl. }
  change (join [d; name] "/") with (d +:+ "/" +:+ name).
  assert (".." ∉ split name slash) as Hno.
  { intros Hin. apply split_elem_contains in Hin. congruence. }
  unfold path_clean in Hc |- *. rewrite (proj2 (String.eqb_neq d "") Hd), Hp in Hc.
  assert (d +:+ "/" +:+ name ≠ "") as Hne by by destruct d.
  rewrite (proj2 (String.eqb_neq _ "") Hne). assert (has_prefix (d +:+ "/" +:+ name) "/" = true) as Hp'.
  { apply has_prefix_spec in Hp as [r ->]. rewrite append_assoc'. apply has_prefix_append. }
  rewrite Hp'. unfold split in *. change (d +:+ "/" +:+ name) with (d +:+ String slash name). rewrite (split_go_app slash "" d name), fold_left_app.
  set (st := fold_left (clean_step true) (split_go slash "" d) []) in *.
  destruct (clean_steps_grow _ st Hno) as [new Hnew]. rewrite Hnew, rev_app_distr. unfold inside.
  destruct (decide (new = [])) as [->|Hnew'].
  { cbn [rev app]. rewrite app_nil_r, Hc, String.eqb_refl. done. }
  assert (st ≠ []) as Hst by (intros E; rewrite E in Hc; by apply Hr).
  rewrite join_app by (intros E; apply (f_equal (rev (A:=string))) in E; rewrite rev_involutive in E; done).
  apply orb_true_iff. right. apply under_spec; [done|]. exists (join (rev new) "/").
  by rewrite <- append_assoc', Hc.
Qed.

(** ** Paths that are not empty *)

Lemma path_clean_nonempty p : path_clean p ≠ "".
Proof.
  unfold path_clean. destruct (String.eqb p ""); [done|]. destruct (has_prefix p "/"); [done|].
  destruct (String.eqb_spec (join (rev (fold_left (clean_step false) (split p slash) [])) "/") ""); done.
Qed.

Lemma path_join_nonempty l x : x ∈ l → x ≠ "" → path_join l ≠ "".
Proof.
  intros Hx Hne. unfold path_join. destruct (List.filter _ l) eqn:Hf; [|apply path_clean_nonempty].
  exfalso. assert (In x (List.filter (λ e, negb (String.eqb e "")) l)) as Hin.
  { apply List.filter_In. split; [by apply list_elem_of_In|]. by rewrite (proj2 (String.eqb_neq _ _) Hne). }
  by rewrite Hf in Hin.
Qed.

(** ** The last element of a path *)

(** A name that [filepath.Clean] keeps. *)
Definition simple_name (a : string) : Prop := (a ∉ [""; "."; ".."]) ∧ (split a slash = [a]).

Lemma split_append a b : split (a +:+ "/" +:+ b) slash = split a slash ++ split b slash.
Proof. apply (split_go_app slash "" a b). Qed.

Lemma split_join_last l a : split a slash = [a] → ∃ pre, split (join (l ++ [a]) "/") slash = pre ++ [a].
Proof.
  intros Ha. destruct l as [|x l]; [by exists []|].
  rewrite join_app by done. change (join [a] "/") with a. rewrite split_append, Ha. by eexists.
Qed.

Lemma clean_last p pre a : simple_name a → split p slash = pre ++ [a] →
  ∃ pre', split (path_clean p) slash = pre' ++ [a].
Proof.
  intros [Ha Hs] Hp. unfold path_clean. destruct (String.eqb_spec p "") as [->|_].
  { exfalso. apply Ha. apply (app_inj_tail [] pre "" a) in Hp as [_ <-]. set_solver. }
  rewrite Hp, fold_left_app. cbn [fold_left].
  assert (∀ r st, clean_step r st a = a :: st) as Hstep.
  { intros r st. unfold clean_step. by rewrite !(proj2 (String.eqb_neq a _)) by (intros ->; apply Ha; set_solver). }
  rewrite !Hstep.
  destruct (has_prefix p "/").
  - cbn [rev]. destruct (split_join_last (rev (fold_left (clean_step true) pre [])) a Hs) as [pre' Hpre].
    exists ("" :: pre'). change ("/" +:+ ?x) with ("" +:+ "/" +:+ x). rewrite (split_append ""), Hpre. done.
  - cbn [rev]. destruct (split_join_last (rev (fold_left (clean_step false) pre [])) a Hs) as [pre' Hpre].
    destruct (String.eqb_spec (join (rev (fold_left (clean_step false) pre []) ++ [a]) "/") "") as [He|_]; [|by exists pre'].
    exfalso. rewrite He in Hpre. apply Ha. apply (app_inj_tail [] pre' "" a) in Hpre as [_ <-]. set_solver.
Qed.

Lemma join_last l a : simple_name a → ∃ pre, split (path_join (l ++ [a])) slash = pre ++ [a].
Proof.
  intros Ha. unfold path_join. rewrite List.filter_app. cbn [List.filter].
  rewrite (proj2 (String.eqb_neq a "")) by (intros ->; apply (proj1 Ha); set_solver). cbn [negb].
  destruct (split_join_last (List.filter (λ e, negb (String.eqb e "")) l) a (proj2 Ha)) as [pre Hpre].
  destruct (_ ++ [a]) eqn:E; [by destruct (List.filter _ l)|]. by eapply clean_last.
Qed.

(** Paths that end with other names are others. *)
Lemma last_names l1 l2 a b : simple_name a → simple_name b → a ≠ b → path_join (l1 ++ [a]) ≠ path_join (l2 ++ [b]).
Proof.
  intros Ha Hb Hab Heq. destruct (join_last l1 a Ha) as [p1 H1], (join_last l2 b Hb) as [p2 H2].
  rewrite Heq, H2 in H1. by apply app_inj_tail in H1 as [_ ?].
Qed.

(** ** Children of clean directories *)

Lemma clean_dir_split d : clean_dir d →
  d ≠ "" ∧ fold_left (clean_step true) (split d slash) [] ≠ [] ∧
  "/" +:+ join (rev (fold_left (clean_step true) (split d slash) [])) "/" = d.
Proof.
  intros (Hp & Hc & Hr). assert (d ≠ "") as Hd by by intros ->. unfold path_clean in Hc.
  rewrite (proj2 (String.eqb_neq d "") Hd), Hp in Hc. split_and!; [done| |done].
  intros E. rewrite E in Hc. by apply Hr.
Qed.

Lemma absolute_append a b : has_prefix a "/" = true → has_prefix (a +:+ b) "/" = true.
Proof. intros [r ->]%has_prefix_spec. rewrite append_assoc'. apply has_prefix_append. Qed.

Lemma simple_step r a st : simple_name a → clean_step r st a = a :: st.
Proof.
  intros [Ha _]. unfold clean_step. by rewrite !(proj2 (String.eqb_neq a _)) by (intros ->; apply Ha; set_solver).
Qed.

Lemma clean_append d b : clean_dir d → path_clean (d +:+ "/" +:+ b) =
  "/" +:+ join (rev (fold_left (clean_step true) (split b slash) (fold_left (clean_step true) (split d slash) []))) "/".
Proof.
  intros Hd. destruct (clean_dir_split d Hd) as (Hne & _ & _). unfold path_clean.
  rewrite (proj2 (String.eqb_neq _ "")) by by destruct d. rewrite absolute_append by apply Hd.
  by rewrite split_append, fold_left_app.
Qed.

Lemma clean_child d a : clean_dir d → simple_name a → path_clean (d +:+ "/" +:+ a) = d +:+ "/" +:+ a.
Proof.
  intros Hd Ha. destruct (clean_dir_split d Hd) as (Hne & Hst & Hj). rewrite clean_append by done.
  rewrite (proj2 Ha). cbn [fold_left]. rewrite simple_step by done. cbn [rev]. rewrite join_app; [|by intros E%(f_equal (rev (A:=string)));
    rewrite rev_involutive in E|done]. by rewrite <- append_assoc', Hj.
Qed.

Lemma child_clean d a : clean_dir d → simple_name a → clean_dir (d +:+ "/" +:+ a).
Proof.
  intros Hd Ha. split_and!; [apply absolute_append, Hd|by apply clean_child|].
  intros E. apply (f_equal (λ s, split s slash)) in E. rewrite split_append, (proj2 Ha) in E.
  change (split "/" slash) with ([""] ++ [""]) in E. apply app_inj_tail in E as [_ ->]. apply (proj1 Ha). set_solver.
Qed.

Lemma join_child d a : clean_dir d → simple_name a → path_join [d; a] = d +:+ "/" +:+ a.
Proof.
  intros Hd Ha. unfold path_join. cbn [List.filter]. rewrite (proj2 (String.eqb_neq d "")) by apply (clean_dir_split d Hd).
  rewrite (proj2 (String.eqb_neq a "")) by (intros ->; apply (proj1 Ha); set_solver). cbn [negb].
  by apply clean_child.
Qed.

Lemma join_grandchild d a b : clean_dir d → simple_name a → simple_name b →
  path_join [d; a; b] = d +:+ "/" +:+ a +:+ "/" +:+ b.
Proof.
  intros Hd Ha Hb. unfold path_join. cbn [List.filter]. rewrite (proj2 (String.eqb_neq d "")) by apply (clean_dir_split d Hd).
  rewrite (proj2 (String.eqb_neq a "")) by (intros ->; apply (proj1 Ha); set_solver).
  rewrite (proj2 (String.eqb_neq b "")) by (intros ->; apply (proj1 Hb); set_solver). cbn [negb].
  change (join [d; a; b] "/") with (d +:+ "/" +:+ a +:+ "/" +:+ b).
  pose proof (clean_child _ b (child_clean d a Hd Ha) Hb) as H. by rewrite !append_assoc' in H.
Qed.

Abbreviation bytes := String.list_ascii_of_string.
Abbreviation of_bytes := String.string_of_list_ascii.

Lemma bytes_append a b : bytes (a +:+ b) = bytes a ++ bytes b.
Proof. induction a as [|x a IH]; [done|]. rewrite append_cons. cbn. by rewrite IH. Qed.

Lemma of_bytes_app l1 l2 : of_bytes (l1 ++ l2) = of_bytes l1 +:+ of_bytes l2.
Proof. induction l1 as [|x l1 IH]; [done|]. cbn. by rewrite IH, append_cons. Qed.

Lemma trim_left_bytes f l1 x l2 : Forall (λ c, f c = true) l1 → f x = false →
  trim_left f (of_bytes (l1 ++ x :: l2)) = of_bytes (x :: l2).
Proof. intros Hl Hx. induction Hl as [|c l1 Hc _ IH]; cbn; [by rewrite Hx|by rewrite Hc]. Qed.

Lemma split_go_length sep cur s : Forall (λ c, c ≠ sep) (bytes s) ∨ 2 ≤ length (split_go sep cur s).
Proof.
  revert cur. induction s as [|a s IH]; intros cur; [left; constructor|]. cbn [split_go].
  destruct (Ascii.eqb_spec a sep) as [->|Hne].
  - right. destruct (split_go_cur sep "" s) as (y & l & H & _). rewrite H. cbn. lia.
  - destruct (IH (cur +:+ String a "")) as [H|H]; [left; by constructor|by right].
Qed.

Lemma simple_no_slash a : simple_name a → Forall (λ c, c ≠ slash) (bytes a).
Proof.
  intros [_ Ha]. destruct (split_go_length slash "" a) as [H|H]; [done|]. unfold split in Ha. rewrite Ha in H. cbn in H. lia.
Qed.

Lemma dir_child d a : clean_dir d → simple_name a → path_dir (d +:+ "/" +:+ a) = d.
Proof.
  intros Hd Ha. unfold path_dir. unfold rev_string at 2. rewrite !bytes_append, !rev_app_distr. cbn [bytes rev app].
  rewrite <- app_assoc. cbn [app]. rewrite trim_left_bytes; [|apply Forall_rev|done].
  - unfold rev_string. rewrite String.list_ascii_of_string_of_list_ascii. cbn [rev]. rewrite rev_involutive, of_bytes_app.
    rewrite String.string_of_list_ascii_of_string. pose proof (clean_append d "" Hd) as Hc. change ("/" +:+ "") with (of_bytes [slash]) in Hc.
    change (path_clean (d +:+ of_bytes [slash]) = d). rewrite Hc. by apply clean_dir_split.
  - eapply Forall_impl; [by apply simple_no_slash|]. intros c Hc. by rewrite (proj2 (Ascii.eqb_neq _ _) Hc).
Qed.

Lemma abs_clean d : clean_dir d → path_join ["/"; d] = d.
Proof.
  intros Hd. destruct (clean_dir_split d Hd) as (Hne & _ & Hj). unfold path_join. cbn [List.filter].
  rewrite (proj2 (String.eqb_neq d "") Hne). cbn [negb String.eqb].
  change (join ["/"; d] "/") with ("/" +:+ "/" +:+ d). unfold path_clean.
  change (has_prefix ("/" +:+ "/" +:+ d) "/") with true. cbn [String.eqb].
  rewrite split_append. change (split "/" slash) with [""; ""]. done.
Qed.

(** * Changing a directory tree

    The calls of package os that change files, as operations on a tree some of whose paths
    cannot be changed.  The working directory is the root. *)

Definition abs_path (p : string) : string := path_join ["/"; p].

Definition with_err {W A} (f : string → string) (m : ST W string A) : ST W string A := λ w,
  let '(w', o) := m w in (w', map_err f o).

(** An operation on the tree of a larger state. *)
Definition with_tree {W A} (get : W → tree) (set : tree → W → W) (m : ST tree string A) : ST W string A := λ w,
  let '(t, o) := m (get w) in (set t w, o).

Lemma abs_path_nonempty p : abs_path p ≠ "".
Proof. apply (path_join_nonempty _ "/"); [set_solver|done]. Qed.

Lemma WriteFile_ok path content t t' : WriteFile path content t = Ok t' →
  t' = <[path := File content]> t ∧ t !! path ≠ Some Dir ∧ t !! path_dir path = Some Dir.
Proof.
  unfold WriteFile. destruct (t !! path) as [[|c]|] eqn:Hp, (t !! path_dir path) as [[|c']|] eqn:Hd; intros [= <-]; done.
Qed.

Lemma FileExist_abs t p : FileExist t (abs_path p) = bool_decide (is_Some (t !! abs_path p)).
Proof. unfold FileExist. by rewrite (proj2 (String.eqb_neq _ _) (abs_path_nonempty _)). Qed.

Section Disk.
(** Paths that cannot be made, written or removed. *)
Variable denied : string → bool.

Abbreviation D A := (ST tree string A).

Definition change (path : string) (f : tree → res tree) : D () := λ t,
  if denied path then (t, Err ("open " +:+ path +:+ ": permission denied"))
  else match f t with
       | Ok t' => (t', Ok tt)
       | Err e => (t, Err e)
       | Panic p => (t, Panic p)
       end.

Definition os_WriteFile (path content : string) : D () := change (abs_path path) (WriteFile (abs_path path) content).

Definition os_MkdirAll (path : string) : D () := change (abs_path path) (MkdirAll (abs_path path)).

Definition os_Mkdir (path : string) : D () :=
  change (abs_path path) (λ t, match t !! abs_path path, t !! path_dir (abs_path path) with
                               | Some _, _ => Err ("mkdir " +:+ path +:+ ": file exists")
                               | None, Some Dir => Ok (<[abs_path path := Dir]> t)
                               | None, _ => Err ("mkdir " +:+ path +:+ ": no such file or directory")
                               end).

Definition os_Remove (path : string) : D () :=
  change (abs_path path) (λ t, match t !! abs_path path with
                               | Some (File _) => Ok (delete (abs_path path) t)
                               | Some Dir =>
                                   if existsb (λ kv, under (abs_path path) kv.1) (map_to_list t) then Err "directory not empty"
                                   else Ok (delete (abs_path path) t)
                               | None => Err "no such file or directory"
                               end).

(** What cannot be removed stays, with the directories it is in. *)
Definition os_RemoveAll (path : string) : D () := λ t,
  let root := abs_path path in
  let stays q := existsb (λ kv, denied kv.1 && inside root kv.1 && inside q kv.1) (map_to_list t) in
  (filter (λ kv, negb (inside root kv.1) || stays kv.1 = true) t, if stays root then Err "permission denied" else Ok tt).

(** [os.CreateTemp]; the name is one that was free. *)
Definition os_CreateTemp (path : string) : D () :=
  change (abs_path path) (λ t, if FileExist t (abs_path path) then Err ("open " +:+ path +:+ ": file exists")
                               else WriteFile (abs_path path) "" t).

(** [os.Rename] of a file. *)
Definition os_Rename (old new : string) : D () :=
  change (abs_path new) (λ t, match t !! abs_path old, t !! abs_path new, t !! path_dir (abs_path new) with
                              | Some n, (None | Some (File _)), Some Dir => Ok (<[abs_path new := n]> (delete (abs_path old) t))
                              | Some _, Some Dir, _ => Err "file exists"
                              | _, _, _ => Err "no such file or directory"
                              end).

Definition os_ReadFile (path : string) : D string := λ t, (t, map_err (error_text path) (read_file t (abs_path path))).

Definition exists_file (path : string) : D bool := gets (λ t, FileExist t (abs_path path)).

(** ** Lemmas *)

Lemma change_spec path f t t' o : change path f t = (t', o) →
  f t = Ok t' ∧ o = Ok tt ∧ denied path = false ∨ t' = t ∧ is_ok o = false.
Proof.
  unfold change. destruct (denied path) eqn:Hd; [intros [= <- <-]; by right|].
  destruct (f t) as [t1|e|p]; intros [= <- <-]; [by left|by right..].
Qed.

Lemma write_spec path content t t' o : os_WriteFile path content t = (t', o) →
  o = Ok tt ∧ t' = <[abs_path path := File content]> t ∨ t' = t ∧ is_ok o = false.
Proof. intros [(H & -> & _)|?]%change_spec; [left|by right]. apply WriteFile_ok in H as (-> & _). done. Qed.

Lemma create_spec path t t' o : os_CreateTemp path t = (t', o) →
  t' = t ∧ is_ok o = false ∨
  o = Ok tt ∧ denied (abs_path path) = false ∧ t !! abs_path path = None ∧ t' = <[abs_path path := File ""]> t ∧
    t !! path_dir (abs_path path) = Some Dir.
Proof.
  intros [(Hf & -> & Hd)|?]%change_spec; [right|by left]. cbv beta in Hf. rewrite FileExist_abs in Hf.
  destruct (t !! abs_path path) eqn:He; [done|]. rewrite bool_decide_false in Hf by by intros []. 
  apply WriteFile_ok in Hf as (-> & _ & Hp). done.
Qed.

(** Writing a file that was just made. *)
Lemma rewrite_tmp path a b t : denied (abs_path path) = false → t !! abs_path path = None →
  t !! path_dir (abs_path path) = Some Dir →
  os_WriteFile path b (<[abs_path path := File a]> t) = (<[abs_path path := File b]> t, Ok tt).
Proof.
  intros Ha Hn Hd. unfold os_WriteFile, change. rewrite Ha. unfold WriteFile.
  rewrite lookup_insert_eq, lookup_insert_ne, Hd by congruence. by rewrite insert_insert_eq.
Qed.

(** A temporary file is gone, whatever was written to it. *)
Lemma remove_tmp path c t : denied (abs_path path) = false → t !! abs_path path = None →
  (os_Remove path (<[abs_path path := File c]> t)).1 = t.
Proof. intros Hd Hn. unfold os_Remove, change. rewrite Hd, lookup_insert_eq. cbn [fst]. by rewrite delete_insert_id. Qed.

Lemma remove_absent path t : t !! abs_path path = None → (os_Remove path t).1 = t.
Proof. intros Hn. unfold os_Remove, change. destruct (denied _); [done|]. by rewrite Hn. Qed.

Lemma rename_spec old new t t' o c : t !! abs_path old = Some (File c) →
  os_Rename old new t = (t', o) →
  t' = t ∧ is_ok o = false ∨
  o = Ok tt ∧ t !! abs_path new ≠ Some Dir ∧ t' = <[abs_path new := File c]> (delete (abs_path old) t).
Proof.
  intros Hc [(Hf & -> & _)|?]%change_spec; [right|by left]. cbv beta in Hf. rewrite Hc in Hf.
  destruct (t !! abs_path new) as [[|]|], (t !! path_dir (abs_path new)) as [[|]|]; try done; by injection Hf as <-.
Qed.

End Disk.

(** ** Directories that stay *)

Definition same_dirs (t t' : tree) : Prop := ∀ q, t !! q = Some Dir ↔ t' !! q = Some Dir.

Lemma same_dirs_refl t : same_dirs t t.
Proof. done. Qed.

Lemma same_dirs_trans t1 t2 t3 : same_dirs t1 t2 → same_dirs t2 t3 → same_dirs t1 t3.
Proof. intros H1 H2 q. by rewrite (H1 q), (H2 q). Qed.

Lemma insert_same_dirs path c t : t !! path ≠ Some Dir → same_dirs t (<[path := File c]> t).
Proof.
  intros Hn q. destruct (decide (path = q)) as [<-|Hne].
  - rewrite lookup_insert_eq. by split.
  - by rewrite lookup_insert_ne.
Qed.

Lemma delete_same_dirs path t : t !! path ≠ Some Dir → same_dirs t (delete path t).
Proof.
  intros Hn q. destruct (decide (path = q)) as [<-|Hne].
  - rewrite lookup_delete_eq. by split.
  - by rewrite lookup_delete_ne.
Qed.

#[export] Hint Resolve same_dirs_refl insert_same_dirs delete_same_dirs : gochoria.

Lemma write_same_dirs denied path c t t' o : os_WriteFile denied path c t = (t', o) → same_dirs t t'.
Proof.
  intros [(H & -> & _)|[-> _]]%change_spec; [|done]. apply WriteFile_ok in H as (-> & Hn & _). by apply insert_same_dirs.
Qed.
