(* ===== verification/Sha256Sums.v ===== *)
(** * Checksums of directories

    internal/util/sha256sum.go: the sums of the files of a directory and their
    verification. *)
From S2P Require Import Prelude GoLib Regex Files Tree.

(** [hex.EncodeToString] of the SHA-256 hash. *)
Class Sha256 := { sha256_hex : string → string }.

(** It is 64 hexadecimal digits. *)
Definition is_sum_char (c : ascii) : bool :=
  let n := nat_of_ascii c in ((48 <=? n)%nat && (n <=? 57)%nat) || ((97 <=? n)%nat && (n <=? 122)%nat).
Class Sha256Laws `{Sha256} := {
  sha256_chars : ∀ s, Forall (λ c, is_sum_char c = true) (String.list_ascii_of_string (sha256_hex s));
  sha256_length : ∀ s, String.length (sha256_hex s) = 64;
}.

Section Sums.
Context `{SH : Sha256}.

Definition Sha256HashFile (t : tree) (path : string) : outcome file_error string :=
  c ← read_file t path; Ok (sha256_hex c).

Definition Sha256HashBytes (c : string) : string := sha256_hex c.

Definition FileHasSha256Sum (t : tree) (path sum : string) : outcome file_error (bool * string) :=
  s ← Sha256HashFile t path; Ok (String.eqb s sum, s).

(** The name of a file relative to the directory. *)
Definition relative (dir path : string) : string :=
  trim_prefix (if String.eqb dir "." then path else trim_prefix path dir) "/".

Definition sum_line (dir : string) (path content : string) : string :=
  sha256_hex content +:+ "  " +:+ relative dir path +:+ String newline_char "".

Definition sums_of (dir : string) (l : list (string * node)) : string :=
  foldr (λ kv acc, match kv.2 with File c => sum_line dir kv.1 c +:+ acc | Dir => acc end) "" l.

Definition checksum_error (e : string) : string := "could not checksum file: " +:+ e.

Definition Sha256ChecksumDir (t : tree) (dir : string) : res string :=
  l ← map_err checksum_error (WalkDir dir t); Ok (sums_of dir l).

(** The paths it skipped are collected and never returned. *)
Definition Sha256ChecksumDirWithExclude `{Regexp} (t : tree) (dir exclude : string) : res (string * list string) :=
  let pats := if String.eqb exclude "" then [] else split exclude "," in
  match List.find (λ p, match regexp_match p "" with None => true | _ => false end) pats with
  | Some p => Err ("error parsing regexp: " +:+ p)
  | None =>
      l ← map_err checksum_error (WalkDir dir t);
      Ok (sums_of dir (List.filter (λ kv, negb (existsb (λ p, MatchString p kv.1) pats)) l), [])
  end.

(** ** Verification *)

Definition sumsMatcherRe : re :=
  Seq Bol (Seq (Group 1 (Plus true (Chr is_sum_char)))
    (Seq (Plus true space_char)
      (Seq (Group 2 (Seq (Chr (λ c, negb (is_re_space c))) (Plus true any_char))) Eol))).

(** A line: skipped, or whether its file has its sum. *)
Definition verify_line (t : tree) (sumsFile dir line : string) : outcome (option string) (option bool) :=
  if Nat.eqb (String.length line) 0 then Ok None
  else
    match re_search sumsMatcherRe line with
    | None => Err None
    | Some m =>
        if String.eqb (submatch m 2) sumsFile then Ok None
        else
          match FileHasSha256Sum t (path_join [dir; submatch m 2]) (submatch m 1) with
          | Ok (ok, _) => Ok (Some ok)
          | Err ErrNotExist => Ok (Some false)
          | Err (OtherError e) => Err (Some e)
          | Panic p => Panic p
          end
    end.

Fixpoint verify_lines (t : tree) (sumsFile dir : string) (lc : Z) (failed : bool) (lines : list string) : res bool :=
  match lines with
  | [] => Ok failed
  | line :: rest =>
      match verify_line t sumsFile dir line with
      | Ok None => verify_lines t sumsFile dir (lc + 1) failed rest
      | Ok (Some ok) => verify_lines t sumsFile dir (lc + 1) (if ok then failed else true) rest
      | Err None => Err ("invalid sums file: malformed line " +:+ itoa lc)
      | Err (Some e) => Err (checksum_error e)
      | Panic p => Panic p
      end
  end.

(** [abs_dir] is the directory of the absolute path of the file. *)
Definition Sha256VerifyDir (t : tree) (sumsFile dir abs_dir : string) : res bool :=
  let dir := if String.eqb dir "" then abs_dir else dir in
  content ← map_err (λ e, checksum_error (error_text sumsFile e)) (read_file t sumsFile);
  let '(lines, serr) := scan_lines content in
  failed ← verify_lines t sumsFile dir 1 false lines;
  match serr with
  | None => Ok (negb failed)
  | Some e => Err e
  end.

End Sums.

(** ** Matching a line *)

Lemma mt_set f a p s c k : mt (Chr f) p (String a s) c k = if f a then k (S p) s c else None.
Proof. done. Qed.

Lemma star_greedy f k x s r : Forall (λ c, f c = true) (String.list_ascii_of_string x) →
  (∀ a u, s = String a u → f a = false) →
  ∀ p fuel c, (String.length x ≤ fuel)%nat → k (p + String.length x)%nat s c = Some r →
  star_loop true (mt (Chr f)) k fuel p (x +:+ s) c = Some r.
Proof.
  intros Hx Hs. induction x as [|a x IH]; intros p fuel c Hf Hk.
  - change ("" +:+ s) with s. simpl in Hk. rewrite Nat.add_0_r in Hk. destruct fuel as [|fuel]; [done|].
    rewrite star_loop_S. cbv zeta. destruct s as [|b s]; [by cbn|]. by rewrite mt_set, (Hs b s eq_refl).
  - cbn in Hx. apply Forall_cons in Hx as [Ha Hx]. destruct fuel as [|fuel]; [simpl in Hf; lia|].
    rewrite append_cons, star_loop_S. cbv zeta. rewrite mt_set, Ha, (proj2 (Nat.eqb_neq (S p) p)) by lia.
    rewrite (IH Hx (S p) fuel c); [done|simpl in Hf; lia|]. simpl in Hk. by rewrite Nat.add_succ_r in Hk.
Qed.

Lemma plus_greedy f k x s r p c : x ≠ "" → Forall (λ c, f c = true) (String.list_ascii_of_string x) →
  (∀ a u, s = String a u → f a = false) →
  k (p + String.length x)%nat s c = Some r → mt (Plus true (Chr f)) p (x +:+ s) c k = Some r.
Proof.
  intros Hne Hx Hs Hk. destruct x as [|a x]; [done|]. cbn in Hx. apply Forall_cons in Hx as [Ha Hx].
  unfold Plus. rewrite mt_seq, append_cons, mt_set, Ha, mt_star. apply star_greedy; [done|done|rewrite length_append; lia|].
  simpl in Hk. by rewrite Nat.add_succ_r in Hk.
Qed.

Lemma plus_end f k x r p c : x ≠ "" → Forall (λ c, f c = true) (String.list_ascii_of_string x) →
  k (p + String.length x)%nat "" c = Some r → mt (Plus true (Chr f)) p x c k = Some r.
Proof. intros Hne Hx Hk. rewrite <- (append_nil_r x). by apply plus_greedy. Qed.

(** A name of the sums file: at least two bytes, none of them a line break, the first no
    white space. *)
Definition sum_name (s : string) : Prop :=
  ∃ a b r, s = String a (String b r) ∧ is_re_space a = false ∧
    Forall (λ c, negb (Ascii.eqb c newline) = true) (String.list_ascii_of_string (String b r)).

Lemma sums_match sum name : sum ≠ "" → Forall (λ c, is_sum_char c = true) (String.list_ascii_of_string sum) →
  sum_name name → ∃ m, re_search sumsMatcherRe (sum +:+ "  " +:+ name) = Some m ∧ submatch m 1 = sum ∧ submatch m 2 = name.
Proof.
  intros Hne Hsum (a & b & r & -> & Ha & Hn). exists [(2, String a (String b r)); (1, sum)]. split; [|done].
  unfold sumsMatcherRe. rewrite re_search_bol, mt_seq, mt_group.
  apply plus_greedy; [done|done|by intros ? ? [= <- _]|]. cbn [Nat.add]. rewrite Nat.sub_0_r, take_bytes_append, mt_seq.
  apply plus_greedy; [done|by repeat constructor| |].
  { intros a' u [= <- _]. done. }
  rewrite mt_seq, mt_group, mt_seq, mt_set, Ha. cbn [negb].
  apply plus_end; [done|done|]. cbn [mt accept]. do 3 f_equal.
  replace (_ - _)%nat with (String.length (String a (String b r))) by (cbn [String.length]; lia).
  apply take_bytes_all.
Qed.

(** * Checksums of directories: properties

    The sums of a directory verify exactly while none of its files changed. *)

(** ** Lines *)

Lemma split_go_line sep x r cur : no_byte sep x →
  split_go sep cur (x +:+ String sep r) = (cur +:+ x) :: split_go sep "" r.
Proof.
  revert cur. induction x as [|a x IH]; intros cur Hn.
  - change ("" +:+ String sep r) with (String sep r). cbn. by rewrite Ascii.eqb_refl, append_nil_r.
  - apply no_byte_cons in Hn as [Ha Hn]. rewrite append_cons. cbn. rewrite (proj2 (Ascii.eqb_neq a sep)) by congruence.
    by rewrite IH, append_assoc'.
Qed.

Definition unlines (ls : list string) : string := foldr (λ x acc, x +:+ String newline_char acc) "" ls.

Lemma split_unlines ls : Forall (no_byte newline_char) ls → split (unlines ls) newline_char = ls ++ [""].
Proof.
  induction 1 as [|x ls Hx _ IH]; [done|]. cbn [unlines foldr]. unfold split. rewrite split_go_line by done.
  change (x :: split (unlines ls) newline_char = (x :: ls) ++ [""]). by rewrite IH.
Qed.

Lemma raw_lines_unlines ls : Forall (no_byte newline_char) ls → raw_lines (unlines ls) = ls.
Proof.
  intros H. unfold raw_lines. rewrite split_unlines, List.last_last by done. cbn.
  by rewrite List.removelast_last.
Qed.

(** A line of the file: short enough and with no carriage return to lose. *)
Definition plain_line (x : string) : Prop := no_byte newline_char x ∧ too_long x = false ∧ drop_cr x = x.

Lemma scan_unlines ls : Forall plain_line ls → scan_lines (unlines ls) = (ls, None).
Proof.
  intros H. unfold scan_lines. rewrite raw_lines_unlines by (apply (Forall_impl _ _ _ H); by intros ? []).
  induction H as [|x ls (_ & Hl & Hd) _ IH]; [done|]. cbn. by rewrite Hl, IH, Hd.
Qed.

Section Sums.
Context `{SL : Sha256Laws}.

(** The regular files among the entries of a directory. *)
Definition files_of (l : list (string * node)) : list (string * string) :=
  omap (λ kv, match kv.2 with File c => Some (kv.1, c) | Dir => None end) l.

Definition file_line (dir : string) (pc : string * string) : string :=
  sha256_hex pc.2 +:+ "  " +:+ relative dir pc.1.

Lemma sums_of_lines dir l : sums_of dir l = unlines (map (file_line dir) (files_of l)).
Proof.
  induction l as [|[p [|c]] l IH]; [done|exact IH|].
  change (sums_of dir ((p, File c) :: l)) with (sum_line dir p c +:+ sums_of dir l). rewrite IH.
  change (files_of ((p, File c) :: l)) with ((p, c) :: files_of l). cbn [map unlines foldr].
  unfold sum_line, file_line. cbn [fst snd]. by rewrite !append_assoc'.
Qed.

(** A file whose name the sums file can carry. *)
Definition sums_file_entry (dir sumsFile : string) (pc : string * string) : Prop :=
  sum_name (relative dir pc.1) ∧ path_join [dir; relative dir pc.1] = pc.1 ∧ relative dir pc.1 ≠ sumsFile ∧
  plain_line (file_line dir pc).

(** A file that still has the content its sum was made of. *)
Definition unchanged (t : tree) (pc : string * string) : bool :=
  match t !! pc.1 with Some (File c) => String.eqb (sha256_hex c) (sha256_hex pc.2) | _ => false end.

Lemma verify_file_line t sumsFile dir pc : sums_file_entry dir sumsFile pc → t !! pc.1 ≠ Some Dir →
  verify_line t sumsFile dir (file_line dir pc) = Ok (Some (unchanged t pc)).
Proof.
  destruct pc as [p c]. intros (Hn & Hj & Hs & _) Hd. cbn [fst snd] in *.
  assert (sha256_hex c ≠ "") as Hne by (intros E; pose proof (sha256_length c) as Hl; by rewrite E in Hl).
  unfold verify_line, file_line. cbn [fst snd].
  assert (Nat.eqb (String.length (sha256_hex c +:+ "  " +:+ relative dir p)) 0 = false) as ->.
  { apply Nat.eqb_neq. rewrite length_append, sha256_length. lia. }
  destruct (sums_match (sha256_hex c) (relative dir p) Hne (sha256_chars c) Hn) as (m & -> & -> & ->).
  rewrite (proj2 (String.eqb_neq _ _) Hs), Hj. unfold FileHasSha256Sum, Sha256HashFile, read_file, unchanged. cbn [fst snd].
  destruct (t !! p) as [[|c']|]; done.
Qed.

Lemma verify_file_lines t sumsFile dir l lc failed :
  Forall (λ pc, sums_file_entry dir sumsFile pc ∧ t !! pc.1 ≠ Some Dir) l →
  verify_lines t sumsFile dir lc failed (map (file_line dir) l) = Ok (failed || negb (forallb (unchanged t) l)).
Proof.
  intros Hall. revert lc failed. induction Hall as [|pc l [Hp Hd] _ IH]; intros lc failed.
  - cbn. by rewrite orb_false_r.
  - cbn [map verify_lines]. rewrite verify_file_line by done. rewrite IH. cbn [forallb].
    by destruct (unchanged t pc), failed.
Qed.

(** The sums of a directory detect exactly the changes to its files: verified later,
    against whatever the directory then holds, the sums pass if and only if every file
    they were made of is still there with the same hash. *)
Theorem sums_detect_changes (t t' : tree) (dir sumsFile abs_dir text : string) (l : list (string * node)) :
  dir ≠ "" → WalkDir dir t = Ok l →
  Forall (λ pc, sums_file_entry dir sumsFile pc ∧ t' !! pc.1 ≠ Some Dir) (files_of l) →
  Sha256ChecksumDir t dir = Ok text → t' !! sumsFile = Some (File text) →
  ∃ b, Sha256VerifyDir t' sumsFile dir abs_dir = Ok b ∧
    (b = true ↔ ∀ p c, t !! p = Some (File c) → p = dir ∨ under dir p = true →
       ∃ c', t' !! p = Some (File c') ∧ sha256_hex c' = sha256_hex c).
Proof.
  intros Hdir Hl Hall Hsum Hfile. exists (forallb (unchanged t') (files_of l)). split.
  - unfold Sha256ChecksumDir in Hsum. rewrite Hl in Hsum. injection Hsum as <-.
    unfold Sha256VerifyDir, read_file. rewrite (proj2 (String.eqb_neq _ _) Hdir), Hfile. unfold mbind, outcome_bind, map_err.
    rewrite sums_of_lines, scan_unlines, verify_file_lines; [cbn; by rewrite negb_involutive|done|].
    apply Forall_map, (Forall_impl _ _ _ Hall). by intros pc [(_ & _ & _ & Hp) _].
  - rewrite forallb_elem_of. split.
    + intros Hu p c Hp Hin. assert ((p, c) ∈ files_of l) as Hpc.
      { apply list_elem_of_omap. exists (p, File c). split; [|done]. by apply (WalkDir_elem _ _ _ _ _ Hl). }
      apply Hu in Hpc. unfold unchanged in Hpc. cbn [fst snd] in Hpc. destruct (t' !! p) as [[|c']|]; [done| |done].
      exists c'. split; [done|]. by apply String.eqb_eq.
    + intros Hu [p c] Hpc. apply list_elem_of_omap in Hpc as ([p' [|c']] & Hin & Hs); [done|]. injection Hs as -> ->.
      apply (WalkDir_elem _ _ _ _ _ Hl) in Hin as [Hp Hin]. destruct (Hu p c Hp Hin) as (c' & Hc' & Hh).
      unfold unchanged. cbn [fst snd]. rewrite Hc'. by apply String.eqb_eq.
Qed.

End Sums.

(** ** A small hash for the witnesses: the first letters of a content, folded into a-z *)

Definition letter (c : ascii) : ascii := ascii_of_nat (97 + nat_of_ascii c mod 26).

Fixpoint demo_hash_go (n : nat) (s : string) : string :=
  match n, s with
  | O, _ => ""
  | S n, EmptyString => String "0" (demo_hash_go n "")
  | S n, String c r => String (letter c) (demo_hash_go n r)
  end.

#[export] Instance demo_sha256 : Sha256 := {| sha256_hex := demo_hash_go 64 |}.

Lemma letter_sum c : is_sum_char (letter c) = true.
Proof.
  unfold letter. pose proof (Nat.mod_upper_bound (nat_of_ascii c) 26 ltac:(lia)) as Hm.
  set (k := nat_of_ascii c mod 26) in *. clearbody k.
  do 26 (destruct k as [|k]; [vm_compute; reflexivity|]). lia.
Qed.

Lemma demo_hash_spec n s : Forall (λ c, is_sum_char c = true) (String.list_ascii_of_string (demo_hash_go n s)) ∧
  String.length (demo_hash_go n s) = n.
Proof.
  revert s. induction n as [|n IH]; intros s; [by split; [constructor|]|].
  destruct s as [|c r]; cbn; [destruct (IH "") as [H1 H2]|destruct (IH r) as [H1 H2]]; (split; [|by rewrite H2]).
  - by constructor.
  - constructor; [apply letter_sum|done].
Qed.

#[export] Instance demo_sha256_laws : Sha256Laws.
Proof. split; intros s; apply demo_hash_spec. Qed.

Definition demo_tree : tree :=
  {["/m" := Dir; "/m/bin" := Dir; "/m/bin/run.sh" := File "echo"; "/m/machine.yaml" := File "name: demo"]}.
Definition demo_sums : string := match Sha256ChecksumDir demo_tree "/m" with Ok s => s | _ => "" end.
Definition demo_later : tree := <["/m/machine.yaml" := File "name: evil"]> (<["/sums" := File demo_sums]> demo_tree).

Lemma sums_detect_changes_witness :
  ∃ b, Sha256VerifyDir demo_later "/sums" "/m" "/" = Ok b ∧
    (b = true ↔ ∀ p c, demo_tree !! p = Some (File c) → p = "/m" ∨ under "/m" p = true →
       ∃ c', demo_later !! p = Some (File c') ∧ sha256_hex c' = sha256_hex c).
Proof.
  destruct (WalkDir "/m" demo_tree) as [l|?|?] eqn:E; [|vm_compute in E; discriminate..].
  refine (sums_detect_changes demo_tree demo_later "/m" "/sums" "/" demo_sums l _ E _ _ _);
    [discriminate| |vm_compute; reflexivity|vm_compute; reflexivity].
  vm_compute in E. injection E as <-.
  constructor; [|constructor; [|constructor]];
    (split; [split_and!; [eexists _, _, _; split_and!; [vm_compute; reflexivity|vm_compute; reflexivity|repeat (constructor; [vm_compute; reflexivity|]); constructor]
      |vm_compute; reflexivity|vm_compute; discriminate
      |split_and!; [apply (bool_decide_eq_false_1 _); vm_compute; reflexivity|vm_compute; reflexivity|vm_compute; reflexivity]]|vm_compute; discriminate]).
Defined.

(** A name of one byte makes a line the verification refuses. *)
Example one_byte_names_are_refused :
  let t : tree := {["/m" := Dir; "/m/x" := File "data"]} in
  match Sha256ChecksumDir t "/m" with
  | Ok sums => Sha256VerifyDir (<["/sums" := File sums]> t) "/sums" "/m" "/"
  | _ => Ok true
  end = Err "invalid sums file: malformed line 1".
Proof. vm_compute. reflexivity. Qed.
