(* ===== verification/ArchiveWatcher.v ===== *)
(** * The archive watcher

    aagent/watchers/archivewatcher/archive.go: keeps a directory at the content of an
    archive, which it downloads, verifies, extracts next to the target and moves into
    place.  Downloads, the decoding of archives, templates and temporary names are
    arguments; the directories are a tree. *)
From S2P Require Import Prelude GoLib Regex Files Util Tree Sha256Sums Machine Watchers.

Inductive State := Unknown | Skipped | Error | VerifiedOK | Downloaded | VerifyFailed | MissingCreates | MissingChecksums.

Definition stateNames (s : State) : string :=
  match s with
  | Unknown => "unknown" | Skipped => "skipped" | Error => "error" | VerifiedOK => "verified"
  | Downloaded => "downloaded" | VerifyFailed => "verify_failed" | MissingCreates => "no_creates"
  | MissingChecksums => "no_checksums"
  end.

Record Properties := {
  p_ArchiveChecksum : string;
  p_Creates : string;
  p_Governor : string;
  p_GovernorTimeout : Z;
  p_Insecure : bool;
  p_Password : string;
  p_Source : string;
  p_TargetDirectory : string;
  p_Timeout : Z;
  p_Username : string;
  p_ContentChecksums : string;
  p_ContentChecksumsChecksum : string;
}.

Definition set_timeouts (timeout governor : Z) (p : Properties) : Properties :=
  {| p_ArchiveChecksum := p_ArchiveChecksum p; p_Creates := p_Creates p; p_Governor := p_Governor p;
     p_GovernorTimeout := governor; p_Insecure := p_Insecure p; p_Password := p_Password p; p_Source := p_Source p;
     p_TargetDirectory := p_TargetDirectory p; p_Timeout := timeout; p_Username := p_Username p;
     p_ContentChecksums := p_ContentChecksums p; p_ContentChecksumsChecksum := p_ContentChecksumsChecksum p |}.

Definition unset (s : string) : bool := String.eqb s "".

Definition validate (p : Properties) : res Properties :=
  if unset (p_Source p) then Err "source is required"
  else if unset (p_Creates p) then Err "creates is required"
  else if unset (p_TargetDirectory p) then Err "target is required"
  else if unset (p_ArchiveChecksum p) then Err "checksum is required"
  else if negb (unset (p_ContentChecksums p)) && unset (p_ContentChecksumsChecksum p) then
    Err "verify_checksum is required if verify is set"
  else if negb (unset (p_Username p)) && unset (p_Password p) then Err "password is required when username is given"
  else
    let governor := if negb (unset (p_Governor p)) && (p_GovernorTimeout p =? 0)%Z then (5 * Minute)%Z
                    else p_GovernorTimeout p in
    Ok (set_timeouts (if (p_Timeout p <? 5 * Second)%Z then 5 * Second else p_Timeout p)%Z governor p).

Record ArchiveWatcher := {
  aw_base : Watcher;
  aw_properties : Properties;
  aw_interval : Z;
  aw_previous : State;
}.

Definition NewArchive `{TimeLib} (name : string) (states : list string) (required : list ForeignMachineState)
    (failEvent successEvent interval : string) (ai : Z) (rawprop : res Properties) : res ArchiveWatcher :=
  base ← NewWatcher name "archive" ai states required true failEvent successEvent;
  props ← map_err (λ e, "could not set properties: " +:+ e) (p ← rawprop; validate p);
  i ← (if unset interval then Ok 0%Z
       else
         i ← map_err (λ e, "invalid interval: " +:+ e) (ParseDuration interval);
         if (i <? 10 * Second)%Z then Err ("interval " +:+ RenderDuration i +:+ " is too small") else Ok i);
  Ok {| aw_base := base; aw_properties := props; aw_interval := i; aw_previous := Unknown |}.

(** ** Archives *)

Inductive entry_type := TypeReg | TypeDir | TypeOther.

(** A header and what follows it, or an error of the reader. *)
Record tar_entry := { te_type : entry_type; te_name : string; te_isdir : bool; te_content : res string }.
Abbreviation archive := (list (res tar_entry)).

(** What the world answers to one watch. *)
Record archive_env := {
  ae_ProcessTemplate : string → res string;
  ae_EnterGovernor : res ();
  ae_url_Parse : string → res ();
  (** a GET with the credentials of the properties *)
  ae_Get : string → option (string * string) → res string;
  ae_MkdirTemp : string → res string;
  ae_CreateTemp : string → res string;
  (** what is written to the disk of a download *)
  ae_gunzip : string → res archive;
  ae_RemoveAll : res ();
  ae_Rename : res ();
}.

Section Watch.
Context `{SH : Sha256} {M V : Type} `{WH : WatcherHost M V}.
Variable e : archive_env.

Abbreviation TreeM := (ST tree string).

(** An operation of the tree that may fail. *)
Definition on_tree (f : tree → res tree) : TreeM () := λ t,
  match f t with
  | Ok t' => (t', Ok tt)
  | Err err => (t, Err err)
  | Panic p => (t, Panic p)
  end.

(** ** Verification *)

Definition verify (p : Properties) (t : tree) (dir : string) : res () :=
  ccc ← map_err (λ _, "could not parse template on verify_checksum property")
    (ae_ProcessTemplate e (p_ContentChecksumsChecksum p));
  if unset ccc then Err "verify_checksum template resulted in an empty string"
  else
    let sumsFile := path_join [dir; p_ContentChecksums p] in
    if negb (FileIsRegular t sumsFile) then
      Err ("checksums file " +:+ p_ContentChecksums p +:+ " does not exist in the archive (" +:+ sumsFile +:+ ")")
    else
      r ← map_err (λ err, "failed to checksum file " +:+ p_ContentChecksums p +:+ ": " +:+ error_text sumsFile err)
        (FileHasSha256Sum t sumsFile ccc);
      if negb r.1 then
        Err ("checksum file " +:+ p_ContentChecksums p +:+ " has an invalid checksum " +:+ r.2 +:+ " != " +:+ ccc)
      else
        ok ← Sha256VerifyDir t sumsFile dir dir;
        if (ok : bool) then Ok tt else Err "contents did not pass verification".

Definition creates_path (p : Properties) : string := path_join [p_TargetDirectory p; p_Creates p].

Definition verifyCreates (p : Properties) (t : tree) : State :=
  let creates := creates_path p in
  if negb (FileIsDir t creates) then MissingCreates
  else if unset (p_ContentChecksums p) then VerifiedOK
  else if negb (FileExist t (path_join [creates; p_ContentChecksums p])) then MissingChecksums
  else if unset (p_ContentChecksumsChecksum p) then VerifiedOK
  else match verify p t creates with Ok _ => VerifiedOK | _ => VerifyFailed end.

(** ** Download *)

Definition mkTempDir (p : Properties) : TreeM string :=
  let parent := path_join [p_TargetDirectory p; "tmp"] in
  t ← gets id;
  (if FileIsDir t parent then mret tt else on_tree (MkdirAll parent));;
  td ← lift (ae_MkdirTemp e parent);
  on_tree (MkdirAll td);;
  mret td.

Definition credentials (p : Properties) : res (option (string * string)) :=
  if unset (p_Username p) then Ok None
  else
    user ← map_err (λ err, "invalid username template: " +:+ err) (ae_ProcessTemplate e (p_Username p));
    pass ← map_err (λ err, "invalid password template: " +:+ err) (ae_ProcessTemplate e (p_Password p));
    Ok (Some (user, pass)).

(** Fetches into [tf] and checks what came. *)
Definition fetch (p : Properties) (source sourceChecksum tf : string) : TreeM () :=
  c ← lift (credentials p);
  body ← lift (map_err (λ err, "request failed: " +:+ err) (ae_Get e source c));
  on_tree (WriteFile tf body);;
  t ← gets id;
  r ← lift (map_err (λ err, "archive checksum calculation failed: " +:+ error_text tf err)
              (FileHasSha256Sum t tf sourceChecksum));
  if negb r.1 then throw ("archive checksum " +:+ r.2 +:+ " != " +:+ sourceChecksum +:+ " missmatch") else mret tt.

(** [on_error cleanup m]: [cleanup] runs when [m] fails. *)
Definition on_error {A} (cleanup : tree → tree) (m : TreeM A) : TreeM A := λ t,
  match m t with
  | (t', Err err) => (cleanup t', Err err)
  | r => r
  end.

Definition wrap_err {A} (prefix : string) (m : TreeM A) : TreeM A := λ t,
  let '(t', o) := m t in (t', map_err (λ err, prefix +:+ err) o).

Definition downloadSourceToTemp (p : Properties) : TreeM string :=
  source ← lift (map_err (λ err, "source template processing failed: " +:+ err) (ae_ProcessTemplate e (p_Source p)));
  sourceChecksum ← lift (map_err (λ err, "checksum template processing failed: " +:+ err)
    (ae_ProcessTemplate e (p_ArchiveChecksum p)));
  if unset source then throw "source template resulted in an empty string"
  else if unset sourceChecksum then throw "checksum template resulted in an empty string"
  else
    lift (map_err (λ err, "invalid url: " +:+ err) (ae_url_Parse e source));;
    td ← wrap_err "could not create temp directory: " (mkTempDir p);
    if unset td then throw "could not create temp directory for unknown reason"
    else
      tf ← on_error (RemoveAll td)
        (tf ← lift (map_err (λ err, "could not create temp file: " +:+ err) (ae_CreateTemp e td));
         on_tree (WriteFile tf "");;
         mret tf);
      on_error (RemoveAll td) (fetch p source sourceChecksum tf);;
      t ← gets id;
      if negb (FileExist t tf) then throw ("downloaded file " +:+ tf +:+ " does not exist") else mret tf.

(** ** Extraction *)

(** Opening truncates the file before its content is copied. *)
Definition untar_entry (dest : string) (h : tar_entry) : TreeM () :=
  match te_type h with
  | TypeOther => throw "only regular files and directories are supported"
  | _ =>
      if str_contains (te_name h) ".." then throw "invalid tar file detected"
      else
        let path := path_join [dest; te_name h] in
        if negb (has_prefix path dest) then throw "invalid tar file detected"
        else if te_isdir h then on_tree (MkdirAll path)
        else
          on_tree (WriteFile path "");;
          content ← lift (te_content h);
          on_tree (WriteFile path content)
  end.

Fixpoint untar_loop (dest : string) (a : archive) : TreeM () :=
  match a with
  | [] => mret tt
  | Err err :: _ => throw err
  | Panic why :: _ => panic why
  | Ok h :: rest => untar_entry dest h;; untar_loop dest rest
  end.

Definition untar (content dest : string) : TreeM () :=
  a ← lift (map_err (λ err, "unzip failed: " +:+ err) (ae_gunzip e content));
  untar_loop dest a.

Definition extractAndVerifyToTemp (p : Properties) (path : string) : TreeM string :=
  t ← gets id;
  if unset path then throw "empty archive path"
  else if negb (FileExist t path) then throw ("archive file " +:+ path +:+ " does not exist")
  else
    let parent := path_dir path in
    td ← lift (ae_MkdirTemp e parent);
    on_tree (MkdirAll td);;
    content ← lift (map_err (error_text path) (read_file t path));
    wrap_err "untar failed: " (untar content td);;
    t ← gets id;
    (if unset (p_ContentChecksumsChecksum p) then mret tt else lift (verify p t (path_join [td; p_Creates p])));;
    mret td.

(** ** Deployment *)

(** [os.Rename] of a directory to a path that is free. *)
Definition rename_tree (from to : string) (t : tree) : res tree :=
  match t !! from with
  | None => Err ("rename " +:+ from +:+ " " +:+ to +:+ ": no such file or directory")
  | Some _ =>
      match t !! to with
      | Some (File _) => Err ("rename " +:+ from +:+ " " +:+ to +:+ ": not a directory")
      | _ =>
          let moved := List.filter (λ kv, String.eqb kv.1 from || under from kv.1) (map_to_list t) in
          let renamed := map (λ kv, (to +:+ drop_bytes (String.length from) kv.1, kv.2)) moved in
          Ok (list_to_map renamed ∪ RemoveAll to (RemoveAll from t))
      end
  end.

Definition deploy (p : Properties) (td : string) : TreeM () :=
  let creates := creates_path p in
  t ← gets id;
  (if FileExist t creates
   then lift (map_err (λ err, "removing current destination failed: " +:+ err) (ae_RemoveAll e));; modify (RemoveAll creates)
   else mret tt);;
  t ← gets id;
  (if FileIsDir t (p_TargetDirectory p) then mret tt
   else wrap_err "could not create target directory: " (on_tree (MkdirAll (p_TargetDirectory p))));;
  wrap_err "rename failed: " (lift (ae_Rename e);; on_tree (rename_tree (path_join [td; p_Creates p]) creates)).

(** The part of [watch] after the archive was found missing or changed. The directory of
    the download, with the extraction in it, is removed however this ends. *)
Definition install (p : Properties) : TreeM State :=
  (if unset (p_Governor p) then mret tt else lift (ae_EnterGovernor e));;
  tf ← wrap_err "download failed: " (downloadSourceToTemp p);
  deferred (RemoveAll (path_dir tf))
    (td ← wrap_err "archive extraction failed: " (extractAndVerifyToTemp p tf);
     deploy p td;;
     mret Downloaded).

Definition watch (v : machine_view) (w : ArchiveWatcher) : TreeM State :=
  let p := aw_properties w in
  if negb (ShouldWatch (Some v) (aw_base w)) then mret Skipped
  else
    t ← gets id;
    match verifyCreates p t with
    | VerifiedOK => mret VerifiedOK
    | _ => install p
    end.

Definition set_previous (s : State) (w : ArchiveWatcher) : ArchiveWatcher :=
  {| aw_base := aw_base w; aw_properties := aw_properties w; aw_interval := aw_interval w; aw_previous := s |}.

Definition handleCheck (w : ArchiveWatcher) (s : State) : ST M string () :=
  let notify := modify (host_NotifyWatcherState (wt_name (aw_base w)) (stateNames s)) in
  match s with
  | Error | VerifyFailed => notify;; fire_event (FailureTransition (aw_base w))
  | Downloaded | VerifiedOK => notify;; fire_event (SuccessTransition (aw_base w))
  | _ => mret tt
  end.

(** The time of the last watch is never set: the interval holds nothing back. *)
Definition performWatch (w : ArchiveWatcher) : ST (tree * M) string ArchiveWatcher := λ wm,
  let '(t, o) := watch (host_view wm.2) w wm.1 in
  match o with
  | Panic why => ((t, wm.2), Panic why)
  | _ =>
      let s := match o with Ok s => s | _ => Error end in
      match handleCheck w s wm.2 with
      | (m, Panic why) => ((t, m), Panic why)
      | (m, _) => ((t, m), Ok (set_previous s w))
      end
  end.

End Watch.

(** * The archive watcher: properties

    Extraction stays in its directory; what is deployed was verified; a failed download or
    verification leaves what is deployed. *)

(** Nothing outside [d] changes, but for directories that were missing. *)
Definition keeps_outside (d : string) (t t' : tree) : Prop :=
  ∀ q, inside d q = false →
    (∀ n, t !! q = Some n → t' !! q = Some n) ∧ (∀ c, t' !! q = Some (File c) → t !! q = Some (File c)).

#[export] Instance keeps_preorder d : PreOrder (keeps_outside d).
Proof. split; [by intros t q|]. intros a b c H1 H2 q Hq. specialize (H1 q Hq). specialize (H2 q Hq). naive_solver. Qed.

Lemma make_dirs_keeps d l t t' : make_dirs l t = Ok t' → keeps_outside d t t'.
Proof.
  revert t. induction l as [|x l IH]; intros t H; [by injection H as ->|]. cbn in H.
  assert (keeps_outside d t (<[x := Dir]> t) ∨ is_Some (t !! x) ∧ ∃ c, t !! x = Some (File c)) as [Hk|[_ [c Hc]]].
  { destruct (t !! x) as [[|c]|] eqn:E; [left|right; by eauto|left]; intros q Hq.
    - rewrite insert_id by done. done.
    - destruct (decide (x = q)) as [->|Hne]; [|by rewrite lookup_insert_ne].
      rewrite lookup_insert_eq. split; [congruence|done]. }
  - etrans; [exact Hk|]. apply IH. destruct (t !! x) as [[|]|]; done.
  - rewrite Hc in H. done.
Qed.

Lemma WriteFile_keeps d p c t t' : WriteFile p c t = Ok t' → inside d p = true → keeps_outside d t t'.
Proof.
  intros H Hp q Hq. assert (p ≠ q) as Hne by (intros ->; congruence).
  unfold WriteFile in H. destruct (t !! p) as [[|]|]; [done| |]; destruct (t !! path_dir p) as [[|]|]; try done;
    injection H as <-; by rewrite lookup_insert_ne.
Qed.

Lemma RemoveAll_keeps d p t : d ≠ "/" → p ≠ "/" → inside d p = true → keeps_outside d t (RemoveAll p t).
Proof.
  intros Hd Hp Hi q Hq. rewrite RemoveAll_lookup. destruct (String.eqb q p || under p q) eqn:E; [|done].
  assert (inside d q = true); [|congruence]. by apply (inside_trans d p q).
Qed.

Lemma MkdirAll_files p t t' q c : MkdirAll p t = Ok t' → t' !! q = Some (File c) ↔ t !! q = Some (File c).
Proof.
  unfold MkdirAll. generalize (prefixes "/" (List.filter (λ e, negb (String.eqb e "")) (split p "/"))). intros l.
  revert t. induction l as [|x l IH]; intros t H; [by injection H as ->|]. cbn in H.
  destruct (t !! x) as [[|c']|] eqn:E; [|done|]; rewrite (IH _ H);
    (destruct (decide (x = q)) as [->|Hne]; [rewrite lookup_insert_eq, E; naive_solver|by rewrite lookup_insert_ne]).
Qed.

(** What follows the name of a directory in the paths inside it. *)
Definition rel_path (rel : string) : Prop := rel = "" ∨ ∃ r, rel = "/" +:+ r.

Lemma inside_rel d q : d ≠ "/" → inside d q = true ↔ ∃ rel, q = d +:+ rel ∧ rel_path rel.
Proof.
  intros Hd. unfold inside. rewrite orb_true_iff, String.eqb_eq, under_spec by done. split.
  - intros [->|[r ->]]; [exists ""; split; [by rewrite append_nil_r|by left]|].
    exists ("/" +:+ r). split; [done|right; by exists r].
  - intros (rel & -> & [->|[r ->]]); [left; by rewrite append_nil_r|right; by exists r].
Qed.

Lemma rename_files from to t t' rel c : from ≠ "/" → to ≠ "/" → rename_tree from to t = Ok t' → rel_path rel →
  t' !! (to +:+ rel) = Some (File c) ↔ t !! (from +:+ rel) = Some (File c).
Proof.
  intros Hf Ht H Hrel. unfold rename_tree in H. destruct (t !! from) as [nf|]; [|done].
  assert (t' !! (to +:+ rel) = t !! (from +:+ rel)) as ->; [|done].
  set (moved := List.filter _ _) in H.
  assert (∀ q n, (q, n) ∈ moved ↔ t !! q = Some n ∧ ∃ rel, q = from +:+ rel ∧ rel_path rel) as Hmoved.
  { intros q n. unfold moved. rewrite list_elem_of_In, filter_In, <- list_elem_of_In, elem_of_map_to_list.
    cbn [fst]. change (String.eqb q from || under from q) with (inside from q). by rewrite inside_rel. }
  assert (t' = list_to_map (map (λ kv, (to +:+ drop_bytes (String.length from) kv.1, kv.2)) moved) ∪
               RemoveAll to (RemoveAll from t)) as ->.
  { destruct (t !! to) as [[|]|]; [|done|]; by injection H as <-. }
  clear H.
  assert (∀ n, (to +:+ rel, n) ∈ map (λ kv, (to +:+ drop_bytes (String.length from) kv.1, kv.2)) moved ↔
    t !! (from +:+ rel) = Some n) as Hin.
  { intros n. rewrite list_elem_of_In, in_map_iff. setoid_rewrite <- list_elem_of_In. split.
    - intros ([q n'] & Heq & Hq). injection Heq as Hk <-. apply Hmoved in Hq as (Hq & rel' & -> & _).
      cbn [fst] in Hk. rewrite drop_bytes_append in Hk. apply append_eq_inv in Hk as ->. exact Hq.
    - intros Hq. exists (from +:+ rel, n). cbn [fst snd]. rewrite drop_bytes_append. split; [done|].
      apply Hmoved. split; [done|]. by exists rel. }
  destruct (t !! (from +:+ rel)) as [n|] eqn:E.
  - apply lookup_union_Some_l, elem_of_list_to_map_1'; [|by apply Hin].
    intros n' Hn'. apply Hin in Hn'. congruence.
  - apply lookup_union_None. split.
    + apply not_elem_of_list_to_map_1. intros Hk. apply list_elem_of_fmap in Hk as ([k n'] & Hk & Hn').
      cbn in Hk. rewrite <- Hk in Hn'. apply Hin in Hn'. done.
    + rewrite RemoveAll_lookup. change (String.eqb (to +:+ rel) to || under to (to +:+ rel)) with (inside to (to +:+ rel)).
      rewrite (proj2 (inside_rel to (to +:+ rel) Ht)); [done|]. by exists rel.
Qed.

Section Watch.
Context `{SH : Sha256} {M V : Type} `{WH : WatcherHost M V}.
Variable e : archive_env.

(** An operation that keeps what is outside [d] however it ends, and whose results
    satisfy [P]. *)
Definition kept {A} (d : string) (P : A → Prop) (m : ST tree string A) : Prop :=
  ∀ t, keeps_outside d t (m t).1 ∧ ∀ a, (m t).2 = Ok a → P a.

Abbreviation any := (λ _, True).

Lemma kept_ret {A} d (P : A → Prop) a : P a → kept d P (mret a).
Proof. intros Ha t. split; [reflexivity|]. by intros a' [= <-]. Qed.
Lemma kept_throw {A} d (P : A → Prop) err : kept d P (throw err).
Proof. intros t. by split; [reflexivity|]. Qed.
Lemma kept_lift {A} d (o : res A) : kept d (λ a, o = Ok a) (lift o).
Proof. intros t. by split; [reflexivity|]. Qed.
Lemma kept_gets {A} d (f : tree → A) : kept d any (gets f).
Proof. intros t. by split; [reflexivity|]. Qed.
Lemma kept_bind {A B} d (P : A → Prop) (Q : B → Prop) (m : ST tree string A) (f : A → ST tree string B) :
  kept d P m → (∀ a, P a → kept d Q (f a)) → kept d Q (m ≫= f).
Proof.
  intros Hm Hf t. destruct (Hm t) as [Hk HP]. unfold mbind, ST_bind. destruct (m t) as [t1 [a|?|?]]; [|done..].
  destruct (Hf a (HP a eq_refl) t1) as [Hk' HQ]. split; [|exact HQ]. etrans; [exact Hk|exact Hk'].
Qed.
Lemma kept_weaken {A} d (P Q : A → Prop) (m : ST tree string A) : (∀ a, P a → Q a) → kept d P m → kept d Q m.
Proof. intros HPQ Hm t. destruct (Hm t). by auto. Qed.
Lemma kept_wrap {A} d (P : A → Prop) s (m : ST tree string A) : kept d P m → kept d P (wrap_err s m).
Proof.
  intros Hm t. destruct (Hm t) as [Hk HP]. unfold wrap_err. destruct (m t) as [t1 [a|?|?]]; [|done..]. by split.
Qed.
Lemma kept_on_tree d f : (∀ t t', f t = Ok t' → keeps_outside d t t') → kept d any (on_tree f).
Proof. intros Hf t. split; [|done]. unfold on_tree. destruct (f t) eqn:E; [by apply Hf|reflexivity..]. Qed.
Lemma kept_mkdir d p : kept d any (on_tree (MkdirAll p)).
Proof. apply kept_on_tree. intros t t'. apply make_dirs_keeps. Qed.
Lemma kept_write d p c : inside d p = true → kept d any (on_tree (WriteFile p c)).
Proof. intros Hp. apply kept_on_tree. intros t t' Hw. by apply (WriteFile_keeps _ _ _ _ _ Hw). Qed.
Lemma kept_on_error {A} d p (P : A → Prop) (m : ST tree string A) : d ≠ "/" → p ≠ "/" → inside d p = true →
  kept d P m → kept d P (on_error (RemoveAll p) m).
Proof.
  intros Hd Hp Hi Hm t. destruct (Hm t) as [Hk HP]. unfold on_error. destruct (m t) as [t1 [?|?|?]]; [done| |done].
  split; [|done]. etrans; [exact Hk|]. by apply RemoveAll_keeps.
Qed.
Lemma kept_deferred {A} d p (P : A → Prop) (m : ST tree string A) : d ≠ "/" → p ≠ "/" → inside d p = true →
  kept d P m → kept d P (deferred (RemoveAll p) m).
Proof.
  intros Hd Hp Hi Hm t. destruct (Hm t) as [Hk HP]. unfold deferred. destruct (m t) as [t1 o].
  split; [|exact HP]. etrans; [exact Hk|]. by apply RemoveAll_keeps.
Qed.

Lemma untar_loop_kept dest a : clean_dir dest → kept dest any (untar_loop dest a).
Proof.
  intros Hd. induction a as [|[h|err|why] a IH]; [by apply kept_ret| |apply kept_throw|by intros t].
  apply (kept_bind _ any); [|intros _ _; exact IH]. unfold untar_entry.
  assert (kept dest any (if str_contains (te_name h) ".." then throw "invalid tar file detected"
    else let path := path_join [dest; te_name h] in
      if negb (has_prefix path dest) then throw "invalid tar file detected"
      else if te_isdir h then on_tree (MkdirAll path)
      else on_tree (WriteFile path "");; content ← lift (te_content h); on_tree (WriteFile path content))) as Hk.
  { destruct (str_contains _ _) eqn:Hc; [apply kept_throw|]. cbv zeta.
    pose proof (path_join_inside dest (te_name h) Hd Hc) as Hin.
    destruct (negb _); [apply kept_throw|]. destruct (te_isdir h); [apply kept_mkdir|].
    apply (kept_bind _ any); [by apply kept_write|]. intros _ _. eapply kept_bind; [apply kept_lift|].
    intros c _. by apply kept_write. }
  destruct (te_type h); [exact Hk|exact Hk|apply kept_throw].
Qed.

Lemma untar_kept content dest : clean_dir dest → kept dest any (untar e content dest).
Proof. intros Hd. eapply kept_bind; [apply kept_lift|]. intros a _. by apply untar_loop_kept. Qed.

(** C19. Extracting an archive never leaves its directory: whatever the archive names its
    entries, and wherever extraction stops, no file outside the directory is created,
    changed or replaced. *)
Theorem untar_stays_inside (content dest : string) (t : tree) :
  clean_dir dest → keeps_outside dest t (untar e content dest t).1.
Proof. intros Hd. by destruct (untar_kept content dest Hd t). Qed.

(** ** Installing *)

Variable p : Properties.
Let tmp : string := path_join [p_TargetDirectory p; "tmp"].
Let creates : string := creates_path p.

(** Temporary names are new names in the directory they are asked for. *)
Definition temp_names : Prop :=
  (∀ parent td, ae_MkdirTemp e parent = Ok td → clean_dir td ∧ inside parent td = true) ∧
  (∀ td tf, ae_CreateTemp e td = Ok tf → inside td tf = true ∧ path_dir tf = td ∧ tf ≠ "").

Lemma keeps_mono d d' t t' : d ≠ "/" → d' ≠ "/" → inside d d' = true → keeps_outside d' t t' → keeps_outside d t t'.
Proof.
  intros Hd Hd' Hi Hk q Hq. apply Hk. destruct (inside d' q) eqn:E; [|done].
  rewrite (inside_trans d d' q) in Hq; done.
Qed.

Lemma lift_inv {A} (o : res A) (t t' : tree) a : lift o t = (t', Ok a) → o = Ok a ∧ t' = t.
Proof. unfold lift. by intros [= <- ->]. Qed.

Lemma bind_inv {A B} (m : ST tree string A) (f : A → ST tree string B) t t' b :
  (m ≫= f) t = (t', Ok b) → ∃ t1 a, m t = (t1, Ok a) ∧ f a t1 = (t', Ok b).
Proof. unfold mbind, ST_bind. destruct (m t) as [t1 [a|?|?]]; [|done..]. by exists t1, a. Qed.

Lemma wrap_inv {A} s (m : ST tree string A) t t' a : wrap_err s m t = (t', Ok a) → m t = (t', Ok a).
Proof. unfold wrap_err. destruct (m t) as [t1 [?|?|?]]; cbn; congruence. Qed.

Lemma on_error_inv {A} c (m : ST tree string A) t t' a : on_error c m t = (t', Ok a) → m t = (t', Ok a).
Proof. unfold on_error. by destruct (m t) as [t1 [?|?|?]]. Qed.

(** The name of a download: what it is made of, and what it holds. *)
Definition downloaded (t1 : tree) (tf : string) : Prop :=
  ∃ td sum body, ae_MkdirTemp e tmp = Ok td ∧ ae_CreateTemp e td = Ok tf ∧
    ae_ProcessTemplate e (p_ArchiveChecksum p) = Ok sum ∧ t1 !! tf = Some (File body) ∧ sha256_hex body = sum.

Lemma download_spec t t1 tf : downloadSourceToTemp e p t = (t1, Ok tf) → downloaded t1 tf.
Proof.
  unfold downloadSourceToTemp. intros H.
  apply bind_inv in H as (u1 & source & Hs & H). apply bind_inv in H as (u2 & sum & Hsum & H).
  apply lift_inv in Hsum as [Hsum ->]. apply map_err_inv in Hsum.
  destruct (unset source); [done|]. destruct (unset sum); [done|]. apply bind_inv in H as (u3 & [] & _ & H).
  apply bind_inv in H as (u4 & td & Htd & H). apply wrap_inv in Htd. destruct (unset td); [done|].
  apply bind_inv in H as (u5 & tf' & Htf & H). apply on_error_inv in Htf.
  apply bind_inv in H as (u6 & [] & Hf & H). apply on_error_inv in Hf.
  unfold gets in H. unfold mbind, ST_bind in H. cbn in H. destruct (negb _) in H; [done|]. injection H as <- <-.
  assert (ae_MkdirTemp e tmp = Ok td) as Hm.
  { unfold mkTempDir in Htd. apply bind_inv in Htd as (v1 & x & _ & Htd). apply bind_inv in Htd as (v2 & [] & _ & Htd).
    apply bind_inv in Htd as (v3 & td' & Hm & Htd). apply lift_inv in Hm as [Hm _].
    apply bind_inv in Htd as (v4 & [] & _ & Htd). injection Htd as _ <-. done. }
  assert (ae_CreateTemp e td = Ok tf') as Hc.
  { apply bind_inv in Htf as (v1 & tf'' & Hc & Htf). apply lift_inv in Hc as [Hc _]. apply map_err_inv in Hc.
    apply bind_inv in Htf as (v2 & [] & _ & Htf). injection Htf as _ <-. done. }
  unfold fetch in Hf. apply bind_inv in Hf as (v1 & c & _ & Hf). apply bind_inv in Hf as (v2 & body & _ & Hf).
  apply bind_inv in Hf as (v3 & [] & Hw & Hf). unfold gets in Hf. unfold mbind, ST_bind, lift in Hf. cbn [id] in Hf.
  destruct (FileHasSha256Sum v3 tf' sum) as [[ok h]|?|?] eqn:Hh; cbn [map_err fst snd] in Hf; [|done..].
  destruct ok; [|done]. injection Hf as <-.
  unfold FileHasSha256Sum, Sha256HashFile, read_file, mbind, outcome_bind in Hh.
  destruct (v3 !! tf') as [[|c']|] eqn:Hv; [done| |done]. injection Hh as Hh _. apply String.eqb_eq in Hh.
  by exists td, sum, c'.
Qed.

Hypothesis Htemp : temp_names.
Hypothesis Htmp : clean_dir tmp.

(** The name of a download, and of the directory that is removed with it. *)
Definition temp_file (tf : string) : Prop :=
  clean_dir (path_dir tf) ∧ inside tmp (path_dir tf) = true ∧ inside tmp tf = true.

Lemma mkTempDir_kept : kept tmp (λ td, clean_dir td ∧ inside tmp td = true) (mkTempDir e p).
Proof.
  destruct Htemp as [Hmk _]. unfold mkTempDir. eapply kept_bind; [apply kept_gets|]. intros t0 _.
  eapply (kept_bind _ any); [destruct (FileIsDir _ _); [by apply kept_ret|apply kept_mkdir]|]. intros _ _.
  eapply kept_bind; [apply kept_lift|]. intros td Htd. eapply kept_bind; [apply kept_mkdir|]. intros _ _.
  apply kept_ret. by apply Hmk.
Qed.

Lemma fetch_kept source sum tf : inside tmp tf = true → kept tmp any (fetch e p source sum tf).
Proof.
  intros Hi. unfold fetch. eapply kept_bind; [apply kept_lift|]. intros c _. eapply kept_bind; [apply kept_lift|].
  intros body _. eapply kept_bind; [by apply kept_write|]. intros _ _. eapply kept_bind; [apply kept_gets|]. intros t _.
  eapply kept_bind; [apply kept_lift|]. intros r _. destruct (negb _); [apply kept_throw|by apply kept_ret].
Qed.

Lemma download_kept : kept tmp temp_file (downloadSourceToTemp e p).
Proof.
  destruct Htemp as [_ Hcr]. destruct Htmp as (_ & _ & Hroot). unfold downloadSourceToTemp.
  eapply kept_bind; [apply kept_lift|]. intros source _. eapply kept_bind; [apply kept_lift|]. intros sum _.
  destruct (unset source); [apply kept_throw|]. destruct (unset sum); [apply kept_throw|].
  eapply kept_bind; [apply kept_lift|]. intros _ _. eapply kept_bind; [apply kept_wrap, mkTempDir_kept|].
  intros td [Htd Hin]. destruct (unset td); [apply kept_throw|]. pose proof Htd as (_ & _ & Htd0).
  apply (kept_bind _ temp_file).
  - apply kept_on_error; [done..|]. eapply kept_bind; [apply kept_lift|]. intros tf Htf. apply map_err_inv in Htf.
    destruct (Hcr td tf Htf) as (Hi & Hd & _). assert (inside tmp tf = true) by by apply (inside_trans tmp td tf).
    eapply kept_bind; [by apply kept_write|]. intros _ _. apply kept_ret. unfold temp_file. by rewrite Hd.
  - intros tf (Hd & Hdi & Htf). eapply (kept_bind _ any); [apply kept_on_error; [done..|by apply fetch_kept]|]. intros _ _.
    eapply kept_bind; [apply kept_gets|]. intros t _. destruct (negb _); [apply kept_throw|by apply kept_ret].
Qed.

Lemma kept_mono {A} d d' (P : A → Prop) (m : ST tree string A) : d ≠ "/" → d' ≠ "/" → inside d d' = true →
  kept d' P m → kept d P m.
Proof. intros Hd Hd' Hi Hm t. destruct (Hm t) as [Hk HP]. split; [by apply (keeps_mono d d')|exact HP]. Qed.

Lemma extract_kept tf : temp_file tf → kept tmp any (extractAndVerifyToTemp e p tf).
Proof.
  intros (Hd & Hdi & Htf). destruct Htemp as [Hmk _]. destruct Htmp as (_ & _ & Hroot). unfold extractAndVerifyToTemp.
  eapply kept_bind; [apply kept_gets|]. intros t _. destruct (unset tf); [apply kept_throw|].
  destruct (negb _); [apply kept_throw|]. eapply kept_bind; [apply kept_lift|]. intros td Htd.
  destruct (Hmk _ _ Htd) as [Hc Hi]. pose proof Hc as (_ & _ & Hc0). pose proof Hd as (_ & _ & Hd0).
  assert (inside tmp td = true) by by apply (inside_trans tmp (path_dir tf) td).
  eapply kept_bind; [apply kept_mkdir|]. intros _ _. eapply kept_bind; [apply kept_lift|]. intros content _.
  eapply (kept_bind _ any); [apply kept_wrap, (kept_mono tmp td); [done..|by apply untar_kept]|]. intros _ _.
  eapply kept_bind; [apply kept_gets|]. intros t' _.
  eapply (kept_bind _ any); [destruct (unset _); [by apply kept_ret|eapply kept_weaken; [|apply kept_lift]; done]|].
  intros _ _. by apply kept_ret.
Qed.

(** An error of the download, of the extraction or of the verification, as [watch] names
    it. *)
Definition before_deployment (err : string) : bool :=
  has_prefix err "download failed: " || has_prefix err "archive extraction failed: ".

Lemma wrap_err_inv {A} s (m : ST tree string A) t t' err : wrap_err s m t = (t', Err err) → ∃ err', err = s +:+ err'.
Proof. unfold wrap_err. destruct (m t) as [t1 [?|?|?]]; cbn; [done| |done]. intros [= _ <-]. by eexists. Qed.

Lemma deploy_error td t t' err : deploy e p td t = (t', Err err) → before_deployment err = false.
Proof.
  unfold deploy, gets. unfold mbind at 1, ST_bind at 1. cbn [id]. unfold mbind at 1, ST_bind at 1.
  assert (∀ u, (t0 ← (λ w : tree, (w, Ok (id w)));
     (if FileIsDir t0 (p_TargetDirectory p) then mret ()
      else wrap_err "could not create target directory: " (on_tree (MkdirAll (p_TargetDirectory p))));;
     wrap_err "rename failed: " (lift (ae_Rename e);; on_tree (rename_tree (path_join [td; p_Creates p]) (creates_path p)))) u =
     (t', Err err) → before_deployment err = false) as Hrest.
  { intros u. unfold mbind at 1, ST_bind at 1. cbn [id]. unfold mbind at 1, ST_bind at 1.
    destruct (FileIsDir u _).
    - intros H. apply wrap_err_inv in H as [err' ->]. done.
    - destruct (wrap_err "could not create target directory: " _ u) as [u1 [[]|err1|?]] eqn:E; [| |done].
      + intros H. apply wrap_err_inv in H as [err' ->]. done.
      + apply wrap_err_inv in E as [err' ->]. by intros [= _ <-]. }
  destruct (FileExist t _); [|apply Hrest]. unfold mbind at 1, ST_bind at 1, lift at 1.
  destruct (ae_RemoveAll e) as [[]|err1|?]; cbn [map_err]; [apply Hrest|by intros [= _ <-]|done].
Qed.

(** A download that fails, does not have its checksum, does not extract or does not
    verify leaves the deployed archive as it is: nothing outside the directory for
    temporary files changes. *)
Theorem failed_download_keeps_archive (v : machine_view) (w : ArchiveWatcher) (t t' : tree) (err : string) :
  aw_properties w = p → watch e v w t = (t', Err err) → before_deployment err = true → keeps_outside tmp t t'.
Proof.
  intros Hp Hw Hb. unfold watch in Hw. rewrite Hp in Hw. destruct (negb _); [done|].
  unfold gets in Hw. unfold mbind, ST_bind in Hw. cbn [id] in Hw.
  assert (install e p t = (t', Err err)) as Hi by by destruct (verifyCreates e p t). clear Hw.
  destruct Htmp as (_ & _ & Hroot). unfold install in Hi. unfold mbind at 1, ST_bind at 1 in Hi.
  assert (∃ o, (if unset (p_Governor p) then mret () else lift (ae_EnterGovernor e)) t = (t, o)) as [o Ho].
  { destruct (unset _); [by eexists|]. unfold lift. by eexists. }
  rewrite Ho in Hi. destruct o; [|by injection Hi as <- _|done].
  unfold mbind at 1, ST_bind at 1 in Hi. destruct (kept_wrap _ _ "download failed: " _ download_kept t) as [Hk HP].
  destruct (wrap_err "download failed: " (downloadSourceToTemp e p) t) as [t1 [tf|?|?]];
    [|by injection Hi as <- _|done].
  destruct (HP tf eq_refl) as (Hd & Hdi & Htf). pose proof Hd as (_ & _ & Hd0).
  unfold deferred in Hi. unfold mbind at 1, ST_bind at 1 in Hi.
  destruct (kept_wrap _ _ "archive extraction failed: " _ (extract_kept tf (conj Hd (conj Hdi Htf))) t1) as [Hk1 _].
  destruct (wrap_err "archive extraction failed: " (extractAndVerifyToTemp e p tf) t1) as [t2 [td|?|?]]; [|injection Hi as <- _|done].
  - unfold mbind, ST_bind in Hi. destruct (deploy e p td t2) as [t3 [[]|err3|?]] eqn:Hdep; [done| |done].
    injection Hi as <- <-. apply deploy_error in Hdep. congruence.
  - etrans; [exact Hk|]. etrans; [exact Hk1|]. by apply RemoveAll_keeps.
Qed.

(** The deployed directory is not in the one for temporary files. *)
Hypothesis Hcreates : creates ≠ "/" ∧ ∀ rel, rel_path rel → inside tmp (creates +:+ rel) = false.
Hypothesis Hname : str_contains (p_Creates p) ".." = false.

Lemma deploy_files td t t' rel c : clean_dir td → inside tmp td = true → deploy e p td t = (t', Ok tt) → rel_path rel →
  t' !! (creates +:+ rel) = Some (File c) ↔ t !! (path_join [td; p_Creates p] +:+ rel) = Some (File c).
Proof.
  intros Htd Hin Hd Hrel. destruct Hcreates as [Hc0 Hout]. destruct Htmp as (_ & _ & Hroot).
  set (src := path_join [td; p_Creates p]). pose proof Htd as (_ & _ & Htd0).
  assert (inside tmp src = true) as Hsrc by (apply (inside_trans tmp td src); [done..|]; by apply path_join_inside).
  assert (src ≠ "/") as Hs0.
  { intros E. rewrite E in Hsrc. apply inside_rel in Hsrc as (r & Hr & _); [|done]. destruct Htmp as (Hp & _ & _).
    apply has_prefix_spec in Hp as [r' Hr']. rewrite Hr', append_cons in Hr. injection Hr as Hr.
    destruct r'; [by rewrite append_nil_r in Hr'|done]. }
  assert (inside creates (src +:+ rel) = false) as Hns.
  { destruct (inside creates (src +:+ rel)) eqn:E; [|done]. apply inside_rel in E as (rel' & E & Hrel'); [|done].
    rewrite <- (Hout rel' Hrel'), <- E. symmetry. apply (inside_trans tmp src); [done..|]. apply inside_rel; [done|]. by exists rel. }
  unfold deploy, gets in Hd. apply bind_inv in Hd as (t0 & x & Hx & Hd). injection Hx as <- <-.
  apply bind_inv in Hd as (t1 & [] & Hrm & Hd). apply bind_inv in Hd as (t2 & x & Hx & Hd). injection Hx as <- <-.
  apply bind_inv in Hd as (t3 & [] & Hmk & Hd). apply wrap_inv in Hd. apply bind_inv in Hd as (t4 & [] & Hl & Hd).
  apply lift_inv in Hl as [_ ->].
  assert (rename_tree src creates t3 = Ok t') as Hren.
  { unfold on_tree in Hd. fold src creates in Hd. by destruct (rename_tree src creates t3); simplify_eq. }
  rewrite (rename_files _ _ _ _ _ _ Hs0 Hc0 Hren Hrel).
  assert (t3 !! (src +:+ rel) = Some (File c) ↔ t1 !! (src +:+ rel) = Some (File c)) as ->.
  { cbn [id] in Hmk. destruct (FileIsDir t1 _); [by injection Hmk as <-|]. apply wrap_inv in Hmk. unfold on_tree in Hmk.
    destruct (MkdirAll _ t1) as [t5|?|?] eqn:Em; [|done..]. injection Hmk as ->. by apply (MkdirAll_files _ _ _ _ _ Em). }
  cbn [id] in Hrm. fold creates in Hrm. destruct (FileExist t creates); [|by injection Hrm as <-].
  apply bind_inv in Hrm as (t5 & [] & Hl & Hrm). apply lift_inv in Hl as [_ ->]. injection Hrm as <-.
  rewrite RemoveAll_lookup. unfold inside in Hns. fold creates. by rewrite Hns.
Qed.

(** What is deployed is what was verified: after a download the archive had the
    configured checksum, its content passed the verification of its own sums, when they are
    configured, in the directory it was extracted to, and the files of the deployed
    directory are those of that directory. *)
Theorem deployed_was_verified (v : machine_view) (w : ArchiveWatcher) (t t' : tree) :
  aw_properties w = p → watch e v w t = (t', Ok Downloaded) →
  ∃ tf td t0 t1, downloaded t0 tf ∧ inside tmp td = true ∧
    (p_ContentChecksumsChecksum p ≠ "" → verify e p t1 (path_join [td; p_Creates p]) = Ok tt) ∧
    ∀ rel c, rel_path rel → t' !! (creates +:+ rel) = Some (File c) ↔
      t1 !! (path_join [td; p_Creates p] +:+ rel) = Some (File c).
Proof.
  intros Hp Hw. unfold watch in Hw. rewrite Hp in Hw. destruct (negb _); [done|].
  unfold gets in Hw. unfold mbind at 1, ST_bind at 1 in Hw. cbn [id] in Hw.
  assert (install e p t = (t', Ok Downloaded)) as Hi by by destruct (verifyCreates e p t). clear Hw.
  destruct Htmp as (_ & _ & Hroot). unfold install in Hi. apply bind_inv in Hi as (u0 & [] & _ & Hi).
  apply bind_inv in Hi as (t0 & tf & Hdl & Hi). apply wrap_inv in Hdl.
  destruct (download_kept u0) as [_ HP]. rewrite Hdl in HP. destruct (HP tf eq_refl) as (Hd & Hdi & Htf).
  pose proof Hd as (_ & _ & Hd0). apply download_spec in Hdl.
  unfold deferred in Hi. match type of Hi with context [let '(_, _) := ?m t0 in _] => destruct (m t0) as [t2 o] eqn:E end. injection Hi as <- ->.
  apply bind_inv in E as (t1 & td & Hex & E). apply wrap_inv in Hex. apply bind_inv in E as (t3 & [] & Hdep & E).
  injection E as <-. exists tf, td, t0, t1.
  assert (clean_dir td ∧ inside tmp td = true ∧
    (p_ContentChecksumsChecksum p ≠ "" → verify e p t1 (path_join [td; p_Creates p]) = Ok tt)) as (Htd & Htdi & Hver).
  { unfold extractAndVerifyToTemp, gets in Hex. apply bind_inv in Hex as (v0 & x & Hx & Hex). injection Hx as <- <-.
    destruct (unset tf); [done|]. destruct (negb _); [done|]. apply bind_inv in Hex as (v1 & td' & Hm & Hex).
    apply lift_inv in Hm as [Hm ->]. apply bind_inv in Hex as (v2 & [] & _ & Hex). apply bind_inv in Hex as (v3 & c & _ & Hex).
    apply bind_inv in Hex as (v4 & [] & _ & Hex). apply bind_inv in Hex as (v5 & x & Hx & Hex). injection Hx as <- <-.
    apply bind_inv in Hex as (v6 & [] & Hv & Hex). injection Hex as -> ->. destruct Htemp as [Hmk _].
    destruct (Hmk _ _ Hm) as [Hc Hin]. split_and!; [done|by apply (inside_trans tmp (path_dir tf))|].
    intros Hne. unfold unset in Hv. rewrite (proj2 (String.eqb_neq _ _) Hne) in Hv. apply lift_inv in Hv as [Hv <-]. exact Hv. }
  split_and!; [done..|]. intros rel c Hrel. rewrite <- (deploy_files td t1 t3 rel c Htd Htdi Hdep Hrel).
  rewrite RemoveAll_lookup. destruct (String.eqb _ _ || _) eqn:Eq; [|done].
  destruct Hcreates as [_ Hout]. specialize (Hout rel Hrel).
  rewrite (inside_trans tmp (path_dir tf) (creates +:+ rel)) in Hout; done.
Qed.

End Watch.

(** ** An archive for the witnesses *)

Definition demo_sums_text : string := sum_line "/app" "/app/run" "echo".
Definition demo_entry (dir : bool) (name content : string) : res tar_entry :=
  Ok {| te_type := if dir then TypeDir else TypeReg; te_name := name; te_isdir := dir; te_content := Ok content |}.
Definition demo_archive : archive :=
  [demo_entry true "app/" ""; demo_entry false "app/run" "echo"; demo_entry false "app/SUMS" demo_sums_text].

Definition demo_archive_env (body : string) (a : archive) : archive_env :=
  {| ae_ProcessTemplate := λ s, Ok s; ae_EnterGovernor := Ok tt; ae_url_Parse := λ _, Ok tt; ae_Get := λ _ _, Ok body;
     ae_MkdirTemp := λ parent, if String.eqb parent "/opt/tmp" then Ok "/opt/tmp/1"
                               else if String.eqb parent "/opt/tmp/1" then Ok "/opt/tmp/1/archive" else Err "no space";
     ae_CreateTemp := λ td, if String.eqb td "/opt/tmp/1" then Ok "/opt/tmp/1/a.tgz" else Err "no space";
     ae_gunzip := λ _, Ok a; ae_RemoveAll := Ok tt; ae_Rename := Ok tt |}.

Definition demo_archive_properties : Properties :=
  {| p_ArchiveChecksum := demo_hash_go 64 "archive"; p_Creates := "app"; p_Governor := ""; p_GovernorTimeout := 0;
     p_Insecure := false; p_Password := ""; p_Source := "https://example.net/a.tgz"; p_TargetDirectory := "/opt";
     p_Timeout := 5 * Second; p_Username := ""; p_ContentChecksums := "SUMS";
     p_ContentChecksumsChecksum := demo_hash_go 64 demo_sums_text |}.
Definition demo_archive_watcher : ArchiveWatcher :=
  {| aw_base := demo_base "archive"; aw_properties := demo_archive_properties; aw_interval := Minute; aw_previous := Unknown |}.
Definition demo_disk : tree := {["/opt" := Dir; "/opt/app" := Dir; "/opt/app/run" := File "rm"; "/etc/passwd" := File "root"]}.
Definition demo_archive_view : machine_view := host_view (demo_watched "s").

Lemma clean_dir_computed d : bool_decide (has_prefix d "/" = true ∧ path_clean d = d ∧ d ≠ "/") = true → clean_dir d.
Proof. apply bool_decide_eq_true_1. Qed.

Lemma demo_temp_names body a : temp_names (demo_archive_env body a).
Proof.
  split; cbn.
  - intros parent td. destruct (String.eqb_spec parent "/opt/tmp") as [->|_]; [|destruct (String.eqb_spec parent "/opt/tmp/1") as [->|_]];
      intros [= <-]; (split; [apply clean_dir_computed|]; vm_compute; reflexivity).
  - intros td tf. destruct (String.eqb_spec td "/opt/tmp/1") as [->|_]; intros [= <-].
    split_and!; [vm_compute; reflexivity..|done].
Qed.

Lemma untar_stays_inside_witness :
  let bad := [demo_entry false "x/../../etc/passwd" "evil"] in
  (untar (demo_archive_env "" bad) "" "/opt" demo_disk).2 = Err "invalid tar file detected" ∧
  keeps_outside "/opt" demo_disk (untar (demo_archive_env "" bad) "" "/opt" demo_disk).1.
Proof.
  split; [vm_compute; reflexivity|].
  apply (untar_stays_inside (demo_archive_env "" [demo_entry false "x/../../etc/passwd" "evil"]) "" "/opt" demo_disk).
  apply clean_dir_computed. vm_compute. reflexivity.
Defined.

Lemma demo_tmp_clean : clean_dir (path_join [p_TargetDirectory demo_archive_properties; "tmp"]).
Proof. apply clean_dir_computed. vm_compute. reflexivity. Qed.

Definition demo_install (body : string) :=
  watch (demo_archive_env body demo_archive) demo_archive_view demo_archive_watcher demo_disk.

Lemma demo_install_ends body o : (demo_install body).2 = o → demo_install body = ((demo_install body).1, o).
Proof. intros <-. apply surjective_pairing. Qed.

Definition demo_mismatch : string :=
  "download failed: archive checksum " +:+ demo_hash_go 64 "tampered" +:+ " != " +:+ demo_hash_go 64 "archive" +:+ " missmatch".

(** A download with another checksum. *)
Lemma failed_download_keeps_archive_witness :
  (demo_install "tampered").2 = Err demo_mismatch ∧ keeps_outside "/opt/tmp" demo_disk (demo_install "tampered").1.
Proof.
  assert ((demo_install "tampered").2 = Err demo_mismatch) as H by (vm_compute; reflexivity). split; [exact H|].
  exact (failed_download_keeps_archive (demo_archive_env "tampered" demo_archive) demo_archive_properties
    (demo_temp_names _ _) demo_tmp_clean demo_archive_view demo_archive_watcher demo_disk (demo_install "tampered").1
    demo_mismatch eq_refl (demo_install_ends "tampered" _ H) eq_refl).
Defined.

Lemma demo_creates : creates_path demo_archive_properties ≠ "/" ∧ ∀ rel, rel_path rel →
  inside (path_join [p_TargetDirectory demo_archive_properties; "tmp"]) (creates_path demo_archive_properties +:+ rel) = false.
Proof. split; [vm_compute; discriminate|]. intros rel [->|[r ->]]; vm_compute; reflexivity. Qed.

Lemma deployed_was_verified_witness :
  (demo_install "archive").2 = Ok Downloaded ∧ (demo_install "archive").1 !! "/opt/app/run" = Some (File "echo") ∧
  ∃ tf td t0 t1, downloaded (demo_archive_env "archive" demo_archive) demo_archive_properties t0 tf ∧
    verify (demo_archive_env "archive" demo_archive) demo_archive_properties t1 (path_join [td; "app"]) = Ok tt.
Proof.
  assert ((demo_install "archive").2 = Ok Downloaded) as H by (vm_compute; reflexivity). split; [exact H|].
  split; [vm_compute; reflexivity|].
  destruct (deployed_was_verified (demo_archive_env "archive" demo_archive) demo_archive_properties
    (demo_temp_names _ _) demo_tmp_clean demo_creates eq_refl demo_archive_view demo_archive_watcher demo_disk
    (demo_install "archive").1 eq_refl (demo_install_ends "archive" _ H)) as (tf & td & t0 & t1 & Hd & _ & Hv & _).
  exists tf, td, t0, t1. split; [exact Hd|]. apply Hv. discriminate.
Defined.
