(* ===== verification/PluginsWatcher.v ===== *)
(** * The plugins watcher

    aagent/watchers/pluginswatcher: a signed list of plugins, found in a machine's data,
    is turned into manager machines next to it, and those not listed are removed.  The
    list's encoding, signatures, the expression language and the template are arguments;
    directories are a tree. *)
From S2P Require Import Prelude Regex ArchiveWatcher GoLib Files Util Tree Sha256Sums Machine Watchers.

Inductive State := Unknown | Skipped | Error | Updated | Unchanged.

Definition stateNames (s : State) : string :=
  match s with
  | Unknown => "unknown" | Skipped => "skipped" | Error => "error" | Updated => "updated" | Unchanged => "unchanged"
  end.

Record ManagedPlugin := {
  mp_Name : string;
  mp_NamePrefix : string;
  mp_Source : string;
  mp_Username : string;
  mp_Password : string;
  mp_ContentChecksumsChecksum : string;
  mp_ArchiveChecksum : string;
  mp_Matcher : string;
  mp_Governor : string;
  mp_Interval : string;
  mp_Target : string;
}.

Definition set_context (prefix interval target : string) (m : ManagedPlugin) : ManagedPlugin :=
  {| mp_Name := mp_Name m; mp_NamePrefix := prefix; mp_Source := mp_Source m; mp_Username := mp_Username m;
     mp_Password := mp_Password m; mp_ContentChecksumsChecksum := mp_ContentChecksumsChecksum m;
     mp_ArchiveChecksum := mp_ArchiveChecksum m; mp_Matcher := mp_Matcher m; mp_Governor := mp_Governor m;
     mp_Interval := interval; mp_Target := target |}.

Record Properties := {
  p_DataItem : string;
  p_PurgeUnknown : bool;
  p_PluginManageInterval : Z;
  p_PublicKey : string;
  p_Directory : string;
  p_ManagerMachinePrefix : string;
}.

Definition validate (machine_directory : string) (p : Properties) : res Properties :=
  if String.eqb (p_DataItem p) "" then Err "data_item is required"
  else if String.eqb machine_directory "" && String.eqb (p_Directory p) "" then Err "machine store is not configured"
  else if str_contains (p_ManagerMachinePrefix p) "_" then Err "manager_machine_prefix may not contain underscore"
  else Ok (if (p_PluginManageInterval p =? 0)%Z
           then {| p_DataItem := p_DataItem p; p_PurgeUnknown := p_PurgeUnknown p;
                   p_PluginManageInterval := 2 * Minute; p_PublicKey := p_PublicKey p; p_Directory := p_Directory p;
                   p_ManagerMachinePrefix := p_ManagerMachinePrefix p |}
           else p).

(** [compiled] is the key of the build. *)
Definition setProperties (compiled machine_directory : string) (rawprop : res Properties) : res Properties :=
  p ← rawprop;
  validate machine_directory
    {| p_DataItem := p_DataItem p; p_PurgeUnknown := p_PurgeUnknown p; p_PluginManageInterval := p_PluginManageInterval p;
       p_PublicKey := if String.eqb compiled "" then p_PublicKey p else compiled;
       p_Directory := p_Directory p;
       p_ManagerMachinePrefix := if String.eqb (p_ManagerMachinePrefix p) "" then "mm" else p_ManagerMachinePrefix p |}.

Record PluginsWatcher := {
  pw_base : Watcher;
  pw_properties : Properties;
  pw_interval : Z;
  pw_previous : State;
  pw_previousManaged : list ManagedPlugin;
}.

Definition set_key (k : string) (p : Properties) : Properties :=
  {| p_DataItem := p_DataItem p; p_PurgeUnknown := p_PurgeUnknown p; p_PluginManageInterval := p_PluginManageInterval p;
     p_PublicKey := k; p_Directory := p_Directory p; p_ManagerMachinePrefix := p_ManagerMachinePrefix p |}.

(** The signing key of the machine wins over the others. *)
Definition NewPlugins `{TimeLib} (compiled machine_directory signer_key name : string) (states : list string)
    (required : list ForeignMachineState) (failEvent successEvent interval : string) (ai : Z) (rawprop : res Properties) :
    res PluginsWatcher :=
  base ← NewWatcher name "plugins" ai states required true failEvent successEvent;
  props ← map_err (λ e, "could not set properties: " +:+ e) (setProperties compiled machine_directory rawprop);
  i ← (if String.eqb interval "" then Ok 0%Z
       else
         i ← map_err (λ e, "invalid interval: " +:+ e) (ParseDuration interval);
         if (i <? 2 * Second)%Z then Err ("interval " +:+ RenderDuration i +:+ " is too small") else Ok i);
  Ok {| pw_base := base; pw_properties := if String.eqb signer_key "" then props else set_key signer_key props;
        pw_interval := i; pw_previous := Unknown; pw_previousManaged := [] |}.

(** ** Specifications *)

Record Specification := { sp_Plugins : string; sp_Signature : string }.

(** Signatures and the encodings of a specification in values of type [V]. *)
Class PluginLib (V : Type) := {
  ed25519_Verify : string → string → string → bool;
  ed25519_Sign : string → string → string;
  json_spec : Specification → string;
  decode_spec : V → res Specification;
  (** [null] entries of the list are [None] *)
  json_plugins : string → res (list (option ManagedPlugin));
}.

Section Spec.
Context {V : Type} `{PL : PluginLib V}.

Definition VerifySignature (s : Specification) (key : string) : res bool :=
  match hex_decode (sp_Signature s) with
  | None => Err "invalid signature data: invalid hex"
  | Some sig =>
      if negb (Nat.eqb (String.length key) 32) then Err "invalid public key size"
      else Ok (ed25519_Verify key (sp_Plugins s) sig)
  end.

(** [key_file] is the key pair of a seed file of that name, if there is one. *)
Definition Encode (key_file : string → option (res string)) (key : string) (s : Specification) : res string :=
  if String.eqb key "" then Ok (json_spec s)
  else
    pk ← (match key_file key with
          | Some pk => pk
          | None => match hex_decode key with Some k => Ok k | None => Err "encoding/hex: invalid" end
          end);
    if negb (Nat.eqb (String.length pk) 64) then Err "invalid private key size"
    else Ok (json_spec {| sp_Plugins := sp_Plugins s; sp_Signature := hex_encode (ed25519_Sign pk (sp_Plugins s)) |}).

End Spec.

(** ** Managing machines *)

(** What the world answers to one watch. *)
Record manage_env := {
  me_Match : string → res bool;
  me_render : ManagedPlugin → res string;
  me_duration_String : Z → string;
  (** the errors of calls on a path *)
  me_RemoveAll : string → res ();
  me_MkdirAll : string → res ();
  me_WriteFile : string → res ();
  me_sleep : res ();
}.

Section Watch.
Context `{SH : Sha256} {M V : Type} `{WH : WatcherHost M V} `{PL : PluginLib V}.
Variable e : manage_env.

Abbreviation TreeM := (ST tree string).

Definition IsNodeMatch (matcher : string) : res bool := if String.eqb matcher "" then Ok true else me_Match e matcher.

Definition targetDirForManagedPlugins (machine_directory : string) (p : Properties) : string :=
  if negb (String.eqb (p_Directory p) "") then p_Directory p else path_dir machine_directory.

Definition targetDirForManagerMachine (machine_directory : string) (p : Properties) (m : string) : string :=
  path_join [path_dir machine_directory; p_ManagerMachinePrefix p +:+ "_" +:+ m].

Definition targetDirForManagedPlugin (machine_directory : string) (p : Properties) (m : string) : string :=
  path_join [targetDirForManagedPlugins machine_directory p; m].

(** [strings.SplitN(s, "_", 2)] of a string that has the separator. *)
Fixpoint cut_underscore (s : string) : option (string * string) :=
  match s with
  | EmptyString => None
  | String c r =>
      if Ascii.eqb c "_" then Some ("", r)
      else match cut_underscore r with
           | Some (a, b) => Some (String c a, b)
           | None => None
           end
  end.

(** Managers are looked for where plugins go, not where managers are made. *)
Definition currentPlugins (machine_directory : string) (p : Properties) (t : tree) : res (list string) :=
  dirs ← ReadDir_dirs (targetDirForManagedPlugins machine_directory p) t;
  Ok (omap (λ d, match cut_underscore d with
                 | Some (a, b) => if String.eqb a (p_ManagerMachinePrefix p) then Some b else None
                 | None => None
                 end) (dirs : list string)).

Definition keeps (desired : list ManagedPlugin) (m : string) : bool :=
  existsb (λ d, negb (String.eqb (mp_Name d) "") && String.eqb m (mp_Name d) &&
                match IsNodeMatch (mp_Matcher d) with Ok b => b | _ => false end) desired.

(** [os.RemoveAll]: whether it worked. *)
Definition remove (path : string) : TreeM bool :=
  match me_RemoveAll e path with
  | Ok _ => modify (RemoveAll path);; mret true
  | Err _ => mret false
  | Panic p => panic p
  end.

Fixpoint purge_loop (dir : string) (p : Properties) (desired : list ManagedPlugin) (current : list string) (purged : bool) :
    TreeM bool :=
  match current with
  | [] => mret purged
  | m :: rest =>
      if keeps desired m then purge_loop dir p desired rest purged
      else
        ok ← remove (targetDirForManagerMachine dir p m);
        if negb ok then purge_loop dir p desired rest purged
        else
          lift (me_sleep e);;
          ok ← remove (targetDirForManagedPlugin dir p m);
          purge_loop dir p desired rest (if (ok : bool) then true else purged)
  end.

Definition purgeUnknownPlugins (dir : string) (p : Properties) (desired : list ManagedPlugin) : TreeM bool :=
  t ← gets id;
  current ← lift (currentPlugins dir p t);
  purge_loop dir p desired current false.

(** Makes the directory and writes the machine: whether it did. *)
Definition write_machine (targetDir spec : string) : TreeM bool := λ t,
  match me_MkdirAll e targetDir, MkdirAll targetDir t with
  | Ok _, Ok t1 =>
      match me_WriteFile e (path_join [targetDir; "machine.yaml"]), WriteFile (path_join [targetDir; "machine.yaml"]) spec t1 with
      | Ok _, Ok t2 => (t2, Ok true)
      | _, _ => (match me_RemoveAll e targetDir with Ok _ => RemoveAll targetDir t1 | _ => t1 end, Ok false)
      end
  | _, _ => (t, Ok false)
  end.

(** One desired plugin: whether its machine was written. *)
Definition manage_plugin (dir : string) (p : Properties) (m : ManagedPlugin) : TreeM bool :=
  if String.eqb (mp_Name m) "" then mret false
  else
    match IsNodeMatch (mp_Matcher m), me_render e m with
    | Ok true, Ok spec =>
        let targetDir := targetDirForManagerMachine dir p (mp_Name m) in
        let target := path_join [targetDir; "machine.yaml"] in
        t ← gets id;
        if FileExist t target then
          match FileHasSha256Sum t target (Sha256HashBytes spec) with
          | Ok (false, _) =>
              ok ← remove targetDir;
              if (ok : bool) then write_machine targetDir spec else throw ("could not remove " +:+ targetDir)
          | _ => mret false
          end
        else write_machine targetDir spec
    | _, _ => mret false
    end.

Fixpoint manage_loop (dir : string) (p : Properties) (desired : list ManagedPlugin) (updated : bool) : TreeM bool :=
  match desired with
  | [] => mret updated
  | m :: rest =>
      wrote ← manage_plugin dir p m;
      manage_loop dir p rest (updated || wrote)
  end.

(** ** The desired plugins *)

Definition drop_item (item : string) : ST M string () := _ ← attempt (host_DataDelete item); mret tt.

Definition loadAndValidateData (p : Properties) : ST M string string :=
  dat ← gets (host_DataGet (p_DataItem p));
  match dat with
  | None => throw ("data item " +:+ p_DataItem p +:+ " not present")
  | Some dat =>
      spec ← lift (decode_spec dat);
      (if String.eqb (p_PublicKey p) "" then mret tt
       else if String.eqb (sp_Signature spec) "" then drop_item (p_DataItem p);; throw "invalid data_item"
       else
         match hex_decode (p_PublicKey p) with
         | None => throw "invalid data_item"
         | Some pk =>
             match VerifySignature spec pk with
             | Ok true => mret tt
             | _ => drop_item (p_DataItem p);; throw "invalid data_item"
             end
         end);;
      match b64_decode (sp_Plugins spec) with
      | None => throw "illegal base64 data"
      | Some pb => mret pb
      end
  end.

(** The first missing property of a plugin. *)
Definition check_plugin (m : ManagedPlugin) : res () :=
  if String.eqb (mp_Name m) "" then Err "name is required"
  else if String.eqb (mp_Source m) "" then Err ("source is required for " +:+ mp_Name m)
  else if String.eqb (mp_ArchiveChecksum m) "" then Err ("checksum is required for " +:+ mp_Name m)
  else if String.eqb (mp_Target m) "" then Err ("could not determine target for managed plugin for " +:+ mp_Name m)
  else if String.eqb (mp_ContentChecksumsChecksum m) "" then Err ("verify_checksum is required for " +:+ mp_Name m)
  else Ok tt.

(** A [null] in the list is dereferenced. *)
Fixpoint check_plugins (dir : string) (p : Properties) (l : list (option ManagedPlugin)) : res (list ManagedPlugin) :=
  match l with
  | [] => Ok []
  | None :: _ => Panic "invalid memory address or nil pointer dereference"
  | Some m :: rest =>
      let m := set_context (p_ManagerMachinePrefix p) (me_duration_String e (p_PluginManageInterval p))
                 (targetDirForManagedPlugins dir p) m in
      check_plugin m;;
      ms ← check_plugins dir p rest;
      Ok (m :: ms)
  end.

Definition desiredState (dir : string) (p : Properties) : ST M string (list ManagedPlugin) :=
  data ← loadAndValidateData p;
  desired ← lift (map_err (λ err, "invalid plugins specification: " +:+ err) (json_plugins data));
  lift (check_plugins dir p desired).

(** The machine, the directories and the plugins last desired. *)
Abbreviation World := (M * tree * list ManagedPlugin)%type.
Definition on_machine {A} (f : ST M string A) : ST World string A := λ w,
  let '(m, o) := f w.1.1 in ((m, w.1.2, w.2), o).
Definition on_tree {A} (f : TreeM A) : ST World string A := λ w,
  let '(t, o) := f w.1.2 in ((w.1.1, t, w.2), o).

Definition watch (w : PluginsWatcher) : ST World string State :=
  let p := pw_properties w in
  v ← gets (λ x, host_view x.1.1);
  if negb (ShouldWatch (Some v) (pw_base w)) then mret Skipped
  else
    dir ← gets (λ x, host_Directory x.1.1);
    desired ← on_machine (desiredState dir p);
    modify (λ x, (x.1, desired));;
    purged ← (if p_PurgeUnknown p then on_tree (purgeUnknownPlugins dir p desired) else mret false);
    updated ← on_tree (manage_loop dir p desired false);
    mret (if purged || updated then Updated else Unchanged).

Definition handleCheck (w : PluginsWatcher) (s : State) : ST M string () :=
  let notify := modify (host_NotifyWatcherState (wt_name (pw_base w)) (stateNames s)) in
  match s with
  | Error => notify;; fire_event (FailureTransition (pw_base w))
  | Updated => notify;; fire_event (SuccessTransition (pw_base w))
  | _ => mret tt
  end.

(** The time of the last watch is never set: the interval holds nothing back. *)
Definition performWatch (w : PluginsWatcher) : ST (M * tree) string PluginsWatcher := λ mt,
  match watch w (mt, pw_previousManaged w) with
  | (x, Panic why) => (x.1, Panic why)
  | (x, o) =>
      let s := match o with Ok s => s | _ => Error end in
      match handleCheck w s x.1.1 with
      | (m, Panic why) => ((m, x.1.2), Panic why)
      | (m, _) => ((m, x.1.2), Ok {| pw_base := pw_base w; pw_properties := pw_properties w; pw_interval := pw_interval w;
                                     pw_previous := s; pw_previousManaged := x.2 |})
      end
  end.

End Watch.

(** * The plugins watcher: properties

    Only a signed list changes anything; what is listed is deployed, once. *)

Section Watch.
Context `{SH : Sha256} {M V : Type} `{WH : WatcherHost M V} `{PL : PluginLib V}.
Variable e : manage_env.

(** ** Signatures *)

(** The list in the data of the machine is signed by the key of the watcher. *)
Definition signed_list (p : Properties) (m : M) : Prop :=
  ∃ dat spec pk sig, host_DataGet (p_DataItem p) m = Some dat ∧ decode_spec dat = Ok spec ∧
    hex_decode (p_PublicKey p) = Some pk ∧ hex_decode (sp_Signature spec) = Some sig ∧
    ed25519_Verify pk (sp_Plugins spec) sig = true.

Lemma load_signed p m m' data : p_PublicKey p ≠ "" → loadAndValidateData p m = (m', Ok data) → signed_list p m.
Proof.
  intros Hk. unfold loadAndValidateData, gets. unfold mbind at 1, ST_bind at 1.
  destruct (host_DataGet (p_DataItem p) m) as [dat|] eqn:Hd; [|done]. unfold mbind at 1, ST_bind at 1, lift.
  destruct (decode_spec dat) as [spec|?|?] eqn:Hs; [|done..]. rewrite (proj2 (String.eqb_neq _ _) Hk).
  unfold mbind at 1, ST_bind at 1.
  assert (∀ m0, (drop_item (p_DataItem p);; throw (A := ()) "invalid data_item") m0 =
    ((drop_item (p_DataItem p) m0).1, match (drop_item (p_DataItem p) m0).2 with Panic q => Panic q | _ => Err "invalid data_item" end)) as Hdrop.
  { intros m0. unfold mbind, ST_bind. unfold drop_item, attempt, mbind, ST_bind.
    destruct (host_DataDelete _ m0) as [m1 [?|?|?]]; done. }
  destruct (String.eqb (sp_Signature spec) "").
  { rewrite Hdrop. by destruct (drop_item _ m) as [m1 [?|?|?]]. }
  destruct (hex_decode (p_PublicKey p)) as [pk|] eqn:Hpk; [|done].
  destruct (VerifySignature spec pk) as [[|]|?|?] eqn:Hv.
  2,3,4: rewrite Hdrop; by destruct (drop_item _ m) as [m1 [?|?|?]].
  intros _. unfold VerifySignature in Hv. destruct (hex_decode (sp_Signature spec)) as [sig|] eqn:Hsig; [|done].
  destruct (negb _); [done|]. injection Hv as Hv. by exists dat, spec, pk, sig.
Qed.

Lemma on_machine_tree {A} (f : ST M string A) (x : M * tree * list ManagedPlugin) : (on_machine f x).1.1.2 = x.1.2.
Proof. unfold on_machine. by destruct (f x.1.1). Qed.

(** With a key configured nothing on disk changes on the word of an unsigned list:
    unless the list in the machine's data carries a signature of the key over its plugins,
    a watch creates, changes and removes no file or directory. *)
Theorem unsigned_list_changes_nothing (w w' : PluginsWatcher) (m m' : M) (t t' : tree) :
  p_PublicKey (pw_properties w) ≠ "" → ¬ signed_list (pw_properties w) m →
  performWatch e w (m, t) = ((m', t'), Ok w') → t' = t.
Proof.
  intros Hk Hns Hp. unfold performWatch in Hp.
  assert ((watch e w (m, t, pw_previousManaged w)).1.1.2 = t) as Ht.
  { unfold watch, gets. unfold mbind at 1, ST_bind at 1. destruct (negb _); [done|].
    unfold mbind at 1, ST_bind at 1. unfold mbind at 1, ST_bind at 1. cbn [fst snd].
    pose proof (on_machine_tree (desiredState e (host_Directory m) (pw_properties w)) (m, t, pw_previousManaged w)) as Ho.
    destruct (on_machine _ _) as [x [l|?|?]] eqn:Ed; [|exact Ho..]. exfalso. apply Hns.
    unfold on_machine, desiredState in Ed. cbn [fst snd] in Ed. unfold mbind at 1, ST_bind at 1 in Ed.
    destruct (loadAndValidateData (pw_properties w) m) as [m1 [data|?|?]] eqn:El; [|done..].
    by apply load_signed in El. }
  destruct (watch e w (m, t, pw_previousManaged w)) as [x o]. cbn in Ht. destruct o as [s|?|?]; [| |done];
    (destruct (handleCheck w _ x.1.1) as [m1 [?|?|?]]; simplify_eq/=; done).
Qed.

(** ** Deployment *)

Variable dir : string.
Variable p : Properties.
Let tdir (d : ManagedPlugin) : string := targetDirForManagerMachine dir p (mp_Name d).
Let tfile (d : ManagedPlugin) : string := path_join [tdir d; "machine.yaml"].

(** The directories [MkdirAll] makes. *)
Definition made_dirs (path : string) : list string := prefixes "/" (List.filter (λ e, negb (String.eqb e "")) (split path "/")).

(** The places of the machines of a list do not overlap. *)
Definition separate (l : list ManagedPlugin) : Prop :=
  (∀ d, d ∈ l → tdir d ≠ "/" ∧ inside (tdir d) (tfile d) = true ∧ path_dir (tfile d) = tdir d ∧
     tdir d ∈ made_dirs (tdir d) ∧ mp_Name d ≠ "") ∧
  (∀ d d', d ∈ l → d' ∈ l → tfile d ∉ made_dirs (tdir d')) ∧
  (∀ d d', d ∈ l → d' ∈ l → mp_Name d ≠ mp_Name d' → inside (tdir d') (tfile d) = false).

(** No file is where a directory has to be made. *)
Definition free (l : list ManagedPlugin) (t : tree) : Prop :=
  ∀ d x c, d ∈ l → x ∈ made_dirs (tdir d) → t !! x ≠ Some (File c).

(** The calls on files work. *)
Definition works : Prop :=
  (∀ q, me_RemoveAll e q = Ok tt) ∧ (∀ q, me_MkdirAll e q = Ok tt) ∧ (∀ q, me_WriteFile e q = Ok tt).

(** A plugin for this node, and its machine. *)
Definition wanted (d : ManagedPlugin) (spec : string) : Prop :=
  IsNodeMatch e (mp_Matcher d) = Ok true ∧ me_render e d = Ok spec.
Definition deployed (t : tree) (d : ManagedPlugin) : Prop := ∀ spec, wanted d spec → t !! tfile d = Some (File spec).

(** The machine that is there is not told apart from the wanted one only by its content. *)
Definition no_collision (d : ManagedPlugin) (t : tree) : Prop :=
  ∀ spec c, wanted d spec → t !! tfile d = Some (File c) → sha256_hex c = sha256_hex spec → c = spec.

Lemma make_dirs_ok l t : (∀ x c, x ∈ l → t !! x ≠ Some (File c)) →
  ∃ t', make_dirs l t = Ok t' ∧ ∀ q, t' !! q = if decide (q ∈ l) then Some Dir else t !! q.
Proof.
  revert t. induction l as [|x l IH]; intros t Hl.
  - exists t. split; [done|]. intros q. by rewrite decide_False by apply not_elem_of_nil.
  - destruct (IH (<[x := Dir]> t)) as (t' & Ht & Hq).
    { intros y c Hy. destruct (decide (x = y)) as [->|Hne]; [by rewrite lookup_insert_eq|].
      rewrite lookup_insert_ne by done. apply Hl. by apply elem_of_cons; right. }
    exists t'. split.
    + cbn. destruct (t !! x) as [[|c]|] eqn:E; [done| |done]. exfalso. apply (Hl x c); [by apply elem_of_cons; left|done].
    + intros q. rewrite Hq. destruct (decide (q ∈ l)) as [Hin|Hin].
      * by rewrite decide_True by (apply elem_of_cons; by right).
      * destruct (decide (x = q)) as [->|Hne].
        -- rewrite lookup_insert_eq, decide_True; [done|]. apply elem_of_cons. by left.
        -- rewrite lookup_insert_ne, decide_False; [done| |done]. rewrite elem_of_cons. intros [->|?]; done.
Qed.

(** Nothing changes but in the directory of a plugin and the directories made for it. *)
Definition same_elsewhere (d : ManagedPlugin) (t t' : tree) : Prop :=
  ∀ q, inside (tdir d) q = false → q ∉ made_dirs (tdir d) → t' !! q = t !! q.

Lemma write_machine_spec l d spec t : works → separate l → d ∈ l → free l t →
  t !! tfile d = None ∨ (∃ c, t !! tfile d = Some (File c)) →
  ∃ t', write_machine e (tdir d) spec t = (t', Ok true) ∧ t' !! tfile d = Some (File spec) ∧ free l t' ∧
    same_elsewhere d t t'.
Proof.
  intros (_ & Hmk & Hwr) (Hs1 & Hs2 & _) Hd Hf Hno. destruct (Hs1 d Hd) as (Hroot & Hin & Hpd & Hmade & _).
  destruct (make_dirs_ok (made_dirs (tdir d)) t) as (t1 & Ht1 & Hq); [intros x c Hx; by apply (Hf d)|].
  assert (t1 !! tfile d = t !! tfile d) as Hfile by by rewrite Hq, decide_False by by apply Hs2.
  assert (t1 !! tdir d = Some Dir) as Hdir by by rewrite Hq, decide_True.
  exists (<[tfile d := File spec]> t1). split_and!.
  - unfold write_machine. rewrite Hmk. change (MkdirAll (tdir d) t) with (make_dirs (made_dirs (tdir d)) t). rewrite Ht1.
    fold (tfile d). rewrite Hwr. unfold WriteFile. rewrite Hpd, Hdir, Hfile. by destruct Hno as [-> |[c ->]].
  - by rewrite lookup_insert_eq.
  - intros d' x c Hd' Hx. destruct (decide (tfile d = x)) as [<-|Hne]; [by destruct (Hs2 d d' Hd Hd')|].
    rewrite lookup_insert_ne by done. rewrite Hq. case_decide; [done|]. by apply (Hf d').
  - intros q Hout Hm. assert (tfile d ≠ q) by (intros <-; congruence).
    by rewrite lookup_insert_ne, Hq, decide_False.
Qed.

Lemma manage_plugin_spec l d t : works → separate l → no_collision d t →
  d ∈ l → free l t → t !! tfile d ≠ Some Dir →
  ∃ t' wrote, manage_plugin e dir p d t = (t', Ok wrote) ∧ deployed t' d ∧ free l t' ∧ same_elsewhere d t t' ∧
    (wrote = false → t' = t) ∧ (deployed t d → wrote = false).
Proof.
  intros Hw Hs Hinj Hd Hf Hnd. pose proof Hs as (Hs1 & Hs2 & Hs3). destruct (Hs1 d Hd) as (Hroot & Hin & _ & _ & Hname).
  unfold manage_plugin. rewrite (proj2 (String.eqb_neq _ _) Hname).
  assert (∀ t, (∀ spec, ¬ wanted d spec) → deployed t d) as Hunwanted by (intros u Hu spec Hspec; by destruct (Hu spec)).
  destruct (IsNodeMatch e (mp_Matcher d)) as [[|]|?|?] eqn:Hm.
  2,3,4: exists t, false; split_and!; [done|apply Hunwanted; intros spec [Hw' _]; congruence|done|done|done|done].
  destruct (me_render e d) as [spec|?|?] eqn:Hr.
  2,3: exists t, false; split_and!; [done|apply Hunwanted; intros spec [_ Hw']; congruence|done|done|done|done].
  assert (∀ u, deployed u d ↔ u !! tfile d = Some (File spec)) as Hdep.
  { intros u. split; [intros Hu; by apply Hu|]. intros Hu s [_ Hs']. congruence. }
  unfold gets. unfold mbind at 1, ST_bind at 1. cbn [id]. fold (tdir d). fold (tfile d).
  assert (tfile d ≠ "") as Hne.
  { intros E. unfold inside in Hin. apply orb_true_iff in Hin as [Hin|Hin].
    - apply String.eqb_eq in Hin. apply (f_equal path_dir) in Hin. destruct (Hs1 d Hd) as (_ & _ & Hpd & Hmade & _).
      rewrite E in Hpd. cbn in Hpd. rewrite <- Hpd in Hmade. vm_compute in Hmade. set_solver.
    - unfold under in Hin. rewrite E in Hin. destruct (String.eqb (tdir d) "/"); [done|]. by destruct (tdir d). }
  unfold FileExist. rewrite (proj2 (String.eqb_neq _ _) Hne). cbn [negb andb].
  unfold FileHasSha256Sum, Sha256HashFile, read_file, Sha256HashBytes, mbind, outcome_bind.
  destruct (t !! tfile d) as [[|c]|] eqn:Ht; [done| |]; cbn.
  - destruct (String.eqb_spec (sha256_hex c) (sha256_hex spec)) as [Heq|Hneq].
    + apply (Hinj spec c (conj Hm Hr) Ht) in Heq as ->. exists t, false. rewrite Hdep. by split_and!.
    + unfold remove. destruct Hw as (Hrm & Hw). rewrite Hrm. unfold mbind, ST_bind, modify, mret, ST_ret.
      destruct (write_machine_spec l d spec (RemoveAll (tdir d) t) (conj Hrm Hw) Hs Hd) as (t' & Hwrite & Hfile & Hfree & Hk).
      { intros d' x c' Hd' Hx. rewrite RemoveAll_lookup. destruct (_ || _); [done|]. by apply (Hf d'). }
      { left. rewrite RemoveAll_lookup. unfold inside in Hin. by rewrite Hin. }
      exists t', true. rewrite Hwrite, !Hdep. split_and!; [done|done|done| |done|congruence].
      intros q Hout Hq. rewrite (Hk q Hout Hq), RemoveAll_lookup. unfold inside in Hout. by rewrite Hout.
  - destruct (write_machine_spec l d spec t Hw Hs Hd Hf) as (t' & Hwrite & Hfile & Hfree & Hk); [by left|].
    exists t', true. rewrite Hwrite, !Hdep. split_and!; [done..|congruence].
Qed.

Lemma manage_loop_spec L l b t : works → separate L → (∀ d, d ∈ l → no_collision d t) →
  (∀ d, d ∈ l → d ∈ L) → NoDup (map mp_Name l) → free L t → (∀ d, d ∈ L → t !! tfile d ≠ Some Dir) →
  ∃ t' u, manage_loop e dir p l b t = (t', Ok (b || u)) ∧ (∀ d, d ∈ l → deployed t' d) ∧
    free L t' ∧ (∀ d, d ∈ L → t' !! tfile d ≠ Some Dir) ∧
    (∀ d, d ∈ L → mp_Name d ∉ map mp_Name l → t' !! tfile d = t !! tfile d) ∧
    ((∀ d, d ∈ l → deployed t d) → t' = t ∧ u = false).
Proof.
  intros Hw Hs. revert b t. induction l as [|d l IH]; intros b t Hinj Hsub Hnd Hf Hdirs.
  - exists t, false. rewrite orb_false_r. split_and!; try done. intros d Hd. by apply not_elem_of_nil in Hd.
  - cbn in Hnd. apply NoDup_cons in Hnd as [Hnew Hnd]. assert (d ∈ L) as Hd by (apply Hsub, elem_of_cons; by left).
    destruct (manage_plugin_spec L d t Hw Hs (Hinj d ltac:(apply elem_of_cons; by left)) Hd Hf (Hdirs d Hd)) as (t1 & wrote & Hm & Hdep & Hf1 & Hsame & Hno & Hyes).
    assert (∀ d', d' ∈ L → mp_Name d' ≠ mp_Name d → t1 !! tfile d' = t !! tfile d') as Hothers.
    { intros d' Hd' Hne. destruct Hs as (_ & Hs2 & Hs3). apply Hsame; [by apply Hs3|by apply Hs2]. }
    assert (∀ d', d' ∈ L → t1 !! tfile d' ≠ Some Dir) as Hdirs1.
    { intros d' Hd'. destruct (decide (mp_Name d' = mp_Name d)) as [Heq|Hne]; [|rewrite Hothers; auto].
      assert (tfile d' = tfile d) as -> by (unfold tfile, tdir; by rewrite Heq).
      destruct wrote; [|rewrite Hno by done; by apply Hdirs].
      destruct (t1 !! tfile d) as [[|]|] eqn:E; [|done..]. exfalso.
      unfold manage_plugin in Hm. destruct (String.eqb _ _); [done|]. destruct (IsNodeMatch e (mp_Matcher d)) as [[|]|?|?] eqn:Hma; try done.
      destruct (me_render e d) as [spec|?|?] eqn:Hr; try done. specialize (Hdep spec (conj Hma Hr)). congruence. }
    assert (∀ x, x ∈ l → no_collision x t1) as Hinj1.
    { intros x Hx spec c Hspec Hc Hh. apply (Hinj x ltac:(apply elem_of_cons; by right) spec c Hspec); [|done].
      rewrite <- Hothers; [done| |].
      - apply Hsub, elem_of_cons. by right.
      - intros Heq. apply Hnew. rewrite <- Heq. by apply list_elem_of_fmap_2. }
    destruct (IH (b || wrote) t1 Hinj1 (λ x Hx, Hsub x (proj2 (elem_of_cons _ _ _) (or_intror Hx))) Hnd Hf1 Hdirs1)
      as (t2 & u & Hl & Hdep2 & Hf2 & Hdirs2 & Hoth2 & Hidem).
    exists t2, (wrote || u). split_and!; [| |done|done| |].
    + cbn [manage_loop]. unfold mbind, ST_bind. rewrite Hm, Hl. by rewrite orb_assoc.
    + intros x Hx. apply elem_of_cons in Hx as [->|Hx]; [|by apply Hdep2].
      intros spec Hspec. rewrite Hoth2 by done. by apply Hdep.
    + intros x Hx Hnin. cbn in Hnin. apply not_elem_of_cons in Hnin as [Hne Hnin]. rewrite Hoth2 by done. by apply Hothers.
    + intros Hall. assert (wrote = false) as -> by (apply Hyes, Hall, elem_of_cons; by left).
      rewrite (Hno eq_refl) in *. apply Hidem. intros x Hx. apply Hall, elem_of_cons. by right.
Qed.

(** When the calls on files work and the machines of the listed plugins have places of
    their own, one pass of the watcher leaves every plugin of the list that is for this node
    with exactly the machine its specification renders to, and the next pass changes
    nothing. *)
Theorem listed_plugins_deployed (l : list ManagedPlugin) (t : tree) :
  works → separate l → NoDup (map mp_Name l) → free l t →
  (∀ d, d ∈ l → t !! tfile d ≠ Some Dir ∧ no_collision d t) →
  ∃ t' updated, manage_loop e dir p l false t = (t', Ok updated) ∧ (∀ d, d ∈ l → deployed t' d) ∧
    manage_loop e dir p l false t' = (t', Ok false).
Proof.
  intros Hw Hs Hnd Hf Hall.
  assert (∀ d, d ∈ l → no_collision d t) as Hinj by (intros d Hd; by apply Hall).
  assert (∀ d, d ∈ l → t !! tfile d ≠ Some Dir) as Hdirs by (intros d Hd; by apply Hall).
  destruct (manage_loop_spec l l false t Hw Hs Hinj (λ d Hd, Hd) Hnd Hf Hdirs) as (t1 & u & Hl & Hdep & Hf1 & Hd1 & _ & _).
  assert (∀ d, d ∈ l → no_collision d t1) as Hinj1.
  { intros d Hd spec c Hspec Hc _. specialize (Hdep d Hd spec Hspec). congruence. }
  destruct (manage_loop_spec l l false t1 Hw Hs Hinj1 (λ d Hd, Hd) Hnd Hf1 Hd1) as (t2 & u2 & Hl2 & _ & _ & _ & _ & Hidem).
  destruct (Hidem Hdep) as [-> ->]. exists t1, u. split_and!; [exact Hl|exact Hdep|exact Hl2].
Qed.

End Watch.

(** ** Plugins for the witnesses *)

#[export] Instance demo_plugin_lib : PluginLib string :=
  {| ed25519_Verify := λ pk m sig, String.eqb sig (pk +:+ m); ed25519_Sign := λ pk m, pk +:+ m;
     json_spec := λ s, sp_Plugins s; decode_spec := λ v, Ok {| sp_Plugins := v; sp_Signature := "" |};
     json_plugins := λ _, Ok [] |}.

Definition demo_plugin (name : string) : ManagedPlugin :=
  {| mp_Name := name; mp_NamePrefix := "mm"; mp_Source := "https://example.net/" +:+ name; mp_Username := "";
     mp_Password := ""; mp_ContentChecksumsChecksum := "x"; mp_ArchiveChecksum := "x"; mp_Matcher := ""; mp_Governor := "";
     mp_Interval := "2m"; mp_Target := "/etc/choria/machine" |}.
Definition demo_manage_env : manage_env :=
  {| me_Match := λ _, Ok true; me_render := λ m, Ok ("name: mm_" +:+ mp_Name m); me_duration_String := itoa;
     me_RemoveAll := λ _, Ok tt; me_MkdirAll := λ _, Ok tt; me_WriteFile := λ _, Ok tt; me_sleep := Ok tt |}.
Definition demo_plugins_properties (purge : bool) : Properties :=
  {| p_DataItem := "plugins"; p_PurgeUnknown := purge; p_PluginManageInterval := 2 * Minute;
     p_PublicKey := "00"; p_Directory := ""; p_ManagerMachinePrefix := "mm" |}.
Definition demo_plugins : PluginsWatcher :=
  {| pw_base := demo_base "plugins"; pw_properties := demo_plugins_properties true; pw_interval := Minute;
     pw_previous := Unknown; pw_previousManaged := [] |}.
Definition demo_list : list ManagedPlugin := [demo_plugin "requests"; demo_plugin "puppet"].
Definition demo_etc : tree :=
  {["/etc" := Dir; "/etc/choria" := Dir; "/etc/choria/machine" := Dir; "/etc/choria/machine/mm_old" := Dir;
    "/etc/choria/machine/mm_puppet" := Dir; "/etc/choria/machine/mm_puppet/machine.yaml" := File "stale"]}.
Definition demo_unsigned : demo_machine := {| dm_State := "s"; dm_events := []; dm_data := {["plugins" := "W10="]} |}.

Lemma unsigned_list_changes_nothing_witness :
  ∃ m t w, performWatch demo_manage_env demo_plugins (demo_unsigned, demo_etc) = ((m, t), Ok w) ∧ pw_previous w = Error ∧
    t = demo_etc.
Proof.
  assert (is_ok (performWatch demo_manage_env demo_plugins (demo_unsigned, demo_etc)).2 = true) as Hok by (vm_compute; reflexivity).
  assert ((match (performWatch demo_manage_env demo_plugins (demo_unsigned, demo_etc)).2 with Ok w => pw_previous w | _ => Unknown end) = Error)
    as Hprev by (vm_compute; reflexivity).
  destruct (performWatch demo_manage_env demo_plugins (demo_unsigned, demo_etc)) as [[m t] [w|?|?]] eqn:E; [|discriminate Hok..].
  exists m, t, w. split; [done|]. split; [exact Hprev|].
  apply (unsigned_list_changes_nothing demo_manage_env demo_plugins w demo_unsigned m demo_etc t); [discriminate| |exact E].
  intros (dat & spec & pk & sig & Hd & Hs & Hpk & Hsig & Hv). injection Hd as <-. injection Hs as <-.
  vm_compute in Hpk, Hsig. injection Hpk as <-. injection Hsig as <-. vm_compute in Hv. discriminate.
Defined.

Lemma listed_plugins_deployed_witness :
  ∃ t u, manage_loop demo_manage_env "/etc/choria/machine/demo" (demo_plugins_properties true) demo_list false demo_etc = (t, Ok u) ∧
    manage_loop demo_manage_env "/etc/choria/machine/demo" (demo_plugins_properties true) demo_list false t = (t, Ok false).
Proof.
  destruct (listed_plugins_deployed demo_manage_env "/etc/choria/machine/demo" (demo_plugins_properties true) demo_list demo_etc)
    as (t & u & H1 & _ & H2).
  - done.
  - unfold separate, demo_list. split; [|split].
    + intros d Hd. repeat (apply elem_of_cons in Hd as [->|Hd]); [| |by apply not_elem_of_nil in Hd];
        (split_and!; [vm_compute; discriminate|vm_compute; reflexivity|vm_compute; reflexivity| |discriminate];
         apply (bool_decide_eq_true_1 _); vm_compute; reflexivity).
    + intros d d' Hd Hd'. apply (bool_decide_eq_false_1 _).
      repeat (apply elem_of_cons in Hd as [->|Hd]); [| |by apply not_elem_of_nil in Hd];
        (repeat (apply elem_of_cons in Hd' as [->|Hd']); [| |by apply not_elem_of_nil in Hd']); vm_compute; reflexivity.
    + intros d d' Hd Hd' Hne.
      repeat (apply elem_of_cons in Hd as [->|Hd]); [| |by apply not_elem_of_nil in Hd];
        (repeat (apply elem_of_cons in Hd' as [->|Hd']); [| |by apply not_elem_of_nil in Hd']);
        first [by destruct Hne | vm_compute; reflexivity].
  - apply (bool_decide_eq_true_1 _). vm_compute. reflexivity.
  - intros d x c Hd Hx Hc.
    assert (forallb (λ d, forallb (λ x, match demo_etc !! x with Some (File _) => false | _ => true end)
      (made_dirs (targetDirForManagerMachine "/etc/choria/machine/demo" (demo_plugins_properties true) (mp_Name d)))) demo_list = true) as Hnone
      by (vm_compute; reflexivity).
    rewrite forallb_elem_of in Hnone. specialize (Hnone d Hd). cbn beta in Hnone.
    rewrite forallb_elem_of in Hnone. specialize (Hnone x Hx). cbn beta in Hnone. rewrite Hc in Hnone. discriminate.
  - intros d Hd. repeat (apply elem_of_cons in Hd as [->|Hd]); [| |by apply not_elem_of_nil in Hd];
      (split; [vm_compute; discriminate|]; intros spec c [_ Hs] Hc Hh; injection Hs as <-; vm_compute in Hc; simplify_eq).
  - exists t, u. split; [exact H1|exact H2].
Defined.

(** A name that is no more than the parent directory, once listed and then dropped: the
    purge removes the directory all machines are in. *)
Example dropped_parent_removes_machines :
  let dir := "/etc/choria/machine/demo" in
  let t := (manage_loop demo_manage_env dir (demo_plugins_properties true) [demo_plugin ".."] false demo_etc).1 in
  let r := purgeUnknownPlugins demo_manage_env dir (demo_plugins_properties true) [] t in
  (map fst (map_to_list r.1), r.2) = (["/etc"], Ok true).
Proof. vm_compute. reflexivity. Qed.

(** Managers are not found, and never purged, when the plugins have a directory of their
    own. *)
Example own_directory_is_never_purged :
  let p := {| p_DataItem := "plugins"; p_PurgeUnknown := true; p_PluginManageInterval := 0; p_PublicKey := "";
              p_Directory := "/opt/plugins"; p_ManagerMachinePrefix := "mm" |} in
  (purgeUnknownPlugins demo_manage_env "/etc/choria/machine/demo" p [] (<["/opt/plugins" := Dir]> demo_etc)).2 = Ok false.
Proof. vm_compute. reflexivity. Qed.

(** A [null] in the list stops the process. *)
Example null_plugin_panics :
  is_panic (check_plugins demo_manage_env "/etc/choria/machine/demo" (demo_plugins_properties true) [None]) = true.
Proof. reflexivity. Qed.
