(* ===== verification/FilterTheorems.v ===== *)
(** * Facts and filters: properties

    Which requests a server acts on, how numeric facts compare, and which
    strings are fact filters. *)
From S2P Require Import Prelude GoLib Regex Files Facts Filters DemoLibs.

(** ** Specification of request matching *)

Section Spec.
Context `{FL : FactLib} `{RX : Regexp} `{EL : !ExprLib}.





(** How one compound filter turns out. *)
Inductive query_result := QueryTrue | QueryFalse | QueryFailed | QueryMalformed.


#[global] Instance query_result_eq_dec : EqDecision query_result.
Proof. solve_decision. Defined.




(** ** The loops *)













End Spec.

(** ** Parsing fact filters *)

(** Bytes that start or continue an operator. *)
Definition operator_bytes : list ascii := ["<"; ">"; "="; "!"]%char.
Definition op_free (s : string) : Prop := ∀ c, c ∈ operator_bytes → no_byte c s.

Lemma op_free_cons c s : op_free (String c s) ↔ (c ∉ operator_bytes) ∧ op_free s.
Proof.
  unfold op_free. setoid_rewrite no_byte_cons. split.
  - intros H. split; [intros Hc; by destruct (H c Hc)|]. intros b Hb. by apply H.
  - intros [Hc H] b Hb. split; [by intros ->|auto].
Qed.

Lemma op_free_nil : op_free "".
Proof. intros c Hc. apply no_byte_nil. Qed.

Lemma op_free_drop n s : op_free s → op_free (drop_bytes n s).
Proof.
  revert s. induction n as [|n IH]; intros s Hs; [by destruct s|].
  destruct s as [|c s]; [done|]. apply op_free_cons in Hs as [_ Hs]. simpl. auto.
Qed.

Lemma op_free_take n s : op_free s → op_free (take_bytes n s).
Proof.
  revert s. induction n as [|n IH]; intros s Hs; destruct s as [|c s]; try apply op_free_nil.
  apply op_free_cons in Hs as [Hc Hs]. simpl. apply op_free_cons. auto.
Qed.

Lemma has_prefix_head p c s a : has_prefix (String c s) (String a p) = true → c = a.
Proof. unfold has_prefix. simpl. by destruct (ascii_dec a c). Qed.

Lemma operator_at_none c s : c ∉ operator_bytes → operator_at (String c s) = None.
Proof.
  intros Hc. unfold operator_at. destruct (List.find _ _) as [op|] eqn:E; [|done].
  apply List.find_some in E as [Hin Hp]. exfalso. apply Hc. unfold operator_bytes.
  simpl in Hin. repeat destruct Hin as [<-|Hin]; try done;
    apply has_prefix_head in Hp as ->; set_solver.
Qed.

Lemma find_operators_free pos l r : op_free l →
  find_operators pos 0 (l +:+ r) = find_operators (pos + String.length l) 0 r.
Proof.
  revert pos. induction l as [|c l IH]; intros pos Hl.
  - simpl. by rewrite Nat.add_0_r.
  - apply op_free_cons in Hl as [Hc Hl]. rewrite append_cons. simpl find_operators.
    rewrite operator_at_none by done. rewrite IH by done. f_equal. simpl. lia.
Qed.

Lemma find_operators_none pos l : op_free l → find_operators pos 0 l = [].
Proof. intros Hl. rewrite <- (append_nil_r l), find_operators_free by done. done. Qed.

Lemma has_operator_free s : op_free s → has_operator s = false.
Proof. intros Hs. unfold has_operator. by rewrite find_operators_none. Qed.

(** An operator of a filter, followed by text without operator bytes, is found
    whole. *)
Lemma find_operators_at pos op r : op ∈ fact_operators → op_free r →
  find_operators pos 0 (op +:+ r) = [(pos, op)].
Proof.
  intros Hop Hr.
  assert (∀ p, find_operators p 0 r = []) as Hn by (intros; by apply find_operators_none).
  assert (operator_at (op +:+ r) = Some op) as Hat.
  { assert (∀ c, c ∈ operator_bytes → has_prefix r (String c "") = false) as Hh.
    { intros c Hc. rewrite has_prefix_single. destruct r as [|a r]; [done|].
      apply op_free_cons in Hr as [Ha _]. apply bool_decide_eq_false. by intros ->. }
    unfold operator_at, validOperators, fact_operators, operator_bytes in *. unfold List.find.
    repeat (apply elem_of_cons in Hop as [->|Hop]); [..|by apply elem_of_nil in Hop];
      rewrite ?append_cons, ?has_prefix_cons; simpl String.append; rewrite ?has_prefix_nil, ?Hh by set_solver; done. }
  unfold fact_operators in Hop.
  repeat (apply elem_of_cons in Hop as [->|Hop]); [..|by apply elem_of_nil in Hop];
    rewrite ?append_cons in *; simpl String.append in *; simpl find_operators; rewrite Hat; simpl; by rewrite ?Hn.
Qed.

(** A fact, an operator and a value written one after the other parse back to
    the same three, provided the fact and the value have no operator bytes and no
    outer blanks and the value is not a pattern between slashes. *)
Theorem fact_filter_roundtrip l op r :
  op ∈ fact_operators → op_free l → op_free r → l ≠ "" → r ≠ "" →
  trim_space l = l → trim_space r = r → first_byte r ≠ "/" →
  ParseFactFilterString (l +:+ op +:+ r) = Ok (l, op, r).
Proof.
  intros Hop Hl Hr Hl0 Hr0 Htl Htr Hs. unfold ParseFactFilterString.
  rewrite find_operators_free, find_operators_at by done. simpl.
  assert (drop_bytes (String.length l + String.length op) (l +:+ op +:+ r) = r) as ->.
  { rewrite <- length_append, <- append_assoc'. apply drop_bytes_append. }
  rewrite take_bytes_append, Htl, Htr.
  rewrite (proj2 (Nat.eqb_neq (String.length l) 0)) by (by rewrite string_length_zero).
  rewrite (proj2 (Nat.eqb_neq (String.length r) 0)) by (by rewrite string_length_zero). simpl.
  rewrite !has_operator_free by (by apply op_free_take || by apply op_free_drop). simpl.
  rewrite (proj2 (String.eqb_neq (first_byte r) "/")) by done. simpl.
  unfold fact_operators in Hop.
  by repeat (apply elem_of_cons in Hop as [->|Hop]); [..|by apply elem_of_nil in Hop].
Qed.

Lemma fact_filter_roundtrip_witness :
  ParseFactFilterString ("os.release" +:+ ">=" +:+ "8") = Ok ("os.release", ">=", "8").
Proof.
  apply fact_filter_roundtrip; try (by vm_compute); try done.
  - unfold fact_operators. set_solver.
  - intros c Hc Hin. vm_compute in Hin. set_solver.
  - intros c Hc Hin. vm_compute in Hin. set_solver.
Defined.

(** ** Requests *)

Section Sections.
Context `{FL : FactLib} `{RX : Regexp} `{EL : !ExprLib}.








End Sections.


(** ** Numbers *)

(** Against a decimal integer the operators on a numeric fact are exactly the
    comparisons of the two integers: the operators are coherent with one
    another. *)
Theorem integer_facts_compare `{FL : FactLib} `{RX : Regexp} facts name n x v :
  gjson_Get facts name = Some (FactNumber n x) → (int64_min ≤ v ≤ int64_max)%Z →
  let has op := HasFactJSON name op (itoa v) facts in
  has "==" = Ok (Z.eqb n v) ∧ has "!=" = Ok (negb (Z.eqb n v)) ∧
  has "<" = Ok (Z.ltb n v) ∧ has ">" = Ok (Z.ltb v n) ∧
  has "<=" = Ok (Z.leb n v) ∧ has ">=" = Ok (Z.leb v n).
Proof.
  intros Hg Hv has. unfold has, HasFactJSON. rewrite Hg. simpl.
  assert (str_contains (itoa v) "." = false) as Hdot.
  { apply str_contains_no_byte, itoa_no_byte; done. }
  assert (String.eqb (itoa n) (itoa v) = Z.eqb n v) as Heq.
  { destruct (Z.eqb_spec n v) as [->|Hne]; [apply String.eqb_refl|].
    apply String.eqb_neq. unfold itoa. by intros ?%(inj pretty). }
  unfold eqMatch, neMatch, ltMatch, gtMatch, leMatch, geMatch, with_int.
  by rewrite Hdot, Heq, atoi_itoa.
Qed.

(** Two comparisons are not what their operator says: on a number and a value
    with a decimal point [>] answers like [>=], and on a fact that is [false] the
    operator [!=] answers like [==]. *)
Theorem comparisons_that_coincide `{FL : FactLib} `{RX : Regexp} facts name v value :
  gjson_Get facts name = Some v →
  let has op := HasFactJSON name op value facts in
  (fact_type v = "Number" → str_contains value "." = true → has ">" = has ">=") ∧
  (v = FactFalse → to_lower value = value → has "!=" = has "==").
Proof.
  intros Hg has. unfold has, HasFactJSON. rewrite Hg. simpl. split.
  - intros Ht Hd. destruct v; try done. unfold gtMatch, geMatch. by rewrite Hd.
  - intros -> Hl. unfold neMatch, eqMatch. by rewrite Hl.
Qed.

(** ** Building filters *)

Section Building.

(** The sections that reject duplicates. *)
Definition no_duplicates (f : Filter) : Prop :=
  NoDup (AgentFilters f) ∧ NoDup (ClassFilters f) ∧ NoDup (IdentityFilters f) ∧
  "" ∉ AgentFilters f.

(** Every fact filter has an operator [HasFactJSON] knows. *)
Definition known_operators (f : Filter) : Prop :=
  ∀ ff, ff ∈ elems (Fact f) → ff_Operator ff ∈ fact_operators.

Definition filter_ok (f : Filter) : Prop := no_duplicates f ∧ known_operators f.

Lemma contains_true x l : contains x l = true ↔ x ∈ l.
Proof.
  unfold contains. rewrite existsb_elem_of. setoid_rewrite String.eqb_eq. naive_solver.
Qed.

Lemma contains_false x l : contains x l = false ↔ x ∉ l.
Proof. rewrite <- contains_true. by destruct (contains x l). Qed.

Lemma NoDup_append (l : list string) x : contains x l = false → NoDup l → NoDup (l ++ [x]).
Proof.
  intros Hx Hl. apply contains_false in Hx. apply NoDup_app. split_and!; [done| |apply NoDup_singleton].
  intros y Hy ->%list_elem_of_singleton. done.
Qed.

Lemma add_agent_ok x f : filter_ok f → filter_ok (AddAgentFilter x f).
Proof.
  intros [(Ha & Hc & Hi & He) Hk]. unfold AddAgentFilter. destruct (String.eqb x "") eqn:Ex; [done|].
  bprop. case_match; [done|]. split; [|done]. repeat split; try done.
  - by apply NoDup_append.
  - change (AgentFilters (with_Agent f (append (Agent f) x))) with (AgentFilters f ++ [x]).
    rewrite elem_of_app, list_elem_of_singleton. intros [?|?]; [by apply He|congruence].
Qed.

Lemma add_class_ok x f : filter_ok f → filter_ok (AddClassFilter x f).
Proof.
  intros [(Ha & Hc & Hi & He) Hk]. unfold AddClassFilter. case_match; [done|].
  split; [|done]. repeat split; try done. by apply NoDup_append.
Qed.

Lemma add_identity_ok x f : filter_ok f → filter_ok (AddIdentityFilter x f).
Proof.
  intros [(Ha & Hc & Hi & He) Hk]. unfold AddIdentityFilter. case_match; [done|].
  split; [|done]. repeat split; try done. by apply NoDup_append.
Qed.

Lemma add_compound_ok x f : filter_ok f → filter_ok (AddCompoundFilter x f).
Proof. unfold AddCompoundFilter. by case_match. Qed.

Lemma add_fact_ok x op v f : filter_ok f → filter_ok (AddFactFilter x op v f).1.
Proof.
  intros [Hd Hk]. unfold AddFactFilter. destruct (contains op fact_operators) eqn:E; [|done].
  split; [done|]. intros ff Hff. simpl in Hff. apply elem_of_app in Hff as [?|Hff]; [auto|].
  apply list_elem_of_singleton in Hff as ->. by apply contains_true.
Qed.

(** The states a client can build with the operations of the filter. *)
Inductive built : Filter → Prop :=
| built_new : built NewFilter
| built_agent x f : built f → built (AddAgentFilter x f)
| built_class x f : built f → built (AddClassFilter x f)
| built_identity x f : built f → built (AddIdentityFilter x f)
| built_compound x f : built f → built (AddCompoundFilter x f)
| built_fact x op v f : built f → built (AddFactFilter x op v f).1.

Lemma built_ok f : built f → filter_ok f.
Proof.
  induction 1; auto using add_agent_ok, add_class_ok, add_identity_ok, add_compound_ok, add_fact_ok.
  split; [repeat split; try constructor; apply not_elem_of_nil|]. intros ff Hff. by apply elem_of_nil in Hff.
Qed.

Definition builds (b : Build.builder) : Prop := ∀ f, built f → built (b f).1.

Lemma skip_empty_builds add fs : (∀ x f, built f → built (add x f)) → builds (Build.skip_empty add fs).
Proof.
  intros Hadd f. unfold Build.skip_empty. simpl. revert f.
  induction fs as [|x fs IH]; intros f Hf; simpl; [done|]. apply IH. case_match; auto.
Qed.

Lemma fact_filter_builds fs : builds (Build.FactFilter fs).
Proof.
  induction fs as [|x fs IH]; intros f Hf; [done|]. cbn [Build.FactFilter].
  destruct (String.eqb x ""); [by apply IH|].
  destruct (Build.ParseFactFilterString x) as [ff|e|p]; [|done..].
  pose proof (built_fact (ff_Fact ff) (ff_Operator ff) (ff_Value ff) f Hf) as Hb.
  destruct (AddFactFilter _ _ _ f) as [f' [?|?|?]]; [by apply IH|done..].
Qed.

Lemma combined_builds fs : builds (Build.CombinedFilter fs).
Proof.
  intros f. unfold Build.CombinedFilter. simpl. revert f.
  induction fs as [|x fs IH]; intros f Hf; simpl; [done|]. apply IH. clear IH.
  generalize (split x Build.space). intros l. revert f Hf. induction l as [|p l IH]; intros f Hf; [done|].
  simpl. apply IH. unfold Build.combined_part. case_match; [done|].
  case_match; [by apply built_fact|by apply built_class..].
Qed.

Lemma apply_all_builds bs : Forall builds bs → builds (Build.apply_all bs).
Proof.
  induction 1 as [|b bs Hb _ IH]; intros f Hf; [done|]. cbn [Build.apply_all].
  specialize (Hb f Hf). destruct (b f) as [f' [?|?|?]]; [by apply IH|done..].
Qed.

(** The builders of filter/filter.go. *)
Inductive cli_builder : Build.builder → Prop :=
| cli_agent fs : cli_builder (Build.AgentFilter fs)
| cli_class fs : cli_builder (Build.ClassFilter fs)
| cli_identity fs : cli_builder (Build.IdentityFilter fs)
| cli_compound fs : cli_builder (Build.CompoundFilter fs)
| cli_fact fs : cli_builder (Build.FactFilter fs)
| cli_combined fs : cli_builder (Build.CombinedFilter fs).

Lemma cli_builder_builds b : cli_builder b → builds b.
Proof.
  intros []; try (apply skip_empty_builds; intros; by constructor).
  - apply fact_filter_builds.
  - apply combined_builds.
Qed.
End Building.

(** Whatever strings a client passes, the filter [NewFilter] builds has no
    duplicate agent, class or identity, no empty agent, and only fact operators
    the matcher knows, also when it returns an error. *)
Theorem new_filter_ok bs : Forall cli_builder bs → filter_ok (Build.NewFilter bs).1.
Proof.
  intros Hbs. apply built_ok, apply_all_builds; [|constructor].
  eapply Forall_impl; [exact Hbs|exact cli_builder_builds].
Qed.

Lemma new_filter_ok_witness :
  filter_ok (Build.NewFilter [Build.AgentFilter ["rpcutil"; ""; "rpcutil"];
                              Build.FactFilter ["os=linux"; "mem>=8"]]).1.
Proof. apply new_filter_ok. repeat constructor. Defined.

(** ** Fact files *)

Section FactFiles.
Context `{FL : FactLib}.

(** The members of a fact file the merge takes: none of a file that is missing,
    unreadable or malformed. *)
Definition file_members (fs : filesystem) (f : string) : gmap string json_member :=
  merge_fact_file fs ∅ f.

Lemma merge_fact_file_eq fs out f : merge_fact_file fs out f = file_members fs f ∪ out.
Proof.
  unfold file_members, merge_fact_file. repeat case_match; rewrite ?map_empty_union, ?map_union_empty;
    done.
Qed.

Lemma merge_lookup fs fl out k v :
  fold_left (merge_fact_file fs) fl out !! k = Some v ↔
  (∃ pre f post, fl = pre ++ f :: post ∧ file_members fs f !! k = Some v ∧
     ∀ g, g ∈ post → file_members fs g !! k = None) ∨
  (out !! k = Some v ∧ ∀ g, g ∈ fl → file_members fs g !! k = None).
Proof.
  revert out. induction fl as [|f fl IH]; intros out; simpl.
  - split; [intros H; right; split; [done|by intros ? ?%elem_of_nil]|].
    intros [([]&?&?&?&_)|[? _]]; done.
  - rewrite IH, merge_fact_file_eq, lookup_union_Some_raw. split.
    + intros [(pre & g & post & -> & Hg & Hp)|[[Hf|[Hf Ho]] Hn]].
      * left. by exists (f :: pre), g, post.
      * left. exists [], f, fl. done.
      * right. split; [done|]. intros g [->|?]%elem_of_cons; auto.
    + intros [(pre & g & post & Hl & Hg & Hp)|[Ho Hn]].
      * destruct pre as [|f' pre]; simplify_eq/=; [right; by split; [left|]|].
        left. by exists pre, g, post.
      * right. setoid_rewrite elem_of_cons in Hn. split; [right; split|]; auto.
Qed.
End FactFiles.

(** A fact has the value of the last file of the configured list that defines
    it: files that are missing, unreadable or malformed take no part, and earlier
    definitions are overridden, as in the Ruby implementation. *)
Theorem fact_files_last_wins `{FL : FactLib} fs file doc :
  JSON fs file = Ok doc →
  ∃ out, doc = json_Marshal out ∧ out ≠ ∅ ∧
  ∀ k v, (out !! k = Some v ↔
   ∃ pre f post, split file path_list_separator = pre ++ f :: post ∧
     file_members fs f !! k = Some v ∧ ∀ g, g ∈ post → file_members fs g !! k = None).
Proof.
  unfold JSON. case_match; [done|]. intros [= <-]. eexists; split_and!; [done| |].
  - intros Hout. bprop. by rewrite Hout, map_size_empty in *.
  - intros k v. rewrite merge_lookup, lookup_empty. naive_solver.
Qed.

(** ** Concrete inputs *)

Definition demo_number : gmap string (fact_value Z) :=
  {["cores" := FactNumber 8 80%Z; "virtual" := FactFalse]}.

Lemma integer_facts_compare_witness :
  let has op := HasFactJSON (FL:=demo_fact_lib) "cores" op (itoa 16) demo_number in
  has "==" = Ok (Z.eqb 8 16) ∧ has "!=" = Ok (negb (Z.eqb 8 16)) ∧
  has "<" = Ok (Z.ltb 8 16) ∧ has ">" = Ok (Z.ltb 16 8) ∧
  has "<=" = Ok (Z.leb 8 16) ∧ has ">=" = Ok (Z.leb 16 8).
Proof. apply (integer_facts_compare (FL:=demo_fact_lib) demo_number "cores" 8%Z 80%Z 16%Z); [reflexivity|done]. Defined.

Lemma comparisons_that_coincide_witness :
  let has op := HasFactJSON (FL:=demo_fact_lib) "cores" op "8.0" demo_number in
  (fact_type (F:=Z) (FactNumber 8 80%Z) = "Number" → str_contains "8.0" "." = true → has ">" = has ">=") ∧
  (FactNumber 8 80%Z = FactFalse → to_lower "8.0" = "8.0" → has "!=" = has "==").
Proof. by apply (comparisons_that_coincide (FL:=demo_fact_lib) demo_number "cores" (FactNumber 8 80%Z) "8.0"). Defined.

Definition demo_fs : filesystem :=
  {["a.json" := Some "os=linux"; "b.yaml" := Some "os=debian"; "c.json" := None]}.

Definition demo_out : gmap string string := {["os" := "debian"]}.

Lemma fact_files_last_wins_witness :
  ∃ out, @json_Marshal demo_fact_lib demo_out = json_Marshal out ∧ out ≠ ∅ ∧
  ∀ k v, (out !! k = Some v ↔
   ∃ pre f post, split "a.json:b.yaml::c.json:d" path_list_separator = pre ++ f :: post ∧
     file_members demo_fs f !! k = Some v ∧
     ∀ g, g ∈ post → file_members demo_fs g !! k = None).
Proof.
  apply (fact_files_last_wins (FL:=demo_fact_lib) demo_fs "a.json:b.yaml::c.json:d" (@json_Marshal demo_fact_lib demo_out)).
  by vm_compute.
Defined.
