(* ===== verification/ActionPolicy.v ===== *)
(** * Action policy authorization

    providers/agent/mcorpc/authz_actionpolicy.go: finding the policy file of an
    agent, reading group and policy files and evaluating their lines against a
    request.  Logging is left out. *)
From S2P Require Import Prelude GoLib Regex Files Util Facts Filters.

(** ** Configuration and request *)

Record Config := {
  ConfigFile : string;
  ClassesFile : string;
  FactSourceFile : string;
  rawOpts : gmap string string;
}.

(** [Config.Option] *)
Definition Option (c : Config) (option deflt : string) : string :=
  default deflt (rawOpts c !! option).

Record Request := {
  req_Agent : string;
  req_Action : string;
  req_CallerID : string;
}.

Record actionPolicyPolicy := {
  caller : string;
  actions : string;
  facts : string;
  classes : string;
}.

Abbreviation groups_map := (gmap string (list string)).

(** ** Patterns *)

(** A line that is a comment from its first byte, or white space. *)
Definition commentRe : re := Seq Bol (Seq (Group 1
  (Alt (Seq (chr "#") (Star true any_char)) (Star true space_char))) Eol).

(** [^policy\s+default\s+(\w+)] *)
Definition defaultRe : re :=
  Seq Bol (Seq (lit "policy") (Seq (Plus true space_char) (Seq (lit "default")
    (Seq (Plus true space_char) (Group 1 (Plus true word_char)))))).

(** [\t+] and [(.+?)] *)
Definition tabs : re := Plus true (chr tab).
Definition field (n : nat) : re := Group n (Plus false any_char).

(** [^(allow|deny)\t+(.+?)\t+(.+?)\t+(.+?)(\t+(.+?))*$] *)
Definition policyRe : re :=
  Seq Bol (Seq (Group 1 (Alt (lit "allow") (lit "deny"))) (Seq tabs (Seq (field 2) (Seq tabs
    (Seq (field 3) (Seq tabs (Seq (field 4)
      (Seq (Star true (Group 5 (Seq tabs (field 6)))) Eol)))))))).

(** [^([\w\.\-]+)$] *)
Definition groupRe : re :=
  Seq Bol (Seq (Group 1 (Plus true (Chr (λ c, is_word c || is_byte "." c || is_byte "-" c)))) Eol).

(** [(.+)(<|>|=|<=|>=)(.+)] *)
Definition factMatcher : re :=
  Seq (Group 1 (Plus true any_char)) (Seq (Group 2
    (alts [lit "<"; lit ">"; lit "="; lit "<="; lit ">="])) (Group 3 (Plus true any_char))).

(** [^/(.+)/$] *)
Definition regexIdsMatcher : re :=
  Seq Bol (Seq (chr "/") (Seq (Group 1 (Plus true any_char)) (Seq (chr "/") Eol))).

(** [^!|^not$|^or$|^and$|\(.+\)] *)
Definition compoundRe : re :=
  alts [Seq Bol (chr "!"); anchored (lit "not"); anchored (lit "or"); anchored (lit "and");
        Seq (chr "(") (Seq (Plus true any_char) (chr ")"))].

Definition space_sep : ascii := " ".

Definition IsCompound (line : string) : bool := existsb (re_match compoundRe) (split line space_sep).

Section ActionPolicy.
Context `{FL : FactLib} `{RX : Regexp}.
Variable fs : filesystem.
Variable cfg : Config.
Variable req : Request.

(** ** One policy statement against the request *)

Definition MatchesFacts (p : actionPolicyPolicy) : res bool :=
  if String.eqb (facts p) "" then Err "empty fact policy found"
  else if String.eqb (facts p) "*" then Ok true
  else if IsCompound (facts p) then Err "compound statements are not supported"
  else
    match mapM (M:=res) Build.ParseFactFilterString (split (facts p) space_sep) with
    | Err e => Err ("invalid fact matcher: " +:+ e)
    | Panic w => Panic w
    | Ok ffs =>
        Ok (MatchFile fs (map (λ ff, (ff_Fact ff, ff_Operator ff, ff_Value ff)) ffs)
              (FactSourceFile cfg))
    end.

Definition MatchesClasses (p : actionPolicyPolicy) : res bool :=
  if String.eqb (classes p) "*" then Ok true
  else if String.eqb (classes p) "" then Err "empty classes policy found"
  else if String.eqb (ClassesFile cfg) "" then Err "do not know how to resolve classes"
  else if IsCompound (classes p) then Err "compound statements are not supported"
  else if existsb (re_match factMatcher) (split (classes p) space_sep)
  then Err "fact found where class was expected"
  else Ok (Classes.MatchFile fs (split (classes p) space_sep) (ClassesFile cfg)).

Definition MatchesAction (p : actionPolicyPolicy) (act : string) : bool :=
  if String.eqb (actions p) "" then false
  else if String.eqb (actions p) "*" then true
  else existsb (String.eqb act) (split (actions p) space_sep).

Definition isCallerInGroups (groups : groups_map) (p : actionPolicyPolicy) (id : string) : bool :=
  existsb (λ g, match groups !! g with
                | None => false
                | Some members => existsb (λ member, String.eqb member id) members
                end) (split (caller p) space_sep).

(** The loop over the callers of a statement: a malformed pattern ends it. *)
Fixpoint match_callers (l : list string) (id : string) : bool :=
  match l with
  | [] => false
  | c :: rest =>
      if String.eqb c id then true
      else if has_prefix c "/" then
        match re_search regexIdsMatcher c with
        | None => false
        | Some m =>
            match regexp_match (submatch m 1) id with
            | None => false
            | Some true => true
            | Some false => match_callers rest id
            end
        end
      else match_callers rest id
  end.

Definition MatchesCallerID (groups : groups_map) (p : actionPolicyPolicy) (id : string) : bool :=
  if String.eqb (caller p) "" then false
  else if String.eqb (caller p) "*" then true
  else if isCallerInGroups groups p id then true
  else match_callers (split (caller p) space_sep) id.

Definition checkRequestAgainstPolicy (groups : groups_map) (p : actionPolicyPolicy) : res bool :=
  if negb (MatchesCallerID groups p (req_CallerID req)) then Ok false
  else if negb (MatchesAction p (req_Action req)) then Ok false
  else
    factsMatched ← MatchesFacts p;
    classesMatched ← MatchesClasses p;
    mret (classesMatched && factsMatched).

(** ** Files *)

(** What one line of a policy file says. *)
Inductive statement :=
| Comment
| DefaultPolicy (allow : bool)
| CompoundRule
| Rule (allow : bool) (p : actionPolicyPolicy)
| InvalidLine.

Definition parse_line (line : string) : statement :=
  if re_match commentRe line then Comment
  else
    match re_search defaultRe line with
    | Some m => DefaultPolicy (String.eqb (submatch m 1) "allow")
    | None =>
        match re_search policyRe line with
        | Some m =>
            if IsCompound (submatch m 4) || IsCompound (submatch m 6) then CompoundRule
            else Rule (String.eqb (submatch m 1) "allow")
                   {| caller := submatch m 2; actions := submatch m 3;
                      facts := submatch m 4; classes := submatch m 6 |}
        | None => InvalidLine
        end
    end.

(** The scanner loop: [allowed] is the current default, [serr] the error the
    scanner ends with. *)
Fixpoint evaluate_lines (f : string) (groups : groups_map) (lines : list string)
    (serr : option string) (allowed : bool) : res (bool * string) :=
  match lines with
  | [] =>
      match serr with
      | Some e => Err e
      | None => if allowed then Ok (true, "")
                else Ok (false, "Denying based on default policy in " +:+ path_base f)
      end
  | line :: rest =>
      match parse_line line with
      | Comment | CompoundRule | InvalidLine => evaluate_lines f groups rest serr allowed
      | DefaultPolicy b => evaluate_lines f groups rest serr b
      | Rule allow p =>
          match checkRequestAgainstPolicy groups p with
          | Err e => Err e
          | Panic w => Panic w
          | Ok true =>
              if allow then Ok (true, "")
              else Ok (false, "Denying based on explicit 'deny' policy in " +:+ path_base f)
          | Ok false => evaluate_lines f groups rest serr allowed
          end
      end
  end.

Definition allowUnconfigured : bool :=
  match StrToBool (Option cfg "plugin.actionpolicy.allow_unconfigured" "n") with
  | Ok b => b
  | _ => false
  end.

Definition shouldUseDefault : bool :=
  match StrToBool (Option cfg "plugin.actionpolicy.enable_default" "n") with
  | Ok b => b
  | _ => false
  end.

Definition defaultPolicyFileName : string := Option cfg "plugin.actionpolicy.default_name" "default".

Definition policy_path (name : string) : string :=
  path_join [path_dir (ConfigFile cfg); "policies"; name].

Definition lookupPolicyFile : res string :=
  let agentPolicy := policy_path (req_Agent req +:+ ".policy") in
  let defaultPolicy := policy_path (defaultPolicyFileName +:+ ".policy") in
  if FileExistIn fs agentPolicy then Ok agentPolicy
  else if shouldUseDefault && FileExistIn fs defaultPolicy then Ok defaultPolicy
  else Err ("no policy found for " +:+ req_Agent req).

Definition evaluatePolicy (groups : groups_map) (f : string) : res (bool * string) :=
  content ← os_Open fs f;
  let '(lines, serr) := scan_lines content in
  evaluate_lines f groups lines serr allowUnconfigured.

(** One line of the groups file. *)
Definition group_line (groups : groups_map) (line : string) : groups_map :=
  if re_match commentRe line then groups
  else
    match split line space_sep with
    | name :: (_ :: _) as members =>
        if re_match groupRe name then <[name := tail members]> groups else groups
    | _ => groups
    end.

(** The groups read before an error are kept: the caller only logs it. *)
Definition parseGroupFile (gfile : string) : groups_map * res () :=
  let gfile := if String.eqb gfile "" then policy_path "groups" else gfile in
  if negb (FileExistIn fs gfile) then (∅, Ok tt)
  else
    match os_Open fs gfile with
    | Err e => (∅, Err e)
    | Panic w => (∅, Panic w)
    | Ok content =>
        let '(lines, serr) := scan_lines content in
        (fold_left group_line lines ∅, match serr with Some e => Err e | None => Ok tt end)
    end.

Definition authorize (groups : groups_map) : bool :=
  match lookupPolicyFile with
  | Err _ | Panic _ => false
  | Ok policyFile =>
      if String.eqb policyFile "" then allowUnconfigured
      else
        match evaluatePolicy groups policyFile with
        | Err _ | Panic _ => false
        | Ok (allowed, _) => allowed
        end
  end.

Definition actionPolicyAuthorize : bool := authorize (parseGroupFile "").1.

End ActionPolicy.

(** * Action policies: properties

    How policy lines parse, and the requests a policy allows. *)
From S2P Require Import DemoLibs.

Definition T : string := String tab "".

(** ** Matching lazy fields separated by tabs *)

(** Text a column can hold. *)
Definition column (x : string) : Prop := x ≠ "" ∧ no_byte tab x ∧ no_byte newline x.

Definition no_tab_head (s : string) : Prop := match s with String a _ => a ≠ tab | _ => True end.

Lemma column_head x s : column x → no_tab_head (x +:+ s).
Proof.
  destruct x as [|a x]; intros (Hne & Ht & _); [done|]. apply no_byte_cons in Ht as [Ht _].
  rewrite append_cons. simpl. congruence.
Qed.

Lemma tabs_none p s c k : no_tab_head s → mt tabs p s c k = None.
Proof.
  intros Hs. unfold tabs, Plus. rewrite mt_seq. destruct s as [|a s]; [done|].
  apply mt_chr_ne. simpl in Hs. congruence.
Qed.

Lemma tabs_one p s c k : no_tab_head s → mt tabs p (T +:+ s) c k = k (S p) s c.
Proof.
  intros Hs. unfold tabs, Plus. rewrite mt_seq. change (T +:+ s) with (String tab s).
  rewrite mt_chr_eq, mt_star. destruct s as [|a s]; [done|]. cbn [String.length].
  rewrite star_loop_S. cbv zeta. by rewrite mt_chr_ne by (simpl in Hs; congruence).
Qed.

(** A continuation that cannot start inside a column. *)
Definition needs_tab (k : cont) : Prop :=
  ∀ p a s c, a ≠ tab → k p (String a s) c = None.

Lemma lazy_loop k x s c r : no_byte tab x → no_byte newline x →
  ∀ p fuel, needs_tab k → (String.length x ≤ fuel)%nat →
  k (p + String.length x)%nat s c = Some r →
  star_loop false (mt any_char) k fuel p (x +:+ s) c = Some r.
Proof.
  induction x as [|a x IH]; intros Ht Hn p fuel Hk Hf Hr.
  - change ("" +:+ s) with s. simpl in Hr. rewrite Nat.add_0_r in Hr.
    destruct fuel; simpl; by rewrite Hr.
  - apply no_byte_cons in Ht as [Ha Ht]. apply no_byte_cons in Hn as [Hna Hn].
    destruct fuel as [|fuel]; [simpl in Hf; lia|]. rewrite append_cons, star_loop_S. cbv zeta.
    rewrite (Hk p a), mt_any by congruence. cbn [or_else].
    rewrite (proj2 (Nat.eqb_neq (S p) p)) by lia.
    apply (IH Ht Hn (S p) fuel Hk); [simpl in Hf; lia|].
    simpl in Hr. by rewrite Nat.add_succ_r in Hr.
Qed.

Lemma mt_field n x s p c k r : column x → needs_tab k →
  k (p + String.length x)%nat s ((n, x) :: c) = Some r →
  mt (field n) p (x +:+ s) c k = Some r.
Proof.
  intros (Hne & Ht & Hn) Hk Hr. destruct x as [|a x]; [done|].
  pose proof (take_bytes_append (String a x) s) as Htake. rewrite append_cons in *.
  unfold field, Plus. rewrite mt_group, mt_seq.
  apply no_byte_cons in Ht as [Ha Ht]. apply no_byte_cons in Hn as [Hna Hn].
  rewrite mt_any, mt_star by congruence.
  apply lazy_loop; [done|done| |rewrite length_append; lia|].
  - intros p' b s' c' Hb. by apply Hk.
  - replace (S p + String.length x)%nat with (p + String.length (String a x))%nat by (simpl; lia).
    replace (p + String.length (String a x) - p)%nat with (String.length (String a x)) by lia.
    by rewrite Htake.
Qed.

Lemma mt_field_end n x p c k r : column x → needs_tab k →
  k (p + String.length x)%nat "" ((n, x) :: c) = Some r → mt (field n) p x c k = Some r.
Proof. intros Hx Hk Hr. rewrite <- (append_nil_r x). by apply mt_field. Qed.

(** What follows the fourth column: more columns to the end of the line. *)
Definition more_columns : re := Seq (Star true (Group 5 (Seq tabs (field 6)))) Eol.

Lemma more_loop_stops k fuel :
  needs_tab k → needs_tab (star_loop true (mt (Group 5 (Seq tabs (field 6)))) k fuel).
Proof.
  intros Hk p a s c Ha. destruct fuel as [|fuel]; [by apply Hk|].
  rewrite star_loop_S, mt_group, mt_seq, tabs_none by done. by apply Hk.
Qed.

Lemma needs_tab_more : needs_tab (λ p s c, mt more_columns p s c accept).
Proof.
  intros p a s c Ha. unfold more_columns. rewrite mt_seq, mt_star.
  apply more_loop_stops; [|done]. by intros ????.
Qed.

Lemma more_loop_end fuel p c :
  star_loop true (mt (Group 5 (Seq tabs (field 6)))) (λ p s c, mt Eol p s c accept) fuel p "" c = Some c.
Proof. by destruct fuel. Qed.

Lemma more_columns_one x p c : column x →
  mt more_columns p (T +:+ x) c accept = Some ((5, T +:+ x) :: (6, x) :: c).
Proof.
  intros Hx. unfold more_columns. rewrite mt_seq, mt_star.
  change (String.length (T +:+ x)) with (S (String.length x)). rewrite star_loop_S. cbv zeta.
  erewrite mt_group, mt_seq, tabs_one, mt_field_end; [done|done| | |].
  - intros p' a s c' Ha. cbn beta. case_match; [done|]. apply more_loop_stops; [|done]. by intros ????.
  - cbn beta. rewrite (proj2 (Nat.eqb_neq (S p + String.length x) p)) by lia.
    replace (S p + String.length x - p)%nat with (S (String.length x)) by lia.
    change (S (String.length x)) with (String.length (T +:+ x)).
    rewrite take_bytes_all. apply more_loop_end.
  - rewrite <- (append_nil_r x). by apply column_head.
Qed.

Definition verb (allow : bool) : string := if allow then "allow" else "deny".

Lemma mt_verb allow s k r :
  k (String.length (verb allow)) s [(1, verb allow)] = Some r →
  mt (Group 1 (Alt (lit "allow") (lit "deny"))) 0 (verb allow +:+ s) [] k = Some r.
Proof.
  intros Hr. destruct allow.
  - change (or_else (k 5 s [(1, "allow")]) None = Some r). change (k 5 s [(1, "allow")] = Some r) in Hr.
    by rewrite Hr.
  - exact Hr.
Qed.

Lemma needs_tab_seq r k : needs_tab (λ p s c, mt (Seq tabs r) p s c k).
Proof. intros p a s c Ha. rewrite mt_seq. by apply tabs_none. Qed.

(** The columns of a rule, whatever follows the fourth. *)
Lemma policy_columns allow c a f s r : column c → column a → column f →
  (∀ p, mt more_columns p s [(4, f); (3, a); (2, c); (1, verb allow)] accept = Some r) →
  re_search policyRe (verb allow +:+ T +:+ c +:+ T +:+ a +:+ T +:+ f +:+ s) = Some r.
Proof.
  intros Hc Ha Hf Hr. unfold policyRe. rewrite re_search_bol, mt_seq. apply mt_verb.
  rewrite mt_seq, tabs_one by by apply column_head.
  rewrite mt_seq. apply mt_field; [done|apply needs_tab_seq|].
  rewrite mt_seq, tabs_one by by apply column_head.
  rewrite mt_seq. apply mt_field; [done|apply needs_tab_seq|].
  rewrite mt_seq, tabs_one by by apply column_head.
  rewrite mt_seq. apply mt_field; [done|apply needs_tab_more|]. apply Hr.
Qed.

Lemma rule_is_not_comment allow s : re_match commentRe (verb allow +:+ s) = false.
Proof.
  apply bool_decide_eq_false. unfold commentRe. rewrite re_search_bol.
  assert (∀ {A}, ¬ is_Some (@None A)) as Hn by by intros A []. destruct allow; apply Hn.
Qed.

Lemma rule_is_not_default allow s : re_search defaultRe (verb allow +:+ s) = None.
Proof. unfold defaultRe. rewrite re_search_bol. by destruct allow. Qed.

(** A policy line of five columns parses to the rule with those columns, and
    one of four columns to a rule without classes, whatever the columns contain
    besides tabs and line breaks, unless facts or classes are compound. *)
Theorem policy_line_parses allow c a f cl :
  column c → column a → column f → column cl →
  IsCompound f = false → IsCompound cl = false →
  parse_line (verb allow +:+ T +:+ c +:+ T +:+ a +:+ T +:+ f +:+ T +:+ cl) =
    Rule allow {| caller := c; actions := a; facts := f; classes := cl |} ∧
  parse_line (verb allow +:+ T +:+ c +:+ T +:+ a +:+ T +:+ f) =
    Rule allow {| caller := c; actions := a; facts := f; classes := "" |}.
Proof.
  intros Hc Ha Hf Hcl Hcf Hccl.
  assert (String.eqb (verb allow) "allow" = allow) as Hv by by destruct allow.
  split; unfold parse_line; rewrite rule_is_not_comment, rule_is_not_default.
  - erewrite policy_columns by (done || by intros; apply more_columns_one).
    cbn -[IsCompound String.eqb verb]. by rewrite Hcf, Hccl, Hv.
  - rewrite <- (append_nil_r f). erewrite policy_columns by (done || by intros).
    rewrite append_nil_r. cbn -[IsCompound String.eqb verb]. by rewrite Hcf, Hv.
Qed.

Lemma policy_line_parses_witness :
  parse_line (verb false +:+ T +:+ "choria=bob" +:+ T +:+ "ping restart" +:+ T +:+ "*" +:+ T +:+ "role::db") =
    Rule false {| caller := "choria=bob"; actions := "ping restart"; facts := "*"; classes := "role::db" |} ∧
  parse_line (verb false +:+ T +:+ "choria=bob" +:+ T +:+ "ping restart" +:+ T +:+ "*") =
    Rule false {| caller := "choria=bob"; actions := "ping restart"; facts := "*"; classes := "" |}.
Proof.
  apply (policy_line_parses false "choria=bob" "ping restart" "*" "role::db"); try (by vm_compute);
    (split; [done|]); unfold no_byte; split; apply (bool_decide_eq_false_1 _); by vm_compute.
Defined.

(** ** Decisions *)

Section Decisions.
Context `{FL : FactLib} `{RX : Regexp}.
Variable fs : filesystem.
Variable cfg : Config.
Variable req : Request.
Variable groups : groups_map.

(** A line that does not decide: no rule, or a rule that does not match. *)
Definition passes (line : string) : Prop :=
  ∀ allow p, parse_line line = Rule allow p →
    checkRequestAgainstPolicy fs cfg req groups p = Ok false.

(** The default in force after some lines. *)
Definition default_after (lines : list string) (d : bool) : bool :=
  fold_left (λ d l, match parse_line l with DefaultPolicy b => b | _ => d end) lines d.

(** The request is allowed by the first rule that matches it, or by the last
    default of a policy without such a rule. *)
Definition allowed_by (lines : list string) (serr : option string) (d : bool) : Prop :=
  (∃ pre line post p, lines = pre ++ line :: post ∧ Forall passes pre ∧
     parse_line line = Rule true p ∧ checkRequestAgainstPolicy fs cfg req groups p = Ok true) ∨
  (Forall passes lines ∧ serr = None ∧ default_after lines d = true).

Lemma passes_not_rule line : (∀ allow p, parse_line line ≠ Rule allow p) → passes line.
Proof. intros H allow p Hp. by destruct (H allow p). Qed.

Lemma allowed_by_pass line rest serr d : passes line →
  allowed_by (line :: rest) serr d ↔
  allowed_by rest serr (match parse_line line with DefaultPolicy b => b | _ => d end).
Proof.
  intros Hp. unfold allowed_by. simpl. rewrite Forall_cons. split.
  - intros [(pre & l & post & p & Hl & Hpre & Hr & Hc)|([_ Hf] & Hs & Hd)]; [left|by right].
    destruct pre as [|l' pre]; simplify_eq/=.
    + specialize (Hp true p Hr). congruence.
    + inversion Hpre; subst. by exists pre, l, post, p.
  - intros [(pre & l & post & p & -> & Hpre & Hr & Hc)|(Hf & Hs & Hd)]; [left|by right].
    exists (line :: pre), l, post, p. split_and!; [done|by constructor|done|done].
Qed.

Lemma not_allowed_by line rest serr d allow p :
  parse_line line = Rule allow p → checkRequestAgainstPolicy fs cfg req groups p ≠ Ok false →
  allow = false ∨ checkRequestAgainstPolicy fs cfg req groups p ≠ Ok true →
  ¬ allowed_by (line :: rest) serr d.
Proof.
  intros Hl Hn Ha [(pre & l & post & q & Heq & Hpre & Hr & Hc)|(Hf & _)].
  - destruct pre as [|l' pre]; simplify_eq/=; [naive_solver congruence|].
    inversion Hpre as [|? ? Hp _]; subst. by apply Hn, (Hp allow).
  - inversion Hf as [|? ? Hp _]; subst. by apply Hn, (Hp allow).
Qed.

Lemma evaluate_lines_allowed f lines serr d :
  (∃ reason, evaluate_lines fs cfg req f groups lines serr d = Ok (true, reason)) ↔
  allowed_by lines serr d.
Proof.
  revert d. induction lines as [|line rest IH]; intros d.
  - cbn. unfold allowed_by. split.
    + intros [r Hr]. right. split; [done|]. by destruct serr, d.
    + intros [([]&?&?&?&?&_)|(_ & -> & Hd)]; [done..|]. simpl in Hd. rewrite Hd. eauto.
  - cbn [evaluate_lines]. destruct (parse_line line) as [|b| |allow p|] eqn:E.
    5: rewrite allowed_by_pass by (apply passes_not_rule; congruence); by rewrite E.
    1-3: rewrite allowed_by_pass by (apply passes_not_rule; congruence); by rewrite E.
    destruct (checkRequestAgainstPolicy _ _ _ _ p) as [[]|e|w] eqn:Ec.
    + destruct allow.
      * split; [intros _|eauto]. left. exists [], line, rest, p. by repeat constructor.
      * split; [by intros []|]. intros Ha. exfalso.
        eapply not_allowed_by; [exact E| | |exact Ha]; rewrite ?Ec; auto.
    + rewrite allowed_by_pass, IH, E; [done|]. intros a q Hq. rewrite E in Hq. by injection Hq as <- <-.
    + split; [by intros []|]. intros Ha. exfalso.
      eapply not_allowed_by; [exact E| | |exact Ha]; rewrite ?Ec; auto.
    + split; [by intros []|]. intros Ha. exfalso.
      eapply not_allowed_by; [exact E| | |exact Ha]; rewrite ?Ec; auto.
Qed.

Lemma lookup_policy_nonempty f : lookupPolicyFile fs cfg req = Ok f → f ≠ "" ∧ FileExistIn fs f = true.
Proof.
  unfold lookupPolicyFile. assert (FileExistIn fs "" = false) as He by done.
  destruct (FileExistIn fs (policy_path cfg (req_Agent req +:+ ".policy"))) eqn:E1;
    [intros [= <-]; split; [intros Hf; rewrite Hf in E1; congruence|done]|].
  destruct (shouldUseDefault cfg && _) eqn:E2; [|done]. bprop.
  intros [= <-]. split; [intros Hf|done]. congruence.
Qed.
End Decisions.

Section Authorize.
Context `{FL : FactLib} `{RX : Regexp}.

Lemma authorize_allowed_by fs cfg req :
  actionPolicyAuthorize fs cfg req = true ↔
  ∃ f content, lookupPolicyFile fs cfg req = Ok f ∧ os_Open fs f = Ok content ∧
    allowed_by fs cfg req (parseGroupFile fs cfg "").1 (scan_lines content).1
      (scan_lines content).2 (allowUnconfigured cfg).
Proof.
  unfold actionPolicyAuthorize, authorize. set (groups := (parseGroupFile fs cfg "").1).
  destruct (lookupPolicyFile fs cfg req) as [f|e|w] eqn:El; [|naive_solver..].
  destruct (lookup_policy_nonempty _ _ _ _ El) as [Hf _].
  rewrite (proj2 (String.eqb_neq f "")) by done.
  unfold evaluatePolicy, mbind, outcome_bind. destruct (os_Open fs f) as [content|e|w] eqn:Eo;
    [|split; [done|]; intros (f' & c' & [= <-] & Ho & _); congruence..].
  destruct (scan_lines content) as [lines serr] eqn:Es.
  pose proof (evaluate_lines_allowed fs cfg req groups f lines serr (allowUnconfigured cfg)) as Hev.
  transitivity (allowed_by fs cfg req groups lines serr (allowUnconfigured cfg)).
  - rewrite <- Hev. destruct (evaluate_lines _ _ _ _ _ _ _ _) as [[[] ?]|e|w]; naive_solver.
  - split; [intros Ha; exists f, content; by rewrite Es|].
    intros (f' & c' & [= <-] & Ho & Ha). rewrite Eo in Ho. injection Ho as <-. by rewrite Es in Ha.
Qed.
End Authorize.

(** C4. A request is authorized exactly when a policy file is found and readable
    and either the first rule that matches the request allows it, or no rule matches,
    the file was read to its end and the default in force there allows; an error in
    any rule reached denies. *)
Theorem authorize_first_match `{FL : FactLib} `{RX : Regexp} fs cfg req :
  actionPolicyAuthorize fs cfg req = true ↔
  ∃ f content, lookupPolicyFile fs cfg req = Ok f ∧ os_Open fs f = Ok content ∧
    allowed_by fs cfg req (parseGroupFile fs cfg "").1 (scan_lines content).1
      (scan_lines content).2 (allowUnconfigured cfg).
Proof. apply authorize_allowed_by. Qed.

(** Without a policy file for the agent, and without a default policy in use,
    every request is denied, also when unconfigured agents are meant to be allowed:
    the setting [allow_unconfigured] has no effect there. *)
Theorem unconfigured_is_denied `{FL : FactLib} `{RX : Regexp} fs cfg req :
  FileExistIn fs (policy_path cfg (req_Agent req +:+ ".policy")) = false →
  shouldUseDefault cfg = false ∨
    FileExistIn fs (policy_path cfg (defaultPolicyFileName cfg +:+ ".policy")) = false →
  actionPolicyAuthorize fs cfg req = false.
Proof.
  intros Ha Hd. unfold actionPolicyAuthorize, authorize, lookupPolicyFile. rewrite Ha.
  destruct Hd as [->| ->]; [done|]. by rewrite andb_false_r.
Qed.

Lemma rule_without_classes fs cfg `{FL : FactLib} `{RX : Regexp} req groups p : classes p = "" →
  MatchesCallerID groups p (req_CallerID req) = true → MatchesAction p (req_Action req) = true →
  ∃ r, checkRequestAgainstPolicy fs cfg req groups p = r ∧ r ≠ Ok true ∧ r ≠ Ok false.
Proof.
  intros Hc Hm Ha. eexists; split; [done|]. unfold checkRequestAgainstPolicy. rewrite Hm, Ha.
  unfold mbind, outcome_bind. simpl. destruct (MatchesFacts fs cfg p); [|done..].
  unfold MatchesClasses. by rewrite Hc.
Qed.

(** A rule of four columns, which has no classes, denies every request whose
    caller and action it matches, whether it says allow or deny and whatever follows
    it. *)
Theorem rule_without_classes_denies `{FL : FactLib} `{RX : Regexp} fs cfg req f content pre line post allow p :
  lookupPolicyFile fs cfg req = Ok f → os_Open fs f = Ok content →
  (scan_lines content).1 = pre ++ line :: post →
  let groups := (parseGroupFile fs cfg "").1 in
  Forall (passes fs cfg req groups) pre → parse_line line = Rule allow p → classes p = "" →
  MatchesCallerID groups p (req_CallerID req) = true → MatchesAction p (req_Action req) = true →
  actionPolicyAuthorize fs cfg req = false.
Proof.
  intros Hl Ho Hs groups Hpre Hr Hc Hm Ha. apply not_true_is_false.
  rewrite authorize_allowed_by. intros (f' & content' & Hl' & Ho' & Hal). fold groups in Hal.
  rewrite Hl in Hl'. injection Hl' as <-. rewrite Ho in Ho'. injection Ho' as <-. rewrite Hs in Hal.
  destruct (rule_without_classes fs cfg req groups p Hc Hm Ha) as (r & Hr' & Ht & Hf). subst r.
  clear Hs. revert Hal. generalize (allowUnconfigured cfg).
  induction Hpre as [|l pre Hp Hpre IH]; intros d Hal.
  - revert Hal. by eapply not_allowed_by; [exact Hr| |right].
  - change ((l :: pre) ++ line :: post) with (l :: (pre ++ line :: post)) in Hal.
    rewrite allowed_by_pass in Hal by done. by apply IH in Hal.
Qed.

Definition demo_config : Config :=
  {| ConfigFile := "/etc/choria/server.conf"; ClassesFile := "/c"; FactSourceFile := "/f";
     rawOpts := {["plugin.actionpolicy.allow_unconfigured" := "yes"]} |}.

Definition demo_request : Request :=
  {| req_Agent := "package"; req_Action := "status"; req_CallerID := "choria=bob" |}.

Lemma unconfigured_is_denied_witness :
  allowUnconfigured demo_config = true ∧ actionPolicyAuthorize ∅ demo_config demo_request = false.
Proof.
  split; [reflexivity|]. apply (unconfigured_is_denied ∅ demo_config demo_request).
  - reflexivity.
  - left. reflexivity.
Defined.

Definition demo_policy : string :=
  "policy default allow" +:+ String newline "" +:+
  "allow" +:+ T +:+ "choria=bob" +:+ T +:+ "status" +:+ T +:+ "*".

Definition demo_policies : filesystem :=
  {["/etc/choria/policies/package.policy" := Some demo_policy]}.

Lemma rule_without_classes_denies_witness :
  actionPolicyAuthorize demo_policies demo_config demo_request = false.
Proof.
  apply (rule_without_classes_denies demo_policies demo_config demo_request
    "/etc/choria/policies/package.policy" demo_policy ["policy default allow"]
    ("allow" +:+ T +:+ "choria=bob" +:+ T +:+ "status" +:+ T +:+ "*") [] true
    {| caller := "choria=bob"; actions := "status"; facts := "*"; classes := "" |});
    try match goal with |- _ = _ => vm_compute; reflexivity end.
  constructor; [|constructor]. intros allow p Hp.
  assert (parse_line "policy default allow" = DefaultPolicy true) as Hd by (vm_compute; reflexivity).
  rewrite Hd in Hp. discriminate.
Defined.
