(* ===== verification/Rpc.v ===== *)
(** * RPC agents

    providers/agent/mcorpc: an agent with its actions (agent.go, mcorpc.go), and the
    authorization of a request by the action policies of ActionPolicy.v, by Open
    Policy Agent (authz_rego.go, opa/opa.go) or by the token of the caller
    (authz_jwt.go).  Actions change a world of their own; auditing and logging are
    left out. *)
From S2P Require Import Prelude GoLib Regex Files Facts Filters Util AuthTypes Transport SecureMessages Message Connection AgentManager ActionPolicy.

(** ** Requests and replies *)

Inductive StatusCode := OK | Aborted | UnknownAction | MissingData | InvalidData | UnknownError.

(** [Data] of a reply is [None] when it is nil, else what it is encoded as. *)
Record RpcReply := {
  re_Action : string;
  re_Statuscode : StatusCode;
  re_Statusmsg : string;
  re_Data : option string;
  re_DisableResponse : bool;
}.

Record RpcRequest := {
  rr_Agent : string;
  rr_Action : string;
  rr_Data : string;
  rr_RequestID : string;
  rr_SenderID : string;
  rr_CallerID : string;
  rr_Collective : string;
  rr_TTL : Z;
  rr_Time : Z;
  rr_Filter : Filter;
  rr_CallerPublicData : string;
  rr_SignerPublicData : string;
}.

(** JSON: the agent, action and data of a request, the encoding of replies, and whether
    a text is an object. *)
Class RpcJSON := {
  rpc_request_Unmarshal : string → option (string * string * option string);
  rpc_reply_Marshal : RpcReply → option string;
  json_object : string → bool;
}.

(** ** Configuration *)

Record RpcConfig := {
  RPCAuthorization : bool;
  RPCAuthorizationProvider : string;
  policyConfig : ActionPolicy.Config;
}.

(** What the server knows of itself; [provision_mode] is of the framework. *)
Record RpcServerInfo := {
  rsi_Facts : string;
  rsi_Classes : list string;
  rsi_KnownAgents : list string;
  rsi_ProvisionMode : bool;
}.

(** ** Open Policy Agent *)

Inductive rego_term := RegoString (s : string) | RegoTermOther.
Inductive rego_value := RegoBool (b : bool) | RegoOther.

Abbreviation rego_function := (string * (rego_term → res bool))%type.

(** The input document: of the aaasvc authorizer with claims and site, of the rego one
    with facts, classes and agents. *)
Inductive rego_inputs :=
| AaasvcInputs (req : RpcRequest) (site : string) (claims : ClientIDClaims)
| RegoInputs (req : RpcRequest) (data facts : option string) (classes agents : list string) (provision : bool).

(** Preparing a query on a module and evaluating it: [None] for an error, else the
    values of the first expressions of the results. *)
Class OPA := {
  rego_Eval : string → string → string → list rego_function → rego_inputs → option (list rego_value);
}.

Section Authorize.
Context `{TL : TokenLib} `{RJ : RpcJSON} `{OP : OPA} `{FL : FactLib} `{RX : Regexp}.
Variable fs : filesystem.

(** [opa.New] with a policy or a file, and [Evaluate]. *)
Definition opa_policy (code file : string) : res string :=
  if negb (String.eqb code "") then Ok code
  else if String.eqb file "" then Err "neither Code nor File has been set, no policy to evaluate"
  else os_Open fs file.

Definition opa_evaluate (module query code file : string) (functions : list rego_function)
    (inputs : rego_inputs) : res bool :=
  policy ← opa_policy code file;
  match rego_Eval module query policy functions inputs with
  | None => Err ("could not evaluate rego policy " +:+ module)
  | Some [RegoBool pass] => Ok pass
  | Some [RegoOther] => Err "did not receive a boolean for 'allow' from rego evaluation"
  | Some _ => Err "invalid result from rego policy"
  end.

(** ** The aaasvc authorizer *)

Definition dot : ascii := ".".

Fixpoint agent_list_loop (agent action : string) (policy : list string) : res bool :=
  match policy with
  | [] => Ok false
  | allow :: rest =>
      if String.eqb allow "*" then Ok true
      else
        match split allow dot with
        | [a; act] =>
            if negb (String.eqb agent a) then agent_list_loop agent action rest
            else if String.eqb act "*" then Ok true
            else if String.eqb action act then Ok true
            else agent_list_loop agent action rest
        | _ => Err ("invalid agent policy: " +:+ allow)
        end
  end.

Definition EvaluateAgentListPolicy (agent action : string) (policy : list string) : res bool :=
  if Nat.eqb (length policy) 0 then Ok false else agent_list_loop agent action policy.

Definition opaFuncRequiresFilter (req : RpcRequest) (_ : rego_term) : res bool :=
  let f := rr_Filter req in
  Ok (Nat.ltb 0 (length (ClassFilters f)) || Nat.ltb 0 (length (IdentityFilters f)) ||
      Nat.ltb 0 (length (FactFilters f)) || Nat.ltb 0 (length (CompoundFilters f))).

Definition opaFuncRequiresIdentityFilter (req : RpcRequest) (a : rego_term) : res bool :=
  match a with
  | RegoTermOther => Err "invalid identity matcher received"
  | RegoString want => Ok (existsb (λ f, String.eqb f want) (IdentityFilters (rr_Filter req)))
  end.

Definition opaFuncRequiresClassFilter (req : RpcRequest) (a : rego_term) : res bool :=
  match a with
  | RegoTermOther => Err "invalid class matcher received"
  | RegoString want => Ok (existsb (λ f, String.eqb f want) (ClassFilters (rr_Filter req)))
  end.

(** [client.ParseFactFilterString] is the one of the filter package. *)
Definition opaFuncRequiresFactFilter (req : RpcRequest) (a : rego_term) : res bool :=
  match a with
  | RegoTermOther => Err "invalid fact matcher received"
  | RegoString str =>
      want ← map_err (λ e, "invalid fact matcher received: " +:+ e) (Build.ParseFactFilterString str);
      Ok (existsb (λ f, String.eqb (ff_Fact want) (ff_Fact f) && String.eqb (ff_Operator want) (ff_Operator f) &&
                        String.eqb (ff_Value want) (ff_Value f)) (elems (Fact (rr_Filter req))))
  end.

Definition opaFunctionsMap (req : RpcRequest) : list rego_function :=
  [("requires_filter", opaFuncRequiresFilter req);
   ("requires_fact_filter", opaFuncRequiresFactFilter req);
   ("requires_class_filter", opaFuncRequiresClassFilter req);
   ("requires_identity_filter", opaFuncRequiresIdentityFilter req)].

(** The data must be an object; claims always encode. *)
Definition opaInputs (req : RpcRequest) (site : string) (claims : ClientIDClaims) : res rego_inputs :=
  if json_object (rr_Data req) then Ok (AaasvcInputs req site claims) else Err "json".

Definition EvaluateOpenPolicyAgentPolicy (req : RpcRequest) (policy : string) (claims : ClientIDClaims)
    (site : string) : res bool :=
  if String.eqb policy "" then Err "invalid policy given"
  else
    inputs ← opaInputs req site claims;
    opa_evaluate "io.choria.aaasvc" "data.io.choria.aaasvc.allow" policy "" (opaFunctionsMap req) inputs.

Definition aaasvcPolicyAuthorize (req : RpcRequest) : res bool :=
  if String.eqb (rr_CallerPublicData req) "" then Err "no policy received in request"
  else
    match ParseClientIDTokenUnverified (rr_CallerPublicData req) with
    | inr e => Err ("invalid token in request: " +:+ token_error_text e)
    | inl claims =>
        if String.eqb (rr_Agent req) "discovery" then Ok true
        else
          let hasAgents := Nat.ltb 0 (length (AllowedAgents claims)) in
          let hasOpa := negb (String.eqb (OPAPolicy claims) "") in
          if negb (hasAgents || hasOpa) then Err "no policy received in token"
          else if hasAgents && hasOpa then Err "received agent list and rego policy"
          else if hasAgents then EvaluateAgentListPolicy (rr_Agent req) (rr_Action req) (AllowedAgents claims)
          else EvaluateOpenPolicyAgentPolicy req (OPAPolicy claims) claims "server"
    end.

(** ** The rego authorizer *)

(** Without the override of the file name the tests set. *)
Definition rego_lookupPolicyFile (cfg : RpcConfig) (req : RpcRequest) : res string :=
  let dir := path_join [path_dir (ConfigFile (policyConfig cfg)); "policies"; "rego"] in
  let regoPolicy := path_join [dir; rr_Agent req +:+ ".rego"] in
  if FileExistIn fs regoPolicy then Ok regoPolicy
  else
    let defaultPolicy := path_join [dir; "default.rego"] in
    if FileExistIn fs defaultPolicy then Ok defaultPolicy
    else Err ("no policy " +:+ defaultPolicy +:+ " found for " +:+ rr_Agent req +:+ " in " +:+ dir).

(** Data and facts that are no objects are replaced by empty ones. *)
Definition regoInputs (req : RpcRequest) (si : RpcServerInfo) : rego_inputs :=
  let object (s : string) := if json_object s then Some s else None in
  RegoInputs req (object (rr_Data req)) (object (rsi_Facts si)) (rsi_Classes si) (rsi_KnownAgents si)
    (rsi_ProvisionMode si).

Definition regoPolicyAuthorize (req : RpcRequest) (si : RpcServerInfo) (cfg : RpcConfig) : res bool :=
  policyFile ← rego_lookupPolicyFile cfg req;
  if String.eqb policyFile "" then Err "policy file could not be found"
  else opa_evaluate "io.choria.mcorpc.authpolicy" "data.io.choria.mcorpc.authpolicy.allow" "" policyFile []
         (regoInputs req si).

(** ** Choosing the authorizer *)

Definition action_request (req : RpcRequest) : ActionPolicy.Request :=
  {| req_Agent := rr_Agent req; req_Action := rr_Action req; req_CallerID := rr_CallerID req |}.

(** An authorizer that fails does not authorize. *)
Definition allowed_by (r : res bool) : bool := match r with Ok auth => auth | _ => false end.

Definition AuthorizeRequest (req : option RpcRequest) (cfg : option RpcConfig) (si : option RpcServerInfo) : bool :=
  match cfg with
  | None => false
  | Some cfg =>
      if negb (RPCAuthorization cfg) then true
      else
        match req, si with
        | None, _ => false
        | Some req, None => false
        | Some req, Some si =>
            if String.eqb (rr_Agent req) "" then false
            else
              let prov := to_lower (RPCAuthorizationProvider cfg) in
              if String.eqb prov "action_policy" then actionPolicyAuthorize fs (policyConfig cfg) (action_request req)
              else if String.eqb prov "rego_policy" then allowed_by (regoPolicyAuthorize req si cfg)
              else if String.eqb prov "aaasvc" || String.eqb prov "aaasvc_policy"
              then allowed_by (aaasvcPolicyAuthorize req)
              else false
        end
  end.

End Authorize.

(** ** Agents *)

(** [agents.AgentReply] *)
Record AgentReply := {
  ar_Body : string;
  ar_Request : Transport.Request;
  ar_Message : Message;
  ar_Error : option string;
}.

Section Agent.
(** The world actions act on. *)
Context {W : Type}.

(** An action gets the request and the reply so far, acts, and leaves the reply as it
    made it; it may panic. *)
Definition Action : Type := RpcRequest → RpcReply → W → W * outcome Empty_set RpcReply.

Record RpcAgent := {
  a_meta : Metadata;
  a_actions : gmap string Action;
  a_Config : RpcConfig;
  a_ServerInfo : option RpcServerInfo;
  a_activationCheck : bool;
}.

Definition New (metadata : Metadata) (cfg : RpcConfig) : RpcAgent :=
  {| a_meta := metadata; a_actions := ∅; a_Config := cfg; a_ServerInfo := None; a_activationCheck := true |}.

Definition set_actions (f : gmap string Action → gmap string Action) (a : RpcAgent) : RpcAgent :=
  {| a_meta := a_meta a; a_actions := f (a_actions a); a_Config := a_Config a; a_ServerInfo := a_ServerInfo a;
     a_activationCheck := a_activationCheck a |}.

Definition SetRpcServerInfo (si : option RpcServerInfo) (a : RpcAgent) : RpcAgent :=
  {| a_meta := a_meta a; a_actions := a_actions a; a_Config := a_Config a; a_ServerInfo := si;
     a_activationCheck := a_activationCheck a |}.

Definition RegisterAction (name : string) (f : Action) (a : RpcAgent) : RpcAgent * res () :=
  match a_actions a !! name with
  | Some _ => (a, Err ("cannot register action " +:+ name +:+ ", it already exist"))
  | None => (set_actions <[name := f]> a, Ok tt)
  end.

Definition MustRegisterAction (name : string) (f : Action) (a : RpcAgent) : RpcAgent * res () :=
  match a_actions a !! name with
  | Some _ => (a, Panic ("cannot register action " +:+ name +:+ ", it already exist"))
  | None => (set_actions <[name := f]> a, Ok tt)
  end.

Definition ActionNames (a : RpcAgent) : list string := sort_strings (map fst (map_to_list (a_actions a))).

(** What a server gives its agents. *)
Definition rpc_agent_ops (si : option RpcServerInfo) : AgentOps RpcAgent :=
  {| agent_Metadata := a_meta; ShouldActivate := a_activationCheck; SetServerInfo := SetRpcServerInfo si |}.

Definition newReply : RpcReply :=
  {| re_Action := ""; re_Statuscode := OK; re_Statusmsg := "OK"; re_Data := Some "{}"; re_DisableResponse := false |}.

Definition fail_reply (code : StatusCode) (msg : string) (r : RpcReply) : RpcReply :=
  {| re_Action := re_Action r; re_Statuscode := code; re_Statusmsg := msg; re_Data := re_Data r;
     re_DisableResponse := re_DisableResponse r |}.

Section Handle.
Context `{TL : TokenLib} `{RJ : RpcJSON} `{OP : OPA} `{FL : FactLib} `{RX : Regexp}.
Variable fs : filesystem.

(** Everything but the agent, action and data comes from the protocol request. *)
Definition parseIncomingMessage (msg : string) (request : Transport.Request) : res RpcRequest :=
  match rpc_request_Unmarshal msg with
  | None => Err "could not parse incoming message as a MCollective SimpleRPC Request"
  | Some (agent, action, data) =>
      '(filter, _) ← rq_get_filter request;
      Ok {| rr_Agent := agent; rr_Action := action; rr_Data := default "{}" data;
            rr_RequestID := rq_RequestID request; rr_SenderID := rq_SenderID request;
            rr_CallerID := rq_CallerID request; rr_Collective := rq_Collective request;
            rr_TTL := rq_TTL request; rr_Time := rq_Time_ns request; rr_Filter := filter;
            rr_CallerPublicData := rq_callerJWT request; rr_SignerPublicData := rq_signerJWT request |}
  end.

Definition agent_authorize (a : RpcAgent) (req : RpcRequest) : bool :=
  if negb (String.eqb (rr_Agent req) (md_Name (a_meta a))) then false
  else AuthorizeRequest fs (Some req) (Some (a_Config a)) (a_ServerInfo a).

(** [publish], which leaves nothing in the outbox when the response is disabled; the
    data was given a value first. *)
Definition publish (rpcreply : RpcReply) (msg : Message) (request : Transport.Request) : option AgentReply :=
  if re_DisableResponse rpcreply then None
  else
    let rpcreply := {| re_Action := re_Action rpcreply; re_Statuscode := re_Statuscode rpcreply;
                       re_Statusmsg := re_Statusmsg rpcreply; re_Data := Some (default "{}" (re_Data rpcreply));
                       re_DisableResponse := false |} in
    match rpc_reply_Marshal rpcreply with
    | Some j => Some {| ar_Body := j; ar_Request := request; ar_Message := msg; ar_Error := None |}
    | None => Some {| ar_Body := ""; ar_Request := request; ar_Message := msg; ar_Error := Some "json" |}
    end.

(** The reply before it is published. *)
Definition handle (a : RpcAgent) (msg : Message) (request : Transport.Request) (w : W) :
    W * outcome Empty_set RpcReply :=
  match parseIncomingMessage (m_payload msg) request with
  | Panic p => (w, Panic p)
  | Err e => (w, Ok (fail_reply InvalidData ("Could not process request: " +:+ e) newReply))
  | Ok rpcrequest =>
      let reply := {| re_Action := rr_Action rpcrequest; re_Statuscode := OK; re_Statusmsg := "OK";
                      re_Data := Some "{}"; re_DisableResponse := false |} in
      match a_actions a !! rr_Action rpcrequest with
      | None =>
          (w, Ok (fail_reply UnknownAction
                    ("Unknown action " +:+ rr_Action rpcrequest +:+ " for agent " +:+ md_Name (a_meta a)) reply))
      | Some action =>
          if RPCAuthorization (a_Config a) && negb (agent_authorize a rpcrequest)
          then (w, Ok (fail_reply Aborted "You are not authorized to call this agent or action" reply))
          else action rpcrequest reply w
      end
  end.

Definition HandleMessage (a : RpcAgent) (msg : Message) (request : Transport.Request) (w : W) :
    W * outcome Empty_set (option AgentReply) :=
  match handle a msg request w with
  | (w', Ok reply) => (w', Ok (publish reply msg request))
  | (w', Err e) => match e with end
  | (w', Panic p) => (w', Panic p)
  end.

End Handle.
End Agent.
Arguments RpcAgent : clear implicits.
Arguments Action : clear implicits.
