(* ===== verification/Processor.v ===== *)
(** * The request processor of a server

    server/processor.go, server/discovery/discovery.go and [Dispatch] of
    server/agents/agents.go: what a server does with a message from the network, from
    its bytes to the reply it publishes. *)
From S2P Require Import Prelude Records GoLib Regex Files Facts Filters Util AuthTypes Transport SecureMessages Message Connection AgentManager ActionPolicy Rpc.

(** ** Counters *)

Record Counters := {
  totalCtr : nat;
  validatedCtr : nat;
  unvalidatedCtr : nat;
  passedCtr : nat;
  filteredCtr : nat;
  repliesCtr : nat;
  ttlExpiredCtr : nat;
}.

Record Instance := {
  lastMsgProcessed : Z;
  counters : Counters;
}.

Definition inc_total (c : Counters) : Counters :=
  {| totalCtr := S (totalCtr c); validatedCtr := validatedCtr c; unvalidatedCtr := unvalidatedCtr c;
     passedCtr := passedCtr c; filteredCtr := filteredCtr c; repliesCtr := repliesCtr c;
     ttlExpiredCtr := ttlExpiredCtr c |}.
Definition inc_validated (c : Counters) : Counters :=
  {| totalCtr := totalCtr c; validatedCtr := S (validatedCtr c); unvalidatedCtr := unvalidatedCtr c;
     passedCtr := passedCtr c; filteredCtr := filteredCtr c; repliesCtr := repliesCtr c;
     ttlExpiredCtr := ttlExpiredCtr c |}.
Definition inc_unvalidated (c : Counters) : Counters :=
  {| totalCtr := totalCtr c; validatedCtr := validatedCtr c; unvalidatedCtr := S (unvalidatedCtr c);
     passedCtr := passedCtr c; filteredCtr := filteredCtr c; repliesCtr := repliesCtr c;
     ttlExpiredCtr := ttlExpiredCtr c |}.
Definition inc_passed (c : Counters) : Counters :=
  {| totalCtr := totalCtr c; validatedCtr := validatedCtr c; unvalidatedCtr := unvalidatedCtr c;
     passedCtr := S (passedCtr c); filteredCtr := filteredCtr c; repliesCtr := repliesCtr c;
     ttlExpiredCtr := ttlExpiredCtr c |}.
Definition inc_filtered (c : Counters) : Counters :=
  {| totalCtr := totalCtr c; validatedCtr := validatedCtr c; unvalidatedCtr := unvalidatedCtr c;
     passedCtr := passedCtr c; filteredCtr := S (filteredCtr c); repliesCtr := repliesCtr c;
     ttlExpiredCtr := ttlExpiredCtr c |}.
Definition inc_replies (c : Counters) : Counters :=
  {| totalCtr := totalCtr c; validatedCtr := validatedCtr c; unvalidatedCtr := unvalidatedCtr c;
     passedCtr := passedCtr c; filteredCtr := filteredCtr c; repliesCtr := S (repliesCtr c);
     ttlExpiredCtr := ttlExpiredCtr c |}.
Definition inc_ttlexpired (c : Counters) : Counters :=
  {| totalCtr := totalCtr c; validatedCtr := validatedCtr c; unvalidatedCtr := unvalidatedCtr c;
     passedCtr := passedCtr c; filteredCtr := filteredCtr c; repliesCtr := repliesCtr c;
     ttlExpiredCtr := S (ttlExpiredCtr c) |}.

Abbreviation SrvM := (ST Instance string).

Definition count (f : Counters → Counters) : SrvM () :=
  modify (λ s, {| lastMsgProcessed := lastMsgProcessed s; counters := f (counters s) |}).

Record ServerConfig := {
  srv_fw : FrameworkConfig;
  DisableSecurityProviderVerify : bool;
}.

(** ** Dispatching

    [Dispatch] runs the handler of the agent on its own and waits for its reply, for the
    end of the server or for the timeout of the agent, whichever it sees first, and then
    sends one reply to the request processor.  The result channel is not buffered: the
    handler hands its reply over only to a dispatcher that waits for it.  The channel of
    the replies has room for 100, and [processRequests], which takes them from it, returns
    when the server ends. *)

Inductive handler_state := Running | Sending (r : AgentReply) | HandlerDone.

Inductive dispatch_phase := Waiting | Replying (r : AgentReply) | Ended (r : AgentReply).

Record dispatcher := {
  dp_msg : Message;
  dp_req : Transport.Request;
  (** of the agent, in seconds, and whether it is over *)
  dp_timeout : Z;
  dp_expired : bool;
  (** what the handler comes to: it may give up without a reply *)
  dp_result : option AgentReply;
  dp_handler : handler_state;
  dp_phase : dispatch_phase;
}.

Record dispatch_state := {
  dispatchers : list dispatcher;
  channel : list AgentReply;
  (** the replies that [processRequests] took *)
  taken : list AgentReply;
  (** [processRequests] runs *)
  reading : bool;
  interrupted : bool;
}.

Definition dispatch_start : dispatch_state :=
  {| dispatchers := []; channel := []; taken := []; reading := true; interrupted := false |}.

Definition replies_capacity : nat := 100.

Definition error_reply (msg : Message) (req : Transport.Request) (e : string) : AgentReply :=
  {| ar_Body := ""; ar_Request := req; ar_Message := msg; ar_Error := Some e |}.

Definition interrupt_error (msg : Message) : string :=
  "agent dispatcher for request " +:+ m_requestID msg +:+ " exiting on interrupt".
Definition timeout_error (msg : Message) (timeout : Z) : string :=
  "agent dispatcher for request " +:+ m_requestID msg +:+ " exiting on " +:+ itoa timeout +:+ "s timeout".

(** [Dispatch] up to its [select], of an agent with a timeout; [None] when there is no such
    agent, and the message is discarded. *)
Definition Dispatch (timeout : option Z) (msg : Message) (req : Transport.Request) (result : option AgentReply)
    (s : dispatch_state) : dispatch_state :=
  match timeout with
  | None => s
  | Some timeout =>
      s <| dispatchers ::= (λ l, l ++ [{| dp_msg := msg; dp_req := req; dp_timeout := timeout; dp_expired := false;
                                          dp_result := result; dp_handler := Running; dp_phase := Waiting |}]) |>
  end.

Definition with_reply (r : AgentReply) (d : dispatcher) : dispatcher := d <| dp_phase := Replying r |>.

(** The cases of the [select], and the timer of the timeout. *)
Inductive dispatcher_move (interrupted : bool) (d : dispatcher) : dispatcher → Prop :=
| move_expire : dp_expired d = false → dispatcher_move interrupted d (d <| dp_expired := true |>)
| move_reply r : dp_phase d = Waiting → dp_handler d = Sending r →
    dispatcher_move interrupted d (with_reply r (d <| dp_handler := HandlerDone |>))
| move_interrupt : dp_phase d = Waiting → interrupted = true →
    dispatcher_move interrupted d (with_reply (error_reply (dp_msg d) (dp_req d) (interrupt_error (dp_msg d))) d)
| move_timeout : dp_phase d = Waiting → dp_expired d = true →
    dispatcher_move interrupted d (with_reply (error_reply (dp_msg d) (dp_req d) (timeout_error (dp_msg d) (dp_timeout d))) d).

(** What the server does with the messages it dispatched. *)
Inductive dispatch_move (s : dispatch_state) : dispatch_state → Prop :=
| dispatcher_moves i d d' : dispatchers s !! i = Some d → dispatcher_move (interrupted s) d d' →
    dispatch_move s (s <| dispatchers ::= <[i := d']> |>)
| dispatcher_sends i d r : dispatchers s !! i = Some d → dp_phase d = Replying r → length (channel s) < replies_capacity →
    dispatch_move s (s <| dispatchers ::= <[i := d <| dp_phase := Ended r |>]> |> <| channel ::= (λ l, l ++ [r]) |>)
| processor_takes r rest : reading s = true → channel s = r :: rest →
    dispatch_move s (s <| channel := rest |> <| taken ::= (λ l, l ++ [r]) |>)
| processor_returns : reading s = true → interrupted s = true → dispatch_move s (s <| reading := false |>).

(** A handler comes to its end, if it does. *)
Inductive handler_finishes (s : dispatch_state) : dispatch_state → Prop :=
| handler_finish i d : dispatchers s !! i = Some d → dp_handler d = Running →
    handler_finishes s (s <| dispatchers ::= <[i := d <| dp_handler := match dp_result d with Some r => Sending r | None => HandlerDone end |>]> |>).

(** Messages are dispatched by [processRequests] too, and the server can be ended. *)
Inductive dispatch_step (s : dispatch_state) : dispatch_state → Prop :=
| step_move s' : dispatch_move s s' → dispatch_step s s'
| step_finish s' : handler_finishes s s' → dispatch_step s s'
| step_dispatch timeout msg req result : reading s = true → dispatch_step s (Dispatch timeout msg req result s)
| step_interrupt : dispatch_step s (s <| interrupted := true |>).

Section Server.
Context `{TJ : TransportJSON} `{MJ : MessageJSON} `{BF : BuildFlags} `{SP : SecurityProvider}.
Context `{FL : FactLib} `{RX : Regexp} `{EL : !ExprLib}.
Variable cfg : ServerConfig.
(** The server's own facts, classes and agents. *)
Variable si : ServerInfoSource.

(** [discovery.Manager.ShouldProcess]; reading the filter may give the request one. *)
Definition ShouldProcess (request : Transport.Request) : res (bool * Transport.Request) :=
  '(filter, request) ← rq_get_filter request;
  Ok (MatchServerRequest filter si, request).

(** A message that is to be dispatched, or [None]. *)
Definition handleRawMessage (now : Z) (rid1 rid2 : res string) (rawmsg : string) :
    SrvM (option (Message * Transport.Request)) :=
  let unvalidated := (count inc_unvalidated;; mret None) in
  count inc_total;;
  transport ← attempt (F:=string) (lift (NewTransportFromJSON rawmsg));
  match transport with
  | inr _ => unvalidated
  | inl transport =>
  sreq ← attempt (F:=string) (lift (NewSecureRequestFromTransport transport (DisableSecurityProviderVerify cfg)));
  match sreq with
  | inr _ => unvalidated
  | inl sreq =>
  req ← attempt (F:=string) (lift (NewRequestFromSecureRequest sreq));
  match req with
  | inr _ => unvalidated
  | inl req =>
  req ← lift (CopyFederationData transport req);
  '(process, req) ← lift (ShouldProcess req);
  if negb process then count inc_filtered;; mret None
  else
    count inc_passed;;
    replyto ← lift (ReplyTo transport);
    msg ← attempt (F:=string) (lift (NewMessageFromRequest (srv_fw cfg) rid1 rid2 req replyto));
    match msg with
    | inr _ => unvalidated
    | inl (msg, req) =>
        if negb (ValidateTTL now msg) then count inc_ttlexpired;; mret None
        else
          count inc_validated;;
          modify (λ s, {| lastMsgProcessed := now; counters := counters s |});;
          mret (Some (msg, req))
    end
  end end end.

(** ** Replies *)

Definition message_type_of (t : string) : message_type :=
  if String.eqb t RequestMessageType then RequestType
  else if String.eqb t DirectRequestMessageType then DirectRequestType
  else if String.eqb t ServiceRequestMessageType then ServiceRequestType
  else if String.eqb t ReplyMessageType then ReplyType
  else OtherType.

(** A message as the connection sees it. *)
Definition out_of (m : Message) : OutMessage :=
  {| msg_Type := message_type_of (m_msgType m); msg_Collective := m_collective m; msg_Agent := m_agent m;
     msg_RequestID := m_requestID m; msg_ReplyTo := m_replyTo m; msg_CustomTarget := m_customTarget m;
     msg_DiscoveredHosts := m_discoveredHosts m |}.

(** What the network takes, the federations and the server of the connection. *)
Variable pub_ok : string → TransportMessage → bool.
Variable federations : list string.
Variable server : string.

(** [Connection.Publish] of a message: what was published, and the error if any. *)
Definition publish_message (now : Z) (msg : Message) :
    list (string * TransportMessage) * res () :=
  match (MessageTransport (srv_fw cfg) now msg).2 with
  | Err e => ([], Err e)
  | Panic p => ([], Panic p)
  | Ok t =>
      let '(s, r) := Publish pub_ok federations server (fw_Identity (srv_fw cfg)) (out_of msg)
                       {| ps_transport := t; ps_published := [] |} in
      (ps_published s, r)
  end.

(** A reply that failed is dropped; one that could not be published is counted too. *)
Definition handleReply (now : Z) (rid1 rid2 : res string) (reply : AgentReply) :
    SrvM (list (string * TransportMessage)) :=
  match ar_Error reply with
  | Some _ => mret []
  | None =>
      msg ← attempt (F:=string)
        (lift (NewMessageFromRequest (srv_fw cfg) rid1 rid2 (ar_Request reply) (m_replyTo (ar_Message reply))));
      match msg with
      | inr _ => mret []
      | inl (msg, _) =>
          let '(published, r) := publish_message now (with_payload (ar_Body reply) msg) in
          match r with
          | Panic p => panic p
          | _ => count inc_replies;; mret published
          end
      end
  end.

(** ** The way of a message *)

Context `{TL : TokenLib} `{RJ : RpcJSON} `{OP : OPA}.
Context {W : Type}.
Variable fs : filesystem.

(** The handler the message is dispatched to, run to its end. *)
Definition run_agent (mgr : Manager (RpcAgent W)) (msg : Message) (req : Transport.Request) (w : W) :
    W * outcome Empty_set (option AgentReply) :=
  match Get (m_agent msg) mgr with
  | None => (w, Ok None)
  | Some agent => HandleMessage fs agent msg req w
  end.

(** A message from the network and the reply of the agent it is for. *)
Definition serve (now : Z) (rid1 rid2 : res string) (mgr : Manager (RpcAgent W)) (rawmsg : string)
    (s : Instance) (w : W) : Instance * W * outcome string (option AgentReply) :=
  match handleRawMessage now rid1 rid2 rawmsg s with
  | (s', Ok (Some (msg, req))) =>
      match run_agent mgr msg req w with
      | (w', Ok r) => (s', w', Ok r)
      | (w', Err e) => match e with end
      | (w', Panic p) => (s', w', Panic p)
      end
  | (s', Ok None) => (s', w, Ok None)
  | (s', Err e) => (s', w, Err e)
  | (s', Panic p) => (s', w, Panic p)
  end.

End Server.
