(* ===== verification/DemoServer.v ===== *)
(** * A concrete server, for the witnesses

    One agent with one action, which records that it ran, on a server that trusts the
    issuer of Security.v and authorizes by action policies. *)
From S2P Require Import Prelude GoLib Regex Files Facts Filters DemoLibs Util AuthTypes Transport SecureMessages Security DemoJSON Message Connection AgentManager ActionPolicy Rpc Processor.

#[export] Instance demo_expr_lib : ExprLib := {|
  expr_program := unit; ddl_FuncMap := unit; nil_FuncMap := tt;
  expr_Compile := λ _ _, None; expr_Run := λ _ _, Err "no program";
|}.

(** A request [agent,action] without data, and replies by their message. *)
#[export] Instance demo_rpc_json : RpcJSON := {|
  rpc_request_Unmarshal := λ s, match split s "," with [a; act] => Some (a, act, None) | _ => None end;
  rpc_reply_Marshal := λ r, Some (re_Statusmsg r);
  json_object := λ _, true;
|}.

#[export] Instance demo_opa : OPA := {| rego_Eval := λ _ _ _ _ _, None |}.

Definition demo_framework : FrameworkConfig :=
  {| fw_Identity := "node1"; fw_Collectives := ["mcollective"]; fw_TTL := 60;
     fw_CacheBatchedTransports := false; fw_RequireClientFilter := false; fw_CallerID := "choria=node1" |}.

Definition demo_server_config : ServerConfig :=
  {| srv_fw := demo_framework; DisableSecurityProviderVerify := false |}.

Definition demo_server_info : ServerInfoSource :=
  {| si_Classes := []; si_Facts := ∅; si_Identity := "node1"; si_KnownAgents := ["rpcutil"];
     si_DataFuncMap := None |}.

Definition demo_policy_config : ActionPolicy.Config :=
  {| ConfigFile := "/etc/server.conf"; ClassesFile := ""; FactSourceFile := ""; rawOpts := ∅ |}.

Definition demo_fs : filesystem := {["/etc/policies/rpcutil.policy" := Some "policy default allow"]}.

Definition demo_rpc_config : RpcConfig :=
  {| RPCAuthorization := true; RPCAuthorizationProvider := "action_policy"; policyConfig := demo_policy_config |}.

Definition demo_rpc_server : RpcServerInfo :=
  {| rsi_Facts := "{}"; rsi_Classes := []; rsi_KnownAgents := ["rpcutil"]; rsi_ProvisionMode := false |}.

(** The action records its caller. *)
Definition demo_action : Action (list string) := λ req reply w, (rr_CallerID req :: w, Ok reply).

Definition demo_metadata : Metadata :=
  {| md_Name := "rpcutil"; md_Version := "1.0.0"; md_Timeout := 10; md_Service := false; md_Provider := "" |}.

Definition demo_agent : RpcAgent (list string) :=
  SetRpcServerInfo (Some demo_rpc_server)
    (RegisterAction "ping" demo_action (New demo_metadata demo_rpc_config)).1.

Definition demo_manager : Manager (RpcAgent (list string)) :=
  {| agents := {["rpcutil" := demo_agent]}; subs := {["rpcutil" := ["mcollective.rpcutil"]]}; denylist := [];
     servicesOnly := false; conn := {| chanSubscriptions := ∅; live := [] |} |}.

Definition demo_counters : Counters :=
  {| totalCtr := 0; validatedCtr := 0; unvalidatedCtr := 0; passedCtr := 0; filteredCtr := 0; repliesCtr := 0;
     ttlExpiredCtr := 0 |}.
Definition demo_instance : Processor.Instance := {| lastMsgProcessed := 0; counters := demo_counters |}.

(** The request of [bob] to the agent, made at second 100. *)
Definition demo_ping : Transport.Request :=
  rq_set_message "rpcutil,ping"
    (NewRequest V2 (100 * Second) "rpcutil" "client" "choria=bob" 60 "42" "mcollective").

Definition demo_ping_payload : string :=
  match NewSecureRequest (SP := ChoriaSecurity (Security.demo_config "token-bob")) demo_ping with
  | Ok r =>
      match NewTransportForSecureRequest "client" r with
      | Ok m =>
          match Transport.SetReplyTo "mcollective.reply.bob" m with
          | Ok m => default "" (transport_Marshal m) | _ => "" end
      | _ => "" end
  | _ => "" end.

Definition demo_serve : Processor.Instance * list string * outcome string (option AgentReply) :=
  serve (SP := ChoriaSecurity (Security.demo_config "token-srv")) demo_server_config demo_server_info demo_fs (120 * Second)
    (Ok "1") (Ok "2") demo_manager demo_ping_payload demo_instance [].

(** The message the processor builds for it. *)
Definition demo_message : Message :=
  match NewMessageFromRequest demo_framework (Ok "1") (Ok "2") demo_ping "mcollective.reply.bob" with
  | Ok (m, _) => m
  | _ => {| m_payload := ""; m_agent := ""; m_request := None; m_filter := None; m_ttl := 0; m_timeStamp := 0;
            m_senderID := ""; m_callerID := ""; m_requestID := ""; m_discoveredHosts := [];
            m_customTarget := ""; m_expectedMessageID := ""; m_replyTo := ""; m_collective := "";
            m_msgType := ""; m_req := None; m_protoVersion := ""; m_shouldCacheTransport := false;
            m_cachedTransport := None |}
  end.
