(* ===== verification/ServerTheorems.v ===== *)
(** * The request processor: properties

    What an action a server runs was authorized by, the bookkeeping of the processor
    and of its dispatchers, and where replies go. *)
From S2P Require Import Prelude Records GoLib Regex Files Facts Filters Util AuthTypes Transport SecureMessages Security DemoJSON Message Connection AgentManager ActionPolicy Rpc Processor DemoLibs DemoServer.

(** ** Messages *)

Lemma SetType_reply m : SetType ReplyMessageType m = Ok (with_type ReplyMessageType (m_filter m) m).
Proof. reflexivity. Qed.

(** [HasCollective] of what a message made from scratch or for a request is sent to. *)
Lemma newMessage_spec fw rid payload agent collective msgType request m :
  newMessage fw rid payload agent collective msgType request = Ok m →
  let from := match request with None => agent | Some r => m_agent r end in
  let to := match request with None => collective | Some r => m_collective r end in
  m_agent m = from ∧ m_collective m = to ∧ from ≠ "" ∧ to ≠ "" ∧ HasCollective fw to = true ∧
  m_payload m = payload ∧ m_cachedTransport m = None ∧ m_customTarget m = "" ∧
  m_replyTo m = match request with None => "" | Some r => m_replyTo r end ∧
  m_msgType m = match request with None => msgType | Some _ => ReplyMessageType end.
Proof.
  unfold newMessage, mbind, outcome_bind. destruct rid as [id|e|p]; [|done..].
  match goal with |- context [SetType msgType ?m] => destruct (SetType msgType m) as [m1|e|p] eqn:H1; [|done..] end.
  assert (m1 = with_type msgType (m_filter m1)
    {| m_payload := payload; m_agent := ""; m_request := None; m_filter := Some NewFilter; m_ttl := fw_TTL fw;
       m_timeStamp := zero_time; m_senderID := fw_Identity fw; m_callerID := fw_CallerID fw; m_requestID := id;
       m_discoveredHosts := []; m_customTarget := ""; m_expectedMessageID := ""; m_replyTo := "";
       m_collective := ""; m_msgType := ""; m_req := None; m_protoVersion := Unknown;
       m_shouldCacheTransport := fw_CacheBatchedTransports fw; m_cachedTransport := None |}) as ->.
  { revert H1. unfold SetType. destruct (negb _); [done|]. destruct (String.eqb _ _); cbn.
    - done.
    - rewrite andb_false_r. by intros [= <-]. }
  destruct request as [r|]; cbn -[HasCollective SetCollective SetType MessageValidate].
  - rewrite SetType_reply. unfold SetCollective, MessageValidate. cbn -[HasCollective].
    destruct (HasCollective fw (m_collective r)) eqn:Hc; [|done]. cbn -[HasCollective]. rewrite ?Hc. cbn.
    destruct (String.eqb_spec (m_agent r) ""); [done|]. destruct (String.eqb_spec (m_collective r) ""); [done|].
    by intros [= <-].
  - unfold SetCollective, MessageValidate. cbn -[HasCollective].
    destruct (HasCollective fw collective) eqn:Hc; [|done]. cbn -[HasCollective]. rewrite ?Hc. cbn.
    destruct (String.eqb_spec agent ""); [done|]. destruct (String.eqb_spec collective ""); [done|].
    by intros [= <-].
Qed.

Lemma rq_get_filter_spec req f req' : rq_get_filter req = Ok (f, req') →
  f = default NewFilter (rq_Filter req) ∧ req' = rq_set_filter (Some f) req.
Proof.
  unfold rq_get_filter. destruct (rq_Filter req) as [f0|] eqn:Hf.
  - intros [= <- <-]. split; [done|]. destruct req. cbn in *. by subst.
  - destruct (rq_Type req); [done|]. by intros [= <- <-].
Qed.

(** The payload of a message made from a request is decoded once more if it can be. *)
Definition request_payload (req : Transport.Request) : string :=
  default (rq_MessageBody req) (b64_decode (rq_MessageBody req)).

Lemma NewMessageFromRequest_spec fw rid1 rid2 req replyto msg req' :
  NewMessageFromRequest fw rid1 rid2 req replyto = Ok (msg, req') →
  ∃ f, rq_get_filter req = Ok (f, req') ∧
  m_agent msg = rq_Agent req ∧ rq_Agent req ≠ "" ∧ m_collective msg = rq_Collective req ∧
  HasCollective fw (rq_Collective req) = true ∧ m_payload msg = request_payload req ∧
  m_ttl msg = rq_TTL req' ∧ m_timeStamp msg = rq_Time_ns req' ∧ m_replyTo msg = replyto ∧
  m_msgType msg = ReplyMessageType ∧ m_req msg = Some req' ∧ m_cachedTransport msg = None ∧
  m_customTarget msg = "" ∧ m_requestID msg = rq_RequestID req'.
Proof.
  unfold NewMessageFromRequest, mbind, outcome_bind.
  destruct (newMessage fw rid1 _ _ _ _ _) as [reqm|e|p] eqn:H1; [|done..].
  apply newMessage_spec in H1 as (Ha1 & Hc1 & Ha & Hc & Hh & _ & _ & _ & Hr1 & _). cbn in *.
  destruct (newMessage fw rid2 _ _ _ _ _) as [m|e|p] eqn:H2; [|done..].
  apply newMessage_spec in H2 as (Ha2 & Hc2 & _ & _ & _ & Hp & Hcache & Hct & Hr2 & Ht2). cbn in *.
  destruct (rq_get_filter req) as [[f req1]|e|p] eqn:Hf; [|done..].
  assert (m_agent m = rq_Agent req) as Ha3 by (rewrite Ha2; by destruct (String.eqb _ _)).
  assert (m_collective m = rq_Collective req) as Hc3 by (rewrite Hc2; by destruct (String.eqb _ _)).
  assert (m_replyTo m = replyto) as Hr3.
  { rewrite Hr2. destruct (String.eqb_spec replyto "") as [->|]; [by rewrite Hr1|done]. }
  assert (rq_MessageBody req1 = rq_MessageBody req) as Hb.
  { by apply rq_get_filter_spec in Hf as [_ ->]. }
  unfold SetBase64Payload, request_payload. rewrite Hb.
  destruct (b64_decode (rq_MessageBody req)); intros [= <- <-]; exists f; by split_and!.
Qed.

(** ** The age of a message *)

Lemma ValidateTTL_spec now m :
  ValidateTTL now m = true ↔ (Z.abs (now - m_timeStamp m) < wrap64 (m_ttl m * Second))%Z.
Proof.
  unfold ValidateTTL. rewrite wrap64_opp_mul, wrap64_opp, andb_true_iff, !Z.ltb_lt.
  pose proof (wrap64_range (m_ttl m * Second)).
  destruct (Z.eqb_spec (wrap64 (m_ttl m * Second)) (-9223372036854775808)); lia.
Qed.

(** C40. A message is within its time to live exactly when it was made less than that many
    seconds ago or ahead of the clock, as long as the time fits a duration; a longer
    one, from 9223372037 seconds on, wraps around and is no longer the window asked for:
    at 9223372037 every message is too old. *)
Theorem ttl_window (now : Z) (m : Message) :
  (0 ≤ m_ttl m < 9223372036854775808)%Z →
  (m_ttl m ≤ 9223372036 → ValidateTTL now m = bool_decide (Z.abs (now - m_timeStamp m) < m_ttl m * Second))%Z ∧
  (m_ttl m = 9223372037 → ValidateTTL now m = false)%Z.
Proof.
  intros Hr. split; intros Ht; apply eq_bool_prop_intro; rewrite !Is_true_true, ValidateTTL_spec.
  - rewrite bool_decide_eq_true, wrap64_small; [done|unfold Second; lia].
  - rewrite Ht. change (wrap64 (9223372037 * Second)) with (-9223372036709551616)%Z. split; [lia|done].
Qed.

(** ** From the network to an agent *)

Section Server.
Context `{TJ : TransportJSON} `{MJ : MessageJSON} `{BF : BuildFlags} `{SP : SecurityProvider}.
Context `{FL : FactLib} `{RX : Regexp} `{EL : !ExprLib}.
Variable cfg : ServerConfig.
Variable si : ServerInfoSource.

(** A request as the server has read it, before federation data and filter are set. *)
Definition server_reads (raw : string) (transport : TransportMessage) (sreq : SecureRequest)
    (req : Transport.Request) : Prop :=
  NewTransportFromJSON raw = Ok transport ∧
  NewSecureRequestFromTransport transport (DisableSecurityProviderVerify cfg) = Ok sreq ∧
  NewRequestFromSecureRequest sreq = Ok req.

Lemma handleRawMessage_spec now rid1 rid2 raw s s' msg req :
  handleRawMessage cfg si now rid1 rid2 raw s = (s', Ok (Some (msg, req))) →
  ∃ transport sreq req0 f v,
    server_reads raw transport sreq req0 ∧
    f = default NewFilter (rq_Filter req0) ∧ MatchServerRequest f si = true ∧
    req = rq_set_filter (Some f) (rq_set v req0) ∧
    ReplyTo transport = Ok (m_replyTo msg) ∧ ValidateTTL now msg = true ∧
    m_agent msg = rq_Agent req0 ∧ rq_Agent req0 ≠ "" ∧ HasCollective (srv_fw cfg) (rq_Collective req0) = true ∧
    m_payload msg = request_payload req0 ∧ m_ttl msg = rq_TTL req0 ∧ m_timeStamp msg = rq_Time_ns req0.
Proof.
  unfold handleRawMessage, mbind, ST_bind, attempt, lift, count, modify.
  cbn -[rq_get_filter CopyFederationData NewTransportFromJSON NewSecureRequestFromTransport NewRequestFromSecureRequest].
  destruct (NewTransportFromJSON raw) as [t|e|p] eqn:H1; [|by cbn..].
  destruct (NewSecureRequestFromTransport t _) as [sr|e|p] eqn:H2; [|by cbn..].
  destruct (NewRequestFromSecureRequest sr) as [req0|e|p] eqn:H3; [|by cbn..].
  destruct (CopyFederationData t req0) as [req1|e|p] eqn:H4; [|by cbn..].
  unfold ShouldProcess, mbind, outcome_bind.
  destruct (rq_get_filter req1) as [[f req2]|e|p] eqn:H5; [|by cbn..].
  destruct (MatchServerRequest f si) eqn:H6; [|by cbn]. cbn -[NewMessageFromRequest ReplyTo].
  destruct (ReplyTo t) as [replyto|e|p] eqn:H7; [|by cbn..].
  destruct (NewMessageFromRequest _ _ _ _ _) as [[m req3]|e|p] eqn:H8; [|by cbn..]. cbn.
  destruct (ValidateTTL now m) eqn:H9; [|by cbn]. cbn. intros [= <- <- <-].
  apply copy_to_request in H4 as [v ->].
  apply NewMessageFromRequest_spec in H8 as (f' & H10 & H11 & H12 & H13 & H14 & H15 & H16 & H17 & H18 & _).
  apply rq_get_filter_spec in H5 as [-> ->]. apply rq_get_filter_spec in H10 as [-> ->]. cbn in *.
  exists t, sr, req0, (default NewFilter (rq_Filter req0)), v.
  split_and!; try done. by rewrite H18.
Qed.

Context `{TL : TokenLib} `{RJ : RpcJSON} `{OP : OPA} {W : Type}.
Variable fs : filesystem.

(** What makes an action of an agent run. *)
Definition runs (agent : RpcAgent W) (msg : Message) (req : Transport.Request) (rpc : RpcRequest)
    (action : Action W) : Prop :=
  parseIncomingMessage (m_payload msg) req = Ok rpc ∧ a_actions agent !! rr_Action rpc = Some action ∧
  (RPCAuthorization (a_Config agent) = true →
   rr_Agent rpc = md_Name (a_meta agent) ∧
   AuthorizeRequest fs (Some rpc) (Some (a_Config agent)) (a_ServerInfo agent) = true).

Lemma rpc_handle_spec agent msg req w :
  (∃ rpc action r, runs agent msg req rpc action ∧ handle fs agent msg req w = action rpc r w) ∨
  (∃ o, handle fs agent msg req w = (w, o)).
Proof.
  unfold handle, runs. destruct (parseIncomingMessage _ req) as [rpc|e|p]; [|right; by eexists..].
  destruct (a_actions agent !! rr_Action rpc) as [action|] eqn:Ha; [|right; by eexists].
  destruct (RPCAuthorization (a_Config agent)) eqn:Hr; cbn [andb].
  - unfold agent_authorize. destruct (String.eqb_spec (rr_Agent rpc) (md_Name (a_meta agent))) as [Hn|Hn];
      cbn [negb]; [|right; by eexists].
    destruct (AuthorizeRequest _ _ _ _) eqn:Hz; cbn [negb]; [|right; by eexists].
    left. exists rpc, action. eexists. split; [|reflexivity]. done.
  - left. exists rpc, action. eexists. split; [|reflexivity]. done.
Qed.

Lemma serve_spec now rid1 rid2 mgr raw s w s' w' r :
  serve cfg si fs now rid1 rid2 mgr raw s w = (s', w', r) → w' ≠ w →
  ∃ msg req agent rpc action reply, handleRawMessage cfg si now rid1 rid2 raw s = (s', Ok (Some (msg, req))) ∧
    agents mgr !! m_agent msg = Some agent ∧ runs agent msg req rpc action ∧ w' = (action rpc reply w).1.
Proof.
  unfold serve. destruct (handleRawMessage _ _ _ _ _ _ s) as [s1 [[[msg req]|]|e|p]]; [|by intros [= <- <- <-] ?..].
  unfold run_agent, Get. destruct (agents mgr !! m_agent msg) as [agent|] eqn:Ha; [|by intros [= <- <- <-] ?].
  unfold HandleMessage. intros H Hw.
  destruct (rpc_handle_spec agent msg req w) as [(rpc & action & reply & Hr & Hh)|(o & Hh)]; rewrite Hh in H.
  - exists msg, req, agent, rpc, action, reply. destruct (action rpc reply w) as [w1 [rep|[]|p]];
      injection H as <- <- <-; by split_and!.
  - destruct o as [rep|[]|p]; injection H as <- <- <-; done.
Qed.

End Server.

Lemma parse_incoming_spec `{RpcJSON} payload req rpc : parseIncomingMessage payload req = Ok rpc →
  rr_CallerID rpc = rq_CallerID req ∧ rr_CallerPublicData rpc = rq_callerJWT req ∧
  rr_SignerPublicData rpc = rq_signerJWT req ∧ rr_Collective rpc = rq_Collective req.
Proof.
  unfold parseIncomingMessage. destruct (rpc_request_Unmarshal payload) as [[[a act] d]|]; [|done].
  unfold mbind, outcome_bind. destruct (rq_get_filter req) as [[f r]|e|p]; [|done..]. by intros [= <-].
Qed.

Section Properties.
Context `{TL : TokenLib} `{PF : Platform} `{KS : KeyStore} `{LT : !LawfulTokens}.
Context `{TJ : TransportJSON} `{MJ : MessageJSON} `{BF : BuildFlags}.
Context `{FL : FactLib} `{RX : Regexp} `{EL : !ExprLib} `{RJ : RpcJSON} `{OP : OPA}.

(** C2. On a secure server that verifies requests, whatever bytes arrive from the
    network, the world changes only by an action of an agent the server has registered,
    on behalf of a request that is authentic, selected by its filter, sent to a
    collective of the server, within its time to live, and, where the agent demands
    authorization, meant for that agent and allowed by the configured authorizer under
    the name and the token that were verified. *)
Theorem actions_need_authority {W : Type} (conf : Security.Config) (cfg : ServerConfig) (si : ServerInfoSource)
    (fs : filesystem) (now : Z) (rid1 rid2 : res string) (mgr : Manager (RpcAgent W)) (raw : string)
    (s s' : Instance) (w w' : W) (r : outcome string (option AgentReply)) :
  IsSecure = true → DisableSecurityProviderVerify cfg = false →
  let SP := ChoriaSecurity conf in
  serve cfg si fs now rid1 rid2 mgr raw s w = (s', w', r) → w' ≠ w →
  ∃ sreq req agent rpc action reply,
    request_from_secure V2 sreq = Ok req ∧ authentic conf sreq req ∧
    MatchServerRequest (default NewFilter (rq_Filter req)) si = true ∧
    HasCollective (srv_fw cfg) (rq_Collective req) = true ∧
    (Z.abs (now - rq_Time_ns req) < wrap64 (rq_TTL req * Second))%Z ∧
    agents mgr !! rq_Agent req = Some agent ∧ a_actions agent !! rr_Action rpc = Some action ∧
    rr_CallerID rpc = rq_CallerID req ∧ rr_CallerPublicData rpc = sr_Caller sreq ∧
    (RPCAuthorization (a_Config agent) = true →
     rr_Agent rpc = md_Name (a_meta agent) ∧
     AuthorizeRequest fs (Some rpc) (Some (a_Config agent)) (a_ServerInfo agent) = true) ∧
    w' = (action rpc reply w).1.
Proof.
  intros Hsec Hver SP Hserve Hw.
  destruct (serve_spec _ _ _ _ _ _ _ _ _ _ _ _ _ Hserve Hw)
    as (msg & req & agent & rpc & action & reply & Hraw & Hagent & (Hparse & Haction & Hauth) & Hw').
  destruct (handleRawMessage_spec _ _ _ _ _ _ _ _ _ _ Hraw)
    as (t & sreq & req0 & f & v & (_ & Hsreq & Hreq) & -> & Hmatch & -> & _ & Httl & Ha & _ & Hcol & _ & Ht & Hts).
  rewrite Hver in Hsreq. destruct (accepted_secure_request conf t sreq req0 Hsec Hsreq Hreq) as [Hr Hauthentic].
  apply request_from_secure_tokens in Hr as Htok. destruct Htok as (_ & _ & Htok & _).
  apply parse_incoming_spec in Hparse as (Hc & Hp & _). cbn in Hc, Hp.
  apply ValidateTTL_spec in Httl. rewrite Ht, Hts in Httl. rewrite Ha in Hagent.
  exists sreq, req0, agent, rpc, action, reply. split_and!; try done. by rewrite Hp.
Qed.

End Properties.

Lemma actions_need_authority_witness :
  demo_serve.1.2 = ["choria=bob"] ∧
  ∃ sreq req, request_from_secure V2 sreq = Ok req ∧ authentic (Security.demo_config "token-srv") sreq req ∧
    rq_CallerID req = "choria=bob".
Proof.
  destruct demo_serve as [[s' w'] r] eqn:Hs.
  assert (demo_serve.1.2 = ["choria=bob"]) as Hw by (vm_compute; reflexivity).
  rewrite Hs in Hw. cbn in Hw. split; [exact Hw|].
  destruct (actions_need_authority (Security.demo_config "token-srv") demo_server_config demo_server_info demo_fs
    (120 * Second) (Ok "1") (Ok "2") demo_manager demo_ping_payload demo_instance s' [] w' r)
    as (sreq & req & agent & rpc & action & reply & Hreq & Ha & _ & _ & _ & Hagent & Haction & Hc & _ & _ & Hw'); [done|done|exact Hs|by rewrite Hw|].
  exists sreq, req. split; [exact Hreq|]. split; [exact Ha|].
  unfold demo_manager in Hagent. cbn [agents] in Hagent. apply lookup_singleton_Some in Hagent as [_ <-].
  assert (a_actions demo_agent = <["ping" := demo_action]> ∅) as Hac by reflexivity.
  rewrite Hac, lookup_insert_Some in Haction. destruct Haction as [[_ <-]|[_ Haction]]; [|done].
  rewrite Hw in Hw'. cbn in Hw'. injection Hw' as Hw'. rewrite <- Hc. exact (eq_sym Hw').
Defined.

(** ** Bookkeeping *)

Definition balanced (c : Counters) : Prop :=
  totalCtr c = validatedCtr c + unvalidatedCtr c + filteredCtr c + ttlExpiredCtr c ∧
  passedCtr c + filteredCtr c ≤ totalCtr c ∧ validatedCtr c + ttlExpiredCtr c ≤ passedCtr c.

Section Bookkeeping.
Context `{TJ : TransportJSON} `{MJ : MessageJSON} `{BF : BuildFlags} `{SP : SecurityProvider}.
Context `{FL : FactLib} `{RX : Regexp} `{EL : !ExprLib}.
Variable cfg : ServerConfig.

(** One turn of [processRequests]: whatever the server knows of itself and what the
    network does at that time. *)
Inductive processor_step : Processor.Instance → Processor.Instance → Prop :=
| step_raw s s' si now rid1 rid2 raw o :
    handleRawMessage cfg si now rid1 rid2 raw s = (s', Ok o) → processor_step s s'
| step_handle_reply s s' pub_ok federations server now rid1 rid2 reply l :
    handleReply cfg pub_ok federations server now rid1 rid2 reply s = (s', Ok l) → processor_step s s'.

(** Every way through the handler counts the message once. *)
Lemma handleRawMessage_counts si now rid1 rid2 raw s s' o :
  handleRawMessage cfg si now rid1 rid2 raw s = (s', Ok o) →
  let c := counters s in let t := inc_total c in
  (counters s' = inc_unvalidated t ∧ o = None) ∨ (counters s' = inc_filtered t ∧ o = None) ∨
  (counters s' = inc_unvalidated (inc_passed t) ∧ o = None) ∨
  (counters s' = inc_ttlexpired (inc_passed t) ∧ o = None) ∨
  (counters s' = inc_validated (inc_passed t) ∧ is_Some o ∧ lastMsgProcessed s' = now).
Proof.
  unfold handleRawMessage, mbind, ST_bind, attempt, lift, count, modify.
  cbn -[rq_get_filter CopyFederationData NewTransportFromJSON NewSecureRequestFromTransport NewRequestFromSecureRequest].
  destruct (NewTransportFromJSON raw) as [t|e|p]; [|intros [= <- <-]; by left|by cbn].
  destruct (NewSecureRequestFromTransport t _) as [sr|e|p]; [|intros [= <- <-]; by left|by cbn].
  destruct (NewRequestFromSecureRequest sr) as [req0|e|p]; [|intros [= <- <-]; by left|by cbn].
  destruct (CopyFederationData t req0) as [req1|e|p]; [|by cbn..].
  unfold ShouldProcess, mbind, outcome_bind.
  destruct (rq_get_filter req1) as [[f req2]|e|p]; [|by cbn..].
  destruct (MatchServerRequest f si); cbn -[NewMessageFromRequest ReplyTo]; [|intros [= <- <-]; right; by left].
  destruct (ReplyTo t) as [replyto|e|p]; [|by cbn..].
  destruct (NewMessageFromRequest _ _ _ _ _) as [[m req3]|e|p]; [|intros [= <- <-]; do 2 right; by left|by cbn].
  cbn. destruct (ValidateTTL now m); cbn; intros [= <- <-]; do 3 right; [right|by left].
  split; [done|]. by split.
Qed.

Lemma balanced_step s s' : processor_step s s' → balanced (counters s) → balanced (counters s').
Proof.
  intros [s1 s2 si now rid1 rid2 raw o H|s1 s2 pub_ok federations server now rid1 rid2 reply l H].
  - apply handleRawMessage_counts in H.
    destruct H as [[-> _]|[[-> _]|[[-> _]|[[-> _]|[-> _]]]]]; unfold balanced; cbn; lia.
  - revert H. unfold handleReply. destruct (ar_Error reply); [by intros [= <- <-]|].
    unfold mbind, ST_bind, attempt, lift, count, modify.
    destruct (NewMessageFromRequest _ _ _ _ _) as [[m req]|e|p]; [|by intros [= <- <-]|by cbn].
    destruct (publish_message _ _ _ _ _ _) as [published [u|e|p]]; cbn; [intros [= <- <-]..|done]; done.
Qed.

(** The counters of the processor account for every message: those it received are
    the validated, the unvalidated, the filtered and the expired ones, each message
    counted once, and those that passed the filter are among them. *)
Theorem counters_balance s s' :
  balanced (counters s) → rtc processor_step s s' → balanced (counters s').
Proof. intros Hb Hr. induction Hr as [|s1 s2 s3 Hs _ IH]; [done|]. by eapply IH, balanced_step. Qed.

End Bookkeeping.

Lemma counters_balance_witness : ∃ s',
  rtc (processor_step (SP := ChoriaSecurity (Security.demo_config "token-srv")) demo_server_config) demo_instance s' ∧
  validatedCtr (counters s') = 1 ∧ unvalidatedCtr (counters s') = 1 ∧ balanced (counters s').
Proof.
  assert (∃ s', rtc (processor_step (SP := ChoriaSecurity (Security.demo_config "token-srv")) demo_server_config) demo_instance s' ∧
    validatedCtr (counters s') = 1 ∧ unvalidatedCtr (counters s') = 1) as (s' & Hr & H1 & H2).
  { eexists. split.
    - eapply rtc_l; [eapply (step_raw _ _ _ demo_server_info (120 * Second) (Ok "1") (Ok "2") demo_ping_payload);
        vm_compute; reflexivity|].
      eapply rtc_l; [eapply (step_raw _ _ _ demo_server_info (120 * Second) (Ok "1") (Ok "2") "nonsense");
        vm_compute; reflexivity|].
      apply rtc_refl.
    - by split. }
  exists s'. split; [exact Hr|]. split; [exact H1|]. split; [exact H2|].
  apply (counters_balance (SP := ChoriaSecurity (Security.demo_config "token-srv")) demo_server_config demo_instance s');
    [split; [reflexivity|split; cbn; lia]|exact Hr].
Defined.

(** ** Dispatchers *)

Definition phase_reply (d : dispatcher) : option AgentReply :=
  match dp_phase d with Ended r => Some r | _ => None end.

(** Where the reply of a dispatcher comes from. *)
Definition reply_of (interrupted : bool) (d : dispatcher) (r : AgentReply) : Prop :=
  dp_result d = Some r ∨
  (interrupted = true ∧ r = error_reply (dp_msg d) (dp_req d) (interrupt_error (dp_msg d))) ∨
  (dp_expired d = true ∧ r = error_reply (dp_msg d) (dp_req d) (timeout_error (dp_msg d) (dp_timeout d))).

Definition dispatcher_ok (interrupted : bool) (d : dispatcher) : Prop :=
  (∀ r, dp_handler d = Sending r → dp_result d = Some r) ∧
  (∀ r, dp_phase d = Replying r ∨ dp_phase d = Ended r → reply_of interrupted d r).

Record dispatch_inv (s : dispatch_state) : Prop := {
  di_replies : taken s ++ channel s ≡ₚ omap phase_reply (dispatchers s);
  di_room : length (channel s) ≤ replies_capacity;
  di_ok : ∀ d, d ∈ dispatchers s → dispatcher_ok (interrupted s) d;
}.

Lemma omap_insert_same {A B} (f : A → option B) (l : list A) i x y : l !! i = Some x → f y = f x → omap f (<[i := y]> l) = omap f l.
Proof.
  revert i. induction l as [|z l IH]; intros [|i] Hi Hf; cbn in *; [done|done| |].
  - injection Hi as ->. by rewrite Hf.
  - specialize (IH i Hi Hf). destruct (f z); [f_equal|]; exact IH.
Qed.

Lemma omap_insert_some {A B} (f : A → option B) (l : list A) i x y b : l !! i = Some x → f x = None → f y = Some b →
  omap f (<[i := y]> l) ≡ₚ b :: omap f l.
Proof.
  revert i. induction l as [|z l IH]; intros [|i] Hi Hx Hy; cbn in *; [done|done| |].
  - injection Hi as ->. by rewrite Hx, Hy.
  - specialize (IH i Hi Hx Hy). destruct (f z); [|exact IH]. etransitivity; [apply perm_skip, IH|apply perm_swap].
Qed.

Lemma elem_insert_le {A} (l : list A) (i : nat) x y : x ∈ <[i := y]> l → x = y ∨ x ∈ l.
Proof.
  intros (j & Hj)%list_elem_of_lookup. destruct (decide (i = j)) as [<-|Hne].
  - apply list_lookup_insert_Some in Hj as [(_ & <- & _)|[Hne _]]; [by left|done].
  - rewrite list_lookup_insert_ne in Hj by done. right. by eapply list_elem_of_lookup_2.
Qed.

Lemma dispatcher_move_ok b d d' : dispatcher_move b d d' → dispatcher_ok b d →
  dispatcher_ok b d' ∧ phase_reply d' = phase_reply d.
Proof.
  unfold dispatcher_ok, reply_of, phase_reply. intros [He|r Hp Hh|Hp Hi|Hp He] [H1 H2]; destruct d; cbn in *; subst; split; try done; (split; [by auto|]);
    intros r' Hr'; try (destruct Hr' as [[= <-]|?]; [|done]); auto.
  - destruct (H2 r' Hr') as [?|[?|[? _]]]; [by auto|by auto|done].
Qed.

Lemma ok_insert b (l : list dispatcher) (i : nat) d : (∀ x, x ∈ l → dispatcher_ok b x) → dispatcher_ok b d → ∀ x, x ∈ <[i := d]> l → dispatcher_ok b x.
Proof. intros Hl Hd x [->|Hx]%elem_insert_le; auto. Qed.

Lemma ok_expired b d : dispatcher_ok b d → dispatcher_ok true d.
Proof. intros [H1 H2]. split; [done|]. intros r Hr. destruct (H2 r Hr) as [?|[[_ ?]|?]]; unfold reply_of; auto. Qed.

Lemma move_inv s s' : dispatch_move s s' → dispatch_inv s → dispatch_inv s'.
Proof.
  intros Hm [Hr Hroom Hok]. destruct Hm as [i d d' Hi Hm|i d r Hi Hp Hlen|r rest Hread Hc|Hread Hint].
  - destruct (dispatcher_move_ok _ _ _ Hm (Hok d (list_elem_of_lookup_2 _ _ _ Hi))) as [Hd Hph].
    split; [|done|by apply ok_insert]. change (taken s ++ channel s ≡ₚ omap phase_reply (<[i := d']> (dispatchers s))).
    by rewrite (omap_insert_same _ _ _ _ _ Hi Hph).
  - split.
    + change (taken s ++ (channel s ++ [r]) ≡ₚ omap phase_reply (<[i := d <| dp_phase := Ended r |>]> (dispatchers s))).
      rewrite (omap_insert_some phase_reply _ _ d _ r Hi); [|unfold phase_reply; by rewrite Hp|by destruct d].
      rewrite app_assoc, Hr. symmetry. apply Permutation_cons_append.
    + change (length (channel s ++ [r]) ≤ replies_capacity). rewrite length_app. cbn. lia.
    + apply ok_insert; [done|]. destruct (Hok d (list_elem_of_lookup_2 _ _ _ Hi)) as [H1 H2]. destruct d. cbn in *. subst. split; [done|].
      intros r' [?|[= <-]]; [done|]. by apply (H2 r); left.
  - split; [|rewrite Hc in Hroom; cbn in *; lia|done]. rewrite <- Hr, Hc. cbn. by rewrite <- app_assoc.
  - by split.
Qed.

Lemma dispatch_inv_step s s' : dispatch_step s s' → dispatch_inv s → dispatch_inv s'.
Proof.
  intros Hs Hinv. destruct Hs as [s' Hm|s' Hf|timeout msg req result Hread|]; [by eapply move_inv|..]; destruct Hinv as [Hr Hroom Hok].
  - destruct Hf as [i d Hi Hh]. destruct (Hok d (list_elem_of_lookup_2 _ _ _ Hi)) as [H1 H2].
    set (d' := d <| dp_handler := _ |>). split; [|done|apply ok_insert; [done|]].
    + change (taken s ++ channel s ≡ₚ omap phase_reply (<[i := d']> (dispatchers s))). rewrite (omap_insert_same _ _ _ _ _ Hi); [done|by destruct d].
    + subst d'. destruct d; cbn in *. subst. split; [|done]. cbn. destruct dp_result; [by intros r [= <-]|done].
  - destruct timeout as [timeout|]; [|by split]. split; [|done|].
    + cbn. rewrite omap_app. cbn. by rewrite app_nil_r.
    + cbn. intros d [Hd| ->%list_elem_of_singleton]%elem_of_app; [by apply Hok|]. split; [done|]. by intros r [?|?].
  - split; [done..|]. intros d Hd. eapply ok_expired, Hok, Hd.
Qed.

(** ** The work of dispatchers *)

Definition dispatcher_work (d : dispatcher) : nat :=
  match dp_handler d with Running => 1 | _ => 0 end + (if dp_expired d then 0 else 1) +
  match dp_phase d with Waiting => 3 | Replying _ => 2 | Ended _ => 0 end.

Definition work (s : dispatch_state) : nat :=
  sum_list_with dispatcher_work (dispatchers s) + length (channel s) + (if reading s then 1 else 0).

Lemma sum_insert {A} (f : A → nat) (l : list A) i x y : l !! i = Some x →
  sum_list_with f (<[i := y]> l) + f x = sum_list_with f l + f y.
Proof.
  revert i. induction l as [|z l IH]; intros [|i] Hi; [done|done| |].
  - injection Hi as ->. cbn. lia.
  - specialize (IH i Hi). change (f z + sum_list_with f (<[i := y]> l) + f x = f z + sum_list_with f l + f y). lia.
Qed.

Lemma dispatcher_move_work b d d' : dispatcher_move b d d' → dispatcher_work d' < dispatcher_work d.
Proof.
  intros Hm. destruct Hm as [He|r Hp Hh|Hp Hi|Hp He]; unfold dispatcher_work, with_reply; destruct d as [m q t x res h ph]; cbn in *; subst;
    try destruct h; try destruct x; lia.
Qed.

(** What the server and its handlers do on their own. *)
Definition server_runs (s s' : dispatch_state) : Prop := dispatch_move s s' ∨ handler_finishes s s'.

Lemma work_insert s i d d' : dispatchers s !! i = Some d →
  work (s <| dispatchers ::= <[i := d']> |>) + dispatcher_work d = work s + dispatcher_work d'.
Proof.
  intros Hi. pose proof (sum_insert dispatcher_work _ _ _ d' Hi) as Hsum.
  change (work (s <| dispatchers ::= <[i := d']> |>)) with
    (sum_list_with dispatcher_work (<[i := d']> (dispatchers s)) + length (channel s) + (if reading s then 1 else 0)).
  unfold work. lia.
Qed.

Lemma server_runs_work s s' : server_runs s s' → work s' < work s.
Proof.
  intros Hrun. destruct Hrun as [Hm|Hf].
  - destruct Hm as [i d d' Hi Hm|i d r Hi Hp Hlen|r rest Hread Hc|Hread Hint].
    + pose proof (work_insert s i d d' Hi). apply dispatcher_move_work in Hm. lia.
    + pose proof (work_insert s i d (d <| dp_phase := Ended r |>) Hi) as Hw.
      assert (dispatcher_work (d <| dp_phase := Ended r |>) + 2 = dispatcher_work d) as Hd.
      { unfold dispatcher_work. destruct d as [m q t x res h ph]. cbn in *. subst. lia. }
      set (s1 := s <| dispatchers ::= _ |>) in *.
      assert (work (s1 <| channel ::= λ l, l ++ [r] |>) = work s1 + 1) as ->; [|lia].
      clearbody s1. destruct s1. unfold work. cbn. rewrite length_app. cbn. lia.
    + destruct s. unfold work. cbn in *. subst. cbn. lia.
    + destruct s. unfold work. cbn in *. subst. lia.
  - destruct Hf as [i d Hi Hh]. set (d' := d <| dp_handler := _ |>). pose proof (work_insert s i d d' Hi) as Hw.
    assert (dispatcher_work d' < dispatcher_work d) as Hd; [|lia].
    subst d'. unfold dispatcher_work. destruct d as [m q t x res h ph]. cbn in *. subst. destruct res; lia.
Qed.

(** Nothing is left to do but for the handlers. *)
Definition settled (s : dispatch_state) : Prop := ∀ s', ¬ dispatch_move s s'.

Lemma settled_ended s d : settled s → length (channel s) ≤ replies_capacity → d ∈ dispatchers s →
  (∃ r, dp_phase d = Ended r) ∨ (reading s = false ∧ length (channel s) = replies_capacity ∧ ∃ r, dp_phase d = Replying r).
Proof.
  intros Hs Hroom (i & Hi)%list_elem_of_lookup. destruct (dp_phase d) as [|r|r] eqn:Hp; [exfalso|right|left; by exists r].
  - destruct (dp_expired d) eqn:He.
    + eapply Hs, dispatcher_moves; [exact Hi|by apply move_timeout].
    + eapply Hs, dispatcher_moves; [exact Hi|by apply move_expire].
  - destruct (decide (length (channel s) < replies_capacity)) as [Hlt|Hge].
    { exfalso. eapply Hs, dispatcher_sends; [exact Hi|exact Hp|done]. }
    split_and!; [|lia|by exists r]. destruct (reading s) eqn:Hread; [exfalso|done].
    destruct (channel s) as [|x rest] eqn:Hc; [cbn in Hge; unfold replies_capacity in Hge; lia|]. by eapply Hs, processor_takes.
Qed.

Lemma settled_empty s : settled s → reading s = true → channel s = [].
Proof. intros Hs Hread. destruct (channel s) as [|x rest] eqn:Hc; [done|exfalso]. by eapply Hs, processor_takes. Qed.

(** A handler whose dispatcher is gone offers its reply for ever. *)
Lemma late_step s s' i d r : dispatch_step s s' → dispatchers s !! i = Some d → dp_handler d = Sending r → dp_phase d ≠ Waiting →
  ∃ d', dispatchers s' !! i = Some d' ∧ dp_handler d' = Sending r ∧ dp_phase d' ≠ Waiting.
Proof.
  intros Hs Hi Hh Hp.
  assert (∀ j x y, dispatchers s !! j = Some x → (i = j → dp_handler y = Sending r ∧ dp_phase y ≠ Waiting) →
    ∃ d', <[j := y]> (dispatchers s) !! i = Some d' ∧ dp_handler d' = Sending r ∧ dp_phase d' ≠ Waiting) as Hins.
  { intros j x y Hj Hy. destruct (decide (i = j)) as [<-|Hne].
    - exists y. split; [|by apply Hy]. apply list_lookup_insert_eq. by eapply lookup_lt_Some.
    - exists d. by rewrite list_lookup_insert_ne. }
  destruct Hs as [s' [j x x' Hj Hm|j x r' Hj Hp' Hlen|r' rest Hread Hc|Hread Hint]|s' [j x Hj Hr]|timeout msg req result Hread|];
    cbn; try (by exists d).
  - apply (Hins j x); [done|]. intros ->. assert (x = d) as -> by congruence.
    destruct Hm as [He|r' Hw Hs|Hw Hint|Hw He]; [|congruence..]. by destruct d.
  - apply (Hins j x); [done|]. intros ->. assert (x = d) as -> by congruence. by destruct d.
  - apply (Hins j x); [done|]. intros ->. congruence.
  - destruct timeout; cbn; [|by exists d]. exists d. split; [|done]. by apply lookup_app_l_Some.
Qed.

(** With the channel full and nobody to take from it, nothing is replied any more. *)
Lemma full_step s s' : dispatch_step s s' → reading s = false → length (channel s) = replies_capacity →
  reading s' = false ∧ channel s' = channel s ∧ taken s' = taken s.
Proof.
  intros Hs Hread Hfull.
  destruct Hs as [s' [j x x' Hj Hm|j x r' Hj Hp' Hlen|r' rest Hr Hc|Hr Hint]|s' [j x Hj Hr]|timeout msg req result Hr|];
    cbn; try done; try congruence. lia.
Qed.

(** C38. A dispatched message gets one reply.  In whatever way the handlers of agents, the
    timeouts, the end of the server and the request processor interleave: the replies that
    the processor took or will find in its channel, which never holds more than 100, are
    those of the dispatchers that ended, one of each; the reply of a dispatcher is that of
    its handler, or says that the server ended or the timeout of the agent was over, only
    when so; the server makes as many moves as there is work left at most, and when it has
    none to make, every dispatcher ended and its reply was taken, while the processor runs;
    after it returned dispatchers can be left with a reply nobody takes, but only when the
    channel is full, and then for ever; and a handler that offers its reply after its
    dispatcher stopped waiting offers it for ever. *)
Theorem dispatch_replies_once s :
  rtc dispatch_step dispatch_start s →
  taken s ++ channel s ≡ₚ omap phase_reply (dispatchers s) ∧ length (channel s) ≤ replies_capacity ∧
  (∀ d r, d ∈ dispatchers s → dp_phase d = Ended r → reply_of (interrupted s) d r) ∧
  (∀ n s', nsteps server_runs n s s' → n ≤ work s) ∧
  (settled s →
     (∀ d, d ∈ dispatchers s → (∃ r, dp_phase d = Ended r) ∨
        (reading s = false ∧ length (channel s) = replies_capacity ∧ ∃ r, dp_phase d = Replying r)) ∧
     (reading s = true → channel s = [])) ∧
  (reading s = false → length (channel s) = replies_capacity → ∀ s', rtc dispatch_step s s' →
     channel s' = channel s ∧ taken s' = taken s) ∧
  (∀ i d r, dispatchers s !! i = Some d → dp_handler d = Sending r → dp_phase d ≠ Waiting →
     ∀ s', rtc dispatch_step s s' → ∃ d', dispatchers s' !! i = Some d' ∧ dp_handler d' = Sending r).
Proof.
  intros Hr. assert (dispatch_inv s) as Hinv.
  { assert (dispatch_inv dispatch_start) as Hi by (split; [done|cbn; lia|by intros d []%elem_of_nil]). revert Hi.
    induction Hr as [|s1 s2 s3 Hs _ IH]; [done|]. intros Hi. by eapply IH, dispatch_inv_step. }
  destruct Hinv as [Hrep Hroom Hok]. split_and!; [done|done| | | | |].
  - intros d r Hd Hp. apply (Hok d Hd). by right.
  - intros n. clear. revert s. induction n as [|n IH]; intros s s' H; [lia|]. inversion H as [|? ? y ? Hs Hn]; subst.
    apply server_runs_work in Hs. apply IH in Hn. lia.
  - intros Hs. split; [intros d; by apply settled_ended|by apply settled_empty].
  - clear. intros Hread Hfull s' Hr. revert Hread Hfull. induction Hr as [|s1 s2 s3 Hs _ IH]; intros Hread Hfull; [done|].
    destruct (full_step _ _ Hs Hread Hfull) as (H1 & H2 & H3). destruct IH as [-> ->]; [done|by rewrite H2|done].
  - clear. intros i d r Hi Hh Hp s' Hr. revert d Hi Hh Hp. induction Hr as [|s1 s2 s3 Hs _ IH]; intros d Hi Hh Hp; [by exists d|].
    destruct (late_step _ _ _ _ _ Hs Hi Hh Hp) as (d' & Hi' & Hh' & Hp'). by eapply IH.
Qed.

Lemma ttl_window_witness :
  ValidateTTL (110 * Second) demo_message = true ∧ ValidateTTL (161 * Second) demo_message = false.
Proof.
  assert (m_ttl demo_message = 60%Z) as Ht by (vm_compute; reflexivity).
  assert (m_timeStamp demo_message = (100 * Second)%Z) as Hs by (vm_compute; reflexivity).
  split.
  - rewrite (proj1 (ttl_window (110 * Second) demo_message ltac:(rewrite Ht; lia))) by (rewrite Ht; lia).
    rewrite Ht, Hs. reflexivity.
  - rewrite (proj1 (ttl_window (161 * Second) demo_message ltac:(rewrite Ht; lia))) by (rewrite Ht; lia).
    rewrite Ht, Hs. reflexivity.
Defined.

Definition demo_agent_reply : AgentReply :=
  {| ar_Body := "pong"; ar_Request := demo_ping; ar_Message := demo_message; ar_Error := None |}.

(** A handler that is late: its dispatcher was gone when it had a reply. *)
Definition demo_late_dispatcher : dispatcher :=
  {| dp_msg := demo_message; dp_req := demo_ping; dp_timeout := 10; dp_expired := true; dp_result := Some demo_agent_reply;
     dp_handler := Sending demo_agent_reply; dp_phase := Ended (error_reply demo_message demo_ping (timeout_error demo_message 10)) |}.

Definition demo_late : dispatch_state :=
  {| dispatchers := [demo_late_dispatcher]; channel := []; taken := [error_reply demo_message demo_ping (timeout_error demo_message 10)];
     reading := true; interrupted := false |}.

Lemma demo_late_reached : rtc dispatch_step dispatch_start demo_late.
Proof.
  eapply rtc_l; [by apply (step_dispatch _ (Some 10%Z) demo_message demo_ping (Some demo_agent_reply))|].
  eapply rtc_l; [eapply step_move, (dispatcher_moves _ 0); [reflexivity|by apply move_expire]|].
  eapply rtc_l; [eapply step_move, (dispatcher_moves _ 0); [reflexivity|by apply move_timeout]|].
  eapply rtc_l; [eapply step_move, (dispatcher_sends _ 0); [reflexivity|reflexivity|cbn; unfold replies_capacity; lia]|].
  eapply rtc_l; [eapply step_move; by eapply processor_takes|].
  eapply rtc_l; [eapply step_finish, (handler_finish _ 0); reflexivity|]. apply rtc_refl.
Qed.

Lemma dispatch_replies_once_witness :
  omap phase_reply (dispatchers demo_late) = taken demo_late ∧
  ∀ s', rtc dispatch_step demo_late s' → ∃ d', dispatchers s' !! 0 = Some d' ∧ dp_handler d' = Sending demo_agent_reply.
Proof.
  destruct (dispatch_replies_once demo_late demo_late_reached) as (_ & _ & _ & _ & _ & _ & H).
  split; [reflexivity|]. intros s' Hs. by apply (H 0 demo_late_dispatcher demo_agent_reply).
Defined.

(** ** Replies *)

(** A reply with a body to a request. *)
Record answers (v : proto_version) (now : Z) (identity body : string) (rq : Transport.Request) (rep : Reply) : Prop := {
  an_version : rq_Protocol rq = RequestVersion v;
  an_type : rp_Type rep = v;
  an_protocol : rp_Protocol rep = ReplyVersion v;
  an_body : rp_MessageBody rep = body;
  an_request : rp_Request rep = rq_RequestID rq;
  an_sender : rp_Sender rep = identity;
  an_agent : rp_SendingAgent rep = rq_Agent rq;
  an_time : rp_TimeStamp rep = request_time v now;
}.

(** A secure reply around a reply. *)
Definition seals `{TJ : TransportJSON} `{MJ : MessageJSON} `{SP : SecurityProvider} (v : proto_version) (rep : Reply) (sr : SecureReply) : Prop :=
  sp_Protocol sr = SecureReplyVersion v ∧ reply_JSON rep = Ok (sp_MessageBody sr) ∧
  sp_Hash sr = b64_encode (ChecksumBytes (sp_MessageBody sr)).

(** What a transport takes of a secure reply: nothing when it cannot be encoded. *)
Definition sealed_data `{TJ : TransportJSON} `{MJ : MessageJSON} (sr : SecureReply) : string :=
  match secure_reply_JSON sr with Ok j => j | _ => "" end.

(** The trace that goes with the federation data of a request. *)
Definition federated_trace (rq : Transport.Request) : list hop :=
  match rq_federation rq with Some _ => rq_seenBy rq | None => [] end.

Section Replies.
Context `{TJ : TransportJSON} `{MJ : MessageJSON} `{SP : SecurityProvider}.

Lemma request_view (rq : Transport.Request) : view rq = Ok (rq_federation rq, rq_seenBy rq).
Proof. done. Qed.

Lemma new_reply_answers now identity body rq rep :
  NewReply now identity rq = Ok rep → ∃ v, answers v now identity body rq (SetMessage body rep).
Proof.
  assert (∀ v, rq_Protocol rq = RequestVersion v → new_reply v now rq identity = Ok rep → answers v now identity body rq (SetMessage body rep)) as H.
  { intros v Hv. unfold new_reply. rewrite Hv, String.eqb_refl. cbn [negb].
    set (r0 := {| rp_Type := v |}).
    assert (view r0 = Ok (None, [])) as Hr0 by done.
    rewrite (copy_federation_spec rq r0 _ _ (request_view rq) Hr0). cbn [mbind outcome_bind].
    destruct (map_err _ (request_JSON rq)); [|done..]. cbn [mbind outcome_bind]. intros [= <-]. subst r0.
    split; cbn; (done || by destruct v). }
  unfold NewReply. destruct (String.eqb_spec (rq_Protocol rq) RequestV1) as [E|_]; [intros Hr; exists V1; by apply H|].
  destruct (String.eqb_spec (rq_Protocol rq) RequestV2) as [E|_]; [intros Hr; exists V2; by apply H|done].
Qed.

Lemma new_secure_reply_seals v rep sr : rp_Protocol rep = ReplyVersion v → NewSecureReply rep = Ok sr → seals v rep sr.
Proof.
  intros Hv. assert (NewSecureReply rep = new_secure_reply v rep) as -> by (unfold NewSecureReply; rewrite Hv; by destruct v).
  unfold new_secure_reply, sp_SetMessage, seals. destruct (check_technology v); [|done..]. cbn [mbind outcome_bind].
  destruct (reply_JSON rep) as [j|e|p]; [|done..]. cbn [map_err mbind outcome_bind].
  match goal with |- map_err _ (?auth ≫= _) = _ → _ => destruct auth; [|done..] end. by intros [= <-].
Qed.

Lemma secure_transport_spec v identity sr t : sp_Protocol sr = SecureReplyVersion v →
  NewTransportForSecureReply identity sr = Ok t →
  tm_Data t = sealed_data sr ∧ ∃ h, tm_Headers t = Some h ∧ th_Sender h = identity ∧ th_Federation h = None ∧ th_SeenBy h = [].
Proof.
  intros Hv. unfold NewTransportForSecureReply, sealed_data, NewTransportMessage, SetSender, with_headers. rewrite Hv.
  destruct v; cbn [mbind outcome_bind tm_Headers]; destruct (secure_reply_JSON sr); intros [= <-]; (split; [done|by eexists]).
Qed.

(** The transport of a reply: its body, and the federation data of the request. *)
Lemma reply_transport_carries now identity body rq t : NewReplyTransportForMessage now identity body rq = Ok t →
  ∃ v rep sr h, answers v now identity body rq rep ∧ seals v rep sr ∧ tm_Data t = sealed_data sr ∧
    tm_Headers t = Some h ∧ th_Sender h = identity ∧ th_Federation h = rq_federation rq ∧ th_SeenBy h = federated_trace rq.
Proof.
  unfold NewReplyTransportForMessage.
  destruct (NewReply now identity rq) as [rep0|e|p] eqn:Hrep; [|done..]. cbn [map_err mbind outcome_bind].
  apply (new_reply_answers _ _ body) in Hrep as [v Hans]. set (rep := SetMessage body rep0) in *.
  destruct (NewSecureReply rep) as [sr|e|p] eqn:Hsr; [|done..]. cbn [map_err mbind outcome_bind].
  apply (new_secure_reply_seals v) in Hsr; [|by apply Hans].
  destruct (NewTransportForSecureReply identity sr) as [t1|e|p] eqn:Ht; [|done..]. cbn [map_err mbind outcome_bind].
  apply (secure_transport_spec v) in Ht as (Hd & h & Hh & H1 & H2 & H3); [|by apply Hsr].
  assert (view t1 = Ok (None, [])) as Hv by (cbn; unfold tm_get; rewrite Hh; by rewrite H2, H3).
  rewrite (copy_federation_spec rq t1 _ _ (request_view rq) Hv). intros [= <-].
  exists v, rep, sr. cbn. unfold tm_set, tm_update. rewrite Hh. eexists. split_and!; [done..|]. cbn. unfold federated_trace.
  by destruct (rq_federation rq).
Qed.

End Replies.

(** C37. The reply of an agent goes to the one who asked: on a connection that is not
    federated, when the reply can be made and encoded and the connection takes it, a server
    publishes exactly one message, to the reply-to of the transport the request came in,
    and counts it.  The message carries the secure reply, with its checksum, around a reply
    of the version of the request, which has the body of the agent, the id of the request
    and its agent, and the identity of the server; it comes from the server, has the
    federation data of the request, and its trace is that of a federated request with the
    server added. *)
Theorem reply_goes_to_requester `{TJ : TransportJSON} `{MJ : MessageJSON} `{SP : SecurityProvider}
    (cfg : ServerConfig) (pub_ok : string → TransportMessage → bool) (server : string) (now : Z)
    (rid1 rid2 : res string) (reply : AgentReply) (m : Message) (req : Transport.Request)
    (t0 t : TransportMessage) (s : Processor.Instance) :
  let identity := fw_Identity (srv_fw cfg) in
  let target := m_replyTo (ar_Message reply) in
  let asked := ar_Request reply in
  ar_Error reply = None → target ≠ "" →
  NewMessageFromRequest (srv_fw cfg) rid1 rid2 asked target = Ok (m, req) →
  NewReplyTransportForMessage now identity (ar_Body reply) req = Ok t0 →
  RecordNetworkHop (server, identity, server) t0 = Ok t → is_ok (transport_JSON t) = true →
  pub_ok target t = true →
  handleReply cfg pub_ok [] server now rid1 rid2 reply s =
    ({| lastMsgProcessed := lastMsgProcessed s; counters := inc_replies (counters s) |}, Ok [(target, t)]) ∧
  ∃ v rep sr h, answers v now identity (ar_Body reply) asked rep ∧ seals v rep sr ∧ tm_Data t = sealed_data sr ∧
    tm_Headers t = Some h ∧ th_Sender h = identity ∧ th_Federation h = rq_federation asked ∧
    th_SeenBy h = federated_trace asked ++ [(server, identity, server)].
Proof.
  intros identity target asked He Hre Hm Ht0 Ht Hj Hpub.
  apply NewMessageFromRequest_spec in Hm as Hspec.
  destruct Hspec as (f & Hf & _ & _ & _ & _ & _ & _ & _ & Hrt & Hty & Hreq & Hcache & Hct & _). split.
  - unfold handleReply. rewrite He. unfold mbind, ST_bind, attempt, lift, count, modify.
    fold target asked. rewrite Hm.
    unfold publish_message, MessageTransport. cbn [m_cachedTransport with_payload m_msgType]. rewrite Hcache, Hty.
    change (elem ReplyMessageType request_types) with false. rewrite String.eqb_refl. cbn [snd].
    unfold UncachedReplyTransport. cbn [m_req with_payload m_payload]. rewrite Hreq. fold identity. rewrite Ht0.
    unfold Publish, mbind, ST_bind, on_transport. cbn [ps_transport]. rewrite Ht.
    assert (message_type_of (m_msgType m) = ReplyType) as Hmt by (rewrite Hty; reflexivity).
    unfold out_of. cbn [msg_CustomTarget with_payload m_customTarget m_msgType m_collective m_agent m_requestID
      m_replyTo m_discoveredHosts]. rewrite Hct, Hmt, Hrt. cbn [String.eqb negb length Nat.eqb].
    unfold publishConnected. cbn [msg_Type]. unfold publishConnectedBroadcast, encode, lift, mbind, ST_bind.
    cbn [ps_transport outcome_bind]. destruct (transport_JSON t) as [j|e|p]; [|done..].
    unfold TargetForMessage. cbn [msg_CustomTarget msg_Type msg_ReplyTo String.eqb negb].
    rewrite (proj2 (String.eqb_neq _ _) Hre). unfold PublishRaw. cbn [ps_transport]. by rewrite Hpub.
  - apply rq_get_filter_spec in Hf as [_ ->]. apply reply_transport_carries in Ht0 as (v & rep & sr & h & Hans & Hseal & Hd & Hh & H1 & H2 & H3).
    assert (answers v now identity (ar_Body reply) asked rep) as Hans' by (destruct Hans; by split).
    revert Ht. cbn. unfold write_view, mbind, outcome_bind, tm_get. rewrite Hh. intros [= <-].
    exists v, rep, sr. unfold tm_set, tm_update. rewrite Hh. eexists. split_and!; [done..|]. cbn. by rewrite H3.
Qed.

Definition demo_reply_sent : TransportMessage :=
  match NewReplyTransportForMessage (SP := ChoriaSecurity (Security.demo_config "token-srv")) (130 * Second) "node1" "pong"
          demo_ping with
  | Ok t => t | _ => demo_forged_transport end.

Definition demo_reply_traced : TransportMessage :=
  match RecordNetworkHop ("nats1", "node1", "nats1") demo_reply_sent with Ok t => t | _ => demo_forged_transport end.

Lemma reply_goes_to_requester_witness :
  (handleReply (SP := ChoriaSecurity (Security.demo_config "token-srv")) demo_server_config (λ _ _, true) [] "nats1"
     (130 * Second) (Ok "3") (Ok "4") demo_agent_reply demo_instance).2 =
  Ok [("mcollective.reply.bob", demo_reply_traced)] ∧
  ∃ rep sr, rp_MessageBody rep = "pong" ∧ seals (SP := ChoriaSecurity (Security.demo_config "token-srv")) V2 rep sr ∧
    tm_Data demo_reply_traced = sealed_data sr.
Proof.
  destruct (reply_goes_to_requester (SP := ChoriaSecurity (Security.demo_config "token-srv")) demo_server_config
    (λ _ _, true) "nats1" (130 * Second) (Ok "3") (Ok "4") demo_agent_reply
    (match NewMessageFromRequest demo_framework (Ok "3") (Ok "4") demo_ping "mcollective.reply.bob" with
     | Ok (m, _) => m | _ => demo_message end)
    demo_ping demo_reply_sent demo_reply_traced demo_instance) as [H (v & rep & sr & h & Hans & Hseal & Hd & _)];
    [reflexivity|discriminate|vm_compute; reflexivity..|].
  split; [rewrite H; reflexivity|]. exists rep, sr. destruct Hans as [Hv _ _ Hb _ _ _ _].
  destruct v; [discriminate Hv|]. split; [exact Hb|]. split; [exact Hseal|exact Hd].
Defined.

(** * RPC agents: properties

    The authorization by the token of the caller, and what an agent answers. *)

(** ** Lists of allowed agents *)

Definition well_formed (p : string) : Prop := p = "*" ∨ length (split p dot) = 2.

(** [*], [agent.*] or [agent.action] *)
Definition allows (agent action : string) (p : string) : bool :=
  bool_decide (p = "*" ∨ split p dot = [agent; "*"] ∨ split p dot = [agent; action]).

Lemma agent_list_loop_spec agent action policy : Forall well_formed policy →
  agent_list_loop agent action policy = Ok (existsb (allows agent action) policy).
Proof.
  induction 1 as [|p policy Hp _ IH]; [done|]. cbn [agent_list_loop existsb]. unfold allows at 1.
  destruct (String.eqb_spec p "*") as [->|Hne]; [done|].
  destruct Hp as [->|Hl]; [done|]. destruct (split p dot) as [|a [|act [|? ?]]] eqn:Hs; try done.
  destruct (String.eqb_spec agent a) as [<-|Ha]; cbn [negb].
  - destruct (String.eqb_spec act "*") as [->|Hact]; [by rewrite bool_decide_eq_true_2 by auto|].
    destruct (String.eqb_spec action act) as [<-|Hact']; [by rewrite bool_decide_eq_true_2 by auto|].
    rewrite bool_decide_eq_false_2; [done|]. intros [?|[[= ?]|[= ?]]]; congruence.
  - rewrite bool_decide_eq_false_2; [done|]. intros [?|[[= ? ?]|[= ? ?]]]; congruence.
Qed.

Lemma agent_list_spec agent action policy : Forall well_formed policy →
  EvaluateAgentListPolicy agent action policy = Ok (existsb (allows agent action) policy).
Proof. intros Hp. unfold EvaluateAgentListPolicy. destruct policy; [done|]. by apply agent_list_loop_spec. Qed.

(** A malformed entry is an error unless an entry before it allows the action. *)
Lemma agent_list_malformed agent action pre p post : Forall well_formed pre → ¬ well_formed p →
  EvaluateAgentListPolicy agent action (pre ++ p :: post) =
    if existsb (allows agent action) pre then Ok true else Err ("invalid agent policy: " +:+ p).
Proof.
  intros Hpre Hp. assert (agent_list_loop agent action (pre ++ p :: post) =
    if existsb (allows agent action) pre then Ok true else Err ("invalid agent policy: " +:+ p)) as H.
  { induction Hpre as [|q pre Hq Hpre IH]; cbn [app agent_list_loop existsb].
    - destruct (String.eqb_spec p "*") as [->|Hne]; [destruct Hp; by left|].
      destruct (split p dot) as [|a [|act [|? ?]]] eqn:Hs; try done. destruct Hp. right. by rewrite Hs.
    - pose proof (agent_list_loop_spec agent action [q] ltac:(by constructor)) as H1. cbn [agent_list_loop existsb] in H1.
      rewrite orb_false_r in H1. destruct (allows agent action q); cbn [orb].
      + destruct (String.eqb q "*"); [done|]. destruct (split q dot) as [|a [|act [|? ?]]]; try done.
        destruct (negb _); [done|]. destruct (String.eqb act "*"); [done|]. by destruct (String.eqb action act).
      + destruct (String.eqb q "*"); [done|]. destruct (split q dot) as [|a [|act [|? ?]]]; try done.
        destruct (negb _); [done|]. destruct (String.eqb act "*"); [done|]. by destruct (String.eqb action act). }
  unfold EvaluateAgentListPolicy. by destruct pre.
Qed.

Section Rpc.
Context `{TL : TokenLib} `{RJ : RpcJSON} `{OP : OPA} `{FL : FactLib} `{RX : Regexp}.

(** What the policy in a token answers. *)
Definition opa_answer (fs : filesystem) (req : RpcRequest) (claims : ClientIDClaims) : bool :=
  allowed_by (EvaluateOpenPolicyAgentPolicy fs req (OPAPolicy claims) claims "server").

(** With the aaasvc authorizer a request is allowed exactly when its caller's token
    parses and it is for the discovery agent, or the token has a list of agents, no
    policy, and an entry for all agents, for all actions of the agent or for the action,
    or the token has a policy, no list, and the policy answers true: a token with
    neither or with both allows nothing else. *)
Theorem aaasvc_allows (fs : filesystem) (req : RpcRequest) (cfg : RpcConfig) (si : RpcServerInfo)
    (claims : ClientIDClaims) :
  RPCAuthorization cfg = true → to_lower (RPCAuthorizationProvider cfg) = "aaasvc" → rr_Agent req ≠ "" →
  rr_CallerPublicData req ≠ "" → ParseClientIDTokenUnverified (rr_CallerPublicData req) = inl claims →
  Forall well_formed (AllowedAgents claims) →
  AuthorizeRequest fs (Some req) (Some cfg) (Some si) =
    (bool_decide (rr_Agent req = "discovery") ||
     match AllowedAgents claims, OPAPolicy claims with
     | [], "" => false
     | [], _ => opa_answer fs req claims
     | l, "" => existsb (allows (rr_Agent req) (rr_Action req)) l
     | _, _ => false
     end).
Proof.
  intros Hz Hprov Hag Hpub Hc Hwf. unfold AuthorizeRequest. rewrite Hz, Hprov.
  rewrite (proj2 (String.eqb_neq _ _) Hag).
  change (String.eqb "aaasvc" "action_policy") with false. change (String.eqb "aaasvc" "rego_policy") with false.
  rewrite String.eqb_refl. cbn [negb orb].
  unfold aaasvcPolicyAuthorize. rewrite (proj2 (String.eqb_neq _ _) Hpub), Hc.
  destruct (String.eqb_spec (rr_Agent req) "discovery") as [->|Hd]; [done|].
  rewrite bool_decide_eq_false_2 by done. cbn [orb].
  unfold opa_answer. destruct (AllowedAgents claims) as [|p l] eqn:Hl.
  - cbn [length Nat.ltb Nat.leb orb]. destruct (OPAPolicy claims) as [|c s] eqn:Ho; cbn -[EvaluateOpenPolicyAgentPolicy]; done.
  - cbn [length Nat.ltb Nat.leb orb andb negb]. destruct (OPAPolicy claims) as [|c s] eqn:Ho; cbn [String.eqb negb andb].
    + by rewrite agent_list_spec.
    + done.
Qed.

(** ** Failing closed *)

(** Authorization fails closed: when it is demanded, a missing configuration,
    request or server information, a request without an agent, a provider the server
    does not know and an authorizer that ends with an error all deny. *)
Theorem authorization_fails_closed (fs : filesystem) (req : option RpcRequest) (cfg : option RpcConfig)
    (si : option RpcServerInfo) :
  AuthorizeRequest fs req cfg si = true →
  ∃ c, cfg = Some c ∧ (RPCAuthorization c = true →
    ∃ r i, req = Some r ∧ si = Some i ∧ rr_Agent r ≠ "" ∧
      let prov := to_lower (RPCAuthorizationProvider c) in
      (prov = "action_policy" ∧ actionPolicyAuthorize fs (policyConfig c) (action_request r) = true) ∨
      (prov = "rego_policy" ∧ regoPolicyAuthorize fs r i c = Ok true) ∨
      ((prov = "aaasvc" ∨ prov = "aaasvc_policy") ∧ aaasvcPolicyAuthorize fs r = Ok true)).
Proof.
  unfold AuthorizeRequest. destruct cfg as [c|]; [|done]. intros H. exists c. split; [done|]. intros Hz.
  rewrite Hz in H. cbn [negb] in H. destruct req as [r|], si as [i|]; [|done..].
  destruct (String.eqb_spec (rr_Agent r) "") as [|Hne]; [done|]. exists r, i. split_and!; [done..|]. cbv zeta.
  destruct (String.eqb_spec (to_lower (RPCAuthorizationProvider c)) "action_policy"); [by left|].
  destruct (String.eqb_spec (to_lower (RPCAuthorizationProvider c)) "rego_policy").
  { right; left. split; [done|]. unfold allowed_by in H. destruct (regoPolicyAuthorize _ _ _ _) as [[]|err|pa]; done. }
  destruct (String.eqb_spec (to_lower (RPCAuthorizationProvider c)) "aaasvc");
    [|destruct (String.eqb_spec (to_lower (RPCAuthorizationProvider c)) "aaasvc_policy"); [|done]];
    right; right; (split; [auto|]); unfold allowed_by in H; destruct (aaasvcPolicyAuthorize _ _) as [[]|err|pa]; done.
Qed.

(** A request that is not authorized is answered and has no effect: the agent
    replies with the status of an aborted request, the action never runs. *)
Theorem unauthorized_is_aborted {W : Type} (fs : filesystem) (a : RpcAgent W) (msg : Message)
    (request : Transport.Request) (rpc : RpcRequest) (w : W) :
  parseIncomingMessage (m_payload msg) request = Ok rpc → is_Some (a_actions a !! rr_Action rpc) →
  RPCAuthorization (a_Config a) = true → agent_authorize fs a rpc = false →
  ∃ reply, HandleMessage fs a msg request w = (w, Ok (publish reply msg request)) ∧
    re_Statuscode reply = Aborted ∧ re_Action reply = rr_Action rpc ∧ re_DisableResponse reply = false.
Proof.
  intros Hp [action Ha] Hz Hno. unfold HandleMessage, handle. rewrite Hp. unfold Action in *. rewrite Ha, Hz, Hno. cbn [negb andb].
  eexists. split; [reflexivity|]. done.
Qed.

End Rpc.

(** ** Concrete instances *)

Definition demo_aaasvc_config : RpcConfig :=
  {| RPCAuthorization := true; RPCAuthorizationProvider := "AAASvc"; policyConfig := demo_policy_config |}.

Definition demo_rpc_request (agent : string) : RpcRequest :=
  {| rr_Agent := agent; rr_Action := "ping"; rr_Data := "{}"; rr_RequestID := "42"; rr_SenderID := "client";
     rr_CallerID := "choria=bob"; rr_Collective := "mcollective"; rr_TTL := 60; rr_Time := 0;
     rr_Filter := NewFilter; rr_CallerPublicData := "token-bob"; rr_SignerPublicData := "" |}.

Lemma aaasvc_allows_witness :
  AuthorizeRequest demo_fs (Some (demo_rpc_request "discovery")) (Some demo_aaasvc_config) (Some demo_rpc_server) = true ∧
  AuthorizeRequest demo_fs (Some (demo_rpc_request "rpcutil")) (Some demo_aaasvc_config) (Some demo_rpc_server) = false.
Proof.
  split.
  - rewrite (aaasvc_allows demo_fs (demo_rpc_request "discovery") demo_aaasvc_config demo_rpc_server
      (demo_claims "choria=bob" (demo_perms true false false))); [reflexivity|done..|constructor].
  - rewrite (aaasvc_allows demo_fs (demo_rpc_request "rpcutil") demo_aaasvc_config demo_rpc_server
      (demo_claims "choria=bob" (demo_perms true false false))); [reflexivity|done..|constructor].
Defined.

Lemma authorization_fails_closed_witness :
  ∃ r, Some (demo_rpc_request "rpcutil") = Some r ∧
    actionPolicyAuthorize demo_fs demo_policy_config (action_request r) = true.
Proof.
  destruct (authorization_fails_closed demo_fs (Some (demo_rpc_request "rpcutil")) (Some demo_rpc_config)
    (Some demo_rpc_server)) as (c & Hc & H); [vm_compute; reflexivity|].
  injection Hc as <-. destruct (H eq_refl) as (r & i & Hr & _ & _ & Hp). exists r. split; [exact Hr|].
  cbv zeta in Hp. change (to_lower (RPCAuthorizationProvider demo_rpc_config)) with "action_policy" in Hp.
  destruct Hp as [[_ Hp]|[[Hp _]|[[Hp|Hp] _]]]; [exact Hp|discriminate..].
Defined.

(** No policy file, no authority. *)
Lemma unauthorized_is_aborted_witness :
  ∃ reply, HandleMessage ∅ demo_agent demo_message demo_ping [] = ([], Ok (publish reply demo_message demo_ping)) ∧
    re_Statuscode reply = Aborted.
Proof.
  destruct (unauthorized_is_aborted ∅ demo_agent demo_message demo_ping
    {| rr_Agent := "rpcutil"; rr_Action := "ping"; rr_Data := "{}"; rr_RequestID := "42"; rr_SenderID := "client";
       rr_CallerID := "choria=bob"; rr_Collective := "mcollective"; rr_TTL := 60; rr_Time := 100 * Second;
       rr_Filter := NewFilter; rr_CallerPublicData := ""; rr_SignerPublicData := "" |} [])
    as (reply & H & Hs & _).
  - vm_compute; reflexivity.
  - eexists; vm_compute; reflexivity.
  - reflexivity.
  - vm_compute; reflexivity.
  - exists reply. split; [exact H|exact Hs].
Defined.
