(* ===== verification/AgentsTheorems.v ===== *)
(** * The agents of a server: properties

    The state of the agent manager, whatever happens on the network. *)
From S2P Require Import Prelude GoLib Files Util Connection AgentManager.

(** Giving an agent its server does not change what it says of itself. *)
Class LawfulAgent (A : Type) `{AgentOps A} := {
  server_info_metadata (a : A) : agent_Metadata (SetServerInfo a) = agent_Metadata a;
}.

(** ** Names and subjects *)

Fixpoint dotless (s : string) : bool :=
  match s with
  | EmptyString => true
  | String c s' => negb (Ascii.eqb c ".") && dotless s'
  end.

Lemma dotless_prefix a b x y : dotless a = true → dotless b = true →
  a +:+ String "." x = b +:+ String "." y → a = b ∧ x = y.
Proof.
  revert b. induction a as [|c a IH]; intros [|d b] Ha Hb; cbn; intros H; injection H; cbn in *; bprop.
  - by intros ->.
  - by intros _ <-.
  - by intros _ ->.
  - intros H' ->. by destruct (IH b ltac:(done) ltac:(done) H') as [-> ->].
Qed.

Lemma subname_inj c c' n n' : dotless c = true → dotless c' = true → subname c n = subname c' n' →
  c = c' ∧ n = n'.
Proof. intros Hc Hc'. unfold subname. by apply dotless_prefix. Qed.

(** The subject and group of an agent of a kind. *)
Definition target (service : bool) (c n : string) : nats_sub :=
  if service then (ServiceBroadcastTarget c n, n) else (AgentBroadcastTarget c n, "").

Lemma target_inj v v' c c' n n' : dotless c = true → dotless c' = true → target v c n = target v' c' n' →
  c = c' ∧ n = n'.
Proof.
  intros Hc Hc'. unfold target, ServiceBroadcastTarget, AgentBroadcastTarget.
  destruct v, v'; intros [= H]; apply dotless_prefix in H as [-> H]; try done; by injection H as <-.
Qed.

Lemma agent_target_eq `{AgentOps A} (a : A) c n : agent_target a c n = target (md_Service (agent_Metadata a)) c n.
Proof. done. Qed.

Lemma remove_one_other x y l : x ≠ y → x ∈ l → x ∈ remove_one y l.
Proof.
  intros Hne Hx. unfold remove_one. destruct (list_find (λ z, z = y) l) as [[i z]|] eqn:Hf; [|done].
  apply list_find_Some in Hf as (Hi & -> & _). apply list_elem_of_lookup in Hx as [j Hj].
  assert (i ≠ j) as Hij by (intros ->; congruence).
  apply list_elem_of_lookup. destruct (decide (j < i)).
  - exists j. by rewrite list_lookup_delete_lt.
  - exists (pred j). rewrite list_lookup_delete_ge by lia. by replace (S (pred j)) with j by lia.
Qed.

Section Manager.
Context {A : Type} {OA : AgentOps A} {LA : LawfulAgent A}.
Variable Collectives : list string.
Hypothesis collectives_dotless : Forall (λ c, dotless c = true) Collectives.

(** ** The connection *)

Definition conn_ok (c : Subscriptions) : Prop :=
  ∀ k sub, chanSubscriptions c !! k = Some (Some sub) →
    sub ∈ live c ∧ ∃ v col n, k = subname col n ∧ col ∈ Collectives ∧ sub = target v col n.

Lemma is_dotless col : col ∈ Collectives → dotless col = true.
Proof. intros Hin. rewrite Forall_forall in collectives_dotless. by apply collectives_dotless. Qed.

Lemma Unsubscribe_ok net k c c' r : conn_ok c → Unsubscribe net k c = (c', r) →
  conn_ok c' ∧ ∀ k', k' ≠ k → chanSubscriptions c' !! k' = chanSubscriptions c !! k'.
Proof.
  intros Hc. unfold Unsubscribe.
  destruct (chanSubscriptions c !! k) as [[sub|]|] eqn:Hk; [|intros [= <- <-]|intros [= <- <-]; done].
  - assert (conn_ok {| chanSubscriptions := delete k (chanSubscriptions c); live := remove_one sub (live c) |}) as Hd.
    { intros k' sub' Hk'. cbn in *. apply lookup_delete_Some in Hk' as [Hne Hk'].
      destruct (Hc _ _ Hk') as (Hl & v & col & n & -> & Hcol & ->). split; [|by exists v, col, n].
      destruct (Hc _ _ Hk) as (_ & v0 & col0 & n0 & -> & Hcol0 & ->). apply remove_one_other; [|done].
      intros Ht. apply target_inj in Ht as [-> ->]; [done|by apply is_dotless..]. }
    destruct (Unsubscribe_answer net k); intros [= <- <-]; (split; [done|]); intros k' Hne; cbn; try done;
      by rewrite lookup_delete_ne.
  - split; [|intros k' Hne; cbn; by rewrite lookup_delete_ne].
    intros k' sub' Hk'. cbn in *. apply lookup_delete_Some in Hk' as [_ Hk']. by apply Hc.
Qed.

Lemma QueueSubscribe_spec net col n v c c' r : conn_ok c → col ∈ Collectives →
  QueueSubscribe net (subname col n) (target v col n).1 (target v col n).2 c = (c', r) →
  conn_ok c' ∧ (∀ k', k' ≠ subname col n → chanSubscriptions c' !! k' = chanSubscriptions c !! k') ∧
  (r = Ok tt → chanSubscriptions c' !! subname col n = Some (Some (target v col n))) ∧
  (r = Ok tt ∨ ∃ e, r = Err e).
Proof.
  intros Hc Hcol. unfold QueueSubscribe.
  assert (∀ o l, (o = None ∨ o = Some (target v col n)) → (∀ x, x ∈ live c → x ∈ l) → target v col n ∈ l ∨ o = None →
    conn_ok {| chanSubscriptions := <[subname col n := o]> (chanSubscriptions c); live := l |}) as Hok.
  { intros o l Ho Hl Hin k sub Hk. cbn in *. apply lookup_insert_Some in Hk as [[<- Hk]|[_ Hk]].
    - destruct Ho as [->| ->]; [done|]. injection Hk as <-. split; [|by exists v, col, n]. by destruct Hin.
    - destruct (Hc _ _ Hk) as [H1 H2]. by split; [apply Hl|]. }
  destruct (ChanQueueSubscribe_ok net _ _); cbn [negb]; [destruct (Flush_ok net _); cbn [negb]|];
    intros [= <- <-]; split_and!; cbn;
    try (intros k' Hne; by rewrite lookup_insert_ne by done);
    try (by intros; rewrite lookup_insert_eq; destruct (target v col n)); try (by left); try (right; by eexists); try done;
    apply Hok; try (by left); try (by right; destruct (target v col n)); try done; try (by intros x Hx; right);
    try (left; destruct (target v col n); by left).
Qed.

(** ** The manager *)

Definition all_subnames (name : string) : list string := map (λ c, subname c name) Collectives.

Record manager_ok (m : Manager A) : Prop := {
  ok_conn : conn_ok (conn m);
  ok_agents name a : agents m !! name = Some a → name ≠ "" ∧ is_ok (validateAgent a) = true;
  ok_services name a : servicesOnly m = true → agents m !! name = Some a → md_Service (agent_Metadata a) = true;
  ok_subs name a : agents m !! name = Some a → subs m !! name = Some (all_subnames name);
  ok_listens name a c : agents m !! name = Some a → c ∈ Collectives →
    chanSubscriptions (conn m) !! subname c name = Some (Some (agent_target a c name));
  ok_own name l : subs m !! name = Some l → l ⊆ all_subnames name;
}.

(** What an operation on an agent leaves alone. *)
Record touches (name : string) (m m' : Manager A) : Prop := {
  same_agents : agents m' = agents m;
  same_services : servicesOnly m' = servicesOnly m;
  same_subs n : n ≠ name → subs m' !! n = subs m !! n;
  same_conn k : k ∉ all_subnames name → chanSubscriptions (conn m') !! k = chanSubscriptions (conn m) !! k;
  still_conn : conn_ok (conn m) → conn_ok (conn m');
  still_own l : (∀ l0, subs m !! name = Some l0 → l0 ⊆ all_subnames name) → subs m' !! name = Some l →
    l ⊆ all_subnames name;
}.

Lemma touches_refl name m : touches name m m.
Proof. split; auto. Qed.

Lemma touches_trans name m1 m2 m3 : touches name m1 m2 → touches name m2 m3 → touches name m1 m3.
Proof.
  intros H1 H2. split.
  - by rewrite (same_agents _ _ _ H2), (same_agents _ _ _ H1).
  - by rewrite (same_services _ _ _ H2), (same_services _ _ _ H1).
  - intros n Hn. by rewrite (same_subs _ _ _ H2), (same_subs _ _ _ H1).
  - intros k Hk. by rewrite (same_conn _ _ _ H2), (same_conn _ _ _ H1).
  - intros Hc. by apply (still_conn _ _ _ H2), (still_conn _ _ _ H1).
  - intros l Hl. apply (still_own _ _ _ H2). intros l0. by apply (still_own _ _ _ H1).
Qed.

Lemma own_subname c name : c ∈ Collectives → subname c name ∈ all_subnames name.
Proof. intros Hc. apply list_elem_of_fmap. by exists c. Qed.

Lemma other_subname c name n : c ∈ Collectives → name ≠ n → subname c name ∉ all_subnames n.
Proof.
  intros Hc Hne Hin. apply list_elem_of_fmap in Hin as (c' & Heq & Hc').
  apply subname_inj in Heq as [_ ->]; [done|by apply is_dotless..].
Qed.

(** Operations on one agent keep the state of the others. *)
Lemma touches_ok name m m' : touches name m m' → manager_ok m → agents m !! name = None → manager_ok m'.
Proof.
  intros Ht Hm Hn. pose proof (same_agents _ _ _ Ht) as Ha.
  assert (∀ n a, agents m' !! n = Some a → n ≠ name ∧ agents m !! n = Some a) as Hother.
  { intros n a Hna. rewrite Ha in Hna. split; [|done]. intros ->. congruence. }
  split.
  - apply (still_conn _ _ _ Ht), (ok_conn _ Hm).
  - intros n a Hna. apply Hother in Hna as [_ Hna]. by apply (ok_agents _ Hm).
  - intros n a Hs Hna. apply Hother in Hna as [_ Hna]. rewrite (same_services _ _ _ Ht) in Hs. by eapply (ok_services _ Hm).
  - intros n a Hna. apply Hother in Hna as [Hne Hna]. rewrite (same_subs _ _ _ Ht) by done. by eapply (ok_subs _ Hm).
  - intros n a c Hna Hc. apply Hother in Hna as [Hne Hna].
    rewrite (same_conn _ _ _ Ht) by (by apply other_subname). by apply (ok_listens _ Hm).
  - intros n l Hl. destruct (decide (n = name)) as [->|Hne].
    + apply (still_own _ _ _ Ht); [|done]. intros l0. apply (ok_own _ Hm).
    + rewrite (same_subs _ _ _ Ht) in Hl by done. by apply (ok_own _ Hm).
Qed.

(** ** Operations on the connection *)

Lemma unsubscribe_touches net name k m : k ∈ all_subnames name →
  touches name m (on_conn (Unsubscribe net k) m).1.
Proof.
  intros Hk. unfold on_conn. destruct (Unsubscribe net k (conn m)) as [c' r] eqn:Hu. cbn. split; cbn; try done.
  - intros k' Hk'. destruct (chanSubscriptions (conn m) !! k) eqn:E.
    + revert Hu. unfold Unsubscribe. rewrite E. destruct o as [sub|]; [destruct (Unsubscribe_answer net k)|];
        intros [= <- <-]; cbn; rewrite ?lookup_delete_ne by (by intros ->); done.
    + revert Hu. unfold Unsubscribe. rewrite E. by intros [= <- <-].
  - intros Hc. by destruct (Unsubscribe_ok net k _ _ _ Hc Hu).
  - intros l Hl Hs. by apply Hl.
Qed.

Lemma unsubscribe_each_touches net name names m : names ⊆ all_subnames name →
  touches name m (unsubscribe_each net names m).1.
Proof.
  revert m. induction names as [|k names IH]; intros m Hn; [apply touches_refl|]. cbn [unsubscribe_each].
  unfold mbind, ST_bind, attempt. pose proof (unsubscribe_touches net name k m ltac:(set_solver)) as Hu.
  destruct (on_conn (Unsubscribe net k) m) as [m1 [u|e|p]]; cbn in *; [| |done];
    (eapply touches_trans; [exact Hu|apply IH; set_solver]).
Qed.

Lemma unsubscribe_all_touches net name names m : names ⊆ all_subnames name →
  touches name m (unsubscribe_all net names m).1.
Proof.
  revert m. induction names as [|k names IH]; intros m Hn; [apply touches_refl|]. cbn [unsubscribe_all].
  unfold mbind, ST_bind. pose proof (unsubscribe_touches net name k m ltac:(set_solver)) as Hu.
  destruct (on_conn (Unsubscribe net k) m) as [m1 [u|e|p]]; cbn in *; [|done..].
  eapply touches_trans; [exact Hu|apply IH; set_solver].
Qed.

Lemma set_subs_touches name f m :
  (∀ n s, n ≠ name → f s !! n = s !! n) →
  (∀ l, (∀ l0, subs m !! name = Some l0 → l0 ⊆ all_subnames name) → f (subs m) !! name = Some l →
    l ⊆ all_subnames name) →
  touches name m (set_subs f m).
Proof. intros Hf Ho. split; cbn; auto. Qed.

Lemma subscribe_loop_spec net name agent cols m :
  cols ⊆ Collectives → conn_ok (conn m) → (∀ l0, subs m !! name = Some l0 → l0 ⊆ all_subnames name) →
  let '(m', r) := subscribe_loop net name agent cols m in
  touches name m m' ∧
  (r = Ok tt → subs m' !! name = (match cols with [] => subs m !! name | _ =>
       Some (default [] (subs m !! name) ++ map (λ c, subname c name) cols) end) ∧
     (∀ c, c ∈ cols → chanSubscriptions (conn m') !! subname c name = Some (Some (agent_target agent c name))) ∧
     (∀ k, k ∉ map (λ c, subname c name) cols → chanSubscriptions (conn m') !! k = chanSubscriptions (conn m) !! k)).
Proof.
  revert m. induction cols as [|c cols IH]; intros m Hcols Hc Ho; cbn [subscribe_loop].
  { split; [apply touches_refl|]. intros _. split; [done|]. split; [set_solver|done]. }
  assert (c ∈ Collectives) as Hcin by set_solver.
  unfold mbind, ST_bind, attempt, on_conn.
  destruct (QueueSubscribe net (subname c name) (agent_target agent c name).1 (agent_target agent c name).2 (conn m))
    as [c1 r1] eqn:Hq.
  rewrite agent_target_eq in Hq.
  destruct (QueueSubscribe_spec _ _ _ _ _ _ _ Hc Hcin Hq) as (Hc1 & Hframe & Hset & Hr1).
  assert (touches name m (set_conn c1 m)) as Ht1.
  { split; cbn; [done..| |done|intros l Hl Hs; by apply Hl]. intros k Hk. apply Hframe. intros ->. apply Hk.
    by apply own_subname. }
  destruct Hr1 as [->|[e ->]].
  - cbn [modify]. set (m2 := set_subs _ (set_conn c1 m)).
    assert (∀ l, subs m2 !! name = Some l → l ⊆ all_subnames name) as Ho2.
    { intros l. unfold m2. cbn. rewrite lookup_insert_eq. intros [= <-].
      pose proof (own_subname c name Hcin). destruct (subs m !! name) as [l0|] eqn:El; cbn; [|set_solver].
      specialize (Ho l0 eq_refl). set_solver. }
    assert (touches name m m2) as Ht2.
    { eapply touches_trans; [exact Ht1|]. apply set_subs_touches; [intros n s Hn; by rewrite lookup_insert_ne|].
      intros l _ Hl. by apply Ho2. }
    specialize (IH m2 ltac:(set_solver) Hc1 Ho2).
    unfold modify. fold m2. destruct (subscribe_loop net name agent cols m2) as [m3 r3]. destruct IH as [Ht3 IH].
    split; [by eapply touches_trans|]. intros ->. destruct (IH eq_refl) as (Hs & Hl & Hf).
    assert (subs m2 !! name = Some (default [] (subs m !! name) ++ [subname c name])) as Hs2
      by (unfold m2; cbn; by rewrite lookup_insert_eq).
    split_and!.
    + rewrite Hs. destruct cols as [|c' cols]; [done|]. rewrite Hs2. cbn. by rewrite <- app_assoc.
    + intros c' Hc'. destruct (decide (c' ∈ cols)) as [Hin|Hnin]; [by apply Hl|].
      assert (c' = c) as -> by set_solver. rewrite Hf.
      * unfold m2. cbn. rewrite Hset by done. done.
      * intros Hin. apply list_elem_of_fmap in Hin as (c'' & Heq & Hc'').
        apply subname_inj in Heq as [<- _]; [done|by apply is_dotless|apply is_dotless; set_solver].
    + intros k Hk. rewrite Hf by set_solver. unfold m2. cbn. apply Hframe. set_solver.
  - unfold gets. cbn [subs set_conn].
    set (names := default [] (subs m !! name)).
    assert (names ⊆ all_subnames name) as Hn.
    { unfold names. destruct (subs m !! name) as [l0|]; [by apply Ho|set_solver]. }
    pose proof (unsubscribe_each_touches net name names (set_conn c1 m) Hn) as Hu.
    destruct (unsubscribe_each net names (set_conn c1 m)) as [m4 [u|e'|p]]; cbn in *;
      (split; [by eapply touches_trans|done]).
Qed.

Lemma unsubscribe_each_subs net names (m : Manager A) : subs (unsubscribe_each net names m).1 = subs m.
Proof.
  revert m. induction names as [|k names IH]; intros m; [done|]. cbn [unsubscribe_each].
  unfold mbind, ST_bind, attempt, on_conn. destruct (Unsubscribe net k (conn m)) as [c1 [u|e|p]]; cbn; [by rewrite IH..|done].
Qed.

(** The entry of an agent stays, whether its subscriptions are made or not. *)
Lemma subscribe_loop_keeps net name agent cols m : is_Some (subs m !! name) →
  is_Some (subs (subscribe_loop net name agent cols m).1 !! name).
Proof.
  revert m. induction cols as [|c cols IH]; intros m Hs; [done|]. cbn [subscribe_loop].
  unfold mbind, ST_bind, attempt, on_conn, gets.
  destruct (QueueSubscribe net _ _ _ (conn m)) as [c1 [u|e|p]].
  - apply IH. cbn. by rewrite lookup_insert_eq.
  - pose proof (unsubscribe_each_subs net (default [] (subs (set_conn c1 m) !! name)) (set_conn c1 m)) as Hu.
    destruct (unsubscribe_each net _ (set_conn c1 m)) as [m4 [u|e'|p]]; cbn in *; by rewrite Hu.
  - done.
Qed.

Lemma unsubscribe_all_no_panic net names (m : Manager A) : is_panic (unsubscribe_all net names m).2 = false.
Proof.
  revert m. induction names as [|k names IH]; intros m; [done|]. cbn [unsubscribe_all].
  unfold mbind, ST_bind, on_conn, Unsubscribe. destruct (chanSubscriptions (conn m) !! k) as [[sub|]|]; [|apply IH..].
  destruct (Unsubscribe_answer net k); [apply IH..|done].
Qed.

Lemma unSubscribeAgent_no_panic net name (m : Manager A) : is_panic (unSubscribeAgent net name m).2 = false.
Proof.
  unfold unSubscribeAgent, mbind, ST_bind, gets. destruct (subs m !! name) as [l|]; [|done].
  pose proof (unsubscribe_all_no_panic net l m) as Hp. by destruct (unsubscribe_all net l m) as [m1 [u|e|p]].
Qed.

(** ** Operations *)

Lemma subscribeAgent_spec net name agent m : manager_ok m →
  let '(m', r) := subscribeAgent Collectives net name agent m in
  touches name m m' ∧ (∀ l, subs m !! name = Some l → m' = m ∧ ∃ e, r = Err e) ∧
  (subs m !! name = None → is_Some (subs m' !! name)) ∧
  (r = Ok tt → subs m' !! name = Some (all_subnames name) ∧
     ∀ c, c ∈ Collectives → chanSubscriptions (conn m') !! subname c name = Some (Some (agent_target agent c name))).
Proof.
  intros Hm. unfold subscribeAgent, mbind, ST_bind, gets. destruct (subs m !! name) as [l|] eqn:Hs.
  { split; [apply touches_refl|]. split; [intros l' _; split; [done|by eexists]|]. done. }
  unfold modify. set (m1 := set_subs <[name:=[]]> m).
  assert (touches name m m1) as Ht1.
  { apply set_subs_touches; [intros n s Hn; by rewrite lookup_insert_ne|].
    intros l _. rewrite lookup_insert_eq. intros [= <-]. set_solver. }
  assert (subs m1 !! name = Some []) as Hs1 by (unfold m1; cbn; by rewrite lookup_insert_eq).
  pose proof (subscribe_loop_spec net name agent Collectives m1 ltac:(done) (still_conn _ _ _ Ht1 (ok_conn _ Hm))) as Hl.
  specialize (Hl ltac:(rewrite Hs1; intros l [= <-]; set_solver)).
  pose proof (subscribe_loop_keeps net name agent Collectives m1 (mk_is_Some _ _ Hs1)) as Hkeep.
  destruct (subscribe_loop net name agent Collectives m1) as [m' r]. destruct Hl as [Ht Hr].
  split; [by eapply touches_trans|]. split; [done|]. split; [done|]. intros ->.
  destruct (Hr eq_refl) as (H1 & H2 & _). split; [|done]. rewrite H1, Hs1.
  unfold all_subnames. generalize (λ c, subname c name). generalize Collectives as l. by intros [].
Qed.

Lemma validated f agent : map_err (F:=string) f (validateAgent agent) = Ok tt →
  is_ok (validateAgent (SetServerInfo agent)) = true.
Proof.
  unfold validateAgent. rewrite server_info_metadata.
  destruct (md_Timeout _ <? 1)%Z; [done|]. by destruct (String.eqb _ _).
Qed.

Lemma RegisterAgent_ok net name agent m : manager_ok m → manager_ok (RegisterAgent Collectives net name agent m).1.
Proof.
  intros Hm. unfold RegisterAgent. destruct (String.eqb_spec name "") as [->|Hne]; [done|].
  unfold mbind, ST_bind, lift, gets, attempt, throw, modify.
  destruct (map_err _ (validateAgent agent)) as [[]|e|p] eqn:Hv; [|done..]. cbn -[subscribeAgent].
  destruct (servicesOnly m && negb (md_Service (agent_Metadata agent))) eqn:Hsvc; [done|].
  destruct (negb (ShouldActivate agent)); [done|]. cbn -[subscribeAgent]. destruct (agentDenied name m); [done|].
  destruct (agents m !! name) as [a|] eqn:Ha; [done|].
  pose proof (subscribeAgent_spec net name (SetServerInfo agent) m Hm) as Hs.
  destruct (subscribeAgent Collectives net name (SetServerInfo agent) m) as [m' r]. destruct Hs as (Ht & _ & _ & Hr).
  pose proof (touches_ok _ _ _ Ht Hm Ha) as Hm'. destruct r as [[]|e|p]; [|done..]. cbn.
  destruct (Hr eq_refl) as [Hsub Hconn]. pose proof (same_agents _ _ _ Ht) as Hag.
  assert (is_ok (validateAgent (SetServerInfo agent)) = true) as Hva.
  { by eapply validated. }
  split; cbn.
  - apply (ok_conn _ Hm').
  - intros n a. rewrite lookup_insert_Some. intros [[<- <-]|[_ H]]; [done|by apply (ok_agents _ Hm')].
  - intros n a Hso. rewrite lookup_insert_Some. intros [[<- <-]|[_ H]]; [|by eapply (ok_services _ Hm')].
    rewrite (same_services _ _ _ Ht) in Hso. rewrite Hso in Hsvc. rewrite server_info_metadata.
    by destruct (md_Service (agent_Metadata agent)).
  - intros n a. rewrite lookup_insert_Some. intros [[<- <-]|[_ H]]; [done|by eapply (ok_subs _ Hm')].
  - intros n a c. rewrite lookup_insert_Some. intros [[<- <-]|[_ H]] Hc; [by apply Hconn|by apply (ok_listens _ Hm')].
  - apply (ok_own _ Hm').
Qed.

Lemma delete_ok name m : manager_ok m → manager_ok (set_subs (delete name) (set_agents (delete name) m)).
Proof.
  intros Hm. split; cbn.
  - apply (ok_conn _ Hm).
  - intros n a. rewrite lookup_delete_Some. intros [_ H]. by apply (ok_agents _ Hm).
  - intros n a Hs. rewrite lookup_delete_Some. intros [_ H]. by eapply (ok_services _ Hm).
  - intros n a. rewrite !lookup_delete_Some. intros [Hn H]. split; [done|]. by eapply (ok_subs _ Hm).
  - intros n a c. rewrite lookup_delete_Some. intros [_ H]. by apply (ok_listens _ Hm).
  - intros n l. rewrite lookup_delete_Some. intros [_ H]. by apply (ok_own _ Hm).
Qed.

Lemma touches_drop name m m' : touches name m m' → manager_ok m → manager_ok (set_agents (delete name) m').
Proof.
  intros Ht Hm. eapply (touches_ok name (set_agents (delete name) m)).
  - split; cbn; [by rewrite (same_agents _ _ _ Ht)|..]; apply Ht.
  - split; cbn.
    + apply (ok_conn _ Hm).
    + intros n a. rewrite lookup_delete_Some. intros [_ H]. by apply (ok_agents _ Hm).
    + intros n a Hs. rewrite lookup_delete_Some. intros [_ H]. by eapply (ok_services _ Hm).
    + intros n a. rewrite lookup_delete_Some. intros [_ H]. by eapply (ok_subs _ Hm).
    + intros n a c. rewrite lookup_delete_Some. intros [_ H]. by apply (ok_listens _ Hm).
    + intros n l. apply (ok_own _ Hm).
  - cbn. by rewrite lookup_delete_eq.
Qed.

Lemma unSubscribeAgent_touches net name m : manager_ok m → touches name m (unSubscribeAgent net name m).1.
Proof.
  intros Hm. unfold unSubscribeAgent, mbind, ST_bind, gets. destruct (subs m !! name) as [l|] eqn:Hl; [|apply touches_refl].
  pose proof (unsubscribe_all_touches net name l m (ok_own _ Hm _ _ Hl)) as Hu.
  destruct (unsubscribe_all net l m) as [m1 [u|e|p]]; cbn in *; [|done..].
  eapply touches_trans; [exact Hu|]. apply set_subs_touches; [intros n s Hn; by rewrite lookup_delete_ne|].
  intros l' _. by rewrite lookup_delete_eq.
Qed.

Lemma UnregisterAgent_ok net name m : manager_ok m → manager_ok (UnregisterAgent net name m).1.
Proof.
  intros Hm. unfold UnregisterAgent. destruct (String.eqb name ""); [done|].
  unfold mbind, ST_bind, gets, attempt, modify, throw. destruct (agents m !! name) as [a|]; [|done].
  pose proof (unSubscribeAgent_touches net name m Hm) as Ht.
  pose proof (unSubscribeAgent_no_panic net name m) as Hp.
  destruct (unSubscribeAgent net name m) as [m' r]. cbn in Ht, Hp.
  assert (manager_ok (set_subs (delete name) (set_agents (delete name) m'))) as H.
  { pose proof (touches_drop _ _ _ Ht Hm) as Hd. apply (delete_ok name) in Hd. revert Hd.
    unfold set_subs, set_agents. cbn. by rewrite delete_delete_eq. }
  destruct r as [u|e|p]; [done|done|done].
Qed.

Lemma ReplaceAgent_ok name agent m : manager_ok m → manager_ok (ReplaceAgent name agent m).1.
Proof.
  intros Hm. unfold ReplaceAgent. destruct (String.eqb name ""); [done|].
  unfold mbind, ST_bind, lift, gets, throw, modify.
  destruct (map_err _ (validateAgent agent)) as [[]|e|p] eqn:Hv; [|done..].
  destruct (negb (ShouldActivate agent)); [done|]. cbn.
  destruct (agents m !! name) as [ca|] eqn:Hca; [|done].
  destruct (Bool.eqb _ _) eqn:Hsvc; [|done]. apply eqb_prop in Hsvc. cbn.
  assert (is_ok (validateAgent (SetServerInfo agent)) = true) as Hva.
  { by eapply validated. }
  split; cbn.
  - apply (ok_conn _ Hm).
  - intros n a. rewrite lookup_insert_Some. intros [[<- <-]|[_ H]]; [|by apply (ok_agents _ Hm)].
    split; [by eapply (ok_agents _ Hm)|done].
  - intros n a Hs. rewrite lookup_insert_Some. intros [[<- <-]|[_ H]]; [|by eapply (ok_services _ Hm)].
    rewrite server_info_metadata, <- Hsvc. by eapply (ok_services _ Hm).
  - intros n a. rewrite lookup_insert_Some. intros [[<- <-]|[_ H]]; by eapply (ok_subs _ Hm).
  - intros n a c. rewrite lookup_insert_Some. intros [[<- <-]|[_ H]] Hc; [|by apply (ok_listens _ Hm)].
    rewrite (ok_listens _ Hm _ _ _ Hca Hc), !agent_target_eq, server_info_metadata. by rewrite Hsvc.
  - apply (ok_own _ Hm).
Qed.

Lemma DenyAgent_ok name m : manager_ok m → manager_ok (DenyAgent name m).
Proof. by intros [H1 H2 H3 H4 H5 H6]. Qed.

(** An operation on the manager, whatever its result and the network. *)
Inductive manager_step : Manager A → Manager A → Prop :=
| step_register net name agent m : manager_step m (RegisterAgent Collectives net name agent m).1
| step_replace name agent m : manager_step m (ReplaceAgent name agent m).1
| step_unregister net name m : manager_step m (UnregisterAgent net name m).1
| step_deny name m : manager_step m (DenyAgent name m).

Definition no_subscriptions : Subscriptions := {| chanSubscriptions := ∅; live := [] |}.

Lemma reachable_ok services m : rtc manager_step (new_manager services no_subscriptions) m → manager_ok m.
Proof.
  assert (manager_ok (new_manager services no_subscriptions)) as H0 by (by split).
  intros Hr. revert H0. induction Hr as [|m1 m2 m3 Hs _ IH]; [done|]. intros H1. apply IH.
  destruct Hs; [by apply RegisterAgent_ok|by apply ReplaceAgent_ok|by apply UnregisterAgent_ok|by apply DenyAgent_ok].
Qed.

(** C24. Whatever is registered, replaced, unregistered and denied, in whatever order and
    with whatever failures of the network, every agent the manager knows has a name and
    passed validation, is a service agent if the manager only hosts services, and is
    subscribed in every collective to the subject of its name and kind, services in the
    queue group of their name: replacing an agent cannot change its kind. *)
Theorem known_agents_listen services m :
  rtc manager_step (new_manager services no_subscriptions) m →
  ∀ name a, agents m !! name = Some a →
    name ≠ "" ∧ is_ok (validateAgent a) = true ∧ (servicesOnly m = true → md_Service (agent_Metadata a) = true) ∧
    subs m !! name = Some (map (λ c, subname c name) Collectives) ∧
    ∀ c, c ∈ Collectives → agent_target a c name ∈ live (conn m).
Proof.
  intros Hr name a Ha. apply reachable_ok in Hr as Hm. destruct (ok_agents _ Hm _ _ Ha) as [H1 H2].
  split_and!; [done|done|intros Hs; by eapply (ok_services _ Hm)|by eapply (ok_subs _ Hm)|].
  intros c Hc. by destruct (ok_conn _ Hm _ _ (ok_listens _ Hm _ _ _ Ha Hc)).
Qed.

Lemma subscribeAgent_leaves_entry net name agent m :
  is_Some (subs (subscribeAgent Collectives net name agent m).1 !! name).
Proof.
  unfold subscribeAgent, mbind, ST_bind, gets. destruct (subs m !! name) as [l|] eqn:Hl; [by eexists|].
  apply subscribe_loop_keeps. cbn. by rewrite lookup_insert_eq.
Qed.

Lemma subscribeAgent_agents net name agent m :
  agents (subscribeAgent Collectives net name agent m).1 = agents m.
Proof.
  assert (∀ names (m : Manager A), agents (unsubscribe_each net names m).1 = agents m) as Hu.
  { induction names as [|k names IH]; intros m'; [done|]. cbn [unsubscribe_each].
    unfold mbind, ST_bind, attempt, on_conn. destruct (Unsubscribe net k (conn m')) as [c1 [u|e|p]]; cbn; [by rewrite IH..|done]. }
  unfold subscribeAgent, mbind, ST_bind, gets, modify. destruct (subs m !! name); [done|].
  transitivity (agents (set_subs <[name:=[]]> m)); [|done]. generalize (set_subs <[name:=[]]> m).
  generalize Collectives as cols. induction cols as [|c cols IH]; intros m'; [done|]. cbn [subscribe_loop].
  unfold mbind, ST_bind, attempt, on_conn, gets, modify.
  destruct (QueueSubscribe net _ _ _ (conn m')) as [c1 [u|e|p]]; [by rewrite IH| |done].
  pose proof (Hu (default [] (subs (set_conn c1 m') !! name)) (set_conn c1 m')) as Hn.
  destruct (unsubscribe_each net _ (set_conn c1 m')) as [m4 [u|e'|p]]; cbn in *; by rewrite Hn.
Qed.

(** An agent whose subscriptions fail can never be registered: the manager keeps the
    entry of its name, so that another attempt fails on any network, and since the agent
    is not known unregistering it fails too and does not remove the entry. *)
Theorem failed_registration_is_final net name agent m m' e :
  name ≠ "" → is_ok (validateAgent agent) = true →
  (servicesOnly m = true → md_Service (agent_Metadata agent) = true) → ShouldActivate agent = true →
  agentDenied name m = false → agents m !! name = None →
  RegisterAgent Collectives net name agent m = (m', Err e) →
  ∀ net' agent', agents (RegisterAgent Collectives net' name agent' m').1 !! name = None ∧
    UnregisterAgent net' name m' = (m', Err "unknown agent").
Proof.
  intros Hne Hv Hsvc Hact Hden Ha Hreg net' agent'.
  assert (agents m' !! name = None ∧ is_Some (subs m' !! name)) as [Ha' [l Hl]].
  { revert Hreg. unfold RegisterAgent. rewrite (proj2 (String.eqb_neq _ _) Hne).
    unfold mbind, ST_bind, lift, gets, attempt, throw, modify.
    destruct (validateAgent agent) as [[]|e'|p]; [|done..]. cbn [map_err].
    assert (servicesOnly m && negb (md_Service (agent_Metadata agent)) = false) as ->.
    { destruct (servicesOnly m); [|done]. by rewrite Hsvc. }
    rewrite Hact. cbn -[subscribeAgent agentDenied]. rewrite Hden, Ha. cbn -[subscribeAgent].
    pose proof (subscribeAgent_agents net name (SetServerInfo agent) m) as H1.
    pose proof (subscribeAgent_leaves_entry net name (SetServerInfo agent) m) as H2.
    destruct (subscribeAgent Collectives net name (SetServerInfo agent) m) as [m1 [u|e'|p]]; [done| |done].
    cbn in H1, H2. intros [= <- <-]. by rewrite H1. }
  split.
  - unfold RegisterAgent. rewrite (proj2 (String.eqb_neq _ _) Hne).
    unfold mbind, ST_bind, lift, gets, attempt, throw, modify.
    destruct (map_err _ (validateAgent agent')) as [[]|e'|p]; [|done..]. cbn -[subscribeAgent].
    destruct (servicesOnly m' && _); [done|]. destruct (negb (ShouldActivate agent')); [done|]. cbn -[subscribeAgent].
    destruct (agentDenied name m'); [done|]. rewrite Ha'.
    unfold subscribeAgent, mbind, ST_bind, gets. by rewrite Hl.
  - unfold UnregisterAgent. rewrite (proj2 (String.eqb_neq _ _) Hne). unfold mbind, ST_bind, gets. by rewrite Ha'.
Qed.

End Manager.

(** ** A concrete manager *)

Record demo_simple := { ds_meta : Metadata }.

#[export] Instance demo_simple_ops : AgentOps demo_simple :=
  {| agent_Metadata := ds_meta; ShouldActivate := λ _, true; SetServerInfo := λ a, a |}.
#[export] Instance demo_simple_lawful : LawfulAgent demo_simple.
Proof. by split. Defined.

Definition demo_ping_agent (service : bool) : demo_simple :=
  {| ds_meta := {| md_Name := "ping"; md_Version := "1"; md_Timeout := 5; md_Service := service; md_Provider := "" |} |}.

Definition demo_net (ok : bool) : network :=
  {| ChanQueueSubscribe_ok := λ _ _, ok; Flush_ok := λ _, true; Unsubscribe_answer := λ _, UnsubOk |}.

Definition demo_registered : Manager demo_simple :=
  (RegisterAgent ["c1"; "c2"] (demo_net true) "ping" (demo_ping_agent true)
     (new_manager false no_subscriptions)).1.

Lemma known_agents_listen_witness :
  agents demo_registered !! "ping" = Some (demo_ping_agent true) ∧
  ("c2.broadcast.service.ping", "ping") ∈ live (conn demo_registered).
Proof.
  assert (agents demo_registered !! "ping" = Some (demo_ping_agent true)) as Ha by (vm_compute; reflexivity).
  split; [exact Ha|].
  destruct (known_agents_listen ["c1"; "c2"] ltac:(repeat constructor) false demo_registered) with "ping" (demo_ping_agent true)
    as (_ & _ & _ & _ & H); [|exact Ha|].
  - eapply rtc_l; [apply step_register|apply rtc_refl].
  - apply (H "c2"). apply elem_of_cons. right. by apply elem_of_cons; left.
Defined.

Lemma failed_registration_is_final_witness :
  let m := (RegisterAgent ["c1"] (demo_net false) "ping" (demo_ping_agent true) (new_manager false no_subscriptions)).1 in
  agents (RegisterAgent ["c1"] (demo_net true) "ping" (demo_ping_agent true) m).1 !! "ping" = None ∧
  UnregisterAgent (demo_net true) "ping" m = (m, Err "unknown agent").
Proof.
  intros m.
  apply (failed_registration_is_final ["c1"] (demo_net false) "ping" (demo_ping_agent true)
    (new_manager false no_subscriptions) m
    "could not register agent ping: subscription failed: could not subscribe to subscription c1.ping");
    [discriminate|vm_compute; reflexivity|done|reflexivity|reflexivity|reflexivity|vm_compute; reflexivity].
Defined.
