(* ===== verification/Lifecycle.v ===== *)
(** * Lifecycle events

    lifecycle/: the events components publish when they start, stop, live, are
    provisioned or upgraded and use governors, in both formats, and their viewer.  JSON
    and CloudEvents are arguments; the identifiers and times of new events are too. *)
From S2P Require Import Prelude GoLib.

(** [lifecycle.Type]; [Unknown] is -1 in the code and [Startup] 0. *)
Inductive EventType := Unknown | Startup | Shutdown | Provisioned | Alive | Governor | Upgraded.

#[export] Instance EventType_eq_dec : EqDecision EventType.
Proof. solve_decision. Defined.

(** A stop calls itself a start. *)
Definition Type_String (t : EventType) : string :=
  match t with
  | Startup => "Startup"
  | Shutdown => "Startup"
  | Provisioned => "Provisioned"
  | Alive => "Alive"
  | Governor => "Governor"
  | Upgraded => "Upgraded"
  | Unknown => "Unknown"
  end.

Inductive Format := UnknownFormat | ChoriaFormat | CloudEventV1Format.

Definition Format_String (f : Format) : string :=
  match f with
  | UnknownFormat => "UnknownFormat"
  | ChoriaFormat => "ChoriaFormat"
  | CloudEventV1Format => "CloudEventV1Format"
  end.

(** The [init] functions of the event files. *)
Definition eventTypes (name : string) : option EventType :=
  if String.eqb name "startup" then Some Startup
  else if String.eqb name "shutdown" then Some Shutdown
  else if String.eqb name "provisioned" then Some Provisioned
  else if String.eqb name "alive" then Some Alive
  else if String.eqb name "governor" then Some Governor
  else if String.eqb name "upgraded" then Some Upgraded
  else None.

Definition EventTypeNames : list string := ["alive"; "governor"; "provisioned"; "shutdown"; "startup"; "upgraded"].

Record basicEvent := {
  EventProtocol : string;
  EventID : string;
  Ident : string;
  Comp : string;
  Timestamp : Z;
  EventFormat : Format;
  etype : string;
  dtype : EventType;
}.

(** What the structs of the events have beside the basic event. *)
Inductive details :=
| StartupEvent (version : string)
| ShutdownEvent
| ProvisionedEvent
| AliveEvent (version : string)
| GovernorEvent (governor : string) (sequence : Z) (event_type : string)
| UpgradedEvent (version new_version : string).

Record Event := { basic : basicEvent; detail : details }.

Definition set_basic (f : basicEvent → basicEvent) (e : Event) : Event := {| basic := f (basic e); detail := detail e |}.
Definition set_detail (d : details) (e : Event) : Event := {| basic := basic e; detail := d |}.

Definition SetFormat (f : Format) : Event → Event := set_basic (λ b,
  {| EventProtocol := EventProtocol b; EventID := EventID b; Ident := Ident b; Comp := Comp b; Timestamp := Timestamp b;
     EventFormat := f; etype := etype b; dtype := dtype b |}).
Definition SetComponent (c : string) : Event → Event := set_basic (λ b,
  {| EventProtocol := EventProtocol b; EventID := EventID b; Ident := Ident b; Comp := c; Timestamp := Timestamp b;
     EventFormat := EventFormat b; etype := etype b; dtype := dtype b |}).
Definition SetIdentity (i : string) : Event → Event := set_basic (λ b,
  {| EventProtocol := EventProtocol b; EventID := EventID b; Ident := i; Comp := Comp b; Timestamp := Timestamp b;
     EventFormat := EventFormat b; etype := etype b; dtype := dtype b |}).
Definition set_protocol (p : string) : Event → Event := set_basic (λ b,
  {| EventProtocol := p; EventID := EventID b; Ident := Ident b; Comp := Comp b; Timestamp := Timestamp b;
     EventFormat := EventFormat b; etype := etype b; dtype := dtype b |}).

Definition Target (e : Event) : res string :=
  if String.eqb (Comp (basic e)) "" then Err "event is not complete, component has not been set"
  else Ok ("choria.lifecycle.event." +:+ etype (basic e) +:+ "." +:+ Comp (basic e)).

Definition newBasicEvent (id : string) (now : Z) (t : string) : basicEvent :=
  {| EventProtocol := "io.choria.lifecycle.v1." +:+ t; EventID := id; Ident := ""; Comp := ""; Timestamp := now;
     EventFormat := ChoriaFormat; etype := t; dtype := default Startup (eventTypes t) |}.

(** The event a factory starts from; the name of its type and its details. *)
Definition blank (t : EventType) : option (string * details) :=
  match t with
  | Startup => Some ("startup", StartupEvent "")
  | Shutdown => Some ("shutdown", ShutdownEvent)
  | Provisioned => Some ("provisioned", ProvisionedEvent)
  | Alive => Some ("alive", AliveEvent "")
  | Governor => Some ("governor", GovernorEvent "" 0 "")
  | Upgraded => Some ("upgraded", UpgradedEvent "" "")
  | Unknown => None
  end.

(** ** Options *)

Inductive Option :=
| Component (c : string)
| Version (v : string)
| NewVersion (v : string)
| Identity (i : string)
| GovernorName (n : string)
| GovernorType (stage : string)
| GovernorSequence (seq : Z).

Definition GovernorEventTypes : list string := ["enter"; "exit"; "timeouts"; "eviction"].

Definition SetVersion (v : string) (d : details) : res details :=
  match d with
  | StartupEvent _ => Ok (StartupEvent v)
  | AliveEvent _ => Ok (AliveEvent v)
  | UpgradedEvent _ n => Ok (UpgradedEvent v n)
  | _ => Err "cannot set version, event does not implement VersionEvent"
  end.

Definition SetNewVersion (v : string) (d : details) : res details :=
  match d with
  | UpgradedEvent o _ => Ok (UpgradedEvent o v)
  | _ => Err "cannot set version, event does not implement NewVersionEvent"
  end.

Definition SetEventType (stage : string) (d : details) : res details :=
  match d with
  | GovernorEvent g s _ => if elem stage GovernorEventTypes then Ok (GovernorEvent g s stage) else Err "invalid stage"
  | _ => Err "cannot set governor, event is not a Governor event"
  end.

Definition SetGovernor (name : string) (d : details) : res details :=
  match d with
  | GovernorEvent _ s t => Ok (GovernorEvent name s t)
  | _ => Err "cannot set governor, event is not a Governor event"
  end.

Definition SetSequence (seq : Z) (d : details) : res details :=
  match d with
  | GovernorEvent g _ t => Ok (GovernorEvent g seq t)
  | _ => Err "cannot set governor, event is not a Governor event"
  end.

Definition apply_option (o : Option) (e : Event) : res Event :=
  let on_detail f := d ← f (detail e); Ok (set_detail d e) in
  match o with
  | Component c => Ok (SetComponent c e)
  | Identity i => Ok (SetIdentity i e)
  | Version v => on_detail (SetVersion v)
  | NewVersion v => on_detail (SetNewVersion v)
  | GovernorName n => on_detail (SetGovernor n)
  | GovernorType s => on_detail (SetEventType s)
  | GovernorSequence n => on_detail (SetSequence n)
  end.

(** The factories drop the errors of options. *)
Definition apply_options (opts : list Option) (e : Event) : Event :=
  foldl (λ e o, match apply_option o e with Ok e' => e' | _ => e end) e opts.

Definition New (id : string) (now : Z) (t : EventType) (opts : list Option) : res Event :=
  match blank t with
  | None => Err "unknown event type"
  | Some (name, d) => Ok (apply_options opts {| basic := newBasicEvent id now name; detail := d |})
  end.

(** ** Texts *)

Definition String_ (e : Event) : string :=
  let ident := Ident (basic e) in
  let comp := Comp (basic e) in
  match detail e with
  | StartupEvent v => "[startup] " +:+ ident +:+ ": " +:+ comp +:+ " version " +:+ v
  | AliveEvent v => "[alive] " +:+ ident +:+ ": " +:+ comp +:+ " version " +:+ v
  | UpgradedEvent v n => "[upgraded] " +:+ ident +:+ ": " +:+ comp +:+ " version " +:+ v +:+ " to " +:+ n
  | ShutdownEvent | ProvisionedEvent => "[" +:+ etype (basic e) +:+ "] " +:+ ident +:+ ": " +:+ comp
  | GovernorEvent g seq t =>
      "[governor] " +:+ ident +:+ ": " +:+
      (if String.eqb t "exit" then
         if (0 <? seq)%Z then "vacated slot " +:+ itoa seq +:+ " on " +:+ g else "vacated " +:+ g
       else if String.eqb t "enter" then
         if (0 <? seq)%Z then "obtained slot " +:+ itoa seq +:+ " on " +:+ g else "obtained slot on " +:+ g
       else if String.eqb t "timeouts" then "failed to obtain a slot on " +:+ g
       else if String.eqb t "eviction" then
         if (0 <? seq)%Z then "evicted from slot " +:+ itoa seq +:+ " on " +:+ g else "evicted from " +:+ g
       else "unknown stage on Governor " +:+ g)
  end.

(** ** JSON *)

Record cloudevent := {
  ce_Type : string;
  ce_Source : string;
  ce_Subject : string;
  ce_ID : string;
  ce_Time : Z;
  ce_Data : string;
}.

Class EventJSON := {
  (** [gjson.GetBytes], as a string; [None] when the path does not exist *)
  gjson_String : string → string → option string;
  (** [json.Marshal] of an event, which has no values that cannot be encoded *)
  json_event : Event → string;
  (** [json.Unmarshal] into an event: fields the document does not have stay *)
  json_over : Event → string → res Event;
  (** the JSON of cloud events and the data of one *)
  ce_marshal : cloudevent → res string;
  ce_data : string → res string;
}.

Section JSON.
Context `{EJ : EventJSON}.

Definition EventFormatFromJSON (j : string) : Format :=
  if match gjson_String j "protocol" with Some p => has_prefix p "io.choria.lifecycle" | None => false end then ChoriaFormat
  else match gjson_String j "specversion", gjson_String j "source" with
       | Some v, Some s => if String.eqb v "1.0" && String.eqb s "io.choria.lifecycle" then CloudEventV1Format else UnknownFormat
       | _, _ => UnknownFormat
       end.

Definition protoStringToTypeString (proto : string) : res string :=
  let unknown := "unknown protocol '" +:+ proto +:+ "' received" in
  if has_prefix proto "choria:lifecycle" then
    match split proto ":" with
    | [_; _; t; _] => Ok t
    | _ => Err unknown
    end
  else if has_prefix proto "io.choria.lifecycle" then
    match split proto "." with
    | [_; _; _; _; t] => Ok t
    | _ => Err unknown
    end
  else Err ("invalid protocol '" +:+ proto +:+ "' received").

(** The parser of one type of events. *)
Definition parse_event (id : string) (now : Z) (t : EventType) (j : string) : res Event :=
  match blank t with
  | None => Err "cannot create event type from JSON"
  | Some (name, d) =>
      e ← json_over {| basic := newBasicEvent id now name; detail := d |} j;
      let proto := EventProtocol (basic e) in
      e ← (if String.eqb proto ("io.choria.lifecycle.v1." +:+ name) then Ok e
           else if String.eqb proto ("choria:lifecycle:" +:+ name +:+ ":1") then Ok (set_protocol ("io.choria.lifecycle.v1." +:+ name) e)
           else Err ("invalid protocol '" +:+ proto +:+ "'"));
      match detail e with
      | GovernorEvent "" _ _ => Err "governor name is not set"
      | _ => Ok e
      end
  end.

Definition choriaFormatNewFromJSON (id : string) (now : Z) (j : string) : res Event :=
  let protocol := default "" (gjson_String j "protocol") in
  proto ← protoStringToTypeString protocol;
  match eventTypes proto with
  | None => Err ("unknown protocol '" +:+ protocol +:+ "' received")
  | Some t => parse_event id now t j
  end.

(** The data of a cloud event is parsed as any event: it may be another cloud event.
    [depth] bounds the nesting. *)
Fixpoint nested_event (depth : nat) (id : string) (now : Z) (j : string) : res Event :=
  match depth with
  | 0 => Panic "stack overflow"
  | S depth =>
      let format := EventFormatFromJSON j in
      event ← (match format with
               | ChoriaFormat => choriaFormatNewFromJSON id now j
               | CloudEventV1Format => data ← ce_data j; nested_event depth id now data
               | UnknownFormat => Err "unsupported event format"
               end);
      Ok (SetFormat format event)
  end.

Definition NewFromJSON (id : string) (now : Z) (j : string) : res Event := nested_event (S (String.length j)) id now j.

Definition ToCloudEventV1 (e : Event) : cloudevent :=
  {| ce_Type := EventProtocol (basic e); ce_Source := "io.choria.lifecycle"; ce_Subject := Ident (basic e);
     ce_ID := EventID (basic e); ce_Time := Timestamp (basic e); ce_Data := json_event e |}.

(** [PublishRaw] answers [publish]; what is published is appended. *)
Definition PublishEvent (publish : string → string → res ()) (e : Event) : ST (list (string * string)) string () :=
  j ← lift (match EventFormat (basic e) with
            | ChoriaFormat => Ok (json_event e)
            | CloudEventV1Format => ce_marshal (ToCloudEventV1 e)
            | UnknownFormat => Err "do not know how to publish this format event"
            end);
  target ← lift (Target e);
  lift (publish target j);;
  modify (λ sent, sent ++ [(target, j)]).

(** ** The viewer *)

Record ViewOptions := { vo_TypeFilter : string; vo_ComponentFilter : string; vo_Debug : bool }.

(** What [WriteEvents] writes for one message, when it does; [clock] is the time of day. *)
Definition WriteEvent (opt : ViewOptions) (id clock : string) (now : Z) (data : string) : option string :=
  match NewFromJSON id now data with
  | Ok event =>
      if negb (String.eqb (vo_ComponentFilter opt) "") && negb (String.eqb (Comp (basic event)) (vo_ComponentFilter opt)) then None
      else if negb (String.eqb (vo_TypeFilter opt) "") && negb (String.eqb (etype (basic event)) (vo_TypeFilter opt)) then None
      else if vo_Debug opt then Some data
      else Some (clock +:+ " " +:+ String_ event)
  | _ => None
  end.

End JSON.

(** * Theorems on lifecycle events

    Accepted events are well formed, published events are read back, and nested cloud
    events come to an end. *)
From S2P Require Import Regex Files Facts Filters Util Transport SecureMessages DemoJSON.

(** Text that every JSON encoder keeps as it is. *)
Definition plain (s : string) : bool := forallb (λ c, N_of_ascii c <? 128)%N (String.list_ascii_of_string s).

Definition detail_texts (d : details) : list string :=
  match d with
  | StartupEvent v | AliveEvent v => [v]
  | ShutdownEvent | ProvisionedEvent => []
  | GovernorEvent g _ t => [g; t]
  | UpgradedEvent v n => [v; n]
  end.

Definition plain_event (e : Event) : Prop :=
  let b := basic e in
  Forall (λ s, plain s = true) ([EventProtocol b; EventID b; Ident b; Comp b] ++ detail_texts (detail e)) ∧
  (int64_min ≤ Timestamp b ≤ int64_max)%Z ∧
  match detail e with GovernorEvent _ n _ => (0 ≤ n < 2 ^ 64)%Z | _ => True end.

Definition same_kind (d d' : details) : Prop :=
  match d, d' with
  | StartupEvent _, StartupEvent _ | ShutdownEvent, ShutdownEvent | ProvisionedEvent, ProvisionedEvent
  | AliveEvent _, AliveEvent _ | GovernorEvent _ _ _, GovernorEvent _ _ _ | UpgradedEvent _ _, UpgradedEvent _ _ => True
  | _, _ => False
  end.

(** What the code relies on of JSON and cloud events. *)
Class EventLaws `{EventJSON} := {
  event_protocol e : plain_event e → gjson_String (json_event e) "protocol" = Some (EventProtocol (basic e));
  over_event e0 e : plain_event e → same_kind (detail e0) (detail e) →
    json_over e0 (json_event e) =
    Ok {| basic := {| EventProtocol := EventProtocol (basic e); EventID := EventID (basic e); Ident := Ident (basic e);
                      Comp := Comp (basic e); Timestamp := Timestamp (basic e); EventFormat := EventFormat (basic e0);
                      etype := etype (basic e0); dtype := dtype (basic e0) |};
          detail := detail e |};
  (** what is not exported is not decoded *)
  over_kind e0 j e : json_over e0 j = Ok e →
    same_kind (detail e0) (detail e) ∧ etype (basic e) = etype (basic e0) ∧ dtype (basic e) = dtype (basic e0);
  ce_fields c e j : ce_Data c = json_event e → ce_marshal c = Ok j →
    gjson_String j "protocol" = None ∧ gjson_String j "specversion" = Some "1.0" ∧
    (plain (ce_Source c) = true → gjson_String j "source" = Some (ce_Source c)) ∧ ce_data j = Ok (json_event e);
  ce_data_shorter j d : ce_data j = Ok d → String.length d < String.length j;
}.

(** ** Well formed events *)

Record well_formed (e : Event) : Prop := {
  wf_name : ∃ d, blank (dtype (basic e)) = Some (etype (basic e), d) ∧ same_kind d (detail e);
  wf_protocol : EventProtocol (basic e) = "io.choria.lifecycle.v1." +:+ etype (basic e);
}.

Lemma same_kind_refl d : same_kind d d.
Proof. by destruct d. Qed.
Lemma same_kind_trans d1 d2 d3 : same_kind d1 d2 → same_kind d2 d3 → same_kind d1 d3.
Proof. by destruct d1, d2, d3. Qed.
Lemma blank_types t name d : blank t = Some (name, d) → eventTypes name = Some t.
Proof. by destruct t; intros [= <- <-]. Qed.

Lemma SetFormat_wf f e : well_formed e → well_formed (SetFormat f e).
Proof. by intros [Hn Hp]. Qed.

Lemma apply_option_wf o e e' : well_formed e → apply_option o e = Ok e' →
  well_formed e' ∧ EventFormat (basic e') = EventFormat (basic e) ∧ dtype (basic e') = dtype (basic e).
Proof.
  intros [(d & Hb & Hk) Hp] Ho. destruct e as [b d']. cbn in Hb, Hk, Hp.
  assert (∀ f : details → res details, (∀ d'', f d' = Ok d'' → same_kind d' d'') →
    (d ← f d'; Ok (set_detail d {| basic := b; detail := d' |})) = Ok e' →
    well_formed e' ∧ EventFormat (basic e') = EventFormat b ∧ dtype (basic e') = dtype b) as Hdetail.
  { intros f Hf H0. unfold mbind, outcome_bind in H0. destruct (f d') as [d''|?|?] eqn:E; [|done..]. injection H0 as <-.
    split; [|done]. split; [|done]. exists d. split; [done|]. eapply same_kind_trans; [exact Hk|by apply Hf]. }
  destruct o; cbn in Ho.
  1,4: injection Ho as <-; (split; [|done]); (split; [by exists d|done]).
  all: refine (Hdetail _ _ Ho); intros d''; destruct d'; cbn -[elem]; try done; try (destruct (elem _ _); [|done]); intros H0; by simplify_eq.
Qed.

Lemma apply_options_wf opts e : well_formed e →
  well_formed (apply_options opts e) ∧ EventFormat (basic (apply_options opts e)) = EventFormat (basic e) ∧
  dtype (basic (apply_options opts e)) = dtype (basic e).
Proof.
  unfold apply_options. revert e. induction opts as [|o opts IH]; intros e He; [done|]. cbn [foldl].
  destruct (apply_option o e) as [e'|?|?] eqn:Ho; [|by apply IH..].
  destruct (apply_option_wf o e e' He Ho) as (He' & <- & <-). by apply IH.
Qed.

Lemma New_wf id now t opts e : New id now t opts = Ok e →
  well_formed e ∧ EventFormat (basic e) = ChoriaFormat ∧ dtype (basic e) = t.
Proof.
  unfold New. destruct (blank t) as [[name d]|] eqn:Hb; [|done]. intros [= <-].
  set (e0 := {| basic := newBasicEvent id now name; detail := d |}).
  assert (dtype (basic e0) = t) as Ht by (cbn; by rewrite (blank_types t name d Hb)).
  destruct (apply_options_wf opts e0) as (Hw & -> & ->); [|done].
  split; [|done]. exists d. split; [|apply same_kind_refl]. by rewrite Ht.
Qed.

(** ** Parsing *)

Section Laws.
Context `{EL : EventLaws}.

Lemma parse_event_wf id now t j e : parse_event id now t j = Ok e →
  well_formed e ∧ dtype (basic e) = t ∧ ∀ s ty, detail e ≠ GovernorEvent "" s ty.
Proof.
  unfold parse_event. destruct (blank t) as [[name d]|] eqn:Hb; [|done]. unfold mbind, outcome_bind.
  set (e0 := {| basic := _; detail := d |}). destruct (json_over e0 j) as [e1|?|?] eqn:Hj; [|done..].
  apply over_kind in Hj as (Hk & Het & Hdt). cbn in Het, Hdt, Hk. rewrite (blank_types t name d Hb) in Hdt. cbn in Hdt.
  assert (∀ e', detail e' = detail e1 → etype (basic e') = etype (basic e1) → dtype (basic e') = dtype (basic e1) →
    EventProtocol (basic e') = "io.choria.lifecycle.v1." +:+ name →
    match detail e' with GovernorEvent "" _ _ => Err "governor name is not set" | _ => Ok e' end = Ok e →
    well_formed e ∧ dtype (basic e) = t ∧ ∀ s ty, detail e ≠ GovernorEvent "" s ty) as Hend.
  { intros e' Hd Hty Hdt' Hp H0.
    assert (e' = e ∧ ∀ s ty, detail e' ≠ GovernorEvent "" s ty) as [-> Hg].
    { destruct (detail e') as [| | | |g ? ?|]; try by injection H0 as <-. destruct g; [done|]. by injection H0 as <-. }
    split; [|by rewrite Hdt', Hdt]. split; [exists d; by rewrite Hdt', Hdt, Hty, Het, Hd|by rewrite Hp, Hty, Het]. }
  destruct (String.eqb_spec (EventProtocol (basic e1)) ("io.choria.lifecycle.v1." +:+ name)) as [Hp|Hp]; [by apply Hend|].
  destruct (String.eqb _ _); [|done]. by apply Hend.
Qed.

(** Whatever bytes arrive, an event that is accepted is well formed: its name, its Go
    type and its protocol are those of one kind of events, and an event on governors names
    its governor. *)
Theorem accepted_events_typed (id : string) (now : Z) (j : string) (e : Event) :
  NewFromJSON id now j = Ok e → well_formed e ∧ ∀ s ty, detail e ≠ GovernorEvent "" s ty.
Proof.
  unfold NewFromJSON. generalize (S (String.length j)) as depth. intros depth. revert j e.
  induction depth as [|depth IH]; intros j e; [done|]. cbn [nested_event]. unfold mbind, outcome_bind.
  destruct (EventFormatFromJSON j) eqn:Hf; [done| |].
  - unfold choriaFormatNewFromJSON. destruct (protoStringToTypeString _) as [p|?|?]; [|done..]. cbn.
    destruct (eventTypes p) as [t|]; [|done]. destruct (parse_event id now t j) as [e'|?|?] eqn:Hp; [|done..].
    intros [= <-]. destruct (parse_event_wf _ _ _ _ _ Hp) as (Hw & _ & Hg). split; [by apply SetFormat_wf|done].
  - destruct (ce_data j) as [d|?|?]; [|done..]. destruct (nested_event depth id now d) as [e'|?|?] eqn:Hn; [|done..].
    intros [= <-]. destruct (IH d e' Hn) as [Hw Hg]. split; [by apply SetFormat_wf|done].
Qed.

(** Reading an event ends: however deep cloud events are nested in cloud events, the
    length of the message is enough, and parsing has a result, an event or an error. *)
Theorem nesting_ends (id : string) (now : Z) (j : string) : 
  (∀ d s, is_panic (json_over d s) = false) → (∀ s, is_panic (ce_data s) = false) → is_panic (NewFromJSON id now j) = false.
Proof.
  intros Hover Hce. unfold NewFromJSON.
  assert (∀ n j, String.length j < n → is_panic (nested_event n id now j) = false) as Hn; [|by apply Hn; lia].
  clear j. induction n as [|n IH]; intros j Hj; [lia|]. cbn [nested_event]. unfold mbind, outcome_bind.
  destruct (EventFormatFromJSON j); [done| |].
  - unfold choriaFormatNewFromJSON. destruct (protoStringToTypeString _) as [p|?|?] eqn:Hp; [|done|].
    2: { unfold protoStringToTypeString in Hp. repeat case_match; done. }
    cbn. destruct (eventTypes p) as [t|]; [|done]. unfold parse_event. destruct (blank t) as [[name d]|]; [|done].
    unfold mbind, outcome_bind. specialize (Hover {| basic := newBasicEvent id now name; detail := d |} j).
    destruct (json_over _ j); [|done..]. repeat case_match; done.
  - specialize (Hce j). destruct (ce_data j) as [d|?|?] eqn:Hd; [|done..].
    apply ce_data_shorter in Hd. specialize (IH d ltac:(lia)). by destruct (nested_event n id now d).
Qed.

(** The protocol of a well formed event leads to its parser. *)
Lemma protocol_type t name d : blank t = Some (name, d) →
  has_prefix ("io.choria.lifecycle.v1." +:+ name) "io.choria.lifecycle" = true ∧
  protoStringToTypeString ("io.choria.lifecycle.v1." +:+ name) = Ok name.
Proof. destruct t; intros [= <- <-]; split; reflexivity. Qed.

Lemma choria_roundtrip id now e depth : well_formed e → plain_event e → (∀ s ty, detail e ≠ GovernorEvent "" s ty) →
  nested_event (S depth) id now (json_event e) = Ok (SetFormat ChoriaFormat e).
Proof.
  intros [(d & Hb & Hk) Hp] Hplain Hg. cbn [nested_event]. unfold EventFormatFromJSON.
  rewrite event_protocol by done. rewrite Hp. destruct (protocol_type _ _ _ Hb) as [Hpre Hproto]. rewrite Hpre.
  unfold choriaFormatNewFromJSON. rewrite event_protocol by done. change (default "" (Some (EventProtocol (basic e)))) with (EventProtocol (basic e)). rewrite Hp, Hproto.
  unfold mbind, outcome_bind. rewrite (blank_types _ _ _ Hb). unfold parse_event. rewrite Hb.
  unfold mbind, outcome_bind. rewrite over_event by done. cbn [basic EventProtocol detail].
  rewrite Hp, String.eqb_refl.
  assert (∀ e' : Event, match detail e with GovernorEvent "" _ _ => Err "governor name is not set" | _ => Ok e' end = Ok e')
    as -> by (intros e'; destruct (detail e) as [| | | |[] ? ?|]; try done; by destruct (Hg sequence event_type)).
  unfold SetFormat, set_basic. cbn. rewrite (blank_types _ _ _ Hb), <- Hp. done.
Qed.

(** What is published is read: every event the library makes, in either format, is
    published once, on the subject of its type and component, and whoever receives it reads
    the same event, its format included. *)
Theorem published_events_are_read (id : string) (now : Z) (t : EventType) (opts : list Option) (e : Event) (f : Format)
    (publish : string → string → res ()) (sent sent' : list (string * string)) (id' : string) (now' : Z) :
  New id now t opts = Ok e → plain_event e → (∀ s ty, detail e ≠ GovernorEvent "" s ty) →
  PublishEvent publish (SetFormat f e) sent = (sent', Ok tt) →
  ∃ j, sent' = sent ++ [("choria.lifecycle.event." +:+ etype (basic e) +:+ "." +:+ Comp (basic e), j)] ∧
    NewFromJSON id' now' j = Ok (SetFormat f e).
Proof.
  intros Hn Hplain Hg Hp. apply New_wf in Hn as (Hw & Hf & Ht).
  unfold PublishEvent, Target in Hp. unfold mbind, ST_bind, lift, modify in Hp. cbn [basic EventFormat SetFormat set_basic] in Hp.
  assert (plain_event (SetFormat f e)) as Hplain' by done.
  assert (well_formed (SetFormat f e)) as Hw' by by apply SetFormat_wf.
  destruct f; [done| |].
  - exists (json_event (SetFormat ChoriaFormat e)). cbn in Hp.
    destruct (String.eqb (Comp (basic e)) ""); [done|]. cbn in Hp. destruct (publish _ _) as [[]|?|?]; [|done..].
    injection Hp as <-. split; [done|]. unfold NewFromJSON. by rewrite choria_roundtrip.
  - destruct (ce_marshal _) as [j|?|?] eqn:Hc; [|done..]. exists j. cbn in Hp.
    destruct (String.eqb (Comp (basic e)) ""); [done|]. cbn in Hp. destruct (publish _ _) as [[]|?|?]; [|done..].
    injection Hp as <-. split; [done|].
    destruct (ce_fields (ToCloudEventV1 (SetFormat CloudEventV1Format e)) (SetFormat CloudEventV1Format e) j eq_refl Hc) as (Hnone & Hspec & Hsrc & Hdata).
    specialize (Hsrc eq_refl). unfold NewFromJSON. cbn [nested_event]. unfold EventFormatFromJSON.
    rewrite Hnone, Hspec, Hsrc. cbn [String.eqb Ascii.eqb andb]. unfold mbind, outcome_bind. rewrite Hdata.
    assert (0 < String.length j) as Hlen by (apply ce_data_shorter in Hdata; lia).
    destruct (String.length j) as [|n]; [lia|]. rewrite choria_roundtrip by done. done.
Qed.

End Laws.

(** Events of the old protocol names, which the parsers know, are not accepted. *)
Lemma old_protocols_are_refused `{EventJSON} id now j p : 
  gjson_String j "protocol" = Some p → has_prefix p "choria:lifecycle" = true →
  gjson_String j "specversion" = None → NewFromJSON id now j = Err "unsupported event format".
Proof.
  intros Hp Hpre Hs. unfold NewFromJSON. cbn [nested_event]. unfold EventFormatFromJSON. rewrite Hp, Hs.
  assert (has_prefix p "io.choria.lifecycle" = false) as ->; [|done].
  destruct p as [|c p]; [done|]. rewrite has_prefix_cons in *. apply andb_true_iff in Hpre as [Hc _].
  by apply bool_decide_eq_true_1 in Hc as <-.
Qed.

(** ** A concrete encoding *)

Definition detail_fields (d : details) : list string :=
  match d with
  | StartupEvent v | AliveEvent v => [v]
  | ShutdownEvent | ProvisionedEvent => []
  | GovernorEvent g n t => [g; demo_marshal n; t]
  | UpgradedEvent v n => [v; n]
  end.

Definition detail_of (d : details) (l : list string) : option details :=
  match d, l with
  | StartupEvent _, [v] => Some (StartupEvent v)
  | AliveEvent _, [v] => Some (AliveEvent v)
  | ShutdownEvent, [] => Some ShutdownEvent
  | ProvisionedEvent, [] => Some ProvisionedEvent
  | GovernorEvent _ _ _, [g; n; t] => (λ n, GovernorEvent g n t) <$> demo_unmarshal n
  | UpgradedEvent _ _, [v; n] => Some (UpgradedEvent v n)
  | _, _ => None
  end.

Lemma detail_of_fields d0 d : same_kind d0 d → detail_of d0 (detail_fields d) = Some d.
Proof. destruct d0, d; try done. intros _. cbn [detail_fields detail_of]. by rewrite (demo_roundtrip sequence0). Qed.

Lemma detail_of_kind d0 l d : detail_of d0 l = Some d → same_kind d0 d.
Proof.
  destruct d0, l as [|? [|? [|? []]]]; try done; cbn; try (by intros [= <-]).
  destruct (demo_unmarshal _); [|done]. by intros [= <-].
Qed.

Definition demo_event (e : Event) : string :=
  let b := basic e in
  fields_encode (["E"; EventProtocol b; EventID b; Ident b; Comp b; demo_marshal (Timestamp b)] ++ detail_fields (detail e)).

Definition demo_over (e0 : Event) (j : string) : res Event :=
  let b := basic e0 in
  match fields_decode j with
  | Some ("E" :: p :: i :: ident :: c :: ts :: rest) =>
      match demo_unmarshal ts, detail_of (detail e0) rest with
      | Some ts, Some d =>
          Ok {| basic := {| EventProtocol := p; EventID := i; Ident := ident; Comp := c; Timestamp := ts;
                            EventFormat := EventFormat b; etype := etype b; dtype := dtype b |};
                detail := d |}
      | _, _ => Err "json"
      end
  | _ => Err "json"
  end.

Definition demo_gjson (j path : string) : option string :=
  match fields_decode j with
  | Some ("E" :: p :: _) => if String.eqb path "protocol" then Some p else None
  | Some ["C"; t; s; subject; i; ts; data] =>
      if String.eqb path "specversion" then Some "1.0" else if String.eqb path "source" then Some s else None
  | _ => None
  end.

#[export] Instance demo_event_json : EventJSON :=
  {| gjson_String := demo_gjson; json_event := demo_event; json_over := demo_over;
     ce_marshal c := Ok (fields_encode ["C"; ce_Type c; ce_Source c; ce_Subject c; ce_ID c; demo_marshal (ce_Time c); ce_Data c]);
     ce_data j := match fields_decode j with Some ["C"; _; _; _; _; _; data] => Ok data | _ => Err "json" end |}.

Lemma fields_decode_shorter j l s : fields_decode j = Some l → s ∈ l → String.length s < String.length j.
Proof.
  remember (String.length j) as n eqn:Hn. revert j Hn l s. induction (lt_wf n) as [n _ IH]. intros j -> l s Hd Hin.
  destruct j as [|m j]; [injection Hd as <-; by apply not_elem_of_nil in Hin|]. cbn [fields_decode] in Hd.
  destruct (Ascii.eqb m "."); cbn [String.length].
  - destruct (fields_decode j) as [l'|] eqn:Hj; [|done]. injection Hd as <-.
    apply elem_of_cons in Hin as [-> | Hin]; [cbn; lia|].
    specialize (IH (String.length j) ltac:(cbn; lia) j eq_refl l' s Hj Hin). lia.
  - destruct j as [|c j]; [done|]. destruct (fields_decode j) as [[|f l']|] eqn:Hj; [done| |done]. injection Hd as <-.
    apply elem_of_cons in Hin as [-> | Hin].
    + specialize (IH (String.length j) ltac:(cbn; lia) j eq_refl _ f Hj ltac:(apply elem_of_cons; by left)). cbn. lia.
    + specialize (IH (String.length j) ltac:(cbn; lia) j eq_refl _ s Hj ltac:(apply elem_of_cons; by right)). cbn. lia.
Qed.

#[export] Instance demo_event_laws : EventLaws.
Proof.
  split.
  - intros e _. unfold gjson_String, json_event, demo_event_json, demo_gjson, demo_event. by rewrite fields_roundtrip.
  - intros e0 e _ Hk. unfold json_over, json_event, demo_event_json, demo_over, demo_event. rewrite fields_roundtrip. cbn [app].
    by rewrite demo_roundtrip, detail_of_fields.
  - intros e0 j e. cbn. unfold demo_over. destruct (fields_decode j) as [l|]; [|done]. repeat case_match; try done.
    intros [= <-]. split_and!; [|done..]. by eapply detail_of_kind.
  - intros c e j Hd Hc. unfold ce_marshal, demo_event_json in Hc.
    match type of Hc with Ok ?x = _ => assert (j = x) as -> by congruence end.
    unfold gjson_String, ce_data, demo_event_json, demo_gjson. rewrite fields_roundtrip. cbn -[demo_event]. by rewrite Hd.
  - intros j d. cbn. destruct (fields_decode j) as [l|] eqn:Hj; [|done]. repeat case_match; try done.
    intros [= <-]. eapply fields_decode_shorter; [exact Hj|]. subst. set_solver.
Qed.

Definition demo_startup : res Event := New "id1" 1600000000 Startup [Component "server"; Identity "n1"; Version "0.29"].

Lemma accepted_events_typed_witness : ∃ j e, NewFromJSON "id2" 1 j = Ok e ∧ well_formed e.
Proof.
  set (j := match demo_startup with Ok e => json_event e | _ => "" end).
  destruct (is_ok_Ok (NewFromJSON "id2" 1 j)) as [e H]; [vm_compute; reflexivity|].
  exists j, e. split; [exact H|]. exact (proj1 (accepted_events_typed "id2" 1 j e H)).
Defined.

Lemma nesting_ends_witness : is_panic (NewFromJSON "id2" 1 "-C..") = false.
Proof.
  apply (nesting_ends "id2" 1 "-C..").
  - intros d s. cbn. unfold demo_over. repeat case_match; done.
  - intros s. cbn. repeat case_match; done.
Defined.

Lemma published_events_are_read_witness : ∃ e j,
  demo_startup = Ok e ∧ NewFromJSON "id2" 1 j = Ok (SetFormat CloudEventV1Format e).
Proof.
  destruct demo_startup as [e|?|?] eqn:H; [|discriminate H..].
  assert (plain_event e) as Hplain.
  { injection H as <-. split; [|split; [vm_compute; split; discriminate|exact I]].
    apply (bool_decide_eq_true_1 _). vm_compute. reflexivity. }
  assert (∀ s ty, detail e ≠ GovernorEvent "" s ty) as Hg by (injection H as <-; discriminate).
  assert ((PublishEvent (λ _ _, Ok tt) (SetFormat CloudEventV1Format e) []).2 = Ok tt) as Hp by (injection H as <-; vm_compute; reflexivity).
  destruct (published_events_are_read "id1" 1600000000 Startup [Component "server"; Identity "n1"; Version "0.29"] e
    CloudEventV1Format (λ _ _, Ok tt) [] (PublishEvent (λ _ _, Ok tt) (SetFormat CloudEventV1Format e) []).1 "id2" 1 H Hplain Hg)
    as (j & _ & Hj).
  - destruct (PublishEvent (λ _ _, Ok tt) (SetFormat CloudEventV1Format e) []) as [sent o]. cbn [fst snd] in *. by rewrite Hp.
  - exists e, j. split; [reflexivity|exact Hj].
Defined.
