(* ===== verification/Tally.v ===== *)
(** * The tally of lifecycle events

    lifecycle/tally: a recorder of the events of a network, which keeps what hosts of
    which components run, expires those that are silent and counts events by type.
    Gauges and counters are the metrics by name and labels; the summaries of run times
    are left out. *)
From S2P Require Import Prelude GoLib Lifecycle.

Record observation := { ob_ts : Z; ob_component : string; ob_version : string }.

Record Recorder := {
  rc_active : Z;
  rc_observed : gmap string (gmap string observation);
  rc_metrics : gmap (string * list string) Z;
}.

Record options := { op_Component : string; op_Connector : bool; op_StatPrefix : string; op_Election : string }.

Definition Validate (o : options) : res options :=
  if String.eqb (op_Component o) ">" then Err ("invalid component " +:+ op_Component o)
  else if negb (op_Connector o) then Err "needs a connector"
  else Ok (if String.eqb (op_StatPrefix o) ""
           then {| op_Component := op_Component o; op_Connector := op_Connector o; op_StatPrefix := "lifecycle_tally";
                   op_Election := op_Election o |}
           else o).

Definition New (o : options) : res (options * Recorder) :=
  o ← map_err (λ e, "invalid options supplied: " +:+ e) (Validate o);
  Ok (o, {| rc_active := if String.eqb (op_Election o) "" then 1 else 0; rc_observed := ∅; rc_metrics := ∅ |}).

Definition set_active (n : Z) (r : Recorder) : Recorder :=
  {| rc_active := n; rc_observed := rc_observed r; rc_metrics := rc_metrics r |}.
Definition set_observed (o : gmap string (gmap string observation)) (r : Recorder) : Recorder :=
  {| rc_active := rc_active r; rc_observed := o; rc_metrics := rc_metrics r |}.

Definition wonCb : Recorder → Recorder := set_active 1.
Definition lostCb : Recorder → Recorder := set_active 0.

Definition activeLabel (r : Recorder) : string := itoa (rc_active r).

(** [WithLabelValues(labels..., r.activeLabel())] with [Inc] and [Dec]. *)
Definition metric (name : string) (labels : list string) (r : Recorder) : Z := default 0%Z (rc_metrics r !! (name, labels)).
Definition add (name : string) (labels : list string) (n : Z) (r : Recorder) : Recorder :=
  let labels := labels ++ [activeLabel r] in
  {| rc_active := rc_active r; rc_observed := rc_observed r;
     rc_metrics := <[(name, labels) := (metric name labels r + n)%Z]> (rc_metrics r) |}.
Definition Inc (name : string) (labels : list string) : Recorder → Recorder := add name labels 1.
Definition Dec (name : string) (labels : list string) : Recorder → Recorder := add name labels (-1).

Definition hosts (r : Recorder) (component : string) : gmap string observation := default ∅ (rc_observed r !! component).

Definition observe (component host : string) (o : observation) (r : Recorder) : Recorder :=
  set_observed (<[component := <[host := o]> (hosts r component)]> (rc_observed r)) r.
Definition forget (component host : string) (r : Recorder) : Recorder :=
  set_observed (<[component := delete host (hosts r component)]> (rc_observed r)) r.

Definition versionsTally := "versions".

Definition processAlive (now : Z) (b : basicEvent) (version : string) (r : Recorder) : Recorder :=
  match hosts r (Comp b) !! Ident b with
  | None =>
      Inc versionsTally [Comp b; version]
        (observe (Comp b) (Ident b) {| ob_ts := now; ob_component := Comp b; ob_version := version |} r)
  | Some obs =>
      let r := observe (Comp b) (Ident b) {| ob_ts := now; ob_component := ob_component obs; ob_version := ob_version obs |} r in
      if String.eqb (ob_version obs) version then r
      else
        let r := Dec versionsTally [Comp b; ob_version obs] r in
        let r := observe (Comp b) (Ident b) {| ob_ts := now; ob_component := ob_component obs; ob_version := version |} r in
        Inc versionsTally [Comp b; version] r
  end.

Definition processStartup (now : Z) (b : basicEvent) (version : string) (r : Recorder) : Recorder :=
  let r := match hosts r (Comp b) !! Ident b with
           | Some obs => Dec versionsTally [Comp b; ob_version obs] r
           | None => r
           end in
  Inc versionsTally [Comp b; version]
    (observe (Comp b) (Ident b) {| ob_ts := now; ob_component := Comp b; ob_version := version |} r).

Definition processShutdown (b : basicEvent) (r : Recorder) : Recorder :=
  match hosts r (Comp b) !! Ident b with
  | None => r
  | Some obs => Dec versionsTally [Comp b; ob_version obs] (forget (Comp b) (Ident b) r)
  end.

Definition processGovernor (b : basicEvent) (governor event_type : string) : Recorder → Recorder :=
  Inc "governor" [Comp b; governor; event_type].

(** No handler fails. *)
Definition process (now : Z) (e : Event) (r : Recorder) : Recorder :=
  let b := basic e in
  let r := Inc "event_types" [Comp b; etype b] r in
  let r := match detail e with
           | AliveEvent v => processAlive now b v r
           | StartupEvent v => processStartup now b v r
           | ShutdownEvent => processShutdown b r
           | GovernorEvent g _ t => processGovernor b g t r
           | _ => r
           end in
  Inc "good_events" [Comp b] r.

(** Hosts not seen for 80 minutes are expired; the order of the hosts is that of the
    map. *)
Definition oldest (now : Z) : Z := (now - 80 * 60 * 1000000000)%Z.
Definition expired (now : Z) (o : observation) : bool := (ob_ts o <? oldest now)%Z.

Definition count_down (r : Recorder) (ho : string * observation) : Recorder :=
  Dec versionsTally [ob_component ho.2; ob_version ho.2] r.
Definition expire_host (component : string) (r : Recorder) (ho : string * observation) : Recorder :=
  Inc "nodes_expired" [ob_component ho.2] (forget component ho.1 r).

Definition maintain_component (now : Z) (r : Recorder) (component : string) : Recorder :=
  let older := List.filter (λ ho, expired now ho.2) (map_to_list (hosts r component)) in
  foldl (expire_host component) (foldl count_down r older) older.

Definition maintenance (now : Z) (r : Recorder) : Recorder :=
  foldl (maintain_component now) r (map fst (map_to_list (rc_observed r))).

(** ** Autonomous agents *)

Record TransitionNotification := {
  tn_Protocol : string;
  tn_Machine : string;
  tn_Version : string;
  tn_Transition : string;
  tn_FromState : string;
  tn_ToState : string;
}.

Record StateNotification := {
  sn_Machine : string;
  sn_Version : string;
  sn_Name : string;
  sn_PreviousOutcome : string;
}.

(** The messages machines and watchers publish, cloud events with their data. *)
Class NotificationJSON := {
  json_transition : string → res TransitionNotification;
  json_exec_state : string → res StateNotification;
}.

Section Run.
Context `{EJ : EventJSON} `{NJ : NotificationJSON}.

Definition processStateTransition (data : string) (r : Recorder) : res Recorder :=
  d ← map_err (λ e, "could not parse cloudevent: " +:+ e) (ce_data data);
  event ← map_err (λ e, "could not parse transition event: " +:+ e) (json_transition d);
  if negb (String.eqb (tn_Protocol event) "io.choria.machine.v1.transition") then
    Err ("unknown notification protocol " +:+ tn_Protocol event)
  else Ok (Inc "machine_transition" [tn_Machine event; tn_Version event; tn_Transition event; tn_FromState event;
                                     tn_ToState event] r).

Definition processExecWatcherState (data : string) (r : Recorder) : res Recorder :=
  d ← map_err (λ e, "could not parse cloudevent: " +:+ e) (ce_data data);
  event ← map_err (λ e, "could not parse state notification: " +:+ e) (json_exec_state d);
  let labels := [sn_Machine event; sn_Version event; sn_Name event] in
  if String.eqb (sn_PreviousOutcome event) "success" then Ok (Inc "exec_watcher_success" labels r)
  else if String.eqb (sn_PreviousOutcome event) "error" then Ok (Inc "exec_watcher_failures" labels r)
  else Ok r.

Definition componentFromSubject (s : string) : string := default "unknown" (last (split s ".")).

(** What the loop of [Run] receives. *)
Inductive message :=
| LifeEvent (now : Z) (id subject data : string)
| MachineTransition (data : string)
| ExecWatcherState (data : string)
| Maintenance (now : Z)
| Won
| Lost.

Definition errors_as (component : string) (o : res Recorder) (r : Recorder) : res Recorder :=
  match o with
  | Ok r' => Ok r'
  | Err _ => Ok (Inc "process_errors" [component] r)
  | Panic p => Panic p
  end.

Definition receive (m : message) (r : Recorder) : res Recorder :=
  match m with
  | LifeEvent now id subject data =>
      match NewFromJSON id now data with
      | Ok e => Ok (process now e r)
      | Err _ => Ok (Inc "process_errors" [componentFromSubject subject] r)
      | Panic p => Panic p
      end
  | MachineTransition data => errors_as "transition" (processStateTransition data r) r
  | ExecWatcherState data => errors_as "exec_watcher" (processExecWatcherState data r) r
  | Maintenance now => Ok (if decide (rc_observed r = ∅) then r else maintenance now r)
  | Won => Ok (wonCb r)
  | Lost => Ok (lostCb r)
  end.

Fixpoint Run (ms : list message) (r : Recorder) : res Recorder :=
  match ms with
  | [] => Ok r
  | m :: rest => r' ← receive m r; Run rest r'
  end.

End Run.

(** * Theorems on the tally of lifecycle events *)
From S2P Require Import DemoJSON.

(** ** Counting the hosts of a version *)

Definition runs (v : string) (ho : string * observation) : Prop := ob_version ho.2 = v.
#[export] Instance runs_dec v ho : Decision (runs v ho).
Proof. unfold runs. apply _. Defined.

Definition count (v : string) (m : gmap string observation) : Z := Z.of_nat (size (filter (runs v) m)).
Definition one (v : string) (o : option observation) : Z :=
  match o with Some o => if String.eqb (ob_version o) v then 1 else 0 | None => 0 end.

Lemma count_delete v m h : count v (delete h m) = (count v m - one v (m !! h))%Z.
Proof.
  unfold count. rewrite map_filter_delete. destruct (m !! h) as [o|] eqn:H; cbn.
  - destruct (String.eqb_spec (ob_version o) v) as [Hv|Hv].
    + assert (filter (runs v) m !! h = Some o) as Hf by (by apply map_lookup_filter_Some).
      assert (is_Some (filter (runs v) m !! h)) as Hs by eauto.
      pose proof (map_size_delete h (filter (runs v) m)) as ->. rewrite Hf.
      assert (size (filter (runs v) m) ≠ 0) by (intros Hz; apply map_size_empty_inv in Hz; rewrite Hz in Hf; done). lia.
    + rewrite delete_id; [lia|]. apply map_lookup_filter_None. right. intros x Hx. rewrite H in Hx. by injection Hx as <-.
  - rewrite delete_id; [lia|]. apply map_lookup_filter_None. by left.
Qed.

Lemma count_insert v m h o : count v (<[h := o]> m) = (count v m - one v (m !! h) + one v (Some o))%Z.
Proof.
  rewrite <- insert_delete_eq. rewrite <- count_delete. set (m' := delete h m).
  assert (m' !! h = None) as H by apply lookup_delete_eq.
  unfold count. rewrite map_filter_insert. cbn [one]. unfold runs at 1. cbn [snd].
  destruct (String.eqb_spec (ob_version o) v); case_decide; try done.
  - rewrite map_size_insert_None by (apply map_lookup_filter_None; by left). lia.
  - rewrite (delete_id m' h H). lia.
Qed.

(** ** What the operations do to gauges and hosts *)

Definition total (c v : string) (r : Recorder) : Z :=
  (metric versionsTally [c; v; "0"] r + metric versionsTally [c; v; "1"] r)%Z.
Definition known (c h : string) (r : Recorder) : option observation := hosts r c !! h.
Definition labelled (r : Recorder) : Prop := rc_active r = 0%Z ∨ rc_active r = 1%Z.

(** The gauges less the hosts they stand for. *)
Definition balance (c v : string) (r : Recorder) : Z := (total c v r - count v (hosts r c))%Z.
Definition hit (c c' : string) (n : Z) : Z := if String.eqb c c' then n else 0%Z.

Lemma hosts_add name l n r c : hosts (add name l n r) c = hosts r c.
Proof. done. Qed.
Lemma known_add name l n r c h : known c h (add name l n r) = known c h r.
Proof. done. Qed.

Lemma hosts_observe c c' h o r :
  hosts (observe c h o r) c' = if String.eqb c c' then <[h := o]> (hosts r c) else hosts r c'.
Proof.
  unfold observe, hosts, set_observed. cbn. destruct (String.eqb_spec c c') as [<-|Hne].
  - by rewrite lookup_insert_eq.
  - by rewrite lookup_insert_ne.
Qed.

Lemma hosts_forget c c' h r :
  hosts (forget c h r) c' = if String.eqb c c' then delete h (hosts r c) else hosts r c'.
Proof.
  unfold forget, hosts, set_observed. cbn. destruct (String.eqb_spec c c') as [<-|Hne].
  - by rewrite lookup_insert_eq.
  - by rewrite lookup_insert_ne.
Qed.

Lemma metric_add name l n r name' l' :
  metric name' l' (add name l n r) =
  (metric name' l' r + if bool_decide ((name, l ++ [activeLabel r]) = (name', l')) then n else 0)%Z.
Proof.
  unfold metric at 1, add. cbn. case_bool_decide as H.
  - injection H as <- <-. by rewrite lookup_insert_eq.
  - rewrite lookup_insert_ne by done. unfold metric. lia.
Qed.

Lemma total_versions c c' v v' n r : labelled r →
  total c' v' (add versionsTally [c; v] n r) = (total c' v' r + if String.eqb c c' && String.eqb v v' then n else 0)%Z.
Proof.
  intros Hl. unfold total. rewrite !metric_add. unfold activeLabel. cbn.
  assert (itoa (rc_active r) = "0" ∨ itoa (rc_active r) = "1") as Ha by (destruct Hl as [-> | ->]; [by left|by right]).
  destruct (String.eqb_spec c c') as [<-|Hc], (String.eqb_spec v v') as [<-|Hv]; cbn;
    destruct Ha as [-> | ->]; repeat (case_bool_decide; simplify_eq); lia.
Qed.

Lemma total_other c v name l n r : name ≠ versionsTally → total c v (add name l n r) = total c v r.
Proof. intros Hn. unfold total. rewrite !metric_add. repeat (case_bool_decide; [congruence|]). lia. Qed.

Lemma balance_versions c c' v v' n r : labelled r →
  balance c' v' (add versionsTally [c; v] n r) = (balance c' v' r + hit c c' (if String.eqb v v' then n else 0))%Z.
Proof. intros Hl. unfold balance, hit. rewrite total_versions, hosts_add by done. destruct (String.eqb c c'); cbn; lia. Qed.

Lemma balance_other c v name l n r : name ≠ versionsTally → balance c v (add name l n r) = balance c v r.
Proof. intros Hn. unfold balance. by rewrite total_other, hosts_add. Qed.

Lemma balance_observe c c' v h o r :
  balance c' v (observe c h o r) = (balance c' v r + hit c c' (one v (known c h r) - one v (Some o)))%Z.
Proof.
  unfold balance, hit, known. change (total c' v (observe c h o r)) with (total c' v r). rewrite hosts_observe.
  destruct (String.eqb_spec c c') as [<-|]; [rewrite count_insert|]; lia.
Qed.

Lemma balance_forget c c' v h r :
  balance c' v (forget c h r) = (balance c' v r + hit c c' (one v (known c h r)))%Z.
Proof.
  unfold balance, hit, known. change (total c' v (forget c h r)) with (total c' v r). rewrite hosts_forget.
  destruct (String.eqb_spec c c') as [<-|]; [rewrite count_delete|]; lia.
Qed.

Lemma known_observe c c' h h' o r :
  known c' h' (observe c h o r) = if String.eqb c c' && String.eqb h h' then Some o else known c' h' r.
Proof.
  unfold known. rewrite hosts_observe. destruct (String.eqb_spec c c') as [<-|]; [|done]. cbn.
  destruct (String.eqb_spec h h') as [<-|]; [apply lookup_insert_eq|by apply lookup_insert_ne].
Qed.

Lemma known_forget c c' h h' r :
  known c' h' (forget c h r) = if String.eqb c c' && String.eqb h h' then None else known c' h' r.
Proof.
  unfold known. rewrite hosts_forget. destruct (String.eqb_spec c c') as [<-|]; [|done]. cbn.
  destruct (String.eqb_spec h h') as [<-|]; [apply lookup_delete_eq|by apply lookup_delete_ne].
Qed.

(** ** The invariant *)

Record tallied (r : Recorder) : Prop := {
  tl_labelled : labelled r;
  tl_component : ∀ c h o, known c h r = Some o → ob_component o = c;
  tl_balance : ∀ c v, balance c v r = 0%Z;
}.

Definition components (r : Recorder) : Prop := ∀ c h o, known c h r = Some o → ob_component o = c.

Lemma components_observe c h o r : components r → ob_component o = c → components (observe c h o r).
Proof.
  intros Hc Ho c' h' o'. rewrite known_observe. destruct (_ && _) eqn:E; [|apply Hc].
  intros [= <-]. apply andb_true_iff in E as [E _]. apply String.eqb_eq in E. by rewrite <- E.
Qed.

Lemma components_forget c h r : components r → components (forget c h r).
Proof. intros Hc c' h' o'. rewrite known_forget. destruct (_ && _); [done|apply Hc]. Qed.

(** What remains of a balance after gauges and hosts changed together. *)
Ltac settle :=
  unfold hit; cbn [one ob_version];
  repeat match goal with |- context [if String.eqb ?a ?b then _ else _] => destruct (String.eqb a b); cbn iota end; lia.

Lemma processStartup_tallied now b version r : tallied r → tallied (processStartup now b version r).
Proof.
  intros [Hl Hc Hb]. unfold processStartup, Inc, Dec. destruct (hosts r _ !! _) as [obs|] eqn:Ho; split; try done.
  - by apply components_observe.
  - intros c v. rewrite balance_versions, balance_observe, balance_versions, known_add, Hb by done. unfold known. rewrite Ho. settle.
  - by apply components_observe.
  - intros c v. rewrite balance_versions, balance_observe, Hb by done. unfold known. rewrite Ho. settle.
Qed.

Lemma processShutdown_tallied b r : tallied r → tallied (processShutdown b r).
Proof.
  intros [Hl Hc Hb]. unfold processShutdown, Dec. destruct (hosts r _ !! _) as [obs|] eqn:Ho; [|by split]. split; [done| |].
  - by apply components_forget.
  - intros c v. rewrite balance_versions, balance_forget, Hb by done. unfold known. rewrite Ho. settle.
Qed.

Lemma processAlive_tallied now b version r : tallied r → tallied (processAlive now b version r).
Proof.
  intros [Hl Hc Hb]. unfold processAlive, Inc, Dec. destruct (hosts r _ !! _) as [obs|] eqn:Ho.
  - assert (ob_component obs = Comp b) as Hoc by (by eapply Hc).
    destruct (String.eqb_spec (ob_version obs) version) as [Heq|Hne]; split; try done.
    + by apply components_observe.
    + intros c v. rewrite balance_observe, Hb. unfold known. rewrite Ho. settle.
    + apply components_observe; [|done]. by apply components_observe.
    + intros c v. rewrite balance_versions, balance_observe, balance_versions, known_add, known_observe, balance_observe, Hb by done.
      rewrite !String.eqb_refl. cbn [andb]. unfold known. rewrite Ho. settle.
  - split; [done| |].
    + by apply components_observe.
    + intros c v. rewrite balance_versions, balance_observe, Hb by done. unfold known. rewrite Ho. settle.
Qed.

Lemma add_tallied name l n r : name ≠ versionsTally → tallied r → tallied (add name l n r).
Proof. intros Hn [Hl Hc Hb]. split; [done|done|]. intros c v. by rewrite balance_other. Qed.

Lemma process_event_tallied now e r : tallied r → tallied (process now e r).
Proof.
  intros Hr. unfold process, Inc. apply add_tallied; [done|].
  assert (tallied (add "event_types" [Comp (basic e); etype (basic e)] 1 r)) as H by by apply add_tallied.
  destruct (detail e); try done.
  - by apply processStartup_tallied.
  - by apply processShutdown_tallied.
  - by apply processAlive_tallied.
  - by apply add_tallied.
Qed.

(** ** Maintenance *)

Definition sum (v : string) (l : list (string * observation)) : Z := foldr (λ ho n, (one v (Some ho.2) + n)%Z) 0%Z l.

Lemma count_down_balance c c' v l r : labelled r → (∀ h o, (h, o) ∈ l → ob_component o = c) →
  balance c' v (foldl count_down r l) = (balance c' v r - hit c c' (sum v l))%Z ∧ labelled (foldl count_down r l) ∧
  hosts (foldl count_down r l) = hosts r.
Proof.
  revert r. induction l as [|[h o] l IH]; intros r Hl Hc; cbn [foldl].
  { split_and!; [|done..]. unfold hit. cbn. destruct (String.eqb _ _); lia. }
  destruct (IH (count_down r (h, o))) as (-> & Hl' & Hh); [done|by intros h' o' Hin; apply (Hc h' o'), elem_of_cons; right|].
  split_and!; [|done|done]. unfold count_down, Dec. cbn [snd]. rewrite (Hc h o) by (apply elem_of_cons; by left).
  rewrite balance_versions by done. cbn [sum foldr snd]. fold (sum v l). settle.
Qed.

Lemma expire_host_balance c c' v l r : NoDup (map fst l) → (∀ h o, (h, o) ∈ l → known c h r = Some o) →
  balance c' v (foldl (expire_host c) r l) = (balance c' v r + hit c c' (sum v l))%Z ∧
  rc_active (foldl (expire_host c) r l) = rc_active r ∧
  ∀ h, known c' h (foldl (expire_host c) r l) = if String.eqb c c' && elem h (map fst l) then None else known c' h r.
Proof.
  revert r. induction l as [|[h o] l IH]; intros r Hnd Hk; cbn [foldl].
  { split_and!; [|done|]. { unfold hit. cbn. destruct (String.eqb _ _); lia. } intros h. by rewrite andb_false_r. }
  cbn in Hnd. apply NoDup_cons in Hnd as [Hnew Hnd].
  destruct (IH (expire_host c r (h, o)) Hnd) as (-> & -> & Hk').
  { intros h' o' Hin. unfold expire_host, Inc. rewrite known_add, known_forget. destruct (_ && _) eqn:E.
    - apply andb_true_iff in E as [_ E]. apply String.eqb_eq in E. cbn in E. subst h'. destruct Hnew.
      apply list_elem_of_fmap. by exists (h, o').
    - apply Hk, elem_of_cons. by right. }
  split_and!; [|done|].
  - unfold expire_host, Inc. cbn [fst snd]. rewrite balance_other, balance_forget by done.
    rewrite (Hk h o) by (apply elem_of_cons; by left). cbn [sum foldr snd]. fold (sum v l). settle.
  - intros h'. rewrite Hk'. unfold expire_host, Inc. rewrite known_add, known_forget. cbn.
    destruct (String.eqb c c') eqn:Ec; [|done]. cbn. unfold elem. cbn.
    destruct (existsb _ (map fst l)); rewrite ?orb_true_r; [done|].
    destruct (String.eqb_spec h h') as [<-|Hne]; case_bool_decide; done.
Qed.

(** What maintenance keeps of a host. *)
Definition kept (now : Z) (o : option observation) : option observation :=
  match o with Some o => if expired now o then None else Some o | None => None end.

Lemma older_spec now c h r :
  elem h (map fst (List.filter (λ ho, expired now ho.2) (map_to_list (hosts r c)))) =
  match known c h r with Some o => expired now o | None => false end.
Proof.
  apply eq_true_iff_eq. rewrite elem_true. unfold known. split.
  - intros ((h' & o) & -> & Hin)%list_elem_of_fmap. apply list_elem_of_In, List.filter_In in Hin as [Hin He].
    apply list_elem_of_In, elem_of_map_to_list in Hin. cbn in *. by rewrite Hin.
  - destruct (hosts r c !! h) as [o|] eqn:Ho; [|done]. intros He. apply list_elem_of_fmap. exists (h, o). split; [done|].
    apply list_elem_of_In, List.filter_In. split; [|done]. by apply list_elem_of_In, elem_of_map_to_list.
Qed.

Lemma filter_NoDup_fst {A} (f : string * A → bool) (l : list (string * A)) : NoDup (map fst l) → NoDup (map fst (List.filter f l)).
Proof.
  induction l as [|[h o] l IH]; [done|]. cbn. intros [Hn Hl]%NoDup_cons. destruct (f (h, o)); [|by apply IH].
  cbn. apply NoDup_cons. split; [|by apply IH]. intros Hin. apply Hn.
  apply list_elem_of_fmap in Hin as ((h' & o') & -> & Hin). apply list_elem_of_fmap. exists (h', o'). split; [done|].
  apply list_elem_of_In in Hin. apply List.filter_In in Hin as [Hin _]. by apply list_elem_of_In.
Qed.

Lemma maintain_component_spec now c r : tallied r →
  tallied (maintain_component now r c) ∧
  ∀ c' h, known c' h (maintain_component now r c) = if String.eqb c c' then kept now (known c' h r) else known c' h r.
Proof.
  intros [Hl Hc Hb]. unfold maintain_component. set (older := List.filter _ _).
  assert (∀ h o, (h, o) ∈ older → known c h r = Some o) as Hk.
  { intros h o Hin. apply list_elem_of_In, List.filter_In in Hin as [Hin _]. by apply list_elem_of_In, elem_of_map_to_list in Hin. }
  assert (NoDup (map fst older)) as Hnd by (apply filter_NoDup_fst, NoDup_fst_map_to_list).
  assert (∀ h o, (h, o) ∈ older → ob_component o = c) as Hoc by (intros h o Hin; eapply Hc; eauto).
  assert (hosts (foldl count_down r older) = hosts r ∧ labelled (foldl count_down r older)) as [Hh Hl'].
  { destruct (count_down_balance c c "" older r Hl Hoc) as (_ & ? & ?). by split. }
  assert (∀ h o, (h, o) ∈ older → known c h (foldl count_down r older) = Some o) as Hk'
    by (intros h o Hin; unfold known; rewrite Hh; by apply Hk).
  assert (∀ c' h, known c' h (foldl (expire_host c) (foldl count_down r older) older) =
                  if String.eqb c c' then kept now (known c' h r) else known c' h r) as Hknown.
  { intros c' h. destruct (expire_host_balance c c' "" older _ Hnd Hk') as (_ & _ & ->).
    pose proof (older_spec now c h r) as Ho. fold older in Ho. rewrite Ho. unfold known. rewrite Hh. destruct (String.eqb_spec c c') as [<-|]; [|done]. cbn.
    unfold kept. destruct (hosts r c !! h) as [o|]; [|done]. by destruct (expired now o). }
  split; [|exact Hknown]. split.
  - unfold labelled. by destruct (expire_host_balance c c "" older _ Hnd Hk') as (_ & -> & _).
  - intros c' h o. rewrite Hknown. destruct (String.eqb c c'); [|by apply Hc]. unfold kept.
    destruct (known c' h r) as [o'|] eqn:Ho; [|done]. destruct (expired now o'); [done|]. intros [= <-]. by eapply Hc.
  - intros c' v. destruct (expire_host_balance c c' v older _ Hnd Hk') as (-> & _ & _).
    destruct (count_down_balance c c' v older r Hl Hoc) as (-> & _ & _). rewrite Hb. lia.
Qed.

Lemma maintain_components_spec now cs r : tallied r →
  tallied (foldl (maintain_component now) r cs) ∧
  ∀ c h, known c h (foldl (maintain_component now) r cs) = if elem c cs then kept now (known c h r) else known c h r.
Proof.
  revert r. induction cs as [|c0 cs IH]; intros r Hr; [done|]. cbn [foldl].
  destruct (maintain_component_spec now c0 r Hr) as [Hr0 Hk0]. destruct (IH _ Hr0) as [Hr' Hk]. split; [done|].
  intros c h. rewrite Hk, Hk0. unfold elem. cbn. destruct (String.eqb_spec c0 c) as [<-|Hne].
  - rewrite bool_decide_true by done. cbn. destruct (existsb _ cs); [|done].
    unfold kept. destruct (known c0 h r) as [o|]; [|done]. destruct (expired now o) eqn:He; [done|by rewrite He].
  - by rewrite bool_decide_false.
Qed.

Lemma maintenance_spec now r : tallied r →
  tallied (maintenance now r) ∧ ∀ c h, known c h (maintenance now r) = kept now (known c h r).
Proof.
  intros Hr. unfold maintenance. destruct (maintain_components_spec now (map fst (map_to_list (rc_observed r))) r Hr) as [Hr' Hk].
  split; [done|]. intros c h. rewrite Hk. destruct (elem c _) eqn:He; [done|].
  assert (rc_observed r !! c = None) as Hnone.
  { destruct (rc_observed r !! c) as [m|] eqn:Hm; [|done]. apply elem_false in He. destruct He. apply list_elem_of_fmap.
    exists (c, m). split; [done|]. by apply elem_of_map_to_list. }
  unfold known, hosts. by rewrite Hnone.
Qed.

(** ** One host on its own

    What a recorder should know of one host of one component: the time and version of
    the last event that reported it, unless it stopped since or was silent too long. *)

Section Spec.
Context `{EJ : EventJSON} `{NJ : NotificationJSON}.

Definition host_event (now : Z) (e : Event) (s : option (Z * string)) : option (Z * string) :=
  match detail e with
  | AliveEvent v | StartupEvent v => Some (now, v)
  | ShutdownEvent => None
  | _ => s
  end.

Definition host_step (c h : string) (m : message) (s : option (Z * string)) : option (Z * string) :=
  match m with
  | LifeEvent now id subject data =>
      match NewFromJSON id now data with
      | Ok e => if String.eqb (Comp (basic e)) c && String.eqb (Ident (basic e)) h then host_event now e s else s
      | _ => s
      end
  | Maintenance now => match s with Some (ts, _) => if (ts <? oldest now)%Z then None else s | None => None end
  | _ => s
  end.

Definition seen (c h : string) (r : Recorder) : option (Z * string) := (λ o, (ob_ts o, ob_version o)) <$> known c h r.

Lemma process_seen now e r c h :
  seen c h (process now e r) =
  if String.eqb (Comp (basic e)) c && String.eqb (Ident (basic e)) h then host_event now e (seen c h r) else seen c h r.
Proof.
  unfold process, Inc, seen. rewrite known_add. set (r0 := add "event_types" _ 1 r).
  change (known c h r) with (known c h r0). clearbody r0. unfold host_event.
  destruct (detail e); try by destruct (_ && _).
  - unfold processStartup, Inc, Dec. destruct (hosts r0 _ !! _); rewrite known_add, known_observe; by destruct (_ && _).
  - unfold processShutdown, Dec. destruct (hosts r0 _ !! _) eqn:Ho.
    + rewrite known_add, known_forget. by destruct (_ && _).
    + destruct (_ && _) eqn:E; [|done]. apply andb_true_iff in E as [Ec Eh].
      apply String.eqb_eq in Ec as <-. apply String.eqb_eq in Eh as <-. unfold known. by rewrite Ho.
  - unfold processAlive, Inc, Dec. destruct (hosts r0 _ !! _) as [obs|].
    + destruct (String.eqb_spec (ob_version obs) version) as [<-|];
        rewrite ?known_add, ?known_observe, ?known_add, ?known_observe; by destruct (_ && _).
    + rewrite known_add, known_observe. by destruct (_ && _).
Qed.

Lemma receive_spec m r r' : tallied r → receive m r = Ok r' →
  tallied r' ∧ ∀ c h, seen c h r' = host_step c h m (seen c h r).
Proof.
  intros Hr Hm. pose proof Hr as [Hl Hc Hb]. destruct m as [now id subject data|data|data|now| |]; cbn [receive] in Hm.
  - cbn [host_step]. destruct (NewFromJSON id now data) as [e|?|?]; simplify_eq.
    + split; [by apply process_event_tallied|]. intros c h. apply process_seen.
    + split; [by apply add_tallied|done].
  - unfold errors_as, processStateTransition, mbind, outcome_bind in Hm.
    repeat case_match; simplify_eq; (split; [first [by apply add_tallied|done]|done]).
  - unfold errors_as, processExecWatcherState, mbind, outcome_bind in Hm.
    repeat case_match; simplify_eq; (split; [first [by apply add_tallied|done]|done]).
  - injection Hm as <-. unfold seen. cbn [host_step]. case_decide as He.
    + split; [done|]. intros c h. unfold known, hosts. by rewrite He, lookup_empty.
    + destruct (maintenance_spec now r Hr) as [Hr' Hk]. split; [done|]. intros c h. rewrite Hk.
      destruct (known c h r) as [o|]; [|done]. cbn. unfold expired. by destruct (ob_ts o <? oldest now)%Z.
  - injection Hm as <-. split; [|done]. split; [by right|exact Hc|exact Hb].
  - injection Hm as <-. split; [|done]. split; [by left|exact Hc|exact Hb].
Qed.

(** C28. The recorder of lifecycle events refines one small automaton for every host, which
    forgets it when it stops or was not seen for 80 minutes: whatever messages it receives,
    in whatever order, malformed ones included, and however leadership comes and goes, it
    knows of every host exactly what the host's automaton knows, and for every component
    and version the gauges of both labels add up to the number of hosts it knows to run
    that version. *)
Theorem recorder_refines (o o' : options) (ms : list message) (r0 r : Recorder) :
  New o = Ok (o', r0) → Run ms r0 = Ok r →
  (∀ c h, seen c h r = foldl (λ s m, host_step c h m s) None ms) ∧
  ∀ c v, total c v r = Z.of_nat (size (filter (runs v) (hosts r c))).
Proof.
  intros Hn Hr. unfold New in Hn. destruct (map_err _ _) as [o1|?|?]; [|done..]. injection Hn as -> <-.
  assert (∀ ms r0 r, tallied r0 → Run ms r0 = Ok r →
    tallied r ∧ ∀ c h, seen c h r = foldl (λ s m, host_step c h m s) (seen c h r0) ms) as Hrun.
  { clear. induction ms as [|m ms IH]; intros r0 r Hr0 Hr; [by injection Hr as <-|]. cbn [Run] in Hr. unfold mbind, outcome_bind in Hr.
    destruct (receive m r0) as [r1|?|?] eqn:Hm; [|done..]. destruct (receive_spec _ _ _ Hr0 Hm) as [Hr1 Hs].
    destruct (IH _ _ Hr1 Hr) as [Ht Hs']. split; [done|]. intros c h. rewrite Hs'. cbn. by rewrite Hs. }
  apply Hrun in Hr as [[_ _ Hb] Hs].
  2: { split; [|done|done]. unfold labelled. cbn. destruct (String.eqb _ _); [by right|by left]. }
  split; [exact Hs|]. intros c v. specialize (Hb c v). unfold balance, count in Hb. lia.
Qed.

End Spec.

#[export] Instance demo_notifications : NotificationJSON :=
  {| json_transition := λ _, Err "json"; json_exec_state := λ _, Err "json" |}.

Definition demo_report (t : EventType) (host version : string) : string :=
  match Lifecycle.New "id" 0 t [Component "server"; Identity host; Version version] with Ok e => json_event e | _ => "" end.
Definition demo_messages : list message :=
  [LifeEvent 1 "a" "s" (demo_report Startup "n1" "0.28"); LifeEvent 2 "b" "s" (demo_report Alive "n2" "0.29"); Won;
   LifeEvent 3 "c" "s" (demo_report Alive "n1" "0.29"); LifeEvent 4 "d" "s" "garbage"].

Lemma recorder_refines_witness : ∃ r, Run demo_messages {| rc_active := 0; rc_observed := ∅; rc_metrics := ∅ |} = Ok r ∧
  total "server" "0.29" r = 2%Z.
Proof.
  destruct (is_ok_Ok (Run demo_messages {| rc_active := 0; rc_observed := ∅; rc_metrics := ∅ |})) as [r Hr];
    [vm_compute; reflexivity|].
  exists r. split; [exact Hr|].
  destruct (recorder_refines {| op_Component := "server"; op_Connector := true; op_StatPrefix := "tally"; op_Election := "e" |}
    _ demo_messages _ r eq_refl Hr) as [_ Ht].
  rewrite Ht. assert ((r ← Run demo_messages {| rc_active := 0; rc_observed := ∅; rc_metrics := ∅ |};
    Ok (Z.of_nat (size (filter (runs "0.29") (hosts r "server"))))) = Ok 2%Z) as Hsize by (vm_compute; reflexivity).
  rewrite Hr in Hsize. by injection Hsize.
Defined.

(** A single label drifts: the host counted while the recorder did not lead is taken off
    the gauge of the leader. *)
Example one_label_drifts : (r ← Run demo_messages {| rc_active := 0; rc_observed := ∅; rc_metrics := ∅ |};
  Ok (metric versionsTally ["server"; "0.28"; "0"] r, metric versionsTally ["server"; "0.28"; "1"] r)) = Ok (1, -1)%Z.
Proof. vm_compute. reflexivity. Qed.
