(* ===== verification/RpcOptions.v ===== *)
(** * Statistics of RPC requests

    providers/agent/mcorpc/client/nodelist.go, stats.go and util.go: who is still
    awaited, who answered though nobody asked, how many answers were good, and the
    batches of a request. Times are in nanoseconds, [None] is the zero time; counters are
    not wrapped at 32 bits. *)
From S2P Require Import Prelude GoLib.

(** ** Lists of nodes *)

Definition NodeList : Type := gset string.

Definition AddHosts (hosts : list string) (n : NodeList) : NodeList := foldl (λ n h, {[h]} ∪ n) n hosts.
Definition Count (n : NodeList) : nat := size n.
Definition Hosts (n : NodeList) : list string := elements n.
Definition DeleteIfKnown (host : string) (n : NodeList) : NodeList * bool :=
  if bool_decide (host ∈ n) then (n ∖ {[host]}, true) else (n, false).
Definition Have (host : string) (n : NodeList) : bool := bool_decide (host ∈ n).
Definition HaveAny (hosts : list string) (n : NodeList) : bool := existsb (λ h, Have h n) hosts.

(** ** Statistics *)

Record Stats := {
  st_RequestID : string;
  st_discoveredNodes : list string;
  st_outstandingNodes : NodeList;
  st_unexpectedRespones : NodeList;
  st_responses : Z;
  st_passed : Z;
  st_failed : Z;
  st_start : option Z;
  st_end : option Z;
  st_publishStart : option Z;
  st_publishTotal : Z;
  st_publishing : bool;
  st_discoveryStart : option Z;
  st_discoveryEnd : option Z;
  st_agent : string;
  st_action : string;
}.

Definition NewStats : Stats :=
  {| st_RequestID := ""; st_discoveredNodes := []; st_outstandingNodes := ∅; st_unexpectedRespones := ∅;
     st_responses := 0; st_passed := 0; st_failed := 0; st_start := None; st_end := None; st_publishStart := None;
     st_publishTotal := 0; st_publishing := false; st_discoveryStart := None; st_discoveryEnd := None; st_agent := "";
     st_action := "" |}.

Definition with_nodes (discovered : list string) (outstanding unexpected : NodeList) (s : Stats) : Stats :=
  {| st_RequestID := st_RequestID s; st_discoveredNodes := discovered; st_outstandingNodes := outstanding;
     st_unexpectedRespones := unexpected; st_responses := st_responses s; st_passed := st_passed s;
     st_failed := st_failed s; st_start := st_start s; st_end := st_end s; st_publishStart := st_publishStart s;
     st_publishTotal := st_publishTotal s; st_publishing := st_publishing s; st_discoveryStart := st_discoveryStart s;
     st_discoveryEnd := st_discoveryEnd s; st_agent := st_agent s; st_action := st_action s |}.

Definition with_counts (responses passed failed : Z) (s : Stats) : Stats :=
  {| st_RequestID := st_RequestID s; st_discoveredNodes := st_discoveredNodes s; st_outstandingNodes := st_outstandingNodes s;
     st_unexpectedRespones := st_unexpectedRespones s; st_responses := responses; st_passed := passed;
     st_failed := failed; st_start := st_start s; st_end := st_end s; st_publishStart := st_publishStart s;
     st_publishTotal := st_publishTotal s; st_publishing := st_publishing s; st_discoveryStart := st_discoveryStart s;
     st_discoveryEnd := st_discoveryEnd s; st_agent := st_agent s; st_action := st_action s |}.

Definition with_times (start end_ dstart dend : option Z) (s : Stats) : Stats :=
  {| st_RequestID := st_RequestID s; st_discoveredNodes := st_discoveredNodes s; st_outstandingNodes := st_outstandingNodes s;
     st_unexpectedRespones := st_unexpectedRespones s; st_responses := st_responses s; st_passed := st_passed s;
     st_failed := st_failed s; st_start := start; st_end := end_; st_publishStart := st_publishStart s;
     st_publishTotal := st_publishTotal s; st_publishing := st_publishing s; st_discoveryStart := dstart;
     st_discoveryEnd := dend; st_agent := st_agent s; st_action := st_action s |}.

Definition with_publish (start : option Z) (total : Z) (publishing : bool) (s : Stats) : Stats :=
  {| st_RequestID := st_RequestID s; st_discoveredNodes := st_discoveredNodes s; st_outstandingNodes := st_outstandingNodes s;
     st_unexpectedRespones := st_unexpectedRespones s; st_responses := st_responses s; st_passed := st_passed s;
     st_failed := st_failed s; st_start := st_start s; st_end := st_end s; st_publishStart := start;
     st_publishTotal := total; st_publishing := publishing; st_discoveryStart := st_discoveryStart s;
     st_discoveryEnd := st_discoveryEnd s; st_agent := st_agent s; st_action := st_action s |}.

Definition with_names (id agent action : string) (s : Stats) : Stats :=
  {| st_RequestID := id; st_discoveredNodes := st_discoveredNodes s; st_outstandingNodes := st_outstandingNodes s;
     st_unexpectedRespones := st_unexpectedRespones s; st_responses := st_responses s; st_passed := st_passed s;
     st_failed := st_failed s; st_start := st_start s; st_end := st_end s; st_publishStart := st_publishStart s;
     st_publishTotal := st_publishTotal s; st_publishing := st_publishing s; st_discoveryStart := st_discoveryStart s;
     st_discoveryEnd := st_discoveryEnd s; st_agent := agent; st_action := action |}.

Definition All (s : Stats) : bool := Nat.eqb (Count (st_outstandingNodes s)) 0.
Definition NoResponseFrom (s : Stats) : list string := Hosts (st_outstandingNodes s).
Definition UnexpectedResponseFrom (s : Stats) : list string := Hosts (st_unexpectedRespones s).
Definition WaitingFor (nodes : list string) (s : Stats) : bool := HaveAny nodes (st_outstandingNodes s).

Definition SetDiscoveredNodes (nodes : list string) (s : Stats) : Stats :=
  with_nodes nodes (AddHosts nodes ∅) (st_unexpectedRespones s) s.

Definition FailedRequestInc (s : Stats) : Stats := with_counts (st_responses s) (st_passed s) (st_failed s + 1) s.
Definition PassedRequestInc (s : Stats) : Stats := with_counts (st_responses s) (st_passed s + 1) (st_failed s) s.

Definition RecordReceived (sender : string) (s : Stats) : Stats :=
  let s := with_counts (st_responses s + 1) (st_passed s) (st_failed s) s in
  let '(outstanding, known) := DeleteIfKnown sender (st_outstandingNodes s) in
  with_nodes (st_discoveredNodes s) outstanding
    (if known then st_unexpectedRespones s else AddHosts [sender] (st_unexpectedRespones s)) s.

Definition StartPublish (now : Z) (s : Stats) : Stats :=
  if st_publishing s then s else with_publish (Some now) (st_publishTotal s) true s.

Definition EndPublish (now : Z) (s : Stats) : Stats :=
  if negb (st_publishing s) then s
  else with_publish (st_publishStart s) (st_publishTotal s + (now - default 0 (st_publishStart s)))%Z false s.

Definition PublishDuration (s : Stats) : res Z :=
  if (st_publishTotal s =? 0)%Z || st_publishing s then Err "publishing is not completed" else Ok (st_publishTotal s).

Definition duration (err : string) (a b : option Z) : res Z :=
  match a, b with Some a, Some b => Ok (b - a)%Z | _, _ => Err err end.
Definition RequestDuration (s : Stats) : res Z := duration "request is not completed" (st_start s) (st_end s).
Definition DiscoveryDuration (s : Stats) : res Z :=
  duration "discovery was not performed" (st_discoveryStart s) (st_discoveryEnd s).

Definition once (now : Z) (t : option Z) : option Z := match t with None => Some now | _ => t end.
Definition Start (now : Z) (s : Stats) : Stats :=
  with_times (once now (st_start s)) (st_end s) (st_discoveryStart s) (st_discoveryEnd s) s.
Definition End_ (now : Z) (s : Stats) : Stats :=
  with_times (st_start s) (once now (st_end s)) (st_discoveryStart s) (st_discoveryEnd s) s.
Definition StartDiscover (now : Z) (s : Stats) : Stats :=
  with_times (st_start s) (st_end s) (once now (st_discoveryStart s)) (st_discoveryEnd s) s.
Definition EndDiscover (now : Z) (s : Stats) : Stats :=
  with_times (st_start s) (st_end s) (st_discoveryStart s) (once now (st_discoveryEnd s)) s.
Definition OverrideDiscoveryTime (start end_ : Z) (s : Stats) : Stats :=
  with_times (st_start s) (st_end s) (Some start) (Some end_) s.

(** The statistics of a batch enter those of the request; the error is that of the time
    publishing took. *)
Definition Merge (other s : Stats) : Stats * res () :=
  let answered := if All other then st_discoveredNodes other
                  else List.filter (λ n, negb (Have n (st_outstandingNodes other))) (st_discoveredNodes other) in
  let s := foldl (λ s n, RecordReceived n s) s answered in
  let s := with_nodes (st_discoveredNodes s) (st_outstandingNodes s)
             (AddHosts (UnexpectedResponseFrom other) (st_unexpectedRespones s)) s in
  let s := with_counts (st_responses s) (st_passed s + st_passed other) (st_failed s + st_failed other) s in
  match PublishDuration other with
  | Ok d => (with_publish (st_publishStart s) (st_publishTotal s + d) (st_publishing s) s, Ok tt)
  | Err e => (s, Err e)
  | Panic p => (s, Panic p)
  end.

(** ** Batches *)

(** [int(math.Ceil(float64(n) / float64(size)))]: the integer quotient rounded up, below
    2^53 nodes; by zero it is infinite or not a number, and the smallest integer. *)
Definition group_quotient (n : nat) (size : Z) : Z :=
  if (size =? 0)%Z then int64_min else (- (Z.of_nat n / - size))%Z.
Definition group_total (n : nat) (size : Z) : nat := Z.to_nat (group_quotient n size).

Section Groups.
Context {W : Type}.

Fixpoint groups_from (set : list string) (size : nat) (k : nat) (f : list string → ST W string ()) (i : nat) : ST W string () :=
  match k with
  | 0 => mret tt
  | S k => f (take size (drop (i * size) set));; groups_from set size k f (S i)
  end.

Definition InGroups (set : list string) (size : Z) (f : list string → ST W string ()) : ST W string () :=
  groups_from set (Z.to_nat size) (group_total (length set) size) f 0.

End Groups.

(** * Options of RPC requests

    providers/agent/mcorpc/client/options.go: the options of a request, the limit on its
    targets and the message they configure.  The random shuffle is an argument; the
    channel of [Replies], which nothing reads, and the callback at the start of the
    discovery are left out. *)
From S2P Require Import Records Regex Files Facts GoNum Filters Util AuthTypes Transport SecureMessages Message.

Record RequestOptions := {
  ro_BatchSize : Z;
  ro_BatchSleep : Z;
  ro_Collective : string;
  ro_ConnectionName : string;
  ro_DiscoveryTimeout : Z;
  ro_Filter : option Filter;
  ro_Handler : bool;
  ro_ProcessReplies : bool;
  ro_ProtocolVersion : string;
  ro_ReplyTo : string;
  ro_RequestID : string;
  ro_RequestType : string;
  ro_Targets : list string;
  ro_Timeout : Z;
  ro_Workers : Z;
  ro_LimitSeed : Z;
  ro_LimitMethod : string;
  ro_LimitSize : string;
  ro_ReplyExprFilter : string;
  ro_DiscoveryEndCB : option (nat → nat → res ());
  ro_totalStats : Stats;
}.

(** What the framework's configuration says. *)
Record ClientConfig := {
  cc_RequestProtocol : string;
  cc_MainCollective : string;
  cc_RPCLimitMethod : string;
  cc_DiscoveryTimeout : Z;
  cc_DefaultDiscoveryMethod : string;
  cc_CallerID : string;
}.

(** [timeout] is that of the DDL. *)
Definition NewRequestOptions (cfg : ClientConfig) (timeout now : Z) : RequestOptions :=
  {| ro_BatchSize := 0; ro_BatchSleep := 0; ro_Collective := cc_MainCollective cfg; ro_ConnectionName := cc_CallerID cfg;
     ro_DiscoveryTimeout := wrap64 (cc_DiscoveryTimeout cfg * Second); ro_Filter := Some NewFilter; ro_Handler := false;
     ro_ProcessReplies := true; ro_ProtocolVersion := cc_RequestProtocol cfg; ro_ReplyTo := ""; ro_RequestID := "";
     ro_RequestType := DirectRequestMessageType; ro_Targets := [];
     ro_Timeout := wrap64 (wrap64 (cc_DiscoveryTimeout cfg * Second) + timeout); ro_Workers := 3; ro_LimitSeed := now;
     ro_LimitMethod := cc_RPCLimitMethod cfg; ro_LimitSize := ""; ro_ReplyExprFilter := ""; ro_DiscoveryEndCB := None;
     ro_totalStats := NewStats |}.

Inductive RequestOption :=
| ReplyExprFilter (f : string)
| DiscoveryEndCB (h : nat → nat → res ())
| ConnectionName (n : string)
| Targets (t : list string)
| Protocol (v : string)
| DirectRequest
| BroadcastRequest
| ServiceRequest
| Workers (w : Z)
| Collective (c : string)
| ReplyTo (r : string)
| InBatches (size sleep : Z)
| Replies
| Timeout (t : Z)
| DiscoveryTimeout (t : Z)
| SetFilter (f : option Filter)
| ReplyHandler
| LimitMethod (m : string)
| LimitSize (s : string)
| LimitSeed (s : Z).

Definition apply_option (o : RequestOptions) (opt : RequestOption) : RequestOptions :=
  match opt with
  | ReplyExprFilter f => o <| ro_ReplyExprFilter := f |>
  | DiscoveryEndCB h => o <| ro_DiscoveryEndCB := Some h |>
  | ConnectionName n => o <| ro_ConnectionName := n |>
  | Targets t => o <| ro_Targets := t |>
  | Protocol v => o <| ro_ProtocolVersion := v |>
  | DirectRequest => o <| ro_RequestType := DirectRequestMessageType |>
  | BroadcastRequest => o <| ro_RequestType := RequestMessageType |>
  | ServiceRequest => o <| ro_RequestType := ServiceRequestMessageType |>
  | Workers w => o <| ro_Workers := w |>
  | Collective c => o <| ro_Collective := c |>
  | ReplyTo r => o <| ro_ReplyTo := r |> <| ro_ProcessReplies := false |>
  | InBatches size sleep =>
      o <| ro_BatchSize := size |> <| ro_BatchSleep := wrap64 (Second * sleep) |> <| ro_Workers := 1%Z |>
  | Replies => o <| ro_ProcessReplies := false |>
  | Timeout t => o <| ro_Timeout := t |>
  | DiscoveryTimeout t => o <| ro_DiscoveryTimeout := t |>
  | SetFilter f => o <| ro_Filter := f |>
  | ReplyHandler => o <| ro_Handler := true |>
  | LimitMethod m => o <| ro_LimitMethod := m |>
  | LimitSize s => o <| ro_LimitSize := s |>
  | LimitSeed s => o <| ro_LimitSeed := s |>
  end.

(** ** Limits *)

(** [math/rand], seeded. *)
Class Shuffler := { rand_Shuffle : Z → list string → list string }.

(** [strconv.Atoi] of digits, its error ignored: a number that does not fit is the
    largest one. *)
Definition atoi_digits (s : string) : Z := default int64_max (atoi s).

Definition all_digits (s : string) : bool :=
  negb (String.eqb s "") && forallb (λ c, match digit_val c with Some _ => true | None => false end) (String.list_ascii_of_string s).

(** [make([]string, count)] of more than the address space holds. *)
Definition make_limit : Z := 2 ^ 44.

Section Limits.
Context `{SH : Shuffler}.

Definition shuffleLimitedTargets (now : Z) (o : RequestOptions) (targets : list string) : list string :=
  if negb (String.eqb (ro_LimitMethod o) "random") then targets
  else rand_Shuffle (if (-1 <? ro_LimitSeed o)%Z then ro_LimitSeed o else now) targets.

Definition limit_count (size : string) (n : nat) : res Z :=
  let pct := trim_suffix size "%" in
  if has_suffix size "%" && all_digits pct then
    Ok (f64_trunc (f64_mul (f64_of_Z (Z.of_nat n)) (f64_div (f64_of_Z (atoi_digits pct)) (f64_of_Z 100))))
  else if all_digits size then Ok (atoi_digits size)
  else Err "could not parse limit as either number or percent".

(** The list is made for the limit: a limit beyond the targets is filled with empty
    names. *)
Definition limitTargets (now : Z) (o : RequestOptions) (targets : list string) : res (list string) :=
  if negb (String.eqb (ro_LimitMethod o) "random" || String.eqb (ro_LimitMethod o) "first") then
    Err ("limit method '" +:+ ro_LimitMethod o +:+ "' is not valid, only 'random' or 'first' supported")
  else if String.eqb (ro_LimitSize o) "" then Ok targets
  else
    count ← limit_count (ro_LimitSize o) (length targets);
    if (count <=? 0)%Z then Err ("no targets left after applying target limits of '" +:+ ro_LimitSize o +:+ "'")
    else if (make_limit <? count)%Z then Panic "makeslice: len out of range"
    else
      let n := Z.to_nat count in
      Ok (take n (shuffleLimitedTargets now o targets) ++ replicate (n - length targets) "").

(** ** The message *)

Definition with_filter_hosts (f : option Filter) (hosts : list string) (m : Message) : Message :=
  m <| m_filter := f |> <| m_discoveredHosts := hosts |>.

(** The targets and the filter, by the type of the request. *)
Definition configure_targets (now : Z) (o : RequestOptions) (m : Message) : res (RequestOptions * Message) :=
  let t := ro_RequestType o in
  if String.eqb t RequestMessageType || String.eqb t DirectRequestMessageType then
    if String.eqb t RequestMessageType && (0 <? ro_BatchSize o)%Z then Err "batched mode requires direct_request mode"
    else
      let o := if (ro_BatchSize o =? 0)%Z then o <| ro_BatchSize := Z.of_nat (length (ro_Targets o)) |> else o in
      let m := with_filter_hosts (ro_Filter o) (m_discoveredHosts m) m in
      let limit targets := map_err (λ e, "could not limit targets: " +:+ e) (limitTargets now o targets) in
      '(o, m) ← (if negb (Nat.eqb (length (ro_Targets o)) 0) then
                   limited ← limit (ro_Targets o);
                   Ok (o <| ro_Targets := limited |>, with_filter_hosts (m_filter m) limited m)
                 else
                   limited ← limit (m_discoveredHosts m);
                   Ok (o <| ro_Targets := limited |>, m));
      Ok (o <| ro_totalStats ::= SetDiscoveredNodes (ro_Targets o) |>, m)
  else if String.eqb t ServiceRequestMessageType then
    if negb (Nat.eqb (length (ro_Targets o)) 0) then Err "service requests does not support custom targets"
    else
      match ro_Filter o with
      | None => Panic "invalid memory address or nil pointer dereference"
      | Some f =>
          if negb (Empty f) then Err "service requests does not support filters"
          else Ok (o, with_filter_hosts (Some NewFilter) [] m)
      end
  else Ok (o, m).

Context `{PF : Platform}.

(** [int] of a number of seconds. *)
Definition whole_seconds (d : Z) : Z := f64_trunc (Seconds d).

(** Messages that are kept for all batches live for all of them. *)
Definition cached_ttl (o : RequestOptions) (m : Message) : res Message :=
  if m_shouldCacheTransport m && negb (ro_BatchSize o =? Z.of_nat (length (ro_Targets o)))%Z then
    let batches := group_quotient (length (ro_Targets o)) (ro_BatchSize o) in
    let m := m <| m_ttl := wrap64 (batches * wrap64 (m_ttl m + whole_seconds (ro_DiscoveryTimeout o) + whole_seconds (ro_Timeout o))) |> in
    if (5 * 3600 <? m_ttl m)%Z then Err "cached transport TTL is unreasonably long" else Ok m
  else Ok m.

Definition ConfigureMessage (now : Z) (fw : FrameworkConfig) (o : RequestOptions) (m : Message) : res (RequestOptions * Message) :=
  let o := o <| ro_totalStats ::= with_names (m_requestID m) (st_agent (ro_totalStats o)) (st_action (ro_totalStats o)) |>
             <| ro_RequestID := m_requestID m |> in
  '(o, m) ← configure_targets now o m;
  m ← SetType (ro_RequestType o) m;
  let m := with_version (ro_ProtocolVersion o) m in
  let stdtarget := ReplyTarget m in
  let o := if String.eqb (ro_ReplyTo o) "" then o <| ro_ReplyTo := stdtarget |> else o in
  let o := if negb (String.eqb stdtarget (ro_ReplyTo o)) then o <| ro_ProcessReplies := false |> <| ro_Workers := 1%Z |> else o in
  m ← MessageSetReplyTo (ro_ReplyTo o) m;
  m ← SetCollective fw (ro_Collective o) m;
  m ← cached_ttl o m;
  Ok (o, m).

End Limits.

(** * Broadcast discovery

    providers/discovery/broadcast: who answers a discovery request, or who a filter on
    identities alone names. *)

Record dOpts := {
  do_filter : Filter;
  do_collective : string;
  do_timeout : Z;
}.

(** [^/(.+)/$]: [.] is any character but a newline. *)
Definition stringIsRegex (s : string) : bool :=
  has_prefix s "/" && has_suffix s "/" && Nat.leb 3 (String.length s) &&
  forallb (λ c, negb (Ascii.eqb c newline_char)) (String.list_ascii_of_string s).

Definition identityOptimize (f : Filter) : bool :=
  if negb (Nat.eqb (slice_len (Compound_ f)) 0 && Nat.eqb (length (FactFilters f)) 0 &&
           Nat.eqb (length (ClassFilters f)) 0 && Nat.ltb 0 (length (IdentityFilters f))) then false
  else negb (existsb stringIsRegex (IdentityFilters f)).

Section Discover.
Context `{TJ : TransportJSON} `{PF : Platform} `{SP : SecurityProvider}.
Variable fw : FrameworkConfig.

Definition createMessage (rid : res string) (filter : Filter) (collective : string) : res Message :=
  m ← map_err (λ e, "could not create message: " +:+ e)
        (NewMessage fw rid (b64_encode "ping") "discovery" collective RequestMessageType None);
  let m := match MessageSetReplyTo (ReplyTarget m) m with Ok m' => m' | _ => m end in
  Ok (with_type (m_msgType m) (Some filter) m).

(** One reply: its sender, when it is a transport message. *)
Definition reply_sender (discovered : list string) (data : string) : res (list string) :=
  match NewTransportFromJSON data with
  | Err _ => Ok discovered
  | Panic p => Panic p
  | Ok reply => s ← SenderID reply; Ok (discovered ++ [s])
  end.

Fixpoint collect_replies (discovered : list string) (replies : list string) : res (list string) :=
  match replies with
  | [] => Ok discovered
  | r :: rest => d ← reply_sender discovered r; collect_replies d rest
  end.

(** [request] is what the client made of a message: the replies it handed on and how it
    ended. *)
Definition Discover (rid : res string) (request : Message → list string * res ()) (o : dOpts) : res (list string) :=
  if identityOptimize (do_filter o) then Ok (IdentityFilters (do_filter o))
  else
    m ← map_err (λ e, "could not create message: " +:+ e) (createMessage rid (do_filter o) (do_collective o));
    let '(replies, result) := request m in
    d ← collect_replies [] replies;
    map_err (λ e, "could not perform request: " +:+ e) result;;
    Ok d.

End Discover.
