(* ===== verification/RpcClient.v ===== *)
(** * The RPC client

    providers/agent/mcorpc/client/client.go and reply.go: resolving a DDL, discovery,
    the batches of a request, what becomes of every reply, and requests to services. The
    network is an argument: what each use of the low level client delivers and how it
    ends; the connections of batches are left out. *)
From S2P Require Import Prelude Records GoLib Regex Files Facts GoNum Filters Util AuthTypes Transport SecureMessages Message AgentManager DDL RpcOptions.

(** ** Replies *)

Record RPCReply := {
  rep_Action : string;
  rep_Statuscode : Z;
  rep_Statusmsg : string;
  rep_Data : string;
  rep_Sender : string;
  rep_Time : Z;
}.

(** What an expression sees of a reply, beside [data], [include] and [semver], which
    belong to the libraries. *)
Record reply_env := {
  env_msg : string;
  env_code : Z;
  env_data : string;
  env_ok : bool;
  env_aborted : bool;
  env_unknown_action : bool;
  env_missing_data : bool;
  env_invalid_data : bool;
  env_unknown_error : bool;
  env_sender : string;
  env_time : Z;
}.

Definition reply_environment (r : RPCReply) : reply_env :=
  let code n := (rep_Statuscode r =? n)%Z in
  {| env_msg := rep_Statusmsg r; env_code := rep_Statuscode r; env_data := rep_Data r; env_ok := code 0%Z;
     env_aborted := code 1%Z; env_unknown_action := code 2%Z; env_missing_data := code 3%Z; env_invalid_data := code 4%Z;
     env_unknown_error := code 5%Z; env_sender := rep_Sender r; env_time := rep_Time r |}.

Class ReplyLib := {
  json_RPCReply : string → res RPCReply;
  json_RPCRequest : string → string → string → string;
  reply_program : Type;
  reply_Compile : string → res reply_program;
  (** [None] when the result is not a boolean *)
  reply_Run : reply_program → reply_env → res (option bool);
}.

Section Client.
Context `{RL : ReplyLib} `{TJ : TransportJSON} `{MJ : !MessageJSON} `{PF : Platform} `{BF : BuildFlags} `{SP : !SecurityProvider}.
Context `{SH : Shuffler} `{DF : DDLFiles}.

Definition ParseReply (reply : Reply) : res RPCReply :=
  r ← map_err (λ e, "could not decode source data: " +:+ e) (json_RPCReply (rp_MessageBody reply));
  Ok (r <| rep_Sender := rp_Sender reply |> <| rep_Time := rp_TimeStamp reply |>).

(** Whether the reply matches, and the program, which is compiled once. *)
Definition MatchExpr (q : string) (prog : option reply_program) (r : RPCReply) : res bool * option reply_program :=
  match (match prog with Some p => Ok p | None => reply_Compile q end) with
  | Err e => (Err e, None)
  | Panic why => (Panic why, None)
  | Ok p =>
      (match reply_Run p (reply_environment r) with
       | Ok (Some b) => Ok b
       | Ok None => Err "match expressions should return boolean"
       | Err e => Err e
       | Panic why => Panic why
       end, Some p)
  end.

(** The handler of one request: the statistics of the batch, the compiled filter, what
    the callback was given and whether the request was cancelled. *)
Record HandlerState := {
  hs_stats : Stats;
  hs_prog : option reply_program;
  hs_handled : list (string * option RPCReply);
  hs_cancelled : bool;
}.

Definition show_reply (o : RequestOptions) (reply : Reply) (r : RPCReply) : ST HandlerState string () := λ hs,
  if negb (ro_Handler o) then (hs, Ok tt)
  else if String.eqb (ro_ReplyExprFilter o) "" then
    (hs <| hs_handled ::= (λ l, l ++ [(rp_Sender reply, Some r)]) |>, Ok tt)
  else
    match MatchExpr (ro_ReplyExprFilter o) (hs_prog hs) r with
    | (Panic why, _) => (hs, Panic why)
    | (m, prog) =>
        let shown := match m with Ok true => Some r | _ => None end in
        (hs <| hs_prog := prog |> <| hs_handled ::= (λ l, l ++ [(rp_Sender reply, shown)]) |>, Ok tt)
    end.

Definition on_stats (f : Stats → Stats) : ST HandlerState string () := modify (λ hs, hs <| hs_stats ::= f |>).

(** The handler [handlerFactory] makes. *)
Definition handle_reply (o : RequestOptions) (rawmsg : string) : ST HandlerState string () :=
  match NewReplyFromTransportJSON rawmsg false with
  | Panic why => panic why
  | Err _ => on_stats FailedRequestInc
  | Ok reply =>
      (if negb (String.eqb (ro_RequestType o) ServiceRequestMessageType) then on_stats (RecordReceived (rp_Sender reply))
       else mret tt);;
      match ParseReply reply with
      | Panic why => panic why
      | Err _ => on_stats FailedRequestInc
      | Ok r =>
          on_stats (if (rep_Statuscode r =? 0)%Z then PassedRequestInc else FailedRequestInc);;
          show_reply o reply r;;
          modify (λ hs, if All (hs_stats hs) then hs <| hs_cancelled := true |> else hs)
      end
  end.

Fixpoint handle_replies (o : RequestOptions) (replies : list string) : ST HandlerState string () :=
  match replies with
  | [] => mret tt
  | r :: rest => handle_reply o r;; handle_replies o rest
  end.

(** ** Requests *)

(** What the [n]-th use of the low level client made of a message: when publishing
    started and ended, the replies in the order they were handled and the error. *)
Record exchange := {
  ex_publish : option (Z * Z);
  ex_replies : list string;
  ex_result : res ();
}.

Record client_env := {
  ce_now : Z;
  ce_exchange : nat → Message → exchange;
  (** the sleeps between batches *)
  ce_sleep : nat → res ();
  ce_ends : nat → Z;
  ce_discovered : Z;
  ce_puppetdb : Filter → res (list string);
  ce_broadcast : Message → list string * res ();
  ce_resolvers : res (list (res string));
  ce_request_ids : res string * res string;
}.

(** A call of [Do]: the options, whose statistics are those of all batches, the message
    being published, the number of the batch, every message that was handed to the
    client and what the callback was given. *)
Record Session := {
  ss_opts : RequestOptions;
  ss_msg : Message;
  ss_ctr : nat;
  ss_sent : list Message;
  ss_handled : list (string * option RPCReply);
}.

Variable e : client_env.

Definition on_total (f : Stats → Stats) (s : Session) : Session := s <| ss_opts ::= λ o, o <| ro_totalStats ::= f |> |>.

(** [RPC.request]: the statistics of the batch when it ended. *)
Definition request (stats : Stats) : Session → Session * (Stats * res ()) := λ s,
  let x := ce_exchange e (ss_ctr s) (ss_msg s) in
  let s := s <| ss_sent ::= (λ l, l ++ [ss_msg s]) |> in
  let s := match ex_publish x with
           | Some (t1, t2) => on_total (EndPublish t2) (on_total (StartPublish t1) s)
           | None => s
           end in
  if negb (ro_ProcessReplies (ss_opts s)) then (s, (stats, ex_result x))
  else
    let '(hs, o) := handle_replies (ss_opts s) (ex_replies x)
                      {| hs_stats := stats; hs_prog := None; hs_handled := []; hs_cancelled := false |} in
    let s := s <| ss_handled ::= (λ l, l ++ hs_handled hs) |> in
    (s, (hs_stats hs, match o with Ok _ => ex_result x | Err err => Err err | Panic why => Panic why end)).

(** One batch; its statistics enter the total however it ends. *)
Definition batch (nodes : list string) : ST Session string () := λ s,
  let stats := Start (ce_now e) (SetDiscoveredNodes nodes NewStats) in
  let s := s <| ss_msg ::= (λ m, m <| m_discoveredHosts := nodes |>) |> in
  match (if Nat.ltb 0 (ss_ctr s) then ce_sleep e (ss_ctr s) else Ok tt) with
  | Ok _ =>
      let n := ss_ctr s in
      let '(s, (stats, o)) := request stats s in
      let s := on_total (λ t, (Merge (End_ (ce_ends e n) stats) t).1) s in
      match o with Ok _ => (s <| ss_ctr ::= S |>, Ok tt) | _ => (s, o) end
  | o => (on_total (λ t, (Merge (End_ (ce_ends e (ss_ctr s)) stats) t).1) s, o)
  end.

Definition doBatchedRequest : ST Session string () := λ s,
  InGroups (ro_Targets (ss_opts s)) (ro_BatchSize (ss_opts s)) batch s.

(** The senders that answered a service request, by the handler it adds to the user's:
    those of replies that could be parsed. *)
Definition doServiceRequest : ST Session string () := λ s,
  let user := ro_Handler (ss_opts s) in
  let shown := ss_handled s in
  let '(s, (stats, o)) := request NewStats (s <| ss_opts ::= λ o, o <| ro_Handler := true |> |>) in
  let responded := map fst (drop (length shown) (ss_handled s)) in
  let s := if user then s else s <| ss_handled := shown |> in
  let '(s, stats) := match responded with
                     | [] => (s, stats)
                     | first :: _ => (on_total (SetDiscoveredNodes responded) s, RecordReceived first (SetDiscoveredNodes responded stats))
                     end in
  (on_total (λ t, (Merge (End_ (ce_ends e 0) stats) t).1) s, o).

(** ** [Do] *)

Record RPC := {
  rpc_agent : string;
  rpc_dm : string;
  rpc_ddl : option DDL;
}.

Definition NewRPC (cfg : ClientConfig) (agent : string) : RPC :=
  {| rpc_agent := agent; rpc_dm := cc_DefaultDiscoveryMethod cfg; rpc_ddl := None |}.

Fixpoint resolve_loop (agent : string) (rs : list (res string)) : res DDL :=
  match rs with
  | [] => Err ("could not resolve " +:+ agent +:+ " DDL in any resolver")
  | Ok data :: _ => NewFromBytes data
  | Panic why :: _ => Panic why
  | Err _ :: rest => resolve_loop agent rest
  end.

Definition resolveDDL : ST RPC string DDL :=
  ddl ← gets rpc_ddl;
  match ddl with
  | Some d => mret d
  | None =>
      agent ← gets rpc_agent;
      d ← lift (rs ← ce_resolvers e; resolve_loop agent rs);
      modify (λ r, r <| rpc_ddl := Some d |>);;
      mret d
  end.

Definition setOptions (cfg : ClientConfig) (d : DDL) (opts : list RequestOption) : RequestOptions :=
  let o := foldl apply_option (NewRequestOptions cfg (DDLTimeout d) (ce_now e)) opts in
  if md_Service (ddl_Metadata d) then o <| ro_Workers := 1%Z |> <| ro_RequestType := ServiceRequestMessageType |> else o.

Variable fw : FrameworkConfig.

(** The filter is looked at before it is known to be there; the method that compound
    filters need stays the method of the client. *)
Definition discover (o : RequestOptions) : ST RPC string RequestOptions :=
  match ro_Filter o with
  | None => panic "invalid memory address or nil pointer dereference"
  | Some f =>
      (if Nat.ltb 0 (slice_len (Compound_ f)) then modify (λ r, r <| rpc_dm := "choria" |>) else mret tt);;
      r ← gets (λ r, r);
      let f := AddAgentFilter (rpc_agent r) f in
      n ← lift (if String.eqb (rpc_dm r) "choria" then ce_puppetdb e f
                else Discover fw (ce_request_ids e).1 (ce_broadcast e)
                       {| do_filter := f; do_collective := ro_Collective o; do_timeout := ro_DiscoveryTimeout o |});
      if Nat.eqb (length (n : list string)) 0 then throw "no targets were discovered"
      else mret (o <| ro_Filter := Some f |> <| ro_Targets := n |>
                   <| ro_totalStats ::= λ s, EndDiscover (ce_discovered e) (StartDiscover (ce_now e) s) |>)
  end.

(** [payload] is the JSON of the data, when it has one. *)
Definition setupMessage (cfg : ClientConfig) (r : RPC) (d : DDL) (action : string) (payload : res string) (o : RequestOptions) :
    res (RequestOptions * Message) :=
  pj ← map_err (λ err, "could not encode payload: " +:+ err) payload;
  let service := md_Service (ddl_Metadata d) in
  let msgType := if service then ServiceRequestMessageType else RequestMessageType in
  let o := if service then o <| ro_Workers := 1%Z |> else o in
  m ← NewMessage fw (ce_request_ids e).2 (json_RPCRequest (rpc_agent r) action pj) (rpc_agent r) (cc_MainCollective cfg) msgType None;
  map_err (λ err, "could not configure Message: " +:+ err) (ConfigureMessage (ce_now e) fw o m).

Definition wrap_err {W A} (p : string) (f : ST W string A) : ST W string A := λ w,
  let '(w, o) := f w in (w, map_err (λ err, p +:+ err) o).

(** The options and the message of a call, or why there is none. *)
Definition prepare (cfg : ClientConfig) (action : string) (payload : res string) (opts : list RequestOption) :
    ST RPC string (RequestOptions * Message) :=
  d ← resolveDDL;
  agent ← gets rpc_agent;
  if negb (String.eqb (md_Name (ddl_Metadata d)) agent) then throw ("the DDL does not describe the " +:+ agent +:+ " agent")
  else
    let o := setOptions cfg d opts in
    o ← (if Nat.eqb (length (ro_Targets o)) 0 &&
            (negb (String.eqb (ro_RequestType o) ServiceRequestMessageType) || negb (md_Service (ddl_Metadata d)))
         then wrap_err "discovery failed: " (discover o) else mret o);
    let discoveredCnt := length (ro_Targets o) in
    r ← gets (λ r, r);
    om ← lift (map_err (λ err, "could not configure message: " +:+ err) (setupMessage cfg r d action payload o));
    let '(o, m) := (om : RequestOptions * Message) in
    lift match ro_DiscoveryEndCB o with
         | Some cb => cb discoveredCnt (length (ro_Targets o))
         | None => Ok tt
         end;;
    mret (o <| ro_totalStats ::= λ s, with_names (st_RequestID s) agent action (Start (ce_now e) s) |>, m).

Definition Do (cfg : ClientConfig) (action : string) (payload : res string) (opts : list RequestOption) :
    ST RPC string (Session * res ()) :=
  om ← prepare cfg action payload opts;
  let '(o, m) := (om : RequestOptions * Message) in
  let s := {| ss_opts := o; ss_msg := m; ss_ctr := 0; ss_sent := []; ss_handled := [] |} in
  let '(s, result) := (if String.eqb (ro_RequestType o) ServiceRequestMessageType then doServiceRequest else doBatchedRequest) s in
  match result with
  | Panic why => panic why
  | _ => mret (on_total (End_ (ce_ends e (ss_ctr s))) s, result)
  end.

End Client.
