(* ===== verification/RpcClientTheorems.v ===== *)
(** * A concrete client, for the witnesses

    A client of one agent whose network answers with replies, garbage and answers of
    strangers. *)
From S2P Require Import Prelude Records GoLib Regex Files Facts GoNum Filters DemoLibs Util AuthTypes Transport SecureMessages DemoJSON Security Message AgentManager DemoServer DDL RpcOptions RpcClient.

(** Replies are their status code. *)
#[export] Instance demo_reply_lib : ReplyLib := {|
  json_RPCReply := λ s, match atoi s with
                        | Some c => Ok {| rep_Action := ""; rep_Statuscode := c; rep_Statusmsg := ""; rep_Data := "";
                                          rep_Sender := ""; rep_Time := 0 |}
                        | None => Err "not a number" end;
  json_RPCRequest := λ agent action data, agent +:+ "," +:+ action;
  reply_program := unit;
  reply_Compile := λ _, Err "no program";
  reply_Run := λ _ _, Ok None;
|}.

#[export] Instance demo_shuffler : Shuffler := {| rand_Shuffle := λ _ l, reverse l |}.

Definition demo_ddl : DDL :=
  {| ddl_Schema := "";
     ddl_Metadata := {| md_Name := "rpcutil"; md_Version := "1.0.0"; md_Timeout := 10; md_Service := false; md_Provider := "" |};
     ddl_Actions := []; ddl_SourceLocation := "" |}.

#[export] Instance demo_ddl_files : DDLFiles := {|
  walk_files := λ _, []; ddl_Unmarshal := λ _, Some demo_ddl; CachedDDL := λ _, None;
|}.

Definition demo_client_config : ClientConfig :=
  {| cc_RequestProtocol := "choria:request:2"; cc_MainCollective := "mcollective"; cc_RPCLimitMethod := "first";
     cc_DiscoveryTimeout := 2; cc_DefaultDiscoveryMethod := "mc"; cc_CallerID := "choria=bob" |}.

(** What a node sends. *)
Definition demo_raw_reply (node body : string) : string :=
  match (rep ← NewReply (120 * Second) node demo_ping;
         srep ← NewSecureReply (SetMessage body rep);
         NewTransportForSecureReply node srep) with
  | Ok m => default "" (transport_Marshal m)
  | _ => "" end.

(** The first node succeeds and fails, a stranger answers and garbage arrives; then the
    third node succeeds. *)
Definition demo_exchange (n : nat) : exchange :=
  {| ex_publish := Some (1%Z, 2%Z);
     ex_replies := match n with
                   | 0 => [demo_raw_reply "n1" "0"; "garbage"; demo_raw_reply "n1" "5"; demo_raw_reply "stranger" "0"]
                   | _ => [demo_raw_reply "n3" "0"] end;
     ex_result := Ok tt |}.

Definition demo_client_env : client_env :=
  {| ce_now := 100 * Second; ce_exchange := λ n _, demo_exchange n; ce_sleep := λ _, Ok tt; ce_ends := λ _, (130 * Second)%Z;
     ce_discovered := 0; ce_puppetdb := λ _, Err "no puppetdb"; ce_broadcast := λ _, ([], Ok tt);
     ce_resolvers := Ok [Ok "{}"]; ce_request_ids := (Ok "1", Ok "2") |}.

Definition demo_do : RPC * outcome string (Session * res ()) :=
  Do demo_client_env demo_framework demo_client_config "ping" (Ok "") [Targets ["n1"; "n2"; "n3"]; InBatches 2 1]
    (NewRPC demo_client_config "rpcutil").

(** * Theorems on the RPC client

    A request reaches every target once, in batches, and its statistics account for every
    target and every reply. *)

(** ** Batches *)

Definition groups (set : list string) (size : Z) : list (list string) :=
  map (λ i, take (Z.to_nat size) (drop (i * Z.to_nat size) set)) (seq 0 (group_total (length set) size)).

Lemma group_total_bounds n size : (0 < size)%Z →
  (n ≤ group_total n size * Z.to_nat size)%nat ∧ (0 < group_total n size → (group_total n size - 1) * Z.to_nat size < n)%nat.
Proof.
  intros Hs. unfold group_total, group_quotient. rewrite (proj2 (Z.eqb_neq size 0)) by lia.
  pose proof (Z.div_mod (Z.of_nat n) (- size) ltac:(lia)) as Hd.
  pose proof (Z.mod_neg_bound (Z.of_nat n) (- size) ltac:(lia)) as Hm.
  set (q := (Z.of_nat n / - size)%Z) in *. assert (q ≤ 0)%Z by nia. split; [nia|]. intros Hpos. nia.
Qed.

Lemma concat_chunks_all {A} (l : list A) n k : concat (map (λ i, take n (drop (i * n) l)) (seq 0 k)) = take (k * n) l.
Proof.
  induction k as [|k IH]; [done|]. rewrite seq_S, map_app, concat_app, IH. cbn [map concat].
  rewrite app_nil_r, take_take_drop. f_equal. cbn. lia.
Qed.

Lemma groups_concat set size : (0 < size)%Z → concat (groups set size) = set.
Proof.
  intros Hs. unfold groups. rewrite concat_chunks_all. apply take_ge.
  destruct (group_total_bounds (length set) size Hs) as [H _]. lia.
Qed.

Lemma groups_sizes set size : (0 < size)%Z → Forall (λ g, 0 < length g ≤ Z.to_nat size)%nat (groups set size).
Proof.
  intros Hs. apply Forall_forall. intros g Hg. unfold groups in Hg.
  apply list_elem_of_In, in_map_iff in Hg as (i & <- & Hi). apply in_seq in Hi.
  destruct (group_total_bounds (length set) size Hs) as [_ H]. rewrite length_take, length_drop.
  assert (i * Z.to_nat size < length set)%nat by nia. lia.
Qed.

Lemma groups_lookup set size i : (i < group_total (length set) size)%nat →
  groups set size !! i = Some (take (Z.to_nat size) (drop (i * Z.to_nat size) set)).
Proof. intros Hi. unfold groups. rewrite list_lookup_fmap, lookup_seq_lt by done. done. Qed.

(** ** Statistics *)

Lemma AddHosts_set hosts n : AddHosts hosts n = list_to_set hosts ∪ n.
Proof.
  unfold AddHosts. revert n. induction hosts as [|h hosts IH]; intros n; cbn; [set_solver|]. rewrite IH. set_solver.
Qed.

Definition counts (s : Stats) : Z * Z := (st_passed s, st_failed s).

Lemma RecordReceived_spec n s :
  st_outstandingNodes (RecordReceived n s) = st_outstandingNodes s ∖ {[n]} ∧
  st_unexpectedRespones (RecordReceived n s) =
    (if bool_decide (n ∈ st_outstandingNodes s) then st_unexpectedRespones s else {[n]} ∪ st_unexpectedRespones s) ∧
  counts (RecordReceived n s) = counts s ∧ st_discoveredNodes (RecordReceived n s) = st_discoveredNodes s.
Proof.
  unfold RecordReceived, DeleteIfKnown. cbn. case_bool_decide; cbn; [done|]. split_and!; [set_solver|set_solver|done..].
Qed.

Lemma RecordReceived_all l s :
  st_outstandingNodes (foldl (λ s n, RecordReceived n s) s l) = st_outstandingNodes s ∖ list_to_set l ∧
  counts (foldl (λ s n, RecordReceived n s) s l) = counts s ∧
  (NoDup l → list_to_set l ⊆ st_outstandingNodes s →
   st_unexpectedRespones (foldl (λ s n, RecordReceived n s) s l) = st_unexpectedRespones s).
Proof.
  revert s. induction l as [|n l IH]; intros s; cbn [foldl].
  { split_and!; [set_solver|done|done]. }
  destruct (RecordReceived_spec n s) as (Ho & Hu & Hc & _), (IH (RecordReceived n s)) as (-> & -> & Hun).
  rewrite Ho, Hc. split_and!; [set_solver|done|]. intros Hnd Hsub. apply NoDup_cons in Hnd as [Hn Hl].
  rewrite Hun, Hu; [|done|rewrite Ho; set_solver]. rewrite bool_decide_true by set_solver. done.
Qed.

Definition answered (b : Stats) : list string :=
  List.filter (λ n, negb (Have n (st_outstandingNodes b))) (st_discoveredNodes b).

Lemma answered_all b : All b = true → answered b = st_discoveredNodes b.
Proof.
  unfold All, Count, answered, Have. intros Ha. apply Nat.eqb_eq, size_empty_inv in Ha.
  induction (st_discoveredNodes b) as [|n l IH]; [done|]. cbn. rewrite bool_decide_false by set_solver. cbn. by rewrite IH.
Qed.

Lemma Merge_spec b t : NoDup (st_discoveredNodes b) → list_to_set (st_discoveredNodes b) ⊆ st_outstandingNodes t →
  st_outstandingNodes (Merge b t).1 = st_outstandingNodes t ∖ list_to_set (answered b) ∧
  st_unexpectedRespones (Merge b t).1 = st_unexpectedRespones b ∪ st_unexpectedRespones t ∧
  counts (Merge b t).1 = (st_passed t + st_passed b, st_failed t + st_failed b)%Z.
Proof.
  intros Hnd Hsub. unfold Merge.
  assert ((if All b then st_discoveredNodes b else answered b) = answered b) as Ha
    by (destruct (All b) eqn:E; [by rewrite answered_all|done]).
  unfold answered in Ha. rewrite Ha. fold (answered b). clear Ha.
  destruct (RecordReceived_all (answered b) t) as (Ho & Hc & Hu).
  assert (NoDup (answered b)) as Hnd' by (unfold answered; by apply NoDup_ListNoDup, List.NoDup_filter, NoDup_ListNoDup).
  assert (list_to_set (answered b) ⊆ st_outstandingNodes t) as Hsub'.
  { intros x Hx. apply Hsub. apply elem_of_list_to_set in Hx. apply elem_of_list_to_set. unfold answered in Hx.
    apply list_elem_of_In, List.filter_In in Hx as [Hx _]. by apply list_elem_of_In. }
  specialize (Hu Hnd' Hsub'). revert Ho Hc Hu. generalize (foldl (λ s n, RecordReceived n s) t (answered b)). intros t' Ho Hc Hu.
  unfold counts in *. injection Hc as Hp Hf.
  destruct (PublishDuration b); cbn; rewrite AddHosts_set, Hu, Hp, Hf; unfold UnexpectedResponseFrom, Hosts;
    rewrite list_to_set_elements_L; done.
Qed.

(** ** Replies *)

Section Client.
Context `{RL : ReplyLib} `{TJ : TransportJSON} `{MJ : !MessageJSON} `{PF : Platform} `{BF : BuildFlags} `{SP : !SecurityProvider}.
Context `{SH : Shuffler} `{DF : DDLFiles}.

(** The senders of the replies that are replies, and whether a reply is a success. *)
Definition senders (replies : list string) : list string :=
  omap (λ r, match NewReplyFromTransportJSON r false with Ok rep => Some (rp_Sender rep) | _ => None end) replies.
Definition success (r : string) : bool :=
  match NewReplyFromTransportJSON r false with
  | Ok rep => match ParseReply rep with Ok x => (rep_Statuscode x =? 0)%Z | _ => false end
  | _ => false
  end.
Definition passes (replies : list string) : Z := Z.of_nat (length (List.filter success replies)).
Definition fails (replies : list string) : Z := Z.of_nat (length (List.filter (λ r, negb (success r)) replies)).

Lemma show_reply_stats o reply r hs hs' x : show_reply o reply r hs = (hs', x) →
  (∃ why, x = Panic why) ∨ x = Ok tt ∧ hs_stats hs' = hs_stats hs.
Proof.
  unfold show_reply. destruct (negb _); [intros [= <- <-]; by right|]. destruct (String.eqb _ _); [intros [= <- <-]; by right|].
  destruct (MatchExpr _ _ _) as [[b|?|why] prog]; intros [= <- <-]; [by right..|by left; exists why].
Qed.

Lemma handle_reply_spec o r hs hs' x : ro_RequestType o ≠ ServiceRequestMessageType →
  handle_reply o r hs = (hs', x) →
  (∃ why, x = Panic why) ∨
  x = Ok tt ∧ st_outstandingNodes (hs_stats hs') = st_outstandingNodes (hs_stats hs) ∖ list_to_set (senders [r]) ∧
  counts (hs_stats hs') = (st_passed (hs_stats hs) + passes [r], st_failed (hs_stats hs) + fails [r])%Z ∧
  st_discoveredNodes (hs_stats hs') = st_discoveredNodes (hs_stats hs).
Proof.
  intros Ht. destruct hs as [st pr hd cn]. unfold handle_reply, senders, passes, fails, success. cbn [omap list_omap List.filter hs_stats].
  destruct (NewReplyFromTransportJSON r false) as [rep|e1|why]; cbn [length].
  2: { intros [= <- <-]. right. split; [done|]. cbn. unfold counts. cbn. rewrite Z.add_0_r. split_and!; [set_solver|done|done]. }
  2: { intros [= <- <-]. by left; exists why. }
  rewrite (proj2 (String.eqb_neq _ _) Ht). cbn [negb]. unfold mbind, ST_bind, on_stats, modify.
  destruct (RecordReceived_spec (rp_Sender rep) st) as (Ho & _ & Hc & Hd).
  unfold counts in Hc. injection Hc as Hp Hf.
  destruct (ParseReply rep) as [x0|e1|why] eqn:Hparse; cbn [length].
  2: { intros [= <- <-]. right. split; [done|]. cbn. unfold counts. cbn. cbn in Ho, Hp, Hf, Hd.
       rewrite Ho, Hp, Hf, Hd, Z.add_0_r. split_and!; [set_solver|done|done]. }
  2: { intros [= <- <-]. by left; exists why. }
  match goal with |- context [show_reply o rep x0 ?h] => set (hs2 := h) end.
  destruct (show_reply o rep x0 hs2) as [hs3 o3] eqn:Hs. apply show_reply_stats in Hs as [[why ->]|[-> Hs]].
  { intros [= <- <-]. by left; exists why. }
  intros [= <- <-]. right. split; [done|].
  match goal with |- context [hs_stats ?h] => assert (hs_stats h = hs_stats hs2) as -> by (rewrite <- Hs; by destruct hs3 as [? ? ? ?], (All _)) end.
  unfold hs2. cbn -[RecordReceived]. destruct (rep_Statuscode x0 =? 0)%Z; unfold PassedRequestInc, FailedRequestInc, counts; cbn -[RecordReceived];
    rewrite Ho, Hp, Hf, Hd, ?Z.add_0_r; (split_and!; [set_solver|done|done]).
Qed.

Lemma senders_app l l' : senders (l ++ l') = senders l ++ senders l'.
Proof. unfold senders. apply omap_app. Qed.
Lemma passes_app l l' : passes (l ++ l') = (passes l + passes l')%Z.
Proof. unfold passes. rewrite List.filter_app, length_app. lia. Qed.
Lemma fails_app l l' : fails (l ++ l') = (fails l + fails l')%Z.
Proof. unfold fails. rewrite List.filter_app, length_app. lia. Qed.
Lemma passes_fails l : (passes l + fails l = Z.of_nat (length l))%Z.
Proof.
  unfold passes, fails. induction l as [|r l IH]; [done|]. cbn [List.filter]. destruct (success r); cbn [negb length]; lia.
Qed.

Lemma handle_replies_spec o l hs hs' x : ro_RequestType o ≠ ServiceRequestMessageType →
  handle_replies o l hs = (hs', x) →
  (∃ why, x = Panic why) ∨
  x = Ok tt ∧ st_outstandingNodes (hs_stats hs') = st_outstandingNodes (hs_stats hs) ∖ list_to_set (senders l) ∧
  counts (hs_stats hs') = (st_passed (hs_stats hs) + passes l, st_failed (hs_stats hs) + fails l)%Z ∧
  st_discoveredNodes (hs_stats hs') = st_discoveredNodes (hs_stats hs).
Proof.
  intros Ht. revert hs. induction l as [|r l IH]; intros hs; cbn [handle_replies].
  { intros [= <- <-]. right. split; [done|]. unfold counts, passes, fails. cbn. rewrite !Z.add_0_r. split_and!; [set_solver|done|done]. }
  unfold mbind, ST_bind. destruct (handle_reply o r hs) as [hs1 x1] eqn:Hr.
  destruct (handle_reply_spec o r hs hs1 x1 Ht Hr) as [[why ->]|(-> & Ho & Hc & Hd)]; [intros [= <- <-]; by left; exists why|].
  intros H. destruct (IH hs1 H) as [H'|(-> & Ho' & Hc' & Hd')]; [by left|]. right. split; [done|].
  change (r :: l) with ([r] ++ l). rewrite senders_app, passes_app, fails_app, Ho', Hc', Hd', Ho, Hd.
  unfold counts in Hc. injection Hc as Hp Hf. rewrite Hp, Hf, list_to_set_app_L.
  split_and!; [set_solver|f_equal; lia|done].
Qed.

(** ** Rounds *)

Lemma NoDup_concat_disjoint {A} (l : list (list A)) i j a b x : NoDup (concat l) →
  l !! i = Some a → l !! j = Some b → i ≠ j → x ∈ a → x ∉ b.
Proof.
  revert i j. induction l as [|c l IH]; intros i j Hnd Hi Hj Hne Hx Hb; [done|]. cbn in Hnd.
  apply NoDup_app in Hnd as (Hc & Hdis & Hl). destruct i as [|i], j as [|j]; cbn in *; [done| | |by apply (IH i j Hl Hi Hj ltac:(lia) Hx)].
  - injection Hi as ->. apply (Hdis x Hx). apply list_elem_of_In, in_concat. exists b. split; [|by apply list_elem_of_In].
    apply list_elem_of_In. by eapply list_elem_of_lookup_2.
  - injection Hj as ->. apply (Hdis x Hb). apply list_elem_of_In, in_concat. exists a. split; [|by apply list_elem_of_In].
    apply list_elem_of_In. by eapply list_elem_of_lookup_2.
Qed.

Lemma NoDup_concat_part {A} (l : list (list A)) i a : NoDup (concat l) → l !! i = Some a → NoDup a.
Proof.
  revert i. induction l as [|c l IH]; intros i Hnd Hi; [done|]. cbn in Hnd. apply NoDup_app in Hnd as (Hc & _ & Hl).
  destruct i as [|i]; [by injection Hi as <-|by eapply IH].
Qed.

Section Rounds.
Variable e : client_env.
Variable m0 : Message.
Variable o0 : RequestOptions.

Definition to_hosts (hosts : list string) (m : Message) : Message := m <| m_discoveredHosts := hosts |>.

Let gs : list (list string) := groups (ro_Targets o0) (ro_BatchSize o0).

(** What the [i]-th batch asks and is answered. *)
Definition replies_of (i : nat) (g : list string) : list string :=
  if ro_ProcessReplies o0 then ex_replies (ce_exchange e i (to_hosts g m0)) else [].
Definition round (i : nat) : list string * list string := let g := default [] (gs !! i) in (g, replies_of i g).
Definition rounds (k : nat) : list (list string * list string) := map round (seq 0 k).
Definition answers (r : list string * list string) : list string := List.filter (λ n, elem n (senders r.2)) r.1.

(** The statistics after [k] batches. *)
Record accounts (k : nat) (t : Stats) : Prop := {
  ac_outstanding : st_outstandingNodes t = list_to_set (ro_Targets o0) ∖ list_to_set (concat (map answers (rounds k)));
  ac_passed : st_passed t = passes (concat (map snd (rounds k)));
  ac_failed : st_failed t = fails (concat (map snd (rounds k)));
}.

Definition untotal (o : RequestOptions) : RequestOptions := o <| ro_totalStats := NewStats |>.

Record ended (k : nat) (s : Session) : Prop := {
  en_opts : untotal (ss_opts s) = untotal o0;
  en_sent : ss_sent s = map (λ g, to_hosts g m0) (take k gs);
  en_accounts : accounts k (ro_totalStats (ss_opts s));
}.

Record going (k : nat) (s : Session) : Prop := {
  go_ended : ended k s;
  go_ctr : ss_ctr s = k;
  go_msg : ∀ g, to_hosts g (ss_msg s) = to_hosts g m0;
}.

Lemma to_hosts_twice g g' m : to_hosts g (to_hosts g' m) = to_hosts g m.
Proof. by destruct m. Qed.

Lemma rounds_S k : rounds (S k) = rounds k ++ [round k].
Proof. unfold rounds. by rewrite seq_S, map_app. Qed.

Lemma untotal_fields o : untotal o = untotal o0 →
  ro_Targets o = ro_Targets o0 ∧ ro_BatchSize o = ro_BatchSize o0 ∧ ro_RequestType o = ro_RequestType o0 ∧
  ro_ProcessReplies o = ro_ProcessReplies o0.
Proof. destruct o, o0. cbn. intros [=]. by subst. Qed.

Lemma on_total_opts f s : untotal (ss_opts (on_total f s)) = untotal (ss_opts s) ∧
  ro_totalStats (ss_opts (on_total f s)) = f (ro_totalStats (ss_opts s)) ∧ ss_sent (on_total f s) = ss_sent s ∧
  ss_ctr (on_total f s) = ss_ctr s ∧ ss_msg (on_total f s) = ss_msg s.
Proof. destruct s as [o ? ? ? ?], o. cbn. done. Qed.

Lemma accounts_view k t t' : st_outstandingNodes t' = st_outstandingNodes t → counts t' = counts t → accounts k t → accounts k t'.
Proof. intros Ho Hc [Ha Hp Hf]. unfold counts in Hc. injection Hc as Hp' Hf'. split; congruence. Qed.

Lemma publish_view t1 t2 t : st_outstandingNodes (EndPublish t2 (StartPublish t1 t)) = st_outstandingNodes t ∧
  counts (EndPublish t2 (StartPublish t1 t)) = counts t.
Proof. unfold EndPublish, StartPublish. destruct (st_publishing t) eqn:E; cbn; rewrite ?E; done. Qed.

Lemma request_spec k g stats s s' stats' x : ro_RequestType o0 ≠ ServiceRequestMessageType →
  going k s → gs !! k = Some g → ss_msg s = to_hosts g m0 →
  st_discoveredNodes stats = g → st_outstandingNodes stats = list_to_set g → counts stats = (0, 0)%Z →
  request e stats s = (s', (stats', x)) →
  (∃ why, x = Panic why) ∨
  x = ex_result (ce_exchange e k (to_hosts g m0)) ∧
  untotal (ss_opts s') = untotal o0 ∧ ss_sent s' = map (λ g, to_hosts g m0) (take (S k) gs) ∧
  accounts k (ro_totalStats (ss_opts s')) ∧ ss_ctr s' = k ∧ ss_msg s' = to_hosts g m0 ∧
  st_discoveredNodes stats' = g ∧ st_outstandingNodes stats' = list_to_set g ∖ list_to_set (senders (replies_of k g)) ∧
  counts stats' = (passes (replies_of k g), fails (replies_of k g)).
Proof.
  intros Ht [[Hopts Hsent Hacc] Hctr Hmsg] Hg Hm Hd Ho Hc. unfold request. rewrite Hctr, Hm.
  set (xch := ce_exchange e k (to_hosts g m0)). set (s1 := s <| ss_sent ::= _ |>).
  set (s2 := match ex_publish xch with Some _ => _ | None => s1 end).
  assert (untotal (ss_opts s2) = untotal o0 ∧ ss_sent s2 = map (λ g, to_hosts g m0) (take (S k) gs) ∧
    accounts k (ro_totalStats (ss_opts s2)) ∧ ss_ctr s2 = k ∧ ss_msg s2 = to_hosts g m0) as (Hopts2 & Hsent2 & Hacc2 & Hctr2 & Hmsg2).
  { assert (untotal (ss_opts s1) = untotal o0 ∧ ss_sent s1 = map (λ g, to_hosts g m0) (take (S k) gs) ∧
      accounts k (ro_totalStats (ss_opts s1)) ∧ ss_ctr s1 = k ∧ ss_msg s1 = to_hosts g m0) as (H1 & H2 & H3 & H4 & H5).
    { unfold s1. destruct s. cbn in *. subst. split_and!; try done. by rewrite (take_S_r _ _ _ Hg), map_app. }
    unfold s2. destruct (ex_publish xch) as [[t1 t2]|]; [|done].
    destruct (on_total_opts (StartPublish t1) s1) as (Ha1 & Ha2 & Ha3 & Ha4 & Ha5).
    destruct (on_total_opts (EndPublish t2) (on_total (StartPublish t1) s1)) as (-> & -> & -> & -> & ->).
    rewrite Ha1, Ha2, Ha3, Ha4, Ha5. destruct (publish_view t1 t2 (ro_totalStats (ss_opts s1))) as [Hv1 Hv2].
    split_and!; [done|done| |done|done]. by eapply accounts_view. }
  clearbody s2. clear s1. destruct (untotal_fields _ Hopts2) as (_ & _ & Hty & Hpr).
  unfold counts in Hc. injection Hc as Hp0 Hf0. unfold replies_of. fold xch. rewrite Hpr.
  destruct (ro_ProcessReplies o0); cbn [negb].
  2: { intros [= <- <- <-]. right. split_and!; try done.
       - rewrite Ho. cbn. set_solver.
       - unfold counts. by rewrite Hp0, Hf0. }
  destruct (handle_replies _ _ _) as [hs oh] eqn:Hh.
  apply handle_replies_spec in Hh; [|by rewrite Hty]. cbn [hs_stats] in Hh. rewrite Ho, Hd, Hp0, Hf0, !Z.add_0_l in Hh.
  destruct Hh as [[why ->]|(-> & Hho & Hhc & Hhd)]; intros [= <- <- <-]; [by left; exists why|]. right.
  destruct s2. cbn in *. by split_and!.
Qed.

Hypothesis HT : NoDup (ro_Targets o0).
Hypothesis Hsize : (0 < ro_BatchSize o0)%Z.
Hypothesis Htype : ro_RequestType o0 ≠ ServiceRequestMessageType.

(** The nodes of a batch are awaited until it runs. *)
Lemma group_outstanding k g t : accounts k t → gs !! k = Some g → NoDup g ∧ list_to_set g ⊆ st_outstandingNodes t.
Proof.
  intros [Ha _ _] Hg. assert (concat gs = ro_Targets o0) as Hcat by by apply groups_concat.
  assert (NoDup (concat gs)) as Hnd by by rewrite Hcat. split; [by eapply NoDup_concat_part|].
  intros x Hx. apply elem_of_list_to_set in Hx. rewrite Ha. apply elem_of_difference. split.
  - apply elem_of_list_to_set. rewrite <- Hcat. apply list_elem_of_In, in_concat. exists g.
    split; [|by apply list_elem_of_In]. apply list_elem_of_In. by eapply list_elem_of_lookup_2.
  - intros Hin. apply elem_of_list_to_set, list_elem_of_In, in_concat in Hin as (l & Hl & Hxl).
    apply in_map_iff in Hl as (r & <- & Hr). apply in_map_iff in Hr as (i & <- & Hi). apply in_seq in Hi.
    unfold answers in Hxl. apply List.filter_In in Hxl as [Hxl _]. cbn in Hxl.
    destruct (gs !! i) as [gi|] eqn:Hgi; [|done]. apply list_elem_of_In in Hxl.
    by apply (NoDup_concat_disjoint gs i k gi g x Hnd Hgi Hg ltac:(lia) Hxl).
Qed.

Lemma accounts_merge k g b t : accounts k t → gs !! k = Some g →
  st_discoveredNodes b = g → st_outstandingNodes b = list_to_set g ∖ list_to_set (senders (replies_of k g)) →
  counts b = (passes (replies_of k g), fails (replies_of k g)) → accounts (S k) (Merge b t).1.
Proof.
  intros Hacc Hg Hd Ho Hc. destruct (group_outstanding k g t Hacc Hg) as [Hnd Hsub].
  destruct (Merge_spec b t) as (Hmo & _ & Hmc); [by rewrite Hd|by rewrite Hd|].
  unfold counts in Hc, Hmc. injection Hc as Hp Hf. injection Hmc as Hmp Hmf. destruct Hacc as [Ha Hpa Hfa].
  assert (round k = (g, replies_of k g)) as Hround by (unfold round; by rewrite Hg).
  assert (answered b = answers (round k)) as Hans.
  { rewrite Hround. unfold answered, answers. rewrite Hd, Ho. cbn [fst snd]. apply List.filter_ext_in. intros n Hn.
    apply list_elem_of_In in Hn. unfold Have. destruct (elem n (senders (replies_of k g))) eqn:E.
    - apply elem_true in E. rewrite bool_decide_false; [done|set_solver].
    - apply elem_false in E. rewrite bool_decide_true; [done|set_solver]. }
  split; rewrite rounds_S, map_app, concat_app; cbn [map concat]; rewrite app_nil_r.
  - rewrite Hmo, Hans, Ha, list_to_set_app_L. set_solver.
  - rewrite Hmp, Hpa, Hp, passes_app, Hround. done.
  - rewrite Hmf, Hfa, Hf, fails_app, Hround. done.
Qed.

(** A batch whose sleep is interrupted asks nobody. *)
Lemma accounts_idle k g b t : accounts k t → gs !! k = Some g →
  st_discoveredNodes b = g → st_outstandingNodes b = list_to_set g → counts b = (0, 0)%Z → accounts k (Merge b t).1.
Proof.
  intros Hacc Hg Hd Ho Hc. destruct (group_outstanding k g t Hacc Hg) as [Hnd Hsub].
  destruct (Merge_spec b t) as (Hmo & _ & Hmc); [by rewrite Hd|by rewrite Hd|].
  unfold counts in Hc. injection Hc as Hp Hf. rewrite Hp, Hf, !Z.add_0_r in Hmc.
  assert (answered b = []) as Hans.
  { unfold answered. rewrite Hd, Ho. apply elem_of_nil_inv. intros n Hn.
    apply list_elem_of_In, List.filter_In in Hn as [Hn Hb]. apply list_elem_of_In in Hn. unfold Have in Hb.
    by rewrite bool_decide_true in Hb by set_solver. }
  eapply accounts_view; [|exact Hmc|done]. rewrite Hmo, Hans. set_solver.
Qed.

Lemma ended_ctr k s : ended k s → ended k (s <| ss_ctr ::= S |>).
Proof. destruct s. intros [H1 H2 H3]. by split. Qed.

Lemma batch_spec k g s s' x : going k s → gs !! k = Some g → batch e g s = (s', x) →
  (∃ why, x = Panic why) ∨ (x = Ok tt ∧ going (S k) s') ∨ (∃ err k', x = Err err ∧ k' ≤ S k ∧ ended k' s').
Proof.
  intros Hgo Hg. pose proof Hgo as [[Hopts Hsent Hacc] Hctr Hmsg]. unfold batch.
  set (stats := Start (ce_now e) (SetDiscoveredNodes g NewStats)). set (s1 := s <| ss_msg ::= _ |>).
  assert (st_discoveredNodes stats = g) as Hd by done.
  assert (st_outstandingNodes stats = list_to_set g) as Ho by (cbn; rewrite AddHosts_set; set_solver).
  assert (counts stats = (0, 0)%Z) as Hc by done.
  assert (going k s1 ∧ ss_msg s1 = to_hosts g m0) as [Hgo1 Hmsg1].
  { assert (ss_msg s1 = to_hosts g m0) as Hm by (rewrite <- (Hmsg g); by destruct s). split; [|exact Hm].
    split; [|by unfold s1; destruct s|intros g'; by rewrite Hm, to_hosts_twice].
    unfold s1. destruct s. cbn in *. by split. }
  clearbody stats s1. clear Hgo Hmsg Hopts Hsent Hacc s Hctr.
  destruct (if Nat.ltb 0 (ss_ctr s1) then ce_sleep e (ss_ctr s1) else Ok tt) as [u|err|why]; [| |intros [= <- <-]; left; by exists why].
  - rewrite (go_ctr _ _ Hgo1). destruct (request e stats s1) as [s2 [stats2 x2]] eqn:Hr.
    destruct (request_spec k g stats s1 s2 stats2 x2 Htype Hgo1 Hg Hmsg1 Hd Ho Hc Hr)
      as [[why ->]|(_ & Hopts2 & Hsent2 & Hacc2 & Hctr2 & Hmsg2 & Hd2 & Ho2 & Hc2)]; [intros [= <- <-]; left; by exists why|].
    set (f := λ t, (Merge _ t).1). destruct (on_total_opts f s2) as (Ho3 & Ht3 & Hs3 & Hc3 & Hm3).
    assert (ended (S k) (on_total f s2)) as Hend.
    { split; [by rewrite Ho3|by rewrite Hs3|]. rewrite Ht3. unfold f. by apply (accounts_merge k g). }
    destruct x2 as [[]|err|why]; intros [<- <-]%pair_equal_spec; [|right; right; by exists err, (S k)|left; by exists why].
    right. left. split; [done|]. split; [by apply ended_ctr| |].
    + transitivity (S (ss_ctr (on_total f s2))); [by destruct (on_total f s2)|by rewrite Hc3, Hctr2].
    + intros g'. transitivity (to_hosts g' (ss_msg (on_total f s2))); [by destruct (on_total f s2)|].
      by rewrite Hm3, Hmsg2, to_hosts_twice.
  - intros [<- <-]%pair_equal_spec. right. right. set (f := λ t, (Merge _ t).1). destruct (on_total_opts f s1) as (Ho3 & Ht3 & Hs3 & _ & _).
    destruct Hgo1 as [[H1 H2 H3] _ _]. exists err, k. split; [done|]. split; [lia|].
    split; [by rewrite Ho3|by rewrite Hs3|]. rewrite Ht3. unfold f. by apply (accounts_idle k g).
Qed.

Lemma batches_spec n i s s' x : going i s → i + n = length gs →
  groups_from (ro_Targets o0) (Z.to_nat (ro_BatchSize o0)) n (batch e) i s = (s', x) →
  (∃ why, x = Panic why) ∨ ∃ k, k ≤ length gs ∧ ended k s' ∧ (x = Ok tt → k = length gs).
Proof.
  revert i s. induction n as [|n IH]; intros i s Hgo Hi; cbn [groups_from].
  { intros [= <- <-]. right. exists i. split; [lia|]. split; [apply Hgo|lia]. }
  assert (i < group_total (length (ro_Targets o0)) (ro_BatchSize o0)) as Hlt
    by (unfold gs, groups in Hi; rewrite length_map, length_seq in Hi; lia).
  pose proof (groups_lookup _ _ _ Hlt) as Hg. fold gs in Hg. unfold mbind, ST_bind.
  destruct (batch e _ s) as [s1 x1] eqn:Hb.
  destruct (batch_spec i _ s s1 x1 Hgo Hg Hb) as [[why ->]|[[-> Hgo1]|(err & k' & -> & Hk & He)]].
  - intros [= <- <-]. left. by exists why.
  - intros H. apply (IH (S i) s1 Hgo1 ltac:(lia) H).
  - intros [= <- <-]. right. exists k'. split; [lia|]. by split.
Qed.

(** The rounds, read off the messages that were sent. *)
Definition sent_rounds (sent : list Message) : list (list string * list string) :=
  imap (λ i m, (m_discoveredHosts m, if ro_ProcessReplies o0 then ex_replies (ce_exchange e i m) else [])) sent.

Lemma sent_rounds_spec k : k ≤ length gs → sent_rounds (map (λ g, to_hosts g m0) (take k gs)) = rounds k.
Proof.
  intros Hk. apply list_eq. intros i. unfold sent_rounds, rounds. rewrite list_lookup_imap, !list_lookup_fmap.
  destruct (decide (i < k)) as [Hi|Hi].
  - rewrite lookup_take_lt, lookup_seq_lt by done. destruct (lookup_lt_is_Some_2 gs i ltac:(lia)) as [g Hg].
    rewrite Hg. cbn. unfold round, replies_of. rewrite Hg. done.
  - rewrite lookup_take_ge, lookup_seq_ge by lia. done.
Qed.

End Rounds.

(** ** Whole requests *)

Definition start_total (o : RequestOptions) : Prop := counts (ro_totalStats o) = (0, 0)%Z.
Definition client_types : list string := [RequestMessageType; DirectRequestMessageType; ServiceRequestMessageType].

Lemma apply_option_start o opt : start_total o → ro_RequestType o ∈ client_types →
  start_total (apply_option o opt) ∧ ro_RequestType (apply_option o opt) ∈ client_types.
Proof. intros Hs Ht. destruct o, opt; cbn in *; (split; [done|]); first [done|unfold client_types; set_solver]. Qed.

Lemma setOptions_start e cfg d opts : start_total (setOptions e cfg d opts) ∧ ro_RequestType (setOptions e cfg d opts) ∈ client_types.
Proof.
  unfold setOptions. set (o := foldl _ _ _).
  assert (start_total o ∧ ro_RequestType o ∈ client_types) as [Hs Ht].
  { unfold o. assert (start_total (NewRequestOptions cfg (DDLTimeout d) (ce_now e)) ∧
      ro_RequestType (NewRequestOptions cfg (DDLTimeout d) (ce_now e)) ∈ client_types) as H0
      by (split; [done|cbn; unfold client_types; set_solver]).
    revert H0. generalize (NewRequestOptions cfg (DDLTimeout d) (ce_now e)). induction opts as [|opt opts IH]; intros o0 [H1 H2]; [done|].
    cbn. apply IH. by apply apply_option_start. }
  destruct (md_Service _); [|done]. destruct o. cbn in *. split; [done|]. unfold client_types. set_solver.
Qed.

Lemma configure_targets_start now o m o' m' : start_total o → ro_RequestType o ∈ client_types →
  configure_targets now o m = Ok (o', m') →
  ro_RequestType o' = ro_RequestType o ∧ start_total o' ∧
  (ro_RequestType o ≠ ServiceRequestMessageType → st_outstandingNodes (ro_totalStats o') = list_to_set (ro_Targets o')).
Proof.
  intros Hs Ht. unfold configure_targets. destruct (_ || _) eqn:Htype.
  - destruct (_ && _); [done|]. set (o1 := if (ro_BatchSize o =? 0)%Z then _ else o).
    assert (start_total o1 ∧ ro_RequestType o1 = ro_RequestType o) as [Hs1 Ht1]
      by (unfold o1; destruct (ro_BatchSize o =? 0)%Z; destruct o; cbn in *; done).
    clearbody o1. intros H. unfold mbind, outcome_bind in H.
    assert (∀ limited, st_outstandingNodes (SetDiscoveredNodes limited (ro_totalStats o1)) = list_to_set limited) as Hset
      by (intros limited; cbn; rewrite AddHosts_set; set_solver).
    destruct (negb _); (destruct (map_err _ _) as [limited|?|?]; [|done..]); injection H as <- <-;
      rewrite <- Ht1; destruct o1; cbn in *; (split_and!; [done|done|intros _; apply Hset]).
  - destruct (String.eqb _ ServiceRequestMessageType) eqn:Hsv.
    + apply String.eqb_eq in Hsv. destruct (negb _); [done|]. destruct (ro_Filter o) as [f|]; [|done].
      destruct (negb _); [done|]. intros [= <- <-]. split_and!; done.
    + apply orb_false_iff in Htype as [H1 H2]. apply String.eqb_neq in H1, H2, Hsv. unfold client_types in Ht. set_solver.
Qed.

Lemma ConfigureMessage_start now fw o m o' m' : start_total o → ro_RequestType o ∈ client_types →
  ConfigureMessage now fw o m = Ok (o', m') →
  ro_RequestType o' = ro_RequestType o ∧ start_total o' ∧
  (ro_RequestType o ≠ ServiceRequestMessageType → st_outstandingNodes (ro_totalStats o') = list_to_set (ro_Targets o')).
Proof.
  intros Hs Ht. unfold ConfigureMessage. set (o1 := apply_update _ (apply_update _ o)).
  assert (start_total o1 ∧ ro_RequestType o1 = ro_RequestType o) as [Hs1 Ht1] by (unfold o1; destruct o; cbn in *; done).
  clearbody o1. unfold mbind, outcome_bind. destruct (configure_targets now o1 m) as [[o2 m2]|?|?] eqn:Hc; [|done..].
  apply configure_targets_start in Hc as (Ht2 & Hs2 & Ho2); [|done|by rewrite Ht1]. rewrite Ht1 in Ht2, Ho2.
  destruct (SetType _ _) as [m3|?|?]; [|done..]. set (std := ReplyTarget _).
  set (o3 := if String.eqb (ro_ReplyTo o2) "" then _ else o2).
  set (o4 := if negb (String.eqb std (ro_ReplyTo o3)) then _ else o3).
  assert (ro_RequestType o4 = ro_RequestType o2 ∧ ro_totalStats o4 = ro_totalStats o2 ∧ ro_Targets o4 = ro_Targets o2) as (H1 & H2 & H3).
  { unfold o4, o3. destruct (String.eqb (ro_ReplyTo o2) ""), (negb _); by destruct o2. }
  clearbody o4. destruct (MessageSetReplyTo _ _) as [m4|?|?]; [|done..]. destruct (SetCollective _ _ _) as [m5|?|?]; [|done..].
  destruct (cached_ttl _ _) as [m6|?|?]; [|done..]. intros [= <- <-]. unfold start_total. by rewrite H1, H2, H3.
Qed.

Lemma prepare_start e fw cfg action payload opts r r' o m : prepare e fw cfg action payload opts r = (r', Ok (o, m)) →
  ro_RequestType o ≠ ServiceRequestMessageType →
  start_total o ∧ st_outstandingNodes (ro_totalStats o) = list_to_set (ro_Targets o).
Proof.
  unfold prepare, gets, mbind, ST_bind, lift, mret, ST_ret. destruct (resolveDDL e r) as [r1 [d|?|?]]; [|done..].
  destruct (negb (String.eqb (md_Name (ddl_Metadata d)) (rpc_agent r1))); [done|]. set (o1 := setOptions e cfg d opts).
  destruct (setOptions_start e cfg d opts) as [Hs1 Ht1]. fold o1 in Hs1, Ht1. clearbody o1.
  set (disc := if _ && _ then _ else _).
  destruct (disc r1) as [r2 [o2|?|?]] eqn:Hd; [|done..].
  assert (start_total o2 ∧ ro_RequestType o2 ∈ client_types) as [Hs2 Ht2].
  { unfold disc in Hd. destruct (_ && _); [|by injection Hd as <- <-]. unfold wrap_err, discover in Hd.
    destruct (ro_Filter o1) as [f|]; [|done]. unfold mbind, ST_bind, gets, modify, lift, mret, ST_ret in Hd.
    destruct (Nat.ltb _ _); (destruct (if String.eqb _ _ then _ else _) as [n|?|?]; [|done..]);
      (destruct (Nat.eqb _ _); [done|]); injection Hd as <- <-; by destruct o1. }
  clear Hd disc.
  destruct (map_err _ (setupMessage _ _ _ _ _ _ _ _)) as [[o3 m3]|?|?] eqn:Hm; [|done..].
  destruct (match ro_DiscoveryEndCB o3 with Some _ => _ | None => _ end); [|done..]. intros [= <- <- <-].
  destruct (setupMessage _ _ _ _ _ _ _ _) as [[o4 m4]|?|?] eqn:Hset; [|done..]. injection Hm as -> ->.
  unfold setupMessage, mbind, outcome_bind in Hset. destruct (map_err _ payload) as [pj|?|?]; [|done..].
  destruct (NewMessage _ _ _ _ _ _ _) as [m0|?|?]; [|done..].
  destruct (ConfigureMessage _ _ _ _) as [[o5 m5]|?|?] eqn:Hconf; [|done..]. injection Hset as -> ->.
  apply ConfigureMessage_start in Hconf as (Ht3 & Hs3 & Ho3).
  - destruct o3. cbn in *. intros Hty. split; [done|]. apply Ho3. by rewrite <- Ht3.
  - destruct (md_Service _); by destruct o2.
  - destruct (md_Service _); by destruct o2.
Qed.

Lemma on_total_untotal f s : untotal (ss_opts (on_total f s)) = untotal (ss_opts s).
Proof. by destruct s as [[] ? ? ? ?]. Qed.
Lemma on_total_type f s : ro_RequestType (ss_opts (on_total f s)) = ro_RequestType (ss_opts s).
Proof. by destruct s as [[] ? ? ? ?]. Qed.

Lemma request_untotal e stats s : untotal (ss_opts (request e stats s).1) = untotal (ss_opts s).
Proof.
  unfold request. set (s1 := s <| ss_sent ::= _ |>). set (s2 := match ex_publish _ with Some _ => _ | None => s1 end).
  assert (untotal (ss_opts s2) = untotal (ss_opts s)) as Hs2.
  { unfold s2. destruct (ex_publish _) as [[t1 t2]|]; rewrite ?on_total_untotal; by destruct s. }
  clearbody s2. destruct (negb _); [done|]. destruct (handle_replies _ _ _) as [hs oh]. rewrite <- Hs2. by destruct s2.
Qed.

Lemma request_type e stats s : ro_RequestType (ss_opts (request e stats s).1) = ro_RequestType (ss_opts s).
Proof.
  pose proof (request_untotal e stats s) as H. apply (f_equal ro_RequestType) in H.
  revert H. generalize (ss_opts (request e stats s).1). intros o. destruct o, (ss_opts s). done.
Qed.

Lemma batch_untotal e g s : untotal (ss_opts (batch e g s).1) = untotal (ss_opts s).
Proof.
  unfold batch. set (stats := Start _ _). set (s1 := s <| ss_msg ::= _ |>).
  assert (untotal (ss_opts s1) = untotal (ss_opts s)) as H1 by by destruct s. clearbody s1. rewrite <- H1.
  destruct (if Nat.ltb 0 _ then _ else _); [|apply on_total_untotal..].
  pose proof (request_untotal e stats s1) as Hr. destruct (request e stats s1) as [s2 [stats2 x2]]. cbn [fst] in Hr. rewrite <- Hr.
  destruct x2; cbn [fst]; [|apply on_total_untotal..].
  set (s3 := on_total _ s2). transitivity (untotal (ss_opts s3)); [by destruct s3|apply on_total_untotal].
Qed.

Lemma groups_untotal e set size n i s : untotal (ss_opts (groups_from set size n (batch e) i s).1) = untotal (ss_opts s).
Proof.
  revert i s. induction n as [|n IH]; intros i s; [done|]. cbn [groups_from]. unfold mbind, ST_bind.
  pose proof (batch_untotal e (take size (drop (i * size) set)) s) as Hb.
  destruct (batch e _ s) as [s1 [[]|?|?]]; cbn [fst] in *; [|done..]. by rewrite IH.
Qed.

Lemma service_type e s : ro_RequestType (ss_opts (doServiceRequest e s).1) = ro_RequestType (ss_opts s).
Proof.
  unfold doServiceRequest. set (s0 := s <| ss_opts ::= _ |>). pose proof (request_type e NewStats s0) as Hr.
  assert (ro_RequestType (ss_opts s0) = ro_RequestType (ss_opts s)) as H0 by (destruct s as [[] ? ? ? ?]; done).
  destruct (request e NewStats s0) as [s1 [stats x]]. cbn [fst] in Hr. rewrite H0 in Hr. clear H0 s0.
  set (l := map fst _). set (s2 := if ro_Handler (ss_opts s) then s1 else _).
  assert (ro_RequestType (ss_opts s2) = ro_RequestType (ss_opts s)) as Hs2 by (rewrite <- Hr; unfold s2; destruct (ro_Handler _); by destruct s1).
  clearbody s2 l. destruct l as [|first l]; cbn [fst]; rewrite !on_total_type; done.
Qed.

(** C11. A request that is not to a service reaches its targets in batches, each target at
    most once, in their order, and all of them when it succeeds; and whatever the network
    delivers, garbage, failures, answers of strangers and too many of them included, its
    statistics account for it: exactly the targets whose batch brought no reply of theirs
    are reported as missing, the replies with status 0 are the successes, and every other
    message that was handled is a failure. *)
Theorem batched_request_accounts (e : client_env) (fw : FrameworkConfig) (cfg : ClientConfig) (action : string)
    (payload : res string) (opts : list RequestOption) (r r' : RPC) (s : Session) (x : res ()) :
  let o := ss_opts s in
  let t := ro_totalStats o in
  let asked := map m_discoveredHosts (ss_sent s) in
  let exchanges := sent_rounds e o (ss_sent s) in
  let handled := concat (map snd exchanges) in
  Do e fw cfg action payload opts r = (r', Ok (s, x)) →
  ro_RequestType o ≠ ServiceRequestMessageType → (0 < ro_BatchSize o)%Z → NoDup (ro_Targets o) →
  (concat asked `prefix_of` ro_Targets o ∧ (x = Ok tt → concat asked = ro_Targets o) ∧
   Forall (λ g, 0 < length g ≤ Z.to_nat (ro_BatchSize o)) asked) ∧
  st_outstandingNodes t = list_to_set (ro_Targets o) ∖ list_to_set (concat (map answers exchanges)) ∧
  st_passed t = passes handled ∧ st_failed t = fails handled ∧ (st_passed t + st_failed t = Z.of_nat (length handled))%Z.
Proof.
  cbv zeta. intros Hdo Ht Hsize Hnd. unfold Do in Hdo. unfold mbind at 1, ST_bind at 1 in Hdo.
  destruct (prepare e fw cfg action payload opts r) as [r1 [[o m]|?|?]] eqn:Hp; [|done..].
  set (s0 := {| ss_opts := o; ss_msg := m; ss_ctr := 0; ss_sent := []; ss_handled := [] |}) in Hdo.
  destruct (String.eqb_spec (ro_RequestType o) ServiceRequestMessageType) as [Hsv|Hty].
  { exfalso. pose proof (service_type e s0) as Htype. destruct (doServiceRequest e s0) as [s1 x1]. apply Ht.
    assert (s = on_total (End_ (ce_ends e (ss_ctr s1))) s1) as ->
      by (destruct x1 as [[]|?|?]; [| |done]; apply pair_equal_spec in Hdo as [_ Hdo]; congruence).
    rewrite on_total_type. cbn [fst] in Htype. by rewrite Htype. }
  destruct (prepare_start _ _ _ _ _ _ _ _ _ _ Hp Hty) as [Hstart Hout].
  destruct (doBatchedRequest e s0) as [s1 x1] eqn:Hs. unfold doBatchedRequest, InGroups in Hs. cbn [ss_opts s0] in Hs.
  assert (s = on_total (End_ (ce_ends e (ss_ctr s1))) s1 ∧ x = x1 ∧ ∀ why, x1 ≠ Panic why) as (-> & -> & Hnp)
    by (destruct x1 as [[]|?|?]; [| |done]; apply pair_equal_spec in Hdo as [_ Hdo]; (split; [|split]; congruence)).
  clear Hdo. set (f := End_ _) in *. destruct (on_total_opts f s1) as (Hu & Htot & Hsent & _ & _). rewrite Hsent, Htot in *.
  assert (untotal (ss_opts (on_total f s1)) = untotal o) as Hun.
  { rewrite Hu. pose proof (groups_untotal e (ro_Targets o) (Z.to_nat (ro_BatchSize o)) (group_total (length (ro_Targets o)) (ro_BatchSize o)) 0 s0) as H.
    by rewrite Hs in H. }
  destruct (untotal_fields o _ Hun) as (Htg & Hsz & _ & Hpr). clear Hun.
  unfold sent_rounds. rewrite Htg, Hsz, Hpr in *.
  destruct (batches_spec e m o Hnd Hsize Hty (group_total (length (ro_Targets o)) (ro_BatchSize o)) 0 s0 s1 x1) as [[why ->]|(k & Hk & [Hopts Hs1 Hacc] & Hok)].
  - split; [split; [done|done|]|done|done]. unfold start_total, counts in Hstart. injection Hstart as Hp0 Hf0.
    unfold s0. cbn [ss_opts]. split; [rewrite Hout; cbn; set_solver|exact Hp0|exact Hf0].
  - unfold groups. by rewrite length_map, length_seq.
  - exact Hs.
  - by destruct (Hnp why).
  - rewrite Hs1. fold (sent_rounds e o (map (λ g, to_hosts g m) (take k (groups (ro_Targets o) (ro_BatchSize o))))).
    rewrite sent_rounds_spec by done. destruct Hacc as [Ha Hpa Hfa].
    assert (map m_discoveredHosts (map (λ g, to_hosts g m) (take k (groups (ro_Targets o) (ro_BatchSize o)))) =
      take k (groups (ro_Targets o) (ro_BatchSize o))) as ->.
    { rewrite map_map. rewrite <- (map_id (take k _)) at 2. apply map_ext. by intros g; destruct m. }
    split_and!; [| | |exact Ha|exact Hpa|exact Hfa|].
    + exists (concat (drop k (groups (ro_Targets o) (ro_BatchSize o)))). by rewrite <- concat_app, take_drop, groups_concat.
    + intros Hx. rewrite (Hok Hx), take_ge by done. by apply groups_concat.
    + apply Forall_take, groups_sizes. done.
    + unfold f. cbn. rewrite Hpa, Hfa. apply passes_fails.
Qed.

End Client.

(** ** Limits *)

Class LawfulShuffler `{SH : Shuffler} := { shuffle_perm : ∀ seed l, rand_Shuffle seed l ≡ₚ l }.

Section LimitTheorems.
Context `{LS : LawfulShuffler}.

(** A limit within the targets selects that many of them, the first of them or any. *)
Lemma limited_targets (now : Z) (o : RequestOptions) (targets : list string) (count : Z) :
  ro_LimitMethod o ∈ ["random"; "first"] → ro_LimitSize o ≠ "" → limit_count (ro_LimitSize o) (length targets) = Ok count →
  (0 < count ≤ Z.of_nat (length targets))%Z → (count ≤ make_limit)%Z →
  ∃ l, limitTargets now o targets = Ok l ∧ Z.of_nat (length l) = count ∧ l ⊆+ targets ∧
    (ro_LimitMethod o = "first" → l `prefix_of` targets).
Proof.
  intros Hm Hs Hc Hpos Hmax. unfold limitTargets.
  assert (String.eqb (ro_LimitMethod o) "random" || String.eqb (ro_LimitMethod o) "first" = true) as ->.
  { apply orb_true_iff. rewrite !String.eqb_eq. set_solver. }
  cbn [negb]. rewrite (proj2 (String.eqb_neq _ _) Hs), Hc. cbn [mbind outcome_bind].
  rewrite (proj2 (Z.leb_gt _ _)), (proj2 (Z.ltb_ge _ _)) by lia.
  replace (Z.to_nat count - length targets) with 0 by lia. cbn [replicate]. rewrite app_nil_r.
  assert (shuffleLimitedTargets now o targets ≡ₚ targets) as Hperm
    by (unfold shuffleLimitedTargets; destruct (negb _); [done|apply shuffle_perm]).
  eexists. split; [done|]. split; [rewrite length_take, (Permutation_length Hperm); lia|]. split.
  - rewrite <- Hperm at 2. apply sublist_submseteq, sublist_take.
  - intros Hf. unfold shuffleLimitedTargets. rewrite Hf. apply prefix_take.
Qed.

End LimitTheorems.

(** ** A concrete request *)


Definition demo_conditions (r : RPC * outcome string (Session * res ())) : bool :=
  match r.2 with
  | Ok (s, x) =>
      let o := ss_opts s in
      negb (String.eqb (ro_RequestType o) ServiceRequestMessageType) && (0 <? ro_BatchSize o)%Z &&
      bool_decide (ro_Targets o = ["n1"; "n2"; "n3"]) && is_ok x
  | _ => false
  end.

Lemma demo_do_conditions : demo_conditions demo_do = true.
Proof. vm_compute. reflexivity. Qed.

Definition demo_handled (s : Session) : nat :=
  length (concat (map snd (sent_rounds demo_client_env (ss_opts s) (ss_sent s)))).

Lemma demo_do_handled : match demo_do.2 with Ok (s, _) => demo_handled s | _ => 0 end = 5.
Proof. vm_compute. reflexivity. Qed.

Lemma demo_do_ok : ∃ r' s, demo_do = (r', Ok (s, Ok tt)) ∧ ro_RequestType (ss_opts s) ≠ ServiceRequestMessageType ∧
  (0 < ro_BatchSize (ss_opts s))%Z ∧ ro_Targets (ss_opts s) = ["n1"; "n2"; "n3"] ∧ demo_handled s = 5.
Proof.
  pose proof demo_do_conditions as Hc. pose proof demo_do_handled as Hn. revert Hc Hn.
  generalize demo_do. intros [r' [[s x]| |]] Hc Hn; [|discriminate Hc..]. unfold demo_conditions in Hc. cbn [snd] in *.
  apply andb_prop in Hc as [Hc Hx]. apply andb_prop in Hc as [Hc Ht]. apply andb_prop in Hc as [Hty Hb].
  apply negb_true_iff, String.eqb_neq in Hty. apply Z.ltb_lt in Hb. apply bool_decide_eq_true in Ht.
  apply is_ok_Ok in Hx as [[] ->]. by exists r', s.
Qed.

Lemma demo_do_eq : demo_do = Do demo_client_env demo_framework demo_client_config "ping" (Ok "")
  [Targets ["n1"; "n2"; "n3"]; InBatches 2 1] (NewRPC demo_client_config "rpcutil").
Proof. reflexivity. Qed.

Lemma demo_targets_nodup : NoDup ["n1"; "n2"; "n3"].
Proof. apply (bool_decide_unpack _). vm_compute. exact I. Qed.

Lemma batched_request_accounts_witness : ∃ r' s,
  demo_do = (r', Ok (s, Ok tt)) ∧ concat (map m_discoveredHosts (ss_sent s)) = ["n1"; "n2"; "n3"] ∧
  (st_passed (ro_totalStats (ss_opts s)) + st_failed (ro_totalStats (ss_opts s)) = 5)%Z.
Proof.
  destruct demo_do_ok as (r' & s & Hdo & Hty & Hb & Ht & Hn). pose proof Hdo as Hdo'. rewrite demo_do_eq in Hdo'.
  apply batched_request_accounts in Hdo' as ((_ & Hall & _) & _ & _ & _ & Hsum); [|exact Hty|exact Hb|rewrite Ht; exact demo_targets_nodup].
  exists r', s. split; [exact Hdo|]. split; [rewrite <- Ht; apply Hall; reflexivity|].
  rewrite Hsum. unfold demo_handled in Hn. rewrite Hn. reflexivity.
Defined.

(** A limit beyond the targets names nobody for the rest; a limit that is no number of
    the machine ends the client. *)
Example padded_targets :
  let o := foldl apply_option (NewRequestOptions demo_client_config 10 0) [LimitSize "3"] in
  limitTargets 0 o ["n1"] = Ok ["n1"; ""; ""].
Proof. vm_compute. reflexivity. Qed.

Example huge_limit_panics :
  let o := foldl apply_option (NewRequestOptions demo_client_config 10 0) [LimitSize "99999999999999999999"] in
  limitTargets 0 o ["n1"] = Panic "makeslice: len out of range".
Proof. vm_compute. reflexivity. Qed.

(** Batches of a negative size ask nobody, and succeed. *)
Example negative_batches_ask_nobody :
  match (Do demo_client_env demo_framework demo_client_config "ping" (Ok "") [Targets ["n1"; "n2"; "n3"]; InBatches (-1) 1]
    (NewRPC demo_client_config "rpcutil")).2 with
  | Ok (s, x) => ss_sent s = [] ∧ x = Ok tt
  | _ => False
  end.
Proof. vm_compute. done. Qed.
