(* ===== verification/Framework.v ===== *)
(** * Cached SRV lookups and lists of servers

    srvcache/: the cache of SRV answers and the servers named by answers and by
    configuration. URL parsing, splitting of addresses and the resolver are arguments; a
    lookup reads the clock once. *)
From S2P Require Import Prelude Records GoLib.

(** ** Servers *)

Record Server := { srv_host : string; srv_port : Z; srv_scheme : string }.

Definition uint16 (z : Z) : Z := z mod 65536.

Definition NewServer (host : string) (port : Z) (scheme : string) : Server :=
  {| srv_host := host; srv_port := uint16 port; srv_scheme := scheme |}.

Definition SetPort (port : Z) (s : Server) : Server := s <| srv_port := uint16 port |>.
Definition SetScheme (scheme : string) (s : Server) : Server := s <| srv_scheme := scheme |>.

Definition HostPort (s : Server) : string := srv_host s +:+ ":" +:+ itoa (srv_port s).

Definition server_String (s : Server) : string :=
  if String.eqb (srv_scheme s) "" then HostPort s else srv_scheme s +:+ "://" +:+ HostPort s.

(** The text that is parsed as the URL of a server. *)
Definition server_URL (s : Server) : res string :=
  if String.eqb (srv_scheme s) "" then Err ("server " +:+ HostPort s +:+ " has no scheme, cannot make a URL")
  else Ok (srv_scheme s +:+ "://" +:+ HostPort s).

Definition Strings (l : list Server) : list string := map server_String l.
Definition HostPorts (l : list Server) : list string := map HostPort l.

Fixpoint URLs (l : list Server) : res (list string) :=
  match l with
  | [] => Ok []
  | s :: rest => u ← server_URL s; us ← URLs rest; Ok (u :: us)
  end.

(** [Each] with a callback that gives a server without a scheme one. *)
Definition default_scheme (scheme : string) (s : Server) : Server :=
  if String.eqb (srv_scheme s) "" then SetScheme scheme s else s.

Class NetLib := {
  (** the scheme and the host [url.Parse] finds *)
  url_Parse : string → option (string * string);
  (** [net.SplitHostPort] *)
  split_host_port : string → (string * string) + string;
}.

(** A value or the text of an error. *)
Definition of_sum {A} (x : A + string) : res A := match x with inl a => Ok a | inr e => Err e end.

(** [strconv.ParseUint(s, 10, 16)] *)
Definition parse_uint16 (s : string) : option Z :=
  if String.eqb s "" || negb (forallb is_digit (String.list_ascii_of_string s)) then None
  else p ← digits_val 0 s; if (p <=? 65535)%Z then Some p else None.

Section Hosts.
Context `{NL : NetLib}.

Definition string_host (scheme s : string) : res Server :=
  let s := trim_space s in
  let '(s, detected) :=
    match url_Parse s with
    | Some (u_scheme, u_host) =>
        if negb (String.eqb u_host "") then (u_host, if negb (String.eqb u_scheme "") then u_scheme else scheme) else (s, scheme)
    | None => (s, scheme)
    end in
  '(host, sport) ← map_err (λ e, "could not parse host " +:+ s +:+ ": " +:+ e) (of_sum (split_host_port s));
  match parse_uint16 sport with
  | None => Err ("could not parse host port " +:+ s)
  | Some port =>
      if String.eqb scheme "" && String.eqb detected "" then Err ("no scheme provided and " +:+ s +:+ " has no scheme")
      else Ok {| srv_host := trim_space host; srv_port := port; srv_scheme := detected |}
  end.

Fixpoint StringHostsToServers (hosts : list string) (scheme : string) : res (list Server) :=
  match hosts with
  | [] => Ok []
  | h :: rest => s ← string_host scheme h; l ← StringHostsToServers rest scheme; Ok (s :: l)
  end.

End Hosts.

(** ** The cache *)

Record SRV := { srv_Target : string; srv_Port : Z }.
Record query := { q_service : string; q_proto : string; q_name : string }.

#[export] Instance query_eq_dec : EqDecision query.
Proof. solve_decision. Defined.
#[export] Instance query_countable : Countable query.
Proof.
  apply (inj_countable' (λ q, (q_service q, q_proto q, q_name q)) (λ x, {| q_service := x.1.1; q_proto := x.1.2; q_name := x.2 |})).
  by intros [].
Defined.

(** [None] for addresses that are nil. *)
Record entry := { e_cname : string; e_addrs : option (list SRV); e_expTime : Z }.

Record Cache := { c_cache : gmap query entry; c_maxAge : Z }.

Definition NewCache (maxAge : Z) : Cache := {| c_cache := ∅; c_maxAge := maxAge |}.

(** A lookup of the resolver: the canonical name and the addresses. *)
Abbreviation resolver := (string → (string * option (list SRV)) + string).

Definition store (now : Z) (q : query) (cname : string) (addrs : option (list SRV)) (c : Cache) : Cache :=
  c <| c_cache ::= <[q := {| e_cname := cname; e_addrs := addrs; e_expTime := now + c_maxAge c |}]> |>.

Definition retrieve (now : Z) (q : query) (c : Cache) : Cache * (string * option (list SRV)) :=
  match c_cache c !! q with
  | None => (c, ("", None))
  | Some e => if (now <? e_expTime e)%Z then (c, (e_cname e, e_addrs e)) else (c <| c_cache ::= delete q |>, ("", None))
  end.

(** What was found in the cache is stored again. *)
Definition LookupSRV (now : Z) (resolve : resolver) (service proto name : string) : ST Cache string (string * option (list SRV)) := λ c,
  let q := {| q_service := service; q_proto := proto; q_name := name |} in
  let '(c, (cname, addrs)) := retrieve now q c in
  match addrs with
  | Some _ => (store now q cname addrs c, Ok (cname, addrs))
  | None =>
      match resolve name with
      | inl (cname, addrs) => (store now q cname addrs c, Ok (cname, addrs))
      | inr e => (c, Err e)
      end
  end.

Definition trim_dots (s : string) : string := trim_right (Ascii.eqb ".") s.

Definition LookupSrvServers (now : Z) (resolve : resolver) (service proto name scheme : string) : ST Cache string (list Server) :=
  '(_, addrs) ← LookupSRV now resolve service proto name;
  mret (map (λ a, {| srv_host := trim_dots (srv_Target a); srv_port := srv_Port a; srv_scheme := scheme |}) (default [] addrs)).

(** * The framework: brokers, tokens and provisioning

    choria/framework.go, build/ and providers/provtarget: which servers a program connects
    to, which token and seed it signs with, whether it is in provisioning mode and what that
    mode changes in its configuration.  Facter, files, the JWT library and the environment
    are arguments; logging, colors and the set-up of the security provider are left out. *)
From S2P Require Import Util AuthTypes.

(** ** Build settings *)

Record BuildInfo := {
  bi_ProvisionSecure : string;
  bi_ProvisionBrokerURLs : string;
  bi_ProvisionBrokerSRVDomain : string;
  bi_ProvisionModeDefault : string;
  bi_ProvisionRegistrationData : string;
  bi_ProvisionFacts : string;
  bi_ProvisionToken : string;
  bi_ProvisionJWTFile : string;
  bi_ProvisionStatusFile : string;
  bi_ProvisioningBrokerUsername : string;
  bi_ProvisioningBrokerPassword : string;
  bi_ProvisioningUsesProtocolV2 : string;
  bi_ProvisionAllowServerUpdate : string;
  bi_DefaultCollectives : string;
  bi_maxBrokerClients : string;
}.

Definition flag (s : string) : bool := String.eqb s "true".
Definition flag_text (b : bool) : string := if b then "true" else "false".

Definition DefaultCollectives (bi : BuildInfo) : list string := map trim_space (split (bi_DefaultCollectives bi) ",").
Definition MaxBrokerClients (bi : BuildInfo) : Z := default 50000%Z (atoi (bi_maxBrokerClients bi)).
Definition ProvisionDefault (bi : BuildInfo) : bool := flag (bi_ProvisionModeDefault bi).
Definition ProvisionSecurity (bi : BuildInfo) : bool := flag (bi_ProvisionSecure bi).

(** ** Configuration *)

(** The settings these functions read or change; [None] for an option that is not set. *)
Record Config := {
  cf_ConfigFile : string;
  cf_Identity : string;
  cf_InitiatedByServer : bool;
  cf_Collectives : list string;
  cf_MainCollective : string;
  cf_Registration : list string;
  cf_RegistrationCollective : string;
  cf_RegisterInterval : Z;
  cf_RegistrationSplay : bool;
  cf_RPCAuthorization : bool;
  cf_FactSourceFile : string;
  cf_Provision : option bool;
  cf_ProvisionAllowUpdate : bool;
  cf_NatsUser : string;
  cf_NatsPass : string;
  cf_SSLDir : string;
  cf_SecurityProvider : string;
  cf_StatusFilePath : string;
  cf_StatusUpdateSeconds : Z;
  cf_FileContentRegistrationTarget : string;
  cf_FileContentRegistrationData : string;
  cf_UseSRVRecords : bool;
  cf_SRVDomain : string;
  cf_MiddlewareHosts : list string;
  cf_FederationCollectives : list string;
  cf_FederationMiddlewareHosts : list string;
  cf_NetworkPeers : list string;
  cf_PuppetDBHost : string;
  cf_PuppetDBPort : Z;
  cf_ChoriaSecuritySeedFile : string;
  cf_ChoriaSecurityTokenFile : string;
  cf_ChoriaSecuritySignReplies : bool;
  cf_ServerAnonTLS : bool;
  cf_ServerTokenFile : string;
  cf_ServerTokenSeedFile : string;
  cf_RemoteSignerTokenFile : string;
  cf_RemoteSignerTokenSeedFile : string;
}.

(** The configuration, the build settings, the cache of SRV answers and
    [protocol.Secure]. *)
Record Framework := {
  fw_Config : Config;
  fw_bi : BuildInfo;
  fw_srvcache : Cache;
  fw_Secure : string;
}.

Definition HasCollective (cf : Config) (collective : string) : bool := existsb (String.eqb collective) (cf_Collectives cf).

(** ** Tokens *)

(** [filepath.Ext] *)
Fixpoint path_ext_from (s : string) (ext : option string) : string :=
  match s with
  | "" => default "" ext
  | String c rest =>
      path_ext_from rest (if Ascii.eqb c slash then None else if Ascii.eqb c "." then Some s else ext)
  end.
Definition path_ext (s : string) : string := path_ext_from s None.

Definition SignerTokenFile (cf : Config) : res string :=
  let tf := if negb (String.eqb (cf_ChoriaSecurityTokenFile cf) "") then cf_ChoriaSecurityTokenFile cf
            else if negb (String.eqb (cf_RemoteSignerTokenFile cf) "") then cf_RemoteSignerTokenFile cf
            else if cf_ServerAnonTLS cf then cf_ServerTokenFile cf
            else "" in
  if String.eqb tf "" then Err "no token file defined" else Ok tf.

Definition key_file (t : string) : string := trim_suffix t (path_ext t) +:+ ".key".

Definition SignerSeedFile (cf : Config) : res string :=
  let beside := t ← SignerTokenFile cf; Ok (key_file t) in
  if negb (String.eqb (cf_ChoriaSecuritySeedFile cf) "") then Ok (cf_ChoriaSecuritySeedFile cf)
  else if cf_ServerAnonTLS cf then
    if negb (String.eqb (cf_ServerTokenSeedFile cf) "") then Ok (cf_ServerTokenSeedFile cf) else beside
  else if negb (String.eqb (cf_RemoteSignerTokenSeedFile cf) "") then Ok (cf_RemoteSignerTokenSeedFile cf)
  else beside.

(** The purposes of tokens, whether their claims parse and are valid, when they expire
    and who an unverified token names; [os.ReadFile]. *)
Class SignerTokens := {
  st_ReadFile : string → res string;
  ProvisioningPurpose : string;
  st_purpose : string → Purpose;
  st_client_valid : string → res Z;
  st_server_valid : string → res Z;
  st_identity : string → res string;
  st_caller : string → res string;
}.

(** What [provtarget] reads: the claims of a provisioning token, unverified. *)
Record ProvisioningClaims := {
  pc_Token : string;
  pc_SRVDomain : string;
  pc_URLs : string;
  pc_ProtoV2 : bool;
  pc_AllowUpdate : bool;
  pc_ProvDefault : bool;
  pc_Secure : bool;
  pc_ProvFacts : string;
  pc_ProvRegData : string;
  pc_ProvNatsUser : string;
  pc_ProvNatsPass : string;
}.

Section Tokens.
Context `{ST : SignerTokens} `{PF : Platform}.

(** The token and its expiry; a provisioning token has none. *)
Definition SignerToken (cf : Config) : res (string * option Z) :=
  tf ← SignerTokenFile cf;
  tb ← map_err (λ e, "could not read token file: " +:+ e) (st_ReadFile tf);
  exp ← match st_purpose tb with
        | ClientIDPurpose => e ← st_client_valid tb; Ok (Some e)
        | ServerPurpose => e ← st_server_valid tb; Ok (Some e)
        | OtherPurpose p =>
            if String.eqb p ProvisioningPurpose then Ok None
            else Err ("cannot use token " +:+ tf +:+ " with purpose " +:+ p +:+ " as signer token")
        end;
  Ok (trim_space tb, exp).

(** Who the token names and the identifier of that. *)
Definition UniqueIDFromUnverifiedToken (cf : Config) : res (string * string) :=
  '(ts, _) ← SignerToken cf;
  tid ← (if cf_InitiatedByServer cf then st_identity ts else st_caller ts);
  Ok (tid, hex_encode (if fips140_Enabled then sha256_Sum256 tid else md5_Sum tid)).

Definition CallerID (cf : Config) (certname : string) : res string :=
  match UniqueIDFromUnverifiedToken cf with
  | Ok (caller, _) => Ok caller
  | Err _ => Ok ("choria=" +:+ certname)
  | Panic p => Panic p
  end.

(** ** Provisioning *)

Definition ProvisionMode (cf : Config) (bi : BuildInfo) : bool :=
  if negb (cf_InitiatedByServer cf) ||
     (String.eqb (bi_ProvisionBrokerURLs bi) "" && String.eqb (bi_ProvisionJWTFile bi) "" && String.eqb (bi_ProvisionToken bi) "")
  then false
  else
    match cf_Provision cf with
    | Some b => b
    | None =>
        let caller := match UniqueIDFromUnverifiedToken cf with Ok (c, _) => c | _ => "" end in
        if negb (String.eqb caller "") && negb (String.eqb (cf_Identity cf) caller) then true
        else ProvisionDefault bi
    end.

Definition SupportsProvisioning (cf : Config) (bi : BuildInfo) : bool :=
  ProvisionMode cf bi || negb (String.eqb (bi_ProvisionToken bi) "").

(** [SetBuildBasedOnJWT] *)
Definition SetBuildBasedOnJWT (claims : res ProvisioningClaims) (bi : BuildInfo) : res BuildInfo :=
  c ← claims;
  if String.eqb (pc_Token c) "" then Err "no auth token"
  else if String.eqb (pc_SRVDomain c) "" && String.eqb (pc_URLs c) "" then Err "no srv domain or urls"
  else if negb (String.eqb (pc_SRVDomain c) "") && negb (String.eqb (pc_URLs c) "") then Err "both srv domain and URLs supplied"
  else
    let unless_empty (v : string) (old : string) := if negb (String.eqb v "") then v else old in
    Ok (bi <| bi_ProvisionBrokerURLs := pc_URLs c |> <| bi_ProvisionToken := pc_Token c |>
           <| bi_ProvisionBrokerSRVDomain := pc_SRVDomain c |>
           <| bi_ProvisioningUsesProtocolV2 := flag_text (pc_ProtoV2 c) |>
           <| bi_ProvisionAllowServerUpdate := flag_text (pc_AllowUpdate c) |>
           <| bi_ProvisionModeDefault := flag_text (pc_ProvDefault c) |>
           <| bi_ProvisionSecure := flag_text (pc_Secure c) |>
           <| bi_ProvisionFacts ::= unless_empty (pc_ProvFacts c) |>
           <| bi_ProvisionRegistrationData ::= unless_empty (pc_ProvRegData c) |>
           <| bi_ProvisioningBrokerUsername ::= unless_empty (pc_ProvNatsUser c) |>
           <| bi_ProvisioningBrokerPassword ::= unless_empty (pc_ProvNatsPass c) |>).

(** [Resolver.Configure]; [open_claims] reads and parses the file. *)
Definition target_Configure (open_claims : string → res ProvisioningClaims) (bi : BuildInfo) : BuildInfo :=
  let jwtf := bi_ProvisionJWTFile bi in
  if String.eqb jwtf "" || negb (FileExist jwtf) then bi
  else match SetBuildBasedOnJWT (open_claims jwtf) bi with Ok bi' => bi' | _ => bi end.

(** [Resolver.Targets]: the tries of the SRV lookup are the servers each found, until the
    program is stopped. *)
Fixpoint srv_targets (tries : list (res (list Server))) : list string :=
  match tries with
  | [] => []
  | Ok (s :: l) :: _ => Strings (s :: l)
  | _ :: rest => srv_targets rest
  end.

Definition target_Targets (bi : BuildInfo) (tries : list (res (list Server))) : list string :=
  if negb (String.eqb (bi_ProvisionBrokerURLs bi) "") then split (bi_ProvisionBrokerURLs bi) ","
  else if String.eqb (bi_ProvisionBrokerSRVDomain bi) "" then []
  else srv_targets tries.

Definition ProvisioningServers `{NetLib} (bi : BuildInfo) (tries : list (res (list Server))) : res (list Server) :=
  let s := target_Targets bi tries in
  if Nat.eqb (length s) 0 then Err "provisioning target plugin Choria JWT Resolver returned no servers"
  else
    servers ← map_err (λ e, "could not determine provisioning servers: " +:+ e) (StringHostsToServers s "nats");
    if Nat.eqb (length servers) 0 then Err "0 server:port combinations were found" else Ok servers.

(** The part of [ConfigureProvisioning] every provisioning server gets. *)
Definition provisioning_profile (dir : string) (bi : BuildInfo) (cf : Config) : Config :=
  cf <| cf_RPCAuthorization := false |> <| cf_FederationCollectives := [] |> <| cf_Collectives := ["provisioning"] |>
     <| cf_MainCollective := "provisioning" |> <| cf_Registration := [] |> <| cf_FactSourceFile := bi_ProvisionFacts bi |>
     <| cf_NatsUser := bi_ProvisioningBrokerUsername bi |> <| cf_NatsPass := bi_ProvisioningBrokerPassword bi |>
     <| cf_ProvisionAllowUpdate := flag (bi_ProvisionAllowServerUpdate bi) |> <| cf_SSLDir := path_join [dir; "ssl"] |>
     <| cf_SecurityProvider := "file" |>.

Definition given (s : string) : bool := negb (String.eqb s "").

Definition with_status (bi : BuildInfo) (cf : Config) : Config :=
  if given (bi_ProvisionStatusFile bi) then
    cf <| cf_StatusFilePath := bi_ProvisionStatusFile bi |> <| cf_StatusUpdateSeconds := 10%Z |>
  else cf.

Definition with_registration (bi : BuildInfo) (cf : Config) : Config :=
  if given (bi_ProvisionRegistrationData bi) then
    cf <| cf_RegistrationCollective := "provisioning" |> <| cf_Registration := ["file_content"] |>
       <| cf_RegisterInterval := 120%Z |> <| cf_RegistrationSplay := false |>
       <| cf_FileContentRegistrationTarget := "provisioning.registration.data" |>
       <| cf_FileContentRegistrationData := bi_ProvisionRegistrationData bi |>
  else cf.

Definition with_srv_domain (bi : BuildInfo) (cf : Config) : Config :=
  if given (bi_ProvisionBrokerSRVDomain bi) then
    cf <| cf_UseSRVRecords := true |> <| cf_SRVDomain := bi_ProvisionBrokerSRVDomain bi |>
  else cf.

Definition uses_version2 (bi : BuildInfo) : bool :=
  given (bi_ProvisionJWTFile bi) && flag (bi_ProvisioningUsesProtocolV2 bi).

Definition with_version2 (bi : BuildInfo) (cf : Config) : Config :=
  if uses_version2 bi then
    cf <| cf_SecurityProvider := "choria" |> <| cf_ChoriaSecurityTokenFile := bi_ProvisionJWTFile bi |>
       <| cf_ChoriaSecuritySignReplies := false |>
  else cf.

Definition ConfigureProvisioning (open_claims : string → res ProvisioningClaims) (fw : Framework) : Framework :=
  let bi := target_Configure open_claims (fw_bi fw) in
  let cf := fw_Config fw in
  let with_config cf secure :=
    {| fw_Config := cf; fw_bi := bi; fw_srvcache := fw_srvcache fw; fw_Secure := secure |} in
  if negb (ProvisionMode cf bi) then with_config cf (fw_Secure fw)
  else
    let cf := provisioning_profile (path_dir (cf_ConfigFile cf)) bi cf in
    let cf := with_registration bi (with_status bi cf) in
    let secure := if negb (ProvisionSecurity bi) then "false" else fw_Secure fw in
    let cf := with_version2 bi (with_srv_domain bi cf) in
    let secure := if uses_version2 bi then "false" else secure in
    with_config cf secure.

End Tokens.

(** ** Servers *)

Section Servers.
Context `{NL : NetLib}.

(** The clock, the resolver, [CHORIA_FED_COLLECTIVE] and the domain Facter knows. *)
Record server_env := {
  se_now : Z;
  se_resolve : resolver;
  se_fed_collective : string;
  se_FacterDomain : string + string;
}.
Variable e : server_env.

Definition errSRVDisabled : string := "SRV lookups are disabled in the configuration file".

(** The records are tried in turn: what the last one answered is the result, failed or
    not. *)
Fixpoint first_record (domain : string) (records : list string) (servers : list Server) : ST Cache string (list Server) :=
  match records with
  | [] => mret servers
  | q :: rest =>
      r ← attempt (LookupSrvServers (se_now e) (se_resolve e) "" "" (q +:+ "." +:+ domain) "");
      match r with
      | inl found => mret found
      | inr _ => first_record domain rest []
      end
  end.

Definition on_cache {A} (m : ST Cache string A) : ST Framework string A := λ fw,
  let '(c, o) := m (fw_srvcache fw) in (fw <| fw_srvcache := c |>, o).

Definition QuerySrvRecords (records : list string) : ST Framework string (list Server) :=
  cf ← gets fw_Config;
  if negb (cf_UseSRVRecords cf) then throw errSRVDisabled
  else
    domain ← (if String.eqb (cf_SRVDomain cf) "" then
                d ← lift (of_sum (se_FacterDomain e));
                modify (λ fw, fw <| fw_Config ::= λ cf, cf <| cf_SRVDomain := d |> |>);;
                mret d
              else mret (cf_SRVDomain cf));
    on_cache (first_record domain records []).

Fixpoint try_names (names : list string) (def : Server) : ST Framework string Server :=
  match names with
  | [] => mret def
  | q :: rest =>
      r ← attempt (QuerySrvRecords [q]);
      match r with
      | inl (found :: _) => mret found
      | _ => try_names rest def
      end
  end.

Definition TrySrvLookup (names : list string) (def : Server) : ST Framework string Server :=
  cf ← gets fw_Config;
  if negb (cf_UseSRVRecords cf) then mret def else try_names names def.

Definition FederationCollectives (cf : Config) : list string :=
  let found := if String.eqb (se_fed_collective e) "" then [] else split (se_fed_collective e) "," in
  map trim_space (if Nat.eqb (length found) 0 then cf_FederationCollectives cf else found).

Definition IsFederated (cf : Config) : bool := negb (Nat.eqb (length (FederationCollectives cf)) 0).

(** The servers a setting names, when it names any. *)
Definition configured (err : string) (hosts : list string) : res (list Server) :=
  if Nat.ltb 0 (length hosts) then map_err (λ m, err +:+ m) (StringHostsToServers hosts "nats") else Ok [].

Definition FederationMiddlewareServers : ST Framework string (list Server) :=
  cf ← gets fw_Config;
  servers ← lift (configured "could not parse configured Federation Middleware: " (cf_FederationMiddlewareHosts cf));
  servers ← (if Nat.eqb (length servers) 0 then
               r ← attempt (QuerySrvRecords ["_mcollective-federation_server._tcp"; "_x-puppet-mcollective_federation._tcp"]);
               match r with
               | inl s => mret s
               | inr m => throw ("could not resolve Federation Middleware Server SRV records: " +:+ m)
               end
             else mret servers);
  mret (map (default_scheme "nats") servers).

Definition MiddlewareServers : ST Framework string (list Server) :=
  cf ← gets fw_Config;
  if IsFederated cf then FederationMiddlewareServers
  else
    servers ← lift (configured "could not parse configured Middleware: " (cf_MiddlewareHosts cf));
    servers ← (if Nat.eqb (length servers) 0 && cf_UseSRVRecords cf then
                 r ← attempt (QuerySrvRecords ["_mcollective-server._tcp"; "_x-puppet-mcollective._tcp"]);
                 mret (match r with inl s => s | inr _ => [] end)
               else mret servers);
    let servers := if Nat.eqb (length servers) 0 then [NewServer "puppet" 4222 "nats"] else servers in
    mret (map (default_scheme "nats") servers).

Definition NetworkBrokerPeers : ST Framework string (list Server) :=
  r ← attempt (QuerySrvRecords ["_mcollective-broker._tcp"]);
  cf ← gets fw_Config;
  servers ← match r with
            | inl (s :: l) => mret (s :: l)
            | _ => lift (map_err (λ m, "could not parse network peers: " +:+ m) (StringHostsToServers (cf_NetworkPeers cf) "nats"))
            end;
  mret (map (default_scheme "nats") servers).

Definition puppetdb_host (host : string) (port : Z) : res (list Server) :=
  map_err (λ m, "could not parse configured PuppetDB host: " +:+ m) (StringHostsToServers [host +:+ ":" +:+ itoa port] "https").

(** The PuppetDB of the SRV records, or else their Puppet with the port of PuppetDB. *)
Definition puppetdb_records : ST Framework string (list Server) :=
  cf ← gets fw_Config;
  servers ← QuerySrvRecords ["_x-puppet-db._tcp"];
  servers ← (if Nat.eqb (length servers) 0 then
               s ← QuerySrvRecords ["_x-puppet._tcp"]; mret (map (SetPort (cf_PuppetDBPort cf)) s)
             else mret servers);
  mret (map (default_scheme "https") servers).

Definition PuppetDBServers : ST Framework string (list Server) :=
  cf ← gets fw_Config;
  if negb (String.eqb (cf_PuppetDBHost cf) "") then lift (puppetdb_host (cf_PuppetDBHost cf) (cf_PuppetDBPort cf))
  else
    servers ← (if cf_UseSRVRecords cf then puppetdb_records else mret []);
    if Nat.eqb (length servers) 0 then lift (puppetdb_host "puppet" (cf_PuppetDBPort cf)) else mret servers.

(** [PQLQuery] asks the first of them; the answers of [get]: the status and the body. *)
Definition PQLQuery (get : string → res (Z * string)) (query : string) : ST Framework string string :=
  pdb ← PuppetDBServers;
  match Strings pdb with
  | [] => panic "index out of range"
  | pdbhost :: _ =>
      '(status, body) ← lift (get (pdbhost +:+ "/pdb/query/v4?" +:+ query));
      if negb (status =? 200)%Z then throw "invalid PuppetDB response" else mret body
  end.

(** [rows] decodes certnames and whether the node is deactivated. *)
Definition PQLQueryCertNames (get : string → res (Z * string)) (rows : string → res (list (string * bool))) (query : string) :
    ST Framework string (list string) :=
  body ← PQLQuery get query;
  l ← lift (rows body);
  mret (map fst (List.filter (λ r, negb r.2) l)).

End Servers.

(** * Theorems on server lookups and provisioning *)

(** ** The cache *)

Lemma retrieve_hit now q (c : Cache) e : c_cache c !! q = Some e → (now < e_expTime e)%Z →
  retrieve now q c = (c, (e_cname e, e_addrs e)).
Proof. intros He Hn. unfold retrieve. by rewrite He, (proj2 (Z.ltb_lt _ _)). Qed.

(** Lookups of one name at some times, each with the resolver of its time. *)
Fixpoint lookups (name : string) (l : list (Z * resolver)) : ST Cache string (list (option (list SRV))) :=
  match l with
  | [] => mret []
  | (now, resolve) :: rest =>
      '(_, addrs) ← LookupSRV now resolve "" "" name;
      more ← lookups name rest;
      mret (addrs :: more)
  end.

(** Each lookup less than the maximum age after the one before. *)
Fixpoint steady (maxAge last : Z) (times : list Z) : Prop :=
  match times with
  | [] => True
  | t :: rest => (t < last + maxAge)%Z ∧ steady maxAge t rest
  end.

(** An answer is not dropped when it is older than the maximum age: every lookup
    renews it, so that a name that is asked for often enough keeps the servers of its
    first answer whatever the resolver says since. *)
Theorem lookups_renew_answers (name : string) (l : list (Z * resolver)) (c : Cache) (stored : Z) (cname : string) (a : list SRV) :
  c_cache c !! {| q_service := ""; q_proto := ""; q_name := name |}
    = Some {| e_cname := cname; e_addrs := Some a; e_expTime := (stored + c_maxAge c)%Z |} →
  steady (c_maxAge c) stored (map fst l) →
  (lookups name l c).2 = Ok (replicate (length l) (Some a)).
Proof.
  revert c stored. induction l as [|[now resolve] l IH]; intros c stored Hc Hs; [done|].
  cbn [map fst steady] in Hs. destruct Hs as [Hn Hs]. cbn [lookups]. unfold mbind, ST_bind, LookupSRV.
  rewrite (retrieve_hit now _ _ _ Hc Hn). cbn [e_addrs e_cname]. set (c' := store now _ _ _ c).
  assert (c_maxAge c' = c_maxAge c) as Hm by by destruct c.
  assert (c_cache c' !! {| q_service := ""; q_proto := ""; q_name := name |}
    = Some {| e_cname := cname; e_addrs := Some a; e_expTime := (now + c_maxAge c')%Z |}) as Hc'.
  { rewrite Hm. unfold c'. destruct c. cbn. by rewrite lookup_insert_eq. }
  specialize (IH c' now Hc' ltac:(by rewrite Hm)). clearbody c'. clear Hc Hc' Hm Hs.
  destruct (lookups name l c') as [c2 o]. cbn [snd] in IH. subst o. done.
Qed.

(** ** Servers *)

Section Servers.
Context `{NL : NetLib}.
Variable e : server_env.

Definition schemed (s : Server) : Prop := srv_scheme s ≠ "".

Lemma default_scheme_schemed scheme s : scheme ≠ "" → schemed (default_scheme scheme s).
Proof.
  intros Hs. unfold default_scheme, schemed. destruct (String.eqb_spec (srv_scheme s) ""); [by destruct s|done].
Qed.

Lemma default_schemes scheme l : scheme ≠ "" → Forall schemed (map (default_scheme scheme) l).
Proof. intros Hs. apply Forall_forall. intros s (s' & -> & _)%list_elem_of_fmap. by apply default_scheme_schemed. Qed.

Lemma map_not_nil {A B} (f : A → B) l : l ≠ [] → map f l ≠ [].
Proof. by destruct l. Qed.

Lemma string_hosts_no_panic hosts scheme p : StringHostsToServers hosts scheme ≠ Panic p.
Proof.
  induction hosts as [|h rest IH]; [done|]. cbn [StringHostsToServers]. unfold mbind at 1, outcome_bind at 1.
  destruct (string_host scheme h) as [s|m|q] eqn:Hh; [|done|].
  - unfold mbind, outcome_bind. by destruct (StringHostsToServers rest scheme).
  - exfalso. unfold string_host in Hh. destruct (match url_Parse _ with Some _ => _ | None => _ end) as [s d].
    destruct (split_host_port s) as [[host sport]|m]; [|done]. cbn in Hh.
    destruct (parse_uint16 sport); [|done]. by destruct (_ && _).
Qed.

Lemma first_record_no_panic domain records servers c p : (first_record e domain records servers c).2 ≠ Panic p.
Proof.
  revert servers c. induction records as [|q rest IH]; intros servers c; [done|]. cbn [first_record].
  unfold mbind at 1, ST_bind at 1, attempt. unfold LookupSrvServers, mbind, ST_bind, LookupSRV.
  destruct (retrieve _ _ c) as [c1 [cname [a|]]]; [done|]. destruct (se_resolve e _) as [[cn a]|m]; [done|]. apply IH.
Qed.

Lemma query_no_panic records fw p : (QuerySrvRecords e records fw).2 ≠ Panic p.
Proof.
  unfold QuerySrvRecords, gets, mbind, ST_bind, lift, modify, mret, ST_ret. destruct (negb _); [done|].
  assert (∀ domain fw', (on_cache (first_record e domain records []) fw').2 ≠ Panic p) as H.
  { intros domain fw'. unfold on_cache. pose proof (first_record_no_panic domain records [] (fw_srvcache fw') p) as Hn.
    by destruct (first_record e domain records [] (fw_srvcache fw')). }
  destruct (String.eqb _ _); [|apply H]. destruct (se_FacterDomain e); [|done]. apply H.
Qed.

Lemma configured_no_panic err hosts p : configured err hosts ≠ Panic p.
Proof.
  unfold configured. destruct (Nat.ltb _ _); [|done]. pose proof (string_hosts_no_panic hosts "nats" p) as H.
  destruct (StringHostsToServers hosts "nats"); [done|done|]. cbn. congruence.
Qed.

(** A program that is not federated always has brokers to connect to, each with a
    scheme, unless the brokers it is configured with cannot be parsed: failing lookups,
    empty answers and unknown domains leave it with the default one. *)
Theorem middleware_is_known (fw : Framework) :
  IsFederated e (fw_Config fw) = false →
  match (MiddlewareServers e fw).2 with
  | Ok l => l ≠ [] ∧ Forall schemed l
  | Err m => configured "could not parse configured Middleware: " (cf_MiddlewareHosts (fw_Config fw)) = Err m
  | Panic _ => False
  end.
Proof.
  intros Hf. unfold MiddlewareServers, mbind, ST_bind, gets, lift. rewrite Hf.
  pose proof (configured_no_panic "could not parse configured Middleware: " (cf_MiddlewareHosts (fw_Config fw))) as Hc.
  destruct (configured _ _) as [servers|m|m]; [|done|by destruct (Hc m)].
  destruct (Nat.eqb (length servers) 0 && cf_UseSRVRecords (fw_Config fw)).
  - unfold attempt. pose proof (query_no_panic ["_mcollective-server._tcp"; "_x-puppet-mcollective._tcp"] fw) as Hq.
    destruct (QuerySrvRecords e _ fw) as [fw' [s|m|p]]; [| |by destruct (Hq p)].
    + split; [|by apply default_schemes]. apply map_not_nil. by destruct s.
    + split; [done|]. by apply default_schemes.
  - split; [|by apply default_schemes]. apply map_not_nil. by destruct servers.
Qed.

Lemma puppetdb_host_spec host port l : puppetdb_host host port = Ok l → l ≠ [].
Proof.
  unfold puppetdb_host. cbn [StringHostsToServers]. destruct (string_host _ _) as [s|m|q]; [|done..]. cbn. by intros [= <-].
Qed.

(** A query always has a server to ask. *)
Lemma puppetdb_is_known (fw fw' : Framework) l : PuppetDBServers e fw = (fw', Ok l) → l ≠ [].
Proof.
  unfold PuppetDBServers. intros (w1 & cf & _ & H)%ST_bind_Ok.
  destruct (negb _); [apply pair_equal_spec in H as [_ H]; by eapply puppetdb_host_spec|].
  apply ST_bind_Ok in H as (w2 & s & _ & H). destruct (Nat.eqb (length s) 0) eqn:Hs.
  - apply pair_equal_spec in H as [_ H]. by eapply puppetdb_host_spec.
  - injection H as _ <-. by destruct s.
Qed.

End Servers.

(** ** Provisioning *)

Section Provisioning.
Context `{ST : SignerTokens} `{PF : Platform}.

(** The settings the parts of the profile agree on. *)
Record profile_of (bi : BuildInfo) (old cf : Config) : Prop := {
  pf_auth : cf_RPCAuthorization cf = false;
  pf_collectives : cf_Collectives cf = ["provisioning"];
  pf_main : cf_MainCollective cf = "provisioning";
  pf_federation : cf_FederationCollectives cf = [];
  pf_identity : cf_Identity cf = cf_Identity old;
  pf_server : cf_InitiatedByServer cf = cf_InitiatedByServer old;
}.

Lemma profile_profile dir bi cf : profile_of bi cf (provisioning_profile dir bi cf).
Proof. destruct cf. by split. Qed.
Lemma profile_status bi old cf : profile_of bi old cf → profile_of bi old (with_status bi cf).
Proof. intros []. unfold with_status. destruct (given _); [|by split]. destruct cf. by split. Qed.
Lemma profile_registration bi old cf : profile_of bi old cf → profile_of bi old (with_registration bi cf).
Proof. intros []. unfold with_registration. destruct (given _); [|by split]. destruct cf. by split. Qed.
Lemma profile_srv bi old cf : profile_of bi old cf → profile_of bi old (with_srv_domain bi cf).
Proof. intros []. unfold with_srv_domain. destruct (given _); [|by split]. destruct cf. by split. Qed.
Lemma profile_version2 bi old cf : profile_of bi old cf → profile_of bi old (with_version2 bi cf).
Proof. intros []. unfold with_version2. destruct (uses_version2 _); [|by split]. destruct cf. by split. Qed.

(** Registration, and the fields it goes by, are those of the build. *)
Definition registers (bi : BuildInfo) (cf : Config) : Prop :=
  if given (bi_ProvisionRegistrationData bi)
  then cf_Registration cf = ["file_content"] ∧ cf_RegistrationCollective cf = "provisioning" ∧
       cf_FileContentRegistrationTarget cf = "provisioning.registration.data" ∧
       cf_FileContentRegistrationData cf = bi_ProvisionRegistrationData bi
  else cf_Registration cf = [].

Lemma registers_profile dir bi cf : registers bi (with_registration bi (with_status bi (provisioning_profile dir bi cf))).
Proof.
  unfold registers, with_registration, with_status. destruct cf, (given (bi_ProvisionRegistrationData bi)), (given (bi_ProvisionStatusFile bi));
    by try split_and!.
Qed.

Lemma registers_rest bi cf : registers bi cf → registers bi (with_version2 bi (with_srv_domain bi cf)).
Proof.
  unfold registers, with_version2, with_srv_domain. destruct cf, (given (bi_ProvisionRegistrationData bi)), (uses_version2 bi),
    (given (bi_ProvisionBrokerSRVDomain bi)); done.
Qed.

Lemma provider_profile dir bi cf :
  cf_SecurityProvider (with_srv_domain bi (with_registration bi (with_status bi (provisioning_profile dir bi cf)))) = "file".
Proof.
  unfold with_registration, with_status, with_srv_domain. destruct cf, (given (bi_ProvisionRegistrationData bi)),
    (given (bi_ProvisionStatusFile bi)), (given (bi_ProvisionBrokerSRVDomain bi)); done.
Qed.

Lemma version2_security bi cf : cf_SecurityProvider cf = "file" →
  cf_SecurityProvider (with_version2 bi cf) = (if uses_version2 bi then "choria" else "file") ∧
  (uses_version2 bi = true → SignerTokenFile (with_version2 bi cf) = Ok (bi_ProvisionJWTFile bi)).
Proof.
  intros Hf. unfold with_version2. destruct (uses_version2 bi) eqn:Hv; [|by split]. destruct cf. split; [done|]. intros _.
  unfold uses_version2, given in Hv. apply andb_prop in Hv as [Hg _]. unfold SignerTokenFile. cbn. rewrite Hg.
  by destruct (String.eqb _ _).
Qed.

(** The provisioning profile is all or nothing. A server that is not in provisioning
    mode keeps its configuration and the security of its protocol. One that is joins only
    the collective [provisioning] and no federation, authorizes nothing, publishes at most
    the registration file of the build, there, and keeps its identity; and it speaks the
    protocol unsecured exactly when it did before, the build says so or it uses version 2
    with the provisioning token, which is then the token it signs with. *)
Theorem provisioning_profile_complete (open_claims : string → res ProvisioningClaims) (fw : Framework) :
  let fw' := ConfigureProvisioning open_claims fw in
  let bi := fw_bi fw' in
  if ProvisionMode (fw_Config fw) bi then
    let cf := fw_Config fw' in
    profile_of bi (fw_Config fw) cf ∧ registers bi cf ∧
    cf_SecurityProvider cf = (if uses_version2 bi then "choria" else "file") ∧
    (uses_version2 bi = true → SignerTokenFile cf = Ok (bi_ProvisionJWTFile bi)) ∧
    fw_Secure fw' = (if uses_version2 bi || negb (ProvisionSecurity bi) then "false" else fw_Secure fw)
  else fw_Config fw' = fw_Config fw ∧ fw_Secure fw' = fw_Secure fw.
Proof.
  cbv zeta. unfold ConfigureProvisioning. set (bi := target_Configure open_claims (fw_bi fw)). set (cf := fw_Config fw).
  destruct (ProvisionMode cf bi) eqn:Hm; cbn [negb fw_bi fw_Config fw_Secure]; rewrite Hm; [|done].
  set (dir := path_dir _). split; [by apply profile_version2, profile_srv, profile_registration, profile_status, profile_profile|].
  split; [apply registers_rest, registers_profile|].
  destruct (version2_security bi _ (provider_profile dir bi cf)) as [H1 H2]. split; [exact H1|]. split; [exact H2|].
  by destruct (uses_version2 bi).
Qed.

End Provisioning.

(** ** Concrete lookups *)

Definition demo_answer (target : string) : resolver := λ _, inl ("", Some [{| srv_Target := target; srv_Port := 4222 |}]).

Definition demo_query : query := {| q_service := ""; q_proto := ""; q_name := "_x._tcp.example.net" |}.

(** The record changes after the first lookup; a lookup every four seconds does not see it
    though answers are to be kept for five. *)
Definition demo_cache : Cache :=
  (LookupSRV 0 (demo_answer "old.example.net.") "" "" "_x._tcp.example.net" (NewCache 5)).1.

Lemma lookups_renew_answers_witness :
  (lookups "_x._tcp.example.net" [(4%Z, demo_answer "new."); (8%Z, demo_answer "new."); (12%Z, demo_answer "new.")] demo_cache).2
    = Ok (replicate 3 (Some [{| srv_Target := "old.example.net."; srv_Port := 4222 |}])).
Proof.
  apply (lookups_renew_answers "_x._tcp.example.net" [(4%Z, demo_answer "new."); (8%Z, demo_answer "new."); (12%Z, demo_answer "new.")]
    demo_cache 0 "" [{| srv_Target := "old.example.net."; srv_Port := 4222 |}]).
  - vm_compute. reflexivity.
  - vm_compute. done.
Defined.

#[local] Instance demo_net : NetLib := {|
  url_Parse := λ _, None;
  split_host_port := λ s, match split s ":" with [h; p] => inl (h, p) | _ => inr "missing port in address" end;
|}.

Definition demo_settings : Config :=
  {| cf_ConfigFile := "/etc/choria/server.conf"; cf_Identity := "node1"; cf_InitiatedByServer := true;
     cf_Collectives := ["mcollective"]; cf_MainCollective := "mcollective"; cf_Registration := [];
     cf_RegistrationCollective := ""; cf_RegisterInterval := 0; cf_RegistrationSplay := false;
     cf_RPCAuthorization := true; cf_FactSourceFile := ""; cf_Provision := None; cf_ProvisionAllowUpdate := false;
     cf_NatsUser := ""; cf_NatsPass := ""; cf_SSLDir := ""; cf_SecurityProvider := "puppet"; cf_StatusFilePath := "";
     cf_StatusUpdateSeconds := 30; cf_FileContentRegistrationTarget := ""; cf_FileContentRegistrationData := "";
     cf_UseSRVRecords := true; cf_SRVDomain := "example.net"; cf_MiddlewareHosts := []; cf_FederationCollectives := [];
     cf_FederationMiddlewareHosts := []; cf_NetworkPeers := []; cf_PuppetDBHost := ""; cf_PuppetDBPort := 8081;
     cf_ChoriaSecuritySeedFile := ""; cf_ChoriaSecurityTokenFile := ""; cf_ChoriaSecuritySignReplies := false;
     cf_ServerAnonTLS := false; cf_ServerTokenFile := ""; cf_ServerTokenSeedFile := ""; cf_RemoteSignerTokenFile := "";
     cf_RemoteSignerTokenSeedFile := "" |}.

Definition demo_build_info : BuildInfo :=
  {| bi_ProvisionSecure := "true"; bi_ProvisionBrokerURLs := ""; bi_ProvisionBrokerSRVDomain := "";
     bi_ProvisionModeDefault := "false"; bi_ProvisionRegistrationData := ""; bi_ProvisionFacts := "";
     bi_ProvisionToken := ""; bi_ProvisionJWTFile := ""; bi_ProvisionStatusFile := "";
     bi_ProvisioningBrokerUsername := ""; bi_ProvisioningBrokerPassword := ""; bi_ProvisioningUsesProtocolV2 := "false";
     bi_ProvisionAllowServerUpdate := "false"; bi_DefaultCollectives := "mcollective"; bi_maxBrokerClients := "50000" |}.

Definition demo_framework_state : Framework :=
  {| fw_Config := demo_settings; fw_bi := demo_build_info; fw_srvcache := NewCache 5; fw_Secure := "true" |}.

Definition demo_server_env : server_env :=
  {| se_now := 100; se_resolve := λ _, inr "no such host"; se_fed_collective := ""; se_FacterDomain := inr "no facter" |}.

Lemma middleware_is_known_witness :
  match (MiddlewareServers demo_server_env demo_framework_state).2 with
  | Ok l => l ≠ [] ∧ Forall schemed l
  | Err m => configured "could not parse configured Middleware: " [] = Err m
  | Panic _ => False
  end.
Proof. apply (middleware_is_known demo_server_env demo_framework_state). vm_compute. reflexivity. Defined.

(** Failing lookups leave the default broker. *)
Example default_broker : (MiddlewareServers demo_server_env demo_framework_state).2 = Ok [NewServer "puppet" 4222 "nats"].
Proof. vm_compute. reflexivity. Qed.

(** A lookup that fails is not told from one that finds nothing. *)
Example failed_lookup_is_empty : (QuerySrvRecords demo_server_env ["_x._tcp"] demo_framework_state).2 = Ok [].
Proof. vm_compute. reflexivity. Qed.
