(* ===== verification/FileSecurity.v ===== *)
(** * The file security provider

    providers/security/filesec: requests signed by keys with certificates of a
    certificate authority, and the checks of the certificates of brokers.  X.509, PEM and
    RSA are the class [X509Lib], files the class [KeyStore]; logging and the HTTP client
    are left out. *)
From S2P Require Import Prelude Records GoLib Regex Files Facts Filters Util AuthTypes Transport SecureMessages Security.

(** [crypto/x509], [encoding/pem] and [crypto/rsa].  A pool is the PEM text it was made
    from. *)
Class X509Lib := {
  (** the type and the bytes of the first block *)
  pem_Decode : string → option (string * string);
  certificate : Set;
  ParseCertificate : string → certificate + string;
  cert_CommonName : certificate → string;
  cert_DNSNames : certificate → list string;
  cert_EmailAddresses : certificate → list string;
  cert_hasSAN : certificate → bool;
  (** whether a text has certificates for a pool *)
  AppendCertsFromPEM : string → bool;
  (** [Verify] for client authentication: roots and intermediates *)
  cert_VerifyClient : certificate → string → string → () + string;
  (** [Verify] for servers: roots, if there are any, intermediates and the name, if one is
      to be checked *)
  cert_VerifyServer : certificate → option string → list certificate → string → () + string;
  rsa_public : Set;
  (** [None] for keys of other types *)
  cert_PublicKey : certificate → option rsa_public;
  rsa_VerifyPKCS1v15 : rsa_public → string → string → bool;
  private_key : Set;
  ParsePKCS1PrivateKey : string → private_key + string;
  ParsePKCS8PrivateKey : string → private_key + string;
  rsa_private : private_key → bool;
  rsa_SignPKCS1v15 : private_key → string → string + string;
  (** certificate and key *)
  LoadX509KeyPair : string → string → () + string;
}.

Record Config := {
  fc_Identity : string;
  fc_Certificate : string;
  fc_Key : string;
  fc_CA : string;
  fc_PrivilegedUsers : list string;
  fc_AllowList : list string;
  fc_DisableTLSVerify : bool;
  fc_RemoteSignerURL : string;
  fc_RemoteSignerTokenFile : string;
  fc_RemoteSignerSeedFile : string;
  fc_BackwardCompatVerification : bool;
  fc_IdentitySuffix : string;
  fc_RemoteSigner : option (string → res string);
}.

(** [util.go]: patterns may be written between slashes. *)
Definition is_slashed (s : string) : bool :=
  has_prefix s "/" && has_suffix s "/" && Nat.leb 3 (String.length s) &&
  forallb (λ c, negb (Ascii.eqb c newline_char)) (String.list_ascii_of_string s).

Definition unslash (reg : string) : string :=
  if is_slashed reg then trim_right (Ascii.eqb slash) (trim_left (Ascii.eqb slash) reg) else reg.

Definition MatchAnyRegex `{RX : Regexp} (str : string) (regex : list string) : bool :=
  existsb (λ reg, MatchString (unslash reg) str) regex.

(** [filesec.New] *)
Definition New (conf : option Config) (log : bool) : res Config :=
  match conf with
  | None => Err "configuration not given"
  | Some c =>
      if negb log then Err "logger not given"
      else if String.eqb (fc_Identity c) "" then Err "identity could not be determine automatically via Choria or was not supplied"
      else Ok c
  end.

(** The identity [WithChoriaConfig] decides on; [certname] is the overriding name of the
    configuration or the environment. *)
Definition choose_identity (identity certname suffix : string) (windows root : bool) (user : option string) : string :=
  if negb (String.eqb certname "") then certname
  else if negb (windows || root) then
    match user with Some u => u +:+ "." +:+ suffix | None => identity end
  else identity.

Section Provider.
Context `{XL : X509Lib} `{RX : Regexp} `{PF : Platform} `{KS : KeyStore}.
Variable conf : Config.

Definition RemoteSignerSeedFile (key_of : string → string) : res string :=
  let f := if negb (String.eqb (fc_RemoteSignerTokenFile conf) "") && String.eqb (fc_RemoteSignerSeedFile conf) ""
           then key_of (fc_RemoteSignerTokenFile conf) else fc_RemoteSignerSeedFile conf in
  if String.eqb f "" then Err "no seed file defined" else Ok f.

Definition RemoteSignerToken : res string :=
  if String.eqb (fc_RemoteSignerTokenFile conf) "" then Err "no token file defined"
  else map_err (λ e, "could not read token file: " +:+ e) (ReadFile (fc_RemoteSignerTokenFile conf)).

Definition remote_sign (request : string) : res string :=
  match fc_RemoteSigner conf with
  | None => Err "remote signing not configured"
  | Some sign => sign request
  end.

Definition check_file (path missing unset : string) : list string :=
  if negb (String.eqb path "") then if negb (FileExist path) then [missing +:+ path +:+ " does not exist"] else [] else [unset].

Definition Validate : list string :=
  check_file (fc_Certificate conf) "public certificate " "the public certificate path is not configured" ++
  check_file (fc_Key conf) "private key " "the private key path is not configured" ++
  check_file (fc_CA conf) "CA " "the CA path is not configured".

Definition PublicCertBytes : res string := ReadFile (fc_Certificate conf).

Definition privateKeyPEM : res string :=
  keydat ← map_err (λ e, "could not read Private Key " +:+ fc_Key conf +:+ ": " +:+ e) (ReadFile (fc_Key conf));
  match pem_Decode keydat with
  | None => Err ("failed to parse PEM data from key " +:+ fc_Key conf)
  | Some (_, b) => Ok b
  end.

Definition SignBytes (str : string) : res string :=
  b ← privateKeyPEM;
  key ← (match ParsePKCS1PrivateKey b with
        | inl k => Ok k
        | inr _ => match ParsePKCS8PrivateKey b with
                   | inl k => Ok k
                   | inr e => Err ("could not parse private key PEM data: " +:+ e)
                   end
        end : res private_key);
  if negb (rsa_private key) then Err "unhandled key type"
  else match rsa_SignPKCS1v15 key (sha256_Sum256 str) with
       | inl sig => Ok sig
       | inr e => Err ("could not sign message: " +:+ e)
       end.

(** An empty certificate stands for the one of this program; a key that is not an RSA key
    is a failed type assertion. *)
Definition VerifySignatureBytes (dat sig : string) (public : list string) : res (bool * string) :=
  match public with
  | [pubcert] =>
      match (if String.eqb pubcert "" then PublicCertBytes else Ok pubcert) with
      | Err _ => Ok (false, "")
      | Panic p => Panic p
      | Ok pubcert =>
          match pem_Decode pubcert with
          | None => Ok (false, "")
          | Some (_, b) =>
              match ParseCertificate b with
              | inr _ => Ok (false, "")
              | inl cert =>
                  match cert_PublicKey cert with
                  | None => Panic "interface conversion: interface {} is not *rsa.PublicKey"
                  | Some key =>
                      if rsa_VerifyPKCS1v15 key (sha256_Sum256 dat) sig then Ok (true, cert_CommonName cert) else Ok (false, "")
                  end
              end
          end
      end
  | _ => Ok (false, "")
  end.

Definition CallerName : string := "choria=" +:+ fc_Identity conf.

Definition findName (names : list string) (name : string) : bool := existsb (λ n, String.eqb n name) names.

(** Four of the early returns hand on an error that is nil. *)
Definition VerifyCertificate (certpem name : string) : res () :=
  capem ← ReadFile (fc_CA conf);
  if negb (AppendCertsFromPEM capem) then Ok tt
  else
    match pem_Decode certpem with
    | None => Ok tt
    | Some (_, b) =>
        match ParseCertificate b with
        | inr e => Err e
        | inl cert =>
            if negb (AppendCertsFromPEM certpem) then Ok tt
            else
              match cert_VerifyClient cert capem certpem with
              | inr e => Err e
              | inl _ =>
                  if Nat.ltb 0 (length (cert_EmailAddresses cert)) && has_prefix name "email:" then
                    if existsb (String.eqb (trim_prefix name "email:")) (cert_EmailAddresses cert) then Ok tt
                    else Err ("email address not found in SAN: " +:+ name)
                  else if String.eqb name "" then Ok tt
                  else if negb (findName (cert_DNSNames cert) name) && negb (String.eqb (cert_CommonName cert) name)
                  then Err ("x509: certificate is valid for " +:+ cert_CommonName cert +:+ ", not " +:+ name)
                  else Ok tt
              end
        end
    end.

(** A text that is not PEM has no names, and that is no error. *)
Definition certDNSNames (certpem : string) : res (list string) :=
  match pem_Decode certpem with
  | None => Ok []
  | Some (_, b) =>
      match ParseCertificate b with
      | inr e => Err e
      | inl cert => Ok (cert_CommonName cert :: cert_DNSNames cert)
      end
  end.

Definition ShouldAllowCaller (name : string) (callers : list string) : res bool :=
  match callers with
  | [data] =>
      privNames ← certDNSNames data;
      if existsb (λ n, MatchAnyRegex n (fc_PrivilegedUsers conf)) privNames then
        VerifyCertificate data "";;
        Ok true
      else
        VerifyCertificate data name;;
        if MatchAnyRegex name (fc_AllowList conf) then Ok false else Err "not on allow list"
  | _ => Err "invalid public data"
  end.

Definition decodePEM (certpath : string) : res string :=
  if String.eqb certpath "" then Err "invalid certpath '' provided"
  else
    keydat ← map_err (λ e, "could not read PEM data from " +:+ certpath +:+ ": " +:+ e) (ReadFile certpath);
    match pem_Decode keydat with
    | None => Err ("failed to parse PEM data from key " +:+ certpath)
    | Some (_, b) => Ok b
    end.

Definition PublicCert : res certificate :=
  b ← decodePEM (fc_Certificate conf);
  match ParseCertificate b with inl c => Ok c | inr e => Err e end.

(** [inter.SecurityProvider] *)
#[local] Instance FileSecurity : SecurityProvider := {|
  BackingTechnology := SecurityTechnologyX509;
  CallerIdentity := Security.caller_identity;
  SecureMessages.SignBytes := SignBytes;
  SecureMessages.VerifySignatureBytes := VerifySignatureBytes;
  RemoteSignRequest := remote_sign;
  IsRemoteSigning := match fc_RemoteSigner conf with Some _ => true | None => false end;
  ChecksumBytes := sha256_Sum256;
  SecureMessages.PublicCertBytes := PublicCertBytes;
  TokenBytes := Err "tokens not available for file security provider";
  ShouldSignReplies := false;
  SecureMessages.ShouldAllowCaller := ShouldAllowCaller;
|}.

(** ** TLS *)

(** What a connection is verified with: the certificates of this program are loaded, the
    roots, whether the standard verification is skipped and, when it is replaced, its
    replacement. *)
Record tls_config := {
  tls_loaded : bool;
  tls_RootCAs : option string;
  tls_InsecureSkipVerify : bool;
  tls_custom : bool;
}.

Definition TLSConfig : res tls_config :=
  loaded ← (if FileExist (fc_Key conf) && FileExist (fc_Certificate conf) then
              match LoadX509KeyPair (fc_Certificate conf) (fc_Key conf) with
              | inl _ => Ok true
              | inr e => Err ("could not load certificate " +:+ fc_Certificate conf +:+ " and key " +:+ fc_Key conf +:+ ": " +:+ e)
              end
            else Ok false);
  roots ← (if FileExist (fc_CA conf) then ca ← ReadFile (fc_CA conf); Ok (Some ca) else Ok None);
  Ok {| tls_loaded := loaded; tls_RootCAs := roots; tls_InsecureSkipVerify := fc_DisableTLSVerify conf; tls_custom := false |}.

Definition ClientTLSConfig : res tls_config :=
  c ← TLSConfig;
  Ok (if fc_BackwardCompatVerification conf then c <| tls_InsecureSkipVerify := true |> <| tls_custom := true |> else c).

(** The verifier for brokers with certificates that have no alternative names: the first
    certificate, those after it and the name of the server. *)
Definition custom_verifier (pool : option string) (server : string) (peers : list certificate) : res () :=
  match peers with
  | [] => Panic "index out of range"
  | leaf :: rest =>
      if negb (cert_hasSAN leaf) && negb (equal_fold server (cert_CommonName leaf)) then
        Err "x509: certificate is not valid for the host"
      else
        match cert_VerifyServer leaf pool rest (if cert_hasSAN leaf then server else "") with
        | inl _ => Ok tt
        | inr e => Err e
        end
  end.

End Provider.

(** * Theorems on the file security provider

    Which version 1 requests it accepts: those whose certificate the authority issued to
    their caller, and those whose certificate it never gets to look at. *)

Section Certificates.
Context `{XL : X509Lib} `{RX : Regexp} `{PF : Platform} `{KS : KeyStore}.
Variable conf : Config.

(** ** Certificates *)


Definition claims_privilege (cert : certificate) : bool :=
  existsb (λ n, MatchAnyRegex n (fc_PrivilegedUsers conf)) (cert_CommonName cert :: cert_DNSNames cert).



(** Without authorities to trust, or when the text has a certificate but none for a pool,
    nothing is verified. *)
Lemma VerifyCertificate_unusable capem certpem ty b cert name :
  ReadFile (fc_CA conf) = Ok capem → pem_Decode certpem = Some (ty, b) → ParseCertificate b = inl cert →
  AppendCertsFromPEM capem = false ∨ AppendCertsFromPEM certpem = false →
  VerifyCertificate conf certpem name = Ok tt.
Proof.
  intros Hca Hpem Hcert Hno. unfold VerifyCertificate. rewrite Hca. cbn [mbind outcome_bind].
  destruct (AppendCertsFromPEM capem); [|done]. rewrite Hpem, Hcert. by destruct Hno as [ | ->].
Qed.


Lemma ShouldAllowCaller_unusable capem certpem ty b cert name :
  ReadFile (fc_CA conf) = Ok capem → pem_Decode certpem = Some (ty, b) → ParseCertificate b = inl cert →
  AppendCertsFromPEM capem = false ∨ AppendCertsFromPEM certpem = false →
  claims_privilege cert = true ∨ MatchAnyRegex name (fc_AllowList conf) = true →
  ShouldAllowCaller conf name [certpem] = Ok (claims_privilege cert).
Proof.
  intros Hca Hpem Hcert Hno Hor. unfold ShouldAllowCaller, certDNSNames. rewrite Hpem, Hcert. cbn [mbind outcome_bind].
  change (existsb _ _) with (claims_privilege cert).
  destruct (claims_privilege cert).
  - by rewrite (VerifyCertificate_unusable capem certpem ty b cert).
  - rewrite (VerifyCertificate_unusable capem certpem ty b cert) by done. by destruct Hor as [ | ->].
Qed.


(** ** Requests *)

Context `{TJ : TransportJSON} `{MJ : !MessageJSON} `{BF : BuildFlags}.

#[local] Instance provider : SecurityProvider := FileSecurity conf.




(** C35. A certificate in any other block is never verified: whoever signs a request with
    a key of their own, and sends a certificate for it that nobody issued in a block that
    is not for certificates, is accepted as any caller on the allow list, or as any caller
    when the certificate names a privileged user. *)
Theorem mislabelled_certificates_pass (sr : SecureRequest) (req : Request) (capem name ty b sig : string)
    (cert : certificate) (key : rsa_public) :
  sr_Type sr = V1 → ReadFile (fc_CA conf) = Ok capem →
  request_from_secure V1 sr = Ok req → caller_identity (rq_CallerID req) = Ok name →
  sr_Caller sr ≠ "" → pem_Decode (sr_Caller sr) = Some (ty, b) → ParseCertificate b = inl cert →
  AppendCertsFromPEM (sr_Caller sr) = false →
  cert_PublicKey cert = Some key → b64_decode (sr_Signature sr) = Some sig →
  rsa_VerifyPKCS1v15 key (sha256_Sum256 (sr_MessageBody sr)) sig = true →
  claims_privilege cert = true ∨ MatchAnyRegex name (fc_AllowList conf) = true →
  sr_Valid sr = Ok true.
Proof.
  intros Hty Hca Hreq Hname Hne Hpem Hcert Hno Hkey Hsig Hrsa Hwho.
  unfold sr_Valid. rewrite Hty. destruct (negb IsSecure); [done|]. unfold Valid1, valid_if. rewrite Hreq.
  cbn [CallerIdentity SecureMessages.ShouldAllowCaller SecureMessages.VerifySignatureBytes provider FileSecurity].
  rewrite Hname, (ShouldAllowCaller_unusable capem _ ty b cert name), Hsig by auto. cbn [decoded].
  unfold VerifySignatureBytes. rewrite (proj2 (String.eqb_neq _ _) Hne), Hpem, Hcert, Hkey, Hrsa. done.
Qed.

(** A certificate for a key of another type, issued by the authorities, ends the program. *)
Lemma other_keys_panic dat sig pub ty b cert : pub ≠ "" → pem_Decode pub = Some (ty, b) → ParseCertificate b = inl cert →
  cert_PublicKey cert = None → is_panic (VerifySignatureBytes conf dat sig [pub]) = true.
Proof.
  intros Hne Hpem Hcert Hkey. unfold VerifySignatureBytes. by rewrite (proj2 (String.eqb_neq _ _) Hne), Hpem, Hcert, Hkey.
Qed.

(** ** Brokers *)

(** The replacement of the standard verification accepts only issued certificates of the
    server that was meant. *)
Lemma custom_verifier_ok pool server leaf rest : custom_verifier pool server (leaf :: rest) = Ok tt →
  cert_VerifyServer leaf pool rest (if cert_hasSAN leaf then server else "") = inl tt ∧
  (cert_hasSAN leaf = false → equal_fold server (cert_CommonName leaf) = true).
Proof.
  unfold custom_verifier. destruct (cert_hasSAN leaf), (equal_fold server (cert_CommonName leaf)); cbn [negb andb];
    try done; destruct (cert_VerifyServer _ _ _ _) as [[]|]; done.
Qed.

End Certificates.

(** ** Concrete requests *)

From S2P Require Import DemoLibs DemoJSON.

(** Blocks are their type and content; certificates a name and a key, issued when the key
    says so. *)
#[local] Instance demo_x509 : X509Lib := {|
  pem_Decode := λ s, match split s "|" with ty :: (_ :: _) as rest => Some (ty, join rest "|") | _ => None end;
  certificate := string * string;
  ParseCertificate := λ b, match split b "|" with [cn; key] => inl (cn, key) | _ => inr "malformed certificate" end;
  cert_CommonName := fst;
  cert_DNSNames := λ _, [];
  cert_EmailAddresses := λ _, [];
  cert_hasSAN := λ _, false;
  AppendCertsFromPEM := λ s, has_prefix s "CERTIFICATE|";
  cert_VerifyClient := λ c _ _, if has_prefix c.2 "issued" then inl tt else inr "certificate signed by unknown authority";
  cert_VerifyServer := λ c _ _ _, if has_prefix c.2 "issued" then inl tt else inr "certificate signed by unknown authority";
  rsa_public := string;
  cert_PublicKey := λ c, Some c.2;
  rsa_VerifyPKCS1v15 := λ key h sig, String.eqb sig (key +:+ ":" +:+ h);
  private_key := string;
  ParsePKCS1PrivateKey := inl;
  ParsePKCS8PrivateKey := inl;
  rsa_private := λ _, true;
  rsa_SignPKCS1v15 := λ key h, inl (key +:+ ":" +:+ h);
  LoadX509KeyPair := λ _ _, inl tt;
|}.

(** Files are their content. *)
Definition demo_file_config (cert key : string) : Config :=
  {| fc_Identity := "bob"; fc_Certificate := cert; fc_Key := key; fc_CA := "CERTIFICATE|ca|ca"; fc_PrivilegedUsers := ["/privileged/"];
     fc_AllowList := ["/bob/"]; fc_DisableTLSVerify := false; fc_RemoteSignerURL := ""; fc_RemoteSignerTokenFile := "";
     fc_RemoteSignerSeedFile := ""; fc_BackwardCompatVerification := false; fc_IdentitySuffix := "mcollective";
     fc_RemoteSigner := None |}.

Definition demo_v1_request : Request :=
  rq_set_message "ping" (NewRequest V1 (100 * Second) "rpcutil" "client" "choria=bob" 60 "42" "mcollective").

Definition demo_secured (conf : Config) : res SecureRequest := new_secure_request (SP := FileSecurity conf) V1 demo_v1_request.


Definition demo_forged : Config := demo_file_config "JUNK|mallory|forged" "KEY|forged".




(** A request in Bob's name that Mallory signed, with a certificate nobody issued. *)
Definition demo_forgery : SecureRequest :=
  match demo_secured demo_forged with Ok sr => sr | _ => empty_secure_request V1 "" "" end.

Definition demo_forged_request : option Request :=
  match request_from_secure V1 demo_forgery with Ok r => Some r | _ => None end.

Lemma mislabelled_certificates_pass_witness : sr_Valid (SP := FileSecurity demo_forged) demo_forgery = Ok true.
Proof.
  assert (demo_forged_request ≠ None) as Hr by (vm_compute; discriminate).
  unfold demo_forged_request in Hr. destruct (request_from_secure V1 demo_forgery) as [req|e|w] eqn:Hreq; [|done..].
  assert (match request_from_secure V1 demo_forgery with Ok r => String.eqb (rq_CallerID r) "choria=bob" | _ => false end = true) as Hid
    by (vm_compute; reflexivity).
  rewrite Hreq in Hid. apply String.eqb_eq in Hid.
  apply (mislabelled_certificates_pass (XL := demo_x509) demo_forged demo_forgery req "CERTIFICATE|ca|ca" "bob" "JUNK" "mallory|forged"
    ("forged:" +:+ sha256_Sum256 (sr_MessageBody demo_forgery)) (("mallory", "forged") : string * string) ("forged" : string)); try exact Hreq;
    try (vm_compute; reflexivity).
  - rewrite Hid. vm_compute. reflexivity.
  - vm_compute. discriminate.
  - right. vm_compute. reflexivity.
Defined.
