(* ===== verification/Enrollment.v ===== *)
(** * Enrollment with certificate authorities

    providers/security/puppetsec and certmanager: how a program gets a key, the
    certificate of an authority and its own.  Files are what enrollment changes; keys,
    requests for certificates and the answers of the servers are arguments.  The
    directories of certificates are taken to exist. *)
From S2P Require Import Prelude Tree Records GoLib Files Framework.

(** The directory of certificates and which of its files can be written. *)
Abbreviation sslfiles := (gmap string string).

Definition exists_in (fs : sslfiles) (path : string) : bool := negb (String.eqb path "") && bool_decide (is_Some (fs !! path)).

(** PEM and keys: what is generated, parsed and asked for. *)
Class KeyLib := {
  rsa_key : Set;
  (** [rsa.GenerateKey] and its PEM *)
  GenerateKey : rsa_key + string;
  key_pem : rsa_key → string;
  (** the type and the key of the first block; [None] when there is none *)
  decode_key : string → option (string * (rsa_key + string));
  (** the request for a certificate of a name, as PEM, and its digest *)
  CreateCertificateRequest : rsa_key → string → string → list string → (string * string) + string;
}.

(** An answer of a server: its status and body. *)
Abbreviation http_response := (res (Z * string)).

Section Enroll.
Context `{KL : KeyLib}.
Variable can_write : string → bool.

Definition WriteFile (path content : string) : ST sslfiles string () := λ fs,
  if can_write path then (<[path := content]> fs, Ok tt) else (fs, Err ("open " +:+ path +:+ ": permission denied")).

Definition os_ReadFile (path : string) : ST sslfiles string string := λ fs,
  match fs !! path with
  | Some c => (fs, Ok c)
  | None => (fs, Err ("open " +:+ path +:+ ": no such file or directory"))
  end.

Definition wrapped {A} (p : string) (m : ST sslfiles string A) : ST sslfiles string A := λ fs,
  let '(fs, o) := m fs in (fs, map_err (λ e, p +:+ e) o).

Definition unless_exists (path : string) (m : ST sslfiles string ()) : ST sslfiles string () :=
  fs ← gets (λ fs, fs);
  if exists_in fs path then mret tt else m.

(** ** Puppet *)

Record PuppetConfig := {
  pp_Identity : string;
  pp_SSLDir : string;
  pp_AltNames : list string;
  pp_PuppetCAHost : string;
  pp_PuppetCAPort : Z;
  pp_DisableSRV : bool;
}.

Variable conf : PuppetConfig.

Definition pem_name : string := pp_Identity conf +:+ ".pem".
Definition caPath : string := path_join [pp_SSLDir conf; "certs"; "ca.pem"].
Definition privateKeyDir : string := path_join [pp_SSLDir conf; "private_keys"].
Definition privateKeyPath : string := path_join [privateKeyDir; pem_name].
Definition csrPath : string := path_join [pp_SSLDir conf; "certificate_requests"; pem_name].
Definition publicCertPath : string := path_join [pp_SSLDir conf; "certs"; pem_name].

(** The server of the authority; [srv] is what the SRV records say. *)
Definition puppetCA (srv : option (list Server + string)) : Server :=
  let found := NewServer (pp_PuppetCAHost conf) (pp_PuppetCAPort conf) "https" in
  if pp_DisableSRV conf then found
  else match srv with
       | Some (inl (s :: _)) => default_scheme "https" s
       | _ => found
       end.

Definition readPrivateKey : ST sslfiles string rsa_key := λ fs,
  match fs !! privateKeyPath with
  | None => (fs, Err ("key not found in " +:+ privateKeyPath))
  | Some pd =>
      match decode_key pd with
      | None => (fs, Panic "invalid memory address or nil pointer dereference")
      | Some (ty, key) =>
          if negb (String.eqb ty "RSA PRIVATE KEY") then (fs, Err ("key file " +:+ privateKeyPath +:+ " did not contain a private key"))
          else (fs, of_sum key)
      end
  end.

Definition generate_key (path : string) : ST sslfiles string rsa_key :=
  fs ← gets (λ fs, fs);
  if exists_in fs path then throw ("a private key already exist")
  else
    key ← wrapped "could not generate rsa key: " (lift (of_sum GenerateKey));
    wrapped "could not write private key: " (WriteFile path (key_pem key));;
    mret key.

Definition writeCSR (path : string) (key : rsa_key) (cn : string) (names : list string) : ST sslfiles string string :=
  fs ← gets (λ fs, fs);
  if exists_in fs path then throw "a certificate request already exist"
  else
    '(csr, digest) ← wrapped "could not create csr: " (lift (of_sum (CreateCertificateRequest key cn "choria.io" names)));
    wrapped "could not open csr for writing: " (WriteFile path csr);;
    mret digest.

(** What a server sends with status 200 is written as it is. *)
Definition fetch (path : string) (failed : Z → string → string) (answer : http_response) : ST sslfiles string () :=
  fs ← gets (λ fs, fs);
  if exists_in fs path then mret tt
  else
    '(status, body) ← lift answer;
    if negb (status =? 200)%Z then throw (failed status body) else WriteFile path body.

Definition fetchCA : http_response → ST sslfiles string () := fetch caPath (λ _ body, body).
Definition fetchCert : http_response → ST sslfiles string () := fetch publicCertPath (λ status _, "could not fetch certificate: " +:+ itoa status).

Definition submitCSR (answer : string → http_response) : ST sslfiles string () :=
  csr ← wrapped "could not read CSR: " (os_ReadFile csrPath);
  '(status, body) ← wrapped "could not send CSR: " (lift (answer csr));
  if (status =? 200)%Z then mret tt else throw ("could not send CSR: " +:+ itoa status).

(** What the loop waits for. *)
Inductive event := Interrupted | TimedOut | Ticked | Completed.

(** The calls of the callback, the fetches that succeeded and are waiting to be noticed,
    and the answers still to come. *)
Record waiting := { wt_calls : list (string * nat); wt_complete : nat }.

Definition fetcher (digest : string) (cert : nat → http_response) (w : waiting) (fs : sslfiles) : waiting * (sslfiles * res ()) :=
  let attempt := S (length (wt_calls w)) in
  let calls := wt_calls w ++ [(digest, attempt)] in
  match fetchCert (cert attempt) fs with
  | (fs, Ok _) => ({| wt_calls := calls; wt_complete := S (wt_complete w) |}, (fs, Ok tt))
  | (fs, Err _) => ({| wt_calls := calls; wt_complete := wt_complete w |}, (fs, Ok tt))
  | (fs, Panic p) => ({| wt_calls := calls; wt_complete := wt_complete w |}, (fs, Panic p))
  end.

(** [None] while it is waiting still. *)
Fixpoint wait_loop (digest : string) (cert : nat → http_response) (events : list event) (w : waiting) (fs : sslfiles) :
    waiting * (sslfiles * option (res ())) :=
  match events with
  | [] => (w, (fs, None))
  | Interrupted :: _ => (w, (fs, Some (Err "interrupted")))
  | TimedOut :: _ => (w, (fs, Some (Err "timed out waiting for a certificate")))
  | Completed :: rest => if Nat.ltb 0 (wt_complete w) then (w, (fs, Some (Ok tt))) else wait_loop digest cert rest w fs
  | Ticked :: rest =>
      match fetcher digest cert w fs with
      | (w, (fs, Ok _)) => wait_loop digest cert rest w fs
      | (w, (fs, o)) => (w, (fs, Some o))
      end
  end.

(** The answers of the servers: the authority's certificate, the request that is
    submitted and the attempts to fetch the certificate. *)
Record puppet_env := {
  pe_ca : http_response;
  pe_submit : string → http_response;
  pe_cert : nat → http_response;
}.

Variable e : puppet_env.

(** Up to the first attempt to fetch the certificate: the digest of a new request. *)
Definition puppet_request : ST sslfiles string string :=
  fs ← gets (λ fs, fs);
  if exists_in fs privateKeyPath && exists_in fs caPath && exists_in fs publicCertPath
  then throw "already have all files needed for SSL operations"
  else
    key ← (if exists_in fs privateKeyPath then wrapped "could not read private key: " readPrivateKey
           else wrapped "could not write a new private key: " (generate_key privateKeyPath));
    unless_exists caPath (wrapped "could not fetch CA: " (fetchCA (pe_ca e)));;
    fs ← gets (λ fs, fs);
    let previousCSR := exists_in fs csrPath in
    digest ← (if previousCSR then mret ""
              else wrapped "could not write CSR: " (writeCSR csrPath key (pp_Identity conf) (pp_AltNames conf)));
    unless_exists publicCertPath
      (r ← attempt (submitCSR (pe_submit e));
       match r with
       | inl _ => mret tt
       | inr m => if previousCSR then mret tt else throw ("could not submit csr: " +:+ m)
       end);;
    mret digest.

Definition PuppetEnroll (events : list event) (fs : sslfiles) : waiting * (sslfiles * option (res ())) :=
  let none := {| wt_calls := []; wt_complete := 0 |} in
  match puppet_request fs with
  | (fs, Ok digest) =>
      match fetcher digest (pe_cert e) none fs with
      | (w, (fs, Ok _)) => wait_loop digest (pe_cert e) events w fs
      | (w, (fs, o)) => (w, (fs, Some o))
      end
  | (fs, Err m) => (none, (fs, Some (Err m)))
  | (fs, Panic p) => (none, (fs, Some (Panic p)))
  end.

End Enroll.

(** ** Cert Manager *)

Section CertManager.
Context `{KL : KeyLib}.
Variable can_write : string → bool.

Record CMConfig := {
  cm_identity : string;
  cm_sslDir : string;
  cm_altnames : list string;
  cm_replace : bool;
}.
Variable conf : CMConfig.

Definition cm_csr : string := path_join [cm_sslDir conf; "csr.pem"].
Definition cm_cert : string := path_join [cm_sslDir conf; "cert.pem"].
Definition cm_key : string := path_join [cm_sslDir conf; "key.pem"].
Definition cm_ca : string := path_join [cm_sslDir conf; "ca.pem"].

(** The Kubernetes API: submissions in turn, the removal of an old request and the
    attempts to read the answer to one: the fields [status.ca] and [status.certificate]. *)
Record k8s_env := {
  ke_submit : nat → string → http_response;
  ke_delete : res Z;
  ke_status : nat → res (Z * (option string * option string));
}.
Variable e : k8s_env.

Definition shouldEnroll (fs : sslfiles) : bool := negb (exists_in fs cm_key && exists_in fs cm_ca && exists_in fs cm_cert).

Definition cm_submit (n : nat) : ST sslfiles string (Z * string) :=
  csr ← wrapped "could not read CSR: " (os_ReadFile cm_csr);
  lift (ke_submit e n csr).

Definition processCSR : ST sslfiles string () :=
  '(code, body) ← cm_submit 1;
  if (code =? 201)%Z then mret tt
  else if (code =? 409)%Z then
    if negb (cm_replace conf) then throw "found an existing CSR"
    else
      dcode ← lift (map_err (λ m, "deleting existing CSR failed: " +:+ m) (ke_delete e));
      if negb (dcode =? 200)%Z then throw ("deleting existing CSR failed: code " +:+ itoa dcode)
      else
        '(code, _) ← wrapped "csr creation failed: " (cm_submit 2);
        if negb (code =? 201)%Z then throw ("csr creation failed: code: " +:+ itoa code) else mret tt
  else throw ("unexpected error from the Kubernetes API: code: " +:+ itoa code).

Definition decode_pem (b64 : string) : res string :=
  match b64_decode b64 with Some s => Ok s | None => Err "illegal base64 data" end.

(** The authority's certificate is written before there is one for this program. *)
Definition fetchCertAndCA (n : nat) : ST sslfiles string () :=
  '(code, (ca, cert)) ← wrapped "could not load CSR: " (lift (ke_status e n));
  if negb (code =? 200)%Z then throw ("could not load CSR: code: " +:+ itoa code)
  else
    ca ← match ca with None => throw "did not receive a CA from Cert Manager" | Some b => lift (decode_pem b) end;
    wrapped "could not write ca: " (WriteFile can_write cm_ca ca);;
    cert ← match cert with None => throw "did not receive a certificate from Cert Manager" | Some b => lift (decode_pem b) end;
    wrapped "could not write certificate: " (WriteFile can_write cm_cert cert).

(** The tries of a minute; the context ends after [tries] of them. *)
Fixpoint fetch_loop (tries n : nat) : ST sslfiles string () :=
  match tries with
  | 0 => throw "context deadline exceeded"
  | S tries =>
      r ← attempt (fetchCertAndCA n);
      match r with inl _ => mret tt | inr _ => fetch_loop tries (S n) end
  end.

(** A key that exists already is not read: a request for its certificate has no key. *)
Definition CMEnroll (tries : nat) : ST sslfiles string () :=
  fs ← gets (λ fs, fs);
  if negb (shouldEnroll fs) then mret tt
  else
    key ← (if exists_in fs cm_key then mret None
           else k ← wrapped "could not write a new private key: " (generate_key can_write cm_key); mret (Some k));
    unless_exists cm_csr
      match key with
      | None => panic "invalid memory address or nil pointer dereference"
      | Some k => wrapped "could not write CSR: " (writeCSR can_write cm_csr k (cm_identity conf) (cm_altnames conf));; mret tt
      end;;
    fs ← gets (λ fs, fs);
    (if negb (exists_in fs cm_cert) || cm_replace conf then wrapped "csr submission failed: " processCSR else mret tt);;
    fetch_loop tries 1.

End CertManager.

(** * Theorems on enrollment

    Enrolling never changes a file that was there, and ends well only with the key and
    both certificates in place. *)

(** ** Files that stay *)

(** Whatever becomes of [m], the files there were are as they were. *)
Definition keeps {A} (m : ST sslfiles string A) : Prop := ∀ fs fs' o, m fs = (fs', o) → fs ⊆ fs'.
(** When [m] ends well there is a file at [path]. *)
Definition ensures {A} (path : string) (m : ST sslfiles string A) : Prop :=
  ∀ fs fs' a, m fs = (fs', Ok a) → exists_in fs' path = true.

Lemma exists_in_mono fs fs' path : fs ⊆ fs' → exists_in fs path = true → exists_in fs' path = true.
Proof.
  unfold exists_in. intros Hsub [Hne Hp]%andb_prop. rewrite Hne. apply bool_decide_eq_true in Hp as [c Hc].
  rewrite bool_decide_true; [done|]. exists c. by eapply lookup_weaken.
Qed.

Lemma keeps_bind {A B} (m : ST sslfiles string A) (f : A → ST sslfiles string B) : keeps m → (∀ a, keeps (f a)) → keeps (m ≫= f).
Proof.
  intros Hm Hf fs fs' o. unfold mbind, ST_bind. destruct (m fs) as [fs1 [a|e|p]] eqn:Hfs.
  - intros H. transitivity fs1; [by eapply Hm|by eapply Hf].
  - intros [= <- <-]. by eapply Hm.
  - intros [= <- <-]. by eapply Hm.
Qed.

Lemma keeps_const {A} (o : res A) : keeps (λ fs, (fs, o)).
Proof. intros fs fs' o' [= <- <-]. done. Qed.
Lemma keeps_gets {A} (f : sslfiles → A) : keeps (gets f).
Proof. intros fs fs' o' [= <- <-]. done. Qed.
Lemma keeps_ret {A} (a : A) : keeps (mret a).
Proof. apply keeps_const. Qed.
Lemma keeps_lift {A} (o : res A) : keeps (lift o).
Proof. apply keeps_const. Qed.
Lemma keeps_throw {A} e : keeps (throw e : ST sslfiles string A).
Proof. apply keeps_const. Qed.

Lemma keeps_wrapped {A} p (m : ST sslfiles string A) : keeps m → keeps (wrapped p m).
Proof. intros Hm fs fs' o. unfold wrapped. destruct (m fs) as [fs1 o1] eqn:H. intros [= <- <-]. by eapply Hm. Qed.

Lemma keeps_attempt {A} (m : ST sslfiles string A) : keeps m → keeps (attempt m : ST sslfiles string (A + string)).
Proof. intros Hm fs fs' o. unfold attempt. destruct (m fs) as [fs1 [a|e|p]] eqn:H; intros [= <- <-]; by eapply Hm. Qed.

Lemma keeps_unless path m : keeps m → keeps (unless_exists path m).
Proof. intros Hm. apply keeps_bind; [apply keeps_gets|]. intros fs. by destruct (exists_in fs path); [apply keeps_ret|]. Qed.

Create HintDb enroll.
#[export] Hint Resolve keeps_bind keeps_gets keeps_ret keeps_lift keeps_throw keeps_wrapped keeps_attempt keeps_unless : enroll.

Lemma ensures_bind {A B} path (m : ST sslfiles string A) (f : A → ST sslfiles string B) :
  ensures path m → (∀ a, keeps (f a)) → ensures path (m ≫= f).
Proof.
  intros Hm Hf fs fs' b (fs1 & a & H1 & H2)%ST_bind_Ok. eapply exists_in_mono; [by eapply Hf|by eapply Hm].
Qed.

Lemma ensures_then {A B} path (m : ST sslfiles string A) (f : A → ST sslfiles string B) :
  (∀ a, ensures path (f a)) → ensures path (m ≫= f).
Proof. intros Hf fs fs' b (fs1 & a & H1 & H2)%ST_bind_Ok. by eapply Hf. Qed.

Lemma ensures_wrapped {A} path p (m : ST sslfiles string A) : ensures path m → ensures path (wrapped p m).
Proof.
  intros Hm fs fs' a. unfold wrapped. destruct (m fs) as [fs1 [a1|e|w]] eqn:H; intros [= <- ?]. by eapply Hm.
Qed.

Lemma ensures_unless path m : ensures path m → ensures path (unless_exists path m).
Proof.
  intros Hm fs fs' a. unfold unless_exists, mbind, ST_bind, gets. destruct (exists_in fs path) eqn:He; [|by apply Hm].
  by intros [= <- <-].
Qed.

Section Enroll.
Context `{KL : KeyLib}.
Variable can_write : string → bool.

(** Writing where there is nothing. *)
Lemma WriteFile_fresh path content fs fs' o : exists_in fs path = false → path ≠ "" →
  WriteFile can_write path content fs = (fs', o) → fs ⊆ fs' ∧ (o = Ok tt → exists_in fs' path = true).
Proof.
  intros He Hne. unfold WriteFile. unfold exists_in in He. rewrite (proj2 (String.eqb_neq _ _) Hne) in He. cbn [negb andb] in He.
  apply bool_decide_eq_false in He. assert (fs !! path = None) as Hnone by (destruct (fs !! path); [by destruct He|done]).
  destruct (can_write path); intros [= <- <-]; (split; [|intros H]).
  - by apply insert_subseteq.
  - unfold exists_in. rewrite (proj2 (String.eqb_neq _ _) Hne). cbn. apply bool_decide_eq_true. by rewrite lookup_insert_eq.
  - done.
  - done.
Qed.

Lemma WriteFile_wrapped p path content fs fs' o : exists_in fs path = false → path ≠ "" →
  wrapped p (WriteFile can_write path content) fs = (fs', o) → fs ⊆ fs' ∧ (o = Ok tt → exists_in fs' path = true).
Proof.
  intros He Hne. unfold wrapped. destruct (WriteFile can_write path content fs) as [fs1 o1] eqn:Hw. intros [= <- <-].
  destruct (WriteFile_fresh path content fs fs1 o1 He Hne Hw) as [H1 H2]. split; [done|]. destruct o1 as [[]|e|w]; [by auto|done..].
Qed.

Lemma generate_key_spec path : path ≠ "" → keeps (generate_key can_write path) ∧ ensures path (generate_key can_write path).
Proof.
  intros Hne. assert (∀ fs fs' o, generate_key can_write path fs = (fs', o) → fs ⊆ fs' ∧ (is_ok o = true → exists_in fs' path = true)) as H.
  { intros fs fs' o. unfold generate_key. unfold mbind, ST_bind, gets. destruct (exists_in fs path) eqn:He; [by intros [= <- <-]|].
    unfold wrapped at 1, lift. destruct GenerateKey as [key|m]; [|by intros [= <- <-]]. cbn [of_sum map_err].
    destruct (wrapped _ _ fs) as [fs1 o1] eqn:Hw. apply WriteFile_wrapped in Hw as [H1 H2]; [|done..].
    destruct o1 as [[]|e|w]; intros [= <- <-]; by auto. }
  split; [intros fs fs' o Hm; by eapply H|intros fs fs' a Hm; by eapply H].
Qed.

Lemma writeCSR_keeps path key cn names : path ≠ "" → keeps (writeCSR can_write path key cn names).
Proof.
  intros Hne fs fs' o. unfold writeCSR. unfold mbind, ST_bind, gets. destruct (exists_in fs path) eqn:He; [by intros [= <- <-]|].
  unfold wrapped at 1, lift. destruct (CreateCertificateRequest key cn "choria.io" names) as [[csr digest]|m]; [|by intros [= <- <-]].
  cbn [of_sum map_err]. destruct (wrapped _ _ fs) as [fs1 o1] eqn:Hw. apply WriteFile_wrapped in Hw as [H1 H2]; [|done..].
  destruct o1 as [[]|e|w]; by intros [= <- <-].
Qed.

Lemma fetch_spec path failed answer : path ≠ "" →
  keeps (fetch can_write path failed answer) ∧ ensures path (fetch can_write path failed answer).
Proof.
  intros Hne. assert (∀ fs fs' o, fetch can_write path failed answer fs = (fs', o) → fs ⊆ fs' ∧ (o = Ok tt → exists_in fs' path = true)) as H.
  { intros fs fs' o. unfold fetch. unfold mbind, ST_bind, gets. destruct (exists_in fs path) eqn:He; [by intros [= <- <-]|].
    unfold lift. destruct answer as [[status body]|m|w]; [|by intros [= <- <-]..]. destruct (negb _); [by intros [= <- <-]|].
    intros Hw. by apply WriteFile_fresh in Hw. }
  split; [intros fs fs' o Hm; by eapply H|intros fs fs' [] Hm; by eapply H].
Qed.

(** ** Puppet *)

Variable conf : PuppetConfig.
Variable e : puppet_env.

Lemma pem_name_nonempty : pem_name conf ≠ "".
Proof.
  unfold pem_name. intros H. apply (f_equal String.length) in H. rewrite length_append in H. cbn in H. lia.
Qed.

Lemma paths_nonempty : caPath conf ≠ "" ∧ privateKeyPath conf ≠ "" ∧ csrPath conf ≠ "" ∧ publicCertPath conf ≠ "".
Proof.
  pose proof pem_name_nonempty as Hn.
  split_and!; [apply (path_join_nonempty _ "ca.pem"); [set_solver|done]|apply (path_join_nonempty _ (pem_name conf)); [set_solver|done]..].
Qed.

Lemma readPrivateKey_keeps : keeps (readPrivateKey conf).
Proof.
  intros fs fs' o. unfold readPrivateKey. destruct (fs !! _) as [pd|]; [|by intros [= <- <-]].
  destruct (decode_key pd) as [[ty key]|]; [|by intros [= <- <-]]. destruct (negb _); by intros [= <- <-].
Qed.

Lemma submitCSR_keeps answer : keeps (submitCSR conf answer).
Proof.
  unfold submitCSR. apply keeps_bind.
  - apply keeps_wrapped. intros fs fs' o. unfold os_ReadFile. destruct (fs !! _); by intros [= <- <-].
  - intros csr. apply keeps_bind; [by auto with enroll|]. intros [status body]. destruct (_ =? _)%Z; auto with enroll.
Qed.

Lemma puppet_request_spec fs fs' o : puppet_request can_write conf e fs = (fs', o) →
  fs ⊆ fs' ∧ (is_ok o = true → exists_in fs' (privateKeyPath conf) = true ∧ exists_in fs' (caPath conf) = true).
Proof.
  destruct paths_nonempty as (Hca & Hkey & Hcsr & Hcert).
  destruct (generate_key_spec _ Hkey) as [Hgk Hge]. destruct (fetch_spec _ (λ _ body, body) (pe_ca e) Hca) as [Hfk Hfe].
  pose proof readPrivateKey_keeps as Hrk. unfold puppet_request. unfold mbind at 1, ST_bind at 1, gets at 1.
  destruct (_ && _ && _); [by intros [= <- <-]|].
  set (getkey := if exists_in fs (privateKeyPath conf) then _ else _). set (rest := λ key, _). intros H.
  assert (∀ key, keeps (rest key)) as Hrest.
  { intros key. unfold rest. apply keeps_bind; [by auto with enroll|]. intros _. apply keeps_bind; [apply keeps_gets|]. intros fs1.
    apply keeps_bind; [destruct (exists_in fs1 _); [apply keeps_ret|by apply keeps_wrapped, writeCSR_keeps]|]. intros digest.
    apply keeps_bind; [|intros _; apply keeps_ret]. apply keeps_unless, keeps_bind; [apply keeps_attempt, submitCSR_keeps|].
    intros [[]|m]; [apply keeps_ret|]. destruct (exists_in fs1 _); auto with enroll. }
  assert (keeps getkey) as Hgetkey by (unfold getkey; destruct (exists_in fs _); auto with enroll).
  split; [by apply (keeps_bind getkey rest Hgetkey Hrest fs fs' o)|].
  intros Hok. apply is_ok_Ok in Hok as [digest ->]. apply ST_bind_Ok in H as (fs1 & key & H1 & H2). split.
  - eapply exists_in_mono; [by eapply Hrest|]. pose proof (Hgetkey _ _ _ H1) as Hsub. unfold getkey in H1.
    destruct (exists_in fs (privateKeyPath conf)) eqn:Hex; [by eapply exists_in_mono|].
    eapply ensures_wrapped; [exact Hge|exact H1].
  - revert fs1 fs' digest H1 H2. intros fs1 fs' digest _. unfold rest. apply (ensures_bind (caPath conf)).
    + by apply ensures_unless, ensures_wrapped.
    + intros _. apply keeps_bind; [apply keeps_gets|]. intros fs2.
      apply keeps_bind; [destruct (exists_in fs2 _); [apply keeps_ret|by apply keeps_wrapped, writeCSR_keeps]|]. intros dg.
      apply keeps_bind; [|intros _; apply keeps_ret]. apply keeps_unless, keeps_bind; [apply keeps_attempt, submitCSR_keeps|].
      intros [[]|m]; [apply keeps_ret|]. destruct (exists_in fs2 _); auto with enroll.
Qed.

Lemma fetcher_spec digest w fs w' fs' o : (0 < wt_complete w → exists_in fs (publicCertPath conf) = true) →
  fetcher can_write conf digest (pe_cert e) w fs = (w', (fs', o)) →
  fs ⊆ fs' ∧ (0 < wt_complete w' → exists_in fs' (publicCertPath conf) = true).
Proof.
  intros Hw. unfold fetcher, fetchCert. set (answer := pe_cert e _). set (failed := λ status _, _).
  destruct paths_nonempty as (_ & _ & _ & Hcert). destruct (fetch_spec _ failed answer Hcert) as [Hk He].
  destruct (fetch _ _ _ _ fs) as [fs1 o1] eqn:Hf. pose proof (Hk _ _ _ Hf) as Hsub.
  destruct o1 as [[]|m|p]; intros [= <- <- <-]; (split; [done|]); cbn [wt_complete]; intros Hc.
  - by eapply He.
  - eapply exists_in_mono; [done|by apply Hw].
  - eapply exists_in_mono; [done|by apply Hw].
Qed.

Lemma wait_loop_spec digest events w fs w' fs' r : (0 < wt_complete w → exists_in fs (publicCertPath conf) = true) →
  wait_loop can_write conf digest (pe_cert e) events w fs = (w', (fs', r)) →
  fs ⊆ fs' ∧ (r = Some (Ok tt) → exists_in fs' (publicCertPath conf) = true).
Proof.
  revert w fs. induction events as [|ev events IH]; intros w fs Hw; cbn [wait_loop]; [by intros [= <- <- <-]|]. destruct ev.
  - by intros [= <- <- <-].
  - by intros [= <- <- <-].
  - destruct (fetcher can_write conf digest (pe_cert e) w fs) as [w1 [fs1 o1]] eqn:Hf.
    apply fetcher_spec in Hf as [Hsub Hw1]; [|done]. destruct o1 as [[]|m|p].
    + intros H. destruct (IH w1 fs1 Hw1 H) as [H1 H2]. split; [by transitivity fs1|done].
    + by intros [= <- <- <-].
    + by intros [= <- <- <-].
  - destruct (Nat.ltb 0 (wt_complete w)) eqn:Hc; [|by apply IH]. apply Nat.ltb_lt in Hc. intros [= <- <- <-]. by auto.
Qed.

(** C30. Enrolling with Puppet changes no file that was there, however it ends: not a key,
    not a certificate, whatever the servers send. It ends well only when the key, the
    certificate of the authority and the program's own are all in place. *)
Theorem puppet_enrollment_sound (events : list event) (fs fs' : sslfiles) (w : waiting) (r : option (res ())) :
  PuppetEnroll can_write conf e events fs = (w, (fs', r)) →
  fs ⊆ fs' ∧
  (r = Some (Ok tt) → exists_in fs' (privateKeyPath conf) = true ∧ exists_in fs' (caPath conf) = true ∧
                      exists_in fs' (publicCertPath conf) = true).
Proof.
  unfold PuppetEnroll. destruct (puppet_request can_write conf e fs) as [fs1 o1] eqn:Hq.
  destruct (puppet_request_spec fs fs1 o1 Hq) as [Hsub Hfiles].
  destruct o1 as [digest|m|p]; [|by intros [= <- <- <-]..]. destruct (Hfiles eq_refl) as [Hkey Hca].
  set (none := {| wt_calls := []; wt_complete := 0 |}).
  destruct (fetcher can_write conf digest (pe_cert e) none fs1) as [w2 [fs2 o2]] eqn:Hf.
  apply fetcher_spec in Hf as [Hsub2 Hw2]; [|cbn; lia].
  assert (∀ fs3, fs2 ⊆ fs3 → fs ⊆ fs3 ∧ exists_in fs3 (privateKeyPath conf) = true ∧ exists_in fs3 (caPath conf) = true) as Hall.
  { intros fs3 H3. split; [by transitivity fs1; [|transitivity fs2]|].
    split; (eapply exists_in_mono; [|eassumption]); by transitivity fs2. }
  destruct o2 as [[]|m|p].
  - intros H. apply wait_loop_spec in H as [Hsub3 Hdone]; [|done]. destruct (Hall fs' Hsub3) as (H1 & H2 & H3).
    split; [done|]. by auto.
  - intros [= <- <- <-]. split; [by apply Hall|done].
  - intros [= <- <- <-]. split; [by apply Hall|done].
Qed.

End Enroll.

(** ** Cert Manager *)

(** A key whose request is missing ends the program, try after try. *)
Lemma key_without_request_panics `{KL : KeyLib} can_write conf e tries (fs : sslfiles) key :
  fs !! cm_key conf = Some key → exists_in fs (cm_csr conf) = false → exists_in fs (cm_cert conf) = false →
  (CMEnroll can_write conf e tries fs).2 = Panic "invalid memory address or nil pointer dereference".
Proof.
  intros Hkey Hcsr Hcert. unfold CMEnroll, shouldEnroll. unfold mbind at 1, ST_bind at 1, gets at 1. rewrite Hcert, andb_false_r. cbn [negb].
  assert (exists_in fs (cm_key conf) = true) as Hex.
  { unfold exists_in. rewrite bool_decide_true by (by exists key). rewrite (proj2 (String.eqb_neq _ _)); [done|].
    apply (path_join_nonempty _ "key.pem"); [set_solver|done]. }
  rewrite Hex. unfold mbind at 1, ST_bind at 1. cbn [mret ST_ret]. unfold mret, ST_ret.
  unfold mbind at 1, ST_bind at 1. unfold unless_exists. unfold mbind at 1, ST_bind at 1, gets at 1. rewrite Hcsr. done.
Qed.

(** ** A concrete enrollment *)

#[local] Instance demo_key_lib : KeyLib := {|
  rsa_key := string;
  GenerateKey := inl "key";
  key_pem := λ k, k;
  decode_key := λ s, Some ("RSA PRIVATE KEY", inl s);
  CreateCertificateRequest := λ k cn ou names, inl (k +:+ " for " +:+ cn, "digest");
|}.

Definition demo_puppet : PuppetConfig :=
  {| pp_Identity := "node1"; pp_SSLDir := "/ssl"; pp_AltNames := []; pp_PuppetCAHost := "puppet"; pp_PuppetCAPort := 8140;
     pp_DisableSRV := true |}.

(** The certificate is there at the third attempt. *)
Definition demo_puppet_env : puppet_env :=
  {| pe_ca := Ok (200%Z, "the authority"); pe_submit := λ _, Ok (200%Z, "");
     pe_cert := λ n, if Nat.leb 3 n then Ok (200%Z, "certificate") else Ok (404%Z, "") |}.

Definition demo_enroll := PuppetEnroll (λ _, true) demo_puppet demo_puppet_env [Ticked; Completed; Ticked; Completed] {["/ssl/other" := "kept"]}.

Lemma puppet_enrollment_sound_witness :
  demo_enroll.2.2 = Some (Ok tt) ∧ exists_in demo_enroll.2.1 "/ssl/certs/node1.pem" = true ∧ demo_enroll.2.1 !! "/ssl/other" = Some "kept".
Proof.
  assert (demo_enroll.2.2 = Some (Ok tt)) as Hok by (vm_compute; reflexivity).
  destruct (puppet_enrollment_sound (λ _, true) demo_puppet demo_puppet_env [Ticked; Completed; Ticked; Completed]
    {["/ssl/other" := "kept"]} demo_enroll.2.1 demo_enroll.1 demo_enroll.2.2) as [Hsub Hdone].
  { change (demo_enroll = (demo_enroll.1, (demo_enroll.2.1, demo_enroll.2.2))). generalize demo_enroll. by intros [w [fs r]]. }
  destruct (Hdone Hok) as (_ & _ & Hcert).
  assert (publicCertPath demo_puppet = "/ssl/certs/node1.pem") as Hpath by (vm_compute; reflexivity). rewrite Hpath in Hcert.
  split; [exact Hok|]. split; [exact Hcert|].
  apply (lookup_weaken _ _ _ _ (lookup_singleton_eq "/ssl/other" "kept") Hsub).
Defined.
