(* ===== verification/BasicClient.v ===== *)
(** * The low level client

    client/client/client.go: a request as the steps of its publisher, its receivers and
    the handlers they start, which share a channel of tokens, the replies and a context.
    [step] is one move; what the network, the callback and the clock do are labels. *)
From S2P Require Import Prelude Records.

(** A receiver: connecting, subscribing, sending its token and gone. *)
Inductive receiver_pc := Connecting | Subscribing | Sending | Gone.

(** The publisher: connecting, waiting for a token, publishing and back in [Request]. *)
Inductive publisher_pc := PConnecting | PWaiting | PPublishing | PReturned (err : bool).

#[export] Instance receiver_pc_eq_dec : EqDecision receiver_pc.
Proof. solve_decision. Defined.

Record Client := {
  receivers : list receiver_pc;
  publisher : publisher_pc;
  (** the tokens of [receiverReady] *)
  tokens : nat;
  (** the handlers that run *)
  handlers : nat;
  (** the subscriptions there are *)
  subscribed : nat;
  published : bool;
  (** the context is done *)
  cancelled : bool;
  replies : list string;
  handled : list string;
  (** [Request] returned, with an error or without *)
  returned : option bool;
}.

(** [ok] is whether a connection is made, a message published. [Take] handles a reply,
    and [cancel] is whether the callback cancels the request. *)
Inductive label :=
| Connect (i : nat) (ok : bool)
| Subscribe (i : nat)
| Send (i : nat)
| PubConnect (ok : bool)
| PubTake
| PubCancelled
| Publish (ok : bool)
| Reply (m : string)
| Take (cancel : bool)
| HandlerCancelled
| HandlerTimeout
| Cancel
| Return.

(** The channel of replies holds 100000, that of tokens as many as there are receivers. *)
Definition replies_cap : Z := 100000.

Definition set_receiver (i : nat) (pc : receiver_pc) (c : Client) : Client := c <| receivers ::= <[i := pc]> |>.
Definition at_pc (i : nat) (pc : receiver_pc) (c : Client) : bool := bool_decide (receivers c !! i = Some pc).

Definition guard (b : bool) (c : Client) : option Client := if b then Some c else None.

Definition step (l : label) (c : Client) : option Client :=
  match l with
  | Connect i ok =>
      if ok then guard (at_pc i Connecting c) (set_receiver i Subscribing c <| handlers ::= S |>)
      else guard (at_pc i Connecting c) (set_receiver i Gone c)
  | Subscribe i => guard (at_pc i Subscribing c) (set_receiver i Sending c <| subscribed ::= S |>)
  | Send i => guard (at_pc i Sending c && Nat.ltb (tokens c) (length (receivers c))) (set_receiver i Gone c <| tokens ::= S |>)
  | PubConnect ok =>
      match publisher c with
      | PConnecting => Some (c <| publisher := if ok then PWaiting else PReturned true |>)
      | _ => None
      end
  | PubTake =>
      match publisher c with
      | PWaiting => guard (Nat.ltb 0 (tokens c)) (c <| publisher := PPublishing |> <| tokens ::= Nat.pred |>)
      | _ => None
      end
  | PubCancelled =>
      match publisher c with
      | PWaiting => guard (cancelled c) (c <| publisher := PReturned false |>)
      | _ => None
      end
  | Publish ok =>
      match publisher c with
      | PPublishing => Some (c <| publisher := PReturned (negb ok) |> <| published := ok |>)
      | _ => None
      end
  | Reply m =>
      guard (published c && Nat.ltb 0 (subscribed c) && (Z.of_nat (length (replies c)) <? replies_cap)%Z) (c <| replies ::= (λ r, r ++ [m]) |>)
  | Take cancel =>
      match replies c with
      | m :: rest =>
          guard (Nat.ltb 0 (handlers c))
            (c <| replies := rest |> <| handled ::= (λ h, h ++ [m]) |> <| cancelled ::= orb cancel |>)
      | [] => None
      end
  | HandlerCancelled => guard (Nat.ltb 0 (handlers c) && cancelled c) (c <| handlers ::= Nat.pred |>)
  | HandlerTimeout => guard (Nat.ltb 0 (handlers c)) (c <| handlers ::= Nat.pred |>)
  | Cancel => Some (c <| cancelled := true |>)
  | Return =>
      match publisher c, returned c with
      | PReturned true, None => Some (c <| returned := Some true |> <| cancelled := true |>)
      | PReturned false, None =>
          guard (forallb (λ pc, bool_decide (pc = Gone)) (receivers c) && Nat.eqb (handlers c) 0)
            (c <| returned := Some false |> <| cancelled := true |>)
      | _, _ => None
      end
  end.

Fixpoint run (ls : list label) (c : Client) : option Client :=
  match ls with
  | [] => Some c
  | l :: ls => c ← step l c; run ls c
  end.

(** [New] *)
Definition New (n : Z) : res nat := if (n <=? 0)%Z then Err "receivers should be more than 1" else Ok (Z.to_nat n).

(** [Request] on a client whose channel has tokens of earlier requests; without a handler
    there are no receivers and a token is sent first. *)
Definition Request (n left : nat) : Client :=
  {| receivers := replicate n Connecting; publisher := PConnecting; tokens := left; handlers := 0; subscribed := 0;
     published := false; cancelled := false; replies := []; handled := []; returned := None |}.

(** The tokens a request leaves in the channel. *)
Definition left_over (c : Client) : nat := tokens c.

(** * Theorems on the low level client

    On a client that is used once every move leads to an end, and what is published finds
    a subscription for its replies. *)

(** ** Counting receivers *)

Definition weight (pc : receiver_pc) : nat :=
  match pc with Connecting => 4 | Subscribing => 2 | Sending => 1 | Gone => 0 end.
Definition active (pc : receiver_pc) : nat := match pc with Gone => 0 | _ => 1 end.
Fixpoint total (f : receiver_pc → nat) (l : list receiver_pc) : nat :=
  match l with [] => 0 | pc :: l => f pc + total f l end.

Lemma total_insert f l i pc pc' : l !! i = Some pc → total f (<[i := pc']> l) + f pc = total f l + f pc'.
Proof.
  revert i. induction l as [|a l IH]; intros i H; [done|]. destruct i as [|i].
  - injection H as ->. cbn. lia.
  - change (<[S i:=pc']> (a :: l)) with (a :: <[i:=pc']> l). cbn [total]. specialize (IH i H). lia.
Qed.

Lemma total_lookup f l i pc : l !! i = Some pc → f pc ≤ total f l.
Proof.
  revert i. induction l as [|a l IH]; intros i H; [done|]. destruct i as [|i]; cbn in *; [injection H as ->; lia|].
  specialize (IH i H). lia.
Qed.

Lemma total_zero l : total active l = 0 → forallb (λ pc, bool_decide (pc = Gone)) l = true.
Proof.
  induction l as [|pc l IH]; [done|]. destruct pc; cbn; try lia. intros H. rewrite IH; [done|exact H].
Qed.

Lemma total_gone l : forallb (λ pc, bool_decide (pc = Gone)) l = true → total active l = 0.
Proof.
  induction l as [|pc l IH]; [done|]. cbn [forallb total]. intros [->%bool_decide_eq_true H]%andb_prop. by rewrite IH.
Qed.

Lemma total_some l : total active l ≠ 0 → ∃ i pc, l !! i = Some pc ∧ pc ≠ Gone.
Proof.
  induction l as [|pc l IH]; [done|]. cbn. intros H. destruct (decide (pc = Gone)) as [->|Hne].
  - destruct (IH H) as (i & pc & Hi & Hne). by exists (S i), pc.
  - by exists 0, pc.
Qed.

(** ** Invariants *)

(** There is room for the token of every receiver that has yet to send it. *)
Definition room (c : Client) : Prop := tokens c + total active (receivers c) ≤ length (receivers c).

(** Tokens are sent after subscribing. *)
Record answered (c : Client) : Prop := {
  an_tokens : 0 < tokens c → 0 < subscribed c;
  an_publishing : publisher c = PPublishing → 0 < subscribed c;
  an_published : published c = true → 0 < subscribed c;
  an_sending : ∀ i, receivers c !! i = Some Sending → 0 < subscribed c;
}.

Definition settled (c : Client) : Prop :=
  returned c = Some false → handlers c = 0 ∧ total active (receivers c) = 0.

Lemma at_pc_spec i pc c : at_pc i pc c = true → receivers c !! i = Some pc.
Proof. unfold at_pc. by intros H%bool_decide_eq_true. Qed.

Lemma insert_sending l i j pc : pc ≠ Sending → (<[i := pc]> l : list receiver_pc) !! j = Some Sending → l !! j = Some Sending.
Proof.
  intros Hpc H. destruct (decide (i = j)) as [->|Hne]; [|by rewrite list_lookup_insert_ne in H].
  destruct (decide (j < length l)) as [Hl|Hl]; [|by rewrite list_insert_ge in H by lia].
  rewrite list_lookup_insert_eq in H by done. congruence.
Qed.

(** The cases of a step on the fields of a state. *)
Ltac step_cases Hs :=
  unfold step, guard, set_receiver in Hs; cbn -[total] in Hs; repeat (case_match; try discriminate Hs);
  try discriminate Hs; injection Hs as <-;
  repeat match goal with
  | H : (_ && _)%bool = true |- _ => apply andb_prop in H as [? ?]
  | H : at_pc _ _ _ = true |- _ => apply at_pc_spec in H; cbn in H
  end.

Lemma step_room l c c' : room c → step l c = Some c' → room c'.
Proof.
  destruct c as [rs pub tok hnd sub pb cn rp hd rt]. unfold room. intros Hr Hs. cbn [tokens receivers] in Hr.
  destruct l as [i []|i|i|[]| | |[]|m|b| | | |]; step_cases Hs; cbn -[total]; rewrite ?length_insert;
    repeat match goal with
    | H : rs !! ?i = Some ?pc |- context [total active (<[?i := ?pc']> rs)] =>
        pose proof (total_insert active rs i pc pc' H); cbn [active] in *; clear H
    end; lia.
Qed.

Lemma step_answered l c c' : answered c → step l c = Some c' → answered c'.
Proof.
  destruct c as [rs pub tok hnd sub pb cn rp hd rt]. intros [H1 H2 H3 H4] Hs. cbn in H1, H2, H3, H4.
  destruct l as [i []|i|i|[]| | |[]|m|b| | | |]; step_cases Hs; (split; cbn; intros);
    repeat match goal with
    | H : <[_ := ?pc]> rs !! _ = Some Sending |- _ => apply insert_sending in H; [|done]
    | H : (_ <? _)%nat = true |- _ => apply Nat.ltb_lt in H
    end; simplify_eq; eauto using Nat.lt_0_succ; try lia.
Qed.

Lemma step_settled l c c' : settled c → step l c = Some c' → settled c'.
Proof.
  destruct c as [rs pub tok hnd sub pb cn rp hd rt]. unfold settled. intros Hr Hs. cbn [returned handlers receivers] in Hr.
  destruct l as [i []|i|i|[]| | |[]|m|b| | | |]; step_cases Hs; cbn -[total]; intros Hret; simplify_eq; specialize (Hr eq_refl) as [Hh Ha] || idtac;
    repeat match goal with
    | H : rs !! ?i = Some ?pc |- _ => apply (total_lookup active) in H; cbn [active] in H
    | H : (_ <? _)%nat = true |- _ => apply Nat.ltb_lt in H
    | H : (_ =? _)%nat = true |- _ => apply Nat.eqb_eq in H
    | H : forallb _ _ = true |- _ => apply total_gone in H
    end; try lia; auto.
Qed.

Definition fresh_invariant (c : Client) : Prop := room c ∧ answered c ∧ settled c.

Lemma total_replicate n : total active (replicate n Connecting) = n.
Proof. induction n as [|n IH]; [done|]. cbn. by rewrite IH. Qed.

Lemma run_invariant ls c c' : fresh_invariant c → run ls c = Some c' → fresh_invariant c'.
Proof.
  revert c. induction ls as [|l ls IH]; intros c Hi; cbn; [by intros [= <-]|].
  destruct (step l c) as [c1|] eqn:Hs; [|done]. cbn. intros H. apply (IH c1); [|done]. destruct Hi as (H1 & H2 & H3).
  split_and!; [by eapply step_room|by eapply step_answered|by eapply step_settled].
Qed.

Lemma fresh_Request n : fresh_invariant (Request n 0).
Proof.
  split_and!.
  - unfold room. cbn. rewrite total_replicate, length_replicate. lia.
  - split; cbn; intros; try lia; try done. apply lookup_replicate in H as [? _]. done.
  - done.
Qed.

(** ** What is published is answered *)

(** On a client that was not used before, a message is published only when there is a
    subscription for its replies, so that no reply is lost to a late subscriber; and when
    the request returned without an error nothing handles replies any more: whatever
    happens next, those that were handled stay those. *)
Theorem replies_are_subscribed_for (n : nat) (ls ls' : list label) (c c' : Client) :
  run ls (Request n 0) = Some c → run ls' c = Some c' →
  (published c = true → 0 < subscribed c) ∧
  (returned c = Some false → handlers c = 0 ∧ returned c' = Some false ∧ handled c' = handled c).
Proof.
  intros Hrun Hrun'. pose proof (run_invariant ls _ c (fresh_Request n) Hrun) as Hi.
  split; [apply Hi|]. intros Hret. split; [by apply Hi|]. clear Hrun. revert c Hi Hret Hrun'.
  induction ls' as [|l ls' IH]; intros c Hi Hret; cbn; [by intros [= <-]|].
  destruct (step l c) as [c1|] eqn:Hs; [|done]. cbn. intros Hrun.
  assert (returned c1 = Some false ∧ handled c1 = handled c) as [H1 H2].
  { destruct Hi as (_ & _ & Hset). destruct (Hset Hret) as [Hh Ha]. clear Hset Hrun.
    destruct c as [rs pub tok hnd sub pb cn rp hd rt]. cbn in Hret, Hh, Ha. subst.
    destruct l as [i []|i|i|[]| | |[]|m|b| | | |]; step_cases Hs; cbn; done. }
  rewrite <- H2. apply (IH c1); [|done|done]. apply (run_invariant [l] c c1); [done|]. cbn. by rewrite Hs.
Qed.

(** ** It ends *)

(** The moves of the program; the others are those of the network and of the caller. *)
Definition own (l : label) : bool := match l with Reply _ | Cancel => false | _ => true end.

Definition publisher_weight (p : publisher_pc) : nat :=
  match p with PConnecting => 3 | PWaiting => 2 | PPublishing => 1 | PReturned _ => 0 end.

Definition to_return (r : option bool) : nat := match r with Some _ => 0 | None => 1 end.

(** What is left to do. *)
Definition work (c : Client) : nat :=
  total weight (receivers c) + handlers c + length (replies c) + publisher_weight (publisher c) +
  to_return (returned c).

Lemma own_step l c c' : own l = true → step l c = Some c' → work c' < work c.
Proof.
  destruct c as [rs pub tok hnd sub pb cn rp hd rt]. unfold work. intros Ho Hs.
  destruct l as [i []|i|i|[]| | |[]|m|b| | | |]; try discriminate Ho; step_cases Hs; cbn -[total];
    repeat match goal with
    | H : rs !! ?i = Some ?pc |- context [total weight (<[?i := ?pc']> rs)] =>
        pose proof (total_insert weight rs i pc pc' H); cbn [weight] in *; clear H
    | H : (_ <? _)%nat = true |- _ => apply Nat.ltb_lt in H
    end; lia.
Qed.

Lemma own_progress c : fresh_invariant c → cancelled c = true → returned c = None → ∃ l, own l = true ∧ is_Some (step l c).
Proof.
  intros (Hroom & _ & _) Hc Hr. destruct (publisher c) as [| | |err] eqn:Hp.
  - exists (PubConnect true). split; [done|]. unfold step. rewrite Hp. by eexists.
  - exists PubCancelled. split; [done|]. unfold step, guard. rewrite Hp, Hc. by eexists.
  - exists (Publish true). split; [done|]. unfold step. rewrite Hp. by eexists.
  - destruct err.
    { exists Return. split; [done|]. unfold step. rewrite Hp, Hr. by eexists. }
    destruct (decide (total active (receivers c) = 0)) as [Ha|Ha].
    + destruct (decide (handlers c = 0)) as [Hh|Hh].
      * exists Return. split; [done|]. unfold step, guard. rewrite Hp, Hr, (total_zero _ Ha), Hh. by eexists.
      * exists HandlerCancelled. split; [done|]. unfold step, guard. rewrite Hc, (proj2 (Nat.ltb_lt 0 (handlers c))) by lia. by eexists.
    + apply total_some in Ha as (i & pc & Hi & Hne). pose proof (total_lookup active _ _ _ Hi) as Hact. destruct pc; [| | |done].
      * exists (Connect i true). split; [done|]. unfold step, guard, at_pc. rewrite bool_decide_true by done. by eexists.
      * exists (Subscribe i). split; [done|]. unfold step, guard, at_pc. rewrite bool_decide_true by done. by eexists.
      * exists (Send i). split; [done|]. unfold step, guard, at_pc. rewrite bool_decide_true by done.
        unfold room in Hroom. cbn [active] in Hact. rewrite (proj2 (Nat.ltb_lt _ _)) by lia. by eexists.
Qed.

Lemma cancelled_stays l c c' : cancelled c = true → step l c = Some c' → cancelled c' = true.
Proof.
  destruct c as [rs pub tok hnd sub pb cn rp hd rt]. cbn. intros -> Hs.
  destruct l as [i []|i|i|[]| | |[]|m|b| | | |]; step_cases Hs; cbn; try done. apply orb_true_r.
Qed.

(** C12. A request on a client that was not used before ends once its context is done: the
    program makes at most as many moves as there is work left, whichever they are, and
    when it cannot make another the request returned. *)
Theorem request_ends (n : nat) (ls own_moves : list label) (c c' : Client) :
  run ls (Request n 0) = Some c → cancelled c = true →
  Forall (λ l, own l = true) own_moves → run own_moves c = Some c' →
  length own_moves ≤ work c ∧
  ((∀ l, own l = true → step l c' = None) → is_Some (returned c')).
Proof.
  intros Hrun Hc Hown Hrun'. pose proof (run_invariant ls _ c (fresh_Request n) Hrun) as Hi. clear Hrun. split.
  - clear Hi Hc. revert c Hrun'. induction Hown as [|l moves Ho Hown IH]; intros c; cbn; [lia|].
    destruct (step l c) as [c1|] eqn:Hs; [|done]. cbn. intros H. pose proof (own_step l c c1 Ho Hs). specialize (IH c1 H). lia.
  - intros Hstuck. pose proof (run_invariant own_moves c c' Hi Hrun') as Hi'.
    assert (cancelled c' = true) as Hc'.
    { clear Hi Hi' Hstuck. revert c Hc Hrun'. induction Hown as [|l moves Ho Hown IH]; intros c Hc; cbn; [by intros [= <-]|].
      destruct (step l c) as [c1|] eqn:Hs; [|done]. cbn. apply IH. by eapply cancelled_stays. }
    destruct (returned c') as [b|] eqn:Hr; [by eexists|]. destruct (own_progress c' Hi' Hc' Hr) as (l & Ho & [c2 Hs]).
    by rewrite (Hstuck l Ho) in Hs.
Qed.

(** ** Concrete requests *)

(** Three receivers, a reply that ends the request, and everything stops. *)
Definition demo_moves : list label :=
  [Connect 0 true; Subscribe 0; Send 0; PubConnect true; PubTake; Publish true; Connect 1 true; Connect 2 true; Subscribe 1;
   Subscribe 2; Send 1; Send 2; Reply "a"; Take true; HandlerCancelled; HandlerCancelled; HandlerCancelled; Return].

Definition demo_end : Client := default (Request 3 0) (run demo_moves (Request 3 0)).

Lemma replies_are_subscribed_for_witness : 0 < subscribed demo_end ∧ handlers demo_end = 0.
Proof.
  destruct (replies_are_subscribed_for 3 demo_moves [Cancel] demo_end (demo_end <| cancelled := true |>)) as [H1 H2];
    [vm_compute; reflexivity..|].
  split; [apply H1; vm_compute; reflexivity|]. apply H2. vm_compute. reflexivity.
Defined.

Definition demo_started : list label := firstn 13 demo_moves ++ [Cancel].
Definition demo_rest : list label := [Take false; HandlerCancelled; HandlerTimeout; HandlerCancelled; Return].
Definition demo_running : Client := default (Request 3 0) (run demo_started (Request 3 0)).

Lemma request_ends_witness : length demo_rest ≤ work demo_running.
Proof.
  apply (request_ends 3 demo_started demo_rest demo_running demo_end);
    [vm_compute; reflexivity|vm_compute; reflexivity|repeat constructor|vm_compute; reflexivity].
Defined.

(** The same client again: two tokens are left. *)
Example tokens_are_left : left_over demo_end = 2.
Proof. vm_compute. reflexivity. Qed.

(** The second request is published though nobody is subscribed for its replies... *)
Example second_request_is_early :
  option_map (λ c, (published c, subscribed c)) (run [PubConnect true; PubTake; Publish true] (Request 3 2)) = Some (true, 0).
Proof. vm_compute. reflexivity. Qed.

(** ... and its third receiver waits for ever to send its token: the request does not
    return though it is cancelled. *)
Definition demo_second : option Client :=
  run [PubConnect true; PubTake; Publish true; Connect 0 true; Connect 1 true; Connect 2 true; Subscribe 0; Subscribe 1; Subscribe 2;
       Send 0; Send 1; Cancel; HandlerCancelled; HandlerCancelled; HandlerCancelled] (Request 3 2).

Lemma second_request_hangs : ∃ c, demo_second = Some c ∧ cancelled c = true ∧ returned c = None ∧
  ∀ l, own l = true → step l c = None.
Proof.
  eexists. split; [vm_compute; reflexivity|]. split; [done|]. split; [done|].
  intros l Ho. destruct l as [i []|i|i|[]| | |[]|m|b| | | |]; try done; destruct i as [|[|[|i]]]; done.
Qed.
