(* ===== verification/AAgent.v ===== *)
(** * The host of autonomous agents

    aagent/aagent.go, with the starting and stopping of machine/machine.go: which machines
    of a directory a server runs, and what it does when the directory changes. The disk is
    an argument, the same throughout one pass over it; HTTP listeners are left out. *)
From S2P Require Import Prelude Records GoLib.

(** ** Machines *)

Record managed := {
  mm_path : string;
  mm_name : string;
  mm_version : string;
  mm_id : string;
  mm_hash : string;
  mm_plugin : bool;
  mm_embedded : bool;
  mm_splay : bool;
  (** the contexts that [Start] made, earliest first, and whether they are done; [m.ctx] and
      [m.cancel] are those of the last one *)
  mm_done : list bool;
  (** the contexts that goroutines in their splay look at *)
  mm_sleeping : list nat;
  (** the manager made its watchers, and runs them under this context *)
  mm_watching : option nat;
  (** the watchers were told that the machine is deleted *)
  mm_deleted : bool;
  (** [startTime] is set *)
  mm_started : bool;
}.

(** The watchers of the machine are running. *)
Definition running (m : managed) : bool :=
  match mm_watching m with Some k => bool_decide (mm_done m !! k = Some false) | None => false end.

(** [Manager.Run] under [m.ctx]; [ok] is whether the watchers can be made.  A manager that
    has its watchers, and a machine has one at least, cannot make them again. *)
Definition run_manager (ok : bool) (m : managed) : managed :=
  match mm_watching m with
  | None => if ok then m <| mm_watching := Some (pred (length (mm_done m))) |> <| mm_started := true |> else m
  | Some _ => m
  end.

(** [Machine.Start]: its goroutine runs the manager, after its splay. *)
Definition Start (ok : bool) (m : managed) : managed :=
  let m := m <| mm_done ::= (λ l, l ++ [false]) |> in
  if mm_splay m then m <| mm_sleeping ::= (λ l, l ++ [pred (length (mm_done m))]) |> else run_manager ok m.

(** Sleeper [i] wakes, by the end of its splay or because its context is done. *)
Definition wake (ok : bool) (i : nat) (m : managed) : managed :=
  match mm_sleeping m !! i with
  | None => m
  | Some k =>
      let m := m <| mm_sleeping ::= delete i |> in
      if bool_decide (mm_done m !! k = Some true) then m <| mm_started := false |> else run_manager ok m
  end.

(** [Machine.Stop]: the last context is done. *)
Definition Stop (m : managed) : managed :=
  m <| mm_done ::= alter (λ _, true) (pred (length (mm_done m))) |> <| mm_started := false |>.

(** [Machine.Delete]: its watchers clean up first. *)
Definition Delete (m : managed) : managed := Stop (m <| mm_deleted := true |>).

(** ** The host *)

Record AAgent := {
  aa_source : string;
  aa_machines : list managed;
  (** the machines that were dropped *)
  aa_dropped : list managed;
  aa_next : nat;
}.

Record disk := {
  (** [FileIsDir] of the source and its entries, with whether they are directories *)
  dk_source_is_dir : bool;
  dk_entries : res (list (string * bool));
  dk_exists : string → bool;
  (** the hash of the manifest in a directory *)
  dk_hash : string → res string;
  (** [FromDir]: the name, the version and whether it splays *)
  dk_load : string → res (string * string * bool);
  (** whether the manager of the machine in a directory runs *)
  dk_run : string → bool;
}.

(** [AAgent.findMachine]: the first that matches what is asked for. *)
Definition asked (want have : string) : bool := String.eqb want "" || String.eqb have want.

Definition findMachine (name version path id : string) (l : list managed) : option managed :=
  if String.eqb name "" && String.eqb version "" && String.eqb path "" && String.eqb id "" then None
  else List.find (λ m, asked name (mm_name m) && asked version (mm_version m) && asked path (mm_path m) && asked id (mm_id m)) l.

(** The index of the last machine of a path. *)
Fixpoint last_at (path : string) (l : list managed) (i : nat) (found : option nat) : option nat :=
  match l with
  | [] => found
  | m :: rest => last_at path rest (S i) (if String.eqb (mm_path m) path then Some i else found)
  end.

(** The machine makes place for the last one of the list. *)
Definition swap_remove (i : nat) (l : list managed) : list managed :=
  match last l with
  | None => l
  | Some x => removelast (<[i := x]> l)
  end.

Definition deleteByPath (path : string) (l : list managed) : res (list managed) :=
  match last_at path l 0 None with
  | Some i => Ok (swap_remove i l)
  | None => Err ("could not find a machine from " +:+ path)
  end.

Definition on_machines (f : list managed → list managed) (a : AAgent) : AAgent := a <| aa_machines ::= f |>.

(** A machine that was stopped departs the list. *)
Definition drop_machine (stopped : managed) (path : string) (a : AAgent) : AAgent :=
  match deleteByPath path (aa_machines a) with
  | Ok l => a <| aa_machines := l |> <| aa_dropped ::= cons stopped |>
  | _ => a
  end.

Section Host.
Variable d : disk.

(** [AAgent.loadMachine] *)
Definition loadMachine (path : string) (a : AAgent) : AAgent :=
  match (x ← dk_load d path; sum ← dk_hash d path; Ok (x, sum)) with
  | Ok (name, version, splay, sum) =>
      a <| aa_machines ::= (λ l, l ++ [{| mm_path := path; mm_name := name; mm_version := version; mm_id := itoa (Z.of_nat (aa_next a));
                                          mm_hash := sum; mm_plugin := false; mm_embedded := false; mm_splay := splay;
                                          mm_done := []; mm_sleeping := []; mm_watching := None; mm_deleted := false; mm_started := false |}]) |>
        <| aa_next ::= S |>
  | _ => a
  end.

Definition is_machine_dir (e : string * bool) : bool :=
  e.2 && negb (String.eqb e.1 "tmp") && negb (has_prefix e.1 ".") && negb (has_suffix e.1 "-temp").

(** One entry of the source. A hash that cannot be determined is the empty one. *)
Definition load_entry (a : AAgent) (e : string * bool) : AAgent :=
  let path := path_join [aa_source a; e.1] in
  if negb (is_machine_dir e) then a
  else
    match findMachine "" "" path "" (aa_machines a) with
    | None => loadMachine path a
    | Some m =>
        if mm_embedded m then a
        else if String.eqb (match dk_hash d path with Ok h => h | _ => "" end) (mm_hash m) then a
        else loadMachine path (drop_machine (Stop m) path a)
    end.

Definition loadFromSource (a : AAgent) : res AAgent :=
  files ← map_err (λ e, "could not read machine source: " +:+ e) (dk_entries d);
  Ok (foldl load_entry a files).

Definition loadf (a : AAgent) : AAgent :=
  if String.eqb (aa_source a) "" || negb (dk_source_is_dir d) then a
  else match loadFromSource a with Ok a' => a' | _ => a end.

(** Machines that are gone from the disk end; those compiled in stay. *)
Definition is_gone (m : managed) : bool := negb (mm_plugin m) && negb (dk_exists d (mm_path m)).

Definition clean_one (a : AAgent) (m : managed) : AAgent := drop_machine (Delete m) (mm_path m) a.

Definition cleanf (a : AAgent) : AAgent := foldl clean_one a (List.filter is_gone (aa_machines a)).

Definition startMachines : AAgent → AAgent :=
  on_machines (map (λ m, if mm_started m then m else Start (dk_run d (mm_path m)) m)).

(** What happens every ten seconds. *)
Definition tick (a : AAgent) : AAgent := startMachines (loadf (cleanf a)).

(** [AAgent.LoadPlugin]: a machine that is compiled in, unless making it failed. *)
Definition LoadPlugin (plugin : res (string * string * bool)) (a : AAgent) : AAgent * res () :=
  match plugin with
  | Ok (name, version, splay) =>
      (a <| aa_machines ::= (λ l, l ++ [{| mm_path := path_join [aa_source a; name]; mm_name := name; mm_version := version;
                                           mm_id := itoa (Z.of_nat (aa_next a)); mm_hash := ""; mm_plugin := true; mm_embedded := true;
                                           mm_splay := splay; mm_done := []; mm_sleeping := []; mm_watching := None; mm_deleted := false; mm_started := false |}]) |>
         <| aa_next ::= S |>, Ok tt)
  | Err e => (a, Err e)
  | Panic p => (a, Panic p)
  end.

(** [watchSource] before its loop. *)
Definition load_all (plugins : list (res (string * string * bool))) (a : AAgent) : AAgent :=
  startMachines (loadf (foldl (λ a p, (LoadPlugin p a).1) a plugins)).

End Host.

(** ** Requests *)

(** [AAgent.Transition]; what a machine can do and does. *)
Definition Transition (can : managed → string → bool) (transition : managed → string → res ()) (name version path id event : string)
    (a : AAgent) : res () :=
  match findMachine name version path id (aa_machines a) with
  | None => Err "could not find machine matching criteria"
  | Some m =>
      if negb (can m event) then Err ("transition " +:+ event +:+ " is not valid")
      else transition m event
  end.

Definition machineStateLookup (state : managed → string) (name : string) (a : AAgent) : res string :=
  match findMachine name "" "" "" (aa_machines a) with
  | None => Err ("could not find machine matching name='" +:+ name +:+ "'")
  | Some m => Ok (state m)
  end.

(** * Theorems on the host of autonomous agents

    What a pass over the directory of machines comes to, and who may be left running. *)
From S2P Require Import Tree.

(** ** Lists of machines *)

Definition paths (l : list managed) : list string := map mm_path l.
Definition without (p : string) (l : list managed) : list managed := List.filter (λ m, negb (String.eqb (mm_path m) p)) l.

Lemma without_elem p l m : m ∈ without p l ↔ m ∈ l ∧ mm_path m ≠ p.
Proof.
  unfold without. rewrite !list_elem_of_In, List.filter_In.
  rewrite negb_true_iff, String.eqb_neq. done.
Qed.

Lemma without_none p l : p ∉ paths l → without p l = l.
Proof.
  unfold without, paths. induction l as [|m l IH]; [done|]. cbn. intros Hn. apply not_elem_of_cons in Hn as [Hne Hn].
  rewrite (proj2 (String.eqb_neq _ _)) by congruence. cbn. by rewrite IH.
Qed.

Lemma without_nodup p l : NoDup (paths l) → NoDup (paths (without p l)).
Proof.
  unfold paths, without. induction l as [|m l IH]; [done|]. cbn. intros [Hn Hl]%NoDup_cons. destruct (negb _); [|by apply IH].
  cbn. apply NoDup_cons. split; [|by apply IH]. intros (m' & He & Hin)%list_elem_of_fmap. apply Hn. rewrite He.
  apply list_elem_of_fmap. exists m'. split; [done|]. apply list_elem_of_In, List.filter_In in Hin as [Hin _]. by apply list_elem_of_In.
Qed.

Lemma nodup_path l m m' : NoDup (paths l) → m ∈ l → m' ∈ l → mm_path m = mm_path m' → m = m'.
Proof.
  unfold paths. induction l as [|x l IH]; [by intros _ []%elem_of_nil|]. cbn.
  intros [Hn Hl]%NoDup_cons [->|Hm]%elem_of_cons [->|Hm']%elem_of_cons He; [done| | |by apply IH].
  - destruct Hn. rewrite He. apply list_elem_of_fmap. by exists m'.
  - destruct Hn. rewrite <- He. apply list_elem_of_fmap. by exists m.
Qed.

Lemma last_at_none p l i found : p ∉ paths l → last_at p l i found = found.
Proof.
  revert i found. induction l as [|m l IH]; intros i found; [done|]. cbn. intros [Hne Hn]%not_elem_of_cons.
  rewrite (proj2 (String.eqb_neq _ _)) by congruence. by apply IH.
Qed.

Lemma last_at_some p l1 m l2 i found : mm_path m = p → p ∉ paths l2 → last_at p (l1 ++ m :: l2) i found = Some (i + length l1).
Proof.
  intros Hm Hn. revert i found. induction l1 as [|x l1 IH]; intros i found; cbn.
  - rewrite Hm, String.eqb_refl, last_at_none by done. f_equal. lia.
  - rewrite IH. f_equal. lia.
Qed.

Lemma removelast_snoc {A} (l : list A) x : removelast (l ++ [x]) = l.
Proof. apply removelast_last. Qed.

Lemma swap_remove_perm l1 m l2 : swap_remove (length l1) (l1 ++ m :: l2) ≡ₚ l1 ++ l2.
Proof.
  unfold swap_remove. induction l2 as [|x l2 _] using rev_ind.
  - rewrite last_snoc, insert_app_r_alt, Nat.sub_diag by done. cbn. by rewrite removelast_snoc, app_nil_r.
  - rewrite (app_comm_cons l2 [x] m), app_assoc, last_snoc, <- app_assoc, insert_app_r_alt, Nat.sub_diag by done.
    change (<[0 := x]> ((m :: l2) ++ [x])) with ((x :: l2) ++ [x]). rewrite app_assoc, removelast_snoc.
    apply Permutation_app_head. apply Permutation_cons_append.
Qed.

Lemma deleteByPath_spec p l : NoDup (paths l) → p ∈ paths l → ∃ l', deleteByPath p l = Ok l' ∧ l' ≡ₚ without p l.
Proof.
  intros Hnd Hp. unfold paths in Hp. apply list_elem_of_fmap in Hp as (m & -> & Hm). apply list_elem_of_split in Hm as (l1 & l2 & ->).
  unfold paths in Hnd. rewrite map_app in Hnd. cbn in Hnd. apply NoDup_app in Hnd as (H1 & H12 & H2).
  apply NoDup_cons in H2 as [H2 H3]. unfold deleteByPath. rewrite (last_at_some _ l1 m l2) by done. cbn [Nat.add].
  eexists. split; [done|]. rewrite swap_remove_perm. unfold without. rewrite List.filter_app. cbn [List.filter].
  rewrite String.eqb_refl. cbn [negb]. fold (without (mm_path m) l1) (without (mm_path m) l2). rewrite !without_none; [done|done|].
  intros Hin. by apply (H12 _ Hin), list_elem_of_here.
Qed.

Lemma perm_paths l l' : l ≡ₚ l' → paths l ≡ₚ paths l'.
Proof. intros H. unfold paths. by apply Permutation_map. Qed.

Lemma drop_machine_spec m p a : NoDup (paths (aa_machines a)) → p ∈ paths (aa_machines a) →
  aa_machines (drop_machine m p a) ≡ₚ without p (aa_machines a) ∧ aa_source (drop_machine m p a) = aa_source a ∧
  aa_dropped (drop_machine m p a) = m :: aa_dropped a.
Proof.
  intros Hnd Hp. destruct (deleteByPath_spec p _ Hnd Hp) as (l' & He & Hl). unfold drop_machine. rewrite He. by destruct a.
Qed.

Lemma findMachine_path p l : p ≠ "" → match findMachine "" "" p "" l with
  | Some m => m ∈ l ∧ mm_path m = p
  | None => p ∉ paths l
  end.
Proof.
  intros Hp. unfold findMachine. rewrite (proj2 (String.eqb_neq _ _) Hp), !String.eqb_refl. cbn [andb].
  destruct (List.find _ l) as [m|] eqn:Hf.
  - apply List.find_some in Hf as [Hin He]. unfold asked in He. rewrite String.eqb_refl, (proj2 (String.eqb_neq _ _) Hp) in He.
    cbn in He. rewrite andb_true_r in He. apply String.eqb_eq in He. split; [by apply list_elem_of_In|done].
  - unfold paths. intros (m & -> & Hm)%list_elem_of_fmap. apply list_elem_of_In in Hm. apply (List.find_none _ _ Hf) in Hm.
    unfold asked in Hm. rewrite String.eqb_refl, (proj2 (String.eqb_neq _ _) Hp), String.eqb_refl in Hm. done.
Qed.

(** ** Who is running *)

(** A machine of the host: no context is done, only the last one can have watchers, and
    the machine counts as started just when it has some. *)
Record sound (m : managed) : Prop := {
  so_done : ∀ k b, mm_done m !! k = Some b → b = false;
  so_sleeping : ∀ k, k ∈ mm_sleeping m → k < length (mm_done m);
  so_watching : ∀ k, mm_watching m = Some k → S k = length (mm_done m);
  so_started : mm_started m = true ↔ mm_watching m ≠ None;
}.

Definition fresh (m : managed) : Prop := mm_done m = [] ∧ mm_sleeping m = [] ∧ mm_watching m = None ∧ mm_started m = false.

Lemma fresh_sound m : fresh m → sound m.
Proof.
  intros (E1 & E2 & E3 & E4). split; rewrite ?E1, ?E2, ?E3, ?E4; [done|by intros k []%elem_of_nil|done|].
  split; [done|by intros []].
Qed.

Lemma sound_running m : sound m → running m = mm_started m.
Proof.
  intros [Hd _ Hw Hs]. unfold running. destruct (mm_watching m) as [k|].
  - rewrite (proj2 Hs) by done. apply bool_decide_eq_true. destruct (lookup_lt_is_Some_2 (mm_done m) k) as [b Hb]; [specialize (Hw k eq_refl); lia|].
    by rewrite Hb, (Hd k b).
  - destruct (mm_started m); [|done]. by destruct (proj1 Hs eq_refl).
Qed.

Lemma nonempty_length {A} (l : list A) : 0 < length l → l ≠ [].
Proof. intros H ->. cbn in H. lia. Qed.

Lemma run_manager_sound ok m : sound m → mm_done m ≠ [] → sound (run_manager ok m).
Proof.
  intros Hso Hne. unfold run_manager. destruct (mm_watching m) eqn:E; [done|]. destruct ok; [|done]. destruct Hso as [Hd Hsl Hw Hs].
  destruct m. cbn in *. split; cbn; [done|done| |done]. intros k [= <-]. destruct mm_done0; [done|cbn; lia].
Qed.

Lemma Start_sound ok m : sound m → mm_started m = false → sound (Start ok m).
Proof.
  intros [Hd Hsl Hw Hs] Hst. assert (mm_watching m = None) as Hn.
  { destruct (mm_watching m); [|done]. rewrite (proj2 Hs) in Hst; done. }
  assert (sound (m <| mm_done ::= λ l, l ++ [false] |>)) as H1.
  { destruct m. cbn in *. subst. split; cbn; [|intros k Hk; rewrite length_app; cbn; specialize (Hsl k Hk); lia|done|done].
    intros k b [Hb|[_ Hb]]%lookup_app_Some; [by eapply Hd|]. by apply list_lookup_singleton_Some in Hb as [_ <-]. }
  unfold Start. set (m1 := m <| mm_done ::= _ |>) in *. assert (0 < length (mm_done m1)) as Hl.
  { subst m1. destruct m. cbn. rewrite length_app. cbn. lia. }
  destruct (mm_splay m1); [|apply run_manager_sound; [done|by apply nonempty_length]].
  clearbody m1. destruct H1 as [A B C D]. destruct m1. cbn in *. split; cbn; [done| |done|done].
  intros k [Hk|Hk]%elem_of_app; [by apply B|]. apply list_elem_of_singleton in Hk. lia.
Qed.

Lemma wake_sound ok i m : sound m → sound (wake ok i m).
Proof.
  intros Hs. unfold wake. destruct (mm_sleeping m !! i) as [k|] eqn:Hi; [|done].
  assert (k < length (mm_done m)) as Hk by (apply Hs; by eapply list_elem_of_lookup_2).
  set (m1 := m <| mm_sleeping ::= delete i |>). assert (sound m1 ∧ mm_done m1 = mm_done m) as [H1 E1].
  { subst m1. destruct Hs as [A B C D]. destruct m. cbn in *. split; [|done]. split; cbn; [done| |done|done].
    intros j Hj. apply B. by apply (elem_of_submseteq _ _ j Hj), sublist_submseteq, sublist_delete. }
  case_bool_decide as Hb; [|apply run_manager_sound; [done|apply nonempty_length; rewrite E1; lia]].
  by apply (so_done m1 H1) in Hb.
Qed.

(** Nothing runs, and nothing will, whatever goroutines of it wake. *)
Definition awakened (ws : list (bool * nat)) (m : managed) : managed := foldl (λ m w, wake w.1 w.2 m) m ws.
Definition ceased (m : managed) : Prop := ∀ ws, running (awakened ws m) = false.

(** The last context is done, and only under it can watchers be. *)
Definition ending (m : managed) : Prop :=
  (∀ k, k = pred (length (mm_done m)) → mm_done m !! k ≠ Some false) ∧
  (∀ k, mm_watching m = Some k → k = pred (length (mm_done m))).

Lemma ending_running m : ending m → running m = false.
Proof.
  intros [Hd Hw]. unfold running. destruct (mm_watching m) as [k|]; [|done]. apply bool_decide_eq_false. apply Hd. by apply Hw.
Qed.

Lemma ending_wake ok i m : ending m → ending (wake ok i m).
Proof.
  intros [Hd Hw]. unfold wake. destruct (mm_sleeping m !! i) as [k|]; [|done]. unfold run_manager.
  destruct m as [? ? ? ? ? ? ? ? dn sl wt dl st]. cbn in *. case_bool_decide; [done|]. destruct wt, ok; (split; cbn; [done|]).
  1,2,4: done. by intros ? [= <-].
Qed.

Lemma ending_ceased m : ending m → ceased m.
Proof.
  intros H ws. apply ending_running. unfold awakened. revert m H. induction ws as [|w ws IH]; intros m H; [done|]. cbn.
  apply IH. by apply ending_wake.
Qed.

Lemma Stop_ceased m : sound m → ceased (Stop m).
Proof.
  intros [_ _ Hw _]. apply ending_ceased. unfold Stop. destruct m as [? ? ? ? ? ? ? ? dn sl wt dl st]. cbn in *.
  split; cbn; rewrite length_alter.
  - intros k ->. rewrite list_lookup_alter_eq. by destruct (dn !! _).
  - intros k Hk. specialize (Hw k Hk). lia.
Qed.

Lemma Delete_ceased m : sound m → ceased (Delete m).
Proof. intros H. apply Stop_ceased. by destruct m, H. Qed.

(** ** One pass *)

Section Pass.
Variable d : disk.

(** A machine that is compiled in, or is what its directory says. *)
Definition current (m : managed) : Prop := mm_embedded m = true ∨ dk_hash d (mm_path m) = Ok (mm_hash m).

Definition entry_path (source : string) (e : string * bool) : string := path_join [source; e.1].
Definition loads (p : string) : Prop := is_ok (dk_hash d p) = true ∧ is_ok (dk_load d p) = true.

Lemma loadMachine_spec p a : loads p → ∃ m, aa_machines (loadMachine d p a) = aa_machines a ++ [m] ∧ mm_path m = p ∧ current m ∧
  fresh m ∧
  aa_source (loadMachine d p a) = aa_source a ∧ aa_dropped (loadMachine d p a) = aa_dropped a.
Proof.
  intros [[h Hh]%is_ok_Ok [[[name version] splay] Hl]%is_ok_Ok]. unfold loadMachine. rewrite Hl. cbn [mbind outcome_bind]. rewrite Hh.
  cbn [mbind outcome_bind]. destruct a. eexists. cbn. split_and!; try done. by right.
Qed.

(** What an entry comes to: machines, and those that were dropped. *)
Record loaded (p : string) (l l' : list managed) (dr dr' : list managed) : Prop := {
  ld_nodup : NoDup (paths l');
  ld_other : ∀ m, mm_path m ≠ p → (m ∈ l' ↔ m ∈ l);
  ld_there : ∃ m, m ∈ l' ∧ mm_path m = p ∧ current m;
  ld_kept : ∀ m, m ∈ l → mm_path m = p → current m → m ∈ l';
  ld_new : ∀ m, m ∈ l' → m ∈ l ∨ fresh m;
  ld_dropped : ∀ m, m ∈ dr' ↔ m ∈ dr ∨ ∃ m0, m0 ∈ l ∧ mm_path m0 = p ∧ ¬ current m0 ∧ m = Stop m0;
}.

Lemma elem_paths l m : m ∈ l → mm_path m ∈ paths l.
Proof. intros H. apply list_elem_of_fmap. by exists m. Qed.

Lemma loaded_append p l m dr : NoDup (paths l) → p ∉ paths l → mm_path m = p → current m → fresh m → loaded p l (l ++ [m]) dr dr.
Proof.
  intros Hnd Hn Hm Hc Hf. split.
  - unfold paths. rewrite map_app. apply NoDup_app. split_and!; [done| |apply NoDup_singleton].
    intros x Hx. cbn. rewrite list_elem_of_singleton. intros ->. by rewrite Hm in Hx.
  - intros m' Hne. rewrite elem_of_app, list_elem_of_singleton. split; [intros [H| ->]; [done|by destruct Hne]|auto].
  - exists m. split_and!; [|done|done]. rewrite elem_of_app, list_elem_of_singleton. auto.
  - intros m' Hin Hp _. destruct Hn. rewrite <- Hp. by apply elem_paths.
  - intros m'. rewrite elem_of_app, list_elem_of_singleton. intros [H| ->]; auto.
  - intros m'. split; [auto|]. intros [H|(m0 & Hin & Hp & _)]; [done|]. destruct Hn. rewrite <- Hp. by apply elem_paths.
Qed.

Lemma loaded_same p l m dr : NoDup (paths l) → m ∈ l → mm_path m = p → current m → loaded p l l dr dr.
Proof.
  intros Hnd Hin Hp Hc. split; [done|done|by exists m|auto|auto|]. intros m'. split; [auto|].
  intros [H|(m0 & Hin0 & Hp0 & Hc0 & _)]; [done|]. destruct Hc0. by rewrite (nodup_path l m0 m) by (done || congruence).
Qed.

Lemma loaded_replace p l l1 m m' dr : NoDup (paths l) → m ∈ l → mm_path m = p → ¬ current m → l1 ≡ₚ without p l →
  mm_path m' = p → current m' → fresh m' → loaded p l (l1 ++ [m']) dr (Stop m :: dr).
Proof.
  intros Hnd Hin Hp Hnc Hl1 Hm' Hc' Hf.
  destruct (loaded_append p l1 m' dr) as [Hnd' Hoth Hth _ Hnew _].
  - rewrite (perm_paths _ _ Hl1). by apply without_nodup.
  - rewrite (perm_paths _ _ Hl1). intros (x & -> & Hx)%list_elem_of_fmap. by apply without_elem in Hx as [_ Hx].
  - done.
  - done.
  - done.
  - split; [done| |done| | |].
    + intros x Hx. rewrite Hoth by done. rewrite Hl1, without_elem. tauto.
    + intros x Hxin Hxp Hxc. destruct Hnc. by rewrite (nodup_path l m x) by (done || congruence).
    + intros x [Hx|Hx]%Hnew; [|by right]. left. rewrite Hl1 in Hx. by apply without_elem in Hx as [Hx _].
    + intros x. rewrite elem_of_cons. split; [intros [->|H]; [right; by exists m|by left]|].
      intros [H|(m0 & Hin0 & Hp0 & _ & ->)]; [by right|]. left. by rewrite (nodup_path l m0 m) by (done || congruence).
Qed.

Lemma load_entry_spec a e : aa_source a ≠ "" → NoDup (paths (aa_machines a)) →
  (is_machine_dir e = true → loads (entry_path (aa_source a) e)) →
  let a' := load_entry d a e in
  aa_source a' = aa_source a ∧
  (if is_machine_dir e then loaded (entry_path (aa_source a) e) (aa_machines a) (aa_machines a') (aa_dropped a) (aa_dropped a')
   else a' = a).
Proof.
  intros Hsrc Hnd Hload. cbv zeta. unfold load_entry. fold (entry_path (aa_source a) e). set (p := entry_path (aa_source a) e) in *.
  destruct (is_machine_dir e); cbn [negb]; [|done]. specialize (Hload eq_refl).
  assert (p ≠ "") as Hp by (apply (path_join_nonempty _ (aa_source a)); [set_solver|done]).
  pose proof (findMachine_path p (aa_machines a) Hp) as Hf. destruct (findMachine "" "" p "" (aa_machines a)) as [m|].
  2: { destruct (loadMachine_spec p a Hload) as (m & -> & Hm & Hc & Hf1 & -> & ->). split; [done|]. by apply loaded_append. }
  destruct Hf as [Hin Hm]. destruct (mm_embedded m) eqn:Hemb.
  { split; [done|]. apply (loaded_same p _ m); try done. by left. }
  pose proof Hload as [[h Hh]%is_ok_Ok _]. rewrite Hh. destruct (String.eqb_spec h (mm_hash m)) as [->|Hne].
  { split; [done|]. apply (loaded_same p _ m); try done. right. by rewrite Hm. }
  assert (p ∈ paths (aa_machines a)) as Hpin by (apply list_elem_of_fmap; by exists m).
  destruct (drop_machine_spec (Stop m) p a Hnd Hpin) as (Hperm & Hs & Hdr).
  destruct (loadMachine_spec p (drop_machine (Stop m) p a) Hload) as (m' & -> & Hm' & Hc' & Hf1 & -> & ->). split; [done|]. rewrite Hdr.
  apply (loaded_replace p _ _ m m'); try done. intros [Hc|Hc]; [congruence|]. rewrite Hm, Hh in Hc. congruence.
Qed.

Lemma load_entries_spec es a : aa_source a ≠ "" → NoDup (paths (aa_machines a)) →
  (∀ e, e ∈ es → is_machine_dir e = true → loads (entry_path (aa_source a) e)) →
  NoDup (map (entry_path (aa_source a)) (List.filter is_machine_dir es)) →
  let a' := foldl (load_entry d) a es in
  let ps := map (entry_path (aa_source a)) (List.filter is_machine_dir es) in
  aa_source a' = aa_source a ∧ NoDup (paths (aa_machines a')) ∧
  (∀ m, mm_path m ∉ ps → (m ∈ aa_machines a' ↔ m ∈ aa_machines a)) ∧
  (∀ p, p ∈ ps → ∃ m, m ∈ aa_machines a' ∧ mm_path m = p ∧ current m) ∧
  (∀ m, m ∈ aa_machines a → current m → m ∈ aa_machines a') ∧
  (∀ m, m ∈ aa_machines a' → m ∈ aa_machines a ∨ fresh m) ∧
  (∀ m, m ∈ aa_dropped a' ↔ m ∈ aa_dropped a ∨ ∃ m0, m0 ∈ aa_machines a ∧ mm_path m0 ∈ ps ∧ ¬ current m0 ∧ m = Stop m0).
Proof.
  revert a. induction es as [|e es IH]; intros a Hsrc Hnd Hload Hps; cbv zeta.
  { cbn. split_and!; try done; [by intros p []%elem_of_nil|auto|]. intros m. split; [auto|].
    intros [H|(m0 & _ & []%elem_of_nil & _)]. done. }
  cbn [foldl]. destruct (load_entry_spec a e Hsrc Hnd) as [Hs Hl]; [apply Hload; set_solver|].
  set (a1 := load_entry d a e) in *. cbn [List.filter] in Hps |- *. destruct (is_machine_dir e).
  - destruct Hl as [Hnd1 Hoth Hth Hkept Hnew Hdrop]. cbn [map] in Hps |- *. apply NoDup_cons in Hps as [Hpn Hps].
    destruct (IH a1) as (Hs2 & Hnd2 & Hoth2 & Hth2 & Hkept2 & Hnew2 & Hdrop2);
      [by rewrite Hs|done|rewrite Hs; intros; apply Hload; set_solver|by rewrite Hs|].
    rewrite Hs in *. split_and!; [done|done| | | | |].
    + intros m [Hne Hn]%not_elem_of_cons. rewrite Hoth2 by done. by apply Hoth.
    + intros p [->|Hp]%elem_of_cons; [|by apply Hth2]. destruct Hth as (m & Hin & Hm & Hc). exists m. split_and!; [|done|done].
      by apply Hkept2.
    + intros m Hin Hc. apply Hkept2; [|done]. destruct (decide (mm_path m = entry_path (aa_source a) e)) as [He|He].
      * by apply Hkept.
      * by apply Hoth.
    + intros m [H|H]%Hnew2; [|by right]. by apply Hnew.
    + intros m. rewrite Hdrop2, Hdrop. split.
      * intros [[H|(m0 & H1 & H2 & H3)]|(m0 & H1 & H2 & H3)]; [by left|right; exists m0; rewrite elem_of_cons; auto|right].
        exists m0. rewrite elem_of_cons. split; [|split; [by right|done]]. apply (Hoth m0); [by intros He; rewrite He in H2|done].
      * intros [H|(m0 & H1 & [H2|H2]%elem_of_cons & H3)]; [auto|left; right; by exists m0|right].
        exists m0. split; [|done]. apply (Hoth m0); [by intros He; rewrite He in H2|done].
  - rewrite Hl in *. apply IH; [done|done| |done]. intros; apply Hload; set_solver.
Qed.

Lemma clean_spec gs a : NoDup (paths (aa_machines a)) → (∀ m, m ∈ gs → m ∈ aa_machines a) → NoDup (paths gs) →
  let a' := foldl clean_one a gs in
  aa_source a' = aa_source a ∧ NoDup (paths (aa_machines a')) ∧
  (∀ m, m ∈ aa_machines a' ↔ m ∈ aa_machines a ∧ mm_path m ∉ paths gs) ∧
  (∀ m, m ∈ aa_dropped a' ↔ m ∈ aa_dropped a ∨ ∃ m0, m0 ∈ gs ∧ m = Delete m0).
Proof.
  revert a. induction gs as [|g gs IH]; intros a Hnd Hin Hgs; cbv zeta.
  { cbn. split_and!; [done|done| |].
    - intros m. split; [|tauto]. intros H. split; [done|]. apply not_elem_of_nil.
    - intros m. split; [auto|]. intros [H|(m0 & []%elem_of_nil & _)]. done. }
  cbn [foldl paths map] in Hgs |- *. apply NoDup_cons in Hgs as [Hg Hgs].
  assert (mm_path g ∈ paths (aa_machines a)) as Hp by (apply list_elem_of_fmap; exists g; split; [done|apply Hin; set_solver]).
  change (clean_one a g) with (drop_machine (Delete g) (mm_path g) a).
  destruct (drop_machine_spec (Delete g) (mm_path g) a Hnd Hp) as (Hperm & Hs & Hdr).
  set (a1 := drop_machine (Delete g) (mm_path g) a) in *.
  destruct (IH a1) as (Hs2 & Hnd2 & Hel & Hdrop).
  - rewrite (perm_paths _ _ Hperm). by apply without_nodup.
  - intros m Hm. rewrite Hperm, without_elem. split; [apply Hin; set_solver|]. intros He. apply Hg. rewrite <- He.
    apply list_elem_of_fmap. by exists m.
  - done.
  - rewrite Hs2, Hs. split_and!; [done|done| |].
    + intros m. rewrite Hel, Hperm, without_elem, not_elem_of_cons. tauto.
    + intros m. rewrite Hdrop, Hdr. setoid_rewrite elem_of_cons. naive_solver.
Qed.

Definition start_one (m : managed) : managed := if mm_started m then m else Start (dk_run d (mm_path m)) m.

Lemma start_one_view m : mm_path (start_one m) = mm_path m ∧ mm_plugin (start_one m) = mm_plugin m ∧
  mm_hash (start_one m) = mm_hash m ∧ mm_embedded (start_one m) = mm_embedded m ∧ mm_splay (start_one m) = mm_splay m.
Proof.
  unfold start_one, Start, run_manager. destruct m as [pt ? ? ? ? ? ? sp dn sl wt dl st]. cbn.
  by destruct st, sp, wt, (dk_run d pt).
Qed.

Lemma start_one_sound m : sound m → sound (start_one m).
Proof. intros H. unfold start_one. destruct (mm_started m) eqn:E; [done|by apply Start_sound]. Qed.

Lemma start_one_running m : sound m → running (start_one m) = true ∨ mm_splay m = true ∨ dk_run d (mm_path m) = false.
Proof.
  intros H. rewrite sound_running by by apply start_one_sound. unfold start_one. destruct (mm_started m) eqn:E; [auto|].
  assert (mm_watching m = None) as Hn.
  { destruct (mm_watching m) eqn:Ew; [|done]. rewrite (proj2 (so_started m H)) in E; [done|by rewrite Ew]. }
  unfold Start, run_manager. destruct m as [pt ? ? ? ? ? ? sp dn sl wt dl st]. cbn in *. subst.
  destruct sp, (dk_run d pt); cbn; auto.
Qed.

Lemma start_machines_elem a m : m ∈ aa_machines (startMachines d a) ↔ ∃ m0, m = start_one m0 ∧ m0 ∈ aa_machines a.
Proof. unfold startMachines, on_machines. destruct a. cbn. apply list_elem_of_fmap. Qed.

Lemma start_machines_paths a : paths (aa_machines (startMachines d a)) = paths (aa_machines a).
Proof.
  unfold startMachines, on_machines, paths. destruct a as [s l dr n]. cbn. rewrite map_map. apply map_ext. intros m. apply start_one_view.
Qed.

(** A directory that can be read and whose machines load. *)
Record readable (source : string) (es : list (string * bool)) : Prop := {
  rd_dir : dk_source_is_dir d = true;
  rd_entries : dk_entries d = Ok es;
  rd_paths : NoDup (map (entry_path source) (List.filter is_machine_dir es));
  rd_loads : ∀ e, e ∈ es → is_machine_dir e = true → loads (entry_path source e) ∧ dk_exists d (entry_path source e) = true;
}.

(** A machine that a pass drops: its directory is gone, or has other contents. *)
Definition departs (es : list (string * bool)) (source : string) (m : managed) : Prop :=
  is_gone d m = true ∨ (¬ current m ∧ ∃ e, e ∈ es ∧ is_machine_dir e = true ∧ mm_path m = entry_path source e).

(** The machines that are gone, and those that stay. *)
Lemma cleanf_spec a : NoDup (paths (aa_machines a)) →
  aa_source (cleanf d a) = aa_source a ∧ NoDup (paths (aa_machines (cleanf d a))) ∧
  (∀ m, m ∈ aa_machines (cleanf d a) ↔ m ∈ aa_machines a ∧ is_gone d m = false) ∧
  (∀ m, m ∈ aa_dropped (cleanf d a) ↔ m ∈ aa_dropped a ∨ ∃ m0, m0 ∈ aa_machines a ∧ is_gone d m0 = true ∧ m = Delete m0).
Proof.
  intros Hnd. set (gs := List.filter (is_gone d) (aa_machines a)).
  assert (∀ m, m ∈ gs ↔ m ∈ aa_machines a ∧ is_gone d m = true) as Hgs.
  { intros m. unfold gs. by rewrite !list_elem_of_In, List.filter_In. }
  destruct (clean_spec gs a Hnd) as (Hs1 & Hnd1 & Hel1 & Hdr1); [intros m Hm; by apply Hgs|unfold gs; clear -Hnd|].
  { revert Hnd. unfold paths. induction (aa_machines a) as [|m l IH]; [done|]. cbn. intros [Hn Hl]%NoDup_cons.
    destruct (is_gone d m); [|by apply IH]. cbn. apply NoDup_cons. split; [|by apply IH].
    intros (m' & He & Hin)%list_elem_of_fmap. apply Hn. rewrite He. apply list_elem_of_fmap. exists m'. split; [done|].
    apply list_elem_of_In, List.filter_In in Hin as [Hin _]. by apply list_elem_of_In. }
  change (foldl clean_one a gs) with (cleanf d a) in *. split_and!; [done|done| |].
  - intros m. rewrite Hel1. split; intros [Hm Hg]; (split; [done|]).
    + destruct (is_gone d m) eqn:E; [|done]. destruct Hg. apply elem_paths. by apply Hgs.
    + intros (m' & Hp & Hm')%list_elem_of_fmap. apply Hgs in Hm' as [Hm' Hg'].
      assert (m = m') as -> by by apply (nodup_path (aa_machines a)). congruence.
  - intros m. rewrite Hdr1. setoid_rewrite Hgs. naive_solver.
Qed.

Lemma elem_entries es source p : p ∈ map (entry_path source) (List.filter is_machine_dir es) ↔
  ∃ e, e ∈ es ∧ is_machine_dir e = true ∧ p = entry_path source e.
Proof.
  split.
  - intros (e & -> & He)%list_elem_of_fmap. apply list_elem_of_In, List.filter_In in He as [He Hd].
    exists e. split_and!; [by apply list_elem_of_In|done|done].
  - intros (e & He & Hd & ->). apply list_elem_of_fmap. exists e. split; [done|]. apply list_elem_of_In, List.filter_In.
    split; [by apply list_elem_of_In|done].
Qed.

(** C15. A pass over a directory that can be read, and whose machines load, makes the
    machines those of the directory: every directory of a machine has one, with the
    contents it has now, and only one; no machine is left whose directory is gone, except
    those compiled in; all of them run, unless they splay or cannot be made to; and a
    machine that was current and started is not touched.  Just the machines whose directory
    is gone or changed are dropped, the former deleted and the latter stopped, and nothing
    of a dropped machine runs any more, whatever goroutines of it are still asleep. *)
Theorem pass_reconciles (a : AAgent) (es : list (string * bool)) :
  aa_source a ≠ "" → readable (aa_source a) es → NoDup (paths (aa_machines a)) → (∀ m, m ∈ aa_machines a → sound m) →
  let l := aa_machines (tick d a) in
  NoDup (paths l) ∧ (∀ m, m ∈ l → sound m) ∧
  (∀ e, e ∈ es → is_machine_dir e = true → ∃ m, m ∈ l ∧ mm_path m = entry_path (aa_source a) e ∧ current m) ∧
  (∀ m, m ∈ l → mm_plugin m = true ∨ dk_exists d (mm_path m) = true) ∧
  (∀ m, m ∈ l → running m = true ∨ mm_splay m = true ∨ dk_run d (mm_path m) = false) ∧
  (∀ m, m ∈ aa_machines a → is_gone d m = false → current m → mm_started m = true → m ∈ l) ∧
  (∀ m, m ∈ aa_dropped (tick d a) ↔ m ∈ aa_dropped a ∨
     ∃ m0, m0 ∈ aa_machines a ∧ departs es (aa_source a) m0 ∧ m = (if is_gone d m0 then Delete m0 else Stop m0)) ∧
  (∀ m, m ∈ aa_dropped (tick d a) → m ∈ aa_dropped a ∨ ceased m).
Proof.
  intros Hsrc [Hdir Hes Hps Hrd] Hnd Hso. cbv zeta. unfold tick, loadf.
  destruct (cleanf_spec a Hnd) as (Hs1 & Hnd1 & Hel1 & Hdr1). set (a1 := cleanf d a) in *.
  rewrite Hs1, Hdir, (proj2 (String.eqb_neq _ _) Hsrc). cbn [negb orb].
  unfold loadFromSource. rewrite Hes. cbn [map_err mbind outcome_bind].
  destruct (load_entries_spec es a1) as (Hs2 & Hnd2 & Hoth & Hth & Hkept & Hnew & Hdr2);
    [by rewrite Hs1|done|rewrite Hs1; intros e He Hd; by apply Hrd|by rewrite Hs1|].
  rewrite Hs1 in *. set (a2 := foldl (load_entry d) a1 es) in *.
  assert (∀ m, m ∈ aa_machines a2 → sound m) as Hso2.
  { intros m [Hm|Hm]%Hnew; [|by apply fresh_sound]. apply Hso. by apply Hel1. }
  assert (∀ m, m ∈ aa_dropped a2 ↔ m ∈ aa_dropped a ∨
    ∃ m0, m0 ∈ aa_machines a ∧ departs es (aa_source a) m0 ∧ m = (if is_gone d m0 then Delete m0 else Stop m0)) as Hdr.
  { intros m. rewrite Hdr2, Hdr1. split.
    - intros [[H|(m0 & H1 & Hg & ->)]|(m0 & [H1 Hg]%Hel1 & Hp%elem_entries & Hc & ->)]; [auto|right; exists m0..]; rewrite Hg.
      + split_and!; [done|by left|done].
      + split_and!; [done|by right|done].
    - intros [H|(m0 & H1 & Hl & ->)]; [auto|]. destruct (is_gone d m0) eqn:Hg; [left; right; by exists m0|right].
      destruct Hl as [Hl|[Hc Hp]]; [congruence|]. exists m0. rewrite Hel1, elem_entries. by split_and!. }
  split_and!.
  - by rewrite start_machines_paths.
  - intros m (m0 & -> & Hm)%start_machines_elem. by apply start_one_sound, Hso2.
  - intros e He Hd. destruct (Hth (entry_path (aa_source a) e)) as (m & Hm & Hp & Hc); [apply elem_entries; by exists e|].
    exists (start_one m). destruct (start_one_view m) as (E1 & _ & E3 & E4 & _). split_and!.
    + apply start_machines_elem. by exists m.
    + by rewrite E1.
    + unfold current. by rewrite E1, E3, E4.
  - intros m (m0 & -> & Hm)%start_machines_elem. destruct (start_one_view m0) as (-> & -> & _).
    destruct (decide (mm_path m0 ∈ map (entry_path (aa_source a)) (List.filter is_machine_dir es))) as [Hin|Hn].
    + right. apply elem_entries in Hin as (e & He & Hd & ->). by apply Hrd.
    + apply Hoth in Hm; [|done]. apply Hel1 in Hm as [Hm Hg].
      unfold is_gone in Hg. destruct (mm_plugin m0), (dk_exists d (mm_path m0)); auto; discriminate.
  - intros m (m0 & -> & Hm)%start_machines_elem. destruct (start_one_view m0) as (-> & _ & _ & _ & ->).
    by apply start_one_running, Hso2.
  - intros m Hm Hg Hc Hst. apply start_machines_elem. exists m. split; [unfold start_one; by rewrite Hst|].
    apply Hkept; [by apply Hel1|done].
  - exact Hdr.
  - intros m [H|(m0 & Hm & _ & ->)]%Hdr; [by left|right]. destruct (is_gone d m0); [by apply Delete_ceased, Hso|by apply Stop_ceased, Hso].
Qed.

End Pass.

(** ** A concrete host *)

Definition demo_splaying : managed :=
  {| mm_path := "/m/one"; mm_name := "one"; mm_version := "1"; mm_id := "0"; mm_hash := "h"; mm_plugin := false; mm_embedded := false;
     mm_splay := true; mm_done := []; mm_sleeping := []; mm_watching := None; mm_deleted := false; mm_started := false |}.

Definition demo_disk : disk :=
  {| dk_source_is_dir := true; dk_entries := Ok [("one", true); ("tmp", true); ("readme", false)];
     dk_exists := λ p, String.eqb p "/m/one"; dk_hash := λ _, Ok "h"; dk_load := λ _, Ok ("one", "1", true); dk_run := λ _, true |}.

Definition demo_host : AAgent := {| aa_source := "/m"; aa_machines := [demo_splaying]; aa_dropped := []; aa_next := 1 |}.

(** A splaying machine that is not awake after ten seconds is started again, and again: so
    many goroutines sleep for it, of which the first to wake runs its watchers. *)
Example splaying_machine_starts_twice :
  let a := tick demo_disk (tick demo_disk demo_host) in
  map (λ m, (mm_sleeping m, mm_watching (wake true 1 m), running (wake true 0 (wake true 1 m)))) (aa_machines a) =
  [([0; 1], Some 1, true)].
Proof. vm_compute. reflexivity. Qed.

Definition demo_stale : managed := demo_splaying <| mm_hash := "old" |> <| mm_splay := false |> <| mm_done := [false] |>
  <| mm_watching := Some 0 |> <| mm_started := true |>.
Definition demo_removed : managed := demo_stale <| mm_path := "/m/two" |> <| mm_name := "two" |>.
Definition demo_busy_host : AAgent := {| aa_source := "/m"; aa_machines := [demo_stale; demo_removed]; aa_dropped := []; aa_next := 2 |}.

Lemma demo_sound m : mm_done m = [false] → mm_sleeping m = [] → mm_watching m = Some 0 → mm_started m = true → sound m.
Proof.
  intros E1 E2 E3 E4. split; rewrite ?E1, ?E2, ?E3, ?E4; [|by intros k []%elem_of_nil|by intros k [= <-]|done].
  by intros k b [_ <-]%list_lookup_singleton_Some.
Qed.

Lemma pass_reconciles_witness :
  (∃ m, m ∈ aa_machines (tick demo_disk demo_busy_host) ∧ mm_path m = "/m/one" ∧ current demo_disk m) ∧
  Delete demo_removed ∈ aa_dropped (tick demo_disk demo_busy_host) ∧ Stop demo_stale ∈ aa_dropped (tick demo_disk demo_busy_host).
Proof.
  destruct (pass_reconciles demo_disk demo_busy_host [("one", true); ("tmp", true); ("readme", false)]) as (_ & _ & Hone & _ & _ & _ & Hdr & _).
  - discriminate.
  - split.
    + reflexivity.
    + reflexivity.
    + apply (bool_decide_unpack _). vm_compute. exact I.
    + intros e He Hd. repeat (apply elem_of_cons in He as [->|He]; [try discriminate Hd|]); [|by apply elem_of_nil in He].
      split; [split; reflexivity|vm_compute; reflexivity].
  - apply (bool_decide_unpack _). vm_compute. exact I.
  - intros m Hm. repeat (apply elem_of_cons in Hm as [->|Hm]; [apply demo_sound; reflexivity|]). by apply elem_of_nil in Hm.
  - split; [|split].
    + destruct (Hone ("one", true)) as (m & Hm & Hp & Hc); [by apply list_elem_of_here|reflexivity|]. exists m. split; [exact Hm|].
      split; [rewrite Hp; vm_compute; reflexivity|exact Hc].
    + apply Hdr. right. exists demo_removed. split; [by apply list_elem_of_further, list_elem_of_here|].
      split; [left; vm_compute; reflexivity|vm_compute; reflexivity].
    + apply Hdr. right. exists demo_stale. split; [by apply list_elem_of_here|]. split; [|vm_compute; reflexivity].
      right. split; [intros [H|H]; discriminate H|]. exists ("one", true). split; [by apply list_elem_of_here|].
      split; vm_compute; reflexivity.
Defined.
