(* ===== verification/Confkey.v ===== *)
(** * Settings of structures by key

    confkey/: a structure is the list of its fields with their tags, and a setting is the
    value of the field whose [confkey] tag it is.  The environment and the syntax of
    durations are arguments.  Letters outside ASCII have no other case. *)
From S2P Require Import Prelude GoLib Regex Files Util GoNum Validator.

Inductive value :=
| VStrings (l : list string)
| VInt (z : Z)
| VInt64 (z : Z)
| VString (s : string)
| VBool (b : bool).

#[export] Instance value_eq_dec : EqDecision value.
Proof. solve_decision. Defined.

Record cfield := {
  c_name : string;
  c_tags : list (string * string);
  c_value : value;
}.

Abbreviation struct := (list cfield).

(** The first tag of a name. *)
Definition lookup_tag (tag : string) (f : cfield) : option string :=
  match List.find (λ kv, String.eqb kv.1 tag) (c_tags f) with Some (_, v) => Some v | None => None end.

Definition has_key (key : string) (f : cfield) : bool :=
  match lookup_tag "confkey" f with Some k => String.eqb k key | None => false end.

(** [FieldWithKey]: the name of a field. *)
Definition FieldWithKey (target : struct) (key : string) : res string :=
  match List.find (has_key key) target with
  | Some f => Ok (c_name f)
  | None => Err ("can't find any structure element configured with confkey '" +:+ key +:+ "'")
  end.

Definition FieldByName (target : struct) (name : string) : option cfield :=
  List.find (λ f, String.eqb (c_name f) name) target.

(** [Tag]: fields of the name that lack the tag are passed over. *)
Fixpoint Tag (target : struct) (name tag : string) : option string :=
  match target with
  | [] => None
  | f :: rest =>
      if String.eqb (c_name f) name
      then match lookup_tag tag f with Some v => Some v | None => Tag rest name tag end
      else Tag rest name tag
  end.

Definition KeyTag (target : struct) (key tag : string) : option string :=
  match FieldWithKey target key with Ok item => Tag target item tag | _ => None end.

Definition Description (target : struct) (key : string) : option string := KeyTag target key "description".
Definition Validation (target : struct) (key : string) : option string := KeyTag target key "validate".
Definition DefaultString (target : struct) (key : string) : option string := KeyTag target key "default".
Definition Environment (target : struct) (key : string) : option string := KeyTag target key "environment".
Definition URL (target : struct) (key : string) : option string := KeyTag target key "url".

(** ** Reading *)

Definition value_with_key (target : struct) (key : string) : option value :=
  match FieldWithKey target key with
  | Ok item => option_map c_value (FieldByName target item)
  | _ => None
  end.

Definition StringFieldWithKey (target : struct) (key : string) : string :=
  match value_with_key target key with Some (VString s) => s | _ => "" end.
Definition StringListWithKey (target : struct) (key : string) : list string :=
  match value_with_key target key with Some (VStrings l) => l | _ => [] end.
Definition BoolWithKey (target : struct) (key : string) : bool :=
  match value_with_key target key with Some (VBool b) => b | _ => false end.
Definition IntWithKey (target : struct) (key : string) : Z :=
  match value_with_key target key with Some (VInt z) => z | _ => 0%Z end.
Definition Int64WithKey (target : struct) (key : string) : Z :=
  match value_with_key target key with Some (VInt64 z) => z | _ => 0%Z end.
Definition InterfaceWithKey (target : struct) (key : string) : option value := value_with_key target key.

(** [(?i)^(1|yes|true|y|t)$] and [(?i)^(0|no|false|n|f)$] *)
Definition strToBool (s : string) : res bool :=
  let clean := trim_space s in
  if elem (to_lower clean) ["1"; "yes"; "true"; "y"; "t"] then Ok true
  else if elem (to_lower clean) ["0"; "no"; "false"; "n"; "f"] then Ok false
  else Err ("cannot convert string value '" +:+ clean +:+ "' into a boolean.").

Definition IsDeprecated (target : struct) (key : string) : bool * bool :=
  match KeyTag target key "deprecated" with
  | None => (false, false)
  | Some d => match strToBool d with Ok b => (b, true) | _ => (false, false) end
  end.

Definition Type_ (target : struct) (key : string) : option string :=
  match FieldWithKey target key with
  | Ok item =>
      match Tag target item "type" with
      | Some tag => Some tag
      | None =>
          match option_map c_value (FieldByName target item) with
          | Some (VStrings _) => Some "strings"
          | Some (VInt _) => Some "integer"
          | Some (VInt64 _) => Some "int64"
          | Some (VString _) => Some "string"
          | Some (VBool _) => Some "boolean"
          | None => None
          end
      end
  | _ => None
  end.

Definition FindFields `{Regexp} (target : struct) (re : string) : res (list string) :=
  match regexp_match re "" with
  | None => Err ("error parsing regexp: " +:+ re)
  | Some _ =>
      Ok (sort_strings (omap (M:=list) (λ f, match lookup_tag "confkey" f with
                                             | Some ck => if MatchString re ck then Some ck else None
                                             | None => None
                                             end) target))
  end.

(** ** Setting *)

Section Setting.
Context `{TL : TimeLib} `{RX : Regexp}.
(** [os.LookupEnv], and whether the system is Windows. *)
Variable env : string → option string.
Variable windows : bool.

Definition getenv (name : string) : string := default "" (env name).

Definition HomeDir : res string :=
  if windows then
    let drive := getenv "HOMEDRIVE" in
    let home := getenv "HOMEDIR" in
    if String.eqb home "" || String.eqb drive ""
    then Err "cannot determine home dir, ensure HOMEDRIVE and HOMEDIR is set"
    else Ok (path_join [drive; home])
  else if String.eqb (getenv "HOME") "" then Err "cannot determine home dir, ensure HOME is set"
  else Ok (getenv "HOME").

(** The first byte of a blank path is out of range. *)
Definition ExpandPath (p : string) : res string :=
  match trim_space p with
  | "" => Panic "index out of range [0] with length 0"
  | String c rest => if Ascii.eqb c "~" then home ← HomeDir; Ok (home +:+ rest) else Ok (String c rest)
  end.

Definition ascii_upper (c : ascii) : ascii :=
  let n := nat_of_ascii c in
  if Nat.leb 97 n && Nat.leb n 122 then ascii_of_nat (n - 32) else c.

Definition title (s : string) : res string :=
  match s with
  | "" => Panic "index out of range [0] with length 0"
  | String c rest => Ok (String (ascii_upper c) rest)
  end.

Definition ListSeparator : ascii := if windows then ";" else ":".

(** A slice is only changed by one of the types, or without any. *)
Definition set_strings (ty : option string) (l : list string) (v : string) : list string :=
  let parts sep := map trim_space (split v sep) in
  match ty with
  | Some "comma_split" => parts ","%char
  | Some "colon_split" => l ++ parts ":"%char
  | Some "path_split" => l ++ parts ListSeparator
  | Some _ => l
  | None => l ++ [trim_space v]
  end.

Definition all_digits (s : string) : bool :=
  negb (String.eqb s "") && forallb Validator.is_digit (String.list_ascii_of_string s).

Definition number (v : string) : res Z :=
  match atoi v with Some z => Ok z | None => Err ("strconv.Atoi: parsing " +:+ v) end.

Definition set_duration (v : string) : res Z :=
  if all_digits v then z ← number v; Ok (wrap64 (Second * z))
  else ParseDuration v.

(** The value a field of a kind and type gets from a text. *)
Definition converted (ty : option string) (old : value) (v : string) : res value :=
  match old with
  | VStrings l => Ok (VStrings (set_strings ty l v))
  | VInt _ => z ← number v; Ok (VInt z)
  | VInt64 z =>
      match ty with
      | Some "duration" => d ← set_duration v; Ok (VInt64 d)
      | _ => Ok (VInt64 z)
      end
  | VString _ =>
      match ty with
      | Some "title_string" => s ← title v; Ok (VString s)
      | Some "path_string" => s ← ExpandPath v; Ok (VString s)
      | _ => Ok (VString v)
      end
  | VBool _ => Ok (VBool match strToBool v with Ok b => b | _ => false end)
  end.

(** What a string field holds when its expansion fails: the text was assigned before. *)
Definition half_set (ty : option string) (old : value) (v : string) : value :=
  match old with VString _ => VString v | _ => old end.

Definition set_value (name : string) (v : value) (target : struct) : struct :=
  map (λ f, if String.eqb (c_name f) name then {| c_name := c_name f; c_tags := c_tags f; c_value := v |} else f) target.

(** What validation sees of a field. *)
Definition to_field (f : cfield) : field :=
  Field (c_name f) (default "" (lookup_tag "validate" f))
    match c_value f with
    | VStrings l => FStrings l
    | VInt _ => FKind "int"
    | VInt64 _ => FKind "int64"
    | VString s => FString s
    | VBool _ => FKind "bool"
    end.

Definition ValidateField (target : struct) (name : string) : res () := ValidateStructField (map to_field target) name.

Definition Validate (target : struct) : res () := ValidateStruct (map to_field target).

(** The environment goes before the text of a setting, and a value that is not valid stays. *)
Definition SetStructFieldWithKey (key v : string) : ST struct string () := λ target,
  match FieldWithKey target key with
  | Err e => (target, Err e)
  | Panic p => (target, Panic p)
  | Ok item =>
      let v := match Tag target item "environment" with Some tag => default v (env tag) | None => v end in
      match FieldByName target item with
      | None => (target, Err ("unknown field " +:+ item))
      | Some f =>
          let ty := Tag target item "type" in
          match converted ty (c_value f) v with
          | Err e => (set_value item (half_set ty (c_value f) v) target, Err e)
          | Panic p => (set_value item (half_set ty (c_value f) v) target, Panic p)
          | Ok x => let target := set_value item x target in (target, ValidateField target item)
          end
      end
  end.

(** The fields of the structure in order, with the defaults of their tags. *)
Fixpoint set_defaults (fields : list cfield) : ST struct string () :=
  match fields with
  | [] => mret tt
  | f :: rest =>
      match lookup_tag "confkey" f, lookup_tag "default" f with
      | Some key, Some v => SetStructFieldWithKey key v;; set_defaults rest
      | _, _ => set_defaults rest
      end
  end.

Definition SetStructDefaults : ST struct string () := λ target, set_defaults target target.

End Setting.

(** * The settings of the configuration

    config/config.go and config/choria.go: the fields of the two structures that have tags,
    with their zero values. *)

Definition fld (name : string) (zero : value) (tags : list (string * string)) : cfield :=
  {| c_name := name; c_tags := tags; c_value := zero |}.

(** [Config] *)
Definition Config_fields : struct :=
  [fld "Registration" (VStrings []) [("confkey", "registration"); ("type", "comma_split")];
   fld "RegistrationCollective" (VString "") [("confkey", "registration_collective")];
   fld "RegisterInterval" (VInt 0) [("confkey", "registerinterval"); ("default", "300")];
   fld "RegistrationSplay" (VBool false) [("confkey", "registration_splay"); ("default", "true")];
   fld "Collectives" (VStrings []) [("confkey", "collectives"); ("type", "comma_split")];
   fld "MainCollective" (VString "") [("confkey", "main_collective")];
   fld "LogFile" (VString "") [("confkey", "logfile"); ("type", "path_string"); ("default", "stdout")];
   fld "LogLevel" (VString "") [("confkey", "loglevel"); ("default", "info"); ("validate", "enum=debug,info,warn,error,fatal")];
   fld "LibDir" (VStrings []) [("confkey", "libdir"); ("type", "path_split")];
   fld "Identity" (VString "") [("confkey", "identity")];
   fld "Color" (VBool false) [("confkey", "color"); ("default", "true")];
   fld "ClassesFile" (VString "") [("confkey", "classesfile"); ("default", "/opt/puppetlabs/puppet/cache/state/classes.txt"); ("type", "path_string")];
   fld "DiscoveryTimeout" (VInt 0) [("confkey", "discovery_timeout"); ("default", "2")];
   fld "RPCAudit" (VBool false) [("confkey", "rpcaudit"); ("default", "false"); ("url", "https://choria.io/docs/configuration/aaa/")];
   fld "RPCAuthorization" (VBool false) [("confkey", "rpcauthorization"); ("default", "true"); ("url", "https://choria.io/docs/configuration/aaa/")];
   fld "RPCAuthorizationProvider" (VString "") [("confkey", "rpcauthprovider"); ("type", "title_string"); ("default", "action_policy"); ("url", "https://choria.io/docs/configuration/aaa/")];
   fld "RPCLimitMethod" (VString "") [("confkey", "rpclimitmethod"); ("default", "first"); ("validate", "enum=first,random")];
   fld "TTL" (VInt 0) [("confkey", "ttl"); ("default", "60")];
   fld "DefaultDiscoveryMethod" (VString "") [("confkey", "default_discovery_method"); ("default", "mc"); ("validate", "enum=mc,broadcast,puppetdb,choria,external,inventory")];
   fld "FactSourceFile" (VString "") [("confkey", "plugin.yaml"); ("type", "path_string")];
   fld "DefaultDiscoveryOptions" (VStrings []) [("confkey", "default_discovery_options")];
   fld "SoftShutdownTimeout" (VInt 0) [("confkey", "soft_shutdown_timeout"); ("default", "2")]].

(** [ChoriaPluginConfig] *)
Definition Choria_fields : struct :=
  [fld "PuppetServerHost" (VString "") [("confkey", "plugin.choria.puppetserver_host"); ("default", "puppet")];
   fld "PuppetServerPort" (VInt 0) [("confkey", "plugin.choria.puppetserver_port"); ("default", "8140")];
   fld "PuppetCAHost" (VString "") [("confkey", "plugin.choria.puppetca_host"); ("default", "puppet")];
   fld "PuppetCAPort" (VInt 0) [("confkey", "plugin.choria.puppetca_port"); ("default", "8140")];
   fld "PuppetDBHost" (VString "") [("confkey", "plugin.choria.puppetdb_host"); ("default", "")];
   fld "PuppetDBPort" (VInt 0) [("confkey", "plugin.choria.puppetdb_port"); ("default", "8081")];
   fld "UseSRVRecords" (VBool false) [("confkey", "plugin.choria.use_srv"); ("default", "true"); ("url", "https://choria.io/docs/deployment/dns/")];
   fld "SRVDomain" (VString "") [("confkey", "plugin.choria.srv_domain"); ("environment", "CHORIA_SRV_DOMAIN"); ("default", ""); ("url", "https://choria.io/docs/deployment/dns/")];
   fld "Provision" (VBool false) [("confkey", "plugin.choria.server.provision"); ("default", "false"); ("url", "https://choria-io.github.io/provisioner/")];
   fld "ProvisionAllowUpdate" (VBool false) [("confkey", "plugin.choria.server.provision.allow_update"); ("default", "false"); ("url", "https://choria-io.github.io/provisioner/")];
   fld "ExternalDiscoveryCommand" (VString "") [("confkey", "plugin.choria.discovery.external.command"); ("type", "path_string")];
   fld "InventoryDiscoverySource" (VString "") [("confkey", "plugin.choria.discovery.inventory.source"); ("type", "path_string")];
   fld "BroadcastDiscoveryDynamicTimeout" (VBool false) [("confkey", "plugin.choria.discovery.broadcast.windowed_timeout")];
   fld "FederationCollectives" (VStrings []) [("confkey", "plugin.choria.federation.collectives"); ("type", "comma_split"); ("environment", "CHORIA_FED_COLLECTIVE"); ("url", "https://choria.io/docs/federation/")];
   fld "FederationMiddlewareHosts" (VStrings []) [("confkey", "plugin.choria.federation_middleware_hosts"); ("type", "comma_split"); ("url", "https://choria.io/docs/federation/")];
   fld "FederationCluster" (VString "") [("confkey", "plugin.choria.federation.cluster"); ("default", "mcollective"); ("url", "https://choria.io/docs/federation/")];
   fld "StatsListenAddress" (VString "") [("confkey", "plugin.choria.stats_address"); ("default", "127.0.0.1")];
   fld "StatsPort" (VInt 0) [("confkey", "plugin.choria.stats_port"); ("default", "0")];
   fld "LegacyLifeCycleFormat" (VBool false) [("confkey", "plugin.choria.legacy_lifecycle_format"); ("default", "0")];
   fld "NatsUser" (VString "") [("confkey", "plugin.nats.user"); ("environment", "MCOLLECTIVE_NATS_USERNAME")];
   fld "NatsPass" (VString "") [("confkey", "plugin.nats.pass"); ("environment", "MCOLLECTIVE_NATS_PASSWORD")];
   fld "NatsCredentials" (VString "") [("confkey", "plugin.nats.credentials"); ("environment", "MCOLLECTIVE_NATS_CREDENTIALS")];
   fld "MiddlewareHosts" (VStrings []) [("confkey", "plugin.choria.middleware_hosts"); ("type", "comma_split")];
   fld "NetworkAllowedClientHosts" (VStrings []) [("confkey", "plugin.choria.network.client_hosts"); ("type", "comma_split")];
   fld "NetworkClientAdvertiseName" (VString "") [("confkey", "plugin.choria.network.public_url")];
   fld "NetworkClientPort" (VInt 0) [("confkey", "plugin.choria.network.client_port"); ("default", "4222"); ("url", "https://choria.io/docs/deployment/broker/")];
   fld "NetworkClientTLSForce" (VBool false) [("confkey", "plugin.choria.network.client_tls_force_required")];
   fld "NetworkClientTokenSigners" (VStrings []) [("confkey", "plugin.choria.network.client_signer_cert"); ("type", "comma_split")];
   fld "NetworkDenyServers" (VBool false) [("confkey", "plugin.choria.network.deny_server_connections")];
   fld "NetworkExecutorStoreDuration" (VInt64 0) [("confkey", "plugin.choria.network.stream.executor_retention"); ("type", "duration"); ("default", "24h")];
   fld "NetworkExecutorReplicas" (VInt 0) [("confkey", "plugin.choria.network.stream.executor_replicas"); ("default", "-1")];
   fld "NetworkEventStoreDuration" (VInt64 0) [("confkey", "plugin.choria.network.stream.event_retention"); ("type", "duration"); ("default", "24h")];
   fld "NetworkEventStoreReplicas" (VInt 0) [("confkey", "plugin.choria.network.stream.event_replicas"); ("default", "-1")];
   fld "NetworkGatewayName" (VString "") [("confkey", "plugin.choria.network.gateway_name"); ("default", "CHORIA")];
   fld "NetworkGatewayPort" (VInt 0) [("confkey", "plugin.choria.network.gateway_port"); ("default", "0")];
   fld "NetworkGatewayRemotes" (VStrings []) [("confkey", "plugin.choria.network.gateway_remotes"); ("type", "comma_split")];
   fld "NetworkLeaderElectionReplicas" (VInt 0) [("confkey", "plugin.choria.network.stream.leader_election_replicas"); ("default", "-1")];
   fld "NetworkLeaderElectionTTL" (VInt64 0) [("confkey", "plugin.choria.network.stream.leader_election_ttl"); ("type", "duration"); ("default", "1m")];
   fld "NetworkLeafPort" (VInt 0) [("confkey", "plugin.choria.network.leafnode_port"); ("default", "0")];
   fld "NetworkLeafRemotes" (VStrings []) [("confkey", "plugin.choria.network.leafnode_remotes"); ("type", "comma_split")];
   fld "NetworkListenAddress" (VString "") [("confkey", "plugin.choria.network.listen_address"); ("default", "::"); ("url", "https://choria.io/docs/deployment/broker/")];
   fld "NetworkMachineStoreDuration" (VInt64 0) [("confkey", "plugin.choria.network.stream.machine_retention"); ("type", "duration"); ("default", "24h")];
   fld "NetworkMachineStoreReplicas" (VInt 0) [("confkey", "plugin.choria.network.stream.machine_replicas"); ("default", "-1")];
   fld "NetworkMappings" (VStrings []) [("confkey", "plugin.choria.network.mapping.names"); ("type", "comma_split")];
   fld "NetworkPeerPassword" (VString "") [("confkey", "plugin.choria.network.peer_password")];
   fld "NetworkPeerPort" (VInt 0) [("confkey", "plugin.choria.network.peer_port"); ("url", "https://choria.io/docs/deployment/broker/")];
   fld "NetworkPeerUser" (VString "") [("confkey", "plugin.choria.network.peer_user")];
   fld "NetworkPeers" (VStrings []) [("confkey", "plugin.choria.network.peers"); ("type", "comma_split"); ("url", "https://choria.io/docs/deployment/broker/")];
   fld "NetworkProfilePort" (VInt 0) [("confkey", "plugin.choria.network.pprof_port"); ("default", "0")];
   fld "NetworkProvisioningClientPassword" (VString "") [("confkey", "plugin.choria.network.provisioning.client_password")];
   fld "NetworkProvisioningWithoutToken" (VBool false) [("confkey", "plugin.choria.network.provisioning.provisioner_without_token")];
   fld "NetworkProvisioningTokenSignerFile" (VString "") [("confkey", "plugin.choria.network.provisioning.signer_cert"); ("type", "path_string")];
   fld "NetworkServerTokenSigners" (VStrings []) [("confkey", "plugin.choria.network.server_signer_cert"); ("type", "comma_split")];
   fld "NetworkStreamAdvisoryDuration" (VInt64 0) [("confkey", "plugin.choria.network.stream.advisory_retention"); ("type", "duration"); ("default", "168h")];
   fld "NetworkStreamAdvisoryReplicas" (VInt 0) [("confkey", "plugin.choria.network.stream.advisory_replicas"); ("default", "-1")];
   fld "NetworkStreamManageStreams" (VBool false) [("confkey", "plugin.choria.network.stream.manage_streams"); ("default", "1")];
   fld "NetworkStreamStore" (VString "") [("confkey", "plugin.choria.network.stream.store"); ("type", "path_string")];
   fld "NetworkSystemPassword" (VString "") [("confkey", "plugin.choria.network.system.password")];
   fld "NetworkSystemUsername" (VString "") [("confkey", "plugin.choria.network.system.user")];
   fld "NetworkTLSTimeout" (VInt64 0) [("confkey", "plugin.choria.network.tls_timeout"); ("type", "duration"); ("default", "2s")];
   fld "NetworkAuthTimeout" (VInt64 0) [("confkey", "plugin.choria.network.auth_timeout"); ("type", "duration"); ("default", "2s")];
   fld "NetworkConnectTimeout" (VInt64 0) [("confkey", "plugin.choria.network.connect_timeout"); ("type", "duration"); ("default", "2s")];
   fld "NetworkWebSocketAdvertise" (VString "") [("confkey", "plugin.choria.network.websocket_advertise"); ("url", "https://choria.io/docs/deployment/broker/")];
   fld "NetworkWebSocketPort" (VInt 0) [("confkey", "plugin.choria.network.websocket_port"); ("url", "https://choria.io/docs/deployment/broker/")];
   fld "NetworkWriteDeadline" (VInt64 0) [("confkey", "plugin.choria.network.write_deadline"); ("type", "duration"); ("default", "10s")];
   fld "NetworkSoftShutdownTimeout" (VInt 0) [("confkey", "plugin.choria.network.soft_shutdown_timeout"); ("default", "60")];
   fld "BrokerNetwork" (VBool false) [("confkey", "plugin.choria.broker_network"); ("default", "false"); ("url", "https://choria.io/docs/deployment/broker/")];
   fld "BrokerFederation" (VBool false) [("confkey", "plugin.choria.broker_federation"); ("default", "false"); ("url", "https://choria.io/docs/federation/")];
   fld "BrokerAdapters" (VStrings []) [("confkey", "plugin.choria.adapters"); ("type", "comma_split"); ("url", "https://choria.io/docs/adapters/")];
   fld "FileContentRegistrationData" (VString "") [("confkey", "plugin.choria.registration.file_content.data"); ("default", "")];
   fld "FileContentRegistrationTarget" (VString "") [("confkey", "plugin.choria.registration.file_content.target"); ("default", "")];
   fld "FileContentCompression" (VBool false) [("confkey", "plugin.choria.registration.file_content.compression"); ("default", "true")];
   fld "InventoryContentCompression" (VBool false) [("confkey", "plugin.choria.registration.inventory_content.compression"); ("default", "true")];
   fld "InventoryContentRegistrationTarget" (VString "") [("confkey", "plugin.choria.registration.inventory_content.target"); ("default", "")];
   fld "RegistrationSizeTrigger" (VInt 0) [("confkey", "plugin.choria.registration.size_trigger"); ("default", "0")];
   fld "RegistrationSizeInterval" (VInt 0) [("confkey", "plugin.choria.registration.size_interval"); ("default", "30")];
   fld "RubyAgentShim" (VString "") [("confkey", "plugin.choria.agent_provider.mcorpc.agent_shim")];
   fld "RubyAgentConfig" (VString "") [("confkey", "plugin.choria.agent_provider.mcorpc.config")];
   fld "RubyLibdir" (VStrings []) [("confkey", "plugin.choria.agent_provider.mcorpc.libdir"); ("type", "path_split")];
   fld "SecurityProvider" (VString "") [("confkey", "plugin.security.provider"); ("default", "puppet"); ("validate", "enum=puppet,file,pkcs11,certmanager,choria")];
   fld "ServerAnonTLS" (VBool false) [("confkey", "plugin.security.server_anon_tls"); ("default", "false")];
   fld "ClientAnonTLS" (VBool false) [("confkey", "plugin.security.client_anon_tls"); ("default", "false")];
   fld "AAAServiceLoginURLs" (VStrings []) [("confkey", "plugin.login.aaasvc.login.url"); ("type", "comma_split"); ("url", "https://choria-io.github.io/aaasvc/")];
   fld "CipherSuites" (VStrings []) [("confkey", "plugin.security.cipher_suites"); ("type", "comma_split")];
   fld "ECCCurves" (VStrings []) [("confkey", "plugin.security.ecc_curves"); ("type", "comma_split")];
   fld "IssuerNames" (VStrings []) [("confkey", "plugin.security.issuer.names"); ("type", "comma_split")];
   fld "ServerTokenFile" (VString "") [("confkey", "plugin.choria.security.server.token_file"); ("type", "path_string")];
   fld "ServerTokenSeedFile" (VString "") [("confkey", "plugin.choria.security.server.seed_file"); ("type", "path_string")];
   fld "SSLDir" (VString "") [("confkey", "plugin.choria.ssldir"); ("type", "path_string")];
   fld "PrivilegedUsers" (VStrings []) [("confkey", "plugin.choria.security.privileged_users"); ("type", "comma_split"); ("default", "\.privileged.mcollective$,\.privileged.choria$"); ("url", "https://choria.io/docs/configuration/aaa/")];
   fld "CertnameAllowList" (VStrings []) [("confkey", "plugin.choria.security.certname_whitelist"); ("type", "comma_split"); ("default", "\.mcollective$,\.choria$")];
   fld "SecurityAllowLegacyCerts" (VBool false) [("confkey", "plugin.security.support_legacy_certificates"); ("default", "false")];
   fld "RemoteSignerTokenSeedFile" (VString "") [("confkey", "plugin.choria.security.request_signer.seed_file"); ("type", "path_string"); ("url", "https://github.com/choria-io/aaasvc")];
   fld "RemoteSignerTokenFile" (VString "") [("confkey", "plugin.choria.security.request_signer.token_file"); ("type", "path_string"); ("url", "https://github.com/choria-io/aaasvc")];
   fld "RemoteSignerURL" (VString "") [("confkey", "plugin.choria.security.request_signer.url"); ("url", "https://choria-io.github.io/aaasvc/")];
   fld "RemoteSignerService" (VBool false) [("confkey", "plugin.choria.security.request_signer.service"); ("url", "https://choria-io.github.io/aaasvc/")];
   fld "ChoriaSecurityTrustedSigners" (VStrings []) [("confkey", "plugin.security.choria.trusted_signers"); ("type", "comma_split")];
   fld "ChoriaSecurityCertificate" (VString "") [("confkey", "plugin.security.choria.certificate"); ("type", "path_string")];
   fld "ChoriaSecurityKey" (VString "") [("confkey", "plugin.security.choria.key"); ("type", "path_string")];
   fld "ChoriaSecurityCA" (VString "") [("confkey", "plugin.security.choria.ca"); ("type", "path_string")];
   fld "ChoriaSecurityTokenFile" (VString "") [("confkey", "plugin.security.choria.token_file"); ("type", "path_string")];
   fld "ChoriaSecuritySeedFile" (VString "") [("confkey", "plugin.security.choria.seed_file"); ("type", "path_string")];
   fld "ChoriaSecuritySignReplies" (VBool false) [("confkey", "plugin.security.choria.sign_replies"); ("default", "true")];
   fld "FileSecurityCertificate" (VString "") [("confkey", "plugin.security.file.certificate"); ("type", "path_string")];
   fld "FileSecurityKey" (VString "") [("confkey", "plugin.security.file.key"); ("type", "path_string")];
   fld "FileSecurityCA" (VString "") [("confkey", "plugin.security.file.ca"); ("type", "path_string")];
   fld "CertManagerSecurityNamespace" (VString "") [("confkey", "plugin.security.certmanager.namespace"); ("default", "choria")];
   fld "CertManagerSecurityIssuer" (VString "") [("confkey", "plugin.security.certmanager.issuer")];
   fld "CertManagerSecurityReplaceCSR" (VBool false) [("confkey", "plugin.security.certmanager.replace"); ("default", "true")];
   fld "CertManagerSecurityAltNames" (VStrings []) [("confkey", "plugin.security.certmanager.alt_names"); ("type", "comma_split")];
   fld "CertManagerAPIVersion" (VString "") [("confkey", "plugin.security.certmanager.api_version"); ("default", "v1")];
   fld "PKCS11DriverFile" (VString "") [("confkey", "plugin.security.pkcs11.driver_file"); ("type", "path_string"); ("url", "https://choria.io/blog/post/2019/09/09/pkcs11/")];
   fld "PKCS11Slot" (VInt 0) [("confkey", "plugin.security.pkcs11.slot"); ("url", "https://choria.io/blog/post/2019/09/09/pkcs11/")];
   fld "MachineSourceDir" (VString "") [("confkey", "plugin.choria.machine.store"); ("url", "https://choria.io/docs/autoagents/")];
   fld "MachinesSignerPublicKey" (VString "") [("confkey", "plugin.choria.machine.signing_key")];
   fld "MachinesHTTPPort" (VInt 0) [("confkey", "plugin.choria.machine.http_port")];
   fld "StatusFilePath" (VString "") [("confkey", "plugin.choria.status_file_path"); ("type", "path_string")];
   fld "StatusUpdateSeconds" (VInt 0) [("confkey", "plugin.choria.status_update_interval"); ("default", "30")];
   fld "PrometheusTextFileDir" (VString "") [("confkey", "plugin.choria.prometheus_textfile_directory"); ("type", "path_string")];
   fld "ScoutOverrides" (VString "") [("confkey", "plugin.scout.overrides"); ("type", "path_string")];
   fld "ScoutTags" (VString "") [("confkey", "plugin.scout.tags"); ("type", "path_string")];
   fld "ScoutAgentDisabled" (VBool false) [("confkey", "plugin.scout.agent_disabled")];
   fld "ScoutGossLocalDenyResources" (VStrings []) [("confkey", "plugin.scout.goss.denied_local_resources"); ("type", "comma_split")];
   fld "ScoutGossRemoteDenyResources" (VStrings []) [("confkey", "plugin.scout.goss.denied_remote_resources"); ("default", "command"); ("type", "comma_split")];
   fld "RequireClientFilter" (VBool false) [("confkey", "plugin.choria.require_client_filter"); ("default", "false")];
   fld "RegistryServiceStore" (VString "") [("confkey", "plugin.choria.services.registry.store"); ("type", "path_string")];
   fld "RegistryClientCache" (VString "") [("confkey", "plugin.choria.services.registry.cache"); ("type", "path_string"); ("environment", "CHORIA_REGISTRY")];
   fld "SubmissionSpool" (VString "") [("confkey", "plugin.choria.submission.spool"); ("type", "path_string")];
   fld "SubmissionSpoolMaxSize" (VInt 0) [("confkey", "plugin.choria.submission.max_spool_size"); ("default", "500")];
   fld "RPCAuditLogfile" (VString "") [("confkey", "plugin.rpcaudit.logfile"); ("type", "path_string")];
   fld "RPCAuditLogfileGroup" (VString "") [("confkey", "plugin.rpcaudit.logfile.group")];
   fld "RPCAuditLogFileMode" (VString "") [("confkey", "plugin.rpcaudit.logfile.mode"); ("default", "0600")];
   fld "ExecutorEnabled" (VBool false) [("confkey", "plugin.choria.executor.enabled"); ("default", "false")];
   fld "ExecutorSpool" (VString "") [("confkey", "plugin.choria.executor.spool"); ("type", "path_string")];
   fld "AutonomousAgentsDownload" (VBool false) [("confkey", "plugin.machines.download")];
   fld "AutonomousAgentsBucket" (VString "") [("confkey", "plugin.machines.bucket"); ("default", "CHORIA_PLUGINS")];
   fld "AutonomousAgentsKey" (VString "") [("confkey", "plugin.machines.key"); ("default", "plugins")];
   fld "AutonomousAgentsPurge" (VBool false) [("confkey", "plugin.machines.purge"); ("default", "true")];
   fld "AutonomousAgentsBucketPollInterval" (VString "") [("confkey", "plugin.machines.poll_interval"); ("default", "1m")];
   fld "AutonomousAgentCheckInterval" (VString "") [("confkey", "plugin.machines.check_interval"); ("default", "30s")];
   fld "AutonomousAgentPublicKey" (VString "") [("confkey", "plugin.machines.signing_key")]].
