(* ===== verification/Discovery.v ===== *)
(** * Discovery without asking the network

    providers/discovery: flatfile, inventory, puppetdb and external.  Decoding of JSON and
    YAML, the query language of gjson, splitting of command lines, title case and the
    program that is run are arguments; logging is left out. *)
From S2P Require Import Prelude Records GoLib Regex Files Util Facts Filters Confkey.

(** ** providers/discovery/flatfile *)

Module FlatFile.

Inductive SourceFormat := unknownFormat | TextFormat | JSONFormat | YAMLFormat | ChoriaResponsesFormat.

Record dOpts := {
  do_source : string;
  do_format : SourceFormat;
  do_reader : option string;
  do_filter : option Filter;
  do_do : gmap string string;
}.

Inductive DiscoverOption :=
| OptFilter (f : option Filter)
| OptFormat (f : SourceFormat)
| OptFile (f : string)
| OptReader (r : option string)
| DiscoveryOptions (opt : gmap string string).

Definition apply_option (o : dOpts) (opt : DiscoverOption) : dOpts :=
  match opt with
  | OptFilter f => o <| do_filter := f |>
  | OptFormat f => o <| do_format := f |>
  | OptFile f => o <| do_source := f |>
  | OptReader r => o <| do_reader := r |>
  | DiscoveryOptions m => o <| do_do := m |>
  end.

(** Decoding: a list of names, the senders of replies, YAML as JSON; and what a query selects,
    if it is an array: its elements, those that are strings. *)
Class FlatLib := {
  Unmarshal_nodes : string → res (list string);
  Unmarshal_senders : string → res (list string);
  YAMLToJSON : string → res string;
  gjson_array : string → string → option (list (option string));
}.

Definition is_alnum (c : ascii) : bool := is_word c && negb (Ascii.eqb c "_").
Definition alnum_dash : re := Chr (λ c, is_alnum c || Ascii.eqb c "-").
Definition label_re : re :=
  Alt (Chr is_alnum) (Seq (Chr is_alnum) (Seq (Star true alnum_dash) (Chr is_alnum))).
Definition validIdentity : re := Seq Bol (Seq (Star true (Seq label_re (chr "."))) (Seq label_re Eol)).

Section FlatFile.
Context `{RX : Regexp} `{FL : FlatLib}.
Variable fs : filesystem.

Fixpoint validateNodes (nodes : list string) : res () :=
  match nodes with
  | [] => Ok tt
  | n :: rest => if re_match validIdentity n then validateNodes rest else Err ("invalid identity string " +:+ n)
  end.

Definition textDiscover (data : string) : res (list string) :=
  let '(lines, err) := scan_lines data in
  match err with Some e => Err e | None => Ok (map trim_space lines) end.

Definition jsonDiscover (data : string) (do : gmap string string) : res (list string) :=
  match do !! "filter" with
  | Some filter =>
      if String.eqb filter "" then Err "empty filter string found in discovery options"
      else match gjson_array data filter with
           | Some l => Ok (omap id l)
           | None => Err ("query " +:+ filter +:+ " did not result in a array of nodes")
           end
  | None => Unmarshal_nodes data
  end.

Definition yamlDiscover (data : string) (do : gmap string string) : res (list string) :=
  j ← YAMLToJSON data; jsonDiscover j do.

(** The first and the last byte. *)
Definition first_char (s : string) : option ascii := match s with String c _ => Some c | "" => None end.
Definition last_char (s : string) : option ascii := first_char (rev_string s).

Definition choriaDiscover (raw : string) : res (list string) :=
  let input := trim_space raw in
  if Nat.ltb (String.length input) 2 then Err "did not detect valid JSON data"
  else if negb (bool_decide (first_char input = Some "{"%char)) && negb (bool_decide (last_char input = Some "}"%char))
  then Err "did not detect valid JSON data"
  else Unmarshal_senders input.

Definition format_of (format : string) : SourceFormat :=
  if String.eqb format "json" then JSONFormat
  else if elem format ["yaml"; "yml"] then YAMLFormat
  else if elem format ["choriarpc"; "results"; "rpc"; "response"] then ChoriaResponsesFormat
  else TextFormat.

Definition with_user_options (o : dOpts) : dOpts :=
  let o := match do_do o !! "file" with Some file => o <| do_reader := None |> <| do_source := file |> | None => o end in
  match do_do o !! "format" with Some format => o <| do_format := format_of format |> | None => o end.

Definition only_identities (f : Filter) : bool :=
  Nat.eqb (slice_len (Agent f)) 0 && Nat.eqb (slice_len (Compound_ f)) 0 && Nat.eqb (slice_len (Class_ f)) 0 &&
  Nat.eqb (slice_len (Fact f)) 0.

Definition read_nodes (o : dOpts) (data : string) : res (list string) :=
  match do_format o with
  | TextFormat | unknownFormat => textDiscover data
  | JSONFormat => jsonDiscover data (do_do o)
  | YAMLFormat => yamlDiscover data (do_do o)
  | ChoriaResponsesFormat => choriaDiscover data
  end.

(** A node is in the result once for every identity filter that matches it. *)
Definition Discover (opts : list DiscoverOption) : res (list string) :=
  let o := fold_left apply_option opts
             {| do_source := ""; do_format := unknownFormat; do_reader := None; do_filter := None; do_do := ∅ |} in
  if match do_filter o with Some f => negb (only_identities f) | None => false end
  then Err "only identity filters are supported"
  else
    let o := with_user_options o in
    if String.eqb (do_source o) "" && bool_decide (do_reader o = None) then Err "source file not specified"
    else
      data ← match do_reader o with Some data => Ok data | None => os_Open fs (do_source o) end;
      nodes ← read_nodes o data;
      validateNodes nodes;;
      match do_filter o with
      | Some f =>
          if Nat.ltb 0 (slice_len (Identity_ f))
          then Ok (concat (map (Identity.FilterNodes nodes) (elems (Identity_ f))))
          else Ok nodes
      | None => Ok nodes
      end.

End FlatFile.
End FlatFile.

(** ** providers/discovery/inventory *)

Module Inventory.

Definition DataSchema : string := "https://choria.io/schemas/choria/discovery/v1/inventory_file.json".

Record GroupFilter := {
  gf_Agents : list string;
  gf_Classes : list string;
  gf_Facts : list string;
  gf_Identities : list string;
  gf_Compound : string;
}.

Record Group := {
  gr_Name : string;
  gr_Filter : option GroupFilter;
}.

Record dOpts := {
  do_filter : Filter;
  do_collective : string;
  do_do : gmap string string;
  do_source : string;
  do_noValidate : bool;
}.

Inductive DiscoverOption :=
| OptFilter (f : Filter)
| OptCollective (c : string)
| DiscoveryOptions (opt : gmap string string)
| OptFile (f : string).

Definition apply_option (o : dOpts) (opt : DiscoverOption) : dOpts :=
  match opt with
  | OptFilter f => o <| do_filter := f |>
  | OptCollective c => o <| do_collective := c |>
  | DiscoveryOptions m => o <| do_do := m |>
  | OptFile f => o <| do_source := f |>
  end.

Section Data.
Context `{FL : FactLib}.

Record Node := {
  nd_Name : string;
  nd_Collectives : list string;
  nd_Facts : json_doc;
  nd_Classes : list string;
  nd_Agents : list string;
}.

Record DataFile := {
  df_Schema : string;
  df_Groups : list Group;
  df_Nodes : list Node;
}.

(** Decoding of inventories, YAML as JSON and the warnings of the schema. *)
Class InventoryLib := {
  Unmarshal_inventory : string → res DataFile;
  inv_YAMLToJSON : string → res string;
  ValidateInventory : string → res (list string);
}.

End Data.

Section Inventory.
Context `{FL : FactLib} `{RX : Regexp} `{EL : !ExprLib} `{IL : !InventoryLib}.
Variable fs : filesystem.
Variable env : string → option string.
Variable windows : bool.
(** [ctx.Err()] before a node, by the number of the pass and of the node. *)
Variable ctx : nat → nat → option string.

Fixpoint add_facts (l : list string) (filter : Filter) : res Filter :=
  match l with
  | [] => Ok filter
  | fact :: rest =>
      '(k, op, v) ← Facts.ParseFactFilterString fact;
      match AddFactFilter k op v filter with
      | (filter, Ok _) => add_facts rest filter
      | (_, Err e) => Err e
      | (_, Panic p) => Panic p
      end
  end.

Definition ToProtocolFilter (f : option GroupFilter) : res Filter :=
  match f with
  | None => Ok NewFilter
  | Some f =>
      filter ← add_facts (gf_Facts f) NewFilter;
      let filter := fold_left (λ p a, AddAgentFilter a p) (gf_Agents f) filter in
      let filter := fold_left (λ p i, AddIdentityFilter i p) (gf_Identities f) filter in
      let filter := fold_left (λ p c, AddClassFilter c p) (gf_Classes f) filter in
      Ok (AddCompoundFilter (gf_Compound f) filter)
  end.

Definition LookupGroup (d : DataFile) (name : string) : option Group :=
  List.find (λ g, String.eqb (gr_Name g) name) (df_Groups d).

Definition is_group (id : string) : bool := has_prefix id "group:".

Definition isValidGroupLookup (f : Filter) : res bool :=
  let grp := length (List.filter is_group (IdentityFilters f)) in
  let node := length (List.filter (λ i, negb (is_group i)) (IdentityFilters f)) in
  if Nat.eqb grp 0 then Ok false
  else if negb (Nat.eqb node 0) then Err "group matches cannot be combined with other filters"
  else if Nat.ltb 0 (length (FactFilters f)) || Nat.ltb 0 (length (ClassFilters f)) ||
          Nat.ltb 1 (length (AgentFilters f)) || Nat.ltb 0 (length (CompoundFilters f))
  then Err "group matches cannot be combined with other filters"
  else Ok true.

(** The program of the first compound filter; its first element is out of range when it has
    none, and a missing expression is an empty one. *)
Definition compound_program (f : Filter) : res (option expr_program) :=
  match CompoundFilters f with
  | [] => Ok None
  | [] :: _ => Panic "index out of range [0] with length 0"
  | (m :: _) :: _ =>
      match expr_Compile (default "" (m !! "expr")) nil_FuncMap with
      | Some prog => Ok (Some prog)
      | None => Err "could not compile the query"
      end
  end.

Definition node_matches (f : Filter) (prog : option expr_program) (n : Node) : bool :=
  check_section (length (IdentityFilters f)) (MatchIdentity f (nd_Name n)) 0 (λ passed,
  check_section (length (AgentFilters f)) (MatchAgents f (nd_Agents n)) passed (λ passed,
  check_section (length (ClassFilters f)) (MatchClasses f (nd_Classes n)) passed (λ passed,
  check_section (length (FactFilters f)) (FilterMatchFacts f (nd_Facts n)) passed (λ passed,
  check_section (length (CompoundFilters f))
    match prog with
    | Some prog =>
        match MatchExprProgram prog (nd_Facts n) (nd_Classes n) (nd_Agents n) nil_FuncMap with Ok b => b | _ => false end
    | None => false
    end passed (λ passed,
  Nat.ltb 0 passed))))).

(** One node of the pass with this number. *)
Fixpoint select_nodes (pass i : nat) (prog : option expr_program) (collective : string) (f : Filter) (nodes : list Node)
    (matched : list string) : res (list string) :=
  match nodes with
  | [] => Ok matched
  | n :: rest =>
      match ctx pass i with
      | Some e => Err e
      | None =>
          let next := select_nodes pass (S i) prog collective f rest in
          if negb (String.eqb collective "") && negb (StringInList (nd_Collectives n) collective) then next matched
          else if Empty f then next (matched ++ [nd_Name n])
          else if node_matches f prog n then next (matched ++ [nd_Name n]) else next matched
      end
  end.

Definition selectMatchingNodes (pass : nat) (d : DataFile) (collective : string) (f : Filter) : res (list string) :=
  prog ← compound_program f;
  select_nodes pass 0 prog collective f (df_Nodes d) [].

(** The names after the groups so far. *)
Fixpoint select_groups (pass : nat) (d : DataFile) (ids matched : list string) : res (list string) :=
  match ids with
  | [] => Ok matched
  | id :: rest =>
      let id := trim_prefix id "group:" in
      match LookupGroup d id with
      | None => Err ("unknown group '" +:+ id +:+ "'")
      | Some grp =>
          gf ← ToProtocolFilter (gr_Filter grp);
          selected ← selectMatchingNodes pass d "" gf;
          select_groups (S pass) d rest (matched ++ selected)
      end
  end.

Definition ReadInventory (path : string) (noValidate : bool) : res DataFile :=
  if negb (FileExistIn fs path) then Err ("discovery source " +:+ path +:+ " does not exist")
  else
    f ← os_Open fs path;
    f ← (if elem (path_ext path) [".yaml"; ".yml"] then inv_YAMLToJSON f else Ok f);
    (if noValidate then Ok tt
     else
       warnings ← ValidateInventory f;
       if Nat.ltb 0 (length warnings) then Err "invalid inventory file, validate using 'choria tool inventory'" else Ok tt);;
    data ← Unmarshal_inventory f;
    if negb (String.eqb (df_Schema data) DataSchema)
    then Err ("invalid schema " +:+ df_Schema data +:+ " expected " +:+ DataSchema)
    else Ok data.

Definition discover (o : dOpts) : res (list string) :=
  data ← ReadInventory (do_source o) (do_noValidate o);
  grouped ← isValidGroupLookup (do_filter o);
  if grouped : bool then
    matched ← select_groups 0 data (IdentityFilters (do_filter o)) [];
    Ok (UniqueStrings matched true)
  else selectMatchingNodes 0 data (do_collective o) (do_filter o).

Definition Discover (mainCollective source : string) (opts : list DiscoverOption) : res (list string) :=
  let o := fold_left apply_option opts
             {| do_filter := NewFilter; do_collective := mainCollective; do_do := ∅; do_source := source; do_noValidate := false |} in
  let o := match do_do o !! "file" with Some file => o <| do_source := file |> | None => o end in
  let o := match do_do o !! "novalidate" with Some _ => o <| do_noValidate := true |> | None => o end in
  if String.eqb (do_source o) "" then Err "no discovery source file specified"
  else
    source ← ExpandPath env windows (do_source o);
    if negb (FileExistIn fs source) then Err ("discovery source " +:+ source +:+ " does not exist")
    else discover (o <| do_source := source |>).

End Inventory.
End Inventory.

(** ** providers/discovery/puppetdb *)

Module PuppetDB.

Record dOpts := {
  do_filter : Filter;
  do_collective : string;
  do_timeout : Z;
}.

Inductive DiscoverOption := OptFilter (f : Filter) | OptCollective (c : string) | OptTimeout (t : Z).

Definition apply_option (o : dOpts) (opt : DiscoverOption) : dOpts :=
  match opt with
  | OptFilter f => o <| do_filter := f |>
  | OptCollective c => o <| do_collective := c |>
  | OptTimeout t => o <| do_timeout := t |>
  end.

(** [^/(.+)/$], [[[:alpha:]]] and [^pql:\s*(.+)$] *)
Definition stringIsRegex : re := Seq Bol (Seq (chr "/") (Seq (Group 1 (Plus true any_char)) (Seq (chr "/") Eol))).
Definition is_alpha (c : ascii) : bool :=
  let n := nat_of_ascii c in (Nat.leb 65 n && Nat.leb n 90) || (Nat.leb 97 n && Nat.leb n 122).
Definition stringIsPQL : re :=
  Seq Bol (Seq (lit "pql:") (Seq (Star true space_char) (Seq (Group 1 (Plus true any_char)) Eol))).

Definition in_regex (s : string) : option string :=
  match re_search stringIsRegex s with Some m => Some (submatch m 1) | None => None end.
Definition in_pql (s : string) : option string :=
  match re_search stringIsPQL s with Some m => Some (submatch m 1) | None => None end.

(** [string(c)] of a byte: its code point in UTF-8. *)
Definition string_of_byte (c : ascii) : string :=
  let n := nat_of_ascii c in
  if Nat.ltb n 128 then String c ""
  else String (ascii_of_nat (192 + n / 64)) (String (ascii_of_nat (128 + n mod 64)) "").

Definition upper_char (c : ascii) : ascii :=
  let n := nat_of_ascii c in if Nat.leb 97 n && Nat.leb n 122 then ascii_of_nat (n - 32) else c.
Definition lower_char (c : ascii) : ascii :=
  let n := nat_of_ascii c in if Nat.leb 65 n && Nat.leb n 90 then ascii_of_nat (n + 32) else c.

(** Both cases of a letter; any other byte as it is. *)
Definition either_case (c : ascii) : string :=
  if is_alpha c then "[" +:+ String (lower_char c) (String (upper_char c) "]") else string_of_byte c.

Fixpoint either_cases (s : string) : string :=
  match s with "" => "" | String c rest => either_case c +:+ either_cases rest end.

Definition stringRegex (s : string) : string := either_cases (default s (in_regex s)).

Definition quoted (s : string) : string := String "034" (s +:+ String "034" "").

Section PuppetDB.
Context `{FL : FactLib}.
(** [cases.Title(language.AmericanEnglish)] and [PQLQueryCertNames]. *)
Variable Title : string → string.
Variable PQLQueryCertNames : string → res (list string).

Definition isNumeric (s : string) : bool := bool_decide (is_Some (ParseFloat s)).

(** The parts between double colons. *)
Fixpoint split_colons (cur s : string) : list string :=
  match s with
  | "" => [cur]
  | String ":" (String ":" rest) => cur :: split_colons "" rest
  | String c rest => split_colons (cur +:+ String c "") rest
  end.

Definition capitalizePuppetResource (r : string) : string := join (map Title (split_colons "" r)) "::".

Definition class_query (class : string) : string :=
  match in_regex class with
  | Some part => "resources {type = " +:+ quoted "Class" +:+ " and title ~ " +:+ quoted (stringRegex part) +:+ "}"
  | None => "resources {type = " +:+ quoted "Class" +:+ " and title = " +:+ quoted (capitalizePuppetResource class) +:+ "}"
  end.

Definition discoverClasses (classes : list string) : string := join (map class_query classes) " and ".

Definition agent_query (a : string) : string :=
  if elem a ["scout"; "rpcutil"; "choria_util"]
  then "(" +:+ discoverClasses ["choria::service"] +:+ " or " +:+ discoverClasses ["mcollective::service"] +:+ ")"
  else match in_regex a with
       | Some part =>
           "resources {type = " +:+ quoted "File" +:+ " and tag ~ " +:+
           quoted ("mcollective_agent_.*?" +:+ stringRegex part +:+ ".*?_server") +:+ "}"
       | None =>
           "resources {type = " +:+ quoted "File" +:+ " and tag = " +:+ quoted ("mcollective_agent_" +:+ a +:+ "_server") +:+ "}"
       end.

Definition discoverAgents (agents : list string) : string := join (map agent_query agents) " and ".

Definition node_query (node : string) : string :=
  match in_pql node with
  | Some part => "certname in " +:+ part
  | None =>
      match in_regex node with
      | Some part => "certname ~ " +:+ quoted (stringRegex part)
      | None => "certname = " +:+ quoted node
      end
  end.

Definition discoverNodes (nodes : list string) : string := join (map node_query nodes) " or ".

Definition discoverCollective (f : string) : string :=
  if String.eqb f "" then ""
  else "certname in inventory[certname] { facts.mcollective.server.collectives.match(" +:+ quoted "\d+" +:+ ") = " +:+ quoted f +:+ " }".

Definition is_literal (v : string) : bool := String.eqb v "true" || String.eqb v "false" || isNumeric v.

Definition fact_query (f : FactFilter) : res string :=
  let fact := "facts." +:+ ff_Fact f in
  let same := if is_literal (ff_Value f)
              then fact +:+ " = " +:+ ff_Value f +:+ " or " +:+ fact +:+ " = " +:+ quoted (ff_Value f)
              else fact +:+ " = " +:+ quoted (ff_Value f) in
  if String.eqb (ff_Operator f) "=~" then Ok ("inventory {" +:+ fact +:+ " ~ " +:+ quoted (stringRegex (ff_Value f)) +:+ "}")
  else if String.eqb (ff_Operator f) "==" then Ok ("inventory {" +:+ same +:+ "}")
  else if String.eqb (ff_Operator f) "!=" then Ok ("inventory {!(" +:+ same +:+ ")}")
  else if elem (ff_Operator f) [">="; ">"; "<="; "<"] then
    if negb (isNumeric (ff_Value f)) then Err ("'" +:+ ff_Operator f +:+ "' operator supports only numeric values")
    else Ok ("inventory {" +:+ fact +:+ " " +:+ ff_Operator f +:+ " " +:+ ff_Value f +:+ "}")
  else Err ("do not know how to do fact comparisons using the '" +:+ ff_Operator f +:+ "' operator with PuppetDB").

Definition discoverFacts (facts : list FactFilter) : res string :=
  qs ← mapM fact_query facts; Ok (join qs " and ").

Definition parenthesized (queries : list string) : string :=
  join (map (λ q, "(" +:+ q +:+ ")") (List.filter (λ q, negb (String.eqb q "")) queries)) " and ".

Definition searchString (collective : string) (filter : Filter) : res string :=
  fq ← discoverFacts (elems (Fact filter));
  Ok ("nodes[certname, deactivated] { " +:+
      parenthesized [discoverCollective collective; discoverNodes (elems (Identity_ filter));
                     discoverClasses (elems (Class_ filter)); discoverAgents (elems (Agent filter)); fq] +:+ " }").

Definition identityOptimize (filter : Filter) : bool :=
  Nat.eqb (length (CompoundFilters filter)) 0 && Nat.eqb (length (FactFilters filter)) 0 &&
  Nat.eqb (length (ClassFilters filter)) 0 && Nat.ltb 0 (length (IdentityFilters filter)) &&
  negb (existsb (λ f, re_match stringIsRegex f || re_match stringIsPQL f) (IdentityFilters filter)).

Definition Discover (mainCollective : string) (timeout : Z) (opts : list DiscoverOption) : res (list string) :=
  let o := fold_left apply_option opts {| do_filter := NewFilter; do_collective := mainCollective; do_timeout := timeout |} in
  if Nat.ltb 0 (slice_len (Compound_ (do_filter o))) then Err "compound filters are not supported by PuppetDB"
  else if identityOptimize (do_filter o) then Ok (IdentityFilters (do_filter o))
  else
    search ← searchString (do_collective o) (do_filter o);
    PQLQueryCertNames search.

End PuppetDB.
End PuppetDB.

(** ** providers/discovery/external *)

Module External.

Definition ResponseProtocol : string := "io.choria.choria.discovery.v1.external_reply".
Definition RequestProtocol : string := "io.choria.choria.discovery.v1.external_request".
Definition RequestSchema : string := "https://choria.io/schemas/choria/discovery/v1/external_request.json".

Record Response := {
  rs_Protocol : string;
  rs_Nodes : list string;
  rs_Error : string;
}.

(** The timeout is in nanoseconds. *)
Record Request := {
  rq_Protocol : string;
  rq_Collective : string;
  rq_Filter : Filter;
  rq_Federations : list string;
  rq_Options : gmap string string;
  rq_Schema : string;
  rq_Timeout : Z;
}.

Record dOpts := {
  do_filter : option Filter;
  do_collective : string;
  do_federations : list string;
  do_timeout : Z;
  do_command : string;
  do_do : gmap string string;
}.

Inductive DiscoverOption :=
| OptFilter (f : option Filter)
| OptCollective (c : string)
| Federations (f : list string)
| OptTimeout (t : Z)
| Command (c : string)
| DiscoveryOptions (opt : gmap string string).

Definition apply_option (o : dOpts) (opt : DiscoverOption) : dOpts :=
  match opt with
  | OptFilter f => o <| do_filter := f |>
  | OptCollective c => o <| do_collective := c |>
  | Federations f => o <| do_federations := f |>
  | OptTimeout t => o <| do_timeout := t |>
  | Command c => o <| do_command := c |>
  | DiscoveryOptions m => o <| do_do := m |>
  end.

(** What is run: the arguments, the environment, what the request file holds and how long it
    may take; and what becomes of it: it does not start, or it exits with a code, leaving a
    reply that can be read or not. *)
Record execution := {
  xe_args : list string;
  xe_env : list string;
  xe_request : string;
  xe_timeout : Z;
}.
Record outcome_of := {
  xo_exit : Z;
  xo_reply : res string;
}.

Class ExternalLib := {
  Marshal_request : Request → res string;
  Unmarshal_response : string → res Response;
  shlex_Split : string → res (list string);
  (** The files for the request and the reply. *)
  CreateTemp : string → res string;
  getenv_PATH : string;
  run_command : execution → res outcome_of;
}.

Section External.
Context `{XL : ExternalLib}.

Definition with_command (o : dOpts) : dOpts :=
  match do_do o !! "command" with
  | Some c => if String.eqb c "" then o else o <| do_command := c |> <| do_do ::= delete "command" |>
  | None => o
  end.

Definition at_least_a_second (o : dOpts) : dOpts :=
  if (do_timeout o <? Second)%Z then o <| do_timeout := Second |> else o.

Definition request_of (o : dOpts) : Request :=
  {| rq_Protocol := RequestProtocol; rq_Collective := do_collective o; rq_Filter := default NewFilter (do_filter o);
     rq_Federations := do_federations o; rq_Options := do_do o; rq_Schema := RequestSchema; rq_Timeout := do_timeout o |}.

(** The first part of an empty command is out of range. *)
Definition command_args (command reqfile repfile : string) : res (list string) :=
  parts ← shlex_Split command;
  match parts with
  | [] => Panic "index out of range [0] with length 0"
  | _ => Ok (parts ++ [reqfile; repfile; RequestProtocol])
  end.

Definition environment (reqfile repfile : string) : list string :=
  ["CHORIA_EXTERNAL_REQUEST=" +:+ reqfile; "CHORIA_EXTERNAL_REPLY=" +:+ repfile;
   "CHORIA_EXTERNAL_PROTOCOL=" +:+ RequestProtocol; "PATH=" +:+ getenv_PATH].

Definition nodes_of (resp : Response) : res (list string) :=
  if negb (String.eqb (rs_Error resp) "") then Err (rs_Error resp)
  else if negb (String.eqb (rs_Protocol resp) ResponseProtocol)
  then Err ("invalid response received, expected protocol " +:+ ResponseProtocol +:+ " got " +:+ rs_Protocol resp)
  else Ok (rs_Nodes resp).

Definition Discover (mainCollective command : string) (federations : list string) (timeout : Z) (opts : list DiscoverOption) :
    res (list string) :=
  let o := fold_left apply_option opts
             {| do_filter := None; do_collective := mainCollective; do_federations := federations; do_timeout := timeout;
                do_command := command; do_do := ∅ |} in
  let o := with_command (at_least_a_second o) in
  if String.eqb (do_command o) "" then Err "no command specified for external discovery"
  else
    req ← map_err (λ e, "could not encode the filter: " +:+ e) (Marshal_request (request_of o));
    reqfile ← map_err (λ e, "could not create request temp file: " +:+ e) (CreateTemp "request");
    repfile ← map_err (λ e, "could not create reply temp file: " +:+ e) (CreateTemp "reply");
    args ← command_args (do_command o) reqfile repfile;
    let base := path_base (default "" (head args)) in
    out ← map_err (λ e, "executing " +:+ base +:+ " failed: " +:+ e)
            (run_command {| xe_args := args; xe_env := environment reqfile repfile; xe_request := req; xe_timeout := do_timeout o |});
    if negb (Z.eqb (xo_exit out) 0) then Err ("executing " +:+ base +:+ " failed: exit status " +:+ itoa (xo_exit out))
    else
      repjson ← map_err (λ e, "failed to read reply json: " +:+ e) (xo_reply out);
      resp ← map_err (λ e, "failed to decode reply json: " +:+ e) (Unmarshal_response repjson);
      nodes_of resp.

End External.
End External.
