(* ===== verification/Adapter.v ===== *)
(** * Adapters of the broker

    broker/adapter: messages of a subject, taken out of their transport without validation,
    pass a bounded queue and are published to a stream in another format.  Metrics are the
    counters the workers keep; connecting and publishing are arguments. *)
From S2P Require Import Prelude Records GoLib Util AuthTypes Transport SecureMessages.

(** ** Messages *)

(** [Adaptable]: what requests and replies have in common. *)
Record adaptable := {
  ad_Message : string;
  ad_SenderID : string;
  ad_Time : Z;
  ad_RequestID : string;
}.

Definition of_request (r : Request) : adaptable :=
  {| ad_Message := rq_MessageBody r; ad_SenderID := rq_SenderID r; ad_Time := rq_Time_ns r; ad_RequestID := rq_RequestID r |}.

Definition of_reply (r : Reply) : adaptable :=
  {| ad_Message := rp_MessageBody r; ad_SenderID := rp_Sender r;
     ad_Time := match rp_Type r with V1 => rp_TimeStamp r * Second | V2 => rp_TimeStamp r end; ad_RequestID := rp_Request r |}.

(** [transformer.Msg] *)
Record Msg := {
  mg_Protocol : string;
  mg_Data : string;
  mg_Sender : string;
  mg_Time : Z;
  mg_RequestID : string;
}.

Definition TransformToOutput (msg : adaptable) (adapterName : string) : Msg :=
  {| mg_Protocol := "choria:adapters:" +:+ adapterName +:+ ":output:1"; mg_Data := ad_Message msg;
     mg_Sender := ad_SenderID msg; mg_Time := ad_Time msg; mg_RequestID := ad_RequestID msg |}.

(** [strings.ReplaceAll(s, "%s", by)] *)
Fixpoint replace_sender (s by_ : string) : string :=
  match s with
  | "" => ""
  | String "%" (String "s" rest) => by_ +:+ replace_sender rest by_
  | String c rest => String c (replace_sender rest by_)
  end.

(** ** Configuration *)

Inductive ingest_proto := ChoriaRequest | ChoriaReply.

Record NatsIngest := {
  ni_topic : string;
  ni_proto : ingest_proto;
  ni_name : string;
  ni_adapterName : string;
  ni_group : string;
}.

(** Without servers of its own a stream uses those of the middleware. *)
Record stream := {
  sm_servers : option (list string);
  sm_clientID : string;
  sm_topic : string;
  sm_name : string;
  sm_adapterName : string;
}.

Record Streams := {
  sa_streams : list stream;
  sa_ingests : list NatsIngest;
  sa_queue : Z;
}.

Section Create.
(** [cfg.Option] and unique names. *)
Variable Option : string → string → string.
Variable UniqueID : nat → string.

Definition number_option (key deflt : string) : res Z :=
  match atoi (Option key deflt) with Some n => Ok n | None => Err (key +:+ " should be a integer number") end.

Definition ingest_New (name : string) : res (list NatsIngest) :=
  let prefix := "plugin.choria.adapter." +:+ name +:+ ".ingest." in
  instances ← number_option (prefix +:+ "workers") "10";
  let topic := Option (prefix +:+ "topic") "" in
  if String.eqb topic "" then Err ("no ingest topic configured, please set " +:+ prefix +:+ "topic")
  else
    let proto := if String.eqb (Option (prefix +:+ "protocol") "reply") "request" then ChoriaRequest else ChoriaReply in
    Ok (map (λ i, {| ni_topic := topic; ni_proto := proto; ni_name := name +:+ "." +:+ itoa (Z.of_nat i); ni_adapterName := name;
                     ni_group := "nats_ingest_" +:+ name |}) (seq 0 (Z.to_nat instances))).

Definition newStream (name : string) : res (list stream) :=
  let prefix := "plugin.choria.adapter." +:+ name +:+ ".stream." in
  instances ← number_option (prefix +:+ "workers") "10";
  let servers := Option (prefix +:+ "servers") "" in
  let topic := Option (prefix +:+ "topic") "" in
  let topic := if String.eqb topic "" then name else topic in
  Ok (map (λ i, {| sm_servers := if String.eqb servers "" then None else Some (split servers ",");
                   sm_clientID := name +:+ "_" +:+ itoa (Z.of_nat i) +:+ "-" +:+ UniqueID i; sm_topic := topic;
                   sm_name := name +:+ "." +:+ itoa (Z.of_nat i); sm_adapterName := name |}) (seq 0 (Z.to_nat instances))).

(** A channel cannot have a negative size. *)
Definition Create (name : string) : res Streams :=
  worklen ← number_option ("plugin.choria.adapter." +:+ name +:+ ".queue_len") "1000";
  if (worklen <? 0)%Z then Panic "makechan: size out of range"
  else
    ingests ← map_err (λ e, "could not create adapter " +:+ name +:+ ": " +:+ e) (ingest_New name);
    streams ← map_err (λ e, "could not create adapter " +:+ name +:+ ": " +:+ e) (newStream name);
    Ok {| sa_streams := streams; sa_ingests := ingests; sa_queue := worklen |}.

(** By the name of the worker: whether shutdown was called before it connects, and what
    connecting answers. *)
Variable shutdown : string → bool.
Variable connect : string → res ().

Fixpoint connect_all (wrap : string) (names : list string) : res () :=
  match names with
  | [] => Ok tt
  | n :: rest =>
      if shutdown n then Err "shutdown called"
      else map_err (λ e, wrap +:+ e) (connect n);; connect_all wrap rest
  end.

Definition Init (a : Streams) : res () :=
  connect_all "failure during initial Choria Streams connections: " (map sm_name (sa_streams a));;
  connect_all "failure during Choria Streams initial connections: " (map ni_name (sa_ingests a)).

(** The adapters that were started, which go on when a later one fails; the error of
    initializing prints the adapter's structure, which is left out. *)
Fixpoint RunAdapters (names : list string) : list Streams * res () :=
  match names with
  | [] => ([], Ok tt)
  | a :: rest =>
      let atype := Option ("plugin.choria.adapter." +:+ a +:+ ".type") "" in
      if String.eqb atype "" then ([], Err ("could not determine type for adapter " +:+ a +:+ ", set plugin.choria.adapter." +:+ a +:+ ".type"))
      else if elem atype ["jetstream"; "choria_streams"] then
        match Create a with
        | Err e => ([], Err ("could not start choria_streams adapter: " +:+ e))
        | Panic p => ([], Panic p)
        | Ok n =>
            match Init n with
            | Ok _ => let '(started, r) := RunAdapters rest in (n :: started, r)
            | Err e => ([], Err ("could not start choria_streams adapter: could not initialize adapter: " +:+ e))
            | Panic p => ([], Panic p)
            end
        end
      else if String.eqb atype "nats_stream" then ([], Err "the NATS Streaming Server adapter has been deprecated")
      else ([], Err ("unknown Protocol Adapter type " +:+ atype))
  end.

End Create.

(** ** Processing *)

(** The queue, what each publisher holds, what was published on which subject, and the
    counters of both sides; a panic ends the program. *)
Record Adapter := {
  aq_work : list adaptable;
  aq_busy : gmap nat adaptable;
  aq_published : list (string * adaptable);
  aq_in : nat;
  aq_in_errors : nat;
  aq_out : nat;
  aq_out_errors : nat;
  aq_panicked : bool;
}.

(** A message arrives, and is put in the queue or handed to a publisher that waits for one; a
    publisher takes one from the queue, and publishes it or fails to. *)
Inductive move :=
| Arrive (raw : string) (waiting : option nat)
| TakeWork (i : nat)
| PublishRaw (i : nat) (ok : bool).

Section Process.
Context `{TJ : TransportJSON} `{MJ : MessageJSON} `{BF : BuildFlags} `{SP : SecurityProvider}.
(** [json.Marshal] of a message for the stream. *)
Variable Marshal : Msg → option string.
Variable proto : ingest_proto.
Variable topic : string.
Variable capacity : nat.

(** The requests and replies are not validated. *)
Definition decode (raw : string) : res adaptable :=
  match proto with
  | ChoriaRequest => r ← NewRequestFromTransportJSON raw true; Ok (of_request r)
  | ChoriaReply => r ← NewReplyFromTransportJSON raw true; Ok (of_reply r)
  end.

(** [receiverf] *)
Definition receive (raw : string) (waiting : option nat) (a : Adapter) : option Adapter :=
  match decode raw with
  | Panic _ => Some (a <| aq_panicked := true |>)
  | Err _ => Some (a <| aq_in_errors ::= S |>)
  | Ok m =>
      match waiting with
      | Some i =>
          if bool_decide (aq_work a = []) && bool_decide (aq_busy a !! i = None)
          then Some (a <| aq_busy ::= <[i := m]> |> <| aq_in ::= S |>) else None
      | None =>
          if Nat.ltb (length (aq_work a)) capacity
          then Some (a <| aq_work ::= (λ l, l ++ [m]) |> <| aq_in ::= S |>)
          else Some (a <| aq_in_errors ::= S |>)
      end
  end.

Definition take_work (i : nat) (a : Adapter) : option Adapter :=
  match aq_busy a !! i, aq_work a with
  | None, m :: rest => Some (a <| aq_work := rest |> <| aq_busy ::= <[i := m]> |>)
  | _, _ => None
  end.

(** [transformerf] *)
Definition publish (i : nat) (ok : bool) (a : Adapter) : option Adapter :=
  match aq_busy a !! i with
  | None => None
  | Some m =>
      let a := a <| aq_busy ::= delete i |> in
      match Marshal (TransformToOutput m "choria_streams") with
      | None => Some (a <| aq_out_errors ::= S |>)
      | Some _ =>
          if ok then Some (a <| aq_published ::= (λ l, l ++ [(replace_sender topic (ad_SenderID m), m)]) |> <| aq_out ::= S |>)
          else Some (a <| aq_out_errors ::= S |>)
      end
  end.

Definition step (v : move) (a : Adapter) : option Adapter :=
  if aq_panicked a then None
  else match v with
       | Arrive raw waiting => receive raw waiting a
       | TakeWork i => take_work i a
       | PublishRaw i ok => publish i ok a
       end.

Fixpoint run (moves : list move) (a : Adapter) : option Adapter :=
  match moves with
  | [] => Some a
  | v :: rest => a ← step v a; run rest a
  end.

Definition new_adapter : Adapter :=
  {| aq_work := []; aq_busy := ∅; aq_published := []; aq_in := 0; aq_in_errors := 0; aq_out := 0; aq_out_errors := 0;
     aq_panicked := false |}.

(** ** Nothing is lost unaccounted *)

(** The messages that arrived and could be read, in the order they came. *)
Definition arrived (moves : list move) : list adaptable :=
  omap (λ v, match v with Arrive raw _ => match decode raw with Ok m => Some m | _ => None end | _ => None end) moves.

Definition arrivals (moves : list move) : nat :=
  length (List.filter (λ v, match v with Arrive _ _ => true | _ => false end) moves).

#[local] Arguments arrived : simpl never.
#[local] Arguments arrivals : simpl never.

Definition held (a : Adapter) : list adaptable := map snd (map_to_list (aq_busy a)).

Record accounted (moves : list move) (a : Adapter) : Prop := {
  ac_messages : map snd (aq_published a) ++ held a ++ aq_work a ⊆+ arrived moves;
  ac_subjects : Forall (λ p, p.1 = replace_sender topic (ad_SenderID p.2)) (aq_published a);
  ac_bound : length (aq_work a) ≤ capacity;
  ac_in : aq_panicked a = false → aq_in a + aq_in_errors a = arrivals moves;
  ac_out : aq_in a = aq_out a + aq_out_errors a + size (aq_busy a) + length (aq_work a);
  ac_published : aq_out a = length (aq_published a);
}.

Lemma held_insert a i m : aq_busy a !! i = None → held (a <| aq_busy ::= <[i := m]> |>) ≡ₚ m :: held a.
Proof. intros H. unfold held. destruct a. cbn in *. by rewrite map_to_list_insert. Qed.

Lemma held_delete a i m : aq_busy a !! i = Some m → held a ≡ₚ m :: held (a <| aq_busy ::= delete i |>).
Proof. intros H. unfold held. destruct a. cbn in *. rewrite <- (map_to_list_delete _ i m H). done. Qed.

Lemma arrived_snoc moves v : arrived (moves ++ [v]) = arrived moves ++ arrived [v].
Proof. apply omap_app. Qed.

Lemma arrivals_snoc moves v : arrivals (moves ++ [v]) = arrivals moves + arrivals [v].
Proof. unfold arrivals. by rewrite List.filter_app, length_app. Qed.

Lemma adapter_step moves v a a' : accounted moves a → step v a = Some a' → accounted (moves ++ [v]) a'.
Proof.
  intros [Hm Hs Hb Hi Ho Hp] H. unfold step in H. destruct (aq_panicked a) eqn:Hpa; [done|]. specialize (Hi eq_refl).
  destruct v as [raw waiting|i|i ok].
  - unfold receive in H. assert (arrivals [Arrive raw waiting] = 1) as Hone by done.
    destruct (decode raw) as [m|e|p] eqn:Hd.
    + assert (arrived [Arrive raw waiting] = [m]) as Hm1 by (unfold arrived; cbn -[decode]; by rewrite Hd).
      destruct waiting as [i|].
      * destruct (bool_decide (aq_work a = [])) eqn:Hw; [|done]. destruct (bool_decide (aq_busy a !! i = None)) eqn:Hbi; [|done].
        apply bool_decide_eq_true in Hw. apply bool_decide_eq_true in Hbi. cbn in H. inversion H; subst a'. clear H.
        pose proof (held_insert a i m Hbi) as Hh. destruct a. cbn in *. subst. split; cbn; try done.
        -- rewrite arrived_snoc, Hm1. etrans; [|apply submseteq_app; [exact Hm|reflexivity]].
           apply Permutation_submseteq. rewrite Hh, !app_nil_r, <- app_assoc. f_equiv. apply Permutation_cons_append.
        -- intros _. rewrite arrivals_snoc, Hone. cbn in *. lia.
        -- rewrite map_size_insert_None by done. cbn in *. lia.
      * destruct (Nat.ltb_spec (length (aq_work a)) capacity); inversion H; subst a'; clear H; destruct a; cbn in *; subst; split; cbn; try done.
        -- rewrite arrived_snoc, Hm1, !app_assoc. apply submseteq_app; [|done]. by rewrite <- app_assoc.
        -- rewrite length_app. cbn. lia.
        -- intros _. rewrite arrivals_snoc, Hone. cbn in *. lia.
        -- rewrite length_app. cbn. lia.
        -- rewrite arrived_snoc. by apply submseteq_inserts_r.
        -- intros _. rewrite arrivals_snoc, Hone. cbn in *. lia.
    + inversion H; subst a'; clear H. destruct a; cbn in *; subst; split; cbn; try done.
      * rewrite arrived_snoc. by apply submseteq_inserts_r.
      * intros _. rewrite arrivals_snoc, Hone. cbn in *. lia.
    + inversion H; subst a'; clear H. destruct a; cbn in *; subst; split; cbn; try done.
      rewrite arrived_snoc. by apply submseteq_inserts_r.
  - unfold take_work in H. destruct (aq_busy a !! i) eqn:Hbi; [done|]. destruct (aq_work a) as [|m rest] eqn:Hw; [done|].
    inversion H; subst a'; clear H. pose proof (held_insert a i m Hbi) as Hh. destruct a; cbn in *; subst.
    split; cbn in *; try done; try lia.
    + rewrite arrived_snoc, app_nil_r. etrans; [|exact Hm].
      apply Permutation_submseteq. rewrite Hh. f_equiv. apply Permutation_middle.
    + intros _. rewrite arrivals_snoc. change (arrivals [TakeWork i]) with 0. cbn in *. lia.
    + rewrite map_size_insert_None by done. cbn in *. lia.
  - unfold publish in H. destruct (aq_busy a !! i) as [m|] eqn:Hbi; [|done]. pose proof (held_delete a i m Hbi) as Hh.
    assert (size (aq_busy a) = S (size (delete i (aq_busy a)))) as Hsz.
    { rewrite map_size_delete_Some by by eexists. assert (size (aq_busy a) ≠ 0); [|lia].
      intros E%map_size_empty_inv. by rewrite E in Hbi. }
    assert (arrived (moves ++ [PublishRaw i ok]) = arrived moves) as Ha by (rewrite arrived_snoc; apply app_nil_r).
    assert (arrivals (moves ++ [PublishRaw i ok]) = arrivals moves) as Hc by (rewrite arrivals_snoc; apply Nat.add_0_r).
    rewrite Hh in Hm. assert (map snd (aq_published a) ++ held (a <| aq_busy ::= delete i |>) ++ aq_work a ⊆+ arrived moves) as Hless.
    { etrans; [|exact Hm]. apply submseteq_app; [done|]. by apply submseteq_cons. }
    destruct (Marshal _); [destruct ok|]; inversion H; subst a'; clear H; destruct a; unfold held in *; cbn in *; subst; split; cbn in *;
      rewrite ?Ha, ?Hc; try done; try lia.
    + rewrite map_app, <- app_assoc. cbn. exact Hm.
    + by apply Forall_app_2; [|constructor].
    + rewrite length_app. cbn. lia.
Qed.

(** C23. An adapter loses nothing silently, in whatever order its receivers and publishers
    work: every message that could be read, apart from those that are counted as errors, is
    published, in the hands of one publisher or waiting, none of them twice; the subject of
    a published message is the configured one with the sender put in; the queue holds no
    more than its capacity; and on both sides the counters of successes and errors add up
    to the messages seen. *)
Theorem adapter_accounts moves a : run moves new_adapter = Some a → accounted moves a.
Proof.
  assert (∀ done_ a0, accounted done_ a0 → run moves a0 = Some a → accounted (done_ ++ moves) a) as Hrun.
  { induction moves as [|v rest IH]; intros done_ a0 Ha Hr; [by injection Hr as <-; rewrite app_nil_r|].
    cbn in Hr. destruct (step v a0) as [a1|] eqn:Hs; [|done]. cbn in Hr.
    rewrite (app_assoc done_ [v] rest : done_ ++ v :: rest = _). by eapply IH; [eapply adapter_step|]. }
  apply (Hrun [] new_adapter). split; try done; cbn; lia.
Qed.

End Process.

(** ** Witness *)

From S2P Require Import DemoJSON.

Definition demo_adapter_request : Request := {|
  rq_Type := V2; rq_Protocol := RequestV2; rq_MessageBody := ""; rq_RequestID := "r1"; rq_SenderID := "client"; rq_CallerID := "choria=me";
  rq_Collective := "mcollective"; rq_Agent := "registration"; rq_TTL := 60; rq_Time := 0; rq_Filter := None; rq_callerJWT := "";
  rq_signerJWT := ""; rq_seenBy := []; rq_federation := None |}.

Definition demo_registration : string :=
  match NewReplyTransportForMessage 10 "n1" "facts" demo_adapter_request with
  | Ok t => match transport_Marshal t with Some j => j | None => "" end
  | _ => ""
  end.

Definition demo_moves : list move :=
  [Arrive demo_registration (Some 0); Arrive "garbage" None; Arrive demo_registration None; PublishRaw 0 true;
   Arrive demo_registration None; TakeWork 0].

Definition demo_run : option Adapter := run (λ m, Some (mg_Data m)) ChoriaReply "facts.%s" 1 demo_moves new_adapter.

Definition demo_seen (a : Adapter) := (map fst (aq_published a), aq_in a, aq_in_errors a).

Lemma demo_adapter_runs : ∃ a, demo_run = Some a ∧ demo_seen a = (["facts.n1"], 2, 2).
Proof.
  assert (demo_seen <$> demo_run = Some (["facts.n1"], 2, 2)) as Hv by (vm_compute; reflexivity).
  revert Hv. generalize demo_run. intros [a|] Hv; [|discriminate Hv]. exists a. split; [done|]. cbn [fmap option_fmap option_map] in Hv. congruence.
Qed.

Lemma adapter_accounts_witness : ∃ a, demo_seen a = (["facts.n1"], 2, 2) ∧
  accounted ChoriaReply "facts.%s" 1 demo_moves a.
Proof.
  destruct demo_adapter_runs as (a & Hr & Hv). exists a. split; [exact Hv|]. unfold demo_run in Hr.
  exact (adapter_accounts _ _ _ _ _ _ Hr).
Defined.

(** A queue of negative length ends the broker. *)
Example negative_queue_panics :
  Create (λ k d, if String.eqb k "plugin.choria.adapter.facts.queue_len" then "-1" else d) (λ _, "") "facts" =
  Panic "makechan: size out of range".
Proof. reflexivity. Qed.
