(* ===== verification/Config.v ===== *)
(** * Configuration files

    config/config.go and config/util.go: how the files of a configuration are found and
    parsed and what is filled in afterwards.  The host, its names and the environment are
    arguments; the logger and colors are left out. *)
From S2P Require Import Prelude Records GoLib Regex Files Util Validator Tree Confkey.

Record Config := {
  cg_main : struct;
  cg_Choria : struct;
  cg_ConfigFile : string;
  cg_ParsedFiles : list string;
  cg_rawOpts : gmap string string;
  cg_InitiatedByServer : bool;
  cg_DisableSecurityProviderVerify : bool;
  cg_DisableTLS : bool;
  cg_DisableTLSVerify : bool;
}.

(** What the host says of itself: its name, its name in DNS and according to Facter, each
    empty when it is not known; and the collectives of the build. *)
Record host := {
  h_Hostname : res string;
  h_DNSFQDN : string;
  h_FacterFQDN : string;
  h_DefaultCollectives : string;
  h_Getwd : res string;
}.

Section Config.
Context `{TL : TimeLib} `{RX : Regexp}.
Variable env : string → option string.
Variable windows : bool.
Variable h : host.
Variable t : tree.

(** Errors of the defaults are logged. *)
Definition newChoria : struct := (SetStructDefaults env windows Choria_fields).1.

Definition newConfig : Config :=
  {| cg_main := (SetStructDefaults env windows Config_fields).1; cg_Choria := newChoria; cg_ConfigFile := "";
     cg_ParsedFiles := []; cg_rawOpts := ∅; cg_InitiatedByServer := false; cg_DisableSecurityProviderVerify := false;
     cg_DisableTLS := false; cg_DisableTLSVerify := false |}.

(** ** Parsing *)

(** [(.+?)\s*=\s*(.+)] and [^#|^$] *)
Definition itemr : re :=
  Seq (Group 1 (Plus false any_char))
    (Seq (Star true space_char) (Seq (chr "=") (Seq (Star true space_char) (Group 2 (Plus true any_char))))).
Definition skipr : re := Alt (Seq Bol (chr "#")) (Seq Bol Eol).

(** The setting of a line, if it has one. *)
Definition parse_line (prefix line : string) : option (string * string) :=
  let line := trim_space line in
  if re_match skipr line then None
  else match re_search itemr line with
       | None => None
       | Some m =>
           let key := submatch m 1 in
           Some (if String.eqb prefix "" then key else prefix +:+ "." +:+ key, submatch m 2)
       end.

(** One line: the settings so far, the structure it is for, if any, and what was found.  A
    setting that is refused is found all the same; a panic ends the program. *)
Definition parse_step (prefix : string) (acc : outcome string (option struct * gmap string string)) (line : string) :
    outcome string (option struct * gmap string string) :=
  '(config, found) ← acc;
  match parse_line prefix line with
  | None => Ok (config, found)
  | Some (key, v) =>
      match config with
      | None => Ok (None, <[key := v]> found)
      | Some target =>
          match SetStructFieldWithKey env windows key v target with
          | (_, Panic p) => Panic p
          | (target, _) => Ok (Some target, <[key := v]> found)
          end
      end
  end.

Definition parseConfigContents (content : string) (config : option struct) (prefix : string) (found : gmap string string) :
    res (option struct * gmap string string) :=
  fold_left (parse_step prefix) (scan_lines content).1 (Ok (config, found)).

(** A directory can be opened, but no line read. *)
Definition open_file (path : string) : res string :=
  match t !! path_clean path with
  | Some (File content) => Ok content
  | Some Dir => Ok ""
  | None => Err (error_text path ErrNotExist)
  end.

(** [parseConfig] into one of the structures or none. *)
Inductive target := MainTarget | ChoriaTarget | NoTarget.

Definition parseConfig (path : string) (into : target) (prefix : string) (c : Config) : res Config :=
  content ← open_file path;
  let c := match into with MainTarget => c <| cg_ParsedFiles ::= λ l, l ++ [path] |> | _ => c end in
  let config := match into with MainTarget => Some (cg_main c) | ChoriaTarget => Some (cg_Choria c) | NoTarget => None end in
  '(config, found) ← parseConfigContents content config prefix (cg_rawOpts c);
  let c := c <| cg_rawOpts := found |> in
  Ok match into, config with
     | MainTarget, Some s => c <| cg_main := s |>
     | ChoriaTarget, Some s => c <| cg_Choria := s |>
     | _, _ => c
     end.

(** ** Finding files *)

Definition dotdDir (c : Config) : string :=
  match HomeDir env windows with
  | Ok home => if has_prefix (cg_ConfigFile c) home then "" else path_join [path_dir (cg_ConfigFile c); "plugin.d"]
  | _ => path_join [path_dir (cg_ConfigFile c); "plugin.d"]
  end.

(** The file of a plugin is always a [.cfg]. *)
Definition parseDotConfFile (plugin : string) (into : target) (c : Config) : res Config :=
  let cfgPath := path_join [dotdDir c; plugin +:+ ".cfg"] in
  if FileExist t cfgPath then
    c ← parseConfig cfgPath into ("plugin." +:+ plugin) c;
    Ok (c <| cg_ParsedFiles ::= λ l, l ++ [cfgPath] |>)
  else Ok c.

(** The entries of a directory by name. *)
Definition ReadDir (dir : string) : list string :=
  sort_strings (omap (M:=list) (λ kv, if under dir kv.1 && String.eqb (path_dir kv.1) dir then Some (path_base kv.1) else None)
                  (map_to_list t)).

Fixpoint parse_dot_files (files : list string) (c : Config) : res Config :=
  match files with
  | [] => Ok c
  | file :: rest =>
      let ext := path_ext file in
      if elem ext [".cfg"; ".conf"] then
        let base := path_base file in
        let into := if String.eqb base "choria.cfg" then ChoriaTarget else NoTarget in
        c ← parseDotConfFile (trim_suffix base (path_ext base)) into c;
        parse_dot_files rest c
      else parse_dot_files rest c
  end.

Definition parseAllDotCfg (c : Config) : res Config :=
  let dir := dotdDir c in
  if String.eqb dir "" then Ok c
  else if negb (FileIsDir t dir) then Ok c
  else parse_dot_files (ReadDir dir) c.

(** The recursion goes from a directory to its parent until it is its own parent. *)
Fixpoint project_files (fuel : nat) (path : string) : list string :=
  match fuel with
  | O => []
  | S fuel =>
      let parent := path_dir path in
      let res := if String.eqb parent path then [] else project_files fuel parent in
      let config := path_join [path; "choria.conf"] in
      res ++ (if FileExist t config then [config] else [])
  end.

Definition ProjectConfigurationFiles (path : string) : list string :=
  let path := if has_prefix path "/" then path else path_join ["/"; path] in
  project_files (S (String.length path)) path.

(** ** Completing *)

Definition field_of (name : string) (s : struct) : value := default (VString "") (option_map c_value (FieldByName s name)).
Definition string_of (v : value) : string := match v with VString s => s | _ => "" end.
Definition strings_of (v : value) : list string := match v with VStrings l => l | _ => [] end.
Definition bool_of (v : value) : bool := match v with VBool b => b | _ => false end.

Definition main_string (name : string) (c : Config) : string := string_of (field_of name (cg_main c)).
Definition choria_string (name : string) (c : Config) : string := string_of (field_of name (cg_Choria c)).
Definition choria_bool (name : string) (c : Config) : bool := bool_of (field_of name (cg_Choria c)).
Definition Collectives (c : Config) : list string := strings_of (field_of "Collectives" (cg_main c)).

Definition set_main (name : string) (v : value) (c : Config) : Config := c <| cg_main ::= set_value name v |>.
Definition set_choria (name : string) (v : value) (c : Config) : Config := c <| cg_Choria ::= set_value name v |>.

Definition with_collectives (c : Config) : Config :=
  if Nat.eqb (length (Collectives c)) 0 then
    let l := map trim_space (split (h_DefaultCollectives h) ",") in
    let l := if String.eqb (choria_string "SecurityProvider" c) "choria" && bool_decide (l = ["mcollective"]) then ["choria"] else l in
    set_main "Collectives" (VStrings l) c
  else c.

(** The first collective is out of range when there is none. *)
Definition with_main_collective (c : Config) : res Config :=
  if String.eqb (main_string "MainCollective" c) "" then
    match Collectives c with
    | first :: _ => Ok (set_main "MainCollective" (VString first) c)
    | [] => Panic "index out of range [0] with length 0"
    end
  else Ok c.

Definition with_registration_collective (c : Config) : Config :=
  if String.eqb (main_string "RegistrationCollective" c) ""
  then set_main "RegistrationCollective" (VString (main_string "MainCollective" c)) c else c.

Definition count_dots (s : string) : nat := length (List.filter (Ascii.eqb ".") (String.list_ascii_of_string s)).

Definition host_identity (hn : string) : string :=
  if Nat.ltb 1 (count_dots hn) then hn
  else if negb (String.eqb (h_DNSFQDN h) "localhost") && negb (String.eqb (h_DNSFQDN h) "") then h_DNSFQDN h
  else if negb (String.eqb (h_FacterFQDN h) "") then h_FacterFQDN h
  else hn.

Definition with_identity (c : Config) : res Config :=
  if String.eqb (main_string "Identity" c) "" then
    hn ← map_err (λ e, "could not determine hostname: " +:+ e) (h_Hostname h);
    if String.eqb (host_identity hn) ""
    then Err "could not determine identity from os.Hostname or facter, please set identity in the configuration"
    else Ok (set_main "Identity" (VString (host_identity hn)) c)
  else Ok c.

Definition with_log_level (c : Config) : Config :=
  if String.eqb (main_string "LogLevel" c) "" then set_main "LogLevel" (VString "debug") c else c.

Definition without_verification (c : Config) : Config :=
  c <| cg_DisableTLSVerify := true |> <| cg_DisableSecurityProviderVerify := true |>.

Definition with_client_tls (c : Config) : res Config :=
  if choria_bool "ClientAnonTLS" c then
    if String.eqb (choria_string "RemoteSignerURL" c) "" && negb (choria_bool "RemoteSignerService" c)
    then Err "anonymous TLS can only be enabled when a remote signer is configured"
    else Ok (without_verification c)
  else Ok c.

(** A file of the server next to its configuration. *)
Definition with_server_file (name file : string) (c : Config) : res Config :=
  if String.eqb (choria_string name c) "" then
    if String.eqb (cg_ConfigFile c) "" then Err "cannot determine path to server token file"
    else Ok (set_choria name (VString (path_join [path_dir (cg_ConfigFile c); file])) c)
  else Ok c.

Definition with_server_tls (c : Config) : res Config :=
  if choria_bool "ServerAnonTLS" c then
    c ← with_server_file "ServerTokenFile" "server.jwt" (without_verification c);
    with_server_file "ServerTokenSeedFile" "server.seed" c
  else Ok c.

Definition normalize (c : Config) : res Config :=
  c ← with_main_collective (with_collectives c);
  c ← with_identity (with_registration_collective c);
  c ← with_client_tls (with_log_level c);
  c ← with_server_tls c;
  Ok (if windows then set_main "Color" (VBool false) c else c).

(** ** Loading *)

Fixpoint parse_projects (files : list string) (c : Config) : res Config :=
  match files with
  | [] => Ok c
  | pp :: rest =>
      c ← parseConfig pp MainTarget "" c;
      c ← parseConfig pp ChoriaTarget "" c;
      parse_projects rest c
  end.

Definition loadConfigFiles (path : string) (projects : bool) (c : Config) : res Config :=
  let path := if has_prefix path "/" then path else path_join ["/"; path] in
  c ← parseConfig path MainTarget "" (c <| cg_ConfigFile := path |>);
  c ← parseConfig path ChoriaTarget "" c;
  c ← parseAllDotCfg c;
  c ← (if projects then pwd ← h_Getwd h; parse_projects (ProjectConfigurationFiles pwd) c else Ok c);
  normalize c.

Definition NewConfig (path : string) : res Config := loadConfigFiles path true newConfig.

Definition NewSystemConfig (path : string) (server : bool) : res Config :=
  loadConfigFiles path false (newConfig <| cg_InitiatedByServer := server |>).

Definition NewDefaultConfig : res Config := normalize newConfig.

Definition NewDefaultSystemConfig (server : bool) : res Config := normalize (newConfig <| cg_InitiatedByServer := server |>).

End Config.

(** ** Options *)

Definition ApplyBuildSettings (hasTLS : bool) (c : Config) : Config := c <| cg_DisableTLS := negb hasTLS |>.
Definition HasOption (c : Config) (option : string) : bool := bool_decide (is_Some (cg_rawOpts c !! option)).
Definition Option (c : Config) (option deflt : string) : string := default deflt (cg_rawOpts c !! option).
Definition SetOption (option value : string) (c : Config) : Config := c <| cg_rawOpts ::= <[option := value]> |>.

Definition ConfigKeys `{Regexp} (c : Config) (re : string) : res (list string) :=
  keys ← FindFields (cg_main c) re;
  keys' ← FindFields (cg_Choria c) re;
  Ok (sort_strings (keys ++ keys')).

(** * Theorems on the configuration

    Defaults, what is read back of a configuration that was written, and what a loaded
    configuration always has. *)
From S2P Require Import GoNum DemoLibs.

Section Defaults.
Context `{TL : TimeLib} `{RX : Regexp}.
Variable env : string → option string.
Variable windows : bool.

(** ** Defaults *)

Definition default_text (f : cfield) : option string :=
  match lookup_tag "confkey" f, lookup_tag "default" f with
  | Some _, Some v => Some match lookup_tag "environment" f with Some tag => default v (env tag) | None => v end
  | _, _ => None
  end.

(** A field with the value of its default. *)
Definition with_value (f : cfield) (x : value) : cfield := {| c_name := c_name f; c_tags := c_tags f; c_value := x |}.

Definition with_default (f : cfield) : cfield :=
  match default_text f with
  | Some v => match converted env windows (lookup_tag "type" f) (c_value f) v with Ok x => with_value f x | _ => f end
  | None => f
  end.

Definition field_valid (f : cfield) : res () :=
  let 'Field n tag v := to_field f in validate_value n (trim_space tag) v.

Definition default_ok (f : cfield) : Prop :=
  match default_text f with
  | Some v => is_ok (converted env windows (lookup_tag "type" f) (c_value f) v) = true ∧ field_valid (with_default f) = Ok tt
  | None => True
  end.

Lemma find_app {A} (p : A → bool) l1 l2 : (∀ x, x ∈ l1 → p x = false) → List.find p (l1 ++ l2) = List.find p l2.
Proof.
  induction l1 as [|x l1 IH]; intros H; [done|]. cbn. rewrite (H x) by set_solver. apply IH. intros y Hy. apply H. set_solver.
Qed.

Lemma with_value_tags f x tag : lookup_tag tag (with_value f x) = lookup_tag tag f.
Proof. done. Qed.

Lemma with_default_same f : c_name (with_default f) = c_name f ∧ ∀ tag, lookup_tag tag (with_default f) = lookup_tag tag f.
Proof. unfold with_default. destruct (default_text f); [|done]. by destruct (converted _ _ _ _ _). Qed.

Lemma Tag_unique l1 f l2 tag : (∀ g, g ∈ l1 ++ l2 → c_name g ≠ c_name f) → Tag (l1 ++ f :: l2) (c_name f) tag = lookup_tag tag f.
Proof.
  intros H. assert (∀ l, (∀ g, g ∈ l → c_name g ≠ c_name f) → Tag l (c_name f) tag = None) as Hnone.
  { induction l as [|g l IH]; intros Hl; [done|]. cbn. rewrite (proj2 (String.eqb_neq _ _)) by (apply Hl; set_solver). apply IH. set_solver. }
  induction l1 as [|g l1 IH]; cbn [app Tag].
  - rewrite String.eqb_refl, Hnone by set_solver. by destruct (lookup_tag tag f).
  - rewrite (proj2 (String.eqb_neq _ _)) by (apply H; set_solver). apply IH. set_solver.
Qed.

Lemma set_value_unique l1 f l2 x : (∀ g, g ∈ l1 ++ l2 → c_name g ≠ c_name f) →
  set_value (c_name f) x (l1 ++ f :: l2) = l1 ++ with_value f x :: l2.
Proof.
  intros H. unfold set_value. rewrite map_app. cbn [map]. rewrite String.eqb_refl.
  assert (∀ l, (∀ g, g ∈ l → c_name g ≠ c_name f) →
    map (λ g, if String.eqb (c_name g) (c_name f) then {| c_name := c_name g; c_tags := c_tags g; c_value := x |} else g) l = l) as Hid.
  { induction l as [|g l IH]; intros Hl; [done|]. cbn. rewrite (proj2 (String.eqb_neq _ _)) by (apply Hl; set_solver).
    f_equal. apply IH. set_solver. }
  by rewrite !Hid by set_solver.
Qed.

Lemma ValidateField_unique l1 f l2 : (∀ g, g ∈ l1 ++ l2 → c_name g ≠ c_name f) →
  ValidateField (l1 ++ f :: l2) (c_name f) = field_valid f.
Proof.
  intros H. unfold ValidateField, ValidateStructField.
  assert (list_find (λ g, field_name g = c_name f) (map to_field (l1 ++ f :: l2)) = Some (length l1, to_field f)) as ->; [|done].
  apply list_find_Some. split_and!.
  - rewrite map_app, lookup_app_r by (by rewrite length_map). rewrite length_map, Nat.sub_diag. done.
  - done.
  - intros j y Hy Hj. rewrite map_app, lookup_app_l in Hy by (by rewrite length_map).
    apply list_lookup_fmap_Some in Hy as (g & -> & Hg). cbn. apply H. apply elem_of_app. left. by eapply list_elem_of_lookup_2.
Qed.

(** Setting the field with a key that no other field has. *)
Lemma set_unique l1 f l2 key v :
  (∀ g, g ∈ l1 ++ l2 → c_name g ≠ c_name f) → (∀ g, g ∈ l1 → lookup_tag "confkey" g ≠ Some key) →
  lookup_tag "confkey" f = Some key →
  SetStructFieldWithKey env windows key v (l1 ++ f :: l2) =
    let text := match lookup_tag "environment" f with Some tag => default v (env tag) | None => v end in
    match converted env windows (lookup_tag "type" f) (c_value f) text with
    | Ok x => (l1 ++ with_value f x :: l2, field_valid (with_value f x))
    | Err e => (l1 ++ with_value f (half_set (lookup_tag "type" f) (c_value f) text) :: l2, Err e)
    | Panic p => (l1 ++ with_value f (half_set (lookup_tag "type" f) (c_value f) text) :: l2, Panic p)
    end.
Proof.
  intros Hn Hk Hf. unfold SetStructFieldWithKey, FieldWithKey.
  rewrite find_app by (intros g Hg; unfold has_key; destruct (lookup_tag "confkey" g) eqn:E; [|done];
    apply String.eqb_neq; intros ->; by apply (Hk g Hg)).
  cbn [List.find]. unfold has_key at 1. rewrite Hf, String.eqb_refl. unfold FieldByName.
  rewrite find_app by (intros g Hg; apply String.eqb_neq, Hn; set_solver).
  cbn [List.find]. rewrite String.eqb_refl, !Tag_unique by done. cbv zeta.
  destruct (converted _ _ _ _ _); rewrite set_value_unique by done; [|done..].
  f_equal. by apply (ValidateField_unique l1 (with_value f a) l2).
Qed.

(** Every field of a structure gets its own default: if names and keys are unique and each
    default converts and is valid, setting the defaults succeeds and leaves each field with
    the conversion of its default, or of the environment's text for it, and fields without a
    default as they were. *)
Lemma defaults_set (target : struct) :
  NoDup (map c_name target) → NoDup (omap (lookup_tag "confkey") target) → (∀ f, f ∈ target → default_ok f) →
  SetStructDefaults env windows target = (map with_default target, Ok tt).
Proof.
  unfold SetStructDefaults. intros Hnames Hkeys Hok.
  enough (∀ todo done, target = done ++ todo →
    set_defaults env windows todo (map with_default done ++ todo) = (map with_default target, Ok tt)) as H by exact (H target [] eq_refl).
  induction todo as [|f todo IH]; intros done Ht.
  { cbn. rewrite !app_nil_r in *. by subst. }
  assert (map with_default (done ++ [f]) ++ todo = map with_default done ++ with_default f :: todo) as Happ
    by (rewrite map_app, <- app_assoc; done).
  specialize (IH (done ++ [f])). rewrite Happ in IH. specialize (IH ltac:(by rewrite Ht, <- app_assoc)).
  cbn [set_defaults]. specialize (Hok f ltac:(rewrite Ht; set_solver)).
  assert (∀ key v, lookup_tag "confkey" f = Some key → lookup_tag "default" f = Some v →
    SetStructFieldWithKey env windows key v (map with_default done ++ f :: todo) = (map with_default done ++ with_default f :: todo, Ok tt)) as Hset.
  { intros key v Hk Hv. rewrite set_unique; [| | |done].
    - unfold default_ok, with_default, default_text in Hok |- *. rewrite Hk, Hv in Hok |- *. cbv zeta.
      destruct (converted _ _ _ _ _); [|by destruct Hok..]. by destruct Hok as [_ ->].
    - rewrite Ht, map_app in Hnames. apply NoDup_app in Hnames as (_ & Hd & Hn). cbn in Hn. apply NoDup_cons in Hn as [Hn _].
      intros g [Hg|Hg]%elem_of_app He.
      + apply list_elem_of_fmap in Hg as (g' & -> & Hg'). rewrite (proj1 (with_default_same g')) in He.
        apply (Hd (c_name g')); [by apply list_elem_of_fmap_2|]. rewrite He. cbn. set_solver.
      + apply Hn. rewrite <- He. by apply list_elem_of_fmap_2.
    - rewrite Ht, omap_app in Hkeys. apply NoDup_app in Hkeys as (_ & Hd & _).
      intros g Hg He. apply list_elem_of_fmap in Hg as (g' & -> & Hg'). rewrite (proj2 (with_default_same g')) in He.
      apply (Hd key); [apply list_elem_of_omap; by exists g'|]. apply list_elem_of_omap. exists f. set_solver. }
  destruct (lookup_tag "confkey" f) as [key|] eqn:Hk; [destruct (lookup_tag "default" f) as [v|] eqn:Hv|].
  - unfold mbind, ST_bind. by rewrite (Hset key v).
  - assert (with_default f = f) as Hf by (unfold with_default, default_text; by rewrite Hk, Hv). by rewrite Hf in IH.
  - assert (with_default f = f) as Hf by (unfold with_default, default_text; by rewrite Hk). by rewrite Hf in IH.
Qed.

End Defaults.

(** ** The defaults of the configuration *)

Section Schema.
Context `{TL : TimeLib} `{RX : Regexp}.
Variable env : string → option string.
Variable windows : bool.

(** Durations are numbers with a unit that package time knows, without white space. *)
Definition duration_default (f : cfield) : option string :=
  match c_value f, lookup_tag "type" f, lookup_tag "default" f with
  | VInt64 _, Some "duration", Some d => Some d
  | _, _, _ => None
  end.

Definition plain_duration (f : cfield) (d : string) : bool :=
  negb (all_digits d) && String.eqb (trim_space d) d && negb (Nat.eqb (String.length d) 0) &&
  elem (drop_bytes (String.length d - 1) d) ["s"; "m"; "h"] &&
  bool_decide (lookup_tag "environment" f = None) && bool_decide (lookup_tag "validate" f = None).

Lemma plain_duration_ok f d n : duration_default f = Some d → plain_duration f d = true → time_ParseDuration d = Some n →
  default_ok env windows f.
Proof.
  unfold duration_default, plain_duration. intros Hd Hp Hn.
  apply andb_prop in Hp as [Hp Hval%bool_decide_eq_true]. apply andb_prop in Hp as [Hp Henv%bool_decide_eq_true].
  apply andb_prop in Hp as [Hp Hunit%elem_true]. apply andb_prop in Hp as [Hp Hlen%negb_true_iff].
  apply andb_prop in Hp as [Hdig%negb_true_iff Htrim%String.eqb_eq].
  destruct (c_value f) as [| |z| |] eqn:Hx; try done. destruct (lookup_tag "type" f) as [ty|] eqn:Hty; [|done].
  assert (ty = "duration" ∧ lookup_tag "default" f = Some d) as [-> Hdef].
  { repeat (destruct ty as [|c ty]; try done; destruct c as [[] [] [] [] [] [] [] []]; try done).
    all: destruct ty; try done; destruct (lookup_tag "default" f); by inversion Hd. }
  assert (set_duration d = Ok n) as Hset.
  { unfold set_duration. rewrite Hdig. unfold ParseDuration. rewrite Htrim, Hlen.
    rewrite !elem_of_cons in Hunit. destruct Hunit as [->|[->|[->|H1]]]; [by rewrite Hn..|by apply not_elem_of_nil in H1]. }
  assert (converted env windows (lookup_tag "type" f) (c_value f) d = Ok (VInt64 n)) as Hconv.
  { rewrite Hx, Hty. cbn [converted]. by rewrite Hset. }
  unfold default_ok, with_default, default_text. destruct (lookup_tag "confkey" f) as [key|] eqn:Hk; [|done].
  rewrite Hdef, Henv, Hconv. split; [done|]. unfold field_valid, to_field. by rewrite with_value_tags, Hval.
Qed.

Definition default_okb (f : cfield) : bool :=
  match default_text env f with
  | Some v => is_ok (converted env windows (lookup_tag "type" f) (c_value f) v) && is_ok (field_valid (with_default env windows f))
  | None => true
  end.

Lemma default_okb_ok f : default_okb f = true → default_ok env windows f.
Proof.
  unfold default_okb, default_ok. destruct (default_text env f); [|done]. intros [? H]%andb_prop. split; [done|].
  apply is_ok_Ok in H as [[] ?]. done.
Qed.

Definition schema : struct := Config_fields ++ Choria_fields.

Lemma schema_checked : forallb (λ f, match duration_default f with Some d => plain_duration f d | None => default_okb f end) schema = true.
Proof. lazy. reflexivity. Qed.

Lemma schema_names : NoDup (map c_name Config_fields) ∧ NoDup (map c_name Choria_fields) ∧ NoDup (omap (lookup_tag "confkey") schema).
Proof. split_and!; apply (bool_decide_unpack _); vm_compute; exact I. Qed.

Lemma schema_ok f : (∀ g d, g ∈ schema → duration_default g = Some d → is_Some (time_ParseDuration d)) →
  f ∈ schema → default_ok env windows f.
Proof.
  intros Hdur Hf. pose proof schema_checked as Hc. rewrite forallb_elem_of in Hc. specialize (Hc f Hf). cbv beta in Hc.
  destruct (duration_default f) as [d|] eqn:Hd; [|by apply default_okb_ok].
  destruct (Hdur f d Hf Hd) as [n Hn]. by eapply plain_duration_ok.
Qed.

(** C34. The defaults of the configuration are sound: no two of its settings share a key,
    every default converts to the type of its field and passes its validation, in any
    environment, so that a new configuration has in each field its own default, the
    durations being among those package time reads. *)
Theorem configuration_defaults_are_sound :
  (∀ f d, f ∈ schema → duration_default f = Some d → is_Some (time_ParseDuration d)) →
  NoDup (omap (lookup_tag "confkey") schema) ∧
  cg_main (newConfig env windows) = map (with_default env windows) Config_fields ∧
  cg_Choria (newConfig env windows) = map (with_default env windows) Choria_fields ∧
  (∀ f, f ∈ schema → default_ok env windows f).
Proof.
  intros Hdur. destruct schema_names as (Hn1 & Hn2 & Hk). split; [done|].
  pose proof Hk as Hk'. unfold schema in Hk'. rewrite omap_app in Hk'. apply NoDup_app in Hk' as (Hk1 & _ & Hk2).
  assert (∀ f, f ∈ schema → default_ok env windows f) as Hok by (intros f; by apply schema_ok).
  split_and!; [| |done].
  - exact (f_equal fst (defaults_set env windows Config_fields Hn1 Hk1 (λ f Hf, Hok f (proj2 (elem_of_app _ _ _) (or_introl Hf))))).
  - exact (f_equal fst (defaults_set env windows Choria_fields Hn2 Hk2 (λ f Hf, Hok f (proj2 (elem_of_app _ _ _) (or_intror Hf))))).
Qed.

End Schema.

Lemma demo_durations f d : f ∈ schema → duration_default f = Some d → is_Some (time_ParseDuration d).
Proof.
  intros Hf Hd. assert (forallb (λ f, match duration_default f with Some d => bool_decide (is_Some (time_ParseDuration d)) | None => true end) schema = true) as H
    by (vm_compute; reflexivity).
  rewrite forallb_elem_of in H. specialize (H f Hf). cbv beta in H. rewrite Hd in H. by apply bool_decide_eq_true in H.
Qed.

Lemma configuration_defaults_are_sound_witness :
  main_string "LogLevel" (newConfig (λ _, None) false) = "info" ∧ NoDup (omap (lookup_tag "confkey") schema).
Proof.
  destruct (configuration_defaults_are_sound (λ _, None) false demo_durations) as (Hn & Hm & _ & _). split; [|exact Hn].
  unfold main_string. rewrite Hm. vm_compute. reflexivity.
Defined.

(** ** Settings that are written and read *)

Definition starts_plain (s : string) : Prop := match s with String c _ => is_space c = false | "" => False end.

(** A key and a value as they can stand in a line: no white space around them. *)
Definition one_line (s : string) : Prop := no_byte newline_char s.
Definition trimmed (s : string) : Prop := s ≠ "" ∧ trim_space s = s.
Definition clean_key (k : string) : Prop := trimmed k ∧ has_prefix k "#" = false ∧ no_byte "=" k ∧ one_line k.
Definition clean_value (v : string) : Prop := trimmed v ∧ one_line v.

Lemma rev_string_append a b : rev_string (a +:+ b) = rev_string b +:+ rev_string a.
Proof. unfold rev_string. by rewrite bytes_append, rev_app_distr, of_bytes_app. Qed.

Lemma rev_string_twice s : rev_string (rev_string s) = s.
Proof.
  unfold rev_string. by rewrite String.list_ascii_of_string_of_list_ascii, rev_involutive, String.string_of_list_ascii_of_string.
Qed.

(** *** Trimming white space *)

Lemma rev_string_length s : String.length (rev_string s) = String.length s.
Proof.
  unfold rev_string. induction s as [|a s IH]; [done|]. cbn [String.list_ascii_of_string rev].
  rewrite of_bytes_app, length_append, IH. cbn. lia.
Qed.

Lemma space_rune2_high a b : space_rune2 a b = true → 128 ≤ nat_of_ascii a ∧ 128 ≤ nat_of_ascii b.
Proof.
  unfold space_rune2. intros [Ha%Nat.eqb_eq Hb]%andb_prop. apply existsb_exists in Hb as (n & Hn & Hb%Nat.eqb_eq).
  cbn in Hn. lia.
Qed.

Lemma space_rune3_high a b c : space_rune3 a b c = true →
  128 ≤ nat_of_ascii a ∧ 128 ≤ nat_of_ascii b ∧ 128 ≤ nat_of_ascii c.
Proof.
  unfold space_rune3. intros H. apply existsb_exists in H as ([[x y] z] & Hin & [[Ha Hb]%andb_prop Hc]%andb_prop).
  apply Nat.eqb_eq in Ha, Hb. apply existsb_exists in Hc as (n & Hn & Hc%Nat.eqb_eq). cbn in Hin.
  repeat (destruct Hin as [[= <- <- <-]|Hin]; [cbn in Hn; lia|]). done.
Qed.

(** Bytes of ASCII are in no other rune. *)
Definition low (c : ascii) : Prop := nat_of_ascii c < 128.

Section Width.
Variable rune2 : ascii → ascii → bool.
Variable rune3 : ascii → ascii → ascii → bool.
Hypothesis rune2_high : ∀ a b, rune2 a b = true → 128 ≤ nat_of_ascii a ∧ 128 ≤ nat_of_ascii b.
Hypothesis rune3_high : ∀ a b c, rune3 a b c = true → 128 ≤ nat_of_ascii a ∧ 128 ≤ nat_of_ascii b ∧ 128 ≤ nat_of_ascii c.
Let width := space_width rune2 rune3.

Lemma rune2_low a b : low a ∨ low b → rune2 a b = false.
Proof. unfold low. destruct (rune2 a b) eqn:E; [apply rune2_high in E; lia|done]. Qed.

Lemma rune3_low a b c : low a ∨ low b ∨ low c → rune3 a b c = false.
Proof. unfold low. destruct (rune3 a b c) eqn:E; [apply rune3_high in E; lia|done]. Qed.

Lemma width_length s : width s ≤ String.length s.
Proof.
  unfold width, space_width. destruct s as [|a [|b [|c s]]]; cbn [String.length]; [lia|destruct (is_space a); lia|..].
  - destruct (is_space a), (rune2 a b); lia.
  - destruct (is_space a), (rune2 a b), (rune3 a b c); lia.
Qed.

Lemma width_plain s : s ≠ "" → width s = 0 → starts_plain s.
Proof. destruct s as [|a s]; [done|]. unfold width, space_width, starts_plain. by destruct (is_space a). Qed.

(** What follows does not matter when it starts with a byte of ASCII. *)
Lemma width_append s c r : s ≠ "" → width s = 0 → low c → width (s +:+ String c r) = 0.
Proof.
  intros Hne H0 Hc. unfold width, space_width in *. destruct s as [|a [|b [|x s]]]; [done|..]; rewrite ?append_cons in *; change ("" +:+ ?x) with x;
    destruct (is_space a); try done.
  - rewrite rune2_low by auto. destruct r; [done|]. by rewrite rune3_low by auto.
  - destruct (rune2 a b); [done|]. by rewrite rune3_low by auto.
Qed.

Lemma width_before s a : low a → is_space a = false → width (s +:+ String a "") ≤ String.length s.
Proof.
  intros Ha Hs. unfold width, space_width. destruct s as [|x [|y [|z s]]]; rewrite ?append_cons; change ("" +:+ String a "") with (String a ""); cbn [String.length].
  - by rewrite Hs.
  - destruct (is_space x); [lia|]. rewrite rune2_low by auto. lia.
  - destruct (is_space x), (rune2 x y); [lia..|]. rewrite rune3_low by auto. lia.
  - destruct (is_space x), (rune2 x y), (rune3 x y z); lia.
Qed.

Lemma drop_length k s : k ≤ String.length s → String.length (drop_bytes k s) = String.length s - k.
Proof.
  revert s. induction k as [|k IH]; intros s H; [cbn; lia|]. destruct s as [|a s]; cbn in *; [lia|]. rewrite IH by lia. lia.
Qed.

Lemma drop_append k s r : k ≤ String.length s → drop_bytes k (s +:+ r) = drop_bytes k s +:+ r.
Proof.
  revert s. induction k as [|k IH]; intros s H; [done|]. destruct s as [|a s]; cbn in H; [lia|].
  rewrite append_cons. cbn. apply IH. lia.
Qed.

Lemma trim_runes_none n s : width s = 0 → trim_runes width n s = s.
Proof. intros H. destruct n; [done|]. cbn [trim_runes]. by rewrite H. Qed.

Lemma trim_runes_shorter n s : String.length (trim_runes width n s) ≤ String.length s ∧
  (n ≠ 0 → width s ≠ 0 → String.length (trim_runes width n s) < String.length s).
Proof.
  revert s. induction n as [|n IH]; intros s; [cbn; split; [lia|done]|]. cbn [trim_runes]. pose proof (width_length s) as Hl.
  destruct (width s) as [|k]; [split; [lia|done]|]. pose proof (drop_length (S k) s Hl) as Hd.
  destruct (IH (drop_bytes (S k) s)) as [H _]. split; [lia|intros _ _; lia].
Qed.

Lemma trim_runes_same s : s ≠ "" → trim_runes width (String.length s) s = s → width s = 0.
Proof.
  intros Hne H. destruct (trim_runes_shorter (String.length s) s) as [_ Hs]. rewrite H in Hs.
  destruct (width s); [done|]. destruct s; [done|]. specialize (Hs ltac:(done) ltac:(done)). lia.
Qed.

(** A last byte of ASCII that is no white space stays. *)
Lemma trim_runes_keeps a n s : low a → is_space a = false → ∃ t, trim_runes width n (s +:+ String a "") = t +:+ String a "".
Proof.
  intros Ha Hs. revert s. induction n as [|n IH]; intros s; [by exists s|]. cbn [trim_runes].
  pose proof (width_before s a Ha Hs) as Hw. destruct (width (s +:+ String a "")) as [|k]; [by exists s|].
  rewrite drop_append by done. apply IH.
Qed.

End Width.

Lemma right_rune2_high a b : space_rune2 b a = true → 128 ≤ nat_of_ascii a ∧ 128 ≤ nat_of_ascii b.
Proof. intros []%space_rune2_high. auto. Qed.

Lemma right_rune3_high a b c : space_rune3 c b a = true → 128 ≤ nat_of_ascii a ∧ 128 ≤ nat_of_ascii b ∧ 128 ≤ nat_of_ascii c.
Proof. intros (? & ? & ?)%space_rune3_high. auto. Qed.

Lemma trimmed_widths s : trimmed s ↔ s ≠ "" ∧ left_width s = 0 ∧ right_width (rev_string s) = 0.
Proof.
  unfold trimmed, trim_space, trim_left_space, trim_right_space. split.
  - intros [Hne H]. destruct (trim_runes_shorter space_rune2 space_rune3 (String.length s) s) as [Hl1 Hl2].
    set (u := trim_runes _ _ s) in *. change (trim_runes left_width (String.length s) s) with u in H.
    pose proof (f_equal String.length H) as HL. rewrite rev_string_length in HL.
    destruct (trim_runes_shorter (λ b a, space_rune2 a b) (λ c b a, space_rune3 a b c) (String.length u) (rev_string u)) as [Hr1 Hr2].
    change (space_width (λ b a, space_rune2 a b) (λ c b a, space_rune3 a b c)) with right_width in *.
    rewrite rev_string_length in Hr1, Hr2.
    assert (String.length u = String.length s) as Hu by lia.
    assert (left_width s = 0) as H0.
    { destruct (left_width s) eqn:E; [done|]. specialize (Hl2 ltac:(by destruct s)). unfold left_width in E. rewrite E in Hl2.
      specialize (Hl2 ltac:(done)). lia. }
    assert (u = s) as -> by by apply trim_runes_none. split_and!; [done..|].
    destruct (right_width (rev_string s)); [done|]. specialize (Hr2 ltac:(by destruct s) ltac:(done)). lia.
  - intros (Hne & H1 & H2). split; [done|]. unfold left_width. rewrite trim_runes_none by exact H1.
    unfold right_width. rewrite trim_runes_none by exact H2. apply rev_string_twice.
Qed.

Lemma trimmed_plain s : trimmed s → starts_plain s ∧ starts_plain (rev_string s).
Proof.
  intros (Hne & H1 & H2)%trimmed_widths. split; eapply width_plain; [done|exact H1| |exact H2].
  intros E. apply Hne. by rewrite <- (rev_string_twice s), E.
Qed.

(** Two trimmed texts around a byte of ASCII. *)
Lemma trimmed_around a b c : trimmed a → trimmed b → low c → trimmed (a +:+ String c "" +:+ b).
Proof.
  intros (Ha & Ha1 & _)%trimmed_widths (Hb & _ & Hb2)%trimmed_widths Hc. apply trimmed_widths. split_and!.
  - by destruct a.
  - apply (width_append _ _ space_rune2_high space_rune3_high); done.
  - rewrite !rev_string_append, append_assoc'. change (rev_string (String c "")) with (String c "").
    apply (width_append _ _ right_rune2_high right_rune3_high); [|done|done].
    intros E. apply Hb. by rewrite <- (rev_string_twice b), E.
Qed.

Lemma starts_plain_append a b : starts_plain a → starts_plain (a +:+ b).
Proof. by destruct a. Qed.

Lemma re_space_is_space c : is_space c = false → is_re_space c = false.
Proof. destruct c as [[] [] [] [] [] [] [] []]; done. Qed.

Lemma any_char_step p a s c k : a ≠ newline_char → mt any_char p (String a s) c k = k (S p) s c.
Proof. intros Ha. cbn. by rewrite (proj2 (Ascii.eqb_neq a newline)). Qed.

Lemma greedy_all s : ∀ n p c k r, one_line s → String.length s ≤ n → k (p + String.length s)%nat "" c = Some r →
  star_loop true (mt any_char) k n p s c = Some r.
Proof.
  induction s as [|a s IH]; intros n p c k r Hs Hn Hk.
  - cbn in Hk. rewrite Nat.add_0_r in Hk. by destruct n.
  - destruct n as [|n]; [cbn in Hn; lia|]. apply no_byte_cons in Hs as [Ha Hs]. cbn [star_loop]. rewrite any_char_step by done.
    rewrite (proj2 (Nat.eqb_neq (S p) p)) by lia. fold (star_loop true (mt any_char) k).
    rewrite (IH n (S p) c k r); [done|done|cbn in Hn; lia|]. cbn in Hk. by rewrite Nat.add_succ_r in Hk.
Qed.

Lemma no_space_star p a s c k n r : is_space a = false → k p (String a s) c = r →
  star_loop true (mt space_char) k n p (String a s) c = r.
Proof.
  intros Ha Hk. destruct n as [|n]; [done|]. cbn [star_loop]. cbn [mt space_char]. by rewrite re_space_is_space.
Qed.

(** White space before other text than [k] takes. *)
Lemma space_star_none s : ∀ n p c k, (∀ p a s c, a ≠ "="%char → k p (String a s) c = None) → no_byte "=" s →
  starts_plain (rev_string s) → ∀ rest, star_loop true (mt space_char) k n p (s +:+ rest) c = None.
Proof.
  induction s as [|a s IH]; intros n p c k Hk Hs Hend rest; [done|]. apply no_byte_cons in Hs as [Ha Hs]. rewrite append_cons.
  destruct n as [|n]; [by apply Hk|]. cbn [star_loop]. rewrite Hk by done. cbn [mt space_char].
  destruct (is_re_space a) eqn:Hsp; [|done]. rewrite (proj2 (Nat.eqb_neq (S p) p)) by lia. fold (star_loop true (mt space_char) k).
  assert (starts_plain (rev_string s)) as Hend'.
  { change (String a s) with (String a "" +:+ s) in Hend. rewrite rev_string_append in Hend. destruct (rev_string s); [|done].
    cbn in Hend. apply re_space_is_space in Hend. congruence. }
  by rewrite IH.
Qed.

Lemma lazy_key key : ∀ n p c k rest r, one_line key → String.length key ≤ n →
  (∀ p' c' s, s ≠ "" → (∃ pre, key = pre +:+ s) → k p' (s +:+ rest) c' = None) →
  k (p + String.length key)%nat rest c = Some r →
  star_loop false (mt any_char) k n p (key +:+ rest) c = Some r.
Proof.
  induction key as [|a key IH]; intros n p c k rest r Hl Hn Hnone Hk.
  - cbn in Hk. rewrite Nat.add_0_r in Hk. change ("" +:+ rest) with rest. destruct n; [done|]. cbn [star_loop]. by rewrite Hk.
  - destruct n as [|n]; [cbn in Hn; lia|]. apply no_byte_cons in Hl as [Ha Hl]. rewrite append_cons. cbn [star_loop].
    change (String a (key +:+ rest)) with (String a key +:+ rest). rewrite Hnone; [|done|by exists ""]. cbn [or_else].
    rewrite append_cons, any_char_step by done. rewrite (proj2 (Nat.eqb_neq (S p) p)) by lia. fold (star_loop false (mt any_char) k).
    apply IH; [done|cbn in Hn; lia| |].
    + intros p' c' s Hs [pre ->]. apply Hnone; [done|]. by exists (String a pre).
    + cbn in Hk. by rewrite Nat.add_succ_r in Hk.
Qed.

Lemma search_item k v : starts_plain (rev_string k) → no_byte "=" k → one_line k → k ≠ "" → starts_plain v → one_line v →
  re_search itemr (k +:+ "=" +:+ v) = Some [(2, v); (1, k)].
Proof.
  intros Hend Heq Hl Hne Hv Hvl. unfold re_search. destruct k as [|a k]; [done|].
  assert (mt itemr 0 (String a k +:+ "=" +:+ v) [] accept = Some [(2, v); (1, String a k)]) as H.
  2:{ rewrite append_cons in *. cbn [search_at]. by rewrite H. }
  unfold itemr, Plus. cbn [mt]. rewrite append_cons, any_char_step by by apply no_byte_cons in Hl as [? _].
  apply no_byte_cons in Hl as [Ha Hl]. apply lazy_key; [done|rewrite length_append; lia| |].
  - intros p' c' s Hs [pre ->]. apply space_star_none.
    + intros q b t d Hb. unfold chr. cbn [mt]. by rewrite is_byte_false.
    + change (String a (pre +:+ s)) with (String a pre +:+ s) in Heq. by apply no_byte_append in Heq as [_ ?].
    + change (String a (pre +:+ s)) with (String a pre +:+ s) in Hend. rewrite rev_string_append in Hend.
      destruct (rev_string s) eqn:E; [|done]. exfalso. apply Hs. rewrite <- (rev_string_twice s), E. done.
  - cbn [Nat.add]. change ("=" +:+ v) with (String "=" v). apply no_space_star; [done|]. unfold chr. cbn [mt]. rewrite is_byte_refl.
    destruct v as [|b v]; [done|]. apply no_space_star; [done|]. pose proof Hvl as [Hb Hvl']%no_byte_cons. rewrite any_char_step by done.
    apply greedy_all; [done|done|]. unfold accept. do 2 f_equal.
    + f_equal. replace (_ - _) with (String.length (String b v)) by (cbn; lia). apply take_bytes_all.
    + f_equal. rewrite Nat.sub_0_r. change (S (String.length k)) with (String.length (String a k)).
      rewrite <- append_cons. by rewrite take_bytes_append.
Qed.

Lemma parse_clean_line k v : clean_key k → clean_value v → parse_line "" (k +:+ "=" +:+ v) = Some (k, v).
Proof.
  intros (Hk & Hc & Heq & Hl) (Hv & Hvl). unfold parse_line.
  rewrite (proj2 (trimmed_around k v "=" Hk Hv ltac:(by vm_compute; lia))).
  destruct (trimmed_plain k Hk) as [Hs He]. destruct (trimmed_plain v Hv) as [Hvs Hve]. pose proof (proj1 Hk) as Hne.
  assert (re_match skipr (k +:+ "=" +:+ v) = false) as ->.
  { apply not_true_iff_false. rewrite re_match_search. unfold re_search, skipr. destruct k as [|a k]; [done|].
    rewrite append_cons. generalize (k +:+ "=" +:+ v). intros s. cbn [search_at mt Nat.eqb or_else]. unfold chr. cbn [mt].
    rewrite is_byte_false; [|intros <-; by rewrite has_prefix_cons, has_prefix_nil in Hc]. cbn [or_else].
    assert (∀ s p, search_at (Alt (Seq Bol (Chr (is_byte "#"))) (Seq Bol Eol)) (S p) s = None) as ->; [|by intros [? ?]].
    intros s'. induction s' as [|b s' IH]; intros p; [done|]. cbn. apply IH. }
  rewrite search_item by done. done.
Qed.

Section Written.
Context `{TL : TimeLib} `{RX : Regexp}.
Variable env : string → option string.
Variable windows : bool.

Lemma parse_steps_found prefix lines : ∀ found, fold_left (parse_step env windows prefix) lines (Ok (None, found)) =
  Ok (None, fold_left (λ m line, match parse_line prefix line with Some (k, v) => <[k := v]> m | None => m end) lines found).
Proof.
  induction lines as [|line lines IH]; intros found; [done|]. cbn [fold_left]. unfold parse_step at 2. cbn [mbind outcome_bind].
  destruct (parse_line prefix line) as [[k v]|]; apply IH.
Qed.

End Written.
