(* ===== verification/Provision.v ===== *)
(** * The provisioning agent

    providers/agent/mcorpc/golang/provision: the actions with which a provisioner gives a
    server its keys, certificates, configuration and policies, the lock that keeps
    provisioners apart and the tokens that guard them.  Files are a directory tree, some of
    whose paths cannot be changed; cryptography, JSON, the parser of configuration files and
    the updater are arguments.  The working directory is the root; logging is left out. *)
From S2P Require Import Prelude Records GoLib Files Util AuthTypes Transport SecureMessages Message AgentManager Rpc Framework Tree.

(** ** State *)

Inductive callback := RestartCb (splay : Z) | ShutdownCb (splay : Z).
Inductive prov_event := Provisioned | Upgraded (version : string) | ShutdownEvent.

(** The variables of the package, the files, the clock, the restarts that were started in
    goroutines of their own, the events that were sent and the updates that were tried. *)
Record Prov := {
  pv_fs : tree;
  pv_now : Z;
  pv_lockedUntil : Z;
  pv_lockedBy : string;
  pv_ecdhPublic : string;
  pv_ecdhPrivate : string;
  pv_allowRestart : bool;
  pv_callbacks : list callback;
  pv_events : list prov_event;
  pv_updates : list (string * string);
}.

(** What the actions read of the agent and the build. *)
Record ProvAgent := {
  pa_Config : Config;
  pa_LogFile : string;
  pa_bi : BuildInfo;
  pa_Certname : string;
}.

(** ** Requests and replies *)

Record ConfigureRequest := {
  cr_Token : string;
  cr_Configuration : string;
  cr_Key : string;
  cr_Certificate : string;
  cr_CA : string;
  cr_SSLDir : string;
  cr_ECDHPublic : string;
  cr_ServerJWT : string;
  cr_ActionPolicies : list (string * string);
  cr_OPAPolicies : list (string * string);
}.

Record CSRRequest := {
  csr_Token : string;
  csr_CN : string;
  csr_C : string;
  csr_L : string;
  csr_O : string;
  csr_OU : string;
  csr_ST : string;
}.

Record ReleaseUpdateRequest := {
  ru_Token : string;
  ru_Repository : string;
  ru_Version : string;
}.

Inductive prov_data :=
| MessageReply (message : string)
| CSRReply (csr public_key ssldir : string)
| JWTReply (jwt ecdh_public : string)
| ED25519Reply (public_key directory signature : string).

(** The subject of a request for a certificate. *)
Record Name := {
  nm_CommonName : string;
  nm_Country : list string;
  nm_Locality : list string;
  nm_Organization : list string;
  nm_OrganizationalUnit : list string;
}.

(** Decoding of requests and encoding of replies; maps are lists in the order they are
    ranged over. *)
Class ProvJSON := {
  parse_configure : string → res ConfigureRequest;
  parse_csr : string → res CSRRequest;
  parse_ed25519 : string → res (string * string);
  parse_token : string → res string;
  parse_restart : string → res (string * Z);
  parse_update : string → res ReleaseUpdateRequest;
  parse_settings : string → res (list (string * string));
  prov_Marshal : prov_data → string;
}.

(** Keys and PEM: a pair is private and public, [Ed25519KeyPair] gives the seed and the
    public key. *)
Class ProvCrypto := {
  ECDHKeyPair : res (string * string);
  ECDHSharedSecret : string → string → res string;
  Ed25519KeyPair : res (string * string);
  Ed25519Sign : string → string → res string;
  pem_block : Set;
  pem_Decode : string → option pem_block;
  IsEncryptedPEMBlock : pem_block → bool;
  DecryptPEMBlock : pem_block → string → res string;
  pem_Encode : string → string → string;
  prov_key : Set;
  prov_GenerateKey : res prov_key;
  MarshalPrivateKey : prov_key → string;
  MarshalPublicKey : prov_key → string;
  MarshalSubject : Name → res string;
  CreateCSR : string → prov_key → res string;
}.

(** [config.NewConfig] on a file: whether it enables provisioning.  The updater: nothing
    on success, else its error and the error of the rollback.  How times and durations
    print. *)
Class ProvEnv := {
  NewConfig : tree → string → res bool;
  updater_Apply : string → string → option (string * option string);
  time_text : Z → string;
  duration_text : Z → string;
}.

(** ** Files *)

Section Actions.
Context `{SK : SignerTokens} `{PF : Platform} `{PJ : ProvJSON} `{PC : ProvCrypto} `{PE : ProvEnv}.
(** Paths that cannot be made, written or removed. *)
Variable denied : string → bool.
(** The names of temporary files, and random numbers below a bound. *)
Variable tmp_suffix : string.
Variable randN : Z → Z.
Variable agent : ProvAgent.

Abbreviation P A := (ST Prov string A).
Abbreviation D A := (ST tree string A).

Definition set_fs (t : tree) (w : Prov) : Prov := w <| pv_fs := t |>.

Definition on_disk {A} : ST tree string A → P A := with_tree pv_fs set_fs.

(** ** Replies

    An action gets the reply and throws it when it returns early. *)

Definition body : Type := RpcRequest → RpcReply → ST Prov RpcReply RpcReply.

Definition returned (r : Prov * outcome RpcReply RpcReply) : Prov * outcome Empty_set RpcReply :=
  match r with
  | (w, Ok reply) | (w, Err reply) => (w, Ok reply)
  | (w, Panic p) => (w, Panic p)
  end.

Definition to_action (b : body) : Action Prov := λ req reply w, returned (b req reply w).

Definition abort (msg : string) (reply : RpcReply) : RpcReply := fail_reply Aborted msg reply.

Definition set_data (d : prov_data) (reply : RpcReply) : RpcReply :=
  {| re_Action := re_Action reply; re_Statuscode := re_Statuscode reply; re_Statusmsg := re_Statusmsg reply;
     re_Data := Some (prov_Marshal d); re_DisableResponse := re_DisableResponse reply |}.

(** [if err != nil { abort(msg(err), reply); return }] *)
Definition or_abort {A} (reply : RpcReply) (msg : string → string) (m : P A) : ST Prov RpcReply A := λ w,
  let '(w', o) := m w in (w', map_err (λ e, abort (msg e) reply) o).

Definition abort_if (c : bool) (msg : string) (reply : RpcReply) : ST Prov RpcReply () :=
  if c then throw (abort msg reply) else mret tt.

(** The requests of this agent have no validations. *)
Definition ParseRequestData {A} (parse : string → res A) (req : RpcRequest) (reply : RpcReply) : ST Prov RpcReply A := λ w,
  (w, map_err (λ e, fail_reply InvalidData ("Could not parse request data for " +:+ rr_Agent req +:+ "#" +:+
                                            rr_Action req +:+ ": " +:+ e) reply) (parse (rr_Data req))).

Definition checkToken (token : string) (reply : RpcReply) : ST Prov RpcReply () :=
  if String.eqb (bi_ProvisionToken (pa_bi agent)) "" then mret tt
  else abort_if (negb (String.eqb token (bi_ProvisionToken (pa_bi agent)))) "Incorrect provision token supplied" reply.

Definition provision_mode : bool := ProvisionMode (pa_Config agent) (pa_bi agent).
Definition config_file : string := cf_ConfigFile (pa_Config agent).

(** ** Locks *)

Definition LockWindow : Z := 2 * Minute.
Definition LockedError : string := "Could not obtain provisioning lock".

Definition lock_name (sender caller : string) : string := sender +:+ "." +:+ caller.

Definition isLockedFor (sender caller : string) (w : Prov) : bool :=
  if (pv_lockedUntil w - pv_now w <=? 0)%Z then false else String.eqb (pv_lockedBy w) (lock_name sender caller).

Definition lockFor (sender caller : string) (w : Prov) : Prov * (bool * Z) :=
  let until := (pv_now w + LockWindow)%Z in
  if isLockedFor sender caller w then (w <| pv_lockedUntil := until |>, (true, until))
  else if (0 <? pv_lockedUntil w - pv_now w)%Z then (w, (false, pv_lockedUntil w))
  else (w <| pv_lockedUntil := until |> <| pv_lockedBy := lock_name sender caller |>, (true, until)).

Definition lockedAction (next : body) : body := λ req reply w,
  match lockFor (rr_SenderID req) (rr_CallerID req) w with
  | (w, (locked, _)) => if locked then next req reply w else (w, Err (abort LockedError reply))
  end.

(** ** Configuring *)

(** [ecdhPrivate] is the key the server made for the provisioner. *)
Definition decryptPrivateKey (ecdhPrivate privateKey ecdhPublic : string) : res string :=
  if Nat.eqb (String.length ecdhPublic) 0 then Err "no ECDH Public Key"
  else if Nat.eqb (String.length privateKey) 0 then Err "no Private Key"
  else
    pb ← (match hex_decode ecdhPublic with Some pb => Ok pb | None => Err "encoding/hex: invalid byte" end : res string);
    secret ← (if Nat.eqb (String.length ecdhPrivate) 0 then Err "private key not set"
              else ECDHSharedSecret ecdhPrivate pb : res string);
    match pem_Decode privateKey with
    | None => Err "bad key received"
    | Some block =>
        if negb (IsEncryptedPEMBlock block) then Err "key is not encrypted"
        else
          decBlock ← DecryptPEMBlock block secret;
          Ok (pem_Encode "RSA PRIVATE KEY" decBlock)
    end.

Definition given3 (a b c : string) : bool := negb (String.eqb a "") && negb (String.eqb b "") && negb (String.eqb c "").

Definition writeTLS (ecdhPrivate : string) (args : ConfigureRequest) : D () :=
  if given3 (cr_Certificate args) (cr_SSLDir args) (cr_CA args) then
    let dir := cr_SSLDir args in
    with_err (λ e, "could not create ssl directory " +:+ dir +:+ ": " +:+ e) (os_MkdirAll denied dir);;
    let target := path_join [dir; "certificate.pem"] in
    with_err (λ e, "could not write Certificate to " +:+ target +:+ ": " +:+ e) (os_WriteFile denied target (cr_Certificate args));;
    let target := path_join [dir; "ca.pem"] in
    with_err (λ e, "could not write CA to " +:+ target +:+ ": " +:+ e) (os_WriteFile denied target (cr_CA args));;
    if String.eqb (cr_Key args) "" then mret tt
    else
      priKey ← with_err (λ e, "could not decrypt private key: " +:+ e) 
        (lift (decryptPrivateKey ecdhPrivate (cr_Key args) (cr_ECDHPublic args)));
      let target := path_join [dir; "private.pem"] in
      with_err (λ e, "could not write KEY to " +:+ target +:+ ": " +:+ e) (os_WriteFile denied target priKey);;
      let csrFile := path_join [dir; "csr.pem"] in
      b ← exists_file csrFile;
      if b : bool then attempt (F:=string) (os_Remove denied csrFile);; mret tt else mret tt
  else mret tt.

Definition writeJWT (target token : string) : D () :=
  if String.eqb token "" then mret tt else os_WriteFile denied target token.

Fixpoint write_each (targetDir : string) (policies : list (string * string)) : D () :=
  match policies with
  | [] => mret tt
  | (f, p) :: rest =>
      (if String.eqb f "" || String.eqb p "" then mret tt
       else with_err (λ e, "saving policy " +:+ f +:+ " failed: " +:+ e) (os_WriteFile denied (path_join [targetDir; f]) p));;
      write_each targetDir rest
  end.

Definition writePolicies (targetDir : string) (policies : list (string * string)) : D () :=
  b ← gets (λ t, FileIsDir t (abs_path targetDir));
  (if b : bool then with_err (λ _, "could not remove existing policies") (os_RemoveAll denied targetDir) else mret tt);;
  os_MkdirAll denied targetDir;;
  write_each targetDir policies.

(** The policies of a kind, by the extension of their names. *)
Definition write_kind (ext targetDir : string) (policies : list (string * string)) : D () :=
  if Nat.eqb (length policies) 0 then mret tt
  else if String.eqb config_file "" then throw "no configuration path configured"
  else
    match List.find (λ kv, negb (has_suffix kv.1 ext)) policies with
    | Some (k, _) => throw ("expected " +:+ k +:+ " to have " +:+ ext +:+ " extension")
    | None => writePolicies targetDir policies
    end.

Definition policies_dir : string := path_join [path_dir config_file; "policies"].
Definition rego_dir : string := path_join [path_dir config_file; "policies"; "rego"].

Definition writeOPAPolicies (args : ConfigureRequest) : D () := write_kind ".rego" rego_dir (cr_OPAPolicies args).
Definition writeActionPolicies (args : ConfigureRequest) : D () := write_kind ".policy" policies_dir (cr_ActionPolicies args).

Definition newline : string := String (ascii_of_nat 10) "".

Definition config_text (settings : list (string * string)) (req : RpcRequest) (now : Z) : string :=
  "# configuration file written in request " +:+ rr_RequestID req +:+ " from " +:+ rr_CallerID req +:+ " (" +:+
  rr_SenderID req +:+ ") at " +:+ time_text now +:+ newline +:+
  String.concat "" (map (λ kv, kv.1 +:+ "=" +:+ kv.2 +:+ newline) settings).

Definition config_tmp : string := path_join [path_dir config_file; "provision" +:+ tmp_suffix].

(** The number of lines written.  Closing the temporary file does not fail. *)
Definition writeConfig (settings : list (string * string)) (req : RpcRequest) (now : Z) : D Z :=
  with_err (λ e, "cannot create a temp file in " +:+ path_dir config_file +:+ ": " +:+ e) (os_CreateTemp denied config_tmp);;
  deferred (λ t, (os_Remove denied config_tmp t).1)
    (with_err (λ e, "could not write to temp file " +:+ config_tmp +:+ ": " +:+ e)
       (os_WriteFile denied config_tmp (config_text settings req now));;
     t ← gets id;
     with_err (λ e, "generated configuration could not be parsed: " +:+ e) (lift (NewConfig t config_tmp));;
     with_err (λ e, "could not rename temp file " +:+ config_tmp +:+ " to " +:+ config_file +:+ ": " +:+ e)
       (os_Rename denied config_tmp config_file);;
     mret (1 + Z.of_nat (length settings))%Z).

Definition write_config_now (settings : list (string * string)) (req : RpcRequest) : P Z :=
  now ← gets pv_now;
  on_disk (writeConfig settings req now).

Definition send_event (ev : prov_event) (w : Prov) : Prov := w <| pv_events := ev :: pv_events w |>.

Definition jwt_file : string := path_join [path_dir config_file; "server.jwt"].

Definition configureAction : body := λ req reply,
  abort_if (negb provision_mode) "Cannot reconfigure a server that is not in provisioning mode" reply;;
  abort_if (String.eqb config_file "") "Cannot determine the configuration file to manage" reply;;
  args ← ParseRequestData parse_configure req reply;
  checkToken (cr_Token args) reply;;
  abort_if (Nat.eqb (String.length (cr_Configuration args)) 0)
    "Did not receive any configuration to write, cannot write a empty configuration file" reply;;
  abort_if (negb (Nat.eqb (String.length (cr_Key args)) 0) && Nat.eqb (String.length (cr_ECDHPublic args)) 0)
    "EDCH Public Key not supplied while providing a private key" reply;;
  settings ← or_abort reply (λ e, "Could not decode configuration data: " +:+ e) (lift (parse_settings (cr_Configuration args)));
  ecdhPrivate ← gets pv_ecdhPrivate;
  or_abort reply (λ e, "TLS Setup Failed: " +:+ e) (on_disk (writeTLS ecdhPrivate args));;
  or_abort reply (λ e, "JWT Setup Failed: " +:+ e) (on_disk (writeJWT jwt_file (cr_ServerJWT args)));;
  lines ← or_abort reply (λ e, "Could not write config: " +:+ e) (write_config_now settings req);
  or_abort reply (λ e, "Could not save Action Policies: " +:+ e) (on_disk (writeActionPolicies args));;
  or_abort reply (λ e, "Could not save Open Policy Agent Policies: " +:+ e) (on_disk (writeOPAPolicies args));;
  modify (send_event Provisioned);;
  mret (set_data (MessageReply ("Wrote " +:+ itoa lines +:+ " lines to " +:+ config_file)) reply).

(** ** Keys and tokens *)

Definition opt_list (s : string) : list string := if String.eqb s "" then [] else [s].

(** The state is not part of the subject. *)
Definition csr_subject (args : CSRRequest) : Name :=
  {| nm_CommonName := if String.eqb (csr_CN args) "" then pa_Certname agent else csr_CN args;
     nm_Country := opt_list (csr_C args); nm_Locality := opt_list (csr_L args);
     nm_Organization := opt_list (csr_O args); nm_OrganizationalUnit := opt_list (csr_OU args) |}.

Definition ssl_dir : string :=
  if String.eqb (cf_SSLDir (pa_Config agent)) "" then path_join [path_dir config_file; "ssl"] else cf_SSLDir (pa_Config agent).

Definition csrAction : body := λ req reply,
  abort_if (negb provision_mode) "Cannot reconfigure a server that is not in provisioning mode" reply;;
  abort_if (String.eqb config_file "" && String.eqb (cf_SSLDir (pa_Config agent)) "")
    "Cannot determine where to store SSL data, no configure file given and no SSL directory configured" reply;;
  args ← ParseRequestData parse_csr req reply;
  checkToken (csr_Token args) reply;;
  or_abort reply (λ e, "Could not create SSL Directory " +:+ ssl_dir +:+ ": " +:+ e) (on_disk (os_MkdirAll denied ssl_dir));;
  subject ← or_abort reply (λ e, "Could not create CSR: " +:+ e) (lift (MarshalSubject (csr_subject args)));
  privKey ← or_abort reply (λ e, "Could not create private key: " +:+ e) (lift prov_GenerateKey);
  or_abort reply (λ e, "Could not store private key: " +:+ e)
    (on_disk (os_WriteFile denied (path_join [ssl_dir; "private.pem"]) (pem_Encode "RSA PRIVATE KEY" (MarshalPrivateKey privKey))));;
  csrBytes ← or_abort reply (λ e, "Could not create CSR bytes: " +:+ e) (lift (CreateCSR subject privKey));
  let pb := pem_Encode "CERTIFICATE REQUEST" csrBytes in
  or_abort reply (λ e, "Could not store CSR: " +:+ e) (on_disk (os_WriteFile denied (path_join [ssl_dir; "csr.pem"]) pb));;
  mret (set_data (CSRReply pb (pem_Encode "PUBLIC KEY" (MarshalPublicKey privKey)) ssl_dir) reply).

Definition secure_dir : string := abs_path (path_dir config_file).

(** A token that cannot be removed aborts the reply, but the action goes on. *)
Definition ed25519Action : body := λ req reply,
  abort_if (negb provision_mode) "Cannot reconfigure a server that is not in provisioning mode" reply;;
  abort_if (String.eqb config_file "") "Cannot determine where to store secure data, no configure file given" reply;;
  '(token, nonce) ← ParseRequestData parse_ed25519 req reply;
  checkToken token reply;;
  let keyFile := path_join [secure_dir; "server.seed"] in
  let jwtFile := path_join [secure_dir; "server.jwt"] in
  '(seed, pubK) ← or_abort reply (λ e, "Could not create keypair: " +:+ e) (lift Ed25519KeyPair);
  b ← gets (λ w, FileExist (pv_fs w) (abs_path jwtFile));
  reply ← (if b : bool then
             r ← attempt (F:=RpcReply) (on_disk (os_Remove denied jwtFile));
             mret match r with
                  | inl _ => reply
                  | inr e => abort ("Could not remove existing jwt file: " +:+ jwtFile +:+ ": " +:+ e) reply
                  end
           else mret reply);
  or_abort reply (λ e, "Could not write key " +:+ keyFile +:+ ": " +:+ e) (on_disk (os_WriteFile denied keyFile (hex_encode seed)));;
  sig ← or_abort reply (λ e, "Could not sign the nonce: " +:+ e) (lift (Ed25519Sign seed nonce));
  mret (set_data (ED25519Reply (hex_encode pubK) secure_dir (hex_encode sig)) reply).

Definition updateECDHLocked : P () := λ w,
  match ECDHKeyPair with
  | Ok (pri, pub) => (w <| pv_ecdhPrivate := pri |> <| pv_ecdhPublic := pub |>, Ok tt)
  | Err e => (w <| pv_ecdhPrivate := "" |> <| pv_ecdhPublic := "" |>, Err e)
  | Panic p => (w, Panic p)
  end.

Definition jwtAction : body := λ req reply,
  abort_if (negb provision_mode) "Cannot reconfigure a server that is not in provisioning mode" reply;;
  token ← ParseRequestData parse_token req reply;
  checkToken token reply;;
  let file := bi_ProvisionJWTFile (pa_bi agent) in
  abort_if (String.eqb file "") "No Provisioning JWT file has been configured" reply;;
  b ← gets (λ w, FileExist (pv_fs w) (abs_path file));
  abort_if (negb b) "Provisioning JWT file does not exist" reply;;
  j ← or_abort reply (λ e, "Could not read Provisioning JWT: " +:+ e) (on_disk (os_ReadFile file));
  or_abort reply (λ e, "Could not calculate EDCH keys: " +:+ e) updateECDHLocked;;
  pub ← gets pv_ecdhPublic;
  mret (set_data (JWTReply j (hex_encode pub)) reply).

(** ** Restarting *)

Definition go_callback (cb : callback) (w : Prov) : Prov := w <| pv_callbacks := cb :: pv_callbacks w |>.

Definition seconds (n : Z) : Z := wrap64 (wrap64 n * Second).

Definition ReprovisionConfig : list (string * string) :=
  let cf := pa_Config agent in
  [("plugin.choria.server.provision", "1"); ("loglevel", "debug")] ++
  (if String.eqb (pa_LogFile agent) "" then [] else [("logfile", pa_LogFile agent)]) ++
  (if String.eqb (bi_ProvisionRegistrationData (pa_bi agent)) "" && negb (String.eqb (cf_FileContentRegistrationData cf) "")
   then [("registration", "file_content");
         ("plugin.choria.registration.file_content.data", cf_FileContentRegistrationData cf)]
   else []).

Definition reprovisionAction : body := λ req reply,
  abort_if provision_mode "Server is already in provisioning mode, cannot enable provisioning mode again" reply;;
  abort_if (String.eqb config_file "") "Cannot determine the configuration file to manage" reply;;
  token ← ParseRequestData parse_token req reply;
  checkToken token reply;;
  or_abort reply (λ e, "Could not write config: " +:+ e) (write_config_now ReprovisionConfig req);;
  let splay := seconds (randN 10 + 2) in
  modify (go_callback (RestartCb splay));;
  mret (set_data (MessageReply ("Restarting after " +:+ duration_text splay)) reply).

(** [rand.N] panics unless its bound is positive. *)
Definition restartAction : body := λ req reply,
  abort_if (negb provision_mode && String.eqb (bi_ProvisionToken (pa_bi agent)) "")
    "Cannot restart a server that is not in provisioning mode or with no token set" reply;;
  '(token, splay) ← ParseRequestData parse_restart req reply;
  checkToken token reply;;
  t ← gets pv_fs;
  provision ← or_abort reply (λ e, "Configuration " +:+ config_file +:+ " could not be parsed, restart cannot continue: " +:+ e)
    (lift (NewConfig t config_file));
  abort_if provision ("Configuration " +:+ config_file +:+ " enables provisioning, restart cannot continue") reply;;
  let bound := if (splay =? 0)%Z then 10%Z else splay in
  if (bound <=? 0)%Z then panic "invalid argument to N"
  else
    let splay := seconds (randN bound + 2) in
    modify (go_callback (RestartCb splay));;
    mret (set_data (MessageReply ("Restarting Choria Server after " +:+ duration_text splay)) reply).

Definition shutdownAction : body := λ req reply,
  abort_if (negb provision_mode && String.eqb (bi_ProvisionToken (pa_bi agent)) "")
    "Cannot shutdown a server that is not in provisioning mode or with no token set" reply;;
  token ← ParseRequestData parse_token req reply;
  checkToken token reply;;
  let splay := seconds (randN 10) in
  modify (go_callback (ShutdownCb splay));;
  mret (set_data (MessageReply ("Shutting Choria Server down after " +:+ duration_text splay)) reply).

Definition releaseUpdateAction : body := λ req reply,
  abort_if (negb provision_mode) "Cannot update a server that is not in provisioning mode" reply;;
  abort_if (negb (cf_ProvisionAllowUpdate (pa_Config agent))) "Version updates is not enabled in the configuration" reply;;
  args ← ParseRequestData parse_update req reply;
  checkToken (ru_Token args) reply;;
  modify (λ w, w <| pv_updates ::= cons (ru_Version args, ru_Repository args) |>);;
  match updater_Apply (ru_Version args) (ru_Repository args) with
  | Some (_, Some rollback) =>
      throw (abort ("Update to version " +:+ ru_Version args +:+
                    " failed, rollback also failed, server in broken state: " +:+ rollback) reply)
  | Some (err, None) =>
      throw (abort ("Update to version " +:+ ru_Version args +:+ " failed, release rolled back: " +:+ err) reply)
  | None =>
      modify (send_event (Upgraded (ru_Version args)));;
      modify (go_callback (RestartCb (2 * Second)));;
      mret (set_data (MessageReply "Restarting Choria Server after 2s") reply)
  end.

(** The goroutines: what becomes of the process when it is replaced by [syscall.Exec],
    which returns only an error, or exits. *)
Inductive fate := Stays | Replaced | Exited.

Definition restart (exec_error : option string) (w : Prov) : Prov * fate :=
  if negb (pv_allowRestart w) then (w, Stays)
  else
    let w := send_event ShutdownEvent (w <| pv_allowRestart := false |>) in
    match exec_error with
    | None => (w, Replaced)
    | Some _ => (w <| pv_allowRestart := true |>, Stays)
    end.

Definition restartViaExit (w : Prov) : Prov * fate :=
  if negb (pv_allowRestart w) then (w, Stays)
  else (send_event ShutdownEvent (w <| pv_allowRestart := false |>), Exited).

(** ** The agent *)

Definition metadata : Metadata :=
  {| md_Name := "choria_provision"; md_Version := ""; md_Timeout := 20; md_Service := false; md_Provider := "" |}.

Definition prov_actions : list (string * body) :=
  [("configure", lockedAction configureAction);
   ("gen25519", lockedAction ed25519Action);
   ("gencsr", lockedAction csrAction);
   ("jwt", lockedAction jwtAction);
   ("release_update", lockedAction releaseUpdateAction);
   ("reprovision", reprovisionAction);
   ("restart", restartAction);
   ("shutdown", shutdownAction)].

Fixpoint register_all (l : list (string * body)) (a : RpcAgent Prov) : res (RpcAgent Prov) :=
  match l with
  | [] => Ok a
  | (name, b) :: rest =>
      match MustRegisterAction name (to_action b) a with
      | (a, Ok _) => register_all rest a
      | (_, Err e) => Err e
      | (_, Panic p) => Panic p
      end
  end.

Definition New (cfg : RpcConfig) : res (RpcAgent Prov) :=
  let a := Rpc.New metadata cfg in
  register_all prov_actions
    {| a_meta := a_meta a; a_actions := a_actions a; a_Config := a_Config a; a_ServerInfo := a_ServerInfo a;
       a_activationCheck := SupportsProvisioning (pa_Config agent) (pa_bi agent) |}.

End Actions.

(** * Theorems on the provisioning agent

    What a server lets a provisioner do, how long provisioners keep each other out and how
    configuration files are replaced. *)
From S2P Require Import Regex Facts Filters Security DemoLibs ActionPolicy DemoServer.

(** ** The lock *)

(** Requests for the lock at their times. *)
Fixpoint lock_calls (calls : list (Z * (string * string))) (w : Prov) : list (Z * string * bool) :=
  match calls with
  | [] => []
  | (now, (sender, caller)) :: rest =>
      let '(w', (locked, _)) := lockFor sender caller (w <| pv_now := now |>) in
      (now, lock_name sender caller, locked) :: lock_calls rest w'
  end.

(** [name] got the lock at [t]: it still has it, or its time is over. *)
Definition locked_since (name : string) (t now : Z) (w : Prov) : Prop :=
  (t ≤ now)%Z ∧ (pv_lockedBy w = name ∧ (t + LockWindow ≤ pv_lockedUntil w)%Z ∨ (t + LockWindow ≤ now)%Z).

Lemma lockFor_locked sender caller w w' until :
  lockFor sender caller w = (w', (true, until)) →
  pv_lockedBy w' = lock_name sender caller ∧ pv_lockedUntil w' = (pv_now w + LockWindow)%Z.
Proof.
  unfold lockFor. destruct (isLockedFor sender caller w) eqn:Hl.
  - intros [= <- <-]. split; [|done]. unfold isLockedFor in Hl. destruct (_ <=? _)%Z; [done|]. by apply String.eqb_eq in Hl.
  - destruct (_ <? _)%Z; intros [= <- <-]. done.
Qed.

Lemma lockFor_since name t sender caller w w' b until now : (now ≤ pv_now w)%Z → locked_since name t now w →
  lockFor sender caller w = (w', (b, until)) →
  locked_since name t (pv_now w) w' ∧ (b = true → lock_name sender caller ≠ name → (t + LockWindow ≤ pv_now w)%Z).
Proof.
  unfold locked_since. intros Hnow [Ht [[Hby Hu]|Hover]] H; [|split; [split; [|right]|intros _ _]; lia].
  destruct (Z.le_gt_cases (t + LockWindow) (pv_now w)) as [Hle|Hgt]; [split; [split; [lia|by right]|done]|].
  unfold lockFor, isLockedFor in H. rewrite (proj2 (Z.leb_gt _ _)) in H by lia.
  destruct (String.eqb_spec (pv_lockedBy w) (lock_name sender caller)) as [He|Hne].
  - injection H as <- <- <-. split; [|intros _ Hn; destruct Hn; by rewrite <- Hby].
    split; [lia|left]. destruct w; cbn in *. split; [done|lia].
  - rewrite (proj2 (Z.ltb_lt _ _)) in H by lia. injection H as <- <- <-. split; [|done]. split; [lia|by left].
Qed.

Definition monotone (calls : list (Z * (string * string))) (now : Z) : Prop :=
  ∀ i c, calls !! i = Some c → (now ≤ c.1)%Z ∧ ∀ j d, i ≤ j → calls !! j = Some d → (c.1 ≤ d.1)%Z.

Lemma monotone_cons c calls now : monotone (c :: calls) now → (now ≤ c.1)%Z ∧ monotone calls c.1.
Proof.
  intros H. split; [by apply (H 0 c)|]. intros i d Hi. split.
  - destruct (H 0 c eq_refl) as [_ H0]. by apply (H0 (S i)); [lia|].
  - intros j e Hj He. destruct (H (S i) d Hi) as [_ Hs]. by apply (Hs (S j)); [lia|].
Qed.

Lemma lock_calls_since name t calls : ∀ now w i t2 name2, monotone calls now → locked_since name t now w →
  lock_calls calls w !! i = Some (t2, name2, true) → name2 ≠ name → (t + LockWindow ≤ t2)%Z.
Proof.
  induction calls as [|[now' [sender caller]] calls IH]; intros now w i t2 name2 Hm Hs Hi Hne; [done|].
  apply monotone_cons in Hm as [Hle Hm]. cbn [fst] in *. cbn [lock_calls] in Hi.
  destruct (lockFor sender caller (w <| pv_now := now' |>)) as [w' [b until]] eqn:Hl.
  destruct (lockFor_since name t sender caller (w <| pv_now := now' |>) w' b until now) as [Hs' Hb];
    [by destruct w|by destruct w|done|].
  change (pv_now (w <| pv_now := now' |>)) with now' in *.
  destruct i as [|i].
  - injection Hi as <- <- ->. by apply Hb.
  - by eapply IH.
Qed.

(** C29. Provisioners keep each other out: when one got the lock of a server, or had it
    extended, no other gets it before the two minutes of the lock are over, whatever
    requests are made in between. *)
Theorem locks_exclude (calls : list (Z * (string * string))) (w : Prov) (now : Z) (i j : nat) t1 t2 name1 name2 :
  monotone calls now → i < j → name1 ≠ name2 →
  lock_calls calls w !! i = Some (t1, name1, true) → lock_calls calls w !! j = Some (t2, name2, true) →
  (t1 + LockWindow ≤ t2)%Z.
Proof.
  revert now w i j. induction calls as [|[now' [sender caller]] calls IH]; intros now w i j Hm Hij Hne Hi Hj; [done|].
  apply monotone_cons in Hm as [Hle Hm]. cbn [fst] in *. cbn [lock_calls] in Hi, Hj.
  destruct (lockFor sender caller (w <| pv_now := now' |>)) as [w' [b until]] eqn:Hl.
  destruct j as [|j]; [lia|]. destruct i as [|i].
  - injection Hi as <- <- ->. apply lockFor_locked in Hl as [Hby Hu]. change (pv_now (w <| pv_now := now' |>)) with now' in Hu.
    eapply (lock_calls_since (lock_name sender caller) now'); [exact Hm| |exact Hj|congruence].
    split; [cbn; lia|left]. rewrite Hu. by split.
  - apply (IH now' w' i j); [done|lia|done..].
Qed.

(** ** What is guarded *)

Section Guards.
Context `{SK : SignerTokens} `{PF : Platform} `{PJ : ProvJSON} `{PC : ProvCrypto} `{PE : ProvEnv}.
Context `{TL : TokenLib} `{RJ : RpcJSON} `{OP : OPA} `{FL : FactLib} `{RX : Regexp}.
Variable denied : string → bool.
Variable tmp_suffix : string.
Variable randN : Z → Z.
Variable agent : ProvAgent.

(** The same but for the lock and the clock. *)
Definition untouched (w w' : Prov) : Prop :=
  pv_fs w' = pv_fs w ∧ pv_ecdhPublic w' = pv_ecdhPublic w ∧ pv_ecdhPrivate w' = pv_ecdhPrivate w ∧
  pv_allowRestart w' = pv_allowRestart w ∧ pv_callbacks w' = pv_callbacks w ∧ pv_events w' = pv_events w ∧
  pv_updates w' = pv_updates w.

(** The token in the data of a request. *)
Definition supplied_token (req : RpcRequest) : option string :=
  let of_res {A} (f : A → string) (r : res A) := match r with Ok a => Some (f a) | _ => None end in
  let data := rr_Data req in
  let name := rr_Action req in
  if String.eqb name "configure" then of_res cr_Token (parse_configure data)
  else if String.eqb name "gencsr" then of_res csr_Token (parse_csr data)
  else if String.eqb name "gen25519" then of_res fst (parse_ed25519 data)
  else if String.eqb name "release_update" then of_res ru_Token (parse_update data)
  else if String.eqb name "restart" then of_res fst (parse_restart data)
  else of_res id (parse_token data).

Definition token_fits (req : RpcRequest) : Prop :=
  bi_ProvisionToken (pa_bi agent) = "" ∨ supplied_token req = Some (bi_ProvisionToken (pa_bi agent)).

(** The mode an action is for; those that change what the server is need the lock. *)
Definition mode_fits (req : RpcRequest) (w : Prov) : Prop :=
  let name := rr_Action req in
  name ∈ ["configure"; "gen25519"; "gencsr"; "jwt"; "release_update"] ∧ provision_mode agent = true ∧
    (lockFor (rr_SenderID req) (rr_CallerID req) w).2.1 = true ∨
  name = "reprovision" ∧ provision_mode agent = false ∨
  name ∈ ["restart"; "shutdown"] ∧ (provision_mode agent = true ∨ bi_ProvisionToken (pa_bi agent) ≠ "").

Definition guarded (b : body) (ok : RpcRequest → Prop) : Prop :=
  ∀ req reply w, untouched w (b req reply w).1 ∨ ok req.

Lemma untouched_refl w : untouched w w.
Proof. done. Qed.
Hint Resolve untouched_refl : core.

Lemma guarded_if (c : bool) msg (b : RpcRequest → RpcReply → ST Prov RpcReply RpcReply) ok :
  (c = false → guarded b ok) → guarded (λ req reply, abort_if c msg reply;; b req reply) ok.
Proof. intros H req reply w. unfold abort_if. destruct c; [by left|]. by apply H. Qed.

Lemma guarded_parse {A} (parse : string → res A) (b : A → body) ok :
  (∀ args req reply w, parse (rr_Data req) = Ok args → untouched w (b args req reply w).1 ∨ ok req) →
  guarded (λ req reply, args ← ParseRequestData parse req reply; b args req reply) ok.
Proof.
  intros H req reply w. unfold ParseRequestData, mbind, ST_bind.
  destruct (parse (rr_Data req)) as [args|e|p] eqn:Hp; [|by left..]. by apply H.
Qed.

Lemma guarded_token {A} token reply (m : ST Prov RpcReply A) (w : Prov) (ok : Prop) :
  (bi_ProvisionToken (pa_bi agent) = "" ∨ token = bi_ProvisionToken (pa_bi agent) → ok) →
  untouched w ((checkToken agent token reply;; m) w).1 ∨ ok.
Proof.
  intros H. unfold checkToken, abort_if. destruct (String.eqb_spec (bi_ProvisionToken (pa_bi agent)) "") as [He|He].
  { right. apply H. by left. }
  destruct (String.eqb_spec token (bi_ProvisionToken (pa_bi agent))) as [Ht|Ht]; cbn [negb]; [right; apply H; by right|by left].
Qed.

(** An action of a name is guarded by the token in requests of that name. *)
Definition token_guarded (name : string) (b : body) (mode : Prop) : Prop :=
  guarded b (λ req, rr_Action req = name → token_fits req ∧ mode).

Ltac guard_token := intros; apply guarded_token; intros Htok Hname; split; [|auto];
  unfold token_fits, supplied_token; rewrite Hname; cbn -[bi_ProvisionToken];
  repeat match goal with H : _ = Ok _ |- _ => rewrite H end; cbn;
  destruct Htok as [Htok|Htok]; [left; exact Htok|right; cbn in *; by f_equal].

Lemma configure_guarded : token_guarded "configure" (configureAction denied tmp_suffix agent) (provision_mode agent = true).
Proof.
  apply guarded_if. intros Hm. apply negb_false_iff in Hm. apply guarded_if. intros _. apply guarded_parse. guard_token.
Qed.

Lemma csr_guarded : token_guarded "gencsr" (csrAction denied agent) (provision_mode agent = true).
Proof.
  apply guarded_if. intros Hm. apply negb_false_iff in Hm. apply guarded_if. intros _. apply guarded_parse. guard_token.
Qed.

Lemma ed25519_guarded : token_guarded "gen25519" (ed25519Action denied agent) (provision_mode agent = true).
Proof.
  apply guarded_if. intros Hm. apply negb_false_iff in Hm. apply guarded_if. intros _. apply guarded_parse.
  intros [token nonce]. guard_token.
Qed.

Lemma jwt_guarded : token_guarded "jwt" (jwtAction agent) (provision_mode agent = true).
Proof. apply guarded_if. intros Hm. apply negb_false_iff in Hm. apply guarded_parse. guard_token. Qed.

Lemma update_guarded : token_guarded "release_update" (releaseUpdateAction agent) (provision_mode agent = true).
Proof.
  apply guarded_if. intros Hm. apply negb_false_iff in Hm. apply guarded_if. intros _. apply guarded_parse. guard_token.
Qed.

Lemma reprovision_guarded :
  token_guarded "reprovision" (reprovisionAction denied tmp_suffix randN agent) (provision_mode agent = false).
Proof. apply guarded_if. intros Hm. apply guarded_if. intros _. apply guarded_parse. guard_token. Qed.

Lemma mode_or_token :
  negb (provision_mode agent) && String.eqb (bi_ProvisionToken (pa_bi agent)) "" = false →
  provision_mode agent = true ∨ bi_ProvisionToken (pa_bi agent) ≠ "".
Proof. intros [H|H]%andb_false_iff; [left; by apply negb_false_iff|right; by apply String.eqb_neq]. Qed.

Lemma restart_guarded : token_guarded "restart" (restartAction randN agent)
  (provision_mode agent = true ∨ bi_ProvisionToken (pa_bi agent) ≠ "").
Proof. apply guarded_if. intros Hm%mode_or_token. apply guarded_parse. intros [token splay]. guard_token. Qed.

Lemma shutdown_guarded : token_guarded "shutdown" (shutdownAction randN agent)
  (provision_mode agent = true ∨ bi_ProvisionToken (pa_bi agent) ≠ "").
Proof. apply guarded_if. intros Hm%mode_or_token. apply guarded_parse. guard_token. Qed.

(** ** The agent *)

Lemma lockFor_untouched sender caller w : untouched w (lockFor sender caller w).1.
Proof.
  unfold lockFor. destruct (isLockedFor sender caller w); [by destruct w|]. destruct (_ <? _)%Z; [done|by destruct w].
Qed.

Lemma untouched_trans w1 w2 w3 : untouched w1 w2 → untouched w2 w3 → untouched w1 w3.
Proof. unfold untouched. intros (?&?&?&?&?&?&?) (?&?&?&?&?&?&?). split_and!; congruence. Qed.

Lemma locked_guarded name b mode req reply w : token_guarded name b mode → rr_Action req = name →
  untouched w (lockedAction b req reply w).1 ∨
  token_fits req ∧ mode ∧ (lockFor (rr_SenderID req) (rr_CallerID req) w).2.1 = true.
Proof.
  intros Hb Hname. unfold lockedAction. pose proof (lockFor_untouched (rr_SenderID req) (rr_CallerID req) w) as Hu.
  destruct (lockFor _ _ w) as [w1 [[] until]]; cbn [fst snd] in *; [|by left].
  destruct (Hb req reply w1) as [H|H]; [left; by eapply untouched_trans|right]. by destruct (H Hname).
Qed.

Lemma action_guarded req b reply w : (rr_Action req, b) ∈ prov_actions denied tmp_suffix randN agent →
  untouched w (b req reply w).1 ∨ token_fits req ∧ mode_fits req w.
Proof.
  unfold prov_actions, mode_fits. intros H. rewrite !elem_of_cons in H.
  destruct H as [H|[H|[H|[H|[H|[H|[H|[H|H]]]]]]]]; [..|by apply not_elem_of_nil in H];
    injection H as Hn ->; rewrite Hn.
  - destruct (locked_guarded _ _ _ req reply w configure_guarded Hn) as [?|(?&?&?)]; [by left|right; set_solver].
  - destruct (locked_guarded _ _ _ req reply w ed25519_guarded Hn) as [?|(?&?&?)]; [by left|right; set_solver].
  - destruct (locked_guarded _ _ _ req reply w csr_guarded Hn) as [?|(?&?&?)]; [by left|right; set_solver].
  - destruct (locked_guarded _ _ _ req reply w jwt_guarded Hn) as [?|(?&?&?)]; [by left|right; set_solver].
  - destruct (locked_guarded _ _ _ req reply w update_guarded Hn) as [?|(?&?&?)]; [by left|right; set_solver].
  - destruct (reprovision_guarded req reply w) as [?|[? ?]]; [by left|done|right; set_solver].
  - destruct (restart_guarded req reply w) as [?|[? ?]]; [by left|done|right; set_solver].
  - destruct (shutdown_guarded req reply w) as [?|[? ?]]; [by left|done|right; set_solver].
Qed.

Lemma register_all_sound l a a' : register_all l a = Ok a' →
  a_meta a' = a_meta a ∧ a_Config a' = a_Config a ∧
  ∀ n act, a_actions a' !! n = Some act → a_actions a !! n = Some act ∨ ∃ b, (n, b) ∈ l ∧ act = to_action b.
Proof.
  revert a. induction l as [|[name b] l IH]; intros a; cbn [register_all]; [intros [= ->]; by auto|].
  unfold MustRegisterAction. destruct (a_actions a !! name) eqn:Hn; [done|]. intros H. apply IH in H as (Hm & Hc & H).
  split_and!; [done..|]. intros n act Hact. destruct (H n act Hact) as [Ha|(b' & Hb & ->)]; [|right; exists b'; set_solver].
  cbn in Ha. destruct (decide (name = n)) as [<-|Hne].
  - rewrite lookup_insert_eq in Ha. injection Ha as <-. right. exists b. set_solver.
  - rewrite lookup_insert_ne in Ha by done. by left.
Qed.

Lemma returned_fst r : (returned r).1 = r.1.
Proof. by destruct r as [w [?|?|?]]. Qed.

Lemma agent_authorize_sound {W} fs (a : RpcAgent W) req : agent_authorize fs a req = true →
  rr_Agent req = md_Name (a_meta a) ∧ AuthorizeRequest fs (Some req) (Some (a_Config a)) (a_ServerInfo a) = true.
Proof.
  unfold agent_authorize. destruct (String.eqb_spec (rr_Agent req) (md_Name (a_meta a))); [by split|done].
Qed.

(** C8. The provisioning agent is guarded: handling a message changes neither a file, nor a
    key, nor starts a restart or an update, nor sends an event, unless the request passed
    the authorization the server is configured for, has the provisioning token when the
    build has one, and is for the mode the server is in: while it is provisioned, and by
    the caller who holds the lock, for the actions that configure it; outside of it for
    reprovisioning; in it or with a token for restarts. *)
Theorem provisioning_guarded (fs : filesystem) (cfg : RpcConfig) (si : option RpcServerInfo) a (msg : Message)
    (request : Transport.Request) (w : Prov) :
  Provision.New denied tmp_suffix randN agent cfg = Ok a →
  untouched w (HandleMessage fs (SetRpcServerInfo si a) msg request w).1 ∨
  ∃ req, parseIncomingMessage (m_payload msg) request = Ok req ∧
    (RPCAuthorization cfg = true → rr_Agent req = "choria_provision" ∧ AuthorizeRequest fs (Some req) (Some cfg) si = true) ∧
    token_fits req ∧ mode_fits req w.
Proof.
  intros (Hmeta & Hcfg & Hact)%register_all_sound. cbn in Hmeta, Hcfg, Hact.
  assert (∀ r : Prov * outcome Empty_set RpcReply, (match r with
    | (w', Ok reply) => (w', Ok (publish reply msg request)) | (w', Err e) => match e with end
    | (w', Panic p) => (w', Panic p) end : Prov * outcome Empty_set (option AgentReply)).1 = r.1) as Hfst
    by by intros [? [?|[]|?]].
  unfold HandleMessage. rewrite Hfst. clear Hfst. unfold handle. destruct (parseIncomingMessage _ _) as [req|e|p]; [|by left..].
  destruct (a_actions (SetRpcServerInfo si a) !! rr_Action req) as [act|] eqn:Ha; [|by left].
  destruct (Hact (rr_Action req) act Ha) as [?|(b & Hb & ->)]; [done|].
  destruct (RPCAuthorization _ && negb _) eqn:Hz; [by left|].
  unfold to_action. rewrite returned_fst.
  match goal with |- context [b req ?reply w] => destruct (action_guarded req b reply w Hb) as [H|[Htok Hmode]] end; [by left|].
  right. exists req. split_and!; [done| |done..]. intros Hrpc.
  change (a_Config (SetRpcServerInfo si a)) with (a_Config a) in Hz. rewrite Hcfg, Hrpc in Hz.
  apply negb_false_iff in Hz. apply agent_authorize_sound in Hz. cbn [a_meta a_Config a_ServerInfo SetRpcServerInfo] in Hz.
  by rewrite Hmeta, Hcfg in Hz.
Qed.

(** ** Replacing the configuration *)

(** A configuration file is replaced whole or not at all: either the number of lines is
    reported, and of all files only the configuration changed, to a text that the parser
    of configurations accepted, or an error is, and no file changed. *)
Theorem configuration_is_replaced_whole (settings : list (string * string)) (req : RpcRequest) (now : Z) (t t' : tree) o :
  abs_path (config_tmp tmp_suffix agent) ≠ abs_path (config_file agent) →
  writeConfig denied tmp_suffix agent settings req now t = (t', o) →
  t' = t ∧ is_ok o = false ∨
  o = Ok (1 + Z.of_nat (length settings))%Z ∧
  let text := config_text settings req now in
  t' = <[abs_path (config_file agent) := File text]> t ∧
  ∃ b, NewConfig (<[abs_path (config_tmp tmp_suffix agent) := File text]> t) (config_tmp tmp_suffix agent) = Ok b.
Proof.
  intros Hne. unfold writeConfig, with_err, mbind, ST_bind.
  destruct (os_CreateTemp _ _ t) as [t1 o1] eqn:Hc. apply create_spec in Hc as [[-> Ho]|(-> & Hd & Hn & -> & Hp)].
  { destruct o1 as [|e|p]; [done|intros [= <- <-]; by left..]. }
  cbn [map_err]. unfold deferred, gets, lift, id. rewrite rewrite_tmp by done. cbn [map_err].
  set (tmp := abs_path (config_tmp tmp_suffix agent)) in *. set (text := config_text settings req now).
  pose proof (remove_tmp denied (config_tmp tmp_suffix agent) text t Hd Hn) as Hrm. fold tmp in Hrm.
  destruct (NewConfig _ _) as [b|e|p] eqn:Hcfg; cbn [map_err];
    [|intros [= <- <-]; left; by rewrite Hrm..].
  destruct (os_Rename _ _ _ _) as [t2 o2] eqn:Hr. apply (rename_spec _ _ _ _ _ _ text) in Hr; [|by rewrite lookup_insert_eq].
  destruct Hr as [[-> Ho2]|(-> & _ & ->)].
  - destruct o2 as [|e|p]; [done|cbn [map_err]; intros [= <- <-]; left; by rewrite Hrm..].
  - cbn [map_err]. unfold mret, ST_ret. fold tmp. rewrite remove_absent; rewrite delete_insert_id by done.
    + intros [= <- <-]. right. split_and!; [done..|]. by exists b.
    + fold tmp. by rewrite lookup_insert_ne.
Qed.

End Guards.

(** ** A concrete server *)

#[local] Instance demo_signer_tokens : SignerTokens := {|
  st_ReadFile := λ f, Err ("open " +:+ f +:+ ": no such file or directory");
  ProvisioningPurpose := "choria_provisioning";
  st_purpose := λ _, OtherPurpose "";
  st_client_valid := λ _, Err "no client token";
  st_server_valid := λ _, Err "no server token";
  st_identity := λ _, Err "no token";
  st_caller := λ _, Err "no token";
|}.

(** Requests are their token; configuration is one setting and always parses. *)
#[local] Instance demo_prov_json : ProvJSON := {|
  parse_configure := λ s, Ok {|
    cr_Token := s; cr_Configuration := "{}"; cr_Key := ""; cr_Certificate := ""; cr_CA := ""; cr_SSLDir := "";
    cr_ECDHPublic := ""; cr_ServerJWT := "token"; cr_ActionPolicies := [("rpcutil.policy", "policy default allow")];
    cr_OPAPolicies := [] |};
  parse_csr := λ _, Err "unused";
  parse_ed25519 := λ s, Ok (s, "nonce");
  parse_token := Ok;
  parse_restart := λ s, Ok (s, (-1)%Z);
  parse_update := λ _, Err "unused";
  parse_settings := λ s, Ok [("identity", "node1")];
  prov_Marshal := λ d, match d with MessageReply m => m | _ => "" end;
|}.

#[local] Instance demo_prov_crypto : ProvCrypto := {|
  ECDHKeyPair := Ok ("private", "public");
  ECDHSharedSecret := λ a b, Ok (a +:+ b);
  Ed25519KeyPair := Ok ("seed", "public");
  Ed25519Sign := λ s m, Ok (s +:+ m);
  pem_block := unit;
  pem_Decode := λ _, None;
  IsEncryptedPEMBlock := λ _, false;
  DecryptPEMBlock := λ _ _, Err "unused";
  pem_Encode := λ ty b, ty +:+ b;
  prov_key := unit;
  prov_GenerateKey := Ok tt;
  MarshalPrivateKey := λ _, "private";
  MarshalPublicKey := λ _, "public";
  MarshalSubject := λ n, Ok (nm_CommonName n);
  CreateCSR := λ s _, Ok s;
|}.

#[local] Instance demo_prov_env : ProvEnv := {|
  NewConfig := λ t f, match read_file t (abs_path f) with Ok _ => Ok false | Err e => Err (error_text f e) | Panic p => Panic p end;
  updater_Apply := λ _ _, None;
  time_text := itoa;
  duration_text := itoa;
|}.

(** A server whose build has the token [{}]; [default] says whether it is provisioned. *)
Definition demo_prov_agent (def : string) : ProvAgent :=
  {| pa_Config := demo_settings; pa_LogFile := ""; pa_Certname := "node1";
     pa_bi := demo_build_info <| bi_ProvisionToken := "{}" |> <| bi_ProvisionModeDefault := def |> |}.

Definition demo_tree : tree :=
  {["/" := Dir; "/etc" := Dir; "/etc/choria" := Dir; "/etc/choria/server.conf" := File "old";
    "/etc/choria/server.jwt" := File "token of the old key"; "/etc/choria/server.seed" := File "old key";
    "/etc/choria/policies" := Dir; "/etc/choria/policies/rego" := Dir;
    "/etc/choria/policies/rego/default.rego" := File "default allow = false"]}.

Definition demo_prov : Prov :=
  {| pv_fs := demo_tree; pv_now := 0; pv_lockedUntil := zero_time; pv_lockedBy := ""; pv_ecdhPublic := "";
     pv_ecdhPrivate := ""; pv_allowRestart := true; pv_callbacks := []; pv_events := []; pv_updates := [] |}.

Definition demo_prov_config : RpcConfig :=
  {| RPCAuthorization := false; RPCAuthorizationProvider := ""; policyConfig := demo_policy_config |}.

Definition demo_prov_request : Transport.Request :=
  rq_set_message "choria_provision,reprovision"
    (NewRequest V2 (100 * Second) "choria_provision" "client" "choria=bob" 60 "42" "mcollective").

Definition demo_prov_message : Message :=
  match NewMessageFromRequest demo_framework (Ok "1") (Ok "2") demo_prov_request "mcollective.reply.bob" with
  | Ok (m, _) => m
  | _ => demo_message
  end.

Definition demo_prov_call (data : string) : RpcRequest :=
  {| rr_Agent := "choria_provision"; rr_Action := ""; rr_Data := data; rr_RequestID := "42"; rr_SenderID := "client";
     rr_CallerID := "choria=bob"; rr_Collective := "mcollective"; rr_TTL := 60; rr_Time := 0; rr_Filter := NewFilter;
     rr_CallerPublicData := ""; rr_SignerPublicData := "" |}.

Definition run_prov (def : string) (action : ProvAgent → body) : Prov * outcome RpcReply RpcReply :=
  action (demo_prov_agent def) (demo_prov_call "{}") newReply demo_prov.

(** A server can be sent back into provisioning mode with the token. *)
Lemma provisioning_guarded_witness :
  ∃ req, rr_Action req = "reprovision" ∧ token_fits (demo_prov_agent "false") req ∧
    mode_fits (demo_prov_agent "false") req demo_prov.
Proof.
  destruct (Provision.New (λ _, false) "1" (λ _, 0%Z) (demo_prov_agent "false") demo_prov_config) as [a|e|p] eqn:Ha;
    [|discriminate..].
  destruct (provisioning_guarded (λ _, false) "1" (λ _, 0%Z) (demo_prov_agent "false") ∅ demo_prov_config None a
    demo_prov_message demo_prov_request demo_prov Ha) as [(_ & _ & _ & _ & Hcb & _)|(req & Hp & _ & Htok & Hmode)].
  - exfalso. injection Ha as <-. revert Hcb. vm_compute. discriminate.
  - exists req. split_and!; [|exact Htok|exact Hmode]. assert (parseIncomingMessage (m_payload demo_prov_message) demo_prov_request
      = Ok req) as Hp' by exact Hp. clear - Hp'. revert Hp'. vm_compute. intros [= <-]. reflexivity.
Defined.

(** The second caller is refused until the lock of the first is over. *)
Lemma locks_exclude_witness : (0 + LockWindow ≤ LockWindow)%Z.
Proof.
  apply (locks_exclude [(0, ("a", "x")); (60 * Second, ("b", "x")); (LockWindow, ("b", "x"))]%Z demo_prov 0 0 2 0 LockWindow
    (lock_name "a" "x") (lock_name "b" "x")).
  - intros [|[|[|i]]] c; intros [= <-]; (split; [vm_compute; discriminate|]); intros [|[|[|j]]] d Hj [= <-]; try lia; vm_compute; discriminate.
  - lia.
  - discriminate.
  - vm_compute. reflexivity.
  - vm_compute. reflexivity.
Defined.

(** Names of senders and callers run together. *)
Example locks_run_together : lock_name "a.b" "c" = lock_name "a" "b.c".
Proof. reflexivity. Qed.

Lemma configuration_is_replaced_whole_witness :
  (writeConfig (λ _, false) "1" (demo_prov_agent "false") [("a", "b")] (demo_prov_call "{}") 0 demo_tree).2 = Ok 2%Z.
Proof.
  destruct (writeConfig (λ _, false) "1" (demo_prov_agent "false") [("a", "b")] (demo_prov_call "{}") 0 demo_tree) as [w' o] eqn:Hw.
  destruct (configuration_is_replaced_whole (λ _, false) "1" (demo_prov_agent "false") [("a", "b")] (demo_prov_call "{}")
    0 demo_tree w' o) as [[_ Ho]|[Ho _]].
  - vm_compute. discriminate.
  - exact Hw.
  - exfalso. apply (f_equal (λ r, is_ok r.2)) in Hw. cbn [snd] in Hw. rewrite Ho in Hw. revert Hw. vm_compute. discriminate.
  - exact Ho.
Defined.

(** A token that cannot be removed is not critical: the reply is aborted, but the key it is
    for has been replaced. *)
Example undeletable_token_loses_its_key :
  let denied := String.eqb "/etc/choria/server.jwt" in
  match run_prov "true" (ed25519Action denied) with
  | (w, Ok reply) =>
      re_Statuscode reply = Aborted ∧ pv_fs w !! "/etc/choria/server.jwt" = Some (File "token of the old key") ∧
      pv_fs w !! "/etc/choria/server.seed" = Some (File (hex_encode "seed"))
  | _ => False
  end.
Proof. vm_compute. done. Qed.

(** New action policies remove the policies of Open Policy Agent. *)
Example action_policies_remove_rego :
  match run_prov "true" (configureAction (λ _, false) "1") with
  | (w, Ok reply) =>
      re_Statuscode reply = OK ∧ pv_fs w !! "/etc/choria/policies/rpcutil.policy" = Some (File "policy default allow") ∧
      pv_fs w !! "/etc/choria/policies/rego/default.rego" = None
  | _ => False
  end.
Proof. vm_compute. done. Qed.

(** A restart with a negative splay ends the server. *)
Example negative_splay_panics : (run_prov "true" (restartAction (λ _, 0%Z))).2 = Panic "invalid argument to N".
Proof. vm_compute. reflexivity. Qed.
