(* ===== verification/ExternalAgents.v ===== *)
(** * Agents outside the program

    providers/agent/mcorpc/external: the provider that finds the DDLs of external agents on
    disk and keeps the agents of the server in step with them (provider.go), and the actions
    and activation checks that run their programs (agent.go).  The programs, the ages of
    files and the decoding of replies are arguments; logging is left out.  The working
    directory is the root. *)
From S2P Require Import Prelude Facts AuthTypes Transport SecureMessages Security DemoLibs Message DemoServer AgentsTheorems Records GoLib Files Regex Util Validator Connection AgentManager DDL Rpc Tree.

(** ** State *)

Record Provider := {
  pr_agents : list DDL;
  pr_paths : gmap string string;
}.

(** A program to run: its arguments, what its request, facts and environment are, and how
    long it may take. *)
Record extern_run := {
  er_args : list string;
  er_env : list string;
  er_request : string;
  er_facts : option string;
  er_timeout : Z;
}.

(** What actions of external agents change: nothing of the provider; the runs so far. *)
Record Ext := {
  xt_provider : Provider;
  xt_runs : list extern_run;
}.

Abbreviation ExtAgent := (RpcAgent Ext).

(** The server: its manager beside the provider. *)
Record World := {
  wo_ext : Ext;
  wo_mgr : Manager ExtAgent;
}.

Inductive extern_protocol := RpcRequestProtocol | ActivationProtocol.

Definition protocol_name (p : extern_protocol) : string :=
  match p with
  | RpcRequestProtocol => "io.choria.mcorpc.external.v1.rpc_request"
  | ActivationProtocol => "io.choria.mcorpc.external.v1.activation_request"
  end.

(** [Request], with the schema and protocol of all of them. *)
Record ExternRequest := {
  xr_Agent : string;
  xr_Action : string;
  xr_RequestID : string;
  xr_SenderID : string;
  xr_CallerID : string;
  xr_Collective : string;
  xr_TTL : Z;
  xr_Time : Z;
  xr_Data : string;
}.

(** The host: names of temporary files, the architecture in names of programs, the path, how
    programs end with their replies; JSON: requests, the reply that is decoded into what was
    there, which keeps what was decoded before an error, and objects. *)
Class ExternHost := {
  eh_CreateTemp : string → res string;
  eh_platform : string;
  eh_PATH : string;
  eh_run : extern_run → res (Z * res string);
  eh_activation_Marshal : string → string;
  eh_activation_Unmarshal : string → res bool;
  eh_request_Marshal : ExternRequest → res string;
  eh_reply_Unmarshal : string → RpcReply → RpcReply * res ();
  eh_object_Marshal : gmap string value → string;
}.

Section External.
Context `{DLib : DDLLib} `{RX : Regexp} `{DF : DDLFiles} `{EH : ExternHost}.
Variable Collectives : list string.
Variable net : network.
Variable si : option RpcServerInfo.
Variable rpc_config : RpcConfig.
(** [plugin.choria.agent_provider.mcorpc.libdir], the file of the configuration, the files,
    and how long ago each was changed. *)
Variable libdirs : list string.
Variable ConfigFile : string.
Variable t : tree.
Variable age : string → option Z.

Definition denyList : list string :=
  ["rpcutil"; "choria_util"; "choria_provision"; "choria_registry"; "discovery"; "scout"].
Definition fileChangeGrace : Z := 5 * Second.

Definition shouldLoadAgent (name : string) : bool := negb (elem name denyList).

Definition findInAgentList (agents : list DDL) (cb : DDL → bool) : option DDL := List.find cb agents.

(** ** Finding agents on disk *)

(** Directories exist but cannot be read as files. *)
Definition filesystem_of (t : tree) : filesystem :=
  (λ n, match n with File c => Some c | Dir => None end) <$> t.

(** What the walk does at a path: the agent there, if any, and whether it goes on into it. *)
Definition visit (agentsDir path : string) (n : node) : option DDL * bool :=
  if String.eqb path agentsDir then (None, true)
  else
    let fname := path_base path in
    if String.eqb fname "tmp" then (None, true)
    else
      let is_dir := match n with Dir => true | File _ => false end in
      let ddlPath := if is_dir then path_join [path; fname +:+ ".json"] else path in
      let on := negb is_dir in
      if negb (FileExist t ddlPath) then (None, on)
      else
        let ext := path_ext ddlPath in
        let name := trim_suffix fname ext in
        if negb (String.eqb ext ".json") then (None, on)
        else
          match NewDDL (filesystem_of t) ddlPath with
          | Ok ddl =>
              if negb (String.eqb (md_Provider (ddl_Metadata ddl)) "external") then (None, true)
              else if negb (shouldLoadAgent name) then (None, on)
              else (Some ddl, on)
          | _ => (None, on)
          end.

(** The paths in the order of the walk, but for those in a directory that is skipped. *)
Fixpoint visit_all (agentsDir : string) (l : list (string * node)) (skip : option string) : list DDL :=
  match l with
  | [] => []
  | (path, n) :: rest =>
      if match skip with Some d => under d path | None => false end then visit_all agentsDir rest skip
      else
        let '(found, on) := visit agentsDir path n in
        let skip := if on then None else Some path in
        match found with
        | Some ddl => ddl :: visit_all agentsDir rest skip
        | None => visit_all agentsDir rest skip
        end
  end.

Definition agents_in (libDir : string) : list DDL :=
  let agentsDir := path_join [libDir; "mcollective"; "agent"] in
  match WalkDir agentsDir t with
  | Ok l => visit_all agentsDir l None
  | _ => []
  end.

Definition eachAgent : list DDL := concat (map agents_in libdirs).

Definition shouldProcessModifiedDDL (path : string) : bool :=
  if String.eqb path "" then false
  else match age path with Some since => negb (since <? fileChangeGrace)%Z | None => false end.

(** ** Running programs *)

Definition agentPath (name dir : string) : string :=
  let base := path_dir dir in
  if String.eqb base "" then ""
  else
    let agentNameOrDir := path_join [base; name] in
    if FileIsRegular t agentNameOrDir then agentNameOrDir
    else path_join [agentNameOrDir; name +:+ "-" +:+ eh_platform].

(** The last argument of any program is the protocol of requests. *)
Definition the_run (command protocol reqfile repfile factsfile req agentName : string) (facts : option string) (timeout : Z) :
    extern_run :=
  {| er_args := [command; reqfile; repfile; protocol_name RpcRequestProtocol];
     er_env := ["CHORIA_EXTERNAL_REQUEST=" +:+ reqfile; "CHORIA_EXTERNAL_REPLY=" +:+ repfile;
                "CHORIA_EXTERNAL_PROTOCOL=" +:+ protocol;
                "CHORIA_EXTERNAL_CONFIG=" +:+ path_join ["/"; path_join [path_dir ConfigFile; "plugin.d"; agentName]];
                "CHORIA_EXTERNAL_FACTS=" +:+ factsfile; "PATH=" +:+ eh_PATH];
     er_request := req; er_facts := facts; er_timeout := timeout |}.

(** The reply that was written, and the run if there was one. *)
Definition executeRequest (command : string) (protocol : extern_protocol) (req agentName : string) (facts : option string)
    (timeout : Z) : list extern_run * res string :=
  match eh_CreateTemp "request", eh_CreateTemp "reply", eh_CreateTemp "facts" with
  | Ok reqfile, Ok repfile, Ok factsfile =>
      let r := the_run command (protocol_name protocol) reqfile repfile factsfile req agentName facts timeout in
      let base := path_base command in
      match eh_run r with
      | Ok (code, reply) =>
          ([r], if negb (Z.eqb code 0) then Err ("executing " +:+ base +:+ " failed: exit status " +:+ itoa code)
                else map_err (λ e, "failed to read reply json: " +:+ e) reply)
      | Err e => ([r], Err ("executing " +:+ base +:+ " failed: " +:+ e))
      | Panic p => ([r], Panic p)
      end
  | Ok _, Ok _, Err e => ([], Err ("could not create facts temp file: " +:+ e))
  | Ok _, Err e, _ => ([], Err ("could not create reply temp file: " +:+ e))
  | Err e, _, _ => ([], Err ("could not create request temp file: " +:+ e))
  | _, _, _ => ([], Panic "temporary files")
  end.

(** A check that fails does not activate. *)
Definition externalActivationCheck (ddl : DDL) : list extern_run * res bool :=
  let name := md_Name (ddl_Metadata ddl) in
  if String.eqb (ddl_SourceLocation ddl) ""
  then ([], Err ("do not know where DDL for " +:+ name +:+ " is located on disk, cannot activate"))
  else
    let path := agentPath name (ddl_SourceLocation ddl) in
    if negb (FileExist t path) then ([], Ok false)
    else
      let '(runs, r) := executeRequest path ActivationProtocol (eh_activation_Marshal name) name None (2 * Second) in
      (runs, match r with
             | Ok j => Ok match eh_activation_Unmarshal j with Ok b => b | _ => false end
             | Err _ => Ok false
             | Panic p => Panic p
             end).

(** ** Actions *)

Definition abortAction (reason : string) (reply : RpcReply) : RpcReply := fail_reply Aborted reason reply.

Definition agentDDL (p : Provider) (a : string) : option DDL :=
  List.find (λ d, String.eqb (md_Name (ddl_Metadata d)) a) (pr_agents p).

(** Warnings are logged. *)
Definition validateRequest (ddl : DDL) (req : RpcRequest) : res () :=
  act ← map_err (λ e, "could not load action: " +:+ e) (ActionInterface ddl (rr_Action req));
  (ValidateRequestJSON act (rr_Data req)).2.

Definition newExternalRequest (req : RpcRequest) : ExternRequest :=
  {| xr_Agent := rr_Agent req; xr_Action := rr_Action req; xr_RequestID := rr_RequestID req; xr_SenderID := rr_SenderID req;
     xr_CallerID := rr_CallerID req; xr_Collective := rr_Collective req; xr_TTL := rr_TTL req;
     xr_Time := Z.quot (rr_Time req) Second; xr_Data := rr_Data req |}.

Definition with_data (d : string) (r : RpcReply) : RpcReply :=
  {| re_Action := re_Action r; re_Statuscode := re_Statuscode r; re_Statusmsg := re_Statusmsg r; re_Data := Some d;
     re_DisableResponse := re_DisableResponse r |}.

Definition setReplyDefaults (ddl : DDL) (action : string) (reply : RpcReply) : res RpcReply :=
  act ← map_err (λ e, "could not load action: " +:+ e) (ActionInterface ddl action);
  match match re_Data reply with None => Some [] | Some d => json_Object d end with
  | None => Err "reply data is in the wrong format"
  | Some m => Ok (with_data (eh_object_Marshal (SetOutputDefaults act (list_to_map (rev m)))) reply)
  end.

Definition the_timeout (md : Metadata) : Z := (wrap64 (md_Timeout md * Second) + 1500000000)%Z.

(** The agent is what the metadata says that were registered with it. *)
Definition externalAction (md : Metadata) : Action Ext := λ req reply w,
  let action := rr_Agent req +:+ "#" +:+ rr_Action req in
  let p := xt_provider w in
  let stop reason := (w, Ok (abortAction reason reply)) in
  match pr_paths p !! md_Name md with
  | None => stop ("Cannot determine DDL path for agent " +:+ md_Name md)
  | Some ddlpath =>
      match agentDDL p (md_Name md) with
      | None => stop ("Cannot find DDL for agent " +:+ md_Name md)
      | Some ddl =>
          let path := agentPath (md_Name md) ddlpath in
          if String.eqb path "" || negb (FileExist t path)
          then stop ("Cannot call external agent " +:+ action +:+ ": agent executable was not found")
          else
            match validateRequest ddl req with
            | Err e => stop ("Validation failed: " +:+ e)
            | Panic m => (w, Panic m)
            | Ok _ =>
                match eh_request_Marshal (newExternalRequest req) with
                | Err e => stop ("Could not call external agent " +:+ action +:+ ": json request creation failed: " +:+ e)
                | Panic m => (w, Panic m)
                | Ok j =>
                    let '(runs, r) := executeRequest path RpcRequestProtocol j (md_Name md) (option_map rsi_Facts si) (the_timeout md) in
                    let w := w <| xt_runs ::= λ l, l ++ runs |> in
                    let failed e reply := (w, Ok (abortAction ("Could not call external agent " +:+ action +:+ ": " +:+ e) reply)) in
                    match r with
                    | Panic m => (w, Panic m)
                    | Err e => failed e reply
                    | Ok repjson =>
                        match eh_reply_Unmarshal repjson reply with
                        | (reply, Err e) => failed ("failed to decode reply json: " +:+ e) reply
                        | (_, Panic m) => (w, Panic m)
                        | (reply, Ok _) =>
                            match setReplyDefaults ddl (rr_Action req) reply with
                            | Ok reply => (w, Ok reply)
                            | Err e => (w, Ok (abortAction ("Could not set reply defaults: " +:+ e) reply))
                            | Panic m => (w, Panic m)
                            end
                        end
                    end
                end
            end
      end
  end.

(** Two actions of one name panic. *)
Fixpoint register_actions (md : Metadata) (actions : list DDL.Action) (a : ExtAgent) : res ExtAgent :=
  match actions with
  | [] => Ok a
  | act :: rest =>
      match MustRegisterAction (act_Name act) (externalAction md) a with
      | (a, Ok _) => register_actions md rest a
      | (_, Err e) => Err e
      | (_, Panic p) => Panic p
      end
  end.

Definition set_activation (b : bool) (a : ExtAgent) : ExtAgent :=
  {| a_meta := a_meta a; a_actions := a_actions a; a_Config := a_Config a; a_ServerInfo := a_ServerInfo a; a_activationCheck := b |}.

Definition newExternalAgent (ddl : DDL) : ST World string ExtAgent := λ w,
  let '(runs, r) := externalActivationCheck ddl in
  let w := w <| wo_ext ::= λ x, x <| xt_runs ::= λ l, l ++ runs |> |> in
  (w, match r with
      | Ok activate => register_actions (ddl_Metadata ddl) (ddl_Actions ddl) (set_activation activate (New (ddl_Metadata ddl) rpc_config))
      | Err e => Err ("could not activation check " +:+ md_Name (ddl_Metadata ddl) +:+ ": " +:+ e)
      | Panic p => Panic p
      end).

(** ** Reconciliation *)

#[local] Instance ext_agent_ops : AgentOps ExtAgent := rpc_agent_ops si.

Definition on_mgr {A} (m : ST (Manager ExtAgent) string A) : ST World string A := λ w,
  let '(g, r) := m (wo_mgr w) in (w <| wo_mgr := g |>, r).

Definition provider (w : World) : Provider := xt_provider (wo_ext w).
Definition set_provider (f : Provider → Provider) (w : World) : World :=
  w <| wo_ext ::= λ x, x <| xt_provider ::= f |> |>.

Definition same_name (d : DDL) (a : DDL) : bool := String.eqb (md_Name (ddl_Metadata a)) (md_Name (ddl_Metadata d)).

(** An agent that cannot be made is logged by its name, of which there is none. *)
Definition register_new (candidate : DDL) : ST World string () :=
  agents ← gets (λ w, pr_agents (provider w));
  if bool_decide (is_Some (findInAgentList agents (same_name candidate))) ||
     negb (shouldProcessModifiedDDL (ddl_SourceLocation candidate))
  then mret tt
  else
    r ← attempt (F:=string) (newExternalAgent candidate);
    match r with
    | inr _ => lift (Panic "invalid memory address or nil pointer dereference")
    | inl agent =>
        r ← attempt (F:=string) (on_mgr (RegisterAgent Collectives net (md_Name (a_meta agent)) agent));
        match r with
        | inr _ => mret tt
        | inl _ =>
            modify (set_provider (λ p, {| pr_agents := pr_agents p ++ [candidate];
              pr_paths := <[md_Name (ddl_Metadata candidate) := ddl_SourceLocation candidate]> (pr_paths p) |}))
        end
    end.

Fixpoint registerNewAgents (found : list DDL) : ST World string () :=
  match found with
  | [] => mret tt
  | c :: rest => register_new c;; registerNewAgents rest
  end.

Definition upgrade_of (current a : DDL) : bool :=
  same_name current a &&
  negb (String.eqb (md_Version (ddl_Metadata a)) (md_Version (ddl_Metadata current)) &&
        String.eqb (ddl_SourceLocation a) (ddl_SourceLocation current)) &&
  shouldProcessModifiedDDL (ddl_SourceLocation a).

Definition upgrade_one (found : list DDL) (i : nat) (current : DDL) : ST World string () :=
  match findInAgentList found (upgrade_of current) with
  | None => mret tt
  | Some candidate =>
      let name := md_Name (ddl_Metadata candidate) in
      r ← attempt (F:=string) (newExternalAgent candidate);
      match r with
      | inr _ => mret tt
      | inl agent =>
          r ← attempt (F:=string) (on_mgr (ReplaceAgent name agent));
          match r with
          | inr _ => mret tt
          | inl _ =>
              modify (set_provider (λ p, {| pr_agents := <[i := candidate]> (pr_agents p);
                pr_paths := <[name := ddl_SourceLocation candidate]> (pr_paths p) |}))
          end
      end
  end.

Fixpoint upgrade_from (found : list DDL) (i : nat) (known : list DDL) : ST World string () :=
  match known with
  | [] => mret tt
  | d :: rest => upgrade_one found i d;; upgrade_from found (S i) rest
  end.

Definition upgradeExistingAgents (found : list DDL) : ST World string () :=
  known ← gets (λ w, pr_agents (provider w)); upgrade_from found 0 known.

(** The positions of the agents that were unregistered. *)
Fixpoint unregister_orphans (found : list DDL) (i : nat) (known : list DDL) : ST World string (list nat) :=
  match known with
  | [] => mret []
  | d :: rest =>
      match findInAgentList found (same_name d) with
      | Some _ => unregister_orphans found (S i) rest
      | None =>
          let name := md_Name (ddl_Metadata d) in
          r ← attempt (F:=string) (on_mgr (UnregisterAgent net name));
          match r with
          | inr _ => unregister_orphans found (S i) rest
          | inl _ =>
              modify (set_provider (λ p, {| pr_agents := pr_agents p; pr_paths := delete name (pr_paths p) |}));;
              removed ← unregister_orphans found (S i) rest;
              mret (i :: removed)
          end
      end
  end.

(** [append(l[:i], l[i+1:]...)] *)
Definition remove_at {A} (i : nat) (l : list A) : res (list A) :=
  if Nat.leb (S i) (length l) then Ok (take i l ++ drop (S i) l)
  else Panic ("slice bounds out of range [" +:+ itoa (Z.of_nat (S i)) +:+ ":" +:+ itoa (Z.of_nat (length l)) +:+ "]").

(** The positions are those before any was removed. *)
Fixpoint remove_all (positions : list nat) (l : list DDL) : res (list DDL) :=
  match positions with
  | [] => Ok l
  | i :: rest => l ← remove_at i l; remove_all rest l
  end.

Definition removeOrphanAgents (found : list DDL) : ST World string () :=
  known ← gets (λ w, pr_agents (provider w));
  removed ← unregister_orphans found 0 known;
  l ← lift (remove_all removed known);
  modify (set_provider (λ p, {| pr_agents := l; pr_paths := pr_paths p |})).

Definition reconcileAgents : ST World string () :=
  let found := List.filter (λ d, negb (String.eqb (ddl_SourceLocation d) "")) eachAgent in
  registerNewAgents found;;
  upgradeExistingAgents found;;
  removeOrphanAgents found.

End External.

(** * Theorems on external agents

    Their programs run only for requests that were authorized and validated, and what
    becomes of the provider when agents vanish from disk. *)

Section External.
Context `{DLib : DDLLib} `{RX : Regexp} `{DF : DDLFiles} `{EH : ExternHost}.
Variable Collectives : list string.
Variable net : network.
Variable si : option RpcServerInfo.
Variable rpc_config : RpcConfig.
Variable libdirs : list string.
Variable ConfigFile : string.
Variable t : tree.
Variable age : string → option Z.

(** ** Programs *)

(** The one run of a program for a request: the agent is known with the DDL that validates
    the request, its program is there, and gets the request as it was. *)
Definition run_for (md : Metadata) (p : Provider) (req : RpcRequest) (r : extern_run) : Prop :=
  ∃ ddl path act j,
    agentDDL p (md_Name md) = Some ddl ∧ pr_paths p !! md_Name md = Some path ∧
    ActionInterface ddl (rr_Action req) = Ok act ∧ is_ok (ValidateRequestJSON act (rr_Data req)).2 = true ∧
    FileExist t (agentPath t (md_Name md) path) = true ∧ head (er_args r) = Some (agentPath t (md_Name md) path) ∧
    eh_request_Marshal (newExternalRequest req) = Ok j ∧ er_request r = j ∧ er_timeout r = the_timeout md.

Lemma executeRequest_runs command protocol req name facts timeout :
  let '(runs, r) := executeRequest ConfigFile command protocol req name facts timeout in
  runs = [] ∧ is_ok r = false ∨
  ∃ x, runs = [x] ∧ head (er_args x) = Some command ∧ er_request x = req ∧ er_timeout x = timeout.
Proof.
  unfold executeRequest. destruct (eh_CreateTemp "request"), (eh_CreateTemp "reply"), (eh_CreateTemp "facts"); try (by left).
  destruct (eh_run _) as [[code reply]| |]; right; by eexists.
Qed.

(** An action leaves the provider as it is and runs at most one program, for its request. *)
Lemma externalAction_runs md req reply w :
  let w' := (externalAction si ConfigFile t md req reply w).1 in
  xt_provider w' = xt_provider w ∧
  (xt_runs w' = xt_runs w ∨ ∃ r, xt_runs w' = xt_runs w ++ [r] ∧ run_for md (xt_provider w) req r).
Proof.
  cbv zeta. unfold externalAction. destruct (pr_paths _ !! _) as [path|] eqn:Hpath; [|by split; [|left]].
  destruct (agentDDL _ _) as [ddl|] eqn:Hddl; [|by split; [|left]].
  destruct (_ || _) eqn:Hf; [by split; [|left]|]. apply orb_false_iff in Hf as [_ Hf%negb_false_iff].
  destruct (validateRequest ddl req) as [[]|e|p] eqn:Hv; [|by split; [|left]..].
  destruct (eh_request_Marshal _) as [j|e|p] eqn:Hj; [|by split; [|left]..].
  unfold validateRequest in Hv. apply outcome_bind_Ok in Hv as (act & Ha%map_err_inv & Hv).
  pose proof (executeRequest_runs (agentPath t (md_Name md) path) RpcRequestProtocol j (md_Name md) (option_map rsi_Facts si) (the_timeout md)) as Hx.
  destruct (executeRequest _ _ _ _ _ _ _) as [runs r]. set (w1 := w <| xt_runs ::= λ l, l ++ runs |>).
  assert (xt_provider w1 = xt_provider w ∧
    (xt_runs w1 = xt_runs w ∨ ∃ r, xt_runs w1 = xt_runs w ++ [r] ∧ run_for md (xt_provider w) req r)) as H.
  { split; [by destruct w|]. destruct Hx as [[-> _]|(x & -> & Hc & Hr & Ht)].
    - left. destruct w. cbn. by rewrite app_nil_r.
    - right. exists x. split; [by destruct w|]. exists ddl, path, act, j. rewrite Hv. done. }
  destruct r as [rep|e|p]; [|done..]. destruct (eh_reply_Unmarshal rep reply) as [reply' [u|e|p]]; [|done..].
  by destruct (setReplyDefaults ddl (rr_Action req) reply').
Qed.

Lemma register_actions_only md acts a a' : register_actions si ConfigFile t md acts a = Ok a' →
  a_meta a' = a_meta a ∧ a_Config a' = a_Config a ∧ a_ServerInfo a' = a_ServerInfo a ∧
  ∀ name f, a_actions a' !! name = Some f → f = externalAction si ConfigFile t md ∨ a_actions a !! name = Some f.
Proof.
  revert a. induction acts as [|act acts IH]; intros a; cbn [register_actions]; [intros [= <-]; eauto|].
  unfold MustRegisterAction. destruct (a_actions a !! act_Name act); [done|].
  intros (Hm & Hc & Hs & H)%IH. split_and!; [done..|]. intros name f [->|Hf]%H; [by left|]. cbn in Hf.
  apply lookup_insert_Some in Hf as [[_ <-]|[_ Hf]]; [by left|by right].
Qed.

Lemma newExternalAgent_spec ddl w w' a : newExternalAgent si rpc_config ConfigFile t ddl w = (w', Ok a) →
  a_meta a = ddl_Metadata ddl ∧ a_Config a = rpc_config ∧
  ∀ name f, a_actions a !! name = Some f → f = externalAction si ConfigFile t (ddl_Metadata ddl).
Proof.
  unfold newExternalAgent. destruct (externalActivationCheck _ _ ddl) as [runs [b|e|p]]; [|done..]. intros [= _ H].
  apply register_actions_only in H as (Hm & Hc & _ & H). split_and!; [done..|].
  intros name f [->|Hf]%H; [done|]. cbn in Hf. by apply lookup_empty_Some in Hf.
Qed.

Context `{TL : TokenLib} `{RJ : RpcJSON} `{OP : OPA} `{FL : FactLib}.

(** C10. The programs of external agents are guarded: handling a message runs one only when
    the message is a request that the configured authorization allowed for that agent and
    whose data the DDL of the agent on disk validates; then it runs the program of the agent
    once, for at most its time, with the request as it was. *)
Theorem external_programs_are_guarded (fs : filesystem) (ddl : DDL) (w0 w0' : World) (a : ExtAgent) (si' : option RpcServerInfo)
    (msg : Message) (request : Transport.Request) (w : Ext) :
  newExternalAgent si rpc_config ConfigFile t ddl w0 = (w0', Ok a) →
  let a := SetRpcServerInfo si' a in
  let w' := (HandleMessage fs a msg request w).1 in
  xt_provider w' = xt_provider w ∧
  (xt_runs w' = xt_runs w ∨
   ∃ req r, parseIncomingMessage (m_payload msg) request = Ok req ∧ xt_runs w' = xt_runs w ++ [r] ∧
     (RPCAuthorization rpc_config = true →
        rr_Agent req = md_Name (ddl_Metadata ddl) ∧ AuthorizeRequest fs (Some req) (Some rpc_config) si' = true) ∧
     run_for (ddl_Metadata ddl) (xt_provider w) req r).
Proof.
  intros (Hm & Hc & Hacts)%newExternalAgent_spec. cbv zeta. unfold HandleMessage.
  assert ((match handle fs (SetRpcServerInfo si' a) msg request w with
           | (w', Ok reply) => (w', Ok (publish reply msg request)) | (w', Err e) => match e with end
           | (w', Panic p) => (w', Panic p) end).1 = (handle fs (SetRpcServerInfo si' a) msg request w).1) as ->
    by by destruct (handle fs _ msg request w) as [w2 [|[]|]].
  unfold handle. destruct (parseIncomingMessage _ _) as [req|e|p] eqn:Hp; [|by split; [|left]..].
  cbn [SetRpcServerInfo a_actions a_Config]. destruct (a_actions a !! rr_Action req) as [f|] eqn:Hf; [|by split; [|left]].
  destruct (RPCAuthorization (a_Config a) && _) eqn:Hauth; [by split; [|left]|]. rewrite (Hacts _ _ Hf).
  edestruct (externalAction_runs (ddl_Metadata ddl) req) as [Hpr [Hr|(r & Hr & Hrun)]]; (split; [exact Hpr|]); [by left|].
  right. exists req, r. split_and!; [done..| |done]. intros Hon. rewrite Hc, Hon in Hauth. cbn in Hauth. apply negb_false_iff in Hauth.
  unfold agent_authorize in Hauth. cbn [SetRpcServerInfo a_meta a_Config a_ServerInfo] in Hauth. rewrite Hm, Hc in Hauth.
  destruct (String.eqb_spec (rr_Agent req) (md_Name (ddl_Metadata ddl))) as [Hn|]; [|done]. by split.
Qed.

End External.

(** ** Agents that vanish *)

Section Orphans.
Variable net : network.




Definition vanished (found : list DDL) (d : DDL) : bool := negb (bool_decide (is_Some (findInAgentList found (same_name d)))).


Definition name_of (d : DDL) : string := md_Name (ddl_Metadata d).

Fixpoint positions (found : list DDL) (i : nat) (known : list DDL) : list nat :=
  match known with
  | [] => []
  | d :: rest => if vanished found d then i :: positions found (S i) rest else positions found (S i) rest
  end.







End Orphans.

(** ** Concrete agents *)

#[local] Existing Instance ext_agent_ops.
#[local] Existing Instance DDL.demo_ddl_lib.

Definition demo_ddl_action : DDL.Action :=
  {| act_Name := "run"; act_Input := ∅; act_Output := ∅; act_Display := "failed"; act_Description := ""; act_Aggregation := [] |}.

Definition demo_ddl (name version provider : string) : DDL :=
  {| ddl_Schema := ""; ddl_Actions := [demo_ddl_action]; ddl_SourceLocation := "";
     ddl_Metadata := {| md_Name := name; md_Version := version; md_Timeout := 10; md_Service := false; md_Provider := provider |} |}.

(** A DDL is its name, version and provider. *)
#[local] Instance demo_extern_files : DDLFiles := {|
  walk_files := λ _, [];
  ddl_Unmarshal := λ s, match split s "," with [n; v; p] => Some (demo_ddl n v p) | _ => None end;
  CachedDDL := λ _, None;
|}.

#[local] Instance demo_host : ExternHost := {|
  eh_CreateTemp := λ n, Ok ("/tmp/" +:+ n);
  eh_platform := "linux_amd64";
  eh_PATH := "/bin";
  eh_run := λ r, Ok (0%Z, Ok "{}");
  eh_activation_Marshal := id;
  eh_activation_Unmarshal := λ _, Ok true;
  eh_request_Marshal := λ r, Ok (xr_Action r);
  eh_reply_Unmarshal := λ _ reply, (reply, Ok tt);
  eh_object_Marshal := λ _, "{}";
|}.

Definition demo_extern_tree (ddls : list (string * string)) : tree :=
  list_to_map ((("/lib/mcollective/agent"), Dir) ::
    map (λ nd, ("/lib/mcollective/agent/" +:+ nd.1 +:+ ".json", File nd.2)) ddls ++
    map (λ nd, ("/lib/mcollective/agent/" +:+ nd.1, File "program")) ddls).

Definition demo_no_auth : RpcConfig := {| RPCAuthorization := false; RPCAuthorizationProvider := ""; policyConfig := demo_policy_config |}.

Definition demo_reconcile (ddls : list (string * string)) : ST World string () :=
  reconcileAgents ["mcollective"] (demo_net true) None demo_no_auth ["/lib"] "/etc/choria/server.conf" (demo_extern_tree ddls)
    (λ _, Some (60 * Second)%Z).

Definition demo_world : World :=
  {| wo_ext := {| xt_provider := {| pr_agents := []; pr_paths := ∅ |}; xt_runs := [] |}; wo_mgr := new_manager false no_subscriptions |}.

Definition known_to (w : World) : list string := map name_of (pr_agents (provider w)).

Definition three : list (string * string) := [("a", "a,1,external"); ("b", "b,1,external"); ("c", "c,1,external")].
Definition demo_three : World := (demo_reconcile three demo_world).1.

Lemma demo_three_ready : known_to demo_three = ["a"; "b"; "c"] ∧ KnownAgents (wo_mgr demo_three) = ["a"; "b"; "c"].
Proof. split; vm_compute; reflexivity. Qed.

(** The first two agents vanish: the provider keeps one of them and forgets the third, which
    the manager still has and which can never be registered again. *)
Example the_wrong_agent_is_forgotten :
  let w := (demo_reconcile [("c", "c,1,external")] demo_three).1 in
  known_to w = ["b"] ∧ KnownAgents (wo_mgr w) = ["c"] ∧
  known_to (demo_reconcile [("c", "c,1,external")] w).1 = ["b"].
Proof. cbv zeta. split_and!; vm_compute; reflexivity. Qed.

(** The last two vanish: the program panics. *)
Example the_last_two_panic :
  (demo_reconcile [("a", "a,1,external")] demo_three).2 = Panic "slice bounds out of range [3:2]".
Proof. vm_compute. reflexivity. Qed.

(** Names are denied by the name of the file: an agent that may not be supplied is, by a file
    of another name. *)
Example denied_by_file_name :
  known_to (demo_reconcile [("choria_provision", "choria_provision,1,external")] demo_world).1 = [] ∧
  known_to (demo_reconcile [("harmless", "choria_provision,1,external")] demo_world).1 = ["choria_provision"].
Proof. split; vm_compute; reflexivity. Qed.

(** Two copies of one agent take turns: every pass replaces one by the other. *)
Example copies_alternate :
  let both := [("a", "a,1,external"); ("z", "a,1,external")] in
  let place w := map ddl_SourceLocation (pr_agents (provider w)) in
  let w1 := (demo_reconcile both demo_world).1 in
  let w2 := (demo_reconcile both w1).1 in
  place w1 = ["/lib/mcollective/agent/z.json"] ∧ place w2 = ["/lib/mcollective/agent/a.json"].
Proof. cbv zeta. split; vm_compute; reflexivity. Qed.


Definition demo_known : DDL :=
  {| ddl_Schema := ""; ddl_Actions := [demo_ddl_action]; ddl_SourceLocation := "/lib/mcollective/agent/a.json";
     ddl_Metadata := ddl_Metadata (demo_ddl "a" "1" "external") |}.

Definition demo_ext : Ext :=
  {| xt_provider := {| pr_agents := [demo_known]; pr_paths := {["a" := "/lib/mcollective/agent/a.json"]} |}; xt_runs := [] |}.

Definition demo_new_agent : World * res ExtAgent :=
  newExternalAgent None demo_no_auth "/etc/choria/server.conf" (demo_extern_tree three) demo_known demo_world.

Definition demo_ext_agent : ExtAgent :=
  match demo_new_agent.2 with Ok a => a | _ => New (ddl_Metadata demo_known) demo_no_auth end.

Definition demo_run_request : Transport.Request :=
  rq_set_message "a,run" (NewRequest V2 (100 * Second) "a" "client" "choria=bob" 60 "42" "mcollective").

Definition demo_run_message : Message :=
  match NewMessageFromRequest demo_framework (Ok "1") (Ok "2") demo_run_request "mcollective.reply.bob" with
  | Ok (m, _) => m
  | _ => DemoServer.demo_message
  end.

Lemma demo_made : demo_new_agent = (demo_new_agent.1, Ok demo_ext_agent).
Proof. reflexivity. Qed.

Lemma external_programs_are_guarded_witness :
  ∃ r, xt_runs (HandleMessage demo_fs (SetRpcServerInfo None demo_ext_agent) demo_run_message demo_run_request demo_ext).1 = [r] ∧
    er_timeout r = 11500000000%Z.
Proof.
  destruct (external_programs_are_guarded None demo_no_auth "/etc/choria/server.conf" (demo_extern_tree three) demo_fs
    demo_known demo_world _ demo_ext_agent None demo_run_message demo_run_request demo_ext demo_made) as [_ [H|(req & r & _ & Hr & _ & Hrun)]].
  - exfalso. assert (length (xt_runs (HandleMessage demo_fs (SetRpcServerInfo None demo_ext_agent) demo_run_message demo_run_request demo_ext).1) = 1) as Hl
      by (vm_compute; reflexivity). rewrite H in Hl. discriminate.
  - exists r. split; [exact Hr|]. destruct Hrun as (ddl & path & act & j & _ & _ & _ & _ & _ & _ & _ & _ & Ht). rewrite Ht. reflexivity.
Defined.
