(* ===== verification/WrittenConfig.v ===== *)
(** * Configurations that are written and read

    The file that provisioning writes, read by the parser of configuration files, and facts
    on the files that are found. *)
From S2P Require Import Prelude Records GoLib Tree Regex Files Util GoNum Validator Transport SecureMessages Message Rpc Sha256Sums Confkey Config DemoLibs Provision.

(** ** Lines *)

(** Trimming keeps a first byte of ASCII that is no white space. *)
Lemma trim_space_keeps a s : low a → is_space a = false → ∃ t, trim_space (String a s) = String a t.
Proof.
  intros Hl Ha. unfold trim_space, trim_left_space. rewrite (trim_runes_none space_rune2 space_rune3).
  2: { unfold space_width. rewrite Ha. destruct s as [|b s]; [done|]. rewrite (rune2_low _ space_rune2_high) by auto.
       destruct s as [|c s]; [done|]. by rewrite (rune3_low _ space_rune3_high) by auto. }
  unfold trim_right_space. change (String a s) with (String a "" +:+ s) at 2. rewrite rev_string_append.
  change (rev_string (String a "")) with (String a "").
  destruct (trim_runes_keeps _ _ right_rune2_high right_rune3_high a (String.length (String a s)) (rev_string s) Hl Ha) as [t Ht].
  unfold right_width. rewrite Ht, rev_string_append. by exists (rev_string t).
Qed.

Lemma comment_is_skipped prefix s : parse_line prefix (String "#" s) = None.
Proof.
  unfold parse_line. destruct (trim_space_keeps "#" s ltac:(vm_compute; lia) eq_refl) as [t ->].
  assert (re_match skipr (String "#" t) = true) as ->; [|done].
  rewrite re_match_search. unfold re_search, skipr. cbn. by eexists.
Qed.

Definition setting_line (kv : string * string) : string := kv.1 +:+ "=" +:+ kv.2.

(** A setting that fits a line of the file. *)
Definition clean_setting (kv : string * string) : Prop :=
  clean_key kv.1 ∧ clean_value kv.2 ∧ plain_line (setting_line kv).

Section Written.
Context `{TL : TimeLib} `{RX : Regexp}.
Variable env : string → option string.
Variable windows : bool.

(** What is found of a content does not depend on the structure it is parsed for, nor on what
    the structure makes of the values. *)
Lemma found_of_lines prefix lines : ∀ config found config' found',
  fold_left (parse_step env windows prefix) lines (Ok (config, found)) = Ok (config', found') →
  found' = fold_left (λ m line, match parse_line prefix line with Some (k, v) => <[k := v]> m | None => m end) lines found.
Proof.
  assert (∀ lines (acc : outcome string (option struct * gmap string string)), is_ok acc = false →
    is_ok (fold_left (parse_step env windows prefix) lines acc) = false) as Hfail.
  { induction lines0 as [|line lines0 IH]; intros acc H; [done|]. cbn. apply IH. by destruct acc. }
  induction lines as [|line lines IH]; intros config found config' found'; [by intros [= <- <-]|]. cbn [fold_left].
  unfold parse_step at 2. cbn [mbind outcome_bind]. destruct (parse_line prefix line) as [[k v]|]; [|apply IH].
  destruct config as [s|]; [|apply IH].
  destruct (SetStructFieldWithKey env windows k v s) as [s' [|e|p]]; [apply IH..|].
  intros H. specialize (Hfail lines (Panic p) eq_refl). rewrite H in Hfail. done.
Qed.

Definition put_setting (m : gmap string string) (kv : string * string) : gmap string string := <[kv.1 := kv.2]> m.

Lemma settings_found settings : Forall clean_setting settings → ∀ found,
  fold_left (λ m line, match parse_line "" line with Some (k, v) => <[k := v]> m | None => m end) (map setting_line settings) found =
  fold_left put_setting settings found.
Proof.
  induction 1 as [|[k v] l (Hk & Hv & _) _ IH]; intros found; [done|]. cbn [map fold_left].
  unfold setting_line at 2. cbn [fst snd] in *. rewrite parse_clean_line by done. apply IH.
Qed.

Context `{SG : SignerTokens} `{PE : !ProvEnv}.

Definition header_line (req : RpcRequest) (now : Z) : string :=
  "# configuration file written in request " +:+ rr_RequestID req +:+ " from " +:+ rr_CallerID req +:+ " (" +:+
  rr_SenderID req +:+ ") at " +:+ time_text now.

Lemma config_text_lines settings req now :
  config_text settings req now = unlines (header_line req now :: map setting_line settings).
Proof.
  unfold config_text, header_line. cbn [unlines foldr]. rewrite !append_assoc'. do 8 f_equal.
  change (newline +:+ ?x) with (String newline_char x). f_equal.
  induction settings as [|kv l IH]; [done|]. destruct l as [|kv' l].
  - cbn. unfold setting_line. by rewrite !append_assoc'.
  - change (String.concat "" (map ?f (kv :: kv' :: l))) with (f kv +:+ "" +:+ String.concat "" (map f (kv' :: l))).
    rewrite IH. cbn [map unlines foldr]. unfold setting_line at 3. rewrite !append_assoc'. done.
Qed.

(** C33. What provisioning writes is what is read, when its settings are clean, which means
    that key and value are not empty, have no white space around them and no line end in
    them, and the key has no = and no # at its start, and when the header and every setting
    are lines that the scanner takes: parsing a configuration file that the configure
    action wrote, into the configuration of a server or into nothing, does not fail unless
    it panics on a value, passes over the comment that names the request, and finds exactly
    the settings that were sent, the last one of each key. *)
Theorem written_settings_are_read (t : tree) (path : string) (into : target) settings req now (c : Config) :
  t !! path_clean path = Some (File (config_text settings req now)) →
  plain_line (header_line req now) → Forall clean_setting settings →
  match parseConfig env windows t path into "" c with
  | Ok c' => cg_rawOpts c' = fold_left put_setting settings (cg_rawOpts c) ∧ cg_ConfigFile c' = cg_ConfigFile c
  | Err _ => False
  | Panic _ => into ≠ NoTarget
  end.
Proof.
  intros Hp Hh Hs. unfold parseConfig, open_file. rewrite Hp. cbn [mbind outcome_bind]. unfold parseConfigContents.
  rewrite config_text_lines, scan_unlines by (constructor; [done|]; apply Forall_map; by apply (Forall_impl _ _ _ Hs); intros ? (_ & _ & ?)).
  cbn [fst]. set (lines := header_line req now :: _).
  assert (∀ m, fold_left (λ m line, match parse_line "" line with Some (k, v) => <[k := v]> m | None => m end) lines m =
    fold_left put_setting settings m) as Hf.
  { intros m. unfold lines. cbn [fold_left]. unfold header_line. rewrite append_cons, comment_is_skipped. by apply settings_found. }
  destruct (fold_left (parse_step env windows "") lines _) as [[s found]|e|p] eqn:E.
  - apply found_of_lines in E. rewrite Hf in E. cbn [mbind outcome_bind]. subst found.
    destruct into, s; done.
  - exfalso. clear -E. revert E. generalize lines. intros l.
    assert (∀ l acc, (∀ e, acc ≠ Err e) → fold_left (parse_step env windows "") l acc ≠ Err e) as H.
    { clear. induction l as [|line l IH]; intros acc H; [apply H|]. cbn. apply IH. intros e'. destruct acc as [[s f]| |]; [|done..].
      unfold parse_step. cbn [mbind outcome_bind]. destruct (parse_line "" line) as [[k v]|]; [|done]. destruct s as [st|]; [|done].
      by destruct (SetStructFieldWithKey env windows k v st) as [? [| |]]. }
    by apply H.
  - intros ->. rewrite parse_steps_found in E. done.
Qed.

End Written.

(** ** The files of a project *)

Definition dir_path (names : list string) : string :=
  match names with [] => "/" | _ => foldl (λ d a, d +:+ "/" +:+ a) "" names end.

Lemma root_child a : simple_name a → path_clean ("/" +:+ a) = "/" +:+ a ∧ "/" +:+ a ≠ "/" ∧ path_dir ("/" +:+ a) = "/".
Proof.
  intros Ha. assert (split ("/" +:+ a) slash = [""; a]) as Hs.
  { change (split ("" +:+ "/" +:+ a) slash = [""; a]). by rewrite split_append, (proj2 Ha). }
  assert (a ≠ "") as Hne by (intros ->; apply (proj1 Ha); set_solver). split_and!.
  - unfold path_clean. rewrite Hs. change (String.eqb ("/" +:+ a) "") with false. change (has_prefix ("/" +:+ a) "/") with (has_prefix a "").
    rewrite has_prefix_nil. cbn [fold_left]. rewrite simple_step by done. done.
  - by destruct a.
  - unfold path_dir. unfold rev_string at 2. rewrite bytes_append, rev_app_distr. change (rev (bytes "/")) with [slash].
    rewrite trim_left_bytes; [done| |done]. apply Forall_rev. apply (Forall_impl _ _ _ (simple_no_slash a Ha)).
    intros c Hc. by rewrite (proj2 (Ascii.eqb_neq c slash)).
Qed.

Lemma dir_path_snoc names a : dir_path (names ++ [a]) = (if decide (names = []) then "" else dir_path names) +:+ "/" +:+ a.
Proof. destruct names as [|x names]; [done|]. rewrite decide_False by done. unfold dir_path. cbn [app foldl]. by rewrite foldl_app. Qed.

Lemma dir_path_clean names a : Forall simple_name (names ++ [a]) → clean_dir (dir_path (names ++ [a])).
Proof.
  revert a. induction names as [|y names IH] using rev_ind; intros a H.
  - apply (Forall_singleton simple_name) in H. destruct (root_child a H) as (? & ? & _). by split_and!; [apply has_prefix_nil| |].
  - apply Forall_app in H as [H Ha%Forall_inv]. rewrite dir_path_snoc, decide_False by (by destruct names). apply child_clean; [by apply IH|done].
Qed.

Lemma dir_path_parent names a : Forall simple_name (names ++ [a]) →
  path_dir (dir_path (names ++ [a])) = dir_path names ∧ dir_path names ≠ dir_path (names ++ [a]).
Proof.
  intros H. pose proof (dir_path_clean names a H) as (_ & _ & Hroot). apply Forall_app in H as [H Ha%Forall_inv].
  destruct names as [|b names _] using rev_ind; [split; [by apply root_child|]; by apply not_eq_sym|].
  rewrite (dir_path_snoc (_ ++ _)), decide_False in * by (by destruct names).
  split; [by apply dir_child; [apply dir_path_clean|]|]. intros E. rewrite <- (append_nil_r (dir_path _)) in E at 1. by apply append_eq_inv in E.
Qed.

Lemma dir_path_length names : length names ≤ String.length (dir_path names).
Proof.
  induction names as [|a names IH] using rev_ind; [cbn; lia|]. rewrite dir_path_snoc, length_app, !length_append. cbn [length String.length].
  destruct (decide (names = [])) as [->|]; cbn [length String.length] in *; lia.
Qed.

Section Projects.
Variable t : tree.

Definition project_file (names : list string) : string := path_join [dir_path names; "choria.conf"].

Lemma project_files_enough names : Forall simple_name names → ∀ fuel, length names < fuel →
  project_files t fuel (dir_path names) =
  filter (λ f, FileExist t f = true) (map (λ n, project_file (take n names)) (seq 0 (S (length names)))).
Proof.
  induction names as [|a names IH] using rev_ind; intros H [|fuel] Hf; [lia| |lia|].
  - cbn [project_files]. change (path_dir (dir_path [])) with "/". change (String.eqb "/" (dir_path [])) with true. cbn [app].
    cbn [length seq map take]. unfold project_file. rewrite filter_cons, filter_nil. cbn [dir_path].
    destruct (FileExist t _); [by rewrite decide_True|by rewrite decide_False].
  - cbn [project_files]. destruct (dir_path_parent names a H) as [-> Hne]. rewrite (proj2 (String.eqb_neq _ _) Hne).
    rewrite length_app in *. cbn [length] in *. rewrite IH by (lia || by apply Forall_app in H as [? _]).
    rewrite (seq_S (length names + 1)), map_app, filter_app. rewrite Nat.add_1_r.
    f_equal; [f_equal; apply map_ext_in; intros n Hn%in_seq; rewrite take_app_le by lia; done|].
    cbn [map]. rewrite take_ge by (rewrite length_app; cbn; lia). rewrite filter_cons, filter_nil. unfold project_file.
    destruct (FileExist t _); [by rewrite decide_True|by rewrite decide_False].
Qed.

(** The configuration of a project: from a directory, every [choria.conf] there and in the
    directories above it is found, those nearest the root first, so that the nearest
    directory has the last word; the search ends at the root. *)
Theorem project_files_from_the_root names : Forall simple_name names →
  ProjectConfigurationFiles t (dir_path names) =
  filter (λ f, FileExist t f = true) (map (λ n, project_file (take n names)) (seq 0 (S (length names)))).
Proof.
  intros H. unfold ProjectConfigurationFiles.
  assert (has_prefix (dir_path names) "/" = true) as ->.
  { destruct names as [|a names _] using rev_ind; [done|]. by destruct (dir_path_clean names a H). }
  apply project_files_enough; [done|]. pose proof (dir_path_length names). lia.
Qed.

End Projects.

(** ** Concrete configurations *)

#[local] Existing Instance Provision.demo_prov_env.

Definition demo_config : Config :=
  {| cg_main := []; cg_Choria := []; cg_ConfigFile := "/etc/choria/server.conf"; cg_ParsedFiles := []; cg_rawOpts := ∅;
     cg_InitiatedByServer := true; cg_DisableSecurityProviderVerify := false; cg_DisableTLS := false; cg_DisableTLSVerify := false |}.

Definition demo_settings : list (string * string) :=
  [("identity", "node1"); ("plugin.choria.server.provision", "false"); ("identity", "node1.example.net")].

Definition demo_written : tree :=
  {["/etc/choria/server.conf" := File (config_text demo_settings (Provision.demo_prov_call "{}") 7)]}.

Lemma demo_settings_clean : Forall clean_setting demo_settings.
Proof. repeat constructor; apply (bool_decide_unpack _); vm_compute; exact I. Qed.

Lemma written_settings_are_read_witness : ∃ c',
  parseConfig (λ _, None) false demo_written "/etc/choria/server.conf" NoTarget "" demo_config = Ok c' ∧
  cg_rawOpts c' !! "identity" = Some "node1.example.net" ∧ cg_rawOpts c' !! "plugin.choria.server.provision" = Some "false".
Proof.
  pose proof (written_settings_are_read (PE:=Provision.demo_prov_env) (λ _, None) false demo_written "/etc/choria/server.conf" NoTarget demo_settings
    (Provision.demo_prov_call "{}") 7 demo_config ltac:(vm_compute; reflexivity)
    ltac:(repeat split; apply (bool_decide_unpack _); vm_compute; exact I) demo_settings_clean) as H.
  destruct (parseConfig _ _ _ _ _ _ _) as [c'|e|p]; [|destruct H|destruct (H eq_refl)].
  exists c'. split; [reflexivity|]. destruct H as [-> _]. split; vm_compute; reflexivity.
Defined.

Lemma project_files_from_the_root_witness :
  ProjectConfigurationFiles {["/choria.conf" := File ""; "/src/app/choria.conf" := File ""]} "/src/app" =
  ["/choria.conf"; "/src/app/choria.conf"].
Proof.
  change "/src/app" with (dir_path ["src"; "app"]). rewrite project_files_from_the_root.
  - vm_compute. reflexivity.
  - repeat constructor; apply (bool_decide_unpack _); vm_compute; exact I.
Defined.

Definition level_field : cfield :=
  {| c_name := "LogLevel"; c_tags := [("confkey", "loglevel"); ("default", "info"); ("validate", "enum=info,debug")]; c_value := VString "" |}.

(** U+00A0 *)
Definition no_break_space : string := String (ascii_of_nat 194) (String (ascii_of_nat 160) "").

(** Settings that are not clean: an empty value is not found, white space around a value is
    lost, of all kinds that Unicode has, and a line end starts another setting. *)
Example unclean_settings :
  map (parse_line "") (split (join ["identity="; "main_collective=  mco  "; "loglevel=warn" +:+ no_break_space;
    "registration=none"; "plugin.security.provider=file"] (String newline_char "")) newline_char) =
  [None; Some ("main_collective", "mco"); Some ("loglevel", "warn"); Some ("registration", "none");
   Some ("plugin.security.provider", "file")].
Proof. vm_compute. reflexivity. Qed.

(** A value that is not valid is refused and stays. *)
Example invalid_value_stays : ∃ e,
  SetStructFieldWithKey (λ _, None) false "loglevel" "loud" [level_field] = ([with_value level_field (VString "loud")], Err e).
Proof. eexists. lazy. reflexivity. Qed.

Definition user_field (tags : list (string * string)) : cfield :=
  {| c_name := "NatsUser"; c_tags := ("confkey", "plugin.nats.user") :: ("environment", "MCOLLECTIVE_NATS_USERNAME") :: tags; c_value := VString "" |}.

(** The environment is asked only for settings that have a default. *)
Example environment_needs_a_default :
  (SetStructDefaults (λ _, Some "bob") false [user_field []]).1 = [user_field []] ∧
  (SetStructDefaults (λ _, Some "bob") false [user_field [("default", "")]]).1 = [with_value (user_field [("default", "")]) (VString "bob")].
Proof. split; lazy; reflexivity. Qed.

(** A file in [plugin.d] whose name ends in [.conf] is taken for one that ends in [.cfg]. *)
Example conf_files_of_plugins_are_not_read :
  let t := {["/etc/choria/plugin.d" := Dir; "/etc/choria/plugin.d/package.conf" := File (String.append "setting = value" newline)]} in
  ReadDir t "/etc/choria/plugin.d" = ["package.conf"] ∧ parseAllDotCfg (λ _, None) false t demo_config = Ok demo_config.
Proof. split; vm_compute; reflexivity. Qed.

(** A blank path panics. *)
Example blank_path_panics : ExpandPath (λ _, None) false " " = Panic "index out of range [0] with length 0".
Proof. reflexivity. Qed.
