(* ===== verification/DiscoveryTheorems.v ===== *)
(** * Theorems on discovery without asking the network

    An inventory finds the nodes whose servers would answer, of a filter with one compound
    filter at most and no groups; searches in PuppetDB do not depend on the case of what
    they look for; and what comes out of files and programs. *)
From S2P Require Import Prelude Records GoLib Regex Files Util Facts Filters DemoLibs Confkey Sha256Sums Config WrittenConfig Discovery.

(** ** Inventories *)

Section Agreement.
Context `{FL : FactLib} `{RX : Regexp} `{EL : !ExprLib}.
Variable ctx : nat → nat → option string.

(** A server that is what the inventory says of a node. *)
Definition server_of (n : Inventory.Node) : ServerInfoSource :=
  {| si_Classes := Inventory.nd_Classes n; si_Facts := Inventory.nd_Facts n; si_Identity := Inventory.nd_Name n;
     si_KnownAgents := Inventory.nd_Agents n; si_DataFuncMap := None |}.

(** At most one compound filter, which compiles. *)
Definition compiles (f : Filter) : Prop :=
  CompoundFilters f = [] ∨
  ∃ m q, CompoundFilters f = [[m]] ∧ m !! "expr" = Some q ∧ is_Some (expr_Compile q nil_FuncMap).

Definition selected (collective : string) (f : Filter) (n : Inventory.Node) : bool :=
  (String.eqb collective "" || StringInList (Inventory.nd_Collectives n) collective) && MatchServerRequest f (server_of n).

Lemma compiled f : compiles f → ∃ prog, Inventory.compound_program f = Ok prog ∧
  ∀ n, (if Empty f then true else Inventory.node_matches f prog n) = MatchServerRequest f (server_of n).
Proof.
  intros [H|(m & q & H & Hq & [prog Hp])].
  - exists None. unfold Inventory.compound_program. rewrite H. split; [done|]. intros n.
    unfold MatchServerRequest, Inventory.node_matches. rewrite H. done.
  - exists (Some prog). unfold Inventory.compound_program. rewrite H, Hq. cbn [default from_option id]. rewrite Hp. split; [done|]. intros n.
    unfold MatchServerRequest, Inventory.node_matches, MatchCompound, MatchExprString. rewrite H. cbn [server_of si_Classes si_Facts si_Identity si_KnownAgents si_DataFuncMap].
    cbn [MatchExprString_loop default from_option]. rewrite Hq, Hp.
    by destruct (MatchExprProgram prog (Inventory.nd_Facts n) (Inventory.nd_Classes n) (Inventory.nd_Agents n) nil_FuncMap) as [[]| |].
Qed.

Lemma select_nodes_spec pass prog collective f nodes : (∀ j, ctx pass j = None) →
  (∀ n, (if Empty f then true else Inventory.node_matches f prog n) = MatchServerRequest f (server_of n)) → ∀ i matched,
  Inventory.select_nodes ctx pass i prog collective f nodes matched =
  Ok (matched ++ map Inventory.nd_Name (List.filter (selected collective f) nodes)).
Proof.
  intros Hctx Hf. induction nodes as [|n nodes IH]; intros i matched; cbn [Inventory.select_nodes List.filter map]; [by rewrite app_nil_r|].
  rewrite Hctx. cbv zeta. unfold selected at 1. rewrite <- Hf.
  destruct (String.eqb collective ""), (StringInList _ collective), (Empty f), (Inventory.node_matches f prog n); cbn [negb orb andb];
    rewrite IH; cbn [map]; by rewrite <- ?app_assoc.
Qed.

(** C17. The selection of the nodes of an inventory agrees with the servers, when the
    context is not done and the filter has no compound filter, or just one, which compiles:
    of the nodes of the collective it finds, in the order of the file, exactly those whose
    servers, were they as the inventory says and without data functions, would act on a
    request with the filter.  Groups are resolved before, in every collective, and of
    several compound filters an inventory looks at the first alone: neither is covered. *)
Theorem inventory_agrees_with_servers (pass : nat) (d : Inventory.DataFile) (collective : string) (f : Filter) :
  (∀ j, ctx pass j = None) → compiles f →
  Inventory.selectMatchingNodes ctx pass d collective f =
  Ok (map Inventory.nd_Name (List.filter (selected collective f) (Inventory.df_Nodes d))).
Proof.
  intros Hctx (prog & Hp & Hf)%compiled. unfold Inventory.selectMatchingNodes. rewrite Hp. cbn [mbind outcome_bind].
  by rewrite (select_nodes_spec pass prog collective f (Inventory.df_Nodes d) Hctx Hf).
Qed.

(** Groups are looked up in all collectives. *)
Lemma groups_ignore_collectives `{IL : !Inventory.InventoryLib} (fs : filesystem) (o : Inventory.dOpts) (collective : string) :
  existsb Inventory.is_group (IdentityFilters (Inventory.do_filter o)) = true →
  Inventory.discover fs ctx (o <| Inventory.do_collective := collective |>) = Inventory.discover fs ctx o.
Proof.
  intros [g [Hg Hp]]%existsb_exists. unfold Inventory.discover. destruct o. cbn in *. destruct (Inventory.ReadInventory _ _ _) as [data| |]; [|done..].
  cbn [mbind outcome_bind]. destruct (Inventory.isValidGroupLookup do_filter) as [[]| |] eqn:E; [done| |done..].
  exfalso. unfold Inventory.isValidGroupLookup in E.
  destruct (Nat.eqb_spec (length (List.filter Inventory.is_group (IdentityFilters do_filter))) 0) as [H|_]; [|by repeat case_match].
  apply length_zero_iff_nil in H. apply (in_nil (a:=g)). rewrite <- H. by apply filter_In.
Qed.

End Agreement.

(** ** Searches in PuppetDB *)

(** The same but for the case of letters. *)
Fixpoint fold_case (s : string) : string :=
  match s with "" => "" | String c rest => String (PuppetDB.lower_char c) (fold_case rest) end.

Lemma either_case_folds a b : PuppetDB.lower_char a = PuppetDB.lower_char b → PuppetDB.either_case a = PuppetDB.either_case b.
Proof.
  assert (∀ c, PuppetDB.either_case c = PuppetDB.either_case (PuppetDB.lower_char c)) as H
    by (intros [[] [] [] [] [] [] [] []]; reflexivity).
  intros E. by rewrite (H a), E, <- H.
Qed.

Lemma either_cases_fold s : ∀ t, fold_case s = fold_case t → PuppetDB.either_cases s = PuppetDB.either_cases t.
Proof.
  induction s as [|a s IH]; intros [|b t]; try done. intros [= Hab Hst]. cbn. by rewrite (either_case_folds a b Hab), (IH t Hst).
Qed.

Lemma greedy_until_slash part : ∀ n p c k r, one_line part → String.length part < n → (∀ p c, k p "" c = None) →
  k (p + String.length part)%nat "/" c = Some r → star_loop true (mt any_char) k n p (part +:+ "/") c = Some r.
Proof.
  induction part as [|a part IH]; intros [|n] p c k r Hl Hn Hnone Hk; try (cbn in Hn; lia).
  - change ("" +:+ "/") with (String slash ""). cbn in Hk. rewrite Nat.add_0_r in Hk. cbn [star_loop].
    rewrite any_char_step by done. rewrite (proj2 (Nat.eqb_neq (S p) p)) by lia. destruct n as [|n]; cbn; by rewrite Hnone.
  - apply no_byte_cons in Hl as [Ha Hl]. rewrite append_cons. cbn [star_loop]. rewrite any_char_step by done.
    rewrite (proj2 (Nat.eqb_neq (S p) p)) by lia. fold (star_loop true (mt any_char) k).
    rewrite (IH n (S p) c k r); [done|done|cbn in Hn; lia|done|]. cbn in Hk. by rewrite Nat.add_succ_r in Hk.
Qed.

Definition slashed (part : string) : string := "/" +:+ part +:+ "/".

Lemma in_regex_slashed part : part ≠ "" → one_line part → PuppetDB.in_regex (slashed part) = Some part.
Proof.
  intros Hne Hl. unfold PuppetDB.in_regex, re_search, slashed. destruct part as [|a part]; [done|].
  assert (mt PuppetDB.stringIsRegex 0 ("/" +:+ String a part +:+ "/") [] accept = Some [(1, String a part)]) as H.
  2:{ change ("/" +:+ ?x) with (String slash x) in *. cbn [search_at]. by rewrite H. }
  pose proof Hl as [Ha Hl']%no_byte_cons. change ("/" +:+ ?x) with (String slash x). unfold PuppetDB.stringIsRegex, Plus.
  cbn [mt Nat.eqb chr]. change (is_byte slash "/") with true. rewrite (append_cons a).
  change (is_byte "/" slash) with true. cbv iota. rewrite any_char_step by done.
  apply (greedy_until_slash part); [done|rewrite length_append; cbn; lia|done|].
  cbn [mt]. change (is_byte "/" "/") with true. cbv iota. unfold accept. do 3 f_equal. rewrite <- append_cons.
  replace (_ - 1) with (String.length (String a part)) by (cbn; lia). apply take_bytes_append.
Qed.

(** A pattern that is anchored matches nowhere but at the start. *)
Lemma anchored_later r s : ∀ p, search_at (Seq Bol r) (S p) s = None.
Proof. induction s as [|b s IH]; intros p; [done|]. cbn. apply IH. Qed.

Lemma in_pql_slash s : PuppetDB.in_pql (String slash s) = None.
Proof. unfold PuppetDB.in_pql, re_search, PuppetDB.stringIsPQL. cbn [search_at]. rewrite anchored_later. reflexivity. Qed.

Lemma fold_case_empty a b : fold_case a = fold_case b → a ≠ "" → b ≠ "".
Proof. by destruct a, b. Qed.

Lemma fold_case_slash a b : fold_case a = fold_case b → has_prefix a "/" = false → has_prefix b "/" = false.
Proof.
  destruct a as [|c a], b as [|d b]; try done. intros [= Hcd _]. rewrite !has_prefix_cons, !has_prefix_nil, !andb_true_r.
  assert (∀ c, bool_decide ("/"%char = c) = bool_decide ("/"%char = PuppetDB.lower_char c)) as H by (intros [[] [] [] [] [] [] [] []]; reflexivity).
  by rewrite (H c), Hcd, <- H.
Qed.

Lemma in_regex_plain s : has_prefix s "/" = false → PuppetDB.in_regex s = None.
Proof.
  intros H. unfold PuppetDB.in_regex, re_search, PuppetDB.stringIsRegex. destruct s as [|c s]; [done|].
  cbn [search_at]. rewrite anchored_later. cbn [mt Nat.eqb chr].
  rewrite has_prefix_cons, has_prefix_nil, andb_true_r in H. apply bool_decide_eq_false in H. rewrite is_byte_false by congruence. done.
Qed.

Lemma pattern_ignores_case a b : fold_case a = fold_case b → has_prefix a "/" = false →
  PuppetDB.stringRegex a = PuppetDB.stringRegex b.
Proof.
  intros Hf Ha. unfold PuppetDB.stringRegex. rewrite !in_regex_plain by eauto using fold_case_slash. by apply either_cases_fold.
Qed.

(** Searches do not depend on the case of the letters of a pattern: identities, classes,
    agents and the values of fact filters that are patterns become the same query whatever
    the case they are written in. *)
Theorem patterns_ignore_case `{FL : FactLib} (Title : string → string) (a b fact : string) :
  fold_case a = fold_case b → a ≠ "" → has_prefix a "/" = false → one_line a → one_line b →
  PuppetDB.node_query (slashed a) = PuppetDB.node_query (slashed b) ∧
  PuppetDB.class_query Title (slashed a) = PuppetDB.class_query Title (slashed b) ∧
  PuppetDB.agent_query Title (slashed a) = PuppetDB.agent_query Title (slashed b) ∧
  PuppetDB.fact_query {| ff_Fact := fact; ff_Operator := "=~"; ff_Value := slashed a |} =
  PuppetDB.fact_query {| ff_Fact := fact; ff_Operator := "=~"; ff_Value := slashed b |}.
Proof.
  intros Hf Ha Hp Hla Hlb. pose proof (fold_case_empty a b Hf Ha) as Hb. pose proof (pattern_ignores_case a b Hf Hp) as He.
  assert (PuppetDB.stringRegex (slashed a) = PuppetDB.stringRegex (slashed b)) as Hs.
  { unfold PuppetDB.stringRegex. rewrite !in_regex_slashed by done. by apply either_cases_fold. }
  assert (∀ x, PuppetDB.in_pql (slashed x) = None) as Hq by (intros x; apply in_pql_slash).
  assert (∀ x, elem (slashed x) ["scout"; "rpcutil"; "choria_util"] = false) as Hn by done.
  unfold PuppetDB.node_query, PuppetDB.class_query, PuppetDB.agent_query, PuppetDB.fact_query. cbn [ff_Operator ff_Value].
  rewrite !Hq, !Hn, !in_regex_slashed, He, Hs by done. done.
Qed.

Lemma patterns_ignore_case_witness :
  PuppetDB.node_query (slashed "Web[0-9]") = PuppetDB.node_query (slashed "wEB[0-9]").
Proof. refine (proj1 (patterns_ignore_case id "Web[0-9]" "wEB[0-9]" "" _ _ _ _ _)); try done; apply (bool_decide_unpack _); vm_compute; exact I. Defined.

(** Escapes of a pattern are lost: a digit becomes a bracket and two letters. *)
Example escapes_are_lost : PuppetDB.node_query "/\d+/" = "certname ~ " +:+ PuppetDB.quoted "\[dD]+".
Proof. vm_compute. reflexivity. Qed.

(** Bytes outside ASCII become two. *)
Example other_letters_are_mangled : String.length (PuppetDB.stringRegex (String "195" (String "164" ""))) = 4.
Proof. vm_compute. reflexivity. Qed.

(** ** Files of nodes *)

Section Flat.
Context `{RX : Regexp} `{FB : FlatFile.FlatLib}.
Variable fs : filesystem.

Lemma validateNodes_spec nodes : FlatFile.validateNodes nodes = Ok tt ↔ Forall (λ n, re_match FlatFile.validIdentity n = true) nodes.
Proof.
  induction nodes as [|n nodes IH]; cbn; [by split|]. rewrite Forall_cons.
  destruct (re_match _ n); [rewrite IH; naive_solver|]. split; [done|]. by intros [? _].
Qed.

Lemma filter_nodes_spec n nodes f : n ∈ Identity.FilterNodes nodes f ↔ n ∈ nodes ∧ Identity.match_one n f = true.
Proof. unfold Identity.FilterNodes. rewrite !list_elem_of_In, filter_In. done. Qed.

(** What is discovered in a file are valid identities of it, those that the identity
    filters select when there are any; a filter on anything else is refused; and every line
    of a file of valid names is found, in order. *)
Theorem flat_files_are_filtered (opts : list FlatFile.DiscoverOption) (l : list string) :
  let o := FlatFile.with_user_options (fold_left FlatFile.apply_option opts
             {| FlatFile.do_source := ""; FlatFile.do_format := FlatFile.unknownFormat; FlatFile.do_reader := None;
                FlatFile.do_filter := None; FlatFile.do_do := ∅ |}) in
  FlatFile.Discover fs opts = Ok l →
  ∃ nodes, Forall (λ n, re_match FlatFile.validIdentity n = true) nodes ∧
    match FlatFile.do_filter o with
    | Some f =>
        FlatFile.only_identities f = true ∧
        (slice_len (Identity_ f) = 0%nat → l = nodes) ∧
        (0 < slice_len (Identity_ f) → ∀ n, n ∈ l ↔ n ∈ nodes ∧ MatchIdentity f n = true)
    | None => l = nodes
    end ∧
    ∃ data, FlatFile.read_nodes o data = Ok nodes ∧
      match FlatFile.do_reader o with Some r => data = r | None => os_Open fs (FlatFile.do_source o) = Ok data end.
Proof.
  intros o. unfold FlatFile.Discover. fold o.
  set (o0 := fold_left FlatFile.apply_option opts _) in *.
  assert (FlatFile.do_filter o = FlatFile.do_filter o0) as Hfo.
  { unfold o, FlatFile.with_user_options. destruct o0. cbn. by destruct (_ !! "file"), (_ !! "format"). }
  destruct (match FlatFile.do_filter o0 with Some f => _ | None => false end) eqn:Honly; [done|].
  destruct (_ && _); [done|].
  intros (data & Hdata & (nodes & Hn & ([] & Hv & H)%outcome_bind_Ok)%outcome_bind_Ok)%outcome_bind_Ok.
  exists nodes. split; [by apply validateNodes_spec|]. split.
  - rewrite <- Hfo in Honly. destruct (FlatFile.do_filter o) as [f|]; [|by inversion H]. apply negb_false_iff in Honly. split; [done|].
    destruct (Nat.ltb_spec 0 (slice_len (Identity_ f))) as [Hl|Hl]; split; try lia; inversion H; subst; [|done].
    intros _ n. unfold MatchIdentity, Identity.Match, IdentityFilters. rewrite list_elem_of_In, in_concat.
    setoid_rewrite in_map_iff. setoid_rewrite <- list_elem_of_In. rewrite existsb_elem_of. split.
    + intros (? & (g & <- & Hg) & [? ?]%filter_nodes_spec). eauto.
    + intros (Hm & g & Hg & ?). exists (Identity.FilterNodes nodes g). split; [by exists g|]. by apply filter_nodes_spec.
  - exists data. split; [done|]. destruct (FlatFile.do_reader o); [by inversion Hdata|done].
Qed.

(** A file of names, one in a line, is read as these names. *)
Lemma names_are_read names : Forall (λ n, clean_value n ∧ plain_line n) names → FlatFile.textDiscover (unlines names) = Ok names.
Proof.
  intros H. unfold FlatFile.textDiscover. rewrite scan_unlines by (apply (Forall_impl _ _ _ H); by intros ? []).
  f_equal. induction H as [|n names [([_ Ht] & _) _] _ IH]; [done|]. cbn [map]. by rewrite Ht, IH.
Qed.

End Flat.

(** ** Programs that discover *)

(** Nodes come from an external program only when it was run, for at least a second, with
    the request in a file that its arguments and environment name, ended well, and left a
    reply of the protocol without an error, whose nodes they are. *)
Theorem external_nodes_are_the_programs `{XL : External.ExternalLib} mainCollective command federations timeout opts l :
  External.Discover mainCollective command federations timeout opts = Ok l →
  ∃ x out rep resp req reqfile repfile,
    External.run_command x = Ok out ∧ External.xo_exit out = 0%Z ∧ External.xo_reply out = Ok rep ∧
    External.Unmarshal_response rep = Ok resp ∧ External.rs_Protocol resp = External.ResponseProtocol ∧
    External.rs_Error resp = "" ∧ External.rs_Nodes resp = l ∧
    External.Marshal_request req = Ok (External.xe_request x) ∧ External.rq_Options req !! "command" ∈ [None; Some ""] ∧
    (Second ≤ External.xe_timeout x)%Z ∧
    External.xe_env x = External.environment reqfile repfile ∧
    ∃ first more, External.xe_args x = first :: more ++ [reqfile; repfile; External.RequestProtocol].
Proof.
  unfold External.Discover. set (o := External.with_command _).
  assert ((Second ≤ External.do_timeout o)%Z ∧ External.do_do o !! "command" ∈ [None; Some ""]) as [Ht Hc].
  { unfold o, External.with_command, External.at_least_a_second. destruct (fold_left _ _ _) as [f c fe t cm d]. cbn.
    destruct (Z.ltb_spec t Second); cbn; (destruct (d !! "command") as [c'|] eqn:E; [|split; [cbn; lia|cbn; rewrite E; set_solver]]);
      (destruct (String.eqb_spec c' "") as [->|]; cbn; (split; [lia|]); [rewrite E|rewrite lookup_delete_eq]; set_solver). }
  clearbody o. destruct (String.eqb _ ""); [done|].
  intros (req & Hreq%map_err_inv & (reqfile & _ & (repfile & _ & (args & Hargs & (out & Hout%map_err_inv & H)%outcome_bind_Ok)%outcome_bind_Ok)%outcome_bind_Ok)%outcome_bind_Ok)%outcome_bind_Ok.
  destruct (Z.eqb_spec (External.xo_exit out) 0) as [Hx|]; [|done]. cbn [negb] in H.
  apply outcome_bind_Ok in H as (rep & Hrep%map_err_inv & (resp & Hresp%map_err_inv & Hn)%outcome_bind_Ok).
  unfold External.nodes_of in Hn. destruct (String.eqb_spec (External.rs_Error resp) "") as [He|]; [|done]. cbn [negb] in Hn.
  destruct (String.eqb_spec (External.rs_Protocol resp) External.ResponseProtocol) as [Hp|]; [|done]. cbn [negb] in Hn. inversion Hn; subst.
  apply outcome_bind_Ok in Hargs as ([|first more] & _ & Hargs); [done|]. inversion Hargs; subst.
  eexists _, out, rep, resp, (External.request_of o), reqfile, repfile. split_and!; eauto.
Qed.

(** ** Concrete discoveries *)

(** Queries are the names of agents. *)
#[local] Instance demo_expr : ExprLib := {|
  expr_program := string; ddl_FuncMap := unit; nil_FuncMap := tt;
  expr_Compile := λ q _, if String.eqb q "" then None else Some q;
  expr_Run := λ q e, Ok (ExprBool (elem q (env_agents _ e)));
|}.

Definition demo_node (name collective agent : string) : Inventory.Node :=
  {| Inventory.nd_Name := name; Inventory.nd_Collectives := [collective]; Inventory.nd_Facts := json_empty;
     Inventory.nd_Classes := ["apache"]; Inventory.nd_Agents := [agent] |}.

Definition demo_inventory : Inventory.DataFile :=
  {| Inventory.df_Schema := Inventory.DataSchema; Inventory.df_Groups := [{| Inventory.gr_Name := "all"; Inventory.gr_Filter := None |}];
     Inventory.df_Nodes := [demo_node "n1" "de" "puppet"; demo_node "n2" "mt" "puppet"; demo_node "n3" "de" "package"] |}.

Lemma inventory_agrees_with_servers_witness :
  Inventory.selectMatchingNodes (λ _ _, None) 0 demo_inventory "de" (AddClassFilter "apache" (AddCompoundFilter "puppet" NewFilter)) = Ok ["n1"].
Proof.
  rewrite inventory_agrees_with_servers; [vm_compute; reflexivity|done|].
  right. exists {["expr" := "puppet"]}, "puppet". split; [reflexivity|]. split; [reflexivity|]. by eexists.
Defined.

(** A group is looked up in every collective, whichever was asked for. *)
Example groups_of_all_collectives :
  Inventory.select_groups (λ _ _, None) 0 demo_inventory ["group:all"] [] = Ok ["n1"; "n2"; "n3"].
Proof. vm_compute. reflexivity. Qed.

#[local] Instance demo_flat : FlatFile.FlatLib := {|
  FlatFile.Unmarshal_nodes := λ _, Err "no JSON"; FlatFile.Unmarshal_senders := λ _, Err "no JSON";
  FlatFile.YAMLToJSON := λ _, Err "no YAML"; FlatFile.gjson_array := λ _ _, None;
|}.

Definition demo_names : list FlatFile.DiscoverOption :=
  [FlatFile.OptReader (Some (unlines ["web1"; "db1"; "web2"]));
   FlatFile.OptFilter (Some (AddIdentityFilter "web2" (AddIdentityFilter "web1" NewFilter)))].

Lemma flat_files_are_filtered_witness :
  FlatFile.Discover ∅ demo_names = Ok ["web1"; "web2"] ∧ ∃ nodes, Forall (λ n, re_match FlatFile.validIdentity n = true) nodes ∧ "db1" ∈ nodes.
Proof.
  assert (FlatFile.Discover ∅ demo_names = Ok ["web1"; "web2"]) as H by (vm_compute; reflexivity). split; [exact H|].
  destruct (flat_files_are_filtered ∅ demo_names _ H) as (nodes & Hv & _ & data & Hd & Hr). exists nodes. split; [exact Hv|].
  vm_compute in Hr. subst data. vm_compute in Hd. injection Hd as <-. apply (bool_decide_unpack _). vm_compute. exact I.
Defined.

(** A node that two filters select is found twice, and an empty line is refused. *)
Example found_twice :
  FlatFile.Discover ∅ [FlatFile.OptReader (Some (unlines ["web1"]));
    FlatFile.OptFilter (Some (AddIdentityFilter "/web/" (AddIdentityFilter "web1" NewFilter)))] = Ok ["web1"; "web1"] ∧
  FlatFile.Discover ∅ [FlatFile.OptReader (Some (unlines ["web1"; ""]))] = Err "invalid identity string ".
Proof. split; vm_compute; reflexivity. Qed.

(** The program answers when it is called [discover]. *)
#[local] Instance demo_external : External.ExternalLib := {|
  External.Marshal_request := λ r, Ok (External.rq_Collective r);
  External.Unmarshal_response := λ s, Ok {| External.rs_Protocol := External.ResponseProtocol; External.rs_Nodes := [s]; External.rs_Error := "" |};
  External.shlex_Split := λ s, Ok (List.filter (λ p, negb (String.eqb p "")) (split s " "));
  External.CreateTemp := λ s, Ok ("/tmp/" +:+ s);
  External.getenv_PATH := "/bin";
  External.run_command := λ x, if bool_decide (head (External.xe_args x) = Some "discover")
                               then Ok {| External.xo_exit := 0; External.xo_reply := Ok "node1" |} else Err "not found";
|}.

Lemma external_nodes_are_the_programs_witness :
  ∃ x, External.run_command x = Ok {| External.xo_exit := 0; External.xo_reply := Ok "node1" |} ∧ (Second ≤ External.xe_timeout x)%Z.
Proof.
  assert (External.Discover "mcollective" "discover --all" [] 0 [] = Ok ["node1"]) as H by (vm_compute; reflexivity).
  destruct (external_nodes_are_the_programs "mcollective" "discover --all" [] 0 [] ["node1"] H)
    as (x & out & rep & resp & req & reqfile & repfile & Hx & _ & _ & _ & _ & _ & _ & _ & _ & Ht & _).
  exists x. split; [|exact Ht]. rewrite Hx. revert Hx. cbn. destruct (bool_decide _); [by intros [= <-]|done].
Defined.

(** A command without a word in it panics. *)
Example blank_command_panics : External.Discover "mcollective" " " [] 0 [] = Panic "index out of range [0] with length 0".
Proof. vm_compute. reflexivity. Qed.
