(* ===== verification/Execution.v ===== *)
(** * Processes started for requests

    providers/execution: a spool with a directory for every process: its specification, its
    output and its exit, messages that tell how it goes, and the queries on it; and the
    executor agent of providers/agent/mcorpc/golang/executor.  The operating system, JSON
    and the submission of messages are arguments. *)
From S2P Require Import Prelude Records GoLib Files Util AuthTypes Filters Regex Facts Transport SecureMessages Message AgentManager Rpc Tree.

Record Process := {
  px_Action : string;
  px_Agent : string;
  px_Args : list string;
  px_Caller : string;
  px_Created : Z;
  px_Command : string;
  px_Environment : list (string * string);
  px_HeartBeat : Z;
  px_ID : string;
  px_Identity : string;
  px_PidFile : string;
  px_RequestID : string;
  px_StartTime : Z;
  px_StderrFile : string;
  px_StdoutFile : string;
  px_TerminateTime : Z;
}.

Record ListQuery := {
  lq_Action : string;
  lq_Agent : string;
  lq_Before : Z;
  lq_Caller : string;
  lq_Command : string;
  lq_Completed : bool;
  lq_Identity : string;
  lq_RequestID : string;
  lq_Running : bool;
  lq_Since : Z;
}.

Inductive exec_error :=
| ErrSpoolNotConfigured
| ErrSpoolNotFound
| ErrSpecificationNotFound
| ErrSpecificationLoadError (e : string)
| ErrDuplicateJob
| ErrStartFailed (e : string)
| ErrInvalidProcess (e : string)
| ErrWritingPidFailed (e : string)
| ErrInvalidPid (e : string)
| ErrAlreadyStarted
| ErrSpoolCreationFailed (e : string)
| ErrProcessFailed (e : string)
| ErrQueryRequired
| OtherExecError (e : string).

(** The encoding of processes, the decoding of exits, and the quoting of strings by
    [fmt]. *)
Class ProcJSON := {
  proc_Marshal : Process → res string;
  proc_Unmarshal : string → res Process;
  exit_Unmarshal : string → res (Z * string);
  quoted : string → string;
}.

(** The processes of the system at a moment: the answer to a signal for a process id, and
    [os.FindProcess] on Windows. *)
Record processes := {
  kill : Z → Z → option string;
  find_process : Z → bool;
}.

(** Files, the messages that were submitted in order, and the signals that were sent. *)
Record Exec := {
  ex_fs : tree;
  ex_sent : list (string * string);
  ex_signals : list (Z * Z);
}.

Section Execution.
Context `{PJ : ProcJSON}.
Variable windows : bool.
Variable denied : string → bool.
(** The name of temporary files; the answers of the submission to a subject and payload. *)
Variable tmp_name : string.
Variable submit_error : string → string → option string.

Abbreviation X A := (ST Exec exec_error A).

Definition new_process (now : Z) (caller agent action reqID identity id command : string) (args : list string)
    (env : list (string * string)) : outcome exec_error Process :=
  if String.eqb caller "" then Err (ErrInvalidProcess "no caller")
  else if String.eqb reqID "" then Err (ErrInvalidProcess "no request id")
  else if String.eqb id "" then Err (ErrInvalidProcess "no id")
  else if String.eqb identity "" then Err (ErrInvalidProcess "no identity")
  else if String.eqb command "" then Err (ErrInvalidProcess "no command")
  else Ok {| px_Action := action; px_Agent := agent; px_Args := args; px_Caller := caller; px_Created := now;
             px_Command := command; px_Environment := env; px_HeartBeat := 0; px_ID := id; px_Identity := identity;
             px_PidFile := ""; px_RequestID := reqID; px_StartTime := zero_time; px_StderrFile := "";
             px_StdoutFile := ""; px_TerminateTime := zero_time |}.

(** ** Paths *)

Definition pidPath (spool id : string) : string := path_join [spool; id; "pid"].
Definition stdOutPath (spool id : string) : string := path_join [spool; id; "stdout"].
Definition stdErrPath (spool id : string) : string := path_join [spool; id; "stderr"].
Definition specPath (spool id : string) : string := path_join [spool; id; "spec.json"].
Definition exitPath (spool id : string) : string := path_join [spool; id; "exit"].

Definition exitJson (code : Z) (err : string) : string :=
  "{" +:+ String (ascii_of_nat 34) ("code" +:+ String (ascii_of_nat 34) (":" +:+ itoa code +:+ "," +:+
    String (ascii_of_nat 34) ("error" +:+ String (ascii_of_nat 34) (":" +:+ quoted err +:+ "}")))).

(** ** Loading and querying *)

Definition Load (t : tree) (spool id : string) : outcome exec_error Process :=
  let jobSpec := specPath spool id in
  if String.eqb spool "" then Err ErrSpoolNotConfigured
  else if negb (FileIsDir t (abs_path spool)) then Err ErrSpoolNotFound
  else if negb (FileExist t (abs_path jobSpec)) then Err ErrSpecificationNotFound
  else
    j ← map_err (λ e, ErrSpecificationLoadError (error_text jobSpec e)) (read_file t (abs_path jobSpec));
    map_err ErrSpecificationLoadError (proc_Unmarshal j).

Definition HasStarted (t : tree) (p : Process) : bool :=
  if String.eqb (px_PidFile p) "" then false
  else match t !! abs_path (px_PidFile p) with
       | Some (File _) => true
       | _ => false
       end.

Definition ParsePid (t : tree) (p : Process) : outcome exec_error Z :=
  if String.eqb (px_PidFile p) "" then Err (ErrInvalidProcess "no pid file configured")
  else
    pidBytes ← map_err (λ e, ErrInvalidPid (error_text (px_PidFile p) e)) (read_file t (abs_path (px_PidFile p)));
    if Nat.eqb (String.length pidBytes) 0 then Err (ErrInvalidPid "0 length pid")
    else match atoi pidBytes with
         | None => Err (ErrInvalidPid "invalid syntax")
         | Some pid => if (pid =? 1)%Z then Err (ErrInvalidPid "impossible pid") else Ok pid
         end.

(** Whether a signal could be sent; what is sent is recorded. *)
Definition Signal (os : processes) (p : Process) (sig : Z) : X () := λ w,
  match ParsePid (ex_fs w) p with
  | Ok pid =>
      if windows && negb (find_process os pid) then (w, Err (OtherExecError "no such process"))
      else match kill os pid sig with
           | None => (w <| ex_signals ::= cons (pid, sig) |>, Ok tt)
           | Some e => (w, Err (OtherExecError e))
           end
  | Err e => (w, Err e)
  | Panic m => (w, Panic m)
  end.

(** Signal 0 does nothing to a process. *)
Definition IsRunning (os : processes) (t : tree) (p : Process) : bool :=
  match ParsePid t p with
  | Ok pid =>
      if windows then find_process os pid
      else match kill os pid 0 with None => true | Some _ => false end
  | _ => false
  end.

Definition matcher (should property : bool) (matched : list bool) : list bool :=
  if should then matched ++ [property] else matched.

Definition IsMatch (os : processes) (t : tree) (p : Process) (q : ListQuery) : bool :=
  let started := HasStarted t p in
  let given s := negb (String.eqb s "") in
  let set z := negb (z =? zero_time)%Z in
  let matched := matcher (lq_Running q) (IsRunning os t p) [] in
  let matched := matcher (lq_Completed q) (started && negb (IsRunning os t p)) matched in
  let matched := matcher (given (lq_Caller q)) (String.eqb (px_Caller p) (lq_Caller q)) matched in
  let matched := matcher (given (lq_Agent q)) (String.eqb (px_Agent p) (lq_Agent q)) matched in
  let matched := matcher (given (lq_Action q)) (String.eqb (px_Action p) (lq_Action q)) matched in
  let matched := matcher (given (lq_RequestID q)) (String.eqb (px_RequestID p) (lq_RequestID q)) matched in
  let matched := matcher (given (lq_Command q)) (String.eqb (px_Command p) (lq_Command q)) matched in
  let matched := matcher (given (lq_Identity q)) (String.eqb (px_Identity p) (lq_Identity q)) matched in
  let matched := matcher (set (lq_Since q)) (lq_Since q <? px_Created p)%Z matched in
  let matched := matcher (set (lq_Before q)) (px_Created p <? lq_Before q)%Z matched in
  Nat.ltb 0 (length matched) && negb (existsb negb matched).

(** A regular file of the spool is taken for the ID of a process by its name. *)
Definition list_entry (os : processes) (t : tree) (spool : string) (q : ListQuery) (e : string * node) : option Process :=
  match e.2 with
  | Dir => None
  | File _ =>
      match Load t spool (path_base e.1) with
      | Ok p => if IsMatch os t p q then Some p else None
      | _ => None
      end
  end.

Definition ListJobs (os : processes) (t : tree) (spool : string) (q : option ListQuery) : outcome exec_error (list Process) :=
  if String.eqb spool "" then Err ErrSpoolNotConfigured
  else match q with
       | None => Err ErrQueryRequired
       | Some q =>
           map_err OtherExecError
             (l ← WalkDir (abs_path spool) t; Ok (omap (M:=list) (list_entry os t spool q) l))
       end.

Definition Stdout (t : tree) (p : Process) : outcome exec_error string :=
  if String.eqb (px_StdoutFile p) "" then Err (ErrInvalidProcess "no stdout file configured")
  else map_err (λ e, OtherExecError (error_text (px_StdoutFile p) e)) (read_file t (abs_path (px_StdoutFile p))).

Definition Stderr (t : tree) (p : Process) : outcome exec_error string :=
  if String.eqb (px_StderrFile p) "" then Err (ErrInvalidProcess "no stderr file configured")
  else map_err (λ e, OtherExecError (error_text (px_StderrFile p) e)) (read_file t (abs_path (px_StderrFile p))).

Definition ParseExitCode (t : tree) (p : Process) : outcome exec_error Z :=
  if negb (HasStarted t p) then Err (ErrInvalidProcess "process not started")
  else
    let path := exitPath (path_dir (path_dir (px_PidFile p))) (px_ID p) in
    exitBytes ← map_err (λ e, ErrInvalidProcess (error_text path e)) (read_file t (abs_path path));
    '(code, err) ← map_err ErrInvalidProcess (exit_Unmarshal exitBytes);
    if negb (String.eqb err "") then Err (ErrProcessFailed err) else Ok code.

(** ** Saving *)

Definition on_exec {E A} (f : string → E) (m : ST tree string A) : ST Exec E A := λ w,
  let '(t, o) := m (ex_fs w) in (w <| ex_fs := t |>, map_err f o).

(** The temporary file stays when it cannot take its place. *)
Definition saveJobSpec (spool : string) (p : Process) : ST tree string string :=
  j ← lift (proc_Marshal p);
  let tf := path_join [spool; tmp_name] in
  os_CreateTemp denied tf;;
  r ← attempt (os_WriteFile denied tf j);
  match r with
  | inr e => attempt (F:=string) (os_Remove denied tf);; throw e
  | inl _ => os_Rename denied tf (specPath spool (px_ID p));; mret j
  end.

Definition CreateSpool (spool : string) (p : Process) : X string :=
  if String.eqb spool "" then throw ErrSpoolNotConfigured
  else
    has ← gets (λ w, FileExist (ex_fs w) (abs_path (specPath spool (px_ID p))));
    if has : bool then throw ErrDuplicateJob
    else
      on_exec ErrSpoolCreationFailed (os_Mkdir denied (path_join [spool; px_ID p]));;
      on_exec OtherExecError (saveJobSpec spool p).

(** ** Messages *)

Definition Submit (subject payload : string) : ST Exec string () := λ w,
  match submit_error subject payload with
  | None => (w <| ex_sent ::= λ l, l ++ [(subject, payload)] |>, Ok tt)
  | Some e => (w, Err e)
  end.

(** An error of a submission is logged. *)
Definition submit_logged (subject payload : string) (w : Exec) : Exec := (Submit subject payload w).1.

Inductive origin := StdoutLine | StderrLine.
#[export] Instance origin_eq_dec : EqDecision origin.
Proof. solve_decision. Defined.

(** The loop that publishes output: the lines it receives and the ticks of its clock. *)
Inductive out_event := OutLine (o : origin) (line : string) | OutTick.

(** The origin of the last line, and the buffer. *)
Record watching := { wo_prev : option origin; wo_buff : string }.

Definition out_subject (prefix : string) (prev : option origin) : string :=
  match prev with
  | Some StdoutLine => prefix +:+ ".out.stdout"
  | Some StderrLine => prefix +:+ ".out.stderr"
  | None => ""
  end.

(** The buffer is emptied when its publishing succeeds. *)
Definition publish_out (prefix : string) (s : watching) (w : Exec) : watching * Exec :=
  if Nat.eqb (String.length (wo_buff s)) 0 then (s, w)
  else match Submit (out_subject prefix (wo_prev s)) (wo_buff s) w with
       | (w, Ok _) => ({| wo_prev := wo_prev s; wo_buff := "" |}, w)
       | (w, _) => (s, w)
       end.

Definition newline : string := String newline_char "".

Definition out_step (prefix : string) (sw : watching * Exec) (e : out_event) : watching * Exec :=
  let '(s, w) := sw in
  match e with
  | OutTick => publish_out prefix s w
  | OutLine o line =>
      let s := {| wo_prev := Some (default o (wo_prev s)); wo_buff := wo_buff s |} in
      let '(s, w) := if negb (bool_decide (wo_prev s = Some o)) then publish_out prefix s w else (s, w) in
      let '(s, w) := if Nat.ltb 1024 (String.length (wo_buff s)) then publish_out prefix s w else (s, w) in
      ({| wo_prev := Some o; wo_buff := wo_buff s +:+ line +:+ newline |}, w)
  end.

Definition watch_start : watching := {| wo_prev := None; wo_buff := "" |}.

(** [watchOutput]: the channel of lines is closed at the end. *)
Definition watchOutput (prefix : string) (events : list out_event) (w : Exec) : Exec :=
  let '(s, w) := fold_left (out_step prefix) events (watch_start, w) in (publish_out prefix s w).2.

(** ** Supervising *)

(** What happens around a run: when it starts and ends, whether the command starts and
    with which id, the output it writes and how much of it the readers of the pipes took
    before the pipes were closed, what the goroutines see before and after the id is
    published, and how it ends: the exit code when there is a state, and the error of
    waiting. *)
Inductive run_event := HeartBeat (os : processes) | Output (e : out_event).

Record run_env := {
  re_now : Z;
  re_start : res Z;
  re_stdout : string;
  re_stderr : string;
  re_out_taken : nat;
  re_err_taken : nat;
  re_early : list run_event;
  re_events : list run_event;
  re_end : Z;
  re_state : option Z;
  re_wait : option string;
}.

(** A heartbeat, and a step of the loop that publishes output. *)
Definition goroutine_step (hb : bool) (out : bool) (prefix : string) (p : Process) (sw : watching * Exec) (e : run_event) :
    watching * Exec :=
  match e with
  | HeartBeat os =>
      if hb then (sw.1, submit_logged (prefix +:+ ".hb") (if IsRunning os (ex_fs sw.2) p then "true" else "false") sw.2)
      else sw
  | Output e => if out then out_step prefix sw e else sw
  end.

Definition exit_code (e : run_env) : Z := default (-1)%Z (re_state e).
Definition exit_reason (e : run_env) : string :=
  if bool_decide (re_state e = Some (-1)%Z) then "process killed" else default "" (re_wait e).
Definition exit_message (e : run_env) : string := exitJson (exit_code e) (exit_reason e).

Definition set_file (path content : string) (w : Exec) : Exec := w <| ex_fs ::= <[abs_path path := File content]> |>.

(** [bufio.MaxScanTokenSize] *)
Definition max_scan : Z := 65536.

(** [bufio.Scanner]: what it reads, with room for so many bytes of the line it is in.  It
    stops for good when its buffer is full and there is no end of a line in it. *)
Fixpoint scanner_reads (room : Z) (s : string) : string :=
  match s with
  | "" => ""
  | String c s' =>
      if (room <=? 0)%Z then ""
      else String c (scanner_reads (if Ascii.eqb c newline_char then max_scan else room - 1)%Z s')
  end.

(** A file that output goes to.  The command writes to the file itself when output is not
    published; otherwise to a pipe, and the file is a copy of what the scanner of
    [watchOutputReader] read from it: nothing after a line that is too long, and nothing
    that is still in the pipe when the process has ended. *)
Definition recorded (publishOutput : bool) (taken : nat) (s : string) : string :=
  if publishOutput then scanner_reads max_scan (take_bytes taken s) else s.

(** The output files at the end. *)
Definition written (publishOutput : bool) (p : Process) (e : run_env) (w : Exec) : Exec :=
  set_file (px_StderrFile p) (recorded publishOutput (re_err_taken e) (re_stderr e))
    (set_file (px_StdoutFile p) (recorded publishOutput (re_out_taken e) (re_stdout e)) w).

Definition job_prefix (p : Process) : string := "choria.executor." +:+ px_RequestID p +:+ "." +:+ px_ID p.

Definition started_process (spool : string) (heartbeat now : Z) (p : Process) : Process :=
  p <| px_StdoutFile := stdOutPath spool (px_ID p) |> <| px_StderrFile := stdErrPath spool (px_ID p) |>
    <| px_PidFile := pidPath spool (px_ID p) |> <| px_StartTime := now |> <| px_HeartBeat := heartbeat |>.

(** Up to the start of the command. *)
Definition prepare_run (spool : string) (e : run_env) (p : Process) : X Z :=
  jProc ← on_exec ErrStartFailed (saveJobSpec spool p);
  (λ w, let '(w, o) := Submit (job_prefix p +:+ ".spec") jProc w in (w, map_err ErrStartFailed o));;
  on_exec ErrStartFailed (os_WriteFile denied (px_StdoutFile p) "");;
  on_exec ErrStartFailed (os_WriteFile denied (px_StderrFile p) "");;
  pid ← lift (map_err ErrStartFailed (re_start e));
  on_exec ErrWritingPidFailed (os_WriteFile denied (px_PidFile p) (itoa pid));;
  mret pid.

(** From the start to the end; the saving of the specification and of the exit may fail,
    which is logged. *)
Definition supervise (spool : string) (heartbeat : Z) (publishOutput : bool) (e : run_env) (p : Process) (pid : Z)
    (w : Exec) : Exec :=
  let prefix := job_prefix p in
  let step := goroutine_step (0 <? heartbeat)%Z publishOutput prefix p in
  let '(s, w) := fold_left step (re_early e) (watch_start, w) in
  let w := submit_logged (prefix +:+ ".pid") (itoa pid) w in
  let '(s, w) := fold_left step (re_events e) (s, w) in
  let w := written publishOutput p e w in
  let w := (on_exec OtherExecError (saveJobSpec spool (p <| px_TerminateTime := re_end e |>)) w).1 in
  let w := if publishOutput then (publish_out prefix s w).2 else w in
  let w := submit_logged (prefix +:+ ".exit") (exit_message e) w in
  (on_exec OtherExecError (os_WriteFile denied (exitPath spool (px_ID p)) (exit_message e)) w).1.

Definition StartSupervised (spool : string) (heartbeat : Z) (publishOutput : bool) (e : run_env) (p : Process) : X () :=
  if String.eqb spool "" then throw ErrSpoolNotConfigured
  else if negb (px_StartTime p =? zero_time)%Z then throw ErrAlreadyStarted
  else
    let p := started_process spool heartbeat (re_now e) p in
    pid ← prepare_run spool e p;
    modify (supervise spool heartbeat publishOutput e p pid).

End Execution.

(** * The executor agent

    providers/agent/mcorpc/golang/executor: the actions that list, show and signal the
    processes of Execution.v.  JSON is an argument, and so are the processes of the system
    at the moments an action looks at them. *)
From S2P Require Import ActionPolicy.

(** [Before] and [Since] are seconds. *)
Record ListRequest := { lr_query : ListQuery; lr_Before : Z; lr_Since : Z }.

Record ListMatched := {
  lm_Action : string;
  lm_Agent : string;
  lm_Command : string;
  lm_ID : string;
  lm_Identity : string;
  lm_RequestID : string;
  lm_StartTime : Z;
  lm_TerminateTime : Z;
}.

Record StatusResponse := {
  st_Command : string;
  st_Args : string;
  st_Started : bool;
  st_StartTime : Z;
  st_TerminateTime : Z;
  st_ExitCode : Z;
  st_ExitReason : string;
  st_Running : bool;
  st_Agent : string;
  st_Action : string;
  st_RequestID : string;
  st_Caller : string;
  st_Pid : Z;
  st_StdoutBytes : nat;
  st_StderrBytes : nat;
}.

Inductive executor_data :=
| ListReply (jobs : list ListMatched)
| SignalReply (pid : Z) (running : bool)
| StatusReply (s : StatusResponse).

Class ExecutorJSON := {
  parse_list : string → res ListRequest;
  parse_signal : string → res (string * Z);
  parse_status : string → res string;
  executor_Marshal : executor_data → string;
  exec_error_text : exec_error → string;
}.

Section Executor.
Context `{PJ : ProcJSON} `{EJ : ExecutorJSON}.
Context `{TL : TokenLib} `{RJ : RpcJSON} `{OP : OPA} `{FL : FactLib} `{RX : Regexp}.
Variable windows : bool.
(** What the server is configured with. *)
Variable fs : filesystem.
Variable cfg : RpcConfig.
Variable si : option RpcServerInfo.
Variable spool : string.

Abbreviation body := (RpcRequest → RpcReply → ST Exec RpcReply RpcReply).

Definition abort (reply : RpcReply) (msg : string) : RpcReply := fail_reply Aborted msg reply.

Definition set_data (d : executor_data) (reply : RpcReply) : RpcReply :=
  {| re_Action := re_Action reply; re_Statuscode := re_Statuscode reply; re_Statusmsg := re_Statusmsg reply;
     re_Data := Some (executor_Marshal d); re_DisableResponse := re_DisableResponse reply |}.

Definition ParseRequestData {A} (parse : string → res A) (req : RpcRequest) (reply : RpcReply) : ST Exec RpcReply A :=
  lift (map_err (λ e, fail_reply InvalidData ("Could not parse request data for " +:+ rr_Agent req +:+ "#" +:+
                                              rr_Action req +:+ ": " +:+ e) reply) (parse (rr_Data req))).

Definition or_abort {A} (reply : RpcReply) (msg : string → string) (o : outcome exec_error A) : ST Exec RpcReply A :=
  lift (map_err (λ e, abort reply (msg (exec_error_text e))) o).

(** A request for the agent and action of a process, by the caller of another. *)
Definition process_request (p : Process) (req : RpcRequest) : RpcRequest :=
  {| rr_Agent := px_Agent p; rr_Action := px_Action p; rr_Data := ""; rr_RequestID := px_RequestID p;
     rr_SenderID := rr_SenderID req; rr_CallerID := rr_CallerID req; rr_Collective := rr_Collective req;
     rr_TTL := rr_TTL req; rr_Time := zero_time; rr_Filter := rr_Filter req;
     rr_CallerPublicData := rr_CallerPublicData req; rr_SignerPublicData := rr_SignerPublicData req |}.

Definition proxyAuthorize (p : Process) (req : RpcRequest) : bool :=
  AuthorizeRequest fs (Some (process_request p req)) (Some cfg) si.

Definition list_query (args : ListRequest) : ListQuery :=
  (lr_query args) <| lq_Before := (lr_Before args * Second)%Z |> <| lq_Since := (lr_Since args * Second)%Z |>.

Definition list_matched (p : Process) : ListMatched :=
  {| lm_Action := px_Action p; lm_Agent := px_Agent p; lm_Command := px_Command p; lm_ID := px_ID p;
     lm_Identity := px_Identity p; lm_RequestID := px_RequestID p; lm_StartTime := px_StartTime p;
     lm_TerminateTime := px_TerminateTime p |}.

Definition listAction (os : processes) : body := λ req reply,
  if String.eqb spool "" then throw (abort reply "Executor spool is not configured")
  else
    args ← ParseRequestData parse_list req reply;
    t ← gets ex_fs;
    matched ← or_abort reply (λ e, "Could not list jobs: " +:+ e) (ListJobs windows os t spool (Some (list_query args)));
    mret (set_data (ListReply (map list_matched matched)) reply).

(** A request without an ID or with a negative signal is aborted, but goes on.  The
    processes are looked at before, while and after the signal is sent. *)
Definition signalAction (os1 os2 os3 : processes) : body := λ req reply,
  if String.eqb spool "" then throw (abort reply "Executor spool is not configured")
  else
    '(id, sig) ← ParseRequestData parse_signal req reply;
    let reply := if String.eqb id "" then abort reply "ID is required" else reply in
    let reply := if (sig <? 0)%Z then abort reply "Signal is required" else reply in
    t ← gets ex_fs;
    p ← or_abort reply (λ e, "Could not load job: " +:+ e) (Load t spool id);
    if proxyAuthorize p req
    then throw (abort reply ("You are not authorized to call this " +:+ px_Agent p +:+ "#" +:+ px_Action p))
    else if negb (IsRunning windows os1 t p) then throw (abort reply ("Job " +:+ id +:+ " is not running"))
    else
      pid ← or_abort reply (λ e, "Could not parse pid file: " +:+ e) (ParsePid t p);
      r ← attempt (Signal windows os2 p sig);
      match r with
      | inr e => throw (abort reply ("Could not send signal: " +:+ exec_error_text e))
      | inl _ =>
          t ← gets ex_fs;
          mret (set_data (SignalReply pid (IsRunning windows os3 t p)) reply)
      end.

Definition status_of (t : tree) (p : Process) (running allowed : bool) : StatusResponse :=
  {| st_Command := if allowed then px_Command p else "Not authorized";
     st_Args := if allowed then join (px_Args p) " " else ""; st_Started := HasStarted t p;
     st_StartTime := px_StartTime p; st_TerminateTime := px_TerminateTime p; st_ExitCode := -1; st_ExitReason := "";
     st_Running := running; st_Agent := px_Agent p; st_Action := px_Action p; st_RequestID := px_RequestID p;
     st_Caller := px_Caller p; st_Pid := -1; st_StdoutBytes := 0; st_StderrBytes := 0 |}.

Definition bytes_of (o : outcome exec_error string) : nat := match o with Ok s => String.length s | _ => 0 end.

Definition statusAction (os : processes) : body := λ req reply,
  if String.eqb spool "" then throw (abort reply "Executor spool is not configured")
  else
    id ← ParseRequestData parse_status req reply;
    let reply := if String.eqb id "" then abort reply "ID is required" else reply in
    t ← gets ex_fs;
    p ← or_abort reply (λ e, "Could not load job: " +:+ e) (Load t spool id);
    let resp := status_of t p (IsRunning windows os t p) (proxyAuthorize p req) in
    resp ← (if st_Started resp
            then pid ← or_abort reply (λ e, "Could not parse pid: " +:+ e) (ParsePid t p);
                 mret (resp <| st_Pid := pid |>)
            else mret resp);
    resp ← (if negb (st_Running resp) && st_Started resp
            then
              resp ← match ParseExitCode t p with
                     | Ok code => mret (resp <| st_ExitCode := code |>)
                     | Err (ErrProcessFailed e) => mret (resp <| st_ExitReason := exec_error_text (ErrProcessFailed e) |>)
                     | Err e => throw (abort reply ("Could not parse exit code: " +:+ exec_error_text e))
                     | Panic m => panic m
                     end;
              mret (resp <| st_StderrBytes := bytes_of (Stderr t p) |> <| st_StdoutBytes := bytes_of (Stdout t p) |>)
            else mret resp);
    mret (set_data (StatusReply resp) reply).

End Executor.

(** * Theorems on processes started for requests

    What becomes of the output of a process, of its messages and files, and who can signal
    and find it. *)
From S2P Require Import Security DemoLibs DemoServer Sha256Sums.

(** ** Output *)

(** The lines of an origin, and what was published for a subject. *)
Definition text_of (o : origin) (events : list out_event) : string :=
  String.concat "" (omap (M:=list) (λ e, match e with
    | OutLine o' line => if decide (o' = o) then Some (line +:+ newline) else None
    | OutTick => None end) events).

Definition published_on (subject : string) (msgs : list (string * string)) : string :=
  String.concat "" (omap (M:=list) (λ m, if String.eqb m.1 subject then Some m.2 else None) msgs).

(** What is in the buffer for an origin. *)
Definition pending (o : origin) (s : watching) : string :=
  if bool_decide (wo_prev s = Some o) then wo_buff s else "".

Lemma text_of_app o l1 l2 : text_of o (l1 ++ l2) = text_of o l1 +:+ text_of o l2.
Proof. unfold text_of. by rewrite omap_app, text_concat_app. Qed.

Lemma published_app subject l1 l2 : published_on subject (l1 ++ l2) = published_on subject l1 +:+ published_on subject l2.
Proof. unfold published_on. by rewrite omap_app, text_concat_app. Qed.

Lemma subjects_differ prefix o o' : o ≠ o' → out_subject prefix (Some o) ≠ out_subject prefix (Some o').
Proof. destruct o, o'; intros H E; try done; by apply append_eq_inv in E. Qed.

Section Output.
Variable prefix : string.
Abbreviation ok_submit := (λ _ _ : string, None : option string).

(** [msgs] were sent, and with what is pending they are the texts. *)
Definition accounted (texts : origin → string) (w0 : Exec) (sw : watching * Exec) : Prop :=
  ∃ msgs, sw.2 = w0 <| ex_sent ::= λ l, l ++ msgs |> ∧
    (wo_prev sw.1 = None → wo_buff sw.1 = "") ∧
    Forall (λ m, ∃ o, m.1 = out_subject prefix (Some o)) msgs ∧
    ∀ o, published_on (out_subject prefix (Some o)) msgs +:+ pending o sw.1 = texts o.

Lemma publish_accounted texts w0 s w : accounted texts w0 (s, w) →
  let sw := publish_out ok_submit prefix s w in
  accounted texts w0 sw ∧ wo_prev sw.1 = wo_prev s ∧ wo_buff sw.1 = "".
Proof.
  intros (msgs & Hw & Hnone & Hsub & Htexts). cbv zeta. cbn [fst snd] in *. unfold publish_out.
  destruct (Nat.eqb_spec (String.length (wo_buff s)) 0) as [Hl|Hl].
  { split_and!; [by exists msgs|done|]. cbn [fst]. revert Hl. by destruct (wo_buff s). }
  assert (wo_buff s ≠ "") as Hb by (intros E; apply Hl; by rewrite E).
  destruct s as [[o|] buff]; [|by destruct Hb; apply Hnone]. cbn [wo_prev wo_buff] in *.
  unfold Submit. split_and!; [|done..]. exists (msgs ++ [(out_subject prefix (Some o), buff)]). cbn [fst snd]. split_and!.
  - rewrite Hw. destruct w0. cbn. by rewrite app_assoc.
  - done.
  - apply Forall_app. split; [done|]. constructor; [by exists o|constructor].
  - intros o'. specialize (Htexts o'). rewrite published_app. unfold pending in *. cbn [wo_prev wo_buff] in *.
    unfold published_on at 2. cbn [omap list_omap fst snd]. destruct (decide (o = o')) as [<-|Hne].
    + rewrite bool_decide_true in * by done. by rewrite String.eqb_refl, append_nil_r.
    + rewrite bool_decide_false in * by congruence. rewrite (proj2 (String.eqb_neq _ _)) by (by apply subjects_differ).
      cbn [String.concat]. rewrite append_nil_r in Htexts. rewrite append_nil_r. rewrite append_nil_r. exact Htexts.
Qed.

Lemma out_step_accounted texts w0 sw e : accounted texts w0 sw →
  accounted (λ o, texts o +:+ text_of o [e]) w0 (out_step ok_submit prefix sw e).
Proof.
  destruct sw as [s w]. intros H. destruct e as [o line|]; cbn [out_step].
  2:{ destruct (publish_accounted texts w0 s w H) as [(msgs & ? & ? & ? & Ht) _]. exists msgs. split_and!; [done..|].
      intros o. rewrite Ht. unfold text_of. cbn. by rewrite append_nil_r. }
  set (s1 := {| wo_prev := Some (default o (wo_prev s)); wo_buff := wo_buff s |}).
  assert (accounted texts w0 (s1, w)) as H1.
  { destruct H as (msgs & ? & Hnone & ? & Ht). exists msgs. split_and!; [done..|]. intros o'. rewrite <- Ht. f_equal.
    unfold pending, s1. cbn [fst wo_prev wo_buff] in *. destruct (wo_prev s) as [o1|]; [done|]. rewrite Hnone by done. by case_bool_decide. }
  destruct (if negb (bool_decide (wo_prev s1 = Some o)) then publish_out ok_submit prefix s1 w else (s1, w)) as [s2 w2] eqn:E2.
  assert (accounted texts w0 (s2, w2) ∧ (wo_prev s2 = Some o ∨ wo_buff s2 = "")) as [H2 Hp2].
  { destruct (bool_decide_reflect (wo_prev s1 = Some o)) as [Hp|Hp]; cbn [negb] in E2.
    - injection E2 as <- <-. by auto.
    - destruct (publish_accounted texts w0 s1 w H1) as (Ha & _ & Hb). rewrite E2 in Ha, Hb. by auto. }
  destruct (if Nat.ltb 1024 (String.length (wo_buff s2)) then publish_out ok_submit prefix s2 w2 else (s2, w2)) as [s3 w3] eqn:E3.
  assert (accounted texts w0 (s3, w3) ∧ (wo_prev s3 = Some o ∨ wo_buff s3 = "")) as [H3 Hp3].
  { destruct (Nat.ltb 1024 _).
    - destruct (publish_accounted texts w0 s2 w2 H2) as (Ha & _ & Hb). rewrite E3 in Ha, Hb. by auto.
    - injection E3 as <- <-. by auto. }
  clear E2 E3. destruct H3 as (msgs & Hw & Hnone & Hsub & Ht). exists msgs. cbn [fst snd] in *. split_and!; [done..|].
  intros o'. unfold pending. cbn [wo_prev wo_buff]. unfold text_of. cbn [omap list_omap].
  rewrite <- Ht. unfold pending. destruct (decide (o = o')) as [<-|Hne].
  - rewrite bool_decide_true by done. rewrite text_concat_cons. cbn [String.concat]. rewrite !append_nil_r, !append_assoc'.
    do 2 f_equal. destruct Hp3 as [Hp3|Hp3]; [by rewrite bool_decide_true|]. rewrite Hp3. symmetry; by case_match.
  - rewrite bool_decide_false by congruence. cbn [String.concat]. rewrite !append_nil_r.
    destruct Hp3 as [Hp3|Hp3]; [rewrite bool_decide_false by congruence|rewrite Hp3; case_match]; by rewrite append_nil_r.
Qed.

Lemma out_steps_accounted events : ∀ texts w0 sw, accounted texts w0 sw →
  accounted (λ o, texts o +:+ text_of o events) w0 (fold_left (out_step ok_submit prefix) events sw).
Proof.
  induction events as [|e events IH]; intros texts w0 sw H.
  - destruct H as (msgs & ? & ? & ? & Ht). exists msgs. split_and!; [done..|]. intros o. rewrite Ht. unfold text_of. by rewrite append_nil_r.
  - apply (out_step_accounted _ _ _ e) in H. apply IH in H. destruct H as (msgs & ? & ? & ? & Ht). exists msgs.
    split_and!; [done..|]. intros o. cbn [fold_left]. rewrite Ht. change (e :: events) with ([e] ++ events).
    by rewrite text_of_app, append_assoc'.
Qed.

(** All output of a process is published, in order and under the subject of where it
    was written: with a submission that takes every message, the payloads of a subject
    together are the lines of that origin, however lines of the two and ticks of the clock
    alternate. *)
Theorem output_is_published (events : list out_event) (w : Exec) :
  ∃ msgs, watchOutput ok_submit prefix events w = w <| ex_sent ::= λ l, l ++ msgs |> ∧
    Forall (λ m, ∃ o, m.1 = out_subject prefix (Some o)) msgs ∧
    ∀ o, published_on (out_subject prefix (Some o)) msgs = text_of o events.
Proof.
  unfold watchOutput.
  assert (accounted (λ _, "") w (watch_start, w)) as H0.
  { exists []. split_and!; [|done|constructor|]. - destruct w. cbn. by rewrite app_nil_r. - intros o. done. }
  apply (out_steps_accounted events) in H0. destruct (fold_left _ _ _) as [s w'].
  destruct (publish_accounted _ _ _ _ H0) as ((msgs & Hw & _ & Hsub & Ht) & _ & Hb).
  exists msgs. split_and!; [done..|]. intros o. specialize (Ht o). unfold pending in Ht. rewrite Hb in Ht.
  assert ((if bool_decide (wo_prev (publish_out ok_submit prefix s w').1 = Some o) then "" else "") = "") as He by by case_bool_decide.
  rewrite He, append_nil_r in Ht. done.
Qed.

End Output.

(** A failed publish keeps its text in the buffer, where the next line gives it to the
    other origin. *)
Example failed_output_changes_origin :
  let fails subject (_ : string) := if String.eqb subject "p.out.stderr" then Some "spool is full" else None in
  ex_sent (watchOutput fails "p" [OutLine StderrLine "error"; OutLine StdoutLine "ok"]
    {| ex_fs := ∅; ex_sent := []; ex_signals := [] |})
  = [("p.out.stdout", "error" +:+ newline +:+ "ok" +:+ newline)].
Proof. vm_compute. reflexivity. Qed.

(** ** Finding processes *)

(** The files in the directories of processes. *)
Definition job_files : list string := ["spec.json"; "pid"; "stdout"; "stderr"; "exit"].

Section Finding.
Context `{PJ : ProcJSON}.
Variable windows : bool.

(** The list of processes is empty whatever is in the spool: processes are looked up
    by the names of the files in the spool instead of those of their directories, so that
    with files as this program names them a process is only found if its ID is the name of
    such a file. *)
Theorem list_finds_nothing (os : processes) (t : tree) (spool : string) (q : ListQuery) :
  spool ≠ "" → t !! abs_path spool = Some Dir →
  (∀ path c, t !! path = Some (File c) → inside (abs_path spool) path = true → path_base path ∈ job_files) →
  (∀ name, name ∈ job_files → t !! abs_path (specPath spool name) = None) →
  ListJobs windows os t spool (Some q) = Ok [].
Proof.
  intros Hne Hdir Hfiles Hids. unfold ListJobs. rewrite (proj2 (String.eqb_neq _ _) Hne).
  destruct (WalkDir (abs_path spool) t) as [l|e|p] eqn:Hl; [|unfold WalkDir in Hl; by rewrite Hdir in Hl..].
  cbn [mbind outcome_bind map_err]. f_equal.
  assert (∀ e, e ∈ l → list_entry windows os t spool q e = None) as Hnone.
  { intros [path n] He. apply (WalkDir_elem _ _ _ _ _ Hl) in He as [Ht Hp]. unfold list_entry. cbn [fst snd].
    destruct n as [|c]; [done|]. assert (path_base path ∈ job_files) as Hb.
    { apply (Hfiles path c Ht). unfold inside. destruct Hp as [-> | ->]; [by rewrite String.eqb_refl|apply orb_true_r]. }
    unfold Load. rewrite (proj2 (String.eqb_neq _ _) Hne), FileExist_abs, (Hids _ Hb).
    destruct (negb _); [done|]. rewrite bool_decide_false; [done|by intros [? ?]]. }
  clear Hl. induction l as [|e l IH]; [done|]. cbn [omap list_omap]. rewrite Hnone by set_solver.
  apply IH. intros e' He'. apply Hnone. set_solver.
Qed.

(** The action of the agent asks for processes before 1970 unless told otherwise. *)
Lemma list_without_before (os : processes) (t : tree) (args : ListRequest) (p : Process) :
  lr_Before args = 0%Z → (0 ≤ px_Created p)%Z → IsMatch windows os t p (list_query args) = false.
Proof.
  intros Hb Hc. unfold IsMatch. cbv zeta.
  change (lq_Before (list_query args)) with (lr_Before args * Second)%Z. rewrite Hb.
  assert ((px_Created p <? 0 * Second)%Z = false) as -> by (apply Z.ltb_ge; lia).
  change (negb (0 * Second =? zero_time)%Z) with true.
  match goal with |- context [matcher true false ?m] => generalize m end.
  intros m. cbn [matcher]. by rewrite existsb_app, orb_true_r, andb_false_r.
Qed.

End Finding.

(** ** Signals *)

Section Signals.
Context `{PJ : ProcJSON} `{EJ : ExecutorJSON}.
Context `{TL : TokenLib} `{RJ : RpcJSON} `{OP : OPA} `{FL : FactLib} `{RX : Regexp}.

(** C9. The executor's signal action inverts the authorization: a caller who may call the
    action a process was started by is refused and sends nothing, and the signal of a
    caller who may not reaches the process. *)
Theorem signals_need_no_authority (windows : bool) (fs : filesystem) (cfg : RpcConfig) (si : option RpcServerInfo)
    (spool : string) (os1 os2 os3 : processes) (req : RpcRequest) (reply : RpcReply) (w : Exec) id sig p pid :
  spool ≠ "" → parse_signal (rr_Data req) = Ok (id, sig) → Load (ex_fs w) spool id = Ok p →
  ParsePid (ex_fs w) p = Ok pid → IsRunning windows os1 (ex_fs w) p = true →
  windows = false → kill os2 pid sig = None →
  let r := signalAction windows fs cfg si spool os1 os2 os3 req reply w in
  (proxyAuthorize fs cfg si p req = true → r.1 = w ∧ is_ok r.2 = false) ∧
  (proxyAuthorize fs cfg si p req = false → ex_signals r.1 = (pid, sig) :: ex_signals w ∧ is_ok r.2 = true).
Proof.
  intros Hne Hp Hl Hpid Hrun -> Hk. cbv zeta. unfold signalAction. rewrite (proj2 (String.eqb_neq _ _) Hne).
  unfold ParseRequestData, lift, mbind, ST_bind, or_abort, gets. rewrite Hp. cbn [map_err]. cbv beta iota zeta.
  unfold lift. rewrite Hl. cbn [map_err].
  split; intros Ha; rewrite Ha; [done|]. rewrite Hrun. cbn [negb]. rewrite Hpid. cbn [map_err].
  unfold attempt, Signal. rewrite Hpid. cbn [andb]. rewrite Hk. by destruct w.
Qed.

End Signals.

(** ** A supervised run *)

Section Run.
Context `{PJ : ProcJSON}.
Variable windows : bool.
Variable denied : string → bool.
Variable tmp_name : string.
Variable submit_error : string → string → option string.

(** What a submission adds to the messages that were sent. *)
Definition delivered (subject payload : string) : list (string * string) :=
  match submit_error subject payload with None => [(subject, payload)] | Some _ => [] end.

(** Saving a specification changes no other file, and the specification when it succeeds. *)
Lemma save_spec spool p t t' o : saveJobSpec denied tmp_name spool p t = (t', o) →
  same_dirs t t' ∧ (∀ q n, t !! q = Some n → q ≠ abs_path (specPath spool (px_ID p)) → t' !! q = Some n) ∧
  (∀ j, o = Ok j → proc_Marshal p = Ok j).
Proof.
  unfold saveJobSpec, lift, mbind, ST_bind, attempt. destruct (proc_Marshal p) as [j|e|m]; [|by intros [= <- <-]..].
  destruct (os_CreateTemp _ _ t) as [t1 o1] eqn:Hc. apply create_spec in Hc as [[-> Ho]|(-> & Hd & Hn & -> & Hp)].
  { destruct o1; [done|by intros [= <- <-]..]. }
  rewrite rewrite_tmp by done. set (tmp := abs_path _) in *. set (t1 := <[tmp := File j]> t).
  assert (same_dirs t t1) as Hs1 by (apply insert_same_dirs; by rewrite Hn).
  assert (∀ q n, t !! q = Some n → t1 !! q = Some n) as Hq1.
  { intros q n Hq. unfold t1. rewrite lookup_insert_ne; [done|]. intros <-. by rewrite Hn in Hq. }
  destruct (os_Rename denied _ _ t1) as [t2 o2] eqn:Hr.
  apply (rename_spec _ _ _ _ _ _ j) in Hr; [|unfold t1; by rewrite lookup_insert_eq].
  destruct Hr as [[-> Ho2]|(-> & Hspec & ->)].
  - destruct o2 as [|e|m]; [done|intros [= <- <-]; (split_and!; [done|by auto|done])..].
  - fold tmp. intros [= <- <-]. split_and!; [| |by intros j' [= ->]].
    + eapply same_dirs_trans; [exact Hs1|]. eapply same_dirs_trans; [apply (delete_same_dirs tmp); unfold t1; by rewrite lookup_insert_eq|].
      apply insert_same_dirs. intros [_ Hd']%lookup_delete_Some. by apply Hspec.
    + intros q n Hq Hne. rewrite lookup_insert_ne by done. rewrite lookup_delete_ne; [by apply Hq1|]. intros <-. by rewrite Hn in Hq.
Qed.

Lemma on_exec_inv {E A} (f : string → E) (m : ST tree string A) w w' a : on_exec f m w = (w', Ok a) →
  ∃ t, m (ex_fs w) = (t, Ok a) ∧ w' = w <| ex_fs := t |>.
Proof.
  unfold on_exec. destruct (m (ex_fs w)) as [t [a'|e|p]]; cbn [map_err]; [|intros [= ]..]. intros [= <- <-]. by exists t.
Qed.

(** Only messages were sent. *)
Definition grows (w w' : Exec) : Prop := ∃ msgs, w' = w <| ex_sent ::= λ l, l ++ msgs |>.

Lemma grows_refl w : grows w w.
Proof. exists []. destruct w. cbn. by rewrite app_nil_r. Qed.

Lemma grows_trans w1 w2 w3 : grows w1 w2 → grows w2 w3 → grows w1 w3.
Proof. intros [m1 ->] [m2 ->]. exists (m1 ++ m2). destruct w1. cbn. by rewrite app_assoc. Qed.

Lemma grows_submit subject payload w : grows w (submit_logged submit_error subject payload w).
Proof.
  exists (delivered subject payload). unfold submit_logged, Submit, delivered. destruct (submit_error _ _); [|done].
  destruct w. cbn. by rewrite app_nil_r.
Qed.

Lemma submitted subject payload w :
  submit_logged submit_error subject payload w = w <| ex_sent ::= λ l, l ++ delivered subject payload |>.
Proof.
  unfold submit_logged, Submit, delivered. destruct (submit_error _ _); [|done]. destruct w. cbn. by rewrite app_nil_r.
Qed.

Lemma grows_publish prefix s w : grows w (publish_out submit_error prefix s w).2.
Proof.
  unfold publish_out. destruct (Nat.eqb _ _); [apply grows_refl|].
  unfold Submit. destruct (submit_error _ _); [apply grows_refl|by eexists].
Qed.

Hint Resolve grows_refl grows_submit grows_publish : core.

Lemma grows_out_step prefix sw e : grows sw.2 (out_step submit_error prefix sw e).2.
Proof.
  destruct sw as [s w], e as [o line|]; cbn [out_step snd]; [|apply grows_publish].
  set (s1 := {| wo_prev := _; wo_buff := _ |}).
  assert (∀ (b : bool) s w, grows w (if b then publish_out submit_error prefix s w else (s, w)).2) as Hb by by intros [].
  destruct (if negb _ then _ else _) as [s2 w2] eqn:E2. pose proof (Hb (negb (bool_decide (wo_prev s1 = Some o))) s1 w) as H1.
  rewrite E2 in H1. destruct (if Nat.ltb _ _ then _ else _) as [s3 w3] eqn:E3.
  pose proof (Hb (Nat.ltb 1024 (String.length (wo_buff s2))) s2 w2) as H2. rewrite E3 in H2. by eapply grows_trans.
Qed.

Lemma grows_steps hb out prefix p es : ∀ sw,
  grows sw.2 (fold_left (goroutine_step windows submit_error hb out prefix p) es sw).2.
Proof.
  induction es as [|e es IH]; intros sw; [done|]. cbn [fold_left]. eapply grows_trans; [|apply IH].
  destruct e as [os|e]; cbn [goroutine_step]; [destruct hb; [apply grows_submit|done]|destruct out; [apply grows_out_step|done]].
Qed.

Variable spool : string.
Variable e : run_env.

Lemma prepare_spec p w w' pid :
  abs_path (px_StdoutFile p) ≠ abs_path (px_StderrFile p) → abs_path (px_PidFile p) ≠ abs_path (px_StdoutFile p) →
  abs_path (px_PidFile p) ≠ abs_path (px_StderrFile p) →
  prepare_run denied tmp_name submit_error spool e p w = (w', Ok pid) →
  ∃ j, proc_Marshal p = Ok j ∧ re_start e = Ok pid ∧ ex_sent w' = ex_sent w ++ [(job_prefix p +:+ ".spec", j)] ∧
    same_dirs (ex_fs w) (ex_fs w') ∧ ex_fs w' !! abs_path (px_PidFile p) = Some (File (itoa pid)) ∧
    ex_fs w' !! abs_path (px_StdoutFile p) = Some (File "") ∧ ex_fs w' !! abs_path (px_StderrFile p) = Some (File "").
Proof.
  intros Hos Hpo Hps H. unfold prepare_run in H.
  apply ST_bind_Ok in H as (w1 & j & H1 & H). apply on_exec_inv in H1 as (t1 & H1 & ->).
  destruct (save_spec _ _ _ _ _ H1) as (Hd1 & _ & Hj). specialize (Hj j eq_refl).
  apply ST_bind_Ok in H as (w2 & [] & H2 & H). unfold Submit in H2.
  destruct (submit_error _ _); cbn in H2; [done|]. injection H2 as <-.
  apply ST_bind_Ok in H as (w3 & [] & H3 & H). apply on_exec_inv in H3 as (t3 & H3 & ->).
  apply ST_bind_Ok in H as (w4 & [] & H4 & H). apply on_exec_inv in H4 as (t4 & H4 & ->).
  apply ST_bind_Ok in H as (w5 & pid' & H5 & H). unfold lift in H5. destruct (re_start e) as [pid1|er|m]; [|by injection H5..].
  injection H5 as <- <-.
  apply ST_bind_Ok in H as (w6 & [] & H6 & H). apply on_exec_inv in H6 as (t6 & H6 & ->). injection H as <- <-.
  pose proof (write_same_dirs _ _ _ _ _ _ H3) as Hd3. pose proof (write_same_dirs _ _ _ _ _ _ H4) as Hd4.
  pose proof (write_same_dirs _ _ _ _ _ _ H6) as Hd6.
  apply write_spec in H3 as [[_ H3]|[_ ?]]; [|done]. apply write_spec in H4 as [[_ H4]|[_ ?]]; [|done].
  apply write_spec in H6 as [[_ H6]|[_ ?]]; [|done]. exists j. cbn in *. split_and!; [done..| | | |].
  - eapply same_dirs_trans; [exact Hd1|]. eapply same_dirs_trans; [exact Hd3|]. by eapply same_dirs_trans.
  - by rewrite H6, lookup_insert_eq.
  - rewrite H6, lookup_insert_ne, H4, lookup_insert_ne, H3 by done. by rewrite lookup_insert_eq.
  - rewrite H6, lookup_insert_ne, H4 by done. by rewrite lookup_insert_eq.
Qed.

(** The fields of a process that name its files. *)
Definition files_of (p : Process) : list string := [px_PidFile p; px_StdoutFile p; px_StderrFile p].

Lemma write_ok path c t : denied (abs_path path) = false → t !! abs_path path ≠ Some Dir →
  t !! path_dir (abs_path path) = Some Dir → os_WriteFile denied path c t = (<[abs_path path := File c]> t, Ok tt).
Proof.
  intros Hd Hn Hp. unfold os_WriteFile, change. rewrite Hd. unfold WriteFile. rewrite Hp.
  by destruct (t !! abs_path path) as [[|]|].
Qed.

Lemma supervise_spec hb out p pid w :
  let exit := exitPath spool (px_ID p) in
  let spec := specPath spool (px_ID p) in
  NoDup (map abs_path [exit; spec; px_PidFile p; px_StdoutFile p; px_StderrFile p]) →
  denied (abs_path exit) = false → ex_fs w !! path_dir (abs_path exit) = Some Dir → ex_fs w !! abs_path exit ≠ Some Dir →
  (∀ f, f ∈ files_of p → ∃ c, ex_fs w !! abs_path f = Some (File c)) →
  let w' := supervise windows denied tmp_name submit_error spool hb out e p pid w in
  (∃ m1 m2, ex_sent w' = ex_sent w ++ m1 ++ delivered (job_prefix p +:+ ".pid") (itoa pid) ++ m2 ++
    delivered (job_prefix p +:+ ".exit") (exit_message e)) ∧
  ex_fs w' !! abs_path exit = Some (File (exit_message e)) ∧
  ex_fs w' !! abs_path (px_PidFile p) = ex_fs w !! abs_path (px_PidFile p) ∧
  ex_fs w' !! abs_path (px_StdoutFile p) = Some (File (recorded out (re_out_taken e) (re_stdout e))) ∧
  ex_fs w' !! abs_path (px_StderrFile p) = Some (File (recorded out (re_err_taken e) (re_stderr e))).
Proof.
  cbv zeta. cbn [map]. intros Hnd Hden Hdir Hexit Hfiles.
  rewrite !NoDup_cons, !not_elem_of_cons in Hnd. destruct Hnd as ((He1 & He2 & He3 & He4 & _) & (Hs1 & Hs2 & Hs3 & _) & (Hp1 & Hp2 & _) & (Ho1 & _) & _).
  destruct (Hfiles (px_PidFile p)) as [cp Hcp]; [set_solver|]. destruct (Hfiles (px_StdoutFile p)) as [co Hco]; [set_solver|].
  destruct (Hfiles (px_StderrFile p)) as [ce Hce]; [set_solver|].
  unfold supervise. set (step := goroutine_step _ _ _ _ _ _).
  pose proof (grows_steps (0 <? hb)%Z out (job_prefix p) p (re_early e) (watch_start, w)) as G1. fold step in G1.
  destruct (fold_left step (re_early e) (watch_start, w)) as [s1 w1]. destruct G1 as [m1 G1]. cbn [snd] in G1.
  set (w2 := submit_logged submit_error _ _ w1). pose proof (submitted (job_prefix p +:+ ".pid") (itoa pid) w1) as G0. fold w2 in G0.
  pose proof (grows_steps (0 <? hb)%Z out (job_prefix p) p (re_events e) (s1, w2)) as G2. fold step in G2.
  destruct (fold_left step (re_events e) (s1, w2)) as [s3 w3]. destruct G2 as [m2 G2]. cbn [snd] in G2.
  set (w4 := written out p e w3). set (p2 := p <| px_TerminateTime := re_end e |>).
  assert (ex_fs w4 = <[abs_path (px_StderrFile p) := File (recorded out (re_err_taken e) (re_stderr e))]>
    (<[abs_path (px_StdoutFile p) := File (recorded out (re_out_taken e) (re_stdout e))]> (ex_fs w))) as Hw4.
  { subst w4. unfold written. rewrite G2, G0, G1. by destruct w. }
  assert (ex_sent w4 = ex_sent w ++ m1 ++ delivered (job_prefix p +:+ ".pid") (itoa pid) ++ m2) as Hsent4.
  { subst w4. unfold written. rewrite G2, G0, G1. destruct w. cbn. by rewrite <- !app_assoc. }
  assert (same_dirs (ex_fs w) (ex_fs w4)) as Hd4.
  { rewrite Hw4. eapply same_dirs_trans; apply insert_same_dirs; [by rewrite Hco|]. rewrite lookup_insert_ne by done. by rewrite Hce. }
  unfold on_exec. destruct (saveJobSpec denied tmp_name spool p2 (ex_fs w4)) as [t5 o5] eqn:H5.
  destruct (save_spec _ _ _ _ _ H5) as (Hd5 & Hkeep & _). change (px_ID p2) with (px_ID p) in Hkeep. cbn [fst].
  set (w5 := w4 <| ex_fs := t5 |>).
  assert (grows w5 (if out then (publish_out submit_error (job_prefix p) s3 w5).2 else w5)) as [m3 G3] by (destruct out; auto).
  rewrite G3, submitted. set (w7 := _ <| ex_sent ::= _ |>).
  assert (ex_fs w7 = t5) as Hfs7 by (subst w7 w5; by destruct w4).
  assert (ex_sent w7 = ex_sent w4 ++ m3 ++ delivered (job_prefix p +:+ ".exit") (exit_message e)) as Hsent7.
  { subst w7 w5. destruct w4. cbn. by rewrite <- app_assoc. }
  rewrite Hfs7, write_ok; [|done|intros Hx; apply Hexit; by apply (Hd4 _), (Hd5 _)|by apply Hd5, Hd4].
  cbn [fst]. split.
  { exists m1, (m2 ++ m3). change (ex_sent (w7 <| ex_fs := _ |>)) with (ex_sent w7). rewrite Hsent7, Hsent4. by rewrite <- !app_assoc. }
  change (ex_fs (w7 <| ex_fs := ?t |>)) with t. rewrite lookup_insert_eq, !(lookup_insert_ne _ (abs_path (exitPath spool (px_ID p)))) by done.
  split; [done|]. split_and!; (eapply Hkeep || (rewrite Hcp; eapply Hkeep)); try congruence; rewrite Hw4.
  - by rewrite !lookup_insert_ne.
  - rewrite lookup_insert_ne by done. by rewrite lookup_insert_eq.
  - by rewrite lookup_insert_eq.
Qed.

(** ** Reading a run back *)

Lemma grandchild d a b : d +:+ "/" +:+ a +:+ "/" +:+ b = (d +:+ "/" +:+ a) +:+ "/" +:+ b.
Proof. by rewrite !append_assoc'. Qed.

Lemma job_path id name : clean_dir spool → simple_name id → simple_name name →
  abs_path (path_join [spool; id; name]) = path_join [spool; id; name].
Proof.
  intros Hs Hi Hn. unfold abs_path. rewrite join_grandchild, grandchild by done.
  apply abs_clean. apply child_clean; [by apply child_clean|done].
Qed.

Lemma job_paths_differ id a b : clean_dir spool → simple_name id → simple_name a → simple_name b → a ≠ b →
  abs_path (path_join [spool; id; a]) ≠ abs_path (path_join [spool; id; b]).
Proof. intros. rewrite !job_path by done. by apply (last_names [spool; id] [spool; id]). Qed.

Lemma job_names : Forall simple_name job_files.
Proof. repeat constructor; cbn; (by vm_compute) || set_solver. Qed.

Lemma pid_dir id : clean_dir spool → simple_name id → path_dir (path_dir (pidPath spool id)) = spool.
Proof.
  intros Hs Hi. unfold pidPath. assert (simple_name "pid") as Hp by (pose proof job_names as H; rewrite Forall_forall in H; apply H; set_solver).
  rewrite join_grandchild, grandchild by done.
  rewrite dir_child; [by apply dir_child|by apply child_clean|done].
Qed.

(** What [fmt]'s quoting and JSON agree on. *)
Definition printable (s : string) : bool :=
  forallb (λ c, Nat.leb 32 (nat_of_ascii c) && Nat.leb (nat_of_ascii c) 126) (String.list_ascii_of_string s).

(** ** What the files of the output keep *)

(** Every line has fewer bytes than the scanner has room for. *)
Definition short_lines (s : string) : Prop := Forall (λ l, (Z.of_nat (String.length l) < max_scan)%Z) (split s newline_char).

(** A record of an output: a prefix of it, and the whole of it when it is written to the
    file directly, or was read to its end and has no long line. *)
Definition kept (publishOutput : bool) (taken : nat) (s r : string) : Prop :=
  (∃ lost, s = r +:+ lost) ∧ (publishOutput = false → r = s) ∧ (String.length s ≤ taken → short_lines s → r = s).

Lemma scanner_prefix s : ∀ room, ∃ lost, s = scanner_reads room s +:+ lost.
Proof.
  induction s as [|c s IH]; intros room; [by exists ""|]. cbn [scanner_reads]. destruct (room <=? 0)%Z; [by exists (String c s)|].
  destruct (IH (if Ascii.eqb c newline_char then max_scan else room - 1)%Z) as [lost E]. exists lost.
  exact (f_equal (String c) E).
Qed.

Lemma scanner_whole s : ∀ cur, Forall (λ l, Z.of_nat (String.length l) < max_scan)%Z (split_go newline_char cur s) →
  scanner_reads (max_scan - Z.of_nat (String.length cur)) s = s.
Proof.
  induction s as [|c s IH]; intros cur H; cbn [split_go] in H; [done|].
  destruct (split_go_cur newline_char cur (String c s)) as (y & l & Hl & _). cbn [split_go] in Hl. rewrite Hl in H.
  pose proof (Forall_inv H) as Hy. cbv beta in Hy. rewrite length_append in Hy.
  cbn [scanner_reads]. rewrite (proj2 (Z.leb_gt _ _)) by lia. rewrite <- Hl in H.
  destruct (Ascii.eqb c newline_char); f_equal.
  - apply Forall_inv_tail in H. by apply (IH "").
  - specialize (IH _ H). rewrite length_append in IH. cbn [String.length] in IH.
    by replace (max_scan - Z.of_nat (String.length cur + 1))%Z with (max_scan - Z.of_nat (String.length cur) - 1)%Z in IH by lia.
Qed.

Lemma take_prefix n (s : string) : ∃ lost, s = take_bytes n s +:+ lost.
Proof.
  revert s. induction n as [|n IH]; intros s; [by exists s|]. destruct s as [|c s]; [by exists ""|].
  destruct (IH s) as [lost E]. exists lost. exact (f_equal (String c) E).
Qed.

Lemma take_long n (s : string) : String.length s ≤ n → take_bytes n s = s.
Proof.
  revert s. induction n as [|n IH]; intros [|c s] H; cbn in *; [done|lia|done|]. by rewrite IH by lia.
Qed.

Lemma recorded_kept out n s : kept out n s (recorded out n s).
Proof.
  unfold recorded. destruct out; [|split_and!; [exists ""; by rewrite append_nil_r|done..]]. split_and!; [|done|].
  - destruct (take_prefix n s) as [l1 E1]. destruct (scanner_prefix (take_bytes n s) max_scan) as [l2 E2].
    exists (l2 +:+ l1). rewrite E1 at 1. rewrite E2 at 1. by rewrite append_assoc'.
  - intros Hn Hs. rewrite take_long by done. by apply (scanner_whole s "").
Qed.

(** C14. Whatever submissions fail, a supervised process that was started leaves a record
    in its files: its process id and its exit are read back, the exit code, or an error
    when it was killed or could not be waited for, and what is read back of each output is
    a prefix of it: the whole output when output is not published, or when the readers of
    the pipes took all of it and no line of it has 65536 bytes.  Its specification was
    submitted, and was so first; its process id follows, and the message of its exit comes
    last, unless their own submission fails. *)
Theorem supervised_run_is_recorded hb out p w w' :
  (∀ code s, (int64_min ≤ code ≤ int64_max)%Z → printable s = true → exit_Unmarshal (exitJson code s) = Ok (code, s)) →
  (int64_min ≤ exit_code e ≤ int64_max)%Z → printable (exit_reason e) = true →
  clean_dir spool → simple_name (px_ID p) →
  denied (exitPath spool (px_ID p)) = false → ex_fs w !! path_dir (exitPath spool (px_ID p)) = Some Dir →
  ex_fs w !! exitPath spool (px_ID p) ≠ Some Dir →
  StartSupervised windows denied tmp_name submit_error spool hb out e p w = (w', Ok tt) →
  let p1 := started_process spool hb (re_now e) p in
  ∃ j pid m1 m2 stdout stderr, proc_Marshal p1 = Ok j ∧ re_start e = Ok pid ∧
    ex_sent w' = ex_sent w ++ [(job_prefix p1 +:+ ".spec", j)] ++ m1 ++ delivered (job_prefix p1 +:+ ".pid") (itoa pid) ++
      m2 ++ delivered (job_prefix p1 +:+ ".exit") (exit_message e) ∧
    read_file (ex_fs w') (abs_path (px_PidFile p1)) = Ok (itoa pid) ∧
    Stdout (ex_fs w') p1 = Ok stdout ∧ kept out (re_out_taken e) (re_stdout e) stdout ∧
    Stderr (ex_fs w') p1 = Ok stderr ∧ kept out (re_err_taken e) (re_stderr e) stderr ∧
    ParseExitCode (ex_fs w') p1 =
      if String.eqb (exit_reason e) "" then Ok (exit_code e) else Err (ErrProcessFailed (exit_reason e)).
Proof.
  intros Hjson Hcode Hprint Hspool Hid Hden Hdir Hexit H. cbv zeta. set (p1 := started_process spool hb (re_now e) p).
  pose proof job_names as Hnames. unfold job_files in Hnames. rewrite !Forall_cons in Hnames. destruct Hnames as (N1 & N2 & N3 & N4 & N5 & _).
  pose proof (λ a b Ha Hb Hab, job_paths_differ (px_ID p) a b Hspool Hid Ha Hb Hab) as Hdiff.
  pose proof (λ a Ha, job_path (px_ID p) a Hspool Hid Ha) as Habs.
  unfold StartSupervised in H. destruct (String.eqb spool ""); [done|]. destruct (negb _); [done|].
  apply ST_bind_Ok in H as (w1 & pid & H1 & H). injection H as <-.
  assert (px_ID p1 = px_ID p ∧ px_PidFile p1 = pidPath spool (px_ID p) ∧ px_StdoutFile p1 = stdOutPath spool (px_ID p) ∧
    px_StderrFile p1 = stdErrPath spool (px_ID p)) as (Eid & Epid & Eout & Eerr) by by destruct p.
  fold p1 in H1 |- *.
  apply prepare_spec in H1 as (j & Hj & Hpid & Hsent & Hdirs & F1 & F2 & F3);
    [|rewrite Eout, Eerr; by apply Hdiff|rewrite Epid, Eout; by apply Hdiff|rewrite Epid, Eerr; by apply Hdiff].
  destruct (supervise_spec hb out p1 pid w1) as ((m1 & m2 & Hsent') & X1 & X2 & X3 & X4); rewrite ?Eid.
  - cbn [map]. rewrite Epid, Eout, Eerr. rewrite !NoDup_cons, !not_elem_of_cons. unfold exitPath, specPath, pidPath, stdOutPath, stdErrPath.
    split_and!; try (by apply Hdiff); try apply not_elem_of_nil. apply NoDup_nil_2.
  - unfold exitPath in *. by rewrite Habs.
  - unfold exitPath in *. rewrite Habs by done. by apply Hdirs.
  - unfold exitPath in *. rewrite Habs by done. intros Hx. apply Hexit. by apply Hdirs.
  - intros f Hf. unfold files_of in Hf. rewrite !elem_of_cons in Hf. destruct Hf as [->|[->|[->|Hf]]]; [by eexists..|by apply not_elem_of_nil in Hf].
  - rewrite Eid in X1.
    exists j, pid, m1, m2, (recorded out (re_out_taken e) (re_stdout e)), (recorded out (re_err_taken e) (re_stderr e)).
    set (w2 := supervise _ _ _ _ _ _ _ _ _ _ _) in *.
    assert (HasStarted (ex_fs w2) p1 = true) as Hstart.
    { unfold HasStarted. rewrite Epid at 1. unfold pidPath. rewrite (proj2 (String.eqb_neq _ _)) by (apply (path_join_nonempty _ "pid"); [set_solver|done]).
      by rewrite X2, F1. }
    split_and!; try done; try apply recorded_kept.
    + rewrite Hsent', Hsent. by rewrite <- !app_assoc.
    + unfold read_file. by rewrite X2, F1.
    + unfold Stdout, read_file. rewrite Eout at 1. unfold stdOutPath.
      rewrite (proj2 (String.eqb_neq _ _)) by (apply (path_join_nonempty _ "stdout"); [set_solver|done]). by rewrite X3.
    + unfold Stderr, read_file. rewrite Eerr at 1. unfold stdErrPath.
      rewrite (proj2 (String.eqb_neq _ _)) by (apply (path_join_nonempty _ "stderr"); [set_solver|done]). by rewrite X4.
    + unfold ParseExitCode. rewrite Hstart. cbn [negb]. rewrite Epid, pid_dir, Eid by done. unfold read_file at 1. rewrite X1.
      cbn [map_err mbind outcome_bind]. unfold exit_message at 1. rewrite Hjson by done. cbn [map_err mbind outcome_bind].
      by destruct (String.eqb (exit_reason e) "").
Qed.

End Run.

(** ** A concrete process *)

#[local] Instance demo_proc_json : ProcJSON := {|
  proc_Marshal := λ p, Ok (px_ID p +:+ "," +:+ px_PidFile p);
  proc_Unmarshal := λ s, match split s "," with
    | [id; pid] => Ok {|
        px_Action := "exec"; px_Agent := "shell"; px_Args := []; px_Caller := "choria=bob"; px_Created := 0; px_Command := "/bin/sleep";
        px_Environment := []; px_HeartBeat := 0; px_ID := id; px_Identity := "node1"; px_PidFile := pid; px_RequestID := "42";
        px_StartTime := zero_time; px_StderrFile := ""; px_StdoutFile := ""; px_TerminateTime := zero_time |}
    | _ => Err "unexpected end of JSON input"
    end;
  exit_Unmarshal := λ j,
    let r := drop_bytes 8 j in
    match split r "," with
    | n :: _ => match atoi n with
                | Some code => let r := drop_bytes (String.length n) r in
                               let s := drop_bytes 9 r in Ok (code, take_bytes (String.length s - 1) s)
                | None => Err "invalid number"
                end
    | [] => Err "unexpected end of JSON input"
    end;
  quoted := id;
|}.

Lemma demo_exit_json code s : (int64_min ≤ code ≤ int64_max)%Z → exit_Unmarshal (exitJson code s) = Ok (code, s).
Proof.
  intros Hc. unfold exitJson. cbn [exit_Unmarshal quoted demo_proc_json id].
  match goal with |- context [drop_bytes 8 ?j] =>
    assert (drop_bytes 8 j = itoa code +:+ String "," (String (ascii_of_nat 34) ("error" +:+ String (ascii_of_nat 34) (":" +:+ s +:+ "}")))) as Hd
      by reflexivity end.
  rewrite Hd. unfold split. rewrite split_go_line by (apply itoa_no_byte; [by vm_compute|done]).
  change ("" +:+ itoa code) with (itoa code). rewrite atoi_itoa by done. rewrite drop_bytes_append.
  set (r := String "," _). assert (drop_bytes 9 r = s +:+ "}") as Hr by reflexivity. cbv zeta. rewrite Hr, length_append.
  replace (String.length s + String.length "}" - 1) with (String.length s) by (cbn; lia). by rewrite take_bytes_append.
Qed.

Definition demo_process : Process :=
  {| px_Action := "exec"; px_Agent := "shell"; px_Args := ["10"]; px_Caller := "choria=bob"; px_Created := 0;
     px_Command := "/bin/sleep"; px_Environment := []; px_HeartBeat := 0; px_ID := "job1"; px_Identity := "node1";
     px_PidFile := ""; px_RequestID := "42"; px_StartTime := zero_time; px_StderrFile := ""; px_StdoutFile := "";
     px_TerminateTime := zero_time |}.

Definition demo_run : run_env :=
  {| re_now := 1; re_start := Ok 1234%Z; re_stdout := "done"; re_stderr := ""; re_out_taken := 4; re_err_taken := 0; re_early := [];
     re_events := [HeartBeat {| kill := λ _ _, None; find_process := λ _, true |}; Output (OutLine StdoutLine "done")];
     re_end := 2; re_state := Some 3%Z; re_wait := None |}.

Definition demo_spool : Exec :=
  {| ex_fs := {["/" := Dir; "/spool" := Dir; "/spool/job1" := Dir]}; ex_sent := []; ex_signals := [] |}.

Definition demo_run_result : Exec * outcome exec_error () :=
  StartSupervised false (λ _, false) "123" (λ _ _, None) "/spool" 10 true demo_run demo_process demo_spool.

Lemma supervised_run_is_recorded_witness :
  Stdout (ex_fs demo_run_result.1) (started_process "/spool" 10 1 demo_process) = Ok "done" ∧
  ParseExitCode (ex_fs demo_run_result.1) (started_process "/spool" 10 1 demo_process) = Ok 3%Z.
Proof.
  destruct (supervised_run_is_recorded false (λ _, false) "123" (λ _ _, None) "/spool" demo_run 10 true demo_process demo_spool demo_run_result.1)
    as (j & pid & m1 & m2 & stdout & stderr & _ & _ & _ & _ & Hout & (_ & _ & Hall) & _ & _ & H).
  - intros code s Hc _. by apply demo_exit_json.
  - vm_compute. split; discriminate.
  - vm_compute. reflexivity.
  - split_and!; [vm_compute; reflexivity..|discriminate].
  - split; [|vm_compute; reflexivity]. apply (bool_decide_unpack _). vm_compute. exact I.
  - reflexivity.
  - vm_compute. reflexivity.
  - vm_compute. discriminate.
  - unfold demo_run_result. rewrite (surjective_pairing (StartSupervised _ _ _ _ _ _ _ _ _ _)). f_equal.
  - split; [|exact H]. assert (stdout = "done") as ->; [|exact Hout]. apply Hall; [vm_compute; lia|].
    repeat constructor; unfold max_scan; cbn [String.length]; lia.
Defined.

Lemma list_finds_nothing_witness :
  ListJobs false {| kill := λ _ _, None; find_process := λ _, true |} (ex_fs demo_run_result.1) "/spool"
    (Some {| lq_Action := ""; lq_Agent := "shell"; lq_Before := zero_time; lq_Caller := ""; lq_Command := ""; lq_Completed := false;
             lq_Identity := ""; lq_RequestID := ""; lq_Running := false; lq_Since := zero_time |}) = Ok [].
Proof.
  apply list_finds_nothing.
  - discriminate.
  - vm_compute. reflexivity.
  - assert (forallb (λ kv : string * node, match kv.2 with Dir => true | File _ => elem (path_base kv.1) job_files end)
      (map_to_list (ex_fs demo_run_result.1)) = true) as Hall by (vm_compute; reflexivity).
    intros path c Hp _. rewrite forallb_elem_of in Hall. specialize (Hall (path, File c)). cbn [fst snd] in Hall.
    apply elem_true. apply Hall. by apply elem_of_map_to_list.
  - intros name Hn. unfold job_files in Hn. rewrite !elem_of_cons in Hn.
    destruct Hn as [->|[->|[->|[->|[->|Hn]]]]]; [vm_compute; reflexivity..|by apply not_elem_of_nil in Hn].
Defined.

#[local] Instance demo_executor_json : ExecutorJSON := {|
  parse_list := λ _, Err "unused";
  parse_signal := λ s, Ok (s, 9%Z);
  parse_status := Ok;
  executor_Marshal := λ _, "";
  exec_error_text := λ _, "";
|}.

(** The caller may call nothing: the policy is missing. *)
Lemma signals_need_no_authority_witness :
  ex_signals (signalAction false ∅ demo_rpc_config (Some demo_rpc_server) "/spool"
    {| kill := λ _ _, None; find_process := λ _, true |} {| kill := λ _ _, None; find_process := λ _, true |}
    {| kill := λ _ _, None; find_process := λ _, true |}
    {| rr_Agent := "executor"; rr_Action := "signal"; rr_Data := "job1"; rr_RequestID := "42"; rr_SenderID := "client";
       rr_CallerID := "choria=eve"; rr_Collective := "mcollective"; rr_TTL := 60; rr_Time := 0; rr_Filter := NewFilter;
       rr_CallerPublicData := ""; rr_SignerPublicData := "" |} newReply demo_run_result.1).1 = [(1234%Z, 9%Z)].
Proof.
  set (os := {| kill := λ _ _, None; find_process := λ _, true |}).
  destruct (Load (ex_fs demo_run_result.1) "/spool" "job1") as [p|err|m] eqn:Hl; [|vm_compute in Hl; discriminate..].
  destruct (signals_need_no_authority false ∅ demo_rpc_config (Some demo_rpc_server) "/spool" os os os
    {| rr_Agent := "executor"; rr_Action := "signal"; rr_Data := "job1"; rr_RequestID := "42"; rr_SenderID := "client";
       rr_CallerID := "choria=eve"; rr_Collective := "mcollective"; rr_TTL := 60; rr_Time := 0; rr_Filter := NewFilter;
       rr_CallerPublicData := ""; rr_SignerPublicData := "" |} newReply demo_run_result.1 "job1" 9 p 1234) as [_ H].
  - discriminate.
  - reflexivity.
  - exact Hl.
  - vm_compute in Hl. injection Hl as <-. vm_compute. reflexivity.
  - vm_compute in Hl. injection Hl as <-. vm_compute. reflexivity.
  - reflexivity.
  - reflexivity.
  - destruct H as [H _]; [vm_compute in Hl; injection Hl as <-; vm_compute; reflexivity|]. exact H.
Defined.
