(* ===== verification/HttpSwitch.v ===== *)
(** * The HTTP switch watcher

    aagent/watchers/httpswitchwatcher/httpswitch.go: a switch that is pressed through HTTP
    and follows the states of its machine.  Presses are calls of other goroutines; they and
    the watcher's own loop are the steps of a relation, one per blocking operation. *)
From S2P Require Import Prelude Records GoLib Files Util Machine Watchers.

Inductive State := Unknown | On | Off | OnNoTransition | OffNoTransition.
#[export] Instance state_eq_dec : EqDecision State.
Proof. solve_decision. Defined.

(** A state without a name has the empty one. *)
Definition stateNames (s : State) : string :=
  match s with Unknown => "unknown" | On => "on" | Off => "off" | OnNoTransition | OffNoTransition => "" end.

Record properties := {
  ShouldOn : list string;
  ShouldOff : list string;
  ShouldDisable : list string;
  Annotations : gmap string string;
}.

Record StateNotification := {
  sn_PreviousOutcome : string;
  sn_IsOn : bool;
  sn_Annotations : gmap string string;
}.

(** Where the loop of [Run] is: before its first statement, sending itself the first
    notification, in its select, sending a state to the button, over. *)
Inductive place := Starting | Notifying | Selecting | Sending (s : State) | Over.

Record Switch := {
  hs_base : Watcher;
  hs_properties : properties;
  (** the channel of capacity one *)
  hs_buttonPress : option State;
  hs_previous : State;
  hs_httpStarted : bool;
  hs_place : place;
  (** callers that passed their checks and did not send yet *)
  hs_pressers : list State;
}.

Definition NewSwitch (name : string) (states : list string) (required : list ForeignMachineState)
    (failEvent successEvent : string) (ai : Z) (rawprops : res properties) : res Switch :=
  base ← NewWatcher name "httpswitch" ai states required true failEvent successEvent;
  props ← map_err (λ e, "could not set properties: " +:+ e) rawprops;
  Ok {| hs_base := base; hs_properties := props; hs_buttonPress := None; hs_previous := Unknown; hs_httpStarted := false;
        hs_place := Starting; hs_pressers := [] |}.

Definition shouldBeOn (s : string) (w : Switch) : bool := elem s (ShouldOn (hs_properties w)).
Definition shouldBeOff (s : string) (w : Switch) : bool := elem s (ShouldOff (hs_properties w)).
Definition shouldBeDisabled (s : string) (w : Switch) : bool := elem s (ShouldDisable (hs_properties w)).

(** The checks of [TurnOn] and [TurnOff], and the state they then send. *)
Definition TurnOn (v : machine_view) (w : Switch) : res State :=
  if shouldBeDisabled (mv_State v) w then Err "watcher is disabled"
  else if negb (ShouldWatch (Some v) (hs_base w)) then Err "watcher is not in an active state"
  else Ok On.

Definition TurnOff (v : machine_view) (w : Switch) : res State :=
  if shouldBeDisabled (mv_State v) w then Err "watcher is disabled"
  else if negb (ShouldWatch (Some v) (hs_base w)) then Err "switch is not in an active state"
  else Ok Off.

Definition setPreviousState (s : State) (w : Switch) : Switch := w <| hs_previous := s |>.

Definition CurrentState (w : Switch) : StateNotification :=
  {| sn_PreviousOutcome := stateNames (hs_previous w); sn_IsOn := bool_decide (hs_previous w = On);
     sn_Annotations := Annotations (hs_properties w) |}.

(** What a step is seen to do: an accepted press, the handling of a state that was sent
    with the event it fires, nothing. *)
Inductive label := Pressed (s : State) | Handled (s : State) (fires : option string) | Silent.

Section Steps.
Context {M V : Type} `{WH : WatcherHost M V}.

Definition notify (w : Switch) (m : M) : M :=
  host_NotifyWatcherState (wt_name (hs_base w)) (sn_PreviousOutcome (CurrentState w)) m.

(** The event [handleStateChange] fires. *)
Definition fires (s : State) (w : Switch) : option string :=
  match s with On => SuccessTransition (hs_base w) | Off => FailureTransition (hs_base w) | _ => None end.

Definition handleStateChange (s : State) (w : Switch) (m : M) : Switch * M * res () :=
  if negb (ShouldWatch (Some (host_view m)) (hs_base w)) then (w, m, Ok tt)
  else
    let went p w :=
      let w := setPreviousState p w in
      let '(m, r) := fire_event (fires s w) (notify w m) in (w, m, r) in
    match s with
    | On => went On w
    | OnNoTransition => went On w
    | Off => went Off w
    | OffNoTransition => went Off w
    | Unknown => (w, m, Err ("invalid state change event: " +:+ stateNames s))
    end.

Definition handled_label (s : State) (w : Switch) (m : M) : label :=
  Handled s (if ShouldWatch (Some (host_view m)) (hs_base w) then fires s w else None).

(** What the loop does with a change of the machine's state. *)
Definition after_change (mstate : string) (w : Switch) : place :=
  if shouldBeOn mstate w then Sending OnNoTransition
  else if shouldBeOff mstate w then Sending OffNoTransition
  else Selecting.

(** [http] says whether there is an HTTP manager; a select with several ready cases
    takes any of them, and the loop registers with the manager before it. *)
Inductive step (http : bool) : Switch * M → label → Switch * M → Prop :=
| step_start w m : hs_place w = Starting →
    step http (w, m) Silent
      (w <| hs_place := if ShouldWatch (Some (host_view m)) (hs_base w) then Notifying else Selecting |>, m)
| step_first_notification w m : hs_place w = Notifying → wt_statechg (hs_base w) = false →
    step http (w, m) Silent (w <| hs_base ::= set_statechg true |> <| hs_place := Selecting |>, m)
| step_registerWithHTTP w m : hs_place w = Selecting → http = true →
    step http (w, m) Silent (w <| hs_httpStarted := true |>, m)
| step_button w m s : hs_place w = Selecting → hs_buttonPress w = Some s →
    step http (w, m) (handled_label s w m) (handleStateChange s (w <| hs_buttonPress := None |>) m).1
| step_change w m : hs_place w = Selecting → wt_statechg (hs_base w) = true →
    step http (w, m) Silent
      (w <| hs_base ::= set_statechg false |> <| hs_place := after_change (mv_State (host_view m)) w |>, m)
| step_send w m s : hs_place w = Sending s → hs_buttonPress w = None →
    step http (w, m) Silent (w <| hs_buttonPress := Some s |> <| hs_place := Selecting |>, m)
| step_interrupted w m : hs_place w = Selecting →
    step http (w, m) Silent (w <| hs_place := Over |>, m)
| step_press w m s : TurnOn (host_view m) w = Ok s ∨ TurnOff (host_view m) w = Ok s →
    step http (w, m) (Pressed s) (w <| hs_pressers ::= (λ l, l ++ [s]) |>, m)
| step_presser w m i s : hs_pressers w !! i = Some s → hs_buttonPress w = None →
    step http (w, m) Silent (w <| hs_buttonPress := Some s |> <| hs_pressers ::= delete i |>, m)
| step_notify w m : step http (w, m) Silent (w <| hs_base ::= NotifyStateChance |>, m)
| step_machine w m m' : step http (w, m) Silent (w, m').

Inductive steps (http : bool) : Switch * M → list label → Switch * M → Prop :=
| steps_nil s : steps http s [] s
| steps_snoc s l s' a s'' : steps http s l s' → step http s' a s'' → steps http s (l ++ [a]) s''.

(** ** Presses *)

Definition is_press (s : State) : bool := match s with On | Off => true | _ => false end.
Definition pressed (l : list label) : list State := omap (λ a, match a with Pressed s => Some s | _ => None end) l.
Definition handled (l : list label) : list State :=
  omap (λ a, match a with Handled s _ => if is_press s then Some s else None | _ => None end) l.
(** Presses that were accepted and wait. *)
Definition waiting (w : Switch) : list State :=
  hs_pressers w ++ match hs_buttonPress w with Some s => if is_press s then [s] else [] | None => [] end.

Lemma pressed_snoc l a : pressed (l ++ [a]) = pressed l ++ pressed [a].
Proof. apply omap_app. Qed.
Lemma handled_snoc l a : handled (l ++ [a]) = handled l ++ handled [a].
Proof. apply omap_app. Qed.

(** The loop sends only states without a transition, the callers only presses. *)
Definition sound_places (w : Switch) : Prop :=
  (∀ s, hs_place w = Sending s → is_press s = false) ∧ Forall (λ s, is_press s = true) (hs_pressers w).

Definition accounted (l : list label) (w : Switch) : Prop :=
  sound_places w ∧ handled l ++ waiting w ≡ₚ pressed l ∧
  Forall (λ a, match a with
               | Handled s (Some e) => s = On ∧ wt_succEvent (hs_base w) = e ∨ s = Off ∧ wt_failEvent (hs_base w) = e
               | _ => True end) l.

(** Handling keeps what waits, the callers and the place. *)
Lemma handle_keeps s w m : let w' := (handleStateChange s w m).1.1 in
  hs_place w' = hs_place w ∧ hs_pressers w' = hs_pressers w ∧ hs_buttonPress w' = hs_buttonPress w ∧ hs_base w' = hs_base w.
Proof.
  unfold handleStateChange. destruct (negb _); [done|].
  destruct s; cbn; try done; by destruct (fire_event _ _) as [? ?], w.
Qed.

Lemma fires_named s w e : fires s w = Some e →
  s = On ∧ wt_succEvent (hs_base w) = e ∨ s = Off ∧ wt_failEvent (hs_base w) = e.
Proof.
  unfold fires, SuccessTransition, FailureTransition. destruct s; try done; destruct (String.eqb _ _); try done; intros [= <-]; auto.
Qed.

Lemma turned_press v w s : TurnOn v w = Ok s ∨ TurnOff v w = Ok s → is_press s = true.
Proof. unfold TurnOn, TurnOff. intros [H|H]; repeat case_match; by simplify_eq. Qed.

Lemma after_change_press mstate w s : after_change mstate w = Sending s → is_press s = false.
Proof. unfold after_change. repeat case_match; by intros [= <-]. Qed.

#[local] Arguments ShouldWatch : simpl never.
#[local] Arguments fires : simpl never.

Lemma press_step http s a s' l : step http s a s' → accounted l s.1 → accounted (l ++ [a]) s'.1.
Proof.
  unfold accounted. rewrite pressed_snoc, handled_snoc, Forall_app.
  intros Hstep ((Hsend & Hpr) & Hacc & Hev).
  destruct Hstep as [w m Hp|w m Hp Hc|w m Hp Hh|w m s Hp Hb|w m Hp Hc|w m s Hp Hb|w m Hp|w m s Ht|w m i s Hi Hb|w m|w m m'];
    cbn [fst] in *.
  4: { destruct (handle_keeps s (w <| hs_buttonPress := None |>) m) as (H1 & H2 & H3 & H4).
       destruct (handleStateChange s (w <| hs_buttonPress := None |>) m) as [[w' m'] r]. cbn in *.
       unfold sound_places, waiting, handled_label in *. rewrite H1, H2, H3, H4. destruct w as [? ? ? ? ? ? ?]. cbn in *. subst.
       split_and!; [done|done| |done|].
       - rewrite <- Hacc. cbn. destruct (is_press s); rewrite !app_nil_r; [|done].
         rewrite <- app_assoc. f_equiv. cbn. apply Permutation_cons_append.
       - constructor; [|constructor]. match goal with |- context [ShouldWatch ?v ?b] => destruct (ShouldWatch v b) end; [|done].
         match goal with |- context [fires ?s ?w] => destruct (fires s w) eqn:Hf end; [|done]. by apply fires_named in Hf. }
  all: destruct w as [base props btn prev ht pl prs]; unfold sound_places, waiting in *; cbn in *; subst;
    rewrite ?app_nil_r in *; (split_and!; try done; try by (constructor; [done|constructor])).
  - intros s Hs. by case_match.
  - intros s Hs. by eapply after_change_press.
  - specialize (Hsend s eq_refl). by rewrite Hsend, app_nil_r.
  - apply Forall_app. split; [done|]. constructor; [by eapply turned_press|done].
  - rewrite <- Hacc. rewrite <- !app_assoc. f_equiv. f_equiv. apply Permutation_app_comm.
  - by apply Forall_delete.
  - assert (is_press s = true) as -> by (rewrite Forall_lookup in Hpr; by eapply Hpr).
    rewrite <- Hacc. f_equiv. rewrite (delete_Permutation prs i s Hi) at 2. symmetry. apply Permutation_cons_append.
Qed.

(** What the switch does is accounted for: whoever presses it, however its machine
    changes and however all that interleaves, every accepted press is handled exactly once
    or still waits, none is handled that was not accepted, and only handling a press fires
    an event: that of success when it is turned on, that of failure when it is turned off. *)
Theorem presses_are_accounted (http : bool) (name : string) (states : list string) (required : list ForeignMachineState)
    (failEvent successEvent : string) (ai : Z) (rawprops : res properties) (w w' : Switch) (m m' : M) (l : list label) :
  NewSwitch name states required failEvent successEvent ai rawprops = Ok w → steps http (w, m) l (w', m') →
  handled l ++ waiting w' ≡ₚ pressed l ∧
  ∀ s e, Handled s (Some e) ∈ l → s = On ∧ wt_succEvent (hs_base w') = e ∨ s = Off ∧ wt_failEvent (hs_base w') = e.
Proof.
  intros Hn Hs. apply outcome_bind_Ok in Hn as (base & _ & Hn). apply outcome_bind_Ok in Hn as (props & _ & [= <-]).
  assert (∀ s l s', steps http s l s' → accounted [] s.1 → accounted l s'.1) as Hgen.
  { induction 1; [done|]. eauto using press_step. }
  apply Hgen in Hs as (_ & Hacc & Hev); [|by repeat split]. split; [exact Hacc|]. intros s e Hin. rewrite Forall_forall in Hev. exact (Hev _ Hin).
Qed.

(** ** The switch that waits for itself *)

(** The loop sends to the button, which is full, and nobody else takes from it. *)
Definition stuck (w : Switch) : Prop := (∃ s, hs_place w = Sending s) ∧ is_Some (hs_buttonPress w).

Lemma stuck_step http s a s' : step http s a s' → stuck s.1 → stuck s'.1 ∧ handled [a] = [] ∧ ∀ x e, a ≠ Handled x e.
Proof. intros Hstep [[x Hx] [y Hy]]. destruct Hstep; cbn in *; try congruence; (split; [|split; [done|by intros]]); by split; eauto. Qed.

(** The switch can wait for itself: when the state of its machine changes to one that
    should turn it on or off while a press waits, its loop sends to the channel only it
    reads; whatever happens then, no press is handled, no event fired, and the loop never
    ends, not even when it is told to. *)
Theorem busy_switch_deadlocks (http : bool) (w : Switch) (m : M) (s : State) :
  hs_place w = Selecting → hs_buttonPress w = Some s → wt_statechg (hs_base w) = true →
  shouldBeOn (mv_State (host_view m)) w = true ∨ shouldBeOff (mv_State (host_view m)) w = true →
  ∃ w1, step http (w, m) Silent (w1, m) ∧
    ∀ l w' m', steps http (w1, m) l (w', m') → handled l = [] ∧ hs_place w' ≠ Over ∧ hs_buttonPress w' ≠ None ∧
      ∀ x e, Handled x e ∉ l.
Proof.
  intros Hp Hb Hc Hon. eexists. split; [by apply step_change|].
  match goal with |- ∀ l w' m', steps _ (?w1, _) _ _ → _ => assert (stuck w1) as Hst end.
  { assert (∃ x, after_change (mv_State (host_view m)) w = Sending x) as [x Hx].
    { unfold after_change. destruct (shouldBeOn _ w); [by eexists|]. destruct Hon as [?| ->]; [done|by eexists]. }
    revert Hx. generalize (after_change (mv_State (host_view m)) w). intros p ->. destruct w as [? ? ? ? ? ? ?]; cbn in *; subst.
    split; by eexists. }
  intros l w' m' Hs. assert (∀ s0 l s', steps http s0 l s' → stuck s0.1 → stuck s'.1 ∧ handled l = [] ∧ ∀ x e, Handled x e ∉ l) as Hgen.
  { induction 1 as [|s0 l0 s1 a s2 Hs0 IH Hstep]; intros H0; [split_and!; [done|done|by intros ? ? ?%elem_of_nil]|].
    destruct (IH H0) as (H1 & Hh & Hno). destruct (stuck_step _ _ _ _ Hstep H1) as (H2 & Ha & Hna).
    split; [done|]. split; [by rewrite handled_snoc, Hh, Ha|].
    intros x e [Hin|Hin%list_elem_of_singleton]%elem_of_app; [by eapply Hno|by eapply Hna]. }
  destruct (Hgen _ _ _ Hs Hst) as ([[x Hx] [y Hy]] & Hh & Hno). cbn in *. split_and!; [done|congruence|congruence|done].
Qed.

End Steps.

(** ** Switches for the witnesses *)

Definition demo_switch_properties : properties :=
  {| ShouldOn := ["on"]; ShouldOff := ["off"]; ShouldDisable := ["away"]; Annotations := ∅ |}.
Definition demo_switch : Switch :=
  {| hs_base := {| wt_name := "switch"; wt_wtype := "httpswitch"; wt_announceInterval := 0; wt_statechg := false;
                   wt_activeStates := ["on"; "off"]; wt_requiredStates := []; wt_succEvent := "turn_on"; wt_failEvent := "turn_off" |};
     hs_properties := demo_switch_properties; hs_buttonPress := None; hs_previous := Unknown; hs_httpStarted := false;
     hs_place := Starting; hs_pressers := [] |}.

Lemma presses_are_accounted_witness : ∃ l w m,
  steps false (demo_switch, demo_watched "off") l (w, m) ∧ dm_events m = ["turn_on"] ∧ handled l = [On] ∧ waiting w = [] ∧
  handled l ++ waiting w ≡ₚ pressed l.
Proof.
  assert (∃ l s, steps false (demo_switch, demo_watched "off") l s ∧ dm_events s.2 = ["turn_on"] ∧ handled l = [On] ∧ waiting s.1 = [])
    as (l & [w m] & Hs & He & Hh & Hw).
  { eexists _, _. split; [|split_and!].
    - eapply steps_snoc; [eapply steps_snoc; [eapply steps_snoc; [eapply steps_snoc; [eapply steps_snoc; [apply steps_nil|]|]|]|]|].
      + apply step_start. reflexivity.
      + apply step_first_notification; reflexivity.
      + apply step_press. left. reflexivity.
      + apply (step_presser _ _ _ 0); reflexivity.
      + apply step_button; reflexivity.
    - reflexivity.
    - reflexivity.
    - reflexivity. }
  exists l, w, m. split_and!; [done..|].
  exact (proj1 (presses_are_accounted false "switch" ["on"; "off"] [] "turn_off" "turn_on" 0 (Ok demo_switch_properties)
    demo_switch w (demo_watched "off") m l eq_refl Hs)).
Defined.

(** Pressed while the notification its loop sends itself waits. *)
Definition demo_busy_switch : Switch :=
  demo_switch <| hs_base ::= set_statechg true |> <| hs_place := Selecting |> <| hs_buttonPress := Some On |>.

Lemma busy_switch_deadlocks_witness :
  (∃ l, steps false (demo_switch, demo_watched "off") l (demo_busy_switch, demo_watched "off")) ∧
  ∃ w1, step false (demo_busy_switch, demo_watched "off") Silent (w1, demo_watched "off") ∧
    ∀ l w' m', steps false (w1, demo_watched "off") l (w', m') → hs_place w' ≠ Over.
Proof.
  split.
  - eexists. eapply steps_snoc; [eapply steps_snoc; [eapply steps_snoc; [eapply steps_snoc; [apply steps_nil|]|]|]|].
    + apply step_start. reflexivity.
    + apply step_first_notification; reflexivity.
    + apply step_press. left. reflexivity.
    + refine (step_presser _ _ _ 0 On _ _); reflexivity.
  - assert (shouldBeOff (mv_State (host_view (demo_watched "off"))) demo_busy_switch = true) as Hoff by (vm_compute; reflexivity).
    destruct (busy_switch_deadlocks false demo_busy_switch (demo_watched "off") On eq_refl eq_refl eq_refl (or_intror Hoff)) as (w1 & Hs & H).
    exists w1. split; [exact Hs|]. intros l w' m' Hl. exact (proj1 (proj2 (H l w' m' Hl))).
Defined.

(** The loop also waits for itself before it starts, when its machine changed its state in
    the meantime. *)
Example first_notification_can_block :
  ∃ w, steps false (demo_switch, demo_watched "off") [Silent; Silent] (w, demo_watched "off") ∧
    hs_place w = Notifying ∧ wt_statechg (hs_base w) = true.
Proof.
  eexists. split; [|split].
  - change [Silent; Silent] with (([] ++ [Silent]) ++ [Silent]). eapply steps_snoc; [eapply steps_snoc; [apply steps_nil|]|].
    + apply step_start. reflexivity.
    + apply step_notify.
  - reflexivity.
  - reflexivity.
Qed.
