(* ===== verification/GossipWatcher.v ===== *)
(** * The gossip watcher

    aagent/watchers/gossipwatcher/gossip.go: publishes a message every interval while its
    machine is in a state.  Every start is a goroutine; they and the watcher's own loop are
    the steps of a relation, one per locked section or blocking operation, a publication
    being one. *)
From S2P Require Import Prelude Records GoLib Files Util GoNum DemoLibs Machine Watchers.

Inductive State := Stopped | Running.

Record Registration := {
  rg_Cluster : string;
  rg_Service : string;
  rg_Protocol : string;
  rg_IP : string;
  rg_Port : Z;
  rg_Priority : Z;
  rg_Annotations : gmap string string;
  rg_Prefix : string;
}.

Record properties := {
  gp_Subject : string;
  gp_Payload : string;
  gp_TTLSeconds : Z;
  gp_Registration : option Registration;
}.

(** ** Properties *)

Definition is_letter (c : ascii) : bool :=
  let n := nat_of_ascii c in Nat.leb 97 n && Nat.leb n 122 || Nat.leb 65 n && Nat.leb n 90.

(** The expression of [validServiceRegex]. *)
Definition validService (s : string) : bool :=
  match String.list_ascii_of_string s with
  | c :: rest =>
      is_letter c &&
      forallb (λ c, is_letter c || is_digit c || Ascii.eqb c "_" || Ascii.eqb c "-") rest
  | [] => false
  end.

Section Validate.
(** The machine's [InstanceID] and [json.Marshal]. *)
Variable InstanceID : string.
Variable json_Marshal : Registration → res string.

Definition required (what v : string) : res () := if String.eqb v "" then Err (what +:+ " is required") else Ok tt.
Definition named (what v : string) : res () :=
  required what v;; if negb (validService v) then Err ("invalid " +:+ what) else Ok tt.

Definition validate_registration (reg : Registration) : res () :=
  named "cluster" (rg_Cluster reg);;
  named "service" (rg_Service reg);;
  named "protocol" (rg_Protocol reg);;
  required "ip" (rg_IP reg);;
  match ParseIP (rg_IP reg) with
  | None => Err "invalid ip"
  | Some _ => if (rg_Port reg =? 0)%Z then Err "port is required" else Ok tt
  end.

Definition registration_subject (reg : Registration) : string :=
  let subj := rg_Cluster reg +:+ "." +:+ rg_Protocol reg +:+ "." +:+ rg_Service reg +:+ "." +:+ InstanceID in
  if String.eqb (rg_Prefix reg) "" then "$KV.CHORIA_SERVICES." +:+ subj else rg_Prefix reg +:+ "." +:+ subj.

Definition valid_subject (s : string) : bool :=
  negb (str_contains s " " || str_contains s "^" || str_contains s "*" || str_contains s "..").

(** The properties and the interval. *)
Definition validate (p : properties) (interval : Z) : res (properties * Z) :=
  p ← match gp_Registration p with
      | None => required "subject" (gp_Subject p);; required "payload" (gp_Payload p);; Ok p
      | Some reg =>
          if negb (String.eqb (gp_Subject p) "") then Err "subject cannot be set with registration"
          else if negb (String.eqb (gp_Payload p) "") then Err "payload cannot be set with registration"
          else
            validate_registration reg;;
            pj ← json_Marshal reg;
            Ok {| gp_Subject := registration_subject reg; gp_Payload := pj; gp_TTLSeconds := gp_TTLSeconds p;
                  gp_Registration := gp_Registration p |}
      end;
  if negb (valid_subject (gp_Subject p)) then Err "invalid registration subject"
  else Ok (p, if (interval =? 0)%Z then (15 * Second)%Z else interval).

End Validate.

(** ** The watcher *)

(** A goroutine of [startGossip]: not registered yet, before its first publication, in its
    select, over. *)
Inductive phase := Spawned | First | Looping | Over.
#[export] Instance phase_eq_dec : EqDecision phase.
Proof. solve_decision. Defined.

Definition alive (p : phase) : bool := match p with First | Looping => true | _ => false end.

Record Gossip := {
  gw_base : Watcher;
  gw_properties : properties;
  gw_interval : Z;
  gw_state : State;
  (** the goroutine the stored cancel function belongs to *)
  gw_gossipCancel : option nat;
  gw_goroutines : list phase;
  (** those whose context is cancelled *)
  gw_cancelled : gset nat;
  (** the context [Run] was given *)
  gw_interrupted : bool;
  gw_terminate : bool;
  (** subject and payload *)
  gw_last : string * string;
  gw_panicked : bool;
}.

Definition NewGossip `{TL : TimeLib} (validate : properties → Z → res (properties * Z)) (name : string) (states : list string)
    (required : list ForeignMachineState) (failEvent successEvent interval : string) (ai : Z) (rawprop : res properties) : res Gossip :=
  interval ← ParseDuration interval;
  base ← NewWatcher name "gossip" ai states required true failEvent successEvent;
  '(props, interval) ← map_err (λ e, "could not set properties: " +:+ e) (p ← rawprop; validate p interval);
  Ok {| gw_base := base; gw_properties := props; gw_interval := interval; gw_state := Stopped; gw_gossipCancel := None;
        gw_goroutines := []; gw_cancelled := ∅; gw_interrupted := false; gw_terminate := false; gw_last := ("", "");
        gw_panicked := false |}.

Definition stopGossip (w : Gossip) : Gossip :=
  w <| gw_state := Stopped |>
    <| gw_cancelled ::= λ c, match gw_gossipCancel w with Some g => {[g]} ∪ c | None => c end |>.

Definition startGossip (w : Gossip) : Gossip :=
  match gw_gossipCancel w with Some _ => w | None => w <| gw_goroutines ::= λ l, l ++ [Spawned] |> end.

Definition watch (v : machine_view) (w : Gossip) : Gossip :=
  if negb (ShouldWatch (Some v) (gw_base w)) then stopGossip w else startGossip w.

(** The ticker, and the locked section that stores the cancel function. *)
Definition registered (g : nat) (w : Gossip) : Gossip :=
  if (gw_interval w <=? 0)%Z then w <| gw_panicked := true |>
  else w <| gw_state := Running |> <| gw_gossipCancel := Some g |> <| gw_goroutines ::= <[g := First]> |>.

(** [stop] *)
Definition stopped (g : nat) (w : Gossip) : Gossip :=
  w <| gw_gossipCancel := None |> <| gw_state := Stopped |> <| gw_goroutines ::= <[g := Over]> |>.

(** A channel is closed once. *)
Definition Delete (w : Gossip) : Gossip := if gw_terminate w then w <| gw_panicked := true |> else w <| gw_terminate := true |>.

(** What a step is seen to do: the watcher looks at its machine, a message with its
    time to live is published, nothing. *)
Inductive label := Watched | Gossiped (subject payload : string) (ttl : option Z) | Silent.

Section Steps.
Context {M V : Type} `{WH : WatcherHost M V}.
(** Templates, of the machine's facts and data, and whether there is a connection. *)
Variable ProcessTemplate : M → string → res string.
Variable getConn : M → bool.

(** The message of a publication. *)
Definition gossip (w : Gossip) (m : M) : option (string * string * option Z) :=
  if negb (ShouldWatch (Some (host_view m)) (gw_base w)) then None
  else if negb (getConn m) then None
  else
    match ProcessTemplate m (gp_Subject (gw_properties w)), ProcessTemplate m (gp_Payload (gw_properties w)) with
    | Ok subject, Ok payload =>
        Some (subject, payload,
              if (0 <? gp_TTLSeconds (gw_properties w))%Z then Some (gp_TTLSeconds (gw_properties w)) else None)
    | _, _ => None
    end.

Definition gossip_label (w : Gossip) (m : M) : label :=
  match gossip w m with Some (s, p, t) => Gossiped s p t | None => Silent end.

Definition published (w : Gossip) (m : M) : Gossip :=
  match gossip w m with Some (s, p, _) => w <| gw_last := (s, p) |> | None => w end.

(** Why a goroutine leaves its select. *)
Definition leaves (g : nat) (w : Gossip) : bool := bool_decide (g ∈ gw_cancelled w) || gw_interrupted w || gw_terminate w.

Inductive step : Gossip * M → label → Gossip * M → Prop :=
| step_watch w m : gw_panicked w = false → gw_interrupted w = false → gw_terminate w = false → step (w, m) Watched (watch (host_view m) w, m)
| step_register w m g : gw_panicked w = false → gw_goroutines w !! g = Some Spawned → step (w, m) Silent (registered g w, m)
| step_first w m g : gw_panicked w = false → gw_goroutines w !! g = Some First →
    step (w, m) (gossip_label w m) ((published w m) <| gw_goroutines ::= <[g := Looping]> |>, m)
| step_tick w m g : gw_panicked w = false → gw_goroutines w !! g = Some Looping → step (w, m) (gossip_label w m) (published w m, m)
| step_stop w m g : gw_panicked w = false → gw_goroutines w !! g = Some Looping → leaves g w = true → step (w, m) Silent (stopped g w, m)
| step_delete w m : gw_panicked w = false → step (w, m) Silent (Delete w, m)
| step_interrupt w m : step (w, m) Silent (w <| gw_interrupted := true |>, m)
| step_machine w m m' : step (w, m) Silent (w, m').

Inductive steps : Gossip * M → list label → Gossip * M → Prop :=
| steps_nil s : steps s [] s
| steps_snoc s l s' a s'' : steps s l s' → step s' a s'' → steps s (l ++ [a]) s''.

(** The goroutine whose cancel function is stored is alive, one is while the watcher says
    it runs, and the last message is the one it shows. *)
Definition last_gossip (l : list label) : string * string :=
  match last (omap (λ a, match a with Gossiped s p _ => Some (s, p) | _ => None end) l) with Some x => x | None => ("", "") end.

Record sound (l : list label) (w : Gossip) : Prop := {
  sd_cancel g : gw_gossipCancel w = Some g → ∃ p, gw_goroutines w !! g = Some p ∧ alive p = true;
  sd_running : gw_state w = Running → is_Some (gw_gossipCancel w);
  sd_last : gw_last w = last_gossip l;
}.

Lemma last_gossip_snoc l a : last_gossip (l ++ [a]) = match a with Gossiped s p _ => (s, p) | _ => last_gossip l end.
Proof. unfold last_gossip. rewrite omap_app. destruct a; cbn; rewrite ?app_nil_r, ?last_snoc; done. Qed.

Lemma published_last w m l : gw_last w = last_gossip l → gw_last (published w m) = last_gossip (l ++ [gossip_label w m]).
Proof.
  rewrite last_gossip_snoc. unfold published, gossip_label. destruct (gossip w m) as [[[s p] t]|]; [|done]. by destruct w.
Qed.

Lemma published_keeps w m : gw_goroutines (published w m) = gw_goroutines w ∧ gw_gossipCancel (published w m) = gw_gossipCancel w ∧
  gw_state (published w m) = gw_state w.
Proof. unfold published. destruct (gossip w m) as [[[s p] t]|]; [|done]. by destruct w. Qed.

(** Another phase that is alive, for a goroutine that is not the stored one or is alive
    still. *)
Lemma alive_insert (gs : list phase) g p0 q g' p : gs !! g = Some p0 → (g = g' → alive q = true) →
  gs !! g' = Some p → alive p = true → ∃ p', <[g := q]> gs !! g' = Some p' ∧ alive p' = true.
Proof.
  intros Hg Hq Hg' Hp. destruct (decide (g = g')) as [->|Hne].
  - exists q. split; [|by apply Hq]. apply list_lookup_insert_eq. by eapply lookup_lt_Some.
  - exists p. by rewrite list_lookup_insert_ne.
Qed.

Lemma sound_step s a s' l : step s a s' → sound l s.1 → sound (l ++ [a]) s'.1.
Proof.
  intros Hstep [Hc Hr Hl].
  destruct Hstep as [w m Hp Hi Ht|w m g Hp Hg|w m g Hp Hg|w m g Hp Hg|w m g Hp Hg Hlv|w m Hp|w m|w m m']; cbn [fst] in *.
  3-4: destruct (published_keeps w m) as (H1 & H2 & H3); pose proof (published_last w m l Hl) as Hl';
    destruct (published w m) as [? ? ? ? ? ? ? ? ? ? ?]; cbn in *; subst; split; cbn; [|done|done].
  - unfold watch, stopGossip, startGossip. destruct (negb _); [|destruct (gw_gossipCancel w) as [g0|] eqn:Hgc];
      destruct w as [? ? ? ? ? ? ? ? ? ? ?]; cbn in *; subst; split; cbn; rewrite ?last_gossip_snoc; try done.
  - unfold registered. destruct (Z.leb_spec (gw_interval w) 0); destruct w as [? ? ? ? ? ? ? ? ? ? ?]; cbn in *; subst;
      split; cbn; rewrite ?last_gossip_snoc; try done.
    intros g' [= <-]. exists First. split; [|done]. apply list_lookup_insert_eq. by eapply lookup_lt_Some.
  - intros g' Hg'. destruct (Hc g' Hg') as (p & Hp' & Ha). by eapply alive_insert.
  - exact Hc.
  - destruct w as [? ? ? ? ? ? ? ? ? ? ?]; cbn in *; subst; split; cbn; rewrite ?last_gossip_snoc; done.
  - unfold Delete. destruct (gw_terminate w); destruct w as [? ? ? ? ? ? ? ? ? ? ?]; cbn in *; subst; split; cbn; rewrite ?last_gossip_snoc; done.
  - destruct w as [? ? ? ? ? ? ? ? ? ? ?]; cbn in *; subst; split; cbn; rewrite ?last_gossip_snoc; done.
  - split; rewrite ?last_gossip_snoc; done.
Qed.

(** What is published is the message of the properties, for a machine in a state the watcher
    is active in. *)
Definition due (w : Gossip) (a : label) : Prop :=
  match a with
  | Gossiped s p t => ∃ m, ShouldWatch (Some (host_view m)) (gw_base w) = true ∧
      ProcessTemplate m (gp_Subject (gw_properties w)) = Ok s ∧ ProcessTemplate m (gp_Payload (gw_properties w)) = Ok p
  | _ => True
  end.

Lemma gossip_label_due w m : due w (gossip_label w m).
Proof.
  unfold gossip_label, gossip. destruct (ShouldWatch _ _) eqn:Hw; [|done]. destruct (getConn m); [|done]. cbn [negb].
  destruct (ProcessTemplate m (gp_Subject _)) eqn:Hs; [|done..]. destruct (ProcessTemplate m (gp_Payload _)) eqn:Hp; [|done..].
  by exists m.
Qed.

Lemma step_fixed s a s' : step s a s' → gw_base s'.1 = gw_base s.1 ∧ gw_properties s'.1 = gw_properties s.1.
Proof.
  assert (∀ w m, gw_base (published w m) = gw_base w ∧ gw_properties (published w m) = gw_properties w) as Hpub.
  { intros w m. unfold published. destruct (gossip w m) as [[[? ?] ?]|]; [|done]. by destruct w. }
  destruct 1; cbn [fst].
  3-4: specialize (Hpub w m); by destruct (published w m).
  all: unfold watch, stopGossip, startGossip, registered, stopped, Delete; repeat case_match; by destruct w.
Qed.

(** However the goroutines of a gossip watcher interleave, it publishes only its own
    message, and that only while its machine is in a state it is active in; it says that it
    runs only while one of its goroutines does; and what it says it published last is what
    it did. *)
Theorem gossip_is_due (w w' : Gossip) (m m' : M) (l : list label) : sound [] w → steps (w, m) l (w', m') →
  Forall (due w) l ∧ (gw_state w' = Running → ∃ g p, gw_goroutines w' !! g = Some p ∧ alive p = true) ∧ gw_last w' = last_gossip l.
Proof.
  intros H0 Hs.
  assert (∀ s l s', steps s l s' → sound [] s.1 → sound l s'.1 ∧ Forall (due s.1) l ∧ gw_base s'.1 = gw_base s.1 ∧
    gw_properties s'.1 = gw_properties s.1) as Hgen.
  { induction 1 as [|s0 l0 s1 a s2 Hs0 IH Hstep]; intros Hsd; [by split_and!; [|constructor|..]|]. destruct (IH Hsd) as (H1 & H2 & H3 & H4).
    destruct (step_fixed _ _ _ Hstep) as [H5 H6]. split; [by eapply sound_step|]. split; [|by rewrite H5, H6; split].
    apply Forall_app. split; [exact H2|]. constructor; [|constructor].
    assert (due s1.1 a) as Ha by (destruct Hstep; try exact I; apply gossip_label_due). unfold due in *. by rewrite H3, H4 in Ha. }
  destruct (Hgen _ _ _ Hs H0) as ([Hc Hr Hl] & Hd & _). cbn in *. split; [exact Hd|]. split; [|exact Hl].
  intros [g Hg]%Hr. destruct (Hc g Hg) as (p & Hp). by exists g, p.
Qed.

(** ** The machine that comes back too soon *)

Definition silent (w : Gossip) : Prop := Forall (λ p, p = Over) (gw_goroutines w).

Lemma silent_step s a s' : step s a s' → silent s.1 → a ≠ Watched → silent s'.1 ∧ (∀ x y t, a ≠ Gossiped x y t).
Proof.
  intros Hstep Hs Ha.
  assert (∀ w g p, silent w → gw_goroutines w !! g = Some p → p ≠ Over → False) as Hno.
  { intros w g p Hw Hg Hp. unfold silent in Hw. rewrite Forall_lookup in Hw. apply Hw in Hg. done. }
  destruct Hstep; cbn [fst] in *; try done; try (exfalso; by eapply Hno).
  split; [|done]. unfold Delete. by destruct (gw_terminate w).
Qed.

(** A machine that leaves a state and comes back before the goroutine of its watcher
    noticed is not gossiped for any more: the start finds the cancel function of the
    goroutine that is about to end and does nothing, and once that has ended no message is
    published, in a state the watcher is active in, until the machine changes its state
    again. *)
Theorem returning_machine_falls_silent (w : Gossip) (here away : M) (g : nat) :
  gw_panicked w = false → gw_interrupted w = false → gw_terminate w = false →
  gw_gossipCancel w = Some g → gw_goroutines w !! g = Some Looping →
  (∀ g' p, gw_goroutines w !! g' = Some p → g' ≠ g → p = Over) →
  ShouldWatch (Some (host_view here)) (gw_base w) = true → ShouldWatch (Some (host_view away)) (gw_base w) = false →
  ∃ w', steps (w, here) [Silent; Watched; Silent; Watched; Silent] (w', here) ∧
    ∀ l w2 m2, steps (w', here) l (w2, m2) → Watched ∉ l → ∀ x y t, Gossiped x y t ∉ l.
Proof.
  intros Hp Hi Ht Hc Hg Hothers Hin Hout. exists (stopped g (stopGossip w)). split.
  - change [Silent; Watched; Silent; Watched; Silent] with ((((([] ++ [Silent]) ++ [Watched]) ++ [Silent]) ++ [Watched]) ++ [Silent]).
    eapply steps_snoc; [eapply steps_snoc; [eapply steps_snoc; [eapply steps_snoc; [eapply steps_snoc; [apply steps_nil|]|]|]|]|].
    + apply (step_machine w here away).
    + pose proof (step_watch w away Hp Hi Ht) as Hw. unfold watch in Hw. rewrite Hout in Hw. exact Hw.
    + apply (step_machine _ away here).
    + assert (watch (host_view here) (stopGossip w) = stopGossip w) as Heq.
      { unfold watch. assert (gw_base (stopGossip w) = gw_base w) as -> by by destruct w. rewrite Hin. cbn [negb]. unfold startGossip.
        assert (gw_gossipCancel (stopGossip w) = Some g) as -> by by destruct w. done. }
      pose proof (step_watch (stopGossip w) here) as Hw. rewrite Heq in Hw. apply Hw; by destruct w.
    + apply step_stop; [by destruct w..|]. unfold leaves, stopGossip. destruct w. cbn in *. subst. rewrite bool_decide_true; [done|set_solver].
  - assert (silent (stopped g (stopGossip w))) as Hsil.
    { unfold silent, stopped, stopGossip. destruct w. cbn in *. apply Forall_lookup. intros g' p Hg'.
      apply list_lookup_insert_Some in Hg' as [(<- & <- & _)|[Hne Hg']]; [done|]. by eapply Hothers. }
    assert (∀ s l s', steps s l s' → silent s.1 → Watched ∉ l → silent s'.1 ∧ ∀ x y t, Gossiped x y t ∉ l) as Hgen.
    { induction 1 as [|s0 l0 s1 a s2 Hs0 IH Hstep]; intros H0 Hnw; [by split; [|intros ? ? ? ?%elem_of_nil]|].
      rewrite not_elem_of_app in Hnw. destruct Hnw as [Hnw Hna]. destruct (IH H0 Hnw) as [H1 Hno].
      destruct (silent_step _ _ _ Hstep H1) as [H2 Hx]; [intros ->; by apply Hna, list_elem_of_singleton|]. split; [done|].
      intros x y t [?|Hin'%list_elem_of_singleton]%elem_of_app; [by eapply Hno|by eapply Hx]. }
    intros l w2 m2 Hl Hnw. exact (proj2 (Hgen _ _ _ Hl Hsil Hnw)).
Qed.
End Steps.

(** ** Gossip for the witnesses *)

Definition demo_gossip_properties : properties :=
  {| gp_Subject := "gossip.demo"; gp_Payload := "up"; gp_TTLSeconds := 60; gp_Registration := None |}.
Definition demo_gossip_base : Watcher :=
  {| wt_name := "gossip"; wt_wtype := "gossip"; wt_announceInterval := 0; wt_statechg := false; wt_activeStates := ["on"];
     wt_requiredStates := []; wt_succEvent := ""; wt_failEvent := "" |}.
Definition demo_gossip : Gossip :=
  {| gw_base := demo_gossip_base; gw_properties := demo_gossip_properties; gw_interval := 15 * Second; gw_state := Stopped;
     gw_gossipCancel := None; gw_goroutines := []; gw_cancelled := ∅; gw_interrupted := false; gw_terminate := false;
     gw_last := ("", ""); gw_panicked := false |}.
Definition demo_template (m : demo_machine) (s : string) : res string := Ok s.

Lemma gossip_is_due_witness : ∃ w l, steps demo_template (λ _, true) (demo_gossip, demo_watched "on") l (w, demo_watched "on") ∧
  Gossiped "gossip.demo" "up" (Some 60%Z) ∈ l ∧ gw_state w = Running ∧ gw_last w = ("gossip.demo", "up") ∧ gw_last w = last_gossip l.
Proof.
  assert (∃ s l, steps demo_template (λ _, true) (demo_gossip, demo_watched "on") l s ∧ s.2 = demo_watched "on" ∧
    l = [Watched; Silent; Gossiped "gossip.demo" "up" (Some 60%Z)] ∧ gw_state s.1 = Running ∧ gw_last s.1 = ("gossip.demo", "up"))
    as ([w m] & l & Hs & Hm & Hl & Hst & Hla).
  { eexists _, _. split; [|split_and!].
    - eapply steps_snoc; [eapply steps_snoc; [eapply steps_snoc; [apply steps_nil|]|]|].
      + by apply step_watch.
      + by apply (step_register _ _ _ _ 0).
      + by apply (step_first _ _ _ _ 0).
    - reflexivity.
    - reflexivity.
    - reflexivity.
    - reflexivity. }
  cbn in Hm, Hst, Hla. subst m. exists w, l. split; [exact Hs|]. split; [rewrite Hl; by repeat constructor|]. split_and!; [done..|].
  refine (proj2 (proj2 (gossip_is_due demo_template (λ _, true) demo_gossip w _ _ l _ Hs))). by split.
Defined.

Definition demo_gossiping : Gossip :=
  demo_gossip <| gw_state := Running |> <| gw_gossipCancel := Some 0 |> <| gw_goroutines := [Looping] |>.

Lemma returning_machine_falls_silent_witness : ∃ w l,
  steps demo_template (λ _, true) (demo_gossip, demo_watched "on") l (demo_gossiping <| gw_last := ("gossip.demo", "up") |>, demo_watched "on") ∧
  steps demo_template (λ _, true) (demo_gossiping <| gw_last := ("gossip.demo", "up") |>, demo_watched "on")
    [Silent; Watched; Silent; Watched; Silent] (w, demo_watched "on") ∧
  ∀ l w2 m2, steps demo_template (λ _, true) (w, demo_watched "on") l (w2, m2) → Watched ∉ l → ∀ x y t, Gossiped x y t ∉ l.
Proof.
  destruct (returning_machine_falls_silent demo_template (λ _, true) (demo_gossiping <| gw_last := ("gossip.demo", "up") |>)
    (demo_watched "on") (demo_watched "off") 0) as (w & Hs & H); try reflexivity.
  { by intros [|[|g]] p [=]. }
  exists w. eexists. split_and!; [|exact Hs|exact H].
  eapply steps_snoc; [eapply steps_snoc; [eapply steps_snoc; [apply steps_nil|]|]|].
  - by apply step_watch.
  - by apply (step_register _ _ _ _ 0).
  - refine (step_first _ _ _ _ 0 _ _); reflexivity.
Defined.

(** Wildcards pass the check of subjects. *)
Example wildcards_pass : valid_subject "gossip.>" = true.
Proof. reflexivity. Qed.

(** Two starts before the first registers are two goroutines, of which one cannot be
    cancelled any more. *)
Example gossips_twice : ∃ s l, steps demo_template (λ _, true) (demo_gossip, demo_watched "on") l s ∧
  gw_goroutines s.1 = [First; First] ∧ gw_gossipCancel s.1 = Some 1.
Proof.
  eexists _, _. split; [|split].
  - eapply steps_snoc; [eapply steps_snoc; [eapply steps_snoc; [eapply steps_snoc; [apply steps_nil|]|]|]|].
    + by apply step_watch.
    + by apply step_watch.
    + by apply (step_register _ _ _ _ 0).
    + by apply (step_register _ _ _ _ 1).
  - reflexivity.
  - reflexivity.
Qed.

(** A negative interval ends the program. *)
Example negative_interval_panics : gw_panicked (registered 0 (demo_gossip <| gw_interval := (-1)%Z |>)) = true.
Proof. reflexivity. Qed.
