(* ===== verification/MetricWatcher.v ===== *)
(** * The metric watcher

    aagent/watchers/metricwatcher: runs a command that prints metrics, as JSON or as
    performance data, keeps the last ones and sends them to Prometheus' text file
    directory, to Graphite and to the data of the machine.  The metrics all watchers of the
    process share are pointers to those the watchers keep: both live in one heap.  Templates,
    commands, JSON and the network are arguments. *)
From S2P Require Import Prelude Records GoLib Util GoNum Machine NagiosWatcher Watchers.

(** ** Metrics *)

(** Decoding JSON may leave the maps nil. *)
Record Metric := {
  mt_Labels : option (gmap string string);
  mt_Metrics : option (gmap string float64);
  mt_Time : Z;
  mt_name : string;
  mt_machine : string;
  mt_seen : Z;
}.

Definition new_metric (format : string) : Metric :=
  {| mt_Labels := Some {["format" := format]}; mt_Metrics := Some ∅; mt_Time := 0; mt_name := ""; mt_machine := ""; mt_seen := 0 |}.

Record properties := {
  mp_Command : string;
  mp_Interval : Z;
  mp_Labels : gmap string string;
  mp_SkipPrometheus : bool;
  mp_StoreAsData : bool;
  mp_HTTP : bool;
  mp_GraphiteHost : string;
  mp_GraphitePort : string;
  mp_GraphitePrefix : string;
}.

Definition validate (p : properties) : res properties :=
  if String.eqb (mp_Command p) "" then Err "command is required"
  else Ok (p <| mp_Interval := Z.max (mp_Interval p) Second |>).

(** ** The text file *)

(** The heap, the metrics by machine and watcher, and the families of the last text file:
    the labels and values of every name. *)
Record shared := {
  sh_heap : gmap nat Metric;
  sh_metrics : gmap string nat;
  sh_file : option (gmap string (list (string * float64)));
}.

Definition replace_bytes (old : ascii) : string → string := str_map (λ c, if Ascii.eqb c old then "_"%char else c).
Definition promName (name : string) : string :=
  replace_bytes (Ascii.ascii_of_nat 34) (replace_bytes "," (replace_bytes " " (to_lower name))).

Definition family (ms : Metric) (n : string) : string := "choria_machine_metric_watcher_" +:+ promName (mt_name ms) +:+ "_" +:+ n.

Definition quote (s : string) : string := String (Ascii.ascii_of_nat 34) s +:+ String (Ascii.ascii_of_nat 34) "".

(** Ranging over a Go map visits it in any order; this is one of them. *)
Definition labels_of (ms : Metric) : string :=
  join (map (λ kv, promName kv.1 +:+ "=" +:+ quote (promName kv.2)) (map_to_list (default ∅ (mt_Labels ms)))) ",".

Definition add_value (f : string) (v : string * float64) (fams : gmap string (list (string * float64))) : gmap string (list (string * float64)) :=
  <[f := default [] (fams !! f) ++ [v]]> fams.

Definition add_metric (ms : Metric) (fams : gmap string (list (string * float64))) : gmap string (list (string * float64)) :=
  foldl (λ fams nv, add_value (family ms nv.1) (labels_of ms, nv.2) fams) fams (map_to_list (default ∅ (mt_Metrics ms))).

Definition saw (ms : Metric) : Metric := ms <| mt_seen ::= Z.add 1 |>.

(** One of the shared metrics: it is seen once more, and left out after five times. *)
Definition collect (acc : gmap nat Metric * gmap string (list (string * float64))) (id : nat) :
    gmap nat Metric * gmap string (list (string * float64)) :=
  let '(heap, fams) := acc in
  match heap !! id with
  | None => acc
  | Some ms =>
      let ms := saw ms in
      (<[id := ms]> heap, if (5 <? mt_seen ms)%Z then fams else add_metric ms fams)
  end.

Record prom_dir := {
  pd_FileIsDir : bool;
  pd_CreateTemp : res ();
  pd_Rename : res ();
}.

Definition savePromState (td : string) (d : prom_dir) : ST shared string () := λ s,
  if String.eqb td "" then (s, Ok tt)
  else if negb (pd_FileIsDir d) then (s, Ok tt)
  else
    let '(heap, fams) := foldl collect (sh_heap s, ∅) (map snd (map_to_list (sh_metrics s))) in
    let s := s <| sh_heap := heap |> in
    match pd_CreateTemp d with
    | Err e => (s, Err ("failed to create prometheus metric in " +:+ td +:+ ": " +:+ e))
    | Panic p => (s, Panic p)
    | Ok _ =>
        match pd_Rename d with
        | Ok _ => (s <| sh_file := Some fams |>, Ok tt)
        | r => (s, r)
        end
    end.

(** The text of the file; [Sprintf_f] is the verb [%f]. *)
Definition render (Sprintf_f : float64 → string) (fams : gmap string (list (string * float64))) : list string :=
  concat (map (λ kv,
    if Nat.eqb (length kv.2) 0 then []
    else ["# HELP " +:+ kv.1 +:+ " Choria Metric"; "# TYPE " +:+ kv.1 +:+ " gauge"] ++
         map (λ v, kv.1 +:+ "{" +:+ v.1 +:+ "} " +:+ Sprintf_f v.2) kv.2) (map_to_list fams)).

Definition metric_key (machine name : string) : string := machine +:+ "_" +:+ name.

Definition updatePromState (td : string) (d : prom_dir) (machine name : string) (id : nat) : ST shared string () :=
  modify (λ s, s <| sh_heap ::= alter (λ ms, ms <| mt_name := name |> <| mt_machine := machine |>) id |>
                 <| sh_metrics ::= <[metric_key machine name := id]> |>);;
  savePromState td d.

Definition deletePromState (td : string) (d : prom_dir) (machine name : string) : ST shared string () :=
  modify (λ s, s <| sh_metrics ::= delete (metric_key machine name) |>);;
  savePromState td d.

(** ** The watcher *)

Record MetricWatcher := {
  mw_base : Watcher;
  mw_properties : properties;
  mw_previousRunTime : Z;
  mw_previousResult : option nat;
  mw_watching : bool;
  mw_httpStarted : bool;
}.

Section Watch.
Context {M V : Type} `{WH : WatcherHost M V}.

(** The machine, what all watchers share, the lines sent to Graphite, and the watcher. *)
Record World := {
  wo_machine : M;
  wo_shared : shared;
  wo_graphite : list string;
  wo_watcher : MetricWatcher;
}.

Abbreviation WatchM := (ST World string).

Record metric_env := {
  me_now : Z;
  me_TextFileDirectory : string;
  me_dir : prom_dir;
  me_http : bool;
  me_PATH : string;
  me_ProcessTemplate : string → res string;
  me_shlex_Split : string → res (list string);
  (** the output of a command with its environment, which has a second *)
  me_CombinedOutput : list string → list string → res string;
  (** how long it took *)
  me_elapsed : Z;
  (** [json.Unmarshal] over a metric, and the metric as data of the machine *)
  me_Unmarshal : string → Metric → res Metric;
  me_as_data : string → Metric → V;
  me_Dial : string → res ();
  me_Write : string → res ();
  me_Sprintf_f : float64 → string;
}.

Variable e : metric_env.

Definition on_shared {A} (f : ST shared string A) : WatchM A := λ w,
  let '(s, r) := f (wo_shared w) in (w <| wo_shared := s |>, r).
Definition on_machine {A} (f : ST M string A) : WatchM A := λ w,
  let '(m, r) := f (wo_machine w) in (w <| wo_machine := m |>, r).
Definition set_watcher (f : MetricWatcher → MetricWatcher) : WatchM () := modify (λ w, w <| wo_watcher ::= f |>).

Definition New (name : string) (states : list string) (required : list ForeignMachineState) (failEvent successEvent : string)
    (ai : Z) (rawprops : res properties) : ST shared string MetricWatcher :=
  base ← lift (NewWatcher name "metric" ai states required true failEvent successEvent);
  props ← lift (map_err (λ e, "could not set properties: " +:+ e) (p ← rawprops; validate p));
  let props := if String.eqb (mp_GraphitePrefix props) ""
               then props <| mp_GraphitePrefix := "choria." +:+ str_map (λ c, if Ascii.eqb c " " then "-"%char else c) name |>
               else props in
  _ ← (if mp_SkipPrometheus props then mret (inl ()) else attempt (F:=string) (savePromState (me_TextFileDirectory e) (me_dir e)));
  mret {| mw_base := base; mw_properties := props; mw_previousRunTime := 0; mw_previousResult := None; mw_watching := false;
          mw_httpStarted := false |}.

Definition registerWithHTTP : WatchM () := set_watcher (λ w, if me_http e then w <| mw_httpStarted := true |> else w).

Definition Delete : WatchM () := λ w,
  let mw := wo_watcher w in
  if mp_SkipPrometheus (mw_properties mw) then (w, Ok tt)
  else (attempt (F:=string) (on_shared (deletePromState (me_TextFileDirectory e) (me_dir e) (host_Name (wo_machine w)) (wt_name (mw_base mw))));; mret tt) w.

(** [None] when the watcher is not active; how long the command took is kept however
    the watch ends. *)
Definition watch : WatchM (option string) := λ w,
  let mw := wo_watcher w in
  if negb (ShouldWatch (Some (host_view (wo_machine w))) (mw_base mw)) then (w, Ok None)
  else
    let w := w <| wo_watcher ::= λ mw, mw <| mw_previousRunTime := me_elapsed e |> |> in
    (w, command ← me_ProcessTemplate e (mp_Command (mw_properties mw));
        splitcmd ← me_shlex_Split e command;
        match splitcmd with
        | [] => Panic "index out of range [0] with length 0"
        | _ =>
            output ← me_CombinedOutput e splitcmd
              ["MACHINE_WATCHER_NAME=" +:+ wt_name (mw_base mw); "MACHINE_NAME=" +:+ host_Name (wo_machine w);
               "PATH=" +:+ me_PATH e +:+ ":" +:+ host_Directory (wo_machine w)];
            Ok (Some output)
        end).

(** Writing the configured labels: a nil map cannot be written to. *)
Definition set_labels (labels : gmap string string) (m : Metric) : res Metric :=
  match mt_Labels m with
  | None => if bool_decide (labels = ∅) then Ok m else Panic "assignment to entry in nil map"
  | Some l => Ok (m <| mt_Labels := Some (labels ∪ l) |>)
  end.

Definition parseJSONCheck (labels : gmap string string) (output : string) : res Metric :=
  m ← me_Unmarshal e output (new_metric "choria"); set_labels labels m.

Definition parseNagiosCheck (output : string) : res Metric :=
  perf ← ParsePerfData output;
  Ok ((new_metric "nagios") <| mt_Metrics := Some (foldl (λ m p, <[pd_Label p := pd_Value p]> m) ∅ perf) |>).

(** The runtime is added to the metrics themselves, which the copy shares. *)
Definition CurrentState : WatchM () := λ w,
  match mw_previousResult (wo_watcher w) with
  | None => (w, Ok tt)
  | Some id =>
      match sh_heap (wo_shared w) !! id ≫= mt_Metrics with
      | None => (w, Panic "assignment to entry in nil map")
      | Some ms =>
          let ms := <["choria_runtime_seconds" := Seconds (mw_previousRunTime (wo_watcher w))]> ms in
          (w <| wo_shared ::= λ s, s <| sh_heap ::= alter (λ m, m <| mt_Metrics := Some ms |>) id |> |>, Ok tt)
      end
  end.

Definition NotifyWatcherState : WatchM () :=
  CurrentState;; modify (λ w, w <| wo_machine ::= host_NotifyWatcherState (wt_name (mw_base (wo_watcher w))) "" |>).

Fixpoint write_graphite (prefix : string) (time : Z) (l : list (string * float64)) : WatchM () :=
  match l with
  | [] => mret tt
  | (k, v) :: rest =>
      let line := prefix +:+ "." +:+ k +:+ " " +:+ me_Sprintf_f e v +:+ " " +:+ itoa time in
      lift (me_Write e line);;
      modify (λ w, w <| wo_graphite ::= (λ l, l ++ [line]) |>);;
      write_graphite prefix time rest
  end.

(** The prefix is expanded for every line, to the same text. *)
Definition publishToGraphite (metric : Metric) : WatchM () := λ w,
  let p := mw_properties (wo_watcher w) in
  let ms := default ∅ (mt_Metrics metric) in
  if String.eqb (mp_GraphiteHost p) "" || String.eqb (mp_GraphitePort p) "" || bool_decide (ms = ∅) then (w, Ok tt)
  else
    (host ← lift (me_ProcessTemplate e (mp_GraphiteHost p));
     portString ← lift (me_ProcessTemplate e (mp_GraphitePort p));
     port ← lift (match atoi portString with Some n => Ok n | None => Err ("strconv.Atoi: parsing " +:+ portString) end);
     lift (me_Dial e (host +:+ ":" +:+ itoa port));;
     prefix ← lift (me_ProcessTemplate e (mp_GraphitePrefix p));
     write_graphite prefix (mt_Time metric) (map_to_list (<["runtime" := Seconds (mw_previousRunTime (wo_watcher w))]> ms))) w.

Definition storeMetricAsData (metric : Metric) : WatchM () := λ w,
  if negb (mp_StoreAsData (mw_properties (wo_watcher w))) then (w, Ok tt)
  else on_machine (host_DataPut "metric" (me_as_data e (wt_name (mw_base (wo_watcher w))) metric)) w.

(** A new metric in the heap. *)
Definition alloc (m : Metric) : WatchM nat := λ w,
  let id := fresh (dom (sh_heap (wo_shared w))) in
  (w <| wo_shared ::= λ s, s <| sh_heap ::= <[id := m]> |> |>, Ok id).

Definition parse_output (output : string) (labels : gmap string string) : res Metric :=
  if has_prefix (trim_space output) "{" then parseJSONCheck labels output else parseNagiosCheck output.

(** [handleCheck] without an error of the watch. *)
Definition handleCheck (output : string) : WatchM () := λ w,
  let mw := wo_watcher w in
  let p := mw_properties mw in
  match parse_output output (mp_Labels p) with
  | Panic why => (w, Panic why)
  | Err _ => (NotifyWatcherState;; on_machine (fire_event (FailureTransition (mw_base mw)))) w
  | Ok metric =>
      (metric ← lift (set_labels (mp_Labels p) (metric <| mt_Time := me_now e |>));
       id ← alloc metric;
       (if mp_SkipPrometheus p then mret (inl ())
        else attempt (F:=string) (on_shared (updatePromState (me_TextFileDirectory e) (me_dir e) (host_Name (wo_machine w)) (wt_name (mw_base mw)) id)));;
       publishToGraphite metric;;
       storeMetricAsData metric;;
       set_watcher (λ mw, mw <| mw_previousResult := Some id |>);;
       NotifyWatcherState) w
  end.

(** [performWatch]; errors are logged. *)
Definition performWatch : WatchM () := λ w,
  if mw_watching (wo_watcher w) then (w, Ok tt)
  else if negb (ShouldWatch (Some (host_view (wo_machine w))) (mw_base (wo_watcher w))) then (w, Ok tt)
  else
    match watch w with
    | (w, Err _) => (w, Ok tt)
    | (w, Panic p) => (w, Panic p)
    | (w, Ok output) =>
        match handleCheck (default "" output) w with
        | (w, Err _) => (w, Ok tt)
        | r => r
        end
    end.

Definition LastMetric (w : World) : Metric :=
  match mw_previousResult (wo_watcher w) ≫= λ id, sh_heap (wo_shared w) !! id with
  | Some m => m
  | None => {| mt_Labels := Some ∅; mt_Metrics := Some ∅; mt_Time := 0; mt_name := ""; mt_machine := ""; mt_seen := 0 |}
  end.
End Watch.

(** ** What the text file shows *)

Abbreviation families := (gmap string (list (string * float64))).
Definition values (fams : families) (f : string) : list (string * float64) := default [] (fams !! f).

(** The values of a metric, with the families they are in. *)
Definition offers (ms : Metric) (f : string) (x : string * float64) : Prop :=
  ∃ n v, default ∅ (mt_Metrics ms) !! n = Some v ∧ f = family ms n ∧ x = (labels_of ms, v).

Lemma add_value_spec f v fams f' x : x ∈ values (add_value f v fams) f' ↔ x ∈ values fams f' ∨ f' = f ∧ x = v.
Proof.
  unfold values, add_value. destruct (decide (f = f')) as [->|Hne].
  - rewrite lookup_insert_eq. cbn. rewrite elem_of_app, list_elem_of_singleton. naive_solver.
  - rewrite lookup_insert_ne by done. naive_solver.
Qed.

Lemma add_metric_spec ms fams f x : x ∈ values (add_metric ms fams) f ↔ x ∈ values fams f ∨ offers ms f x.
Proof.
  assert (∀ l fams, x ∈ values (foldl (λ fams nv, add_value (family ms nv.1) (labels_of ms, nv.2) fams) fams l) f ↔
    x ∈ values fams f ∨ ∃ n v, (n, v) ∈ l ∧ f = family ms n ∧ x = (labels_of ms, v)) as Hl.
  { induction l as [|[n v] l IH]; intros fs; cbn [foldl].
    - split; [by left|]. intros [?|(? & ? & []%elem_of_nil & _)]. done.
    - rewrite IH, add_value_spec. cbn [fst snd]. setoid_rewrite elem_of_cons. naive_solver. }
  unfold add_metric. rewrite Hl. unfold offers. by setoid_rewrite elem_of_map_to_list.
Qed.

Lemma offers_saw ms f x : offers (saw ms) f x ↔ offers ms f x.
Proof. by destruct ms. Qed.

(** All metrics are seen once more, and those that were not seen too often are shown. *)
Lemma collect_spec (ids : list nat) : ∀ heap fams, NoDup ids → let r := foldl collect (heap, fams) ids in
  (∀ id, r.1 !! id = if decide (id ∈ ids) then saw <$> heap !! id else heap !! id) ∧
  (∀ f x, x ∈ values r.2 f ↔ x ∈ values fams f ∨
     ∃ id ms, id ∈ ids ∧ heap !! id = Some ms ∧ (mt_seen ms < 5)%Z ∧ offers ms f x).
Proof.
  induction ids as [|id ids IH]; intros heap fams Hn; cbn [foldl].
  { split; [done|]. intros f x. split; [by left|]. intros [?|(? & ? & []%elem_of_nil & _)]. done. }
  apply NoDup_cons in Hn as [Hid Hn]. unfold collect at 2 4. destruct (heap !! id) as [ms|] eqn:Hh.
  - cbv zeta.
    match goal with |- context [foldl collect (?h, ?g) ids] => destruct (IH h g Hn) as [H1 H2] end.
    split; [intros id'; rewrite H1|intros f x; rewrite H2].
    + destruct (decide (id' ∈ ids)) as [Hin|Hin].
      * rewrite lookup_insert_ne by (by intros ->). by rewrite decide_True by (by apply elem_of_cons; right).
      * destruct (decide (id = id')) as [<-|Hne].
        { rewrite lookup_insert_eq, decide_True by (by apply elem_of_cons; left). by rewrite Hh. }
        rewrite lookup_insert_ne by done. rewrite decide_False; [done|]. rewrite elem_of_cons. naive_solver.
    + assert (∀ g : families, x ∈ values (if (5 <? mt_seen (saw ms))%Z then g else add_metric (saw ms) g) f ↔
        x ∈ values g f ∨ (mt_seen ms < 5)%Z ∧ offers ms f x) as Hone.
      { intros g. assert (mt_seen (saw ms) = 1 + mt_seen ms)%Z as -> by by destruct ms.
        destruct (Z.ltb_spec 5 (1 + mt_seen ms)); [|rewrite add_metric_spec, offers_saw]; intuition lia. }
      rewrite Hone. setoid_rewrite elem_of_cons. split.
      * intros [[?|[? ?]]|(id' & ms' & Hin & Hl & ?)]; [by left|right; exists id, ms; auto|].
        right. exists id', ms'. rewrite lookup_insert_ne in Hl by (by intros ->). auto.
      * intros [?|(id' & ms' & [->|Hin] & Hl & ? & ?)]; [by left; left|left; right; naive_solver|].
        right. exists id', ms'. rewrite lookup_insert_ne by (by intros ->). done.
  - destruct (IH heap fams Hn) as [H1 H2]. split; [intros id'; rewrite H1|intros f x; rewrite H2; setoid_rewrite elem_of_cons].
    + destruct (decide (id' ∈ ids)) as [Hin|Hin]; [by rewrite decide_True by (by apply elem_of_cons; right)|].
      destruct (decide (id = id')) as [<-|Hne]; [rewrite decide_True by (by apply elem_of_cons; left); by rewrite Hh|].
      rewrite decide_False; [done|]. rewrite elem_of_cons. naive_solver.
    + split; [|intros [?|(id' & ms' & [->|Hin] & Hl & ?)]; [by left|by rewrite Hh in Hl|]]; naive_solver.
Qed.

(** What happens to the shared metrics: a watcher gathered some or is deleted, one was made,
    and a notification added a runtime to the metrics it shares. *)
Inductive prom_op :=
| Updated (machine name : string) (m : Metric)
| Deleted (machine name : string)
| Made
| Noted (key : string) (runtime : float64).

Definition saves (o : prom_op) : bool := match o with Noted _ _ => false | _ => true end.

Definition add_runtime (x : float64) (m : Metric) : Metric := m <| mt_Metrics ::= fmap <["choria_runtime_seconds" := x]> |>.

Section Text.
Variable td : string.
Variable d : prom_dir.

Definition do_op (s : shared) (o : prom_op) : shared :=
  match o with
  | Updated machine name m =>
      let id := fresh (dom (sh_heap s)) in
      (updatePromState td d machine name id (s <| sh_heap ::= <[id := m]> |>)).1
  | Deleted machine name => (deletePromState td d machine name s).1
  | Made => (savePromState td d s).1
  | Noted key x => match sh_metrics s !! key with Some id => s <| sh_heap ::= alter (add_runtime x) id |> | None => s end
  end.

(** What should be known of one watcher: its last metrics, and how many saves there were
    with them. *)
Definition track (k : string) (a : option (nat * Metric)) (o : prom_op) : option (nat * Metric) :=
  let older := (λ cm, (S cm.1, cm.2)) <$> a in
  match o with
  | Updated machine name m =>
      if String.eqb (metric_key machine name) k then Some (1, m <| mt_name := name |> <| mt_machine := machine |>) else older
  | Deleted machine name => if String.eqb (metric_key machine name) k then None else older
  | Made => older
  | Noted key x => if String.eqb key k then (λ cm, (cm.1, add_runtime x cm.2)) <$> a else a
  end.

Definition with_seen (c : nat) (m : Metric) : Metric := m <| mt_seen := Z.of_nat c |>.

(** The shared metrics are those that are tracked, each an object of its own. *)
Record tracks (t : string → option (nat * Metric)) (s : shared) : Prop := {
  tr_entries k : match t k with
                 | None => sh_metrics s !! k = None
                 | Some (c, m) => ∃ id, sh_metrics s !! k = Some id ∧ sh_heap s !! id = Some (with_seen c m)
                 end;
  tr_own k k' id : sh_metrics s !! k = Some id → sh_metrics s !! k' = Some id → k = k';
}.

Lemma shared_ids s : (∀ k k' id, sh_metrics s !! k = Some id → sh_metrics s !! k' = Some id → k = k') →
  NoDup (map snd (map_to_list (sh_metrics s))).
Proof.
  intros H. apply NoDup_fmap_2_strong; [|apply NoDup_map_to_list].
  intros [k id] [k' id'] H1%elem_of_map_to_list H2%elem_of_map_to_list. cbn. intros ->. by rewrite (H _ _ _ H1 H2).
Qed.

Lemma shared_id s id : id ∈ map snd (map_to_list (sh_metrics s)) ↔ ∃ k, sh_metrics s !! k = Some id.
Proof.
  rewrite list_elem_of_fmap. split.
  - intros ([k id'] & -> & H%elem_of_map_to_list). by exists k.
  - intros [k H%elem_of_map_to_list]. by exists (k, id).
Qed.

(** A save counts for all, and shows those with at most five. *)
Lemma save_tracks t s : td ≠ "" → d = {| pd_FileIsDir := true; pd_CreateTemp := Ok tt; pd_Rename := Ok tt |} → tracks t s →
  let s' := (savePromState td d s).1 in
  tracks (λ k, (λ cm, (S cm.1, cm.2)) <$> t k) s' ∧
  ∃ fams, sh_file s' = Some fams ∧
    ∀ f x, x ∈ values fams f ↔ ∃ k c m, t k = Some (c, m) ∧ c < 5 ∧ offers m f x.
Proof.
  intros Htd -> [He Ho]. unfold savePromState. rewrite (proj2 (String.eqb_neq _ _) Htd). cbn [pd_FileIsDir negb pd_CreateTemp pd_Rename].
  pose proof (collect_spec (map snd (map_to_list (sh_metrics s))) (sh_heap s) ∅ (shared_ids s Ho)) as [H1 H2].
  destruct (foldl collect _ _) as [heap fams]. destruct s as [hp me fi]. cbn in *. split.
  - split; [|exact Ho]. intros k. specialize (He k). destruct (t k) as [[c m]|]; [|done]. cbn. destruct He as (id & Hk & Hid). exists id.
    split; [done|]. rewrite H1, decide_True by (apply (shared_id {| sh_heap := hp; sh_metrics := me; sh_file := fi |}); by exists k).
    rewrite Hid. cbn. unfold saw, with_seen. destruct m. cbn. do 2 f_equal. lia.
  - exists fams. split; [done|]. intros f x. rewrite H2. unfold values at 1. rewrite lookup_empty. cbn.
    setoid_rewrite (shared_id {| sh_heap := hp; sh_metrics := me; sh_file := fi |}). cbn. split.
    + intros [[]%elem_of_nil|(id & ms & [k Hk] & Hid & Hs & Hof)]. specialize (He k). destruct (t k) as [[c m]|] eqn:Ht; [|by rewrite He in Hk].
      destruct He as (id' & Hk' & Hid'). rewrite Hk in Hk'. injection Hk' as <-. rewrite Hid in Hid'. injection Hid' as ->. exists k, c, m. destruct m. cbn in Hs. split_and!; [done|lia|exact Hof].
    + intros (k & c & m & Ht & Hc & Hof). right. specialize (He k). rewrite Ht in He. destruct He as (id & Hk & Hid).
      exists id, (with_seen c m). split_and!; [by exists k|done|destruct m; cbn; lia|by destruct m].
Qed.

Lemma tracks_ext t t' s : (∀ k, t k = t' k) → tracks t s → tracks t' s.
Proof. intros H [He Ho]. split; [|exact Ho]. intros k. specialize (He k). by rewrite H in He. Qed.

(** A metric that was just made, under the key of its watcher. *)
Lemma update_tracks t s key id m0 m : tracks t s → sh_heap s !! id = None → m = with_seen 0 m →
  tracks (λ k, if String.eqb key k then Some (0, m) else t k)
    (s <| sh_heap ::= <[id := m0]> |> <| sh_heap ::= alter (λ _, m) id |> <| sh_metrics ::= <[key := id]> |>).
Proof.
  intros [He Ho] Hid Hm. destruct s as [hp me fi]. cbn in *. split; cbn.
  - intros k. destruct (String.eqb_spec key k) as [<-|Hne].
    + exists id. rewrite lookup_insert_eq, lookup_alter_eq, lookup_insert_eq. cbn. by rewrite <- Hm.
    + specialize (He k). destruct (t k) as [[c mk]|]; rewrite lookup_insert_ne by done; [|done].
      destruct He as (id' & Hk & Hid'). exists id'. split; [done|]. assert (id ≠ id') by (intros ->; congruence).
      by rewrite lookup_alter_ne, lookup_insert_ne.
  - assert (∀ k, me !! k ≠ Some id) as Hfresh.
    { intros k Hk. specialize (He k). destruct (t k) as [[c mk]|]; [|congruence]. destruct He as (id' & Hk' & Hid'). congruence. }
    intros k k' id' Hk Hk'. destruct (decide (key = k)) as [<-|Hk0], (decide (key = k')) as [<-|Hk0'];
      rewrite ?lookup_insert_eq in *; rewrite ?lookup_insert_ne in * by done; [done| | |by eapply Ho].
    + injection Hk as <-. by apply Hfresh in Hk'.
    + injection Hk' as <-. by apply Hfresh in Hk.
Qed.

Lemma alter_const {A} (f : A → A) (h : gmap nat A) id m : alter f id (<[id := m]> h) = alter (λ _, f m) id (<[id := m]> h).
Proof. apply map_eq. intros i. destruct (decide (id = i)) as [<-|]; by rewrite ?lookup_alter_eq, ?lookup_alter_ne, ?lookup_insert_eq. Qed.

Lemma do_op_tracks t s o : td ≠ "" → d = {| pd_FileIsDir := true; pd_CreateTemp := Ok tt; pd_Rename := Ok tt |} →
  (∀ a b m, o = Updated a b m → mt_seen m = 0%Z) → tracks t s →
  tracks (λ k, track k (t k) o) (do_op s o) ∧
  (saves o = true → ∃ fams, sh_file (do_op s o) = Some fams ∧
     ∀ f x, x ∈ values fams f ↔ ∃ k c m, track k (t k) o = Some (c, m) ∧ c ≤ 5 ∧ offers m f x).
Proof.
  intros Htd Hd Hseen Ht.
  assert (∀ t' s', tracks t' s' → (∀ k, (λ cm, (S cm.1, cm.2)) <$> t' k = track k (t k) o) → do_op s o = (savePromState td d s').1 →
    tracks (λ k, track k (t k) o) (do_op s o) ∧
    (saves o = true → ∃ fams, sh_file (do_op s o) = Some fams ∧
       ∀ f x, x ∈ values fams f ↔ ∃ k c m, track k (t k) o = Some (c, m) ∧ c ≤ 5 ∧ offers m f x)) as Hsave.
  { intros t' s' Ht' Heq ->. destruct (save_tracks t' s' Htd Hd Ht') as (H1 & fams & H2 & H3).
    split; [exact (tracks_ext _ _ _ Heq H1)|]. intros _. exists fams. split; [done|]. intros f x. rewrite H3. setoid_rewrite <- Heq. split.
    - intros (k & c & m & Hk & Hc & Hof). exists k, (S c), m. rewrite Hk. split_and!; [done|lia|done].
    - intros (k & c & m & Hk & Hc & Hof). destruct (t' k) as [[c' m']|] eqn:E; [|done]. injection Hk as <- <-. exists k, c', m'. split_and!; [done|lia|done]. }
  destruct o as [machine name m|machine name| |key x].
  - set (id := fresh (dom (sh_heap s))).
    assert (sh_heap s !! id = None) as Hid by (apply not_elem_of_dom, is_fresh).
    apply (Hsave _ _ (update_tracks t s (metric_key machine name) id m (m <| mt_name := name |> <| mt_machine := machine |>) Ht Hid
      ltac:(specialize (Hseen _ _ _ eq_refl); destruct m; cbn in *; by subst))).
    + intros k. unfold track. by destruct (String.eqb _ k).
    + unfold do_op, updatePromState, mbind, ST_bind, modify. fold id. destruct s. cbn. by rewrite alter_const.
  - apply (Hsave (λ k, if String.eqb (metric_key machine name) k then None else t k) (s <| sh_metrics ::= delete (metric_key machine name) |>)).
    + destruct Ht as [He Ho], s as [hp me fi]. cbn in *. split; cbn.
      * intros k. specialize (He k). destruct (String.eqb_spec (metric_key machine name) k) as [->|Hne]; [apply lookup_delete_eq|].
        by rewrite lookup_delete_ne.
      * intros k k' id [_ H1]%lookup_delete_Some [_ H2]%lookup_delete_Some. by eapply Ho.
    + intros k. unfold track. by destruct (String.eqb _ k).
    + done.
  - by apply (Hsave t s).
  - split; [|done]. unfold do_op, track. destruct Ht as [He Ho]. pose proof (He key) as Hkey. destruct (t key) as [[c m]|] eqn:Htk.
    + destruct Hkey as (id & Hk & Hid). rewrite Hk. destruct s as [hp me fi]. cbn in *. split; [|exact Ho]. cbn. intros k.
      destruct (String.eqb_spec key k) as [<-|Hne].
      * rewrite Htk. cbn. exists id. rewrite lookup_alter_eq, Hid. cbn. split; [done|]. by destruct m.
      * specialize (He k). destruct (t k) as [[c' m']|]; [|done]. destruct He as (id' & Hk' & Hid'). exists id'. split; [done|].
        rewrite lookup_alter_ne; [done|]. intros ->. apply Hne. by eapply Ho.
    + rewrite Hkey. split; [|exact Ho]. intros k. destruct (String.eqb_spec key k) as [<-|Hne]; [by rewrite Htk|]. apply He.
Qed.

(** The text file shows what is recent: whatever the watchers of the process do, after
    a save it holds exactly the values of the metrics that were gathered last by watchers
    that are still there, as long as at most five saves, those of all other watchers
    included, happened since; a watcher that is slower than that is missing from it. *)
Theorem text_file_is_recent (ops : list prom_op) (o : prom_op) : td ≠ "" →
  d = {| pd_FileIsDir := true; pd_CreateTemp := Ok tt; pd_Rename := Ok tt |} → saves o = true →
  (∀ a b m, Updated a b m ∈ ops ++ [o] → mt_seen m = 0%Z) →
  ∃ fams, sh_file (foldl do_op {| sh_heap := ∅; sh_metrics := ∅; sh_file := None |} (ops ++ [o])) = Some fams ∧
    ∀ f x, x ∈ values fams f ↔ ∃ k c m, foldl (track k) None (ops ++ [o]) = Some (c, m) ∧ c ≤ 5 ∧ offers m f x.
Proof.
  intros Htd Hd Ho Hseen.
  assert (∀ ops, (∀ a b m, Updated a b m ∈ ops → mt_seen m = 0%Z) →
    tracks (λ k, foldl (track k) None ops) (foldl do_op {| sh_heap := ∅; sh_metrics := ∅; sh_file := None |} ops)) as Hall.
  { clear ops o Ho Hseen. induction ops as [|o ops IH] using rev_ind; intros Hseen; [by split|].
    rewrite foldl_snoc. eapply tracks_ext; [|apply do_op_tracks; [done|done| |apply IH]].
    - intros k. by rewrite foldl_snoc.
    - intros a b m ->. apply (Hseen a b). set_solver.
    - intros a b m Hin. apply (Hseen a b). set_solver. }
  rewrite foldl_snoc. setoid_rewrite foldl_snoc.
  apply (do_op_tracks (λ k, foldl (track k) None ops)); [done|done| |apply Hall|done].
  - intros a b m ->. apply (Hseen a b). set_solver.
  - intros a b m Hin. apply (Hseen a b). set_solver.
Qed.

End Text.

(** ** Output that ends the program *)

Lemma collect_metrics ids : ∀ heap fams id,
  (foldl collect (heap, fams) ids).1 !! id ≫= mt_Metrics = heap !! id ≫= mt_Metrics.
Proof.
  induction ids as [|i ids IH]; intros heap fams id; [done|]. cbn [foldl]. unfold collect at 2.
  destruct (heap !! i) as [ms|] eqn:Hi; [|apply IH]. rewrite IH.
  destruct (decide (i = id)) as [<-|Hne]; [rewrite lookup_insert_eq, Hi; by destruct ms|by rewrite lookup_insert_ne].
Qed.

Lemma save_metrics td d s id : sh_heap (savePromState td d s).1 !! id ≫= mt_Metrics = sh_heap s !! id ≫= mt_Metrics.
Proof.
  unfold savePromState. destruct (String.eqb td ""); [done|]. destruct (negb _); [done|].
  pose proof (collect_metrics (map snd (map_to_list (sh_metrics s))) (sh_heap s) ∅ id) as Hc.
  destruct (foldl collect _ _) as [heap fams]. destruct s, (pd_CreateTemp d), (pd_Rename d); exact Hc.
Qed.

Lemma update_metrics td d machine name id s : sh_heap s !! id ≫= mt_Metrics = None →
  sh_heap (updatePromState td d machine name id s).1 !! id ≫= mt_Metrics = None.
Proof.
  intros H. unfold updatePromState, mbind, ST_bind, modify. rewrite save_metrics. destruct s as [hp me fi]. cbn in *.
  rewrite lookup_alter_eq. destruct (hp !! id) as [ms|]; [|done]. by destruct ms.
Qed.

Section Null.
Context {M V : Type} `{WH : WatcherHost M V}.
Variable e : metric_env (V:=V).

(** A command can end the agent: a watcher that does not store its metrics and runs a
    command that prints a JSON object whose metrics are null panics when it notifies of
    its state, since the runtime is written to the map that is not there. *)
Theorem null_metrics_panic (w : World) (command output : string) (argv : list string) (m : Metric) :
  mw_watching (wo_watcher w) = false →
  ShouldWatch (Some (host_view (wo_machine w))) (mw_base (wo_watcher w)) = true →
  mp_StoreAsData (mw_properties (wo_watcher w)) = false →
  me_ProcessTemplate e (mp_Command (mw_properties (wo_watcher w))) = Ok command →
  me_shlex_Split e command = Ok argv → argv ≠ [] →
  (∀ environment, me_CombinedOutput e argv environment = Ok output) →
  has_prefix (trim_space output) "{" = true →
  me_Unmarshal e output (new_metric "choria") = Ok m → mt_Metrics m = None → is_Some (mt_Labels m) →
  ∃ why, (performWatch e w).2 = Panic why.
Proof.
  intros Hidle Hwatch Hstore Htpl Hsplit Hargv Hout Hjson Hm Hnone [ls Hls].
  unfold performWatch. rewrite Hidle, Hwatch. cbn [negb]. unfold watch. rewrite Hwatch. cbn [negb].
  rewrite Htpl. unfold mbind, outcome_bind. rewrite Hsplit. destruct argv as [|a argv]; [done|]. rewrite Hout. cbn [default from_option id].
  destruct w as [mc [hp me fi] gr [base p rt pr wt ht]]. cbn in *.
  unfold handleCheck. cbn [wo_watcher mw_properties mw_base]. unfold parse_output, parseJSONCheck. rewrite Hjson.
  unfold mbind, outcome_bind. rewrite Hm. unfold set_labels at 1. rewrite Hls.
  unfold ST_bind, lift. unfold set_labels at 1. destruct m as [lb mt ti na ma se]. cbn in *. subst mt lb. cbn.
  set (id := fresh (dom hp)). set (m1 := {| mt_Labels := _; mt_Metrics := None |}).
  assert (<[id := m1]> hp !! id ≫= mt_Metrics = None) as H1 by by rewrite lookup_insert_eq.
  assert (∀ s r, sh_heap s !! id ≫= mt_Metrics = None →
    ∃ why, match (publishToGraphite e m1;; storeMetricAsData e m1;; set_watcher (λ mw, mw <| mw_previousResult := Some id |>);; NotifyWatcherState)
             {| wo_machine := mc; wo_shared := s; wo_graphite := gr; wo_watcher :=
                {| mw_base := base; mw_properties := p; mw_previousRunTime := me_elapsed e; mw_previousResult := pr; mw_watching := wt; mw_httpStarted := ht |} |} with
           | (w, Err _) => (w, r)
           | x => x end.2 = Panic why) as Hrest.
  { intros s r Hs. unfold mbind, ST_bind, publishToGraphite. cbn [wo_watcher mw_properties].
    rewrite (bool_decide_true (default ∅ (mt_Metrics m1) = ∅)) by done. rewrite orb_true_r. cbn [snd].
    unfold storeMetricAsData. cbn [wo_watcher mw_properties]. rewrite Hstore. cbn [negb].
    unfold set_watcher, modify, NotifyWatcherState, mbind, ST_bind, CurrentState. cbn. rewrite Hs. by eexists. }
  destruct (mp_SkipPrometheus p).
  - cbn. by apply (Hrest {| sh_heap := <[id := m1]> hp; sh_metrics := me; sh_file := fi |}).
  - cbn. unfold attempt, on_shared. cbn.
    pose proof (update_metrics (me_TextFileDirectory e) (me_dir e) (host_Name mc) (wt_name base) id
      {| sh_heap := <[id := m1]> hp; sh_metrics := me; sh_file := fi |} H1) as Hu.
    destruct (updatePromState _ _ _ _ _ _) as [s2 [[]|err|why]]; cbn in *; [by apply Hrest|by apply Hrest|by eexists].
Qed.
End Null.

(** ** Witnesses *)

Definition demo_metric (v : Z) : Metric := (new_metric "choria") <| mt_Metrics := Some {["load" := f64_of_Z v]} |>.
Definition demo_dir : prom_dir := {| pd_FileIsDir := true; pd_CreateTemp := Ok tt; pd_Rename := Ok tt |}.

(** A watcher that gathered once, and one that gathered five times since. *)
Definition demo_ops : list prom_op :=
  [Updated "m" "slow" (demo_metric 1); Updated "m" "fast" (demo_metric 2); Updated "m" "fast" (demo_metric 3);
   Updated "m" "fast" (demo_metric 4); Updated "m" "fast" (demo_metric 5)].
Definition demo_last : prom_op := Updated "m" "fast" (demo_metric 6).
Definition demo_shared : shared :=
  foldl (do_op "/prom" demo_dir) {| sh_heap := ∅; sh_metrics := ∅; sh_file := None |} (demo_ops ++ [demo_last]).

Lemma demo_ops_new a b m : Updated a b m ∈ demo_ops ++ [demo_last] → mt_seen m = 0%Z.
Proof. intros H. cbn in H. repeat (apply elem_of_cons in H as [[= -> -> ->]|H]; [reflexivity|]). by apply elem_of_nil in H. Qed.

Lemma text_file_is_recent_witness : ∃ fams, sh_file demo_shared = Some fams ∧
  (labels_of (demo_metric 6), f64_of_Z 6) ∈ values fams "choria_machine_metric_watcher_fast_load" ∧
  fams !! "choria_machine_metric_watcher_slow_load" = None.
Proof.
  destruct (text_file_is_recent "/prom" demo_dir demo_ops demo_last) as (fams & Hf & Hx); [done|reflexivity|reflexivity|apply demo_ops_new|].
  exists fams. split; [exact Hf|]. split.
  - apply Hx. exists "m_fast", 1, ((demo_metric 6) <| mt_name := "fast" |> <| mt_machine := "m" |>). split_and!; [reflexivity|lia|].
    exists "load", (f64_of_Z 6). split; [|split; vm_compute; reflexivity].
    change (({["load" := f64_of_Z 6]} : gmap string float64) !! "load" = Some (f64_of_Z 6)). apply lookup_singleton_eq.
  - assert (sh_file demo_shared ≫= (λ fams, fams !! "choria_machine_metric_watcher_slow_load") = None) as Hs by (vm_compute; reflexivity).
    unfold demo_shared in Hs. rewrite Hf in Hs. exact Hs.
Defined.

Definition demo_metric_env : metric_env (V:=string) := {|
  me_now := 0; me_TextFileDirectory := "/prom"; me_dir := demo_dir; me_http := false; me_PATH := "/bin"; me_ProcessTemplate := λ s, Ok s;
  me_shlex_Split := λ s, Ok (split s " "); me_CombinedOutput := λ _ _, Ok "{}"; me_elapsed := Second;
  me_Unmarshal := λ _ m, Ok (m <| mt_Metrics := None |>); me_as_data := λ _ _, "metric"; me_Dial := λ _, Ok tt; me_Write := λ _, Ok tt;
  me_Sprintf_f := λ _, "1.0" |}.
Definition demo_metric_world : World (M:=demo_machine) := {|
  wo_machine := demo_watched "on"; wo_shared := {| sh_heap := ∅; sh_metrics := ∅; sh_file := None |}; wo_graphite := [];
  wo_watcher := {| mw_base := demo_base "metric";
                   mw_properties := {| mp_Command := "load"; mp_Interval := Second; mp_Labels := ∅; mp_SkipPrometheus := false;
                                       mp_StoreAsData := false; mp_HTTP := false; mp_GraphiteHost := ""; mp_GraphitePort := "";
                                       mp_GraphitePrefix := "choria.demo" |};
                   mw_previousRunTime := 0; mw_previousResult := None; mw_watching := false; mw_httpStarted := false |} |}.

Lemma null_metrics_panic_witness : ∃ why, (performWatch demo_metric_env demo_metric_world).2 = Panic why.
Proof.
  exact (null_metrics_panic demo_metric_env demo_metric_world "load" "{}" ["load"] ((new_metric "choria") <| mt_Metrics := None |>)
    eq_refl eq_refl eq_refl eq_refl eq_refl ltac:(discriminate) (λ _, eq_refl) eq_refl eq_refl eq_refl (ex_intro _ _ eq_refl)).
Defined.

(** The runtime of a watcher is written into the metrics it shares, and is in the text file
    after the next save of any watcher. *)
Example runtime_leaks : sh_file (foldl (do_op "/prom" demo_dir) {| sh_heap := ∅; sh_metrics := ∅; sh_file := None |}
    [Updated "m" "w" (demo_metric 1); Noted "m_w" (Seconds Second); Made]) ≫= (λ fams, fams !! "choria_machine_metric_watcher_w_choria_runtime_seconds") ≠ None.
Proof. vm_compute. discriminate. Qed.

(** A machine and a watcher with another split of the same name share one entry. *)
Example keys_collide : metric_key "a_b" "c" = metric_key "a" "b_c".
Proof. reflexivity. Qed.

(** An empty command ends the program. *)
Example empty_metric_command_panics :
  (performWatch (demo_metric_env <| me_shlex_Split := λ _, Ok [] |>) demo_metric_world).2 = Panic "index out of range [0] with length 0".
Proof. reflexivity. Qed.
