(* ===== verification/Registration.v ===== *)
(** * Registration

    server/registration and providers/registration: the manager that publishes what the
    configured providers gather, at most so often, and the providers of the content of a
    file and of the inventory.  Compression, JSON and the file system are arguments; times
    of the manager are in seconds since 1970. *)
From S2P Require Import Prelude Records GoLib Util AuthTypes Transport SecureMessages Message AgentManager.

Record RegistrationItem := {
  ri_Data : option string;
  ri_Destination : string;
  ri_TargetAgent : string;
}.

Record RegistrationConfig := {
  rg_Registration : list string;
  rg_RegistrationCollective : string;
  rg_MainCollective : string;
  rg_Collectives : list string;
  rg_RegisterInterval : Z;
  rg_RegistrationSplay : bool;
  rg_SizeTrigger : Z;
  rg_SizeInterval : Z;
  rg_FileData : string;
  rg_FileTarget : string;
  rg_FileCompression : bool;
  rg_InventoryTarget : string;
  rg_InventoryCompression : bool;
}.

(** ** The providers *)

Section Providers.
Variable c : RegistrationConfig.
(** gzip, and [json.Marshal] of the messages. *)
Variable compress : string → res string.

Record FileContentMessage := {
  fm_Mtime : Z;
  fm_File : string;
  fm_Updated : bool;
  fm_Protocol : string;
  fm_Content : option string;
  fm_ZContent : option string;
}.

Variable file_Marshal : FileContentMessage → res string.

Record FileContent := {
  fc_dataFile : string;
  fc_prevMtime : Z;
}.

Definition NewFileContent : res FileContent :=
  if String.eqb (rg_FileData c) ""
  then Err "file fontent registration is enabled but no source data is configured, please set plugin.choria.registration.file_content.data"
  else Ok {| fc_dataFile := rg_FileData c; fc_prevMtime := 0 |}.

(** What [os.Stat] says: no such file, another error, or a size and the time of the last
    change in seconds. *)
Inductive stat_result := Missing | StatFailed (e : string) | Stat (size mtime : Z).

(** The file at the time of a poll, which looks at it twice before it reads it. *)
Record file_view := {
  fv_first : stat_result;
  fv_second : stat_result;
  fv_read : res string;
}.

(** The compressed data, unless compressing is off or failed. *)
Definition zcontent (enabled : bool) (dat : string) : option string :=
  if enabled then match compress dat with Ok z => Some z | _ => None end else None.

Definition item (jdat destination : string) : RegistrationItem :=
  {| ri_Data := Some jdat; ri_Destination := destination;
     ri_TargetAgent := if String.eqb destination "" then "registration" else "" |}.

(** Only a file that is missing is reported the first time it is looked at. *)
Definition publish_file (v : file_view) : ST FileContent string RegistrationItem := λ fc,
  let file := fc_dataFile fc in
  match fv_first v with
  | Missing => (fc, Err ("could not find data file " +:+ file))
  | StatFailed _ => (fc, Panic "nil pointer dereference")
  | Stat size _ =>
      if (size =? 0)%Z then (fc, Err ("data file " +:+ file +:+ " is empty"))
      else
        match fv_second v with
        | Missing => (fc, Err "could not obtain file times: no such file or directory")
        | StatFailed e => (fc, Err ("could not obtain file times: " +:+ e))
        | Stat _ mtime =>
            match fv_read v with
            | Err e => (fc, Err ("could not read file registration source " +:+ file +:+ ": " +:+ e))
            | Panic p => (fc, Panic p)
            | Ok dat =>
                let prev := if (fc_prevMtime fc =? 0)%Z then mtime else fc_prevMtime fc in
                let updated := (prev <? mtime)%Z in
                let fc := {| fc_dataFile := file; fc_prevMtime := if updated then mtime else prev |} in
                let z := zcontent (rg_FileCompression c) dat in
                let msg := {| fm_Mtime := mtime; fm_File := file; fm_Updated := updated;
                              fm_Protocol := "choria:registration:filecontent:1";
                              fm_Content := match z with Some _ => None | None => Some dat end; fm_ZContent := z |} in
                match file_Marshal msg with
                | Err e => (fc, Err ("could not json marshal registration message: " +:+ e))
                | Panic p => (fc, Panic p)
                | Ok jdat => (fc, Ok (item jdat (rg_FileTarget c)))
                end
            end
        end
  end.

(** The inventory; [S] is the status of the server. *)
Context {S : Type}.

Record InventoryMachineState := { im_Name : string; im_Version : string; im_State : string }.

Record InventoryData := {
  iv_Agents : list Metadata;
  iv_Classes : list string;
  iv_Facts : string;
  iv_Status : S;
  iv_Collectives : list string;
  iv_BuildInfo : string * string;
  iv_AutoAgents : list InventoryMachineState;
}.

Record InventoryContentMessage := {
  ic_Protocol : string;
  ic_Content : option string;
  ic_ZContent : option string;
}.

Record ServerInfoSource := {
  si_Classes : list string;
  si_Facts : string;
  si_Status : S;
  si_KnownAgents : list string;
  si_AgentMetadata : string → option Metadata;
  si_Build : string * string;
  si_MachinesStatus : res (list InventoryMachineState);
}.

Variable inventory_Marshal : InventoryData → res string.
Variable content_Marshal : InventoryContentMessage → res string.

Definition inventory_of (si : ServerInfoSource) : InventoryData :=
  {| iv_Agents := omap (si_AgentMetadata si) (si_KnownAgents si); iv_Classes := si_Classes si; iv_Facts := si_Facts si;
     iv_Status := si_Status si; iv_Collectives := rg_Collectives c; iv_BuildInfo := si_Build si;
     iv_AutoAgents := match si_MachinesStatus si with Ok ms => ms | _ => [] end |}.

Definition publish_inventory (si : ServerInfoSource) : res RegistrationItem :=
  dat ← inventory_Marshal (inventory_of si);
  let z := zcontent (rg_InventoryCompression c) dat in
  jdat ← map_err (λ e, "could not json marshal registration message: " +:+ e)
    (content_Marshal {| ic_Protocol := "choria:registration:inventorycontent:1";
                        ic_Content := match z with Some _ => None | None => Some dat end; ic_ZContent := z |});
  Ok (item jdat (rg_InventoryTarget c)).

End Providers.

(** The times of the first polls of a provider that waited [delay] seconds and loses no time;
    after the first one a ticker is made, of a positive interval. *)
Definition StartRegistration (start delay interval : Z) (n : nat) : list Z * option string :=
  let times := map (λ i, (start + delay + Z.of_nat i * interval)%Z) (seq 0 n) in
  if (interval <=? 0)%Z then (take 1 times, Some "non-positive interval for NewTicker") else (times, None).

(** ** The manager *)

(** The size and time of the last publication, and what was handed to [publishMsg], with
    the time and whether the connector published it. *)
Record Manager := {
  rm_lastPublishedSize : Z;
  rm_lastPublishedTime : Z;
  rm_log : list (Z * Message * bool);
}.

Definition New : Manager := {| rm_lastPublishedSize := 0; rm_lastPublishedTime := 0; rm_log := [] |}.

Inductive registrator := FileContentRegistrator (fc : FileContent) | InventoryContentRegistrator.

Section Manager.
Variable cfg : RegistrationConfig.

(** The workers that were started, which stay when a later one cannot be. *)
Fixpoint start_workers (types : list string) : list registrator * res () :=
  match types with
  | [] => ([], Ok tt)
  | rtype :: rest =>
      let continue r := let '(started, e) := start_workers rest in (r :: started, e) in
      if String.eqb rtype "" then ([], Ok tt)
      else if String.eqb rtype "file_content" then
        match NewFileContent cfg with
        | Ok fc => continue (FileContentRegistrator fc)
        | Err e => ([], Err ("cannot start File Content Registrator: " +:+ e))
        | Panic p => ([], Panic p)
        end
      else if String.eqb rtype "inventory_content" then continue InventoryContentRegistrator
      else ([], Err ("unknown registration plugin: [" +:+ join (rg_Registration cfg) " " +:+ "]"))
  end.

(** The collective that is published to, and the workers. *)
Definition Start : string * (list registrator * res ()) :=
  (if String.eqb (rg_RegistrationCollective cfg) "" then rg_MainCollective cfg else rg_RegistrationCollective cfg,
   start_workers (rg_Registration cfg)).

(** How long a worker sleeps, [r] being the random number below the interval, and the
    interval its provider polls with. *)
Definition registrationWorker (r : Z) : res (Z * Z) :=
  splay ← (if rg_RegistrationSplay cfg
           then if (rg_RegisterInterval cfg <=? 0)%Z then Panic "invalid argument to N" else Ok r
           else Ok 0%Z);
  Ok (splay, if (0 <? rg_SizeTrigger cfg)%Z then rg_SizeInterval cfg else rg_RegisterInterval cfg).

Section Publish.
Context `{SP : SecurityProvider}.
Variable fw : FrameworkConfig.
Variable collective : string.

Definition SetCustomTarget (t : string) (m : Message) : Message :=
  {| m_payload := m_payload m; m_agent := m_agent m; m_request := m_request m; m_filter := m_filter m;
     m_ttl := m_ttl m; m_timeStamp := m_timeStamp m; m_senderID := m_senderID m; m_callerID := m_callerID m;
     m_requestID := m_requestID m; m_discoveredHosts := m_discoveredHosts m; m_customTarget := t;
     m_expectedMessageID := m_expectedMessageID m; m_replyTo := m_replyTo m; m_collective := m_collective m;
     m_msgType := m_msgType m; m_req := m_req m; m_protoVersion := m_protoVersion m;
     m_shouldCacheTransport := m_shouldCacheTransport m; m_cachedTransport := m_cachedTransport m |}.

(** The error of [SetReplyTo] is dropped, that of [Publish] logged. *)
Definition publishMsg (now : Z) (msg : Message) (destination : string) (connected published : bool) (m : Manager) : Manager :=
  let msg := match MessageSetReplyTo "dev.null" msg with Ok msg => msg | _ => msg end in
  let msg := SetCustomTarget destination msg in
  {| rm_lastPublishedSize := rm_lastPublishedSize m; rm_lastPublishedTime := rm_lastPublishedTime m;
     rm_log := rm_log m ++ [(now, msg, connected && published)] |}.

Definition set_last (size now : Z) (m : Manager) : Manager :=
  {| rm_lastPublishedSize := size; rm_lastPublishedTime := now; rm_log := rm_log m |}.

(** A message that arrives at a worker, and the world then. *)
Record arrival := {
  ar_item : option RegistrationItem;
  ar_now : Z;
  ar_rid : res string;
  ar_connected : bool;
  ar_published : bool;
}.

Definition target_agent (i : RegistrationItem) : string :=
  if String.eqb (ri_TargetAgent i) "" then "registration" else ri_TargetAgent i.

(** The message for an item with data. *)
Definition message_of (a : arrival) : option (RegistrationItem * string * res Message) :=
  match ar_item a with
  | None => None
  | Some i =>
      match ri_Data i with
      | None | Some "" => None
      | Some dat => Some (i, dat, NewMessage fw (ar_rid a) dat (target_agent i) collective "request" None)
      end
  end.

(** Sizes are small enough for their difference to be exact as a float. *)
Definition publish (a : arrival) : ST Manager string () := λ m,
  match message_of a with
  | None => (m, Ok tt)
  | Some (i, dat, r) =>
      match r with
      | Err _ => (m, Ok tt)
      | Panic p => (m, Panic p)
      | Ok msg =>
          let size := Z.of_nat (String.length dat) in
          let now := ar_now a in
          let go := publishMsg now msg (ri_Destination i) (ar_connected a) (ar_published a) (set_last size now m) in
          if (rg_RegisterInterval cfg <=? now - rm_lastPublishedTime m)%Z then (go, Ok tt)
          else if negb (rg_SizeTrigger cfg =? 0)%Z && (rg_SizeTrigger cfg <=? Z.abs (rm_lastPublishedSize m - size))%Z
          then (go, Ok tt)
          else (m, Ok tt)
      end
  end.

Fixpoint work (l : list arrival) : ST Manager string () :=
  match l with
  | [] => mret tt
  | a :: rest => publish a;; work rest
  end.

(** ** Publications are spaced *)

Abbreviation publication := (Z * Message * bool)%type.
Definition en_time (e : publication) : Z := e.1.1.
Definition en_size (e : publication) : Z := Z.of_nat (String.length (m_payload e.1.2)).

(** Far enough apart in time, or in size where that triggers. *)
Definition apart (e : publication) (now size : Z) : Prop :=
  (rg_RegisterInterval cfg ≤ now - en_time e)%Z ∨
  (rg_SizeTrigger cfg ≠ 0 ∧ rg_SizeTrigger cfg ≤ Z.abs (en_size e - size))%Z.

(** An item as it is published. *)
Definition delivers (a : arrival) (i : RegistrationItem) (dat : string) (e : publication) : Prop :=
  let msg := e.1.2 in
  en_time e = ar_now a ∧ m_payload msg = dat ∧ m_agent msg = target_agent i ∧ m_customTarget msg = ri_Destination i ∧
  m_replyTo msg = "dev.null" ∧ m_collective msg = collective ∧ m_msgType msg = RequestMessageType ∧
  e.2 = ar_connected a && ar_published a.

Record well_spaced (m : Manager) : Prop := {
  sp_pairs i e e' : rm_log m !! i = Some e → rm_log m !! S i = Some e' → apart e (en_time e') (en_size e');
  sp_last : match last (rm_log m) with
            | Some e => rm_lastPublishedTime m = en_time e ∧ rm_lastPublishedSize m = en_size e
            | None => rm_lastPublishedTime m = 0%Z
            end;
}.

Lemma NewMessage_request rid dat agent msg : NewMessage fw rid dat agent collective "request" None = Ok msg →
  m_payload msg = dat ∧ m_agent msg = agent ∧ m_collective msg = collective ∧ m_msgType msg = RequestMessageType.
Proof.
  unfold NewMessage, newMessage. intros H. apply outcome_bind_Ok in H as (m0 & H & [= <-]).
  apply outcome_bind_Ok in H as (id & _ & H). apply outcome_bind_Ok in H as (m1 & Ht & H). cbn in Ht. injection Ht as <-.
  apply outcome_bind_Ok in H as (m2 & Hc & H). apply outcome_bind_Ok in H as ([] & _ & [= ->]).
  unfold SetCollective in Hc. destruct (negb _); [done|]. injection Hc as <-. done.
Qed.

Lemma message_of_delivers a i dat msg size m : message_of a = Some (i, dat, Ok msg) →
  ∃ e, rm_log (publishMsg (ar_now a) msg (ri_Destination i) (ar_connected a) (ar_published a) (set_last size (ar_now a) m)) =
       rm_log m ++ [e] ∧ delivers a i dat e ∧ en_size e = Z.of_nat (String.length dat).
Proof.
  unfold message_of. destruct (ar_item a) as [i'|]; [|done]. destruct (ri_Data i') as [[|ch s]|]; [done| |done].
  intros [= <- <- Hm]. destruct (NewMessage_request _ _ _ _ Hm) as (Hp & Ha & Hc & Ht).
  unfold publishMsg, MessageSetReplyTo. rewrite Ht.
  assert (elem RequestMessageType request_types = true) as -> by reflexivity. cbn. eexists. split; [reflexivity|].
  unfold delivers, en_size. cbn. rewrite Hp. by rewrite Ha, Hc.
Qed.

(** What one arrival does: it is published, or the last publication makes it needless, or
    there is nothing to publish. *)
Lemma publish_cases a m m' : well_spaced m → (rg_RegisterInterval cfg ≤ ar_now a)%Z → publish a m = (m', Ok tt) →
  well_spaced m' ∧
  ((∃ i dat msg e, message_of a = Some (i, dat, Ok msg) ∧ rm_log m' = rm_log m ++ [e] ∧ delivers a i dat e) ∨
   (m' = m ∧ ∀ i dat msg, message_of a = Some (i, dat, Ok msg) →
      ∃ e, last (rm_log m) = Some e ∧ ¬ apart e (ar_now a) (Z.of_nat (String.length dat)))).
Proof.
  intros [Hp Hl] Hnow H. unfold publish in H. destruct (message_of a) as [[[i dat] [msg|e|p]]|] eqn:Hm in H.
  2-4: simplify_eq; (split; [by split|right; split; [done|by rewrite Hm]]).
  pose proof (message_of_delivers a i dat msg (Z.of_nat (String.length dat)) m Hm) as (e & Hlog & Hd & Hsz).
  assert (∀ m', publishMsg (ar_now a) msg (ri_Destination i) (ar_connected a) (ar_published a)
                  (set_last (Z.of_nat (String.length dat)) (ar_now a) m) = m' →
          (∀ e0, last (rm_log m) = Some e0 → apart e0 (ar_now a) (Z.of_nat (String.length dat))) →
          well_spaced m' ∧ ∃ i dat msg e, message_of a = Some (i, dat, Ok msg) ∧ rm_log m' = rm_log m ++ [e] ∧ delivers a i dat e) as Hgo.
  { intros m1 <- Hap. split; [|by exists i, dat, msg, e]. split; rewrite Hlog.
    - intros j e1 e2 H1 H2. apply lookup_app_Some in H2 as [H2|[Hj H2]].
      { rewrite lookup_app_l in H1 by (apply lookup_lt_Some in H2; lia). by eapply Hp. }
      apply list_lookup_singleton_Some in H2 as [Hj' <-].
      rewrite lookup_app_l in H1 by lia. destruct Hd as [-> _]. rewrite Hsz. apply Hap. rewrite last_lookup.
      by replace (pred (length (rm_log m))) with j by lia.
    - rewrite last_snoc. destruct Hd as [-> _]. by rewrite Hsz. }
  destruct (Z.leb_spec (rg_RegisterInterval cfg) (ar_now a - rm_lastPublishedTime m)).
  { injection H as H. enough (∀ e0, last (rm_log m) = Some e0 → apart e0 (ar_now a) (Z.of_nat (String.length dat))) as Hap
      by (destruct (Hgo m' H Hap); by split; [|left]). intros e0 He0. rewrite He0 in Hl. left. by destruct Hl as [<- _]. }
  destruct (Z.eqb_spec (rg_SizeTrigger cfg) 0) as [Hz|Hz]; cbn [negb andb] in H;
    [|destruct (Z.leb_spec (rg_SizeTrigger cfg) (Z.abs (rm_lastPublishedSize m - Z.of_nat (String.length dat))))].
  2: { injection H as H. enough (∀ e0, last (rm_log m) = Some e0 → apart e0 (ar_now a) (Z.of_nat (String.length dat))) as Hap
      by (destruct (Hgo m' H Hap); by split; [|left]). intros e0 He0. rewrite He0 in Hl. right.
       by destruct Hl as [_ <-]. }
  all: injection H as <-; split; [by split|right; split; [done|]]; intros i' dat' msg'; rewrite Hm; intros [= <- <- <-].
  all: destruct (last (rm_log m)) as [e0|]; [|lia]; exists e0; split; [done|]; destruct Hl as [Ht Hs]; unfold apart; rewrite <- Ht, <- Hs; lia.
Qed.

(** Registration data is published neither too often nor lost silently: whatever the
    providers offer, two publications that follow each other are an interval apart, or
    differ in size where that is a trigger; every publication is an item that was offered,
    sent as it was to its target; and an item that was not published came when the last
    publication was neither an interval old nor different enough in size. *)
Theorem registrations_are_spaced (l : list arrival) (m : Manager) :
  work l New = (m, Ok tt) → Forall (λ a, rg_RegisterInterval cfg ≤ ar_now a)%Z l →
  (∀ i e e', rm_log m !! i = Some e → rm_log m !! S i = Some e' → apart e (en_time e') (en_size e')) ∧
  (∀ e, e ∈ rm_log m → ∃ a i dat msg, a ∈ l ∧ message_of a = Some (i, dat, Ok msg) ∧ delivers a i dat e) ∧
  (∀ a i dat msg, a ∈ l → message_of a = Some (i, dat, Ok msg) →
     ∃ e, e ∈ rm_log m ∧ (delivers a i dat e ∨ ¬ apart e (ar_now a) (Z.of_nat (String.length dat)))).
Proof.
  intros Hw Hnow.
  assert (∀ l m0, well_spaced m0 → work l m0 = (m, Ok tt) → Forall (λ a, rg_RegisterInterval cfg ≤ ar_now a)%Z l →
    well_spaced m ∧ (∃ new, rm_log m = rm_log m0 ++ new ∧
      ∀ e, e ∈ new → ∃ a i dat msg, a ∈ l ∧ message_of a = Some (i, dat, Ok msg) ∧ delivers a i dat e) ∧
    (∀ a i dat msg, a ∈ l → message_of a = Some (i, dat, Ok msg) →
       ∃ e, e ∈ rm_log m ∧ (delivers a i dat e ∨ ¬ apart e (ar_now a) (Z.of_nat (String.length dat))))) as Hall.
  { clear l Hw Hnow. induction l as [|a l IH]; intros m0 H0 Hw Hnow.
    { injection Hw as <-. split; [done|]. split; [|by intros ? ? ? ? ?%elem_of_nil]. exists []. rewrite app_nil_r.
      split; [done|]. by intros ? ?%elem_of_nil. }
    apply Forall_cons in Hnow as [Ha Hnow]. cbn [work] in Hw. apply ST_bind_Ok in Hw as (m1 & [] & Hp & Hw).
    destruct (publish_cases a m0 m1 H0 Ha Hp) as [H1 Hcase]. destruct (IH m1 H1 Hw Hnow) as (Hm & (new & Hnew & Hfrom) & Hev).
    split; [done|]. split.
    - destruct Hcase as [(i & dat & msg & e & Hma & Hlog & Hd)|[-> _]].
      + exists (e :: new). rewrite Hnew, Hlog, <- app_assoc. split; [done|]. intros e' [->|He']%elem_of_cons.
        * exists a, i, dat, msg. split; [apply elem_of_cons; by left|done].
        * destruct (Hfrom e' He') as (a' & i' & dat' & msg' & Hin & Hrest). exists a', i', dat', msg'. split; [by apply elem_of_cons; right|done].
      + exists new. split; [done|]. intros e' He'. destruct (Hfrom e' He') as (a' & i' & dat' & msg' & Hin & Hrest).
        exists a', i', dat', msg'. split; [by apply elem_of_cons; right|done].
    - intros a' i dat msg [->|Hin]%elem_of_cons Hma; [|by eapply Hev].
      destruct Hcase as [(i' & dat' & msg' & e & Hma' & Hlog & Hd)|[-> Hskip]].
      + rewrite Hma in Hma'. injection Hma' as <- <- <-. exists e. split; [rewrite Hnew, Hlog; set_solver|by left].
      + destruct (Hskip _ _ _ Hma) as (e & He & Hno). exists e. split; [|by right]. rewrite Hnew. apply elem_of_app. left.
        rewrite last_lookup in He. by eapply list_elem_of_lookup_2. }
  destruct (Hall l New) as ([Hp _] & (new & Hnew & Hfrom) & Hev); [split; [done|done]|done..|].
  cbn in Hnew. split; [exact Hp|]. split; [by rewrite Hnew|exact Hev].
Qed.

(** Two providers that poll with the interval itself, the second a moment after the first. *)
Definition rounds (fa fb : nat → arrival) (l : list nat) : list arrival := flat_map (λ k, [fa k; fb k]) l.

Lemma publish_due a i dat msg m : message_of a = Some (i, dat, Ok msg) → (rg_RegisterInterval cfg ≤ ar_now a - rm_lastPublishedTime m)%Z →
  ∃ m' e, publish a m = (m', Ok tt) ∧ rm_log m' = rm_log m ++ [e] ∧ en_time e = ar_now a ∧ rm_lastPublishedTime m' = ar_now a.
Proof.
  intros Hm Hdue. unfold publish. rewrite Hm.
  destruct (message_of_delivers a i dat msg (Z.of_nat (String.length dat)) m Hm) as (e & Hlog & [Ht _] & _).
  rewrite (proj2 (Z.leb_le _ _) Hdue). by eexists _, e.
Qed.

Lemma publish_early a i dat msg m : message_of a = Some (i, dat, Ok msg) → rg_SizeTrigger cfg = 0%Z →
  (ar_now a - rm_lastPublishedTime m < rg_RegisterInterval cfg)%Z → publish a m = (m, Ok tt).
Proof. intros Hm Hz Hearly. unfold publish. rewrite Hm, Hz. by rewrite (proj2 (Z.leb_gt _ _) Hearly). Qed.

(** The providers share one interval: of two that poll with it nothing of the second is
    ever published. *)
Theorem second_provider_starves (fa fb : nat → arrival) (start d : Z) (n : nat) :
  rg_SizeTrigger cfg = 0%Z → (0 ≤ d < rg_RegisterInterval cfg)%Z → (rg_RegisterInterval cfg ≤ start)%Z →
  (∀ k, ar_now (fa k) = start + Z.of_nat k * rg_RegisterInterval cfg)%Z →
  (∀ k, ar_now (fb k) = start + d + Z.of_nat k * rg_RegisterInterval cfg)%Z →
  (∀ k, ∃ i dat msg, message_of (fa k) = Some (i, dat, Ok msg)) →
  (∀ k, ∃ i dat msg, message_of (fb k) = Some (i, dat, Ok msg)) →
  ∃ m, work (rounds fa fb (seq 0 n)) New = (m, Ok tt) ∧ map en_time (rm_log m) = map (λ k, ar_now (fa k)) (seq 0 n).
Proof.
  intros Hz Hd Hstart Hta Htb Hma Hmb.
  assert (∀ n j m0, (rm_lastPublishedTime m0 ≤ start + (Z.of_nat j - 1) * rg_RegisterInterval cfg)%Z →
    ∃ m, work (rounds fa fb (seq j n)) m0 = (m, Ok tt) ∧ map en_time (rm_log m) = map en_time (rm_log m0) ++ map (λ k, ar_now (fa k)) (seq j n)) as Hall.
  { clear n. induction n as [|n IH]; intros j m0 Hl; [exists m0; by rewrite app_nil_r|].
    destruct (Hma j) as (i & dat & msg & Hm). destruct (Hmb j) as (i' & dat' & msg' & Hm').
    destruct (publish_due (fa j) i dat msg m0 Hm) as (m1 & e & Hp & Hlog & Ht & Hlast); [rewrite Hta; lia|].
    assert (publish (fb j) m1 = (m1, Ok tt)) as Hq by (eapply publish_early; [exact Hm'|done|]; rewrite Hlast, Hta, Htb; lia).
    destruct (IH (S j) m1) as (m & Hw & Hmap); [rewrite Hlast, Hta; lia|]. exists m. split.
    - cbn. unfold mbind, ST_bind. by rewrite Hp, Hq.
    - rewrite Hmap, Hlog, map_app, <- app_assoc. cbn. by rewrite Ht. }
  destruct (Hall n 0 New) as (m & Hw & Hmap); [cbn; lia|]. by exists m.
Qed.

End Publish.
End Manager.

(** ** Witness *)

From S2P Require Import Files Facts Filters DemoJSON.

Definition demo_registration_config : RegistrationConfig := {|
  rg_Registration := ["file_content"; "inventory_content"]; rg_RegistrationCollective := ""; rg_MainCollective := "mcollective";
  rg_Collectives := ["mcollective"]; rg_RegisterInterval := 300; rg_RegistrationSplay := true; rg_SizeTrigger := 0;
  rg_SizeInterval := 30; rg_FileData := "/etc/facts.json"; rg_FileTarget := "facts"; rg_FileCompression := false;
  rg_InventoryTarget := ""; rg_InventoryCompression := true |}.

Definition demo_registration_framework : FrameworkConfig := {|
  fw_Identity := "n1"; fw_Collectives := ["mcollective"]; fw_TTL := 60; fw_CacheBatchedTransports := false;
  fw_RequireClientFilter := false; fw_CallerID := "choria=n1" |}.

Definition demo_arrival (destination dat : string) (now : Z) : arrival := {|
  ar_item := Some (item dat destination); ar_now := now; ar_rid := Ok "id"; ar_connected := true; ar_published := true |}.

Definition demo_arrivals : list arrival :=
  [demo_arrival "facts" "f1" 1000; demo_arrival "" "i1" 1002; demo_arrival "facts" "f2" 1300; demo_arrival "" "i2" 1302].

Definition demo_registered : Manager * outcome string () :=
  work demo_registration_config demo_registration_framework "mcollective" demo_arrivals New.

Definition demo_published (m : Manager) : list (Z * string) := map (λ e, (en_time e, m_payload e.1.2)) (rm_log m).

Lemma demo_registered_ok : ∃ m, demo_registered = (m, Ok tt) ∧ demo_published m = [(1000, "f1"); (1300, "f2")]%Z.
Proof.
  assert (demo_published demo_registered.1 = [(1000, "f1"); (1300, "f2")]%Z ∧ demo_registered.2 = Ok tt) as [Hp Ho]
    by (split; vm_compute; reflexivity).
  revert Hp Ho. destruct demo_registered as [m o]. cbn. intros Hp ->. by exists m.
Qed.

Lemma registrations_are_spaced_witness : ∃ m, demo_registered = (m, Ok tt) ∧ demo_published m = [(1000, "f1"); (1300, "f2")]%Z ∧
  ∀ i e e', rm_log m !! i = Some e → rm_log m !! S i = Some e' → apart demo_registration_config e (en_time e') (en_size e').
Proof.
  destruct demo_registered_ok as (m & Hm & Hp). exists m. split; [exact Hm|]. split; [exact Hp|].
  refine (proj1 (registrations_are_spaced demo_registration_config demo_registration_framework "mcollective" demo_arrivals m Hm _)).
  repeat constructor; cbn; lia.
Defined.

(** ** What goes wrong *)

(** A file that cannot be looked at ends the server. *)
Example unreadable_registration_panics (v : file_view) e : fv_first v = StatFailed e →
  (publish_file demo_registration_config Ok (λ _, Ok "json") v {| fc_dataFile := "/etc/facts.json"; fc_prevMtime := 0 |}).2 =
  Panic "nil pointer dereference".
Proof. intros H. unfold publish_file. by rewrite H. Qed.

(** A publication that was not sent counts as one. *)
Example unsent_registration_counts :
  let a connected now := {| ar_item := Some (item "f" "facts"); ar_now := now; ar_rid := Ok "id"; ar_connected := connected; ar_published := true |} in
  map snd (rm_log (work demo_registration_config demo_registration_framework "mcollective" [a false 1000; a true 1010] New).1)%Z = [false].
Proof. vm_compute. reflexivity. Qed.

(** Without an interval the worker, or its ticker, ends the server. *)
Example no_interval_panics : StartRegistration 0 1 0 3 = ([1%Z], Some "non-positive interval for NewTicker").
Proof. reflexivity. Qed.
