(* ===== verification/Instance.v ===== *)
(** * The server instance

    server/instance.go, connection.go, lifecycle.go, agent_providers.go,
    additional_agents.go, data.go and machine.go: how a server, or a host of services, is
    put together and started, and what happens when a part cannot be.  Each part answers by
    an argument; what was done is a trace, in which a goroutine is the action that starts it. *)
From S2P Require Import Prelude Records GoLib Util Framework Connection AgentManager Lifecycle.

(** What a startup does; an event is published with the time its publication took place. *)
Inductive action :=
| ConnectorMade
| ConnectorClosed
| StatusWriter
| AgentsMade (services : bool)
| Denied (agent : string)
| RegistrationStarted
| ProviderInitialized (version : string)
| AgentInitialized (i : nat)
| DataStarted
| NodeSubscribed (collective : string)
| SubmissionsStarted
| SpoolMade (dir : string)
| EventSent (target event : string)
| AliveEvents
| MachinesManaged
| PluginLoaded
| RequestsProcessed
| ReadyTriggered.

Record Instance := {
  in_lifecycleComponent : string;
  in_provisioning : bool;
  in_agentDenyList : list string;
  (** whether [shutdown] and [stopProcess] are set *)
  in_running : bool;
  in_connected : bool;
  in_subs : Subscriptions;
  in_machines : bool;
  in_data : bool;
  in_readyFunc : bool;
  in_trace : list action;
}.

Definition NewInstance : Instance :=
  {| in_lifecycleComponent := ""; in_provisioning := false; in_agentDenyList := []; in_running := false; in_connected := false;
     in_subs := {| chanSubscriptions := ∅; live := [] |}; in_machines := false; in_data := false; in_readyFunc := false; in_trace := [] |}.

Abbreviation InstM := (ST Instance string).

(** The configuration and what the parts answer. *)
Record instance_env := {
  ie_ProvisionMode : bool;
  ie_Identity : string;
  ie_Collectives : list string;
  ie_Version : string;
  ie_LegacyLifeCycleFormat : bool;
  ie_interrupted : bool;
  ie_NewConnector : res ();
  ie_Registration : res ();
  (** providers of agents with their versions, and initializers of agents *)
  ie_AgentProviders : list (string * res ());
  ie_AdditionalAgents : list (res ());
  ie_DataManager : res ();
  ie_network : network;
  ie_SubmissionSpool : string;
  ie_Submissions : res ();
  ie_ExecutorEnabled : bool;
  ie_ExecutorSpool : string;
  ie_MkdirAll : string → res ();
  ie_MachineSourceDir : string;
  ie_FileIsDir : string → bool;
  ie_AAgent : res ();
  ie_ManageMachines : res ();
  ie_AutonomousAgentsDownload : bool;
  ie_ChoriaPlugin : res ();
  ie_LoadPlugin : res ();
  ie_EventID : string;
  ie_now : Z;
  ie_Publish : string → string → res ();
}.

Definition act (a : action) : InstM () := modify (λ s, s <| in_trace ::= (λ l, l ++ [a]) |>).

(** An error that is only logged. *)
Definition logged (m : InstM ()) : InstM () := attempt (F:=string) m;; mret tt.

Section Instance.
Context `{EJ : EventJSON}.
Variable e : instance_env.

(** ** Shutting down *)

Definition Shutdown : InstM () := λ s, if in_running s then (s, Ok tt) else (s, Err "server is not running").
Definition PrepareForShutdown : InstM () := Shutdown.
Definition DenyAgent (agent : string) : InstM () := modify (λ s, s <| in_agentDenyList ::= (λ l, l ++ [agent]) |>).
Definition RegisterReadyCallback : InstM () := modify (λ s, s <| in_readyFunc := true |>).

(** ** The connection *)

(** The servers to connect to: in provisioning mode those for provisioning, if there are any. *)
Definition brokerUrls (ProvisioningServers MiddlewareServers : res (list Server)) : InstM (list Server) := λ s,
  match ie_ProvisionMode e, ProvisioningServers with
  | true, Ok ((_ :: _) as servers) => (s <| in_provisioning := true |>, Ok servers)
  | true, Panic p => (s, Panic p)
  | _, _ => (s, MiddlewareServers)
  end.

Definition initialConnect : InstM () :=
  if ie_interrupted e then throw "exiting on shut down"
  else
    lift (map_err (λ err, "could not create connector: " +:+ err) (ie_NewConnector e));;
    modify (λ s, s <| in_connected := true |>);;
    act ConnectorMade.

Definition Close : InstM () := modify (λ s, s <| in_connected := false |>);; act ConnectorClosed.

Fixpoint subscribe_collectives (l : list string) : InstM () :=
  match l with
  | [] => mret tt
  | c :: rest =>
      (λ s, let '(subs, r) := QueueSubscribe (ie_network e) ("node." +:+ c) (NodeDirectedTarget c (ie_Identity e)) "" (in_subs s) in
            (s <| in_subs := subs |>, map_err (λ err, "could not subscribe to node directed targets: " +:+ err) r));;
      act (NodeSubscribed c);;
      subscribe_collectives rest
  end.

Definition subscribeNode : InstM () := subscribe_collectives (ie_Collectives e).

(** ** Agents, data and machines *)

Fixpoint setup_providers (l : list (string * res ())) : InstM () :=
  match l with
  | [] => mret tt
  | (version, r) :: rest => act (ProviderInitialized version);; lift r;; setup_providers rest
  end.

Fixpoint setup_agents (i : nat) (l : list (res ())) : InstM () :=
  match l with
  | [] => mret tt
  | r :: rest => act (AgentInitialized i);; lift r;; setup_agents (S i) rest
  end.

Definition setupAdditionalAgentProviders : InstM () := setup_providers (ie_AgentProviders e).
Definition setupAdditionalAgents : InstM () := setup_agents 0 (ie_AdditionalAgents e).

Definition StartDataProviders : InstM () :=
  if ie_ProvisionMode e then mret tt
  else lift (ie_DataManager e);; modify (λ s, s <| in_data := true |>);; act DataStarted.

(** Without a manager of data its method dereferences it. *)
Definition DataFuncMap (s : Instance) : res () :=
  if ie_ProvisionMode e then Err "data providers not available in provisioning mode"
  else if in_data s then Ok tt else Panic "nil pointer dereference".

Definition setupExecutor : InstM () :=
  if negb (ie_ExecutorEnabled e) || String.eqb (ie_ExecutorSpool e) "" then mret tt
  else lift (ie_MkdirAll e (ie_ExecutorSpool e));; act (SpoolMade (ie_ExecutorSpool e)).

Definition SetupSubmissions : InstM () :=
  if String.eqb (ie_SubmissionSpool e) "" then mret tt else lift (ie_Submissions e);; act SubmissionsStarted.

(** A manager that could not be made is stored all the same, as none. *)
Definition StartMachine : InstM () :=
  if ie_ProvisionMode e then mret tt
  else if String.eqb (ie_MachineSourceDir e) "" then mret tt
  else
    (if ie_FileIsDir e (ie_MachineSourceDir e) then mret tt else lift (ie_MkdirAll e (ie_MachineSourceDir e)));;
    lift (ie_AAgent e);;
    modify (λ s, s <| in_machines := true |>);;
    lift (ie_ManageMachines e);;
    act MachinesManaged.

Definition StartInternalMachines : InstM () :=
  if negb (ie_AutonomousAgentsDownload e) then mret tt
  else
    lift (ie_ChoriaPlugin e);;
    machines ← gets in_machines;
    if negb machines then throw "autonomous agent subsystem not initialized"
    else lift (ie_LoadPlugin e);; act PluginLoaded.

(** ** Events *)

Definition SetComponent (c : string) : InstM () := modify (λ s, s <| in_lifecycleComponent := c |>).

Definition eventComponent (s : Instance) : string :=
  if negb (String.eqb (in_lifecycleComponent s) "") then in_lifecycleComponent s
  else if ie_ProvisionMode e then "provision_mode_server" else "server".

Definition event_format : Format := if ie_LegacyLifeCycleFormat e then ChoriaFormat else CloudEventV1Format.

Definition PublishEvent (ev : Event) : InstM () := λ s,
  let '(sent, r) := Lifecycle.PublishEvent (ie_Publish e) (SetFormat event_format ev) [] in
  (s <| in_trace ::= (λ l, l ++ map (λ tj, EventSent tj.1 tj.2) sent) |>, r).

Definition publish_event (t : EventType) (opts : string → list Option) : InstM () := λ s,
  logged (ev ← lift (Lifecycle.New (ie_EventID e) (ie_now e) t (opts (eventComponent s))); PublishEvent ev) s.

Definition publishStartupEvent : InstM () :=
  publish_event Startup (λ c, [Identity (ie_Identity e); Version (ie_Version e); Component c]).
Definition publishShutdownEvent : InstM () := publish_event Lifecycle.Shutdown (λ c, [Identity (ie_Identity e); Component c]).

(** ** Starting *)

Definition set_running : InstM () := modify (λ s, s <| in_running := true |>).

(** A part that ends the startup when it fails: the connector is closed. *)
Definition needed (what : string) (m : InstM ()) : InstM () := λ s,
  match m s with
  | (s, Err err) => (Close;; throw (what +:+ ": " +:+ err)) s
  | r => r
  end.

Definition connect : InstM () := λ s,
  match initialConnect s with
  | (s, Err err) => (s, Err ("initial Choria Broker connection failed: " +:+ err))
  | r => r
  end.

Fixpoint deny_all (l : list string) : InstM () :=
  match l with [] => mret tt | a :: rest => act (Denied a);; deny_all rest end.

(** The ready function is not called in provisioning mode. *)
Definition triggerReadyFunc : InstM () := λ s,
  if negb (in_readyFunc s) || ie_ProvisionMode e then (s, Ok tt) else act ReadyTriggered s.

Definition setup_agents_of (services : bool) : InstM () :=
  act StatusWriter;; act (AgentsMade services).

Definition setup_additional : InstM () :=
  needed "could not initialize initial additional agent providers" setupAdditionalAgentProviders;;
  needed "could not initialize initial additional agents" setupAdditionalAgents.

Definition announce : InstM () := publishStartupEvent;; act AliveEvents.
Definition serve_requests : InstM () := act RequestsProcessed;; triggerReadyFunc.

Definition prepare_server : InstM () :=
  setup_agents_of false;;
  denied ← gets in_agentDenyList;
  deny_all denied;;
  needed "could not initialize registration" (lift (ie_Registration e);; act RegistrationStarted);;
  setup_additional;;
  logged StartDataProviders;;
  needed "could not subscribe node" subscribeNode;;
  logged SetupSubmissions;;
  logged setupExecutor.

Definition Run : InstM () :=
  set_running;;
  connect;;
  prepare_server;;
  announce;;
  logged StartMachine;;
  logged StartInternalMachines;;
  serve_requests.

Definition RunServiceHost : InstM () :=
  set_running;;
  SetComponent "service_host";;
  connect;;
  setup_agents_of true;;
  setup_additional;;
  announce;;
  serve_requests.

(** When it is told to stop processing. *)
Definition finish : InstM () := publishShutdownEvent;; Close.

Fixpoint send_alive (n : nat) (ev : Event) : InstM () :=
  match n with O => mret tt | S n => logged (PublishEvent ev);; send_alive n ev end.

(** The first [n] alive events: one event, made before the first sleep. *)
Definition publishAliveEvents (n : nat) : InstM () := λ s,
  match Lifecycle.New (ie_EventID e) (ie_now e) Alive [Identity (ie_Identity e); Version (ie_Version e); Component (eventComponent s)] with
  | Ok ev => send_alive n ev s
  | Err _ => (s, Ok tt)
  | Panic p => (s, Panic p)
  end.

(** ** All or nothing *)

(** Parts that leave the connection as it is and do only what [P] allows. *)
Definition keeps (P : action → Prop) {A} (m : InstM A) : Prop := ∀ s s' r, m s = (s', r) →
  in_connected s' = in_connected s ∧ ∃ new, in_trace s' = in_trace s ++ new ∧ Forall P new.
Definition never_fails {A} (m : InstM A) : Prop := ∀ s s' err, m s ≠ (s', Err err).

Section Keeps.
Variable P : action → Prop.

Lemma keeps_pure {A} (m : InstM A) : (∀ s, in_connected (m s).1 = in_connected s ∧ in_trace (m s).1 = in_trace s) → keeps P m.
Proof. intros H s s' r Hm. destruct (H s) as [H1 H2]. rewrite Hm in *. split; [done|]. exists []. by rewrite app_nil_r. Qed.

Lemma keeps_act a : P a → keeps P (act a).
Proof. intros Ha s s' r [= <- <-]. destruct s. cbn. split; [done|]. exists [a]. by repeat constructor. Qed.

Lemma keeps_sequence {A B} (m : InstM A) (f : A → InstM B) : keeps P m → (∀ a, keeps P (f a)) → keeps P (m ≫= f).
Proof.
  intros Hm Hf s s' r H. unfold mbind, ST_bind in H. destruct (m s) as [s1 [a|err|p]] eqn:E.
  - apply Hm in E as [H1 (n1 & H2 & H3)]. apply Hf in H as [H4 (n2 & H5 & H6)]. split; [congruence|].
    exists (n1 ++ n2). rewrite H5, H2, app_assoc. split; [done|by apply Forall_app].
  - injection H as <- <-. by eapply Hm.
  - injection H as <- <-. by eapply Hm.
Qed.

Lemma keeps_logged (m : InstM ()) : keeps P m → keeps P (logged m).
Proof.
  intros Hm. apply keeps_sequence; [|intros ?; by apply keeps_pure]. intros s s' r H. unfold attempt in H.
  destruct (m s) as [s1 [a|err|p]] eqn:E; injection H as <- <-; by eapply Hm.
Qed.
End Keeps.

Lemma logged_never_fails m : never_fails (logged m).
Proof. intros s s' err. unfold logged, attempt, mbind, ST_bind. by destruct (m s) as [s1 [a|er|p]]. Qed.

(** Parts of the startup: they go on with the connection, or fail and close it. *)
Definition preparation (a : action) : Prop :=
  match a with ConnectorMade | ConnectorClosed | EventSent _ _ | RequestsProcessed | ReadyTriggered => False | _ => True end.

Definition prepares {A} (m : InstM A) : Prop := ∀ s s' r, m s = (s', r) →
  ∃ new, in_trace s' = in_trace s ++ new ∧
    match r with
    | Err _ => in_connected s' = false ∧ ∃ q, new = q ++ [ConnectorClosed] ∧ Forall preparation q
    | _ => in_connected s' = in_connected s ∧ Forall preparation new
    end.

Lemma calm_prepares {A} (m : InstM A) : keeps preparation m → never_fails m → prepares m.
Proof.
  intros Hk Hn s s' r H. destruct (Hk s s' r H) as [H1 (new & H2 & H3)]. exists new. split; [done|].
  destruct r as [a|err|p]; [done| |done]. by destruct (Hn s s' err).
Qed.

Lemma needed_prepares what m : keeps preparation m → prepares (needed what m).
Proof.
  intros Hk s s' r H. unfold needed in H. destruct (m s) as [s1 [a|err|p]] eqn:E.
  - injection H as <- <-. destruct (Hk _ _ _ E) as [H1 (new & H2 & H3)]. by exists new.
  - destruct (Hk _ _ _ E) as [H1 (new & H2 & H3)]. unfold Close, act, modify, throw, mbind, ST_bind in H. injection H as <- <-.
    destruct s1. cbn in *. exists (new ++ [ConnectorClosed]). rewrite H2, app_assoc. split; [done|]. split; [done|]. by exists new.
  - injection H as <- <-. destruct (Hk _ _ _ E) as [H1 (new & H2 & H3)]. by exists new.
Qed.

Lemma prepares_bind {A B} (m : InstM A) (f : A → InstM B) : prepares m → (∀ a, prepares (f a)) → prepares (m ≫= f).
Proof.
  intros Hm Hf s s' r H. unfold mbind, ST_bind in H. destruct (m s) as [s1 [a|err|p]] eqn:E.
  2-3: injection H as <- <-; exact (Hm _ _ _ E).
  destruct (Hm _ _ _ E) as (n1 & H1 & H2 & H3). destruct (Hf a _ _ _ H) as (n2 & H4 & H5). exists (n1 ++ n2).
  rewrite H4, H1, app_assoc. split; [done|]. destruct r as [b|err|p].
  - destruct H5 as [H5 H6]. split; [congruence|by apply Forall_app].
  - destruct H5 as [H5 (q & -> & H6)]. split; [done|]. exists (n1 ++ q). rewrite app_assoc. split; [done|by apply Forall_app].
  - destruct H5 as [H5 H6]. split; [congruence|by apply Forall_app].
Qed.

(** The parts of the server. *)
Ltac keeping :=
  repeat match goal with
  | |- keeps _ (_ ≫= _) => apply keeps_sequence; [|intros ?]
  | |- keeps _ (logged _) => apply keeps_logged
  | |- keeps _ (act _) => apply keeps_act; exact I
  | |- keeps _ (lift _) => by apply keeps_pure
  | |- keeps _ (gets _) => by apply keeps_pure
  | |- keeps _ (throw _) => by apply keeps_pure
  | |- keeps _ (mret _) => by apply keeps_pure
  | |- keeps _ (if ?b then _ else _) => destruct b
  | |- keeps _ (modify _) => apply keeps_pure; by intros []
  end.

Lemma providers_keep l : keeps preparation (setup_providers l).
Proof. induction l as [|[v r] l IH]; cbn [setup_providers]; keeping; exact IH. Qed.

Lemma agents_keep l : ∀ i, keeps preparation (setup_agents i l).
Proof. induction l as [|r l IH]; intros i; cbn [setup_agents]; keeping; apply IH. Qed.

Lemma deny_keeps l : keeps preparation (deny_all l) ∧ never_fails (deny_all l).
Proof.
  induction l as [|a l [IH1 IH2]]; cbn [deny_all]; [by split; [apply keeps_pure|intros ???]|].
  split; [keeping; exact IH1|]. intros s s' err H. unfold mbind, ST_bind, act, modify in H. by eapply IH2.
Qed.

Lemma subscribe_keeps l : keeps preparation (subscribe_collectives l).
Proof.
  induction l as [|c l IH]; cbn [subscribe_collectives]; keeping; [|exact IH].
  apply keeps_pure. intros s. destruct (QueueSubscribe _ _ _ _ _). by destruct s.
Qed.

Lemma subscribed_all l : ∀ s s', subscribe_collectives l s = (s', Ok tt) → ∀ c, c ∈ l → NodeSubscribed c ∈ in_trace s'.
Proof.
  induction l as [|c l IH]; intros s s' H c' Hc'; [by apply elem_of_nil in Hc'|]. cbn [subscribe_collectives] in H.
  apply ST_bind_Ok in H as (s1 & [] & _ & H). apply ST_bind_Ok in H as (s2 & [] & Ha & H). injection Ha as Ha.
  apply elem_of_cons in Hc' as [->|Hc']; [|by eapply IH]. destruct (subscribe_keeps l _ _ _ H) as [_ (new & -> & _)].
  rewrite <- Ha. destruct s1. cbn. set_solver.
Qed.

Lemma act_prepares a : preparation a → prepares (act a).
Proof. intros Ha. apply calm_prepares; [by apply keeps_act|by intros s s' err]. Qed.

Lemma logged_prepares m : keeps preparation m → prepares (logged m).
Proof. intros Hm. apply calm_prepares; [by apply keeps_logged|apply logged_never_fails]. Qed.

Lemma additional_prepares : prepares setup_additional.
Proof. apply prepares_bind; [|intros ?]; apply needed_prepares; [apply providers_keep|apply agents_keep]. Qed.

#[local] Opaque logged setup_additional.
Lemma prepare_server_prepares : prepares prepare_server.
Proof.
  unfold prepare_server, setup_agents_of. repeat (apply prepares_bind; [|intros ?]).
  - by apply act_prepares.
  - by apply act_prepares.
  - apply calm_prepares; [by apply keeps_pure|by intros s s' err].
  - apply calm_prepares; apply deny_keeps.
  - apply needed_prepares. keeping.
  - apply additional_prepares.
  - apply logged_prepares. unfold StartDataProviders. keeping.
  - apply needed_prepares, subscribe_keeps.
  - apply logged_prepares. unfold SetupSubmissions. keeping.
  - apply logged_prepares. unfold setupExecutor. keeping.
Qed.
#[local] Transparent logged setup_additional.

(** What is done once the server is announced. *)
Definition announced (a : action) : Prop := match a with ConnectorClosed | RequestsProcessed | ReadyTriggered => False | _ => True end.

Lemma publish_event_keeps t opts : keeps announced (publish_event t opts).
Proof.
  intros s s' r H. unfold publish_event in H. eapply keeps_logged in H; [exact H|].
  apply keeps_sequence; [by apply keeps_pure|]. intros ev s1 s2 r1 H1.
  unfold PublishEvent in H1. destruct (Lifecycle.PublishEvent _ _ _) as [sent r2]. injection H1 as <- <-. destruct s1. cbn.
  split; [done|]. eexists. split; [reflexivity|]. apply Forall_fmap, Forall_true. by intros [].
Qed.

Lemma announce_keeps : keeps announced announce.
Proof. unfold announce. apply keeps_sequence; [apply publish_event_keeps|intros ?]. by apply keeps_act. Qed.

Lemma machines_keep : keeps announced (logged StartMachine).
Proof. unfold StartMachine. keeping. Qed.

Lemma internal_machines_keep : keeps announced (logged StartInternalMachines).
Proof. unfold StartInternalMachines. keeping. Qed.

#[local] Opaque logged setup_additional needed.
Lemma prepared_subscribed s s' : prepare_server s = (s', Ok tt) → ∀ c, c ∈ ie_Collectives e → NodeSubscribed c ∈ in_trace s'.
Proof.
  intros H c Hc. unfold prepare_server in H. do 6 (apply ST_bind_Ok in H as (? & ? & _ & H)).
  apply ST_bind_Ok in H as (s1 & [] & Hn & H).
  assert (NodeSubscribed c ∈ in_trace s1) as Hs1.
  { Transparent needed. unfold needed in Hn. destruct (subscribeNode _) as [s2 [[]|err|p]] eqn:Hs; [|done..]. injection Hn as <-.
    exact (subscribed_all _ _ _ Hs c Hc). }
  assert (keeps preparation (logged SetupSubmissions ≫= λ _, logged setupExecutor)) as Hk.
  { apply keeps_sequence; [|intros ?]; apply keeps_logged; unfold SetupSubmissions, setupExecutor; keeping. }
  destruct (Hk _ _ _ H) as [_ (new & -> & _)]. set_solver.
Qed.
#[local] Transparent logged setup_additional needed.

Lemma connect_spec s s' r : connect s = (s', r) →
  match r with
  | Ok _ => in_trace s' = in_trace s ++ [ConnectorMade] ∧ in_connected s' = true
  | Err _ => s' = s
  | Panic _ => True
  end.
Proof.
  unfold connect, initialConnect, mbind, ST_bind, lift, modify, act, throw. destruct (ie_interrupted e); [by intros [= <- <-]|].
  destruct (ie_NewConnector e); intros [= <- <-]; [by destruct s|done..].
Qed.

(** C18. A server starts whole or not at all. When it starts it is connected, subscribed to
    its node in every collective, and processes requests, once everything else was done,
    only the ready function excepted; when it does not, its connection is closed if there
    was one, no request is processed and no event was sent. *)
Theorem server_starts_whole_or_not (s s' : Instance) (r : res ()) :
  in_trace s = [] → in_connected s = false → Run s = (s', r) →
  match r with
  | Ok _ => in_connected s' = true ∧ (∀ c, c ∈ ie_Collectives e → NodeSubscribed c ∈ in_trace s') ∧
      ∃ before after, in_trace s' = before ++ RequestsProcessed :: after ∧ Forall (λ a, a = ReadyTriggered) after ∧
        Forall (λ a, match a with ConnectorClosed | RequestsProcessed | ReadyTriggered => False | _ => True end) before
  | Err _ => in_connected s' = false ∧ Forall (λ a, match a with RequestsProcessed | EventSent _ _ => False | _ => True end) (in_trace s')
  | Panic _ => True
  end.
Proof.
  intros Ht Hc H. unfold Run in H. unfold mbind at 1, ST_bind at 1 in H.
  change (set_running s) with (s <| in_running := true |>, Ok tt : res ()) in H. cbv iota beta in H.
  unfold mbind at 1, ST_bind at 1 in H.
  destruct (connect (s <| in_running := true |>)) as [s1 o1] eqn:H1. apply connect_spec in H1.
  assert (in_trace (s <| in_running := true |>) = [] ∧ in_connected (s <| in_running := true |>) = false) as [Ht0 Hc0] by by destruct s.
  destruct o1 as [[]|err|p]; [| |by injection H as <- <-].
  2: { injection H as <- <-. rewrite H1, Ht0. by split. }
  destruct H1 as [Ht1 Hc1]. rewrite Ht0 in Ht1. cbn in Ht1. clear s Ht Hc Ht0 Hc0.
  unfold mbind at 1, ST_bind at 1 in H.
  destruct (prepare_server s1) as [s2 o] eqn:Hp. destruct (prepare_server_prepares _ _ _ Hp) as (new & Ht2 & H2).
  destruct o as [[]|err|p]; [| |by injection H as <- <-].
  2: { injection H as <- <-. destruct H2 as [Hc2 (q & -> & Hq)]. split; [done|]. rewrite Ht2, Ht1. constructor; [done|].
       apply Forall_app. split; [|by repeat constructor]. eapply Forall_impl; [exact Hq|]. by intros []. }
  destruct H2 as [Hc2 Hnew]. pose proof (prepared_subscribed _ _ Hp) as Hsub.
  assert (keeps announced (announce;; logged StartMachine;; logged StartInternalMachines)) as Hk.
  { apply keeps_sequence; [apply announce_keeps|intros ?]. apply keeps_sequence; [apply machines_keep|intros ?]. apply internal_machines_keep. }
  assert (never_fails (announce;; logged StartMachine;; logged StartInternalMachines)) as Hn.
  { intros x x' err Hx. unfold mbind, ST_bind in Hx. unfold announce, publishStartupEvent, publish_event, mbind, ST_bind in Hx.
    repeat case_match; simplify_eq; try (by eapply logged_never_fails). }
  assert (Hassoc : (announce ≫= λ _, logged StartMachine ≫= λ _, logged StartInternalMachines ≫= λ _, serve_requests) s2 =
    ((announce;; logged StartMachine;; logged StartInternalMachines) ≫= λ _, serve_requests) s2).
  { unfold mbind, ST_bind. by repeat case_match; simplify_eq. }
  rewrite Hassoc in H. unfold mbind at 1, ST_bind at 1 in H. clear Hassoc.
  destruct ((announce;; logged StartMachine;; logged StartInternalMachines) s2) as [s3 o] eqn:H3.
  destruct (Hk _ _ _ H3) as [Hc3 (new3 & Ht3 & Hf3)]. destruct o as [[]|err|p]; [|by eapply Hn in H3|by injection H as <- <-].
  unfold serve_requests, triggerReadyFunc, mbind, ST_bind, act, modify in H.
  assert (∃ after, in_trace s' = in_trace s3 ++ RequestsProcessed :: after ∧ Forall (λ a, a = ReadyTriggered) after ∧ in_connected s' = in_connected s3 ∧ r = Ok tt)
    as (after & Ht' & Haf & Hc' & ->).
  { destruct s3. cbn in H. destruct (negb _ || _); injection H as <- <-; cbn.
    - exists []. by split_and!.
    - exists [ReadyTriggered]. rewrite <- app_assoc. by repeat constructor. }
  split; [congruence|]. split.
  - intros c Hin. rewrite Ht', Ht3. apply Hsub in Hin. set_solver.
  - exists (in_trace s3), after. split; [done|]. split; [done|]. rewrite Ht3, Ht2, Ht1. cbn. constructor; [done|].
    apply Forall_app. split; [eapply Forall_impl; [exact Hnew|]; by intros []|exact Hf3].
Qed.
End Instance.

(** ** Witness *)

Definition demo_instance_env (registration : res ()) : instance_env := {|
  ie_ProvisionMode := false; ie_Identity := "n1"; ie_Collectives := ["mcollective"; "eu"]; ie_Version := "0.29";
  ie_LegacyLifeCycleFormat := false; ie_interrupted := false; ie_NewConnector := Ok tt; ie_Registration := registration;
  ie_AgentProviders := [("Choria", Ok tt)]; ie_AdditionalAgents := [Ok tt]; ie_DataManager := Ok tt;
  ie_network := {| ChanQueueSubscribe_ok := λ _ _, true; Flush_ok := λ _, true; Unsubscribe_answer := λ _, UnsubOk |};
  ie_SubmissionSpool := ""; ie_Submissions := Ok tt; ie_ExecutorEnabled := true; ie_ExecutorSpool := "/spool";
  ie_MkdirAll := λ _, Err "read-only file system"; ie_MachineSourceDir := ""; ie_FileIsDir := λ _, false; ie_AAgent := Ok tt;
  ie_ManageMachines := Ok tt; ie_AutonomousAgentsDownload := true; ie_ChoriaPlugin := Ok tt; ie_LoadPlugin := Ok tt;
  ie_EventID := "id"; ie_now := 7; ie_Publish := λ _ _, Ok tt |}.

Definition demo_started : Instance * res () := Run (demo_instance_env (Ok tt)) NewInstance.

Lemma demo_started_ok : ∃ s, demo_started = (s, Ok tt) ∧ length (in_trace s) = 12.
Proof.
  assert (demo_started.2 = Ok tt ∧ length (in_trace demo_started.1) = 12) as [Ho Hl] by (split; vm_compute; reflexivity).
  revert Ho Hl. destruct demo_started as [s o]. cbn. intros -> Hl. by exists s.
Qed.

Lemma server_starts_whole_or_not_witness :
  (∃ s, demo_started = (s, Ok tt) ∧ length (in_trace s) = 12 ∧ in_connected s = true ∧ NodeSubscribed "eu" ∈ in_trace s) ∧
  ∃ s err, Run (demo_instance_env (Err "unknown plugin")) NewInstance = (s, Err err) ∧ in_connected s = false.
Proof.
  split.
  - destruct demo_started_ok as (s & Hs & Hl). exists s. split; [exact Hs|]. split; [exact Hl|].
    destruct (server_starts_whole_or_not (demo_instance_env (Ok tt)) NewInstance s (Ok tt) eq_refl eq_refl Hs) as (Hc & Hn & _).
    split; [exact Hc|]. apply Hn. apply elem_of_cons. right. by apply list_elem_of_singleton.
  - destruct (Run (demo_instance_env (Err "unknown plugin")) NewInstance) as [s [[]|err|p]] eqn:Hr; [|exists s, err; split; [done|]|].
    + apply (f_equal snd) in Hr. vm_compute in Hr. discriminate Hr.
    + exact (proj1 (server_starts_whole_or_not (demo_instance_env (Err "unknown plugin")) NewInstance s (Err err) eq_refl eq_refl Hr)).
    + apply (f_equal snd) in Hr. vm_compute in Hr. discriminate Hr.
Defined.

(** A host of services has no data providers: a request it gets with a compound filter,
    which asks for them, ends it. *)
Example service_host_has_no_data :
  let '(s, r) := RunServiceHost (demo_instance_env (Ok tt)) NewInstance in
  r = Ok tt ∧ DataFuncMap (demo_instance_env (Ok tt)) s = Panic "nil pointer dereference".
Proof. vm_compute. by split. Qed.

(** Every alive event is the first one: its identifier and its time are those of the start. *)
Example alive_events_are_one : ∃ target event,
  in_trace (publishAliveEvents (demo_instance_env (Ok tt)) 3 NewInstance).1 =
  [EventSent target event; EventSent target event; EventSent target event].
Proof. eexists _, _. vm_compute. reflexivity. Qed.
