(* ===== verification/MachinesWatcher.v ===== *)
(** * The machines watcher

    aagent/watchers/machineswatcher: a signed list of machines, found in a machine's data, is
    turned into manager machines next to it, and those not listed are removed.  The list's
    encoding, signatures, the expression language and the template are arguments;
    directories are a tree. *)
From S2P Require Import Prelude Regex ArchiveWatcher GoLib Files Util Tree Sha256Sums Machine Watchers PluginsWatcher.

Inductive State := Unknown | Skipped | Error | Updated | Unchanged.

Definition stateNames (s : State) : string :=
  match s with
  | Unknown => "unknown" | Skipped => "skipped" | Error => "error" | Updated => "updated" | Unchanged => "unchanged"
  end.

(** [sp_Machines] holds base64 encoded text. *)
Record Specification := { sp_Machines : string; sp_Signature : string }.

Record ManagedMachine := {
  mm_Name : string;
  mm_Source : string;
  mm_Username : string;
  mm_Password : string;
  mm_ContentChecksumsChecksum : string;
  mm_ArchiveChecksum : string;
  mm_Matcher : string;
  mm_Governor : string;
  mm_Interval : string;
  mm_Target : string;
}.

Record Properties := {
  p_DataItem : string;
  p_PurgeUnknown : bool;
  p_MachineManageInterval : Z;
  p_PublicKey : string;
}.

Definition validate (machine_directory : string) (p : Properties) : res Properties :=
  if String.eqb (p_DataItem p) "" then Err "data_item is required"
  else if String.eqb machine_directory "" then Err "machine store is not configured"
  else Ok (if (p_MachineManageInterval p =? 0)%Z
           then {| p_DataItem := p_DataItem p; p_PurgeUnknown := p_PurgeUnknown p;
                   p_MachineManageInterval := 2 * Minute; p_PublicKey := p_PublicKey p |}
           else p).

Definition set_key (k : string) (p : Properties) : Properties :=
  {| p_DataItem := p_DataItem p; p_PurgeUnknown := p_PurgeUnknown p;
     p_MachineManageInterval := p_MachineManageInterval p; p_PublicKey := k |}.

(** [compiled] is the key of the build. *)
Definition setProperties (compiled machine_directory : string) (rawprop : res Properties) : res Properties :=
  p ← rawprop;
  validate machine_directory (if String.eqb compiled "" then p else set_key compiled p).

Record MachinesWatcher := {
  mw_base : Watcher;
  mw_properties : Properties;
  mw_interval : Z;
  mw_previous : State;
  mw_previousManaged : list ManagedMachine;
}.

(** The signing key of the machine wins over the others. *)
Definition NewMachines `{TimeLib} (compiled machine_directory signer_key name : string) (states : list string)
    (required : list ForeignMachineState) (failEvent successEvent interval : string) (ai : Z) (rawprop : res Properties) :
    res MachinesWatcher :=
  base ← NewWatcher name "machines" ai states required true failEvent successEvent;
  props ← map_err (λ e, "could not set properties: " +:+ e) (setProperties compiled machine_directory rawprop);
  i ← (if String.eqb interval "" then Ok 0%Z
       else
         i ← map_err (λ e, "invalid interval: " +:+ e) (ParseDuration interval);
         if (i <? 2 * Second)%Z then Err ("interval " +:+ RenderDuration i +:+ " is too small") else Ok i);
  Ok {| mw_base := base; mw_properties := if String.eqb signer_key "" then props else set_key signer_key props;
        mw_interval := i; mw_previous := Unknown; mw_previousManaged := [] |}.

(** Signatures and the encodings of a specification in values of type [V]. *)
Class MachinesLib (V : Type) := {
  mm_Verify : string → string → string → bool;
  decode_machines : V → res Specification;
  (** [null] entries of the list are [None] *)
  json_machines : string → res (list (option ManagedMachine));
}.

(** [ed25519.Verify], which panics on keys of another size than its own. *)
Definition verify_or_panic `{MachinesLib V} (pk payload sig : string) : res bool :=
  if Nat.eqb (String.length pk) 32 then Ok (mm_Verify pk payload sig)
  else Panic ("ed25519: bad public key length: " +:+ itoa (Z.of_nat (String.length pk))).

(** What the world answers to one watch; the errors of calls on a path. *)
Record machines_env := {
  mn_Match : string → res bool;
  mn_render : ManagedMachine → res string;
  mn_duration_String : Z → string;
  mn_RemoveAll : string → res ();
  mn_MkdirAll : string → res ();
  mn_WriteFile : string → res ();
}.

Section Watch.
Context `{SH : Sha256} {M V : Type} `{WH : WatcherHost M V} `{ML : MachinesLib V}.
Variable e : machines_env.

Abbreviation TreeM := (ST tree string).

Definition isNodeMatch (m : ManagedMachine) : res bool :=
  if String.eqb (mm_Matcher m) "" then Ok true else mn_Match e (mm_Matcher m).

Definition targetDirForManagerMachine (machine_directory m : string) : string :=
  path_join [path_dir machine_directory; "mm_" +:+ m].

Definition targetDirForManagedMachine (machine_directory m : string) : string :=
  path_join [path_dir machine_directory; m].

Definition currentMachines (machine_directory : string) (t : tree) : res (list string) :=
  dirs ← ReadDir_dirs (path_dir machine_directory) t;
  Ok (omap (λ d, match cut_underscore d with
                 | Some (a, b) => if String.eqb a "mm" then Some b else None
                 | None => None
                 end) (dirs : list string)).

Definition keeps (desired : list ManagedMachine) (m : string) : bool :=
  existsb (λ d, negb (String.eqb (mm_Name d) "") && String.eqb m (mm_Name d) &&
                match isNodeMatch d with Ok b => b | _ => false end) desired.

Definition remove (path : string) : TreeM bool :=
  match mn_RemoveAll e path with
  | Ok _ => modify (RemoveAll path);; mret true
  | Err _ => mret false
  | Panic p => panic p
  end.

(** How the sleep between the two ends makes no difference. *)
Fixpoint purge_loop (dir : string) (desired : list ManagedMachine) (current : list string) (purged : bool) : TreeM bool :=
  match current with
  | [] => mret purged
  | m :: rest =>
      if keeps desired m then purge_loop dir desired rest purged
      else
        ok ← remove (targetDirForManagerMachine dir m);
        if negb ok then purge_loop dir desired rest purged
        else
          ok ← remove (targetDirForManagedMachine dir m);
          purge_loop dir desired rest (if (ok : bool) then true else purged)
  end.

Definition purgeUnknownMachines (dir : string) (desired : list ManagedMachine) : TreeM bool :=
  t ← gets id;
  current ← lift (currentMachines dir t);
  purge_loop dir desired current false.

(** Makes the directory and writes the machine: whether it did. *)
Definition write_machine (targetDir spec : string) : TreeM bool := λ t,
  match mn_MkdirAll e targetDir, MkdirAll targetDir t with
  | Ok _, Ok t1 =>
      match mn_WriteFile e (path_join [targetDir; "machine.yaml"]), WriteFile (path_join [targetDir; "machine.yaml"]) spec t1 with
      | Ok _, Ok t2 => (t2, Ok true)
      | _, _ => (match mn_RemoveAll e targetDir with Ok _ => RemoveAll targetDir t1 | _ => t1 end, Ok false)
      end
  | _, _ => (t, Ok false)
  end.

(** One desired machine: whether its manager was written. *)
Definition manage_machine (dir : string) (m : ManagedMachine) : TreeM bool :=
  if String.eqb (mm_Name m) "" then mret false
  else
    match isNodeMatch m, mn_render e m with
    | Ok true, Ok spec =>
        let targetDir := targetDirForManagerMachine dir (mm_Name m) in
        let target := path_join [targetDir; "machine.yaml"] in
        t ← gets id;
        if FileExist t target then
          match FileHasSha256Sum t target (Sha256HashBytes spec) with
          | Ok (false, _) =>
              ok ← remove targetDir;
              if (ok : bool) then write_machine targetDir spec else throw ("could not remove " +:+ targetDir)
          | _ => mret false
          end
        else write_machine targetDir spec
    | _, _ => mret false
    end.

Fixpoint manage_loop (dir : string) (desired : list ManagedMachine) (updated : bool) : TreeM bool :=
  match desired with
  | [] => mret updated
  | m :: rest =>
      wrote ← manage_machine dir m;
      manage_loop dir rest (updated || wrote)
  end.

(** ** The desired machines *)

Definition drop_data (p : Properties) {A} : ST M string A :=
  attempt (host_DataDelete (p_DataItem p));; throw "invalid data_item".

(** The signature is one of the decoded payload. *)
Definition loadAndValidateData (p : Properties) : ST M string string :=
  dat ← gets (host_DataGet (p_DataItem p));
  match dat with
  | None => throw ("data item " +:+ p_DataItem p +:+ " not present")
  | Some dat =>
      spec ← lift (decode_machines dat);
      match b64_decode (sp_Machines spec) with
      | None => drop_data p
      | Some payload =>
          if String.eqb (p_PublicKey p) "" then mret payload
          else if String.eqb (sp_Signature spec) "" then drop_data p
          else
            match hex_decode (p_PublicKey p), hex_decode (sp_Signature spec) with
            | None, _ => throw "invalid data_item"
            | Some _, None => drop_data p
            | Some pk, Some sig =>
                ok ← lift (verify_or_panic pk payload sig);
                if (ok : bool) then mret payload else drop_data p
            end
      end
  end.

(** The first missing property of a machine. *)
Definition check_machine (m : ManagedMachine) : res () :=
  if String.eqb (mm_Name m) "" then Err "name is required"
  else if String.eqb (mm_Source m) "" then Err ("source is required for " +:+ mm_Name m)
  else if String.eqb (mm_ArchiveChecksum m) "" then Err ("checksum is required for " +:+ mm_Name m)
  else if String.eqb (mm_Target m) "" then Err ("could not determine target for managed machine for " +:+ mm_Name m)
  else if String.eqb (mm_ContentChecksumsChecksum m) "" then Err ("verify_checksum is required for " +:+ mm_Name m)
  else Ok tt.

Definition set_context (interval target : string) (m : ManagedMachine) : ManagedMachine :=
  {| mm_Name := mm_Name m; mm_Source := mm_Source m; mm_Username := mm_Username m; mm_Password := mm_Password m;
     mm_ContentChecksumsChecksum := mm_ContentChecksumsChecksum m; mm_ArchiveChecksum := mm_ArchiveChecksum m;
     mm_Matcher := mm_Matcher m; mm_Governor := mm_Governor m; mm_Interval := interval; mm_Target := target |}.

(** A [null] in the list is dereferenced. *)
Fixpoint check_machines (dir : string) (p : Properties) (l : list (option ManagedMachine)) : res (list ManagedMachine) :=
  match l with
  | [] => Ok []
  | None :: _ => Panic "invalid memory address or nil pointer dereference"
  | Some m :: rest =>
      let m := set_context (mn_duration_String e (p_MachineManageInterval p)) (path_dir dir) m in
      check_machine m;;
      ms ← check_machines dir p rest;
      Ok (m :: ms)
  end.

Definition desiredState (dir : string) (p : Properties) : ST M string (list ManagedMachine) :=
  data ← loadAndValidateData p;
  desired ← lift (map_err (λ err, "invalid machines specification: " +:+ err) (json_machines data));
  lift (check_machines dir p desired).

(** The machine, the directories and the machines last desired. *)
Abbreviation World := (M * tree * list ManagedMachine)%type.
Definition on_machine {A} (f : ST M string A) : ST World string A := λ w,
  let '(m, o) := f w.1.1 in ((m, w.1.2, w.2), o).
Definition on_tree {A} (f : TreeM A) : ST World string A := λ w,
  let '(t, o) := f w.1.2 in ((w.1.1, t, w.2), o).

Definition watch (w : MachinesWatcher) : ST World string State :=
  let p := mw_properties w in
  v ← gets (λ x, host_view x.1.1);
  if negb (ShouldWatch (Some v) (mw_base w)) then mret Skipped
  else
    dir ← gets (λ x, host_Directory x.1.1);
    desired ← on_machine (desiredState dir p);
    modify (λ x, (x.1, desired));;
    purged ← (if p_PurgeUnknown p then on_tree (purgeUnknownMachines dir desired) else mret false);
    updated ← on_tree (manage_loop dir desired false);
    mret (if purged || updated then Updated else Unchanged).

Definition handleCheck (w : MachinesWatcher) (s : State) : ST M string () :=
  let notify := modify (host_NotifyWatcherState (wt_name (mw_base w)) (stateNames s)) in
  match s with
  | Error => notify;; fire_event (FailureTransition (mw_base w))
  | Updated => notify;; fire_event (SuccessTransition (mw_base w))
  | _ => mret tt
  end.

(** The time of the last watch is never set: the interval holds nothing back. *)
Definition performWatch (w : MachinesWatcher) : ST (M * tree) string MachinesWatcher := λ mt,
  match watch w (mt, mw_previousManaged w) with
  | (x, Panic why) => (x.1, Panic why)
  | (x, o) =>
      let s := match o with Ok s => s | _ => Error end in
      match handleCheck w s x.1.1 with
      | (m, Panic why) => ((m, x.1.2), Panic why)
      | (m, _) => ((m, x.1.2), Ok {| mw_base := mw_base w; mw_properties := mw_properties w; mw_interval := mw_interval w;
                                     mw_previous := s; mw_previousManaged := x.2 |})
      end
  end.

End Watch.

(** * The machines watcher: properties

    Only a signed list changes anything, what a purge removes, and that managers are written
    as the plugins watcher writes them. *)

Section Props.
Context `{SH : Sha256} {M V : Type} `{WH : WatcherHost M V} `{ML : MachinesLib V}.
Variable e : machines_env.

(** ** Signatures *)

(** The list in the data of the machine is [payload], signed by the key of the watcher. *)
Definition signed_machines (p : Properties) (m : M) (payload : string) : Prop :=
  ∃ dat spec pk sig, host_DataGet (p_DataItem p) m = Some dat ∧ decode_machines dat = Ok spec ∧
    b64_decode (sp_Machines spec) = Some payload ∧
    hex_decode (p_PublicKey p) = Some pk ∧ String.length pk = 32 ∧ hex_decode (sp_Signature spec) = Some sig ∧
    mm_Verify pk payload sig = true.

Lemma drop_data_fails p {A} (m : M) : is_ok (drop_data p (A := A) m).2 = false.
Proof. unfold drop_data, attempt, mbind, ST_bind. by destruct (host_DataDelete _ m) as [m1 [?|?|?]]. Qed.

Lemma load_authentic p m m' payload : p_PublicKey p ≠ "" → loadAndValidateData p m = (m', Ok payload) →
  signed_machines p m payload ∧ m' = m.
Proof.
  intros Hk. unfold loadAndValidateData, gets. unfold mbind at 1, ST_bind at 1.
  destruct (host_DataGet (p_DataItem p) m) as [dat|] eqn:Hd; [|done]. unfold mbind at 1, ST_bind at 1, lift at 1.
  destruct (decode_machines dat) as [spec|?|?] eqn:Hs; [|done..].
  assert (∀ o, drop_data p (A := string) m = (m', Ok o) → False) as Hdrop.
  { intros o Ho. pose proof (drop_data_fails p (A := string) m) as Hf. by rewrite Ho in Hf. }
  destruct (b64_decode (sp_Machines spec)) as [pl|] eqn:Hb; [|by intros ?%Hdrop].
  rewrite (proj2 (String.eqb_neq _ _) Hk). destruct (String.eqb (sp_Signature spec) ""); [by intros ?%Hdrop|].
  destruct (hex_decode (p_PublicKey p)) as [pk|] eqn:Hpk; [|done].
  destruct (hex_decode (sp_Signature spec)) as [sig|] eqn:Hsig; [|by intros ?%Hdrop].
  unfold mbind, ST_bind, lift, verify_or_panic. destruct (Nat.eqb_spec (String.length pk) 32) as [Hl|]; [|done].
  destruct (mm_Verify pk pl sig) eqn:Hv; [|by intros ?%Hdrop].
  intros [= <- <-]. split; [|done]. by exists dat, spec, pk, sig.
Qed.

Lemma machine_keeps_tree {A} (f : ST M string A) (x : M * tree * list ManagedMachine) : (on_machine f x).1.1.2 = x.1.2.
Proof. unfold on_machine. by destruct (f x.1.1). Qed.

(** With a key configured nothing on disk changes, however the watch ends, unless the list in
    the machine's data carries a signature of that key over what its text decodes to. *)
Theorem machines_need_a_signature (w : MachinesWatcher) (m m' : M) (t t' : tree) o :
  p_PublicKey (mw_properties w) ≠ "" → (∀ payload, ¬ signed_machines (mw_properties w) m payload) →
  performWatch e w (m, t) = ((m', t'), o) → t' = t.
Proof.
  intros Hk Hns Hp. unfold performWatch in Hp.
  assert ((watch e w (m, t, mw_previousManaged w)).1.1.2 = t) as Ht.
  { unfold watch, gets. unfold mbind at 1, ST_bind at 1. destruct (negb _); [done|].
    unfold mbind at 1, ST_bind at 1. unfold mbind at 1, ST_bind at 1. cbn [fst snd].
    pose proof (machine_keeps_tree (desiredState e (host_Directory m) (mw_properties w)) (m, t, mw_previousManaged w)) as Ho.
    destruct (on_machine _ _) as [x [l|?|?]] eqn:Ed; [|exact Ho..]. exfalso.
    unfold on_machine, desiredState in Ed. cbn [fst snd] in Ed. unfold mbind at 1, ST_bind at 1 in Ed.
    destruct (loadAndValidateData (mw_properties w) m) as [m1 [data|?|?]] eqn:El; [|done..].
    apply load_authentic in El as [Hs _]; [|done]. by apply (Hns data). }
  destruct (watch e w (m, t, mw_previousManaged w)) as [[[m1 t1] l] r]. cbn in Ht. subst t1.
  destruct r as [s|?|?]; [| |by simplify_eq/=];
    (cbn [fst snd] in Hp; destruct (handleCheck w _ m1) as [m2 [?|?|?]]; by simplify_eq/=).
Qed.

(** A key that is hexadecimal but not of the size of a key: the first list with a
    signature stops the server. *)
Theorem wrong_size_key_stops_server (w : MachinesWatcher) (m : M) (t : tree) dat spec payload pk sig :
  ShouldWatch (Some (host_view m)) (mw_base w) = true →
  host_DataGet (p_DataItem (mw_properties w)) m = Some dat → decode_machines dat = Ok spec →
  b64_decode (sp_Machines spec) = Some payload → sp_Signature spec ≠ "" → hex_decode (sp_Signature spec) = Some sig →
  p_PublicKey (mw_properties w) ≠ "" → hex_decode (p_PublicKey (mw_properties w)) = Some pk → String.length pk ≠ 32 →
  is_panic (performWatch e w (m, t)).2 = true.
Proof.
  intros Hw Hd Hs Hb Hne Hsig Hk Hpk Hl.
  assert (∃ why, loadAndValidateData (mw_properties w) m = (m, Panic why)) as [why Hload].
  { eexists. unfold loadAndValidateData, gets, mbind, ST_bind, lift. rewrite Hd, Hs, Hb.
    rewrite (proj2 (String.eqb_neq _ _) Hk), (proj2 (String.eqb_neq _ _) Hne), Hpk, Hsig. unfold verify_or_panic.
    by rewrite (proj2 (Nat.eqb_neq _ _) Hl). }
  unfold performWatch, watch, gets, on_machine, desiredState, mbind, ST_bind. cbn [fst snd].
  rewrite Hw. cbn [negb fst snd]. by rewrite Hload.
Qed.

(** ** Purging *)

Section Purge.
Variable dir : string.
Variable desired : list ManagedMachine.

(** What the purge of a manager removes. *)
Definition purged_paths (m q : string) : bool :=
  inside (targetDirForManagerMachine dir m) q || inside (targetDirForManagedMachine dir m) q.
Definition unwanted (m : string) : bool := negb (keeps e desired m).

Lemma remove_ok q t : mn_RemoveAll e q = Ok tt → remove e q t = (RemoveAll q t, Ok true).
Proof. intros H. unfold remove. by rewrite H. Qed.

Lemma purge_loop_spec current purged t : (∀ q, mn_RemoveAll e q = Ok tt) →
  ∃ t', purge_loop e dir desired current purged t = (t', Ok (purged || existsb unwanted current)) ∧
    ∀ q, t' !! q = if existsb (λ m, unwanted m && purged_paths m q) current then None else t !! q.
Proof.
  intros Hrm. revert purged t. induction current as [|m rest IH]; intros purged t.
  { exists t. cbn. by rewrite orb_false_r. }
  cbn [purge_loop existsb]. unfold unwanted at 1 3. destruct (keeps e desired m) eqn:Hkeep; cbn [negb orb andb]; [apply IH|].
  unfold mbind, ST_bind. rewrite remove_ok by apply Hrm. cbn [negb]. rewrite remove_ok by apply Hrm.
  destruct (IH true (RemoveAll (targetDirForManagedMachine dir m) (RemoveAll (targetDirForManagerMachine dir m) t)))
    as (t' & Ht & Hq).
  exists t'. split; [rewrite Ht; by destruct purged|]. intros q. rewrite Hq, !RemoveAll_lookup.
  destruct (existsb (λ m0, unwanted m0 && purged_paths m0 q) rest); [by rewrite orb_true_r|].
  rewrite orb_false_r. unfold purged_paths, inside.
  by destruct (String.eqb q (targetDirForManagedMachine dir m) || _), (String.eqb q (targetDirForManagerMachine dir m) || _).
Qed.

(** When files can be removed, a purge removes the managers that are not wanted and the
    machines of their names, with all that is in them, and nothing else. *)
Theorem purge_removes_exactly current (t : tree) : (∀ q, mn_RemoveAll e q = Ok tt) → currentMachines dir t = Ok current →
  ∃ t', purgeUnknownMachines e dir desired t = (t', Ok (existsb unwanted current)) ∧
    ∀ q, t' !! q = if existsb (λ m, unwanted m && purged_paths m q) current then None else t !! q.
Proof.
  intros Hrm Hc. unfold purgeUnknownMachines, gets, lift, mbind, ST_bind. cbn [id]. rewrite Hc.
  by apply (purge_loop_spec current false t).
Qed.

Lemma child_inside a b q : clean_dir (path_dir dir) → simple_name a → simple_name b →
  inside (path_join [path_dir dir; a]) q = true → inside (path_join [path_dir dir; b]) q = true → a = b.
Proof.
  intros Hd Ha Hb. rewrite !join_child by done. set (d := path_dir dir) in *.
  assert (∀ x, simple_name x → inside (d +:+ "/" +:+ x) q = true → ∃ r, q = d +:+ "/" +:+ r ∧ head (split r slash) = Some x) as Hx.
  { intros x Hx. unfold inside. rewrite orb_true_iff, String.eqb_eq, under_spec by apply (child_clean d x Hd Hx).
    intros [->|[r ->]].
    - exists x. split; [done|]. by rewrite (proj2 Hx).
    - exists (x +:+ "/" +:+ r). split; [by rewrite !append_assoc'|]. by rewrite split_append, (proj2 Hx). }
  intros Hqa Hqb. apply (Hx a Ha) in Hqa as (r & -> & Hr). apply (Hx b Hb) in Hqb as (r' & Hq & Hr').
  apply append_eq_inv in Hq. apply (append_eq_inv "/") in Hq as ->. rewrite Hr in Hr'. by injection Hr'.
Qed.

(** Names of machines that no manager or machine is mistaken for. *)
Definition apart (k m : string) : Prop := k ≠ m ∧ k ≠ "mm_" +:+ m ∧ m ≠ "mm_" +:+ k.

(** A machine that is wanted keeps its manager and its directory, unless its name is that
    of a manager, or its manager's that of a machine, that goes. *)
Theorem purge_spares_wanted current (t : tree) k q :
  (∀ q, mn_RemoveAll e q = Ok tt) → currentMachines dir t = Ok current → clean_dir (path_dir dir) →
  simple_name k → simple_name ("mm_" +:+ k) →
  (∀ m, m ∈ current → unwanted m = true → simple_name m ∧ simple_name ("mm_" +:+ m) ∧ apart k m) →
  purged_paths k q = true → (purgeUnknownMachines e dir desired t).1 !! q = t !! q.
Proof.
  intros Hrm Hc Hd Hk Hmk Hall Hq. unfold purgeUnknownMachines, gets, lift, mbind, ST_bind. cbn [id]. rewrite Hc.
  destruct (purge_loop_spec current false t Hrm) as (t' & Hp & Ht). rewrite Hp. cbn [fst]. rewrite Ht.
  destruct (existsb (λ m, unwanted m && purged_paths m q) current) eqn:He; [|done]. exfalso. apply existsb_exists in He as (m & Hm & He).
  apply andb_true_iff in He as [Hu He]. destruct (Hall m ltac:(by apply list_elem_of_In) Hu) as (Hs & Hms & Ha & Hb & Hcc).
  unfold purged_paths, targetDirForManagerMachine, targetDirForManagedMachine in Hq, He.
  apply orb_true_iff in Hq as [Hq|Hq], He as [He|He].
  - pose proof (child_inside _ _ q Hd Hmk Hms Hq He) as Heq. apply (append_eq_inv "mm_") in Heq. congruence.
  - pose proof (child_inside _ _ q Hd Hmk Hs Hq He). congruence.
  - pose proof (child_inside _ _ q Hd Hk Hms Hq He). congruence.
  - pose proof (child_inside _ _ q Hd Hk Hs Hq He). congruence.
Qed.

End Purge.

(** ** The plugins watcher

    Managers are purged and written as the plugins watcher does it for plugins with the
    prefix [mm] that have no directory of their own. *)

Definition as_plugin (m : ManagedMachine) : ManagedPlugin :=
  {| mp_Name := mm_Name m; mp_NamePrefix := "mm"; mp_Source := mm_Source m; mp_Username := mm_Username m;
     mp_Password := mm_Password m; mp_ContentChecksumsChecksum := mm_ContentChecksumsChecksum m;
     mp_ArchiveChecksum := mm_ArchiveChecksum m; mp_Matcher := mm_Matcher m; mp_Governor := mm_Governor m;
     mp_Interval := mm_Interval m; mp_Target := mm_Target m |}.

Definition of_plugin (m : ManagedPlugin) : ManagedMachine :=
  {| mm_Name := mp_Name m; mm_Source := mp_Source m; mm_Username := mp_Username m; mm_Password := mp_Password m;
     mm_ContentChecksumsChecksum := mp_ContentChecksumsChecksum m; mm_ArchiveChecksum := mp_ArchiveChecksum m;
     mm_Matcher := mp_Matcher m; mm_Governor := mp_Governor m; mm_Interval := mp_Interval m; mm_Target := mp_Target m |}.

Definition plugin_env : manage_env :=
  {| me_Match := mn_Match e; me_render := λ m, mn_render e (of_plugin m); me_duration_String := mn_duration_String e;
     me_RemoveAll := mn_RemoveAll e; me_MkdirAll := mn_MkdirAll e; me_WriteFile := mn_WriteFile e; me_sleep := Ok tt |}.

Lemma of_as_plugin m : of_plugin (as_plugin m) = m.
Proof. by destruct m. Qed.

Section AsPlugins.
Variable dir : string.
Variable p : PluginsWatcher.Properties.
Hypothesis no_directory : p_Directory p = "".
Hypothesis prefix : p_ManagerMachinePrefix p = "mm".

Lemma manager_dir m : PluginsWatcher.targetDirForManagerMachine dir p m = targetDirForManagerMachine dir m.
Proof. unfold PluginsWatcher.targetDirForManagerMachine. by rewrite prefix. Qed.

Lemma managed_dir m : targetDirForManagedPlugin dir p m = targetDirForManagedMachine dir m.
Proof. unfold targetDirForManagedPlugin, targetDirForManagedPlugins. by rewrite no_directory. Qed.

Lemma manage_as_plugin m t : manage_machine e dir m t = manage_plugin plugin_env dir p (as_plugin m) t.
Proof. unfold manage_plugin. rewrite manager_dir. cbn -[manage_machine]. by destruct m. Qed.

Lemma loop_as_plugins l b t : manage_loop e dir l b t = PluginsWatcher.manage_loop plugin_env dir p (map as_plugin l) b t.
Proof.
  revert b t. induction l as [|m l IH]; intros b t; [done|]. cbn. unfold mbind, ST_bind. rewrite manage_as_plugin.
  by destruct (manage_plugin _ _ _ _ t) as [t1 [wrote|?|?]].
Qed.

Lemma keeps_as_plugins l m : PluginsWatcher.keeps plugin_env (map as_plugin l) m = keeps e l m.
Proof. unfold PluginsWatcher.keeps. induction l as [|x l IH]; [done|]. cbn. by rewrite IH. Qed.

Lemma purge_as_plugins l current b t :
  purge_loop e dir l current b t = PluginsWatcher.purge_loop plugin_env dir p (map as_plugin l) current b t.
Proof.
  revert b t. induction current as [|m rest IH]; intros b t; [done|]. cbn. rewrite keeps_as_plugins, manager_dir, managed_dir.
  destruct (keeps e l m); [apply IH|]. unfold mbind, ST_bind, remove, PluginsWatcher.remove. cbn [plugin_env me_RemoveAll].
  destruct (mn_RemoveAll e _) as [?|?|?]; [|apply IH|done]. cbn.
  destruct (mn_RemoveAll e _) as [?|?|?]; [|apply IH|done]. cbn. apply IH.
Qed.

(** With the same answers of the world both watchers purge and write the same. *)
Theorem machines_deploy_as_plugins (l : list ManagedMachine) (t : tree) :
  manage_loop e dir l false t = PluginsWatcher.manage_loop plugin_env dir p (map as_plugin l) false t ∧
  purgeUnknownMachines e dir l t = purgeUnknownPlugins plugin_env dir p (map as_plugin l) t.
Proof.
  split; [apply loop_as_plugins|]. unfold purgeUnknownMachines, purgeUnknownPlugins, gets, lift, mbind, ST_bind. cbn [id].
  unfold currentPlugins, currentMachines, targetDirForManagedPlugins. rewrite no_directory, prefix. cbn [negb String.eqb].
  destruct (_ ← ReadDir_dirs _ t; _) as [current|?|?]; [apply purge_as_plugins|done..].
Qed.

End AsPlugins.
End Props.

(** ** Machines for the witnesses *)

#[export] Instance demo_machines_lib : MachinesLib string :=
  {| mm_Verify := λ pk m sig, String.eqb sig (pk +:+ m);
     decode_machines := λ v, Ok {| sp_Machines := v; sp_Signature := "00" |};
     json_machines := λ _, Ok [] |}.

Definition demo_managed (name : string) : ManagedMachine :=
  {| mm_Name := name; mm_Source := "https://example.net/" +:+ name; mm_Username := ""; mm_Password := "";
     mm_ContentChecksumsChecksum := "x"; mm_ArchiveChecksum := "x"; mm_Matcher := ""; mm_Governor := "";
     mm_Interval := "2m"; mm_Target := "/etc/choria/machine" |}.
Definition demo_machines_env : machines_env :=
  {| mn_Match := λ _, Ok true; mn_render := λ m, Ok ("name: mm_" +:+ mm_Name m); mn_duration_String := itoa;
     mn_RemoveAll := λ _, Ok tt; mn_MkdirAll := λ _, Ok tt; mn_WriteFile := λ _, Ok tt |}.
Definition demo_machines (key : string) : MachinesWatcher :=
  {| mw_base := demo_base "machines";
     mw_properties := {| p_DataItem := "plugins"; p_PurgeUnknown := true; p_MachineManageInterval := 2 * Minute; p_PublicKey := key |};
     mw_interval := Minute; mw_previous := Unknown; mw_previousManaged := [] |}.
Definition demo_site : string := "/etc/choria/machine/demo".
(** Two managed machines, one of which is still wanted. *)
Definition demo_managers : tree :=
  {["/etc" := Dir; "/etc/choria" := Dir; "/etc/choria/machine" := Dir; "/etc/choria/machine/mm_old" := Dir;
    "/etc/choria/machine/mm_puppet" := Dir; "/etc/choria/machine/old" := Dir; "/etc/choria/machine/puppet" := Dir]}.

Lemma machines_need_a_signature_witness :
  ∃ o t, performWatch demo_machines_env (demo_machines "00") (demo_unsigned, demo_etc) = (t, o) ∧ t.2 = demo_etc.
Proof.
  destruct (performWatch demo_machines_env (demo_machines "00") (demo_unsigned, demo_etc)) as [[m t] o] eqn:E.
  exists o, (m, t). split; [done|].
  apply (machines_need_a_signature demo_machines_env (demo_machines "00") demo_unsigned m demo_etc t o); [discriminate| |exact E].
  intros payload (dat & spec & pk & sig & Hd & Hs & Hb & Hpk & Hl & _). vm_compute in Hpk. injection Hpk as <-. discriminate.
Defined.

Lemma wrong_size_key_stops_server_witness :
  is_panic (performWatch demo_machines_env (demo_machines "00") (demo_unsigned, demo_etc)).2 = true.
Proof.
  apply (wrong_size_key_stops_server demo_machines_env (demo_machines "00") demo_unsigned demo_etc "W10="
    {| sp_Machines := "W10="; sp_Signature := "00" |} "[]" (of_bytes ["000"%char]) (of_bytes ["000"%char])).
  all: first [discriminate | vm_compute; reflexivity].
Defined.

Lemma purge_removes_exactly_witness :
  ∃ t, purgeUnknownMachines demo_machines_env demo_site [demo_managed "puppet"] demo_managers = (t, Ok true) ∧
    t !! "/etc/choria/machine/old" = None ∧ t !! "/etc/choria/machine/puppet" = Some Dir.
Proof.
  destruct (purge_removes_exactly demo_machines_env demo_site [demo_managed "puppet"] ["old"; "puppet"] demo_managers) as (t & H1 & H2).
  - done.
  - vm_compute. reflexivity.
  - exists t. split; [exact H1|]. rewrite !H2. split; vm_compute; reflexivity.
Defined.

Lemma simple_by_bool a : bool_decide (a ∉ [""; "."; ".."] ∧ split a slash = [a]) = true → simple_name a.
Proof. intros H. by apply bool_decide_eq_true in H. Qed.

Lemma purge_spares_wanted_witness :
  (purgeUnknownMachines demo_machines_env demo_site [demo_managed "puppet"] demo_managers).1 !! "/etc/choria/machine/puppet" = Some Dir.
Proof.
  transitivity (demo_managers !! "/etc/choria/machine/puppet"); [|vm_compute; reflexivity].
  apply (purge_spares_wanted demo_machines_env demo_site [demo_managed "puppet"] ["old"; "puppet"] demo_managers "puppet").
  - done.
  - vm_compute. reflexivity.
  - split_and!; [vm_compute; reflexivity..|discriminate].
  - apply simple_by_bool. vm_compute. reflexivity.
  - apply simple_by_bool. vm_compute. reflexivity.
  - intros m Hm Hu. repeat (apply elem_of_cons in Hm as [->|Hm]); [| |by apply not_elem_of_nil in Hm].
    + split_and!; [apply simple_by_bool; vm_compute; reflexivity..|]. split_and!; discriminate.
    + vm_compute in Hu. discriminate.
  - vm_compute. reflexivity.
Defined.

Lemma machines_deploy_as_plugins_witness :
  manage_loop demo_machines_env demo_site [demo_managed "puppet"] false demo_managers =
  PluginsWatcher.manage_loop (plugin_env demo_machines_env) demo_site (demo_plugins_properties true)
    [as_plugin (demo_managed "puppet")] false demo_managers.
Proof.
  apply (machines_deploy_as_plugins demo_machines_env demo_site (demo_plugins_properties true)) with (l := [demo_managed "puppet"]);
    vm_compute; reflexivity.
Defined.

(** A directory [mm_] next to the machine: the name of its machine is empty, and the purge
    removes the directory all machines are in. *)
Example nameless_manager_removes_machines :
  let t := <["/etc/choria/machine/mm_" := Dir]> demo_managers in
  let r := purgeUnknownMachines demo_machines_env demo_site [demo_managed "puppet"; demo_managed "old"] t in
  (map fst (map_to_list r.1), r.2) = (["/etc/choria"; "/etc"], Ok true).
Proof. vm_compute. reflexivity. Qed.

(** A machine whose name is like that of a manager is removed by every purge, though it is
    listed. *)
Example machine_named_as_manager_is_purged :
  let t := <["/etc/choria/machine/mm_mm_a" := Dir]> (<["/etc/choria/machine/mm_a" := Dir]> demo_managers) in
  let r := purgeUnknownMachines demo_machines_env demo_site [demo_managed "puppet"; demo_managed "old"; demo_managed "mm_a"] t in
  (r.1 !! "/etc/choria/machine/mm_a", r.1 !! "/etc/choria/machine/mm_mm_a", r.2) = (None, Some Dir, Ok true).
Proof. vm_compute. reflexivity. Qed.
