(* ===== verification/DataPlugins.v ===== *)
(** * Data plugins

    providers/data with its ddl/, and the plugins of providers/data/golang, aagent/data and
    scout/data: small sources of data about a server that agents and filters query.  A plugin
    is what it declares and what it answers; JSON is an argument, logging is left out. *)
From S2P Require Import Prelude GoLib Regex Files Util GoNum Validator AgentManager Confkey DDL.

(** ** Declarations of plugins *)

Record DataMetadata := {
  dm_License : string;
  dm_Author : string;
  dm_Timeout : Z;
  dm_Name : string;
  dm_Version : string;
  dm_URL : string;
  dm_Description : string;
  dm_Provider : string;
}.

Record DataDDL := {
  dd_Metadata : DataMetadata;
  dd_Query : option InputItem;
  dd_Output : gmap string OutputItem;
  dd_SourceLocation : string;
}.

Definition DataTimeout (d : DataDDL) : Z :=
  if Z.eqb (dm_Timeout (dd_Metadata d)) 0 then 10 * Second else wrap64 (Second * dm_Timeout (dd_Metadata d)).

Section Files.
Context `{DF : DDLFiles}.
Variable fs : filesystem.
Variable data_Unmarshal : string → res DataDDL.

Definition NewDataDDL (file : string) : res DataDDL :=
  dat ← map_err (λ e, "could not load DDL data: " +:+ e) (os_Open fs file);
  d ← map_err (λ e, "could not parse JSON data in " +:+ file +:+ ": " +:+ e) (data_Unmarshal dat);
  Ok {| dd_Metadata := dd_Metadata d; dd_Query := dd_Query d; dd_Output := dd_Output d; dd_SourceLocation := file |}.

Definition find_data_cb (plugin n f : string) (s : option DataDDL * option string) : (option DataDDL * option string) * bool :=
  if String.eqb n plugin then
    (match NewDataDDL f with Ok d => (Some d, None) | Err e => (None, Some e) | Panic p => (None, Some p) end, true)
  else (s, false).

Definition FindData (plugin : string) (libdirs : list string) : res DataDDL :=
  match EachFile "data" libdirs (find_data_cb plugin) (None, None) with
  | (_, Some e) => Err ("could not load data plugin " +:+ plugin +:+ ": " +:+ e)
  | (None, None) => Err ("could not find DDL file for " +:+ plugin)
  | (Some d, None) => Ok d
  end.

End Files.

(** ** The manager *)

Section Manager.
Context `{DL : DDLLib} `{RX : Regexp}.
(** What a server tells plugins. *)
Context {SI : Type}.

Abbreviation output := (gmap string value).

(** A plugin gets the time it has and a query. *)
Record DataPlugin := {
  dp_Run : Z → value → SI → res output;
  dp_DDL : res DataDDL;
}.

Record Creator := { cr_Name : string; cr_F : res DataPlugin }.

Abbreviation registry := (gmap string Creator).

Definition RegisterPlugin (plugin : Creator) (plugins : registry) : registry * res () :=
  match plugins !! cr_Name plugin with
  | Some _ => (plugins, Err ("data plugin " +:+ cr_Name plugin +:+ " is already registered"))
  | None => (<[cr_Name plugin := plugin]> plugins, Ok tt)
  end.

Record DataManager := {
  mg_plugins : gmap string Creator;
  mg_ddls : gmap string DataDDL;
}.

(** The declaration of a plugin that can be made. *)
Definition declared (p : Creator) : option DataDDL :=
  match cr_F p with
  | Ok pi => match dp_DDL pi with Ok d => Some d | _ => None end
  | _ => None
  end.

(** Plugins that cannot be made or declare nothing are left out. *)
Definition NewManager (plugins : registry) : DataManager :=
  {| mg_plugins := filter (λ kv, is_Some (declared kv.2)) plugins; mg_ddls := omap declared plugins |}.

Definition DDLs (m : DataManager) : list DataDDL := map snd (map_to_list (mg_ddls m)).

(** What [Run] answers to a query, [None] when it fails. *)
Definition arityOneRunner (si : SI) (d : DataDDL) (plugin : Creator) (q : string) : res (option output) :=
  match cr_F plugin with
  | Ok i =>
      match dp_Run i (DataTimeout d) (VString q) si with
      | Ok r => Ok (Some r)
      | Err _ => Ok None
      | Panic p => Panic p
      end
  | Err _ => Ok None
  | Panic p => Panic p
  end.

Definition arityZeroRunner (si : SI) (d : DataDDL) (plugin : Creator) : res (option output) :=
  arityOneRunner si d plugin "".

Inductive data_func :=
| Func0 (f : () → res (option output))
| Func1 (f : string → res (option output)).

Record FuncMapEntry := { fe_F : data_func; fe_Name : string; fe_DDL : DataDDL }.

Definition FuncMap (m : DataManager) (si : SI) : gmap string FuncMapEntry :=
  map_imap (λ k v,
    match mg_plugins m !! k with
    | Some p => Some {| fe_DDL := v; fe_Name := dm_Name (dd_Metadata v);
                        fe_F := match dd_Query v with
                                | None => Func0 (λ _, arityZeroRunner si v p)
                                | Some _ => Func1 (arityOneRunner si v p)
                                end |}
    | None => None
    end) (mg_ddls m).

(** The converted query, when it is valid. *)
Definition checked_query (d : DataDDL) (query : string) : res value :=
  match dd_Query d with
  | None => Ok VNil
  | Some i =>
      q ← ValToDDLType (in_Type i) query;
      match ValidateValue i q with
      | (w, Ok _) => if Nat.ltb 0 (length w) then Err ("invalid query: " +:+ join w ", ") else Ok q
      | (_, Err e) => Err e
      | (_, Panic p) => Panic p
      end
  end.

Definition Execute (m : DataManager) (plugin query : string) (si : SI) : res output :=
  match mg_plugins m !! plugin with
  | None => Err ("unknown data plugin " +:+ plugin)
  | Some dpc =>
      dp ← map_err (λ e, "could not create instance of data plugin " +:+ plugin +:+ ": " +:+ e) (cr_F dpc);
      match mg_ddls m !! plugin with
      | None => Err ("could not find DDL for plugin " +:+ plugin)
      | Some pddl =>
          q ← checked_query pddl query;
          dp_Run dp (DataTimeout pddl) q si
      end
  end.

End Manager.
Arguments DataPlugin : clear implicits.
Arguments Creator : clear implicits.

(** ** The plugins of the program *)

Record MachineState := {
  ms_Name : string;
  ms_Version : string;
  ms_State : string;
  ms_Path : string;
  ms_ID : string;
  ms_StartTimeUTC : Z;
  ms_AvailableTransitions : list string;
  ms_Scout : bool;
  (** the states in the history of a check, when there is a notification of one *)
  ms_ScoutState : option (list Z);
}.

Record DataServerStats := {
  ss_Filtered : Z; ss_Passed : Z; ss_Replies : Z; ss_TTLExpired : Z; ss_Events : Z;
  ss_Total : Z; ss_Invalid : Z; ss_Valid : Z;
}.

Record BuildOf := { bo_BuildDate : string; bo_SHA : string; bo_License : string; bo_Version : string }.

(** [ServerInfoSource], and what the run time tells about the process. *)
Record DataServerInfo := {
  sv_MachinesStatus : res (list MachineState);
  sv_Stats : DataServerStats;
  sv_Classes : list string;
  sv_KnownAgents : list string;
  sv_Build : BuildOf;
  sv_ConfigFile : string;
  sv_ConnectedServer : string;
  sv_Provisioning : bool;
  sv_UpTime : Z;
  sv_NumCPU : Z;
  sv_NumGoroutine : Z;
  sv_GoVersion : string;
  sv_Pid : Z;
  sv_Now : Z;
}.

Definition VInt0 (z : Z) : value := DDL.VInt KInt z.
Definition VInt8s (z : Z) : value := DDL.VInt KInt64 z.
Definition VStrs (l : list string) : value := VSlice (map DDL.VString l).
Definition count {A} (l : list A) : value := VInt0 (Z.of_nat (length l)).

Definition out (description display type : string) : OutputItem :=
  {| out_Description := description; out_DisplayAs := display; out_Default := VNil; out_Type := type |}.
Definition plugin_metadata (version name description : string) : DataMetadata :=
  {| dm_License := "Apache-2.0"; dm_Author := "R.I.Pienaar <rip@devco.net>"; dm_Timeout := 1; dm_Name := name;
     dm_Version := version; dm_URL := "https://choria.io"; dm_Description := description; dm_Provider := "golang" |}.
Definition query_of (prompt description validation : string) (default : value) (maxlength : Z) : InputItem :=
  {| in_Prompt := prompt; in_Description := description; in_Type := "string"; in_Default := default; in_Optional := false;
     in_Validation := validation; in_MaxLength := maxlength; in_Enum := [] |}.

(** *** choria *)

Definition choria_items (si : DataServerInfo) : list (string * value) :=
  let machines := match sv_MachinesStatus si with Ok l => l | _ => [] end in
  let stats := sv_Stats si in
  [("agents", VStrs (sv_KnownAgents si)); ("agents_count", count (sv_KnownAgents si));
   ("built", DDL.VString (bo_BuildDate (sv_Build si))); ("classes", VStrs (sv_Classes si)); ("classes_count", count (sv_Classes si));
   ("commit", DDL.VString (bo_SHA (sv_Build si))); ("configfile", DDL.VString (sv_ConfigFile si));
   ("connected_broker", DDL.VString (sv_ConnectedServer si)); ("cpus", VInt0 (sv_NumCPU si));
   ("filtered", VInt8s (ss_Filtered stats)); ("go_version", DDL.VString (sv_GoVersion si));
   ("goroutines", VInt0 (sv_NumGoroutine si)); ("license", DDL.VString (bo_License (sv_Build si)));
   ("machines_count", count machines); ("machines", VStrs (map ms_Name machines)); ("passed", VInt8s (ss_Passed stats));
   ("pid", VInt0 (sv_Pid si)); ("provisioning", DDL.VBool (sv_Provisioning si)); ("replies", VInt8s (ss_Replies stats));
   ("total", VInt8s (ss_Total stats)); ("ttlexpired", VInt8s (ss_TTLExpired stats)); ("events", VInt8s (ss_Events stats));
   ("unvalidated", VInt8s (ss_Invalid stats)); ("uptime", VInt8s (sv_UpTime si)); ("validated", VInt8s (ss_Valid stats));
   ("version", DDL.VString (bo_Version (sv_Build si)))].

Definition choria_Run (_ : Z) (_ : value) (si : DataServerInfo) : res (gmap string value) :=
  Ok (list_to_map (choria_items si)).

Definition choria_outputs : list (string * OutputItem) :=
  [("agents", out "Known agents hosted by this server" "Agents" "Array");
   ("pid", out "The process ID of the running process" "PID" "integer");
   ("agents_count", out "Number of active agents on the node" "Agents" "integer");
   ("classes", out "List of classes this machine is tagged with" "Class Names" "Array");
   ("classes_count", out "Number of classes this node is tagged with" "Classes" "integer");
   ("machines", out "The names of running machines" "Machines Names" "Array");
   ("machines_count", out "The number of running Autonomous Agents" "Machines" "integer");
   ("configfile", out "The path to the running configuration" "Configuration File" "string");
   ("connected_broker", out "The Choria Broker this server is connected to" "Connected Broker" "string");
   ("provisioning", out "If the node is currently in Provisioning mode" "Provisioning" "boolean");
   ("uptime", out "The time, in seconds, that the server has been up" "Uptime" "integer");
   ("total", out "The number of messages this server processed" "Total Messages" "integer");
   ("validated", out "The number of messages this server processed that passed validation" "Valid Messages" "integer");
   ("unvalidated", out "The number of messages this server processed that did not pass validation" "Invalid Messages" "integer");
   ("passed", out "The number of messages this server processed that matched filters" "Passed Messages" "integer");
   ("filtered", out "The number of messages this server processed that did not match filters" "Filtered Messages" "integer");
   ("replies", out "The number of reply messages this server sent" "Reply Messages" "integer");
   ("ttlexpired", out "The number of messages this server rejected due to TTL expiration" "Expired Messages" "integer");
   ("version", out "The running version of the server" "Version" "string");
   ("go_version", out "Version of Go used to build the server" "Golang" "string");
   ("goroutines", out "The number of active Go Routines in the server process" "Go Routines" "integer");
   ("cpus", out "The number of logical CPUs available to the Go runtime" "CPUs" "integer");
   ("license", out "The license this binary is released under" "License" "string");
   ("built", out "The time when the build was performed" "Built" "string");
   ("commit", out "The source commit used to build this instance" "Commit" "string")].

Definition choria_DDL (version : string) : DataDDL :=
  {| dd_Metadata := plugin_metadata version "choria" "Data about a the running Choria instance"; dd_Query := None;
     dd_Output := list_to_map choria_outputs; dd_SourceLocation := "" |}.

(** *** config_item *)

Definition conf_value (v : Confkey.value) : value :=
  match v with
  | VStrings l => VStrs l
  | Confkey.VInt z => VInt0 z
  | VInt64 z => VInt8s z
  | Confkey.VString s => DDL.VString s
  | Confkey.VBool b => DDL.VBool b
  end.

(** The type assertion of a query. *)
Definition as_string (q : value) : res string :=
  match q with DDL.VString s => Ok s | _ => Panic "interface conversion" end.

(** [cfg] is the configuration and [choria] the one in it. *)
Definition config_Run (cfg choria : struct) (_ : Z) (q : value) (_ : DataServerInfo) : res (gmap string value) :=
  item ← as_string q;
  Ok (list_to_map
    match InterfaceWithKey cfg item, InterfaceWithKey choria item with
    | Some v, _ => [("present", DDL.VBool true); ("value", conf_value v)]
    | None, Some v => [("present", DDL.VBool true); ("value", conf_value v)]
    | None, None => [("present", DDL.VBool false); ("value", VNil)]
    end).

Definition config_outputs : list (string * OutputItem) :=
  [("present", out "Indicates if the configuration item is known" "Present" "boolean");
   ("value", out "The current value of the configuration item, in it's native data type" "Value" "")].

Definition config_DDL (version : string) : DataDDL :=
  {| dd_Metadata := plugin_metadata version "config_item" "Runtime value of a configuration items";
     dd_Query := Some (query_of "Configuration Key" "A key as found in the configuration file" ".+" (DDL.VString "") 256);
     dd_Output := list_to_map config_outputs; dd_SourceLocation := "" |}.

(** *** machine_state *)

Definition machine_items (m : MachineState) : list (string * value) :=
  [("name", DDL.VString (ms_Name m)); ("version", DDL.VString (ms_Version m)); ("state", DDL.VString (ms_State m));
   ("path", DDL.VString (ms_Path m)); ("id", DDL.VString (ms_ID m)); ("start_time", VInt8s (ms_StartTimeUTC m));
   ("available_transitions", VStrs (ms_AvailableTransitions m)); ("scout", DDL.VBool (ms_Scout m))] ++
  if ms_Scout m then [("current_state", match ms_ScoutState m with Some _ => VOther | None => VNil end)] else [].

Definition machine_matches (query : string) (m : MachineState) : bool :=
  String.eqb (ms_ID m) query || String.eqb (ms_Path m) query || String.eqb (ms_Name m) query.

Definition machine_Run (_ : Z) (q : value) (si : DataServerInfo) : res (gmap string value) :=
  machines ← sv_MachinesStatus si;
  query ← as_string q;
  match List.find (machine_matches query) machines with
  | Some m => Ok (list_to_map (machine_items m))
  | None => Err ("no machine matching " +:+ query +:+ " found")
  end.

Definition machine_outputs : list (string * OutputItem) :=
  [("name", out "The machine name" "Name" "string"); ("version", out "The machine version" "Version" "string");
   ("state", out "The state the machine is in currently" "Current State" "string");
   ("path", out "The path the machine is stored in on disk" "Path" "string");
   ("id", out "The unique instance id" "ID" "string");
   ("start_time", out "The time this machine started, seconds since 1970" "Path" "integer");
   ("available_transitions", out "The names of transition events that's valid for this machine" "Available Transitions" "Array");
   ("scout", out "Indicates if this machine is a Scout check" "Scout" "boolean");
   ("current_state", out "For Scout checks, this is the extended Scout state" "Scout State" "Hash")].

Definition machine_DDL (version : string) : DataDDL :=
  {| dd_Metadata := plugin_metadata version "machine_state" "Data about a Choria Autonomous Agent";
     dd_Query := Some (query_of "Machine" "The machine name, path or ID to match" ".+" (DDL.VString "") 256);
     dd_Output := list_to_map machine_outputs; dd_SourceLocation := "" |}.

(** *** scout *)

Definition scout_items (now : Z) (StateName : Z → string) (m : MachineState) : list (string * value) :=
  [("name", DDL.VString (ms_Name m)); ("version", DDL.VString (ms_Version m)); ("state", DDL.VString (ms_State m));
   ("path", DDL.VString (ms_Path m)); ("id", DDL.VString (ms_ID m)); ("start_time", VInt8s (ms_StartTimeUTC m));
   ("uptime", VInt8s (now - ms_StartTimeUTC m)%Z); ("history", VStrs (map StateName (default [] (ms_ScoutState m))))].

(** The name of a state is nagioswatcher's; no check of the name is an empty answer. *)
Definition scout_Run (StateName : Z → string) (_ : Z) (q : value) (si : DataServerInfo) : res (gmap string value) :=
  match q with
  | DDL.VString query =>
      machines ← map_err (λ e, "could not retrieve machine status: " +:+ e) (sv_MachinesStatus si);
      Ok (list_to_map match List.find (λ m, ms_Scout m && String.eqb (ms_Name m) query) machines with
                      | Some m => scout_items (sv_Now si) StateName m
                      | None => []
                      end)
  | _ => Err "could not parse query as a string"
  end.

Definition scout_outputs : list (string * OutputItem) :=
  [("name", out "The name of the Scout check" "Name" "string");
   ("version", out "The version of the Scout check state machine" "Version" "string");
   ("state", out "The state the Scout check is in" "State" "string");
   ("path", out "The path on disk where the Scout check is stored" "Path" "string");
   ("id", out "The unique ID of the running state machine" "ID" "string");
   ("start_time", out "The time the check started in UTC" "Start Time" "integer");
   ("uptime", out "The time the check has been running in seconds" "Uptime" "integer");
   ("history", out "Recent past states of the check" "History" "Hash")].

Definition scout_DDL (version : string) : DataDDL :=
  {| dd_Metadata := plugin_metadata version "scout" "Data about a specific Scout check";
     dd_Query := Some (query_of "Check" "The Scout check to retrieve data for" "^[a-zA-Z][a-zA-Z0-9_-]+$" VNil 50);
     dd_Output := list_to_map scout_outputs; dd_SourceLocation := "" |}.

(** * Data plugins: properties *)

(** ** What plugins answer *)

(** A value of a declared type; hashes are any value of a structure, or null. *)
Definition typed (t : string) (v : value) : bool :=
  let t := to_lower t in
  if String.eqb t "array" then IsArray v
  else if String.eqb t "boolean" then IsBool v
  else if String.eqb t "integer" then IsAnyInt v
  else if String.eqb t "string" then IsString v
  else if String.eqb t "hash" then match v with VMap _ | VOther | VNil => true | _ => false end
  else true.

Definition declared_as (outputs : gmap string OutputItem) (k : string) (v : value) : Prop :=
  ∃ o, outputs !! k = Some o ∧ typed (out_Type o) v = true.

Lemma list_to_map_delete_key (items : list (string * value)) (k : string) :
  (list_to_map (filter (λ kv, kv.1 ≠ k) items) : gmap string value) = delete k (list_to_map items).
Proof.
  induction items as [|[x v] l IH]; [symmetry; apply delete_empty|]. rewrite filter_cons. cbn [fst]. case_decide as Hx; cbn [list_to_map foldr].
  - rewrite delete_insert_ne by done. by f_equal.
  - destruct (decide (x = k)) as [->|]; [|done]. rewrite delete_insert_eq. exact IH.
Qed.

Definition declared_as_b (outputs : gmap string OutputItem) (kv : string * value) : bool :=
  match outputs !! kv.1 with Some o => typed (out_Type o) kv.2 | None => false end.

Lemma ok_inj {E A} (a b : A) : Ok (E := E) a = Ok b → a = b.
Proof. congruence. Qed.

Lemma declared_items outputs (items : list (string * value)) : forallb (declared_as_b outputs) items = true →
  map_Forall (declared_as outputs) (list_to_map items : gmap string value).
Proof.
  intros H k v Hk. apply elem_of_list_to_map_2 in Hk. rewrite forallb_elem_of in H. specialize (H (k, v) Hk).
  unfold declared_as_b in H. cbn [fst snd] in H. destruct (outputs !! k) as [o|] eqn:Ho; [|done]. by exists o.
Qed.

Lemma choria_items_declared version si :
  forallb (λ kv, String.eqb kv.1 "events" || declared_as_b (dd_Output (choria_DDL version)) kv) (choria_items si) = true.
Proof. vm_compute. reflexivity. Qed.

Lemma config_items_declared version b v :
  forallb (declared_as_b (dd_Output (config_DDL version))) [("present", DDL.VBool b); ("value", v)] = true.
Proof. vm_compute. reflexivity. Qed.

Lemma machine_items_declared version m : forallb (declared_as_b (dd_Output (machine_DDL version))) (machine_items m) = true.
Proof. unfold machine_items. destruct (ms_Scout m), (ms_ScoutState m); vm_compute; reflexivity. Qed.

(** Everything [choria], [config_item] and [machine_state] answer is declared, with its
    type, but the count of events. *)
Theorem answers_are_declared (version : string) (cfg choria : struct) (t : Z) (q : value) (si : DataServerInfo) r :
  (choria_Run t q si = Ok r → map_Forall (declared_as (dd_Output (choria_DDL version))) (delete "events" r)) ∧
  (config_Run cfg choria t q si = Ok r → map_Forall (declared_as (dd_Output (config_DDL version))) r) ∧
  (machine_Run t q si = Ok r → map_Forall (declared_as (dd_Output (machine_DDL version))) r).
Proof.
  split_and!.
  - intros <-%ok_inj. rewrite <- list_to_map_delete_key. apply declared_items. apply forallb_elem_of. intros kv Hkv.
    apply list_elem_of_filter in Hkv as [Hne Hkv]. pose proof (choria_items_declared version si) as H.
    rewrite forallb_elem_of in H. specialize (H kv Hkv). cbv beta in H. by rewrite (proj2 (String.eqb_neq _ _) Hne) in H.
  - unfold config_Run, mbind, outcome_bind. destruct (as_string q) as [item|?|?]; [|done..]. intros <-%ok_inj.
    apply declared_items. destruct (InterfaceWithKey cfg item); [|destruct (InterfaceWithKey choria item)]; apply config_items_declared.
  - unfold machine_Run, mbind, outcome_bind. destruct (sv_MachinesStatus si); [|done..].
    destruct (as_string q) as [query|?|?]; [|done..]. destruct (List.find _ _) as [m|]; [|done]. intros <-%ok_inj.
    apply declared_items, machine_items_declared.
Qed.

(** ** The manager *)

Section Manager.
Context `{DL : DDLLib} `{RX : Regexp} {SI : Type}.

Lemma manager_keys (plugins : gmap string (Creator SI)) k p : mg_plugins (NewManager plugins) !! k = Some p ↔
  plugins !! k = Some p ∧ mg_ddls (NewManager plugins) !! k = declared p ∧ is_Some (declared p).
Proof.
  cbn. rewrite map_lookup_filter_Some, lookup_omap. cbn. split.
  - intros [Hp Hd]. by rewrite Hp.
  - intros (Hp & _ & Hd). done.
Qed.

Lemma manager_ddl (plugins : gmap string (Creator SI)) k d : mg_ddls (NewManager plugins) !! k = Some d →
  ∃ p, mg_plugins (NewManager plugins) !! k = Some p ∧ declared p = Some d.
Proof.
  cbn. rewrite lookup_omap. destruct (plugins !! k) as [p|] eqn:Hp; [|done]. cbn. intros Hd. exists p.
  rewrite map_lookup_filter_Some. cbn. by rewrite Hd.
Qed.

(** The time a plugin has. *)
Definition run_for_query (p : Creator SI) (d : DataDDL) (q : value) (si : SI) : res (gmap string value) :=
  i ← cr_F p; dp_Run i (DataTimeout d) q si.

(** What a function of a filter or of [rpcutil] makes of an answer. *)
Definition answer_of (r : res (gmap string value)) : res (option (gmap string value)) :=
  match r with Ok r => Ok (Some r) | Err _ => Ok None | Panic p => Panic p end.

Lemma runner_runs (si : SI) d p q : arityOneRunner si d p q = answer_of (run_for_query p d (VString q) si).
Proof. unfold arityOneRunner, run_for_query, mbind, outcome_bind. by destruct (cr_F p). Qed.

Lemma functions_of_manager (plugins : gmap string (Creator SI)) si k e : FuncMap (NewManager plugins) si !! k = Some e →
  ∃ p, mg_plugins (NewManager plugins) !! k = Some p ∧ mg_ddls (NewManager plugins) !! k = Some (fe_DDL e) ∧
    fe_F e = match dd_Query (fe_DDL e) with
             | None => Func0 (λ _, arityOneRunner si (fe_DDL e) p "")
             | Some _ => Func1 (arityOneRunner si (fe_DDL e) p)
             end.
Proof.
  unfold FuncMap. rewrite map_lookup_imap. destruct (mg_ddls (NewManager plugins) !! k) as [d|] eqn:Hd; [|done]. cbn [mbind option_bind].
  destruct (mg_plugins (NewManager plugins) !! k) as [p|]; [|done]. intros [= <-]. by exists p.
Qed.

(** [Execute] runs a plugin only for a query of the declared type that its declaration
    allows, and with that query converted. *)
Theorem executed_queries_are_valid (plugins : gmap string (Creator SI)) (k query : string) (si : SI) r :
  Execute (NewManager plugins) k query si = Ok r →
  ∃ p d q, plugins !! k = Some p ∧ declared p = Some d ∧ run_for_query p d q si = Ok r ∧
    match dd_Query d with
    | None => q = VNil
    | Some i => ValToDDLType (in_Type i) query = Ok q ∧ ValidateValue i q = ([], Ok tt)
    end.
Proof.
  unfold Execute. destruct (mg_plugins (NewManager plugins) !! k) as [p|] eqn:Hp; [|done].
  apply manager_keys in Hp as (Hp & Hd & [d Hds]). rewrite Hd, Hds. unfold map_err, mbind, outcome_bind.
  destruct (cr_F p) as [dp|?|?] eqn:Hf; [|done..].
  destruct (checked_query d query) as [q|?|?] eqn:Hq; [|done..]. intros Hr. exists p, d, q.
  split_and!; [done|done|unfold run_for_query, mbind, outcome_bind; by rewrite Hf|].
  unfold checked_query, mbind, outcome_bind in Hq. destruct (dd_Query d) as [i|]; [|congruence].
  destruct (ValToDDLType (in_Type i) query) as [q'|?|?]; [|done..].
  destruct (ValidateValue i q') as [w [[]|?|?]] eqn:Hv; [|done..]. destruct w; [|done]. injection Hq as <-. done.
Qed.

(** The functions of filters and of [rpcutil#get_data] answer as [Execute] does when a
    query is valid and a string; but they also run the plugin for every other query. *)
Theorem functions_take_any_query (plugins : gmap string (Creator SI)) (k : string) (si : SI) e f :
  FuncMap (NewManager plugins) si !! k = Some e → fe_F e = Func1 f →
  ∃ p, plugins !! k = Some p ∧
    (∀ q, f q = answer_of (run_for_query p (fe_DDL e) (VString q) si)) ∧
    (∀ q, checked_query (fe_DDL e) q = Ok (VString q) → answer_of (Execute (NewManager plugins) k q si) = f q) ∧
    (∀ q err, checked_query (fe_DDL e) q = Err err → is_ok (Execute (NewManager plugins) k q si) = false).
Proof.
  intros He Hf. apply functions_of_manager in He as (p & Hp & Hd & HF). rewrite Hf in HF.
  destruct (dd_Query (fe_DDL e)) as [i|] eqn:Hq; [|done]. injection HF as ->.
  pose proof Hp as Hp'. apply manager_keys in Hp' as (Hpl & Hdd & _). exists p. split_and!; [done|intros q; apply runner_runs| |].
  - intros q Hc. rewrite runner_runs. unfold Execute. rewrite Hp, Hd. unfold run_for_query, map_err, mbind, outcome_bind.
    destruct (cr_F p) as [dp|?|?]; [|done..]. by rewrite Hc.
  - intros q err Hc. unfold Execute. rewrite Hp, Hd. unfold map_err, mbind, outcome_bind.
    destruct (cr_F p) as [dp|?|?]; [|done..]. by rewrite Hc.
Qed.

(** Every plugin of a manager has a declaration, and a function. *)
Theorem managers_declare_their_plugins (plugins : gmap string (Creator SI)) (si : SI) :
  dom (mg_plugins (NewManager plugins)) = dom (mg_ddls (NewManager plugins)) ∧
  dom (FuncMap (NewManager plugins) si) = dom (mg_ddls (NewManager plugins)).
Proof.
  assert (∀ k, is_Some (mg_plugins (NewManager plugins) !! k) ↔ is_Some (mg_ddls (NewManager plugins) !! k)) as Hk.
  { intros k. split.
    - intros [p (Hp & Hd & Hs)%manager_keys]. by rewrite Hd.
    - intros [d (p & Hp & _)%manager_ddl]. by rewrite Hp. }
  split; apply set_eq; intros k; rewrite !elem_of_dom; [apply Hk|].
  unfold FuncMap. rewrite map_lookup_imap. destruct (mg_ddls (NewManager plugins) !! k) as [d|] eqn:Hd; [|by split; intros []].
  cbn. destruct (proj2 (Hk k) ltac:(by rewrite Hd)) as [p Hp]. cbn in Hp. rewrite Hp. by split; eauto.
Qed.

End Manager.

(** ** A server for the witnesses *)

#[local] Instance demo_data_lib : DDLLib := {| ParseFloat64 := λ _, None; json_Object := λ _, None; json_Array := λ _, None |}.
#[local] Instance demo_anything : Regexp := {| regexp_match := λ _ s, Some (negb (String.eqb s "")) |}.

Definition demo_check : MachineState :=
  {| ms_Name := "check_load"; ms_Version := "1.0.0"; ms_State := "OK"; ms_Path := "/etc/choria/machine/check_load"; ms_ID := "1";
     ms_StartTimeUTC := 100; ms_AvailableTransitions := ["MAINTENANCE"]; ms_Scout := true; ms_ScoutState := Some [0%Z] |}.
Definition demo_data_server : DataServerInfo :=
  {| sv_MachinesStatus := Ok [demo_check];
     sv_Stats := {| ss_Filtered := 0; ss_Passed := 1; ss_Replies := 1; ss_TTLExpired := 0; ss_Events := 0; ss_Total := 1;
                    ss_Invalid := 0; ss_Valid := 1 |};
     sv_Classes := ["base"]; sv_KnownAgents := ["rpcutil"];
     sv_Build := {| bo_BuildDate := ""; bo_SHA := ""; bo_License := "Apache-2.0"; bo_Version := "0.99" |};
     sv_ConfigFile := "/etc/choria/server.conf"; sv_ConnectedServer := "nats://broker:4222"; sv_Provisioning := false; sv_UpTime := 10;
     sv_NumCPU := 1; sv_NumGoroutine := 10; sv_GoVersion := "go"; sv_Pid := 1; sv_Now := 200 |}.
Definition demo_creator (name : string) (run : Z → value → DataServerInfo → res (gmap string value)) (d : DataDDL) : Creator DataServerInfo :=
  {| cr_Name := name; cr_F := Ok {| dp_Run := run; dp_DDL := Ok d |} |}.
Definition demo_data_plugins : gmap string (Creator DataServerInfo) :=
  list_to_map [("choria", demo_creator "choria" choria_Run (choria_DDL "1"));
               ("config_item", demo_creator "config_item" (config_Run [] []) (config_DDL "1"));
               ("machine_state", demo_creator "machine_state" machine_Run (machine_DDL "1"))].

Lemma answers_are_declared_witness :
  ∃ r, machine_Run 0 (DDL.VString "check_load") demo_data_server = Ok r ∧
    map_Forall (declared_as (dd_Output (machine_DDL "1"))) r.
Proof.
  exists (list_to_map (machine_items demo_check)). split; [reflexivity|].
  apply (proj2 (proj2 (answers_are_declared "1" [] [] 0 (DDL.VString "check_load") demo_data_server _))). reflexivity.
Defined.

Lemma executed_queries_are_valid_witness :
  ∃ p d q, demo_data_plugins !! "machine_state" = Some p ∧ declared p = Some d ∧
    run_for_query p d q demo_data_server = Ok (list_to_map (machine_items demo_check)).
Proof.
  destruct (executed_queries_are_valid demo_data_plugins "machine_state" "1" demo_data_server (list_to_map (machine_items demo_check)))
    as (p & d & q & H1 & H2 & H3 & _).
  - vm_compute. reflexivity.
  - exists p, d, q. split_and!; [exact H1|exact H2|exact H3].
Defined.

Definition demo_entry (k : string) : option FuncMapEntry :=
  FuncMap (NewManager demo_data_plugins) demo_data_server !! k.

Lemma functions_take_any_query_witness :
  ∃ e p f, demo_entry "machine_state" = Some e ∧ fe_F e = Func1 f ∧ demo_data_plugins !! "machine_state" = Some p ∧
    f "" = answer_of (run_for_query p (fe_DDL e) (DDL.VString "") demo_data_server).
Proof.
  set (p := demo_creator "machine_state" machine_Run (machine_DDL "1")).
  set (e := {| fe_F := Func1 (arityOneRunner demo_data_server (machine_DDL "1") p); fe_Name := "machine_state"; fe_DDL := machine_DDL "1" |}).
  assert (demo_entry "machine_state" = Some e) as He by (vm_compute; reflexivity).
  destruct (functions_take_any_query demo_data_plugins "machine_state" demo_data_server e _ He eq_refl) as (p' & Hp & Hf & _).
  exists e, p', (arityOneRunner demo_data_server (machine_DDL "1") p). split_and!; [exact He|reflexivity|exact Hp|apply Hf].
Defined.

(** An empty key is not valid, but the function of filters and [rpcutil] looks it up. *)
Example functions_skip_validation :
  is_ok (Execute (NewManager demo_data_plugins) "config_item" "" demo_data_server) = false ∧
  match demo_entry "config_item" with
  | Some {| fe_F := Func1 f |} => f "" = Ok (Some (list_to_map [("present", DDL.VBool false); ("value", VNil)]))
  | _ => False
  end.
Proof. split; vm_compute; reflexivity. Qed.

(** A plugin whose query is a number gets a string from its function. *)
Example functions_do_not_convert :
  let square := λ (_ : Z) (q : value) (_ : DataServerInfo), match q with DDL.VInt _ z => Ok ({["square" := VInt0 (z * z)]} : gmap string value)
                                                            | _ => Panic "interface conversion" end in
  let d := {| dd_Metadata := plugin_metadata "1" "square" ""; dd_Output := ∅; dd_SourceLocation := "";
              dd_Query := Some {| in_Prompt := ""; in_Description := ""; in_Type := "integer"; in_Default := VNil; in_Optional := false;
                                  in_Validation := ""; in_MaxLength := 0; in_Enum := [] |} |} in
  let m := NewManager {["square" := demo_creator "square" square d]} in
  is_ok (Execute m "square" "3" demo_data_server) = true ∧
  match FuncMap m demo_data_server !! "square" with
  | Some {| fe_F := Func1 f |} => is_panic (f "3") = true
  | _ => False
  end.
Proof. split; vm_compute; reflexivity. Qed.

Example events_are_undeclared :
  match choria_Run 0 VNil demo_data_server with Ok r => is_Some (r !! "events") | _ => False end ∧
  dd_Output (choria_DDL "1") !! "events" = None.
Proof. split; [vm_compute; eauto|vm_compute; reflexivity]. Qed.

(** The history of a check is declared a hash, and is a list. *)
Example scout_history_is_a_list :
  match scout_Run (λ _, "OK") 0 (DDL.VString "check_load") demo_data_server, dd_Output (scout_DDL "1") !! "history" with
  | Ok r, Some o => (typed (out_Type o) <$> r !! "history") = Some false
  | _, _ => False
  end.
Proof. vm_compute. reflexivity. Qed.
