(* ===== verification/Resolvers.v ===== *)
(** * DDL resolvers and the registry

    providers/ddlresolver, the choice of resolvers in choria/framework.go and the registry
    agent of providers/agent/mcorpc/golang/registry: where clients find the DDLs of agents.
    The files compiled into the program and those of the host are trees; requests to a
    registry, JSON and the ruby form of a DDL are arguments.  The working directory is the
    root. *)
From S2P Require Import Prelude GoLib Files Tree Regex Util GoNum Validator AgentManager DDL Rpc.

Definition quote : string := String (ascii_of_nat 34) "".
Definition unsupported (kind : string) : string := "unsupported ddl type " +:+ quote +:+ kind +:+ quote.

(** The entries of a directory by name, and whether each is a directory. *)
Definition ReadDir (dir : string) (t : tree) : res (list (string * bool)) :=
  match t !! dir with
  | Some Dir =>
      Ok (omap (λ n, match t !! path_join [dir; n] with
                     | Some Dir => Some (n, true)
                     | Some (File _) => Some (n, false)
                     | None => None
                     end)
           (sort_strings (omap (λ kv, if under dir kv.1 && String.eqb (path_dir kv.1) dir then Some (path_base kv.1) else None)
                               (map_to_list t))))
  | _ => Err ("open " +:+ dir +:+ ": no such file or directory")
  end.

(** The names of the JSON files among entries. *)
Definition json_names (entries : list (string * bool)) : list string :=
  omap (λ e : string * bool, if e.2 then None else if has_suffix e.1 ".json" then Some (trim_suffix e.1 ".json") else None) entries.

Record ResolverConfig := {
  rv_LibDir : list string;
  rv_RubyLibdir : list string;
  rv_RegistryClientCache : string;
  rv_InitiatedByServer : bool;
  rv_RegistryCacheOnly : bool;
}.

(** ** The files compiled in *)

Section Cached.
Variable embedded : tree.

Definition cached_DDLBytes (kind name : string) : res string :=
  if negb (String.eqb kind "agent") then Err (unsupported kind)
  else map_err (error_text ("ddl/cache/agent/" +:+ name +:+ ".json")) (read_file embedded ("ddl/cache/agent/" +:+ name +:+ ".json")).

Definition cached_DDLNames (kind : string) : res (list string) :=
  if negb (String.eqb kind "agent") then Err (unsupported kind)
  else
    dir ← ReadDir "ddl/cache/agent" embedded;
    Ok (sort_strings (json_names dir)).

End Cached.

(** ** The files of the host *)

Section FileSystem.
Variable cfg : ResolverConfig.
(** files that cannot be read *)
Variable unreadable : string → bool.
Variable t : tree.

Definition libDirs : list string := rv_LibDir cfg ++ rv_RubyLibdir cfg.

(** [filepath.Walk]: the files below a directory. *)
Definition walk (dir : string) : list string :=
  match WalkDir (abs_path dir) t with
  | Ok l => omap (λ kv, match kv.2 with File _ => Some kv.1 | Dir => None end) l
  | _ => []
  end.

(** What the callback answers stops nothing. *)
Definition resolver_EachFile {S} (kind : string) (libdirs : list string) (cb : string → string → S → S) (s : S) : S :=
  foldl (λ s dir, foldl (λ s n, foldl (λ s path,
      if has_suffix path ".json" then cb (trim_suffix (path_base path) ".json") path s else s)
    s (walk (path_join [dir; n; kind]))) s ["choria"; "mcollective"]) s libdirs.

Definition os_ReadFile_of (path : string) : res string :=
  if unreadable path then Err ("open " +:+ path +:+ ": permission denied")
  else map_err (error_text path) (read_file t path).

Definition known_kind (kind : string) : bool := String.eqb kind "agent" || String.eqb kind "data".

Definition fs_DDLBytes (kind name : string) : res string :=
  if negb (known_kind kind) then Err (unsupported kind)
  else
    match resolver_EachFile kind libDirs (λ n p s, if String.eqb n name then os_ReadFile_of p else s) (Ok "") with
    | Err e => Err ("could not find DDL " +:+ kind +:+ "/" +:+ name +:+ ": " +:+ e)
    | Ok "" => Err ("could not find DDL " +:+ kind +:+ "/" +:+ name)
    | r => r
    end.

Definition fs_DDLNames (kind : string) : res (list string) :=
  if negb (known_kind kind) then Err (unsupported kind)
  else Ok (sort_strings (resolver_EachFile kind libDirs (λ n _ s, s ++ [n]) [])).

End FileSystem.

(** ** The registry *)

(** A reply of the registry to a request for a DDL or for names; names that are no strings
    are [None]. *)
Record registry_reply := {
  rg_ok : bool;
  rg_status : string;
  rg_ddl : string;
  rg_names : list (option string);
}.

Section Registry.
Variable cfg : ResolverConfig.
Variable denied : string → bool.
(** The replies to a request for a DDL and for the names of a kind. *)
Variable ask_ddl : string → string → res (list registry_reply).
Variable ask_names : string → res (list registry_reply).

Abbreviation D A := (ST tree string A).

Definition cache_file (kind name : string) : string := path_join [rv_RegistryClientCache cfg; kind; name +:+ ".json"].

Definition findInCache (kind name : string) : D string :=
  t ← gets id;
  if negb (FileIsDir t (abs_path (rv_RegistryClientCache cfg))) then throw "no cache found"
  else
    ok ← exists_file (cache_file kind name);
    if negb ok then throw "not found in cache" else os_ReadFile (cache_file kind name).

Definition storeInCache (kind name data : string) : D () :=
  let targetDir := path_join [rv_RegistryClientCache cfg; kind] in
  t ← gets id;
  (if negb (FileIsDir t (abs_path targetDir)) then os_MkdirAll denied targetDir else mret tt);;
  os_WriteFile denied (path_join [targetDir; name +:+ ".json"]) data.

(** Whether the registry may be used at all. *)
Definition registry_usable (kind : string) : res () :=
  if negb (String.eqb kind "agent") then Err (unsupported kind)
  else if String.eqb (rv_RegistryClientCache cfg) "" then Err "registry client is not enabled"
  else if rv_InitiatedByServer cfg then Err "servers cannot resolve DDLs via the registry"
  else Ok tt.

(** The first reply that failed is not told apart from the last one. *)
Definition each_ddl (replies : list registry_reply) : res string :=
  let '(ddl, err) := foldl (λ s r, if rg_ok r then (rg_ddl r, s.2)
                                   else (s.1, Some ("invalid response: " +:+ rg_status r))) ("", None) replies in
  match err with Some e => Err e | None => Ok ddl end.

Definition registry_DDLBytes (kind name : string) : D string :=
  lift (registry_usable kind);;
  cached ← attempt (findInCache kind name);
  match cached with
  | inl b => mret b
  | inr _ =>
      if rv_RegistryCacheOnly cfg then throw "registry client is operating in cache only mode"
      else
        replies ← lift (ask_ddl kind name);
        if Nat.ltb (length replies) 1 then throw "did not receive any response from the registry"
        else
          ddl ← lift (each_ddl replies);
          attempt (storeInCache kind name ddl);;
          mret ddl
  end.

Definition cacheDDLNames (kind : string) : D (list string) :=
  t ← gets id;
  entries ← lift (ReadDir (abs_path (path_join [rv_RegistryClientCache cfg; kind])) t);
  mret (json_names entries).

(** The names come with the error of a reply that failed. *)
Definition each_name (replies : list registry_reply) : list string * option string :=
  foldl (λ s r, if rg_ok r then (s.1 ++ omap id (rg_names r), s.2)
                else (s.1, Some ("invalid response: " +:+ rg_status r))) ([], None) replies.

Definition registry_DDLNames (kind : string) : D (list string) :=
  lift (registry_usable kind);;
  if rv_RegistryCacheOnly cfg then cacheDDLNames kind
  else
    replies ← lift (ask_names kind);
    if Nat.ltb (length replies) 1 then throw "did not receive any response from the registry"
    else
      match each_name replies with
      | (names, None) => mret names
      | (_, Some e) => throw e
      end.

End Registry.

(** ** The resolvers of a program *)

Record DDLResolver := {
  rs_String : string;
  rs_DDLBytes : string → string → ST tree string string;
  rs_DDLNames : string → ST tree string (list string);
}.

(** [DDL] of any resolver. *)
Definition resolver_DDL {T} (unmarshal : string → res T) (r : DDLResolver) (kind name : string) : ST tree string T :=
  b ← rs_DDLBytes r kind name; lift (unmarshal b).

Section Resolvers.
Variable cfg : ResolverConfig.
Variable embedded : tree.
Variable unreadable denied : string → bool.
Variable ask_ddl : string → string → res (list registry_reply).
Variable ask_names : string → res (list registry_reply).

Definition InternalCachedDDLResolver : DDLResolver :=
  {| rs_String := "Binary Cache DDL Resolver"; rs_DDLBytes := λ kind name, lift (cached_DDLBytes embedded kind name);
     rs_DDLNames := λ kind, lift (cached_DDLNames embedded kind) |}.

Definition FileSystemDDLResolver : DDLResolver :=
  {| rs_String := "File System DDL Resolver";
     rs_DDLBytes := λ kind name, t ← gets id; lift (fs_DDLBytes cfg unreadable t kind name);
     rs_DDLNames := λ kind, t ← gets id; lift (fs_DDLNames cfg t kind) |}.

Definition RegistryDDLResolver : DDLResolver :=
  {| rs_String := "Choria Registry DDL Resolver"; rs_DDLBytes := registry_DDLBytes cfg denied ask_ddl;
     rs_DDLNames := registry_DDLNames cfg ask_names |}.

Definition DDLResolvers : list DDLResolver :=
  [InternalCachedDDLResolver; FileSystemDDLResolver] ++
  if String.eqb (rv_RegistryClientCache cfg) "" then [] else [RegistryDDLResolver].

End Resolvers.

(** The first resolver that answers, as clients ask them. *)
Fixpoint resolve (rs : list DDLResolver) (kind name : string) : ST tree string string :=
  match rs with
  | [] => throw ("could not resolve " +:+ name +:+ " DDL in any resolver")
  | r :: rest =>
      b ← attempt (rs_DDLBytes r kind name);
      match b with
      | inl b => mret b
      | inr _ => resolve rest kind name
      end
  end.

(** ** The registry agent *)

Inductive registry_data :=
| NamesResponse (names : list string) (plugin_type : string)
| DDLResponse (name plugin_type version ddl : string).

Record registry_answer := {
  ra_Statuscode : StatusCode;
  ra_Statusmsg : string;
  ra_Data : option registry_data;
}.

Definition answered (d : registry_data) : registry_answer := {| ra_Statuscode := OK; ra_Statusmsg := "OK"; ra_Data := Some d |}.
Definition registry_abort (msg : string) (d : registry_data) : registry_answer :=
  {| ra_Statuscode := Aborted; ra_Statusmsg := msg; ra_Data := Some d |}.

(** Requests, validated, and the forms of a DDL. *)
Class RegistryJSON := {
  parse_names : string → res string;
  parse_ddl : string → res (string * string * string);
  ToRuby : DDL → res string;
  ddl_Marshal : DDL → res string;
}.

Section Agent.
Context `{DL : DDLLib} `{RX : Regexp} `{RJ : RegistryJSON}.
Variable ddl_of : string → option DDL.
Variable compiled_in : string → option DDL.
Variable unreadable : string → bool.
Variable t : tree.
(** [plugin.choria.services.registry.store] *)
Variable store : string.

Definition registry_active : bool := negb (String.eqb store "").

(** The walk and the files of DDL.v, on the tree. *)
Definition tree_files : DDLFiles := {| walk_files := walk t; ddl_Unmarshal := ddl_of; CachedDDL := compiled_in |}.
Definition tree_fs : filesystem := map_imap (λ p n, match n with
                                                    | File c => Some (if unreadable p then None else Some c)
                                                    | Dir => Some None
                                                    end) t.

Definition names_reply (plugin_type : string) : registry_answer :=
  if String.eqb plugin_type "agent" then
    answered (NamesResponse (EachFile (DF := tree_files) "agent" [store] (λ n _ names, (names ++ [n], false)) []) plugin_type)
  else registry_abort ("Unsupported plugin type " +:+ plugin_type) (NamesResponse [] plugin_type).

Definition invalid (e : string) : registry_answer := {| ra_Statuscode := InvalidData; ra_Statusmsg := e; ra_Data := None |}.

Definition namesAction (data : string) : res registry_answer :=
  match parse_names data with Ok p => Ok (names_reply p) | Err e => Ok (invalid e) | Panic w => Panic w end.

Definition ddl_reply (name plugin_type format : string) : res registry_answer :=
  if String.eqb plugin_type "agent" then
    match FindLocally (DF := tree_files) tree_fs name [store] with
    | Panic w => Panic w
    | Err _ => Ok (registry_abort "Could not load DDL" (DDLResponse "" "" "" ""))
    | Ok addl =>
        let version := md_Version (ddl_Metadata addl) in
        match (if String.eqb format "ddl" then ToRuby addl else ddl_Marshal addl) with
        | Ok text => Ok (answered (DDLResponse name "agent" version text))
        | Err _ => Ok (registry_abort "Could not encode DDL" (DDLResponse name "agent" version ""))
        | Panic w => Panic w
        end
    end
  else Ok (registry_abort ("Unsupported plugin type " +:+ plugin_type) (DDLResponse "" "" "" "")).

Definition ddlAction (data : string) : res registry_answer :=
  match parse_ddl data with
  | Ok (name, plugin_type, format) => ddl_reply name plugin_type format
  | Err e => Ok (invalid e)
  | Panic w => Panic w
  end.

End Agent.

(** * DDL resolvers: properties *)

(** ** Files of the host *)

Section FileSystem.
Variable cfg : ResolverConfig.
Variable unreadable : string → bool.
Variable t : tree.

(** The JSON files of a kind with their names, in the order of the library directories. *)
Definition host_files (kind : string) (libdirs : list string) : list (string * string) :=
  dir ← libdirs;
  n ← ["choria"; "mcollective"];
  path ← walk t (path_join [dir; n; kind]);
  if has_suffix path ".json" then [(trim_suffix (path_base path) ".json", path)] else [].

Lemma foldl_bind {A B S} (f : S → B → S) (g : A → list B) (l : list A) s :
  foldl f s (l ≫= g) = foldl (λ s a, foldl f s (g a)) s l.
Proof. revert s. induction l as [|a l IH]; intros s; [done|]. cbn. rewrite foldl_app. apply IH. Qed.

Lemma foldl_same {A S} (f g : S → A → S) (l : list A) s : (∀ s a, f s a = g s a) → foldl f s l = foldl g s l.
Proof. intros H. revert s. induction l as [|a l IH]; intros s; [done|]. cbn. rewrite H. apply IH. Qed.

Lemma EachFile_files {S} kind libdirs (cb : string → string → S → S) s :
  resolver_EachFile t kind libdirs cb s = foldl (λ s f, cb f.1 f.2 s) s (host_files kind libdirs).
Proof.
  unfold resolver_EachFile, host_files. rewrite foldl_bind. apply foldl_same. clear s. intros s dir. rewrite foldl_bind.
  apply foldl_same. clear s. intros s n. rewrite foldl_bind. apply foldl_same. clear s. intros s path.
  by destruct (has_suffix path ".json").
Qed.

Lemma foldl_last {A S} (p : A → bool) (r : A → S) (l : list A) s :
  foldl (λ s a, if p a then r a else s) s l = from_option r s (last (List.filter p l)).
Proof.
  revert s. induction l as [|a l IH]; intros s; [done|]. cbn [foldl List.filter]. rewrite IH. destruct (p a); [|done].
  rewrite last_cons. by destruct (last (List.filter p l)).
Qed.

(** Of the files of a name the last one decides, over all library directories: its content,
    or an error when there is none, it cannot be read or it is empty. *)
Theorem last_file_resolves (kind name : string) : known_kind kind = true →
  fs_DDLBytes cfg unreadable t kind name =
  match last (List.filter (λ f, String.eqb f.1 name) (host_files kind (libDirs cfg))) with
  | None => Err ("could not find DDL " +:+ kind +:+ "/" +:+ name)
  | Some f =>
      match os_ReadFile_of unreadable t f.2 with
      | Ok "" => Err ("could not find DDL " +:+ kind +:+ "/" +:+ name)
      | Err e => Err ("could not find DDL " +:+ kind +:+ "/" +:+ name +:+ ": " +:+ e)
      | r => r
      end
  end.
Proof.
  intros Hk. unfold fs_DDLBytes. rewrite Hk. cbn [negb]. rewrite EachFile_files.
  rewrite (foldl_last (λ f, String.eqb f.1 name) (λ f, os_ReadFile_of unreadable t f.2)).
  destruct (last _) as [f|]; [|done]. cbn [from_option]. by destruct (os_ReadFile_of unreadable t f.2) as [[|c s]|e|w].
Qed.

Lemma names_fold (l : list (string * string)) acc : foldl (λ s f, s ++ [f.1]) acc l = acc ++ map fst l.
Proof. revert acc. induction l as [|a l IH]; intros acc; [by rewrite app_nil_r|]. cbn. by rewrite IH, <- app_assoc. Qed.

Lemma last_filter_some {A} (p : A → bool) (l : list A) a : a ∈ l → p a = true → ∃ b, last (List.filter p l) = Some b ∧ b ∈ l ∧ p b = true.
Proof.
  intros Ha Hp. destruct (last (List.filter p l)) as [b|] eqn:E.
  - exists b. split; [done|]. apply last_Some_elem_of, list_elem_of_In, filter_In in E as [? ?]. by rewrite list_elem_of_In.
  - apply last_None in E. assert (In a (List.filter p l)) as Hin by (apply filter_In; rewrite <- list_elem_of_In; auto).
    by rewrite E in Hin.
Qed.

(** The resolver answers for every name it lists, as long as files can be read and hold
    something. *)
Theorem listed_names_resolve (kind name : string) names : fs_DDLNames cfg t kind = Ok names → name ∈ names →
  (∀ f, f ∈ host_files kind (libDirs cfg) → ∃ c s, os_ReadFile_of unreadable t f.2 = Ok (String c s)) →
  ∃ f, f ∈ host_files kind (libDirs cfg) ∧ f.1 = name ∧ fs_DDLBytes cfg unreadable t kind name = os_ReadFile_of unreadable t f.2.
Proof.
  unfold fs_DDLNames. destruct (known_kind kind) eqn:Hk; [|done]. cbn [negb]. intros [= <-] Hn Hread.
  rewrite EachFile_files, names_fold, sort_strings_elem in Hn. cbn [app] in Hn. apply list_elem_of_fmap in Hn as (f & -> & Hf).
  destruct (last_filter_some (λ g, String.eqb g.1 f.1) _ f Hf ltac:(apply String.eqb_refl)) as (g & Hl & Hg & Heq).
  apply String.eqb_eq in Heq. exists g. split; [done|]. split; [done|].
  unfold fs_DDLBytes. rewrite Hk. cbn [negb]. rewrite EachFile_files.
  rewrite (foldl_last (λ h, String.eqb h.1 f.1) (λ h, os_ReadFile_of unreadable t h.2)), Hl. cbn [from_option].
  destruct (Hread g Hg) as (c & s & ->). done.
Qed.

End FileSystem.

(** ** The cache of the registry *)

Lemma make_dirs_keep l t t' q : make_dirs l t = Ok t' → t !! q = Some Dir → t' !! q = Some Dir.
Proof.
  revert t. induction l as [|d l IH]; intros t H Hq; [by injection H as <-|]. cbn in H.
  destruct (t !! d) as [[|c]|] eqn:Hd; [| done|]; (apply (IH _ H); destruct (decide (d = q)) as [->|]; [by rewrite lookup_insert_eq|];
    by rewrite lookup_insert_ne).
Qed.

Section Registry.
Variable cfg : ResolverConfig.
Variable denied : string → bool.

Lemma findInCache_pure kind name t : (findInCache cfg kind name t).1 = t.
Proof.
  unfold findInCache, exists_file, gets, os_ReadFile, mbind, ST_bind. cbn [id].
  destruct (FileIsDir t (abs_path (rv_RegistryClientCache cfg))); [|done]. cbn [negb].
  by destruct (FileExist t (abs_path (cache_file cfg kind name))).
Qed.

(** The two paths of a cached DDL are one. *)
Definition one_cache_path (kind name : string) : Prop :=
  abs_path (path_join [path_join [rv_RegistryClientCache cfg; kind]; name +:+ ".json"]) = abs_path (cache_file cfg kind name).

Lemma stored_is_found kind name b t : one_cache_path kind name → FileIsDir t (abs_path (rv_RegistryClientCache cfg)) = true →
  is_ok (storeInCache cfg denied kind name b t).2 = true →
  let t' := (storeInCache cfg denied kind name b t).1 in findInCache cfg kind name t' = (t', Ok b).
Proof.
  intros Hpath Hdir Hok t'. subst t'. unfold storeInCache, gets in *. unfold mbind, ST_bind in *. cbn [id] in *.
  assert (t !! abs_path (rv_RegistryClientCache cfg) = Some Dir) as Hcache.
  { unfold FileIsDir in Hdir. by destruct (t !! _) as [[|]|]. }
  assert (∃ t1, (if negb (FileIsDir t (abs_path (path_join [rv_RegistryClientCache cfg; kind])))
                 then os_MkdirAll denied (path_join [rv_RegistryClientCache cfg; kind]) else mret tt) t = (t1, Ok tt) ∧
     t1 !! abs_path (rv_RegistryClientCache cfg) = Some Dir) as (t1 & Ht1 & Hc1).
  { destruct (negb _); [|by exists t].
    destruct (os_MkdirAll denied (path_join [rv_RegistryClientCache cfg; kind]) t) as [t1 [[]|e|w]] eqn:Hm; [|done..].
    exists t1. split; [done|]. apply change_spec in Hm as [(Hf & _ & _)|[_ Hf]]; [|done].
    by eapply make_dirs_keep in Hf. }
  rewrite Ht1 in Hok |- *. clear Ht1.
  destruct (os_WriteFile denied (path_join [path_join [rv_RegistryClientCache cfg; kind]; name +:+ ".json"]) b t1) as [t2 o] eqn:Hw.
  apply change_spec in Hw as [(Hw & -> & _)|[_ Hw]]; [|cbn in Hok; congruence].
  apply WriteFile_ok in Hw as (-> & Hno & _). rewrite Hpath in *. cbn [fst].
  unfold findInCache, exists_file, gets, os_ReadFile. unfold mbind, ST_bind. cbn [id].
  assert (abs_path (cache_file cfg kind name) ≠ abs_path (rv_RegistryClientCache cfg)) as Hne by congruence.
  assert (FileIsDir (<[abs_path (cache_file cfg kind name) := File b]> t1) (abs_path (rv_RegistryClientCache cfg)) = true) as ->.
  { unfold FileIsDir. rewrite lookup_insert_ne by done. rewrite Hc1. by rewrite (proj2 (String.eqb_neq _ _) (abs_path_nonempty _)). }
  cbn [negb]. rewrite FileExist_abs, bool_decide_true by (rewrite lookup_insert_eq; eauto). cbn [negb].
  unfold read_file. by rewrite lookup_insert_eq.
Qed.

Variable ask : string → string → res (list registry_reply).

(** What a registry answered is what every later request for the DDL gets, whatever
    registries say then, when the cache takes it. *)
Theorem answers_are_kept (kind name b : string) (t t' : tree) : one_cache_path kind name →
  FileIsDir t (abs_path (rv_RegistryClientCache cfg)) = true →
  is_ok (storeInCache cfg denied kind name b t).2 = true →
  registry_DDLBytes cfg denied ask kind name t = (t', Ok b) →
  ∀ ask', registry_DDLBytes cfg denied ask' kind name t' = (t', Ok b).
Proof.
  intros Hpath Hdir Hstore H ask'. unfold registry_DDLBytes, lift, attempt in *. unfold mbind, ST_bind in *.
  destruct (registry_usable cfg kind) as [[]|?|?]; [|done..].
  pose proof (findInCache_pure kind name t) as Hp.
  destruct (findInCache cfg kind name t) as [t0 [c|e|w]] eqn:Hf; cbn [fst] in Hp; subst t0; [| |done].
  - injection H as <- <-. by rewrite Hf.
  - destruct (rv_RegistryCacheOnly cfg); [done|]. destruct (ask kind name) as [replies|?|?]; [|done..].
    destruct (Nat.ltb (length replies) 1); [done|]. destruct (each_ddl replies) as [ddl|?|?]; [|done..].
    destruct (storeInCache cfg denied kind name ddl t) as [t1 o] eqn:Hs.
    assert (ddl = b ∧ t1 = t') as [-> ->] by (destruct o; cbn in H; [injection H as <- <-; done..|done]).
    pose proof (stored_is_found kind name b t Hpath Hdir Hstore) as Hk. rewrite Hs in Hk. cbn [fst] in Hk. by rewrite Hk.
Qed.

End Registry.

(** ** The order of resolvers *)

Lemma resolve_cons r rest kind name t : resolve (r :: rest) kind name t =
  match rs_DDLBytes r kind name t with
  | (t', Ok b) => (t', Ok b)
  | (t', Err _) => resolve rest kind name t'
  | (t', Panic w) => (t', Panic w)
  end.
Proof. cbn [resolve]. unfold attempt, mbind, ST_bind. by destruct (rs_DDLBytes r kind name t) as [t' [b|e|w]]. Qed.

(** A DDL that is compiled in is used whatever files and registries have; then the host's
    is; the registry is asked last, and never by servers. *)
Theorem resolvers_in_order (cfg : ResolverConfig) (embedded : tree) (unreadable denied : string → bool) ask_ddl ask_names
    (name : string) (t : tree) :
  let resolved := resolve (DDLResolvers cfg embedded unreadable denied ask_ddl ask_names) "agent" name t in
  (∀ b, cached_DDLBytes embedded "agent" name = Ok b → resolved = (t, Ok b)) ∧
  (∀ e b, cached_DDLBytes embedded "agent" name = Err e → fs_DDLBytes cfg unreadable t "agent" name = Ok b → resolved = (t, Ok b)) ∧
  (∀ e e', cached_DDLBytes embedded "agent" name = Err e → fs_DDLBytes cfg unreadable t "agent" name = Err e' →
     rv_RegistryClientCache cfg = "" ∨ rv_InitiatedByServer cfg = true → resolved.1 = t ∧ is_ok resolved.2 = false) ∧
  (∀ e e' b t', cached_DDLBytes embedded "agent" name = Err e → fs_DDLBytes cfg unreadable t "agent" name = Err e' →
     registry_DDLBytes cfg denied ask_ddl "agent" name t = (t', Ok b) → resolved = (t', Ok b)).
Proof.
  intros resolved. subst resolved. unfold DDLResolvers. cbn [app]. rewrite !resolve_cons.
  change (rs_DDLBytes (InternalCachedDDLResolver embedded) "agent" name t) with (t, cached_DDLBytes embedded "agent" name).
  split_and!.
  - by intros b ->.
  - intros e b -> Hfs. rewrite resolve_cons.
    change (rs_DDLBytes (FileSystemDDLResolver cfg unreadable) "agent" name t) with (t, fs_DDLBytes cfg unreadable t "agent" name).
    by rewrite Hfs.
  - intros e e' -> Hfs Hno. rewrite resolve_cons.
    change (rs_DDLBytes (FileSystemDDLResolver cfg unreadable) "agent" name t) with (t, fs_DDLBytes cfg unreadable t "agent" name).
    rewrite Hfs. destruct (String.eqb_spec (rv_RegistryClientCache cfg) "") as [Hc|Hc]; [done|].
    destruct Hno as [?|Hs]; [done|]. rewrite resolve_cons. cbn [rs_DDLBytes RegistryDDLResolver].
    assert (registry_DDLBytes cfg denied ask_ddl "agent" name t = (t, Err "servers cannot resolve DDLs via the registry")) as ->; [|done].
    unfold registry_DDLBytes, registry_usable, lift, mbind, ST_bind. by rewrite (proj2 (String.eqb_neq _ _) Hc), Hs.
  - intros e e' b t' -> Hfs Hr. rewrite resolve_cons.
    change (rs_DDLBytes (FileSystemDDLResolver cfg unreadable) "agent" name t) with (t, fs_DDLBytes cfg unreadable t "agent" name).
    rewrite Hfs. destruct (String.eqb_spec (rv_RegistryClientCache cfg) "") as [Hc|Hc].
    { exfalso. unfold registry_DDLBytes, registry_usable, lift, mbind, ST_bind in Hr. by rewrite Hc in Hr. }
    rewrite resolve_cons. cbn [rs_DDLBytes RegistryDDLResolver]. by rewrite Hr.
Qed.

(** ** Clients of the registry agent *)

Section Agent.
Context `{DL : DDLLib} `{RX : Regexp} `{RJ : RegistryJSON}.
Variable ddl_of : string → option DDL.
Variable compiled_in : string → option DDL.
Variable unreadable : string → bool.
(** The files of the registry and its store. *)
Variable ts : tree.
Variable store : string.

(** What clients read in a reply. *)
Definition reply_of (a : registry_answer) : registry_reply :=
  {| rg_ok := match ra_Statuscode a with OK => true | _ => false end; rg_status := ra_Statusmsg a;
     rg_ddl := match ra_Data a with Some (DDLResponse _ _ _ d) => d | _ => "" end;
     rg_names := match ra_Data a with Some (NamesResponse l _) => map Some l | _ => [] end |}.

Definition ask_agent (kind name : string) : res (list registry_reply) :=
  a ← ddl_reply ddl_of compiled_in unreadable ts store name kind "json"; Ok [reply_of a].

Lemma registry_names_are_files :
  names_reply ddl_of compiled_in ts store "agent" = answered (NamesResponse (map fst (host_files ts "agent" [store])) "agent").
Proof.
  unfold names_reply, EachFile. cbn [String.eqb Ascii.eqb Bool.eqb]. f_equal. f_equal. apply (names_fold (host_files ts "agent" [store]) []).
Qed.

(** A client that asks the registry agent gets the JSON of the DDL the agent finds, or an
    error that says it found none; nothing is cached then. *)
Theorem registry_serves_clients (cfg : ResolverConfig) (denied : string → bool) (name : string) (t : tree) :
  registry_usable cfg "agent" = Ok tt → rv_RegistryCacheOnly cfg = false →
  (∃ e, (findInCache cfg "agent" name t).2 = Err e) →
  let found := FindLocally (DF := tree_files ddl_of compiled_in ts) (tree_fs unreadable ts) name [store] in
  let answer := registry_DDLBytes cfg denied ask_agent "agent" name t in
  (∀ d text, found = Ok d → ddl_Marshal d = Ok text →
     answer = ((storeInCache cfg denied "agent" name text t).1, Ok text) ∨ is_panic (storeInCache cfg denied "agent" name text t).2 = true) ∧
  (∀ e, found = Err e → answer = (t, Err "invalid response: Could not load DDL")).
Proof.
  intros Hu Hc [e He] found answer. subst answer. unfold registry_DDLBytes, lift, attempt, mbind, ST_bind.
  rewrite Hu. pose proof (findInCache_pure cfg "agent" name t) as Hp.
  destruct (findInCache cfg "agent" name t) as [t0 o]. cbn [fst snd] in Hp, He. subst t0 o. rewrite Hc.
  unfold ask_agent, ddl_reply. cbn [String.eqb Ascii.eqb Bool.eqb]. fold found. split.
  - intros d text -> Hm. rewrite Hm. cbn. destruct (storeInCache cfg denied "agent" name text t) as [t1 [[]|?|?]]; [by left..|by right].
  - intros e' ->. done.
Qed.

End Agent.

(** ** Hosts for the witnesses *)

Definition demo_registry_client : ResolverConfig :=
  {| rv_LibDir := ["/lib"]; rv_RubyLibdir := ["/ruby"]; rv_RegistryClientCache := "/cache"; rv_InitiatedByServer := false;
     rv_RegistryCacheOnly := false |}.
Definition demo_libs : tree :=
  {["/lib" := Dir; "/lib/choria" := Dir; "/lib/choria/agent" := Dir; "/lib/choria/agent/puppet.json" := File "new";
    "/ruby" := Dir; "/ruby/mcollective" := Dir; "/ruby/mcollective/agent" := Dir; "/ruby/mcollective/agent/puppet.json" := File "old";
    "/cache" := Dir]}.
Definition demo_empty_answer : list registry_reply := [{| rg_ok := true; rg_status := "OK"; rg_ddl := ""; rg_names := [] |}].
Definition nothing_denied : string → bool := λ _, false.

Lemma last_file_resolves_witness : fs_DDLBytes demo_registry_client nothing_denied demo_libs "agent" "puppet" = Ok "old".
Proof.
  transitivity (match last (List.filter (λ f, String.eqb f.1 "puppet") (host_files demo_libs "agent" (libDirs demo_registry_client))) with
                | None => Err "" | Some f => os_ReadFile_of nothing_denied demo_libs f.2 end : res string); [|vm_compute; reflexivity].
  etransitivity; [apply (last_file_resolves demo_registry_client nothing_denied demo_libs "agent" "puppet" eq_refl)|].
  vm_compute. reflexivity.
Defined.

Lemma listed_names_resolve_witness :
  ∃ f, f.1 = "puppet" ∧ fs_DDLBytes demo_registry_client nothing_denied demo_libs "agent" "puppet" = os_ReadFile_of nothing_denied demo_libs f.2.
Proof.
  destruct (listed_names_resolve demo_registry_client nothing_denied demo_libs "agent" "puppet" ["puppet"; "puppet"]) as (f & _ & H1 & H2).
  - vm_compute. reflexivity.
  - apply elem_of_cons. by left.
  - intros f Hf. assert (host_files demo_libs "agent" (libDirs demo_registry_client) =
      [("puppet", "/lib/choria/agent/puppet.json"); ("puppet", "/ruby/mcollective/agent/puppet.json")]) as Hfiles by (vm_compute; reflexivity).
    rewrite Hfiles in Hf. clear Hfiles.
    rewrite list_elem_of_In in Hf. destruct Hf as [<-|[<-|[]]]; vm_compute; eauto.
  - exists f. split; [exact H1|exact H2].
Defined.

(** An empty answer is kept as well: the DDL stays empty for the client. *)
Lemma answers_are_kept_witness :
  let t := (registry_DDLBytes demo_registry_client nothing_denied (λ _ _, Ok demo_empty_answer) "agent" "choria" demo_libs).1 in
  registry_DDLBytes demo_registry_client nothing_denied
    (λ _ _, Ok [{| rg_ok := true; rg_status := "OK"; rg_ddl := "{}"; rg_names := [] |}]) "agent" "choria" t = (t, Ok "").
Proof.
  apply (answers_are_kept demo_registry_client nothing_denied (λ _ _, Ok demo_empty_answer) "agent" "choria" "" demo_libs);
    vm_compute; reflexivity.
Defined.

Lemma resolvers_in_order_witness :
  resolve (DDLResolvers demo_registry_client {["ddl/cache/agent/puppet.json" := File "{}"]} nothing_denied nothing_denied
             (λ _ _, Ok demo_empty_answer) (λ _, Ok [])) "agent" "puppet" demo_libs = (demo_libs, Ok "{}").
Proof.
  apply (proj1 (resolvers_in_order demo_registry_client {["ddl/cache/agent/puppet.json" := File "{}"]} nothing_denied nothing_denied
    (λ _ _, Ok demo_empty_answer) (λ _, Ok []) "puppet" demo_libs)). vm_compute. reflexivity.
Defined.

#[local] Instance demo_registry_json : RegistryJSON :=
  {| parse_names := λ s, Ok s; parse_ddl := λ s, Ok (s, "agent", "json"); ToRuby := λ _, Err "no ruby";
     ddl_Marshal := λ d, Ok (md_Name (ddl_Metadata d)) |}.
#[local] Instance demo_no_ddl_lib : DDLLib := {| ParseFloat64 := λ _, None; json_Object := λ _, None; json_Array := λ _, None |}.
#[local] Instance demo_no_regexp : Regexp := {| regexp_match := λ _ _, None |}.
Definition demo_registered (name : string) : DDL :=
  {| ddl_Schema := "";
     ddl_Metadata := {| md_Name := name; md_Version := "1.0.0"; md_Timeout := 10; md_Service := false; md_Provider := "" |};
     ddl_Actions := []; ddl_SourceLocation := "" |}.

Lemma registry_serves_clients_witness :
  registry_DDLBytes demo_registry_client nothing_denied
    (ask_agent (λ s, Some (demo_registered s)) (λ _, None) nothing_denied demo_libs "/lib") "agent" "puppet" {["/cache" := Dir]} =
  ((storeInCache demo_registry_client nothing_denied "agent" "puppet" "new" {["/cache" := Dir]}).1, Ok "new").
Proof.
  destruct (registry_serves_clients (λ s, Some (demo_registered s)) (λ _, None) nothing_denied demo_libs "/lib" demo_registry_client
    nothing_denied "puppet" {["/cache" := Dir]}) as [H _].
  - reflexivity.
  - reflexivity.
  - eexists. vm_compute. reflexivity.
  - destruct (H {| ddl_Schema := ""; ddl_Metadata := ddl_Metadata (demo_registered "new"); ddl_Actions := []; ddl_SourceLocation := "/lib/choria/agent/puppet.json" |} "new") as [Hok|Hp].
    + vm_compute. reflexivity.
    + reflexivity.
    + exact Hok.
    + vm_compute in Hp. discriminate.
Defined.

(** One reply that failed makes the request fail, and the names are lost with it. *)
Example one_failure_fails :
  each_ddl [{| rg_ok := true; rg_status := "OK"; rg_ddl := "{}"; rg_names := [] |};
            {| rg_ok := false; rg_status := "gone"; rg_ddl := ""; rg_names := [] |}] = Err "invalid response: gone".
Proof. reflexivity. Qed.
