(* ===== verification/BuiltinAgents.v ===== *)
(** * The agents of the program

    providers/agent/mcorpc/golang with its discovery/, rpcutil/ and choriautil/, and
    scout/agent: what the agents every server has tell about it, and the checks and
    machines they act on.  Requests are parsed and validated by arguments; the machines, the
    goss library and temporary files are a world actions change; logging is left out. *)
From S2P Require Import Prelude GoLib Files Regex Util GoNum Validator AgentManager Confkey DDL Facts DemoLibs DataPlugins ActionPolicy Rpc.

(** What an action leaves in its reply. *)
Record action_reply (D : Type) := {
  ap_Statuscode : StatusCode;
  ap_Statusmsg : string;
  ap_Data : option D;
}.
Arguments ap_Statuscode {D} _.
Arguments ap_Statusmsg {D} _.
Arguments ap_Data {D} _.

Definition replied {D} (d : D) : action_reply D := {| ap_Statuscode := OK; ap_Statusmsg := "OK"; ap_Data := Some d |}.
Definition no_data {D} : action_reply D := {| ap_Statuscode := OK; ap_Statusmsg := "OK"; ap_Data := None |}.
Definition aborted {D} (msg : string) (d : option D) : action_reply D :=
  {| ap_Statuscode := Aborted; ap_Statusmsg := msg; ap_Data := d |}.

(** [ParseRequestData]: the reply of data that cannot be parsed or is not valid. *)
Definition with_request {A D} (parsed : res A) (d : option D) (k : A → res (action_reply D)) : res (action_reply D) :=
  match parsed with
  | Ok a => k a
  | Err e => Ok {| ap_Statuscode := InvalidData; ap_Statusmsg := e; ap_Data := d |}
  | Panic p => Panic p
  end.

(** ** Discovery *)

(** What the discovery agent answers to a message: a body or an error. *)
Definition discovery_HandleMessage (payload : string) : string * option string :=
  if str_contains payload "ping" then ("pong", None) else ("", Some ("unknown request: " +:+ payload)).

(** ** rpcutil *)

Section Rpcutil.
Context `{FL : FactLib}.
Context {SI : Type}.

Record AgentInventoryInfo := { ii_Agent : string; ii_Metadata : Metadata }.

Record UtilMachineState := { um_Name : string; um_State : string; um_Version : string }.

Record InventoryReply := {
  iy_Agents : list string;
  iy_Classes : list string;
  iy_Collectives : list string;
  iy_DataPlugins : list string;
  iy_Facts : string;
  iy_Machines : list UtilMachineState;
  iy_MainCollective : string;
  iy_Version : string;
  iy_Upgradable : bool;
}.

Record DaemonStatsReply := {
  ds_Agents : list string;
  ds_ConfigFile : string;
  ds_PID : Z;
  ds_Procs : list string;
  ds_StartTime : Z;
  ds_Stats : DataServerStats;
  ds_Version : string;
}.

Inductive rpcutil_data :=
| PingReply (pong : Z)
| GetFactReply (fact : string) (value : option (fact_value float64))
| GetFactsReply (values : gmap string (option (fact_value float64)))
| CollectiveInfoReply (main : string) (collectives : list string)
| AgentInventoryReply (agents : list AgentInventoryInfo)
| RpcutilInventory (i : InventoryReply)
| DaemonStats (d : DaemonStatsReply)
| DataReply (output : option (gmap string value))
| ConfigItem (item : string) (value : Confkey.value).

(** What the agent knows of its server. *)
Record util_server := {
  us_MainCollective : string;
  us_Collectives : list string;
  us_FactSourceFile : string;
  us_Config : struct;
  us_Choria : struct;
  us_AllowUpdate : bool;
  us_BuildAllowsUpdate : bool;
  us_Facts : string;
  us_Info : DataServerInfo;
  us_StartTime : Z;
  us_Procs : list string;
  us_AgentMetadata : string → option Metadata;
  us_FuncMap : res (gmap string (FuncMapEntry));
}.

Variable fs : filesystem.
Variable srv : util_server.

Abbreviation reply := (res (action_reply rpcutil_data)).

Definition pingAction (now : Z) : reply := Ok (replied (PingReply now)).

Definition collectiveInfoAction : reply := Ok (replied (CollectiveInfoReply (us_MainCollective srv) (us_Collectives srv))).

Definition getFactValue (fact : string) : res (option (fact_value float64)) :=
  '(_, value) ← GetFact fs fact (us_FactSourceFile srv); Ok value.

(** Facts that cannot be read are null. *)
Definition fact_or_null (fact : string) : option (fact_value float64) := match getFactValue fact with Ok v => v | _ => None end.

Definition getFactAction (request : res string) : reply :=
  with_request request None (λ fact, Ok (replied (GetFactReply fact (fact_or_null fact)))).

Definition getFactsAction (request : res string) : reply :=
  with_request request None (λ facts,
    Ok (replied (GetFactsReply (foldl (λ o fact, let fact := trim_space fact in <[fact := fact_or_null fact]> o) ∅ (split facts ","))))).

Definition agentInventoryAction : reply :=
  Ok (replied (AgentInventoryReply
    (omap (λ a, md ← us_AgentMetadata srv a; Some {| ii_Agent := a; ii_Metadata := md |}) (sv_KnownAgents (us_Info srv))))).

Definition inventoryAction : reply :=
  let si := us_Info srv in
  let dfm := match us_FuncMap srv with Ok m => m | _ => ∅ end in
  let states := match sv_MachinesStatus si with Ok l => l | _ => [] end in
  Ok (replied (RpcutilInventory
    {| iy_Agents := sv_KnownAgents si; iy_Classes := sv_Classes si; iy_Collectives := us_Collectives srv;
       iy_DataPlugins := sort_strings (map (λ kv, fe_Name kv.2) (map_to_list dfm)); iy_Facts := us_Facts srv;
       iy_Machines := map (λ s, {| um_Name := ms_Name s; um_State := ms_State s; um_Version := ms_Version s |}) states;
       iy_MainCollective := us_MainCollective srv; iy_Version := bo_Version (sv_Build si);
       iy_Upgradable := us_AllowUpdate srv || us_BuildAllowsUpdate srv |})).

Definition daemonStatsAction : reply :=
  let si := us_Info srv in
  Ok (replied (DaemonStats
    {| ds_Agents := sv_KnownAgents si; ds_ConfigFile := sv_ConfigFile si; ds_PID := sv_Pid si; ds_Procs := us_Procs srv;
       ds_StartTime := us_StartTime srv; ds_Stats := sv_Stats si; ds_Version := bo_Version (sv_Build si) |})).

(** The functions of the data plugins, which do not look at the query. *)
Definition getData (request : res (string * string)) : reply :=
  match us_FuncMap srv with
  | Panic p => Panic p
  | Err _ => Ok (aborted "Could not load data sources" None)
  | Ok dfm =>
      with_request request None (λ '(source, query),
        match dfm !! source with
        | None => Ok (aborted "Unknown data plugin" None)
        | Some df =>
            match dd_Query (fe_DDL df), fe_F df with
            | None, Func0 f => output ← f (); Ok (replied (DataReply output))
            | Some _, Func1 f => output ← f query; Ok (replied (DataReply output))
            | _, _ => Ok (aborted "Invalid data plugin" None)
            end
        end)
  end.

Definition getConfigItem (request : res string) : reply :=
  with_request request None (λ item,
    match InterfaceWithKey (us_Config srv) item, InterfaceWithKey (us_Choria srv) item with
    | Some v, _ => Ok (replied (ConfigItem item v))
    | None, Some v => Ok (replied (ConfigItem item v))
    | None, None => Ok (aborted "Unknown key" None)
    end).

End Rpcutil.

(** ** choria_util *)

Inductive util_data :=
| MachineStates (ids names : list string) (states : gmap string MachineState)
| MachineStateOf (s : MachineState)
| MachineTransitionReply (success : bool).

Definition unknown_machine : MachineState :=
  {| ms_Name := "unknown machine"; ms_Version := "unknown machine"; ms_State := "unknown machine"; ms_Path := ""; ms_ID := "";
     ms_StartTimeUTC := 0; ms_AvailableTransitions := []; ms_Scout := false; ms_ScoutState := None |}.

Record machine_query := { mq_Name : string; mq_ID : string; mq_Path : string }.

Definition state_matches (i : machine_query) (s : MachineState) : bool :=
  (String.eqb (mq_Name i) "" || String.eqb (ms_Name s) (mq_Name i)) &&
  (String.eqb (mq_Path i) "" || String.eqb (ms_Path s) (mq_Path i)) &&
  (String.eqb (mq_ID i) "" || String.eqb (ms_ID s) (mq_ID i)).

Definition machineStateAction (status : res (list MachineState)) (request : res machine_query) : res (action_reply util_data) :=
  with_request request None (λ i,
    let fail msg := Ok (aborted msg (Some (MachineStateOf unknown_machine))) in
    if String.eqb (mq_Name i) "" && String.eqb (mq_Path i) "" && String.eqb (mq_ID i) "" then fail "No search criteria given"
    else
      match status with
      | Panic p => Panic p
      | Err e => fail ("Failed to retrieve states: " +:+ e)
      | Ok [] => fail "No running machines"
      | Ok states =>
          match List.filter (state_matches i) states with
          | [] => fail "Could not find a matching machine"
          | [s] => Ok (replied (MachineStateOf s))
          | _ => fail "Found multiple machines matching criteria"
          end
      end).

Definition machineStatesAction (status : res (list MachineState)) : res (action_reply util_data) :=
  match status with
  | Panic p => Panic p
  | Err e => Ok (aborted ("Failed to retrieve states: " +:+ e) None)
  | Ok states =>
      Ok (replied (MachineStates (map ms_ID states) (map (λ m, ms_Name m +:+ " " +:+ ms_Version m) states)
                     (foldl (λ r m, <[ms_ID m := m]> r) ∅ states)))
  end.

Section Transitions.
(** The machines of a server: their status and the events sent to them. *)
Context {W : Type}.
Variable MachinesStatus : W → res (list MachineState).
Variable MachineTransition : string → string → string → string → string → ST W string ().

Record machine_transition := { mt_Name : string; mt_Version : string; mt_ID : string; mt_Path : string; mt_Transition : string }.

Definition machineTransitionAction (request : res machine_transition) : ST W string (action_reply util_data) := λ w,
  match request with
  | Err e => (w, Ok {| ap_Statuscode := InvalidData; ap_Statusmsg := e; ap_Data := None |})
  | Panic p => (w, Panic p)
  | Ok i =>
      match MachineTransition (mt_Name i) (mt_Version i) (mt_Path i) (mt_ID i) (mt_Transition i) w with
      | (w', Ok _) => (w', Ok (replied (MachineTransitionReply true)))
      | (w', Err e) => (w', Ok (aborted ("Could not perform " +:+ mt_Transition i +:+ " transition: " +:+ e)
                                        (Some (MachineTransitionReply false))))
      | (w', Panic p) => (w', Panic p)
      end
  end.

(** ** Scout *)

Record transitioned := { tr_forced : list string; tr_failed : list string; tr_skipped : list string }.

(** The checks by name, the last of a name, and their names in the order of the machines. *)
Definition scout_states (states : list MachineState) : gmap string MachineState :=
  foldl (λ m s, if ms_Scout s then <[ms_Name s := s]> m else m) ∅ states.
Definition scout_names (states : list MachineState) : list string := map ms_Name (List.filter ms_Scout states).

Fixpoint transition_loop (statemap : gmap string MachineState) (transition : string) (l : list string) (r : transitioned) :
    ST W string transitioned :=
  match l with
  | [] => mret r
  | n :: rest =>
      let add_failed r := {| tr_forced := tr_forced r; tr_failed := tr_failed r ++ [n]; tr_skipped := tr_skipped r |} in
      match statemap !! n with
      | None => transition_loop statemap transition rest (add_failed r)
      | Some m =>
          if negb (elem transition (ms_AvailableTransitions m))
          then transition_loop statemap transition rest
                 {| tr_forced := tr_forced r; tr_failed := tr_failed r; tr_skipped := tr_skipped r ++ [ms_Name m] |}
          else
            done ← attempt (MachineTransition (ms_Name m) "" "" "" transition);
            match done with
            | inl _ => transition_loop statemap transition rest
                         {| tr_forced := tr_forced r ++ [ms_Name m]; tr_failed := tr_failed r; tr_skipped := tr_skipped r |}
            | inr _ => transition_loop statemap transition rest
                         {| tr_forced := tr_forced r; tr_failed := tr_failed r ++ [ms_Name m]; tr_skipped := tr_skipped r |}
            end
      end
  end.

Definition none_transitioned : transitioned := {| tr_forced := []; tr_failed := []; tr_skipped := [] |}.

(** No checks asked for are all of them; the message of an abort is with the lists. *)
Definition transitionSelectedChecks (asked : list string) (transition : string) : ST W string (transitioned * option string) :=
  status ← gets MachinesStatus;
  match status with
  | Panic p => panic p
  | Err e => mret (none_transitioned, Some ("Failed to retrieve states: " +:+ e))
  | Ok states =>
      let all := Nat.eqb (length asked) 0 in
      let selected := if all then scout_names states else asked in
      r ← transition_loop (scout_states states) transition selected none_transitioned;
      mret (r, if negb all && negb (Nat.eqb (length (tr_forced r) + length (tr_skipped r)) (length selected))
               then Some ("Some checks could not be transitioned to " +:+ transition) else None)
  end.

(** The trigger, maintenance and resume actions. *)
Definition scout_transition_action (transition : string) (request : res (list string)) : ST W string (action_reply transitioned) := λ w,
  match request with
  | Err e => (w, Ok {| ap_Statuscode := InvalidData; ap_Statusmsg := e; ap_Data := Some none_transitioned |})
  | Panic p => (w, Panic p)
  | Ok checks =>
      match transitionSelectedChecks checks transition w with
      | (w', Ok (r, None)) => (w', Ok (replied r))
      | (w', Ok (r, Some msg)) => (w', Ok (aborted msg (Some r)))
      | (w', Err e) => (w', Err e)
      | (w', Panic p) => (w', Panic p)
      end
  end.

Definition triggerAction := scout_transition_action "FORCE_CHECK".
Definition maintenanceAction := scout_transition_action "MAINTENANCE".
Definition resumeAction := scout_transition_action "RESUME".

End Transitions.

Record CheckState := { ck_Name : string; ck_State : string; ck_Version : string; ck_Started : Z; ck_Status : option (list Z) }.

Definition checksAction (status : res (list MachineState)) : res (action_reply (list CheckState)) :=
  match status with
  | Panic p => Panic p
  | Err e => Ok (aborted ("Failed to retrieve states: " +:+ e) (Some []))
  | Ok states =>
      Ok (replied (map (λ m, {| ck_Name := ms_Name m; ck_State := ms_State m; ck_Version := ms_Version m;
                                ck_Started := ms_StartTimeUTC m; ck_Status := ms_ScoutState m |}) (List.filter ms_Scout states)))
  end.

Definition activationCheck (provision_mode scout_disabled : bool) : bool :=
  if provision_mode then false else if scout_disabled then false else true.

(** *** Goss *)

Record GossValidateRequest := { gv_Rules : string; gv_File : string; gv_Vars : string; gv_VarsData : string }.

(** A result of goss: whether it is an error, and whether it was skipped. *)
Record goss_test := { gt_Err : bool; gt_Skip : bool }.

Record goss_output := {
  go_Results : list goss_test;
  go_SummaryLine : string;
  go_Failed : Z;
  go_TestCount : Z;
}.

Record GossValidateResponse := {
  gr_Failures : Z;
  gr_Results : list goss_test;
  gr_Success : Z;
  gr_Skipped : Z;
  gr_Summary : string;
  gr_Tests : Z;
}.

(** A validation: its files and the resources it must not use. *)
Record goss_run := { gu_File : string; gu_Vars : string; gu_Denied : list string }.

(** The temporary files that exist and the validations so far. *)
Record goss_world := { gw_temps : list string; gw_runs : list goss_run }.

Record goss_env := {
  (** the names of new temporary files by their prefix, and whether they can be written *)
  ge_CreateTemp : string → res string;
  ge_WriteFile : string → res ();
  ge_NewConfig : goss_run → res ();
  ge_Validate : goss_run → res string;
  ge_Unmarshal : string → res goss_output;
  ge_RemoteDeny : list string;
  ge_LocalDeny : list string;
}.

Definition no_response : GossValidateResponse :=
  {| gr_Failures := 0; gr_Results := []; gr_Success := 0; gr_Skipped := 0; gr_Summary := ""; gr_Tests := 0 |}.

Section Goss.
Variable e : goss_env.
Variable RequestID : string.

(** An abort is the error. *)
Abbreviation G A := (ST goss_world string A).

Definition drop_temp (name : string) (w : goss_world) : goss_world :=
  {| gw_temps := List.filter (λ x, negb (String.eqb x name)) (gw_temps w); gw_runs := gw_runs w |}.

(** A file that is there while the rest runs. *)
Definition with_temp {A} (prefix failed : string) (k : string → G A) : G A :=
  match ge_CreateTemp e (prefix +:+ RequestID +:+ "-") with
  | Panic p => panic p
  | Err _ => throw failed
  | Ok name =>
      modify (λ w, {| gw_temps := name :: gw_temps w; gw_runs := gw_runs w |});;
      deferred (drop_temp name) (match ge_WriteFile e name with
                                 | Ok _ => k name
                                 | Err _ => throw failed
                                 | Panic p => panic p
                                 end)
  end.

Definition count_if {A} (p : A → bool) (l : list A) : Z := Z.of_nat (length (List.filter p l)).

Definition goss_response (res : goss_output) : GossValidateResponse :=
  let errors := count_if gt_Err (go_Results res) in
  let skipped := count_if (λ r, negb (gt_Err r) && gt_Skip r) (go_Results res) in
  {| gr_Failures := go_Failed res + errors; gr_Results := go_Results res; gr_Success := go_TestCount res - go_Failed res - skipped;
     gr_Skipped := skipped; gr_Summary := go_SummaryLine res; gr_Tests := go_TestCount res |}.

Definition goss_validate (file vars : string) (remote : bool) : G GossValidateResponse :=
  let run := {| gu_File := file; gu_Vars := vars; gu_Denied := if remote then ge_RemoteDeny e else ge_LocalDeny e |} in
  lift (map_err (λ m, "Could not create Goss config: " +:+ m) (ge_NewConfig e run));;
  modify (λ w, {| gw_temps := gw_temps w; gw_runs := gw_runs w ++ [run] |});;
  out ← lift (map_err (λ m, "Could not validate: " +:+ m) (ge_Validate e run));
  res ← lift (map_err (λ m, "Could not parse goss results: " +:+ m) (ge_Unmarshal e out));
  mret (goss_response res).

Definition gossValidate (a : GossValidateRequest) : G GossValidateResponse :=
  let with_vars file remote :=
    if negb (String.eqb (gv_VarsData a) "") && negb (String.eqb (gv_Vars a) "")
    then throw "Only one of yaml_vars or vars can be supplied"
    else if negb (String.eqb (gv_VarsData a) "")
    then with_temp "choria-gossvars-" "Could not create variables file" (λ vars, goss_validate file vars true)
    else goss_validate file (gv_Vars a) remote in
  if String.eqb (gv_Rules a) "" && String.eqb (gv_File a) "" then throw "One of rules or file is required"
  else if negb (String.eqb (gv_Rules a) "") && negb (String.eqb (gv_File a) "") then throw "Only one of rules or file can be supplied"
  else if negb (String.eqb (gv_Rules a) "")
  then with_temp "choria-gossfile-" "Could not create gossfile" (λ file, with_vars file true)
  else with_vars (gv_File a) false.

Definition gossValidateAction (request : res GossValidateRequest) : ST goss_world string (action_reply GossValidateResponse) := λ w,
  match request with
  | Err m => (w, Ok {| ap_Statuscode := InvalidData; ap_Statusmsg := m; ap_Data := Some no_response |})
  | Panic p => (w, Panic p)
  | Ok a =>
      match gossValidate a w with
      | (w', Ok r) => (w', Ok (replied r))
      | (w', Err msg) => (w', Ok (aborted msg (Some no_response)))
      | (w', Panic p) => (w', Panic p)
      end
  end.

End Goss.

(** ** The provider *)

(** The agents in the order they are made and registered, up to the first that fails. *)
Definition provider_agents : list string := ["discovery"; "rpcutil"; "choria_util"; "executor"].

Fixpoint register_all {M A} (make : string → res A) (register : string → A → ST M string ()) (names : list string) : ST M string () :=
  match names with
  | [] => mret tt
  | n :: rest => a ← lift (make n); register n a;; register_all make register rest
  end.

Definition RegisterAgents {M A} (make : string → res A) (register : string → A → ST M string ()) : ST M string () :=
  register_all make register provider_agents.

(** * The agents of the program: properties *)

(** ** Checks and machines *)

Section Transitions.
Context {W : Type}.
Variable MachinesStatus : W → res (list MachineState).
Variable MachineTransition : string → string → string → string → string → ST W string ().

Abbreviation all_of r := (tr_forced r ++ tr_failed r ++ tr_skipped r).

Lemma scout_states_name states n m : scout_states states !! n = Some m → ms_Name m = n ∧ ms_Scout m = true ∧ m ∈ states.
Proof.
  unfold scout_states. revert n m. induction states as [|s l IH] using rev_ind; intros n m; [done|].
  rewrite foldl_app. cbn [foldl]. destruct (ms_Scout s) eqn:Hs.
  - intros [[<- <-]|[_ H]]%lookup_insert_Some; [split_and!; [done|done|set_solver]|].
    destruct (IH n m H) as (? & ? & ?). split_and!; [done|done|set_solver].
  - intros H. destruct (IH n m H) as (? & ? & ?). split_and!; [done|done|set_solver].
Qed.

Lemma transition_loop_spec states transition l : ∀ r w,
  match (transition_loop MachineTransition (scout_states states) transition l r w).2 with
  | Ok r' =>
      Permutation (all_of r') (all_of r ++ l) ∧
      (∀ n, n ∈ tr_forced r' → n ∈ tr_forced r ∨ ∃ m w0, scout_states states !! n = Some m ∧ transition ∈ ms_AvailableTransitions m ∧
         is_ok (MachineTransition n "" "" "" transition w0).2 = true) ∧
      (∀ n, n ∈ tr_skipped r' → n ∈ tr_skipped r ∨ ∃ m, scout_states states !! n = Some m ∧ transition ∉ ms_AvailableTransitions m)
  | Err _ => False
  | Panic _ => True
  end.
Proof.
  induction l as [|n l IH]; intros r w.
  { cbn. rewrite app_nil_r. split_and!; [done|by left|by left]. }
  cbn [transition_loop]. destruct (scout_states states !! n) as [m|] eqn:Hm.
  - destruct (scout_states_name states n m Hm) as (Hn & _ & _). rewrite Hn.
    destruct (elem transition (ms_AvailableTransitions m)) eqn:Ha; cbn [negb].
    + unfold mbind, ST_bind, attempt. destruct (MachineTransition n "" "" "" transition w) as [w1 [[]|e|p]] eqn:Ht; [| |done].
      * specialize (IH {| tr_forced := tr_forced r ++ [n]; tr_failed := tr_failed r; tr_skipped := tr_skipped r |} w1).
        destruct (transition_loop MachineTransition (scout_states states) transition l _ w1) as [w2 [r'|?|?]]; [|done..].
        destruct IH as (Hp & Hf & Hs). cbn [tr_forced tr_failed tr_skipped] in *. split_and!; [|intros x Hx|done].
        -- rewrite Hp. by solve_Permutation.
        -- destruct (Hf x Hx) as [Hin|?]; [|by right]. apply elem_of_app in Hin as [?|Hin]; [by left|].
           apply list_elem_of_singleton in Hin as ->. right. exists m, w. rewrite Ht. split_and!; [done|by apply elem_true|done].
      * specialize (IH {| tr_forced := tr_forced r; tr_failed := tr_failed r ++ [n]; tr_skipped := tr_skipped r |} w1).
        destruct (transition_loop MachineTransition (scout_states states) transition l _ w1) as [w2 [r'|?|?]]; [|done..].
        destruct IH as (Hp & Hf & Hs). cbn [tr_forced tr_failed tr_skipped] in *. split_and!; [|done|done].
        rewrite Hp. by solve_Permutation.
    + specialize (IH {| tr_forced := tr_forced r; tr_failed := tr_failed r; tr_skipped := tr_skipped r ++ [n] |} w).
      destruct (transition_loop MachineTransition (scout_states states) transition l _ w) as [w2 [r'|?|?]]; [|done..].
      destruct IH as (Hp & Hf & Hs). cbn [tr_forced tr_failed tr_skipped] in *. split_and!; [|done|intros x Hx].
      * rewrite Hp. by solve_Permutation.
      * destruct (Hs x Hx) as [Hin|?]; [|by right]. apply elem_of_app in Hin as [?|Hin]; [by left|].
        apply list_elem_of_singleton in Hin as ->. right. exists m. split; [done|]. intros Hin. by rewrite (proj2 (elem_true _ _) Hin) in Ha.
  - specialize (IH {| tr_forced := tr_forced r; tr_failed := tr_failed r ++ [n]; tr_skipped := tr_skipped r |} w).
    destruct (transition_loop MachineTransition (scout_states states) transition l _ w) as [w2 [r'|?|?]]; [|done..].
    destruct IH as (Hp & Hf & Hs). cbn [tr_forced tr_failed tr_skipped] in *. split_and!; [|done|done].
    rewrite Hp. by solve_Permutation.
Qed.

(** Every check asked for ends in one of the three lists: among the transitioned ones only
    when its machine took the event, among the skipped ones only when it cannot.  A
    request for named checks is aborted exactly when some of them failed; one for all
    checks never is. *)
Theorem checks_are_accounted (asked : list string) (transition : string) (w w' : W) (states : list MachineState) r msg :
  MachinesStatus w = Ok states →
  transitionSelectedChecks MachinesStatus MachineTransition asked transition w = (w', Ok (r, msg)) →
  let selected := if decide (asked = []) then scout_names states else asked in
  Permutation (tr_forced r ++ tr_failed r ++ tr_skipped r) selected ∧
  (∀ n, n ∈ tr_forced r → ∃ m w0, scout_states states !! n = Some m ∧ transition ∈ ms_AvailableTransitions m ∧
     is_ok (MachineTransition n "" "" "" transition w0).2 = true) ∧
  (∀ n, n ∈ tr_skipped r → ∃ m, scout_states states !! n = Some m ∧ transition ∉ ms_AvailableTransitions m) ∧
  (is_Some msg ↔ asked ≠ [] ∧ tr_failed r ≠ []).
Proof.
  intros Hst H selected. unfold transitionSelectedChecks, gets in H. unfold mbind, ST_bind in H. rewrite Hst in H.
  assert ((if Nat.eqb (length asked) 0 then scout_names states else asked) = selected) as Hsel.
  { subst selected. destruct asked; [done|]. by rewrite decide_False. }
  rewrite Hsel in H. pose proof (transition_loop_spec states transition selected none_transitioned w) as Hl.
  destruct (transition_loop MachineTransition (scout_states states) transition selected none_transitioned w) as [w1 [r1|?|?]]; [|done..].
  destruct Hl as (Hp & Hf & Hs). cbn in H. injection H as <- <- Hmsg.
  split_and!.
  - by rewrite Hp.
  - intros n Hn. destruct (Hf n Hn) as [Hin|?]; [by apply not_elem_of_nil in Hin|done].
  - intros n Hn. destruct (Hs n Hn) as [Hin|?]; [by apply not_elem_of_nil in Hin|done].
  - apply Permutation_length in Hp. rewrite !length_app in Hp. cbn [none_transitioned tr_forced tr_failed tr_skipped length Nat.add] in Hp.
    rewrite <- Hmsg. destruct asked as [|a asked].
    + cbn. split; [by intros []|by intros [? _]].
    + cbn [length Nat.eqb negb andb]. rewrite <- Hp. destruct (tr_failed r1) as [|f fs].
      * rewrite Nat.add_0_l, Nat.eqb_refl. cbn. split; [by intros []|by intros [_ ?]].
      * rewrite (proj2 (Nat.eqb_neq _ _)) by (cbn [length]; lia). cbn. split; eauto.
Qed.

End Transitions.

(** A state is shown only when exactly one machine fits what was asked for. *)
Theorem one_machine_is_shown (states : list MachineState) (i : machine_query) (s : MachineState) :
  machineStateAction (Ok states) (Ok i) = Ok (replied (MachineStateOf s)) ↔
  (mq_Name i ≠ "" ∨ mq_Path i ≠ "" ∨ mq_ID i ≠ "") ∧ List.filter (state_matches i) states = [s].
Proof.
  unfold machineStateAction, with_request.
  destruct (String.eqb (mq_Name i) "" && String.eqb (mq_Path i) "" && String.eqb (mq_ID i) "") eqn:Hno.
  - apply andb_true_iff in Hno as [[Hn Hp]%andb_true_iff Hi]. apply String.eqb_eq in Hn, Hp, Hi.
    split; [discriminate|]. by intros [[?|[?|?]] _].
  - assert (mq_Name i ≠ "" ∨ mq_Path i ≠ "" ∨ mq_ID i ≠ "") as Hsome.
    { destruct (String.eqb_spec (mq_Name i) ""), (String.eqb_spec (mq_Path i) ""), (String.eqb_spec (mq_ID i) ""); auto. }
    destruct states as [|x l]; [split; [discriminate|by intros [_ ?]]|].
    destruct (List.filter (state_matches i) (x :: l)) as [|a [|b m]].
    + split; [discriminate|by intros [_ ?]].
    + split; [intros [= <-]; done|by intros [_ [= <-]]].
    + split; [discriminate|by intros [_ ?]].
Qed.

(** ** Goss *)

Section Goss.
Variable e : goss_env.
Variable RequestID : string.

(** What came with the request, rather than from the host. *)
Definition remote_request (a : GossValidateRequest) : bool :=
  negb (String.eqb (gv_Rules a) "") || negb (String.eqb (gv_VarsData a) "").

(** In [w], [k] leaves the temporary files as they are and makes at most one run, of which
    [P] holds. *)
Definition confined {A} (P : goss_run → Prop) (w : goss_world) (k : ST goss_world string A) : Prop :=
  gw_temps (k w).1 = gw_temps w ∧ ∃ l, gw_runs (k w).1 = gw_runs w ++ l ∧ length l ≤ 1 ∧ Forall P l.

Lemma confined_same {A} P w (k : ST goss_world string A) : (k w).1 = w → confined P w k.
Proof. intros H. unfold confined. rewrite H. split; [done|]. exists []. rewrite app_nil_r. split_and!; [done|cbn; lia|constructor]. Qed.

Lemma drop_new_temp name l : name ∉ l → List.filter (λ x, negb (String.eqb x name)) (name :: l) = l.
Proof.
  intros Hn. cbn [List.filter]. rewrite String.eqb_refl. cbn [negb]. induction l as [|x l IH]; [done|].
  apply not_elem_of_cons in Hn as [Hx Hn]. cbn [List.filter]. rewrite (proj2 (String.eqb_neq x name)) by congruence.
  cbn [negb]. by rewrite IH.
Qed.

(** The world while a temporary file is there. *)
Definition with_name (n : string) (w : goss_world) : goss_world := {| gw_temps := n :: gw_temps w; gw_runs := gw_runs w |}.

Lemma with_temp_confined {A} P prefix failed (k : string → ST goss_world string A) w :
  (∀ n, ge_CreateTemp e (prefix +:+ RequestID +:+ "-") = Ok n → n ∉ gw_temps w ∧ confined P (with_name n w) (k n)) →
  confined P w (with_temp e RequestID prefix failed k).
Proof.
  intros Hk. unfold with_temp. destruct (ge_CreateTemp e (prefix +:+ RequestID +:+ "-")) as [n|?|?] eqn:Hc; [|by apply confined_same..].
  destruct (Hk n eq_refl) as [Hn Hconf]. unfold mbind, ST_bind, modify, deferred. fold (with_name n w).
  destruct (ge_WriteFile e n) as [[]|?|?].
  2,3: apply confined_same; cbn [fst drop_temp]; unfold drop_temp, throw, panic; cbn [fst with_name gw_temps gw_runs];
       rewrite drop_new_temp by done; by destruct w.
  destruct Hconf as [Ht (l & Hl & Hlen & HP)]. unfold confined. fold (with_name n w).
  destruct (k n (with_name n w)) as [w1 o]. cbn [fst] in *. unfold drop_temp. cbn [gw_temps gw_runs].
  rewrite Ht. cbn [with_name gw_temps gw_runs] in *. split; [by apply drop_new_temp|]. by exists l.
Qed.

Lemma goss_validate_confined (P : goss_run → Prop) w (file vars : string) (remote : bool) :
  P {| gu_File := file; gu_Vars := vars; gu_Denied := if remote then ge_RemoteDeny e else ge_LocalDeny e |} →
  confined P w (goss_validate e file vars remote).
Proof.
  intros HP. unfold confined, goss_validate, lift, modify, mbind, ST_bind.
  set (run := {| gu_File := file; gu_Vars := vars; gu_Denied := _ |}) in *.
  destruct (ge_NewConfig e run) as [[]|?|?]; cbn [map_err].
  2,3: split; [done|]; exists []; rewrite app_nil_r; split_and!; [done|cbn; lia|constructor].
  destruct (ge_Validate e run) as [out|?|?]; cbn [map_err];
    [destruct (ge_Unmarshal e out) as [res|?|?]; cbn [map_err]|..]; (split; [done|]; exists [run]; split_and!; [done|cbn; lia|by constructor]).
Qed.

(** Names of temporary files are new, and those of rules and variables differ. *)
Definition fresh_names (w : goss_world) : Prop :=
  (∀ prefix n, ge_CreateTemp e prefix = Ok n → n ∉ gw_temps w) ∧
  ∀ n n', ge_CreateTemp e ("choria-gossfile-" +:+ RequestID +:+ "-") = Ok n →
    ge_CreateTemp e ("choria-gossvars-" +:+ RequestID +:+ "-") = Ok n' → n' ≠ n.

(** What a request may make goss do. *)
Definition goss_allowed (a : GossValidateRequest) (r : goss_run) : Prop :=
  gu_Denied r = (if remote_request a then ge_RemoteDeny e else ge_LocalDeny e) ∧
  (gv_Rules a = "" → gu_File r = gv_File a) ∧ (gv_VarsData a = "" → gu_Vars r = gv_Vars a).

(** Whatever a request asks for and however it ends: its temporary files are gone, goss
    ran at most once, without the resources that are denied to requests that bring rules or
    variables of their own, or without those denied to others, and on files of the host only
    when the request named them. *)
Theorem goss_is_confined (a : GossValidateRequest) (w : goss_world) : fresh_names w →
  let w' := (gossValidate e RequestID a w).1 in
  gw_temps w' = gw_temps w ∧
  ∃ l, gw_runs w' = gw_runs w ++ l ∧ length l ≤ 1 ∧
    Forall (goss_allowed a) l.
Proof.
  intros [Hnew Hdiff] w'. subst w'. change (confined (goss_allowed a) w (gossValidate e RequestID a)).
  unfold gossValidate. destruct (String.eqb_spec (gv_Rules a) "") as [Hr|Hr]; cbn [andb negb].
  - destruct (String.eqb (gv_File a) ""); [by apply confined_same|].
    destruct (String.eqb_spec (gv_VarsData a) "") as [Hv|Hv]; cbn [andb negb].
    + apply goss_validate_confined. split; [|done]. unfold remote_request. by rewrite Hr, Hv.
    + destruct (negb (String.eqb (gv_Vars a) "")); [by apply confined_same|]. apply with_temp_confined. intros n Hn.
      split; [by eapply Hnew|]. apply goss_validate_confined. split; [|split; [done|by intros ?]].
      unfold remote_request. by rewrite Hr, (proj2 (String.eqb_neq _ _) Hv).
  - destruct (negb (String.eqb (gv_File a) "")); [by apply confined_same|]. apply with_temp_confined. intros n Hn.
    split; [by eapply Hnew|]. assert (remote_request a = true) as Hrem.
    { unfold remote_request. by rewrite (proj2 (String.eqb_neq _ _) Hr). }
    destruct (String.eqb_spec (gv_VarsData a) "") as [Hv|Hv]; cbn [andb negb].
    + apply goss_validate_confined. split; [cbn; by rewrite Hrem|split; [by intros ?|done]].
    + destruct (negb (String.eqb (gv_Vars a) "")); [by apply confined_same|]. apply with_temp_confined. intros n' Hn'.
      split; [cbn; apply not_elem_of_cons; split; [by apply (Hdiff n)|by eapply Hnew]|].
      apply goss_validate_confined. split; [cbn; by rewrite Hrem|split; [by intros ?|by intros ?]].
Qed.

(** The counts of a response: results that are errors are counted once more than there are
    tests. *)
Theorem goss_counts (res : goss_output) : let r := goss_response res in
  (gr_Failures r + gr_Success r + gr_Skipped r = gr_Tests r + count_if gt_Err (gr_Results r))%Z.
Proof. cbn. lia. Qed.

End Goss.

(** ** rpcutil *)

Section Rpcutil.
Context `{FL : FactLib} `{DL : DDLLib} `{RX : Regexp} {SI : Type}.
Variable fs : filesystem.
Variable srv : util_server.

Lemma facts_fold names (o : gmap string (option (fact_value float64))) k :
  foldl (λ o fact, let fact := trim_space fact in <[fact := fact_or_null fs srv fact]> o) o names !! k =
  if decide (k ∈ map trim_space names) then Some (fact_or_null fs srv k) else o !! k.
Proof.
  revert o. induction names as [|n names IH]; intros o; [done|]. cbn [foldl map]. rewrite IH.
  destruct (decide (k ∈ map trim_space names)) as [Hin|Hin]; [by rewrite decide_True by set_solver|].
  destruct (decide (trim_space n = k)) as [<-|Hne].
  - rewrite lookup_insert_eq, decide_True; [done|]. set_solver.
  - rewrite lookup_insert_ne, decide_False; [done|set_solver|done].
Qed.

(** Facts are answered for exactly the names of the list, null when they cannot be read. *)
Theorem asked_facts_are_answered (facts : string) :
  ∃ values, getFactsAction fs srv (Ok facts) = Ok (replied (GetFactsReply values)) ∧
    ∀ k, values !! k = if decide (k ∈ map trim_space (split facts ",")) then Some (fact_or_null fs srv k) else None.
Proof. eexists. split; [reflexivity|]. intros k. by rewrite facts_fold, lookup_empty. Qed.

(** A query for data reaches the plugin as it is, whatever the plugin declares. *)
Theorem data_queries_are_not_validated (plugins : gmap string (Creator SI)) (si : SI) (source query : string) e i :
  us_FuncMap srv = Ok (FuncMap (NewManager plugins) si) → FuncMap (NewManager plugins) si !! source = Some e →
  dd_Query (fe_DDL e) = Some i →
  ∃ p, plugins !! source = Some p ∧
    getData srv (Ok (source, query)) =
    (output ← answer_of (run_for_query p (fe_DDL e) (DDL.VString query) si); Ok (replied (DataReply output))).
Proof.
  intros Hm He Hi. pose proof (functions_of_manager plugins si source e He) as (p & Hp & _ & HF).
  apply manager_keys in Hp as (Hp & _). exists p. split; [done|]. unfold getData. rewrite Hm. cbn [with_request].
  rewrite He, Hi in *. rewrite HF. by rewrite runner_runs.
Qed.

End Rpcutil.

(** ** Servers for the witnesses *)

(** The machines by name and path, and the paths of those that got an event: as in the host
    of machines the first of a name gets it. *)
Abbreviation demo_machines_world := (list (string * string) * list string)%type.
Definition demo_transition (name _ _ _ _ : string) : ST demo_machines_world string () := λ w,
  match List.find (λ m, String.eqb m.1 name) w.1 with
  | Some m => ((w.1, w.2 ++ [m.2]), Ok tt)
  | None => (w, Err "could not find machine")
  end.
Definition demo_check_named (name path : string) (scout : bool) : MachineState :=
  {| ms_Name := name; ms_Version := "1.0.0"; ms_State := "OK"; ms_Path := path; ms_ID := path; ms_StartTimeUTC := 0;
     ms_AvailableTransitions := if scout then ["FORCE_CHECK"; "MAINTENANCE"] else []; ms_Scout := scout;
     ms_ScoutState := if scout then Some [] else None |}.
Definition demo_states : list MachineState :=
  [demo_check_named "load" "/one" false; demo_check_named "load" "/two" true; demo_check_named "swap" "/swap" true].
Definition demo_world_of (l : list MachineState) : demo_machines_world := (map (λ m, (ms_Name m, ms_Path m)) l, []).

Lemma checks_are_accounted_witness :
  Permutation (["swap"] ++ ["disk"] ++ []) ["swap"; "disk"] ∧ (is_Some (Some "") ↔ ["swap"; "disk"] ≠ [] ∧ ["disk"] ≠ []).
Proof.
  destruct (checks_are_accounted (λ _, Ok demo_states) demo_transition ["swap"; "disk"] "FORCE_CHECK" (demo_world_of demo_states)
    (demo_transition "swap" "" "" "" "" (demo_world_of demo_states)).1 demo_states
    {| tr_forced := ["swap"]; tr_failed := ["disk"]; tr_skipped := [] |} (Some "Some checks could not be transitioned to FORCE_CHECK"))
    as (H1 & _ & _ & H4).
  - reflexivity.
  - vm_compute. reflexivity.
  - split; [exact H1|]. split; [intros _; apply H4; eauto|eauto].
Defined.

(** A check that shares its name with a machine that is no check: the event of the check
    goes to the other machine. *)
Example event_of_a_check_goes_elsewhere :
  triggerAction (λ _, Ok demo_states) demo_transition (Ok ["load"]) (demo_world_of demo_states) =
  (((demo_world_of demo_states).1, ["/one"]), Ok (replied {| tr_forced := ["load"]; tr_failed := []; tr_skipped := [] |})).
Proof. vm_compute. reflexivity. Qed.

Definition demo_goss : goss_env :=
  {| ge_CreateTemp := λ p, Ok ("/tmp/" +:+ p); ge_WriteFile := λ _, Ok tt; ge_NewConfig := λ _, Ok tt; ge_Validate := λ _, Ok "{}";
     ge_Unmarshal := λ _, Ok {| go_Results := [{| gt_Err := true; gt_Skip := false |}; {| gt_Err := false; gt_Skip := false |}];
                                go_SummaryLine := ""; go_Failed := 1; go_TestCount := 2 |};
     ge_RemoteDeny := ["command"]; ge_LocalDeny := [] |}.
Definition demo_goss_request : GossValidateRequest := {| gv_Rules := "command: {}"; gv_File := ""; gv_Vars := ""; gv_VarsData := "" |}.

Lemma goss_is_confined_witness :
  let w := (gossValidate demo_goss "1" demo_goss_request {| gw_temps := []; gw_runs := [] |}).1 in
  gw_temps w = [] ∧ ∃ l, gw_runs w = l ∧ Forall (goss_allowed demo_goss demo_goss_request) l.
Proof.
  intros w. destruct (goss_is_confined demo_goss "1" demo_goss_request {| gw_temps := []; gw_runs := [] |}) as [H1 (l & H2 & _ & H3)].
  - split.
    + intros prefix n _. apply not_elem_of_nil.
    + intros n n' Hn Hn'. injection Hn as <-. injection Hn' as <-. discriminate.
  - split; [exact H1|]. exists l. split; [exact H2|exact H3].
Defined.

(** One of two tests is an error: one failed, one was an error, and one succeeded. *)
Example goss_counts_twice :
  match (gossValidate demo_goss "1" demo_goss_request {| gw_temps := []; gw_runs := [] |}).2 with
  | Ok r => (gr_Tests r, gr_Failures r, gr_Success r) = (2, 2, 1)%Z
  | _ => False
  end.
Proof. vm_compute. reflexivity. Qed.

#[local] Instance demo_agents_ddl : DDLLib := {| ParseFloat64 := λ _, None; json_Object := λ _, None; json_Array := λ _, None |}.
#[local] Instance demo_agents_regexp : Regexp := {| regexp_match := λ _ _, None |}.
Definition demo_util_server : util_server :=
  {| us_MainCollective := "mcollective"; us_Collectives := ["mcollective"]; us_FactSourceFile := "/facts.json"; us_Config := [];
     us_Choria := []; us_AllowUpdate := false; us_BuildAllowsUpdate := false; us_Facts := "{}"; us_Info := demo_data_server;
     us_StartTime := 0; us_Procs := []; us_AgentMetadata := λ _, None;
     us_FuncMap := Ok (FuncMap (NewManager demo_data_plugins) demo_data_server) |}.

Lemma data_queries_are_not_validated_witness :
  ∃ p d, demo_data_plugins !! "config_item" = Some p ∧
    getData demo_util_server (Ok ("config_item", "")) =
    (output ← answer_of (run_for_query p d (DDL.VString "") demo_data_server); Ok (replied (DataReply output))).
Proof.
  destruct (FuncMap (NewManager demo_data_plugins) demo_data_server !! "config_item") as [e|] eqn:He.
  - destruct (dd_Query (fe_DDL e)) as [i|] eqn:Hi.
    + destruct (data_queries_are_not_validated demo_util_server demo_data_plugins demo_data_server "config_item" "" e i eq_refl He Hi)
        as (p & H1 & H2).
      exists p, (fe_DDL e). split; [exact H1|exact H2].
    + exfalso. assert (option_map (λ e, match dd_Query (fe_DDL e) with None => true | Some _ => false end) (FuncMap (NewManager demo_data_plugins) demo_data_server !! "config_item") = Some false) as Hn by (vm_compute; reflexivity).
      rewrite He in Hn. cbn in Hn. rewrite Hi in Hn. discriminate.
  - exfalso. assert (is_Some (FuncMap (NewManager demo_data_plugins) demo_data_server !! "config_item")) as [x Hx] by (vm_compute; eauto).
    rewrite He in Hx. discriminate.
Defined.
