(* ===== verification/ProtocolV1.v ===== *)
(** * The first version of the protocol, as its package writes it

    protocol/v1/ (request.go, reply.go, security_request.go, security_reply.go,
    constructors.go) with its own structures: requests and replies keep what they are
    about in an envelope behind a pointer, and the texts of its errors.  Module [v1] is
    the package.  [RequestMethods] is the interface [protocol.Request], implemented by
    both versions.  The theorems say that a program sees no difference between requests
    of the two versions but the precision of their time, that reading messages in this
    package refines the model of SecureMessages, which the rest of the development is
    built on, and where it does not: requests and replies without an envelope. *)
From S2P Require Import Prelude GoLib Records Regex Files Facts Filters Util Transport SecureMessages DemoJSON.

(** [protocol.Request] without the encodings; its methods read through pointers, so each
    can panic.  [GetFilter] is [Filter], which can set a filter. *)
Class RequestMethods (R : Type) := {
  rm_federable :: Federable R;
  SetMessage : string → R → res R;
  SetCallerID : string → R → res R;
  SetCollective : string → R → res R;
  SetAgent : string → R → res R;
  SetFilter : option Filter → R → res R;
  SetRequestID : string → R → res R;
  SetTTL : Z → R → res R;
  Message : R → res string;
  RequestID : R → res string;
  RequestSenderID : R → res string;
  CallerID : R → res string;
  CallerPublicData : R → string;
  SignerPublicData : R → string;
  Collective : R → res string;
  RequestAgent : R → res string;
  TTL : R → res Z;
  RequestTime : R → res Z;
  GetFilter : R → res (Filter * bool * R);
  Version : R → string;
}.

(** [NewFilter] of a request *)
Definition request_NewFilter `{RequestMethods R} (r : R) : res R := SetFilter (Some NewFilter) r.

Module v1.

(** ** Requests *)

Record RequestEnvelope := {
  qe_RequestID : string;
  qe_SenderID : string;
  qe_CallerID : string;
  qe_Collective : string;
  qe_Agent : string;
  qe_TTL : Z;
  (** in seconds *)
  qe_Time : Z;
  (** a pointer *)
  qe_Filter : option Filter;
  qe_seenBy : list hop;
  qe_federation : option FederationTransportHeader;
}.

Record Request := {
  q_Protocol : string;
  q_MessageBody : string;
  (** a pointer *)
  q_Envelope : option RequestEnvelope;
}.

Definition in_envelope {A} (f : RequestEnvelope → A) (r : Request) : res A :=
  match q_Envelope r with None => nil_headers | Some e => Ok (f e) end.

Definition on_envelope (f : RequestEnvelope → RequestEnvelope) (r : Request) : res Request :=
  match q_Envelope r with None => nil_headers | Some e => Ok (r <| q_Envelope := Some (f e) |>) end.

Definition q_get : Request → res fed_view := in_envelope (λ e, (qe_federation e, qe_seenBy e)).

Definition q_set (v : fed_view) (r : Request) : Request :=
  r <| q_Envelope := (λ e, e <| qe_federation := v.1 |> <| qe_seenBy := v.2 |>) <$> q_Envelope r |>.

(** The methods of the network hops and of the federation. *)
#[global] Instance Request_federable : Federable Request := federable_of q_get q_set.

Definition SetRequestID (id : string) : Request → res Request := on_envelope (λ e, e <| qe_RequestID := id |>).

(** The body is the one field outside the envelope. *)
Definition SetMessage (message : string) (r : Request) : res Request := Ok (r <| q_MessageBody := message |>).

Definition SetCallerID (id : string) : Request → res Request := on_envelope (λ e, e <| qe_CallerID := id |>).
Definition SetCollective (collective : string) : Request → res Request :=
  on_envelope (λ e, e <| qe_Collective := collective |>).
Definition SetAgent (agent : string) : Request → res Request := on_envelope (λ e, e <| qe_Agent := agent |>).
Definition SetTTL (ttl : Z) : Request → res Request := on_envelope (λ e, e <| qe_TTL := ttl |>).
Definition SetFilter (filter : option Filter) : Request → res Request :=
  on_envelope (λ e, e <| qe_Filter := filter |>).

Definition Message (r : Request) : res string := Ok (q_MessageBody r).
Definition RequestID : Request → res string := in_envelope qe_RequestID.
Definition SenderID : Request → res string := in_envelope qe_SenderID.
Definition CallerID : Request → res string := in_envelope qe_CallerID.
Definition Collective : Request → res string := in_envelope qe_Collective.
Definition Agent : Request → res string := in_envelope qe_Agent.
Definition TTL : Request → res Z := in_envelope qe_TTL.

(** in nanoseconds *)
Definition Time : Request → res Z := in_envelope (λ e, (qe_Time e * Second)%Z).

(** [Empty] reads through the pointer. *)
Definition GetFilter (r : Request) : res (Filter * bool * Request) :=
  filter ← in_envelope qe_Filter r;
  match filter with None => nil_headers | Some f => Ok (f, negb (Empty f), r) end.

Definition CallerPublicData (r : Request) : string := "".
Definition SignerPublicData (r : Request) : string := "".

#[global] Instance Request_methods : RequestMethods Request := {|
  ProtocolV1.SetMessage := SetMessage;
  ProtocolV1.SetCallerID := SetCallerID;
  ProtocolV1.SetCollective := SetCollective;
  ProtocolV1.SetAgent := SetAgent;
  ProtocolV1.SetFilter := SetFilter;
  ProtocolV1.SetRequestID := SetRequestID;
  ProtocolV1.SetTTL := SetTTL;
  ProtocolV1.Message := Message;
  ProtocolV1.RequestID := RequestID;
  RequestSenderID := SenderID;
  ProtocolV1.CallerID := CallerID;
  ProtocolV1.CallerPublicData := CallerPublicData;
  ProtocolV1.SignerPublicData := SignerPublicData;
  ProtocolV1.Collective := Collective;
  RequestAgent := Agent;
  ProtocolV1.TTL := TTL;
  RequestTime := Time;
  ProtocolV1.GetFilter := GetFilter;
  Version := q_Protocol;
|}.

Definition NewRequest (now : Z) (agent senderid callerid : string) (ttl : Z) (requestid collective : string) :
    res Request :=
  let req := {| q_Protocol := RequestV1; q_MessageBody := "";
                q_Envelope := Some {| qe_RequestID := requestid; qe_SenderID := senderid; qe_CallerID := "";
                                      qe_Collective := ""; qe_Agent := ""; qe_TTL := ttl;
                                      qe_Time := (now / Second)%Z; qe_Filter := None; qe_seenBy := [];
                                      qe_federation := None |} |} in
  req ← SetCollective collective req;
  req ← SetAgent agent req;
  req ← SetCallerID callerid req;
  SetFilter (Some NewFilter) req.

(** ** Replies *)

Record ReplyEnvelope := {
  pe_RequestID : string;
  pe_SenderID : string;
  pe_Agent : string;
  pe_Time : Z;
  pe_seenBy : list hop;
  pe_federation : option FederationTransportHeader;
}.

Record Reply := {
  p_Protocol : string;
  p_MessageBody : string;
  (** a pointer *)
  p_Envelope : option ReplyEnvelope;
}.

Definition in_reply {A} (f : ReplyEnvelope → A) (r : Reply) : res A :=
  match p_Envelope r with None => nil_headers | Some e => Ok (f e) end.

Definition p_get : Reply → res fed_view := in_reply (λ e, (pe_federation e, pe_seenBy e)).

Definition p_set (v : fed_view) (r : Reply) : Reply :=
  r <| p_Envelope := (λ e, e <| pe_federation := v.1 |> <| pe_seenBy := v.2 |>) <$> p_Envelope r |>.

#[global] Instance Reply_federable : Federable Reply := federable_of p_get p_set.

Definition reply_SetMessage (message : string) (r : Reply) : Reply := r <| p_MessageBody := message |>.
Definition reply_Message (r : Reply) : string := p_MessageBody r.
Definition reply_RequestID : Reply → res string := in_reply pe_RequestID.
Definition reply_SenderID : Reply → res string := in_reply pe_SenderID.
Definition reply_Agent : Reply → res string := in_reply pe_Agent.
Definition reply_Time : Reply → res Z := in_reply (λ e, (pe_Time e * Second)%Z).

(** ** Secure messages *)

Record SecureRequest := {
  s_Protocol : string;
  s_MessageBody : string;
  s_Signature : string;
  s_PublicCertificate : string;
}.

Record SecureReply := {
  h_Protocol : string;
  h_MessageBody : string;
  h_Hash : string;
}.

(** JSON of the package.  Decoding a null envelope sets the pointer to nil, and decoding
    the document null into a variable that holds a message sets the variable to nil,
    [Some None]. *)
Class JSON := {
  request_Marshal : Request → option string;
  request_Unmarshal : string → Request → option Request;
  reply_Marshal : Reply → option string;
  reply_Unmarshal : string → Reply → option Reply;
  srequest_Marshal : SecureRequest → option string;
  srequest_Unmarshal : string → SecureRequest → option (option SecureRequest);
  sreply_Marshal : SecureReply → option string;
  sreply_Unmarshal : string → SecureReply → option (option SecureReply);
}.

Section Package.
Context `{TJ : TransportJSON} `{PJ : JSON} `{BF : BuildFlags} `{SP : SecurityProvider}.

(** What [IsValidJSON] of each type does with the schema of the type. *)
Definition validate (schema what data : string) : res () :=
  match schemaValidate schema data with
  | None => Err ("could not validate " +:+ what +:+ " JSON data")
  | Some errors =>
      if negb (Nat.eqb (length errors) 0)
      then Err ("supplied JSON document is not a valid " +:+ what +:+ " message: " +:+ join errors ", ")
      else Ok tt
  end.

Definition marshalled (j : option string) : res string :=
  match j with None => Err "could not JSON Marshal" | Some j => Ok j end.

Definition request_IsValidJSON (data : string) : res () := validate RequestV1 "Request" data.

Definition request_JSON (r : Request) : res string :=
  j ← marshalled (request_Marshal r);
  map_err (λ e, "serialized JSON produced from the Request does not pass validation: " +:+ e)
    (request_IsValidJSON j);;
  Ok j.

(** Replies are validated by strict clients only. *)
Definition reply_IsValidJSON (data : string) : res () :=
  if negb ClientStrictValidation then Ok tt else validate ReplyV1 "Reply" data.

Definition reply_JSON (r : Reply) : res string :=
  j ← marshalled (reply_Marshal r);
  map_err (λ e, "serialized JSON produced from the Reply does not pass validation: " +:+ e)
    (reply_IsValidJSON j);;
  Ok j.

Definition NewReply (now : Z) (request : Request) (certname : string) : res Reply :=
  if negb (String.eqb (q_Protocol request) RequestV1)
  then Err ("cannot create a version 1 Reply from a " +:+ q_Protocol request +:+ " request")
  else
    id ← RequestID request;
    agent ← Agent request;
    rep ← CopyFederationData request
            {| p_Protocol := ReplyV1; p_MessageBody := "";
               p_Envelope := Some {| pe_RequestID := id; pe_SenderID := certname; pe_Agent := agent;
                                     pe_Time := (now / Second)%Z; pe_seenBy := []; pe_federation := None |} |};
    j ← map_err (λ e, "could not turn Request " +:+ id +:+ " into a JSON document: " +:+ e) (request_JSON request);
    Ok (reply_SetMessage j rep).

(** *** Secure requests *)

Definition srequest_IsValidJSON (data : string) : res () := validate SecureRequestV1 "SecureRequest" data.

Definition srequest_JSON (r : SecureRequest) : res string :=
  j ← marshalled (srequest_Marshal r);
  map_err (λ e, "the JSON produced from the SecureRequest does not pass validation: " +:+ e)
    (srequest_IsValidJSON j);;
  Ok j.

(** A registration request may go unsigned, and without a certificate. *)
Definition srequest_SetMessage (request : Request) (r : SecureRequest) : res SecureRequest :=
  j ← map_err (λ e, "could not JSON encode reply message to store it in the Secure Request: " +:+ e)
        (request_JSON request);
  let r := r <| s_Signature := "insecure" |> in
  r ← (if negb IsSecure then Ok r
       else
         agent ← Agent request;
         if IsRemoteSignerAgent agent then Ok r
         else
           signature ← match SignBytes j with
                       | Ok signature => Ok signature
                       | Err e =>
                           if negb (IsRegistrationAgent agent) then Err ("could not sign message string: " +:+ e)
                           else Ok "insecure registration"
                       | Panic p => Panic p
                       end;
           Ok (r <| s_Signature := b64_encode signature |>));
  Ok (r <| s_MessageBody := j |>).

Definition require_x509 : res () :=
  if decide (BackingTechnology = SecurityTechnologyX509) then Ok tt
  else Err "version 1 protocol requires a x509 based security system".

Definition NewSecureRequest (request : Request) : res SecureRequest :=
  require_x509;;
  pub ← (if negb IsSecure then Ok "insecure"
         else
           agent ← Agent request;
           if IsRemoteSignerAgent agent then Ok "insecure"
           else
             match PublicCertBytes with
             | Ok pub => Ok pub
             | Err e =>
                 if IsRegistrationAgent agent then Ok "insecure registration"
                 else Err ("could not retrieve Public Certificate from the security subsystem: " +:+ e)
             | Panic p => Panic p
             end);
  map_err (λ e, "could not set message SecureRequest structure: " +:+ e)
    (srequest_SetMessage request
       {| s_Protocol := SecureRequestV1; s_MessageBody := ""; s_Signature := ""; s_PublicCertificate := pub |}).

(** [None] is the nil of an answer null. *)
Definition NewRemoteSignedSecureRequest (request : Request) : res (option SecureRequest) :=
  require_x509;;
  agent ← (if negb IsSecure then Ok None else agent ← Agent request; Ok (Some agent));
  if negb IsSecure || from_option IsRemoteSignerAgent false agent
  then secure ← NewSecureRequest request; Ok (Some secure)
  else
    reqj ← request_JSON request;
    secj ← RemoteSignRequest reqj;
    match srequest_Unmarshal secj {| s_Protocol := SecureRequestV1; s_MessageBody := ""; s_Signature := "";
                                     s_PublicCertificate := "" |} with
    | None => Err "could not parse signed request"
    | Some secure => Ok secure
    end.

Definition bare_request : Request :=
  {| q_Protocol := RequestV1; q_MessageBody := "";
     q_Envelope := Some {| qe_RequestID := ""; qe_SenderID := ""; qe_CallerID := "";
                           qe_Collective := ""; qe_Agent := ""; qe_TTL := 0; qe_Time := 0;
                           qe_Filter := None; qe_seenBy := []; qe_federation := None |} |}.

Definition NewRequestFromSecureRequest (sr : SecureRequest) : res Request :=
  if negb (String.eqb (s_Protocol sr) SecureRequestV1)
  then Err ("cannot create a version 1 SecureRequest from a " +:+ s_Protocol sr +:+ " SecureRequest")
  else
    map_err (λ e, "the JSON body from the SecureRequest is not a valid Request message: " +:+ e)
      (request_IsValidJSON (s_MessageBody sr));;
    match request_Unmarshal (s_MessageBody sr) bare_request with
    | None => Err "could not parse JSON data from Secure Request"
    | Some req => Ok req
    end.

(** [Valid]: every error is logged and makes the request invalid. *)
Definition srequest_Valid (r : SecureRequest) : res bool :=
  if negb IsSecure then Ok true
  else
    valid_if (NewRequestFromSecureRequest r) (λ req,
    caller ← CallerID req;
    valid_if (CallerIdentity caller) (λ certname,
    valid_if (ShouldAllowCaller certname [s_PublicCertificate r]) (λ _,
    match b64_decode (s_Signature r) with
    | None => Ok false
    | Some sig =>
        should ← VerifySignatureBytes (s_MessageBody r) sig [s_PublicCertificate r];
        Ok should.1
    end))).

Definition empty_srequest : SecureRequest :=
  {| s_Protocol := ""; s_MessageBody := ""; s_Signature := ""; s_PublicCertificate := "" |}.

Definition NewSecureRequestFromTransport (message : TransportMessage) (skipvalidate : bool) :
    res (option SecureRequest) :=
  require_x509;;
  let data := tm_Data message in
  map_err (λ e, "the JSON body from the TransportMessage is not a valid SecureRequest message: " +:+ e)
    (srequest_IsValidJSON data);;
  match srequest_Unmarshal data empty_srequest with
  | None => Err "json"
  | Some secure =>
      if skipvalidate then Ok secure
      else
        match secure with
        | None => nil_headers
        | Some s =>
            valid ← srequest_Valid s;
            if negb valid
            then Err "SecureRequest message created from the Transport Message did not pass security validation"
            else Ok secure
        end
  end.

(** *** Secure replies *)

Definition sreply_IsValidJSON (data : string) : res () :=
  if negb ClientStrictValidation then Ok tt else validate SecureReplyV1 "SecureReply" data.

Definition sreply_JSON (r : SecureReply) : res string :=
  j ← marshalled (sreply_Marshal r);
  map_err (λ e, "reply JSON produced from the SecureRequest does not pass validation: " +:+ e)
    (sreply_IsValidJSON j);;
  Ok j.

Definition sreply_SetMessage (reply : Reply) (r : SecureReply) : res SecureReply :=
  j ← map_err (λ e, "could not JSON encode reply message to store it in the Secure Reply: " +:+ e)
        (reply_JSON reply);
  Ok (r <| h_MessageBody := j |> <| h_Hash := b64_encode (ChecksumBytes j) |>).

Definition sreply_Valid (r : SecureReply) : bool :=
  String.eqb (b64_encode (ChecksumBytes (h_MessageBody r))) (h_Hash r).

Definition empty_sreply : SecureReply :=
  {| h_Protocol := SecureReplyV1; h_MessageBody := ""; h_Hash := "" |}.

Definition NewSecureReply (reply : Reply) : res SecureReply :=
  require_x509;;
  map_err (λ e, "could not set message on SecureReply structure: " +:+ e) (sreply_SetMessage reply empty_sreply).

Definition NewSecureReplyFromTransport (message : TransportMessage) (skipvalidate : bool) :
    res (option SecureReply) :=
  require_x509;;
  let data := tm_Data message in
  map_err (λ e, "the JSON body from the TransportMessage is not a valid SecureReply message: " +:+ e)
    (sreply_IsValidJSON data);;
  match sreply_Unmarshal data empty_sreply with
  | None => Err "json"
  | Some secure =>
      if skipvalidate then Ok secure
      else
        match secure with
        | None => nil_headers
        | Some s =>
            if negb (sreply_Valid s)
            then Err "SecureReply message created from the Transport Message is not valid"
            else Ok secure
        end
  end.

Definition empty_reply : Reply :=
  {| p_Protocol := ReplyV1; p_MessageBody := "";
     p_Envelope := Some {| pe_RequestID := ""; pe_SenderID := ""; pe_Agent := ""; pe_Time := 0;
                           pe_seenBy := []; pe_federation := None |} |}.

Definition NewReplyFromSecureReply (sr : SecureReply) : res Reply :=
  if negb (String.eqb (h_Protocol sr) SecureReplyV1)
  then Err ("cannot create a version 1 SecureReply from a " +:+ h_Protocol sr +:+ " SecureReply")
  else
    map_err (λ e, "the JSON body from the SecureReply is not a valid Reply message: " +:+ e)
      (reply_IsValidJSON (h_MessageBody sr));;
    match reply_Unmarshal (h_MessageBody sr) empty_reply with
    | None => Err "could not parse JSON data from Secure Reply"
    | Some rep => Ok rep
    end.

End Package.
End v1.

(** ** What the structures say, in the records of the other files *)

Definition abs_request (r : v1.Request) : option Request :=
  (λ e, {| rq_Type := V1; rq_Protocol := v1.q_Protocol r; rq_MessageBody := v1.q_MessageBody r;
           rq_RequestID := v1.qe_RequestID e; rq_SenderID := v1.qe_SenderID e; rq_CallerID := v1.qe_CallerID e;
           rq_Collective := v1.qe_Collective e; rq_Agent := v1.qe_Agent e; rq_TTL := v1.qe_TTL e;
           rq_Time := v1.qe_Time e; rq_Filter := v1.qe_Filter e; rq_callerJWT := ""; rq_signerJWT := "";
           rq_seenBy := v1.qe_seenBy e; rq_federation := v1.qe_federation e |}) <$> v1.q_Envelope r.

Definition abs_reply (r : v1.Reply) : option Reply :=
  (λ e, {| rp_Type := V1; rp_Protocol := v1.p_Protocol r; rp_MessageBody := v1.p_MessageBody r;
           rp_Request := v1.pe_RequestID e; rp_Sender := v1.pe_SenderID e; rp_SendingAgent := v1.pe_Agent e;
           rp_TimeStamp := v1.pe_Time e; rp_seenBy := v1.pe_seenBy e; rp_federation := v1.pe_federation e |})
    <$> v1.p_Envelope r.

Definition abs_srequest (r : v1.SecureRequest) : SecureRequest :=
  {| sr_Type := V1; sr_Protocol := v1.s_Protocol r; sr_MessageBody := v1.s_MessageBody r;
     sr_Signature := v1.s_Signature r; sr_Caller := v1.s_PublicCertificate r; sr_SignerJWT := "" |}.

Definition abs_sreply (r : v1.SecureReply) : SecureReply :=
  {| sp_Type := V1; sp_Protocol := v1.h_Protocol r; sp_MessageBody := v1.h_MessageBody r;
     sp_Hash := v1.h_Hash r; sp_Signature := ""; sp_SenderJWT := "" |}.

(** ** Version 2, whose structure is the record itself *)

Definition v2_GetFilter (r : Request) : res (Filter * bool * Request) :=
  let r := match rq_Filter r with None => r <| rq_Filter := Some NewFilter |> | Some _ => r end in
  match rq_Filter r with Some f => Ok (f, negb (Empty f), r) | None => nil_headers end.

#[export] Instance v2_methods : RequestMethods Request := {|
  SetMessage := λ message r, Ok (r <| rq_MessageBody := message |>);
  SetCallerID := λ id r, Ok (r <| rq_CallerID := id |>);
  SetCollective := λ collective r, Ok (r <| rq_Collective := collective |>);
  SetAgent := λ agent r, Ok (r <| rq_Agent := agent |>);
  SetFilter := λ filter r, Ok (r <| rq_Filter := filter |>);
  SetRequestID := λ id r, Ok (r <| rq_RequestID := id |>);
  SetTTL := λ ttl r, Ok (r <| rq_TTL := ttl |>);
  Message := λ r, Ok (rq_MessageBody r);
  RequestID := λ r, Ok (rq_RequestID r);
  RequestSenderID := λ r, Ok (rq_SenderID r);
  CallerID := λ r, Ok (rq_CallerID r);
  CallerPublicData := rq_callerJWT;
  SignerPublicData := rq_signerJWT;
  Collective := λ r, Ok (rq_Collective r);
  RequestAgent := λ r, Ok (rq_Agent r);
  TTL := λ r, Ok (rq_TTL r);
  RequestTime := λ r, Ok (rq_Time r);
  GetFilter := v2_GetFilter;
  Version := rq_Protocol;
|}.

(** ** What a program does to a request *)

Inductive request_call :=
  | CallSetMessage (message : string)
  | CallSetCallerID (id : string)
  | CallSetCollective (collective : string)
  | CallSetAgent (agent : string)
  | CallNewFilter
  | CallSetFilter (filter : Filter)
  | CallSetRequestID (id : string)
  | CallSetTTL (ttl : Z)
  | CallFederationRequestID (id : string)
  | CallFederationReplyTo (reply : string)
  | CallFederationTargets (targets : list string)
  | CallUnfederated
  | CallRecordNetworkHop (h : hop).

Definition perform `{RequestMethods R} (c : request_call) : R → res R :=
  match c with
  | CallSetMessage message => SetMessage message
  | CallSetCallerID id => SetCallerID id
  | CallSetCollective collective => SetCollective collective
  | CallSetAgent agent => SetAgent agent
  | CallNewFilter => request_NewFilter
  | CallSetFilter filter => SetFilter (Some filter)
  | CallSetRequestID id => SetRequestID id
  | CallSetTTL ttl => SetTTL ttl
  | CallFederationRequestID id => SetFederationRequestID id
  | CallFederationReplyTo reply => SetFederationReplyTo reply
  | CallFederationTargets targets => SetFederationTargets targets
  | CallUnfederated => SetUnfederated
  | CallRecordNetworkHop h => RecordNetworkHop h
  end.

Fixpoint perform_all `{RequestMethods R} (calls : list request_call) (r : R) : res R :=
  match calls with
  | [] => Ok r
  | c :: rest => r ← perform c r; perform_all rest r
  end.

(** Everything the interface tells of a request, but its time and version. *)
Record answers := {
  an_texts : list string;
  an_TTL : Z;
  an_Filter : Filter * bool;
  an_federation : option string * option string * option (list string) * bool;
  an_hops : list hop;
}.

Definition ask `{RequestMethods R} (r : R) : res answers :=
  message ← Message r;
  id ← RequestID r;
  sender ← RequestSenderID r;
  caller ← CallerID r;
  collective ← Collective r;
  agent ← RequestAgent r;
  ttl ← TTL r;
  filter ← GetFilter r;
  fid ← FederationRequestID r;
  freply ← FederationReplyTo r;
  targets ← FederationTargets r;
  federated ← IsFederated r;
  hops ← NetworkHops r;
  Ok {| an_texts := [message; id; sender; caller; collective; agent; CallerPublicData r; SignerPublicData r];
        an_TTL := ttl; an_Filter := filter.1; an_federation := (fid, freply, targets, federated);
        an_hops := hops |}.

(** [v2.NewRequest] *)
Definition v2_NewRequest := SecureMessages.NewRequest V2.

(** ** Reading messages: choria/protocol.go, on transports of this version

    The version of the secure message chooses the package that reads what it holds. *)

Section Framework.
Context `{TJ : TransportJSON} `{MJ : MessageJSON} `{PJ : v1.JSON} `{BF : BuildFlags} `{SP : SecurityProvider}.

Definition reply_of_transport (transport : TransportMessage) (skipvalidate : bool) : res (v1.Reply + Reply) :=
  sreply ← v1.NewSecureReplyFromTransport transport skipvalidate;
  match sreply with
  | None => nil_headers
  | Some sreply =>
      let version := v1.h_Protocol sreply in
      if String.eqb version SecureReplyV1
      then reply ← v1.NewReplyFromSecureReply sreply; reply ← CopyFederationData transport reply; Ok (inl reply)
      else if String.eqb version SecureReplyV2
      then reply ← reply_from_secure V2 (abs_sreply sreply);
           reply ← CopyFederationData transport reply; Ok (inr reply)
      else Err ("do not know how to create a Reply version " +:+ version)
  end.

(** Version 2 asserts that the secure request is its own. *)
Definition request_of_transport (transport : TransportMessage) (skipvalidate : bool) : res v1.Request :=
  sreq ← v1.NewSecureRequestFromTransport transport skipvalidate;
  match sreq with
  | None => nil_headers
  | Some sreq =>
      let version := v1.s_Protocol sreq in
      if String.eqb version SecureRequestV1
      then req ← v1.NewRequestFromSecureRequest sreq; CopyFederationData transport req
      else if String.eqb version SecureRequestV2 then Panic "interface conversion"
      else Err ("do not know how to create a Reply version " +:+ version)
  end.

End Framework.

(** * Theorems *)

(** ** Requests of the two versions *)

(** A request of version 1 and one of version 2 that say the same. *)
Definition same_request (r1 : v1.Request) (r2 : Request) : Prop :=
  ∃ e, v1.q_Envelope r1 = Some e ∧ v1.q_MessageBody r1 = rq_MessageBody r2 ∧
       v1.qe_RequestID e = rq_RequestID r2 ∧ v1.qe_SenderID e = rq_SenderID r2 ∧
       v1.qe_CallerID e = rq_CallerID r2 ∧ v1.qe_Collective e = rq_Collective r2 ∧
       v1.qe_Agent e = rq_Agent r2 ∧ v1.qe_TTL e = rq_TTL r2 ∧
       v1.qe_Filter e = rq_Filter r2 ∧ is_Some (rq_Filter r2) ∧
       v1.qe_seenBy e = rq_seenBy r2 ∧ v1.qe_federation e = rq_federation r2 ∧
       rq_callerJWT r2 = "" ∧ rq_signerJWT r2 = "".

Definition same_stamp (r1 r1' : v1.Request) (r2 r2' : Request) : Prop :=
  RequestTime r1' = RequestTime r1 ∧ Version r1' = Version r1 ∧
  RequestTime r2' = RequestTime r2 ∧ Version r2' = Version r2.

Lemma perform_same c r1 r2 :
  same_request r1 r2 → ∃ r1' r2',
    perform c r1 = Ok r1' ∧ perform c r2 = Ok r2' ∧ same_request r1' r2' ∧ same_stamp r1 r1' r2 r2'.
Proof.
  intros (e & He & H). destruct r1 as [p m env], r2, e. cbn in *. subst env. destruct_and!. subst.
  destruct c; do 2 eexists; (split; [cbn; reflexivity|]); (split; [cbn; reflexivity|]);
    (split; [eexists; cbn; by repeat split; eauto|by repeat split]).
Qed.

Lemma perform_all_same calls r1 r2 :
  same_request r1 r2 → ∃ r1' r2',
    perform_all calls r1 = Ok r1' ∧ perform_all calls r2 = Ok r2' ∧ same_request r1' r2' ∧
    same_stamp r1 r1' r2 r2'.
Proof.
  revert r1 r2. induction calls as [|c rest IH]; intros r1 r2 H; [by exists r1, r2|].
  destruct (perform_same c r1 r2 H) as (r1' & r2' & E1 & E2 & H' & T).
  destruct (IH r1' r2' H') as (s1 & s2 & F1 & F2 & HS & T').
  exists s1, s2. cbn [perform_all]. rewrite E1, E2. cbn [mbind outcome_bind]. split_and!; try done.
  destruct T as (?&?&?&?), T' as (?&?&?&?). split_and!; congruence.
Qed.

Lemma ask_same r1 r2 : same_request r1 r2 → ∃ a, ask r1 = Ok a ∧ ask r2 = Ok a.
Proof.
  intros (e & He & H). destruct r1 as [p m env], r2, e. cbn in *. subst env. destruct_and!. subst.
  match goal with H : is_Some _ |- _ => destruct H as [f ->] end.
  eexists. split; cbn; reflexivity.
Qed.

Lemma new_same now agent sender caller ttl id collective :
  ∃ r, v1.NewRequest now agent sender caller ttl id collective = Ok r ∧
    same_request r (v2_NewRequest now agent sender caller ttl id collective) ∧
    Version r = RequestV1 ∧ RequestTime r = Ok (now / Second * Second)%Z.
Proof. eexists. split; [reflexivity|]. split; [eexists; cbn; by repeat split; eauto|done]. Qed.

(** A program that makes a request and calls its methods, in whatever order, gets the
    same answers from both versions of the protocol and no panic; only the version and
    the time of the request differ, which version 1 cuts to seconds. *)
Theorem versions_agree calls now agent sender caller ttl id collective :
  ∃ r r1 r2 a,
    v1.NewRequest now agent sender caller ttl id collective = Ok r ∧
    perform_all calls r = Ok r1 ∧
    perform_all calls (v2_NewRequest now agent sender caller ttl id collective) = Ok r2 ∧
    ask r1 = Ok a ∧ ask r2 = Ok a ∧
    Version r1 = RequestV1 ∧ Version r2 = RequestV2 ∧
    RequestTime r2 = Ok now ∧
    ∃ t, RequestTime r1 = Ok t ∧ (t ≤ now < t + Second)%Z.
Proof.
  destruct (new_same now agent sender caller ttl id collective) as (r & Er & H0 & Vr & Tr).
  destruct (perform_all_same calls _ _ H0) as (r1 & r2 & E1 & E2 & H & T1 & V1 & T2 & V2).
  destruct (ask_same r1 r2 H) as (a & A1 & A2).
  exists r, r1, r2, a. rewrite V1, V2, T1, T2. split_and!; try done.
  eexists. split; [exact Tr|]. pose proof (Z.div_mod now Second). pose proof (Z.mod_pos_bound now Second).
  unfold Second in *. lia.
Qed.

(** What version 1 does not take: after [SetFilter] of nil it panics when it is asked
    for its filter, where version 2 answers with a new one. *)
Lemma nil_filters (r1 r1' : v1.Request) (r2 r2' : Request) :
  SetFilter None r1 = Ok r1' → SetFilter None r2 = Ok r2' →
  is_panic (GetFilter r1') = true ∧ GetFilter r2' = Ok (NewFilter, false, r2' <| rq_Filter := Some NewFilter |>).
Proof.
  destruct r1 as [p m [e|]], r2; cbn; intros; simplify_eq/=; done.
Qed.

(** ** Reading messages refines the model of SecureMessages *)

(** Two outcomes of the same kind, with related values. *)
Definition alike {A B} (R : A → B → Prop) (o1 : res A) (o2 : res B) : Prop :=
  match o1, o2 with
  | Ok a, Ok b => R a b
  | Err _, Err _ | Panic _, Panic _ => True
  | _, _ => False
  end.

Lemma alike_bind {A B A' B'} (R : A → B → Prop) (S : A' → B' → Prop) o1 o2 (f : A → res A') (g : B → res B') :
  alike R o1 o2 → (∀ a b, R a b → alike S (f a) (g b)) → alike S (o1 ≫= f) (o2 ≫= g).
Proof. destruct o1, o2; cbn; try done; auto. Qed.

Lemma alike_map_err {A B} (R : A → B → Prop) f g o1 o2 : alike R o1 o2 → alike R (map_err f o1) (map_err g o2).
Proof. by destruct o1, o2. Qed.

Lemma alike_map_err_l {A B} (R : A → B → Prop) f o1 o2 : alike R o1 o2 → alike R (map_err f o1) o2.
Proof. by destruct o1, o2. Qed.

Lemma alike_valid_if {A B} (R : A → B → Prop) o1 o2 f g :
  alike R o1 o2 → (∀ a b, R a b → alike eq (f a) (g b)) → alike eq (valid_if o1 f) (valid_if o2 g).
Proof. destruct o1, o2; cbn; try done; auto. Qed.

Lemma alike_refl {A} (o : res A) : alike eq o o.
Proof. by destruct o. Qed.

#[export] Instance v1_Reply_lawful : LawfulFederable v1.Reply.
Proof.
  refine {| view := v1.p_get; set_view := v1.p_set |}.
  - by intros v [] [p m [e|]].
  - by intros v v' [p m [[]|]].
  - intros m v Hv. repeat split; intros; cbn; unfold read_view, write_view; by rewrite Hv.
Defined.

#[export] Instance v1_Request_lawful : LawfulFederable v1.Request.
Proof.
  refine {| view := v1.q_get; set_view := v1.q_set |}.
  - by intros v [] [p m [e|]].
  - by intros v v' [p m [[]|]].
  - intros m v Hv. repeat split; intros; cbn; unfold read_view, write_view; by rewrite Hv.
Defined.

Lemma copy_needs_headers `{Federable M} (m : TransportMessage) (r : M) :
  tm_Headers m = None → ∃ w, CopyFederationData m r = Panic w.
Proof. intros E. unfold CopyFederationData. cbn. unfold read_view, tm_get. rewrite E. by eexists. Qed.

Lemma copy_alike `{LawfulFederable A, LawfulFederable B} (R : A → B → Prop) (m : TransportMessage) (a : A) (b : B) v :
  view a = Ok v → view b = Ok v → (∀ v', R (set_view v' a) (set_view v' b)) →
  alike R (CopyFederationData m a) (CopyFederationData m b).
Proof.
  intros Ha Hb HR. destruct (tm_Headers m) as [h|] eqn:E.
  - assert (view m = Ok (th_Federation h, th_SeenBy h)) as Hm by (cbn; unfold tm_get; by rewrite E).
    rewrite (copy_federation_spec m a _ v Hm Ha), (copy_federation_spec m b _ v Hm Hb). apply HR.
  - destruct (copy_needs_headers m a E) as [w ->], (copy_needs_headers m b E) as [w' ->]. done.
Qed.

Lemma copy_reply_alike (m : TransportMessage) r r' :
  abs_reply r = Some r' →
  alike (λ a b, abs_reply a = Some b) (CopyFederationData m r) (CopyFederationData m r').
Proof.
  destruct r as [p b [e|]]; [|done]. intros [= <-].
  eapply copy_alike; [reflexivity|reflexivity|done].
Qed.

Lemma copy_request_alike (m : TransportMessage) r r' :
  abs_request r = Some r' →
  alike (λ a b, abs_request a = Some b) (CopyFederationData m r) (CopyFederationData m r').
Proof.
  destruct r as [p b [e|]]; [|done]. intros [= <-].
  eapply copy_alike; [reflexivity|reflexivity|done].
Qed.

(** Nothing can be copied to a reply without an envelope. *)
Lemma copy_to_nothing (m : TransportMessage) (r : v1.Reply) :
  v1.p_Envelope r = None → is_panic (CopyFederationData m r) = true.
Proof.
  intros E. destruct (tm_Headers m) as [[rt s b f]|] eqn:Eh.
  2:{ by destruct (copy_needs_headers m r Eh) as [w ->]. }
  unfold CopyFederationData. cbn -[write_federation]. unfold read_view, tm_get. rewrite Eh.
  destruct r as [p bd env]. cbn in E. subst env.
  destruct f as [f|]; done.
Qed.

(** What the two classes promise together: encoding/json decodes the same document into
    both structures.  An envelope that a null took away and that comes again starts empty,
    so this is of structures with nothing in their unexported fields. *)
Class JSONAgree `{MJ : MessageJSON} `{PJ : v1.JSON} : Prop := {
  agree_request : ∀ s r r', abs_request r = Some r' → rq_seenBy r' = [] → rq_federation r' = None →
    match v1.request_Unmarshal s r with
    | None => request_Unmarshal s r' = None
    | Some q => ∀ e q', v1.q_Envelope q = Some e → abs_request q = Some q' →
                  request_Unmarshal s r' = Some q' ∧ rq_seenBy q' = rq_seenBy r' ∧ rq_federation q' = rq_federation r'
    end;
  agree_reply : ∀ s r r', abs_reply r = Some r' → rp_seenBy r' = [] → rp_federation r' = None →
    match v1.reply_Unmarshal s r with
    | None => reply_Unmarshal s r' = None
    | Some q => ∀ e q', v1.p_Envelope q = Some e → abs_reply q = Some q' →
                  reply_Unmarshal s r' = Some q' ∧ rp_seenBy q' = rp_seenBy r' ∧ rp_federation q' = rp_federation r'
    end;
  agree_srequest : ∀ s r,
    match v1.srequest_Unmarshal s r with
    | None => secure_request_Unmarshal s (abs_srequest r) = None
    | Some None => True
    | Some (Some q) => secure_request_Unmarshal s (abs_srequest r) = Some (abs_srequest q)
    end;
  agree_sreply : ∀ s r,
    match v1.sreply_Unmarshal s r with
    | None => secure_reply_Unmarshal s (abs_sreply r) = None
    | Some None => True
    | Some (Some q) => secure_reply_Unmarshal s (abs_sreply r) = Some (abs_sreply q)
    end;
}.

(** The schema of secure requests asks for an object.  That of requests asks for an
    envelope, which is no promise that one is decoded: other keys are allowed, and
    encoding/json takes "Envelope" for the same field. *)
Class RequestSchemas `{TJ : TransportJSON} `{PJ : v1.JSON} : Prop := {
  srequest_not_null : ∀ s r,
    schemaValidate SecureRequestV1 s = Some [] → v1.srequest_Unmarshal s r ≠ Some None;
}.

Section Refinement.
Context `{TJ : TransportJSON} `{MJ : MessageJSON} `{PJ : !v1.JSON} `{BF : BuildFlags} `{SP : SecurityProvider}.
Context `{HA : !JSONAgree}.

Lemma validate_alike schema what s : alike eq (v1.validate schema what s) (passes_schema schema s).
Proof. unfold v1.validate, passes_schema. destruct (schemaValidate schema s) as [[|]|]; done. Qed.

Lemma strict_alike schema what s :
  alike eq (if negb ClientStrictValidation then Ok tt else v1.validate schema what s) (strict_schema schema s).
Proof. unfold strict_schema. destruct (negb _); [done|apply validate_alike]. Qed.

Lemma validate_ok schema what s u : v1.validate schema what s = Ok u → schemaValidate schema s = Some [].
Proof. unfold v1.validate. destruct (schemaValidate schema s) as [[|]|]; done. Qed.

Lemma x509_alike : alike eq v1.require_x509 (check_technology V1).
Proof. unfold v1.require_x509, check_technology. cbn. by destruct (decide _). Qed.

(** A document with a null where version 1 keeps a pointer. *)
Definition null_reply (m : TransportMessage) : Prop :=
  v1.sreply_Unmarshal (tm_Data m) v1.empty_sreply = Some None ∨
  ∃ s q, v1.sreply_Unmarshal (tm_Data m) v1.empty_sreply = Some (Some s) ∧
    v1.reply_Unmarshal (v1.h_MessageBody s) v1.empty_reply = Some q ∧ v1.p_Envelope q = None.

Definition shared_reply_of_transport (m : TransportMessage) (skipvalidate : bool) : res Reply :=
  sreply ← NewSecureReplyFromTransport m skipvalidate;
  reply ← NewReplyFromSecureReply sreply;
  CopyFederationData m reply.

Definition abs_any (r : v1.Reply + Reply) : option Reply :=
  match r with inl r => abs_reply r | inr r => Some r end.

Lemma secure_reply_alike m skip :
  v1.sreply_Unmarshal (tm_Data m) v1.empty_sreply ≠ Some None →
  alike (λ s s', ∃ q, s = Some q ∧ s' = abs_sreply q ∧ v1.sreply_Unmarshal (tm_Data m) v1.empty_sreply = Some s)
    (v1.NewSecureReplyFromTransport m skip) (new_secure_reply_from_transport V1 m skip).
Proof.
  intros Hn. unfold v1.NewSecureReplyFromTransport, new_secure_reply_from_transport.
  eapply alike_bind; [apply x509_alike|intros [] [] _].
  eapply alike_bind; [apply alike_map_err, strict_alike|intros [] [] _].
  pose proof (agree_sreply (tm_Data m) v1.empty_sreply) as Hag. change (abs_sreply v1.empty_sreply) with (empty_secure_reply V1) in Hag.
  unfold unmarshal_secure_reply.
  destruct (v1.sreply_Unmarshal _ _) as [[q|]|] eqn:E; [|done|by rewrite Hag].
  rewrite Hag. cbn. change (sp_Valid _) with (v1.sreply_Valid q).
  destruct skip, (v1.sreply_Valid q); cbn; try done; by exists q.
Qed.

Lemma reply_alike sr :
  (∀ q, v1.reply_Unmarshal (v1.h_MessageBody sr) v1.empty_reply = Some q → v1.p_Envelope q ≠ None) →
  alike (λ a b, abs_reply a = Some b) (v1.NewReplyFromSecureReply sr) (reply_from_secure V1 (abs_sreply sr)).
Proof.
  intros Hn. unfold v1.NewReplyFromSecureReply, reply_from_secure. cbn.
  destruct (negb _); [done|].
  eapply alike_bind; [apply alike_map_err_l, strict_alike|intros [] [] _].
  pose proof (agree_reply (v1.h_MessageBody sr) v1.empty_reply _ eq_refl eq_refl eq_refl) as Hag.
  change {| rp_Type := V1 |} with (empty_reply V1) in Hag. unfold unmarshal_reply.
  destruct (v1.reply_Unmarshal _ _) as [q|]; [|by rewrite Hag].
  destruct q as [p b [e|]]; [|by destruct (Hn _ eq_refl)].
  destruct (Hag e _ eq_refl eq_refl) as (-> & H1 & H2). cbn in *. by rewrite H1, H2.
Qed.

Lemma reply_reading_alike m skip :
  tm_Protocol m = TransportV1 →
  v1.sreply_Unmarshal (tm_Data m) v1.empty_sreply ≠ Some None →
  (∀ s q, v1.sreply_Unmarshal (tm_Data m) v1.empty_sreply = Some (Some s) → v1.h_Protocol s = SecureReplyV1 →
     v1.reply_Unmarshal (v1.h_MessageBody s) v1.empty_reply = Some q → v1.p_Envelope q ≠ None) →
  alike (λ a b, abs_any a = Some b) (reply_of_transport m skip) (shared_reply_of_transport m skip).
Proof.
  intros HV Hs Hq. unfold reply_of_transport, shared_reply_of_transport, NewSecureReplyFromTransport.
  rewrite HV, String.eqb_refl.
  eapply alike_bind; [by apply secure_reply_alike|]. intros ? ? (s & -> & -> & Es).
  unfold NewReplyFromSecureReply. cbn [sp_Protocol abs_sreply].
  destruct (String.eqb_spec (v1.h_Protocol s) SecureReplyV1) as [E1|E1].
  - eapply alike_bind; [apply reply_alike; by eauto|]. intros r r' Hr.
    pose proof (copy_reply_alike m r r' Hr) as H.
    by destruct (CopyFederationData m r), (CopyFederationData m r').
  - destruct (String.eqb_spec (v1.h_Protocol s) SecureReplyV2) as [E2|E2]; [|done].
    eapply alike_bind; [apply alike_refl|]. intros r ? <-. by destruct (CopyFederationData m r).
Qed.

Lemma null_reply_fails m skip s q :
  v1.sreply_Unmarshal (tm_Data m) v1.empty_sreply = Some (Some s) → v1.h_Protocol s = SecureReplyV1 →
  v1.reply_Unmarshal (v1.h_MessageBody s) v1.empty_reply = Some q → v1.p_Envelope q = None →
  is_ok (reply_of_transport m skip) = false.
Proof.
  intros Es Ev Eq He. unfold reply_of_transport, v1.NewSecureReplyFromTransport. rewrite Es.
  destruct v1.require_x509; [|done..]. cbn [mbind outcome_bind].
  destruct (map_err _ (v1.sreply_IsValidJSON _)); [|done..]. cbn [mbind outcome_bind].
  assert (is_ok (reply ← v1.NewReplyFromSecureReply s; r ← CopyFederationData m reply;
                 (Ok (inl r) : res (v1.Reply + Reply))) = false) as H.
  { unfold v1.NewReplyFromSecureReply. rewrite Ev, Eq, String.eqb_refl. cbn [negb].
    destruct (map_err _ _); [|done..]. cbn [mbind outcome_bind].
    pose proof (copy_to_nothing m q He) as Hp. by destruct (CopyFederationData m q). }
  destruct skip, (negb (v1.sreply_Valid s)); cbn [mbind outcome_bind]; try done; by rewrite Ev, String.eqb_refl.
Qed.

Lemma null_secure_reply_fails m skip :
  v1.sreply_Unmarshal (tm_Data m) v1.empty_sreply = Some None →
  is_ok (reply_of_transport m skip) = false.
Proof.
  intros Es. unfold reply_of_transport, v1.NewSecureReplyFromTransport. rewrite Es.
  destruct v1.require_x509; [|done..]. cbn [mbind outcome_bind].
  destruct (map_err _ _); [|done..]. by destruct skip.
Qed.

(** Reading a reply of version 1 refines the model of SecureMessages: it succeeds,
    fails and panics when the model does and gives what the model gives, but for
    documents with a null where the package keeps a pointer, of which none is read. *)
Theorem reply_reading_refines m skip :
  tm_Protocol m = TransportV1 →
  alike (λ a b, abs_any a = Some b) (reply_of_transport m skip) (shared_reply_of_transport m skip) ∨
  null_reply m ∧ is_ok (reply_of_transport m skip) = false.
Proof.
  intros HV. destruct (v1.sreply_Unmarshal (tm_Data m) v1.empty_sreply) as [[s|]|] eqn:Es.
  - destruct (decide (v1.h_Protocol s = SecureReplyV1)) as [Ev|Ev].
    2:{ left. apply reply_reading_alike; [done|congruence|]. intros ? ? [= <-]%(eq_trans (eq_sym Es)); done. }
    destruct (v1.reply_Unmarshal (v1.h_MessageBody s) v1.empty_reply) as [q|] eqn:Eq.
    2:{ left. apply reply_reading_alike; [done|congruence|]. intros ? ? [= <-]%(eq_trans (eq_sym Es)). congruence. }
    destruct (v1.p_Envelope q) as [e|] eqn:Ee.
    + left. apply reply_reading_alike; [done|congruence|]. intros ? ? [= <-]%(eq_trans (eq_sym Es)). congruence.
    + right. split; [right; by exists s, q|by eapply null_reply_fails].
  - right. split; [by left|by apply null_secure_reply_fails].
  - left. apply reply_reading_alike; [done|congruence|]. intros. congruence.
Qed.

(** ** Requests *)

Context `{HS : !RequestSchemas}.

(** A secure request in which the envelope of the request is a null. *)
Definition null_envelope (sr : v1.SecureRequest) : Prop :=
  ∃ q, v1.request_Unmarshal (v1.s_MessageBody sr) v1.bare_request = Some q ∧ v1.q_Envelope q = None.

Definition null_request (m : TransportMessage) : Prop :=
  ∃ s, v1.srequest_Unmarshal (tm_Data m) v1.empty_srequest = Some (Some s) ∧ null_envelope s.

Definition shared_request_of_transport (m : TransportMessage) (skipvalidate : bool) : res Request :=
  sreq ← NewSecureRequestFromTransport m skipvalidate;
  req ← SecureMessages.NewRequestFromSecureRequest sreq;
  CopyFederationData m req.

(** The protocols and schemas that a request passes before its envelope is looked at. *)
Definition reaches_envelope (m : TransportMessage) : Prop :=
  BackingTechnology = SecurityTechnologyX509 ∧ schemaValidate SecureRequestV1 (tm_Data m) = Some [] ∧
  ∀ s, v1.srequest_Unmarshal (tm_Data m) v1.empty_srequest = Some (Some s) →
    v1.s_Protocol s = SecureRequestV1 ∧ schemaValidate RequestV1 (v1.s_MessageBody s) = Some [].

Lemma request_alike sr : ¬ null_envelope sr →
  alike (λ a b, abs_request a = Some b) (v1.NewRequestFromSecureRequest sr) (request_from_secure V1 (abs_srequest sr)).
Proof.
  intros Hn. unfold v1.NewRequestFromSecureRequest, request_from_secure. cbn -[passes_schema v1.bare_request].
  destruct (negb _); [done|].
  pose proof (validate_alike RequestV1 "Request" (v1.s_MessageBody sr)) as Hv.
  unfold v1.request_IsValidJSON.
  destruct (v1.validate _ _ _) as [[]|e|w] eqn:Ev, (passes_schema _ _) as [[]|e'|w']; try done.
  cbn [map_err mbind outcome_bind]. unfold unmarshal_request.
  pose proof (agree_request (v1.s_MessageBody sr) v1.bare_request _ eq_refl eq_refl eq_refl) as Hag.
  change {| rq_Type := V1 |} with (empty_request V1 "" "") in Hag.
  destruct (v1.request_Unmarshal _ _) as [q|] eqn:Eq; [|by rewrite Hag].
  destruct q as [p b [e|]]; [|by destruct Hn; eexists].
  destruct (Hag e _ eq_refl eq_refl) as (-> & H1 & H2). cbn in *. by rewrite H1, H2.
Qed.

(** A request whose envelope is a null is made all the same. *)
Lemma request_of_null sr : null_envelope sr →
  match v1.NewRequestFromSecureRequest sr with Ok r => v1.q_Envelope r = None | Err _ => True | Panic _ => False end ∧
  (v1.s_Protocol sr = SecureRequestV1 → schemaValidate RequestV1 (v1.s_MessageBody sr) = Some [] →
   is_ok (v1.NewRequestFromSecureRequest sr) = true).
Proof.
  intros (q & Eq & Ee). unfold v1.NewRequestFromSecureRequest, v1.request_IsValidJSON, v1.validate. rewrite Eq. split.
  - destruct (negb _); [done|]. by destruct (schemaValidate _ _) as [[|]|].
  - intros -> ->. by rewrite String.eqb_refl.
Qed.

Lemma valid_of_null sr : null_envelope sr → IsSecure = true → v1.srequest_Valid sr ≠ Ok true ∧
  (v1.s_Protocol sr = SecureRequestV1 → schemaValidate RequestV1 (v1.s_MessageBody sr) = Some [] → is_panic (v1.srequest_Valid sr) = true).
Proof.
  intros [Hok Hr]%request_of_null Hsec. unfold v1.srequest_Valid. rewrite Hsec. cbn [negb].
  destruct (v1.NewRequestFromSecureRequest sr) as [r|e|w]; [|split; [done|intros H1 H2; by specialize (Hr H1 H2)]|done].
  destruct r as [p b env]. cbn in Hok. by subst env.
Qed.

Lemma copy_to_null_request (m : TransportMessage) (r : v1.Request) :
  v1.q_Envelope r = None → is_panic (CopyFederationData m r) = true.
Proof.
  intros E. destruct (tm_Headers m) as [[rt s b f]|] eqn:Eh.
  2:{ by destruct (copy_needs_headers m r Eh) as [w ->]. }
  unfold CopyFederationData. cbn -[write_federation]. unfold read_view, tm_get. rewrite Eh.
  destruct r as [p bd env]. cbn in E. subst env. by destruct f as [f|].
Qed.

Lemma valid_alike sr : ¬ null_envelope sr → alike eq (v1.srequest_Valid sr) (sr_Valid (abs_srequest sr)).
Proof.
  intros Hn. unfold v1.srequest_Valid, sr_Valid. destruct (negb IsSecure); [done|]. cbn [sr_Type abs_srequest].
  eapply alike_valid_if; [by apply request_alike|]. intros q r Hr.
  destruct q as [p b [e|]]; [|done]. injection Hr as <-. cbn [v1.CallerID v1.in_envelope v1.q_Envelope mbind outcome_bind].
  eapply alike_valid_if; [apply alike_refl|]. intros name ? <-.
  eapply alike_valid_if; [apply alike_refl|]. intros u ? <-.
  cbn [sr_Signature abs_srequest sr_MessageBody sr_Caller].
  destruct (b64_decode (v1.s_Signature sr)) as [sig|]; [|done]. apply alike_refl.
Qed.

Lemma secure_request_alike m skip : ¬ null_request m →
  alike (λ s s', ∃ q, s = Some q ∧ s' = abs_srequest q ∧ ¬ null_envelope q)
    (v1.NewSecureRequestFromTransport m skip) (new_secure_request_from_transport V1 m skip).
Proof.
  intros Hnull. unfold v1.NewSecureRequestFromTransport, new_secure_request_from_transport.
  eapply alike_bind; [apply x509_alike|intros [] [] _].
  pose proof (validate_alike SecureRequestV1 "SecureRequest" (tm_Data m)) as Hv.
  unfold v1.srequest_IsValidJSON. cbn [SecureRequestVersion].
  destruct (v1.validate _ _ _) as [[]|e|w] eqn:Ev, (passes_schema _ _) as [[]|e'|w']; try done.
  apply validate_ok in Ev. cbn [map_err mbind outcome_bind]. unfold unmarshal_secure_request.
  pose proof (agree_srequest (tm_Data m) v1.empty_srequest) as Hag.
  pose proof (srequest_not_null (tm_Data m) v1.empty_srequest Ev) as Hn.
  change (abs_srequest v1.empty_srequest) with (empty_secure_request V1 "" "") in Hag.
  destruct (v1.srequest_Unmarshal _ _) as [[q|]|] eqn:Eq; [|done|by rewrite Hag].
  assert (¬ null_envelope q) as Hq by (intros Hq; apply Hnull; by exists q).
  rewrite Hag. cbn -[sr_Valid]. destruct skip; [by exists q|].
  eapply alike_bind; [by apply (valid_alike q)|]. intros valid ? <-.
  destruct (negb valid); [done|by exists q].
Qed.

Lemma request_reading_alike m skip :
  tm_Protocol m = TransportV1 → ¬ null_request m →
  alike (λ a b, abs_request a = Some b) (request_of_transport m skip) (shared_request_of_transport m skip).
Proof.
  intros HV Hnull. unfold request_of_transport, shared_request_of_transport, SecureMessages.NewSecureRequestFromTransport.
  rewrite HV, String.eqb_refl.
  eapply alike_bind; [by apply secure_request_alike|]. intros ? ? (s & -> & -> & Hs).
  unfold SecureMessages.NewRequestFromSecureRequest. cbn [sr_Protocol abs_srequest].
  destruct (String.eqb_spec (v1.s_Protocol s) SecureRequestV1) as [E1|E1].
  - eapply alike_bind; [by apply request_alike|]. intros r r' Hr. by apply copy_request_alike.
  - destruct (String.eqb_spec (v1.s_Protocol s) SecureRequestV2) as [E2|E2]; [|done].
    unfold request_from_secure. cbn [sr_Protocol abs_srequest]. rewrite E2, String.eqb_refl. done.
Qed.

(** What is made of a secure request around a null. *)
Lemma request_after_null (m : TransportMessage) s : null_envelope s →
  let read := req ← v1.NewRequestFromSecureRequest s; CopyFederationData m req in
  is_ok read = false ∧
  (v1.s_Protocol s = SecureRequestV1 → schemaValidate RequestV1 (v1.s_MessageBody s) = Some [] → is_panic read = true).
Proof.
  intros [Hok Hr]%request_of_null. cbv zeta. destruct (v1.NewRequestFromSecureRequest s) as [r|e|w]; [|split; [done|intros H1 H2; by specialize (Hr H1 H2)]|done].
  cbn [mbind outcome_bind]. pose proof (copy_to_null_request m r Hok) as Hp. by destruct (CopyFederationData m r).
Qed.

Lemma null_request_fails m skip : null_request m →
  is_ok (request_of_transport m skip) = false ∧ (reaches_envelope m → is_panic (request_of_transport m skip) = true).
Proof.
  intros (s & Es & Hnull). unfold request_of_transport, reaches_envelope, v1.NewSecureRequestFromTransport, v1.require_x509, v1.srequest_IsValidJSON.
  destruct (decide _) as [Hx|]; [|split; [done|intros [? _]; done]]. cbn [mbind outcome_bind]. rewrite Es.
  destruct (request_after_null m s Hnull) as [Hok Hpanic].
  split.
  - destruct (map_err _ _); [|done..]. cbn [mbind outcome_bind].
    assert (is_ok (if String.eqb (v1.s_Protocol s) SecureRequestV1 then req ← v1.NewRequestFromSecureRequest s; CopyFederationData m req
      else if String.eqb (v1.s_Protocol s) SecureRequestV2 then Panic "interface conversion"
      else Err ("do not know how to create a Reply version " +:+ v1.s_Protocol s)) = false) as Hrest.
    { destruct (String.eqb _ _); [done|]. by destruct (String.eqb _ _). }
    destruct skip; [done|]. destruct (v1.srequest_Valid s) as [[]|e|w]; done.
  - intros (_ & Hschema & Hs). destruct (Hs s eq_refl) as [Hp Hb]. specialize (Hpanic Hp Hb). unfold v1.validate. rewrite Hschema.
    cbn [length Nat.eqb negb map_err mbind outcome_bind]. destruct skip; [cbn [mbind outcome_bind]; by rewrite Hp, String.eqb_refl|].
    destruct IsSecure eqn:Hsec.
    + destruct (valid_of_null s Hnull Hsec) as [_ Hv]. specialize (Hv Hp Hb). by destruct (v1.srequest_Valid s).
    + unfold v1.srequest_Valid. rewrite Hsec. cbn [negb mbind outcome_bind]. by rewrite Hp, String.eqb_refl.
Qed.

(** C25. Reading a request of version 1 refines the model of SecureMessages: it succeeds,
    fails and panics when the model does and gives what the model gives, but for requests
    in which the envelope is a null.  None of those is read, and the reader panics on it
    when it passes the schemas, which do not exclude it. *)
Theorem request_reading_refines m skip :
  tm_Protocol m = TransportV1 →
  alike (λ a b, abs_request a = Some b) (request_of_transport m skip) (shared_request_of_transport m skip) ∨
  null_request m ∧ is_ok (request_of_transport m skip) = false ∧
    (reaches_envelope m → is_panic (request_of_transport m skip) = true).
Proof.
  intros HV. destruct (v1.srequest_Unmarshal (tm_Data m) v1.empty_srequest) as [[s|]|] eqn:Es.
  2,3: left; apply request_reading_alike; [done|]; intros (s' & Es' & _); congruence.
  destruct (v1.request_Unmarshal (v1.s_MessageBody s) v1.bare_request) as [q|] eqn:Eq.
  2: { left. apply request_reading_alike; [done|]. intros (s' & Es' & q & Eq' & _). congruence. }
  destruct (v1.q_Envelope q) as [e|] eqn:Ee.
  - left. apply request_reading_alike; [done|]. intros (s' & Es' & q' & Eq' & Ee'). congruence.
  - right. assert (null_request m) as Hn by (exists s; split; [done|by exists q]). split; [done|by apply null_request_fails].
Qed.

(** C32. A client or adapter that does not validate schemas panics on a secure reply whose
    body has a null envelope: the hash of the body, which any sender can compute, is all
    that a valid reply needs, and adapters do not look at it either. *)
Theorem null_envelopes_panic m s q skip :
  BackingTechnology = SecurityTechnologyX509 → ClientStrictValidation = false →
  v1.sreply_Unmarshal (tm_Data m) v1.empty_sreply = Some (Some s) →
  skip = true ∨ v1.h_Hash s = b64_encode (ChecksumBytes (v1.h_MessageBody s)) →
  v1.h_Protocol s = SecureReplyV1 →
  v1.reply_Unmarshal (v1.h_MessageBody s) v1.empty_reply = Some q → v1.p_Envelope q = None →
  is_panic (reply_of_transport m skip) = true.
Proof.
  intros HX HC Es Hh Ev Eq He. unfold reply_of_transport, v1.NewSecureReplyFromTransport, v1.require_x509, v1.sreply_IsValidJSON.
  rewrite Es, HC. destruct (decide _) as [_|]; [|done]. cbn [mbind outcome_bind negb map_err].
  replace (if skip then Ok (Some s) else _) with (Ok (Some s) : res (option v1.SecureReply)).
  2:{ destruct skip; [done|]. destruct Hh as [|Hh]; [done|]. unfold v1.sreply_Valid. by rewrite Hh, String.eqb_refl. }
  cbn [mbind outcome_bind]. unfold v1.NewReplyFromSecureReply, v1.reply_IsValidJSON.
  rewrite Ev, Eq, HC, !String.eqb_refl. cbn [mbind outcome_bind negb map_err].
  pose proof (copy_to_nothing m q He) as Hp. by destruct (CopyFederationData m q).
Qed.

End Refinement.

(** ** Concrete messages *)

Definition conc_request (r : Request) : v1.Request :=
  {| v1.q_Protocol := rq_Protocol r; v1.q_MessageBody := rq_MessageBody r;
     v1.q_Envelope := Some
       {| v1.qe_RequestID := rq_RequestID r; v1.qe_SenderID := rq_SenderID r; v1.qe_CallerID := rq_CallerID r;
          v1.qe_Collective := rq_Collective r; v1.qe_Agent := rq_Agent r; v1.qe_TTL := rq_TTL r;
          v1.qe_Time := rq_Time r; v1.qe_Filter := rq_Filter r; v1.qe_seenBy := rq_seenBy r;
          v1.qe_federation := rq_federation r |} |}.

Definition conc_reply (r : Reply) : v1.Reply :=
  {| v1.p_Protocol := rp_Protocol r; v1.p_MessageBody := rp_MessageBody r;
     v1.p_Envelope := Some
       {| v1.pe_RequestID := rp_Request r; v1.pe_SenderID := rp_Sender r; v1.pe_Agent := rp_SendingAgent r;
          v1.pe_Time := rp_TimeStamp r; v1.pe_seenBy := rp_seenBy r; v1.pe_federation := rp_federation r |} |}.

(** The documents of DemoJSON, and null for a message, or a request or reply without an envelope;
    the two fields secure messages of this version do not have are not read. *)
#[export] Instance demo_v1_json : v1.JSON := {|
  v1.request_Marshal := λ r, r' ← abs_request r; request_Marshal r';
  v1.request_Unmarshal := λ s r,
    if String.eqb s "null" then Some (r <| v1.q_Envelope := None |>)
    else r' ← abs_request r; conc_request <$> request_Unmarshal s r';
  v1.reply_Marshal := λ r, match abs_reply r with Some r' => reply_Marshal r' | None => Some "null" end;
  v1.reply_Unmarshal := λ s r,
    if String.eqb s "null" then Some (r <| v1.p_Envelope := None |>)
    else r' ← abs_reply r; conc_reply <$> reply_Unmarshal s r';
  v1.srequest_Marshal := λ r, secure_request_Marshal (abs_srequest r);
  v1.srequest_Unmarshal := λ s r,
    (λ q, Some {| v1.s_Protocol := sr_Protocol q; v1.s_MessageBody := sr_MessageBody q;
                  v1.s_Signature := sr_Signature q; v1.s_PublicCertificate := sr_Caller q |})
      <$> secure_request_Unmarshal s (abs_srequest r);
  v1.sreply_Marshal := λ r, secure_reply_Marshal (abs_sreply r);
  v1.sreply_Unmarshal := λ s r,
    if String.eqb s "null" then Some None
    else (λ q, Some {| v1.h_Protocol := sp_Protocol q; v1.h_MessageBody := sp_MessageBody q;
                       v1.h_Hash := sp_Hash q |}) <$> secure_reply_Unmarshal s (abs_sreply r);
|}.

(** DemoJSON for messages of this version, whose secure messages have fewer fields. *)
Definition v1_message_json : MessageJSON := {|
  request_Marshal := demo_request_marshal;
  request_Unmarshal := demo_request_unmarshal;
  reply_Marshal := demo_reply_marshal;
  reply_Unmarshal := demo_reply_unmarshal;
  secure_request_Marshal := demo_secure_request_marshal;
  secure_request_Unmarshal := λ s r,
    (λ q, q <| sr_SignerJWT := sr_SignerJWT r |>) <$> demo_secure_request_unmarshal s r;
  secure_reply_Marshal := demo_secure_reply_marshal;
  secure_reply_Unmarshal := λ s r,
    (λ q, q <| sp_Signature := sp_Signature r |> <| sp_SenderJWT := sp_SenderJWT r |>)
      <$> demo_secure_reply_unmarshal s r;
|}.

Lemma demo_request_keeps s r q :
  demo_request_unmarshal s r = Some q →
  rq_Type q = rq_Type r ∧ rq_callerJWT q = rq_callerJWT r ∧ rq_signerJWT q = rq_signerJWT r ∧
  rq_seenBy q = rq_seenBy r ∧ rq_federation q = rq_federation r.
Proof.
  unfold demo_request_unmarshal.
  destruct (fields_decode s) as [[|p [|m [|i [|se [|c [|co [|a [|x [|]]]]]]]]]|]; try done. cbn.
  destruct (demo_unmarshal x) as [[[ttl time] f]|]; [|done]. by intros [= <-].
Qed.

Lemma demo_reply_keeps s r q :
  demo_reply_unmarshal s r = Some q →
  rp_Type q = rp_Type r ∧ rp_seenBy q = rp_seenBy r ∧ rp_federation q = rp_federation r.
Proof.
  unfold demo_reply_unmarshal.
  destruct (fields_decode s) as [[|p [|m [|i [|se [|a [|x [|]]]]]]]|]; try done. cbn.
  destruct (demo_unmarshal x) as [time|]; [|done]. by intros [= <-].
Qed.

#[export] Instance demo_agree : @JSONAgree v1_message_json demo_v1_json.
Proof.
  split.
  - intros s r r' Hr _ _. cbn. destruct (String.eqb s "null"); [done|]. rewrite Hr. cbn.
    destruct (demo_request_unmarshal s r') as [q|] eqn:E; [|done]. cbn. intros e q' _ [= <-].
    apply demo_request_keeps in E as (H1 & H2 & H3 & H4 & H5).
    assert (rq_Type r' = V1 ∧ rq_callerJWT r' = "" ∧ rq_signerJWT r' = "") as (T1 & T2 & T3).
    { destruct r as [p b [e'|]]; [|done]. by injection Hr as <-. }
    destruct q; cbn in *. by rewrite H1, H2, H3, T1, T2, T3.
  - intros s r r' Hr _ _. cbn. destruct (String.eqb s "null"); [done|]. rewrite Hr. cbn.
    destruct (demo_reply_unmarshal s r') as [q|] eqn:E; [|done]. cbn. intros e q' _ [= <-].
    apply demo_reply_keeps in E as (H1 & H2 & H3).
    assert (rp_Type r' = V1) as T1. { destruct r as [p b [e'|]]; [|done]. by injection Hr as <-. }
    destruct q; cbn in *. by rewrite H1, T1.
  - intros s r. cbn. unfold demo_secure_request_unmarshal.
    destruct (fields_decode s) as [[|p [|m [|g [|c [|j [|]]]]]]|]; done.
  - intros s r. cbn. destruct (String.eqb s "null"); [done|]. unfold demo_secure_reply_unmarshal.
    destruct (fields_decode s) as [[|p [|m [|g [|c [|j [|]]]]]]|]; done.
Qed.

#[export] Instance demo_schemas : RequestSchemas.
Proof.
  split. intros s r. cbn. intros _.
  unfold demo_secure_request_unmarshal. by destruct (fields_decode s) as [[|p [|m [|g [|c [|j [|]]]]]]|].
Qed.

Definition x509_provider : SecurityProvider := {|
  BackingTechnology := SecurityTechnologyX509;
  CallerIdentity := λ c, Ok c;
  SignBytes := λ b, Ok "signed";
  VerifySignatureBytes := λ dat sig public, Ok (String.eqb sig "signed", "");
  RemoteSignRequest := λ _, Err "remote signing not configured";
  IsRemoteSigning := false;
  ChecksumBytes := λ s, s;
  PublicCertBytes := Ok "certificate";
  TokenBytes := Err "no tokens";
  ShouldSignReplies := false;
  ShouldAllowCaller := λ _ _, Ok false;
|}.

(** A transport around a secure message. *)
Definition demo_transport (data : string) : TransportMessage :=
  {| tm_Type := V1; tm_Protocol := TransportV1; tm_Data := data; tm_Headers := Some empty_headers |}.

Definition demo_data (j : res string) : string := match j with Ok j => j | _ => "" end.

(** A request [bob] signs, and the server's reply to it. *)
Definition demo_request_transport : TransportMessage :=
  demo_transport (demo_data (
    r ← v1.NewRequest (100 * Second) "rpcutil" "client" "bob" 60 "42" "mcollective";
    s ← v1.NewSecureRequest (SP := x509_provider) r;
    v1.srequest_JSON s)).

Definition demo_reply_transport : TransportMessage :=
  demo_transport (demo_data (
    r ← v1.NewRequest (100 * Second) "rpcutil" "client" "bob" 60 "42" "mcollective";
    p ← v1.NewReply (101 * Second) r "node1";
    s ← v1.NewSecureReply (SP := x509_provider) p;
    v1.sreply_JSON s)).

(** A secure reply around a body with a null envelope. *)
Definition demo_null_sreply : v1.SecureReply :=
  {| v1.h_Protocol := SecureReplyV1; v1.h_MessageBody := "null"; v1.h_Hash := b64_encode "null" |}.

(** A secure request around a body with a null envelope. *)
Definition demo_null_request : TransportMessage :=
  demo_transport (default "" (v1.srequest_Marshal
    {| v1.s_Protocol := SecureRequestV1; v1.s_MessageBody := "null"; v1.s_Signature := "signed"; v1.s_PublicCertificate := "certificate" |})).

Lemma request_reading_refines_witness :
  is_ok (r ← request_of_transport (SP := x509_provider) demo_request_transport false; v1.RequestID r) = true ∧
  alike (λ a b, abs_request a = Some b)
    (request_of_transport (SP := x509_provider) demo_request_transport false)
    (shared_request_of_transport (MJ := v1_message_json) (SP := x509_provider) demo_request_transport false) ∧
  is_panic (request_of_transport (SP := x509_provider) demo_null_request false) = true.
Proof.
  assert (is_ok (r ← request_of_transport (SP := x509_provider) demo_request_transport false; v1.RequestID r) = true) as Hok by (vm_compute; reflexivity).
  split; [exact Hok|]. split.
  - destruct (request_reading_refines (HA := demo_agree) (SP := x509_provider) demo_request_transport false) as [H|(_ & H & _)]; [reflexivity|exact H|].
    destruct (request_of_transport (SP := x509_provider) demo_request_transport false); [discriminate H|discriminate Hok..].
  - destruct (request_reading_refines (HA := demo_agree) (SP := x509_provider) demo_null_request false) as [H|(_ & _ & H)]; [reflexivity| |].
    + vm_compute in H. contradiction.
    + apply H. split; [reflexivity|]. split; [vm_compute; reflexivity|]. intros s Hs. vm_compute in Hs. injection Hs as <-. split; vm_compute; reflexivity.
Defined.

Lemma reply_reading_refines_witness :
  is_ok (reply_of_transport (MJ := v1_message_json) (SP := x509_provider) demo_reply_transport false) = true ∧
  (alike (λ a b, abs_any a = Some b)
     (reply_of_transport (MJ := v1_message_json) (SP := x509_provider) demo_reply_transport false)
     (shared_reply_of_transport (MJ := v1_message_json) (SP := x509_provider) demo_reply_transport false) ∨
   null_reply demo_reply_transport ∧
   is_ok (reply_of_transport (MJ := v1_message_json) (SP := x509_provider) demo_reply_transport false) = false).
Proof.
  split; [by vm_compute|].
  apply (reply_reading_refines (HA := demo_agree)). reflexivity.
Defined.

Lemma null_envelopes_panic_witness :
  is_panic (reply_of_transport (SP := x509_provider)
              (demo_transport (default "" (v1.sreply_Marshal demo_null_sreply))) false) = true.
Proof.
  apply (null_envelopes_panic (MJ := v1_message_json) _ demo_null_sreply
           (v1.empty_reply <| v1.p_Envelope := None |>)).
  all: try by vm_compute. right. by vm_compute.
Defined.
