(* ===== verification/HttpServer.v ===== *)
(** * The HTTP server of autonomous agents

    aagent/http/http.go: the switches and metrics that machines expose, by the names of
    machine and watcher, and the three handlers.  Switches are the ones of HttpSwitch.v,
    shared with their machines, so the world holds them beside the server's tables, which
    hold pointers; a handler's call of a switch that passes its checks leaves a press with
    the switch, as [step_press] does, and answers once the press is taken.  The lock is
    held for the tables only.  JSON is the class [HttpJSON]. *)
From S2P Require Import Prelude Records GoLib Files GoNum Util Machine Watchers HttpSwitch MetricWatcher.
From stdpp Require Import functions.

(** ** Requests and responses *)

Record HttpRequest := {
  rq_Method : string;
  (** the path values, empty when the pattern has none *)
  rq_machine : string;
  rq_watcher : string;
  (** reading it can fail *)
  rq_Body : res string;
}.

(** What a [ResponseWriter] has sent: the status is the first that was written. *)
Record Response := { rs_status : option Z; rs_body : string }.

Definition StatusOK : Z := 200.
Definition StatusBadRequest : Z := 400.
Definition StatusNotFound : Z := 404.
Definition StatusInternalServerError : Z := 500.

Definition no_response : Response := {| rs_status := None; rs_body := "" |}.

Definition WriteHeader (code : Z) (w : Response) : Response :=
  match rs_status w with None => w <| rs_status := Some code |> | Some _ => w end.

Definition Write (b : string) (w : Response) : Response :=
  let w := WriteHeader StatusOK w in w <| rs_body := rs_body w +:+ b |>.

(** [w.WriteHeader(code); w.Write([]byte(body))] *)
Definition answer (code : Z) (body : string) (w : Response) : Response := Write body (WriteHeader code w).

(** ** The server *)

(** Tables of pointers, by machine and watcher. *)
Abbreviation table := (gmap string (gmap string nat)).

Record HTTPServer := { sv_switches : table; sv_metrics : table }.

Definition NewHTTPServer : HTTPServer := {| sv_switches := ∅; sv_metrics := ∅ |}.

Definition get_watcher (machine watcher : string) (t : table) : option nat :=
  match t !! machine with None => None | Some ws => ws !! watcher end.

Definition getSwitch (machine watcher : string) (s : HTTPServer) : option nat :=
  get_watcher machine watcher (sv_switches s).
Definition getMetric (machine watcher : string) (s : HTTPServer) : option nat :=
  get_watcher machine watcher (sv_metrics s).

Definition add_watcher (machine name : string) (id : nat) (t : table) : table :=
  <[machine := <[name := id]> (default ∅ (t !! machine))]> t.

Definition remove_watcher (machine name : string) (t : table) : table :=
  match t !! machine with None => t | Some ws => <[machine := delete name ws]> t end.

Definition AddSwitchWatcher (machine name : string) (id : nat) (s : HTTPServer) : HTTPServer :=
  s <| sv_switches ::= add_watcher machine name id |>.
Definition RemoveSwitchWatcher (machine name : string) (s : HTTPServer) : HTTPServer :=
  s <| sv_switches ::= remove_watcher machine name |>.
Definition AddMetricWatcher (machine name : string) (id : nat) (s : HTTPServer) : HTTPServer :=
  s <| sv_metrics ::= add_watcher machine name id |>.
Definition RemoveMetricWatcher (machine name : string) (s : HTTPServer) : HTTPServer :=
  s <| sv_metrics ::= remove_watcher machine name |>.

(** ** Handlers *)

Record SwitchStatusGetResponse := {
  sg_IsOn : bool;
  sg_IsOff : bool;
  sg_Status : string;
  sg_Detail : StateNotification;
}.

Record MetricGetResponse := {
  mg_Labels : option (gmap string string);
  mg_Metrics : option (gmap string float64);
  mg_Time : Z;
}.

(** Of a pointer to a status, which may be nil; a float that is not a number does not
    encode.  [post_Decode] is the field [on] of a body. *)
Class HttpJSON := {
  status_Marshal : option SwitchStatusGetResponse → res string;
  metric_Marshal : MetricGetResponse → res string;
  post_Marshal : bool → res string;
  post_Decode : string → res bool;
}.

(** Switches and what their machines look like, by pointer, and the metric
    [LastMetric] gives. *)
Record World := {
  hw_server : HTTPServer;
  hw_switches : nat → Switch * machine_view;
  hw_metrics : nat → Metric;
}.

Section Handlers.
Context `{HttpJSON}.

(** A call of [TurnOn] or [TurnOff], which answer alike. *)
Definition turn (on : bool) (id : nat) (w : World) : World * res bool :=
  let '(sw, v) := hw_switches w id in
  match (if on then TurnOn v sw else TurnOff v sw) with
  | Ok s => (w <| hw_switches ::= <[id := (sw <| hs_pressers ::= (λ l, l ++ [s]) |>, v)]> |>, Ok true)
  | Err e => (w, Err e)
  | Panic p => (w, Panic p)
  end.

Definition switchGetImpl (machine watcher : string) (w : World) : res SwitchStatusGetResponse :=
  match getSwitch machine watcher (hw_server w) with
  | None => Err "switch not found"
  | Some id =>
      let sstatus := HttpSwitch.CurrentState (hw_switches w id).1 in
      Ok {| sg_Status := sn_PreviousOutcome sstatus; sg_IsOn := sn_IsOn sstatus; sg_IsOff := negb (sn_IsOn sstatus);
            sg_Detail := sstatus |}
  end.

Definition switchPostImpl (machine watcher : string) (on : bool) (w : World) : World * res bool :=
  match getSwitch machine watcher (hw_server w) with
  | None => (w, Err "switch not found")
  | Some id => turn on id w
  end.

(** An answer [Ok] or status 500 with the error; panics of what was called pass on. *)
Definition or_500 {A} (r : res A) (f : A → Response → res Response) (rw : Response) : res Response :=
  match r with
  | Ok a => f a rw
  | Err e => Ok (answer StatusInternalServerError e rw)
  | Panic p => Panic p
  end.

Definition names_given (r : HttpRequest) : bool :=
  negb (String.eqb (rq_machine r) "" || String.eqb (rq_watcher r) "").

Definition required : Response → Response := answer StatusBadRequest "machine and watcher are required".

Definition on_off (is_on : bool) : string := if is_on then "ON" else "OFF".

(** The response to an unknown switch is not the end of the function. *)
Definition switchGetHandler (r : HttpRequest) (w : World) (rw : Response) : res Response :=
  if negb (names_given r) then Ok (required rw)
  else
    '(resp, rw) ← match switchGetImpl (rq_machine r) (rq_watcher r) w with
                  | Ok resp => Ok (Some resp, rw)
                  | Err e => Ok (None, answer StatusBadRequest e rw)
                  | Panic p => Panic p
                  end;
    or_500 (status_Marshal resp) (λ j rw, Ok (Write j rw)) rw.

Definition haSwitchGetHandler (r : HttpRequest) (w : World) (rw : Response) : res Response :=
  if negb (names_given r) then Ok (required rw)
  else
    match switchGetImpl (rq_machine r) (rq_watcher r) w with
    | Ok resp => Ok (Write (on_off (sg_IsOn resp)) rw)
    | Err e => Ok (answer StatusBadRequest e rw)
    | Panic p => Panic p
    end.

Definition switchPostHandler (r : HttpRequest) (w : World) (rw : Response) : World * res Response :=
  if negb (names_given r) then (w, Ok (required rw))
  else
    match (body ← rq_Body r; post_Decode body) with
    | Err e => (w, Ok (answer StatusInternalServerError e rw))
    | Panic p => (w, Panic p)
    | Ok on =>
        let '(w, ok) := switchPostImpl (rq_machine r) (rq_watcher r) on w in
        (w, or_500 ok (λ ok, or_500 (post_Marshal ok) (λ j rw, Ok (Write j rw))) rw)
    end.

(** Every body that does not begin with ON turns the switch off. *)
Definition haSwitchPostHandler (r : HttpRequest) (w : World) (rw : Response) : World * res Response :=
  if negb (names_given r) then (w, Ok (required rw))
  else
    match rq_Body r with
    | Err e => (w, Ok (answer StatusInternalServerError e rw))
    | Panic p => (w, Panic p)
    | Ok body =>
        let '(w, isOn) := switchPostImpl (rq_machine r) (rq_watcher r) (has_prefix body "ON") w in
        (w, or_500 isOn (λ isOn rw, Ok (Write (on_off isOn) rw)) rw)
    end.

Definition metricGetHandler (r : HttpRequest) (w : World) (rw : Response) : res Response :=
  if negb (names_given r) then Ok (required rw)
  else
    match getMetric (rq_machine r) (rq_watcher r) (hw_server w) with
    | None => Ok (answer StatusBadRequest "metric not found" rw)
    | Some id =>
        let status := hw_metrics w id in
        or_500 (metric_Marshal {| mg_Metrics := mt_Metrics status; mg_Labels := mt_Labels status; mg_Time := mt_Time status |})
          (λ j rw, Ok (Write j rw)) rw
    end.

Definition SwitchHandler (r : HttpRequest) (w : World) : World * res Response :=
  if String.eqb (rq_Method r) "GET" then (w, switchGetHandler r w no_response)
  else if String.eqb (rq_Method r) "POST" then switchPostHandler r w no_response
  else (w, Ok (WriteHeader StatusNotFound no_response)).

Definition HASwitchHandler (r : HttpRequest) (w : World) : World * res Response :=
  if String.eqb (rq_Method r) "GET" then (w, haSwitchGetHandler r w no_response)
  else if String.eqb (rq_Method r) "POST" then haSwitchPostHandler r w no_response
  else (w, Ok (WriteHeader StatusNotFound no_response)).

Definition MetricHandler (r : HttpRequest) (w : World) : World * res Response :=
  if String.eqb (rq_Method r) "GET" then (w, metricGetHandler r w no_response)
  else (w, Ok (WriteHeader StatusNotFound no_response)).

(** * Theorems *)

(** ** The tables *)

(** What machines do to the table of switches. *)
Inductive table_call := Add (machine name : string) (id : nat) | Remove (machine name : string).

Definition do_call (s : HTTPServer) (c : table_call) : HTTPServer :=
  match c with
  | Add machine name id => AddSwitchWatcher machine name id s
  | Remove machine name => RemoveSwitchWatcher machine name s
  end.

(** The specification: one map from pairs of names. *)
Definition spec_call (m : gmap (string * string) nat) (c : table_call) : gmap (string * string) nat :=
  match c with
  | Add machine name id => <[(machine, name) := id]> m
  | Remove machine name => delete (machine, name) m
  end.

Lemma get_add machine name id t k n :
  get_watcher k n (add_watcher machine name id t) =
  if bool_decide (machine = k ∧ name = n) then Some id else get_watcher k n t.
Proof.
  unfold get_watcher, add_watcher. destruct (decide (machine = k)) as [->|Hk].
  - rewrite lookup_insert_eq. destruct (decide (name = n)) as [->|Hn].
    + by rewrite lookup_insert_eq, bool_decide_true.
    + rewrite lookup_insert_ne by done. rewrite bool_decide_false by naive_solver. by destruct (t !! k).
  - rewrite lookup_insert_ne by done. rewrite bool_decide_false by naive_solver. done.
Qed.

Lemma get_remove machine name t k n :
  get_watcher k n (remove_watcher machine name t) =
  if bool_decide (machine = k ∧ name = n) then None else get_watcher k n t.
Proof.
  unfold get_watcher, remove_watcher. destruct (t !! machine) as [ws|] eqn:E.
  - destruct (decide (machine = k)) as [->|Hk].
    + rewrite lookup_insert_eq, E. destruct (decide (name = n)) as [->|Hn].
      * by rewrite lookup_delete_eq, bool_decide_true.
      * rewrite lookup_delete_ne by done. by rewrite bool_decide_false by naive_solver.
    + rewrite lookup_insert_ne by done. by rewrite bool_decide_false by naive_solver.
  - case_bool_decide as Hb; [|done]. destruct Hb as [-> ->]. by rewrite E.
Qed.

(** The tables are one map from pairs of names: after whatever calls, a switch is found
    exactly when the last call for its names added one, and it is that one; removing does
    not look at which watcher it is asked to remove. *)
Theorem tables_refine_map (calls : list table_call) (k n : string) :
  getSwitch k n (foldl do_call NewHTTPServer calls) = foldl spec_call ∅ calls !! (k, n).
Proof.
  induction calls as [|c calls IH] using rev_ind; [done|]. rewrite !foldl_snoc.
  unfold getSwitch in *. destruct c as [machine name id|machine name]; cbn [do_call spec_call].
  - change (sv_switches (AddSwitchWatcher _ _ _ ?s)) with (add_watcher machine name id (sv_switches s)).
    rewrite get_add, IH. case_bool_decide as Hb.
    + destruct Hb as [-> ->]. by rewrite lookup_insert_eq.
    + rewrite lookup_insert_ne; [done|]. naive_solver.
  - change (sv_switches (RemoveSwitchWatcher _ _ ?s)) with (remove_watcher machine name (sv_switches s)).
    rewrite get_remove, IH. case_bool_decide as Hb.
    + destruct Hb as [-> ->]. by rewrite lookup_delete_eq.
    + rewrite lookup_delete_ne; [done|]. naive_solver.
Qed.

(** ** Presses *)

(** The world with one more press of a switch. *)
Definition pressed_world (s : State) (id : nat) (w : World) : World :=
  let '(sw, v) := hw_switches w id in
  w <| hw_switches ::= <[id := (sw <| hs_pressers ::= (λ l, l ++ [s]) |>, v)]> |>.

(** The press a switch accepts. *)
Definition accepts (id : nat) (w : World) : Prop :=
  let '(sw, v) := hw_switches w id in
  shouldBeDisabled (mv_State v) sw = false ∧ ShouldWatch (Some v) (hs_base sw) = true.

Definition wanted (on : bool) : State := if on then On else Off.

Lemma turn_spec on id w :
  (accepts id w ∧ turn on id w = (pressed_world (wanted on) id w, Ok true)) ∨
  (¬ accepts id w ∧ ∃ e, turn on id w = (w, Err e)).
Proof.
  unfold turn, accepts, pressed_world, TurnOn, TurnOff. destruct (hw_switches w id) as [sw v].
  destruct (shouldBeDisabled _ _), (ShouldWatch _ _), on; cbn;
    first [left; by split|right; split; [naive_solver|by eexists]].
Qed.

(** What a POST asks of the switch it names. *)
Definition asks (ha : bool) (r : HttpRequest) : option bool :=
  if negb (String.eqb (rq_Method r) "POST" && names_given r) then None
  else
    match rq_Body r with
    | Ok body => if ha then Some (has_prefix body "ON")
                 else match post_Decode body with Ok on => Some on | _ => None end
    | _ => None
    end.

Definition handle (ha : bool) : HttpRequest → World → World * res Response :=
  if ha then HASwitchHandler else SwitchHandler.

Lemma post_spec machine watcher on w :
  (switchPostImpl machine watcher on w).1 = w ∨
  ∃ id, getSwitch machine watcher (hw_server w) = Some id ∧ accepts id w ∧
        switchPostImpl machine watcher on w = (pressed_world (wanted on) id w, Ok true).
Proof.
  unfold switchPostImpl. destruct (getSwitch _ _ _) as [id|]; [|by left].
  destruct (turn_spec on id w) as [[Ha ->]|[_ [e ->]]]; [right; by exists id|by left].
Qed.

Lemma handle_world ha r w :
  (handle ha r w).1 =
  match asks ha r with
  | Some on => (switchPostImpl (rq_machine r) (rq_watcher r) on w).1
  | None => w
  end.
Proof.
  destruct ha; unfold handle, HASwitchHandler, SwitchHandler, asks.
  all: destruct (String.eqb_spec (rq_Method r) "GET") as [->|_]; [done|].
  all: destruct (String.eqb (rq_Method r) "POST"); [|done].
  all: unfold haSwitchPostHandler, switchPostHandler; destruct (names_given r); [|done]; cbn [negb andb].
  all: destruct (rq_Body r) as [body|e|p]; cbn [mbind outcome_bind]; [|done..].
  - by destruct (switchPostImpl _ _ _ _).
  - destruct (post_Decode body) as [on|e|p]; [|done..]. by destruct (switchPostImpl _ _ _ _).
Qed.

(** Requests only press the switch they name: a request changes nothing, or it is a POST
    for a switch that is exposed under its names, enabled and active, and leaves it one
    press of the state it asks for. *)
Theorem requests_only_press (ha : bool) (r : HttpRequest) (w w' : World) o :
  handle ha r w = (w', o) →
  w' = w ∨
  ∃ on id, asks ha r = Some on ∧ getSwitch (rq_machine r) (rq_watcher r) (hw_server w) = Some id ∧
    accepts id w ∧ w' = pressed_world (wanted on) id w.
Proof.
  intros Hh. pose proof (handle_world ha r w) as Hw. rewrite Hh in Hw. cbn in Hw. subst w'.
  destruct (asks ha r) as [on|]; [|by left].
  destruct (post_spec (rq_machine r) (rq_watcher r) on w) as [->|(id & Hg & Ha & ->)]; [by left|].
  right. by exists on, id.
Qed.

(** What is answered to a press that is accepted is ON, also when it turns the switch off:
    [TurnOff] returns true as [TurnOn] does. *)
Theorem presses_are_answered_on (ha on : bool) (r : HttpRequest) (w : World) (id : nat) (j : string) :
  asks ha r = Some on → getSwitch (rq_machine r) (rq_watcher r) (hw_server w) = Some id →
  accepts id w → post_Marshal true = Ok j →
  handle ha r w = (pressed_world (wanted on) id w,
                   Ok {| rs_status := Some StatusOK; rs_body := if ha then "ON" else j |}).
Proof.
  intros Hasks Hg Ha Hj.
  destruct (turn_spec on id w) as [[_ Ht]|[Hn _]]; [|done].
  assert (switchPostImpl (rq_machine r) (rq_watcher r) on w = (pressed_world (wanted on) id w, Ok true)) as Hp
    by (unfold switchPostImpl; by rewrite Hg).
  unfold asks in Hasks. destruct (String.eqb_spec (rq_Method r) "POST") as [Hm|]; [|done].
  destruct (names_given r) eqn:Hn; [|done]. cbn in Hasks. destruct (rq_Body r) as [body|?|?] eqn:Hb; [|done..].
  destruct ha; unfold handle, HASwitchHandler, SwitchHandler; rewrite Hm; cbn -[pressed_world].
  - injection Hasks as <-. unfold haSwitchPostHandler. rewrite Hn, Hb. cbn [negb]. by rewrite Hp.
  - destruct (post_Decode body) as [on'|?|?] eqn:Hd; [|done..]. injection Hasks as ->.
    unfold switchPostHandler. rewrite Hn, Hb. cbn [negb mbind outcome_bind]. rewrite Hd, Hp. cbn. by rewrite Hj.
Qed.

(** ** Answers to other requests *)

(** The answer of a GET for a switch that is not exposed goes on after its error, with the
    status of nothing. *)
Theorem unknown_switch_answered_twice (r : HttpRequest) (w : World) :
  rq_Method r = "GET" → names_given r = true → getSwitch (rq_machine r) (rq_watcher r) (hw_server w) = None →
  status_Marshal None = Ok "null" →
  SwitchHandler r w = (w, Ok {| rs_status := Some StatusBadRequest; rs_body := "switch not found" +:+ "null" |}) ∧
  HASwitchHandler r w = (w, Ok {| rs_status := Some StatusBadRequest; rs_body := "switch not found" |}).
Proof.
  intros Hm Hn Hg Hj. unfold SwitchHandler, HASwitchHandler, switchGetHandler, haSwitchGetHandler, switchGetImpl.
  rewrite Hm, Hn, Hg. cbn. by rewrite Hj.
Qed.

(** The two ways of asking for the state of a switch agree. *)
Theorem states_are_reported (r : HttpRequest) (w : World) (id : nat) j :
  rq_Method r = "GET" → names_given r = true → getSwitch (rq_machine r) (rq_watcher r) (hw_server w) = Some id →
  let s := HttpSwitch.CurrentState (hw_switches w id).1 in
  status_Marshal (Some {| sg_IsOn := sn_IsOn s; sg_IsOff := negb (sn_IsOn s); sg_Status := sn_PreviousOutcome s;
                          sg_Detail := s |}) = Ok j →
  SwitchHandler r w = (w, Ok {| rs_status := Some StatusOK; rs_body := j |}) ∧
  HASwitchHandler r w =
    (w, Ok {| rs_status := Some StatusOK;
              rs_body := on_off (bool_decide (hs_previous (hw_switches w id).1 = On)) |}).
Proof.
  intros Hm Hn Hg s Hj. unfold SwitchHandler, HASwitchHandler, switchGetHandler, haSwitchGetHandler, switchGetImpl.
  rewrite Hm, Hn, Hg. subst s. cbv zeta. cbn [mbind outcome_bind]. change (String.eqb "GET" "GET") with true. cbn [negb or_500]. rewrite Hj. by split.
Qed.

End Handlers.

(** ** A server for the witnesses *)

#[local] Instance demo_http_json : HttpJSON := {|
  status_Marshal := λ r, Ok match r with None => "null" | Some r => on_off (sg_IsOn r) end;
  metric_Marshal := λ _, Ok "{}";
  post_Marshal := λ on, Ok (if on then "{'is_on':true}" else "{'is_on':false}");
  post_Decode := λ s, Ok (String.eqb s "{'on':true}");
|}.

Definition demo_http_world : World :=
  {| hw_server := AddSwitchWatcher "lamp" "switch" 0 NewHTTPServer;
     hw_switches := λ _, (demo_switch, {| mv_State := "on"; mv_LookupExternal := λ _, Err "no such machine" |});
     hw_metrics := λ _, new_metric "nagios" |}.

Definition demo_off : HttpRequest :=
  {| rq_Method := "POST"; rq_machine := "lamp"; rq_watcher := "switch"; rq_Body := Ok "{'on':false}" |}.

(** The lamp is turned off and the answer says that it is on. *)
Lemma presses_are_answered_on_witness :
  handle false demo_off demo_http_world =
    (pressed_world Off 0 demo_http_world, Ok {| rs_status := Some StatusOK; rs_body := "{'is_on':true}" |}).
Proof.
  apply (presses_are_answered_on false false demo_off demo_http_world 0); [vm_compute; reflexivity..| |reflexivity].
  split; vm_compute; reflexivity.
Defined.

Lemma requests_only_press_witness :
  (handle false demo_off demo_http_world).1 = demo_http_world ∨
  ∃ on id, asks false demo_off = Some on ∧ getSwitch "lamp" "switch" (hw_server demo_http_world) = Some id ∧
    accepts id demo_http_world ∧ (handle false demo_off demo_http_world).1 = pressed_world (wanted on) id demo_http_world.
Proof.
  apply (requests_only_press false demo_off demo_http_world _ (handle false demo_off demo_http_world).2).
  apply surjective_pairing.
Defined.

Definition demo_unknown : HttpRequest :=
  {| rq_Method := "GET"; rq_machine := "lamp"; rq_watcher := "dimmer"; rq_Body := Ok "" |}.

Lemma unknown_switch_answered_twice_witness :
  SwitchHandler demo_unknown demo_http_world =
    (demo_http_world, Ok {| rs_status := Some StatusBadRequest; rs_body := "switch not foundnull" |}).
Proof. apply (unknown_switch_answered_twice demo_unknown demo_http_world); vm_compute; reflexivity. Defined.

(** A machine that is loaded again before its old watcher ends: the old one takes the new
    switch away. *)
Example old_watcher_removes_new :
  getSwitch "lamp" "switch" (foldl do_call NewHTTPServer [Add "lamp" "switch" 0; Add "lamp" "switch" 1; Remove "lamp" "switch"])
    = None.
Proof. reflexivity. Qed.
