(* ===== verification/AuditLog.v ===== *)
(** * Auditing of requests

    providers/agent/mcorpc/audit/choria.go and where agents call it (agent.go,
    [HandleMessage]): a line of JSON per request in a log file, written after a request
    was authorized and before its action runs.  The system calls are the class
    [AuditSystem]; the mutex is held for the whole of a write. *)
From S2P Require Import Prelude GoLib Records Regex Files Facts GoNum Filters DemoLibs Util AuthTypes Transport SecureMessages DemoJSON Security Message AgentManager ActionPolicy Rpc DemoServer.

Record AuditConfig := {
  RPCAudit : bool;
  RPCAuditLogfile : string;
  RPCAuditLogfileGroup : string;
  RPCAuditLogFileMode : string;
}.

(** [audit.Message]; the time of the request in seconds *)
Record AuditMessage := {
  au_TimeStamp : string;
  au_RequestID : string;
  au_RequestTime : Z;
  au_CallerID : string;
  au_Sender : string;
  au_Agent : string;
  au_Action : string;
  au_Data : string;
}.

(** Files by their content. *)
Abbreviation logs := (gmap string string).

(** Opening a file in a mode to append to it, a group's id, changing the group of a file,
    and how much of a text is written. *)
Class AuditSystem := {
  audit_Marshal : AuditMessage → option string;
  sys_OpenFile : string → Z → res ();
  sys_LookupGroup : string → res string;
  sys_Chown : string → Z → res ();
  sys_WriteString : string → string → nat * res ();
}.

Section Audit.
Context `{AS : AuditSystem}.

(** The file is created before its group is known. *)
Definition createAuditLog (logfile logfileGroup : string) (logfileMode : Z) (l : logs) : logs * res () :=
  match sys_OpenFile logfile logfileMode with
  | Err e => (l, Err e)
  | Panic p => (l, Panic p)
  | Ok _ =>
      let l := <[logfile := default "" (l !! logfile)]> l in
      (l, if String.eqb logfileGroup "" then Ok tt
          else
            gid ← sys_LookupGroup logfileGroup;
            match atoi gid with
            | None => Err ("strconv.Atoi: parsing " +:+ gid +:+ ": invalid syntax")
            | Some gid => sys_Chown logfile gid
            end)
  end.

Definition audit_message (now : string) (request : Transport.Request) (agent action data : string) : AuditMessage :=
  {| au_TimeStamp := now; au_RequestID := rq_RequestID request; au_RequestTime := (rq_Time_ns request / Second)%Z;
     au_CallerID := rq_CallerID request; au_Sender := rq_SenderID request; au_Agent := agent; au_Action := action;
     au_Data := data |}.

Definition line_of (j : string) : string := j +:+ String newline_char "".

(** [audit.Request] *)
Definition audit_Request (now : string) (request : Transport.Request) (agent action data : string) (cfg : AuditConfig)
    (l : logs) : logs * outcome Empty_set bool :=
  if negb (RPCAudit cfg) then (l, Ok false)
  else
    match ParseUint (RPCAuditLogFileMode cfg) 0 32 with
    | Err _ => (l, Ok false)
    | Panic p => (l, Panic p)
    | Ok logfileMode =>
        let logfile := RPCAuditLogfile cfg in
        if String.eqb logfile "" then (l, Ok false)
        else
          match audit_Marshal (audit_message now request agent action data) with
          | None => (l, Ok false)
          | Some j =>
              match createAuditLog logfile (RPCAuditLogfileGroup cfg) logfileMode l with
              | (l, Err _) => (l, Ok false)
              | (l, Panic p) => (l, Panic p)
              | (l, Ok _) =>
                  let '(n, r) := sys_WriteString logfile (line_of j) in
                  (<[logfile := default "" (l !! logfile) +:+ take_bytes n (line_of j)]> l,
                   match r with Ok _ => Ok true | Err _ => Ok false | Panic p => Panic p end)
              end
          end
    end.

Section Agents.
Context {W : Type} `{TL : TokenLib} `{RJ : RpcJSON} `{OP : OPA} `{FL : FactLib} `{RX : Regexp}.
Variable fs : filesystem.
Variable cfg : AuditConfig.

(** [Agent.HandleMessage] until its reply is published, with the log beside the world of
    the actions; what [audit.Request] returns is not looked at. *)
Definition audited_handle (now : string) (a : RpcAgent W) (msg : Message) (request : Transport.Request) (w : W * logs) :
    (W * logs) * outcome Empty_set RpcReply :=
  match parseIncomingMessage (m_payload msg) request with
  | Panic p => (w, Panic p)
  | Err e => (w, Ok (fail_reply InvalidData ("Could not process request: " +:+ e) newReply))
  | Ok rpcrequest =>
      let reply := {| re_Action := rr_Action rpcrequest; re_Statuscode := OK; re_Statusmsg := "OK";
                      re_Data := Some "{}"; re_DisableResponse := false |} in
      match a_actions a !! rr_Action rpcrequest with
      | None =>
          (w, Ok (fail_reply UnknownAction
                    ("Unknown action " +:+ rr_Action rpcrequest +:+ " for agent " +:+ md_Name (a_meta a)) reply))
      | Some action =>
          if RPCAuthorization (a_Config a) && negb (agent_authorize fs a rpcrequest)
          then (w, Ok (fail_reply Aborted "You are not authorized to call this agent or action" reply))
          else
            let '(l, audited) :=
              if RPCAudit cfg
              then audit_Request now request (rr_Agent rpcrequest) (rr_Action rpcrequest) (rr_Data rpcrequest) cfg w.2
              else (w.2, Ok true) in
            match audited with
            | Panic p => ((w.1, l), Panic p)
            | _ => let '(w', r) := action rpcrequest reply w.1 in ((w', l), r)
            end
      end
  end.

(** * Theorems *)

(** No system call panics. *)
Class SystemReturns : Prop := {
  open_returns : ∀ f m, is_panic (sys_OpenFile f m) = false;
  group_returns : ∀ g, is_panic (sys_LookupGroup g) = false;
  chown_returns : ∀ f g, is_panic (sys_Chown f g) = false;
  write_returns : ∀ f s, is_panic (sys_WriteString f s).2 = false;
}.

Lemma create_returns `{SystemReturns} logfile group mode l :
  is_panic (createAuditLog logfile group mode l).2 = false.
Proof.
  unfold createAuditLog. pose proof (open_returns logfile mode) as Ho.
  destruct (sys_OpenFile logfile mode); [|done..]. cbn [snd]. destruct (String.eqb group ""); [done|].
  pose proof (group_returns group) as Hg. destruct (sys_LookupGroup group) as [gid|?|?]; [|done..]. cbn.
  destruct (atoi gid); [apply chown_returns|done].
Qed.

Lemma digits_return b b0 max acc s : is_panic (digits_in b b0 max acc s) = false.
Proof. revert acc. induction s as [|c s IH]; intros acc; [done|]. cbn. repeat case_match; done. Qed.

Lemma ParseUint_returns s b n : is_panic (ParseUint s b n) = false.
Proof.
  unfold ParseUint. destruct (String.eqb s ""); [done|]. cbv zeta. destruct (b =? 0)%Z; [|apply digits_return].
  destruct (base_prefix s) as [b' ds]. pose proof (digits_return b' true (2 ^ n - 1) 0 ds) as Hd.
  destruct (digits_in _ _ _ _ _); [|done..]. by destruct (_ && _).
Qed.

Lemma audit_returns `{SystemReturns} now request agent action data l :
  ∃ b, (audit_Request now request agent action data cfg l).2 = Ok b.
Proof.
  unfold audit_Request. destruct (negb (RPCAudit cfg)); [by eexists|].
  pose proof (ParseUint_returns (RPCAuditLogFileMode cfg) 0 32) as Hp.
  destruct (ParseUint _ _ _) as [mode|?|?]; [|by eexists|done].
  destruct (String.eqb _ ""); [by eexists|]. destruct (audit_Marshal _) as [j|]; [|by eexists].
  pose proof (create_returns (RPCAuditLogfile cfg) (RPCAuditLogfileGroup cfg) mode l) as Hc.
  destruct (createAuditLog _ _ _ _) as [l' [u|?|?]]; [|by eexists|done].
  pose proof (write_returns (RPCAuditLogfile cfg) (line_of j)) as Hw.
  destruct (sys_WriteString _ _) as [k [v|?|?]]; [by eexists..|done].
Qed.

(** Auditing watches: whatever becomes of the log, the action, the world and the reply are
    those of an agent without it, which is how the rest of the development models agents. *)
Theorem audit_only_watches `{SystemReturns} now (a : RpcAgent W) msg request w :
  let r := audited_handle now a msg request w in
  (r.1.1, r.2) = Rpc.handle fs a msg request w.1.
Proof.
  unfold audited_handle, Rpc.handle. destruct (parseIncomingMessage _ _) as [req|?|?]; [|done..].
  destruct (a_actions a !! rr_Action req) as [action|]; [|done].
  destruct (_ && _); [done|].
  destruct (RPCAudit cfg).
  - destruct (audit_returns now request (rr_Agent req) (rr_Action req) (rr_Data req) w.2) as [b Hb].
    destruct (audit_Request _ _ _ _ _ _ _) as [l r]. cbn in Hb. subst r.
    destruct (action _ _ _) as [w' r]. done.
  - destruct (action _ _ _) as [w' r]. done.
Qed.

(** ** The log *)

(** The request whose action an agent runs for a message. *)
Definition runs (a : RpcAgent W) (msg : Message) (request : Transport.Request) : option RpcRequest :=
  match parseIncomingMessage (m_payload msg) request with
  | Ok req =>
      match a_actions a !! rr_Action req with
      | Some _ => if RPCAuthorization (a_Config a) && negb (agent_authorize fs a req) then None else Some req
      | None => None
      end
  | _ => None
  end.

(** The log can be written to. *)
Record audit_works : Prop := {
  works_on : RPCAudit cfg = true;
  works_mode : is_ok (ParseUint (RPCAuditLogFileMode cfg) 0 32) = true;
  works_file : RPCAuditLogfile cfg ≠ "";
  works_json : ∀ m, is_Some (audit_Marshal m);
  works_open : ∀ mode l, is_ok (createAuditLog (RPCAuditLogfile cfg) (RPCAuditLogfileGroup cfg) mode l).2 = true;
  works_write : ∀ s, sys_WriteString (RPCAuditLogfile cfg) s = (String.length s, Ok tt);
}.

(** The line of a message: none when no action runs. *)
Definition entry (now : string) (a : RpcAgent W) (msg : Message) (request : Transport.Request) : string :=
  match runs a msg request with
  | Some req => line_of (default "" (audit_Marshal (audit_message now request (rr_Agent req) (rr_Action req) (rr_Data req))))
  | None => ""
  end.

Lemma take_all s : take_bytes (String.length s) s = s.
Proof. induction s as [|c s IH]; [done|]. cbn. by f_equal. Qed.

Lemma create_keeps logfile group mode l f : default "" ((createAuditLog logfile group mode l).1 !! f) = default "" (l !! f).
Proof.
  unfold createAuditLog. destruct (sys_OpenFile _ _); [|done..]. cbn [fst].
  destruct (decide (logfile = f)) as [->|Hf]; [by rewrite lookup_insert_eq|by rewrite lookup_insert_ne].
Qed.

Lemma audited_line (Hw : audit_works) now request agent action data l f :
  let l' := (audit_Request now request agent action data cfg l).1 in
  default "" (l' !! f) = default "" (l !! f) +:+
    (if bool_decide (f = RPCAuditLogfile cfg)
     then line_of (default "" (audit_Marshal (audit_message now request agent action data))) else "").
Proof.
  cbv zeta. unfold audit_Request. rewrite (works_on Hw). cbn [negb].
  pose proof (works_mode Hw) as Hm. destruct (ParseUint _ _ _) as [mode|?|?]; [|done..].
  destruct (String.eqb_spec (RPCAuditLogfile cfg) "") as [He|_]; [by destruct (works_file Hw)|].
  destruct (works_json Hw (audit_message now request agent action data)) as [j ->].
  pose proof (create_keeps (RPCAuditLogfile cfg) (RPCAuditLogfileGroup cfg) mode l) as Hk.
  pose proof (works_open Hw mode l) as Ho.
  destruct (createAuditLog _ _ _ _) as [l' [u|?|?]]; [|done..]. cbn [fst snd] in *.
  rewrite (works_write Hw), take_all. cbn [fst]. case_bool_decide as Hf.
  - subst f. rewrite lookup_insert_eq. cbn. by rewrite Hk.
  - rewrite lookup_insert_ne by done. by rewrite Hk, append_nil_r.
Qed.

(** A server's agents, one message after the other, each at its time. *)
Definition serve_all (l : list (string * RpcAgent W * Message * Transport.Request)) (w : W * logs) : W * logs :=
  foldl (λ w x, (audited_handle x.1.1.1 x.1.1.2 x.1.2 x.2 w).1) w l.

Lemma handled_line (Hw : audit_works) `{SystemReturns} now a msg request w f :
  default "" ((audited_handle now a msg request w).1.2 !! f) =
  default "" (w.2 !! f) +:+ (if bool_decide (f = RPCAuditLogfile cfg) then entry now a msg request else "").
Proof.
  unfold audited_handle, entry, runs.
  assert (∀ s, s = s +:+ (if bool_decide (f = RPCAuditLogfile cfg) then "" else "")) as Hnil
    by (intros s; destruct (bool_decide _); by rewrite append_nil_r).
  destruct (parseIncomingMessage _ _) as [req|?|?]; [|apply Hnil..].
  destruct (a_actions a !! rr_Action req) as [action|]; [|apply Hnil].
  destruct (_ && _); [apply Hnil|]. rewrite (works_on Hw).
  pose proof (audited_line Hw now request (rr_Agent req) (rr_Action req) (rr_Data req) w.2 f) as Hl.
  destruct (audit_returns now request (rr_Agent req) (rr_Action req) (rr_Data req) w.2) as [b Hb].
  destruct (audit_Request _ _ _ _ _ _ _) as [l r]. cbn in Hb, Hl. subst r.
  destruct (action _ _ _) as [w' r]. exact Hl.
Qed.

(** C20. The log is the history of the server: when it can be written to, it ends with one line
    for every message whose action ran, in their order, and nothing for those that were
    refused; no other file is touched. *)
Theorem log_is_history (Hw : audit_works) `{SystemReturns} (l : list (string * RpcAgent W * Message * Transport.Request))
    (w : W * logs) (f : string) :
  default "" ((serve_all l w).2 !! f) =
  default "" (w.2 !! f) +:+
    (if bool_decide (f = RPCAuditLogfile cfg)
     then String.concat "" (map (λ x, entry x.1.1.1 x.1.1.2 x.1.2 x.2) l) else "").
Proof.
  induction l as [|x l IH] using rev_ind.
  - cbn. destruct (bool_decide _); by rewrite append_nil_r.
  - unfold serve_all in *. rewrite foldl_snoc, handled_line, IH by done.
    rewrite map_app. cbn [map]. rewrite append_assoc'. f_equal.
    destruct (bool_decide _); [|done]. by rewrite text_concat_app.
Qed.

End Agents.
End Audit.

(** ** A log for the witnesses *)

#[local] Instance demo_audit : AuditSystem := {|
  audit_Marshal := λ m, Some (au_CallerID m +:+ " " +:+ au_Agent m +:+ "#" +:+ au_Action m);
  sys_OpenFile := λ _ _, Ok tt;
  sys_LookupGroup := λ _, Err "unknown group";
  sys_Chown := λ _ _, Ok tt;
  sys_WriteString := λ _ s, (String.length s, Ok tt);
|}.

#[local] Instance demo_audit_returns : SystemReturns.
Proof. by split. Qed.

Definition demo_audit_config (group : string) : AuditConfig :=
  {| RPCAudit := true; RPCAuditLogfile := "/var/log/choria-audit.log"; RPCAuditLogfileGroup := group;
     RPCAuditLogFileMode := "0600" |}.

(** One request of [bob], and one for an action the agent does not have. *)
Definition demo_served : list (string * RpcAgent (list string) * Message * Transport.Request) :=
  [("now", demo_agent, demo_message, demo_ping);
   ("now", New demo_metadata demo_rpc_config, demo_message, demo_ping)].

(** Without the group of the log nothing is written and the action runs all the same. *)
Lemma audit_only_watches_witness :
  let r := audited_handle demo_fs (demo_audit_config "auditors") "now" demo_agent demo_message demo_ping ([], ∅) in
  (r.1.1, r.2) = Rpc.handle demo_fs demo_agent demo_message demo_ping [] ∧ r.1.2 = {["/var/log/choria-audit.log" := ""]} ∧
  r.1.1 = ["choria=bob"].
Proof.
  split; [apply (audit_only_watches demo_fs (demo_audit_config "auditors") "now" demo_agent demo_message demo_ping ([], ∅))|].
  split; vm_compute; reflexivity.
Defined.

Lemma log_is_history_witness :
  default "" ((serve_all demo_fs (demo_audit_config "") demo_served ([], ∅)).2 !! "/var/log/choria-audit.log") =
  "choria=bob rpcutil#ping" +:+ String newline_char "".
Proof.
  transitivity (String.concat "" (map (λ x, entry demo_fs x.1.1.1 x.1.1.2 x.1.2 x.2) demo_served)); [|vm_compute; reflexivity].
  assert (audit_works (demo_audit_config "")) as Hw.
  { split; [reflexivity|vm_compute; reflexivity|discriminate|intros m; eexists; reflexivity|reflexivity|reflexivity]. }
  exact (log_is_history demo_fs (demo_audit_config "") Hw demo_served ([], ∅) "/var/log/choria-audit.log").
Defined.
