(* ===== verification/Signers.v ===== *)
(** * Remote signers of requests

    providers/signers/ (aaasvc_http.go, aaasvc_rpc.go) and the choice among them in
    choria/framework.go: a client that may not sign its own requests sends them, with its
    token and a signature of its own, to a service that signs them.  The HTTP client and
    the generated client of the service (client/aaa_signerclient/) are classes; the value
    of an output of that client is asserted to be text. *)
From S2P Require Import Prelude GoLib Records Regex Files Facts Filters Util AuthTypes Transport SecureMessages DemoJSON Security.

(** [inter.RequestSignerConfig] *)
Record SignerConfig := {
  rs_URL : res string;
  rs_Token : res string;
  rs_SeedFile : res string;
}.

Record httpSigningRequest := {
  hs_Token : string;
  hs_Request : string;
  hs_Signature : string;
}.

Record httpSigningReply := {
  hs_Signed : string;
  hs_Error : string;
}.

Record HTTPAnswer := {
  ha_StatusCode : Z;
  ha_Status : string;
  (** reading it can fail *)
  ha_Body : res string;
}.

Class SignerHTTP := {
  signing_Marshal : httpSigningRequest → res string;
  signing_Unmarshal : string → res httpSigningReply;
  http_Post : string → string → res HTTPAnswer;
}.

(** An output of the sign action: whether it succeeded, its message and the value
    [secure_request], [None] when it is missing or no text. *)
Record SignOutput := {
  so_OK : bool;
  so_StatusMessage : string;
  so_secure_request : option string;
}.

(** [New] and [Sign(request, signature, token).Do], with the number of responses. *)
Class AAAClient := {
  aaac_New : res ();
  aaac_Sign : string → string → string → res (Z * list SignOutput);
}.

Definition SecureRequest_output (r : SignOutput) : res string :=
  match so_secure_request r with
  | Some s => Ok s
  | None => Panic "interface conversion: interface {} is nil, not string"
  end.

Section Signers.
Context `{KS : KeyStore} `{SH : SignerHTTP} `{AC : AAAClient}.

(** [aaaServiceHTTP.Sign] *)
Definition http_Sign (request : string) (cfg : SignerConfig) : res string :=
  signer ← map_err (λ _, "remote signing URL not configured") (rs_URL cfg);
  token ← rs_Token cfg;
  sf ← rs_SeedFile cfg;
  sigb ← Ed25519SignWithSeedFile sf request;
  jreq ← map_err (λ e, "could not encode request: " +:+ e)
           (signing_Marshal {| hs_Request := request; hs_Token := token; hs_Signature := hex_encode sigb |});
  resp ← map_err (λ e, "could not perform signing request: " +:+ e) (http_Post signer jreq);
  if negb (ha_StatusCode resp =? 200)%Z
  then Err ("could not perform remote signing request: " +:+ ha_Status resp)
  else
    body ← map_err (λ e, "could not read signing response: " +:+ e) (ha_Body resp);
    signerResp ← map_err (λ e, "could not parse signer response: " +:+ e) (signing_Unmarshal body);
    if negb (String.eqb (hs_Error signerResp) "") then Err ("error from remote signer: " +:+ hs_Error signerResp)
    else Ok (hs_Signed signerResp).

(** The outputs, the last of which gives the answer and any failed of which the error. *)
Fixpoint each_output (l : list SignOutput) (acc : string * option string) : res (string * option string) :=
  match l with
  | [] => Ok acc
  | r :: rest =>
      let err := if so_OK r then acc.2 else Some ("signing failed: " +:+ so_StatusMessage r) in
      signed ← SecureRequest_output r;
      each_output rest (signed, err)
  end.

(** [aaaServiceRPC.Sign] *)
Definition rpc_Sign (request : string) (cfg : SignerConfig) : res string :=
  aaac_New;;
  token ← rs_Token cfg;
  sf ← rs_SeedFile cfg;
  sigb ← Ed25519SignWithSeedFile sf request;
  res ← aaac_Sign request (hex_encode sigb) token;
  if negb (res.1 =? 1)%Z then Err ("expected 1 response received " +:+ itoa res.1)
  else
    r ← each_output res.2 ("", None);
    match r.2 with Some e => Err e | None => Ok r.1 end.

(** The signer [setupSecurity] chooses: one of the embedding program, the service on the
    network, the one at a URL, none. *)
Definition choose_signer (customRequestSigner : option (string → SignerConfig → res string))
    (RemoteSignerService : bool) (RemoteSignerURL : string) : option (string → SignerConfig → res string) :=
  match customRequestSigner with
  | Some s => Some s
  | None =>
      if RemoteSignerService then Some rpc_Sign
      else if negb (String.eqb RemoteSignerURL "") then Some http_Sign
      else None
  end.

(** What the Choria security provider is for a signer. *)
Definition choria_signer_config (conf : Config) (url : res string) : SignerConfig :=
  {| rs_URL := url; rs_Token := RemoteSignerToken conf; rs_SeedFile := Ok (sc_SeedFile conf) |}.

(** The configuration of a provider that has its requests signed. *)
Definition with_signer (conf : Config) (sign : string → SignerConfig → res string) (url : res string) : Config :=
  conf <| sc_RemoteSigner := Some (λ request, sign request (choria_signer_config conf url)) |>.

(** * Theorems *)

(** ** What a service is asked and what is made of its answer *)

(** The request for a signature a provider makes: its token as it is on disk and a
    signature of the request by its seed. *)
Definition signature_of (cfg : SignerConfig) (request : string) (token sig : string) : Prop :=
  rs_Token cfg = Ok token ∧
  ∃ sf sigb, rs_SeedFile cfg = Ok sf ∧ Ed25519SignWithSeedFile sf request = Ok sigb ∧ sig = hex_encode sigb.

Lemma http_sign_inv request cfg signed :
  http_Sign request cfg = Ok signed →
  ∃ url token sig jreq resp body, rs_URL cfg = Ok url ∧ signature_of cfg request token sig ∧
    signing_Marshal {| hs_Token := token; hs_Request := request; hs_Signature := sig |} = Ok jreq ∧
    http_Post url jreq = Ok resp ∧ ha_StatusCode resp = 200%Z ∧ ha_Body resp = Ok body ∧
    signing_Unmarshal body = Ok {| hs_Signed := signed; hs_Error := "" |}.
Proof.
  unfold http_Sign, mbind, outcome_bind. destruct (rs_URL cfg) as [url|?|?]; [|done..]. cbn [map_err].
  destruct (rs_Token cfg) as [token|?|?] eqn:Ht; [|done..].
  destruct (rs_SeedFile cfg) as [sf|?|?] eqn:Hf; [|done..].
  destruct (Ed25519SignWithSeedFile sf request) as [sigb|?|?] eqn:Hs; [|done..].
  destruct (signing_Marshal _) as [jreq|?|?] eqn:Hj; [|done..]. cbn [map_err].
  destruct (http_Post url jreq) as [resp|?|?] eqn:Hp; [|done..]. cbn [map_err].
  destruct (Z.eqb_spec (ha_StatusCode resp) 200) as [Hc|]; [|done]. cbn [negb].
  destruct (ha_Body resp) as [body|?|?] eqn:Hb; [|done..]. cbn [map_err].
  destruct (signing_Unmarshal body) as [[si e]|?|?] eqn:Hu; [|done..]. cbn [map_err hs_Error hs_Signed].
  destruct (String.eqb_spec e "") as [->|]; [|done]. cbn [negb]. intros [= <-].
  exists url, token, (hex_encode sigb), jreq, resp, body. split_and!; try done. split; [done|]. by exists sf, sigb.
Qed.

Lemma rpc_sign_inv request cfg signed :
  rpc_Sign request cfg = Ok signed →
  ∃ token sig outputs, signature_of cfg request token sig ∧ aaac_Sign request sig token = Ok (1%Z, outputs) ∧
    Forall (λ o, so_OK o = true) outputs ∧
    default (Some "") (so_secure_request <$> last outputs) = Some signed.
Proof.
  unfold rpc_Sign, mbind, outcome_bind. destruct aaac_New; [|done..].
  destruct (rs_Token cfg) as [token|?|?] eqn:Ht; [|done..].
  destruct (rs_SeedFile cfg) as [sf|?|?] eqn:Hf; [|done..].
  destruct (Ed25519SignWithSeedFile sf request) as [sigb|?|?] eqn:Hs; [|done..].
  destruct (aaac_Sign _ _ _) as [[n outputs]|?|?] eqn:Ha; [|done..]. cbn [fst snd].
  destruct (Z.eqb_spec n 1) as [->|]; [|done]. cbn [negb].
  assert (∀ l acc r, each_output l acc = Ok r → r.2 = None →
    acc.2 = None ∧ Forall (λ o, so_OK o = true) l ∧ default (Some acc.1) (so_secure_request <$> last l) = Some r.1) as He.
  { induction l as [|o l IH]; intros acc r; [intros [= <-] Hr; cbn; split_and!; [done|constructor|done]|]. cbn -[last].
    unfold SecureRequest_output, mbind, outcome_bind. destruct (so_secure_request o) as [s|] eqn:Eo; [|done].
    intros He Hr. destruct (IH _ _ He Hr) as (H1 & H2 & H3). cbn in H1. destruct (so_OK o) eqn:Ok_o; [|done].
    split_and!; [done|by constructor|]. destruct l as [|o' l]; [cbn in *; congruence|].
    change (last (o :: o' :: l)) with (last (o' :: l)).
    destruct (last (o' :: l)) as [x|] eqn:El; [exact H3|by apply last_None in El]. }
  destruct (each_output outputs ("", None)) as [[s [e|]]|?|?] eqn:Eo; [done| |done..]. cbn. intros [= <-].
  destruct (He _ _ _ Eo eq_refl) as (_ & H2 & H3).
  exists token, (hex_encode sigb), outputs. split_and!; try done. split; [done|]. by exists sf, sigb.
Qed.

(** A service that refuses ends the client: the value of its answer is read although the
    answer says that signing failed, and a refusal has none. *)
Theorem refusals_panic (request : string) (cfg : SignerConfig) (sf sigb token : string) (o : SignOutput) :
  aaac_New = Ok tt → rs_Token cfg = Ok token → rs_SeedFile cfg = Ok sf →
  Ed25519SignWithSeedFile sf request = Ok sigb →
  aaac_Sign request (hex_encode sigb) token = Ok (1%Z, [o]) → so_OK o = false → so_secure_request o = None →
  is_panic (rpc_Sign request cfg) = true.
Proof.
  intros Hn Ht Hf Hs Ha Ho Hv. unfold rpc_Sign, mbind, outcome_bind. rewrite Hn, Ht, Hf, Hs, Ha. cbn.
  unfold SecureRequest_output. by rewrite Hv.
Qed.

End Signers.

(** ** Delegated requests *)

Section Delegation.
Context `{TL : TokenLib} `{PF : Platform} `{KS : KeyStore} `{LT : !LawfulTokens} `{LK : !LawfulKeys}.
Context `{TJ : TransportJSON} `{MJ : MessageJSON} `{BF : BuildFlags}.

(** What the JSON of a secure request signed by a delegator decodes to. *)
Definition delegated_body (reqj seedd delegator caller : string) : SecureRequest :=
  {| sr_Type := V2; sr_Protocol := SecureRequestV2; sr_MessageBody := reqj; sr_Signature := ed25519_Sign seedd reqj;
     sr_Caller := caller; sr_SignerJWT := delegator |}.

(** C27. A request that a client has signed reaches the server: when the service answers the
    request for a signature with a secure request around the same body, signed with the
    seed of a delegator, and the issuer of the delegator's token, which the server trusts,
    also issued the client's, with access to the fleet, then the secure request the client
    makes, which carries the client's own token whatever token the service put there, is
    one the server accepts and reads the client's request from. *)
Theorem delegated_request_roundtrip (cc cs : Config) (sign : string → SignerConfig → res string) (url : res string)
    (req : Request) (reqj secj seedd delegator token other key : string) (d c : ClientIDClaims) :
  IsSecure = true →
  rq_Type req = V2 → rq_Protocol req = RequestV2 → IsRemoteSignerAgent (rq_Agent req) = false →
  request_Marshal req = Some reqj → schemaValidate RequestV2 reqj = Some [] →
  (∀ c s, request_Unmarshal reqj (empty_request V2 c s) = Some (received c s req)) →
  sign reqj (choria_signer_config cc url) = Ok secj →
  secure_request_Unmarshal secj (empty_secure_request V2 SecureRequestV2 "") =
    Some (delegated_body reqj seedd delegator other) →
  ReadFile (sc_TokenFile cc) = Ok token → delegator ≠ "" →
  String.length seedd = 32 → ClientPublicKey d = hex_encode (ed25519_Public seedd) →
  token_key cs delegator = Some key → ParseClientIDToken delegator key true = inl d →
  ParseClientIDToken token key true = inl c →
  has_permission AuthenticationDelegator d = true → fleet c = true →
  NewSecureRequest (SP := ChoriaSecurity (with_signer cc sign url)) req =
    Ok (delegated_body reqj seedd delegator token) ∧
  sr_Valid (SP := ChoriaSecurity cs) (delegated_body reqj seedd delegator token) = Ok true ∧
  NewRequestFromSecureRequest (delegated_body reqj seedd delegator token) = Ok (received token delegator req).
Proof.
  intros Hsec Hty Hpr Hag Hj Hsch Hun Hsign Hdec Htok Hd Hlen Hpk Hkey Hpd Hpc Hdel Hfl.
  set (r := delegated_body reqj seedd delegator token).
  assert (request_from_secure V2 r = Ok (received token delegator req)) as Hreq.
  { unfold request_from_secure. cbn [sr_Protocol r delegated_body]. rewrite String.eqb_refl. cbn [negb].
    rewrite decide_True by done. change (Ok ?x ≫= ?f) with (f x). cbv beta.
    change (passes_schema _ _) with (passes_schema RequestV2 reqj).
    rewrite (passes_schema_ok _ _ Hsch). cbn. unfold unmarshal_request. rewrite Hun. cbn. unfold received. by rewrite Hty. }
  split_and!.
  - unfold NewSecureRequest. rewrite Hpr. cbn [IsRemoteSigning ChoriaSecurity].
    rewrite bool_decide_eq_true_2 by (by eexists). change (String.eqb RequestV2 RequestV1) with false.
    rewrite String.eqb_refl. unfold NewRemoteSignedSecureRequest, check_technology. rewrite decide_True by done.
    unfold mbind, outcome_bind. rewrite Hsec, Hag. cbn [negb orb].
    unfold request_JSON, mbind, outcome_bind. rewrite Hj. cbn [decoded]. rewrite Hty. cbn [RequestVersion].
    rewrite (passes_schema_ok _ _ Hsch). cbn [RemoteSignRequest ChoriaSecurity].
    change (remote_sign_request _ _) with (sign reqj (choria_signer_config cc url)). rewrite Hsign.
    unfold unmarshal_secure_request, mbind, outcome_bind. cbn [SecureRequestVersion]. rewrite Hdec. cbn.
    rewrite (proj2 (String.eqb_neq _ _) Hd).
    change (match cc with {| sc_TokenFile := f |} => f end) with (sc_TokenFile cc). rewrite Htok. reflexivity.
  - destruct (valid_spec cs r eq_refl Hsec) as (b & Hb & Hiff). etransitivity; [exact Hb|]. f_equal. apply Hiff.
    eexists. split; [exact Hreq|]. right. split; [exact Hd|]. exists key, d, c. split_and!; try done.
    + rewrite Hpk. intros H. pose proof (hex_roundtrip (ed25519_Public seedd)) as Hx. rewrite H in Hx.
      pose proof (public_length seedd Hlen) as Hl. injection Hx as Hx. by rewrite <- Hx in Hl.
    + rewrite Hpk. exists (ed25519_Public seedd). split_and!; [apply hex_roundtrip|by apply public_length|by apply sign_verifies].
  - unfold NewRequestFromSecureRequest. cbn. exact Hreq.
Qed.

End Delegation.

(** ** A service for the witnesses

    It signs what [ann], who needs a delegator, sends it, and refuses everything over its
    network interface. *)

#[local] Instance demo_signer_http : SignerHTTP := {|
  signing_Marshal := λ r, Ok (hs_Request r);
  signing_Unmarshal := λ s, Ok {| hs_Signed := s; hs_Error := "" |};
  http_Post := λ _ body,
    Ok {| ha_StatusCode := 200; ha_Status := "200 OK";
          ha_Body := match secure_request_Marshal (delegated_body body demo_seed "token-aaa" "") with
                     | Some j => Ok j | None => Err "EOF" end |};
|}.

#[local] Instance demo_signer_client : AAAClient := {|
  aaac_New := Ok tt;
  aaac_Sign := λ _ _ _, Ok (1%Z, [{| so_OK := false; so_StatusMessage := "denied"; so_secure_request := None |}]);
|}.

Definition demo_ann : Config := demo_config "token-ann".

Lemma refusals_panic_witness :
  is_panic (rpc_Sign "{}" (choria_signer_config demo_ann (Ok ""))) = true.
Proof.
  apply (refusals_panic "{}" (choria_signer_config demo_ann (Ok "")) "seed" (demo_seed +:+ "{}") "token-ann"
           {| so_OK := false; so_StatusMessage := "denied"; so_secure_request := None |});
    vm_compute; reflexivity.
Defined.

Lemma delegated_request_roundtrip_witness :
  NewSecureRequest (SP := ChoriaSecurity (with_signer demo_ann http_Sign (Ok "https://aaa"))) (demo_request_of "choria=ann")
    = Ok (delegated_body (demo_body "choria=ann") demo_seed "token-aaa" "token-ann") ∧
  sr_Valid (SP := ChoriaSecurity (demo_config "token-srv"))
    (delegated_body (demo_body "choria=ann") demo_seed "token-aaa" "token-ann") = Ok true.
Proof.
  destruct (delegated_request_roundtrip demo_ann (demo_config "token-srv") http_Sign (Ok "https://aaa")
    (demo_request_of "choria=ann") (demo_body "choria=ann")
    (default "" (secure_request_Marshal (delegated_body (demo_body "choria=ann") demo_seed "token-aaa" "")))
    demo_seed "token-aaa" "token-ann" "" "issuer"
    (demo_claims "aaa=login" (demo_perms false false true)) (demo_claims "choria=ann" (demo_perms false true false)))
    as (H1 & H2 & _); try done; try (vm_compute; reflexivity).
Defined.
